(* ===== verification/_CoqProject ===== *)
-Q . S2P
Prelude.v
Replay.v
Liveness.v
ClaimLog.v
Base58.v
Base64.v
Token.v
Bencode.v
Net.v
CtlProto.v
Crypto.v
Keys.v
DataAuth.v
PathEp.v
Path.v
PathTable.v
PathAdopt.v
ProbePlane.v
CtlPlane.v
KeyExchange.v
PathPlane.v
PathHolds.v
NsFacts.v
TermFilter.v
Netstate.v
NetAddrs.v
NetAnchor.v
SigFam.v
StunProbe.v
AddrText.v
Obsemit.v
PeerNet.v
Peering.v
PeerModel.v
PeerAgree.v
PeerWorld.v
FwdSpec.v
Scan.v
CandPolicy.v
CandPack.v
Sha1.v
Bep44.v
Bep44Store.v
Bep44Ban.v
Bep44Op.v
Bep44Engine.v
Bep44Safe.v
Bep44World.v
Bep44Wf.v
Rdv.v
RdvWorld.v
RdvLive.v
Sig.v
SigCell.v
SigFlight.v
SigLoop.v
SigRound.v
Admit.v
AdmitOk.v
AdmitBook.v
AdmitGrant.v
AdmitRun.v
ShowFmt.v
MView.v
ShowRun.v
HostTok.v
SshFwd.v
SshFwdOk.v
SshFwdRun.v
Seccomp.v
SeccompOk.v
StunCache.v
StunCacheOk.v
StunRound.v
StunRoundOk.v
StunLive.v
StunList.v
