(* ===== verification/Prelude.v ===== *)
(** * comrade: a shallow embedding of its connection core, and its theorems

    comrade shares a terminal between two machines without a server in the
    middle.  An invitation token names a rendezvous; the two ends find each
    other through it, punch several ways through whatever lies between them,
    and carry one session over whichever way measures best, moving it as paths
    come and go.  The C sources are under src/src/.

    ** The parts and how they interact

    - A token (token.c, with base58.c, and tokgen.c for what a host puts in it)
      carries a rendezvous secret; keys.c derives the session's keys and wire
      tags from it, and seals messages and boxes with them.
    - The rendezvous is one mutable item of the BitTorrent DHT (bep44.c, over
      bencode.c and sha1.c): a cell with two places, the host's statement and
      a turn that claimants and the host's answers share.  rdv.c is the
      exchange of statements in it, the host's table of claimants and the
      claimant's side; sig.c drives the exchange: it reads the cell, merges and
      stores statements through the engine of bep44.c, relays over a peer's
      node, announces on the local link, and tells the program what it heard.
    - netstate.c keeps what is known of the network in each address family;
      candpolicy.c and candpack.c choose and pack the addresses an offer
      carries; stunprobe.c measures how a NAT maps; obsemit.c writes down what
      happened; nsfacts.c queues what the network thread learnt.
    - peering.c is the state machine of one connection: it feeds the facts to
      the network state, pools the addresses measured, agrees with the other
      end which path each transmits on and judges the link.
    - Between two connected ends, probes measure every path.  path.c is one
      path (its measurements, warmth and rank), the table of eight of them, the
      selection of the one that carries, and the budget for opening probes from
      unknown sources.  pathplane.c drives the table: the probe round, pings
      and pongs, the peer's pin, the carriers set aside.
    - Probes are sealed, and stream datagrams authenticated (dataauth.c), under
      the key schedule of probeplane.c: the invitation's base key first, then a
      pair key only the two ends hold.  replay.c refuses what was seen before.
    - The control plane (ctlplane.c) speaks the messages of ctlproto.c over the
      reliable stream: it exchanges the halves of the pair key, keeps
      liveness, and states which path each end transmits on.
    - hbeat.c, hostreap.c and claimlog.c judge when a link or a client is gone
      and whether a claimant has been served before; termfilter.c takes a row
      off the terminal's answer to the size question; fwdspec.c parses what is
      to be forwarded.
    - Part of session.c is the host's turnstile: how many punches and workers
      it may have at once, what each claimant's offer does to them, resumption
      of a session that lost its link, and the grant of admissions.
    - sshfwd.c carries tunnels over the session's SSH channels, in both
      directions; mview.c keeps a document and a line of events for programs
      that watch a session, showfmt.c and part of host.c print what
      [comrade show] says, and host.c keeps the invitation in a file.
    - stunprobe.c also keeps what the names of the STUN servers resolved to, and
      asks every address in a round that peering.c starts; stunlist.c has the
      names.
    - sandbox_posix.c assembles the system-call filters each process confines
      itself with.

    ** Files

    - [Prelude]: machine integers with their wrap-around, big-endian stores,
      [memcmp], C strings, record updates, automation and shared lemmas.
      [Net]: socket addresses and [inet_ntop].  [AddrText]: addresses as text.
      [Scan]: the [sscanf] conversions the sources use.
    - [Replay]: replay.c.  [Liveness]: hbeat.c and hostreap.c.  [ClaimLog]:
      claimlog.c.  [Base58]: base58.c.  [Base64]: base64.c.  [Token]: token.c
      and tokgen.c.  [Bencode]: bencode.c.  [CtlProto]: ctlproto.c.  [Sha1]:
      sha1.c.  [FwdSpec]: fwdspec.c.  [NsFacts]: nsfacts.c.  [TermFilter]:
      termfilter.c.
    - [Crypto]: the interface of ccrypto.c as classes, with the laws its
      callers rely on and small instances that satisfy them.  [Keys]: keys.c.
      [DataAuth]: dataauth.c.
    - [PathEp], [Path], [PathTable], [PathAdopt]: path.c, from endpoints and
      the probe codec, through one path, to the table and the budget.
      [PathPlane] and [PathHolds]: pathplane.c.
    - [ProbePlane]: probeplane.c.  [CtlPlane]: ctlplane.c.  [KeyExchange]: two
      ends of both, against each other.
    - [Netstate], [NetAddrs], [NetAnchor]: netstate.c, the connectivity
      verdict, the address sets and the anchor.  [CandPolicy], [CandPack]:
      candpolicy.c and candpack.c.  [StunProbe]: the codec and the
      classification of stunprobe.c.  [Obsemit]: obsemit.c.
    - [PeerNet], [Peering], [PeerModel]: peering.c, the egress pool, the state
      machine and its loop.  [PeerAgree]: two ends agreeing on a path.
      [PeerWorld]: peering.c and netstate.c together.
    - [Bep44]: targets, distances and messages of bep44.c.  [Bep44Store]: the
      store and its tokens.  [Bep44Ban]: the rate limiter.  [Bep44Op]: one
      lookup or store.  [Bep44Engine]: the entry points.  [Bep44Safe],
      [Bep44Wf]: what every operation keeps.  [Bep44World]: a client against a
      storing node.
    - [Rdv]: rdv.c.  [RdvWorld]: a host and its claimants over a store that
      may serve anything that was ever stated.  [RdvLive]: the exchange
      completing.
    - [SigFam]: the state of a family in sig.c.  [Sig]: sig.c.  [SigCell]: the
      cell.  [SigFlight]: the signaller as a step relation.  [SigLoop]: its
      inner loop.  [SigRound]: a host and a claimant through one cell.
    - [Admit]: the turnstile of session.c, its operations and runs.  [AdmitOk]:
      what every state it reaches satisfies.  [AdmitBook], [AdmitGrant]: the
      accounts and the grant.  [AdmitRun]: runs, and the defects they show.
    - [ShowFmt]: showfmt.c and the reading side of [host_show], with a reader of
      the JSON printed.  [MView]: mview.c.  [ShowRun]: the two together.
      [HostTok]: the token file, from the notice that writes it to the line
      shown.
    - [SshFwd]: sshfwd.c; what the sockets, the resolver, the clock and libssh
      answer is a script, the descriptors, channels, messages and address lists
      are numbered handles with a log of their releases.  [SshFwdOk]: what every
      run keeps.  [SshFwdRun]: termination, and what particular runs do.
    - [StunCache]: the resolver cache of stunprobe.c, and the choice of a server
      of peering.c.  [StunCacheOk]: what every run of it keeps.  [StunRound],
      [StunRoundOk]: the probe round, over the cache and under peering.c.
      [StunLive]: the cache and its rounds together, and the servers called
      live.  [StunList]: stunlist.c.
    - [Seccomp]: the filters of sandbox_posix.c and the machine that runs them;
      what the headers of a target say is the record [abi].  [SeccompOk]: the
      policies the filters implement.

    A definition carries the name of the C function it translates.  A struct is
    a record, an enum an inductive type, an [int] used as a truth value a bool;
    a function that changes a struct returns the new one, before what it
    returns; -1 and NULL are [None].  A pointer into a table is the index of its
    slot; a carrier is its address, 0 for NULL.  Each critical section is one
    function: an operation with two of them is two functions, so that what
    another thread does in between can be stated.  Callbacks are data: the
    answers a sink gives are arguments, the calls it receives are returned.
    Random bytes are arguments, [None] when the source fails.  In [Sig] the
    clock, the routes, the random source and what the engine makes of a request
    are the fields of one argument, [sig_env].

    ** What the theorems show

    - The key exchange ([KeyExchange]): in any order of delivery, with datagrams
      lost, repeated and reordered, neither end ever seals what the other cannot
      open, and once both halves are delivered both ends seal under the same
      pair key.  That a datagram sealed under the base key does not verify under
      a pair key by accident is the one assumption about an execution, stated
      where it is made ([no_clash]).
    - Proof of a path ([PathPlane]): only an authenticated, fresh answer to the
      question this path is waiting on qualifies it, and someone without a key
      who replays pings and reflects this end's own probes never qualifies one.
      The pin is followed exactly while it can be; every path that can send is
      probed each round; the table stays well formed.
    - Choice of a path ([Path], [PathTable]): the measurements are those of the
      last sixteen probes, what a peer claims is bounded, selection leaves a
      working path only for a strictly warmer one, a challenger never trades
      places with the path it displaced, and neither an addition nor an offer
      costs a path that may still work.
    - Agreement ([PeerAgree], [CtlPlane]): the ends transmit on paths they agreed
      on, an escape from a dead path is followed, and transmit statements are
      acted on in order and once.
    - Carriers ([PathHolds]): each is in use, set aside or given back exactly
      once, none is freed while a path borrows it, and letting go never touches
      the path in use.
    - Replay and delivery ([Replay], [ProbePlane]): the 64-bit window implements
      the unbounded history with its horizon, and no datagram is delivered
      twice; an end never stops being able to open what it should.
    - The network's state ([Netstate], [NetAddrs], [NetAnchor], [PeerNet],
      [PeerWorld]): a family is up only once something answered on the network
      it is on, the kernel decides which addresses it has, an anchor is kept
      while it answers, and the pool implements a set of the addresses of the
      current network.
    - Candidates and probes ([CandPolicy], [CandPack], [StunProbe]): the filters
      are exact, the packed form round trips and its reader stays in bounds, and
      the mapping verdict is the one the answers imply.
    - The item store ([Bep44Store], [Bep44Ban], [Bep44Safe], [Bep44Wf],
      [Bep44World]): a node stores only what carries a token it gave out, what
      it holds verifies, sequence numbers never go back, a ban lasts and a flood
      is bounded; an operation reports only what verifies under the key it
      asked for, keeps its node list sorted and its requests consistent, and
      ends; what one client puts another gets.
    - The exchange ([Rdv], [RdvWorld], [RdvLive]): the codec accepts exactly its
      own output; whatever is stated and in whatever order it is read, a
      claimant takes only an answer of its host to an ask it made, and takes it
      once; the host's table stays sound; and an ask that can be answered is.
    - The signaller ([SigCell], [SigFlight], [SigLoop], [SigRound]): a store
      keeps the place it does not write and an answer not yet read; whatever the
      program, the network and the engine do, one store is under way at a time
      and what the host said to a claimant is stored or said again; the loop
      over what is owed ends; and an ask goes from one program to the other, and
      its answer back, through the cell.
    - Codecs ([CtlProto], [Bencode], [Token], [Base58], [Base64], [Keys],
      [DataAuth], [PathEp], [Sha1]): round trips, exact acceptance, canonical
      form, error detection, bounded writers, and a hash that does not depend on
      how its input is cut.
    - Budget and verdicts ([PathAdopt], [Liveness], [ClaimLog]): the number of
      frames opened is bounded over any span, a client is neither given up on
      while it may return nor kept for ever, and the recent claimants are
      remembered.
    - Beside the connection ([NsFacts], [TermFilter], [FwdSpec]): the fact store
      is a queue from which nothing but a surplus address is lost, the filter
      alters size answers only, wherever the reads are cut, and a specification
      parses to what it says.
    - The turnstile ([AdmitOk], [AdmitGrant], [AdmitRun]): in every state reached
      from the start a connection has one role, what names it is alive, and
      nothing freed is named; the admissions spent, those in hand and those left
      add up to the grant, so a host that granted a number of sessions never
      serves more; a run that ends leaves nothing behind.
    - What is shown ([ShowFmt], [MView], [ShowRun], [HostTok]): a view tells each
      call that is news by that call's own event and keeps the document of the
      view as it stands, both reading back as the values they were made of,
      whatever bytes those hold; the document of a headless host fits the buffer it is read
      into; the invitation shown is the one that was issued.
    - Tunnels ([SshFwdOk], [SshFwdRun]): whatever is answered, each handle is
      released once and held by one owner, nothing is left at the end, the
      bytes of a tunnel arrive in order and whole, and every loop of a pass
      stops by itself.
    - STUN servers ([StunCacheOk], [StunRoundOk], [StunLive], [StunList]): a lookup
      replaces a name's addresses and no other's, a server is called live only
      when a round asked its address and had an answer for it, a pool that fits the
      cache is settled; a round asks every address its table has room for, an
      answer is credited to the server it came from; an update of the list is
      all or nothing.
    - The filters ([SeccompOk]): the programs always fit their buffers, the
      kernel's verdict is that of a policy written as a function, on every
      target, and a call the tables do not name is let through only by a rule
      on its argument.

    Theorems that state defects: [open_reset_race] of [ProbePlane], a reset that
    another thread undoes; [judge_wraps_backwards] of [CtlPlane], an unguarded
    subtraction of times; [quiet_starved] and [burst_confirms] of [NetAnchor],
    an anchor whose silence is not counted and one confirmed by a burst;
    [answer_counted_twice] and [deferred_round_waits] of [PeerWorld];
    [long_ufrag_lost] of [CandPack]; [climb_stops_on_cleared_slot] of
    [Bep44Ban]; [refused_update_names_node] of [Bep44Safe];
    [unsent_refusal_is_empty_answer] of [RdvLive], a refusal said again as
    something else; [settled_store_is_repeated] and [unsealed_statement_is_lost]
    of [SigLoop].  Smaller ones are evaluated by lemmas:
    [pong_over_agent_qualifies] of [PathPlane], [termfilter_longer_report] of
    [TermFilter], [nsfacts_out_short] of [NsFacts], [tx_stall],
    [fwdspec_lenient], [cand_ep_port_cut], [reaches_across_lines],
    [vouch_of_nothing] and [vouched_unseated_alive].
    Of the turnstile, the tunnels, the view and the filters:
    [spent_punch_keeps_turn] of [AdmitRun], a claimant whose punch ends after the
    grant is spent keeps its place, with the runs [resumption_refunded],
    [unstarted_charged], [admitted_twice], [wind_down_dangles] and
    [attempt_replaced]; [half_closed_tunnel_ends] of [SshFwdRun], with
    [remote_any_is_loopback], [limit_leaves_port_bound], [cancel_takes_first] and
    [response_never_read]; [ninth_guest_untold] of [MView];
    [one_server_settles_mapping] and [full_round_spins] of [StunRoundOk];
    [dead_name_asked_for_ever] and [put_inherits_mark] of [StunCacheOk]; and
    [x32_socket_allowed] of [SeccompOk], a number the no-network filter does not
    judge.

    ** Bounds and fuel

    The bencode reader takes fuel from the length of its input, and
    [benc_skip_fuel_enough] shows that more never changes the answer.  The loop
    of [host_answers] takes [answers_fuel], one turn for each context, each
    claimant and the host's statement; [answers_loop_ends] shows it is enough in
    every state the signaller reaches.  The loops of a lookup run over lists of
    fixed length, and [operations_end] shows every operation ends.  Decimal
    printing is given twenty digits, which hold every 64-bit value.  Times are
    64-bit milliseconds, and their differences wrap as in C.  A round trip is
    taken to be under 2^27 ms where the smoothed value must stay an [int].
    Sequence numbers of statements are 32-bit; the theorems on whole runs of the
    exchange are about runs of fewer than 2^32 operations.
    The loops of a tunnel take fuel from the answers left in the script, or
    from the bytes of the buffer, and log the event [Spun] where they are cut
    off; [tick_ends] shows that none ever is.  The reader of JSON takes fuel from the
    length of its input, the reader of the server list from that of the file,
    of which each line takes at least a byte; taking a name out of the resolver
    cache takes the number of rows.  A probe round runs over the passes it is
    given and says whether it ended by itself.

    ** What is not modelled

    The cryptographic backends and the libraries behind them (classes with
    laws stand for them), sockets and interface enumeration (sig_mcast.c,
    netmon.c, nat.c, lanlink.c), the third-party BEP 5 routing table and the
    loop around it (dhtnode.c), threads other than as interleavings of
    critical sections, allocation failure, logging, the terminal and the user
    interface, the sandbox but for its system-call filters, the SSH ends and the
    reliable stream under them, and of session.c and host.c all but the
    turnstile, the token file and what is shown: they start processes, open
    sockets and drive the planes, and have little to decide of their own.

    ** What is left

    What is left is mostly the orchestration of processes and sockets: the rest
    of session.c, host.c and spawner.c, the user interface (ui.c), dhtnode.c
    and sig_mcast.c, the SSH ends sshc.c and sshd.c over libssh, the namespaces
    and file rules of sandbox_posix.c and their counterparts for Windows. *)
From stdpp Require Export base numbers sets list list_numbers strings.
From Stdlib Require Export ZArith Lia.

#[export] Set Default Goal Selector "!".

Open Scope list_scope.
Open Scope Z_scope.

(** * Machine integers

    Every C integer is a [Z]; the wrap-around of the C type is written out
    with the functions below.  [iN] is the two's-complement conversion that
    every supported compiler applies to a value that does not fit. *)

Definition u8 (x : Z) : Z := x mod 2 ^ 8.
Definition u16 (x : Z) : Z := x mod 2 ^ 16.
Definition u32 (x : Z) : Z := x mod 2 ^ 32.
Definition u64 (x : Z) : Z := x mod 2 ^ 64.
Definition i32 (x : Z) : Z := (x + 2 ^ 31) mod 2 ^ 32 - 2 ^ 31.
Definition i64 (x : Z) : Z := (x + 2 ^ 63) mod 2 ^ 64 - 2 ^ 63.

Definition INT64_MAX : Z := 2 ^ 63 - 1.

Definition is_u8 (x : Z) : Prop := 0 <= x < 2 ^ 8.
Definition is_u16 (x : Z) : Prop := 0 <= x < 2 ^ 16.
Definition is_u32 (x : Z) : Prop := 0 <= x < 2 ^ 32.
Definition is_u64 (x : Z) : Prop := 0 <= x < 2 ^ 64.
Definition is_i32 (x : Z) : Prop := - 2 ^ 31 <= x < 2 ^ 31.

(** A byte buffer, with every element in range. *)
Abbreviation bytes := (list Z).
Definition bytes_ok (l : bytes) : Prop := Forall is_u8 l.

(** A C string, held without its terminating NUL. *)
Definition cstr_ok (l : bytes) : Prop := Forall (fun c => 0 < c < 2 ^ 8) l.

(** C's truth value of an [int]. *)
Definition truth (x : Z) : bool := negb (x =? 0).
Definition of_bool (b : bool) : Z := if b then 1 else 0.

Declare Scope c_scope.
Delimit Scope c_scope with C.
Notation "x >> n" := (Z.shiftr x n) (at level 35, no associativity) : c_scope.
Notation "x << n" := (Z.shiftl x n) (at level 35, no associativity) : c_scope.
Notation "x .| y" := (Z.lor x y) (at level 37, left associativity) : c_scope.
Notation "x .& y" := (Z.land x y) (at level 36, left associativity) : c_scope.
Open Scope c_scope.

(** * Buffers and strings of the C library *)

(** [memcmp]: the sign of the lexicographic comparison. *)
Fixpoint memcmp (a b : bytes) : Z :=
  match a, b with
  | x :: a', y :: b' =>
      if x <? y then -1 else if y <? x then 1 else memcmp a' b'
  | [], [] => 0
  | [], _ :: _ => -1
  | _ :: _, [] => 1
  end.

(** Equality of two buffers or strings, [!memcmp(..)] and [!strcmp(..)]. *)
Definition bytes_eqb (a b : bytes) : bool := bool_decide (a = b).

(** Big-endian stores: [p[i] = (uint8_t)(v >> (8 * (n - 1 - i)))]. *)
Fixpoint be_put (n : nat) (v : Z) : bytes :=
  match n with
  | O => []
  | S n' => u8 (v >> (8 * Z.of_nat n')) :: be_put n' v
  end.

(** Big-endian loads: [v = (v << 8) | p[i]]. *)
Definition be_get (l : bytes) : Z :=
  fold_left (fun v b => (v << 8) .| b) l 0.

(** [p[off .. off + n)] of a buffer. *)
Definition slice (off n : nat) (l : bytes) : bytes := take n (drop off l).

(** Decimal digits of a natural number, as ["%zu"] prints it.  Twenty digits
    hold every 64-bit value, so the fuel given by callers is never short. *)
Fixpoint dec_digits (fuel : nat) (n : Z) : bytes :=
  match fuel with
  | O => []
  | S f => if n <? 10 then [48 + n] else dec_digits f (n / 10) ++ [48 + n mod 10]
  end.
Definition dec (n : Z) : bytes := dec_digits 20 n.

(** A string literal, without its terminating NUL. *)
Definition cstr (s : String.string) : bytes :=
  map (fun a => Z.of_N (Ascii.N_of_ascii a)) (String.list_ascii_of_string s).
Arguments cstr s%_string.

(** [if (p[zeros] == 0) zeros++]: a buffer from its first nonzero element. *)
Fixpoint drop_zeros (l : bytes) : bytes :=
  match l with
  | [] => []
  | d :: l' => if d =? 0 then drop_zeros l' else l
  end.

(** * Record fields

    [Setter f] is the update of one field of a struct; [r <| f := v |>] is
    [r.f = v].  Instances are built from the eta-expansion of the record. *)
Class Setter {R T : Type} (f : R -> T) := set : T -> R -> R.
#[global] Hint Mode Setter - - + : typeclass_instances.
Arguments set {R T} f {_} v r /.
Notation "r <| f := v |>" := (set f v r)
  (at level 1, left associativity, f at level 0, v at level 200) : c_scope.

Ltac solve_setter eta :=
  match goal with
  | |- Setter ?f =>
      let v := fresh "v" in
      let r := fresh "r" in
      intros v r;
      let e := eval cbv beta delta [eta] in (eta r) in
      match eval pattern (f r) in e with
      | ?g _ => let t := eval cbv beta in (g v) in exact t
      end
  end.

(** * Automation *)
Create HintDb word.
Create HintDb bufs.
Create HintDb path.

(** Case analysis on every boolean comparison in sight, keeping the facts. *)
Ltac bool_cases :=
  repeat match goal with
  | |- context [?x <? ?y] => destruct (Z.ltb_spec x y)
  | |- context [?x <=? ?y] => destruct (Z.leb_spec x y)
  | |- context [?x =? ?y] => destruct (Z.eqb_spec x y)
  | H : context [?x <? ?y] |- _ => destruct (Z.ltb_spec x y)
  | H : context [?x <=? ?y] |- _ => destruct (Z.leb_spec x y)
  | H : context [?x =? ?y] |- _ => destruct (Z.eqb_spec x y)
  end.

(** [Forall] over an explicit list, element by element. *)
Ltac forall_list := repeat first [apply Forall_nil_2 | apply Forall_cons_2].

(** Walks [drop] and [slice] over a concatenation of fields whose lengths are
    hypotheses, down to the field asked for. *)
Ltac peel_fields :=
  unfold slice; cbn [drop app];
  repeat (rewrite drop_app_ge by lia);
  repeat match goal with H : length ?l = _ |- context [length ?l] => rewrite H end;
  cbn [Nat.sub drop]; rewrite ?drop_0;
  try (rewrite take_app_length' by lia).

Ltac unfold_words :=
  unfold u8, u16, u32, u64, i32, i64, is_u8, is_u16, is_u32, is_u64, is_i32,
    INT64_MAX in *.

(** * Lemmas: words *)
Lemma u8_range x : is_u8 (u8 x).
Proof. unfold_words. apply Z.mod_pos_bound. lia. Qed.
Lemma u16_range x : is_u16 (u16 x).
Proof. unfold_words. apply Z.mod_pos_bound. lia. Qed.
Lemma u32_range x : is_u32 (u32 x).
Proof. unfold_words. apply Z.mod_pos_bound. lia. Qed.
Lemma u64_range x : is_u64 (u64 x).
Proof. unfold_words. apply Z.mod_pos_bound. lia. Qed.

Lemma u8_id x : is_u8 x -> u8 x = x.
Proof. intros. unfold_words. by apply Z.mod_small. Qed.
Lemma u16_id x : is_u16 x -> u16 x = x.
Proof. intros. unfold_words. by apply Z.mod_small. Qed.
Lemma u32_id x : is_u32 x -> u32 x = x.
Proof. intros. unfold_words. by apply Z.mod_small. Qed.
Lemma u64_id x : is_u64 x -> u64 x = x.
Proof. intros. unfold_words. by apply Z.mod_small. Qed.
Lemma i32_id x : is_i32 x -> i32 x = x.
Proof. intros. unfold_words. rewrite Z.mod_small; lia. Qed.

#[export] Hint Resolve u8_range u16_range u32_range u64_range : word.
Create Rewrite HintDb word.
#[export] Hint Rewrite u8_id u16_id u32_id u64_id i32_id
  using (unfold is_u8, is_u16, is_u32, is_u64, is_i32; lia) : word.

(** * Lemmas: bits *)
Lemma testbit_high n x i : 0 <= x < 2 ^ n -> 0 <= n <= i -> Z.testbit x i = false.
Proof.
  intros Hx Hi. rewrite <- (Z.mod_small x (2 ^ n)) by lia.
  apply Z.mod_pow2_bits_high. lia.
Qed.

Lemma lor_shiftl_add v b n :
  0 <= n -> 0 <= b < 2 ^ n -> (v << n) .| b = v * 2 ^ n + b.
Proof.
  intros Hn Hb. rewrite <- Z.shiftl_mul_pow2 by lia.
  symmetry. rewrite <- Z.lxor_lor.
  - apply Z.add_nocarry_lxor. apply Z.bits_inj'. intros i Hi.
    rewrite Z.land_spec, Z.shiftl_spec, Z.bits_0 by lia.
    destruct (Z.ltb_spec i n).
    + by rewrite Z.testbit_neg_r by lia.
    + by rewrite (testbit_high n b), andb_false_r by lia.
  - apply Z.bits_inj'. intros i Hi.
    rewrite Z.land_spec, Z.shiftl_spec, Z.bits_0 by lia.
    destruct (Z.ltb_spec i n).
    + by rewrite Z.testbit_neg_r by lia.
    + by rewrite (testbit_high n b), andb_false_r by lia.
Qed.

Lemma lor_bound n a b :
  0 <= n -> 0 <= a < 2 ^ n -> 0 <= b < 2 ^ n -> 0 <= a .| b < 2 ^ n.
Proof.
  intros Hn Ha Hb. replace (a .| b) with ((a .| b) mod 2 ^ n); [apply Z.mod_pos_bound; lia|].
  apply Z.bits_inj'. intros i Hi. rewrite Z.testbit_mod_pow2, Z.lor_spec by lia.
  destruct (Z.ltb_spec i n); [done|]. by rewrite !(testbit_high n) by lia.
Qed.

Lemma shiftr_div x n : 0 <= n -> x >> n = x / 2 ^ n.
Proof. apply Z.shiftr_div_pow2. Qed.

(** * Lemmas: big-endian stores and loads *)
Lemma be_put_length n v : length (be_put n v) = n.
Proof. induction n; simpl; congruence. Qed.

Lemma be_put_ok n v : bytes_ok (be_put n v).
Proof. induction n; constructor; auto with word. Qed.

Lemma be_get_acc l a :
  bytes_ok l ->
  fold_left (fun v b => (v << 8) .| b) l a = a * 2 ^ (8 * Z.of_nat (length l)) + be_get l.
Proof.
  unfold be_get. revert a. induction l as [|b l IH]; intros a Hok.
  - simpl. lia.
  - apply Forall_cons in Hok as [Hb Hl]. cbn [fold_left length].
    rewrite IH by done. rewrite (IH (_ .| b)) by done.
    rewrite !lor_shiftl_add by (unfold_words; lia).
    rewrite Nat2Z.inj_succ, Z.mul_succ_r, Z.pow_add_r by lia. lia.
Qed.

Lemma be_get_cons b l :
  is_u8 b -> bytes_ok l ->
  be_get (b :: l) = b * 2 ^ (8 * Z.of_nat (length l)) + be_get l.
Proof.
  intros Hb Hl. unfold be_get at 1. cbn [fold_left].
  rewrite be_get_acc by done. rewrite Z.shiftl_0_l, Z.lor_0_l. done.
Qed.

Lemma be_get_app l1 l2 :
  bytes_ok l1 -> bytes_ok l2 ->
  be_get (l1 ++ l2) = be_get l1 * 2 ^ (8 * Z.of_nat (length l2)) + be_get l2.
Proof.
  intros H1 H2. unfold be_get at 1. rewrite fold_left_app. by rewrite be_get_acc.
Qed.

Lemma be_get_range l : bytes_ok l -> 0 <= be_get l < 2 ^ (8 * Z.of_nat (length l)).
Proof.
  induction l as [|b l IH]; intros Hok; [done|].
  apply Forall_cons in Hok as [Hb Hl]. rewrite be_get_cons by done.
  specialize (IH Hl). unfold_words. cbn [length].
  rewrite Nat2Z.inj_succ, Z.mul_succ_r, Z.pow_add_r by lia. nia.
Qed.

Lemma be_get_put n v : be_get (be_put n v) = v mod 2 ^ (8 * Z.of_nat n).
Proof.
  induction n as [|n IH]; [by rewrite Z.mod_1_r|].
  cbn [be_put]. rewrite be_get_cons by (auto using be_put_ok with word).
  rewrite IH, be_put_length, shiftr_div by lia. unfold u8.
  rewrite Nat2Z.inj_succ, Z.mul_succ_r, Z.pow_add_r by lia.
  rewrite (Z.rem_mul_r v (2 ^ (8 * Z.of_nat n)) (2 ^ 8)) by lia. lia.
Qed.

(** Only the low [n] bytes of a value are stored. *)
Lemma be_put_mod n v w :
  v mod 2 ^ (8 * Z.of_nat n) = w mod 2 ^ (8 * Z.of_nat n) -> be_put n v = be_put n w.
Proof.
  revert v w. induction n as [|n IH]; intros v w H; [done|]. cbn [be_put].
  rewrite Nat2Z.inj_succ, Z.mul_succ_r, Z.pow_add_r in H by lia.
  rewrite !Z.rem_mul_r in H by lia.
  set (m := 2 ^ (8 * Z.of_nat n)) in *. assert (0 < m) by lia.
  pose proof (Z.mod_pos_bound v m ltac:(lia)).
  pose proof (Z.mod_pos_bound w m ltac:(lia)).
  destruct (Z.div_mod_unique m ((v / m) mod 2 ^ 8) ((w / m) mod 2 ^ 8) (v mod m) (w mod m))
    as [Hq Hr]; [lia | lia | lia |].
  rewrite !shiftr_div by lia. unfold u8. f_equal; [done | by apply IH].
Qed.

Lemma be_put_get l : bytes_ok l -> be_put (length l) (be_get l) = l.
Proof.
  induction l as [|b l IH]; intros Hok; [done|].
  apply Forall_cons in Hok as [Hb Hl]. cbn [length be_put].
  rewrite be_get_cons by done. pose proof (be_get_range l Hl) as Hr.
  f_equal.
  - rewrite shiftr_div, Z.div_add_l, (Z.div_small (be_get l)) by lia.
    rewrite Z.add_0_r. by apply u8_id.
  - transitivity (be_put (length l) (be_get l)); [|by apply IH].
    apply be_put_mod. rewrite Z.add_comm, Z.mod_add by lia. done.
Qed.

(** * Lemmas: memcmp *)
Lemma memcmp_refl a : memcmp a a = 0.
Proof. induction a as [|x a IH]; simpl; [done|]. by rewrite Z.ltb_irrefl. Qed.

Lemma memcmp_eq a b : memcmp a b = 0 <-> a = b.
Proof.
  split; [|intros ->; apply memcmp_refl].
  revert b. induction a as [|x a IH]; intros [|y b]; simpl; try done.
  bool_cases; try done. intros H1. f_equal; [lia | by apply IH].
Qed.

Lemma memcmp_antisym a b : memcmp b a = - memcmp a b.
Proof.
  revert b. induction a as [|x a IH]; intros [|y b]; simpl; try done.
  bool_cases; try lia. apply IH.
Qed.

Lemma memcmp_range a b : -1 <= memcmp a b <= 1.
Proof.
  revert b. induction a as [|x a IH]; intros [|y b]; simpl; try lia.
  bool_cases; try lia. apply IH.
Qed.

Lemma memcmp_trans a b c : memcmp a b <= 0 -> memcmp b c <= 0 -> memcmp a c <= 0.
Proof.
  revert b c. induction a as [|x a IH]; intros [|y b] [|z c]; simpl; try lia.
  bool_cases; try lia. intros. eapply IH; eauto.
Qed.

(** * Lemmas: induction in groups, as the codecs walk their buffers *)
Lemma list_ind3 {A} (P : list A -> Prop) :
  P [] -> (forall a, P [a]) -> (forall a b, P [a; b]) ->
  (forall a b c l, P l -> P (a :: b :: c :: l)) -> forall l, P l.
Proof.
  intros H0 H1 H2 H3. fix IH 1. intros [|a [|b [|c l]]];
    [exact H0 | exact (H1 a) | exact (H2 a b) | exact (H3 a b c l (IH l))].
Qed.

Lemma list_ind4 {A} (P : list A -> Prop) :
  P [] -> (forall a, P [a]) -> (forall a b, P [a; b]) -> (forall a b c, P [a; b; c]) ->
  (forall a b c d l, P l -> P (a :: b :: c :: d :: l)) -> forall l, P l.
Proof.
  intros H0 H1 H2 H3 H4. fix IH 1. intros [|a [|b [|c [|d l]]]];
    [exact H0 | exact (H1 a) | exact (H2 a b) | exact (H3 a b c) | exact (H4 a b c d l (IH l))].
Qed.

(** The step of a loop, as an equation. *)
Lemma fold_left_cons {A B} (f : A -> B -> A) x l a :
  fold_left f (x :: l) a = fold_left f l (f a x).
Proof. reflexivity. Qed.

(** An index past the first part of a buffer. *)
Lemma nth_app_at {A} n i (l r : list A) d : length l = n -> nth (n + i) (l ++ r) d = nth i r d.
Proof. intros <-. rewrite app_nth2 by lia. f_equal. lia. Qed.
