(* ===== verification/Replay.v ===== *)
(** The replay window of src/src/replay.c: a highest sequence and a 64-bit
    bitmap of the ones just below it.  The abstract specification is the set
    of sequences accepted so far; [window_repr] relates the two and every
    call to [replay_ok] is shown to implement the set-level rule. *)
From S2P Require Import Prelude.

Definition REPLAY_WINDOW : Z := 64.

Record replay_win := mk_replay_win {
  hi : Z;      (* highest sequence accepted, 0 = none *)
  seen : Z     (* bitmap of hi-1 .. hi-REPLAY_WINDOW *)
}.

(** A zeroed window, as every owner's [memset] leaves it. *)
Definition replay_zero : replay_win := mk_replay_win 0 0.

Definition replay_ok (w : replay_win) (seq : Z) : bool * replay_win :=
  if seq =? 0 then (false, w)
  else if hi w <? seq then
    let step := u64 (seq - hi w) in
    let seen' :=
      if REPLAY_WINDOW <=? step then 0
      else u64 (seen w << step)
           .| (if truth (hi w) then u64 (1 << (step - 1)) else 0) in
    (true, mk_replay_win seq seen')
  else
    let back := u64 (hi w - seq) in
    if REPLAY_WINDOW <=? back then (false, w)
    else if back =? 0 then (false, w)
    else if truth (seen w .& u64 (1 << (back - 1))) then (false, w)
    else (true, mk_replay_win (hi w) (seen w .| u64 (1 << (back - 1)))).

(** The calls a connection makes, one per datagram that opened: the window
    afterwards and the sequences that were acted on, newest first. *)
Fixpoint replay_run (w : replay_win) (acc : list Z) (seqs : list Z) : replay_win * list Z :=
  match seqs with
  | [] => (w, acc)
  | s :: rest =>
      let '(ok, w') := replay_ok w s in
      replay_run w' (if ok then s :: acc else acc) rest
  end.

(** ** The specification: a set of accepted sequences *)

(** The highest sequence of a history, 0 when there is none. *)
Definition top (acc : list Z) : Z := fold_right Z.max 0 acc.

(** New, and either above everything accepted or inside the window. *)
Definition fresh_spec (acc : list Z) (s : Z) : Prop :=
  0 < s /\ (s ∉ acc) /\ top acc - s < REPLAY_WINDOW.

(** The window represents a history: the highest is the top of it, and each
    bitmap position that is ever read says whether its sequence is in it. *)
Definition window_repr (w : replay_win) (acc : list Z) : Prop :=
  hi w = top acc /\ is_u64 (hi w) /\ is_u64 (seen w) /\ Forall (fun s => 0 < s) acc /\
  (forall k, 1 <= k < REPLAY_WINDOW ->
     Z.testbit (seen w) (k - 1) = bool_decide (hi w - k ∈ acc)).

(** ** Lemmas *)
Lemma top_nonneg acc : 0 <= top acc.
Proof. induction acc; simpl; lia. Qed.

Lemma top_upper acc s : s ∈ acc -> s <= top acc.
Proof.
  induction acc as [|a acc IH]; intros Hs; [by apply elem_of_nil in Hs|].
  apply elem_of_cons in Hs as [->|Hs]; simpl; [lia|]. specialize (IH Hs). lia.
Qed.

Lemma top_mem acc : Forall (fun s => 0 < s) acc -> acc <> [] -> top acc ∈ acc.
Proof.
  induction acc as [|a acc IH]; intros Hpos Hne; [done|].
  apply Forall_cons in Hpos as [Ha Hpos]. simpl.
  destruct acc as [|b acc]; [simpl; rewrite Z.max_l by lia; by left|].
  specialize (IH Hpos ltac:(done)).
  destruct (Z.max_spec a (top (b :: acc))) as [[_ ->]|[_ ->]]; [by right | by left].
Qed.

Lemma one_shift k : 0 <= k < 64 -> u64 (1 << k) = 2 ^ k.
Proof.
  intros Hk. rewrite Z.shiftl_1_l. apply u64_id. unfold_words.
  pose proof (Z.pow_lt_mono_r 2 k 64). lia.
Qed.

Lemma land_one_shift x k : 0 <= k -> truth (x .& 2 ^ k) = Z.testbit x k.
Proof.
  intros Hk. unfold truth. destruct (Z.testbit x k) eqn:E.
  - destruct (Z.eqb_spec (x .& 2 ^ k) 0) as [H|H]; [|done].
    apply (f_equal (fun z => Z.testbit z k)) in H.
    rewrite Z.land_spec, E, Z.pow2_bits_true, Z.bits_0 in H by lia. done.
  - replace (x .& 2 ^ k) with 0; [done|]. symmetry. apply Z.bits_inj'. intros i Hi.
    rewrite Z.land_spec, Z.pow2_bits_eqb, Z.bits_0 by lia.
    destruct (Z.eqb_spec k i) as [->|]; [by rewrite E | by rewrite andb_false_r].
Qed.

Lemma lor_u64 x y : is_u64 x -> is_u64 y -> is_u64 (x .| y).
Proof. apply lor_bound. lia. Qed.

Lemma pow2_u64 k : 0 <= k < 64 -> is_u64 (2 ^ k).
Proof. intros Hk. unfold_words. pose proof (Z.pow_lt_mono_r 2 k 64). lia. Qed.
#[export] Hint Resolve lor_u64 pow2_u64 : word.

Lemma window_repr_zero : window_repr replay_zero [].
Proof.
  repeat split; simpl; try lia; [constructor|]. intros k Hk.
  by rewrite Z.bits_0.
Qed.

(** A sequence above the window's top moves it up. *)
Lemma repr_advance w acc s :
  window_repr w acc -> is_u64 s -> hi w < s ->
  exists w', replay_ok w s = (true, w') /\ window_repr w' (s :: acc).
Proof.
  intros (Hhi & Hu & Hs & Hpos & Hbits) Hseq Hlt. unfold replay_ok.
  pose proof (top_nonneg acc) as Ht.
  destruct (Z.eqb_spec s 0); [unfold_words; lia|].
  destruct (Z.ltb_spec (hi w) s); [|lia].
  rewrite (u64_id (s - hi w)) by (unfold_words; lia).
  set (step := s - hi w) in *. eexists; split; [reflexivity|].
  assert (top (s :: acc) = s) as Htop by (simpl; lia).
  assert (forall j, j < s -> bool_decide (j ∈ s :: acc) = bool_decide (j ∈ acc)) as Hmem.
  { intros j Hj. apply bool_decide_ext. rewrite elem_of_cons. intuition lia. }
  split; [simpl; lia|]. split; [done|]. cbn [hi seen]. unfold REPLAY_WINDOW in *.
  destruct (Z.leb_spec 64 step) as [Hbig|Hsmall].
  - split; [done|]. split; [by constructor; [unfold_words; lia|]|]. intros k Hk.
    rewrite Z.bits_0, Hmem by lia. symmetry. apply bool_decide_eq_false_2.
    intros Hin. apply top_upper in Hin. lia.
  - split; [apply lor_u64; auto with word;
            destruct (truth (hi w)); auto with word; done|].
    split; [by constructor; [unfold_words; lia|]|]. intros k Hk.
    rewrite Hmem by lia.
    assert (Z.testbit (u64 (seen w << step)) (k - 1) =
            Z.testbit (seen w) (k - 1 - step)) as Hsh.
    { unfold u64. rewrite Z.mod_pow2_bits_low, Z.shiftl_spec by lia. done. }
    rewrite Z.lor_spec, Hsh. clear Hsh.
    destruct (Z.lt_total k step) as [Hk1|[->|Hk1]].
    + rewrite Z.testbit_neg_r by lia.
      rewrite bool_decide_eq_false_2; [|intros Hin; apply top_upper in Hin; lia].
      destruct (truth (hi w)); [|by rewrite Z.bits_0].
      rewrite one_shift, Z.pow2_bits_false by lia. done.
    + rewrite Z.testbit_neg_r by lia. replace (s - step) with (hi w) by lia.
      unfold truth. destruct (Z.eqb_spec (hi w) 0) as [E|E]; simpl.
      * rewrite Z.bits_0, bool_decide_eq_false_2; [done|]. intros Hin.
        rewrite E in Hin. eapply Forall_forall in Hpos; [|exact Hin]. lia.
      * rewrite one_shift, Z.pow2_bits_true by lia. symmetry.
        apply bool_decide_eq_true_2. rewrite Hhi. apply top_mem; [done|].
        intros ->. simpl in Hhi. lia.
    + replace (k - 1 - step) with ((k - step) - 1) by lia. rewrite Hbits by lia.
      replace (hi w - (k - step)) with (s - k) by lia.
      destruct (truth (hi w)); [|by rewrite Z.bits_0, orb_false_r].
      rewrite one_shift, Z.pow2_bits_false by lia. by rewrite orb_false_r.
Qed.

(** A sequence inside the window is taken exactly when its bit is clear. *)
Lemma repr_inside w acc s :
  window_repr w acc -> 0 < s -> 1 <= hi w - s < REPLAY_WINDOW ->
  if bool_decide (s ∈ acc) then replay_ok w s = (false, w)
  else exists w', replay_ok w s = (true, w') /\ window_repr w' (s :: acc).
Proof.
  intros (Hhi & Hu & Hs & Hpos & Hbits) H0 Hback. unfold replay_ok.
  unfold REPLAY_WINDOW in *.
  destruct (Z.eqb_spec s 0); [lia|]. destruct (Z.ltb_spec (hi w) s); [lia|].
  rewrite (u64_id (hi w - s)) by (unfold_words; lia).
  set (back := hi w - s) in *.
  destruct (Z.leb_spec 64 back); [lia|]. destruct (Z.eqb_spec back 0); [lia|].
  rewrite one_shift, land_one_shift, (Hbits back) by lia.
  replace (hi w - back) with s by lia.
  case_bool_decide as Hin; [done|].
  eexists; split; [reflexivity|].
  split; [simpl; lia|]. split; [done|]. cbn [hi seen].
  split; [apply lor_u64; [done | apply pow2_u64; lia]|].
  split; [by constructor|]. unfold REPLAY_WINDOW. intros k Hk.
  rewrite Z.lor_spec, Hbits by lia.
  destruct (Z.eq_dec k back) as [->|Hne].
  - rewrite Z.pow2_bits_true, orb_true_r by lia. symmetry.
    apply bool_decide_eq_true_2. replace (hi w - back) with s by lia. by left.
  - rewrite Z.pow2_bits_false, orb_false_r by lia. apply bool_decide_ext.
    rewrite elem_of_cons. intuition lia.
Qed.

(** Everything else is refused, and the window does not move. *)
Lemma repr_refuse w acc s :
  window_repr w acc -> is_u64 s -> s = 0 \/ (s <= hi w /\ (hi w - s = 0 \/ REPLAY_WINDOW <= hi w - s)) ->
  replay_ok w s = (false, w) /\ ~ fresh_spec acc s.
Proof.
  intros (Hhi & Hu & Hs & Hpos & Hbits) Hseq Hcase. unfold replay_ok.
  destruct (Z.eqb_spec s 0) as [->|Hne]; [split; [done|unfold fresh_spec; lia]|].
  destruct Hcase as [?|[Hle Hcase]]; [lia|].
  destruct (Z.ltb_spec (hi w) s); [lia|].
  rewrite (u64_id (hi w - s)) by (unfold_words; lia).
  destruct (Z.leb_spec REPLAY_WINDOW (hi w - s)).
  - split; [done|]. unfold fresh_spec. lia.
  - destruct (Z.eqb_spec (hi w - s) 0) as [E|]; [|lia]. split; [done|].
    intros (_ & Hni & _). apply Hni. replace s with (top acc) by lia.
    apply top_mem; [done|]. intros ->. simpl in Hhi. unfold_words. lia.
Qed.

(** One call against the specification: the simulation step. *)
Lemma replay_ok_spec w acc s :
  window_repr w acc -> is_u64 s ->
  let '(ok, w') := replay_ok w s in
  (ok = true <-> fresh_spec acc s) /\ window_repr w' (if ok then s :: acc else acc).
Proof.
  intros Hr Hs. pose proof Hr as (Hhi & Hu & _ & Hpos & _).
  destruct (decide (hi w < s)) as [Hlt|Hge].
  { destruct (repr_advance w acc s Hr Hs Hlt) as (w' & -> & Hr').
    split; [|done]. split; [intros _|done]. split; [unfold_words; lia|].
    split; [intros Hin; apply top_upper in Hin; lia | unfold REPLAY_WINDOW; lia]. }
  destruct (decide (0 < s /\ 1 <= hi w - s < REPLAY_WINDOW)) as [[H0 Hin]|Hout].
  { pose proof (repr_inside w acc s Hr H0 Hin) as Hcase. revert Hcase.
    case_bool_decide as Hm; [intros ->|intros (w' & -> & Hr')]; (split; [|done]).
    - split; [done|]. by intros (_ & Hni & _).
    - split; [intros _|done]. split; [done|]. split; [done|lia]. }
  destruct (repr_refuse w acc s Hr Hs) as [-> Hnf]; [unfold_words; lia|].
  split; [|done]. split; [done|]. by intros Hf.
Qed.

Lemma replay_run_repr seqs w acc :
  window_repr w acc -> NoDup acc -> Forall is_u64 seqs ->
  let '(w', acc') := replay_run w acc seqs in window_repr w' acc' /\ NoDup acc'.
Proof.
  revert w acc. induction seqs as [|s seqs IH]; intros w acc Hr Hnd Hs; [done|].
  apply Forall_cons in Hs as [Hs1 Hs]. cbn [replay_run].
  pose proof (replay_ok_spec w acc s Hr Hs1) as Hstep.
  destruct (replay_ok w s) as [ok w'] eqn:E. destruct Hstep as [Hiff Hr'].
  apply IH; [done| |done]. destruct ok; [|done].
  constructor; [|done]. by apply Hiff.
Qed.

(** ** Properties *)

(** Whatever datagrams arrive, in whatever order and however often each
    is repeated, no sequence number is acted on twice. *)
Theorem replay_at_most_once (seqs : list Z) (Hu : Forall is_u64 seqs) :
  NoDup (replay_run replay_zero [] seqs).2.
Proof.
  pose proof (replay_run_repr seqs replay_zero [] window_repr_zero ltac:(constructor) Hu) as H.
  destruct (replay_run replay_zero [] seqs). apply H.
Qed.

Lemma replay_at_most_once_witness :
  Forall is_u64 [5; 3; 5; 3; 90; 3; 27; 27] /\
  NoDup (replay_run replay_zero [] [5; 3; 5; 3; 90; 3; 27; 27]).2.
Proof.
  assert (Forall is_u64 [5; 3; 5; 3; 90; 3; 27; 27]) as H
    by (repeat constructor; unfold_words; lia).
  split; [exact H | exact (replay_at_most_once _ H)].
Defined.

(** C21: the two-word window decides exactly what the full history would: after
    any run, the next sequence is accepted if and only if it is nonzero, was
    not accepted before, and is less than the window below the highest one
    accepted (so a genuinely new frame within the reordering allowance is
    never lost). *)
Theorem replay_refines_history (seqs : list Z) (s : Z)
    (Hu : Forall is_u64 seqs) (Hs : is_u64 s) :
  let '(w, acc) := replay_run replay_zero [] seqs in
  (replay_ok w s).1 = true <-> fresh_spec acc s.
Proof.
  pose proof (replay_run_repr seqs replay_zero [] window_repr_zero ltac:(constructor) Hu) as H.
  destruct (replay_run replay_zero [] seqs) as [w acc]. destruct H as [Hr _].
  pose proof (replay_ok_spec w acc s Hr Hs) as Hstep.
  destruct (replay_ok w s). apply Hstep.
Qed.

Lemma replay_refines_history_witness :
  (replay_ok (replay_run replay_zero [] [100; 98]).1 99).1 = true
  <-> fresh_spec [98; 100] 99.
Proof.
  refine (replay_refines_history [100; 98] 99 _ _);
    repeat constructor; unfold_words; lia.
Defined.
