(* ===== verification/Liveness.v ===== *)
(** Liveness policy: the heartbeat patience of src/src/hbeat.c and the reap
    verdict of src/src/hostreap.c. *)
From S2P Require Import Prelude.

Definition HB_INTERVAL_MS : Z := 700.
Definition HB_SILENT_TRIES : Z := 3.
Definition HB_RTT_CAP_MS : Z := 1000.

Definition hb_lost_ms (rtt_ms : Z) : Z :=
  let rtt := if 0 <? rtt_ms
             then (if HB_RTT_CAP_MS <? rtt_ms then HB_RTT_CAP_MS else u32 rtt_ms)
             else 0 in
  u32 (HB_SILENT_TRIES * HB_INTERVAL_MS + rtt).

Definition RESUME_AFTER_MS : Z := 3000.
Definition RESUME_ATTEMPT_MS : Z := 10000.
Definition HOST_REAP_MS : Z :=
  RESUME_AFTER_MS + RESUME_ATTEMPT_MS + RESUME_ATTEMPT_MS / 2.
Definition HOST_HANDSHAKE_MS : Z := 30000.

Record host_reap := mk_host_reap {
  conn_start_ms : Z;
  lost_since_ms : Z;      (* 0 while the link is live *)
  resume_last_ms : Z;     (* last claim picked up, 0 if none *)
  resume_pending : bool;  (* a punch for a claim is in flight *)
  pong_seen : bool        (* the control channel ever answered *)
}.

Inductive host_reap_verdict :=
| HOST_REAP_KEEP
| HOST_REAP_SILENT
| HOST_REAP_NO_HANDSHAKE.

Definition host_reap_due (r : host_reap) (now : Z) : host_reap_verdict :=
  if negb (pong_seen r) then
    if HOST_HANDSHAKE_MS <? u64 (now - conn_start_ms r)
    then HOST_REAP_NO_HANDSHAKE else HOST_REAP_KEEP
  else if negb (truth (lost_since_ms r)) then HOST_REAP_KEEP
  else if resume_pending r then HOST_REAP_KEEP
  else if u64 (now - lost_since_ms r) <=? HOST_REAP_MS then HOST_REAP_KEEP
  else if truth (resume_last_ms r) && (u64 (now - resume_last_ms r) <=? HOST_REAP_MS)
  then HOST_REAP_KEEP
  else HOST_REAP_SILENT.

(** ** The claimant's side, as hostreap.h describes it

    A client that lost its link claims after [RESUME_AFTER_MS] and every
    [RESUME_ATTEMPT_MS] after that; a claim that arrives is picked up within
    half a cadence.  [pickups lost t] says that [t] lists such pick-up times in
    order, when at most one attempt between two pick-ups (and at most one
    before the first) was lost on the way. *)
Definition attempt_ms (lost : Z) (k : nat) : Z :=
  lost + RESUME_AFTER_MS + Z.of_nat k * RESUME_ATTEMPT_MS.

Definition picked_up (lost : Z) (k : nat) (t : Z) : Prop :=
  attempt_ms lost k <= t <= attempt_ms lost k + RESUME_ATTEMPT_MS / 2.

(** The worker's record when attempt [k]'s claim was picked up at [t] and the
    punch for it has since come to nothing. *)
Definition after_pickup (r : host_reap) (t : Z) : host_reap :=
  mk_host_reap (conn_start_ms r) (lost_since_ms r) t false (pong_seen r).

Lemma hb_lost_ms_value rtt :
  is_i32 rtt -> hb_lost_ms rtt = 2100 + Z.min (Z.max rtt 0) 1000.
Proof.
  intros Hr. unfold hb_lost_ms, HB_RTT_CAP_MS, HB_SILENT_TRIES, HB_INTERVAL_MS.
  unfold_words. bool_cases; rewrite ?(Z.mod_small rtt), Z.mod_small; lia.
Qed.

(** ** Properties *)

(** The silence allowed before a link is given up on is the three missed
    pings plus the round trip, never less than three intervals, never more than
    a second above that, and it grows with the round trip. *)
Theorem hb_lost_ms_bounds (rtt rtt' : Z) (H : is_i32 rtt) (H' : is_i32 rtt') (Hle : rtt <= rtt') :
  HB_SILENT_TRIES * HB_INTERVAL_MS <= hb_lost_ms rtt <= hb_lost_ms rtt' /\
  hb_lost_ms rtt' <= HB_SILENT_TRIES * HB_INTERVAL_MS + HB_RTT_CAP_MS.
Proof.
  rewrite !hb_lost_ms_value by done.
  unfold HB_RTT_CAP_MS, HB_SILENT_TRIES, HB_INTERVAL_MS. lia.
Qed.

Lemma hb_lost_ms_bounds_witness :
  HB_SILENT_TRIES * HB_INTERVAL_MS <= hb_lost_ms 40 <= hb_lost_ms 4000 /\
  hb_lost_ms 4000 <= HB_SILENT_TRIES * HB_INTERVAL_MS + HB_RTT_CAP_MS.
Proof. apply (hb_lost_ms_bounds 40 4000); unfold_words; lia. Defined.

(** A worker outlives the claimant's second attempt, and every pick-up
    buys the claimant the next two attempts: with the link lost at [lost], the
    verdict is KEEP at every moment up to the end of the second attempt's
    pick-up window, and once attempt [k] has been picked up at [t] it is KEEP
    up to the moment attempt [k + 1] must have been picked up. *)
Theorem reap_outlives_attempts (r : host_reap) (k : nat) (t now : Z)
    (Hpong : pong_seen r = true) (Hlost : 0 < lost_since_ms r)
    (Hnow : lost_since_ms r <= now < 2 ^ 64) :
  (now <= attempt_ms (lost_since_ms r) 1 + RESUME_ATTEMPT_MS / 2 ->
   host_reap_due r now = HOST_REAP_KEEP) /\
  (picked_up (lost_since_ms r) k t -> t <= now ->
   now <= attempt_ms (lost_since_ms r) (S k) + RESUME_ATTEMPT_MS / 2 ->
   host_reap_due (after_pickup r t) now = HOST_REAP_KEEP).
Proof.
  unfold picked_up, attempt_ms, host_reap_due, after_pickup, truth.
  cbn [conn_start_ms lost_since_ms resume_last_ms resume_pending pong_seen].
  rewrite Hpong. cbn [negb].
  unfold HOST_REAP_MS, RESUME_AFTER_MS, RESUME_ATTEMPT_MS.
  change (10000 / 2) with 5000.
  rewrite !(u64_id (now - lost_since_ms r)) by (unfold_words; lia).
  split; [intros Hn | intros Ht Hle Hn].
  - bool_cases; destruct (resume_pending r); simpl; try done; lia.
  - rewrite (u64_id (now - t)) by (unfold_words; lia).
    bool_cases; simpl; try done; lia.
Qed.

Lemma reap_outlives_attempts_witness :
  let r := mk_host_reap 1000 50000 0 false true in
  host_reap_due r 67999 = HOST_REAP_KEEP /\
  host_reap_due (after_pickup r 64000) 78000 = HOST_REAP_KEEP.
Proof.
  intros r.
  destruct (reap_outlives_attempts r 1 64000 67999) as [H1 _]; [done|done|done|].
  destruct (reap_outlives_attempts r 1 64000 78000) as [_ H2]; [done|done|done|].
  split; [apply H1; done | apply H2; vm_compute; intuition congruence].
Defined.

(** A vanished client is always let go of in the end: once its link is
    lost, no punch is in flight and no claim has been picked up for the reap
    span, the verdict is SILENT and stays so; and a peer that never finished
    the handshake is let go of past the handshake span. *)
Theorem reap_eventually (r : host_reap) (now : Z) (Hn : 0 <= now < 2 ^ 64)
    (Hc : 0 <= conn_start_ms r) (Hl : 0 <= lost_since_ms r) (Hr : 0 <= resume_last_ms r) :
  (pong_seen r = true -> lost_since_ms r <> 0 -> resume_pending r = false ->
   Z.max (lost_since_ms r) (resume_last_ms r) + HOST_REAP_MS < now ->
   host_reap_due r now = HOST_REAP_SILENT) /\
  (pong_seen r = false -> conn_start_ms r + HOST_HANDSHAKE_MS < now ->
   host_reap_due r now = HOST_REAP_NO_HANDSHAKE).
Proof.
  unfold host_reap_due, truth. unfold HOST_REAP_MS, RESUME_AFTER_MS, RESUME_ATTEMPT_MS.
  change (10000 / 2) with 5000.
  split; [intros -> Hne -> Hlt | intros -> Hlt]; cbn [negb].
  - rewrite !u64_id by (unfold_words; lia). bool_cases; simpl; try done; lia.
  - unfold HOST_HANDSHAKE_MS in *. rewrite !u64_id by (unfold_words; lia).
    bool_cases; simpl; try done; lia.
Qed.

Lemma reap_eventually_witness :
  host_reap_due (mk_host_reap 1 1000 2000 false true) 30000 = HOST_REAP_SILENT /\
  host_reap_due (mk_host_reap 1 0 0 false false) 30002 = HOST_REAP_NO_HANDSHAKE.
Proof.
  split.
  - apply (reap_eventually (mk_host_reap 1 1000 2000 false true) 30000);
      vm_compute; intuition congruence.
  - apply (reap_eventually (mk_host_reap 1 0 0 false false) 30002);
      vm_compute; intuition congruence.
Defined.
