(* ===== verification/ClaimLog.v ===== *)
(** The ring of claimants a host has served, src/src/claimlog.c.  A C string
    is a list of its bytes without the NUL, and a NULL pointer is [None]. *)
From S2P Require Import Prelude.

Definition CLAIM_SERVED_MAX : nat := 8.
Definition CLAIM_UFRAG_LEN : nat := 40.
Definition CLAIM_PWD_LEN : nat := 40.

Record claim_served := mk_claim_served {
  cs_ufrag : list bytes;
  cs_pwd : list bytes;
  cs_next : nat
}.

(** A zeroed log: eight empty strings. *)
Definition claim_served_zero : claim_served :=
  mk_claim_served (replicate CLAIM_SERVED_MAX []) (replicate CLAIM_SERVED_MAX []) 0.

(** Whether a [const char *] is NULL or empty. *)
Definition empty_str (s : option bytes) : bool :=
  match s with None => true | Some [] => true | Some (_ :: _) => false end.

Definition claim_made (conn_pwd claim_pwd : option bytes) : bool :=
  if empty_str conn_pwd || empty_str claim_pwd then false
  else match conn_pwd, claim_pwd with
       | Some a, Some b => bytes_eqb a b
       | _, _ => false
       end.

(** [for (i = 0; i < n; i++) if (!strcmp(l->ufrag[i], ufrag)) return i;] *)
Fixpoint find_ufrag (slots : list bytes) (ufrag : bytes) (i : nat) : option nat :=
  match slots with
  | [] => None
  | s :: rest => if bytes_eqb s ufrag then Some i else find_ufrag rest ufrag (S i)
  end.

Definition served_find (l : claim_served) (ufrag : option bytes) : option nat :=
  match ufrag with
  | None | Some [] => None
  | Some u => find_ufrag (cs_ufrag l) u 0
  end.

Definition claim_served_note (l : claim_served) (ufrag pwd : option bytes) : claim_served :=
  match ufrag with
  | None | Some [] => l
  | Some u =>
      let '(i, l1) :=
        match served_find l ufrag with
        | Some i => (i, l)
        | None =>
            (cs_next l,
             mk_claim_served
               (<[cs_next l := take (CLAIM_UFRAG_LEN - 1) u]> (cs_ufrag l))
               (cs_pwd l)
               (Nat.modulo (cs_next l + 1) CLAIM_SERVED_MAX))
        end in
      let p := match pwd with Some p => take (CLAIM_PWD_LEN - 1) p | None => [] end in
      mk_claim_served (cs_ufrag l1) (<[i := p]> (cs_pwd l1)) (cs_next l1)
  end.

Definition claim_served_has (l : claim_served) (ufrag : option bytes) : bool :=
  match served_find l ufrag with Some _ => true | None => false end.

Definition claim_served_made (l : claim_served) (ufrag pwd : option bytes) : bool :=
  match served_find l ufrag with
  | Some i => claim_made (cs_pwd l !! i) pwd
  | None => false
  end.

(** ** Invariant and lemmas *)

(** Eight slots of each kind, the cursor among them, and no claimant named by
    two slots. *)
Definition served_wf (l : claim_served) : Prop :=
  length (cs_ufrag l) = CLAIM_SERVED_MAX /\ length (cs_pwd l) = CLAIM_SERVED_MAX /\
  (cs_next l < CLAIM_SERVED_MAX)%nat /\
  (forall i j u, cs_ufrag l !! i = Some u -> cs_ufrag l !! j = Some u -> u <> [] -> i = j).

(** An identity the ring can hold whole. *)
Definition ident_ok (u : bytes) : Prop := u <> [] /\ (length u < CLAIM_UFRAG_LEN)%nat.

Lemma find_ufrag_spec slots u n i :
  find_ufrag slots u n = Some i ->
  (n <= i)%nat /\ slots !! (i - n)%nat = Some u.
Proof.
  revert n. induction slots as [|s slots IH]; intros n H; simpl in H; [done|].
  unfold bytes_eqb in H. case_bool_decide as E.
  - simplify_eq. by rewrite Nat.sub_diag.
  - apply IH in H as [H1 H2]. split; [lia|].
    replace (i - n)%nat with (S (i - S n)) by lia. done.
Qed.

Lemma find_ufrag_none slots u n : find_ufrag slots u n = None -> u ∉ slots.
Proof.
  revert n. induction slots as [|s slots IH]; intros n H; simpl in H; [set_solver|].
  unfold bytes_eqb in H. case_bool_decide as E; [done|].
  apply IH in H. by rewrite not_elem_of_cons.
Qed.

Lemma find_ufrag_some slots u n j :
  slots !! j = Some u -> exists i, find_ufrag slots u n = Some i.
Proof.
  intros Hj. destruct (find_ufrag slots u n) eqn:E; [eauto|].
  apply find_ufrag_none in E. apply list_elem_of_lookup_2 in Hj. done.
Qed.

Lemma served_find_ident l u : u <> [] -> served_find l (Some u) = find_ufrag (cs_ufrag l) u 0.
Proof. by destruct u. Qed.

(** In a well-formed log the slot found is the only one naming the claimant. *)
Lemma served_find_at l u j :
  served_wf l -> u <> [] -> cs_ufrag l !! j = Some u -> served_find l (Some u) = Some j.
Proof.
  intros (_ & _ & _ & Huniq) Hne Hj. rewrite served_find_ident by done.
  destruct (find_ufrag_some (cs_ufrag l) u 0 j Hj) as [i E]. rewrite E.
  apply find_ufrag_spec in E as [_ E]. rewrite Nat.sub_0_r in E.
  f_equal. eauto.
Qed.

Lemma served_zero_wf : served_wf claim_served_zero.
Proof.
  unfold served_wf, claim_served_zero. cbn [cs_ufrag cs_pwd cs_next].
  rewrite !length_replicate. split; [done|]. split; [done|].
  split; [unfold CLAIM_SERVED_MAX; lia|].
  intros i j u Hi _ Hne. apply lookup_replicate_1 in Hi as [-> _]. done.
Qed.

(** Where one call puts a claimant it can hold whole. *)
Lemma note_cases l u p :
  served_wf l -> ident_ok u ->
  (exists i, cs_ufrag l !! i = Some u /\
     cs_ufrag (claim_served_note l (Some u) p) = cs_ufrag l /\
     cs_next (claim_served_note l (Some u) p) = cs_next l) \/
  ((u ∉ cs_ufrag l) /\
     cs_ufrag (claim_served_note l (Some u) p) = <[cs_next l := u]> (cs_ufrag l) /\
     cs_next (claim_served_note l (Some u) p) = Nat.modulo (cs_next l + 1) CLAIM_SERVED_MAX).
Proof.
  intros Hwf [Hne Hlen]. unfold claim_served_note.
  destruct u as [|c u]; [done|]. rewrite served_find_ident by done.
  destruct (find_ufrag (cs_ufrag l) (c :: u) 0) as [i|] eqn:E.
  - left. apply find_ufrag_spec in E as [_ E]. rewrite Nat.sub_0_r in E. eauto.
  - right. apply find_ufrag_none in E. split; [done|].
    cbn [cs_ufrag cs_pwd cs_next].
    rewrite (take_ge (c :: u)) by (unfold CLAIM_UFRAG_LEN in *; lia). done.
Qed.

Lemma note_wf l u p : served_wf l -> ident_ok u -> served_wf (claim_served_note l (Some u) p).
Proof.
  intros Hwf Hu. pose proof Hwf as (Hl1 & Hl2 & Hn & Huniq).
  assert (length (cs_pwd (claim_served_note l (Some u) p)) = CLAIM_SERVED_MAX) as Hpl.
  { destruct u as [|c u]; [by destruct Hu|]. unfold claim_served_note.
    destruct (served_find l _); simpl; by rewrite length_insert. }
  destruct (note_cases l u p Hwf Hu) as [(i & _ & E1 & E2)|(Hni & E1 & E2)];
    unfold served_wf; rewrite E1, E2; [done|].
  split; [by rewrite length_insert|]. split; [done|].
  split; [apply Nat.mod_upper_bound; done|].
  intros i j w Hi Hj Hw. apply list_lookup_insert_Some in Hi, Hj.
  destruct Hi as [(<- & <- & _)|(Hi1 & Hi2)], Hj as [(<- & Hw' & _)|(Hj1 & Hj2)]; try done.
  - apply list_elem_of_lookup_2 in Hj2. done.
  - subst w. apply list_elem_of_lookup_2 in Hi2. done.
  - eauto.
Qed.

Lemma note_has l u p : served_wf l -> ident_ok u ->
  exists i, cs_ufrag (claim_served_note l (Some u) p) !! i = Some u /\
    cs_pwd (claim_served_note l (Some u) p) !! i
    = Some (take (CLAIM_PWD_LEN - 1) (default [] p)).
Proof.
  intros Hwf [Hne Hlen]. pose proof Hwf as (Hl1 & Hl2 & Hn & _).
  unfold claim_served_note. destruct u as [|c u]; [done|].
  rewrite served_find_ident by done.
  destruct (find_ufrag (cs_ufrag l) (c :: u) 0) as [i|] eqn:E.
  - apply find_ufrag_spec in E as [_ E]. rewrite Nat.sub_0_r in E.
    exists i. cbn [cs_ufrag cs_pwd cs_next]. split; [done|].
    rewrite list_lookup_insert_eq; [by destruct p|].
    apply lookup_lt_Some in E. lia.
  - exists (cs_next l). cbn [cs_ufrag cs_pwd cs_next].
    rewrite !list_lookup_insert_eq by lia.
    rewrite (take_ge (c :: u)) by (unfold CLAIM_UFRAG_LEN in *; lia).
    split; [done|]. by destruct p.
Qed.

(** The slots after a run of notes. *)
Definition note_all (l : claim_served) (ns : list (bytes * option bytes)) : claim_served :=
  fold_left (fun l n => claim_served_note l (Some n.1) n.2) ns l.

(** Distance of slot [i] ahead of the cursor: how many new claimants it
    survives. *)
Definition ahead (l : claim_served) (i : nat) : nat :=
  Nat.modulo (i + CLAIM_SERVED_MAX - cs_next l) CLAIM_SERVED_MAX.

Lemma ahead_step n i :
  (n < 8)%nat -> (i < 8)%nat -> i <> n ->
  Nat.modulo (i + 8 - n) 8 = S (Nat.modulo (i + 8 - Nat.modulo (n + 1) 8) 8).
Proof.
  intros Hn Hi Hne.
  do 8 (destruct n as [|n]; [do 8 (destruct i as [|i]; [try done|]); lia|]). lia.
Qed.

Lemma note_all_keeps ns l i u :
  served_wf l -> Forall (fun n => ident_ok n.1) ns ->
  cs_ufrag l !! i = Some u -> (length ns <= ahead l i)%nat ->
  served_wf (note_all l ns) /\ cs_ufrag (note_all l ns) !! i = Some u.
Proof.
  revert l. induction ns as [|[v q] ns IH]; intros l Hwf Hns Hi Hlen; [done|].
  apply Forall_cons in Hns as [Hv Hns]. cbn [note_all fold_left]. apply IH.
  - by apply note_wf.
  - done.
  - destruct (note_cases l v q Hwf Hv) as [(j & _ & E1 & _)|(_ & E1 & _)];
      cbn [fst snd]; rewrite E1; [done|].
    rewrite list_lookup_insert_ne; [done|]. intros <-. cbn [length] in Hlen.
    unfold ahead, CLAIM_SERVED_MAX in Hlen.
    replace (cs_next l + 8 - cs_next l)%nat with 8%nat in Hlen by lia.
    rewrite Nat.Div0.mod_same in Hlen. lia.
  - pose proof Hwf as (Hl1 & _ & Hn & _). pose proof (lookup_lt_Some _ _ _ Hi).
    cbn [length] in Hlen. unfold ahead, CLAIM_SERVED_MAX in *.
    destruct (note_cases l v q Hwf Hv) as [(j & _ & _ & E2)|(_ & _ & E2)];
      cbn [fst snd]; rewrite E2; [lia|]. unfold CLAIM_SERVED_MAX.
    rewrite (ahead_step (cs_next l) i) in Hlen; [lia|done|lia|].
    intros ->. replace (cs_next l + 8 - cs_next l)%nat with 8%nat in Hlen by lia.
    rewrite Nat.Div0.mod_same in Hlen. lia.
Qed.

(** ** Properties *)

(** A claimant served for the first time is recognised as one coming back
    through the next seven claimants, whoever they are and however often each
    of them returns. *)
Theorem claim_served_remembers (l : claim_served) (u p : bytes)
    (ns : list (bytes * option bytes))
    (Hwf : served_wf l) (Hu : ident_ok u) (Hnew : u ∉ cs_ufrag l)
    (Hns : Forall (fun n => ident_ok n.1) ns)
    (Hlen : (length ns < CLAIM_SERVED_MAX)%nat) :
  claim_served_has (note_all (claim_served_note l (Some u) (Some p)) ns) (Some u) = true.
Proof.
  set (l1 := claim_served_note l (Some u) (Some p)).
  assert (served_wf l1) as Hwf1 by (by apply note_wf).
  destruct (note_cases l u (Some p) Hwf Hu) as [(j & Hj & _)|(_ & E1 & E2)].
  { apply list_elem_of_lookup_2 in Hj. done. }
  pose proof Hwf as (Hl1 & Hl2 & Hn & _).
  assert (cs_ufrag l1 !! cs_next l = Some u) as Hat.
  { unfold l1. rewrite E1. apply list_lookup_insert_eq. lia. }
  assert (ahead l1 (cs_next l) = 7%nat) as Hahead.
  { unfold ahead, l1. rewrite E2. unfold CLAIM_SERVED_MAX in *.
    clear -Hn. generalize dependent (cs_next l). intros n Hn.
    do 8 (destruct n as [|n]; [done|]). lia. }
  destruct (note_all_keeps ns l1 (cs_next l) u Hwf1) as [Hwf2 Hin].
  - done.
  - done.
  - unfold CLAIM_SERVED_MAX in *. lia.
  - unfold claim_served_has. by rewrite (served_find_at _ _ _ Hwf2 (proj1 Hu) Hin).
Qed.

Lemma claim_served_remembers_witness :
  claim_served_has (note_all (claim_served_note claim_served_zero (Some [97]) (Some [112]))
    [([98], None); ([99], None)]) (Some [97]) = true.
Proof.
  apply (claim_served_remembers claim_served_zero [97] [112] [([98], None); ([99], None)]).
  - apply served_zero_wf.
  - split; [done | vm_compute; lia].
  - vm_compute. intros H. repeat (inversion H as [|? ? ? H2]; clear H; rename H2 into H).
  - repeat (constructor; [split; [done | simpl; unfold CLAIM_UFRAG_LEN; lia]|]). constructor.
  - vm_compute. lia.
Defined.

(** A served attempt is told from a new one by its password: right after
    a claimant is noted, a claim under its identity is judged that very attempt
    exactly when it carries the noted password. *)
Theorem claim_served_attempt (l : claim_served) (u p q : bytes)
    (Hwf : served_wf l) (Hu : ident_ok u) (Hp : ident_ok p) :
  claim_served_made (claim_served_note l (Some u) (Some p)) (Some u) (Some q) = true <-> q = p.
Proof.
  destruct (note_has l u (Some p) Hwf Hu) as (i & Hi & Hpi).
  assert (served_wf (claim_served_note l (Some u) (Some p))) as Hwf1 by (by apply note_wf).
  unfold claim_served_made. rewrite (served_find_at _ _ _ Hwf1 (proj1 Hu) Hi), Hpi.
  change (default [] (Some p)) with p. destruct Hp as [Hp1 Hp2].
  rewrite take_ge by (unfold CLAIM_PWD_LEN, CLAIM_UFRAG_LEN in *; lia).
  unfold claim_made, bytes_eqb. destruct p as [|c p]; [done|]. destruct q as [|d q]; simpl.
  - split; [done|congruence].
  - rewrite bool_decide_eq_true. split; congruence.
Qed.

Lemma claim_served_attempt_witness :
  claim_served_made (claim_served_note claim_served_zero (Some [97]) (Some [112]))
    (Some [97]) (Some [112]) = true <-> [112] = [112].
Proof.
  apply (claim_served_attempt claim_served_zero [97] [112] [112]).
  - apply served_zero_wf.
  - split; [done | vm_compute; lia].
  - split; [done | vm_compute; lia].
Defined.
