(* ===== verification/Base58.v ===== *)
(** src/src/base58.c: the base-58 codec of tokens.  Buffers are lists with the
    most significant digit first, as the C arrays are. *)
From S2P Require Import Prelude.

Definition BASE58_MAX_IN : nat := 160.
Definition BASE58_MAX_STR : nat := 200.
Definition B58_BUF : nat := 222.   (* BASE58_MAX_IN * 138 / 100 + 2 *)
Definition B256_BUF : nat := 148.  (* BASE58_MAX_STR * 733 / 1000 + 2 *)

Definition alphabet : bytes :=
  cstr "123456789ABCDEFGHJKLMNPQRSTUVWXYZabcdefghijkmnopqrstuvwxyz".

(** [strchr(alphabet, c)] as an index. *)
Fixpoint index_of (l : bytes) (c : Z) (i : Z) : option Z :=
  match l with
  | [] => None
  | x :: rest => if x =? c then Some i else index_of rest c (i + 1)
  end.
Definition b58_value (c : Z) : option Z :=
  if c =? 0 then None else index_of alphabet c 0.

(** The inner loop of both directions: from the last element of the buffer to
    the first, [carry += mul * buf[j]; buf[j] = carry % base; carry /= base]. *)
Fixpoint mul_add (mul base : Z) (buf : bytes) (carry : Z) : bytes * Z :=
  match buf with
  | [] => ([], carry)
  | d :: rest =>
      let '(rest', c) := mul_add mul base rest carry in
      let v := c + mul * d in
      (u8 (v mod base) :: rest', v / base)
  end.

(** The outer loop: one source digit after another into a zeroed buffer. *)
Definition rebase (mul base : Z) (size : nat) (src : bytes) : bytes :=
  fold_left (fun buf d => (mul_add mul base buf d).1) src (replicate size 0).

(** [None] is the return of 0 that writes nothing. *)
Definition base58_encode (src : bytes) (dst_len : nat) : option bytes :=
  if (BASE58_MAX_IN <? length src)%nat then None
  else
    let sig := drop_zeros src in
    let zeros := (length src - length sig)%nat in
    let digits := drop_zeros (rebase 256 58 B58_BUF sig) in
    let need := (zeros + length digits)%nat in
    if (dst_len <? need + 1)%nat then None
    else Some (replicate zeros 49 ++
               map (fun d => nth (Z.to_nat d) alphabet 0) digits).

(** The digits of a string, [None] at the first bad character. *)
Fixpoint b58_digits (src : bytes) : option bytes :=
  match src with
  | [] => Some []
  | c :: rest =>
      match b58_value c with
      | None => None
      | Some v => match b58_digits rest with
                  | None => None
                  | Some ds => Some (v :: ds)
                  end
      end
  end.

(** [None] is the return of -1. *)
Definition base58_decode (src : bytes) (dst_len : nat) : option bytes :=
  if (BASE58_MAX_STR <? length src)%nat then None
  else match b58_digits src with
       | None => None
       | Some ds =>
           let sig := drop_zeros (rebase 58 256 B256_BUF ds) in
           if (dst_len <? length sig)%nat then None
           else Some (replicate (dst_len - length sig) 0 ++ sig)
       end.

(** ** Lemmas: positional notation *)

Definition value (base : Z) (ds : bytes) : Z :=
  fold_left (fun v d => v * base + d) ds 0.
Definition digits_ok (base : Z) (ds : bytes) : Prop := Forall (fun d => 0 <= d < base) ds.

Lemma value_acc base ds a :
  fold_left (fun v d => v * base + d) ds a
  = a * base ^ Z.of_nat (length ds) + value base ds.
Proof.
  unfold value. revert a. induction ds as [|d ds IH]; intros a; [simpl; lia|].
  cbn [fold_left length]. rewrite IH, (IH (0 * base + d)).
  rewrite Nat2Z.inj_succ, Z.pow_succ_r by lia. lia.
Qed.

Lemma value_cons base d ds :
  value base (d :: ds) = d * base ^ Z.of_nat (length ds) + value base ds.
Proof. unfold value at 1. cbn [fold_left]. by rewrite value_acc. Qed.

Lemma value_app base l1 l2 :
  value base (l1 ++ l2) = value base l1 * base ^ Z.of_nat (length l2) + value base l2.
Proof. unfold value at 1. rewrite fold_left_app. by rewrite value_acc. Qed.

Lemma value_range base ds :
  0 < base -> digits_ok base ds -> 0 <= value base ds < base ^ Z.of_nat (length ds).
Proof.
  intros Hb. induction ds as [|d ds IH]; intros Hok; [done|].
  apply Forall_cons in Hok as [Hd Hok]. specialize (IH Hok).
  rewrite value_cons. cbn [length]. rewrite Nat2Z.inj_succ, Z.pow_succ_r by lia. nia.
Qed.

Lemma value_zeros base n ds : value base (replicate n 0 ++ ds) = value base ds.
Proof.
  rewrite value_app. replace (value base (replicate n 0)) with 0; [lia|].
  induction n as [|n IH]; [done|]. cbn [replicate]. by rewrite value_cons, <- IH.
Qed.

Lemma drop_zeros_split l :
  l = replicate (length l - length (drop_zeros l)) 0 ++ drop_zeros l.
Proof.
  assert (forall l : bytes, (length (drop_zeros l) <= length l)%nat) as Hle.
  { clear. induction l as [|d l IH]; simpl; [done|]. destruct (d =? 0); simpl; lia. }
  induction l as [|d l IH]; [done|]. cbn [drop_zeros].
  destruct (Z.eqb_spec d 0) as [->|]; [|by rewrite Nat.sub_diag].
  cbn [length]. rewrite Nat.sub_succ_l by apply Hle. cbn [replicate app].
  by f_equal.
Qed.

Lemma drop_zeros_length l : (length (drop_zeros l) <= length l)%nat.
Proof.
  induction l as [|d l IH]; simpl; [done|]. destruct (d =? 0); simpl; lia.
Qed.

Lemma drop_zeros_value base l : value base (drop_zeros l) = value base l.
Proof. rewrite (drop_zeros_split l) at 2. by rewrite value_zeros. Qed.

Lemma drop_zeros_ok base l : digits_ok base l -> digits_ok base (drop_zeros l).
Proof.
  induction 1 as [|d l Hd Hl IH]; [constructor|]. simpl.
  destruct (d =? 0); [done | by constructor].
Qed.

(** A value that fits in [n] digits has at most [n] significant ones. *)
Lemma drop_zeros_fits base l n :
  1 < base -> digits_ok base l -> value base l < base ^ Z.of_nat n ->
  (length (drop_zeros l) <= n)%nat.
Proof.
  intros Hb Hok Hv. rewrite <- drop_zeros_value in Hv.
  apply (drop_zeros_ok base) in Hok.
  destruct (drop_zeros l) as [|d ds] eqn:E; [simpl; lia|].
  assert (d <> 0) as Hd.
  { clear -E. induction l as [|x l IH]; [done|]. simpl in E.
    destruct (Z.eqb_spec x 0); [by apply IH | congruence]. }
  apply Forall_cons in Hok as [Hd' Hok]. rewrite value_cons in Hv.
  pose proof (value_range base ds ltac:(lia) Hok).
  destruct (le_lt_dec (length (d :: ds)) n) as [|Hlt]; [done|exfalso].
  cbn [length] in Hlt.
  assert (base ^ Z.of_nat n <= base ^ Z.of_nat (length ds)) by (apply Z.pow_le_mono_r; lia).
  nia.
Qed.

(** ** Lemmas: the carry loop *)
Lemma mul_add_length mul base buf c : length (mul_add mul base buf c).1 = length buf.
Proof.
  revert c. induction buf as [|d buf IH]; intros c; [done|]. simpl.
  specialize (IH c). destruct (mul_add mul base buf c). simpl in *. lia.
Qed.

Lemma mul_add_spec mul base buf c :
  0 < mul -> 0 < base <= 2 ^ 8 -> digits_ok base buf -> 0 <= c ->
  let '(buf', out) := mul_add mul base buf c in
  digits_ok base buf' /\ 0 <= out /\
  out * base ^ Z.of_nat (length buf) + value base buf' = mul * value base buf + c.
Proof.
  intros Hm Hb. revert c. induction buf as [|d buf IH]; intros c Hok Hc.
  - simpl. repeat split; [constructor | lia | unfold value; simpl; lia].
  - apply Forall_cons in Hok as [Hd Hok]. specialize (IH c Hok Hc).
    pose proof (mul_add_length mul base buf c) as Hl.
    cbn [mul_add]. destruct (mul_add mul base buf c) as [buf' out]. cbn [fst] in Hl.
    destruct IH as (Hok' & Hout & E).
    pose proof (Z.mod_pos_bound (out + mul * d) base ltac:(lia)).
    rewrite u8_id by (unfold_words; lia).
    split; [by constructor|]. split; [apply Z.div_pos; nia|].
    rewrite !value_cons, Hl. cbn [length]. rewrite Nat2Z.inj_succ, Z.pow_succ_r by lia.
    pose proof (Z.div_mod (out + mul * d) base ltac:(lia)). nia.
Qed.

(** The buffer holds the value, as long as the value fits in it. *)
Lemma rebase_spec mul base size src :
  0 < mul -> 1 < base <= 2 ^ 8 -> digits_ok mul src ->
  mul ^ Z.of_nat (length src) <= base ^ Z.of_nat size ->
  digits_ok base (rebase mul base size src) /\
  value base (rebase mul base size src) = value mul src.
Proof.
  intros Hm Hb. induction src as [|d src IH] using rev_ind; intros Hok Hfit.
  - unfold rebase. simpl. split; [apply Forall_replicate; lia|].
    rewrite <- (app_nil_r (replicate size 0)), value_zeros. done.
  - apply Forall_app in Hok as [Hok Hd]. rewrite Forall_singleton in Hd.
    rewrite length_app, Nat2Z.inj_add, Z.pow_add_r in Hfit by lia. cbn [length] in Hfit.
    rewrite Z.pow_1_r in Hfit.
    assert (mul ^ Z.of_nat (length src) <= base ^ Z.of_nat size) as Hfit' by nia.
    specialize (IH Hok Hfit') as [IH1 IH2].
    unfold rebase in *. rewrite fold_left_app. cbn [fold_left].
    set (buf := fold_left _ src _) in *.
    assert (length buf = size) as Hlen.
    { unfold buf. clear. rewrite <- (length_replicate size (0:Z)) at 2.
      generalize (replicate size (0:Z)). induction src as [|x src IH]; intros b; [done|].
      cbn [fold_left]. rewrite IH. apply mul_add_length. }
    pose proof (mul_add_spec mul base buf d ltac:(lia) ltac:(lia) IH1 ltac:(lia)) as Hspec.
    destruct (mul_add mul base buf d) as [buf' out]. cbn [fst].
    destruct Hspec as (Hok' & Hout & E). split; [done|].
    rewrite value_app, value_cons. cbn [length]. rewrite Hlen in E. rewrite IH2 in E.
    change (value mul []) with 0. rewrite Z.pow_1_r, Z.pow_0_r.
    pose proof (value_range mul src ltac:(lia) Hok).
    pose proof (value_range base buf' ltac:(lia) Hok').
    assert (mul * value mul src + d < mul * mul ^ Z.of_nat (length src)) by nia.
    assert (out = 0) by nia. subst out. lia.
Qed.

(** ** Lemmas: the alphabet *)
Lemma alphabet_value d : 0 <= d < 58 -> b58_value (nth (Z.to_nat d) alphabet 0) = Some d.
Proof.
  intros Hd.
  assert (Forall (fun k => b58_value (nth k alphabet 0) = Some (Z.of_nat k)) (seq 0 58)) as H
    by (repeat (constructor; [reflexivity|]); constructor).
  rewrite Forall_forall in H. rewrite (H (Z.to_nat d)); [by rewrite Z2Nat.id by lia|].
  apply elem_of_seq. lia.
Qed.

Lemma index_of_range l c i v : index_of l c i = Some v -> i <= v < i + Z.of_nat (length l).
Proof.
  revert i. induction l as [|x l IH]; intros i H; simpl in *; [done|].
  destruct (x =? c); [simplify_eq; lia|]. apply IH in H. lia.
Qed.

Lemma b58_value_range c v : b58_value c = Some v -> 0 <= v < 58.
Proof.
  unfold b58_value. destruct (c =? 0); [done|]. intros H.
  apply index_of_range in H. exact H.
Qed.

Lemma b58_digits_ok s ds : b58_digits s = Some ds -> digits_ok 58 ds /\ length ds = length s.
Proof.
  revert ds. induction s as [|c s IH]; intros ds H; simpl in H; [simplify_eq; by split; [constructor|]|].
  destruct (b58_value c) eqn:E; [|done]. destruct (b58_digits s) eqn:E2; [|done].
  simplify_eq. destruct (IH _ eq_refl). split; [|simpl; congruence].
  constructor; [by eapply b58_value_range | done].
Qed.

Lemma b58_digits_app s1 s2 :
  b58_digits (s1 ++ s2) =
  match b58_digits s1, b58_digits s2 with Some a, Some b => Some (a ++ b) | _, _ => None end.
Proof.
  induction s1 as [|c s1 IH]; simpl; [by destruct (b58_digits s2)|].
  destruct (b58_value c); [|done]. rewrite IH.
  by destruct (b58_digits s1), (b58_digits s2).
Qed.

Lemma b58_digits_ones n : b58_digits (replicate n 49) = Some (replicate n 0).
Proof. induction n as [|n IH]; [done|]. cbn [replicate b58_digits]. by rewrite IH. Qed.

Lemma b58_digits_map ds :
  digits_ok 58 ds -> b58_digits (map (fun d => nth (Z.to_nat d) alphabet 0) ds) = Some ds.
Proof.
  induction 1 as [|d ds Hd Hds IH]; [done|]. cbn [map b58_digits].
  by rewrite alphabet_value, IH.
Qed.

(** ** Lemmas: the two directions as arithmetic *)
Lemma fits_b58 : 256 ^ 160 <= 58 ^ Z.of_nat B58_BUF.
Proof. apply Z.leb_le. vm_compute. reflexivity. Qed.
Lemma fits_b256 : 58 ^ 200 <= 256 ^ Z.of_nat B256_BUF.
Proof. apply Z.leb_le. vm_compute. reflexivity. Qed.

Lemma value_be_get l : bytes_ok l -> value 256 l = be_get l.
Proof.
  induction 1 as [|b l Hb Hl IH]; [done|].
  rewrite value_cons, be_get_cons, IH by done.
  rewrite Z.pow_mul_r by lia. done.
Qed.

(** Decoding reads the string as a number and fills the buffer with it, right
    aligned; it is refused exactly when a character is bad or the number does
    not fit. *)
Lemma base58_decode_value s ds n :
  (length s <= BASE58_MAX_STR)%nat -> b58_digits s = Some ds ->
  base58_decode s n =
  if value 58 ds <? 256 ^ Z.of_nat n then Some (be_put n (value 58 ds)) else None.
Proof.
  intros Hlen Hds. unfold base58_decode.
  destruct (Nat.ltb_spec BASE58_MAX_STR (length s)); [lia|]. rewrite Hds.
  destruct (b58_digits_ok s ds Hds) as [Hok Hl].
  destruct (rebase_spec 58 256 B256_BUF ds) as [Hok2 Hval]; [lia|lia|done| |].
  { etransitivity; [|exact fits_b256]. apply Z.pow_le_mono_r; [lia|].
    unfold BASE58_MAX_STR in *. lia. }
  set (buf := rebase 58 256 B256_BUF ds) in *. rewrite <- Hval. clear Hval.
  assert (bytes_ok (drop_zeros buf)) as Hb by (apply (drop_zeros_ok 256); done).
  destruct (Z.ltb_spec (value 256 buf) (256 ^ Z.of_nat n)) as [Hlt|Hge].
  - pose proof (drop_zeros_fits 256 buf n ltac:(lia) Hok2 Hlt) as Hfit.
    destruct (Nat.ltb_spec n (length (drop_zeros buf))); [lia|]. f_equal.
    set (out := replicate (n - length (drop_zeros buf)) 0 ++ drop_zeros buf).
    assert (length out = n) as Hn
      by (unfold out; rewrite length_app, length_replicate; lia).
    assert (bytes_ok out) as Hout.
    { apply Forall_app. split; [apply Forall_replicate; unfold_words; lia | done]. }
    rewrite <- (be_put_get out Hout), Hn. f_equal.
    rewrite <- value_be_get by done. unfold out. by rewrite value_zeros, drop_zeros_value.
  - destruct (Nat.ltb_spec n (length (drop_zeros buf))) as [|Hle]; [done|exfalso].
    rewrite <- drop_zeros_value in Hge.
    pose proof (value_range 256 (drop_zeros buf) ltac:(lia) Hb).
    assert (256 ^ Z.of_nat (length (drop_zeros buf)) <= 256 ^ Z.of_nat n)
      by (apply Z.pow_le_mono_r; lia). lia.
Qed.

(** Encoding writes a string whose digits are that number. *)
Lemma base58_encode_value src n s :
  bytes_ok src -> base58_encode src n = Some s ->
  exists ds, b58_digits s = Some ds /\ value 58 ds = be_get src /\ (length s < n)%nat.
Proof.
  intros Hok. unfold base58_encode.
  destruct (Nat.ltb_spec BASE58_MAX_IN (length src)) as [|Hlen]; [done|].
  set (sig := drop_zeros src). set (digits := drop_zeros (rebase 256 58 B58_BUF sig)).
  destruct (Nat.ltb_spec n (length src - length sig + length digits + 1)) as [|Hn]; [done|].
  intros [= <-].
  assert (digits_ok 256 sig) as Hsig by (apply drop_zeros_ok; done).
  destruct (rebase_spec 256 58 B58_BUF sig) as [Hok2 Hval]; [lia|lia|done| |].
  { etransitivity; [|exact fits_b58]. apply Z.pow_le_mono_r; [lia|].
    pose proof (drop_zeros_length src). unfold sig, BASE58_MAX_IN in *. lia. }
  assert (digits_ok 58 digits) as Hdig by (apply drop_zeros_ok; done).
  eexists. rewrite b58_digits_app, b58_digits_ones, b58_digits_map by done.
  split; [reflexivity|]. rewrite value_zeros. unfold digits at 1.
  rewrite drop_zeros_value, Hval. unfold sig at 1.
  rewrite drop_zeros_value, value_be_get by done. split; [done|].
  rewrite length_app, length_replicate, length_map. lia.
Qed.

(** How many characters an encoding takes at most: 138 for every 100 bytes. *)
Lemma base58_encode_some src n :
  bytes_ok src -> (length src <= 100)%nat -> (length src * 138 / 100 + 1 < n)%nat ->
  exists s, base58_encode src n = Some s /\ (length s <= length src * 138 / 100 + 1)%nat.
Proof.
  intros Hok Hlen Hn. unfold base58_encode.
  destruct (Nat.ltb_spec BASE58_MAX_IN (length src)); [unfold BASE58_MAX_IN in *; lia|].
  set (sig := drop_zeros src). set (digits := drop_zeros (rebase 256 58 B58_BUF sig)).
  assert (digits_ok 256 sig) as Hsig by (apply drop_zeros_ok; done).
  pose proof (drop_zeros_length src) as Hsl. fold sig in Hsl.
  destruct (rebase_spec 256 58 B58_BUF sig) as [Hok2 Hval]; [lia|lia|done| |].
  { etransitivity; [|exact fits_b58]. apply Z.pow_le_mono_r; lia. }
  assert (length digits <= length sig * 138 / 100 + 1)%nat as Hd.
  { apply (drop_zeros_fits 58); [lia|done|]. rewrite Hval.
    pose proof (value_range 256 sig ltac:(lia) Hsig) as Hr.
    eapply Z.lt_le_trans; [apply Hr|].
    assert (Forall (fun k => 256 ^ Z.of_nat k <= 58 ^ Z.of_nat (k * 138 / 100 + 1)) (seq 0 101)) as Hall.
    { apply Forall_forall. intros k Hk. apply elem_of_seq in Hk.
      apply Z.leb_le. revert k Hk.
      assert (forallb (fun k => 256 ^ Z.of_nat k <=? 58 ^ Z.of_nat (k * 138 / 100 + 1)) (seq 0 101) = true) as Hb
        by (vm_compute; reflexivity).
      rewrite forallb_forall in Hb. intros k Hk. apply Hb, in_seq. lia. }
    rewrite Forall_forall in Hall. apply Hall, elem_of_seq. lia. }
  assert (length src - length sig + (length sig * 138 / 100 + 1)
          <= length src * 138 / 100 + 1)%nat as Hmono.
  { assert (length src - length sig + length sig * 138 / 100
            <= length src * 138 / 100)%nat; [|lia].
    rewrite <- Nat.div_add_l by lia. apply Nat.Div0.div_le_mono. lia. }
  destruct (Nat.ltb_spec n (length src - length sig + length digits + 1)); [lia|].
  eexists. split; [reflexivity|].
  rewrite length_app, length_replicate, length_map. lia.
Qed.

(** What the encoder writes, padded on the left with the zero digit, the
    decoder reads back. *)
Lemma base58_decode_encode src pad n s :
  bytes_ok src -> base58_encode src n = Some s ->
  (pad + length s <= BASE58_MAX_STR)%nat ->
  base58_decode (replicate pad 49 ++ s) (length src) = Some src.
Proof.
  intros Hok Henc Hlen.
  destruct (base58_encode_value src n s Hok Henc) as (ds & Hds & Hval & _).
  rewrite (base58_decode_value _ (replicate pad 0 ++ ds)).
  - rewrite value_zeros, Hval.
    pose proof (be_get_range src Hok) as Hr. rewrite Z.pow_mul_r in Hr by lia.
    change (2 ^ 8) with 256 in Hr.
    destruct (Z.ltb_spec (be_get src) (256 ^ Z.of_nat (length src))); [|lia].
    by rewrite be_put_get.
  - rewrite length_app, length_replicate. lia.
  - by rewrite b58_digits_app, b58_digits_ones, Hds.
Qed.

(** ** Properties *)

(** What base58_encode writes, base58_decode reads back, also when the
    string has been padded on the left with the zero digit '1' as a token is:
    decoding to the original length returns the original bytes, whatever
    leading zeros they have. *)
Theorem base58_roundtrip (src s : bytes) (dst_len pad : nat)
    (Hok : bytes_ok src) (Henc : base58_encode src dst_len = Some s)
    (Hlen : (pad + length s <= BASE58_MAX_STR)%nat) :
  base58_decode (replicate pad 49 ++ s) (length src) = Some src.
Proof. by apply (base58_decode_encode src pad dst_len). Qed.

Lemma base58_roundtrip_witness :
  base58_decode (replicate 3 49 ++ cstr "12c") 3 = Some [0; 0; 93].
Proof.
  apply (base58_roundtrip [0; 0; 93] (cstr "112c") 10 2);
    [repeat constructor; unfold_words; lia | vm_compute; reflexivity
    | apply Nat.leb_le; vm_compute; reflexivity].
Defined.

(** Decoding never reads out of range or truncates: it succeeds exactly on
    strings of alphabet characters, no longer than the codec's limit, whose
    number fits in the buffer, and then fills the whole buffer. *)
Theorem base58_decode_exact (s : bytes) (n : nat) :
  (exists out, base58_decode s n = Some out) <->
  (length s <= BASE58_MAX_STR)%nat /\
  exists ds, b58_digits s = Some ds /\ value 58 ds < 256 ^ Z.of_nat n.
Proof.
  destruct (le_lt_dec (length s) BASE58_MAX_STR) as [Hle|Hgt].
  - destruct (b58_digits s) as [ds|] eqn:E.
    + rewrite (base58_decode_value s ds n Hle E).
      destruct (Z.ltb_spec (value 58 ds) (256 ^ Z.of_nat n)); split.
      * intros _. eauto.
      * eauto.
      * intros [? ?]. done.
      * intros (_ & ? & [= <-] & ?). lia.
    + unfold base58_decode. destruct (Nat.ltb_spec BASE58_MAX_STR (length s)); [lia|].
      rewrite E. split; [intros [? ?]; done | intros (_ & ? & ? & _); done].
  - unfold base58_decode. destruct (Nat.ltb_spec BASE58_MAX_STR (length s)); [|lia].
    split; [intros [? ?]; done | lia].
Qed.
