(* ===== verification/Base64.v ===== *)
(** src/src/base64.c: the padded standard encoder used for OSC 52 and the
    unpadded URL-safe codec the SSH passwords are carried in. *)
From S2P Require Import Prelude.

Definition b64url_alphabet : bytes :=
  cstr "ABCDEFGHIJKLMNOPQRSTUVWXYZabcdefghijklmnopqrstuvwxyz0123456789-_".
Definition b64_alphabet : bytes :=
  cstr "ABCDEFGHIJKLMNOPQRSTUVWXYZabcdefghijklmnopqrstuvwxyz0123456789+/".

(** [alphabet[i]] *)
Definition b64_char (alpha : bytes) (i : Z) : Z := nth (Z.to_nat i) alpha 0.

(** One whole group of three bytes. *)
Definition b64_word (a b c : Z) : Z := u32 (a << 16) .| u32 (b << 8) .| c.
Definition b64_group (alpha : bytes) (v : Z) : bytes :=
  [b64_char alpha (v >> 18); b64_char alpha (v >> 12 .& 63);
   b64_char alpha (v >> 6 .& 63); b64_char alpha (v .& 63)].

Fixpoint base64_body (src : bytes) : bytes :=
  match src with
  | a :: b :: c :: rest => b64_group b64_alphabet (b64_word a b c) ++ base64_body rest
  | [a; b] =>
      let v := u32 (a << 16) .| u32 (b << 8) in
      [b64_char b64_alphabet (v >> 18); b64_char b64_alphabet (v >> 12 .& 63);
       b64_char b64_alphabet (v >> 6 .& 63); 61]
  | [a] =>
      let v := u32 (a << 16) in
      [b64_char b64_alphabet (v >> 18); b64_char b64_alphabet (v >> 12 .& 63); 61; 61]
  | [] => []
  end.

(** [None] is the return of 0 that writes nothing. *)
Definition base64_encode (src : bytes) (dest_len : nat) : option bytes :=
  let need := ((length src + 2) / 3 * 4 + 1)%nat in
  if (dest_len <? need)%nat then None else Some (base64_body src).

Fixpoint base64url_body (src : bytes) : bytes :=
  match src with
  | a :: b :: c :: rest => b64_group b64url_alphabet (b64_word a b c) ++ base64url_body rest
  | [a; b] =>
      let v := u32 (a << 16) .| u32 (b << 8) in
      [b64_char b64url_alphabet (v >> 18); b64_char b64url_alphabet (v >> 12 .& 63);
       b64_char b64url_alphabet (v >> 6 .& 63)]
  | [a] =>
      let v := u32 (a << 16) in
      [b64_char b64url_alphabet (v >> 18); b64_char b64url_alphabet (v >> 12 .& 63)]
  | [] => []
  end.

Definition base64url_encode (src : bytes) (dest_len : nat) : option bytes :=
  let rem := (length src mod 3)%nat in
  let need := (length src / 3 * 4 + (if (rem =? 0)%nat then 0 else rem + 1) + 1)%nat in
  if (dest_len <? need)%nat then None else Some (base64url_body src).

Definition b64url_value (c : Z) : option Z :=
  if (65 <=? c) && (c <=? 90) then Some (c - 65)
  else if (97 <=? c) && (c <=? 122) then Some (c - 97 + 26)
  else if (48 <=? c) && (c <=? 57) then Some (c - 48 + 52)
  else if c =? 45 then Some 62
  else if c =? 95 then Some 63
  else None.

(** The loop of the decoder: the accumulator [v], the number of its low bits
    not yet written, and the room left in [dest]. *)
Fixpoint b64url_loop (src : bytes) (v bits : Z) (room : nat) : option (bytes * Z * Z) :=
  match src with
  | [] => Some ([], v, bits)
  | c :: rest =>
      match b64url_value c with
      | None => None
      | Some d =>
          let v := u32 (v << 6) .| d in
          let bits := bits + 6 in
          if bits <? 8 then b64url_loop rest v bits room
          else
            let bits := bits - 8 in
            match room with
            | O => None
            | S room =>
                match b64url_loop rest v bits room with
                | None => None
                | Some (out, v', b') => Some (u8 (v >> bits) :: out, v', b')
                end
            end
      end
  end.

(** [None] is the return of -1. *)
Definition base64url_decode (src : bytes) (dest_len : nat) : option bytes :=
  if (length src mod 4 =? 1)%nat then None
  else match b64url_loop src 0 0 dest_len with
       | None => None
       | Some (out, v, bits) =>
           if truth (v .& (u32 (1 << bits) - 1)) then None else Some out
       end.

(** ** Lemmas: the alphabet *)
Lemma b64url_value_char d :
  0 <= d < 64 -> b64url_value (b64_char b64url_alphabet d) = Some d.
Proof.
  intros Hd. unfold b64_char.
  assert (Forall (fun k => b64url_value (nth k b64url_alphabet 0) = Some (Z.of_nat k))
            (seq 0 64)) as H by (repeat (constructor; [reflexivity|]); constructor).
  rewrite Forall_forall in H. rewrite (H (Z.to_nat d)); [by rewrite Z2Nat.id by lia|].
  apply elem_of_seq. lia.
Qed.

Lemma b64url_char_value c d :
  b64url_value c = Some d -> 0 <= d < 64 /\ b64_char b64url_alphabet d = c.
Proof.
  intros H.
  assert (forall e f, 0 <= f < 64 -> b64url_value e = Some f ->
            b64_char b64url_alphabet f = e) as Hc.
  { intros e f Hf He.
    assert (0 <= e < 128) as Hr.
    { unfold b64url_value in He. bool_cases; simpl in He; simplify_eq; lia. }
    assert (Forall (fun k => forall g, b64url_value (Z.of_nat k) = Some g ->
              b64_char b64url_alphabet g = Z.of_nat k) (seq 0 128)) as Hall.
    { repeat (constructor; [intros g Hg; vm_compute in Hg; simplify_eq; reflexivity|]).
      constructor. }
    rewrite Forall_forall in Hall. specialize (Hall (Z.to_nat e)).
    rewrite Z2Nat.id in Hall by lia. apply Hall; [|done]. apply elem_of_seq. lia. }
  assert (0 <= d < 64) as Hd.
  { unfold b64url_value in H. bool_cases; simpl in H; simplify_eq; lia. }
  split; [done | by apply Hc].
Qed.

(** ** Lemmas: the words of a group as arithmetic *)
Lemma land63 x : x .& 63 = x mod 64.
Proof. change 63 with (Z.ones 6). by rewrite Z.land_ones by lia. Qed.

Lemma b64_word_val a b c :
  is_u8 a -> is_u8 b -> is_u8 c -> b64_word a b c = a * 2 ^ 16 + b * 2 ^ 8 + c.
Proof.
  intros Ha Hb Hc. unfold b64_word. unfold_words.
  rewrite !(Z.mod_small (_ << _)) by (rewrite Z.shiftl_mul_pow2 by lia; lia).
  transitivity (((a * 2 ^ 8 + b) << 8) .| c).
  - f_equal. rewrite (Z.shiftl_mul_pow2 b), (Z.shiftl_mul_pow2 (_ + b)) by lia.
    rewrite lor_shiftl_add by lia. lia.
  - rewrite lor_shiftl_add by lia. lia.
Qed.

Lemma b64_word2_val a b :
  is_u8 a -> is_u8 b -> u32 (a << 16) .| u32 (b << 8) = a * 2 ^ 16 + b * 2 ^ 8.
Proof.
  intros Ha Hb. pose proof (b64_word_val a b 0 Ha Hb ltac:(unfold_words; lia)) as H.
  unfold b64_word in H. rewrite Z.lor_0_r in H. lia.
Qed.

Lemma b64_word1_val a : is_u8 a -> u32 (a << 16) = a * 2 ^ 16.
Proof.
  intros Ha. rewrite Z.shiftl_mul_pow2 by lia. apply u32_id. unfold_words. lia.
Qed.

(** ** Lemmas: the decoder's accumulator *)

(** Only the pending low bits of the accumulator matter. *)
Lemma b64url_step v bits d :
  0 <= bits <= 6 -> 0 <= d < 64 ->
  (u32 (v << 6) .| d) mod 2 ^ (bits + 6) = (v mod 2 ^ bits) * 64 + d.
Proof.
  intros Hb Hd.
  assert (u32 (v << 6) = (v mod 2 ^ 26) << 6) as ->.
  { unfold u32. rewrite !Z.shiftl_mul_pow2 by lia.
    change (2 ^ 32) with (2 ^ 26 * 2 ^ 6). by rewrite Z.mul_mod_distr_r by lia. }
  rewrite (lor_shiftl_add _ d 6) by lia.
  rewrite Z.add_comm, Z.pow_add_r, (Z.mul_comm (2 ^ bits)) by lia.
  rewrite Z.rem_mul_r by lia.
  rewrite Z.add_comm. rewrite Z.div_add, Z.mod_add by lia.
  rewrite (Z.div_small d), (Z.mod_small d) by lia. rewrite Z.add_0_l.
  replace (2 ^ 26) with (2 ^ bits * 2 ^ (26 - bits))
    by (rewrite <- Z.pow_add_r by lia; f_equal; lia).
  rewrite Z.mod_mod_divide by apply Z.divide_factor_l. lia.
Qed.

Lemma b64url_emit v bits : 0 <= bits -> u8 (v >> bits) = v mod 2 ^ (bits + 8) / 2 ^ bits.
Proof.
  intros Hb. unfold u8. rewrite shiftr_div by lia.
  rewrite Z.pow_add_r, Z.rem_mul_r by lia.
  rewrite Z.add_comm, Z.mul_comm, Z.div_add_l by lia.
  rewrite (Z.div_small (v mod _)); [lia | apply Z.mod_pos_bound; lia].
Qed.

(** The loop on the pending bits alone. *)
Fixpoint b64url_spec (ds : bytes) (p bits : Z) : bytes * Z * Z :=
  match ds with
  | [] => ([], p, bits)
  | d :: rest =>
      let q := p * 64 + d in
      if bits <? 2 then b64url_spec rest q (bits + 6)
      else
        let '(out, p', b') := b64url_spec rest (q mod 2 ^ (bits - 2)) (bits - 2) in
        (q / 2 ^ (bits - 2) :: out, p', b')
  end.

Lemma b64url_loop_spec src ds v bits room :
  Forall2 (fun c d => b64url_value c = Some d) src ds ->
  bits = 0 \/ bits = 2 \/ bits = 4 \/ bits = 6 ->
  let '(out, p, b) := b64url_spec ds (v mod 2 ^ bits) bits in
  exists v', b64url_loop src v bits room =
               (if (length out <=? room)%nat then Some (out, v', b) else None) /\
             v' mod 2 ^ b = p /\ (b = 0 \/ b = 2 \/ b = 4 \/ b = 6).
Proof.
  intros HF. revert v bits room. induction HF as [|c d src ds Hc HF IH]; intros v bits room Hbits.
  - exists v. simpl. auto.
  - cbn [b64url_spec b64url_loop]. rewrite Hc.
    destruct (b64url_char_value c d Hc) as [Hd _].
    set (v1 := u32 (v << 6) .| d).
    assert (v1 mod 2 ^ (bits + 6) = (v mod 2 ^ bits) * 64 + d) as E
      by (apply b64url_step; lia).
    destruct (Z.ltb_spec bits 2) as [Hb2|Hb2].
    + assert (bits = 0) as -> by lia. change (0 + 6 <? 8) with true. cbv iota.
      rewrite <- E. apply IH. lia.
    + replace (bits + 6 <? 8) with false by (symmetry; apply Z.ltb_ge; lia).
      replace (bits + 6 - 8) with (bits - 2) by lia.
      assert (((v mod 2 ^ bits) * 64 + d) mod 2 ^ (bits - 2) = v1 mod 2 ^ (bits - 2)) as ->.
      { rewrite <- E. replace (bits + 6) with ((bits - 2) + 8) by lia.
        rewrite (Z.pow_add_r 2 (bits - 2) 8) by lia.
        by rewrite Z.mod_mod_divide by apply Z.divide_factor_l. }
      specialize (IH v1 (bits - 2)).
      destruct (b64url_spec ds (v1 mod 2 ^ (bits - 2)) (bits - 2)) as [[out p] b].
      rewrite <- E.
      replace (bits + 6) with (bits - 2 + 8) by lia. rewrite <- b64url_emit by lia.
      destruct room as [|room]; [destruct (IH O) as (v' & _ & H); [lia | by exists v']|].
      destruct (IH room) as (v' & Hl & H); [lia|]. exists v'. split; [|done].
      rewrite Hl. cbn [length Nat.leb]. by destruct (length out <=? room)%nat.
Qed.

(** Every character of an accepted string has a value. *)
Lemma b64url_loop_digits src v bits room r :
  b64url_loop src v bits room = Some r ->
  exists ds, Forall2 (fun c d => b64url_value c = Some d) src ds.
Proof.
  revert v bits room r. induction src as [|c src IH]; intros v bits room r H; [by exists []|].
  cbn [b64url_loop] in H. destruct (b64url_value c) as [d|] eqn:E; [|done].
  assert (exists ds, Forall2 (fun c d => b64url_value c = Some d) src ds) as [ds Hds].
  { destruct (bits + 6 <? 8); [eauto|]. destruct room as [|room]; [done|].
    destruct (b64url_loop src _ _ room) as [[[? ?] ?]|] eqn:E2; [eauto|done]. }
  exists (d :: ds). by constructor.
Qed.

(** What a whole successful decode says, in digits. *)
Lemma base64url_decode_spec s n ds :
  Forall2 (fun c d => b64url_value c = Some d) s ds ->
  base64url_decode s n =
  let '(out, p, b) := b64url_spec ds 0 0 in
  if (length s mod 4 =? 1)%nat then None
  else if (length out <=? n)%nat then (if p =? 0 then Some out else None) else None.
Proof.
  intros HF. pose proof (b64url_loop_spec s ds 0 0 n HF ltac:(auto)) as H.
  rewrite Z.mod_0_l in H by lia. unfold base64url_decode.
  destruct (b64url_spec ds 0 0) as [[out p] b]. destruct H as (v' & -> & Hp & Hb).
  destruct (length s mod 4 =? 1)%nat; [done|]. destruct (length out <=? n)%nat; [|done].
  assert (u32 (1 << b) - 1 = Z.ones b) as ->.
  { rewrite Z.shiftl_1_l, u32_id, Z.ones_equiv; [lia|].
    destruct Hb as [->|[->|[->| ->]]]; unfold_words; lia. }
  rewrite Z.land_ones, Hp by lia. unfold truth. by destruct (p =? 0).
Qed.

(** ** Lemmas: the encoder's digits *)
Definition b64_digits (v : Z) : bytes :=
  [v / 2 ^ 18; v / 2 ^ 12 mod 64; v / 2 ^ 6 mod 64; v mod 64].

Fixpoint enc_digits (src : bytes) : bytes :=
  match src with
  | a :: b :: c :: rest => b64_digits (a * 2 ^ 16 + b * 2 ^ 8 + c) ++ enc_digits rest
  | [a; b] => take 3 (b64_digits (a * 2 ^ 16 + b * 2 ^ 8))
  | [a] => take 2 (b64_digits (a * 2 ^ 16))
  | [] => []
  end.

Ltac Zify.zify_post_hook ::= Z.to_euclidean_division_equations.

Lemma b64_group_digits alpha v :
  b64_group alpha v = map (b64_char alpha) (b64_digits v).
Proof. unfold b64_group, b64_digits. rewrite !land63, !shiftr_div by lia. done. Qed.

Lemma base64url_body_digits src :
  bytes_ok src -> base64url_body src = map (b64_char b64url_alphabet) (enc_digits src).
Proof.
  induction src as [|a|a b|a b c l IH] using list_ind3; intros Hok; unfold bytes_ok in *;
    rewrite ?Forall_cons in Hok; cbn [base64url_body enc_digits].
  - done.
  - rewrite b64_word1_val, land63, !shiftr_div by (lia || apply Hok). done.
  - rewrite b64_word2_val, !land63, !shiftr_div by (lia || apply Hok). done.
  - rewrite b64_word_val, b64_group_digits, map_app by apply Hok.
    f_equal. apply IH, Hok.
Qed.

Lemma b64_digits_range v : 0 <= v < 2 ^ 24 -> Forall (fun d => 0 <= d < 64) (b64_digits v).
Proof. intros Hv. unfold b64_digits. repeat constructor; lia. Qed.

Lemma enc_digits_range src : bytes_ok src -> Forall (fun d => 0 <= d < 64) (enc_digits src).
Proof.
  induction src as [|a|a b|a b c l IH] using list_ind3; intros Hok; unfold bytes_ok in *;
    rewrite ?Forall_cons in Hok; unfold_words; cbn [enc_digits].
  - constructor.
  - apply Forall_take, b64_digits_range. lia.
  - apply Forall_take, b64_digits_range. lia.
  - apply Forall_app. split; [apply b64_digits_range; lia | apply IH, Hok].
Qed.

Lemma b64url_spec_group a b c d ds :
  0 <= a < 64 -> 0 <= b < 64 -> 0 <= c < 64 -> 0 <= d < 64 ->
  b64url_spec (a :: b :: c :: d :: ds) 0 0 =
  let '(out, p, k) := b64url_spec ds 0 0 in
  (a * 4 + b / 16 :: b mod 16 * 16 + c / 4 :: c mod 4 * 64 + d :: out, p, k).
Proof.
  intros Ha Hb Hc Hd. cbn [b64url_spec].
  change (0 <? 2) with true. change (0 + 6 <? 2) with false. change (0 + 6 - 2) with 4.
  change (4 <? 2) with false. change (4 - 2) with 2. change (2 <? 2) with false.
  change (2 - 2) with 0. cbv iota. change (2 ^ 4) with 16. change (2 ^ 2) with 4.
  change (2 ^ 0) with 1. rewrite Z.mod_1_r, Z.div_1_r.
  destruct (b64url_spec ds 0 0) as [[out p] k].
  f_equal. f_equal. f_equal; [lia|]. f_equal; [lia|]. f_equal. lia.
Qed.

Lemma b64url_spec_enc src :
  bytes_ok src -> exists b, b64url_spec (enc_digits src) 0 0 = (src, 0, b).
Proof.
  induction src as [|a|a b|a b c l IH] using list_ind3; intros Hok; unfold bytes_ok in *;
    rewrite ?Forall_cons in Hok; unfold_words; cbn [enc_digits].
  - by exists 0.
  - eexists. simpl. change (Z.pow_pos 2 4) with 16. repeat f_equal; lia.
  - eexists. simpl. change (Z.pow_pos 2 4) with 16. change (Z.pow_pos 2 2) with 4.
    repeat f_equal; lia.
  - destruct IH as [k Hk]; [apply Hok|]. exists k. unfold b64_digits.
    cbn [app]. rewrite b64url_spec_group, Hk by lia. repeat f_equal; lia.
Qed.

Lemma mod4_step n : ((4 + n) mod 4 = n mod 4)%nat.
Proof. rewrite Nat.add_comm. replace 4%nat with (1 * 4)%nat at 1 by lia. apply Nat.Div0.mod_add. Qed.

Lemma enc_digits_length src : (length (enc_digits src) mod 4 <> 1)%nat.
Proof.
  induction src as [|a|a b|a b c l IH] using list_ind3; cbn [enc_digits]; try done.
  rewrite length_app. change (length (b64_digits _)) with 4%nat.
  by rewrite mod4_step.
Qed.

(** The other way: what a clean digit string decodes to encodes to it. *)
Lemma enc_digits_spec ds :
  Forall (fun d => 0 <= d < 64) ds -> (length ds mod 4 <> 1)%nat ->
  forall out b, b64url_spec ds 0 0 = (out, 0, b) -> bytes_ok out /\ enc_digits out = ds.
Proof.
  induction ds as [|a|a b|a b c|a b c d l IH] using list_ind4; intros Hok Hlen out k E;
    rewrite ?Forall_cons in Hok.
  - simpl in E. simplify_eq. split; [constructor | done].
  - done.
  - simpl in E. change (Z.pow_pos 2 4) with 16 in E. simplify_eq.
    split; [repeat constructor; unfold_words; lia|]. simpl.
    repeat f_equal; lia.
  - simpl in E. change (Z.pow_pos 2 4) with 16 in E. change (Z.pow_pos 2 2) with 4 in E.
    simplify_eq. split; [repeat constructor; unfold_words; lia|]. simpl. repeat f_equal; lia.
  - rewrite b64url_spec_group in E by apply Hok.
    destruct (b64url_spec l 0 0) as [[out' p'] k'] eqn:El. simplify_eq.
    destruct (IH ltac:(apply Hok) ltac:(by rewrite <- mod4_step) out' k eq_refl) as [H1 H2].
    split; [repeat (constructor; [unfold_words; lia|]); done|].
    cbn [enc_digits]. rewrite H2. unfold b64_digits. simpl. repeat f_equal; lia.
Qed.

Lemma map_char_values ds :
  Forall (fun d => 0 <= d < 64) ds ->
  Forall2 (fun c d => b64url_value c = Some d) (map (b64_char b64url_alphabet) ds) ds.
Proof.
  induction 1 as [|d ds Hd Hds IH]; [constructor|]. constructor; [|done].
  by apply b64url_value_char.
Qed.

Lemma values_map_char s ds :
  Forall2 (fun c d => b64url_value c = Some d) s ds ->
  Forall (fun d => 0 <= d < 64) ds /\ map (b64_char b64url_alphabet) ds = s.
Proof.
  induction 1 as [|c d s ds Hc HF [IH1 IH2]]; [by split; [constructor|]|].
  apply b64url_char_value in Hc as [Hd Hc]. split; [by constructor|].
  simpl. by rewrite Hc, IH2.
Qed.

(** ** Properties *)

(** An SSH password survives its text form: whatever bytes
    base64url_encode is given, base64url_decode of the result into a buffer
    that holds them returns exactly those bytes. *)
Theorem base64url_roundtrip (src s : bytes) (dest_len n : nat)
    (Hok : bytes_ok src) (Henc : base64url_encode src dest_len = Some s)
    (Hn : (length src <= n)%nat) :
  base64url_decode s n = Some src.
Proof.
  unfold base64url_encode in Henc. destruct (Nat.ltb dest_len _); [done|]. simplify_eq.
  rewrite base64url_body_digits by done.
  rewrite (base64url_decode_spec _ n (enc_digits src))
    by (by apply map_char_values, enc_digits_range).
  destruct (b64url_spec_enc src Hok) as [b ->].
  rewrite length_map. pose proof (enc_digits_length src) as Hl.
  apply Nat.eqb_neq in Hl. rewrite Hl. apply Nat.leb_le in Hn. by rewrite Hn.
Qed.

Lemma base64url_roundtrip_witness :
  base64url_decode (cstr "AP-_Fw") 4 = Some [0; 255; 191; 23].
Proof.
  apply (base64url_roundtrip [0; 255; 191; 23] (cstr "AP-_Fw") 20 4);
    [repeat constructor; unfold_words; lia | vm_compute; reflexivity | simpl; lia].
Defined.

(** Decoding is canonical: a string that decodes at all is the one
    base64url_encode produces for the bytes it decodes to, so no two strings
    carry the same secret (the stray low bits of a short tail are refused). *)
Theorem base64url_canonical (s out : bytes) (n : nat)
    (Hdec : base64url_decode s n = Some out) :
  bytes_ok out /\ base64url_body out = s.
Proof.
  assert (exists ds, Forall2 (fun c d => b64url_value c = Some d) s ds) as [ds HF].
  { unfold base64url_decode in Hdec. destruct (length s mod 4 =? 1)%nat; [done|].
    destruct (b64url_loop s 0 0 n) as [r|] eqn:E; [|done].
    by eapply b64url_loop_digits. }
  rewrite (base64url_decode_spec s n ds HF) in Hdec.
  destruct (b64url_spec ds 0 0) as [[o p] b] eqn:Es.
  destruct (Nat.eqb_spec (length s mod 4) 1) as [|Hl]; [done|].
  destruct (length o <=? n)%nat; [|done]. destruct (Z.eqb_spec p 0) as [->|]; [|done].
  simplify_eq. destruct (values_map_char s ds HF) as [Hr Hm].
  destruct (enc_digits_spec ds Hr) with (out := out) (b := b) as [Hok He].
  - rewrite <- (Forall2_length _ _ _ HF). done.
  - done.
  - split; [done|]. rewrite base64url_body_digits by done. by rewrite He.
Qed.

Lemma base64url_canonical_witness :
  base64url_decode (cstr "AP-_Fw") 4 = Some [0; 255; 191; 23] /\
  bytes_ok [0; 255; 191; 23] /\ base64url_body [0; 255; 191; 23] = cstr "AP-_Fw".
Proof.
  split; [vm_compute; reflexivity|].
  apply (base64url_canonical (cstr "AP-_Fw") [0; 255; 191; 23] 4).
  vm_compute. reflexivity.
Defined.
