(* ===== verification/Token.v ===== *)
(** Tokens: the payload, checksum and text form of src/src/token.c, the
    per-family endpoint states, and the decision tree of src/src/tokgen.c. *)
From S2P Require Import Prelude.
From S2P Require Import Base58.

Definition TOKEN_VERSION : Z := 7.
Definition TOKEN_RDV_LEN : nat := 16.
Definition TOKEN_AUTH_LEN : nat := 16.
Definition TOKEN_HOSTPUB_LEN : nat := 32.
Definition TOKEN_EP6_LEN : nat := 16.
Definition TOKEN_EP4_LEN : nat := 4.
Definition TOKEN_RAW_LEN : nat :=
  2 + TOKEN_RDV_LEN + TOKEN_AUTH_LEN + TOKEN_HOSTPUB_LEN + (TOKEN_EP6_LEN + 2) + (TOKEN_EP4_LEN + 2).
Definition TOKEN_SUM_LEN : nat := 4.
Definition TOKEN_WIRE_LEN : nat := TOKEN_RAW_LEN + TOKEN_SUM_LEN.
Definition TOKEN_STR_LEN : nat := TOKEN_WIRE_LEN * 138 / 100 + 1.

Definition TOKEN_FLAG_EP6_RDV : Z := 0x04.
Definition TOKEN_FLAG_EP4_RDV : Z := 0x08.
Definition TOKEN_FLAG_EP6_SETTLED : Z := 0x10.
Definition TOKEN_FLAG_EP4_SETTLED : Z := 0x20.

Inductive token_state :=
| TOKEN_STATE_PENDING
| TOKEN_STATE_NONE
| TOKEN_STATE_RENDEZVOUS
| TOKEN_STATE_DIRECT.

Record token := mk_token {
  version : Z;
  flags : Z;
  rdv : bytes;
  auth : bytes;
  hostpub : bytes;
  ep6_addr : bytes;
  ep6_port : Z;
  ep4_addr : bytes;
  ep4_port : Z
}.

Definition token_eta (t : token) : token :=
  mk_token (version t) (flags t) (rdv t) (auth t) (hostpub t)
    (ep6_addr t) (ep6_port t) (ep4_addr t) (ep4_port t).
#[export] Instance set_flags : Setter flags := ltac:(solve_setter token_eta).
#[export] Instance set_ep6_addr : Setter ep6_addr := ltac:(solve_setter token_eta).
#[export] Instance set_ep6_port : Setter ep6_port := ltac:(solve_setter token_eta).
#[export] Instance set_ep4_addr : Setter ep4_addr := ltac:(solve_setter token_eta).
#[export] Instance set_ep4_port : Setter ep4_port := ltac:(solve_setter token_eta).

Definition put16 (v : Z) : bytes := [u8 (v >> 8); u8 v].
Definition get16 (p : bytes) : Z :=
  u16 ((nth 0 p 0 << 8) .| nth 1 p 0).

(** One bit of the CRC-32 (IEEE) division. *)
Definition crc_bit (c : Z) : Z :=
  Z.lxor (c >> 1) (0xedb88320 .& u32 (- (c .& 1))).
Definition crc_byte (c d : Z) : Z := Nat.iter 8 crc_bit (Z.lxor c d).
(** Conversion unfolds the checksum last: eight steps at once are large. *)
#[global] Strategy 1000 [crc_bit].
#[global] Strategy 500 [Nat.iter].
Definition crc32 (data : bytes) : Z :=
  Z.lxor (fold_left crc_byte data 0xffffffff) 0xffffffff.

Definition payload_pack (tok : token) : bytes :=
  [version tok; flags tok] ++ rdv tok ++ auth tok ++ hostpub tok ++
  ep6_addr tok ++ put16 (ep6_port tok) ++ ep4_addr tok ++ put16 (ep4_port tok).

Definition payload_unpack (raw : bytes) : token :=
  let o0 := 2%nat in
  let o1 := (o0 + TOKEN_RDV_LEN)%nat in
  let o2 := (o1 + TOKEN_AUTH_LEN)%nat in
  let o3 := (o2 + TOKEN_HOSTPUB_LEN)%nat in
  let o4 := (o3 + TOKEN_EP6_LEN)%nat in
  let o5 := (o4 + 2)%nat in
  let o6 := (o5 + TOKEN_EP4_LEN)%nat in
  mk_token (nth 0 raw 0) (nth 1 raw 0)
    (slice o0 TOKEN_RDV_LEN raw) (slice o1 TOKEN_AUTH_LEN raw)
    (slice o2 TOKEN_HOSTPUB_LEN raw)
    (slice o3 TOKEN_EP6_LEN raw) (get16 (drop o4 raw))
    (slice o5 TOKEN_EP4_LEN raw) (get16 (drop o6 raw)).

(** The checksummed wire form, [wire[TOKEN_WIRE_LEN]]. *)
Definition token_wire (tok : token) : bytes :=
  let raw := payload_pack tok in
  let sum := crc32 raw in
  raw ++ put16 (u16 (sum >> 16)) ++ put16 (u16 sum).

(** [None] is the return of -1. *)
Definition token_encode (tok : token) (dest_len : nat) : option bytes :=
  match base58_encode (token_wire tok) (TOKEN_STR_LEN + 1) with
  | None => None
  | Some tmp =>
      let n := length tmp in
      if (n =? 0)%nat || (TOKEN_STR_LEN <? n)%nat || (dest_len <? TOKEN_STR_LEN + 1)%nat
      then None
      else Some (replicate (TOKEN_STR_LEN - n) 49 ++ tmp)
  end.

(** The three results of a decode. *)
Inductive token_result :=
| TOKEN_OK (tok : token)
| TOKEN_ERR_VERSION
| TOKEN_ERR.

Definition token_decode (src : bytes) : token_result :=
  if negb (length src =? TOKEN_STR_LEN)%nat then TOKEN_ERR
  else match base58_decode src TOKEN_WIRE_LEN with
       | None => TOKEN_ERR
       | Some wire =>
           let sum := crc32 (take TOKEN_RAW_LEN wire) in
           let want := u32 (get16 (drop TOKEN_RAW_LEN wire) << 16)
                       .| get16 (drop (TOKEN_RAW_LEN + 2) wire) in
           if negb (sum =? want) then TOKEN_ERR
           else if negb (nth 0 wire 0 =? TOKEN_VERSION) then TOKEN_ERR_VERSION
           else TOKEN_OK (payload_unpack wire)
       end.

(** The slot of one family: [family == 6 ? .. : ..] throughout. *)
Definition fam_addr (tok : token) (family : Z) : bytes :=
  if family =? 6 then ep6_addr tok else ep4_addr tok.
Definition fam_port (tok : token) (family : Z) : Z :=
  if family =? 6 then ep6_port tok else ep4_port tok.
Definition fam_len (family : Z) : nat :=
  if family =? 6 then TOKEN_EP6_LEN else TOKEN_EP4_LEN.
Definition fam_rdv (family : Z) : Z :=
  if family =? 6 then TOKEN_FLAG_EP6_RDV else TOKEN_FLAG_EP4_RDV.
Definition fam_settled (family : Z) : Z :=
  if family =? 6 then TOKEN_FLAG_EP6_SETTLED else TOKEN_FLAG_EP4_SETTLED.

Definition token_family_state (tok : token) (family : Z) : token_state :=
  if existsb truth (take (fam_len family) (fam_addr tok family)) then
    if truth (flags tok .& fam_rdv family)
    then TOKEN_STATE_RENDEZVOUS else TOKEN_STATE_DIRECT
  else
    if truth (flags tok .& fam_settled family)
    then TOKEN_STATE_NONE else TOKEN_STATE_PENDING.

Definition put_slot (tok : token) (family : Z) (a : bytes) (p : Z) : token :=
  if family =? 6 then tok <| ep6_addr := a |> <| ep6_port := p |>
  else tok <| ep4_addr := a |> <| ep4_port := p |>.

Definition token_set_family (tok : token) (family : Z) (state : token_state)
    (addr : bytes) (port : Z) : token :=
  let rdv := fam_rdv family in
  let set_ := fam_settled family in
  let fl := flags tok .& u8 (Z.lnot (rdv .| set_)) in
  match state with
  | TOKEN_STATE_RENDEZVOUS =>
      (put_slot tok family (take (fam_len family) addr) port)
        <| flags := (fl .| set_) .| rdv |>
  | TOKEN_STATE_DIRECT =>
      (put_slot tok family (take (fam_len family) addr) port) <| flags := fl .| set_ |>
  | TOKEN_STATE_NONE =>
      (put_slot tok family (replicate (fam_len family) 0) 0) <| flags := fl .| set_ |>
  | TOKEN_STATE_PENDING =>
      (put_slot tok family (replicate (fam_len family) 0) 0) <| flags := fl |>
  end.

(** ** tokgen.c *)
Inductive tok_advert :=
| TOK_ADVERT_PENDING | TOK_ADVERT_ENDPOINT | TOK_ADVERT_RENDEZVOUS | TOK_ADVERT_NONE.

Record tokgen_facts := mk_tokgen_facts {
  has_usable_addr : bool;
  has_default_route : bool;
  dht_acked : bool;
  dht_attempt_concluded : bool;
  public_port_proven : bool
}.

Definition tokgen_decide (f : tokgen_facts) : tok_advert :=
  if negb (has_usable_addr f) then TOK_ADVERT_NONE
  else if public_port_proven f then TOK_ADVERT_ENDPOINT
  else if dht_acked f then TOK_ADVERT_RENDEZVOUS
  else if negb (has_default_route f) || dht_attempt_concluded f then TOK_ADVERT_NONE
  else TOK_ADVERT_PENDING.

Definition tokgen_decide_host (v4 v6 : tokgen_facts) : Z * (tok_advert * tok_advert) :=
  (if negb (has_usable_addr v4) && negb (has_usable_addr v6) then -1 else 0,
   (tokgen_decide v4, tokgen_decide v6)).

(** ** Well-formedness *)

(** The field widths of [struct token]. *)
Definition token_wf (t : token) : Prop :=
  is_u8 (version t) /\ is_u8 (flags t) /\
  length (rdv t) = TOKEN_RDV_LEN /\ bytes_ok (rdv t) /\
  length (auth t) = TOKEN_AUTH_LEN /\ bytes_ok (auth t) /\
  length (hostpub t) = TOKEN_HOSTPUB_LEN /\ bytes_ok (hostpub t) /\
  length (ep6_addr t) = TOKEN_EP6_LEN /\ bytes_ok (ep6_addr t) /\ is_u16 (ep6_port t) /\
  length (ep4_addr t) = TOKEN_EP4_LEN /\ bytes_ok (ep4_addr t) /\ is_u16 (ep4_port t).

(** ** Lemmas: 16-bit stores *)
Lemma put16_be v : put16 v = be_put 2 v.
Proof. unfold put16. simpl. by rewrite Z.shiftr_0_r. Qed.

Lemma get16_put16 v rest : is_u16 v -> get16 (put16 v ++ rest) = v.
Proof.
  intros Hv. unfold get16, put16. cbn [app nth].
  rewrite lor_shiftl_add by (apply u8_range || lia).
  rewrite shiftr_div by lia. unfold_words.
  rewrite (Z.mod_small (v / 2 ^ 8)) by (split; [apply Z.div_pos | apply Z.div_lt_upper_bound]; lia).
  pose proof (Z.div_mod v (2 ^ 8) ltac:(lia)). rewrite Z.mod_small; lia.
Qed.

(** ** Lemmas: the checksum *)
Lemma land1_bit c : c .& 1 = if Z.odd c then 1 else 0.
Proof.
  change 1 with (Z.ones 1) at 1. rewrite Z.land_ones by lia. change (2 ^ 1) with 2.
  by rewrite Zmod_odd.
Qed.

Lemma crc_bit_alt c : crc_bit c = Z.lxor (c >> 1) (if Z.odd c then 0xedb88320 else 0).
Proof. unfold crc_bit. rewrite land1_bit. by destruct (Z.odd c). Qed.

Lemma u32_bits_eq x y :
  is_u32 x -> is_u32 y -> (forall i, 0 <= i < 32 -> Z.testbit x i = Z.testbit y i) -> x = y.
Proof.
  intros Hx Hy H. apply Z.bits_inj'. intros i Hi.
  destruct (Z.ltb_spec i 32); [by apply H|]. unfold is_u32 in *.
  by rewrite !(testbit_high 32) by lia.
Qed.

Lemma lxor_u32 x y : is_u32 x -> is_u32 y -> is_u32 (Z.lxor x y).
Proof.
  unfold is_u32. intros Hx Hy.
  assert (0 <= Z.lxor x y) by (apply Z.lxor_nonneg; lia).
  split; [done|]. destruct (Z.eq_dec (Z.lxor x y) 0) as [->|]; [lia|].
  apply Z.log2_lt_pow2; [lia|].
  assert (forall z, 0 <= z < 2 ^ 32 -> Z.log2 z < 32) as Hl.
  { intros z Hz. destruct (Z.eq_dec z 0) as [->|]; [done | apply Z.log2_lt_pow2; lia]. }
  pose proof (Z.log2_lxor x y ltac:(lia) ltac:(lia)).
  pose proof (Hl x Hx). pose proof (Hl y Hy). lia.
Qed.

Lemma crc_bit_u32 c : is_u32 c -> is_u32 (crc_bit c).
Proof.
  intros Hc. rewrite crc_bit_alt. apply lxor_u32; [|by destruct (Z.odd c)].
  rewrite shiftr_div by lia. unfold_words.
  split; [apply Z.div_pos; lia | apply Z.div_lt_upper_bound; lia].
Qed.

(** The division step is injective: bit 31 of the result is the bit shifted
    out, since the polynomial has its top bit set and the shift clears it. *)
Lemma crc_bit_inj a b : is_u32 a -> is_u32 b -> crc_bit a = crc_bit b -> a = b.
Proof.
  intros Ha Hb E. rewrite !crc_bit_alt in E.
  assert (forall c, is_u32 c -> Z.testbit (c >> 1) 31 = false) as Htop.
  { intros c Hc. rewrite Z.shiftr_spec by lia. apply (testbit_high 32); [apply Hc | lia]. }
  assert (Z.odd a = Z.odd b) as Hodd.
  { apply (f_equal (fun z => Z.testbit z 31)) in E.
    rewrite !Z.lxor_spec, !Htop in E by done. by destruct (Z.odd a), (Z.odd b). }
  rewrite Hodd in E.
  assert (a >> 1 = b >> 1) as E1.
  { apply (f_equal (fun z => Z.lxor z (if Z.odd b then 0xedb88320 else 0))) in E.
    by rewrite !Z.lxor_assoc, !Z.lxor_nilpotent, !Z.lxor_0_r in E. }
  apply u32_bits_eq; [done..|]. intros i Hi.
  destruct (Z.eq_dec i 0) as [->|]; [by rewrite !Z.bit0_odd|].
  apply (f_equal (fun z => Z.testbit z (i - 1))) in E1.
  rewrite !Z.shiftr_spec in E1 by lia. by replace (i - 1 + 1) with i in E1 by lia.
Qed.

Lemma iter_crc n a b :
  is_u32 a -> is_u32 b -> is_u32 (Nat.iter n crc_bit a) /\
  (Nat.iter n crc_bit a = Nat.iter n crc_bit b -> a = b).
Proof.
  intros Ha Hb. assert (forall c, is_u32 c -> is_u32 (Nat.iter n crc_bit c)) as Hu.
  { intros c Hc. induction n as [|n IH]; [done|]. simpl. by apply crc_bit_u32. }
  split; [by apply Hu|]. induction n as [|n IH]; [done|]. simpl. intros E.
  apply IH; [|apply crc_bit_inj; [| |done]].
  - intros c Hc. clear -Hc. induction n as [|n IH]; [done|]. simpl. by apply crc_bit_u32.
  - clear -Ha. induction n as [|n IH]; [done|]. simpl. by apply crc_bit_u32.
  - clear -Hb. induction n as [|n IH]; [done|]. simpl. by apply crc_bit_u32.
Qed.

Lemma u8_u32 d : is_u8 d -> is_u32 d.
Proof. unfold_words. lia. Qed.

Lemma crc_byte_u32 c d : is_u32 c -> is_u8 d -> is_u32 (crc_byte c d).
Proof.
  intros Hc Hd. unfold crc_byte.
  exact (proj1 (iter_crc 8 (Z.lxor c d) 0 (lxor_u32 _ _ Hc (u8_u32 d Hd)) ltac:(done))).
Qed.

Lemma lxor_cancel_r a b d : Z.lxor a d = Z.lxor b d -> a = b.
Proof.
  intros E. apply (f_equal (fun z => Z.lxor z d)) in E.
  by rewrite !Z.lxor_assoc, !Z.lxor_nilpotent, !Z.lxor_0_r in E.
Qed.

Lemma crc_byte_inj c c' d d' :
  is_u32 c -> is_u32 c' -> is_u8 d -> is_u8 d' ->
  crc_byte c d = crc_byte c' d' -> Z.lxor c d = Z.lxor c' d'.
Proof.
  intros Hc Hc' Hd Hd' E. unfold crc_byte in E.
  exact (proj2 (iter_crc 8 (Z.lxor c d) (Z.lxor c' d') (lxor_u32 _ _ Hc (u8_u32 d Hd))
                  (lxor_u32 _ _ Hc' (u8_u32 d' Hd'))) E).
Qed.

Lemma crc_fold_u32 l c : is_u32 c -> bytes_ok l -> is_u32 (fold_left crc_byte l c).
Proof.
  intros Hc Hl. revert c Hc. induction Hl as [|d l Hd Hl IH]; intros c Hc; [done|].
  rewrite fold_left_cons. apply IH. by apply crc_byte_u32.
Qed.

Lemma crc_fold_inj l c c' :
  is_u32 c -> is_u32 c' -> bytes_ok l ->
  fold_left crc_byte l c = fold_left crc_byte l c' -> c = c'.
Proof.
  intros Hc Hc' Hl. revert c c' Hc Hc'.
  induction Hl as [|d l Hd Hl IH]; intros c c' Hc Hc' E; [done|].
  rewrite !fold_left_cons in E.
  apply IH in E; [|by apply crc_byte_u32..].
  exact (lxor_cancel_r c c' d (crc_byte_inj c c' d d Hc Hc' Hd Hd E)).
Qed.

Lemma crc32_u32 l : bytes_ok l -> is_u32 (crc32 l).
Proof. intros Hl. apply lxor_u32; [|done]. by apply crc_fold_u32. Qed.

(** ** Lemmas: the wire form *)
Lemma put16_length v : length (put16 v) = 2%nat.
Proof. done. Qed.
Lemma put16_ok v : bytes_ok (put16 v).
Proof. rewrite put16_be. apply be_put_ok. Qed.

Lemma payload_pack_length tok : token_wf tok -> length (payload_pack tok) = TOKEN_RAW_LEN.
Proof.
  intros H. unfold token_wf in H. destruct_and! H. unfold payload_pack.
  rewrite !length_app, !put16_length. cbn [length].
  unfold TOKEN_RAW_LEN. repeat case_match; lia.
Qed.

Lemma payload_pack_ok tok : token_wf tok -> bytes_ok (payload_pack tok).
Proof.
  intros H. unfold token_wf in H. destruct_and! H. unfold payload_pack, bytes_ok in *.
  rewrite !Forall_app. split_and!; try done; try apply put16_ok.
  by forall_list.
Qed.

Lemma slice_app_skip a n (l1 l2 : bytes) :
  length l1 = a -> slice a n (l1 ++ l2) = take n l2.
Proof. intros <-. unfold slice. by rewrite drop_app_length. Qed.

Lemma payload_roundtrip tok rest :
  token_wf tok -> payload_unpack (payload_pack tok ++ rest) = tok.
Proof.
  intros H. unfold token_wf in H. destruct_and! H.
  destruct tok as [v f r a h a6 p6 a4 p4].
  cbn [version flags rdv auth hostpub ep6_addr ep6_port ep4_addr ep4_port] in *.
  unfold payload_unpack, payload_pack. cbv zeta.
  cbv [TOKEN_RDV_LEN TOKEN_AUTH_LEN TOKEN_HOSTPUB_LEN TOKEN_EP6_LEN TOKEN_EP4_LEN Nat.add] in *.
  cbn [version flags rdv auth hostpub ep6_addr ep6_port ep4_addr ep4_port].
  assert (forall k, get16 (put16 p6 ++ k) = p6) as G6 by (intros; by apply get16_put16).
  assert (forall k, get16 (put16 p4 ++ k) = p4) as G4 by (intros; by apply get16_put16).
  pose proof (put16_length p6). pose proof (put16_length p4).
  generalize dependent (put16 p6). intros q6 G6 L6.
  generalize dependent (put16 p4). intros q4 G4 L4.
  rewrite <- !app_assoc. f_equal; peel_fields; auto.
Qed.

Lemma token_wire_length tok : token_wf tok -> length (token_wire tok) = TOKEN_WIRE_LEN.
Proof.
  intros H. unfold token_wire. rewrite !length_app, payload_pack_length by done. done.
Qed.

Lemma token_wire_ok tok : token_wf tok -> bytes_ok (token_wire tok).
Proof.
  intros H. unfold token_wire. apply Forall_app. split; [by apply payload_pack_ok|].
  apply Forall_app. split; apply put16_ok.
Qed.

(** The stored checksum reads back as the one computed. *)
Lemma token_wire_sum tok :
  token_wf tok ->
  u32 (get16 (drop TOKEN_RAW_LEN (token_wire tok)) << 16)
    .| get16 (drop (TOKEN_RAW_LEN + 2) (token_wire tok)) = crc32 (payload_pack tok).
Proof.
  intros H. pose proof (crc32_u32 _ (payload_pack_ok tok H)) as Hs.
  unfold token_wire. set (s := crc32 (payload_pack tok)) in *. set (raw := payload_pack tok) in *.
  assert (length raw = TOKEN_RAW_LEN) as Hl by (by apply payload_pack_length).
  rewrite (drop_app_length' raw) by done.
  rewrite (app_assoc raw (put16 (u16 (s >> 16)))).
  rewrite (drop_app_length' (raw ++ put16 (u16 (s >> 16))))
    by (rewrite length_app, Hl; done).
  rewrite get16_put16 by auto with word.
  rewrite <- (app_nil_r (put16 (u16 s))), get16_put16 by auto with word.
  rewrite shiftr_div by lia. unfold_words.
  rewrite (Z.mod_small (s / 2 ^ 16)) by (split; [apply Z.div_pos | apply Z.div_lt_upper_bound]; lia).
  pose proof (Z.div_mod s (2 ^ 16) ltac:(lia)) as Hdm.
  pose proof (Z.mod_pos_bound s (2 ^ 16) ltac:(lia)).
  rewrite Z.mod_small by (rewrite Z.shiftl_mul_pow2 by lia; lia).
  rewrite lor_shiftl_add by lia. lia.
Qed.

(** A nonempty buffer never encodes to the empty string. *)
Lemma base58_encode_nonempty src n s :
  bytes_ok src -> base58_encode src n = Some s -> src <> [] -> s <> [].
Proof.
  intros Hok Henc Hne ->.
  destruct (base58_encode_value src n [] Hok Henc) as (ds & Hds & Hv & _).
  simpl in Hds. simplify_eq. unfold value in Hv. simpl in Hv.
  unfold base58_encode in Henc. case_match; [done|]. case_match; [done|].
  simplify_eq. apply (f_equal length) in Henc.
  rewrite length_app, length_replicate, length_map in Henc. cbn [length] in Henc.
  assert (drop_zeros src = src) as Hd.
  { pose proof (drop_zeros_length src). rewrite (drop_zeros_split src) at 2.
    by replace (length src - length (drop_zeros src))%nat with 0%nat by lia. }
  destruct src as [|b src]; [done|]. simpl in Hd.
  destruct (Z.eqb_spec b 0) as [->|Hb].
  { apply (f_equal length) in Hd. pose proof (drop_zeros_length src). simpl in Hd. lia. }
  apply Forall_cons in Hok as [Hb1 Hok]. rewrite be_get_cons in Hv by done.
  pose proof (be_get_range src Hok). unfold is_u8 in *. nia.
Qed.

Lemma token_encode_some tok n :
  token_wf tok -> (TOKEN_STR_LEN < n)%nat ->
  exists tmp, base58_encode (token_wire tok) (TOKEN_STR_LEN + 1) = Some tmp /\
    (length tmp <= TOKEN_STR_LEN)%nat /\
    token_encode tok n = Some (replicate (TOKEN_STR_LEN - length tmp) 49 ++ tmp).
Proof.
  intros Hwf Hn. pose proof (token_wire_length tok Hwf) as Hl.
  pose proof (token_wire_ok tok Hwf) as Hok.
  destruct (base58_encode_some (token_wire tok) (TOKEN_STR_LEN + 1) Hok) as (tmp & Htmp & Hlen).
  { rewrite Hl. apply Nat.leb_le. reflexivity. }
  { rewrite Hl. apply Nat.leb_le. reflexivity. }
  rewrite Hl in Hlen. exists tmp. split; [done|].
  assert (length tmp <= TOKEN_STR_LEN)%nat as Hlt by exact Hlen.
  split; [done|]. unfold token_encode. rewrite Htmp.
  destruct (Nat.eqb_spec (length tmp) 0) as [E|].
  { apply length_zero_iff_nil in E. exfalso. revert E.
    eapply base58_encode_nonempty; [done..|]. intros E. rewrite E in Hl. done. }
  destruct (Nat.ltb_spec TOKEN_STR_LEN (length tmp)); [lia|].
  destruct (Nat.ltb_spec n (TOKEN_STR_LEN + 1)); [lia|]. done.
Qed.

(** ** Properties *)

(** Every token a host mints is read back exactly: encoding succeeds, the
    string has the constant width whatever the payload, and decoding it returns
    the very token when the version is the one this build speaks, and the
    version error (not a typo error) when it is another. *)
Theorem token_roundtrip (tok : token) (dest_len : nat)
    (Hwf : token_wf tok) (Hlen : (TOKEN_STR_LEN < dest_len)%nat) :
  exists s, token_encode tok dest_len = Some s /\ length s = TOKEN_STR_LEN /\
    token_decode s =
      if version tok =? TOKEN_VERSION then TOKEN_OK tok else TOKEN_ERR_VERSION.
Proof.
  destruct (token_encode_some tok dest_len Hwf Hlen) as (tmp & Htmp & Hl & ->).
  eexists. split; [reflexivity|].
  assert (length (replicate (TOKEN_STR_LEN - length tmp) 49 ++ tmp) = TOKEN_STR_LEN) as Hs
    by (rewrite length_app, length_replicate; lia).
  split; [done|]. unfold token_decode. rewrite Hs, Nat.eqb_refl. cbn [negb].
  rewrite <- (token_wire_length tok Hwf) at 1.
  rewrite (base58_decode_encode _ _ (TOKEN_STR_LEN + 1));
    [|by apply token_wire_ok | done | rewrite Nat.sub_add by lia; apply Nat.leb_le; reflexivity].
  rewrite token_wire_sum by done.
  unfold token_wire at 1. rewrite take_app_length' by (by rewrite payload_pack_length).
  rewrite Z.eqb_refl. cbn [negb].
  change (nth 0 (token_wire tok) 0) with (version tok).
  destruct (version tok =? TOKEN_VERSION); [|done]. cbn [negb]. f_equal.
  unfold token_wire. by apply payload_roundtrip.
Qed.

Definition sample_token : token :=
  mk_token 7 0x38 (replicate 16 1) (replicate 16 2) (replicate 32 3)
    (replicate 16 0) 0 [192; 0; 2; 1] 6881.

Lemma token_roundtrip_witness :
  exists s, token_encode sample_token 131 = Some s /\ length s = TOKEN_STR_LEN /\
    token_decode s = TOKEN_OK sample_token.
Proof.
  apply (token_roundtrip sample_token 131).
  - unfold token_wf, bytes_ok; simpl; unfold_words; split_and!; try lia;
      try (repeat constructor; lia).
  - apply Nat.ltb_lt. reflexivity.
Defined.

(** The checksum catches any single corrupted byte: two payloads of equal
    length that differ in exactly one byte never have the same CRC-32, wherever
    the byte is and whatever it was changed to. *)
Theorem crc32_single_byte (l1 l2 : bytes) (b b' : Z)
    (H1 : bytes_ok l1) (H2 : bytes_ok l2) (Hb : is_u8 b) (Hb' : is_u8 b') (Hne : b <> b') :
  crc32 (l1 ++ b :: l2) <> crc32 (l1 ++ b' :: l2).
Proof.
  intros E. unfold crc32 in E. apply lxor_cancel_r in E.
  rewrite !fold_left_app, !fold_left_cons in E.
  assert (is_u32 (fold_left crc_byte l1 0xffffffff)) as Hc by (by apply crc_fold_u32).
  apply crc_fold_inj in E; [|by apply crc_byte_u32..|done].
  apply crc_byte_inj in E; [|done..]. apply Hne.
  rewrite !(Z.lxor_comm (fold_left _ _ _)) in E. by apply lxor_cancel_r in E.
Qed.

Lemma crc32_single_byte_witness : crc32 ([7; 1] ++ 2 :: [3]) <> crc32 ([7; 1] ++ 5 :: [3]).
Proof.
  apply (crc32_single_byte [7; 1] [3] 2 5); try (repeat constructor; unfold_words; lia);
    unfold_words; lia.
Defined.

(** ** The endpoint slots *)
Definition other_family (family : Z) : Z := if family =? 6 then 4 else 6.

Definition carries_addr (st : token_state) : bool :=
  match st with
  | TOKEN_STATE_RENDEZVOUS | TOKEN_STATE_DIRECT => true
  | TOKEN_STATE_PENDING | TOKEN_STATE_NONE => false
  end.

(** The flag arithmetic, checked on every byte value. *)
Definition flags_after (st : token_state) (family f : Z) : Z :=
  let fl := f .& u8 (Z.lnot (fam_rdv family .| fam_settled family)) in
  match st with
  | TOKEN_STATE_RENDEZVOUS => (fl .| fam_settled family) .| fam_rdv family
  | TOKEN_STATE_DIRECT | TOKEN_STATE_NONE => fl .| fam_settled family
  | TOKEN_STATE_PENDING => fl
  end.

Definition flags_right (st : token_state) (family f : Z) : bool :=
  let f' := flags_after st family f in
  let o := other_family family in
  Bool.eqb (truth (f' .& fam_rdv family))
    (match st with TOKEN_STATE_RENDEZVOUS => true | _ => false end) &&
  Bool.eqb (truth (f' .& fam_settled family))
    (match st with TOKEN_STATE_PENDING => false | _ => true end) &&
  (f' .& 0xc3 =? f .& 0xc3) &&
  Bool.eqb (truth (f' .& fam_rdv o)) (truth (f .& fam_rdv o)) &&
  Bool.eqb (truth (f' .& fam_settled o)) (truth (f .& fam_settled o)).

Lemma flags_right_all st family f :
  family = 4 \/ family = 6 -> is_u8 f -> flags_right st family f = true.
Proof.
  intros Hfam Hf.
  assert (forallb (fun k => flags_right st family (Z.of_nat k)) (seq 0 256) = true) as H
    by (destruct Hfam as [->| ->]; destruct st; vm_compute; reflexivity).
  rewrite forallb_forall in H. specialize (H (Z.to_nat f)).
  rewrite Z2Nat.id in H by apply Hf. apply H, in_seq. unfold_words. lia.
Qed.

Lemma token_set_family_flags tok family st addr port :
  flags (token_set_family tok family st addr port) = flags_after st family (flags tok).
Proof. by destruct st. Qed.

Lemma existsb_zeros n : existsb truth (take n (replicate n 0)) = false.
Proof.
  rewrite take_ge by (by rewrite length_replicate). induction n; [done|]. simpl. done.
Qed.

Lemma token_set_family_slot tok family st addr port :
  family = 4 \/ family = 6 ->
  let t' := token_set_family tok family st addr port in
  fam_addr t' family =
    (if carries_addr st then take (fam_len family) addr else replicate (fam_len family) 0) /\
  fam_port t' family = (if carries_addr st then port else 0) /\
  fam_addr t' (other_family family) = fam_addr tok (other_family family) /\
  fam_port t' (other_family family) = fam_port tok (other_family family).
Proof. intros [->| ->]; destruct st; repeat split. Qed.

(** The four states of a family are stored and read without loss, each
    family on its own: what token_set_family writes token_family_state reads,
    with the address and port kept for the two states that carry one, while
    the other family's state and slot and every unrelated flag (the read-only
    bit among them) are untouched. *)
Theorem token_family_slots (tok : token) (family port : Z) (st : token_state) (addr : bytes)
    (Hf : is_u8 (flags tok)) (Hfam : family = 4 \/ family = 6)
    (Hlen : length addr = fam_len family)
    (Hnz : carries_addr st = true -> existsb truth addr = true) :
  let t' := token_set_family tok family st addr port in
  let o := other_family family in
  token_family_state t' family = st /\
  (carries_addr st = true -> fam_addr t' family = addr /\ fam_port t' family = port) /\
  token_family_state t' o = token_family_state tok o /\
  fam_addr t' o = fam_addr tok o /\ fam_port t' o = fam_port tok o /\
  flags t' .& 0xc3 = flags tok .& 0xc3.
Proof.
  pose proof (flags_right_all st family (flags tok) Hfam Hf) as Hr.
  pose proof (token_set_family_slot tok family st addr port Hfam) as Hs. cbv zeta in *.
  destruct Hs as (Ha & Hp & Hoa & Hop).
  unfold flags_right in Hr. rewrite !andb_true_iff, !Bool.eqb_true_iff, Z.eqb_eq in Hr.
  rewrite <- (token_set_family_flags tok family st addr port) in Hr.
  destruct Hr as ((((Hrdv & Hset) & Hrest) & Hro) & Hso).
  rewrite (take_ge addr) in Ha by lia.
  split; [|split; [|split; [|done]]].
  - unfold token_family_state. rewrite Ha, Hrdv, Hset.
    destruct (carries_addr st) eqn:Ec.
    + rewrite (take_ge addr), Hnz by (done || lia). by destruct st.
    + rewrite existsb_zeros. by destruct st.
  - intros Hc. rewrite Ha, Hp, Hc. done.
  - unfold token_family_state. by rewrite Hoa, Hro, Hso.
Qed.

Lemma token_family_slots_witness :
  let t' := token_set_family sample_token 4 TOKEN_STATE_RENDEZVOUS [203; 0; 113; 9] 6882 in
  token_family_state t' 4 = TOKEN_STATE_RENDEZVOUS /\
  token_family_state t' 6 = token_family_state sample_token 6.
Proof.
  pose proof (token_family_slots sample_token 4 6882 TOKEN_STATE_RENDEZVOUS [203; 0; 113; 9]
    ltac:(vm_compute; intuition congruence) ltac:(by left) ltac:(done) ltac:(done)) as H.
  cbv zeta in *. split; apply H.
Defined.

(** What a family's verdict puts in its slot (tokgen.h). *)
Definition advert_state (a : tok_advert) : token_state :=
  match a with
  | TOK_ADVERT_PENDING => TOKEN_STATE_PENDING
  | TOK_ADVERT_NONE => TOKEN_STATE_NONE
  | TOK_ADVERT_RENDEZVOUS => TOKEN_STATE_RENDEZVOUS
  | TOK_ADVERT_ENDPOINT => TOKEN_STATE_DIRECT
  end.

(** The facts of a running host only accumulate. *)
Definition facts_grow (f f' : tokgen_facts) : Prop :=
  has_usable_addr f' = has_usable_addr f /\
  has_default_route f' = has_default_route f /\
  (dht_acked f = true -> dht_acked f' = true) /\
  (dht_attempt_concluded f = true -> dht_attempt_concluded f' = true) /\
  (public_port_proven f = true -> public_port_proven f' = true).

(** The host's own address goes into a token only when a port was proven
    open from the outside; a family that has been settled never reads as
    undecided again while facts only accumulate; and hosting is refused only
    when neither family has a usable address. *)
Theorem tokgen_sound (f f' : tokgen_facts) (Hgrow : facts_grow f f') :
  (advert_state (tokgen_decide f) = TOKEN_STATE_DIRECT <->
     has_usable_addr f = true /\ public_port_proven f = true) /\
  (advert_state (tokgen_decide f) <> TOKEN_STATE_PENDING ->
     advert_state (tokgen_decide f') <> TOKEN_STATE_PENDING) /\
  ((tokgen_decide_host f f').1 = -1 <->
     has_usable_addr f = false /\ has_usable_addr f' = false).
Proof.
  destruct f as [[] [] [] [] []], f' as [[] [] [] [] []];
    destruct Hgrow as (H1 & H2 & H3 & H4 & H5); cbn in *;
    try discriminate; intuition congruence.
Qed.

Lemma tokgen_sound_witness :
  advert_state (tokgen_decide (mk_tokgen_facts true true true false false))
    = TOKEN_STATE_DIRECT <-> true = true /\ false = true.
Proof.
  apply (tokgen_sound (mk_tokgen_facts true true true false false)
           (mk_tokgen_facts true true true true false)).
  repeat split; done.
Defined.
