(* ===== verification/Bencode.v ===== *)
(** src/src/bencode.c: the bounded writer, the skipping reader and the
    canonical-form check BEP 44 signatures depend on.  A cursor
    [p] with its [end] is the list of the bytes between them. *)
From S2P Require Import Prelude.

Definition BENC_MAX_DEPTH : Z := 16.

(** ** The writer *)
Record benc_buf := mk_benc_buf {
  bb_data : bytes;   (* buf[0 .. len) *)
  bb_cap : nat;
  bb_err : bool
}.

Definition benc_buf_init (cap : nat) : benc_buf := mk_benc_buf [] cap false.

Definition benc_raw_add (b : benc_buf) (data : bytes) : benc_buf :=
  if bb_err b || (bb_cap b - length (bb_data b) <? length data)%nat
  then mk_benc_buf (bb_data b) (bb_cap b) true
  else mk_benc_buf (bb_data b ++ data) (bb_cap b) (bb_err b).

Definition benc_str_add (b : benc_buf) (data : bytes) : benc_buf :=
  let hdr := dec (Z.of_nat (length data)) ++ [58] in
  benc_raw_add (benc_raw_add b hdr) data.

(** ["i%llde"] *)
Definition int_text (val : Z) : bytes :=
  105 :: (if val <? 0 then 45 :: dec (- val) else dec val) ++ [101].

Definition benc_int_add (b : benc_buf) (val : Z) : benc_buf := benc_raw_add b (int_text val).

Definition benc_key_add (b : benc_buf) (key : bytes) : benc_buf := benc_str_add b key.

(** ** The reader *)
Definition is_digit (c : Z) : bool := (48 <=? c) && (c <=? 57).

(** [p < end && *p == c], stepping over it. *)
Definition eat (c : Z) (l : bytes) : option bytes :=
  match l with
  | x :: rest => if x =? c then Some rest else None
  | [] => None
  end.

(** The loop of [benc_digits]: the value so far and how many digits. *)
Fixpoint digits_loop (l : bytes) (val : Z) (digits : nat) : option (Z * nat * bytes) :=
  match l with
  | c :: rest =>
      if is_digit c then
        let d := c - 48 in
        if (INT64_MAX - d) / 10 <? val then None
        else digits_loop rest (val * 10 + d) (S digits)
      else Some (val, digits, l)
  | [] => Some (val, digits, [])
  end.

Definition benc_digits (l : bytes) : option (Z * bytes) :=
  match digits_loop l 0 0 with
  | None | Some (_, O, _) => None
  | Some (val, S _, rest) => Some (val, rest)
  end.

(** A string's tail: [**p == ':'] and at least [num] bytes after it. *)
Definition take_str (l : bytes) (num : Z) : option (bytes * bytes) :=
  match eat 58 l with
  | Some rest =>
      if Z.of_nat (length rest) <? num then None
      else Some (take (Z.to_nat num) rest, drop (Z.to_nat num) rest)
  | None => None
  end.

(** [fuel] bounds the calls; [benc_skip] gives one that is never short. *)
Fixpoint benc_skip_depth (fuel : nat) (l : bytes) (depth : Z) : option bytes :=
  match fuel with
  | O => None
  | S fuel =>
      if BENC_MAX_DEPTH <? depth then None
      else match l with
           | [] => None
           | c :: rest =>
               if c =? 105 then
                 let rest := match eat 45 rest with Some r => r | None => rest end in
                 match benc_digits rest with
                 | Some (_, r) => eat 101 r
                 | None => None
                 end
               else if (c =? 108) || (c =? 100) then skip_items fuel rest depth
               else match benc_digits l with
                    | None => None
                    | Some (num, r) =>
                        match take_str r num with
                        | Some (_, r') => Some r'
                        | None => None
                        end
                    end
           end
  end
with skip_items (fuel : nat) (l : bytes) (depth : Z) : option bytes :=
  match fuel with
  | O => None
  | S fuel =>
      match l with
      | [] => None
      | c :: rest =>
          if c =? 101 then Some rest
          else match benc_skip_depth fuel l (depth + 1) with
               | None => None
               | Some r => skip_items fuel r depth
               end
      end
  end.

(** Two calls at most for every byte, and one to find the end. *)
Definition benc_fuel (l : bytes) : nat := 2 * length l + 2.
Definition benc_skip (l : bytes) : option bytes := benc_skip_depth (benc_fuel l) l 0.

Definition benc_str_get (val : bytes) : option bytes :=
  match benc_digits val with
  | None => None
  | Some (num, r) => match take_str r num with Some (d, _) => Some d | None => None end
  end.

Definition benc_int_get (val : bytes) : option Z :=
  match eat 105 val with
  | Some rest =>
      let '(neg, rest) := match eat 45 rest with Some r => (true, r) | None => (false, rest) end in
      match benc_digits rest with
      | Some (num, r) =>
          match eat 101 r with
          | Some _ => Some (if neg : bool then - num else num)
          | None => None
          end
      | None => None
      end
  | None => None
  end.

(** The key loop; [k] of a pair is the token from [kstart] to [p]. *)
Fixpoint dict_find_loop (fuel : nat) (l : bytes) (key : bytes) : option bytes :=
  match fuel with
  | O => None
  | S fuel =>
      match l with
      | [] => None
      | c :: _ =>
          if c =? 101 then None
          else match benc_skip l with
               | None => None
               | Some l1 =>
                   match benc_str_get (take (length l - length l1) l) with
                   | None => None
                   | Some k =>
                       match benc_skip l1 with
                       | None => None
                       | Some l2 =>
                           if bytes_eqb k key
                           then Some (take (length l1 - length l2) l1)
                           else dict_find_loop fuel l2 key
                       end
                   end
               end
      end
  end.

(** The value of a key, as the bytes [val .. val + val_len). *)
Definition benc_dict_find (dict key : bytes) : option bytes :=
  match eat 100 dict with
  | Some rest => dict_find_loop (S (length rest)) rest key
  | None => None
  end.

(** ** The canonical check *)
Definition benc_key_cmp (a b : bytes) : Z :=
  let n := if (length a <? length b)%nat then length a else length b in
  let rc := if (n =? 0)%nat then 0 else memcmp (take n a) (take n b) in
  if truth rc then rc
  else if (length a <? length b)%nat then -1
  else if (length b <? length a)%nat then 1 else 0.

(** A leading zero with another digit after it. *)
Definition leading_zero (l : bytes) : bool :=
  match l with c :: d :: _ => (c =? 48) && is_digit d | _ => false end.

Definition benc_canon_str (l : bytes) : option (bytes * bytes) :=
  match l with
  | [] => None
  | c :: _ =>
      if negb (is_digit c) then None
      else if leading_zero l then None
      else match benc_digits l with
           | None => None
           | Some (num, r) => take_str r num
           end
  end.

Definition benc_canon_int (l : bytes) : option bytes :=
  let body :=
    match eat 45 l with
    | Some r => match eat 48 r with Some _ => None | None => Some r end
    | None => if leading_zero l then None else Some l
    end in
  match body with
  | None => None
  | Some q => match benc_digits q with
              | Some (_, r) => eat 101 r
              | None => None
              end
  end.

Fixpoint benc_canon (fuel : nat) (l : bytes) (depth : Z) : option bytes :=
  match fuel with
  | O => None
  | S fuel =>
      if BENC_MAX_DEPTH <? depth then None
      else match l with
           | [] => None
           | c :: rest =>
               if c =? 105 then benc_canon_int rest
               else if c =? 108 then canon_list fuel rest depth
               else if c =? 100 then canon_dict fuel rest depth None
               else match benc_canon_str l with
                    | None => None
                    | Some (_, r) => Some r
                    end
           end
  end
with canon_list (fuel : nat) (l : bytes) (depth : Z) : option bytes :=
  match fuel with
  | O => None
  | S fuel =>
      match l with
      | [] => None
      | c :: rest =>
          if c =? 101 then Some rest
          else match benc_canon fuel l (depth + 1) with
               | None => None
               | Some r => canon_list fuel r depth
               end
      end
  end
with canon_dict (fuel : nat) (l : bytes) (depth : Z) (prev : option bytes) : option bytes :=
  match fuel with
  | O => None
  | S fuel =>
      match l with
      | [] => None
      | c :: rest =>
          if c =? 101 then Some rest
          else match benc_canon_str l with
               | None => None
               | Some (k, r) =>
                   if match prev with Some p => 0 <=? benc_key_cmp p k | None => false end
                   then None
                   else match benc_canon fuel r (depth + 1) with
                        | None => None
                        | Some r' => canon_dict fuel r' depth (Some k)
                        end
               end
      end
  end.

(** [true] is the return of 0. *)
Definition benc_canonical (buf : bytes) : bool :=
  match benc_canon (benc_fuel buf) buf 0 with
  | Some [] => true
  | _ => false
  end.

(** ** The specification: bencode values *)
Inductive bval :=
| BInt (z : Z)
| BStr (s : bytes)
| BList (l : list bval)
| BDict (d : list (bytes * bval)).

Definition str_text (s : bytes) : bytes := dec (Z.of_nat (length s)) ++ 58 :: s.

Fixpoint encode (v : bval) : bytes :=
  match v with
  | BInt z => int_text z
  | BStr s => str_text s
  | BList l => 108 :: concat (map encode l) ++ [101]
  | BDict d => 100 :: concat (map (fun '(k, v) => str_text k ++ encode v) d) ++ [101]
  end.

Definition pair_text (kv : bytes * bval) : bytes := str_text kv.1 ++ encode kv.2.

(** Strictly ascending keys, after an optional one already seen. *)
Fixpoint ascending (prev : option bytes) (keys : list bytes) : Prop :=
  match keys with
  | [] => True
  | k :: rest =>
      match prev with Some p => memcmp p k < 0 | None => True end /\ ascending (Some k) rest
  end.

Definition len_ok (s : bytes) : Prop := Z.of_nat (length s) <= INT64_MAX.

(** A value this codec can carry, met at nesting [depth]. *)
Inductive canon_at : Z -> bval -> Prop :=
| ca_int d z : d <= BENC_MAX_DEPTH -> - INT64_MAX <= z <= INT64_MAX -> canon_at d (BInt z)
| ca_str d s : d <= BENC_MAX_DEPTH -> len_ok s -> canon_at d (BStr s)
| ca_list d l : d <= BENC_MAX_DEPTH -> Forall (canon_at (d + 1)) l -> canon_at d (BList l)
| ca_dict d kvs : d <= BENC_MAX_DEPTH -> ascending None (map fst kvs) ->
    Forall (fun kv => len_ok kv.1 /\ canon_at (d + 1) kv.2) kvs -> canon_at d (BDict kvs).

(** Induction over values with the nested lists opened. *)
Lemma bval_ind_nested (P : bval -> Prop) :
  (forall z, P (BInt z)) -> (forall s, P (BStr s)) ->
  (forall l, Forall P l -> P (BList l)) ->
  (forall d, Forall (fun kv => P kv.2) d -> P (BDict d)) -> forall v, P v.
Proof.
  intros Hi Hs Hl Hd. fix IH 1. intros [z|s|l|d].
  - apply Hi.
  - apply Hs.
  - apply Hl. induction l as [|x l IHl]; constructor; [apply IH | apply IHl].
  - apply Hd. induction d as [|[k x] d IHd]; constructor; [apply IH | apply IHd].
Qed.

(** ** Lemmas: decimal numbers *)
Definition dval (ds : bytes) : Z := fold_left (fun v c => v * 10 + (c - 48)) ds 0.
Definition digits (ds : bytes) : Prop := Forall (fun c => 48 <= c <= 57) ds.

Lemma is_digit_iff c : is_digit c = true <-> 48 <= c <= 57.
Proof. unfold is_digit. rewrite andb_true_iff, !Z.leb_le. done. Qed.
Lemma is_digit_false c : is_digit c = false <-> ~ (48 <= c <= 57).
Proof. rewrite <- is_digit_iff. by destruct (is_digit c). Qed.

Lemma dval_snoc ds c : dval (ds ++ [c]) = dval ds * 10 + (c - 48).
Proof. unfold dval. by rewrite fold_left_app. Qed.

Lemma dval_acc ds a :
  fold_left (fun v c => v * 10 + (c - 48)) ds a = a * 10 ^ Z.of_nat (length ds) + dval ds.
Proof.
  unfold dval. revert a. induction ds as [|c ds IH]; intros a; [simpl; lia|].
  cbn [fold_left length]. rewrite IH, (IH (0 * 10 + _)), Nat2Z.inj_succ, Z.pow_succ_r by lia. lia.
Qed.

Lemma dval_cons c ds : dval (c :: ds) = (c - 48) * 10 ^ Z.of_nat (length ds) + dval ds.
Proof. unfold dval at 1. cbn [fold_left]. rewrite dval_acc. lia. Qed.

Lemma dval_nonneg ds : digits ds -> 0 <= dval ds.
Proof.
  induction 1 as [|c ds Hc Hds IH]; [done|]. rewrite dval_cons.
  pose proof (Z.pow_nonneg 10 (Z.of_nat (length ds)) ltac:(lia)). nia.
Qed.

Definition no_leading_zero (ds : bytes) : Prop :=
  match ds with c :: _ :: _ => c <> 48 | _ => True end.

Lemma dec_digits_spec f n :
  (0 < f)%nat -> 0 <= n < 10 ^ Z.of_nat f ->
  digits (dec_digits f n) /\ dec_digits f n <> [] /\ dval (dec_digits f n) = n /\
  no_leading_zero (dec_digits f n) /\ (0 < n -> exists c r, dec_digits f n = c :: r /\ c <> 48).
Proof.
  revert n. induction f as [|f IH]; intros n Hf Hn; [lia|]. cbn [dec_digits].
  destruct (Z.ltb_spec n 10) as [Hlt|Hge].
  - split_and!; [constructor; [lia|constructor] | done | unfold dval; simpl; lia | done |].
    intros Hp. exists (48 + n), []. split; [done | lia].
  - destruct f as [|f].
    { change (10 ^ Z.of_nat 1) with 10 in Hn. lia. }
    assert (1 <= n / 10 < 10 ^ Z.of_nat (S f)) as Hq.
    { split; [apply Z.div_le_lower_bound; lia|]. apply Z.div_lt_upper_bound; [lia|].
      rewrite <- Z.pow_succ_r, <- Nat2Z.inj_succ by lia. lia. }
    destruct (IH (n / 10) ltac:(lia) ltac:(lia)) as (H1 & H2 & H3 & H4 & H5).
    pose proof (Z.mod_pos_bound n 10 ltac:(lia)).
    destruct (H5 ltac:(lia)) as (c & r & Ec & Hc).
    set (ds := dec_digits (S f) (n / 10)) in *.
    split_and!.
    + apply Forall_app. split; [done | constructor; [lia|constructor]].
    + by rewrite Ec.
    + rewrite dval_snoc, H3. pose proof (Z.div_mod n 10 ltac:(lia)). lia.
    + rewrite Ec. simpl. by destruct r.
    + intros _. rewrite Ec. exists c, (r ++ [48 + n mod 10]). done.
Qed.

(** The decimal text of a number is the only one without a leading zero. *)
Lemma dec_digits_unique f ds :
  (0 < f)%nat -> digits ds -> ds <> [] -> no_leading_zero ds -> dval ds < 10 ^ Z.of_nat f ->
  ds = dec_digits f (dval ds).
Proof.
  revert f. induction ds as [|c ds IH] using rev_ind; intros f Hf Hd Hne Hz Hlt; [done|].
  apply Forall_app in Hd as [Hd Hc]. rewrite Forall_singleton in Hc.
  rewrite dval_snoc in Hlt |- *. pose proof (dval_nonneg ds Hd) as Hnn.
  destruct f as [|f]; [lia|]. cbn [dec_digits].
  destruct ds as [|b ds].
  - change (dval []) with 0. destruct (Z.ltb_spec (0 * 10 + (c - 48)) 10); [|lia].
    simpl. f_equal. lia.
  - assert (b <> 48) as Hb by (by destruct ds; simpl in Hz).
    assert (1 <= dval (b :: ds)).
    { apply Forall_cons in Hd as [Hb2 Hd]. rewrite dval_cons.
      pose proof (dval_nonneg ds Hd).
      pose proof (Z.pow_pos_nonneg 10 (Z.of_nat (length ds)) ltac:(lia) ltac:(lia)). nia. }
    destruct (Z.ltb_spec (dval (b :: ds) * 10 + (c - 48)) 10); [lia|].
    rewrite Z.div_add_l, (Z.div_small (c - 48)), Z.add_0_r by lia.
    rewrite Nat2Z.inj_succ, Z.pow_succ_r in Hlt by lia.
    rewrite <- (IH f); [|destruct f; [simpl in Hlt|]; lia|done|done| |lia].
    + rewrite (Z.add_comm (_ * 10)), Z.mod_add, Z.mod_small by lia.
      by replace (48 + (c - 48)) with c by lia.
    + by destruct ds.
Qed.

Lemma dec_spec n :
  0 <= n <= INT64_MAX ->
  digits (dec n) /\ dec n <> [] /\ dval (dec n) = n /\ no_leading_zero (dec n) /\
  (0 < n -> exists c r, dec n = c :: r /\ c <> 48).
Proof. intros Hn. apply (dec_digits_spec 20); [lia|]. unfold_words. lia. Qed.

Lemma dec_unique ds :
  digits ds -> ds <> [] -> no_leading_zero ds -> dval ds <= INT64_MAX -> ds = dec (dval ds).
Proof. intros. apply (dec_digits_unique 20); try done; [lia|]. unfold_words. lia. Qed.

(** ** Lemmas: reading digits *)
Definition not_digit_first (l : bytes) : Prop :=
  match l with c :: _ => is_digit c = false | [] => True end.

Lemma digits_loop_eq ds r v k :
  digits ds -> not_digit_first r -> 0 <= v <= INT64_MAX ->
  digits_loop (ds ++ r) v k =
  let v' := fold_left (fun v c => v * 10 + (c - 48)) ds v in
  if v' <=? INT64_MAX then Some (v', (k + length ds)%nat, r) else None.
Proof.
  intros Hd Hr. revert v k. induction Hd as [|c ds Hc Hd IH]; intros v k Hv; cbv zeta.
  - cbn [app fold_left length].
    assert ((v <=? INT64_MAX) = true) as -> by (apply Z.leb_le; lia).
    rewrite Nat.add_0_r. destruct r as [|x r]; [done|]. simpl in Hr |- *. by rewrite Hr.
  - cbn [app digits_loop fold_left]. rewrite (proj2 (is_digit_iff c)) by lia.
    destruct (Z.ltb_spec ((INT64_MAX - (c - 48)) / 10) v) as [Hov|Hok].
    + assert (INT64_MAX < v * 10 + (c - 48)) as Hbig.
      { apply Z.lt_nge. intros Hle. apply (Z.lt_irrefl v).
        eapply Z.le_lt_trans; [|exact Hov]. apply Z.div_le_lower_bound; lia. }
      rewrite dval_acc. pose proof (dval_nonneg ds Hd).
      pose proof (Z.pow_pos_nonneg 10 (Z.of_nat (length ds)) ltac:(lia) ltac:(lia)).
      assert ((_ <=? INT64_MAX) = false) as -> by (apply Z.leb_gt; nia). done.
    + assert (v * 10 + (c - 48) <= INT64_MAX).
      { pose proof (Z.mul_div_le (INT64_MAX - (c - 48)) 10 ltac:(lia)). lia. }
      rewrite IH by lia. cbv zeta. cbn [length].
      by replace (S k + length ds)%nat with (k + S (length ds))%nat by lia.
Qed.

Lemma benc_digits_dec n r :
  0 <= n <= INT64_MAX -> not_digit_first r -> benc_digits (dec n ++ r) = Some (n, r).
Proof.
  intros Hn Hr. destruct (dec_spec n Hn) as (H1 & H2 & H3 & _ & _).
  unfold benc_digits. rewrite digits_loop_eq by (done || unfold_words; lia). cbv zeta.
  change (fold_left _ (dec n) 0) with (dval (dec n)). rewrite H3.
  assert ((n <=? INT64_MAX) = true) as -> by (apply Z.leb_le; lia).
  destruct (dec n) as [|c ds] eqn:E; [done|]. simpl. done.
Qed.

Lemma span_digits l : exists ds r, l = ds ++ r /\ digits ds /\ not_digit_first r.
Proof.
  induction l as [|c l (ds & r & -> & Hd & Hr)].
  - exists [], []. split_and!; [done | constructor | done].
  - destruct (is_digit c) eqn:E.
    + exists (c :: ds), r. split_and!; [done | | done]. constructor; [by apply is_digit_iff | done].
    + exists [], (c :: ds ++ r). split_and!; [done | constructor | done].
Qed.

Lemma benc_digits_inv l n r :
  benc_digits l = Some (n, r) ->
  exists ds, l = ds ++ r /\ digits ds /\ ds <> [] /\ not_digit_first r /\
    dval ds = n /\ 0 <= n <= INT64_MAX.
Proof.
  intros H. destruct (span_digits l) as (ds & r' & -> & Hd & Hr). exists ds.
  unfold benc_digits in H. rewrite digits_loop_eq in H by (done || unfold_words; lia).
  cbv zeta in H. change (fold_left _ ds 0) with (dval ds) in H.
  destruct (Z.leb_spec (dval ds) INT64_MAX); [|done].
  destruct ds as [|c ds]; [done|]. simpl in H. simplify_eq.
  pose proof (dval_nonneg _ Hd). split_and!; done || lia.
Qed.

(** With the leading-zero test passed, the digits are the canonical ones. *)
Lemma benc_digits_canon l n r :
  leading_zero l = false -> benc_digits l = Some (n, r) ->
  l = dec n ++ r /\ 0 <= n <= INT64_MAX.
Proof.
  intros Hz H. destruct (benc_digits_inv l n r H) as (ds & -> & Hd & Hne & Hr & Hv & Hn).
  split; [|done]. f_equal. rewrite <- Hv. apply dec_unique; [done|done| |lia].
  destruct ds as [|c [|d ds]]; [done|done|]. simpl in Hz |- *. intros ->.
  apply Forall_cons in Hd as [_ Hd]. apply Forall_cons in Hd as [Hd _].
  rewrite (proj2 (is_digit_iff d) Hd) in Hz. done.
Qed.

(** ** Lemmas: keys and strings *)
Lemma benc_key_cmp_memcmp a b : benc_key_cmp a b = memcmp a b.
Proof.
  unfold benc_key_cmp. revert b. induction a as [|x a IH]; intros [|y b]; try done.
  specialize (IH b). cbn [length memcmp] in *.
  change (S (length a) <? S (length b))%nat with (length a <? length b)%nat in *.
  change (S (length b) <? S (length a))%nat with (length b <? length a)%nat in *.
  destruct (length a <? length b)%nat, (length b <? length a)%nat; cbn [Nat.eqb take firstn memcmp] in *;
    destruct (Z.ltb_spec x y), (Z.ltb_spec y x); try done; try lia;
    rewrite <- IH; destruct a, b; done.
Qed.

Lemma take_str_exact s r :
  take_str (58 :: s ++ r) (Z.of_nat (length s)) = Some (s, r).
Proof.
  unfold take_str. cbn [eat Z.eqb Pos.eqb]. rewrite length_app.
  destruct (Z.ltb_spec (Z.of_nat (length s + length r)) (Z.of_nat (length s))); [lia|].
  by rewrite Nat2Z.id, take_app_length, drop_app_length.
Qed.

Lemma eat_inv c l r : eat c l = Some r <-> l = c :: r.
Proof.
  destruct l as [|x l]; simpl; [done|]. destruct (Z.eqb_spec x c); split; congruence.
Qed.

Lemma eat_none c l : eat c l = None <-> forall r, l <> c :: r.
Proof.
  destruct (eat c l) as [r|] eqn:E; split; try done.
  - apply eat_inv in E as ->. intros H. by destruct (H r).
  - intros _ r ->. by rewrite (proj2 (eat_inv c (c :: r) r)) in E.
Qed.

Lemma take_str_inv l n d r :
  0 <= n -> take_str l n = Some (d, r) -> l = 58 :: d ++ r /\ Z.of_nat (length d) = n.
Proof.
  unfold take_str. intros Hn H. destruct (eat 58 l) as [q|] eqn:E; [|done].
  apply eat_inv in E as ->. destruct (Z.ltb_spec (Z.of_nat (length q)) n); [done|].
  simplify_eq. rewrite take_drop. split; [done|]. rewrite length_take. lia.
Qed.

Lemma str_text_first s : len_ok s -> exists c t, str_text s = c :: t /\ 48 <= c <= 57.
Proof.
  intros Hl. unfold str_text.
  destruct (dec_spec (Z.of_nat (length s)) ltac:(unfold len_ok in Hl; lia)) as (Hd & Hne & _).
  destruct (dec _) as [|c t]; [done|]. apply Forall_cons in Hd as [Hc _]. eauto.
Qed.

Lemma leading_zero_dec n c r :
  0 <= n <= INT64_MAX -> is_digit c = false -> leading_zero (dec n ++ c :: r) = false.
Proof.
  intros Hn Hc. destruct (dec_spec n Hn) as (Hd & Hne & _ & Hz & _).
  destruct (dec n) as [|a [|b t]]; [done| |]; simpl in *.
  - by rewrite Hc, andb_false_r.
  - by destruct (Z.eqb_spec a 48).
Qed.

Lemma canon_str_text s r : len_ok s -> benc_canon_str (str_text s ++ r) = Some (s, r).
Proof.
  intros Hl. destruct (str_text_first s Hl) as (c & t & E & Hc).
  assert (str_text s ++ r = dec (Z.of_nat (length s)) ++ 58 :: s ++ r) as Ea
    by (unfold str_text; by rewrite <- app_assoc).
  unfold benc_canon_str. rewrite E at 1. cbn [app].
  rewrite (proj2 (is_digit_iff c) Hc). cbn [negb].
  rewrite Ea, leading_zero_dec, benc_digits_dec by (done || unfold len_ok in Hl; lia).
  apply take_str_exact.
Qed.

Lemma canon_str_inv l s r :
  benc_canon_str l = Some (s, r) -> l = str_text s ++ r /\ len_ok s.
Proof.
  unfold benc_canon_str. destruct l as [|c l]; [done|].
  destruct (negb (is_digit c)); [done|].
  destruct (leading_zero (c :: l)) eqn:Ez; [done|].
  destruct (benc_digits (c :: l)) as [[n q]|] eqn:Ed; [|done]. intros Hs.
  destruct (benc_digits_canon _ _ _ Ez Ed) as [-> Hn].
  apply take_str_inv in Hs as [-> <-]; [|lia].
  split; [unfold str_text; by rewrite <- app_assoc | unfold len_ok; lia].
Qed.

Lemma canon_int_text z r :
  - INT64_MAX <= z <= INT64_MAX ->
  exists q, int_text z ++ r = 105 :: q /\ benc_canon_int q = Some r.
Proof.
  intros Hz. unfold int_text. cbn [app]. eexists. split; [reflexivity|].
  unfold benc_canon_int. destruct (Z.ltb_spec z 0) as [Hneg|Hpos]; cbn [app];
    rewrite <- app_assoc; cbn [app].
  - destruct (dec_spec (- z) ltac:(lia)) as (_ & _ & _ & _ & Hnz).
    destruct (Hnz ltac:(lia)) as (c & t & E & Hc).
    rewrite (proj2 (eat_inv 45 _ _) eq_refl).
    rewrite (proj2 (eat_none 48 _)) by (rewrite E; cbn [app]; congruence).
    rewrite benc_digits_dec by (done || lia). by apply eat_inv.
  - destruct (dec_spec z ltac:(lia)) as (Hd & Hne & _).
    rewrite (proj2 (eat_none 45 _)).
    + rewrite leading_zero_dec, benc_digits_dec by (done || lia). by apply eat_inv.
    + intros q E. destruct (dec z) as [|c t]; [done|].
      apply Forall_cons in Hd as [Hc _]. cbn [app] in E. simplify_eq. lia.
Qed.

Lemma canon_int_inv q r :
  benc_canon_int q = Some r ->
  exists z, 105 :: q = int_text z ++ r /\ - INT64_MAX <= z <= INT64_MAX.
Proof.
  unfold benc_canon_int. intros H. destruct (eat 45 q) as [body|] eqn:E45.
  - apply eat_inv in E45 as ->. destruct (eat 48 body) eqn:E48; [done|].
    destruct (benc_digits body) as [[n q']|] eqn:Ed; [|done]. apply eat_inv in H as ->.
    rewrite eat_none in E48.
    assert (leading_zero body = false) as Ez.
    { destruct body as [|c [|d body]]; [done|done|]. simpl.
      destruct (Z.eqb_spec c 48) as [->|]; [|done]. by destruct (E48 (d :: body)). }
    destruct (benc_digits_canon _ _ _ Ez Ed) as [-> Hn].
    assert (0 < n).
    { destruct (Z.eq_dec n 0) as [->|]; [|lia]. by destruct (E48 (101 :: r)). }
    exists (- n). split; [|lia]. unfold int_text.
    destruct (Z.ltb_spec (- n) 0); [|lia]. rewrite Z.opp_involutive. cbn [app].
    by rewrite <- app_assoc.
  - destruct (leading_zero q) eqn:Ez; [done|].
    destruct (benc_digits q) as [[n q']|] eqn:Ed; [|done]. apply eat_inv in H as ->.
    destruct (benc_digits_canon _ _ _ Ez Ed) as [-> Hn].
    exists n. split; [|lia]. unfold int_text. destruct (Z.ltb_spec n 0); [lia|].
    cbn [app]. by rewrite <- app_assoc.
Qed.

(** The first byte of a value, which decides its shape and never ends a
    container. *)
Lemma encode_first d v :
  canon_at d v -> exists c t, encode v = c :: t /\ c <> 101.
Proof.
  intros H. destruct v as [z|s|l|l]; cbn [encode].
  - unfold int_text. eexists _, _. split; [reflexivity|lia].
  - inversion H; subst. destruct (str_text_first s) as (c & t & E & Hc); [done|].
    exists c, t. split; [done|lia].
  - eexists _, _. split; [reflexivity|lia].
  - eexists _, _. split; [reflexivity|lia].
Qed.

(** Inversion of the check's leaf cases by the first byte. *)
Lemma canon_leaf fuel s r d :
  d <= BENC_MAX_DEPTH -> len_ok s -> benc_canon (S fuel) (str_text s ++ r) d = Some r.
Proof.
  intros Hd Hs. destruct (str_text_first s Hs) as (c & t & E & Hc).
  pose proof (canon_str_text s r Hs) as Hcs. rewrite E in *. cbn [app benc_canon] in *.
  destruct (Z.ltb_spec BENC_MAX_DEPTH d); [lia|].
  destruct (Z.eqb_spec c 105), (Z.eqb_spec c 108), (Z.eqb_spec c 100); try lia.
  by rewrite Hcs.
Qed.

(** ** Lemmas: every canonical encoding passes the check *)
Lemma canon_list_complete d l r :
  Forall (fun v => forall fuel r, (2 * length (encode v) + 1 <= fuel)%nat ->
            benc_canon fuel (encode v ++ r) (d + 1) = Some r) l ->
  Forall (canon_at (d + 1)) l ->
  forall fuel, (2 * length (concat (map encode l)) + 2 <= fuel)%nat ->
  canon_list fuel (concat (map encode l) ++ 101 :: r) d = Some r.
Proof.
  intros H1 H2. induction H1 as [|v l Hv Hl IH]; intros fuel Hf.
  - simpl in Hf. destruct fuel as [|fuel]; [lia|]. done.
  - apply Forall_cons in H2 as [Hc H2]. cbn [map concat] in *. rewrite length_app in Hf.
    destruct (encode_first _ v Hc) as (c & t & E & Hne).
    destruct fuel as [|fuel]; [lia|]. rewrite <- app_assoc.
    assert (0 < length (encode v))%nat by (rewrite E; simpl; lia).
    specialize (Hv fuel (concat (map encode l) ++ 101 :: r) ltac:(lia)).
    rewrite E in *. cbn [app canon_list] in *.
    destruct (Z.eqb_spec c 101); [done|]. rewrite Hv. apply IH; [done|]. lia.
Qed.

Lemma canon_dict_complete d l r :
  Forall (fun kv => forall fuel r, (2 * length (encode kv.2) + 1 <= fuel)%nat ->
            benc_canon fuel (encode kv.2 ++ r) (d + 1) = Some r) l ->
  Forall (fun kv => len_ok kv.1 /\ canon_at (d + 1) kv.2) l ->
  forall prev fuel, ascending prev (map fst l) ->
  (2 * length (concat (map pair_text l)) + 2 <= fuel)%nat ->
  canon_dict fuel (concat (map pair_text l) ++ 101 :: r) d prev = Some r.
Proof.
  intros H1 H2. induction H1 as [|[k v] l Hv Hl IH]; intros prev fuel Ha Hf.
  - simpl in Hf. destruct fuel as [|fuel]; [lia|]. done.
  - apply Forall_cons in H2 as [[Hk Hc] H2]. cbn [map concat fst snd] in *.
    unfold pair_text in Hf at 1 |- * at 1. cbn [fst snd] in *. rewrite !length_app in Hf.
    destruct (str_text_first k Hk) as (c & t & E & Hcr).
    destruct fuel as [|fuel]; [lia|]. rewrite <- !app_assoc.
    set (tail := concat (map pair_text l) ++ 101 :: r) in *.
    assert (0 < length (str_text k))%nat by (rewrite E; simpl; lia).
    pose proof (canon_str_text k (encode v ++ tail) Hk) as Hcs.
    rewrite E in *. cbn [app canon_dict] in *.
    destruct (Z.eqb_spec c 101); [lia|]. rewrite Hcs.
    destruct Ha as [Ha1 Ha2].
    assert (match prev with Some p => 0 <=? benc_key_cmp p k | None => false end = false) as ->.
    { destruct prev as [p|]; [|done]. rewrite benc_key_cmp_memcmp. by apply Z.leb_gt. }
    rewrite Hv by lia. apply IH; [done|done|lia].
Qed.

Lemma canon_at_inv d v :
  canon_at d v ->
  d <= BENC_MAX_DEPTH /\
  match v with
  | BInt z => - INT64_MAX <= z <= INT64_MAX
  | BStr s => len_ok s
  | BList l => Forall (canon_at (d + 1)) l
  | BDict kvs => ascending None (map fst kvs) /\
      Forall (fun kv => len_ok kv.1 /\ canon_at (d + 1) kv.2) kvs
  end.
Proof. by inversion 1. Qed.

Lemma encode_dict l : encode (BDict l) = 100 :: concat (map pair_text l) ++ [101].
Proof.
  cbn [encode]. do 3 f_equal. apply map_ext. by intros [k v].
Qed.

Lemma canon_complete v d fuel r :
  canon_at d v -> (2 * length (encode v) + 1 <= fuel)%nat ->
  benc_canon fuel (encode v ++ r) d = Some r.
Proof.
  revert d fuel r. induction v as [z|s|l IH|l IH] using bval_ind_nested;
    intros d fuel r Hc Hf; apply canon_at_inv in Hc as [Hd Hc];
    (destruct fuel as [|fuel]; [lia|]).
  - destruct (canon_int_text z r Hc) as (q & E & Hq). cbn [encode]. rewrite E.
    cbn [benc_canon]. destruct (Z.ltb_spec BENC_MAX_DEPTH d); [lia|]. done.
  - by apply canon_leaf.
  - cbn [encode app benc_canon] in *. rewrite <- app_assoc. cbn [app].
    destruct (Z.ltb_spec BENC_MAX_DEPTH d); [lia|].
    cbn [length] in Hf. rewrite length_app in Hf. simpl in Hf.
    apply canon_list_complete; [|done|lia].
    rewrite Forall_forall in *. eauto.
  - rewrite encode_dict in *. cbn [app benc_canon] in *. rewrite <- app_assoc. cbn [app].
    destruct (Z.ltb_spec BENC_MAX_DEPTH d); [lia|]. destruct Hc as [Ha Hc].
    cbn [length] in Hf. rewrite length_app in Hf. simpl in Hf.
    apply canon_dict_complete; [|done|done|lia].
    rewrite Forall_forall in *. intros kv Hin f r' Hf'. apply IH; [done| |done]. by apply Hc.
Qed.

(** ** Lemmas: the check accepts nothing else *)
Lemma canon_sound fuel :
  (forall l d r, benc_canon fuel l d = Some r ->
     exists v, canon_at d v /\ l = encode v ++ r) /\
  (forall l d r, canon_list fuel l d = Some r ->
     exists vs, Forall (canon_at (d + 1)) vs /\ l = concat (map encode vs) ++ 101 :: r) /\
  (forall l d prev r, canon_dict fuel l d prev = Some r ->
     exists kvs, ascending prev (map fst kvs) /\
       Forall (fun kv => len_ok kv.1 /\ canon_at (d + 1) kv.2) kvs /\
       l = concat (map pair_text kvs) ++ 101 :: r).
Proof.
  induction fuel as [|fuel (IHv & IHl & IHd)]; [done|].
  split; [|split].
  - intros l d r H. cbn [benc_canon] in H.
    destruct (Z.ltb_spec BENC_MAX_DEPTH d); [done|]. destruct l as [|c rest]; [done|].
    destruct (Z.eqb_spec c 105) as [->|_].
    { apply canon_int_inv in H as (z & E & Hz). exists (BInt z). by split; [constructor|]. }
    destruct (Z.eqb_spec c 108) as [->|_].
    { apply IHl in H as (vs & Hvs & ->). exists (BList vs). split; [by constructor|].
      cbn [encode app]. by rewrite <- app_assoc. }
    destruct (Z.eqb_spec c 100) as [->|_].
    { apply IHd in H as (kvs & Ha & Hk & ->). exists (BDict kvs). split; [by constructor|].
      rewrite encode_dict. cbn [app]. by rewrite <- app_assoc. }
    destruct (benc_canon_str (c :: rest)) as [[s q]|] eqn:E; [|done]. simplify_eq.
    apply canon_str_inv in E as [-> Hs]. exists (BStr s). by split; [constructor|].
  - intros l d r H. cbn [canon_list] in H. destruct l as [|c rest]; [done|].
    destruct (Z.eqb_spec c 101) as [->|_].
    { simplify_eq. exists []. by split; [constructor|]. }
    destruct (benc_canon fuel (c :: rest) (d + 1)) as [q|] eqn:E; [|done].
    apply IHv in E as (v & Hv & ->). apply IHl in H as (vs & Hvs & ->).
    exists (v :: vs). split; [by constructor|]. cbn [map concat]. by rewrite <- app_assoc.
  - intros l d prev r H. cbn [canon_dict] in H. destruct l as [|c rest]; [done|].
    destruct (Z.eqb_spec c 101) as [->|_].
    { simplify_eq. exists []. split; [done|]. by split; [constructor|]. }
    destruct (benc_canon_str (c :: rest)) as [[k q]|] eqn:E; [|done].
    apply canon_str_inv in E as [-> Hk].
    destruct (match prev with Some p => 0 <=? benc_key_cmp p k | None => false end) eqn:Ep; [done|].
    destruct (benc_canon fuel q (d + 1)) as [q'|] eqn:E; [|done].
    apply IHv in E as (v & Hv & ->). apply IHd in H as (kvs & Ha & Hkv & ->).
    exists ((k, v) :: kvs). split; [|split].
    + cbn [map ascending fst]. split; [|done]. destruct prev as [p|]; [|done].
      rewrite benc_key_cmp_memcmp in Ep. by apply Z.leb_gt in Ep.
    + by constructor.
    + cbn [map concat]. change (pair_text (k, v)) with (str_text k ++ encode v).
      by rewrite <- !app_assoc.
Qed.

(** ** Lemmas: skipping *)
Lemma skip_str fuel s r d :
  d <= BENC_MAX_DEPTH -> len_ok s -> benc_skip_depth (S fuel) (str_text s ++ r) d = Some r.
Proof.
  intros Hd Hs. destruct (str_text_first s Hs) as (c & t & E & Hc).
  assert (str_text s ++ r = dec (Z.of_nat (length s)) ++ 58 :: s ++ r) as Ea
    by (unfold str_text; by rewrite <- app_assoc).
  assert (benc_digits (str_text s ++ r) = Some (Z.of_nat (length s), 58 :: s ++ r)) as Ed.
  { rewrite Ea. apply benc_digits_dec; [unfold len_ok in Hs; lia | done]. }
  rewrite E in Ed |- *. cbn [app benc_skip_depth] in *.
  destruct (Z.ltb_spec BENC_MAX_DEPTH d); [lia|].
  destruct (Z.eqb_spec c 105), (Z.eqb_spec c 108), (Z.eqb_spec c 100); try lia. cbn [orb].
  by rewrite Ed, take_str_exact.
Qed.

Lemma skip_int fuel z r d :
  d <= BENC_MAX_DEPTH -> - INT64_MAX <= z <= INT64_MAX ->
  benc_skip_depth (S fuel) (int_text z ++ r) d = Some r.
Proof.
  intros Hd Hz. unfold int_text. cbn [app benc_skip_depth].
  destruct (Z.ltb_spec BENC_MAX_DEPTH d); [lia|]. rewrite Z.eqb_refl, <- app_assoc.
  destruct (Z.ltb_spec z 0); cbn [app].
  - rewrite (proj2 (eat_inv 45 _ _) eq_refl), benc_digits_dec by (done || lia).
    by apply eat_inv.
  - rewrite (proj2 (eat_none 45 _)).
    + rewrite benc_digits_dec by (done || lia). by apply eat_inv.
    + destruct (dec_spec z ltac:(lia)) as (Hdg & Hne & _). intros q E.
      destruct (dec z) as [|c t]; [done|]. apply Forall_cons in Hdg as [Hc _].
      cbn [app] in E. simplify_eq. lia.
Qed.

(** A run of items inside a container, whatever text each has. *)
Lemma skip_items_complete d (ts : list bytes) r :
  Forall (fun t => (exists c u, t = c :: u /\ c <> 101) /\
            forall fuel r, (2 * length t + 1 <= fuel)%nat ->
              benc_skip_depth fuel (t ++ r) (d + 1) = Some r) ts ->
  forall fuel, (2 * length (concat ts) + 2 <= fuel)%nat ->
  skip_items fuel (concat ts ++ 101 :: r) d = Some r.
Proof.
  induction 1 as [|t ts [(c & u & E & Hne) Ht] Hts IH]; intros fuel Hf.
  - simpl in Hf. destruct fuel as [|fuel]; [lia|]. done.
  - cbn [concat] in *. rewrite length_app in Hf. destruct fuel as [|fuel]; [lia|].
    rewrite <- app_assoc. assert (0 < length t)%nat by (rewrite E; simpl; lia).
    specialize (Ht fuel (concat ts ++ 101 :: r) ltac:(lia)).
    rewrite E in *. cbn [app skip_items] in *. destruct (Z.eqb_spec c 101); [done|].
    rewrite Ht. apply IH. lia.
Qed.

(** The texts of a dictionary, keys and values in turn. *)
Definition dict_items (l : list (bytes * bval)) : list bytes :=
  concat (map (fun kv => [str_text kv.1; encode kv.2]) l).

Lemma concat_dict_items l : concat (dict_items l) = concat (map pair_text l).
Proof.
  unfold dict_items. induction l as [|kv l IH]; [done|]. cbn [map concat app].
  rewrite IH. unfold pair_text at 2. by rewrite <- app_assoc.
Qed.

Lemma skip_complete v d fuel r :
  canon_at d v -> (2 * length (encode v) + 1 <= fuel)%nat ->
  benc_skip_depth fuel (encode v ++ r) d = Some r.
Proof.
  revert d fuel r. induction v as [z|s|l IH|l IH] using bval_ind_nested;
    intros d fuel r Hc Hf; pose proof Hc as Hc0; apply canon_at_inv in Hc as [Hd Hc];
    (destruct fuel as [|fuel]; [lia|]).
  - by apply skip_int.
  - by apply skip_str.
  - cbn [encode app benc_skip_depth] in *. rewrite <- app_assoc. cbn [app].
    destruct (Z.ltb_spec BENC_MAX_DEPTH d); [lia|].
    cbn [length] in Hf. rewrite length_app in Hf. simpl in Hf.
    apply skip_items_complete; [|lia].
    apply Forall_map. rewrite Forall_forall in *. intros v Hin.
    split; [eapply encode_first; eauto | eauto].
  - rewrite encode_dict, <- concat_dict_items in *. cbn [app benc_skip_depth] in *.
    rewrite <- app_assoc. cbn [app].
    destruct (Z.ltb_spec BENC_MAX_DEPTH d); [lia|]. destruct Hc as [Ha Hc].
    cbn [length] in Hf. rewrite length_app in Hf. simpl in Hf.
    apply skip_items_complete; [|lia]. clear Hf Hc0 Ha.
    unfold dict_items. induction l as [|[k v] l IHl]; [constructor|].
    apply Forall_cons in IH as [IHv IH], Hc as [[Hk Hv] Hc]. cbn [map concat app fst snd] in *.
    pose proof (proj1 (canon_at_inv _ _ Hv)).
    apply Forall_cons_2; [|apply Forall_cons_2; [|by apply IHl]].
    + split; [destruct (str_text_first k Hk) as (c & u & E & Hc'); exists c, u; split; [done|lia]|].
      intros f r' Hf'. destruct f as [|f]; [lia|]. by apply skip_str.
    + split; [eapply encode_first; eauto | eauto].
Qed.

Lemma benc_skip_encode v r : canon_at 0 v -> benc_skip (encode v ++ r) = Some r.
Proof.
  intros Hc. apply skip_complete; [done|]. unfold benc_fuel. rewrite length_app. lia.
Qed.

(** Every successful skip consumes something. *)
Lemma digits_shorter l n r : benc_digits l = Some (n, r) -> (length r < length l)%nat.
Proof.
  intros H. destruct (benc_digits_inv l n r H) as (ds & -> & _ & Hne & _).
  rewrite length_app. destruct ds; [done|]. simpl. lia.
Qed.

Lemma eat_shorter c l r : eat c l = Some r -> (length r < length l)%nat.
Proof. intros ->%eat_inv. simpl. lia. Qed.

Lemma take_str_shorter l n d r : take_str l n = Some (d, r) -> (length r < length l)%nat.
Proof.
  unfold take_str. destruct (eat 58 l) as [q|] eqn:E; [|done]. apply eat_shorter in E.
  destruct (_ <? n); [done|]. intros ?; simplify_eq. rewrite length_drop. lia.
Qed.

Lemma skip_shorter fuel :
  (forall l d r, benc_skip_depth fuel l d = Some r -> (length r < length l)%nat) /\
  (forall l d r, skip_items fuel l d = Some r -> (length r < length l)%nat).
Proof.
  induction fuel as [|fuel [IHd IHi]]; [done|]. split; intros l d r H; cbn in H.
  - destruct (_ <? d); [done|]. destruct l as [|c rest]; [done|].
    destruct (c =? 105).
    { destruct (eat 45 rest) as [q|] eqn:Eq.
      - apply eat_shorter in Eq. destruct (benc_digits q) as [[n q']|] eqn:Ed; [|done].
        apply digits_shorter in Ed. apply eat_shorter in H. simpl. lia.
      - destruct (benc_digits rest) as [[n q']|] eqn:Ed; [|done].
        apply digits_shorter in Ed. apply eat_shorter in H. simpl. lia. }
    destruct (_ || _).
    { apply IHi in H. simpl. lia. }
    destruct (benc_digits (c :: rest)) as [[n q]|] eqn:Ed; [|done].
    destruct (take_str q n) as [[s q']|] eqn:Et; [|done]. simplify_eq.
    apply digits_shorter in Ed. apply take_str_shorter in Et. lia.
  - destruct l as [|c rest]; [done|]. destruct (c =? 101); [simplify_eq; simpl; lia|].
    destruct (benc_skip_depth fuel (c :: rest) (d + 1)) as [q|] eqn:Es; [|done].
    apply IHd in Es. apply IHi in H. lia.
Qed.

Lemma skip_fuel f1 :
  (forall f2 l d, (2 * length l + 1 <= f1)%nat -> (2 * length l + 1 <= f2)%nat ->
     benc_skip_depth f1 l d = benc_skip_depth f2 l d) /\
  (forall f2 l d, (2 * length l + 2 <= f1)%nat -> (2 * length l + 2 <= f2)%nat ->
     skip_items f1 l d = skip_items f2 l d).
Proof.
  induction f1 as [|f1 [IHd IHi]]; [split; lia|].
  split; intros [|f2] l d H1 H2; try lia; cbn.
  - destruct (_ <? d); [done|]. destruct l as [|c rest]; [done|]. cbn [length] in *.
    by rewrite (IHi f2 rest d) by lia.
  - destruct l as [|c rest]; [done|]. cbn [length] in *.
    rewrite (IHd f2 (c :: rest) (d + 1)) by (cbn [length]; lia).
    destruct (benc_skip_depth f2 _ _) as [q|] eqn:Es; [|done].
    apply skip_shorter in Es. cbn [length] in Es. by rewrite (IHi f2 q d) by lia.
Qed.

(** ** Lemmas: dictionaries *)
Lemma canon_at_le d d' v : canon_at d v -> d' <= d -> canon_at d' v.
Proof.
  revert d d'. induction v as [z|s|l IH|l IH] using bval_ind_nested;
    intros d d' H Hd; apply canon_at_inv in H as [Hm H]; constructor;
    try done; try lia; try (by destruct H).
  - rewrite Forall_forall in *. intros v Hin.
    apply (IH v Hin (d + 1)); [by apply H | lia].
  - destruct H as [_ H]. rewrite Forall_forall in *. intros kv Hin.
    destruct (H kv Hin) as [Hk Hv]. split; [done|]. apply (IH kv Hin (d + 1)); [done|lia].
Qed.

Lemma str_get_text s r : len_ok s -> benc_str_get (str_text s ++ r) = Some s.
Proof.
  intros Hs. unfold benc_str_get, str_text. rewrite <- app_assoc. cbn [app].
  rewrite benc_digits_dec by (done || unfold len_ok in Hs; lia).
  by rewrite take_str_exact.
Qed.

Lemma int_get_text z : - INT64_MAX <= z <= INT64_MAX -> benc_int_get (int_text z) = Some z.
Proof.
  intros Hz. unfold benc_int_get, int_text. rewrite (proj2 (eat_inv 105 _ _) eq_refl).
  destruct (Z.ltb_spec z 0); cbn [app].
  - rewrite (proj2 (eat_inv 45 _ _) eq_refl), benc_digits_dec by (done || lia).
    rewrite (proj2 (eat_inv 101 _ _) eq_refl). f_equal. lia.
  - rewrite (proj2 (eat_none 45 _)).
    + rewrite benc_digits_dec by (done || lia).
      by rewrite (proj2 (eat_inv 101 _ _) eq_refl).
    + destruct (dec_spec z ltac:(lia)) as (Hdg & Hne & _). intros q E.
      destruct (dec z) as [|c t]; [done|]. apply Forall_cons in Hdg as [Hc _].
      cbn [app] in E. simplify_eq. lia.
Qed.

(** What a dictionary holds under a key. *)
Fixpoint dict_get (key : bytes) (kvs : list (bytes * bval)) : option bval :=
  match kvs with
  | [] => None
  | (k, v) :: rest => if bytes_eqb k key then Some v else dict_get key rest
  end.

Lemma dict_find_loop_spec key kvs r fuel :
  Forall (fun kv => len_ok kv.1 /\ canon_at 0 kv.2) kvs ->
  (length (concat (map pair_text kvs)) < fuel)%nat ->
  dict_find_loop fuel (concat (map pair_text kvs) ++ 101 :: r) key =
  option_map encode (dict_get key kvs).
Proof.
  intros H. revert fuel. induction H as [|[k v] kvs [Hk Hv] Hkvs IH]; intros fuel Hf.
  - destruct fuel; [simpl in Hf; lia|]. done.
  - destruct fuel as [|fuel]; [lia|]. cbn [map concat fst snd] in *.
    unfold pair_text in Hf at 1 |- * at 1. cbn [fst snd] in *. rewrite <- !app_assoc.
    set (tail := concat (map pair_text kvs) ++ 101 :: r) in *.
    pose proof (skip_str (2 * length (str_text k ++ encode v ++ tail) + 1) k
                  (encode v ++ tail) 0 ltac:(unfold BENC_MAX_DEPTH; lia) Hk) as Hs1.
    replace (S _) with (benc_fuel (str_text k ++ encode v ++ tail)) in Hs1
      by (unfold benc_fuel; lia).
    pose proof (benc_skip_encode v tail Hv) as Hs2.
    cbn [dict_find_loop]. unfold benc_skip at 1. rewrite Hs1, Hs2.
    rewrite !length_app, !Nat.add_sub.
    replace (length (str_text k) + (length (encode v) + length tail) -
               (length (encode v) + length tail))%nat with (length (str_text k)) by lia.
    rewrite !take_app_length.
    pose proof (str_get_text k [] Hk) as Hg. rewrite app_nil_r in Hg. rewrite Hg.
    rewrite !length_app in Hf.
    destruct (str_text_first k Hk) as (c & t & E & Hc).
    assert (0 < length (str_text k))%nat by (rewrite E; simpl; lia).
    rewrite IH by lia. rewrite E. cbn [app dict_get].
    destruct (Z.eqb_spec c 101); [lia|]. by destruct (bytes_eqb k key).
Qed.

(** The text of a value within the limits passes the check. *)
Lemma canonical_encode v : canon_at 0 v -> benc_canonical (encode v) = true.
Proof.
  intros Hv. unfold benc_canonical. rewrite <- (app_nil_r (encode v)) at 2.
  rewrite canon_complete; [done | done | unfold benc_fuel; lia].
Qed.

(** Each value is skipped from depth 0 on, and the order of the keys does not matter. *)
Lemma dict_find_shallow kvs key :
  Forall (fun kv => len_ok kv.1 /\ canon_at 0 kv.2) kvs ->
  benc_dict_find (encode (BDict kvs)) key = option_map encode (dict_get key kvs).
Proof.
  intros Hc. rewrite encode_dict. unfold benc_dict_find. rewrite (proj2 (eat_inv 100 _ _) eq_refl).
  apply dict_find_loop_spec; [done|]. rewrite length_app. lia.
Qed.

(** ** Lemmas: the writer *)
Inductive wop :=
| WRaw (data : bytes)
| WStr (data : bytes)
| WInt (val : Z)
| WKey (key : bytes).

Definition wop_text (o : wop) : bytes :=
  match o with
  | WRaw d => d
  | WStr s | WKey s => str_text s
  | WInt z => int_text z
  end.

Definition wop_run (b : benc_buf) (o : wop) : benc_buf :=
  match o with
  | WRaw d => benc_raw_add b d
  | WStr s => benc_str_add b s
  | WInt z => benc_int_add b z
  | WKey s => benc_key_add b s
  end.

(** After [done] texts: all of them, or the error flag up. *)
Definition writer_inv (cap : nat) (written : bytes) (b : benc_buf) : Prop :=
  bb_cap b = cap /\ (length (bb_data b) <= cap)%nat /\
  if bb_err b then (cap < length written)%nat else bb_data b = written.

Lemma raw_add_inv cap w b d :
  writer_inv cap w b -> writer_inv cap (w ++ d) (benc_raw_add b d).
Proof.
  intros (<- & Hl & H). unfold writer_inv, benc_raw_add. rewrite length_app.
  destruct (bb_err b) eqn:E; cbn [orb bb_cap bb_data bb_err].
  - split_and!; [done | done | lia].
  - subst w. destruct (Nat.ltb_spec (bb_cap b - length (bb_data b)) (length d));
      cbn [bb_cap bb_data bb_err]; rewrite ?E.
    + split_and!; [done | done | lia].
    + rewrite length_app. split_and!; [done | lia | done].
Qed.

Lemma wop_run_inv cap w b o :
  writer_inv cap w b -> writer_inv cap (w ++ wop_text o) (wop_run b o).
Proof.
  intros H. destruct o; cbn [wop_text wop_run]; unfold benc_key_add, benc_str_add, benc_int_add.
  - by apply raw_add_inv.
  - replace (w ++ str_text data) with ((w ++ dec (Z.of_nat (length data)) ++ [58]) ++ data)
      by (unfold str_text; by rewrite <- !app_assoc). by do 2 apply raw_add_inv.
  - by apply raw_add_inv.
  - replace (w ++ str_text key) with ((w ++ dec (Z.of_nat (length key)) ++ [58]) ++ key)
      by (unfold str_text; by rewrite <- !app_assoc). by do 2 apply raw_add_inv.
Qed.

Lemma writer_runs ops cap w b :
  writer_inv cap w b ->
  writer_inv cap (w ++ concat (map wop_text ops)) (fold_left wop_run ops b).
Proof.
  revert w b. induction ops as [|o ops IH]; intros w b H; cbn [map concat fold_left].
  - by rewrite app_nil_r.
  - rewrite app_assoc. apply IH. by apply wop_run_inv.
Qed.

(** ** Properties *)

(** The canonical check accepts exactly the texts of bencode values: a
    buffer passes if and only if it is the whole encoding of one value within
    the depth limit whose dictionary keys strictly ascend and whose integers
    and lengths fit; so no leading zero, no [i-0e] and nothing trailing. *)
Theorem benc_canonical_exact buf :
  benc_canonical buf = true <-> exists v, canon_at 0 v /\ encode v = buf.
Proof.
  unfold benc_canonical. split.
  - destruct (benc_canon _ buf 0) as [[|x l]|] eqn:E; try done. intros _.
    apply canon_sound in E as (v & Hv & ->). exists v. by rewrite app_nil_r.
  - intros (v & Hv & <-). exact (canonical_encode v Hv).
Qed.

(** Looking a key up in a well-formed dictionary yields exactly the bytes
    of the value stored under it, and fails exactly when the key is absent;
    values that contain the key's text, and keys it is a prefix of, do not
    confuse the search. *)
Theorem benc_dict_find_spec kvs key :
  canon_at 0 (BDict kvs) ->
  benc_dict_find (encode (BDict kvs)) key = option_map encode (dict_get key kvs).
Proof.
  intros Hc. apply canon_at_inv in Hc as [_ [_ Hc]]. apply dict_find_shallow.
  eapply Forall_impl; [exact Hc|]. intros kv [Hk Hv]. split; [done|]. eapply canon_at_le; [exact Hv|lia].
Qed.

Lemma benc_dict_find_spec_witness :
  benc_dict_find (cstr "d1:al1:be1:bi7ee") (cstr "b") = Some (cstr "i7e").
Proof.
  apply (benc_dict_find_spec [(cstr "a", BList [BStr (cstr "b")]); (cstr "b", BInt 7)] (cstr "b")).
  constructor; [unfold BENC_MAX_DEPTH; lia | by cbn |].
  forall_list; split; try (unfold len_ok; by cbn); constructor; try by cbn.
  forall_list. by constructor; cbn.
Defined.

(** The bounded writer never runs past its buffer, and a sequence of adds
    leaves the error flag down exactly when everything fits, in which case
    the buffer is the concatenation of the texts; what [benc_str_get] and
    [benc_int_get] read back from those texts is what was added. *)
Theorem benc_writer_exact cap ops :
  let b := fold_left wop_run ops (benc_buf_init cap) in
  let text := concat (map wop_text ops) in
  (length (bb_data b) <= cap)%nat /\
  bb_err b = negb (length text <=? cap)%nat /\
  (bb_err b = false -> bb_data b = text) /\
  (forall s, len_ok s -> benc_str_get (wop_text (WStr s)) = Some s) /\
  (forall z, - INT64_MAX <= z <= INT64_MAX -> benc_int_get (wop_text (WInt z)) = Some z).
Proof.
  destruct (writer_runs ops cap [] (benc_buf_init cap)) as (_ & Hl & H).
  { by split_and!; [done | cbn; lia |]. }
  assert (forall s, len_ok s -> benc_str_get (str_text s) = Some s) as Hs.
  { intros s Hs. rewrite <- (app_nil_r (str_text s)). by apply str_get_text. }
  cbn [app] in H. cbv zeta. split; [done|]. rewrite !assoc by apply _.
  split; [split|exact int_get_text]; [|exact Hs]. destruct (bb_err _) eqn:E.
  - split; [|done]. destruct (Nat.leb_spec (length (concat (map wop_text ops))) cap); [lia|done].
  - split; [|done]. rewrite <- H. by destruct (Nat.leb_spec (length (bb_data (fold_left wop_run ops (benc_buf_init cap)))) cap); [|lia].
Qed.

(** The recursion bound given to the reader is never short: any larger one
    gives the same answer on every input, so [benc_skip] is the C recursion
    itself and fails only where the C code returns an error. *)
Theorem benc_skip_fuel_enough l fuel :
  (benc_fuel l <= fuel)%nat -> benc_skip_depth fuel l 0 = benc_skip l.
Proof. intros H. unfold benc_skip. unfold benc_fuel in *. apply skip_fuel; lia. Qed.

Lemma benc_skip_fuel_enough_witness :
  benc_skip_depth 100 (cstr "l1:ai5eexyz") 0 = Some (cstr "xyz").
Proof.
  rewrite (benc_skip_fuel_enough (cstr "l1:ai5eexyz") 100); [reflexivity|].
  apply Nat.leb_le. reflexivity.
Defined.
