(* ===== verification/Net.v ===== *)
(** Socket addresses and the C library's printing of them: what the endpoint
    code (src/src/path.c), the control codec (src/src/ctlproto.c) and the
    candidate code read of [struct sockaddr], and [inet_ntop]. *)
From S2P Require Import Prelude.

(** [struct sockaddr_storage] by family.  Ports are in host byte order, that
    is, after [ntohs]; addresses are the bytes in memory. *)
Inductive sockaddr :=
| AF_INET (sin_port : Z) (sin_addr : bytes)
| AF_INET6 (sin6_port : Z) (sin6_addr : bytes) (sin6_scope_id : Z)
| AF_OTHER.

(** [sizeof] of the two concrete structs. *)
Definition sizeof_sockaddr_in : Z := 16.
Definition sizeof_sockaddr_in6 : Z := 28.

Definition sockaddr_ok (sa : sockaddr) : Prop :=
  match sa with
  | AF_INET p a => is_u16 p /\ bytes_ok a /\ length a = 4%nat
  | AF_INET6 p a s => is_u16 p /\ bytes_ok a /\ length a = 16%nat /\ is_u32 s
  | AF_OTHER => True
  end.

#[export] Instance sockaddr_eq_dec : EqDecision sockaddr.
Proof. solve_decision. Defined.

(** ** [inet_ntop] *)

(** Dotted quad. *)
Definition inet_ntop4 (a : bytes) : bytes :=
  match a with
  | [b0; b1; b2; b3] => dec b0 ++ 46 :: dec b1 ++ 46 :: dec b2 ++ 46 :: dec b3
  | _ => []
  end.

(** ["%x"] of a 16-bit word. *)
Definition hex_char (d : Z) : Z := if d <? 10 then 48 + d else 87 + d.
Definition hex16 (w : Z) : bytes :=
  map hex_char (drop (if 4096 <=? w then 0%nat else if 256 <=? w then 1%nat
                      else if 16 <=? w then 2%nat else 3%nat)
                 [w / 4096; (w / 256) mod 16; (w / 16) mod 16; w mod 16]).

Fixpoint words16 (a : bytes) : list Z :=
  match a with
  | h :: l :: rest => h * 256 + l :: words16 rest
  | _ => []
  end.

(** How many zero words a list starts with. *)
Fixpoint zero_run (ws : list Z) : nat :=
  match ws with
  | w :: rest => if w =? 0 then S (zero_run rest) else O
  | [] => O
  end.

(** The first longest run of zero words, as (base, length). *)
Fixpoint best_run (i : nat) (ws : list Z) (best : nat * nat) : nat * nat :=
  match ws with
  | [] => best
  | _ :: rest =>
      let n := zero_run ws in
      best_run (S i) rest (if (best.2 <? n)%nat then (i, n) else best)
  end.

(** Words joined with colons. *)
Fixpoint join_words (ws : list Z) : bytes :=
  match ws with
  | [] => []
  | [w] => hex16 w
  | w :: rest => hex16 w ++ 58 :: join_words rest
  end.

(** The compressed text form; a run of one word is not compressed, and an
    address with its first six words zero ends in its dotted quad. *)
Definition inet_ntop6 (a : bytes) : bytes :=
  let ws := words16 a in
  let '(base, len) := best_run 0 ws (O, O) in
  if (len <? 2)%nat then join_words ws
  else if ((base =? 0) && (len =? 6))%nat then [58; 58] ++ inet_ntop4 (drop 12 a)
  else join_words (take base ws) ++ [58; 58] ++ join_words (drop (base + len) ws).

(** ["%u"] *)
Definition fmt_u (n : Z) : bytes := dec n.

(** [snprintf(out, n, ..)]: at most [n - 1] bytes and the terminator. *)
Definition snprintf (n : nat) (text : bytes) : bytes := take (n - 1) text.

Lemma inet_ntop4_text : inet_ntop4 [192; 0; 2; 1] = cstr "192.0.2.1".
Proof. reflexivity. Qed.
Lemma inet_ntop6_text :
  inet_ntop6 [32; 1; 13; 184; 0; 0; 0; 0; 0; 0; 0; 0; 0; 0; 0; 255] = cstr "2001:db8::ff".
Proof. reflexivity. Qed.
Lemma inet_ntop6_any : inet_ntop6 (replicate 16 0) = cstr "::".
Proof. reflexivity. Qed.
