(* ===== verification/CtlProto.v ===== *)
(** src/src/ctlproto.c: the control channel's framing, its reframer, and the
    payload codecs. *)
From S2P Require Import Prelude Net.

Definition CTLM_PING : Z := 0.
Definition CTLM_PONG : Z := 1.
Definition CTLM_RDV : Z := 2.
Definition CTLM_CAND : Z := 3.
Definition CTLM_REACH : Z := 4.
Definition CTLM_RDVASK : Z := 5.
Definition CTLM_KEY : Z := 6.
Definition CTLM_KEYOK : Z := 7.
Definition CTLM_BYE : Z := 8.
Definition CTLM_DETACHED : Z := 9.
Definition CTLM_TXSEL : Z := 10.
Definition CTLM_TXACK : Z := 11.

Definition CTL_HDR : nat := 2.
Definition CTL_KEY_PLEN : nat := 32.
Definition CTL_TS_LEN : nat := 8.
Definition CTL_RDV_PLEN : nat := 19.
Definition CTL_REACH_PLEN : nat := 4.
Definition CTL_RDVASK_PLEN : nat := 1.
Definition CTL_TXSEL_ID_LEN : nat := 8.
Definition CTL_TXSEL_PLEN : nat := 13.
Definition CTL_TXSEL_F_FORCED : Z := 1.
Definition CTL_TXACK_F_UNKNOWN : Z := 2.
Definition CTL_TXACK_F_UNUSABLE : Z := 4.
Definition CTL_FRAME_MAX : nat := CTL_HDR + CTL_KEY_PLEN.
Definition CTL_REACH_DOWN : Z := 0.
Definition CTL_REACH_PENDING : Z := 1.
Definition CTL_REACH_UP : Z := 2.

Definition ctl_put_u64 (v : Z) : bytes := be_put 8 v.
Definition ctl_get_u64 (p : bytes) : Z := be_get (take 8 p).

(** The bytes written to [buf]; the empty list is the return of 0. *)
Definition ctl_frame (type : Z) (payload : bytes) : bytes :=
  if (CTL_FRAME_MAX - CTL_HDR <? length payload)%nat then []
  else u8 type :: u8 (Z.of_nat (length payload)) :: payload.

(** ** The reframer: [buf[0 .. len)] is the state *)
Definition REFRAMER_BUF : nat := 128.

(** The [while] loop from [buf + off]: the callbacks made, in order, and what
    is left after the final [memmove].  Every frame consumes its header, so
    the buffer's length is enough fuel. *)
Fixpoint reframe_loop (fuel : nat) (b : bytes) : list (Z * bytes) * bytes :=
  match fuel, b with
  | S fuel, type :: plen :: rest =>
      let plen := Z.to_nat plen in
      if (CTL_FRAME_MAX <? CTL_HDR + plen)%nat then ([], [])
      else if (length b <? CTL_HDR + plen)%nat then ([], b)
      else let '(calls, kept) := reframe_loop fuel (drop plen rest) in
           ((type, take plen rest) :: calls, kept)
  | _, _ => ([], b)
  end.

Definition ctl_reframer_feed (r : bytes) (input : bytes) : list (Z * bytes) * bytes :=
  if (REFRAMER_BUF <? length input)%nat then ([], r)
  else
    let held := if (REFRAMER_BUF <? length r + length input)%nat then [] else r in
    let buf := held ++ input in
    reframe_loop (length buf) buf.

(** A sequence of reads, each fed as it arrives. *)
Fixpoint ctl_reframer_run (r : bytes) (reads : list bytes) : list (Z * bytes) * bytes :=
  match reads with
  | [] => ([], r)
  | c :: reads' =>
      let '(calls, r') := ctl_reframer_feed r c in
      let '(more, r'') := ctl_reframer_run r' reads' in
      (calls ++ more, r'')
  end.

(** ** Payloads *)

(** The cast of [sa] follows [family]; [None] is the cast of a struct of the
    other family, which no caller makes. *)
Definition ctl_rdv_encode (family : Z) (sa : sockaddr) : option bytes :=
  match sa with
  | AF_INET6 port addr _ =>
      if family =? 6 then Some (6 :: u8 (port >> 8) :: u8 port :: addr) else None
  | AF_INET port addr =>
      if family =? 6 then None
      else Some (4 :: u8 (port >> 8) :: u8 port :: addr ++ replicate 12 0)
  | AF_OTHER => None
  end.

(** The family and the address; [None] is the return of 0. *)
Definition ctl_rdv_decode (pl : bytes) : option (Z * sockaddr) :=
  if (length pl <? CTL_RDV_PLEN)%nat then None
  else match pl with
       | fam :: p1 :: p2 :: rest =>
           let port := u16 ((p1 << 8) .| p2) in
           if fam =? 6 then Some (6, AF_INET6 port (take 16 rest) 0)
           else if fam =? 4 then Some (4, AF_INET port (take 4 rest))
           else None
       | _ => None
       end.

Definition ctl_txsel_encode (seq : Z) (id : bytes) (flags : Z) : bytes :=
  be_put 4 seq ++ take CTL_TXSEL_ID_LEN id ++ [u8 flags].

Definition ctl_txsel_decode (pl : bytes) : option (Z * bytes * Z) :=
  if (length pl <? CTL_TXSEL_PLEN)%nat then None
  else Some (be_get (take 4 pl), slice 4 CTL_TXSEL_ID_LEN pl,
             nth (4 + CTL_TXSEL_ID_LEN) pl 0).

(** The payload buffer is updated in place. *)
Definition ctl_reach_encode (pl : bytes) (slot state flags : Z) : bytes :=
  if negb (slot =? 0) && negb (slot =? 1) then pl
  else <[Z.to_nat (slot * 2 + 1) := u8 flags]> (<[Z.to_nat (slot * 2) := u8 state]> pl).

(** The return value, the state and the flags. *)
Definition ctl_reach_decode (pl : bytes) (slot : Z) : bool * Z * Z :=
  if (length pl <? CTL_REACH_PLEN)%nat || (negb (slot =? 0) && negb (slot =? 1))
  then (false, CTL_REACH_DOWN, 0)
  else
    let st := nth (Z.to_nat (slot * 2)) pl 0 in
    (true, if (st =? CTL_REACH_PENDING) || (st =? CTL_REACH_UP) then st else CTL_REACH_DOWN,
     nth (Z.to_nat (slot * 2 + 1)) pl 0).

(** ** Lemmas: the reframer *)
Definition frame_ok (f : Z * bytes) : Prop :=
  is_u8 f.1 /\ (length f.2 <= CTL_FRAME_MAX - CTL_HDR)%nat.

Definition frame_text (f : Z * bytes) : bytes := ctl_frame f.1 f.2.
Definition stream (fs : list (Z * bytes)) : bytes := concat (map frame_text fs).

(** The start of a frame whose end has not arrived. *)
Definition incomplete (p : bytes) : Prop :=
  exists f rest, frame_ok f /\ rest <> [] /\ frame_text f = p ++ rest.

Lemma frame_text_eq f :
  frame_ok f -> frame_text f = f.1 :: Z.of_nat (length f.2) :: f.2.
Proof.
  intros [Ht Hl]. unfold frame_text, ctl_frame, CTL_FRAME_MAX, CTL_HDR, CTL_KEY_PLEN in *.
  destruct (Nat.ltb_spec (2 + 32 - 2) (length f.2)); [lia|].
  rewrite u8_id by done. f_equal. f_equal. apply u8_id. unfold_words. lia.
Qed.

Lemma incomplete_short p : incomplete p -> (length p < CTL_FRAME_MAX)%nat.
Proof.
  intros (f & rest & Hf & Hne & E). pose proof (f_equal length E) as El.
  rewrite frame_text_eq, length_app in El by done. cbn [length] in El.
  destruct rest; [done|]. cbn [length] in El. destruct Hf as [_ Hf].
  unfold CTL_FRAME_MAX, CTL_HDR, CTL_KEY_PLEN in *. lia.
Qed.

Lemma reframe_incomplete fuel p : incomplete p -> reframe_loop fuel p = ([], p).
Proof.
  intros ([t0 b] & rest & Hf & Hne & E). rewrite frame_text_eq in E by done.
  destruct fuel as [|fuel], p as [|t [|n p]]; try done. cbn [app fst snd] in E. simplify_eq.
  cbn [reframe_loop]. rewrite Nat2Z.id. destruct Hf as [_ Hf]. cbn [snd] in Hf.
  rewrite length_app in Hf |- *. unfold CTL_FRAME_MAX, CTL_HDR, CTL_KEY_PLEN in *.
  destruct rest; [done|]. cbn [length] in *.
  destruct (Nat.ltb_spec (2 + 32) (2 + (length p + S (length rest)))); [lia|].
  destruct (Nat.ltb_spec (S (S (length p))) (2 + (length p + S (length rest)))); [done|lia].
Qed.

Lemma reframe_stream fs p fuel :
  Forall frame_ok fs -> incomplete p -> (length (stream fs) <= fuel)%nat ->
  reframe_loop fuel (stream fs ++ p) = (fs, p).
Proof.
  intros Hfs Hp. revert fuel. induction Hfs as [|[t b] fs Hf Hfs IH]; intros fuel Hfu.
  - by apply reframe_incomplete.
  - unfold stream in *. cbn [map concat] in *. rewrite frame_text_eq in Hfu |- * by done.
    rewrite length_app in Hfu. cbn [length fst snd app] in *.
    destruct fuel as [|fuel]; [lia|]. cbn [reframe_loop]. rewrite Nat2Z.id.
    destruct Hf as [_ Hf]. cbn [snd] in Hf.
    unfold CTL_FRAME_MAX, CTL_HDR, CTL_KEY_PLEN in *.
    destruct (Nat.ltb_spec (2 + 32) (2 + length b)); [lia|].
    rewrite <- app_assoc. cbn [length]. rewrite length_app.
    match goal with |- context [(?a <? ?c)%nat] => destruct (Nat.ltb_spec a c); [lia|] end.
    rewrite take_app_length, drop_app_length, IH by lia. done.
Qed.

(** Any cut of a stream falls inside one frame or between two. *)
Lemma stream_cut fs p a b :
  Forall frame_ok fs -> incomplete p -> a ++ b = stream fs ++ p ->
  exists fs1 fs2 p1, fs = fs1 ++ fs2 /\ a = stream fs1 ++ p1 /\ incomplete p1 /\
    p1 ++ b = stream fs2 ++ p.
Proof.
  intros Hfs Hp. revert a. induction Hfs as [|f fs Hf Hfs IH]; intros a E.
  - exists [], [], a. split_and!; try done.
    destruct Hp as (g & rest & Hg & Hne & Eg). cbn in E. subst p.
    exists g, (b ++ rest). split_and!; [done | by destruct b | by rewrite app_assoc].
  - unfold stream in E. cbn [map concat] in E. rewrite <- app_assoc in E.
    destruct (app_eq_inv _ _ _ _ E) as [(k & -> & Ek)|(k & Et & Ek)].
    + destruct (IH k) as (fs1 & fs2 & p1 & -> & -> & Hp1 & E1); [done|].
      exists (f :: fs1), fs2, p1. split_and!; [done | | done | done].
      unfold stream. cbn [map concat]. by rewrite <- app_assoc.
    + destruct k as [|x k].
      * rewrite app_nil_r in Et. subst a. cbn [app] in Ek.
        exists [f], fs, []. split_and!; [done | | | exact Ek].
        -- unfold stream. cbn. by rewrite !app_nil_r.
        -- exists f, (frame_text f). split_and!; [done | | done].
           by rewrite frame_text_eq by done.
      * exists [], (f :: fs), a. split_and!; [done | done | by exists f, (x :: k) |].
        unfold stream. cbn [map concat]. by rewrite <- app_assoc.
Qed.

Lemma reframer_run_stream reads p0 fs p :
  Forall (fun c => (length c <= 64)%nat) reads -> Forall frame_ok fs ->
  incomplete p0 -> incomplete p -> p0 ++ concat reads = stream fs ++ p ->
  ctl_reframer_run p0 reads = (fs, p).
Proof.
  intros Hr. revert p0 fs. induction Hr as [|c reads Hc Hr IH]; intros p0 fs Hfs Hp0 Hp E.
  - cbn in E. rewrite app_nil_r in E. cbn.
    pose proof (reframe_stream fs p (length (stream fs)) Hfs Hp ltac:(lia)) as H1.
    rewrite <- E, reframe_incomplete in H1 by done. congruence.
  - cbn [concat] in E. rewrite app_assoc in E.
    destruct (stream_cut _ _ _ _ Hfs Hp E) as (fs1 & fs2 & p1 & -> & E1 & Hp1 & E2).
    apply Forall_app in Hfs as [Hfs1 Hfs2]. cbn [ctl_reframer_run]. unfold ctl_reframer_feed.
    pose proof (incomplete_short p0 Hp0).
    unfold REFRAMER_BUF, CTL_FRAME_MAX, CTL_HDR, CTL_KEY_PLEN in *.
    destruct (Nat.ltb_spec 128 (length c)); [lia|].
    destruct (Nat.ltb_spec 128 (length p0 + length c)); [lia|].
    rewrite E1, reframe_stream by (try done; rewrite length_app; lia).
    by rewrite (IH p1 fs2).
Qed.

(** ** Lemmas: payload round trips *)
Lemma ctl_u64_roundtrip v : is_u64 v -> ctl_get_u64 (ctl_put_u64 v) = v.
Proof.
  intros Hv. unfold ctl_get_u64, ctl_put_u64.
  rewrite take_ge by (rewrite be_put_length; lia). rewrite be_get_put. by apply Z.mod_small.
Qed.

Lemma port_bytes p : is_u16 p -> u16 ((u8 (p >> 8) << 8) .| u8 p) = p.
Proof.
  intros Hp. rewrite lor_shiftl_add by (lia || apply u8_range).
  rewrite shiftr_div by lia. unfold_words.
  pose proof (Z.div_mod p (2 ^ 8)). pose proof (Z.mod_pos_bound p (2 ^ 8)).
  rewrite (Z.mod_small (p / 2 ^ 8)) by lia. rewrite Z.mod_small; lia.
Qed.

(** ** Properties *)

(** C39: however the stream of control frames is cut into reads of at most 64
    bytes, the reframer delivers exactly the frames that have wholly arrived,
    in order, each with its type and payload, and holds back exactly the
    incomplete one. *)
Theorem ctl_reframer_chunking fs p reads :
  Forall frame_ok fs -> incomplete p ->
  Forall (fun c => (length c <= 64)%nat) reads ->
  concat reads = stream fs ++ p ->
  ctl_reframer_run [] reads = (fs, p).
Proof.
  intros Hfs Hp Hr E. apply reframer_run_stream; try done.
  exists (0, []), (frame_text (0, [])). by split_and!; [split; [done | cbn; lia] | |].
Qed.

Lemma ctl_reframer_chunking_witness :
  ctl_reframer_run [] [[0]; [1; 9; 5]; [2; 7; 7; 1]] = ([(0, [9]); (5, [7; 7])], [1]).
Proof.
  apply (ctl_reframer_chunking [(0, [9]); (5, [7; 7])] [1]); [| |forall_list; cbn; lia|reflexivity].
  - forall_list; (split; [done | cbn; lia]).
  - exists (1, [3]), [1; 3]. by split_and!; [split; [done | cbn; lia] | |].
Defined.

(** Every control payload decodes to what was encoded: the heartbeat
    timestamp, an endpoint of either family, a transmit-path statement, and a
    reachability pair, of which an unknown state reads as down. *)
Theorem ctl_payload_roundtrip :
  (forall v, is_u64 v -> ctl_get_u64 (ctl_put_u64 v) = v) /\
  (forall port addr, is_u16 port -> length addr = 4%nat ->
     exists pl, ctl_rdv_encode 4 (AF_INET port addr) = Some pl /\ length pl = CTL_RDV_PLEN /\
       ctl_rdv_decode pl = Some (4, AF_INET port addr)) /\
  (forall port addr scope, is_u16 port -> length addr = 16%nat ->
     exists pl, ctl_rdv_encode 6 (AF_INET6 port addr scope) = Some pl /\
       length pl = CTL_RDV_PLEN /\ ctl_rdv_decode pl = Some (6, AF_INET6 port addr 0)) /\
  (forall seq id flags, is_u32 seq -> length id = CTL_TXSEL_ID_LEN -> is_u8 flags ->
     ctl_txsel_decode (ctl_txsel_encode seq id flags) = Some (seq, id, flags)) /\
  (forall pl s4 f4 s6 f6, length pl = CTL_REACH_PLEN ->
     is_u8 s4 -> is_u8 f4 -> is_u8 s6 -> is_u8 f6 ->
     let known s := if (s =? CTL_REACH_PENDING) || (s =? CTL_REACH_UP) then s
                    else CTL_REACH_DOWN in
     let m := ctl_reach_encode (ctl_reach_encode pl 0 s4 f4) 1 s6 f6 in
     ctl_reach_decode m 0 = (true, known s4, f4) /\
     ctl_reach_decode m 1 = (true, known s6, f6)).
Proof.
  split; [exact ctl_u64_roundtrip|]. split; [|split; [|split]].
  - intros port addr Hp Ha. eexists. split; [reflexivity|].
    unfold ctl_rdv_decode, CTL_RDV_PLEN. cbn [length]. rewrite length_app, length_replicate, Ha.
    split; [done|]. cbn [Nat.add Nat.ltb Nat.leb Z.eqb Pos.eqb].
    by rewrite port_bytes, take_app_length' by done.
  - intros port addr scope Hp Ha. eexists. split; [reflexivity|].
    unfold ctl_rdv_decode, CTL_RDV_PLEN. cbn [length]. rewrite Ha. split; [done|].
    cbn [Nat.add Nat.ltb Nat.leb Z.eqb Pos.eqb]. by rewrite port_bytes, take_ge by (done || lia).
  - intros seq id flags Hs Hi Hf. unfold ctl_txsel_decode, ctl_txsel_encode.
    pose proof (be_put_length 4 seq) as Hl4.
    rewrite !length_app, be_put_length, length_take, Hi. cbn [length Nat.min Nat.add Nat.ltb].
    rewrite take_app_length' by done. unfold slice. rewrite drop_app_length' by done.
    rewrite (take_ge id) by lia. rewrite take_app_length' by done. rewrite app_assoc.
    rewrite app_nth2 by (rewrite length_app; unfold CTL_TXSEL_ID_LEN in *; lia).
    rewrite length_app, Hl4, Hi, Nat.sub_diag. cbn [nth].
    rewrite be_get_put, u8_id by done. change (8 * Z.of_nat 4) with 32.
    by rewrite Z.mod_small by (unfold_words; lia).
  - intros pl s4 f4 s6 f6 Hl H1 H2 H3 H4. cbv zeta.
    destruct pl as [|a [|b [|c [|d [|]]]]]; try done.
    cbn. rewrite !u8_id by done. done.
Qed.
