(* ===== verification/Crypto.v ===== *)
(** The crypto surface of src/src/ccrypto.h.  Its functions are thin wrappers
    over a backend chosen at configure time (OpenSSL, libgcrypt or Monocypher),
    so they are parameters here: a class of operations, and a class of the laws
    the callers rely on, each of which the header or the primitive's
    specification states.  [toy_crypto] is a small instance that satisfies the
    laws, for evaluating the definitions on concrete inputs; it protects
    nothing. *)
From S2P Require Import Prelude.

(** [None] is a non-zero return code. *)
Class Crypto := {
  cc_blake2b_keyed : nat -> bytes -> bytes -> bytes;      (* out_len key msg *)
  cc_aead_lock : bytes -> bytes -> bytes -> bytes -> option (bytes * bytes);
                                       (* key nonce ad pt -> ct, mac *)
  cc_aead_unlock : bytes -> bytes -> bytes -> bytes -> bytes -> option bytes;
                                       (* key nonce ad mac ct -> pt *)
  cc_x25519_public : bytes -> option bytes;               (* sk -> pk *)
  cc_x25519 : bytes -> bytes -> option bytes;             (* sk peer -> shared *)
  cc_ed25519_key_pair : bytes -> option (bytes * bytes)   (* seed -> sk, pk *)
}.

Class CryptoLaws (C : Crypto) := {
  (* "Fills out, or does not return." *)
  blake2b_length : forall n key msg, length (cc_blake2b_keyed n key msg) = n;
  blake2b_ok : forall n key msg, bytes_ok (cc_blake2b_keyed n key msg);
  (* A stream cipher and a 16-byte tag. *)
  aead_lock_length : forall key nonce ad pt ct mac,
    cc_aead_lock key nonce ad pt = Some (ct, mac) ->
    length ct = length pt /\ length mac = 16%nat;
  (* Unlocking accepts exactly what locking produces. *)
  aead_unlock_iff : forall key nonce ad mac ct pt,
    cc_aead_unlock key nonce ad mac ct = Some pt <->
    cc_aead_lock key nonce ad pt = Some (ct, mac);
  (* RFC 7748: both ends of an agreement compute the same secret. *)
  x25519_public_length : forall sk pk, cc_x25519_public sk = Some pk -> length pk = 32%nat;
  x25519_agree : forall a b pa pb,
    cc_x25519_public a = Some pa -> cc_x25519_public b = Some pb ->
    cc_x25519 a pb = cc_x25519 b pa
}.

(** Signatures, as the storage protocol uses them: [sk msg] and [sig pk msg]. *)
Class Ed25519 := {
  cc_ed25519_sign : bytes -> bytes -> option bytes;
  cc_ed25519_check : bytes -> bytes -> bytes -> bool
}.
Class Ed25519Laws (E : Ed25519) := {
  (* The header's [uint8_t sig[64]]. *)
  ed25519_sign_length : forall sk msg sig, cc_ed25519_sign sk msg = Some sig ->
    length sig = 64%nat /\ bytes_ok sig
}.

(** ** An instance *)
Definition toy_mix (l : bytes) : Z := fold_left (fun v b => (v * 31 + b + 7) mod 2 ^ 64) l 1.

Definition toy_blake (n : nat) (key msg : bytes) : bytes :=
  be_put n (toy_mix (key ++ msg) * (2 ^ 192 + 2 ^ 128 + 2 ^ 64 + 1)).

Definition toy_lock (key nonce ad pt : bytes) : option (bytes * bytes) :=
  Some (pt, toy_blake 16 key (nonce ++ ad ++ pt)).

Definition toy_unlock (key nonce ad mac ct : bytes) : option bytes :=
  if bytes_eqb mac (toy_blake 16 key (nonce ++ ad ++ ct)) then Some ct else None.

Definition toy_public (sk : bytes) : bytes := be_put 32 (3 * be_get sk).
Definition toy_shared (sk peer : bytes) : bytes := be_put 32 (be_get sk * be_get peer).

Definition toy_crypto : Crypto := {|
  cc_blake2b_keyed := toy_blake;
  cc_aead_lock := toy_lock;
  cc_aead_unlock := toy_unlock;
  cc_x25519_public sk := Some (toy_public sk);
  cc_x25519 sk peer := Some (toy_shared sk peer);
  cc_ed25519_key_pair seed := Some (seed ++ seed, seed)
|}.

Lemma toy_crypto_laws : CryptoLaws toy_crypto.
Proof.
  split.
  - intros. apply be_put_length.
  - intros. apply be_put_ok.
  - intros key nonce ad pt ct mac H. cbn in H. unfold toy_lock in H. simplify_eq.
    split; [done | apply be_put_length].
  - intros key nonce ad mac ct pt. cbn. unfold toy_unlock, toy_lock, bytes_eqb.
    case_bool_decide; split; intros; simplify_eq; done.
  - intros sk pk H. unfold cc_x25519_public, toy_crypto in H.
    assert (pk = toy_public sk) as -> by congruence. apply be_put_length.
  - intros a b pa pb Ha Hb. unfold cc_x25519_public, cc_x25519, toy_crypto in *.
    assert (pa = toy_public a) as -> by congruence.
    assert (pb = toy_public b) as -> by congruence.
    f_equal. unfold toy_shared, toy_public. apply be_put_mod.
    rewrite !be_get_put. change (8 * Z.of_nat 32) with 256.
    rewrite !Z.mul_mod_idemp_r by lia. f_equal. lia.
Qed.

Definition toy_ed25519 : Ed25519 := {|
  cc_ed25519_sign sk msg := Some (toy_blake 64 sk msg);
  cc_ed25519_check sig pk msg := bytes_eqb sig (toy_blake 64 (pk ++ pk) msg)
|}.
Lemma toy_ed25519_laws : Ed25519Laws toy_ed25519.
Proof.
  split. intros sk msg sig H. change (Some (toy_blake 64 sk msg) = Some sig) in H.
  assert (sig = toy_blake 64 sk msg) as -> by congruence. split; [apply be_put_length | apply be_put_ok].
Qed.
