(* ===== verification/Keys.v ===== *)
(** src/src/keys.c: what a session derives from its token, and the sealing of
    messages.  A function that draws randomness takes the bytes drawn as an
    argument ([None] when the kernel refuses); [random_bytes] itself is modelled
    over the kernel's answers. *)
From S2P Require Import Prelude Crypto Token.
From Stdlib Require Import Btauto.

Definition SEAL_OVERHEAD : nat := 40.
Definition BOX_OVERHEAD : nat := 48.
Definition KEYS_HALF_LEN : nat := 32.

(** One answer of [getrandom(p, len, 0)]. *)
Inductive getrandom_rc :=
| GR_bytes (l : bytes)
| GR_eintr
| GR_fail.

(** The loop over [getrandom]; [None] is the return of -1.  An answer holds at
    most the bytes asked for.  The list is what the kernel answers; running out
    of it is a call that has not returned, [None] as well. *)
Fixpoint random_bytes (len : nat) (sys : list getrandom_rc) : option bytes :=
  match len, sys with
  | O, _ => Some []
  | _, [] => None
  | _, GR_fail :: _ => None
  | _, GR_eintr :: sys' => random_bytes len sys'
  | _, GR_bytes l :: sys' =>
      match random_bytes (len - length l) sys' with
      | Some rest => Some (take len l ++ rest)
      | None => None
      end
  end.

Record session_keys := mk_session_keys {
  sig_key : bytes;
  bep44_pk : bytes;
  bep44_sk : bytes;
  probe_magic : Z;
  conv : Z;
  mcast_port : Z
}.

Definition wg_msg_type (first_four_le : Z) : bool :=
  (1 <=? first_four_le) && (first_four_le <=? 4).

Definition bswap32 (v : Z) : Z :=
  u32 ((v >> 24) .| ((v >> 8) .& 0xff00) .| (u32 (v << 8) .& 0xff0000) .| u32 (v << 24)).

Section Keys.
Context {C : Crypto}.

(** *** Derivations *)
Definition wire_info (n : Z) : bytes :=
  cstr "comrade1 wire tags" ++ (if truth n then [u8 n] else []).

(** The draw loop from round [n]: the two tags.  Round 8 always leaves it, so
    the fuel of nine rounds is never short. *)
Fixpoint wire_tags (fuel : nat) (rdv : bytes) (n : Z) : Z * Z :=
  match fuel with
  | O => (0, 0)
  | S fuel =>
      let tags := cc_blake2b_keyed 32 rdv (wire_info n) in
      let magic := be_get (slice 0 4 tags) in
      let cv := be_get (slice 4 4 tags) in
      if negb (magic =? cv) && negb (wg_msg_type (bswap32 magic)) && negb (wg_msg_type cv)
      then (magic, cv)
      else if n =? 8 then ((magic .& 0x7fffffff) .| 0x80, cv .| 0x80000000)
      else wire_tags fuel rdv (n + 1)
  end.

(** [None] when the key pair could not be made. *)
Definition keys_derive (rdv : bytes) : option session_keys :=
  let sig := cc_blake2b_keyed 32 rdv (cstr "comrade1 sig key") in
  let seed := cc_blake2b_keyed 32 rdv (cstr "comrade1 bep44 seed") in
  let pb := cc_blake2b_keyed 32 rdv (cstr "comrade1 mcast port") in
  let port := u16 (32768 + (((nth 0 pb 0 << 8) .| nth 1 pb 0) .& 0x3fff)) in
  let '(magic, cv) := wire_tags 9 rdv 0 in
  match cc_ed25519_key_pair seed with
  | Some (sk, pk) => Some (mk_session_keys sig pk sk magic cv port)
  | None => None
  end.

Definition keys_conn_key (sig a b : bytes) : bytes :=
  let lo := if memcmp a b <=? 0 then a else b in
  let hi := if memcmp a b <=? 0 then b else a in
  cc_blake2b_keyed 32 sig (cstr "comrade1 conn key" ++ lo ++ hi).

Definition hx (d : Z) : Z := nth (Z.to_nat d) (cstr "0123456789abcdef") 0.

(** The string, without its NUL. *)
Definition keys_slot_salt (rdv : bytes) : bytes :=
  let raw := cc_blake2b_keyed 32 rdv (cstr "comrade1 cell") in
  114 :: concat (map (fun b => [hx (b >> 4); hx (b .& 15)]) (take 8 raw)).

Definition keys_slot_key (auth : bytes) : bytes :=
  cc_blake2b_keyed 32 auth (cstr "comrade1 cell class key").

Definition keys_derive_ro_auth (rw : bytes) : bytes :=
  take TOKEN_AUTH_LEN (cc_blake2b_keyed 32 rw (cstr "comrade1 ro token")).

(** *** Sealing; [None] is the return of -1 *)
Definition msg_seal_ad (dst_len : nat) (rnd : option bytes) (key ad plain : bytes) :
  option bytes :=
  if (dst_len <? length plain + SEAL_OVERHEAD)%nat then None
  else match rnd with
       | None => None
       | Some nonce =>
           match cc_aead_lock key nonce ad plain with
           | None => None
           | Some (ct, mac) => Some (nonce ++ mac ++ ct)
           end
       end.

Definition msg_seal (dst_len : nat) (rnd : option bytes) (key plain : bytes) : option bytes :=
  msg_seal_ad dst_len rnd key [] plain.

Definition msg_open_ad (dst_len : nat) (key ad sealed : bytes) : option bytes :=
  if (length sealed <? SEAL_OVERHEAD)%nat then None
  else if (dst_len <? length sealed - SEAL_OVERHEAD)%nat then None
  else cc_aead_unlock key (take 24 sealed) ad (slice 24 16 sealed) (drop 40 sealed).

Definition msg_open (dst_len : nat) (key sealed : bytes) : option bytes :=
  msg_open_ad dst_len key [] sealed.

(** *** Boxes *)
Definition box_key (shared epk pk : bytes) : bytes :=
  cc_blake2b_keyed 32 shared (cstr "comrade1 claim box" ++ epk ++ pk).

Definition box_nonce : bytes := replicate 24 0.

Definition box_seal (dst_len : nat) (rnd : option bytes) (pk plain : bytes) : option bytes :=
  if (dst_len <? length plain + BOX_OVERHEAD)%nat then None
  else match rnd with
       | None => None
       | Some esk =>
           match cc_x25519_public esk with
           | None => None
           | Some epk =>
               match cc_x25519 esk pk with
               | None => None
               | Some shared =>
                   match cc_aead_lock (box_key shared epk pk) box_nonce epk plain with
                   | None => None
                   | Some (ct, mac) => Some (epk ++ mac ++ ct)
                   end
               end
           end
       end.

Definition box_open (dst_len : nat) (sk sealed : bytes) : option bytes :=
  if (length sealed <? BOX_OVERHEAD)%nat then None
  else if (dst_len <? length sealed - BOX_OVERHEAD)%nat then None
  else
    match cc_x25519_public sk with
    | None => None
    | Some pk =>
        let epk := take 32 sealed in
        match cc_x25519 sk epk with
        | None => None
        | Some shared =>
            cc_aead_unlock (box_key shared epk pk) box_nonce epk
              (slice 32 16 sealed) (drop BOX_OVERHEAD sealed)
        end
    end.

(** ** Lemmas *)
Context {L : CryptoLaws C}.

Lemma sealed_parts {A} (a b c : list A) n m :
  length a = n -> length b = m ->
  take n (a ++ b ++ c) = a /\ take m (drop n (a ++ b ++ c)) = b /\
  drop (n + m) (a ++ b ++ c) = c.
Proof.
  intros <- <-. rewrite take_app_length, <- drop_drop, drop_app_length.
  by rewrite take_app_length, drop_app_length.
Qed.

Lemma msg_seal_ad_inv dst_len nonce key ad plain s :
  msg_seal_ad dst_len (Some nonce) key ad plain = Some s ->
  exists ct mac, cc_aead_lock key nonce ad plain = Some (ct, mac) /\
    s = nonce ++ mac ++ ct /\ length mac = 16%nat /\ length ct = length plain /\
    (length plain + SEAL_OVERHEAD <= dst_len)%nat.
Proof.
  unfold msg_seal_ad. destruct (Nat.ltb_spec dst_len (length plain + SEAL_OVERHEAD)); [done|].
  destruct (cc_aead_lock key nonce ad plain) as [[ct mac]|] eqn:E; [|done].
  intros. simplify_eq. destruct (aead_lock_length _ _ _ _ _ _ E). eauto 10.
Qed.

Lemma msg_open_seal_ad n1 n2 nonce key ad plain s :
  length nonce = 24%nat -> msg_seal_ad n1 (Some nonce) key ad plain = Some s ->
  (length plain <= n2)%nat -> msg_open_ad n2 key ad s = Some plain.
Proof.
  intros Hn H Hl. destruct (msg_seal_ad_inv _ _ _ _ _ _ H) as (ct & mac & E & -> & Hm & Hc & _).
  destruct (sealed_parts nonce mac ct 24 16 Hn Hm) as (H1 & H2 & H3).
  unfold msg_open_ad, slice, SEAL_OVERHEAD. rewrite H1, H2.
  change 40%nat with (24 + 16)%nat at 3. rewrite H3, !length_app, Hn, Hm, Hc.
  destruct (Nat.ltb_spec (24 + (16 + length plain)) 40); [lia|].
  destruct (Nat.ltb_spec n2 (24 + (16 + length plain) - 40)); [lia|].
  by apply aead_unlock_iff.
Qed.

Lemma msg_seal_ad_length n nonce key ad plain s :
  length nonce = 24%nat -> msg_seal_ad n (Some nonce) key ad plain = Some s ->
  length s = (length plain + SEAL_OVERHEAD)%nat.
Proof.
  intros Hn H. destruct (msg_seal_ad_inv _ _ _ _ _ _ H) as (ct & mac & E & -> & Hm & Hc & _).
  rewrite !length_app. unfold SEAL_OVERHEAD. lia.
Qed.

Lemma msg_open_ad_inv n key ad s plain :
  msg_open_ad n key ad s = Some plain ->
  length (take 24 s) = 24%nat /\ length s = (length plain + SEAL_OVERHEAD)%nat /\
  msg_seal_ad (length s) (Some (take 24 s)) key ad plain = Some s.
Proof.
  unfold msg_open_ad, SEAL_OVERHEAD. intros H.
  destruct (Nat.ltb_spec (length s) 40); [done|].
  destruct (Nat.ltb_spec n (length s - 40)); [done|]. apply aead_unlock_iff in H.
  destruct (aead_lock_length _ _ _ _ _ _ H) as [Hl _]. rewrite length_drop in Hl.
  rewrite length_take. split; [lia|]. split; [lia|]. unfold msg_seal_ad, SEAL_OVERHEAD.
  destruct (Nat.ltb_spec (length s) (length plain + 40)); [lia|]. rewrite H. f_equal.
  unfold slice. rewrite <- (take_drop 24 s) at 4. f_equal.
  rewrite <- (take_drop 16 (drop 24 s)) at 2. f_equal. by rewrite drop_drop.
Qed.

Lemma keys_conn_key_comm sig a b : keys_conn_key sig a b = keys_conn_key sig b a.
Proof.
  unfold keys_conn_key. rewrite (memcmp_antisym a b).
  destruct (Z.leb_spec (memcmp a b) 0), (Z.leb_spec (- memcmp a b) 0); try done; try lia.
  assert (memcmp a b = 0) as ->%memcmp_eq by lia. done.
Qed.

(** The first four bytes of a datagram, as WireGuard reads them. *)
Definition le_get (l : bytes) : Z := be_get (rev l).

(** The bytes [kcp] writes for a conversation id. *)
Definition le_put (n : nat) (v : Z) : bytes := rev (be_put n v).

Lemma be_put4 v : be_put 4 v = [u8 (v >> 24); u8 (v >> 16); u8 (v >> 8); u8 v].
Proof. reflexivity. Qed.

Lemma be_get_4 a b c d :
  bytes_ok [a; b; c; d] -> be_get [a; b; c; d] = a * 2 ^ 24 + b * 2 ^ 16 + c * 2 ^ 8 + d.
Proof.
  intros H. unfold bytes_ok in H. rewrite !Forall_cons in H.
  destruct H as (Ha & Hb & Hc & Hd & _).
  unfold be_get. cbn [fold_left]. rewrite Z.shiftl_0_l, Z.lor_0_l.
  rewrite !lor_shiftl_add by (unfold_words; lia). lia.
Qed.

Lemma le_get_put n v : le_get (le_put n v) = v mod 2 ^ (8 * Z.of_nat n).
Proof. unfold le_get, le_put. by rewrite rev_involutive, be_get_put. Qed.

Lemma land_byte x k : 0 <= k -> x .& (255 << k) = u8 (x >> k) << k.
Proof.
  intros Hk. apply Z.bits_inj'. intros i Hi. unfold u8. change 255 with (Z.ones 8).
  rewrite Z.land_spec, !Z.shiftl_spec by lia.
  destruct (Z.ltb_spec (i - k) 0); [by rewrite !(Z.testbit_neg_r _ (i - k)), andb_false_r by lia|].
  rewrite Z.testbit_ones_nonneg, Z.testbit_mod_pow2, Z.shiftr_spec by lia.
  replace (i - k + k) with i by lia. apply andb_comm.
Qed.

(** The four terms of [bswap32], each a byte in its new place. *)
Lemma bswap32_terms m :
  is_u32 m ->
  bswap32 m = u32 ((((u8 m << 8 .| u8 (m >> 8)) << 8 .| u8 (m >> 16)) << 8) .| u8 (m >> 24)).
Proof.
  intros Hm. unfold bswap32. change 0xff00 with (255 << 8). change 0xff0000 with (255 << 16).
  rewrite !land_byte, !Z.shiftr_shiftr by lia. change (8 + 8) with 16.
  replace (u8 (u32 (m << 8) >> 16)) with (u8 (m >> 8)).
  2:{ unfold_words. apply Z.bits_inj'. intros i Hi.
      repeat rewrite ?Z.testbit_mod_pow2, ?Z.shiftr_spec, ?Z.shiftl_spec by lia.
      destruct (Z.ltb_spec i 8); [|done]. destruct (Z.ltb_spec (i + 16) 32); [|lia].
      cbn [andb]. f_equal. lia. }
  replace (u32 (m << 24)) with (u8 m << 24).
  2:{ unfold_words. rewrite !Z.shiftl_mul_pow2 by lia.
      change (2 ^ 32) with (2 ^ 8 * 2 ^ 24). by rewrite Z.mul_mod_distr_r. }
  assert (u8 (m >> 24) = m >> 24) as ->.
  { apply u8_id. rewrite shiftr_div by lia. unfold_words. split; [apply Z.div_pos; lia|].
    apply Z.div_lt_upper_bound; lia. }
  f_equal. rewrite !Z.shiftl_lor, !Z.shiftl_shiftl by lia.
  change (8 + 8) with 16. change (8 + 16) with 24.
  apply Z.bits_inj'. intros i Hi. rewrite !Z.lor_spec. btauto.
Qed.

Lemma bswap32_le m : is_u32 m -> bswap32 m = le_get (be_put 4 m).
Proof.
  intros Hm. rewrite bswap32_terms by done. unfold le_get. rewrite be_put4. cbn [rev app].
  rewrite be_get_4 by (repeat constructor; apply u8_range).
  pose proof (u8_range m). pose proof (u8_range (m >> 8)).
  pose proof (u8_range (m >> 16)). pose proof (u8_range (m >> 24)). unfold is_u8 in *.
  rewrite !lor_shiftl_add by lia. rewrite u32_id by (unfold is_u32; lia). lia.
Qed.

(** A pair of tags the demux and a WireGuard neighbour can live with. *)
Definition tags_apart (magic cv : Z) : Prop :=
  is_u32 magic /\ is_u32 cv /\ magic <> cv /\
  ~ (1 <= le_get (be_put 4 magic) <= 4) /\ ~ (1 <= le_get (le_put 4 cv) <= 4).

Lemma digest_word rdv msg off :
  (off + 4 <= 32)%nat -> is_u32 (be_get (slice off 4 (cc_blake2b_keyed 32 rdv msg))).
Proof.
  intros Ho. pose proof (be_get_range (slice off 4 (cc_blake2b_keyed 32 rdv msg))) as H.
  unfold is_u32. unfold slice in *. rewrite length_take, length_drop, blake2b_length in H.
  replace (4 `min` (32 - off))%nat with 4%nat in H by lia. apply H.
  apply Forall_take, Forall_drop, blake2b_ok.
Qed.

Lemma wg_msg_type_false x : wg_msg_type x = false -> ~ (1 <= x <= 4).
Proof. unfold wg_msg_type. bool_cases; try done; lia. Qed.

Lemma forced_apart m c : is_u32 m -> is_u32 c -> tags_apart ((m .& 0x7fffffff) .| 0x80) (c .| 0x80000000).
Proof.
  intros Hm Hc. set (m' := (m .& 0x7fffffff) .| 0x80). set (c' := c .| 0x80000000).
  assert (0 <= m' < 2 ^ 31) as Hm'.
  { unfold m'. change 0x7fffffff with (Z.ones 31). rewrite Z.land_ones by lia.
    apply lor_bound; [lia | | lia]. apply Z.mod_pos_bound. lia. }
  assert (2 ^ 31 <= c' < 2 ^ 32) as Hc'.
  { pose proof (lor_bound 32 c 0x80000000 ltac:(lia) Hc ltac:(lia)) as Hb.
    pose proof (Z.lor_nonneg c 0x80000000). unfold c'. split; [|lia].
    apply Z.lt_succ_r, Z.lt_nge. intros Hlt.
    assert (Z.testbit (c .| 0x80000000) 31 = true) as Ht.
    { rewrite Z.lor_spec. apply orb_true_r. }
    rewrite (testbit_high 31) in Ht; [done | lia | lia]. }
  assert (2 ^ 7 <= u8 m') as Hlow.
  { apply Z.lt_succ_r, Z.lt_nge. intros Hlt. pose proof (u8_range m').
    assert (Z.testbit (u8 m') 7 = true) as Ht.
    { unfold u8. rewrite Z.testbit_mod_pow2 by lia. unfold m'. rewrite Z.lor_spec.
      apply orb_true_r. }
    unfold is_u8 in *. rewrite (testbit_high 7) in Ht; [done | lia | lia]. }
  split_and!; [unfold is_u32; lia | unfold is_u32; lia | lia | |].
  - unfold le_get. rewrite be_put4. cbn [rev app].
    rewrite be_get_4 by (repeat constructor; apply u8_range).
    pose proof (u8_range (m' >> 8)). pose proof (u8_range (m' >> 16)).
    pose proof (u8_range (m' >> 24)). unfold is_u8 in *. lia.
  - rewrite le_get_put. change (8 * Z.of_nat 4) with 32. rewrite Z.mod_small; lia.
Qed.

Lemma wire_tags_apart fuel rdv n :
  0 <= n -> n + Z.of_nat fuel = 9 -> (0 < fuel)%nat ->
  tags_apart (wire_tags fuel rdv n).1 (wire_tags fuel rdv n).2.
Proof.
  revert n. induction fuel as [|fuel IH]; intros n Hn Hf Hp; [lia|]. cbn [wire_tags].
  set (tags := cc_blake2b_keyed 32 rdv (wire_info n)).
  pose proof (digest_word rdv (wire_info n) 0 ltac:(lia)) as Hm.
  pose proof (digest_word rdv (wire_info n) 4 ltac:(lia)) as Hc. fold tags in Hm, Hc.
  destruct (negb _ && _ && _) eqn:E.
  - rewrite !andb_true_iff, !negb_true_iff in E. destruct E as [[E1 E2] E3].
    apply Z.eqb_neq in E1. apply wg_msg_type_false in E2, E3. rewrite bswap32_le in E2 by done.
    cbn [fst snd]. split_and!; try done. rewrite le_get_put. change (8 * Z.of_nat 4) with 32.
    by rewrite Z.mod_small.
  - destruct (Z.eqb_spec n 8); [by apply forced_apart|]. apply IH; lia.
Qed.

Lemma mcast_port_range a b :
  is_u8 a -> is_u8 b -> 32768 <= u16 (32768 + (((a << 8) .| b) .& 0x3fff)) <= 49151.
Proof.
  intros Ha Hb. change 0x3fff with (Z.ones 14). rewrite Z.land_ones by lia.
  pose proof (Z.mod_pos_bound ((a << 8) .| b) (2 ^ 14) ltac:(lia)).
  rewrite u16_id; [lia | unfold is_u16; lia].
Qed.

Lemma nth_digest_ok n key msg i : is_u8 (nth i (cc_blake2b_keyed n key msg) 0).
Proof.
  pose proof (blake2b_ok n key msg) as H. revert i.
  induction H as [|x l Hx Hl IH]; intros [|i]; done || apply IH.
Qed.

(** Whatever the kernel hands out in pieces fills the buffer exactly. *)
Lemma random_bytes_fill sys len r :
  random_bytes len sys = Some r -> (length r = len)%nat.
Proof.
  revert len r. induction sys as [|[l| |] sys IH]; intros [|len] r H; cbn in H;
    simplify_eq; try done.
  - destruct (random_bytes _ sys) as [rest|] eqn:E; [|done]. simplify_eq.
    apply IH in E. rewrite length_app, E. change (firstn (S len) l) with (take (S len) l).
    rewrite length_take. lia.
  - by apply IH.
Qed.

End Keys.

(** ** Properties *)

(** The two tags a session's datagrams open with always differ, and
    neither reads as a WireGuard message type in the byte order it goes out
    in (the probe tag big-endian, the conversation id little-endian), whatever
    the hash yields, the forced ninth round included; the multicast port is
    between 32768 and 49151. *)
Theorem keys_derive_tags {C : Crypto} {L : CryptoLaws C} rdv k :
  keys_derive rdv = Some k ->
  tags_apart (probe_magic k) (conv k) /\ 32768 <= mcast_port k <= 49151.
Proof.
  unfold keys_derive. pose proof (wire_tags_apart 9 rdv 0) as Ht.
  destruct (wire_tags 9 rdv 0) as [magic cv]. cbn [fst snd] in Ht.
  destruct (cc_ed25519_key_pair _) as [[sk pk]|]; [|done]. intros [= <-]. cbn.
  split; [apply Ht; lia | apply mcast_port_range; apply nth_digest_ok].
Qed.

Lemma keys_derive_tags_witness :
  match @keys_derive toy_crypto (replicate 16 7) with
  | Some k => tags_apart (probe_magic k) (conv k)
  | None => False
  end.
Proof.
  destruct (@keys_derive toy_crypto (replicate 16 7)) as [k|] eqn:E.
  - exact (proj1 (@keys_derive_tags toy_crypto toy_crypto_laws (replicate 16 7) k E)).
  - vm_compute in E. discriminate E.
Defined.

(** A sealed message opens to its plaintext under the same key and header,
    and nothing else opens: whatever [msg_open_ad] accepts is, byte for byte,
    what sealing that plaintext with that key and that header produces under
    the nonce the message carries. *)
Theorem msg_seal_open_exact {C : Crypto} {L : CryptoLaws C} n key ad s plain :
  (length plain <= n)%nat ->
  msg_open_ad n key ad s = Some plain <->
  exists nonce, length nonce = 24%nat /\ msg_seal_ad (length s) (Some nonce) key ad plain = Some s.
Proof.
  intros Hn. split.
  - intros H. destruct (msg_open_ad_inv _ _ _ _ _ H) as (H1 & _ & H2). eauto.
  - intros (nonce & Hl & H). by eapply msg_open_seal_ad.
Qed.

Lemma msg_seal_open_exact_witness :
  exists s, @msg_seal_ad toy_crypto 43 (Some (replicate 24 1)) [5; 6] [1] [7; 8; 9] = Some s /\
    @msg_open_ad toy_crypto 3 [5; 6] [1] s = Some [7; 8; 9].
Proof.
  eexists. split; [reflexivity|].
  apply (@msg_seal_open_exact toy_crypto toy_crypto_laws); [cbn; lia|].
  exists (replicate 24 1). split; reflexivity.
Defined.

(** A box sealed to a public key opens to its plaintext with the secret
    half of that key, whatever ephemeral secret was drawn. *)
Theorem box_roundtrip {C : Crypto} {L : CryptoLaws C} n1 n2 esk sk pk plain s :
  cc_x25519_public sk = Some pk ->
  box_seal n1 (Some esk) pk plain = Some s -> (length plain <= n2)%nat ->
  length s = (length plain + BOX_OVERHEAD)%nat /\ box_open n2 sk s = Some plain.
Proof.
  intros Hpk H Hl. unfold box_seal in H. destruct (_ <? _)%nat; [done|].
  destruct (cc_x25519_public esk) as [epk|] eqn:Ee; [|done].
  destruct (cc_x25519 esk pk) as [sh|] eqn:Es; [|done].
  destruct (cc_aead_lock _ _ _ plain) as [[ct mac]|] eqn:Ea; [|done]. simplify_eq.
  destruct (aead_lock_length _ _ _ _ _ _ Ea) as [Hc Hm].
  pose proof (x25519_public_length _ _ Ee) as H32.
  destruct (sealed_parts epk mac ct 32 16 H32 Hm) as (P1 & P2 & P3).
  unfold box_open, slice, BOX_OVERHEAD. rewrite P1, P2.
  change 48%nat with (32 + 16)%nat. rewrite P3, !length_app, H32, Hm, Hc. split; [lia|].
  destruct (Nat.ltb_spec (32 + (16 + length plain)) (32 + 16)); [lia|].
  destruct (Nat.ltb_spec n2 (32 + (16 + length plain) - (32 + 16))); [lia|].
  rewrite Hpk, (x25519_agree sk esk pk epk), Es by done. by apply aead_unlock_iff.
Qed.

Lemma box_roundtrip_witness :
  exists s, @box_seal toy_crypto 100 (Some [1; 2]) (toy_public [3; 4]) [7; 8] = Some s /\
    @box_open toy_crypto 2 [3; 4] s = Some [7; 8].
Proof.
  eexists. split; [reflexivity|].
  refine (proj2 (@box_roundtrip toy_crypto toy_crypto_laws 100 2 [1; 2] [3; 4]
                   (toy_public [3; 4]) [7; 8] _ _ _ _)); [reflexivity | reflexivity | cbn; lia].
Defined.
