(* ===== verification/DataAuth.v ===== *)
(** src/src/dataauth.c: the counter and tag on every stream datagram. *)
From S2P Require Import Prelude Crypto.

Definition DATAAUTH_CTR_LEN : nat := 8.
Definition DATAAUTH_TAG_LEN : nat := 16.
Definition DATAAUTH_OVERHEAD : nat := 24.

Definition put_u64 (v : Z) : bytes := be_put 8 v.
Definition get_u64 (p : bytes) : Z := be_get (take 8 p).

(** The accumulator of the comparison loop, over both tags at once. *)
Definition tag_diff (a b : bytes) : Z :=
  fold_left (fun d '(x, y) => u8 (d .| Z.lxor x y))
    (zip (take DATAAUTH_TAG_LEN a) (take DATAAUTH_TAG_LEN b)) 0.

Definition tag_eq (a b : bytes) : bool := tag_diff a b =? 0.

Section DataAuth.
Context {C : Crypto}.

Definition tag_of (key body : bytes) : bytes :=
  take DATAAUTH_TAG_LEN (cc_blake2b_keyed 32 key body).

(** [None] is the return of 0. *)
Definition dataauth_wrap (out_max : nat) (key data : bytes) (seq : Z) : option bytes :=
  if (out_max <? length data + DATAAUTH_OVERHEAD)%nat then None
  else let body := data ++ put_u64 seq in Some (body ++ tag_of key body).

(** The body and the counter; [None] is the return of -1. *)
Definition dataauth_open (key input : bytes) : option (bytes * Z) :=
  if (length input <? DATAAUTH_OVERHEAD)%nat then None
  else
    let n := (length input - DATAAUTH_TAG_LEN)%nat in
    if negb (tag_eq (tag_of key (take n input)) (drop n input)) then None
    else Some (take (n - DATAAUTH_CTR_LEN) input, get_u64 (drop (n - DATAAUTH_CTR_LEN) input)).

(** ** Lemmas *)
Context {L : CryptoLaws C}.

Lemma tag_of_length key body : length (tag_of key body) = DATAAUTH_TAG_LEN.
Proof. unfold tag_of. rewrite length_take, blake2b_length. done. Qed.
End DataAuth.

Lemma u8_lor_0 d x y :
  is_u8 d -> is_u8 x -> is_u8 y -> u8 (d .| Z.lxor x y) = 0 <-> d = 0 /\ x = y.
Proof.
  intros Hd Hx Hy. assert (is_u8 (Z.lxor x y)) as Hxy.
  { split; [apply Z.lxor_nonneg; unfold is_u8 in *; lia|].
    destruct (Z.eq_dec (Z.lxor x y) 0) as [->|]; [lia|].
    assert (0 <= Z.lxor x y) by (apply Z.lxor_nonneg; unfold is_u8 in *; lia).
    apply Z.log2_lt_pow2; [lia|]. eapply Z.le_lt_trans; [apply Z.log2_lxor; unfold is_u8 in *; lia|].
    assert (forall z, is_u8 z -> Z.log2 z < 8) as Hlog.
    { intros z Hz. unfold is_u8 in Hz. destruct (Z.eq_dec z 0) as [->|]; [done|].
      apply Z.log2_lt_pow2; lia. }
    pose proof (Hlog x Hx). pose proof (Hlog y Hy). lia. }
  rewrite u8_id by (apply lor_bound; [lia | done | done]).
  rewrite Z.lor_eq_0_iff, Z.lxor_eq_0_iff. done.
Qed.

Lemma fold_diff_0 l d :
  is_u8 d -> Forall (fun xy : Z * Z => is_u8 xy.1 /\ is_u8 xy.2) l ->
  fold_left (fun d '(x, y) => u8 (d .| Z.lxor x y)) l d = 0 <->
  d = 0 /\ Forall (fun xy : Z * Z => xy.1 = xy.2) l.
Proof.
  intros Hd Hl. revert d Hd. induction Hl as [|[x y] l [Hx Hy] Hl IH]; intros d Hd.
  - cbn. split; [by intros -> | by intros [-> _]].
  - cbn [fst snd] in *. rewrite fold_left_cons, IH by apply u8_range.
    rewrite u8_lor_0 by done. rewrite Forall_cons. cbn [fst snd]. tauto.
Qed.

(** Constant-time equality is equality. *)
Lemma tag_eq_iff a b :
  bytes_ok a -> bytes_ok b -> length a = DATAAUTH_TAG_LEN -> length b = DATAAUTH_TAG_LEN ->
  tag_eq a b = true <-> a = b.
Proof.
  intros Ha Hb La Lb. unfold tag_eq, tag_diff. rewrite !take_ge by lia.
  rewrite Z.eqb_eq, fold_diff_0; [|done|].
  - revert b Lb Hb. rewrite <- La. clear La. induction a as [|x a IH]; intros [|y b] Lb Hb; try done.
    apply Forall_cons in Ha as [Hx Ha], Hb as [Hy Hb]. cbn [zip_with]. rewrite Forall_cons.
    cbn [fst snd length] in *. specialize (IH Ha b ltac:(lia) Hb). split.
    + intros (_ & -> & H). f_equal. by apply IH.
    + intros [= -> ->]. split_and!; [done | done |]. by apply IH.
  - revert b Lb Hb. rewrite <- La. clear La. induction a as [|x a IH]; intros [|y b] Lb Hb; try done.
    apply Forall_cons in Ha as [Hx Ha], Hb as [Hy Hb]. cbn [zip_with length] in *.
    constructor; [done|]. apply IH; [done | lia | done].
Qed.

(** ** Properties *)

(** A datagram is accepted exactly when it is, byte for byte, what wrapping
    its body under this key and the counter it carries produces: every genuine
    datagram is recovered with its counter, and a change to any byte of the
    body, the counter or the tag that is not itself a valid tag is refused. *)
Theorem dataauth_exact {C : Crypto} {L : CryptoLaws C} key input body seq :
  bytes_ok input ->
  dataauth_open key input = Some (body, seq) <->
  is_u64 seq /\ dataauth_wrap (length input) key body seq = Some input.
Proof.
  intros Hok. unfold dataauth_open, dataauth_wrap, DATAAUTH_OVERHEAD, DATAAUTH_TAG_LEN,
    DATAAUTH_CTR_LEN, put_u64, get_u64. split.
  - destruct (Nat.ltb_spec (length input) 24); [done|].
    destruct (tag_eq _ _) eqn:E; [|done]. cbn [negb].
    apply tag_eq_iff in E; [|apply Forall_take, blake2b_ok|by apply Forall_drop|apply tag_of_length
      |unfold DATAAUTH_TAG_LEN; rewrite length_drop; lia].
    set (n := (length input - 16)%nat) in *. intros H'. simplify_eq.
    set (ctr := take 8 (drop (n - 8) input)).
    assert (length ctr = 8%nat) as Hc by (unfold ctr; rewrite length_take, length_drop; lia).
    assert (bytes_ok ctr) as Hcok by (by apply Forall_take, Forall_drop).
    pose proof (be_get_range ctr Hcok) as Hr. rewrite Hc in Hr. split; [exact Hr|].
    rewrite length_take.
    destruct (Nat.ltb_spec (length input) ((n - 8) `min` length input + 24)); [lia|].
    assert (be_put 8 (be_get ctr) = ctr) as -> by (rewrite <- Hc at 1; by apply be_put_get).
    f_equal.
    assert (take (n - 8) input ++ ctr = take n input) as ->.
    { unfold ctr. rewrite <- (take_drop (n - 8) (take n input)), take_take, skipn_firstn_comm.
      f_equal; [f_equal; lia|]. f_equal. lia. }
    rewrite E. apply take_drop.
  - intros [Hs H]. destruct (Nat.ltb_spec (length input) (length body + 24)); [done|].
    simplify_eq. set (b := body ++ be_put 8 seq) in *.
    assert (length b = length body + 8)%nat as Hb by (unfold b; by rewrite length_app, be_put_length).
    pose proof (tag_of_length key b) as Ht. unfold DATAAUTH_TAG_LEN in Ht.
    rewrite length_app, Ht, Hb. destruct (Nat.ltb_spec (length body + 8 + 16) 24); [lia|].
    replace (length body + 8 + 16 - 16)%nat with (length b) by lia.
    rewrite take_app_length, drop_app_length.
    assert (bytes_ok (tag_of key b)) as Htok by apply Forall_take, blake2b_ok.
    rewrite (proj2 (tag_eq_iff _ _ Htok Htok Ht Ht) eq_refl). cbn [negb].
    replace (length b - 8)%nat with (length body) by lia.
    assert (b ++ tag_of key b = body ++ be_put 8 seq ++ tag_of key b) as ->
      by (unfold b at 1; by rewrite <- app_assoc).
    rewrite take_app_length, drop_app_length.
    rewrite take_app_length' by (by rewrite be_put_length).
    rewrite be_get_put. change (8 * Z.of_nat 8) with 64. by rewrite Z.mod_small.
Qed.

Lemma dataauth_exact_witness :
  exists d, @dataauth_wrap toy_crypto 27 [9] [1; 2; 3] 5 = Some d /\
    @dataauth_open toy_crypto [9] d = Some ([1; 2; 3], 5).
Proof.
  eexists. split; [reflexivity|].
  apply (@dataauth_exact toy_crypto toy_crypto_laws).
  - forall_list; split; apply Z.leb_le || apply Z.ltb_lt; reflexivity.
  - split; [done | reflexivity].
Defined.
