(* ===== verification/PathEp.v ===== *)
(** src/src/path.c, first part: canonical endpoints, the probe frame and the
    path identifier. *)
From S2P Require Import Prelude Net Crypto Keys.

Definition PATH_ID_LEN : nat := 8.
Definition PATH_EP_LEN : nat := 18.
Definition PATH_LABEL_MAX : nat := 80.
Definition PROBE_PING : Z := 1.
Definition PROBE_PONG : Z := 2.
Definition PROBE_FRESH : Z := 3.
Definition PROBE_UFRAG_MAX : nat := 40.
Definition PROBE_TAIL_LEN : nat := 24.
Definition PROBE_HEAD_FIXED : nat := 18.
Definition PROBE_PLAIN_MAX : nat := PROBE_HEAD_FIXED + PROBE_UFRAG_MAX + PROBE_TAIL_LEN.
Definition PROBE_MAX : nat := 4 + PROBE_PLAIN_MAX + SEAL_OVERHEAD.

(** ** Endpoints *)
Record path_ep := mk_ep { ep_addr : bytes; ep_port : Z }.

#[export] Instance path_ep_eq_dec : EqDecision path_ep.
Proof. solve_decision. Defined.

Definition ep_zero : path_ep := mk_ep (replicate 16 0) 0.

Definition v4_prefix : bytes := [0; 0; 0; 0; 0; 0; 0; 0; 0; 0; 255; 255].

Definition path_ep_is_v4 (ep : path_ep) : bool := bytes_eqb (take 12 (ep_addr ep)) v4_prefix.

Definition path_ep_is_unicast (ep : path_ep) : bool :=
  let a := ep_addr ep in
  if path_ep_is_v4 ep then
    let q i := nth (12 + i) a 0 in
    if 224 <=? q 0%nat then false
    else if (q 0%nat =? 255) && (q 1%nat =? 255) && (q 2%nat =? 255) && (q 3%nat =? 255)
    then false
    else if q 0%nat =? 0 then false
    else true
  else if nth 0 a 0 =? 255 then false
  else negb (bytes_eqb a (replicate 16 0)).

Definition path_ep_any (ep : path_ep) : bool :=
  (ep_port ep =? 0) && bytes_eqb (ep_addr ep) (replicate 16 0).

Definition path_ep_eq (a b : path_ep) : bool :=
  (ep_port a =? ep_port b) && bytes_eqb (ep_addr a) (ep_addr b).

Definition path_ep_same_addr (a b : path_ep) : bool := bytes_eqb (ep_addr a) (ep_addr b).

(** [None] is the return of -1. *)
Definition path_ep_from_sockaddr (sa : sockaddr) (len : Z) : option path_ep :=
  match sa with
  | AF_INET6 port addr _ =>
      if len <? sizeof_sockaddr_in6 then None else Some (mk_ep addr port)
  | AF_INET port addr =>
      if len <? sizeof_sockaddr_in then None else Some (mk_ep (v4_prefix ++ addr) port)
  | AF_OTHER => None
  end.

Definition path_ep_to_sockaddr (ep : path_ep) : sockaddr :=
  AF_INET6 (ep_port ep) (ep_addr ep) 0.

Definition path_ep_pack (ep : path_ep) : bytes :=
  ep_addr ep ++ [u8 (ep_port ep >> 8); u8 (ep_port ep)].

Definition path_ep_unpack (b : bytes) : path_ep :=
  mk_ep (take 16 b) (u16 ((nth 16 b 0 << 8) .| nth 17 b 0)).

(** [snprintf] into [n] bytes; [inet_ntop] does not fail on a 64-byte buffer. *)
Definition path_ep_str (ep : path_ep) (n : nat) : bytes :=
  if path_ep_is_v4 ep
  then snprintf n (inet_ntop4 (drop 12 (ep_addr ep)) ++ 58 :: fmt_u (ep_port ep))
  else snprintf n (91 :: inet_ntop6 (ep_addr ep) ++ 93 :: 58 :: fmt_u (ep_port ep)).

(** ** The probe frame *)
Definition path_put32 (v : Z) : bytes := be_put 4 v.
Definition path_get32 (p : bytes) : Z := be_get (take 4 p).

Definition clamp16 (v : Z) : Z :=
  let v := if v <? 0 then 0 else v in if 0xffff <? v then 0xffff else v.
Definition path_put16 (v : Z) : bytes := let v := clamp16 v in [u8 (v >> 8); u8 v].

Record path_probe := mk_probe {
  pr_type : Z;
  pr_nonce : Z;
  pr_seq : Z;
  pr_ufrag : bytes;          (* a C string *)
  pr_have_tail : bool;
  pr_echo : path_ep;
  pr_srtt_ms : Z;
  pr_loss_ppt : Z;
  pr_base_srtt_ms : Z
}.

Definition path_probe_is (magic : Z) (data : bytes) : bool :=
  (4 <=? length data)%nat && (path_get32 data =? magic).

(** A char array read as a string: up to its first NUL. *)
Fixpoint strz (l : bytes) : bytes :=
  match l with
  | [] => []
  | c :: l' => if c =? 0 then [] else c :: strz l'
  end.

(** [plain[0 .. pl)]. *)
Definition probe_plain (pr : path_probe) : bytes :=
  u8 (pr_type pr) :: be_put 8 (pr_nonce pr) ++ be_put 8 (pr_seq pr) ++
  u8 (Z.of_nat (length (pr_ufrag pr))) :: pr_ufrag pr ++
  (if pr_have_tail pr
   then path_ep_pack (pr_echo pr) ++ path_put16 (pr_srtt_ms pr) ++
        path_put16 (pr_loss_ppt pr) ++ path_put16 (pr_base_srtt_ms pr)
   else []).

(** What [path_probe_parse] reads of an opened plaintext. *)
Definition probe_read (plain : bytes) : option path_probe :=
  if (length plain <? PROBE_HEAD_FIXED)%nat then None
  else
    let ul := Z.to_nat (nth 17 plain 0) in
    if (PROBE_UFRAG_MAX <? ul)%nat || (length plain <? PROBE_HEAD_FIXED + ul)%nat then None
    else
      let t := drop (PROBE_HEAD_FIXED + ul) plain in
      let tail := (PROBE_HEAD_FIXED + ul + PROBE_TAIL_LEN <=? length plain)%nat in
      Some {|
        pr_type := nth 0 plain 0;
        pr_nonce := be_get (slice 1 8 plain);
        pr_seq := be_get (slice 9 8 plain);
        pr_ufrag := strz (slice PROBE_HEAD_FIXED ul plain);
        pr_have_tail := tail;
        pr_echo := if tail then path_ep_unpack t else ep_zero;
        pr_srtt_ms := if tail then (nth 18 t 0 << 8) .| nth 19 t 0 else 0;
        pr_loss_ppt := if tail then (nth 20 t 0 << 8) .| nth 21 t 0 else 0;
        pr_base_srtt_ms := if tail then (nth 22 t 0 << 8) .| nth 23 t 0 else 0
      |}.

Section Probe.
Context {C : Crypto}.

(** [None] is the return of 0; [rnd] is the nonce [msg_seal] draws. *)
Definition path_probe_build (out_len : nat) (rnd : option bytes) (magic : Z) (key : bytes)
  (pr : path_probe) : option bytes :=
  if (PROBE_UFRAG_MAX <? length (pr_ufrag pr))%nat || (out_len <? PROBE_MAX)%nat then None
  else match msg_seal (out_len - 4) rnd key (probe_plain pr) with
       | None => None
       | Some s => Some (path_put32 magic ++ s)
       end.

(** [None] is the return of -1. *)
Definition path_probe_parse (magic : Z) (key data : bytes) : option path_probe :=
  if negb (path_probe_is magic data) then None
  else match msg_open (PROBE_PLAIN_MAX + 1) key (drop 4 data) with
       | None => None
       | Some plain => probe_read plain
       end.

Definition path_id_calc (key : bytes) (a b : path_ep) : bytes :=
  let ea := path_ep_pack a in
  let eb := path_ep_pack b in
  let msg := if memcmp ea eb <=? 0 then ea ++ eb else eb ++ ea in
  take PATH_ID_LEN (cc_blake2b_keyed 32 key msg).
End Probe.

(** ** Lemmas *)
Definition ep_ok (ep : path_ep) : Prop :=
  length (ep_addr ep) = 16%nat /\ bytes_ok (ep_addr ep) /\ is_u16 (ep_port ep).

Definition probe_ok (pr : path_probe) : Prop :=
  is_u8 (pr_type pr) /\ is_u64 (pr_nonce pr) /\ is_u64 (pr_seq pr) /\
  cstr_ok (pr_ufrag pr) /\ (length (pr_ufrag pr) <= PROBE_UFRAG_MAX)%nat /\ ep_ok (pr_echo pr).

(** What the far end is told: figures saturate at 16 bits, and without a tail
    nothing is said. *)
Definition probe_heard (pr : path_probe) : path_probe :=
  let tail := pr_have_tail pr in
  {| pr_type := pr_type pr; pr_nonce := pr_nonce pr; pr_seq := pr_seq pr;
     pr_ufrag := pr_ufrag pr; pr_have_tail := tail;
     pr_echo := if tail then pr_echo pr else ep_zero;
     pr_srtt_ms := if tail then clamp16 (pr_srtt_ms pr) else 0;
     pr_loss_ppt := if tail then clamp16 (pr_loss_ppt pr) else 0;
     pr_base_srtt_ms := if tail then clamp16 (pr_base_srtt_ms pr) else 0 |}.

Lemma path_ep_eq_iff a b : path_ep_eq a b = true <-> a = b.
Proof.
  unfold path_ep_eq, bytes_eqb. rewrite andb_true_iff, Z.eqb_eq, bool_decide_eq_true.
  destruct a, b; cbn. split; [intros [-> ->]; done | intros [= -> ->]; done].
Qed.

Lemma path_ep_any_iff ep : path_ep_any ep = true <-> ep = ep_zero.
Proof.
  unfold path_ep_any, bytes_eqb. rewrite andb_true_iff, Z.eqb_eq, bool_decide_eq_true.
  destruct ep; cbn. unfold ep_zero. split; [intros [-> ->]; done | intros [= -> ->]; done].
Qed.

Lemma clamp16_range v : is_u16 (clamp16 v).
Proof. unfold clamp16, is_u16. bool_cases; lia. Qed.

Lemma u16_split v : is_u16 v -> (u8 (v >> 8) << 8) .| u8 v = v.
Proof.
  intros Hv. rewrite lor_shiftl_add by (lia || apply u8_range).
  rewrite shiftr_div by lia. unfold_words.
  pose proof (Z.div_mod v (2 ^ 8)). pose proof (Z.mod_pos_bound v (2 ^ 8)).
  rewrite (Z.mod_small (v / 2 ^ 8)) by lia. lia.
Qed.

Lemma path_ep_pack_length ep : ep_ok ep -> length (path_ep_pack ep) = PATH_EP_LEN.
Proof. intros (H & _). unfold path_ep_pack. by rewrite length_app, H. Qed.

Lemma path_ep_unpack_pack ep r : ep_ok ep -> path_ep_unpack (path_ep_pack ep ++ r) = ep.
Proof.
  intros (Hl & _ & Hp). unfold path_ep_unpack, path_ep_pack. rewrite <- app_assoc.
  rewrite take_app_length' by done.
  rewrite (nth_app_at 16 0), (nth_app_at 16 1) by done. cbn [nth app].
  rewrite u16_split, u16_id by done. by destruct ep.
Qed.

Lemma strz_cstr l : cstr_ok l -> strz l = l.
Proof.
  induction 1 as [|c l Hc Hl IH]; [done|]. cbn. destruct (Z.eqb_spec c 0); [lia|]. by rewrite IH.
Qed.

Lemma be_put8_get v : is_u64 v -> be_get (be_put 8 v) = v.
Proof. intros Hv. rewrite be_get_put. by apply Z.mod_small. Qed.

Lemma probe_read_plain pr : probe_ok pr -> probe_read (probe_plain pr) = Some (probe_heard pr).
Proof.
  intros (Ht & Hn & Hs & Hu & Hul & He). unfold probe_read.
  set (N := be_put 8 (pr_nonce pr)). set (Q := be_put 8 (pr_seq pr)).
  set (U := pr_ufrag pr) in *.
  set (T := if pr_have_tail pr
   then path_ep_pack (pr_echo pr) ++ path_put16 (pr_srtt_ms pr) ++
        path_put16 (pr_loss_ppt pr) ++ path_put16 (pr_base_srtt_ms pr)
   else []).
  assert (probe_plain pr =
    (u8 (pr_type pr) :: N ++ Q ++ [u8 (Z.of_nat (length U))]) ++ U ++ T) as ->.
  { unfold probe_plain. fold N Q U T. cbn [app]. by rewrite <- !app_assoc. }
  set (H := u8 (pr_type pr) :: N ++ Q ++ [u8 (Z.of_nat (length U))]).
  assert (length N = 8%nat) as LN by apply be_put_length.
  assert (length Q = 8%nat) as LS by apply be_put_length.
  assert (length H = 18%nat) as LH.
  { unfold H. cbn [length]. rewrite !length_app, LN, LS. done. }
  assert (length T = if pr_have_tail pr then 24%nat else 0%nat) as LT.
  { unfold T. destruct (pr_have_tail pr); [|done].
    rewrite length_app, path_ep_pack_length by done. done. }
  assert (nth 17 (H ++ U ++ T) 0 = Z.of_nat (length U)) as ->.
  { unfold H. cbn [app nth]. rewrite <- !app_assoc.
    rewrite (nth_app_at 8 8), (nth_app_at 8 0) by done. cbn [nth app].
    apply u8_id. unfold PROBE_UFRAG_MAX in Hul. unfold_words. lia. }
  assert (slice 1 8 (H ++ U ++ T) = N) as ->.
  { unfold slice, H. cbn [app drop]. rewrite drop_0, <- !app_assoc.
    by rewrite take_app_length' by done. }
  assert (slice 9 8 (H ++ U ++ T) = Q) as ->.
  { unfold slice, H. cbn [app drop]. rewrite <- !app_assoc, drop_app_length' by done.
    by rewrite take_app_length' by done. }
  rewrite Nat2Z.id. unfold slice, PROBE_HEAD_FIXED, PROBE_TAIL_LEN.
  rewrite !length_app, LH, LT, (drop_app_length' H) by done. rewrite take_app_length.
  rewrite <- drop_drop, (drop_app_length' H), drop_app_length by done.
  destruct (Nat.ltb_spec (18 + (length U + (if pr_have_tail pr then 24 else 0))) 18); [lia|].
  destruct (Nat.ltb_spec PROBE_UFRAG_MAX (length U)); [lia|].
  destruct (Nat.ltb_spec (18 + (length U + (if pr_have_tail pr then 24 else 0))) (18 + length U));
    [lia|]. cbn [orb].
  rewrite strz_cstr by done. unfold N, Q. rewrite !be_put8_get by done. unfold H. cbn [app nth]. rewrite (u8_id (pr_type pr)) by done.
  unfold probe_heard, T. fold U. destruct (pr_have_tail pr).
  - destruct (Nat.leb_spec (18 + length U + 24) (18 + (length U + 24))); [|lia].
    rewrite path_ep_unpack_pack by done.
    pose proof (path_ep_pack_length _ He) as LE. unfold PATH_EP_LEN in LE.
    rewrite (nth_app_at 18 0), (nth_app_at 18 1), (nth_app_at 18 2), (nth_app_at 18 3),
      (nth_app_at 18 4), (nth_app_at 18 5) by done.
    unfold path_put16. cbn [app nth]. rewrite !u16_split by apply clamp16_range. done.
  - destruct (Nat.leb_spec (18 + length U + 24) (18 + (length U + 0))); [lia|]. done.
Qed.

Lemma probe_plain_length pr :
  probe_ok pr -> (length (probe_plain pr) <= PROBE_PLAIN_MAX)%nat.
Proof.
  intros (_ & _ & _ & _ & Hul & He). unfold probe_plain. cbn [length].
  rewrite !length_app, !be_put_length. cbn [length]. rewrite length_app.
  assert (length (if pr_have_tail pr
   then path_ep_pack (pr_echo pr) ++ path_put16 (pr_srtt_ms pr) ++
        path_put16 (pr_loss_ppt pr) ++ path_put16 (pr_base_srtt_ms pr)
   else []) <= 24)%nat.
  { destruct (pr_have_tail pr); [|cbn; lia].
    rewrite length_app, path_ep_pack_length by done. cbn. lia. }
  unfold PROBE_PLAIN_MAX, PROBE_HEAD_FIXED, PROBE_UFRAG_MAX, PROBE_TAIL_LEN in *. lia.
Qed.

Section ProbeLemmas.
Context {C : Crypto} {L : CryptoLaws C}.

Lemma probe_is_put magic s : is_u32 magic -> path_probe_is magic (path_put32 magic ++ s) = true.
Proof.
  intros Hm. unfold path_probe_is, path_get32, path_put32. rewrite length_app, be_put_length.
  rewrite take_app_length' by (by rewrite be_put_length). rewrite be_get_put.
  change (8 * Z.of_nat 4) with 32. rewrite Z.mod_small, Z.eqb_refl by done. done.
Qed.

(** A probe built under a key is read back under it. *)
Lemma probe_parse_build out_len nonce magic key pr d :
  probe_ok pr -> is_u32 magic -> length nonce = 24%nat ->
  path_probe_build out_len (Some nonce) magic key pr = Some d ->
  path_probe_parse magic key d = Some (probe_heard pr).
Proof.
  intros Hpr Hm Hn H. unfold path_probe_build in H. destruct (_ || _); [done|].
  destruct (msg_seal _ _ _ _) as [s|] eqn:Es; [|done]. simplify_eq.
  unfold path_probe_parse. rewrite probe_is_put by done. cbn [negb].
  rewrite drop_app_length' by (unfold path_put32; by rewrite be_put_length). unfold msg_open.
  pose proof (probe_plain_length pr Hpr).
  rewrite (msg_open_seal_ad (out_len - 4) (PROBE_PLAIN_MAX + 1) nonce key [] (probe_plain pr) s);
    [by apply probe_read_plain | done | done | lia].
Qed.

Lemma path_id_sym key a b : path_id_calc key a b = path_id_calc key b a.
Proof.
  unfold path_id_calc. rewrite (memcmp_antisym (path_ep_pack a) (path_ep_pack b)).
  destruct (Z.leb_spec (memcmp (path_ep_pack a) (path_ep_pack b)) 0),
    (Z.leb_spec (- memcmp (path_ep_pack a) (path_ep_pack b)) 0); try done; try lia.
  assert (memcmp (path_ep_pack a) (path_ep_pack b) = 0) as E by lia.
  apply memcmp_eq in E. by rewrite E.
Qed.
End ProbeLemmas.

(** ** Properties *)

(** A probe is read back as it was written: type, nonce, sequence number,
    claimant, and the tail if there is one, its figures saturated at 16 bits;
    and an endpoint packed on the wire, or carried through a socket address,
    names the same endpoint. *)
Theorem probe_roundtrip {C : Crypto} {L : CryptoLaws C} out_len nonce magic key pr d :
  probe_ok pr -> is_u32 magic -> length nonce = 24%nat ->
  path_probe_build out_len (Some nonce) magic key pr = Some d ->
  path_probe_parse magic key d = Some (probe_heard pr) /\
  path_ep_unpack (path_ep_pack (pr_echo pr)) = pr_echo pr /\
  path_ep_from_sockaddr (path_ep_to_sockaddr (pr_echo pr)) sizeof_sockaddr_in6
    = Some (pr_echo pr).
Proof.
  intros Hpr Hm Hn H. split; [by eapply probe_parse_build|]. split.
  - rewrite <- (app_nil_r (path_ep_pack _)). apply path_ep_unpack_pack. apply Hpr.
  - cbn. by destruct (pr_echo pr).
Qed.

Definition sample_probe : path_probe :=
  mk_probe PROBE_PING 77 1 (cstr "abcd") true (mk_ep (v4_prefix ++ [192; 0; 2; 1]) 4242) 30 70000 12.

Lemma probe_roundtrip_witness :
  match @path_probe_build toy_crypto PROBE_MAX (Some (replicate 24 3)) 99 [1; 2] sample_probe with
  | Some d => @path_probe_parse toy_crypto 99 [1; 2] d = Some (probe_heard sample_probe)
  | None => False
  end.
Proof.
  destruct (@path_probe_build toy_crypto PROBE_MAX (Some (replicate 24 3)) 99 [1; 2] sample_probe)
    as [d|] eqn:E.
  - refine (proj1 (@probe_roundtrip toy_crypto toy_crypto_laws PROBE_MAX (replicate 24 3) 99
      [1; 2] sample_probe d _ _ _ E)); [|done|reflexivity].
    split_and!; try done.
    + unfold cstr_ok. forall_list; done.
    + cbn. unfold PROBE_UFRAG_MAX. lia.
    + split_and!; [done | cbn; forall_list; done | done].
  - vm_compute in E. discriminate E.
Defined.

(** Both ends derive the same identifier for a path from the endpoint pair,
    whichever of the two each calls its own. *)
Theorem path_id_order_free {C : Crypto} key a b :
  path_id_calc key a b = path_id_calc key b a.
Proof. apply path_id_sym. Qed.
