(* ===== verification/Path.v ===== *)
(** src/src/path.c, second part: one path, its measurements, its warmth and
    its rank.  C's [int] divisions truncate, hence [Z.quot]; times are 64-bit
    and their differences are written with their wrap-around. *)
From S2P Require Import Prelude Net Crypto Keys PathEp.

Inductive path_kind := PATH_SEGMENT | PATH_ROUTED | PATH_ICE.
#[export] Instance path_kind_eq_dec : EqDecision path_kind.
Proof. solve_decision. Defined.

(** The numeric order is the preference order. *)
Inductive path_warmth := PATH_WARM | PATH_COLD | PATH_UNQUALIFIED | PATH_DEAD.
#[export] Instance path_warmth_eq_dec : EqDecision path_warmth.
Proof. solve_decision. Defined.

Definition warmth_int (w : path_warmth) : Z :=
  match w with PATH_WARM => 0 | PATH_COLD => 1 | PATH_UNQUALIFIED => 2 | PATH_DEAD => 3 end.

Definition PROBE_EVERY_MS : Z := 200.
Definition PATH_KEEP_MS : Z := 1000.
Definition PATH_WARM_MS : Z := 3000.
Definition PATH_DEAD_MS : Z := 8000.
Definition PATH_LOSS_PENALTY_MS : Z := 200.
Definition PATH_PEER_SRTT_MAX : Z := 2000.
Definition PATH_PEER_SRTT_RATIO : Z := 4.
Definition PATH_COST_QUANTUM_MS : Z := 5.
Definition PATH_LOSS_WAIT_MS : Z := 1000.
Definition PATH_LOSS_WINDOW : Z := 16.

(** [agent] is the address of a borrowed [struct nat_agent], 0 for NULL. *)
Record path := mk_path {
  used : bool;
  usable : bool;
  kind : path_kind;
  remote : sockaddr;
  agent : Z;
  peer_ep : path_ep;
  self_ep : path_ep;
  have_self_ep : bool;
  in_src : path_ep;
  id : bytes;
  nonce : Z;
  sent_ms : Z;
  outstanding : bool;
  srtt8 : Z;
  peer_srtt_ms : Z;
  peer_loss_ppt : Z;
  peer_base_srtt_ms : Z;
  loss_reg : Z;
  loss_n : Z;
  rtt : list Z;
  rtt_n : Z;
  rtt_i : Z;
  last_pong_ms : Z;
  created_ms : Z;
  trying_since_ms : Z;
  next_probe_ms : Z;
  qualified : bool;
  warmth_noted : Z;
  label : bytes
}.

Definition path_eta (p : path) : path :=
  mk_path (used p) (usable p) (kind p) (remote p) (agent p) (peer_ep p) (self_ep p)
    (have_self_ep p) (in_src p) (id p) (nonce p) (sent_ms p) (outstanding p) (srtt8 p)
    (peer_srtt_ms p) (peer_loss_ppt p) (peer_base_srtt_ms p) (loss_reg p) (loss_n p) (rtt p)
    (rtt_n p) (rtt_i p) (last_pong_ms p) (created_ms p) (trying_since_ms p) (next_probe_ms p)
    (qualified p) (warmth_noted p) (label p).

#[export] Instance set_used : Setter used := ltac:(solve_setter path_eta).
#[export] Instance set_usable : Setter usable := ltac:(solve_setter path_eta).
#[export] Instance set_kind : Setter kind := ltac:(solve_setter path_eta).
#[export] Instance set_remote : Setter remote := ltac:(solve_setter path_eta).
#[export] Instance set_agent : Setter agent := ltac:(solve_setter path_eta).
#[export] Instance set_peer_ep : Setter peer_ep := ltac:(solve_setter path_eta).
#[export] Instance set_self_ep : Setter self_ep := ltac:(solve_setter path_eta).
#[export] Instance set_have_self_ep : Setter have_self_ep := ltac:(solve_setter path_eta).
#[export] Instance set_in_src : Setter in_src := ltac:(solve_setter path_eta).
#[export] Instance set_id : Setter id := ltac:(solve_setter path_eta).
#[export] Instance set_nonce : Setter nonce := ltac:(solve_setter path_eta).
#[export] Instance set_sent_ms : Setter sent_ms := ltac:(solve_setter path_eta).
#[export] Instance set_outstanding : Setter outstanding := ltac:(solve_setter path_eta).
#[export] Instance set_srtt8 : Setter srtt8 := ltac:(solve_setter path_eta).
#[export] Instance set_peer_srtt_ms : Setter peer_srtt_ms := ltac:(solve_setter path_eta).
#[export] Instance set_peer_loss_ppt : Setter peer_loss_ppt := ltac:(solve_setter path_eta).
#[export] Instance set_peer_base_srtt_ms : Setter peer_base_srtt_ms :=
  ltac:(solve_setter path_eta).
#[export] Instance set_loss_reg : Setter loss_reg := ltac:(solve_setter path_eta).
#[export] Instance set_loss_n : Setter loss_n := ltac:(solve_setter path_eta).
#[export] Instance set_rtt : Setter rtt := ltac:(solve_setter path_eta).
#[export] Instance set_rtt_n : Setter rtt_n := ltac:(solve_setter path_eta).
#[export] Instance set_rtt_i : Setter rtt_i := ltac:(solve_setter path_eta).
#[export] Instance set_last_pong_ms : Setter last_pong_ms := ltac:(solve_setter path_eta).
#[export] Instance set_created_ms : Setter created_ms := ltac:(solve_setter path_eta).
#[export] Instance set_trying_since_ms : Setter trying_since_ms := ltac:(solve_setter path_eta).
#[export] Instance set_next_probe_ms : Setter next_probe_ms := ltac:(solve_setter path_eta).
#[export] Instance set_qualified : Setter qualified := ltac:(solve_setter path_eta).
#[export] Instance set_warmth_noted : Setter warmth_noted := ltac:(solve_setter path_eta).
#[export] Instance set_label : Setter label := ltac:(solve_setter path_eta).

(** [memset(p, 0, sizeof( *p))]. *)
Definition path_zero : path :=
  mk_path false false PATH_SEGMENT AF_OTHER 0 ep_zero ep_zero false ep_zero (replicate 8 0)
    0 0 false 0 0 0 0 0 0 (replicate 16 0) 0 0 0 0 0 0 false 0 [].

(** ** Warmth and measurements *)
Definition path_warmth_of (p : path) (now : Z) : path_warmth :=
  if negb (qualified p) then
    if (trying_since_ms p <? now) && (PATH_DEAD_MS <? u64 (now - trying_since_ms p))
    then PATH_DEAD else PATH_UNQUALIFIED
  else
    let silent := if last_pong_ms p <? now then u64 (now - last_pong_ms p) else 0 in
    if PATH_DEAD_MS <? silent then PATH_DEAD
    else if PATH_WARM_MS <? silent then PATH_COLD
    else PATH_WARM.

Definition path_srtt_ms (p : path) : Z := Z.quot (srtt8 p) 8.

(** The loop over the outcome register. *)
Definition loss_count (reg : Z) (n : nat) : Z :=
  fold_left (fun lost i => if truth (reg .& u16 (1 << Z.of_nat i)) then lost + 1 else lost)
    (seq 0 n) 0.

Definition path_loss_ppt (p : path) : Z :=
  if loss_n p =? 0 then 0
  else Z.quot (loss_count (loss_reg p) (Z.to_nat (loss_n p)) * 1000) (loss_n p).

Definition loss_record (p : path) (lost : bool) : path :=
  let p := p <| loss_reg := u16 ((loss_reg p << 1) .| (if lost then 1 else 0)) |> in
  if loss_n p <? PATH_LOSS_WINDOW then p <| loss_n := loss_n p + 1 |> else p.

Definition rtt_record (p : path) (r : Z) : path :=
  let r := if r <? 0 then 0 else r in
  let r := if 0xffff <? r then 0xffff else r in
  let i := if truth (rtt_n p) then Z.rem (rtt_i p + 1) PATH_LOSS_WINDOW else 0 in
  let p := p <| rtt_i := i |> in
  let p := p <| rtt := <[Z.to_nat i := u16 r]> (rtt p) |> in
  if rtt_n p <? PATH_LOSS_WINDOW then p <| rtt_n := rtt_n p + 1 |> else p.

Definition loss_deadline (p : path) : Z :=
  let d := path_srtt_ms p * 3 in
  u64 (if PATH_LOSS_WAIT_MS <? d then d else PATH_LOSS_WAIT_MS).

Definition path_probe_due (p : path) (now : Z) : bool :=
  used p && negb (outstanding p) && (next_probe_ms p <=? now).

Definition path_probe_sent (p : path) (n now : Z) : path :=
  p <| nonce := n |> <| sent_ms := now |> <| outstanding := true |>
    <| next_probe_ms := u64 (now + (if qualified p then PATH_KEEP_MS else PROBE_EVERY_MS)) |>.

Definition path_probe_expire (p : path) (now : Z) : path :=
  if negb (outstanding p) || (now <=? sent_ms p) ||
     (u64 (now - sent_ms p) <=? loss_deadline p)
  then p
  else loss_record (p <| outstanding := false |>) true.

(** The new state and the return value. *)
Definition path_probe_pong (p : path) (n now : Z) : path * bool :=
  if negb (outstanding p) || negb (n =? nonce p) then (p, false)
  else
    let p := p <| outstanding := false |> in
    let r := if sent_ms p <? now then i32 (u64 (now - sent_ms p)) else 0 in
    let p := p <| srtt8 := if negb (qualified p) then i32 (r * 8)
                           else i32 (srtt8 p + (r - Z.quot (srtt8 p) 8)) |> in
    let p := rtt_record p r in
    let p := loss_record p false in
    let p := p <| last_pong_ms := now |> in
    if negb (qualified p)
    then (p <| qualified := true |> <| next_probe_ms := u64 (now + PATH_KEEP_MS) |>, true)
    else (p, true).

Definition path_peer_view (p : path) (srtt loss base : Z) : path :=
  let mine := path_srtt_ms p in
  let srtt := if srtt <? 0 then 0 else srtt in
  let loss := if loss <? 0 then 0 else loss in
  let loss := if 1000 <? loss then 1000 else loss in
  let base := if base <? 0 then 0 else base in
  let cap :=
    if qualified p && (0 <? mine) && (mine * PATH_PEER_SRTT_RATIO <? PATH_PEER_SRTT_MAX)
    then mine * PATH_PEER_SRTT_RATIO else PATH_PEER_SRTT_MAX in
  let srtt := if cap <? srtt then cap else srtt in
  let base := if cap <? base then cap else base in
  p <| peer_srtt_ms := srtt |> <| peer_loss_ppt := loss |> <| peer_base_srtt_ms := base |>.

(** ** Cost *)
Definition path_cost_of (srtt_a loss_a srtt_b loss_b : Z) : Z :=
  let srtt := if srtt_b <? srtt_a then srtt_a else srtt_b in
  let loss := if loss_b <? loss_a then loss_a else loss_b in
  srtt + Z.quot (PATH_LOSS_PENALTY_MS * loss) 1000.

Definition path_cost (p : path) : Z :=
  path_cost_of (path_srtt_ms p) (path_loss_ppt p) (peer_srtt_ms p) (peer_loss_ppt p).

Definition path_bucket_of (cost : Z) : Z := Z.quot cost PATH_COST_QUANTUM_MS.
Definition path_bucket (p : path) : Z := path_bucket_of (path_cost p).

(** The loop over [rtt[0 .. rtt_n)]. *)
Definition base_loop (l : list Z) : Z :=
  fold_left (fun base x => if (base <? 0) || (x <? base) then x else base) l (-1).

Definition path_base_srtt_ms (p : path) : Z :=
  let base := base_loop (take (Z.to_nat (rtt_n p)) (rtt p)) in
  if base <? 0 then 0 else base.

Definition path_base_cost_of (base_a base_b : Z) : Z := if base_b <? base_a then base_a else base_b.
Definition path_base_cost (p : path) : Z :=
  path_base_cost_of (path_base_srtt_ms p) (peer_base_srtt_ms p).
Definition path_base_bucket (p : path) : Z := path_bucket_of (path_base_cost p).

Definition path_cmp (a b : path) (now : Z) : Z :=
  let wa := warmth_int (path_warmth_of a now) in
  let wb := warmth_int (path_warmth_of b now) in
  if negb (wa =? wb) then if wa <? wb then -1 else 1
  else
    let ba := path_bucket a in
    let bb := path_bucket b in
    if negb (ba =? bb) then if ba <? bb then -1 else 1
    else memcmp (id a) (id b).

(** ** Endpoints of a path, and the tail of a probe *)
Section Ends.
Context {C : Crypto}.

Definition path_id_refresh (p : path) (key : bytes) : path :=
  p <| id := path_id_calc key (self_ep p) (peer_ep p) |>.

Definition path_set_self_ep (p : path) (ep : path_ep) (key : bytes) : path :=
  if path_ep_any ep || (have_self_ep p && path_ep_eq (self_ep p) ep) then p
  else path_id_refresh (p <| self_ep := ep |> <| have_self_ep := true |>) key.

Definition path_set_peer_ep (p : path) (ep : path_ep) (key : bytes) : path :=
  if path_ep_any ep || path_ep_eq (peer_ep p) ep then p
  else path_id_refresh
         (p <| peer_ep := ep |> <| label := path_ep_str ep PATH_LABEL_MAX |>) key.

Definition path_apply_tail (p : path) (pr : path_probe) (key : bytes) : path :=
  if negb (pr_have_tail pr) then p
  else path_peer_view (path_set_self_ep p (pr_echo pr) key)
         (pr_srtt_ms pr) (pr_loss_ppt pr) (pr_base_srtt_ms pr).
End Ends.

Definition path_saw_inbound (p : path) (src : path_ep) : path :=
  if negb (path_ep_any src) then p <| in_src := src |> else p.

Definition path_fill_tail (p : path) (pr : path_probe) : path_probe :=
  mk_probe (pr_type pr) (pr_nonce pr) (pr_seq pr) (pr_ufrag pr) true (in_src p)
    (path_srtt_ms p) (path_loss_ppt p) (path_base_srtt_ms p).

(** ** Creation and reset *)

(** The body of [path_table_add] on the slot it takes. *)
Definition path_new (k : path_kind) (rem : option sockaddr) (ag : Z) (ep : path_ep) (now : Z) :
  path :=
  let p := path_zero <| used := true |> <| usable := ag =? 0 |> <| kind := k |>
             <| agent := ag |> <| peer_ep := ep |> in
  let p := match rem with Some r => p <| remote := r |> | None => p end in
  let p := p <| created_ms := now |> <| trying_since_ms := now |> in
  if negb (path_ep_any ep) then p <| label := path_ep_str ep PATH_LABEL_MAX |> else p.

(** The body of the loop of [path_table_reset_stats]. *)
Definition path_reset (p : path) (now : Z) : path :=
  p <| nonce := 0 |> <| sent_ms := 0 |> <| outstanding := false |> <| srtt8 := 0 |>
    <| peer_srtt_ms := 0 |> <| peer_loss_ppt := 0 |> <| peer_base_srtt_ms := 0 |>
    <| loss_reg := 0 |> <| loss_n := 0 |> <| rtt_n := 0 |> <| rtt_i := 0 |>
    <| last_pong_ms := 0 |> <| next_probe_ms := 0 |> <| qualified := false |>
    <| warmth_noted := warmth_int PATH_WARM |> <| trying_since_ms := now |>.

(** ** One path over time

    Everything the connection does to a path it holds, with the history a
    reader of the measurements has in mind: the outcomes of its probes (true
    is a loss) and the round trips of those answered, newest first. *)
Inductive path_ev :=
| EvSent (n now : Z)
| EvExpire (now : Z)
| EvPong (n now : Z)
| EvTail (pr : path_probe)
| EvPeerEp (ep : path_ep)
| EvInbound (src : path_ep)
| EvReset (now : Z).

Record path_hist := mk_hist { h_path : path; h_outs : list bool; h_rtts : list Z }.

Definition path_ev_step {C : Crypto} (key : bytes) (h : path_hist) (e : path_ev) : path_hist :=
  let '(mk_hist p outs rtts) := h in
  match e with
  | EvSent n now => mk_hist (path_probe_sent p n now) outs rtts
  | EvExpire now =>
      let p' := path_probe_expire p now in
      mk_hist p' (if outstanding p && negb (outstanding p') then true :: outs else outs) rtts
  | EvPong n now =>
      let '(p', answered) := path_probe_pong p n now in
      if answered
      then mk_hist p' (false :: outs) (clamp16 (now - sent_ms p) :: rtts)
      else mk_hist p' outs rtts
  | EvTail pr => mk_hist (path_apply_tail p pr key) outs rtts
  | EvPeerEp ep => mk_hist (path_set_peer_ep p ep key) outs rtts
  | EvInbound src => mk_hist (path_saw_inbound p src) outs rtts
  | EvReset now => mk_hist (path_reset p now) [] []
  end.

(** ** Lemmas: the outcome window *)
Definition WINDOW : nat := 16.

Definition loss_repr (p : path) (outs : list bool) : Prop :=
  loss_n p = Z.of_nat (length (take WINDOW outs)) /\ is_u16 (loss_reg p) /\
  forall i, (i < WINDOW)%nat -> Z.testbit (loss_reg p) (Z.of_nat i) = nth i outs false.

Lemma loss_record_repr p outs b :
  loss_repr p outs -> loss_repr (loss_record p b) (b :: outs).
Proof.
  intros (Hn & Hu & Hb). unfold loss_repr, loss_record. cbn [set set_loss_reg loss_n].
  rewrite length_take in *. cbn [length]. unfold WINDOW, PATH_LOSS_WINDOW in *.
  assert (forall i, (i < 16)%nat ->
    Z.testbit (u16 ((loss_reg p << 1) .| (if b then 1 else 0))) (Z.of_nat i)
      = nth i (b :: outs) false) as Hbit.
  { intros i Hi. unfold u16. rewrite Z.testbit_mod_pow2, Z.lor_spec, Z.shiftl_spec by lia.
    destruct (Z.ltb_spec (Z.of_nat i) 16); [|lia]. destruct i as [|i].
    - rewrite Z.testbit_neg_r by lia. by destruct b.
    - cbn [nth]. rewrite <- Hb by lia. replace (Z.of_nat (S i) - 1) with (Z.of_nat i) by lia.
      destruct b; [|by rewrite Z.testbit_0_l, orb_false_r].
      rewrite (testbit_high 1 1) by lia. by rewrite orb_false_r. }
  destruct (Z.ltb_spec (loss_n p) 16); cbn [set set_loss_n set_loss_reg loss_n loss_reg];
    (split_and!; [lia | apply u16_range | exact Hbit]).
Qed.

Lemma loss_count_bits reg l :
  (length l <= 16)%nat ->
  (forall i, (i < length l)%nat -> Z.testbit reg (Z.of_nat i) = nth i l false) ->
  loss_count reg (length l) = Z.of_nat (length (filter Is_true l)).
Proof.
  intros Hl Hb. unfold loss_count. induction l as [|b l IH] using rev_ind; [done|].
  rewrite length_app in *. cbn [length] in *. rewrite Nat.add_1_r, seq_S, fold_left_app.
  rewrite IH by (try lia; intros i Hi; rewrite Hb, app_nth1 by lia; done).
  cbn [fold_left Nat.add]. rewrite filter_app, length_app.
  specialize (Hb (length l) ltac:(lia)). rewrite app_nth2, Nat.sub_diag in Hb by lia.
  cbn [nth] in Hb. assert (truth (reg .& u16 (1 << Z.of_nat (length l))) = b) as ->.
  { rewrite Z.shiftl_1_l, u16_id.
    - rewrite <- Hb. unfold truth. rewrite <- (Z.land_comm (2 ^ _)).
      destruct (Z.eqb_spec (2 ^ Z.of_nat (length l) .& reg) 0) as [E|E]; cbn.
      + apply (f_equal (fun z => Z.testbit z (Z.of_nat (length l)))) in E.
        rewrite Z.land_spec, Z.pow2_bits_true, Z.bits_0 in E by lia. done.
      + destruct (Z.testbit reg (Z.of_nat (length l))) eqn:Et; [done|]. exfalso. apply E.
        apply Z.bits_inj'. intros k Hk. rewrite Z.land_spec, Z.bits_0, Z.pow2_bits_eqb by lia.
        by destruct (Z.eqb_spec (Z.of_nat (length l)) k) as [<-|].
    - unfold is_u16. split; [lia|]. apply Z.pow_lt_mono_r; lia. }
  destruct b; [rewrite filter_cons_True by done | rewrite filter_cons_False by (cbn; tauto)];
    rewrite filter_nil; cbn [length]; lia.
Qed.

(** The loss ratio is that of the last sixteen outcomes. *)
Definition loss_ratio (outs : list bool) : Z :=
  let w := take WINDOW outs in
  if (length w =? 0)%nat then 0
  else Z.of_nat (length (filter Is_true w)) * 1000 / Z.of_nat (length w).

Lemma loss_ppt_repr p outs : loss_repr p outs -> path_loss_ppt p = loss_ratio outs.
Proof.
  intros (Hn & Hu & Hb). unfold path_loss_ppt, loss_ratio. rewrite Hn, Nat2Z.id.
  assert (length (take WINDOW outs) <= 16)%nat as Hw by (rewrite length_take; unfold WINDOW; lia).
  destruct (Nat.eqb_spec (length (take WINDOW outs)) 0) as [->|Hne]; [done|].
  destruct (Z.eqb_spec (Z.of_nat (length (take WINDOW outs))) 0); [lia|].
  rewrite loss_count_bits; [|done|].
  - apply Z.quot_div_nonneg; lia.
  - intros i Hi. rewrite Hb by (unfold WINDOW; lia). rewrite !nth_lookup, lookup_take_lt; [done|].
    rewrite length_take in Hi. lia.
Qed.

Lemma loss_ratio_range outs : 0 <= loss_ratio outs <= 1000.
Proof.
  unfold loss_ratio. destruct (Nat.eqb_spec (length (take WINDOW outs)) 0); [lia|].
  pose proof (length_filter Is_true (take WINDOW outs)).
  split; [apply Z.div_pos; lia|]. apply Z.div_le_upper_bound; lia.
Qed.

(** ** Lemmas: the round-trip ring *)
Definition rtt_repr (p : path) (rtts : list Z) : Prop :=
  length (rtt p) = WINDOW /\ 0 <= rtt_i p < 16 /\
  rtt_n p = Z.of_nat (length (take WINDOW rtts)) /\ Forall is_u16 rtts /\
  (0 < rtt_n p < 16 -> rtt_i p = rtt_n p - 1) /\
  forall k, 0 <= k < rtt_n p ->
    rtt p !! Z.to_nat ((rtt_i p - k) mod 16) = Some (nth (Z.to_nat k) rtts 0).

Lemma rtt_record_repr p rtts r :
  rtt_repr p rtts -> rtt_repr (rtt_record p r) (clamp16 r :: rtts).
Proof.
  intros (Hl & Hi & Hn & Hu & Hc & Hk). rewrite length_take in Hn.
  set (i := if truth (rtt_n p) then Z.rem (rtt_i p + 1) PATH_LOSS_WINDOW else 0).
  assert (0 <= i < 16 /\ (0 < rtt_n p -> i = (rtt_i p + 1) mod 16) /\ (rtt_n p = 0 -> i = 0))
    as (Hi' & Hi1 & Hi0).
  { unfold i, truth, PATH_LOSS_WINDOW. rewrite Z.rem_mod_nonneg by lia.
    pose proof (Z.mod_pos_bound (rtt_i p + 1) 16 ltac:(lia)).
    destruct (Z.eqb_spec (rtt_n p) 0); cbn; lia. }
  assert (rtt_record p r =
    (p <| rtt_i := i |> <| rtt := <[Z.to_nat i := clamp16 r]> (rtt p) |>)
      <| rtt_n := if rtt_n p <? 16 then rtt_n p + 1 else rtt_n p |>) as ->.
  { unfold rtt_record. fold i. change (if 0xffff <? (if r <? 0 then 0 else r) then 0xffff
      else if r <? 0 then 0 else r) with (clamp16 r).
    rewrite u16_id by apply clamp16_range. cbn. unfold PATH_LOSS_WINDOW.
    destruct (rtt_n p <? 16); by destruct p. }
  unfold rtt_repr. cbn [set set_rtt_n set_rtt set_rtt_i rtt rtt_n rtt_i].
  unfold WINDOW in *. rewrite length_take. cbn [length].
  assert ((if rtt_n p <? 16 then rtt_n p + 1 else rtt_n p)
    = Z.of_nat (16 `min` S (length rtts))) as Hn'.
  { destruct (Z.ltb_spec (rtt_n p) 16); lia. }
  rewrite length_insert. split_and!; try done; try lia.
  - constructor; [apply clamp16_range | done].
  - intros Hr. destruct (Z.ltb_spec (rtt_n p) 16); [|lia].
    destruct (Z.eq_dec (rtt_n p) 0) as [E|E]; [rewrite Hi0 by done; lia|].
    rewrite Hi1, Hc, Z.mod_small by lia. lia.
  - intros k Hkr. destruct (Z.eq_dec k 0) as [->|Hk0].
    + rewrite Z.sub_0_r, Z.mod_small by lia. rewrite list_lookup_insert_eq by lia. done.
    + assert (0 < rtt_n p) as Hpos by (destruct (Z.ltb_spec (rtt_n p) 16); lia).
      assert ((i - k) mod 16 = (rtt_i p - (k - 1)) mod 16) as ->.
      { rewrite Hi1 by done. rewrite Zminus_mod_idemp_l. f_equal. lia. }
      assert (k < 16) by lia.
      rewrite list_lookup_insert_ne.
      * rewrite Hk by (destruct (Z.ltb_spec (rtt_n p) 16); lia).
        replace (Z.to_nat k) with (S (Z.to_nat (k - 1))) by lia. done.
      * intros E. pose proof (Z.mod_pos_bound (rtt_i p - (k - 1)) 16 ltac:(lia)).
        apply Z2Nat.inj in E; [|lia|lia]. rewrite Hi1 in E by done.
        pose proof (Z.div_mod (rtt_i p + 1) 16 ltac:(lia)).
        pose proof (Z.div_mod (rtt_i p - (k - 1)) 16 ltac:(lia)). lia.
Qed.

(** The minimum loop: a member no other undercuts. *)
Lemma base_loop_spec l :
  Forall (fun x => 0 <= x) l ->
  (l = [] /\ base_loop l = -1) \/
  (l <> [] /\ base_loop l ∈ l /\ Forall (fun x => base_loop l <= x) l).
Proof.
  intros Hl. induction l as [|x l IH] using rev_ind; [by left|]. right.
  apply Forall_app in Hl as [Hl Hx]. rewrite Forall_singleton in Hx.
  unfold base_loop in *. rewrite fold_left_app. cbn [fold_left].
  split; [by destruct l|]. destruct (IH Hl) as [[-> ->]|(Hne & Hin & Hmin)].
  - cbn. split; [set_solver | constructor; [lia | constructor]].
  - set (b := fold_left _ l (-1)) in *.
    assert (0 <= b) by (rewrite Forall_forall in Hl; by apply Hl).
    destruct (Z.ltb_spec b 0), (Z.ltb_spec x b); cbn [orb]; try lia.
    + split; [set_solver|]. apply Forall_app. split; [|constructor; [lia|constructor]].
      eapply Forall_impl; [exact Hmin|]. cbn. lia.
    + split; [set_solver|]. apply Forall_app. split; [done|constructor; [lia|constructor]].
Qed.

(** The entries read are those of the window, in some order. *)
Lemma rtt_window_elem p rtts x :
  rtt_repr p rtts -> x ∈ take (Z.to_nat (rtt_n p)) (rtt p) <-> x ∈ take WINDOW rtts.
Proof.
  intros (Hl & Hi & Hn & Hu & Hc & Hk). rewrite length_take in Hn. unfold WINDOW in *.
  rewrite !list_elem_of_lookup. split.
  - intros [j Hj]. pose proof (lookup_lt_Some _ _ _ Hj) as Hjl. rewrite length_take in Hjl.
    rewrite lookup_take_lt in Hj by lia.
    set (k := (rtt_i p - Z.of_nat j) mod 16).
    assert (0 <= k < 16) as Hkr by (apply Z.mod_pos_bound; lia).
    assert (k < rtt_n p) as Hkn.
    { destruct (Z.eq_dec (rtt_n p) 16); [lia|]. unfold k. rewrite Hc, Z.mod_small by lia. lia. }
    specialize (Hk k ltac:(lia)).
    assert ((rtt_i p - k) mod 16 = Z.of_nat j) as Ej.
    { unfold k. rewrite Zminus_mod_idemp_r.
      replace (rtt_i p - (rtt_i p - Z.of_nat j)) with (Z.of_nat j) by lia.
      apply Z.mod_small. lia. }
    rewrite Ej, Nat2Z.id, Hj in Hk. simplify_eq. exists (Z.to_nat k).
    rewrite lookup_take_lt by lia.
    destruct (lookup_lt_is_Some_2 rtts (Z.to_nat k)) as [y Ey]; [lia|].
    by rewrite (nth_lookup_Some _ _ 0 _ Ey).
  - intros [k Hkx]. pose proof (lookup_lt_Some _ _ _ Hkx) as Hkl. rewrite length_take in Hkl.
    rewrite lookup_take_lt in Hkx by lia. specialize (Hk (Z.of_nat k) ltac:(lia)).
    rewrite Nat2Z.id, (nth_lookup_Some _ _ _ _ Hkx) in Hk.
    set (j := Z.to_nat ((rtt_i p - Z.of_nat k) mod 16)) in *. exists j.
    rewrite lookup_take_lt; [done|].
    pose proof (Z.mod_pos_bound (rtt_i p - Z.of_nat k) 16 ltac:(lia)).
    destruct (Z.eq_dec (rtt_n p) 16); [lia|]. unfold j.
    rewrite Z.mod_small by (rewrite Hc by lia; lia). rewrite Hc by lia. lia.
Qed.

(** The unloaded delay is the least of the last sixteen round trips. *)
Definition base_of (rtts : list Z) (b : Z) : Prop :=
  (rtts = [] /\ b = 0) \/
  (rtts <> [] /\ b ∈ take WINDOW rtts /\ Forall (fun x => b <= x) (take WINDOW rtts)).

Lemma base_repr p rtts : rtt_repr p rtts -> base_of rtts (path_base_srtt_ms p).
Proof.
  intros H. pose proof (fun x => rtt_window_elem p rtts x H) as He.
  destruct H as (Hl & Hi & Hn & Hu & _ & _). unfold path_base_srtt_ms, base_of.
  set (l := take (Z.to_nat (rtt_n p)) (rtt p)) in *.
  assert (Forall (fun x => 0 <= x) l) as Hpos.
  { rewrite Forall_forall. intros x Hx. apply He in Hx.
    pose proof (Forall_take _ WINDOW _ Hu) as Ht. rewrite Forall_forall in Ht.
    specialize (Ht x Hx). unfold is_u16 in Ht. lia. }
  destruct (base_loop_spec l Hpos) as [[El ->]|(Hne & Hin & Hmin)].
  - left. split; [|done]. destruct rtts as [|x rtts]; [done|]. exfalso.
    specialize (He x). rewrite El in He. unfold WINDOW in He. cbn in He. set_solver.
  - right. assert (0 <= base_loop l) by (rewrite Forall_forall in Hpos; by apply Hpos).
    destruct (Z.ltb_spec (base_loop l) 0); [lia|]. split_and!.
    + intros ->. apply He in Hin. unfold WINDOW in Hin. cbn in Hin. set_solver.
    + by apply He.
    + rewrite Forall_forall in *. intros x Hx. apply Hmin. by apply He.
Qed.

(** ** The invariant of a path *)

(** Round trips of up to a day and a half keep the smoothed value within [int]. *)
Definition RTT_MAX : Z := 2 ^ 27.

Record path_ok (p : path) : Prop := {
  ok_srtt8 : 0 <= srtt8 p <= 8 * RTT_MAX;
  ok_peer_srtt : 0 <= peer_srtt_ms p <= PATH_PEER_SRTT_MAX;
  ok_peer_loss : 0 <= peer_loss_ppt p <= 1000;
  ok_peer_base : 0 <= peer_base_srtt_ms p <= PATH_PEER_SRTT_MAX;
  ok_times : is_u64 (sent_ms p) /\ is_u64 (last_pong_ms p) /\ is_u64 (trying_since_ms p);
  ok_eps : ep_ok (peer_ep p) /\ ep_ok (self_ep p) /\ ep_ok (in_src p);
  ok_id : length (id p) = PATH_ID_LEN
}.

Definition ev_ok (p : path) (e : path_ev) : Prop :=
  match e with
  | EvSent n now => is_u64 now
  | EvExpire now => True
  | EvPong n now => is_u64 now /\ now - sent_ms p <= RTT_MAX
  | EvTail pr => ep_ok (pr_echo pr)
  | EvPeerEp ep => ep_ok ep
  | EvInbound src => ep_ok src
  | EvReset now => is_u64 now
  end.

Inductive path_reach {C : Crypto} (key : bytes) : path_hist -> Prop :=
| reach_new k rem ag ep now :
    ep_ok ep -> is_u64 now -> path_reach key (mk_hist (path_new k rem ag ep now) [] [])
| reach_ev h e :
    path_reach key h -> ev_ok (h_path h) e -> path_reach key (path_ev_step key h e).

Lemma ep_zero_ok : ep_ok ep_zero.
Proof. split_and!; [done | unfold ep_zero; cbn; forall_list; done | done]. Qed.

Lemma peer_view_ok p s l b : path_ok p -> path_ok (path_peer_view p s l b).
Proof.
  intros [H1 H2 H3 H4 H5 H6 H7]. unfold path_peer_view.
  set (mine := path_srtt_ms p).
  set (cap := if qualified p && (0 <? mine) && _ then _ else _).
  assert (0 <= cap <= PATH_PEER_SRTT_MAX) as Hcap.
  { unfold cap, PATH_PEER_SRTT_RATIO, PATH_PEER_SRTT_MAX.
    destruct (qualified p), (Z.ltb_spec 0 mine), (Z.ltb_spec (mine * 4) 2000); cbn; lia. }
  split; cbn; try done.
  - destruct (Z.ltb_spec s 0), (Z.ltb_spec cap s), (Z.ltb_spec cap 0); lia.
  - destruct (Z.ltb_spec l 0), (Z.ltb_spec 1000 l); cbn; lia.
  - destruct (Z.ltb_spec b 0), (Z.ltb_spec cap b), (Z.ltb_spec cap 0); lia.
Qed.

Lemma srtt_step s r :
  0 <= s <= 8 * RTT_MAX -> 0 <= r <= RTT_MAX ->
  0 <= i32 (s + (r - Z.quot s 8)) <= 8 * RTT_MAX /\ i32 (s + (r - Z.quot s 8)) = s - s / 8 + r.
Proof.
  intros Hs Hr. unfold RTT_MAX in *. rewrite Z.quot_div_nonneg by lia.
  pose proof (Z.div_mod s 8 ltac:(lia)). pose proof (Z.mod_pos_bound s 8 ltac:(lia)).
  rewrite i32_id by (unfold is_i32; lia). lia.
Qed.

Lemma pong_rtt p now :
  is_u64 (sent_ms p) -> is_u64 now -> now - sent_ms p <= RTT_MAX ->
  let r := if sent_ms p <? now then i32 (u64 (now - sent_ms p)) else 0 in
  0 <= r <= RTT_MAX /\ clamp16 r = clamp16 (now - sent_ms p).
Proof.
  intros Hs Hn Hr. unfold RTT_MAX in *. cbv zeta. destruct (Z.ltb_spec (sent_ms p) now).
  - unfold is_u64 in *. rewrite u64_id, i32_id by (unfold is_u64, is_i32; lia). split; [lia|done].
  - split; [lia|]. unfold clamp16. bool_cases; lia.
Qed.

Section Reach.
Context {C : Crypto} {L : CryptoLaws C}.

Lemma id_refresh_ok p key : path_ok p -> path_ok (path_id_refresh p key).
Proof.
  intros [H1 H2 H3 H4 H5 H6 H7]. split; cbn; try done.
  unfold path_id_calc. rewrite length_take, blake2b_length. done.
Qed.

Lemma set_self_ep_ok p ep key : path_ok p -> ep_ok ep -> path_ok (path_set_self_ep p ep key).
Proof.
  intros Hp He. unfold path_set_self_ep. destruct (_ || _); [done|]. apply id_refresh_ok.
  destruct Hp. split; cbn; try done. naive_solver.
Qed.

Lemma set_peer_ep_ok p ep key : path_ok p -> ep_ok ep -> path_ok (path_set_peer_ep p ep key).
Proof.
  intros Hp He. unfold path_set_peer_ep. destruct (_ || _); [done|]. apply id_refresh_ok.
  destruct Hp. split; cbn; try done. naive_solver.
Qed.
End Reach.

(** ** Lemmas: every event keeps the invariant and the history *)
Lemma loss_repr_same p p' outs :
  loss_n p' = loss_n p -> loss_reg p' = loss_reg p -> loss_repr p outs -> loss_repr p' outs.
Proof. unfold loss_repr. by intros -> ->. Qed.

Lemma rtt_repr_same p p' rtts :
  rtt p' = rtt p -> rtt_n p' = rtt_n p -> rtt_i p' = rtt_i p -> rtt_repr p rtts -> rtt_repr p' rtts.
Proof. unfold rtt_repr. by intros -> -> ->. Qed.

(** Recording an outcome or a round trip touches nothing else. *)
Lemma loss_record_frame p b :
  rtt (loss_record p b) = rtt p /\ rtt_n (loss_record p b) = rtt_n p /\
  rtt_i (loss_record p b) = rtt_i p /\ qualified (loss_record p b) = qualified p /\
  outstanding (loss_record p b) = outstanding p /\
  (path_ok p -> path_ok (loss_record p b)).
Proof.
  unfold loss_record. cbn. destruct (loss_n p <? PATH_LOSS_WINDOW); cbn;
    (split_and!; try done; intros [H1 H2 H3 H4 H5 H6 H7]; by split).
Qed.

Lemma rtt_record_frame p r :
  loss_n (rtt_record p r) = loss_n p /\ loss_reg (rtt_record p r) = loss_reg p /\
  qualified (rtt_record p r) = qualified p /\ (path_ok p -> path_ok (rtt_record p r)).
Proof.
  unfold rtt_record. cbn. destruct (rtt_n p <? PATH_LOSS_WINDOW); cbn;
    (split_and!; try done; intros [H1 H2 H3 H4 H5 H6 H7]; by split).
Qed.

Record hist_inv (h : path_hist) : Prop := {
  hi_ok : path_ok (h_path h);
  hi_loss : loss_repr (h_path h) (h_outs h);
  hi_rtt : rtt_repr (h_path h) (h_rtts h);
  hi_qual : qualified (h_path h) = true <-> h_rtts h <> []
}.

Lemma pong_inv p outs rtts n now :
  hist_inv (mk_hist p outs rtts) -> is_u64 now -> now - sent_ms p <= RTT_MAX ->
  (path_probe_pong p n now).2 = true ->
  hist_inv (mk_hist (path_probe_pong p n now).1 (false :: outs) (clamp16 (now - sent_ms p) :: rtts)).
Proof.
  intros [Hok Hl Hr Hq] Hnow Hrtt Hans. cbn [h_path h_outs h_rtts] in *.
  unfold path_probe_pong in *. destruct (negb (outstanding p) || _); [done|].
  cbn [set set_outstanding sent_ms] in *.
  pose proof (pong_rtt p now (proj1 (ok_times p Hok)) Hnow Hrtt) as Hp. cbv zeta in Hp.
  set (r := if sent_ms p <? now then i32 (u64 (now - sent_ms p)) else 0) in *.
  destruct Hp as [Hr0 Hclamp]. rewrite <- Hclamp.
  set (p1 := set_srtt8 _ (set_outstanding false p)).
  assert (path_ok p1) as Hok1.
  { destruct Hok as [H1 H2 H3 H4 H5 H6 H7]. unfold p1. split; cbn; try done.
    destruct (qualified p); cbn [negb]; [by apply srtt_step|].
    unfold RTT_MAX in *. rewrite i32_id by (unfold is_i32; lia). lia. }
  assert (loss_repr p1 outs) as Hl1 by (by apply (loss_repr_same p)).
  assert (rtt_repr p1 rtts) as Hr1 by (by apply (rtt_repr_same p)).
  destruct (rtt_record_frame p1 r) as (F1 & F2 & F3 & F4).
  destruct (loss_record_frame (rtt_record p1 r) false) as (G1 & G2 & G3 & G4 & _ & G5).
  set (p3 := loss_record (rtt_record p1 r) false) in *.
  assert (loss_repr p3 (false :: outs)) as Hl3
    by (apply loss_record_repr; by apply (loss_repr_same p1)).
  assert (rtt_repr p3 (clamp16 r :: rtts)) as Hr3
    by (apply (rtt_repr_same (rtt_record p1 r)); [done..|]; by apply rtt_record_repr).
  assert (path_ok p3) as [K1 K2 K3 K4 K5 K6 K7] by auto.
  assert (qualified p3 = qualified p) as Eq by (rewrite G4, F3; done).
  cbn [qualified set set_last_pong_ms]. rewrite Eq.
  destruct (qualified p) eqn:Eqp; cbn [negb fst]; split; cbn; try done;
    try (split; cbn; try done; naive_solver).
Qed.

Lemma pong_unanswered p n now :
  (path_probe_pong p n now).2 = false -> (path_probe_pong p n now).1 = p.
Proof.
  unfold path_probe_pong. destruct (_ || _); [done|]. by destruct (negb (qualified _)).
Qed.

Lemma expire_inv p outs rtts now :
  hist_inv (mk_hist p outs rtts) ->
  hist_inv (mk_hist (path_probe_expire p now)
    (if outstanding p && negb (outstanding (path_probe_expire p now)) then true :: outs else outs)
    rtts).
Proof.
  intros [Hok Hl Hr Hq]. cbn [h_path h_outs h_rtts] in *. unfold path_probe_expire.
  destruct (outstanding p) eqn:Eo; cbn [negb orb andb]; [|by rewrite ?Eo].
  destruct ((now <=? sent_ms p) || _); [by rewrite Eo; split|].
  set (p1 := set outstanding false p).
  destruct (loss_record_frame p1 true) as (G1 & G2 & G3 & G4 & G6 & G5).
  rewrite G6. cbn [set set_outstanding outstanding negb p1]. split; cbn [h_path h_outs h_rtts].
  - apply G5. by destruct Hok; split.
  - apply loss_record_repr. by apply (loss_repr_same p).
  - by apply (rtt_repr_same p1), (rtt_repr_same p).
  - by rewrite G4.
Qed.

Section Reach2.
Context {C : Crypto} {L : CryptoLaws C}.

(** A change to anything but the measurements. *)
Lemma hist_inv_frame p p' outs rtts :
  hist_inv (mk_hist p outs rtts) -> path_ok p' ->
  loss_n p' = loss_n p -> loss_reg p' = loss_reg p -> rtt p' = rtt p ->
  rtt_n p' = rtt_n p -> rtt_i p' = rtt_i p -> qualified p' = qualified p ->
  hist_inv (mk_hist p' outs rtts).
Proof.
  intros [H1 H2 H3 H4] Hok E1 E2 E3 E4 E5 E6. split; cbn [h_path h_outs h_rtts] in *.
  - done.
  - by apply (loss_repr_same p).
  - by apply (rtt_repr_same p).
  - by rewrite E6.
Qed.

Lemma set_self_ep_frame p ep key :
  let p' := path_set_self_ep p ep key in
  loss_n p' = loss_n p /\ loss_reg p' = loss_reg p /\ rtt p' = rtt p /\
  rtt_n p' = rtt_n p /\ rtt_i p' = rtt_i p /\ qualified p' = qualified p.
Proof. unfold path_set_self_ep. by destruct (_ || _). Qed.

Lemma new_inv k rem ag ep now :
  ep_ok ep -> is_u64 now -> hist_inv (mk_hist (path_new k rem ag ep now) [] []).
Proof.
  intros He Hn. pose proof ep_zero_ok. unfold path_new.
  destruct rem, (path_ep_any ep); cbn;
    (split; cbn;
      [ split; cbn; try done; unfold RTT_MAX, PATH_PEER_SRTT_MAX; lia
      | split_and!; try done; intros [|i] Hi; by rewrite Z.testbit_0_l
      | split_and!; try done; try lia; intros; cbn in *; lia
      | done ]).
Qed.

Lemma reset_inv p outs rtts now :
  is_u64 now -> hist_inv (mk_hist p outs rtts) -> hist_inv (mk_hist (path_reset p now) [] []).
Proof.
  intros Hn [[H1 H2 H3 H4 H5 H6 H7] Hl (Hr & _) Hq]. cbn [h_path] in *.
  unfold path_reset. split; cbn.
  - split; cbn; try done; unfold RTT_MAX, PATH_PEER_SRTT_MAX; lia.
  - split_and!; try done. intros [|i] Hi; by rewrite Z.testbit_0_l.
  - split_and!; try done; try lia; intros; cbn in *; lia.
  - done.
Qed.

Lemma step_inv key h e :
  hist_inv h -> ev_ok (h_path h) e -> hist_inv (path_ev_step key h e).
Proof.
  destruct h as [p outs rtts]. intros Hi He. pose proof (hi_ok _ Hi) as Hok. cbn in Hok, He.
  destruct e; cbn [path_ev_step ev_ok] in *.
  - apply (hist_inv_frame p); try done. destruct Hok. split; cbn; try done. naive_solver.
  - by apply expire_inv.
  - destruct He as [Hn Hr]. pose proof (pong_inv p outs rtts n now Hi Hn Hr) as Hp.
    pose proof (pong_unanswered p n now) as Hu.
    destruct (path_probe_pong p n now) as [p' ans]. cbn [fst snd] in *.
    destruct ans; [by apply Hp|]. by rewrite Hu.
  - unfold path_apply_tail. destruct (pr_have_tail pr); [|done]. cbn [negb].
    destruct (set_self_ep_frame p (pr_echo pr) key) as (F1 & F2 & F3 & F4 & F5 & F6).
    apply (hist_inv_frame p); try done. by apply peer_view_ok, set_self_ep_ok.
  - apply (hist_inv_frame p); try done; try by apply set_peer_ep_ok.
    all: unfold path_set_peer_ep; by destruct (_ || _).
  - apply (hist_inv_frame p); try done.
    all: unfold path_saw_inbound; destruct (path_ep_any src); try done.
    destruct Hok. split; cbn; try done. naive_solver.
  - by apply (reset_inv p outs rtts).
Qed.

Lemma reach_inv key h : path_reach key h -> hist_inv h.
Proof. induction 1; [by apply new_inv | by apply step_inv]. Qed.
End Reach2.

(** ** Lemmas: rank *)
Lemma path_cmp_refl p now : path_cmp p p now = 0.
Proof. unfold path_cmp. rewrite !Z.eqb_refl. apply memcmp_refl. Qed.

Lemma path_cmp_antisym a b now : path_cmp b a now = - path_cmp a b now.
Proof. unfold path_cmp. rewrite (memcmp_antisym (id a) (id b)). bool_cases; cbn; lia. Qed.

Lemma path_cmp_trans a b c now :
  path_cmp a b now <= 0 -> path_cmp b c now <= 0 -> path_cmp a c now <= 0.
Proof.
  unfold path_cmp. pose proof (memcmp_trans (id a) (id b) (id c)).
  destruct (path_warmth_of a now), (path_warmth_of b now), (path_warmth_of c now);
    cbn [warmth_int Z.eqb Z.ltb Pos.eqb Z.compare Pos.compare negb Pos.compare_cont]; try lia;
    bool_cases; cbn [negb]; try lia; intros; auto.
Qed.

Lemma path_cmp_lt_trans a b c now :
  path_cmp a b now < 0 -> path_cmp b c now <= 0 -> path_cmp a c now <= 0.
Proof. intros. eapply path_cmp_trans; eauto. lia. Qed.

(** ** Lemmas: cost *)
Lemma path_cost_of_comm a la b lb : path_cost_of a la b lb = path_cost_of b lb a la.
Proof. unfold path_cost_of. bool_cases; try lia; repeat f_equal; lia. Qed.

Lemma path_cost_of_mono a la b lb a' la' b' lb' :
  0 <= la -> 0 <= lb -> a <= a' -> la <= la' -> b <= b' -> lb <= lb' ->
  path_cost_of a la b lb <= path_cost_of a' la' b' lb'.
Proof.
  intros. unfold path_cost_of, PATH_LOSS_PENALTY_MS.
  assert (forall x y, 0 <= x <= y -> Z.quot (200 * x) 1000 <= Z.quot (200 * y) 1000) as Hm.
  { intros x y Hxy. apply Z.quot_le_mono; lia. }
  apply Z.add_le_mono; [bool_cases; lia|]. apply Hm. bool_cases; lia.
Qed.

Lemma path_cost_of_bound a la b lb :
  0 <= la <= 1000 -> 0 <= lb <= 1000 -> path_cost_of a la b lb <= Z.max a b + PATH_LOSS_PENALTY_MS.
Proof.
  intros. unfold path_cost_of, PATH_LOSS_PENALTY_MS.
  assert (forall x, 0 <= x <= 1000 -> Z.quot (200 * x) 1000 <= 200) as Hm.
  { intros x Hx. transitivity (Z.quot (200 * 1000) 1000); [apply Z.quot_le_mono; lia | done]. }
  apply Z.add_le_mono; [bool_cases; lia|]. apply Hm. bool_cases; lia.
Qed.

(** How far a claim may go: never past the ceiling, and where this end has a
    measurement of its own, never past a few multiples of it. *)
Definition peer_cap (p : path) : Z :=
  if qualified p && (0 <? path_srtt_ms p)
  then Z.min PATH_PEER_SRTT_MAX (path_srtt_ms p * PATH_PEER_SRTT_RATIO)
  else PATH_PEER_SRTT_MAX.

Lemma peer_view_bound p s l b :
  path_ok p ->
  let p' := path_peer_view p s l b in
  0 <= peer_srtt_ms p' <= peer_cap p /\ 0 <= peer_loss_ppt p' <= 1000 /\
  0 <= peer_base_srtt_ms p' <= peer_cap p.
Proof.
  intros [H1 _ _ _ _ _ _]. assert (0 <= path_srtt_ms p) as Hs.
  { unfold path_srtt_ms. rewrite Z.quot_div_nonneg by lia. apply Z.div_pos; lia. }
  unfold path_peer_view, peer_cap, PATH_PEER_SRTT_RATIO, PATH_PEER_SRTT_MAX. cbn.
  destruct (qualified p), (Z.ltb_spec 0 (path_srtt_ms p));
    destruct (Z.ltb_spec (path_srtt_ms p * 4) 2000); cbn [andb];
    (split_and!; bool_cases; lia).
Qed.

Lemma loss_ppt_range p outs : loss_repr p outs -> 0 <= path_loss_ppt p <= 1000.
Proof. intros H. rewrite (loss_ppt_repr p outs H). apply loss_ratio_range. Qed.

(** ** Properties *)

(** Whatever sequence of probes, answers, expiries, tails and resets a path
    goes through (answers within 2^27 ms of their probe), its figures are the
    ones its documentation defines: the loss ratio is that of exactly the last
    sixteen outcomes, the unloaded delay is the least of exactly the last
    sixteen round trips (0 when there is none), the path is qualified exactly
    when something has round-tripped since the last reset, and every field
    stays within its bounds, the smoothed round trip without overflow. *)
Theorem path_stats_window {C : Crypto} {L : CryptoLaws C} key h :
  path_reach key h ->
  path_loss_ppt (h_path h) = loss_ratio (h_outs h) /\
  0 <= path_loss_ppt (h_path h) <= 1000 /\
  base_of (h_rtts h) (path_base_srtt_ms (h_path h)) /\
  (qualified (h_path h) = true <-> h_rtts h <> []) /\
  path_ok (h_path h).
Proof.
  intros Hr. destruct (reach_inv key h Hr) as [Hok Hl Hrt Hq].
  split_and!; try done.
  - by apply loss_ppt_repr.
  - by apply (loss_ppt_range _ (h_outs h)).
  - by apply (loss_ppt_range _ (h_outs h)).
  - by apply base_repr.
Qed.

Definition sample_events : list path_ev :=
  [EvSent 11 1000; EvPong 11 1040; EvSent 12 2040; EvExpire 3500; EvSent 13 3500; EvPong 13 3520].

Lemma path_stats_window_witness :
  let h := fold_left (@path_ev_step toy_crypto [1])
             sample_events (mk_hist (path_new PATH_ROUTED None 0 ep_zero 900) [] []) in
  h_outs h = [false; true; false] /\ path_loss_ppt (h_path h) = loss_ratio (h_outs h) /\
  base_of (h_rtts h) (path_base_srtt_ms (h_path h)) /\ path_base_srtt_ms (h_path h) = 20.
Proof.
  cbv zeta. unfold sample_events. rewrite !fold_left_cons. cbn [fold_left].
  set (h0 := mk_hist (path_new PATH_ROUTED None 0 ep_zero 900) [] []).
  assert (path_reach (C := toy_crypto) [1] h0) as Hr0.
  { apply reach_new; [apply ep_zero_ok | done]. }
  match goal with |- context [h_outs ?h] => assert (path_reach (C := toy_crypto) [1] h) as Hr end.
  { repeat (apply reach_ev; [|vm_compute; repeat split; discriminate || reflexivity]). exact Hr0. }
  pose proof (@path_stats_window toy_crypto toy_crypto_laws [1] _ Hr) as (H1 & _ & H2 & _).
  split; [vm_compute; reflexivity|]. split; [exact H1|]. split; [exact H2|].
  vm_compute. reflexivity.
Defined.

(** A peer's own figures can only argue a path down, and only so far: for
    any claim in a probe's tail the cost is at least what this end measured,
    and exceeds the larger of its own round trip and the claim's ceiling by at
    most the loss penalty; the ceiling is 2000 ms, and four times our own round
    trip on a path we have measured.  The cost of two views does not depend on
    which of them is ours. *)
Theorem peer_claim_bounded p outs srtt loss base :
  path_ok p -> loss_repr p outs ->
  let p' := path_peer_view p srtt loss base in
  path_cost_of (path_srtt_ms p) (path_loss_ppt p) 0 0 <= path_cost p' /\
  path_cost p' <= Z.max (path_srtt_ms p) (peer_cap p) + PATH_LOSS_PENALTY_MS /\
  path_base_srtt_ms p <= path_base_cost p' <= Z.max (path_base_srtt_ms p) (peer_cap p) /\
  path_cost p' = path_cost_of (peer_srtt_ms p') (peer_loss_ppt p') (path_srtt_ms p) (path_loss_ppt p).
Proof.
  intros Hok Hl p'. pose proof (peer_view_bound p srtt loss base Hok) as (H1 & H2 & H3).
  pose proof (loss_ppt_range p outs Hl) as Hlo. fold p' in H1, H2, H3.
  assert (path_srtt_ms p' = path_srtt_ms p /\ path_loss_ppt p' = path_loss_ppt p /\
    path_base_srtt_ms p' = path_base_srtt_ms p) as (E1 & E2 & E3) by done.
  unfold path_cost, path_base_cost. rewrite E1, E2, E3. split_and!.
  - apply path_cost_of_mono; lia.
  - etransitivity; [by apply path_cost_of_bound|]. lia.
  - unfold path_base_cost_of. bool_cases; lia.
  - unfold path_base_cost_of. bool_cases; lia.
  - apply path_cost_of_comm.
Qed.

Definition measured_path : path :=
  (path_new PATH_ROUTED None 0 ep_zero 900) <| qualified := true |> <| srtt8 := 80 |>.

Lemma peer_claim_bounded_witness :
  path_cost (path_peer_view measured_path 1900 0 0) <= 240.
Proof.
  refine (proj1 (proj2 (peer_claim_bounded measured_path [] 1900 0 0 _ _))).
  - destruct (new_inv PATH_ROUTED None 0 ep_zero 900 ep_zero_ok ltac:(done))
      as [[H1 H2 H3 H4 H5 H6 H7] _ _ _].
    split; cbn in *; try done; unfold RTT_MAX; lia.
  - exact (hi_loss _ (new_inv PATH_ROUTED None 0 ep_zero 900 ep_zero_ok ltac:(done))).
Defined.

(** The ranking is a total preorder, so both ends rank alike whatever order
    they look in: reflexive, antisymmetric in sign, transitive, and two paths
    tie only in warmth, bucket and identifier at once. *)
Theorem path_cmp_total_preorder a b c now :
  path_cmp a a now = 0 /\ path_cmp b a now = - path_cmp a b now /\
  (path_cmp a b now <= 0 -> path_cmp b c now <= 0 -> path_cmp a c now <= 0) /\
  (path_cmp a b now = 0 <->
   path_warmth_of a now = path_warmth_of b now /\ path_bucket a = path_bucket b /\ id a = id b).
Proof.
  split_and!; [apply path_cmp_refl | apply path_cmp_antisym | apply path_cmp_trans |].
  unfold path_cmp. rewrite <- memcmp_eq.
  destruct (path_warmth_of a now), (path_warmth_of b now); cbn; bool_cases; cbn; naive_solver lia.
Qed.
