(* ===== verification/PathTable.v ===== *)
(** src/src/path.c, third part: a connection's table of paths, and the choice
    of the one that carries the session.  A [struct path *] into the table is
    the index of its slot; [None] is NULL. *)
From S2P Require Import Prelude Net Crypto Keys PathEp Path.

Definition PATH_TABLE_MAX : nat := 8.

Record path_table := mk_table { slots : list path; sel : Z }.

Definition slot (t : path_table) (i : nat) : path := nth i (slots t) path_zero.
Definition sel_idx (t : path_table) : nat := Z.to_nat (sel t).

Definition set_slot (t : path_table) (i : nat) (p : path) : path_table :=
  mk_table (<[i := p]> (slots t)) (sel t).

Definition path_table_init : path_table := mk_table (replicate PATH_TABLE_MAX path_zero) (-1).

Definition path_table_count (t : path_table) : Z :=
  Z.of_nat (length (filter (fun p => Is_true (used p)) (slots t))).

Definition kind_is_lanlink (k : path_kind) : bool :=
  match k with PATH_SEGMENT | PATH_ROUTED => true | PATH_ICE => false end.

Definition kind_eqb (a b : path_kind) : bool := bool_decide (a = b).

(** ** Lookups *)

(** The first slot a test holds of. *)
Fixpoint first_from (i : nat) (f : path -> bool) (l : list path) : option nat :=
  match l with
  | [] => None
  | p :: l' => if f p then Some i else first_from (S i) f l'
  end.
Definition first_slot (f : path -> bool) (t : path_table) : option nat := first_from 0 f (slots t).

Definition path_table_find (t : path_table) (k : path_kind) (ep : path_ep) : option nat :=
  first_slot (fun p => used p && kind_eqb (kind p) k && path_ep_eq (peer_ep p) ep) t.

Definition path_table_find_ep (t : path_table) (ep : path_ep) : option nat :=
  first_slot (fun p => used p && kind_is_lanlink (kind p) && path_ep_eq (peer_ep p) ep) t.

Definition path_table_find_port (t : path_table) (port : Z) : option nat :=
  first_slot (fun p => used p && kind_is_lanlink (kind p) && (ep_port (peer_ep p) =? port)) t.

Definition path_table_find_agent (t : path_table) (ag : Z) : option nat :=
  if ag =? 0 then None else first_slot (fun p => used p && (agent p =? ag)) t.

Definition path_table_sel (t : path_table) : option nat :=
  if (sel t <? 0) || negb (used (slot t (sel_idx t))) then None else Some (sel_idx t).

(** ** The scanning loops

    [for (i..) { if (!ok(i)) continue; if (best < 0 || better(i, best)) best = i; }] *)
Definition scan_step (ok : nat -> bool) (better : nat -> nat -> bool) (best : option nat) (i : nat) :
  option nat :=
  if ok i then
    match best with
    | None => Some i
    | Some b => if better i b then Some i else best
    end
  else best.
Definition scan (ok : nat -> bool) (better : nat -> nat -> bool) (idx : list nat) : option nat :=
  fold_left (scan_step ok better) idx None.

Definition table_idx : list nat := seq 0 PATH_TABLE_MAX.

(** ** Adding and dropping *)
Definition evict_worse (t : path_table) (now : Z) (i worst : nat) : bool :=
  let w := warmth_int (path_warmth_of (slot t i) now) in
  let ww := warmth_int (path_warmth_of (slot t worst) now) in
  (ww <? w) || ((w =? ww) && (created_ms (slot t i) <? created_ms (slot t worst))).

Definition path_table_evict (t : path_table) (now : Z) : option nat :=
  match first_slot (fun p => negb (used p)) t with
  | Some i => Some i
  | None => scan (fun i => negb (Z.of_nat i =? sel t)) (evict_worse t now) table_idx
  end.

Definition path_table_add (t : path_table) (k : path_kind) (rem : option sockaddr) (ag now : Z) :
  path_table * option nat :=
  let ep := match rem with
            | Some r => path_ep_from_sockaddr r sizeof_sockaddr_in6
            | None => Some ep_zero
            end in
  match ep with
  | None => (t, None)
  | Some ep =>
      match (if truth ag then path_table_find_agent t ag else path_table_find t k ep) with
      | Some i => (t, Some i)
      | None =>
          match path_table_evict t now with
          | None => (t, None)
          | Some i => (set_slot t i (path_new k rem ag ep now), Some i)
          end
      end
  end.

Definition path_table_spare (t : path_table) (now : Z) : bool :=
  existsb (fun p => negb (used p)) (slots t) ||
  existsb (fun i => negb (Z.of_nat i =? sel t) &&
                    bool_decide (path_warmth_of (slot t i) now = PATH_DEAD)) table_idx.

Definition path_table_offer (t : path_table) (k : path_kind) (rem : option sockaddr) (now : Z) :
  path_table * option nat :=
  match rem with
  | None => (t, None)
  | Some r =>
      match path_ep_from_sockaddr r sizeof_sockaddr_in6 with
      | None => (t, None)
      | Some ep =>
          match path_table_find_ep t ep with
          | Some i => (t, Some i)
          | None => if negb (path_table_spare t now) then (t, None)
                    else path_table_add t k rem 0 now
          end
      end
  end.

Definition path_table_clear (t : path_table) : path_table := path_table_init.

(** [memset] every slot a test holds of, letting go of the selection if it was
    one of them. *)
Definition drop_slots (f : path -> bool) (t : path_table) : path_table :=
  mk_table (map (fun p => if f p then path_zero else p) (slots t))
    (if (0 <=? sel t) && f (slot t (sel_idx t)) then -1 else sel t).

Definition path_table_drop_agent (t : path_table) (ag : Z) : path_table :=
  if ag =? 0 then t else drop_slots (fun p => used p && (agent p =? ag)) t.

Definition path_table_drop_kind (t : path_table) (k : path_kind) : path_table :=
  drop_slots (fun p => used p && kind_eqb (kind p) k) t.

Definition path_table_reset_stats (t : path_table) (now : Z) : path_table :=
  mk_table (map (fun p => if used p then path_reset p now else p) (slots t)) (sel t).

Definition path_table_any_qualified (t : path_table) : bool :=
  existsb (fun p => used p && qualified p) (slots t).

(** The loop leaves with 0 at the first qualified path that is not dead. *)
Fixpoint all_dead_loop (now : Z) (any : bool) (l : list path) : bool :=
  match l with
  | [] => any
  | p :: l' =>
      if negb (used p) || negb (qualified p) then all_dead_loop now any l'
      else if negb (bool_decide (path_warmth_of p now = PATH_DEAD)) then false
      else all_dead_loop now true l'
  end.
Definition path_table_all_dead (t : path_table) (now : Z) : bool := all_dead_loop now false (slots t).

(** ** Selection *)
Definition fully_lost (p : path) : bool :=
  (Z.quot PATH_LOSS_WINDOW 2 <=? loss_n p) && (1000 <=? path_loss_ppt p).

Definition best_ok (t : path_table) (i : nat) : bool :=
  let p := slot t i in used p && usable p && negb (fully_lost p).

Definition idx_int (o : option nat) : Z := match o with Some i => Z.of_nat i | None => -1 end.

Definition path_best (t : path_table) (now : Z) : option nat :=
  scan (best_ok t) (fun i b => path_cmp (slot t i) (slot t b) now <? 0) table_idx.

(** The loop that scores what is already decided. *)
Definition expire_all (t : path_table) (now : Z) : path_table :=
  mk_table (map (fun p => if used p then path_probe_expire p now else p) (slots t)) (sel t).

(** The new table; the return value is its [sel]. *)
Definition path_select (t : path_table) (now : Z) : path_table :=
  let t := expire_all t now in
  match path_best t now with
  | None => mk_table (slots t) (-1)
  | Some best =>
      if (sel t <? 0) || negb (used (slot t (sel_idx t))) || negb (usable (slot t (sel_idx t))) ||
         (warmth_int (path_warmth_of (slot t best) now) <?
          warmth_int (path_warmth_of (slot t (sel_idx t)) now))
      then mk_table (slots t) (Z.of_nat best)
      else t
  end.

Definition challenger_eligible (t : path_table) (i sel : nat) (now : Z) : bool :=
  let p := slot t i in
  if (i =? sel)%nat || negb (used p) || negb (usable p) then false
  else if fully_lost p then false
  else if negb (bool_decide (path_warmth_of p now = path_warmth_of (slot t sel) now)) then false
  else 0 <? path_base_srtt_ms p.

Definition challenger_ok (t : path_table) (s : nat) (now : Z) (i : nat) : bool :=
  challenger_eligible t i s now &&
  negb (path_base_bucket (slot t s) <=? path_base_bucket (slot t i)) &&
  negb (path_bucket (slot t s) <=? path_bucket (slot t i)).

Definition path_challenger (t : path_table) (now : Z) : option nat :=
  if (sel t <? 0) || negb (used (slot t (sel_idx t))) then None
  else scan (challenger_ok t (sel_idx t) now)
         (fun i b => path_cmp (slot t i) (slot t b) now <? 0) table_idx.

(** ** Lemmas: slots *)
Lemma slot_set_eq t i p : (i < length (slots t))%nat -> slot (set_slot t i p) i = p.
Proof.
  intros Hi. unfold slot, set_slot. cbn [slots]. rewrite nth_lookup.
  by rewrite list_lookup_insert_eq.
Qed.

Lemma slot_set_ne t i j p : i <> j -> slot (set_slot t i p) j = slot t j.
Proof.
  intros Hij. unfold slot, set_slot. cbn [slots]. rewrite !nth_lookup.
  by rewrite list_lookup_insert_ne.
Qed.

Lemma slot_map t f s i :
  f path_zero = path_zero -> slot (mk_table (map f (slots t)) s) i = f (slot t i).
Proof. intros Hf. unfold slot. cbn [slots]. rewrite <- Hf at 1. apply map_nth. Qed.

Lemma slot_beyond t i : (length (slots t) <= i)%nat -> slot t i = path_zero.
Proof. apply nth_overflow. Qed.

Lemma first_from_spec f l i :
  match first_from i f l with
  | Some k => exists j, k = (i + j)%nat /\ (j < length l)%nat /\ f (nth j l path_zero) = true
  | None => forall j, (j < length l)%nat -> f (nth j l path_zero) = false
  end.
Proof.
  revert i. induction l as [|p l IH]; intros i; cbn [first_from].
  - intros j Hj. cbn in Hj. lia.
  - destruct (f p) eqn:E.
    + exists 0%nat. cbn. split_and!; [lia | lia | done].
    + specialize (IH (S i)). destruct (first_from (S i) f l) as [k|].
      * destruct IH as (j & -> & Hj & Hf). exists (S j). cbn. split_and!; [lia | lia | done].
      * intros [|j] Hj; [done|]. cbn in *. apply IH. lia.
Qed.

Lemma first_slot_some f t k :
  first_slot f t = Some k -> (k < length (slots t))%nat /\ f (slot t k) = true.
Proof.
  intros H. pose proof (first_from_spec f (slots t) 0) as Hs. unfold first_slot in H.
  rewrite H in Hs. destruct Hs as (j & -> & Hj & Hf). done.
Qed.

Lemma first_slot_none f t :
  first_slot f t = None -> forall j, (j < length (slots t))%nat -> f (slot t j) = false.
Proof.
  intros H. pose proof (first_from_spec f (slots t) 0) as Hs. unfold first_slot in H.
  by rewrite H in Hs.
Qed.

(** ** Lemmas: the scanning loops *)
Section Scan.
Context (ok : nat -> bool) (better : nat -> nat -> bool).

(** [i] ranks no lower than [j]. *)
Definition no_lower (i j : nat) : Prop := better j i = false.

Context (Hrefl : forall i, no_lower i i).
Context (Htrans : forall i j k, no_lower i j -> no_lower j k -> no_lower i k).
Context (Hasym : forall i j, better i j = true -> no_lower i j).

Lemma scan_spec idx :
  match scan ok better idx with
  | None => forall i, i ∈ idx -> ok i = false
  | Some k => k ∈ idx /\ ok k = true /\ forall i, i ∈ idx -> ok i = true -> no_lower k i
  end.
Proof using Hrefl Htrans Hasym.
  unfold scan. induction idx as [|i idx IH] using rev_ind; [cbn; set_solver|].
  rewrite fold_left_app. cbn [fold_left]. unfold scan_step at 1.
  destruct (ok i) eqn:Eo.
  - destruct (fold_left _ idx None) as [b|].
    + destruct IH as (Hin & Hok & Hb). destruct (better i b) eqn:Eb.
      * split_and!; [set_solver | done |]. intros j Hj Hjo.
        apply elem_of_app in Hj as [Hj|Hj].
        -- apply (Htrans _ b); [by apply Hasym | by apply Hb].
        -- apply list_elem_of_singleton in Hj as ->. apply Hrefl.
      * split_and!; [set_solver | done |]. intros j Hj Hjo.
        apply elem_of_app in Hj as [Hj|Hj]; [by apply Hb|].
        by apply list_elem_of_singleton in Hj as ->.
    + split_and!; [set_solver | done |]. intros j Hj Hjo.
      apply elem_of_app in Hj as [Hj|Hj]; [by rewrite IH in Hjo|].
      apply list_elem_of_singleton in Hj as ->. apply Hrefl.
  - destruct (fold_left _ idx None) as [b|].
    + destruct IH as (Hin & Hok & Hb). split_and!; [set_solver | done |].
      intros j Hj Hjo. apply elem_of_app in Hj as [Hj|Hj]; [by apply Hb|].
      apply list_elem_of_singleton in Hj as ->. congruence.
    + intros j Hj. apply elem_of_app in Hj as [Hj|Hj]; [by apply IH|].
      by apply list_elem_of_singleton in Hj as ->.
Qed.
End Scan.

Lemma table_idx_elem i : i ∈ table_idx <-> (i < PATH_TABLE_MAX)%nat.
Proof. unfold table_idx. rewrite elem_of_seq. lia. Qed.

Lemma evict_spec t now :
  match scan (fun i => negb (Z.of_nat i =? sel t)) (evict_worse t now) table_idx with
  | None => forall i, (i < PATH_TABLE_MAX)%nat -> Z.of_nat i = sel t
  | Some k => (k < PATH_TABLE_MAX)%nat /\ Z.of_nat k <> sel t /\
      forall i, (i < PATH_TABLE_MAX)%nat -> Z.of_nat i <> sel t -> evict_worse t now i k = false
  end.
Proof.
  pose proof (scan_spec (fun i => negb (Z.of_nat i =? sel t)) (evict_worse t now)) as H.
  unfold no_lower in H. specialize (H ltac:(unfold evict_worse; intros; bool_cases; cbn; lia || done)).
  specialize (H ltac:(unfold evict_worse; intros i j k; bool_cases; cbn; lia || done)).
  specialize (H ltac:(unfold evict_worse; intros i j; bool_cases; cbn; lia || done) table_idx).
  destruct (scan _ _ _) as [k|].
  - destruct H as (H1 & H2 & H3). rewrite table_idx_elem in H1. apply negb_true_iff, Z.eqb_neq in H2.
    split_and!; try done. intros i Hi Hs. apply H3; [by apply table_idx_elem|].
    by apply negb_true_iff, Z.eqb_neq.
  - intros i Hi. apply table_idx_elem in Hi. specialize (H i Hi).
    by apply negb_false_iff, Z.eqb_eq in H.
Qed.

Lemma cmp_scan_spec t now ok :
  match scan ok (fun i b => path_cmp (slot t i) (slot t b) now <? 0) table_idx with
  | None => forall i, (i < PATH_TABLE_MAX)%nat -> ok i = false
  | Some k => (k < PATH_TABLE_MAX)%nat /\ ok k = true /\
      forall i, (i < PATH_TABLE_MAX)%nat -> ok i = true ->
        path_cmp (slot t k) (slot t i) now <= 0
  end.
Proof.
  pose proof (scan_spec ok (fun i b => path_cmp (slot t i) (slot t b) now <? 0)) as H.
  unfold no_lower in H.
  assert (forall i j, (path_cmp (slot t j) (slot t i) now <? 0) = false <->
                      path_cmp (slot t i) (slot t j) now <= 0) as Hle.
  { intros i j. rewrite Z.ltb_ge, (path_cmp_antisym (slot t i) (slot t j)). lia. }
  specialize (H ltac:(intros i; by rewrite path_cmp_refl)).
  specialize (H ltac:(intros i j k; rewrite !Hle; apply path_cmp_trans)).
  specialize (H ltac:(intros i j Hlt; rewrite Hle; apply Z.ltb_lt in Hlt; lia) table_idx).
  destruct (scan _ _ _) as [k|].
  - destruct H as (H1 & H2 & H3). rewrite table_idx_elem in H1. split_and!; try done.
    intros i Hi Ho. apply Hle, H3; [by apply table_idx_elem | done].
  - intros i Hi. apply H. by apply table_idx_elem.
Qed.

(** ** The invariant of a table *)
Record table_ok (t : path_table) : Prop := {
  tk_len : length (slots t) = PATH_TABLE_MAX;
  tk_range : -1 <= sel t < Z.of_nat PATH_TABLE_MAX;
  tk_sel : 0 <= sel t -> used (slot t (sel_idx t)) = true;
  tk_free : forall i, used (slot t i) = false -> (slot t i) <| usable := false |> = path_zero;
  tk_agent : forall i j, used (slot t i) = true -> used (slot t j) = true ->
    agent (slot t i) <> 0 -> agent (slot t i) = agent (slot t j) -> i = j;
  tk_key : forall i j, used (slot t i) = true -> used (slot t j) = true ->
    agent (slot t i) = 0 -> agent (slot t j) = 0 -> kind (slot t i) = kind (slot t j) ->
    peer_ep (slot t i) = peer_ep (slot t j) -> i = j
}.

Lemma used_in_range t i : used (slot t i) = true -> (i < length (slots t))%nat.
Proof.
  intros H. destruct (decide (i < length (slots t))%nat); [done|].
  by rewrite slot_beyond in H by lia.
Qed.

Lemma init_ok : table_ok path_table_init.
Proof.
  assert (forall i, slot path_table_init i = path_zero) as Hz.
  { intros i. unfold slot. cbn [slots path_table_init].
    destruct (decide (i < PATH_TABLE_MAX)%nat) as [Hi|Hi].
    - rewrite nth_lookup, lookup_replicate_2 by done. done.
    - rewrite nth_overflow; [done | rewrite length_replicate; lia]. }
  split; intros; rewrite ?Hz in *; done.
Qed.

(** A change to one held path that keeps what it is known by. *)
Lemma set_slot_ok t i p :
  table_ok t -> used (slot t i) = true -> used p = true -> agent p = agent (slot t i) ->
  kind p = kind (slot t i) -> (agent p <> 0 \/ peer_ep p = peer_ep (slot t i)) ->
  table_ok (set_slot t i p).
Proof.
  intros [H1 H2 H3 H4 H5 H6] Hi Hp Ha Hk He. pose proof (used_in_range t i Hi) as Hl.
  assert (forall j, used (slot (set_slot t i p) j) = used (slot t j) /\
    agent (slot (set_slot t i p) j) = agent (slot t j) /\
    kind (slot (set_slot t i p) j) = kind (slot t j) /\
    (agent (slot t j) <> 0 \/ peer_ep (slot (set_slot t i p) j) = peer_ep (slot t j))) as Hs.
  { intros j. destruct (decide (i = j)) as [<-|Hij].
    - rewrite slot_set_eq by done. rewrite Hp, Hi, Ha, Hk. rewrite Ha in He. done.
    - rewrite slot_set_ne by done. auto. }
  split.
  - cbn. by rewrite length_insert.
  - done.
  - intros Hsel. rewrite (proj1 (Hs _)). by apply H3.
  - intros j Hj. destruct (decide (i = j)) as [<-|Hij].
    + rewrite slot_set_eq in Hj by done. congruence.
    + rewrite slot_set_ne in * by done. by apply H4.
  - intros j k. destruct (Hs j) as (-> & -> & _), (Hs k) as (-> & -> & _). apply H5.
  - intros j k. destruct (Hs j) as (-> & -> & -> & Hej), (Hs k) as (-> & -> & -> & Hek).
    intros Hu Hu' Ha1 Ha2 Hkk Hep. apply H6; try done.
    destruct Hej as [?|<-]; [congruence|]. destruct Hek as [?|<-]; [congruence|]. done.
Qed.

(** A new path in a slot that is not the one in use. *)
Lemma new_slot_ok t i k rem ag ep now :
  table_ok t -> (i < PATH_TABLE_MAX)%nat -> (0 <= sel t -> i <> sel_idx t) ->
  (ag <> 0 -> forall j, used (slot t j) = true -> agent (slot t j) <> ag) ->
  (ag = 0 -> forall j, used (slot t j) = true ->
     ~ (kind (slot t j) = k /\ peer_ep (slot t j) = ep)) ->
  table_ok (set_slot t i (path_new k rem ag ep now)).
Proof.
  intros [H1 H2 H3 H4 H5 H6] Hi Hsel Hag Hkey.
  set (p := path_new k rem ag ep now).
  assert (used p = true /\ agent p = ag /\ kind p = k /\ peer_ep p = ep) as (P1 & P2 & P3 & P4).
  { unfold p, path_new. by destruct rem, (path_ep_any ep). }
  assert (slot (set_slot t i p) i = p) as Ei by (apply slot_set_eq; lia).
  assert (forall j, i <> j -> slot (set_slot t i p) j = slot t j) as En
    by (intros; by apply slot_set_ne).
  split.
  - cbn. by rewrite length_insert.
  - done.
  - intros Hs. change (sel_idx (set_slot t i p)) with (sel_idx t). rewrite En; auto.
  - intros j Hj. destruct (decide (i = j)) as [<-|Hij]; [by rewrite Ei, P1 in Hj|].
    rewrite En in * by done. by apply H4.
  - intros a b. destruct (decide (i = a)) as [<-|Ha], (decide (i = b)) as [<-|Hb];
      rewrite ?Ei, ?(En a), ?(En b) by done; rewrite ?P2; intros Hu1 Hu2 Hne Heq; try done.
    + by destruct (Hag Hne b Hu2).
    + rewrite Heq in Hne. by destruct (Hag Hne a Hu1).
    + by apply H5.
  - intros a b. destruct (decide (i = a)) as [<-|Ha], (decide (i = b)) as [<-|Hb];
      rewrite ?Ei, ?(En a), ?(En b) by done; rewrite ?P2, ?P3, ?P4;
      intros Hu1 Hu2 Ha1 Ha2 Hk He; try done.
    + by destruct (Hkey Ha1 b Hu2).
    + by destruct (Hkey Ha2 a Hu1).
    + by apply H6.
Qed.

(** Which slot an addition takes. *)
Lemma evict_slot t now i :
  table_ok t -> path_table_evict t now = Some i ->
  (i < PATH_TABLE_MAX)%nat /\ (0 <= sel t -> i <> sel_idx t) /\
  (used (slot t i) = false \/
   (forall j, (j < PATH_TABLE_MAX)%nat -> used (slot t j) = true) /\
   forall j, (j < PATH_TABLE_MAX)%nat -> Z.of_nat j <> sel t -> evict_worse t now j i = false).
Proof.
  intros [H1 H2 H3 H4 H5 H6] E. unfold path_table_evict in E.
  destruct (first_slot _ t) as [k|] eqn:Ef.
  - simplify_eq. apply first_slot_some in Ef as [Hi Hu]. apply negb_true_iff in Hu.
    split_and!; [lia | | by left]. intros Hs ->. specialize (H3 Hs). congruence.
  - pose proof (evict_spec t now) as Hs. rewrite E in Hs. destruct Hs as (Hi & Hne & Hw).
    split_and!; [done | unfold sel_idx; lia |]. right. split; [|done].
    intros j Hj. pose proof (first_slot_none _ _ Ef j ltac:(lia)) as Hf. by apply negb_false_iff in Hf.
Qed.

Lemma evict_some t now : table_ok t -> exists i, path_table_evict t now = Some i.
Proof.
  intros Hok. unfold path_table_evict. destruct (first_slot _ t) as [k|]; [eauto|].
  pose proof (evict_spec t now) as Hs. destruct (scan _ _ _) as [k|]; [eauto|].
  pose proof (Hs 0%nat ltac:(unfold PATH_TABLE_MAX; lia)).
  pose proof (Hs 1%nat ltac:(unfold PATH_TABLE_MAX; lia)). lia.
Qed.

(** What an addition does, in full. *)
Definition add_known (t : path_table) (k : path_kind) (ag : Z) (ep : path_ep) (i : nat) : Prop :=
  used (slot t i) = true /\
  if truth ag then agent (slot t i) = ag else kind (slot t i) = k /\ peer_ep (slot t i) = ep.

Lemma find_known t k ag ep i :
  (if truth ag then path_table_find_agent t ag else path_table_find t k ep) = Some i ->
  add_known t k ag ep i.
Proof.
  unfold add_known, truth, path_table_find_agent, path_table_find.
  destruct (Z.eqb_spec ag 0); cbn [negb]; intros H; apply first_slot_some in H as [_ H].
  - rewrite !andb_true_iff, path_ep_eq_iff in H. destruct H as [[H1 H2] H3].
    apply bool_decide_eq_true in H2. done.
  - by rewrite andb_true_iff, Z.eqb_eq in H.
Qed.

Lemma find_unknown t k ag ep :
  (if truth ag then path_table_find_agent t ag else path_table_find t k ep) = None ->
  forall j, ~ add_known t k ag ep j.
Proof.
  unfold add_known, truth, path_table_find_agent, path_table_find.
  destruct (Z.eqb_spec ag 0) as [Hz|Hz]; cbn [negb]; intros H j [Hu Hj];
    pose proof (used_in_range t j Hu) as Hl; pose proof (first_slot_none _ _ H j Hl) as Hf; cbn in Hf.
  - destruct Hj as [Hk He]. rewrite Hu, Hk in Hf. unfold kind_eqb in Hf.
    rewrite bool_decide_true in Hf by done. cbn [andb] in Hf.
    by rewrite (proj2 (path_ep_eq_iff _ _) He) in Hf.
  - by rewrite Hu, Hj, Z.eqb_refl in Hf.
Qed.

Lemma add_spec t k rem ag now ep :
  table_ok t ->
  match rem with Some r => path_ep_from_sockaddr r sizeof_sockaddr_in6 | None => Some ep_zero end
    = Some ep ->
  exists i, (path_table_add t k rem ag now).2 = Some i /\ (i < PATH_TABLE_MAX)%nat /\
    table_ok (path_table_add t k rem ag now).1 /\
    ((path_table_add t k rem ag now).1 = t /\ add_known t k ag ep i \/
     (forall j, ~ add_known t k ag ep j) /\ path_table_evict t now = Some i /\
     (path_table_add t k rem ag now).1 = set_slot t i (path_new k rem ag ep now)).
Proof.
  intros Hok Hep. unfold path_table_add. rewrite Hep.
  destruct (if truth ag then _ else _) as [i|] eqn:Ef.
  - exists i. pose proof (find_known _ _ _ _ _ Ef) as Hk. cbn. split_and!; auto.
    rewrite <- (tk_len t Hok). by apply used_in_range, Hk.
  - destruct (evict_some t now Hok) as [i Ei]. rewrite Ei. exists i. cbn [fst snd].
    destruct (evict_slot t now i Hok Ei) as (Hi & Hsel & _).
    pose proof (find_unknown _ _ _ _ Ef) as Hun. unfold add_known, truth in Hun.
    split_and!; [done | done | | right; auto].
    apply new_slot_ok; try done.
    + intros Hz j Hu Ha. apply (Hun j). rewrite (proj2 (Z.eqb_neq ag 0)) by done. done.
    + intros Hz j Hu Hke. apply (Hun j). rewrite (proj2 (Z.eqb_eq ag 0)) by done. done.
Qed.

(** A pass over the slots that forgets paths or keeps what they are known by. *)
Lemma map_slots_ok t g s :
  table_ok t -> g path_zero = path_zero ->
  (forall p, used (g p) = true ->
     used p = true /\ agent (g p) = agent p /\ kind (g p) = kind p /\ peer_ep (g p) = peer_ep p) ->
  (forall i, used (g (slot t i)) = false -> (g (slot t i)) <| usable := false |> = path_zero) ->
  -1 <= s < Z.of_nat PATH_TABLE_MAX -> (0 <= s -> used (g (slot t (Z.to_nat s))) = true) ->
  table_ok (mk_table (map g (slots t)) s).
Proof.
  intros [H1 H2 H3 H4 H5 H6] Hz Hg Hf Hr Hs.
  assert (forall i, slot (mk_table (map g (slots t)) s) i = g (slot t i)) as E
    by (intros; by apply slot_map).
  split.
  - cbn. by rewrite length_map.
  - done.
  - intros H. rewrite E. by apply Hs.
  - intros i. rewrite E. apply Hf.
  - intros i j. rewrite !E. intros Hi Hj.
    destruct (Hg _ Hi) as (Ui & -> & _), (Hg _ Hj) as (Uj & -> & _). by apply H5.
  - intros i j. rewrite !E. intros Hi Hj.
    destruct (Hg _ Hi) as (Ui & -> & -> & ->), (Hg _ Hj) as (Uj & -> & -> & ->). by apply H6.
Qed.

Lemma expire_frame p now :
  let q := path_probe_expire p now in
  used q = used p /\ usable q = usable p /\ agent q = agent p /\ kind q = kind p /\
  peer_ep q = peer_ep p /\ (forall t, path_warmth_of q t = path_warmth_of p t).
Proof.
  unfold path_probe_expire. destruct (negb _ || _ || _); [done|].
  unfold loss_record. by destruct (_ <? _).
Qed.

Lemma expire_all_slot t now i :
  slot (expire_all t now) i =
  if used (slot t i) then path_probe_expire (slot t i) now else slot t i.
Proof. unfold expire_all. by rewrite slot_map by done. Qed.

Lemma expire_all_frame t now i :
  used (slot (expire_all t now) i) = used (slot t i) /\
  usable (slot (expire_all t now) i) = usable (slot t i) /\
  path_warmth_of (slot (expire_all t now) i) now = path_warmth_of (slot t i) now.
Proof.
  rewrite expire_all_slot. destruct (used (slot t i)) eqn:E; [|done].
  pose proof (expire_frame (slot t i) now) as (H1 & H2 & _ & _ & _ & H6).
  rewrite H1, H2, H6, E. done.
Qed.

Lemma expire_all_ok t now : table_ok t -> table_ok (expire_all t now).
Proof.
  intros Hok. unfold expire_all. apply map_slots_ok; try done.
  - intros p. destruct (used p) eqn:E; [|congruence]. intros _.
    by pose proof (expire_frame p now) as (H1 & _ & H2 & H3 & H4 & _).
  - intros i. destruct (used (slot t i)) eqn:E; [|intros _; by apply (tk_free t Hok)].
    pose proof (expire_frame (slot t i) now) as (H1 & _). congruence.
  - apply (tk_range t Hok).
  - intros Hs. pose proof (tk_sel t Hok Hs) as Hu. unfold sel_idx in Hu. rewrite Hu.
    by rewrite (proj1 (expire_frame _ now)).
Qed.

Lemma drop_slots_ok f t :
  table_ok t -> table_ok (drop_slots f t).
Proof.
  intros Hok. unfold drop_slots. apply map_slots_ok; try done.
  - by destruct (f path_zero).
  - intros p. by destruct (f p).
  - intros i Hu. destruct (f (slot t i)); [done|]. by apply (tk_free t Hok).
  - destruct (_ && _); [unfold PATH_TABLE_MAX; lia | apply (tk_range t Hok)].
  - destruct (Z.leb_spec 0 (sel t)); cbn [andb].
    + destruct (f (slot t (sel_idx t))) eqn:E; [lia|]. intros _. unfold sel_idx in E. rewrite E.
      by apply (tk_sel t Hok).
    + lia.
Qed.

Lemma reset_ok t now : table_ok t -> table_ok (path_table_reset_stats t now).
Proof.
  intros Hok. unfold path_table_reset_stats. apply map_slots_ok; try done.
  - intros p. destruct (used p) eqn:E; [|congruence]. done.
  - intros i. destruct (used (slot t i)) eqn:E; [|intros _; by apply (tk_free t Hok)].
    cbn. congruence.
  - apply (tk_range t Hok).
  - intros Hs. pose proof (tk_sel t Hok Hs) as Hu. unfold sel_idx in Hu. rewrite Hu. done.
Qed.

(** Carriers coming and going: only whether a slot can send changes. *)
Lemma usable_ok t t' :
  table_ok t -> length (slots t') = length (slots t) -> sel t' = sel t ->
  (forall i, (slot t' i) <| usable := false |> = (slot t i) <| usable := false |>) ->
  table_ok t'.
Proof.
  intros [H1 H2 H3 H4 H5 H6] Hlen Hsel Hs.
  assert (forall i, used (slot t' i) = used (slot t i) /\ agent (slot t' i) = agent (slot t i) /\
    kind (slot t' i) = kind (slot t i) /\ peer_ep (slot t' i) = peer_ep (slot t i)) as E.
  { intros i. specialize (Hs i). destruct (slot t' i), (slot t i). cbn in *. by simplify_eq. }
  split.
  - congruence.
  - by rewrite Hsel.
  - unfold sel_idx. rewrite Hsel, (proj1 (E _)). apply H3.
  - intros i. rewrite (proj1 (E i)), Hs. apply H4.
  - intros i j. destruct (E i) as (-> & -> & _), (E j) as (-> & -> & _). apply H5.
  - intros i j. destruct (E i) as (-> & -> & -> & ->), (E j) as (-> & -> & -> & ->). apply H6.
Qed.

(** ** Lemmas: selection *)
Lemma best_spec t now :
  match path_best t now with
  | None => forall i, (i < PATH_TABLE_MAX)%nat -> best_ok t i = false
  | Some k => (k < PATH_TABLE_MAX)%nat /\ best_ok t k = true /\
      forall i, (i < PATH_TABLE_MAX)%nat -> best_ok t i = true ->
        path_cmp (slot t k) (slot t i) now <= 0
  end.
Proof. apply cmp_scan_spec. Qed.

Lemma best_ok_used t i : best_ok t i = true -> used (slot t i) = true /\ usable (slot t i) = true.
Proof. unfold best_ok. rewrite !andb_true_iff. tauto. Qed.

Lemma select_ok t now : table_ok t -> table_ok (path_select t now).
Proof.
  intros Hok. pose proof (expire_all_ok t now Hok) as [H1 H2 H3 H4 H5 H6].
  unfold path_select. pose proof (best_spec (expire_all t now) now) as Hb.
  set (t1 := expire_all t now) in *.
  destruct (path_best t1 now) as [b|].
  - destruct Hb as (Hi & Hbo & _). destruct (_ || _); [|done].
    split; cbn [sel slots]; try done; [unfold PATH_TABLE_MAX in *; lia|].
    intros _. unfold sel_idx. cbn [sel]. rewrite Nat2Z.id. by apply best_ok_used.
  - split; cbn [sel slots]; try done; unfold PATH_TABLE_MAX; lia.
Qed.

Lemma challenger_spec t now c :
  path_challenger t now = Some c ->
  0 <= sel t /\ (c < PATH_TABLE_MAX)%nat /\ challenger_ok t (sel_idx t) now c = true /\
  forall i, (i < PATH_TABLE_MAX)%nat -> challenger_ok t (sel_idx t) now i = true ->
    path_cmp (slot t c) (slot t i) now <= 0.
Proof.
  unfold path_challenger. destruct (Z.ltb_spec (sel t) 0); [done|]. cbn [orb].
  destruct (negb _); [done|]. intros E.
  pose proof (cmp_scan_spec t now (challenger_ok t (sel_idx t) now)) as Hs. rewrite E in Hs. tauto.
Qed.

Lemma challenger_ok_inv t s now i :
  challenger_ok t s now i = true ->
  i <> s /\ best_ok t i = true /\ path_warmth_of (slot t i) now = path_warmth_of (slot t s) now /\
  0 < path_base_srtt_ms (slot t i) /\
  path_base_bucket (slot t i) < path_base_bucket (slot t s) /\
  path_bucket (slot t i) < path_bucket (slot t s).
Proof.
  unfold challenger_ok, challenger_eligible, best_ok.
  rewrite !andb_true_iff, !negb_true_iff, !Z.leb_gt. intros [[H Hb] Hl].
  destruct (Nat.eqb_spec i s); [done|]. destruct (used (slot t i)); [|done].
  destruct (usable (slot t i)); [|done]. cbn [negb orb] in H.
  destruct (fully_lost (slot t i)); [done|]. case_bool_decide; [|done]. cbn [negb] in H.
  apply Z.ltb_lt in H. done.
Qed.

(** ** The table over time *)

(** Everything that changes a table: this file's operations, an event on one
    held path, its transport coming or going, and moving the selection to a
    path that is held, as the path plane does for a challenger or a statement
    of the peer.  The plane writes the transport flag of free slots too.
    Only a path over an agent is told its endpoint later. *)
Inductive table_step {C : Crypto} (key : bytes) (t : path_table) : path_table -> Prop :=
| ts_add k rem ag now : table_step key t (path_table_add t k rem ag now).1
| ts_offer k rem now : table_step key t (path_table_offer t k rem now).1
| ts_clear : table_step key t (path_table_clear t)
| ts_drop_agent ag : table_step key t (path_table_drop_agent t ag)
| ts_drop_kind k : table_step key t (path_table_drop_kind t k)
| ts_reset now : table_step key t (path_table_reset_stats t now)
| ts_select now : table_step key t (path_select t now)
| ts_adopt i : used (slot t i) = true -> table_step key t (mk_table (slots t) (Z.of_nat i))
| ts_usable i b :
    table_step key t (set_slot t i ((slot t i) <| usable := b |>))
| ts_event i e : used (slot t i) = true ->
    match e with EvPeerEp _ => agent (slot t i) <> 0 | _ => True end ->
    table_step key t (set_slot t i (h_path (path_ev_step key (mk_hist (slot t i) [] []) e))).

Inductive table_reach {C : Crypto} (key : bytes) : path_table -> Prop :=
| tr_init : table_reach key path_table_init
| tr_step t t' : table_reach key t -> table_step key t t' -> table_reach key t'.

Lemma add_ok t k rem ag now : table_ok t -> table_ok (path_table_add t k rem ag now).1.
Proof.
  intros Hok.
  destruct (match rem with Some r => path_ep_from_sockaddr r sizeof_sockaddr_in6
                      | None => Some ep_zero end) as [ep|] eqn:E.
  - by destruct (add_spec t k rem ag now ep Hok E) as (i & _ & _ & H & _).
  - unfold path_table_add. by rewrite E.
Qed.

Lemma offer_cases t k rem now :
  (path_table_offer t k rem now).1 = t \/
  (path_table_spare t now = true /\
   path_table_offer t k rem now = path_table_add t k rem 0 now).
Proof.
  unfold path_table_offer. destruct rem as [r|]; [|by left].
  destruct (path_ep_from_sockaddr r _); [|by left].
  destruct (path_table_find_ep t _); [by left|].
  destruct (path_table_spare t now); [by right | by left].
Qed.

Lemma event_frame {C : Crypto} key p e :
  let q := h_path (path_ev_step key (mk_hist p [] []) e) in
  used q = used p /\ agent q = agent p /\ kind q = kind p /\
  match e with EvPeerEp _ => True | _ => peer_ep q = peer_ep p end.
Proof.
  destruct e; cbn [path_ev_step h_path]; try done.
  - by pose proof (expire_frame p now) as (H1 & _ & H2 & H3 & H4 & _).
  - unfold path_probe_pong. destruct (_ || _); [done|].
    set (q := loss_record _ false).
    assert (used q = used p /\ agent q = agent p /\ kind q = kind p /\ peer_ep q = peer_ep p) as Hq.
    { unfold q, loss_record, rtt_record. cbn. by repeat destruct (_ <? PATH_LOSS_WINDOW). }
    destruct (negb (qualified (set last_pong_ms now q))); exact Hq.
  - unfold path_apply_tail, path_set_self_ep, path_peer_view.
    destruct (negb (pr_have_tail pr)); [done|]. by destruct (_ || _).
  - unfold path_set_peer_ep. by destruct (_ || _).
  - unfold path_saw_inbound. by destruct (negb _).
Qed.

Lemma step_ok {C : Crypto} key t t' : table_ok t -> table_step key t t' -> table_ok t'.
Proof.
  intros Hok Hs. destruct Hs.
  - by apply add_ok.
  - destruct (offer_cases t k rem now) as [->|[_ ->]]; [done | by apply add_ok].
  - apply init_ok.
  - unfold path_table_drop_agent. destruct (ag =? 0); [done | by apply drop_slots_ok].
  - by apply drop_slots_ok.
  - by apply reset_ok.
  - by apply select_ok.
  - pose proof (used_in_range t i H) as Hi. destruct Hok as [H1 H2 H3 H4 H5 H6].
    split; cbn [slots sel]; try done; [lia|]. intros _. unfold sel_idx. cbn [sel].
    by rewrite Nat2Z.id.
  - apply (usable_ok t); [done | by cbn; rewrite length_insert | done |]. intros j.
    destruct (decide (i = j)) as [<-|Hij]; [|by rewrite slot_set_ne].
    destruct (decide (i < length (slots t))%nat); [by rewrite slot_set_eq|].
    unfold slot, set_slot. cbn [slots]. by rewrite list_insert_ge by lia.
  - destruct (event_frame key (slot t i) e) as (E1 & E2 & E3 & E4).
    apply set_slot_ok; try done; [by rewrite E1|]. rewrite E2. destruct e; auto.
Qed.

(** ** Properties *)

(** In every table a connection can reach there are eight slots, the
    selection is none or a path that is held, a free slot is zeroed but for
    the flag that says its carrier can send, and no path is held twice: no two over the same agent, and no two over the
    shared socket of one kind with the same endpoint. *)
Theorem table_reachable_ok {C : Crypto} key t : table_reach key t -> table_ok t.
Proof. induction 1; [apply init_ok | by eapply step_ok]. Qed.

Definition two_paths : path_table :=
  (path_table_add
     (path_table_add path_table_init PATH_ROUTED (Some (AF_INET6 7 (replicate 16 1) 0)) 0 100).1
     PATH_ICE None 77 200).1.

Lemma table_reachable_ok_witness : table_ok (path_select two_paths 300) /\ sel (path_select two_paths 300) = 0.
Proof.
  split; [|vm_compute; reflexivity]. apply (@table_reachable_ok toy_crypto []).
  eapply tr_step; [|apply ts_select]. unfold two_paths.
  eapply tr_step; [|apply ts_add]. eapply tr_step; [apply tr_init | apply ts_add].
Defined.

(** Adding an endpoint always succeeds for a valid address and never
    disturbs the session: the selection and the path in use are untouched, an
    endpoint already held is returned as it is, and otherwise exactly one slot
    changes, to the new path: a free one if there is any, else the one that is
    worst, no other path (the one in use apart) being less warm, nor as warm
    and older. *)
Theorem table_add_never_displaces t k rem ag now ep :
  table_ok t ->
  match rem with Some r => path_ep_from_sockaddr r sizeof_sockaddr_in6 | None => Some ep_zero end
    = Some ep ->
  let t' := (path_table_add t k rem ag now).1 in
  exists i, (path_table_add t k rem ag now).2 = Some i /\ add_known t' k ag ep i /\
    sel t' = sel t /\ (0 <= sel t -> slot t' (sel_idx t) = slot t (sel_idx t)) /\
    (forall j, j <> i -> slot t' j = slot t j) /\
    (t' = t \/
     slot t' i = path_new k rem ag ep now /\
     (used (slot t i) = false \/
      (forall j, (j < PATH_TABLE_MAX)%nat -> used (slot t j) = true) /\
      (forall j, (j < PATH_TABLE_MAX)%nat -> Z.of_nat j <> sel t ->
         let w x := warmth_int (path_warmth_of (slot t x) now) in
         w j < w i \/ w j = w i /\ created_ms (slot t i) <= created_ms (slot t j)))).
Proof.
  intros Hok Hep t'. destruct (add_spec t k rem ag now ep Hok Hep)
    as (i & Hr & Hi & _ & [[Et Hk]|(Hun & Ev & Et)]); exists i; fold t' in Et.
  - rewrite Et. split_and!; auto.
  - destruct (evict_slot t now i Hok Ev) as (_ & Hsel & Hw).
    assert (slot t' i = path_new k rem ag ep now) as Ei.
    { rewrite Et. apply slot_set_eq. rewrite (tk_len t Hok). done. }
    assert (forall j, j <> i -> slot t' j = slot t j) as En.
    { intros j Hj. rewrite Et. by apply slot_set_ne. }
    split_and!; auto.
    + unfold add_known. rewrite Ei. unfold path_new, truth.
      destruct rem, (path_ep_any ep), (Z.eqb_spec ag 0); cbn; auto.
    + by rewrite Et.
    + intros Hs. apply En. intros E. by apply (Hsel Hs).
    + right. split; [done|]. destruct Hw as [Hf|[Hfull Hw]]; [by left|]. right. split; [done|].
      intros j Hj Hne. cbv zeta. specialize (Hw j Hj Hne). unfold evict_worse in Hw.
      apply orb_false_iff in Hw as [Hw1 Hw2]. apply Z.ltb_ge in Hw1.
      apply andb_false_iff in Hw2. rewrite Z.eqb_neq, Z.ltb_ge in Hw2. lia.
Qed.

Lemma table_add_never_displaces_witness :
  let t := path_select two_paths 300 in
  let t' := (path_table_add t PATH_SEGMENT (Some (AF_INET6 9 (replicate 16 2) 0)) 0 400).1 in
  sel t' = sel t /\ slot t' 0 = slot t 0 /\ used (slot t' 2) = true.
Proof.
  cbv zeta. destruct (table_add_never_displaces (path_select two_paths 300) PATH_SEGMENT
    (Some (AF_INET6 9 (replicate 16 2) 0)) 0 400 (mk_ep (replicate 16 2) 9))
    as (i & _ & _ & H1 & H2 & _).
  - apply select_ok. unfold two_paths. apply add_ok, add_ok, init_ok.
  - reflexivity.
  - split; [exact H1|]. split; [apply H2; vm_compute; discriminate|]. vm_compute. reflexivity.
Defined.

(** An endpoint the peer merely advertises never costs a path that may
    still work: every held path that is not dead, and the one in use, is
    exactly as it was, and so is the selection. *)
Theorem table_offer_spares_live t k rem now j :
  table_ok t -> used (slot t j) = true ->
  path_warmth_of (slot t j) now <> PATH_DEAD \/ Z.of_nat j = sel t ->
  let t' := (path_table_offer t k rem now).1 in
  slot t' j = slot t j /\ sel t' = sel t.
Proof.
  intros Hok Hu Hj t'. unfold t'. destruct (offer_cases t k rem now) as [->|[Hsp ->]]; [done|].
  destruct (match rem with Some r => path_ep_from_sockaddr r sizeof_sockaddr_in6
                      | None => Some ep_zero end) as [ep|] eqn:E.
  2:{ unfold path_table_add. by rewrite E. }
  destruct (add_spec t k rem 0 now ep Hok E) as (i & _ & Hi & _ & [[-> _]|(_ & Ev & ->)]); [done|].
  split; [|done]. apply slot_set_ne. intros ->.
  destruct (evict_slot t now j Hok Ev) as (_ & Hsel & [Hf|[Hfull Hw]]); [congruence|].
  assert (Z.of_nat j <> sel t) as Hns.
  { intros Hs. apply Hsel; [lia|]. unfold sel_idx. rewrite <- Hs. by rewrite Nat2Z.id. }
  destruct Hj as [Hj|Hj]; [|done]. apply Hj.
  unfold path_table_spare in Hsp. apply orb_true_iff in Hsp as [Hsp|Hsp].
  - apply existsb_exists in Hsp as (p & Hin & Hp). exfalso.
    destruct (In_nth (slots t) p path_zero Hin) as (n & Hn & En).
    specialize (Hfull n). unfold slot in Hfull. rewrite En in Hfull.
    rewrite Hfull in Hp by (rewrite <- (tk_len t Hok); done). done.
  - apply existsb_exists in Hsp as (d & Hin & Hd). apply andb_true_iff in Hd as [Hd1 Hd2].
    apply negb_true_iff, Z.eqb_neq in Hd1. apply bool_decide_eq_true in Hd2.
    assert (d < PATH_TABLE_MAX)%nat as Hdl by (apply in_seq in Hin; lia).
    specialize (Hw d Hdl Hd1). unfold evict_worse in Hw. rewrite Hd2 in Hw. cbn in Hw.
    apply orb_false_iff in Hw as [Hw _]. by destruct (path_warmth_of (slot t j) now).
Qed.

Lemma table_offer_spares_live_witness :
  let t' := (path_table_offer two_paths PATH_ROUTED (Some (AF_INET6 9 (replicate 16 2) 0)) 300).1 in
  slot t' 0 = slot two_paths 0 /\ path_table_count t' = 3.
Proof.
  cbv zeta. split; [|vm_compute; reflexivity].
  refine (proj1 (table_offer_spares_live two_paths PATH_ROUTED
    (Some (AF_INET6 9 (replicate 16 2) 0)) 300 0 _ _ _)).
  - unfold two_paths. apply add_ok, add_ok, init_ok.
  - reflexivity.
  - left. vm_compute. discriminate.
Defined.

(** Selection is an escape route and a cold start and nothing else.  After
    scoring overdue probes it selects nothing exactly when no path can carry;
    what it selects can send; an incumbent that can still send is kept unless
    some path that can carry is in a strictly better warmth tier; and when it
    moves, it moves to a path that can carry and ranks no lower than any other
    that can. *)
Theorem path_select_escape t now :
  table_ok t ->
  let t1 := expire_all t now in
  let t' := path_select t now in
  slots t' = slots t1 /\
  (sel t' = -1 <-> forall i, (i < PATH_TABLE_MAX)%nat -> best_ok t1 i = false) /\
  (0 <= sel t' -> used (slot t' (sel_idx t')) = true /\ usable (slot t' (sel_idx t')) = true) /\
  (0 <= sel t -> usable (slot t (sel_idx t)) = true -> sel t' <> -1 ->
   (forall i, (i < PATH_TABLE_MAX)%nat -> best_ok t1 i = true ->
      warmth_int (path_warmth_of (slot t (sel_idx t)) now) <=
      warmth_int (path_warmth_of (slot t i) now)) ->
   sel t' = sel t) /\
  (0 <= sel t' -> sel t' <> sel t ->
   best_ok t1 (sel_idx t') = true /\
   forall i, (i < PATH_TABLE_MAX)%nat -> best_ok t1 i = true ->
     path_cmp (slot t1 (sel_idx t')) (slot t1 i) now <= 0).
Proof.
  intros Hok t1 t'. pose proof (expire_all_ok t now Hok) as Hok1. fold t1 in Hok1.
  pose proof (best_spec t1 now) as Hb. unfold t', path_select. fold t1.
  destruct (path_best t1 now) as [b|].
  2:{ cbn [sel slots]. split_and!; try done; lia. }
  destruct Hb as (Hi & Hbo & Hmin). destruct (best_ok_used t1 b Hbo) as [Hbu Hbs].
  assert (~ forall i, (i < PATH_TABLE_MAX)%nat -> best_ok t1 i = false) as Hex.
  { intros H. by rewrite H in Hbo. }
  change (sel t1) with (sel t) in *. change (sel_idx t1) with (sel_idx t) in *.
  destruct (_ || _) eqn:Ec.
  - unfold sel_idx. cbn [sel slots]. rewrite Nat2Z.id. split_and!; try done; try lia.
    + split; [lia | done].
    + intros Hs Hus _ Hle. exfalso.
      destruct (Z.ltb_spec (sel t) 0); [lia|]. cbn [orb] in Ec.
      pose proof (tk_sel t Hok Hs) as Hu.
      destruct (expire_all_frame t now (sel_idx t)) as (F1 & F2 & F3).
      fold t1 in F1, F2, F3. change (Z.to_nat (sel t)) with (sel_idx t) in *.
      rewrite F1, F2, F3, Hu, Hus in Ec. cbn [orb negb] in Ec. apply Z.ltb_lt in Ec.
      specialize (Hle b Hi Hbo). destruct (expire_all_frame t now b) as (_ & _ & G3).
      fold t1 in G3. rewrite G3 in Ec. lia.
  - apply orb_false_iff in Ec as [Ec _]. apply orb_false_iff in Ec as [Ec E3].
    apply orb_false_iff in Ec as [E1 E2]. apply Z.ltb_ge in E1.
    apply negb_false_iff in E2, E3. change (sel_idx t1) with (sel_idx t).
    change (sel t1) with (sel t). split_and!; try done. split; [lia | done].
Qed.

Lemma path_select_escape_witness :
  sel (path_select two_paths 300) = 0 /\
  usable (slot (path_select two_paths 300) 0) = true.
Proof.
  assert (table_ok two_paths) as Hok by (unfold two_paths; apply add_ok, add_ok, init_ok).
  split; [vm_compute; reflexivity|].
  destruct (path_select_escape two_paths 300 Hok) as (_ & _ & H & _).
  apply H. vm_compute. discriminate.
Defined.

(** A challenger is a path that can carry, in the incumbent's own warmth
    tier, with a known unloaded delay, and strictly better on the unloaded and
    the loaded bucket at once; no other such path ranks above it; and having
    moved to it, the path just left is not a challenger to it, so two paths
    never trade places. *)
Theorem challenger_no_flap t now c :
  path_challenger t now = Some c ->
  best_ok t c = true /\ c <> sel_idx t /\
  path_warmth_of (slot t c) now = path_warmth_of (slot t (sel_idx t)) now /\
  0 < path_base_srtt_ms (slot t c) /\
  path_base_bucket (slot t c) < path_base_bucket (slot t (sel_idx t)) /\
  path_bucket (slot t c) < path_bucket (slot t (sel_idx t)) /\
  (forall i, (i < PATH_TABLE_MAX)%nat -> challenger_ok t (sel_idx t) now i = true ->
     path_cmp (slot t c) (slot t i) now <= 0) /\
  path_challenger (mk_table (slots t) (Z.of_nat c)) now <> Some (sel_idx t).
Proof.
  intros H. destruct (challenger_spec t now c H) as (Hs & Hc & Hok & Hmin).
  destruct (challenger_ok_inv _ _ _ _ Hok) as (Hne & Hb & Hw & Hbase & Hlt1 & Hlt2).
  split_and!; try done. intros H2. destruct (challenger_spec _ _ _ H2) as (_ & _ & Hok2 & _).
  destruct (challenger_ok_inv _ _ _ _ Hok2) as (_ & _ & _ & _ & Hlt3 & _).
  assert (sel_idx (mk_table (slots t) (Z.of_nat c)) = c) as E
    by (unfold sel_idx; cbn [sel]; lia).
  rewrite E in Hlt3. unfold slot in *. cbn [slots] in Hlt3. lia.
Qed.

(** Two answering paths, the second much nearer. *)
Definition near_and_far : path_table :=
  let answered p r := (path_probe_pong (path_probe_sent p 5 1000) 5 (1000 + r)).1 in
  let t := (path_table_add path_table_init PATH_ROUTED (Some (AF_INET6 7 (replicate 16 1) 0)) 0 100).1 in
  let t := (path_table_add t PATH_ROUTED (Some (AF_INET6 8 (replicate 16 2) 0)) 0 100).1 in
  mk_table (slots (set_slot (set_slot t 0 (answered (slot t 0) 90)) 1 (answered (slot t 1) 20))) 0.

Lemma challenger_no_flap_witness :
  path_challenger near_and_far 1200 = Some 1%nat /\
  path_challenger (mk_table (slots near_and_far) 1) 1200 <> Some 0%nat.
Proof.
  assert (path_challenger near_and_far 1200 = Some 1%nat) as H by (vm_compute; reflexivity).
  split; [exact H|].
  destruct (challenger_no_flap near_and_far 1200 1 H) as (_ & _ & _ & _ & _ & _ & _ & H7).
  exact H7.
Defined.
