(* ===== verification/PathAdopt.v ===== *)
(** src/src/path.c, last part: the budget for opening probes from a source no
    path holds.  Tokens are in thousandths. *)
From S2P Require Import Prelude Net Crypto Keys PathEp.

Definition PATH_ADOPT_RATE : Z := 8.
Definition PATH_ADOPT_DEPTH : Z := 8.
Definition PATH_ADOPT_SRC_MAX : nat := 8.

Record path_adopt_src := mk_src {
  as_addr : bytes;
  as_port : Z;
  as_used : bool;
  as_tokens : Z;
  as_ms : Z;
  as_seen_ms : Z
}.

Record path_adopt := mk_adopt { ad_tokens : Z; ad_ms : Z; ad_src : list path_adopt_src }.

(** The owner is zeroed. *)
Definition src_zero : path_adopt_src := mk_src (replicate 16 0) 0 false 0 0 0.
Definition adopt_zero : path_adopt := mk_adopt 0 0 (replicate PATH_ADOPT_SRC_MAX src_zero).

(** The tokens left, and whether one was taken; [*ms] becomes [now]. *)
Definition bucket_take (tokens ms now : Z) : Z * bool :=
  let cap := PATH_ADOPT_DEPTH * 1000 in
  let gained := u64 (u64 (now - ms) * PATH_ADOPT_RATE) in
  let tokens := if (cap <=? gained) || (cap <=? tokens + i32 gained) then cap
                else tokens + i32 gained in
  if tokens <? 1000 then (tokens, false) else (tokens - 1000, true).

Definition src_is (s : path_adopt_src) (ep : path_ep) : bool :=
  (as_port s =? ep_port ep) && bytes_eqb (as_addr s) (ep_addr ep).

(** The loop over the ring from [i], and the choice after it: the slot that
    holds the source, a free one met before it, or the least recently seen. *)
Fixpoint adopt_slot (all l : list path_adopt_src) (i oldest : nat) (ep : path_ep) : nat :=
  match l with
  | [] => oldest
  | s :: l' =>
      if as_used s && src_is s ep then i
      else if negb (as_used s) then i
      else adopt_slot all l' (S i)
             (if as_seen_ms s <? as_seen_ms (nth oldest all src_zero) then i else oldest) ep
  end.

Definition path_adopt_allow (a : path_adopt) (ep : path_ep) (now : Z) : path_adopt * bool :=
  let i := adopt_slot (ad_src a) (ad_src a) 0 0 ep in
  let s := nth i (ad_src a) src_zero in
  let s := if negb (as_used s) || negb (src_is s ep)
           then mk_src (ep_addr ep) (ep_port ep) true (PATH_ADOPT_DEPTH * 1000) now 0
           else s in
  let '(st, paid) := bucket_take (as_tokens s) (as_ms s) now in
  let s := mk_src (as_addr s) (as_port s) (as_used s) st now now in
  let a := mk_adopt (ad_tokens a) (ad_ms a) (<[i := s]> (ad_src a)) in
  if negb paid then (a, false)
  else let '(tk, ok) := bucket_take (ad_tokens a) (ad_ms a) now in
       (mk_adopt tk now (ad_src a), ok).

(** A sequence of arrivals: how many were let through. *)
Fixpoint adopt_run (a : path_adopt) (l : list (path_ep * Z)) : path_adopt * Z :=
  match l with
  | [] => (a, 0)
  | (ep, now) :: l' =>
      let '(a1, ok) := path_adopt_allow a ep now in
      let '(a2, n) := adopt_run a1 l' in
      (a2, of_bool ok + n)
  end.

(** ** Lemmas *)
Definition bucket_ok (tokens : Z) : Prop := 0 <= tokens <= PATH_ADOPT_DEPTH * 1000.

(** Time runs forward and does not reach the end of 64 bits. *)
Fixpoint times_from (t : Z) (l : list (path_ep * Z)) : Prop :=
  match l with
  | [] => True
  | (_, now) :: l' => t <= now < 2 ^ 60 /\ times_from now l'
  end.

Definition last_time (t : Z) (l : list (path_ep * Z)) : Z := fold_left (fun _ x => x.2) l t.

(** What the bucket holds at a later time, if nothing is taken. *)
Definition level (tokens ms t : Z) : Z :=
  Z.min (PATH_ADOPT_DEPTH * 1000) (tokens + PATH_ADOPT_RATE * (t - ms)).

Lemma bucket_take_level tokens ms now :
  bucket_ok tokens -> 0 <= ms <= now -> now < 2 ^ 60 ->
  let '(tk, ok) := bucket_take tokens ms now in
  bucket_ok tk /\ tk + 1000 * of_bool ok = level tokens ms now.
Proof.
  unfold bucket_ok, bucket_take, level, PATH_ADOPT_DEPTH, PATH_ADOPT_RATE. intros Ht Hm Hn.
  rewrite (u64_id (now - ms)) by (unfold is_u64; lia).
  rewrite (u64_id ((now - ms) * 8)) by (unfold is_u64; lia).
  destruct (Z.leb_spec (8 * 1000) ((now - ms) * 8)); cbn [orb].
  - destruct (Z.ltb_spec (8 * 1000) 1000); cbn [of_bool]; lia.
  - rewrite i32_id by (unfold is_i32; lia).
    destruct (Z.leb_spec (8 * 1000) (tokens + (now - ms) * 8)).
    + destruct (Z.ltb_spec (8 * 1000) 1000); cbn [of_bool]; lia.
    + destruct (Z.ltb_spec (tokens + (now - ms) * 8) 1000); cbn [of_bool]; lia.
Qed.

(** The shared bucket is charged exactly for what is let through, and is not
    touched when the source's own refuses. *)
Lemma allow_shared a ep now :
  let '(a', ok) := path_adopt_allow a ep now in
  (ok = false /\ ad_tokens a' = ad_tokens a /\ ad_ms a' = ad_ms a) \/
  ((ad_tokens a', ok) = bucket_take (ad_tokens a) (ad_ms a) now /\ ad_ms a' = now).
Proof.
  unfold path_adopt_allow. destruct (bucket_take (as_tokens _) _ now) as [st paid].
  destruct paid; cbn [negb ad_tokens ad_ms]; [|by left].
  destruct (bucket_take (ad_tokens a) (ad_ms a) now) as [tk ok]. by right.
Qed.

Lemma adopt_run_bound l a t :
  bucket_ok (ad_tokens a) -> 0 <= ad_ms a <= t -> times_from t l ->
  1000 * (adopt_run a l).2 <=
    level (ad_tokens a) (ad_ms a) t + PATH_ADOPT_RATE * (last_time t l - t).
Proof.
  revert a t. induction l as [|[ep now] l IH]; intros a t Ht Hm Hl.
  - cbn. unfold bucket_ok, level, PATH_ADOPT_RATE, PATH_ADOPT_DEPTH in *. lia.
  - cbn [adopt_run times_from] in *. destruct Hl as [Hn Hl].
    change (last_time t ((ep, now) :: l)) with (last_time now l).
    pose proof (allow_shared a ep now) as Hs.
    destruct (path_adopt_allow a ep now) as [a1 ok].
    pose proof (bucket_take_level (ad_tokens a) (ad_ms a) now Ht ltac:(lia) ltac:(lia)) as Hb.
    assert (level (ad_tokens a) (ad_ms a) now <=
      level (ad_tokens a) (ad_ms a) t + PATH_ADOPT_RATE * (now - t)) as Hlev
      by (unfold level, PATH_ADOPT_RATE; lia).
    destruct Hs as [(-> & E1 & E2)|[E1 E2]].
    + specialize (IH a1 now ltac:(by rewrite E1) ltac:(lia) Hl). rewrite E1, E2 in IH.
      destruct (adopt_run a1 l) as [a2 n]. cbn [snd of_bool] in *. lia.
    + rewrite <- E1 in Hb. destruct Hb as [Hb1 Hb2].
      specialize (IH a1 now Hb1 ltac:(lia) Hl). rewrite E2 in IH.
      assert (level (ad_tokens a1) now now <= ad_tokens a1)
        by (unfold level, PATH_ADOPT_RATE; lia).
      destruct (adopt_run a1 l) as [a2 n]. cbn [snd] in *. lia.
Qed.

(** ** Properties *)

(** However many sources a flood comes from, the decryptions it costs are
    bounded: from any state of the budget, the probes let through over a run of
    arrivals number at most eight, and eight more for every second the run
    lasts; and an arrival its own source's budget refuses leaves the shared
    budget as it was. *)
Theorem adopt_rate_bound a t l ep now :
  bucket_ok (ad_tokens a) -> 0 <= ad_ms a <= t -> times_from t l ->
  1000 * (adopt_run a l).2 <=
    1000 * PATH_ADOPT_DEPTH + PATH_ADOPT_RATE * (last_time t l - t) /\
  (let s := nth (adopt_slot (ad_src a) (ad_src a) 0 0 ep) (ad_src a) src_zero in
   as_used s && src_is s ep = true -> (bucket_take (as_tokens s) (as_ms s) now).2 = false ->
   let '(a', ok) := path_adopt_allow a ep now in
   ok = false /\ ad_tokens a' = ad_tokens a /\ ad_ms a' = ad_ms a).
Proof.
  intros Ht Hm Hl. split.
  - pose proof (adopt_run_bound l a t Ht Hm Hl). unfold level in *. lia.
  - cbv zeta. intros Hs Hb. unfold path_adopt_allow. apply andb_true_iff in Hs as [-> ->].
    cbn [negb orb]. destruct (bucket_take _ _ now) as [st paid]. cbn [snd] in Hb. by rewrite Hb.
Qed.

Definition burst : list (path_ep * Z) :=
  map (fun i => (mk_ep (replicate 16 i) 7, 5000)) (seqZ 1 20).

Lemma adopt_rate_bound_witness :
  (adopt_run adopt_zero burst).2 = 8 /\ 1000 * (adopt_run adopt_zero burst).2 <= 8000.
Proof.
  split; [vm_compute; reflexivity|].
  refine (proj1 (adopt_rate_bound adopt_zero 5000 burst ep_zero 0 _ _ _)).
  - unfold bucket_ok, PATH_ADOPT_DEPTH. cbn. lia.
  - cbn. lia.
  - vm_compute. repeat split; discriminate.
Defined.

(** A source is charged for a probe the shared budget then refuses: the ninth
    source of a burst loses a token and is let through to nothing. *)
Lemma adopt_source_charged_on_refusal :
  let ep := mk_ep (replicate 16 9) 7 in
  let a := (adopt_run adopt_zero (take 8 burst)).1 in
  let '(a', ok) := path_adopt_allow a ep 5000 in
  ok = false /\ existsb (fun s => src_is s ep && (as_tokens s =? 7000)) (ad_src a') = true.
Proof. vm_compute. split; reflexivity. Qed.
