(* ===== verification/ProbePlane.v ===== *)
(** src/src/probeplane.c: the key schedule of a connection, which every probe
    and every stream datagram is sealed and opened under.  The mutex makes each
    critical section one step; an operation with two of them is written as two
    functions, so that what happens between them can be stated. *)
From S2P Require Import Prelude Replay Crypto Keys DataAuth PathEp.

Record probeplane := mk_pp {
  pp_magic : Z;
  pp_base : bytes;
  pp_pair : bytes;
  pair_ready : bool;
  pair_tx : bool;
  base_ok : bool;
  pp_seq : Z;
  pp_rx : replay_win;
  data_seq : Z;
  data_rx : replay_win
}.

Definition pp_eta (p : probeplane) : probeplane :=
  mk_pp (pp_magic p) (pp_base p) (pp_pair p) (pair_ready p) (pair_tx p) (base_ok p)
    (pp_seq p) (pp_rx p) (data_seq p) (data_rx p).

#[export] Instance set_pp_pair : Setter pp_pair := ltac:(solve_setter pp_eta).
#[export] Instance set_pair_ready : Setter pair_ready := ltac:(solve_setter pp_eta).
#[export] Instance set_pair_tx : Setter pair_tx := ltac:(solve_setter pp_eta).
#[export] Instance set_base_ok : Setter base_ok := ltac:(solve_setter pp_eta).
#[export] Instance set_pp_seq : Setter pp_seq := ltac:(solve_setter pp_eta).
#[export] Instance set_pp_rx : Setter pp_rx := ltac:(solve_setter pp_eta).
#[export] Instance set_data_seq : Setter data_seq := ltac:(solve_setter pp_eta).
#[export] Instance set_data_rx : Setter data_rx := ltac:(solve_setter pp_eta).

Definition probeplane_init (magic : Z) (base : bytes) (seq0 : Z) : probeplane :=
  mk_pp magic base (replicate 32 0) false false true seq0 replay_zero seq0 replay_zero.

Definition probeplane_reset (pp : probeplane) : probeplane :=
  pp <| pair_ready := false |> <| pair_tx := false |> <| base_ok := true |>.

Definition probeplane_tx_ready (pp : probeplane) : probeplane * bool :=
  if pair_ready pp && negb (pair_tx pp) then (pp <| pair_tx := true |>, true) else (pp, false).

Record keys_now := mk_keys_now { k_tx : bytes; k_rx : bytes; k_have_rx : bool; k_base_ok : bool }.

Definition keys_take (pp : probeplane) : keys_now :=
  mk_keys_now (if pair_tx pp then pp_pair pp else pp_base pp) (pp_pair pp) (pair_ready pp)
    (base_ok pp).

Definition saw_pair (pp : probeplane) : probeplane :=
  if base_ok pp then pp <| base_ok := false |> else pp.

Definition probeplane_fresh (pp : probeplane) (pr : path_probe) : probeplane * bool :=
  let '(ok, w) := replay_ok (pp_rx pp) (pr_seq pr) in (pp <| pp_rx := w |>, ok).

(** [ufrag] may be NULL; it is copied into 41 bytes. *)
Definition probe_stamp (pr : path_probe) (ufrag : option bytes) (seq : Z) : path_probe :=
  mk_probe (pr_type pr) (pr_nonce pr) seq
    (take PROBE_UFRAG_MAX (match ufrag with Some u => u | None => [] end))
    (pr_have_tail pr) (pr_echo pr) (pr_srtt_ms pr) (pr_loss_ppt pr) (pr_base_srtt_ms pr).

Section ProbePlane.
Context {C : Crypto}.

Definition probeplane_bind (pp : probeplane) (half_out half_in : bytes) : probeplane :=
  pp <| pp_pair := keys_conn_key (pp_base pp) half_out half_in |> <| pair_ready := true |>.

(** The datagram, and the state with its counter moved on. *)
Definition probeplane_seal (pp : probeplane) (rnd : option bytes) (pr : path_probe)
  (ufrag : option bytes) (out_len : nat) : probeplane * option bytes :=
  let seq := u64 (pp_seq pp + 1) in
  let tx := if pair_tx pp then pp_pair pp else pp_base pp in
  (pp <| pp_seq := seq |>,
   path_probe_build out_len rnd (pp_magic pp) tx (probe_stamp pr ufrag seq)).

(** [probeplane_open] from the point where the keys have been copied out. *)
Definition open_with (pp : probeplane) (k : keys_now) (data : bytes) :
  probeplane * option path_probe :=
  match (if k_have_rx k then path_probe_parse (pp_magic pp) (k_rx k) data else None) with
  | Some pr => (saw_pair pp, Some pr)
  | None =>
      match path_probe_parse (pp_magic pp) (pp_base pp) data with
      | None => (pp, None)
      | Some pr =>
          if k_base_ok k then (pp, Some pr)
          else (pp, if pr_type pr =? PROBE_FRESH then Some pr else None)
      end
  end.

Definition probeplane_open (pp : probeplane) (data : bytes) : probeplane * option path_probe :=
  open_with pp (keys_take pp) data.

Definition probeplane_wrap (pp : probeplane) (out_max : nat) (data : bytes) :
  probeplane * option bytes :=
  let k := keys_take pp in
  let seq := u64 (data_seq pp + 1) in
  (pp <| data_seq := seq |>, dataauth_wrap out_max (k_tx k) data seq).

(** The check of the tag, from the point where the keys have been copied out. *)
Definition unwrap_with (pp : probeplane) (k : keys_now) (data : bytes) :
  probeplane * option (bytes * Z) :=
  match (if k_have_rx k then dataauth_open (k_rx k) data else None) with
  | Some r => (saw_pair pp, Some r)
  | None => (pp, if negb (k_base_ok k) then None else dataauth_open (pp_base pp) data)
  end.

(** [probeplane_unwrap] from the point where the keys have been copied out: the
    body, or [None] for the return of -1. *)
Definition unwrap_at (pp : probeplane) (k : keys_now) (data : bytes) : probeplane * option bytes :=
  match unwrap_with pp k data with
  | (pp, None) => (pp, None)
  | (pp, Some (body, seq)) =>
      let '(ok, w) := replay_ok (data_rx pp) seq in
      (pp <| data_rx := w |>, if negb ok then None else Some body)
  end.
Definition probeplane_unwrap (pp : probeplane) (data : bytes) : probeplane * option bytes :=
  unwrap_at pp (keys_take pp) data.

(** ** The plane over time, one operation after another *)
Inductive pp_step (pp : probeplane) : probeplane -> Prop :=
| ps_reset : pp_step pp (probeplane_reset pp)
| ps_bind a b : pp_step pp (probeplane_bind pp a b)
| ps_tx_ready : pp_step pp (probeplane_tx_ready pp).1
| ps_seal rnd pr u n : pp_step pp (probeplane_seal pp rnd pr u n).1
| ps_open d : pp_step pp (probeplane_open pp d).1
| ps_wrap n d : pp_step pp (probeplane_wrap pp n d).1
| ps_unwrap d : pp_step pp (probeplane_unwrap pp d).1
| ps_fresh pr : pp_step pp (probeplane_fresh pp pr).1.

Inductive pp_reach (magic : Z) (base : bytes) (seq0 : Z) : probeplane -> Prop :=
| pr_init : pp_reach magic base seq0 (probeplane_init magic base seq0)
| pr_step pp pp' : pp_reach magic base seq0 pp -> pp_step pp pp' -> pp_reach magic base seq0 pp'.

(** There is always a key to open with, and it is never sealed with before it
    exists. *)
Record pp_ok (magic : Z) (base : bytes) (pp : probeplane) : Prop := {
  po_magic : pp_magic pp = magic;
  po_base : pp_base pp = base;
  po_tx : pair_tx pp = true -> pair_ready pp = true;
  po_rx : base_ok pp = false -> pair_ready pp = true
}.

(** ** Lemmas *)
Lemma saw_pair_fields pp :
  pp_magic (saw_pair pp) = pp_magic pp /\ pp_base (saw_pair pp) = pp_base pp /\
  pp_pair (saw_pair pp) = pp_pair pp /\ pair_ready (saw_pair pp) = pair_ready pp /\
  pair_tx (saw_pair pp) = pair_tx pp /\ base_ok (saw_pair pp) = false /\
  pp_rx (saw_pair pp) = pp_rx pp /\ data_rx (saw_pair pp) = data_rx pp /\
  pp_seq (saw_pair pp) = pp_seq pp /\ data_seq (saw_pair pp) = data_seq pp.
Proof. unfold saw_pair. destruct (base_ok pp) eqn:E; cbn; by rewrite ?E. Qed.

(** What opening leaves behind: the state, or the state with the base spent,
    the latter only under a pair key that exists. *)
Lemma open_state pp d :
  (probeplane_open pp d).1 = pp \/
  ((probeplane_open pp d).1 = saw_pair pp /\ pair_ready pp = true /\
   path_probe_parse (pp_magic pp) (pp_pair pp) d <> None).
Proof.
  unfold probeplane_open, open_with. cbn [keys_take k_have_rx k_rx k_base_ok].
  destruct (pair_ready pp) eqn:Er.
  - destruct (path_probe_parse _ (pp_pair pp) d); [by right|].
    destruct (path_probe_parse _ (pp_base pp) d); [|by left]. destruct (base_ok pp); by left.
  - destruct (path_probe_parse _ (pp_base pp) d); [|by left]. destruct (base_ok pp); by left.
Qed.

Lemma unwrap_with_state pp d :
  (unwrap_with pp (keys_take pp) d).1 = pp \/
  ((unwrap_with pp (keys_take pp) d).1 = saw_pair pp /\ pair_ready pp = true /\
   dataauth_open (pp_pair pp) d <> None).
Proof.
  unfold unwrap_with. cbn [keys_take k_have_rx k_rx k_base_ok].
  destruct (pair_ready pp); [|by left]. destruct (dataauth_open _ d); [by right | by left].
Qed.

(** And what unwrapping does, the replay window apart. *)
Lemma unwrap_state pp d :
  exists w, (probeplane_unwrap pp d).1 = pp <| data_rx := w |> \/
   ((probeplane_unwrap pp d).1 = (saw_pair pp) <| data_rx := w |> /\ pair_ready pp = true /\
    dataauth_open (pp_pair pp) d <> None).
Proof.
  unfold probeplane_unwrap, unwrap_at. pose proof (unwrap_with_state pp d) as Hu.
  destruct (unwrap_with pp (keys_take pp) d) as [pp1 [[body n]|]]; cbn [fst] in Hu.
  - destruct (replay_ok (data_rx pp1) n) as [ok w]. exists w. cbn [fst].
    destruct Hu as [->|(-> & Hr & Hd)]; [by left | by right].
  - cbn [fst]. destruct Hu as [->|(-> & Hr & Hd)].
    + exists (data_rx pp). left. by destruct pp.
    + exists (data_rx (saw_pair pp)). right. split; [by destruct (saw_pair pp) | done].
Qed.

Lemma saw_pair_ok magic base pp : pp_ok magic base pp -> pair_ready pp = true -> pp_ok magic base (saw_pair pp).
Proof.
  intros [H1 H2 H3 H4] Hr. destruct (saw_pair_fields pp) as (E1 & E2 & E3 & E4 & E5 & E6 & _).
  split; rewrite ?E1, ?E2, ?E4, ?E5; auto.
Qed.

Lemma pp_step_ok magic base pp pp' : pp_ok magic base pp -> pp_step pp pp' -> pp_ok magic base pp'.
Proof.
  intros Hok Hs. pose proof Hok as [H1 H2 H3 H4]. destruct Hs.
  - by split.
  - by split.
  - unfold probeplane_tx_ready. destruct (pair_ready pp) eqn:E; [|done].
    destruct (pair_tx pp); cbn; [done|]. by split.
  - by split.
  - destruct (open_state pp d) as [->|(-> & Hr & _)]; [done | by apply saw_pair_ok].
  - by split.
  - destruct (unwrap_state pp d) as (w & [->|(-> & Hr & _)]); [by split|].
    destruct (saw_pair_ok magic base pp Hok Hr) as [K1 K2 K3 K4]. by split.
  - unfold probeplane_fresh. destruct (replay_ok (pp_rx pp) (pr_seq pr)). by split.
Qed.

Lemma pp_reach_ok magic base seq0 pp : pp_reach magic base seq0 pp -> pp_ok magic base pp.
Proof. induction 1; [by split | by eapply pp_step_ok]. Qed.

(** The counter a stream datagram carries, in the clear. *)
Definition counter_of (d : bytes) : Z :=
  get_u64 (drop (length d - DATAAUTH_TAG_LEN - DATAAUTH_CTR_LEN) d).

Lemma open_counter key d b n : dataauth_open key d = Some (b, n) -> n = counter_of d.
Proof.
  unfold dataauth_open. destruct (_ <? _)%nat; [done|]. destruct (negb _); [done|].
  by intros [= _ <-].
Qed.

Lemma counter_u64 d : bytes_ok d -> is_u64 (counter_of d).
Proof.
  intros Hd. unfold counter_of, get_u64.
  set (l := take 8 _). assert (bytes_ok l) as Hl by (by apply Forall_take, Forall_drop).
  pose proof (be_get_range l Hl) as Hr. assert (length l <= 8)%nat by (unfold l; rewrite length_take; lia).
  split; [lia|]. eapply Z.lt_le_trans; [apply Hr|]. apply Z.pow_le_mono_r; lia.
Qed.

(** The window after a datagram has been judged, under whatever keys, against the
    counters acted on. *)
Lemma unwrap_with_window pp k d : data_rx (unwrap_with pp k d).1 = data_rx pp.
Proof.
  unfold unwrap_with. destruct (if k_have_rx k then _ else None); [|done]. cbn [fst].
  by destruct (saw_pair_fields pp) as (_&_&_&_&_&_&_&->&_).
Qed.
Lemma unwrap_with_counter pp k d b n : (unwrap_with pp k d).2 = Some (b, n) -> n = counter_of d.
Proof.
  unfold unwrap_with. destruct (if k_have_rx k then _ else None) as [[b' n']|] eqn:E; cbn [snd].
  - destruct (k_have_rx k); [|done]. intros [= -> ->]. by eapply open_counter.
  - destruct (negb _); [done|]. by apply open_counter.
Qed.
Lemma unwrap_window pp k d acc :
  window_repr (data_rx pp) acc -> bytes_ok d ->
  let '(pp', r) := unwrap_at pp k d in
  window_repr (data_rx pp') (match r with None => acc | Some _ => counter_of d :: acc end) /\
  match r with
  | Some b => fresh_spec acc (counter_of d) /\ exists n, (unwrap_with pp k d).2 = Some (b, n)
  | None => forall x, (unwrap_with pp k d).2 = Some x -> ~ fresh_spec acc (counter_of d)
  end.
Proof.
  intros Hw Hd. unfold unwrap_at. pose proof (unwrap_with_window pp k d) as Ew. pose proof (unwrap_with_counter pp k d) as Ec.
  destruct (unwrap_with pp k d) as [pp1 [[body n]|]]; cbn [fst snd] in Ew, Ec; [|by rewrite Ew].
  rewrite Ew, (Ec body n eq_refl).
  pose proof (replay_ok_spec (data_rx pp) acc (counter_of d) Hw (counter_u64 d Hd)) as Hs.
  destruct (replay_ok (data_rx pp) (counter_of d)) as [ok w]. destruct Hs as [Hiff Hw'].
  destruct ok; cbn [negb]; (split; [done|]).
  - split; [by apply Hiff|]. by exists (counter_of d).
  - intros x _ H. by apply Hiff in H.
Qed.

(** ** A connection's whole life, the threads interleaved

    What any thread does to the plane at a time.  A frame or a datagram is judged under
    any keys, those copied out before another thread changed the plane among them;
    [probeplane_open] and [probeplane_unwrap] are the cases where nobody came between. *)
Inductive pp_act :=
| PReset | PBind (half_out half_in : bytes) | PTxReady
| PSeal (rnd : option bytes) (pr : path_probe) (ufrag : option bytes) (out_len : nat)
| POpen (k : keys_now) (data : bytes) | PSawPair | PFresh (pr : path_probe)
| PWrap (out_max : nat) (data : bytes) | PUnwrap (k : keys_now) (data : bytes).
(** The plane, and the datagram if it was delivered. *)
Definition pp_do (pp : probeplane) (a : pp_act) : probeplane * option bytes :=
  match a with
  | PReset => (probeplane_reset pp, None)
  | PBind a b => (probeplane_bind pp a b, None)
  | PTxReady => ((probeplane_tx_ready pp).1, None)
  | PSeal rnd pr u n => ((probeplane_seal pp rnd pr u n).1, None)
  | POpen k d => ((open_with pp k d).1, None)
  | PSawPair => (saw_pair pp, None)
  | PFresh pr => ((probeplane_fresh pp pr).1, None)
  | PWrap n d => ((probeplane_wrap pp n d).1, None)
  | PUnwrap k d => let '(pp, r) := unwrap_at pp k d in (pp, match r with Some _ => Some d | None => None end)
  end.
(** The plane after a run, and the datagrams delivered in it, newest first. *)
Fixpoint pp_run (pp : probeplane) (got : list bytes) (acts : list pp_act) : probeplane * list bytes :=
  match acts with
  | [] => (pp, got)
  | a :: acts => let '(pp, r) := pp_do pp a in pp_run pp (match r with Some d => d :: got | None => got end) acts
  end.
Definition arrivals_ok (a : pp_act) : Prop := match a with PUnwrap _ d => bytes_ok d | _ => True end.

(** Only a datagram that is judged touches the window of the stream. *)
Lemma open_with_window pp k d : data_rx (open_with pp k d).1 = data_rx pp.
Proof.
  unfold open_with. destruct (if k_have_rx k then _ else None); cbn [fst].
  - by destruct (saw_pair_fields pp) as (_&_&_&_&_&_&_&->&_).
  - destruct (path_probe_parse _ _ _); [|done]. by destruct (k_base_ok k).
Qed.
Lemma pp_do_window pp a :
  match a with PUnwrap _ _ => True | _ => data_rx (pp_do pp a).1 = data_rx pp /\ (pp_do pp a).2 = None end.
Proof.
  destruct a; cbn [pp_do fst snd]; try (split; done); try done.
  - unfold probeplane_tx_ready. by destruct (_ && _).
  - by rewrite open_with_window.
  - by destruct (saw_pair_fields pp) as (_&_&_&_&_&_&_&->&_).
  - unfold probeplane_fresh. by destruct (replay_ok _ _).
Qed.
Lemma pp_run_window acts : forall pp got,
  window_repr (data_rx pp) (map counter_of got) -> NoDup (map counter_of got) -> Forall arrivals_ok acts ->
  window_repr (data_rx (pp_run pp got acts).1) (map counter_of (pp_run pp got acts).2) /\
  NoDup (map counter_of (pp_run pp got acts).2).
Proof.
  induction acts as [|a acts IH]; intros pp got Hw Hn Ha; [done|]. apply Forall_cons in Ha as [Ha Has]. cbn [pp_run].
  pose proof (pp_do_window pp a) as Hd. destruct a as [| | | | | | | |k d];
    try (destruct (pp_do pp _) as [pp1 r]; cbn [fst snd] in Hd; destruct Hd as [Hd ->]; apply IH; [by rewrite Hd | done | done]).
  cbn [pp_do]. pose proof (unwrap_window pp k d (map counter_of got) Hw Ha) as Hs.
  destruct (unwrap_at pp k d) as [pp1 [b|]]; destruct Hs as [Hw' Hf]; apply IH; try done.
  cbn [map]. constructor; [|done]. by destruct Hf as [(_ & H & _) _].
Qed.

(** A frame opened between another thread's copying of the keys and its
    verdict: the reset in between is undone. *)
Lemma open_after_reset pp d pr :
  path_probe_parse (pp_magic pp) (pp_pair pp) d = Some pr -> pair_ready pp = true ->
  let pp' := (open_with (probeplane_reset pp) (keys_take pp) d).1 in
  base_ok pp' = false /\ pair_ready pp' = false.
Proof. intros Hp Hr. unfold open_with. cbn. rewrite Hr, Hp. done. Qed.
End ProbePlane.

(** ** Properties *)

(** C20: used one operation at a time, the key schedule never leaves a
    connection deaf: whenever the base key is spent the pair key is in hand,
    nothing is sealed under a pair key that does not exist, and the base key
    and the demux tag never change.  Once the base key is spent, a probe it
    opens is acted on only if it says the session is gone. *)
Theorem probeplane_never_deaf {C : Crypto} magic base seq0 pp :
  pp_reach magic base seq0 pp ->
  (base_ok pp = false -> pair_ready pp = true) /\ (pair_tx pp = true -> pair_ready pp = true) /\
  pp_base pp = base /\ pp_magic pp = magic /\
  forall d pr, (probeplane_open pp d).2 = Some pr -> base_ok pp = false ->
    path_probe_parse magic (pp_pair pp) d = Some pr \/
    (path_probe_parse magic base d = Some pr /\ pr_type pr = PROBE_FRESH).
Proof.
  intros Hr. destruct (pp_reach_ok _ _ _ _ Hr) as [H1 H2 H3 H4]. split_and!; auto.
  intros d pr Ho Hb. unfold probeplane_open, open_with in Ho. cbn in Ho.
  rewrite H1, H2, Hb, (H4 Hb) in Ho.
  destruct (path_probe_parse magic (pp_pair pp) d) as [pr'|] eqn:E.
  - left. cbn in Ho. congruence.
  - destruct (path_probe_parse magic base d) as [pr'|] eqn:E2; [|done]. cbn in Ho.
    destruct (Z.eqb_spec (pr_type pr') PROBE_FRESH); [|done]. simplify_eq. by right.
Qed.

Definition sample_plane : probeplane :=
  (@probeplane_tx_ready (@probeplane_bind toy_crypto (probeplane_init 99 [1; 2] 5) [3] [4])).1.

Lemma probeplane_never_deaf_witness :
  pair_tx sample_plane = true /\ pair_ready sample_plane = true.
Proof.
  assert (@pp_reach toy_crypto 99 [1; 2] 5 sample_plane) as Hr.
  { eapply pr_step; [eapply pr_step; [apply pr_init | apply ps_bind] | apply ps_tx_ready]. }
  split; [reflexivity|].
  apply (proj1 (proj2 (@probeplane_never_deaf toy_crypto 99 [1; 2] 5 sample_plane Hr))). reflexivity.
Defined.

(** C19: the stream is delivered at most once and nothing new is lost to the guard. Over a connection's
    whole life, however pair keys are bound, dropped and bound again, whatever is sealed and opened,
    and whatever arrives in whatever order, however often, under keys of the moment or copied out
    before a change, every datagram delivered carries a counter no earlier one carried, so none is
    delivered twice; and at any time a datagram whose tag is right under the keys it is judged with is
    delivered exactly if its counter has not been delivered before and is not behind the newest by the
    width of the window or more, whichever key it is under. *)
Theorem stream_at_most_once {C : Crypto} magic base seq0 acts :
  Forall arrivals_ok acts ->
  let r := pp_run (probeplane_init magic base seq0) [] acts in
  NoDup (map counter_of r.2) /\ NoDup r.2 /\
  forall k d body n, bytes_ok d -> (unwrap_with r.1 k d).2 = Some (body, n) ->
    ((unwrap_at r.1 k d).2 = Some body <-> fresh_spec (map counter_of r.2) (counter_of d)).
Proof.
  intros Ha. cbv zeta.
  destruct (pp_run_window acts (probeplane_init magic base seq0) [] window_repr_zero ltac:(constructor) Ha) as [Hw Hn].
  split; [done|]. split; [by eapply NoDup_fmap_1|]. intros k d body n Hd Hu.
  pose proof (unwrap_window _ k d _ Hw Hd) as Hs. destruct (unwrap_at _ k d) as [pp1 [b|]]; destruct Hs as [_ Hs]; cbn [snd].
  - destruct Hs as [Hf (n' & Hb)]. rewrite Hu in Hb. injection Hb as -> _. done.
  - split; [done|]. intros H. by apply Hs in Hu.
Qed.

Definition sample_datagram : bytes :=
  match (@probeplane_wrap toy_crypto (probeplane_init 99 [1; 2] 5) 100 [7; 8]).2 with
  | Some d => d | None => [] end.
Definition sample_paired : bytes :=
  match (@probeplane_wrap toy_crypto (sample_plane <| data_seq := 6 |>) 100 [9]).2 with
  | Some d => d | None => [] end.
Definition base_keys : keys_now := mk_keys_now [1; 2] (replicate 32 0) false true.
(** One datagram under the base key, twice; then the pair key is bound and one comes under it, twice; then
    the plane is reset and both come again, under the keys of then. *)
Definition sample_acts : list pp_act :=
  [PUnwrap base_keys sample_datagram; PUnwrap base_keys sample_datagram; PBind [3] [4];
   PUnwrap (keys_take sample_plane) sample_paired; PUnwrap (keys_take sample_plane) sample_paired; PReset;
   PUnwrap (keys_take sample_plane) sample_paired; PUnwrap base_keys sample_datagram].

Lemma stream_at_most_once_witness :
  (@pp_run toy_crypto (probeplane_init 99 [1; 2] 5) [] sample_acts).2 = [sample_paired; sample_datagram] /\
  NoDup (@pp_run toy_crypto (probeplane_init 99 [1; 2] 5) [] sample_acts).2.
Proof.
  split; [vm_compute; reflexivity|].
  apply (@stream_at_most_once toy_crypto).
  assert (B : forall l, forallb (fun x => (0 <=? x) && (x <? 256)) l = true -> bytes_ok l).
  { intros l H. apply Forall_forall. intros x Hx. rewrite forallb_forall in H. apply list_elem_of_In, H, andb_true_iff in Hx as [H1 H2].
    apply Z.leb_le in H1. apply Z.ltb_lt in H2. by split. }
  assert (bytes_ok sample_datagram) as H1 by (apply B; vm_compute; reflexivity).
  assert (bytes_ok sample_paired) as H2 by (apply B; vm_compute; reflexivity).
  repeat (apply Forall_cons_2; [first [exact H1 | exact H2 | exact I]|]). apply Forall_nil_2.
Defined.

(** The two halves of opening a frame are not one step, and a reset that
    falls between them is lost: a thread that copied the keys before the reset
    and opens a frame under the old pair key after it marks the base key spent
    on a plane that has no pair key, which then refuses every frame but the
    notice that the session is gone, although resetting before or after the
    whole call leaves the base key in force. *)
Theorem open_reset_race {C : Crypto} pp d pr :
  pair_ready pp = true -> path_probe_parse (pp_magic pp) (pp_pair pp) d = Some pr ->
  let raced := (open_with (probeplane_reset pp) (keys_take pp) d).1 in
  base_ok raced = false /\ pair_ready raced = false /\
  (forall d', (probeplane_unwrap raced d').2 = None) /\
  (forall d' pr', (probeplane_open raced d').2 = Some pr' -> pr_type pr' = PROBE_FRESH) /\
  base_ok (probeplane_reset (probeplane_open pp d).1) = true /\
  base_ok (probeplane_open (probeplane_reset pp) d).1 = true.
Proof.
  intros Hr Hp raced. destruct (open_after_reset pp d pr Hp Hr) as [Hb Hn]. fold raced in Hb, Hn.
  split_and!; try done.
  - intros d'. unfold probeplane_unwrap, unwrap_at, unwrap_with. cbn. by rewrite Hn, Hb.
  - intros d' pr' Ho. unfold probeplane_open, open_with in Ho. cbn in Ho. rewrite Hn, Hb in Ho.
    destruct (path_probe_parse _ _ d') as [q|]; [|done]. cbn in Ho.
    destruct (Z.eqb_spec (pr_type q) PROBE_FRESH); [|done]. by simplify_eq.
  - destruct (open_state (probeplane_reset pp) d) as [->|(_ & H & _)]; [done | by cbn in H].
Qed.

Lemma open_reset_race_witness :
  match (@probeplane_seal toy_crypto sample_plane (Some (replicate 24 3)) sample_probe
           (Some (cstr "abcd")) PROBE_MAX).2 with
  | Some d => base_ok (@open_with toy_crypto (probeplane_reset sample_plane)
                         (keys_take sample_plane) d).1 = false
  | None => False
  end.
Proof.
  destruct (probeplane_seal sample_plane _ _ _ _) as [pp' [d|]] eqn:E; cbn [snd].
  - assert (d = default [] (@probeplane_seal toy_crypto sample_plane (Some (replicate 24 3)) sample_probe
           (Some (cstr "abcd")) PROBE_MAX).2) as Hd by (by rewrite E).
    destruct (@path_probe_parse toy_crypto (pp_magic sample_plane) (pp_pair sample_plane) d)
      as [pr|] eqn:Ep.
    + exact (proj1 (@open_reset_race toy_crypto sample_plane d pr eq_refl Ep)).
    + subst d. vm_compute in Ep. discriminate Ep.
  - vm_compute in E. discriminate E.
Defined.
