(* ===== verification/CtlPlane.v ===== *)
(** src/src/ctlplane.c: what a pair tells each other over the control channel.
    [cp->pp] is a pointer to the connection's probe plane, so the operations
    that reach through it take and return that plane's state too.  The sinks
    are the calls made on them, in order. *)
From S2P Require Import Prelude Net Replay Crypto Keys DataAuth PathEp CtlProto ProbePlane Liveness.

Definition CTL_RDVST_PLEN : nat := CTL_RDV_PLEN + 1.

Record ctlplane_node := mk_node {
  cn_sa : sockaddr; cn_len : Z; cn_have : bool; cn_status : Z
}.
Definition node_zero : ctlplane_node := mk_node AF_OTHER 0 false 0.

Record ctlplane_live := mk_live {
  lv_last_pong_ms : Z;
  lv_last_heard_ms : Z;
  lv_lost_since_ms : Z;
  lv_rtt_ms : Z;
  lv_pong_seen : bool;
  lv_live_gen : Z
}.

Record ctlplane := mk_cp {
  half_out : bytes;
  half_in : bytes;
  half_sent : bool;
  half_seen : bool;
  rdv_in : ctlplane_node * ctlplane_node;      (* [0] v4, [1] v6 *)
  rdv_in_dirty : bool;
  reach_in : bytes;
  reach_in_seen : bool;
  reach_in_dirty : bool;
  rdvask_in : Z;
  rdvask_out : Z;
  txsel_seq_out : Z;
  txsel_seq_in : Z;
  txsel_wait : Z;
  txsel_in_pending : bool;
  txack_in_pending : bool;
  txsel_in_id : bytes;
  txack_in_id : bytes;
  txsel_in_flags : Z;
  txack_in_flags : Z;
  live : ctlplane_live
}.

Definition live_eta (l : ctlplane_live) : ctlplane_live :=
  mk_live (lv_last_pong_ms l) (lv_last_heard_ms l) (lv_lost_since_ms l) (lv_rtt_ms l)
    (lv_pong_seen l) (lv_live_gen l).
#[export] Instance set_lv_last_pong : Setter lv_last_pong_ms := ltac:(solve_setter live_eta).
#[export] Instance set_lv_last_heard : Setter lv_last_heard_ms := ltac:(solve_setter live_eta).
#[export] Instance set_lv_lost_since : Setter lv_lost_since_ms := ltac:(solve_setter live_eta).
#[export] Instance set_lv_rtt : Setter lv_rtt_ms := ltac:(solve_setter live_eta).
#[export] Instance set_lv_pong_seen : Setter lv_pong_seen := ltac:(solve_setter live_eta).
#[export] Instance set_lv_live_gen : Setter lv_live_gen := ltac:(solve_setter live_eta).

Definition cp_eta (c : ctlplane) : ctlplane :=
  mk_cp (half_out c) (half_in c) (half_sent c) (half_seen c) (rdv_in c) (rdv_in_dirty c)
    (reach_in c) (reach_in_seen c) (reach_in_dirty c) (rdvask_in c) (rdvask_out c)
    (txsel_seq_out c) (txsel_seq_in c) (txsel_wait c) (txsel_in_pending c) (txack_in_pending c)
    (txsel_in_id c) (txack_in_id c) (txsel_in_flags c) (txack_in_flags c) (live c).
#[export] Instance set_half_out : Setter half_out := ltac:(solve_setter cp_eta).
#[export] Instance set_half_in : Setter half_in := ltac:(solve_setter cp_eta).
#[export] Instance set_half_sent : Setter half_sent := ltac:(solve_setter cp_eta).
#[export] Instance set_half_seen : Setter half_seen := ltac:(solve_setter cp_eta).
#[export] Instance set_rdv_in : Setter rdv_in := ltac:(solve_setter cp_eta).
#[export] Instance set_rdv_in_dirty : Setter rdv_in_dirty := ltac:(solve_setter cp_eta).
#[export] Instance set_reach_in : Setter reach_in := ltac:(solve_setter cp_eta).
#[export] Instance set_reach_in_seen : Setter reach_in_seen := ltac:(solve_setter cp_eta).
#[export] Instance set_reach_in_dirty : Setter reach_in_dirty := ltac:(solve_setter cp_eta).
#[export] Instance set_rdvask_in : Setter rdvask_in := ltac:(solve_setter cp_eta).
#[export] Instance set_rdvask_out : Setter rdvask_out := ltac:(solve_setter cp_eta).
#[export] Instance set_txsel_seq_out : Setter txsel_seq_out := ltac:(solve_setter cp_eta).
#[export] Instance set_txsel_seq_in : Setter txsel_seq_in := ltac:(solve_setter cp_eta).
#[export] Instance set_txsel_wait : Setter txsel_wait := ltac:(solve_setter cp_eta).
#[export] Instance set_txsel_in_pending : Setter txsel_in_pending := ltac:(solve_setter cp_eta).
#[export] Instance set_txack_in_pending : Setter txack_in_pending := ltac:(solve_setter cp_eta).
#[export] Instance set_txsel_in_id : Setter txsel_in_id := ltac:(solve_setter cp_eta).
#[export] Instance set_txack_in_id : Setter txack_in_id := ltac:(solve_setter cp_eta).
#[export] Instance set_txsel_in_flags : Setter txsel_in_flags := ltac:(solve_setter cp_eta).
#[export] Instance set_txack_in_flags : Setter txack_in_flags := ltac:(solve_setter cp_eta).
#[export] Instance set_live : Setter live := ltac:(solve_setter cp_eta).

(** What the sinks answer ([None] is a NULL pointer), and which are there. *)
Record ctlplane_sinks := mk_sinks {
  answer_ping : option bool;
  sink_ready : option bool;
  has_offer_path : bool;
  has_pong : bool;
  has_other : bool
}.

Inductive ctl_call :=
| Send (type : Z) (payload : bytes)
| OfferPath (sa : sockaddr) (len : Z)
| Pong
| Other (type : Z) (pl : bytes).

Definition ctlplane_init : ctlplane :=
  mk_cp (replicate 32 0) (replicate 32 0) false false (node_zero, node_zero) false
    (replicate 4 0) false false 0 0 0 0 0 false false (replicate 8 0) (replicate 8 0) 0 0
    (mk_live 0 0 0 0 false 0).

Definition ctlplane_reset (cp : ctlplane) : ctlplane :=
  cp <| half_sent := false |> <| half_seen := false |> <| txsel_seq_out := 0 |>
     <| txsel_seq_in := 0 |> <| txsel_wait := 0 |> <| txsel_in_pending := false |>
     <| txack_in_pending := false |>.

(** ** Liveness *)
Definition ctlplane_live_reset (cp : ctlplane) (now : Z) : ctlplane :=
  cp <| live := (live cp) <| lv_last_pong_ms := now |> <| lv_last_heard_ms := now |>
                          <| lv_pong_seen := false |> <| lv_lost_since_ms := 0 |> |>.

Definition ctlplane_heard (cp : ctlplane) (now : Z) : ctlplane :=
  if u64 (now - lv_last_heard_ms (live cp)) <? 100 then cp
  else cp <| live := (live cp) <| lv_last_heard_ms := now |> |>.

Definition ctlplane_liveness (cp : ctlplane) : ctlplane_live := live cp.
Definition ctlplane_pong_seen (cp : ctlplane) : bool := lv_pong_seen (live cp).
Definition ctlplane_lost (cp : ctlplane) : bool := truth (lv_lost_since_ms (live cp)).

(** The state, the verdict and [*quiet_since]. *)
Definition ctlplane_judge (cp : ctlplane) (now : Z) : ctlplane * bool * Z :=
  let l := live cp in
  let lp := if lv_last_pong_ms l <? lv_last_heard_ms l then lv_last_heard_ms l
            else lv_last_pong_ms l in
  let l :=
    if lv_pong_seen l then
      if hb_lost_ms (lv_rtt_ms l) <? u64 (now - lp) then
        if truth (lv_lost_since_ms l) then l else l <| lv_lost_since_ms := now |>
      else l <| lv_lost_since_ms := 0 |>
    else l in
  (cp <| live := l |>, truth (lv_lost_since_ms l), lp).

(** ** What is said *)
Definition ctlplane_tell_rdv (family : Z) (sa : sockaddr) (status : Z) : list ctl_call :=
  match ctl_rdv_encode family sa with
  | Some pl => [Send CTLM_RDV (pl ++ [u8 status])]
  | None => []
  end.

Definition ctlplane_tell_cand (family : Z) (sa : sockaddr) : list ctl_call :=
  match ctl_rdv_encode family sa with
  | Some pl => [Send CTLM_CAND pl]
  | None => []
  end.

Definition not_ready (k : ctlplane_sinks) : bool :=
  match sink_ready k with Some r => negb r | None => false end.

(** The state, the calls and the sequence returned. *)
Definition ctlplane_tell_txsel (cp : ctlplane) (k : ctlplane_sinks) (pid : bytes) (flags : Z) :
  ctlplane * list ctl_call * Z :=
  if not_ready k then (cp, [], 0)
  else
    let seq := u32 (txsel_seq_out cp + 1) in
    (cp <| txsel_seq_out := seq |> <| txsel_wait := seq |> <| txack_in_pending := false |>,
     [Send CTLM_TXSEL (ctl_txsel_encode seq pid flags)], seq).

Definition ctlplane_tell_txack (k : ctlplane_sinks) (seq : Z) (pid : bytes) (flags : Z) :
  list ctl_call :=
  if not_ready k then [] else [Send CTLM_TXACK (ctl_txsel_encode seq pid flags)].

Definition ctlplane_take_txsel (cp : ctlplane) : ctlplane * option (Z * bytes * Z) :=
  if txsel_in_pending cp
  then (cp <| txsel_in_pending := false |>,
        Some (txsel_seq_in cp, txsel_in_id cp, txsel_in_flags cp))
  else (cp, None).

Definition ctlplane_take_txack (cp : ctlplane) : ctlplane * option (Z * bytes * Z) :=
  if txack_in_pending cp
  then (cp <| txack_in_pending := false |> <| txsel_wait := 0 |>,
        Some (txsel_wait cp, txack_in_id cp, txack_in_flags cp))
  else (cp, None).

Definition ctlplane_tell_reach (pl : bytes) : list ctl_call :=
  [Send CTLM_REACH (take CTL_REACH_PLEN pl)].
Definition ctlplane_ping (now : Z) : list ctl_call := [Send CTLM_PING (ctl_put_u64 now)].

Definition ctlplane_ask_rdv (cp : ctlplane) (family : Z) : ctlplane :=
  cp <| rdvask_out := rdvask_out cp .| (if family =? 6 then 2 else 1) |>.

Definition ctlplane_tell_asks (cp : ctlplane) : ctlplane * list ctl_call :=
  let ask := rdvask_out cp in
  (cp <| rdvask_out := 0 |>,
   (if truth (ask .& 1) then [Send CTLM_RDVASK [4]] else []) ++
   (if truth (ask .& 2) then [Send CTLM_RDVASK [6]] else [])).

Definition ctlplane_take_nodes (cp : ctlplane) :
  ctlplane * option (ctlplane_node * ctlplane_node) :=
  if rdv_in_dirty cp then (cp <| rdv_in_dirty := false |>, Some (rdv_in cp)) else (cp, None).

Definition ctlplane_take_asks (cp : ctlplane) : ctlplane * Z := (cp <| rdvask_in := 0 |>, rdvask_in cp).

Definition ctlplane_take_reach (cp : ctlplane) : ctlplane * option bytes :=
  if reach_in_dirty cp then (cp <| reach_in_dirty := false |>, Some (reach_in cp)) else (cp, None).

Definition ctlplane_peer_reach (cp : ctlplane) : option bytes :=
  if reach_in_seen cp then Some (reach_in cp) else None.

(** ** What is heard *)
Definition on_pong (cp : ctlplane) (k : ctlplane_sinks) (pl : bytes) (netgen now : Z) :
  ctlplane * list ctl_call :=
  (cp <| live := (live cp) <| lv_last_pong_ms := now |>
                           <| lv_rtt_ms := i32 (u64 (now - ctl_get_u64 pl)) |>
                           <| lv_pong_seen := true |> <| lv_live_gen := netgen |> |>,
   if has_pong k then [Pong] else []).

Definition sockaddr_len (sa : sockaddr) : Z :=
  match sa with
  | AF_INET _ _ => sizeof_sockaddr_in | AF_INET6 _ _ _ => sizeof_sockaddr_in6 | AF_OTHER => 0
  end.

Definition on_rdv (cp : ctlplane) (pl : bytes) : ctlplane :=
  match ctl_rdv_decode pl with
  | None => cp
  | Some (fam, sa) =>
      let status := if (CTL_RDVST_PLEN <=? length pl)%nat then nth CTL_RDV_PLEN pl 0 else 0 in
      let n := mk_node sa (sockaddr_len sa) true status in
      let '(n4, n6) := rdv_in cp in
      cp <| rdv_in := if fam =? 6 then (n4, n) else (n, n6) |> <| rdv_in_dirty := true |>
  end.

Definition on_txsel (cp : ctlplane) (pl : bytes) : ctlplane :=
  match ctl_txsel_decode pl with
  | None => cp
  | Some (seq, pid, flags) =>
      if txsel_seq_in cp <? seq
      then cp <| txsel_seq_in := seq |> <| txsel_in_id := pid |> <| txsel_in_flags := flags |>
              <| txsel_in_pending := true |>
      else cp
  end.

Definition on_txack (cp : ctlplane) (pl : bytes) : ctlplane :=
  match ctl_txsel_decode pl with
  | None => cp
  | Some (seq, pid, flags) =>
      if truth (txsel_wait cp) && (seq =? txsel_wait cp)
      then cp <| txack_in_id := pid |> <| txack_in_flags := flags |> <| txack_in_pending := true |>
      else cp
  end.

Section CtlPlane.
Context {C : Crypto}.

Definition key_bind (cp : ctlplane) (pp : probeplane) : probeplane * list ctl_call :=
  if pair_ready pp || negb (half_sent cp) || negb (half_seen cp) then (pp, [])
  else (probeplane_bind pp (half_out cp) (half_in cp), [Send CTLM_KEYOK []]).

(** [rnd] is what [random_bytes] fills the half with, [None] when it fails. *)
Definition ctlplane_offer_key (cp : ctlplane) (pp : probeplane) (rnd : option bytes) :
  ctlplane * probeplane * list ctl_call * bool :=
  match (if half_sent cp then None else rnd) with
  | None => (cp, pp, [], false)
  | Some half =>
      let cp := cp <| half_out := half |> <| half_sent := true |> in
      let '(pp, calls) := key_bind cp pp in
      (cp, pp, Send CTLM_KEY half :: calls, true)
  end.

Definition ctlplane_on_msg (cp : ctlplane) (pp : probeplane) (k : ctlplane_sinks)
  (type : Z) (pl : bytes) (netgen now : Z) : ctlplane * probeplane * list ctl_call * bool :=
  let has n := (n <=? length pl)%nat in
  if (type =? CTLM_PING) && has CTL_TS_LEN then
    (cp, pp, if match answer_ping k with Some b => b | None => true end
             then [Send CTLM_PONG (take CTL_TS_LEN pl)] else [], true)
  else if (type =? CTLM_PONG) && has CTL_TS_LEN then
    let '(cp, calls) := on_pong cp k pl netgen now in (cp, pp, calls, true)
  else if (type =? CTLM_RDV) && has CTL_RDV_PLEN then (on_rdv cp pl, pp, [], true)
  else if (type =? CTLM_REACH) && has CTL_REACH_PLEN then
    (cp <| reach_in := take CTL_REACH_PLEN pl |> <| reach_in_seen := true |>
        <| reach_in_dirty := true |>, pp, [], true)
  else if (type =? CTLM_KEY) && has CTL_KEY_PLEN then
    let cp := cp <| half_in := take CTL_KEY_PLEN pl |> <| half_seen := true |> in
    let '(pp, calls) := key_bind cp pp in (cp, pp, calls, true)
  else if type =? CTLM_KEYOK then (cp, (probeplane_tx_ready pp).1, [], true)
  else if (type =? CTLM_RDVASK) && has CTL_RDVASK_PLEN then
    let f := nth 0 pl 0 in
    (if (f =? 4) || (f =? 6)
     then cp <| rdvask_in := rdvask_in cp .| (if f =? 6 then 2 else 1) |> else cp, pp, [], true)
  else if (type =? CTLM_TXSEL) && has CTL_TXSEL_PLEN then (on_txsel cp pl, pp, [], true)
  else if (type =? CTLM_TXACK) && has CTL_TXSEL_PLEN then (on_txack cp pl, pp, [], true)
  else if (type =? CTLM_CAND) && has CTL_RDV_PLEN then
    (cp, pp, match ctl_rdv_decode pl with
             | Some (_, sa) => if has_offer_path k then [OfferPath sa (sockaddr_len sa)] else []
             | None => []
             end, true)
  else (cp, pp, if has_other k then [Other type pl] else [], false).

(** ** One end of a channel over time: statements and answers

    The statements taken and the answers taken, newest first. *)
Inductive tx_op :=
| TxMsg (type : Z) (pl : bytes) (netgen now : Z)
| TxTake
| TxTell (pid : bytes) (flags : Z)
| TxTakeAck
| TxOffer (rnd : option bytes).

Record tx_run := mk_run { r_cp : ctlplane; r_pp : probeplane; r_sels : list Z; r_acks : list Z }.

Definition tx_step (k : ctlplane_sinks) (r : tx_run) (o : tx_op) : tx_run :=
  let '(mk_run cp pp sels acks) := r in
  match o with
  | TxMsg type pl netgen now =>
      let '(cp, pp, _, _) := ctlplane_on_msg cp pp k type pl netgen now in mk_run cp pp sels acks
  | TxTake =>
      let '(cp, got) := ctlplane_take_txsel cp in
      mk_run cp pp (match got with Some (n, _, _) => n :: sels | None => sels end) acks
  | TxTell pid flags =>
      let '(cp, _, _) := ctlplane_tell_txsel cp k pid flags in mk_run cp pp sels acks
  | TxTakeAck =>
      let '(cp, got) := ctlplane_take_txack cp in
      mk_run cp pp sels (match got with Some (n, _, _) => n :: acks | None => acks end)
  | TxOffer rnd =>
      let '(cp, pp, _, _) := ctlplane_offer_key cp pp rnd in mk_run cp pp sels acks
  end.

(** Newest first and strictly falling, below a bound. *)
Fixpoint falling (bound : Z) (l : list Z) : Prop :=
  match l with
  | [] => True
  | x :: l' => x < bound /\ falling x l'
  end.

(** After [n] operations. *)
Record tx_inv (n : Z) (r : tx_run) : Prop := {
  ti_sels : falling (txsel_seq_in (r_cp r) + (if txsel_in_pending (r_cp r) then 0 else 1)) (r_sels r);
  ti_out : 0 <= txsel_seq_out (r_cp r) <= n;
  ti_wait : txsel_wait (r_cp r) = 0 \/ txsel_wait (r_cp r) = txsel_seq_out (r_cp r);
  ti_pend : txack_in_pending (r_cp r) = true -> txsel_wait (r_cp r) <> 0;
  ti_acks : falling (txsel_seq_out (r_cp r) + (if truth (txsel_wait (r_cp r)) then 0 else 1)) (r_acks r)
}.

Lemma falling_mono a b l : a <= b -> falling a l -> falling b l.
Proof. destruct l; cbn; [done|]. intros ? [? ?]. split; [lia | done]. Qed.

(** A message touches the numbering only as a statement or an answer. *)
Lemma on_msg_tx cp pp k type pl netgen now :
  let cp' := (ctlplane_on_msg cp pp k type pl netgen now).1.1.1 in
  let tx c := (txsel_seq_in c, txsel_in_pending c, txsel_seq_out c, txsel_wait c, txack_in_pending c) in
  tx cp' = tx cp \/
  (exists n, txsel_seq_in cp < n /\
     tx cp' = (n, true, txsel_seq_out cp, txsel_wait cp, txack_in_pending cp)) \/
  (txsel_wait cp <> 0 /\
   tx cp' = (txsel_seq_in cp, txsel_in_pending cp, txsel_seq_out cp, txsel_wait cp, true)).
Proof.
  unfold ctlplane_on_msg. cbv zeta.
  repeat match goal with |- context [if ?b then _ else _] =>
    lazymatch b with
    | (_ =? _) && _ => destruct b
    | (type =? CTLM_KEYOK) => destruct b
    end end; try by left.
  - unfold on_rdv. left. destruct (ctl_rdv_decode pl) as [[fam sa]|]; [|done].
    destruct (rdv_in cp). done.
  - left. by destruct (key_bind _ pp).
  - left. cbn. by destruct (_ || _).
  - unfold on_txsel. cbn. destruct (ctl_txsel_decode pl) as [[[n pid] flags]|]; [|by left].
    destruct (Z.ltb_spec (txsel_seq_in cp) n); [|by left]. right. left. by exists n.
  - unfold on_txack. cbn. destruct (ctl_txsel_decode pl) as [[[n pid] flags]|]; [|by left].
    unfold truth. destruct (Z.eqb_spec (txsel_wait cp) 0); [by left|]. cbn.
    destruct (n =? txsel_wait cp); [|by left]. by right; right.
Qed.

Lemma tx_step_inv k n r o : 0 <= n < 2 ^ 32 - 1 -> tx_inv n r -> tx_inv (n + 1) (tx_step k r o).
Proof.
  destruct r as [cp pp sels acks]. intros Hn [H1 H2 H3 H4 H5]. cbn [r_cp r_sels r_acks] in *.
  destruct o; cbn [tx_step].
  - pose proof (on_msg_tx cp pp k type pl netgen now) as Hm.
    destruct (ctlplane_on_msg cp pp k type pl netgen now) as [[[cp' pp'] calls] own].
    cbn [fst] in Hm.
    destruct Hm as [E|[(m & Hm & E)|[Hw E]]]; injection E as E1 E2 E3 E4 E5;
      split; cbn [r_cp r_sels r_acks]; rewrite ?E1, ?E2, ?E3, ?E4, ?E5; auto; try lia.
    eapply falling_mono; [|exact H1]. destruct (txsel_in_pending cp); lia.
  - unfold ctlplane_take_txsel. destruct (txsel_in_pending cp) eqn:Ep.
    + split; cbn; auto; try lia. split; [lia|]. by rewrite Z.add_0_r in H1.
    + split; cbn; rewrite ?Ep; auto; lia.
  - unfold ctlplane_tell_txsel. destruct (not_ready k); [split; cbn; auto; lia|].
    rewrite u32_id by (unfold is_u32; lia). split; cbn; auto; try lia; try done.
    eapply falling_mono; [|exact H5]. unfold truth.
    destruct (Z.eqb_spec (txsel_wait cp) 0), (Z.eqb_spec (txsel_seq_out cp + 1) 0); cbn; lia.
  - unfold ctlplane_take_txack. destruct (txack_in_pending cp) eqn:Ep.
    + specialize (H4 eq_refl). destruct H3 as [H3|H3]; [done|].
      split; cbn; auto; try lia; try done. unfold truth in H5.
      destruct (Z.eqb_spec (txsel_wait cp) 0); [done|]. cbn in H5. rewrite Z.add_0_r in H5.
      rewrite H3. split; [lia | done].
    + split; cbn; rewrite ?Ep; auto; lia.
  - unfold ctlplane_offer_key. destruct (if half_sent cp then None else rnd);
      [|split; cbn; auto; lia].
    destruct (key_bind _ pp) as [pp' calls]. split; cbn; auto; lia.
Qed.

Lemma tx_run_inv k ops n r :
  0 <= n -> n + Z.of_nat (length ops) < 2 ^ 32 -> tx_inv n r ->
  tx_inv (n + Z.of_nat (length ops)) (fold_left (tx_step k) ops r).
Proof.
  revert n r. induction ops as [|o ops IH]; intros n r Hn Hl Hi; cbn [length fold_left] in *.
  - by rewrite Z.add_0_r.
  - replace (n + Z.of_nat (S (length ops))) with (n + 1 + Z.of_nat (length ops)) by lia.
    apply IH; [lia | lia |]. apply tx_step_inv; [lia | done].
Qed.
End CtlPlane.

(** ** Properties *)

(** Over the life of a channel, whatever messages arrive and in whatever
    order they are taken, the statements acted on have strictly rising numbers,
    so an old or repeated one is never acted on again; and the answers acted on
    are each to a statement this end made, to a later one every time, so none
    is taken twice. *)
Theorem txsel_in_order {C : Crypto} k ops cp pp :
  Z.of_nat (length ops) < 2 ^ 32 ->
  let r := fold_left (tx_step k) ops (mk_run (ctlplane_reset cp) pp [] []) in
  falling (txsel_seq_in (r_cp r) + 1) (r_sels r) /\
  falling (txsel_seq_out (r_cp r) + 1) (r_acks r).
Proof.
  intros Hl r. assert (tx_inv (0 + Z.of_nat (length ops)) r) as [H1 _ _ _ H5].
  { apply tx_run_inv; [lia | lia |]. split; cbn; auto; done || lia. }
  split; (eapply falling_mono; [|eassumption]).
  - destruct (txsel_in_pending _); lia.
  - destruct (truth _); lia.
Qed.

Definition plain_sinks : ctlplane_sinks := mk_sinks None None false false false.

Definition sample_statements : list tx_op :=
  [TxMsg CTLM_TXSEL (ctl_txsel_encode 2 (replicate 8 5) 0) 0 0; TxTake;
   TxMsg CTLM_TXSEL (ctl_txsel_encode 1 (replicate 8 6) 0) 0 0; TxTake;
   TxMsg CTLM_TXSEL (ctl_txsel_encode 3 (replicate 8 7) 0) 0 0; TxTake].

Lemma txsel_in_order_witness :
  let r := fold_left (@tx_step toy_crypto plain_sinks) sample_statements
             (mk_run (ctlplane_reset ctlplane_init) (probeplane_init 1 [] 1) [] []) in
  r_sels r = [3; 2] /\ falling (txsel_seq_in (r_cp r) + 1) (r_sels r).
Proof.
  cbv zeta. split; [vm_compute; reflexivity|].
  refine (proj1 (@txsel_in_order toy_crypto plain_sinks sample_statements ctlplane_init
    (probeplane_init 1 [] 1) _)). cbn. lia.
Defined.

(** With a clock reading taken before another thread notes traffic at a
    later millisecond, the unsigned difference wraps and a live link is judged
    lost, although the peer was heard from more recently than now. *)
Theorem judge_wraps_backwards cp now :
  lv_pong_seen (live cp) = true -> is_i32 (lv_rtt_ms (live cp)) ->
  lv_last_heard_ms (live cp) = now + 1 -> lv_last_pong_ms (live cp) <= now ->
  0 < now < 2 ^ 63 ->
  let '(_, lost, quiet) := ctlplane_judge cp now in lost = true /\ now < quiet.
Proof.
  intros Hp Hr Hh Hl Hn. unfold ctlplane_judge. rewrite Hp, Hh.
  destruct (Z.ltb_spec (lv_last_pong_ms (live cp)) (now + 1)); [|lia].
  replace (now - (now + 1)) with (-1) by lia. change (u64 (-1)) with (2 ^ 64 - 1).
  assert (hb_lost_ms (lv_rtt_ms (live cp)) < 2 ^ 64 - 1) as Hb.
  { rewrite hb_lost_ms_value by done. lia. }
  apply Z.ltb_lt in Hb. rewrite Hb. split; [|lia].
  unfold truth. destruct (Z.eqb_spec (lv_lost_since_ms (live cp)) 0); cbn.
  - destruct (Z.eqb_spec now 0); [lia | done].
  - by destruct (Z.eqb_spec (lv_lost_since_ms (live cp)) 0).
Qed.

Lemma judge_wraps_backwards_witness :
  let cp := (ctlplane_heard (on_pong (ctlplane_live_reset ctlplane_init 5000) plain_sinks
               (ctl_put_u64 4990) 0 5000).1 6001) in
  (ctlplane_judge cp 6000).1.2 = true.
Proof.
  cbv zeta. set (cp := ctlplane_heard _ _).
  pose proof (judge_wraps_backwards cp 6000) as H.
  assert (lv_pong_seen (live cp) = true) as H1 by (vm_compute; reflexivity).
  assert (lv_rtt_ms (live cp) = 10) as H2 by (vm_compute; reflexivity).
  assert (lv_last_heard_ms (live cp) = 6000 + 1) as H3 by (vm_compute; reflexivity).
  assert (lv_last_pong_ms (live cp) = 5000) as H4 by (vm_compute; reflexivity).
  specialize (H H1 ltac:(rewrite H2; done) H3 ltac:(lia) ltac:(lia)).
  destruct (ctlplane_judge cp 6000) as [[cp' lost] q]. apply H.
Defined.
