(* ===== verification/KeyExchange.v ===== *)
(** Two ends of one connection: the key exchange of src/src/ctlplane.c over the
    schedule of src/src/probeplane.c, run by both ends at once.  The control
    channel is reliable and ordered in each direction; datagrams are delayed,
    reordered, repeated and lost at will, but reach only the far end.  One
    channel's life is modelled, so no end resets. *)
From S2P Require Import Prelude Replay Crypto Keys DataAuth PathEp CtlProto ProbePlane CtlPlane.

(** The left end, the right end, the control messages in flight each way, and
    every datagram ever sent each way (a probe when the flag is set, a stream
    datagram otherwise). *)
Record duo := mk_duo {
  lcp : ctlplane; lpp : probeplane;
  rcp : ctlplane; rpp : probeplane;
  qlr : list (Z * bytes); qrl : list (Z * bytes);
  alr : list (bool * bytes); arl : list (bool * bytes)
}.

Definition swap (d : duo) : duo :=
  mk_duo (rcp d) (rpp d) (lcp d) (lpp d) (qrl d) (qlr d) (arl d) (alr d).

Definition sends (calls : list ctl_call) : list (Z * bytes) :=
  omap (fun c => match c with Send t p => Some (t, p) | _ => None end) calls.

Section Duo.
Context {C : Crypto}.
(** What the two ends share, and which halves the random source may draw. *)
Context (magic : Z) (base : bytes) (half_ok : bytes -> Prop).

(** A datagram no pair key of this connection happens to accept. *)
Definition no_clash (x : bool * bytes) : Prop :=
  forall a b, half_ok a -> half_ok b ->
    if x.1 then path_probe_parse magic (keys_conn_key base a b) x.2 = None
    else dataauth_open (keys_conn_key base a b) x.2 = None.

(** The moves of one end.  A datagram sealed under the base key is taken not to
    verify under a pair key by accident, which an authenticator of this length
    makes improbable and not impossible. *)
Inductive left_step (d : duo) : duo -> Prop :=
| ls_offer half :
    half_ok half -> length half = CTL_KEY_PLEN ->
    let r := ctlplane_offer_key (lcp d) (lpp d) (Some half) in
    left_step d (mk_duo r.1.1.1 r.1.1.2 (rcp d) (rpp d) (qlr d ++ sends r.1.2) (qrl d) (alr d) (arl d))
| ls_recv k type pl rest netgen now :
    qrl d = (type, pl) :: rest ->
    let r := ctlplane_on_msg (lcp d) (lpp d) k type pl netgen now in
    left_step d (mk_duo r.1.1.1 r.1.1.2 (rcp d) (rpp d) (qlr d ++ sends r.1.2) rest (alr d) (arl d))
| ls_say type pl :
    type <> CTLM_KEY -> type <> CTLM_KEYOK ->
    left_step d (mk_duo (lcp d) (lpp d) (rcp d) (rpp d) (qlr d ++ [(type, pl)]) (qrl d) (alr d) (arl d))
| ls_seal rnd pr u n dg :
    length rnd = 24%nat -> (probeplane_seal (lpp d) (Some rnd) pr u n).2 = Some dg ->
    (pair_tx (lpp d) = false -> no_clash (true, dg)) ->
    left_step d (mk_duo (lcp d) (probeplane_seal (lpp d) (Some rnd) pr u n).1 (rcp d) (rpp d)
                   (qlr d) (qrl d) ((true, dg) :: alr d) (arl d))
| ls_open dg :
    (true, dg) ∈ arl d ->
    left_step d (mk_duo (lcp d) (probeplane_open (lpp d) dg).1 (rcp d) (rpp d)
                   (qlr d) (qrl d) (alr d) (arl d))
| ls_wrap n data dg :
    (probeplane_wrap (lpp d) n data).2 = Some dg ->
    (pair_tx (lpp d) = false -> no_clash (false, dg)) ->
    left_step d (mk_duo (lcp d) (probeplane_wrap (lpp d) n data).1 (rcp d) (rpp d)
                   (qlr d) (qrl d) ((false, dg) :: alr d) (arl d))
| ls_unwrap dg :
    (false, dg) ∈ arl d ->
    left_step d (mk_duo (lcp d) (probeplane_unwrap (lpp d) dg).1 (rcp d) (rpp d)
                   (qlr d) (qrl d) (alr d) (arl d)).

Inductive duo_reach : duo -> Prop :=
| dr_init lseq rseq :
    duo_reach (mk_duo ctlplane_init (probeplane_init magic base lseq)
                 ctlplane_init (probeplane_init magic base rseq) [] [] [] [])
| dr_left d d' : duo_reach d -> left_step d d' -> duo_reach d'
| dr_right d d' : duo_reach d -> left_step (swap d) (swap d') -> duo_reach d'.

(** ** The invariant, one direction at a time *)

Definition no_type (t : Z) (q : list (Z * bytes)) : Prop := Forall (fun m => m.1 <> t) q.

Record local_ok (cp : ctlplane) (pp : probeplane) : Prop := {
  lo_base : pp_base pp = base;
  lo_magic : pp_magic pp = magic;
  lo_tx : pair_tx pp = true -> pair_ready pp = true;
  lo_ready : pair_ready pp = half_sent cp && half_seen cp;
  lo_pair : pair_ready pp = true -> pp_pair pp = keys_conn_key base (half_out cp) (half_in cp);
  lo_half : half_sent cp = true -> half_ok (half_out cp) /\ length (half_out cp) = CTL_KEY_PLEN
}.

(** What the sender has put on its channel, against what the far end holds. *)
Definition channel_ok (scp rcp : ctlplane) (q : list (Z * bytes)) : Prop :=
  if half_sent scp then
    (half_seen rcp = true /\ half_in rcp = half_out scp /\ no_type CTLM_KEY q) \/
    (half_seen rcp = false /\ exists pre post, q = pre ++ (CTLM_KEY, half_out scp) :: post /\
       no_type CTLM_KEY pre /\ no_type CTLM_KEYOK pre /\ no_type CTLM_KEY post)
  else half_seen rcp = false /\ no_type CTLM_KEY q /\ no_type CTLM_KEYOK q.

Record one_way (d : duo) : Prop := {
  ow_local : local_ok (lcp d) (lpp d);
  ow_chan : channel_ok (lcp d) (rcp d) (qlr d);
  ow_keyok : pair_ready (lpp d) = false -> no_type CTLM_KEYOK (qlr d);
  ow_tx : pair_tx (rpp d) = true -> pair_ready (lpp d) = true;
  ow_spent : base_ok (rpp d) = false -> pair_tx (lpp d) = true;
  ow_air : Forall (fun x => no_clash x \/ pair_tx (lpp d) = true) (alr d);
  ow_told : pair_ready (lpp d) = true ->
    pair_tx (rpp d) = true \/ exists pl, (CTLM_KEYOK, pl) ∈ qlr d
}.

Definition duo_inv (d : duo) : Prop := one_way d /\ one_way (swap d).

(** ** Lemmas: queues *)
Lemma no_type_app t q1 q2 : no_type t (q1 ++ q2) <-> no_type t q1 /\ no_type t q2.
Proof. unfold no_type. by rewrite Forall_app. Qed.

Lemma no_type_cons t m q : no_type t (m :: q) <-> m.1 <> t /\ no_type t q.
Proof. unfold no_type. by rewrite Forall_cons. Qed.

(** Saying more, other than a half, keeps the channel. *)
Lemma channel_app scp rcp q ms :
  channel_ok scp rcp q -> no_type CTLM_KEY ms ->
  (half_sent scp = true \/ no_type CTLM_KEYOK ms) -> channel_ok scp rcp (q ++ ms).
Proof.
  unfold channel_ok. intros Hc Hm Hk. destruct (half_sent scp).
  - destruct Hc as [(H1 & H2 & H3)|(H1 & pre & post & -> & H3 & H4 & H5)].
    + left. split_and!; [done | done |]. by apply no_type_app.
    + right. split; [done|]. exists pre, (post ++ ms). rewrite <- app_assoc. split_and!; try done.
      by apply no_type_app.
  - destruct Hk as [?|Hk]; [done|]. destruct Hc as (H1 & H2 & H3).
    split_and!; [done | by apply no_type_app | by apply no_type_app].
Qed.

(** The far end takes a message that is neither a half nor an acknowledgement. *)
Lemma channel_pop scp rcp rcp' type pl q :
  channel_ok scp rcp ((type, pl) :: q) -> type <> CTLM_KEY ->
  half_seen rcp' = half_seen rcp -> half_in rcp' = half_in rcp -> channel_ok scp rcp' q.
Proof.
  unfold channel_ok. intros Hc Ht -> ->. destruct (half_sent scp).
  - destruct Hc as [(H1 & H2 & H3)|(H1 & pre & post & E & H3 & H4 & H5)].
    + left. apply no_type_cons in H3. tauto.
    + right. split; [done|]. destruct pre as [|m pre]; cbn in E; simplify_eq.
      apply no_type_cons in H3 as [_ H3], H4 as [_ H4]. eauto 10.
  - destruct Hc as (H1 & H2 & H3). apply no_type_cons in H2, H3. tauto.
Qed.

(** The far end meets the half. *)
Lemma channel_half scp rcp pl q :
  channel_ok scp rcp ((CTLM_KEY, pl) :: q) ->
  half_sent scp = true /\ half_seen rcp = false /\ pl = half_out scp /\ no_type CTLM_KEY q.
Proof.
  unfold channel_ok. intros Hc. destruct (half_sent scp).
  - destruct Hc as [(H1 & H2 & H3)|(H1 & pre & post & E & H3 & H4 & H5)].
    + apply no_type_cons in H3 as [H3 _]. done.
    + destruct pre as [|m pre]; cbn in E; simplify_eq; [done|].
      apply no_type_cons in H3 as [H3 _]. done.
  - destruct Hc as (_ & H2 & _). apply no_type_cons in H2 as [H2 _]. done.
Qed.

(** The far end meets an acknowledgement: it holds the half by then. *)
Lemma channel_keyok scp rcp pl q :
  channel_ok scp rcp ((CTLM_KEYOK, pl) :: q) -> half_seen rcp = true.
Proof.
  unfold channel_ok. intros Hc. destruct (half_sent scp).
  - destruct Hc as [(H1 & _)|(H1 & pre & post & E & H3 & H4 & H5)]; [done|].
    destruct pre as [|m pre]; cbn in E; simplify_eq.
    apply no_type_cons in H4 as [H4 _]. done.
  - destruct Hc as (_ & _ & H3). apply no_type_cons in H3 as [H3 _]. done.
Qed.

(** ** Lemmas: single operations *)

(** Every other message leaves the exchange alone, and answers with neither a
    half nor an acknowledgement. *)
Lemma on_msg_other cp pp k type pl netgen now :
  type <> CTLM_KEY -> type <> CTLM_KEYOK ->
  let r := ctlplane_on_msg cp pp k type pl netgen now in
  r.1.1.2 = pp /\ half_sent r.1.1.1 = half_sent cp /\ half_seen r.1.1.1 = half_seen cp /\
  half_out r.1.1.1 = half_out cp /\ half_in r.1.1.1 = half_in cp /\
  no_type CTLM_KEY (sends r.1.2) /\ no_type CTLM_KEYOK (sends r.1.2).
Proof.
  intros H1 H2. unfold ctlplane_on_msg. cbv zeta.
  rewrite (proj2 (Z.eqb_neq type CTLM_KEY) H1), (proj2 (Z.eqb_neq type CTLM_KEYOK) H2).
  cbn [andb].
  repeat match goal with |- context [if ?b then _ else _] =>
    lazymatch b with (type =? _) && _ => destruct b end end; cbn [fst snd];
    try (split_and!; done || by constructor).
  - destruct (answer_ping k) as [[|]|]; split_and!; done || by repeat constructor.
  - unfold on_pong. cbn. destruct (has_pong k); split_and!; done || by constructor.
  - unfold on_rdv. destruct (ctl_rdv_decode pl) as [[fam sa]|]; [|split_and!; done || by constructor].
    destruct (rdv_in cp). split_and!; done || by constructor.
  - destruct (_ || _); split_and!; done || by constructor.
  - unfold on_txsel. destruct (ctl_txsel_decode pl) as [[[n pid] fl]|];
      [|split_and!; done || by constructor].
    destruct (_ <? _); split_and!; done || by constructor.
  - unfold on_txack. destruct (ctl_txsel_decode pl) as [[[n pid] fl]|];
      [|split_and!; done || by constructor].
    destruct (_ && _); split_and!; done || by constructor.
  - destruct (ctl_rdv_decode pl) as [[fam sa]|]; [|split_and!; done || by constructor].
    destruct (has_offer_path k); split_and!; done || by constructor.
  - destruct (has_other k); split_and!; done || by constructor.
Qed.

(** Binding, when the other half is the last thing missing. *)
Lemma key_bind_spec cp pp :
  pair_ready pp = false ->
  key_bind cp pp =
  if half_sent cp && half_seen cp
  then (probeplane_bind pp (half_out cp) (half_in cp), [Send CTLM_KEYOK []]) else (pp, []).
Proof. intros Hr. unfold key_bind. rewrite Hr. by destruct (half_sent cp), (half_seen cp). Qed.

Lemma saw_pair_local cp pp : local_ok cp pp -> local_ok cp (saw_pair pp).
Proof.
  intros [H1 H2 H3 H4 H5 H6]. destruct (saw_pair_fields pp) as (E1 & E2 & E3 & E4 & E5 & _).
  split; rewrite ?E1, ?E2, ?E3, ?E4, ?E5; auto.
Qed.

(** One end's plane moves without touching the keys or which of them it may
    seal with: the direction it sends in is kept. *)
Lemma one_way_left d pp' :
  one_way d -> local_ok (lcp d) pp' -> pair_ready pp' = pair_ready (lpp d) ->
  pair_tx pp' = pair_tx (lpp d) -> pp_pair pp' = pp_pair (lpp d) ->
  one_way (mk_duo (lcp d) pp' (rcp d) (rpp d) (qlr d) (qrl d) (alr d) (arl d)).
Proof.
  intros [H1 H2 H3 H4 H5 H6 H7] Hl E1 E2 E3. split; cbn; rewrite ?E1, ?E2, ?E3; done.
Qed.

Lemma one_way_right d pp' :
  one_way d -> pair_tx pp' = pair_tx (rpp d) ->
  (base_ok pp' = base_ok (rpp d) \/ pair_tx (lpp d) = true) ->
  one_way (mk_duo (lcp d) (lpp d) (rcp d) pp' (qlr d) (qrl d) (alr d) (arl d)).
Proof.
  intros [H1 H2 H3 H4 H5 H6 H7] E1 E2. split; cbn; rewrite ?E1; auto.
  destruct E2 as [->|?]; auto.
Qed.

(** The pair key an end holds is made of two halves that were drawn, and both
    ends' are the same. *)
Lemma pair_halves d :
  duo_inv d -> pair_ready (lpp d) = true ->
  exists a b, half_ok a /\ half_ok b /\ pp_pair (lpp d) = keys_conn_key base a b.
Proof.
  intros [[Hl Hc _ _ _ _ _] [Hr Hc' _ _ _ _ _]] Hrd. rewrite (lo_pair _ _ Hl Hrd).
  pose proof (lo_ready _ _ Hl) as E. rewrite Hrd in E. symmetry in E.
  apply andb_true_iff in E as [Es Ee]. cbn in *. unfold channel_ok in Hc'.
  destruct (half_sent (rcp d)) eqn:Er.
  - destruct Hc' as [(_ & Hin & _)|(Hf & _)]; [|congruence]. rewrite Hin.
    exists (half_out (lcp d)), (half_out (rcp d)).
    split_and!; [by apply (lo_half _ _ Hl) | by apply (lo_half _ _ Hr) | done].
  - destruct Hc' as (Hf & _). congruence.
Qed.

Lemma pair_same d :
  duo_inv d -> pair_ready (lpp d) = true -> pair_ready (rpp d) = true ->
  pp_pair (lpp d) = pp_pair (rpp d).
Proof.
  intros [[Hl Hc _ _ _ _ _] [Hr Hc' _ _ _ _ _]] H1 H2. cbn in *.
  rewrite (lo_pair _ _ Hl H1), (lo_pair _ _ Hr H2).
  pose proof (lo_ready _ _ Hl) as E1. pose proof (lo_ready _ _ Hr) as E2.
  rewrite H1 in E1. rewrite H2 in E2. symmetry in E1, E2.
  apply andb_true_iff in E1 as [S1 S2], E2 as [S3 S4]. unfold channel_ok in Hc, Hc'.
  rewrite S1 in Hc. rewrite S3 in Hc'.
  destruct Hc as [(_ & Hi & _)|(Hf & _)]; [|congruence].
  destruct Hc' as [(_ & Hi' & _)|(Hf & _)]; [|congruence].
  rewrite Hi, Hi'. apply keys_conn_key_comm.
Qed.

(** ** Lemmas: every step keeps the invariant *)
Lemma offer_inv d half :
  duo_inv d -> half_ok half -> length half = CTL_KEY_PLEN ->
  let r := ctlplane_offer_key (lcp d) (lpp d) (Some half) in
  duo_inv (mk_duo r.1.1.1 r.1.1.2 (rcp d) (rpp d) (qlr d ++ sends r.1.2) (qrl d) (alr d) (arl d)).
Proof.
  intros [[Hl Hc Hk Ht Hs Ha Hd] [Rl Rc Rk Rt Rs Ra Rd]] Hh Hlen. unfold ctlplane_offer_key.
  destruct (half_sent (lcp d)) eqn:Es.
  { cbn [fst snd sends omap list_omap]. rewrite app_nil_r. split; split; done. }
  pose proof Hl as [L1 L2 L3 L4 L5 L6]. rewrite Es in L4. cbn in L4.
  set (cp' := set half_sent true _). rewrite key_bind_spec by done.
  unfold channel_ok in Hc. rewrite Es in Hc. destruct Hc as (Hns & Hq1 & Hq2).
  assert (pair_tx (lpp d) = false) as Htx by (destruct (pair_tx (lpp d)); [rewrite L3 in L4|]; done).
  assert (pair_tx (rpp d) = false) as Hrx.
  { destruct (pair_tx (rpp d)); [|done]. rewrite Ht in L4; done. }
  assert (base_ok (rpp d) = true) as Hbo.
  { destruct (base_ok (rpp d)); [done|]. rewrite Hs in Htx; done. }
  change (half_sent cp') with true. change (half_seen cp') with (half_seen (lcp d)). cbn [andb].
  destruct (half_seen (lcp d)) eqn:Ee; cbn [fst snd sends omap list_omap].
  - split; split; cbn; try done.
    + split; cbn; try done; by rewrite ?L1, ?Ee.
    + right. split; [done|]. exists (qlr d), [(CTLM_KEYOK, [])].
      split_and!; try done. by repeat constructor.
    + intros _. right. exists []. set_solver.
  - split; split; cbn; try done.
    + split; cbn; try done; by rewrite L4, ?Ee.
    + right. split; [done|]. exists (qlr d), []. split_and!; try done. constructor.
    + intros _. apply no_type_app. split; [done|]. by repeat constructor.
    + congruence.
Qed.

(** What was said of readiness still stands when another message is taken off
    the queue, and when more is said. *)
Lemma told_pop (P : Prop) type pl (rest : list (Z * bytes)) :
  type <> CTLM_KEYOK -> P \/ (exists pl', (CTLM_KEYOK, pl') ∈ (type, pl) :: rest) ->
  P \/ exists pl', (CTLM_KEYOK, pl') ∈ rest.
Proof.
  intros Hne [?|[pl' Hin]]; [by left|]. right. exists pl'.
  apply elem_of_cons in Hin as [Hin|Hin]; [|done]. congruence.
Qed.
Lemma told_app (P : Prop) (q ms : list (Z * bytes)) :
  P \/ (exists pl', (CTLM_KEYOK, pl') ∈ q) -> P \/ exists pl', (CTLM_KEYOK, pl') ∈ q ++ ms.
Proof. intros [?|[pl' Hin]]; [by left|]. right. exists pl'. set_solver. Qed.
Lemma no_type_tail t m (q : list (Z * bytes)) : no_type t (m :: q) -> no_type t q.
Proof. intros H. by apply no_type_cons in H as [_ H]. Qed.

(** The other end's half arrives. *)
Lemma recv_key_inv d k pl rest netgen now :
  duo_inv d -> qrl d = (CTLM_KEY, pl) :: rest ->
  let r := ctlplane_on_msg (lcp d) (lpp d) k CTLM_KEY pl netgen now in
  duo_inv (mk_duo r.1.1.1 r.1.1.2 (rcp d) (rpp d) (qlr d ++ sends r.1.2) rest (alr d) (arl d)).
Proof.
  intros Hi Hq. destruct Hi as [[Hl Hc Hk Ht Hs Ha Hd] [Rl Rc Rk Rt Rs Ra Rd]].
  cbn in Rl, Rc, Rk, Rt, Rs, Ra, Rd. rewrite Hq in Rc, Rk, Rd.
  pose proof Hl as [L1 L2 L3 L4 L5 L6]. cbv zeta.
  assert (forall t, no_type t ((CTLM_KEY, pl) :: rest) -> no_type t rest) as Hrest
    by (intros t; apply no_type_tail).
  assert (pair_ready (rpp d) = true -> pair_tx (lpp d) = true \/ exists pl, (CTLM_KEYOK, pl) ∈ rest) as Rd'
    by (intros Hr; eapply told_pop; [|by apply Rd]; done).
  destruct (channel_half _ _ _ _ Rc) as (R1 & R2 & -> & R3).
  pose proof (lo_half _ _ Rl R1) as [Hh Hlen].
  assert (ctlplane_on_msg (lcp d) (lpp d) k CTLM_KEY (half_out (rcp d)) netgen now =
    let cp := (lcp d) <| half_in := half_out (rcp d) |> <| half_seen := true |> in
    let '(pp, calls) := key_bind cp (lpp d) in (cp, pp, calls, true)) as ->.
  { unfold ctlplane_on_msg. rewrite Hlen. cbn.
    change (firstn 32 (half_out (rcp d))) with (take 32 (half_out (rcp d))).
    rewrite take_ge by (rewrite Hlen; unfold CTL_KEY_PLEN; lia). done. }
  cbv zeta. rewrite R2, andb_false_r in L4. rewrite key_bind_spec by done.
  cbn [half_sent half_seen half_out half_in set set_half_seen set_half_in]. rewrite andb_true_r.
  assert (pair_tx (lpp d) = false) as Htx by (destruct (pair_tx (lpp d)); [rewrite L3 in L4|]; done).
  assert (pair_tx (rpp d) = false) as Hrx.
  { destruct (pair_tx (rpp d)); [|done]. rewrite Ht in L4; done. }
  assert (base_ok (rpp d) = true) as Hbo.
  { destruct (base_ok (rpp d)); [done|]. rewrite Hs in Htx; done. }
  assert (channel_ok (rcp d) ((lcp d) <| half_in := half_out (rcp d) |> <| half_seen := true |>) rest)
    as Hch by (unfold channel_ok; rewrite R1; by left).
  destruct (half_sent (lcp d)) eqn:Es; cbn [fst snd sends omap list_omap].
  + split; split; cbn; try done; auto.
    * split; cbn; try done; by rewrite ?L1, ?Es.
    * apply channel_app; [by unfold channel_ok in * | by repeat constructor | by left].
    * intros _. right. exists []. set_solver.
  + rewrite app_nil_r. split; split; cbn; try done; auto.
    split; cbn; try done; by rewrite ?L4, ?Es.
Qed.

(** The other end's acknowledgement arrives. *)
Lemma recv_keyok_inv d k pl rest netgen now :
  duo_inv d -> qrl d = (CTLM_KEYOK, pl) :: rest ->
  let r := ctlplane_on_msg (lcp d) (lpp d) k CTLM_KEYOK pl netgen now in
  duo_inv (mk_duo r.1.1.1 r.1.1.2 (rcp d) (rpp d) (qlr d ++ sends r.1.2) rest (alr d) (arl d)).
Proof.
  intros Hi Hq. destruct Hi as [[Hl Hc Hk Ht Hs Ha Hd] [Rl Rc Rk Rt Rs Ra Rd]].
  cbn in Rl, Rc, Rk, Rt, Rs, Ra, Rd. rewrite Hq in Rc, Rk, Rd.
  pose proof Hl as [L1 L2 L3 L4 L5 L6]. cbv zeta.
  assert (forall t, no_type t ((CTLM_KEYOK, pl) :: rest) -> no_type t rest) as Hrest
    by (intros t; apply no_type_tail).
  pose proof (channel_keyok _ _ _ _ Rc) as Hseen.
  assert (pair_ready (rpp d) = true) as Hrr.
  { destruct (pair_ready (rpp d)); [done|]. specialize (Rk eq_refl).
    apply no_type_cons in Rk as [Rk _]. done. }
  change (ctlplane_on_msg (lcp d) (lpp d) k CTLM_KEYOK pl netgen now)
    with (lcp d, (probeplane_tx_ready (lpp d)).1, @nil ctl_call, true).
  cbn [fst snd sends omap list_omap]. rewrite app_nil_r.
  assert (channel_ok (rcp d) (lcp d) rest) as Hch by (by eapply channel_pop).
  unfold probeplane_tx_ready. destruct (pair_ready (lpp d)) eqn:Er.
  + destruct (pair_tx (lpp d)) eqn:Etx; cbn [negb andb fst].
    { split; split; cbn; rewrite ?Er, ?Etx; try done; auto. }
    split; split; cbn; rewrite ?Er; try done; auto.
    * split; cbn; rewrite ?Er; auto.
    * eapply Forall_impl; [exact Ha|]. intros x [?|?]; [by left | congruence].
  + exfalso. rewrite Hseen, andb_true_r in L4.
    pose proof (lo_ready _ _ Rl) as E. rewrite Hrr in E. symmetry in E.
    apply andb_true_iff in E as [_ E]. unfold channel_ok in Hc. rewrite <- L4 in Hc.
    destruct Hc as [Hc _]. congruence.
Qed.

(** Anything else arrives. *)
Lemma recv_other_inv d k type pl rest netgen now :
  type <> CTLM_KEY -> type <> CTLM_KEYOK -> duo_inv d -> qrl d = (type, pl) :: rest ->
  let r := ctlplane_on_msg (lcp d) (lpp d) k type pl netgen now in
  duo_inv (mk_duo r.1.1.1 r.1.1.2 (rcp d) (rpp d) (qlr d ++ sends r.1.2) rest (alr d) (arl d)).
Proof.
  intros Hnk Hno.
  intros Hi Hq. destruct Hi as [[Hl Hc Hk Ht Hs Ha Hd] [Rl Rc Rk Rt Rs Ra Rd]].
  cbn in Rl, Rc, Rk, Rt, Rs, Ra, Rd. rewrite Hq in Rc, Rk, Rd.
  pose proof Hl as [L1 L2 L3 L4 L5 L6]. cbv zeta.
  assert (forall t, no_type t ((type, pl) :: rest) -> no_type t rest) as Hrest
    by (intros t; apply no_type_tail).
  assert (pair_ready (rpp d) = true -> pair_tx (lpp d) = true \/ exists pl, (CTLM_KEYOK, pl) ∈ rest) as Rd'
    by (intros Hr; eapply told_pop; [|by apply Rd]; done).
  assert (forall ms, pair_ready (lpp d) = true ->
    pair_tx (rpp d) = true \/ exists pl, (CTLM_KEYOK, pl) ∈ qlr d ++ ms) as Hd'
    by (intros ms Hr; apply told_app; auto).
  destruct (on_msg_other (lcp d) (lpp d) k type pl netgen now Hnk Hno)
    as (-> & E1 & E2 & E3 & E4 & N1 & N2).
  split; split; cbn; auto.
  + split; rewrite ?E1, ?E2, ?E3, ?E4; auto.
  + apply channel_app; [|done|by right]. unfold channel_ok in *. by rewrite E1, E3.
  + intros Hr. apply no_type_app. auto.
  + by eapply channel_pop.
Qed.

Lemma recv_inv d k type pl rest netgen now :
  duo_inv d -> qrl d = (type, pl) :: rest ->
  let r := ctlplane_on_msg (lcp d) (lpp d) k type pl netgen now in
  duo_inv (mk_duo r.1.1.1 r.1.1.2 (rcp d) (rpp d) (qlr d ++ sends r.1.2) rest (alr d) (arl d)).
Proof.
  intros Hi Hq.
  destruct (decide (type = CTLM_KEY)) as [->|Hnk]; [by apply recv_key_inv|].
  destruct (decide (type = CTLM_KEYOK)) as [->|Hno]; [by apply recv_keyok_inv|].
  by apply recv_other_inv.
Qed.

(** A datagram leaves: its key is the one in force. *)
Lemma send_inv d pp' x :
  duo_inv d -> local_ok (lcp d) pp' -> pair_ready pp' = pair_ready (lpp d) ->
  pair_tx pp' = pair_tx (lpp d) -> pp_pair pp' = pp_pair (lpp d) -> base_ok pp' = base_ok (lpp d) ->
  (pair_tx (lpp d) = false -> no_clash x) ->
  duo_inv (mk_duo (lcp d) pp' (rcp d) (rpp d) (qlr d) (qrl d) (x :: alr d) (arl d)).
Proof.
  intros [[Hl Hc Hk Ht Hs Ha Hd] [Rl Rc Rk Rt Rs Ra Rd]] Hl' E1 E2 E3 E4 Hx.
  split; split; cbn in *; rewrite ?E1, ?E2, ?E3, ?E4; auto.
  constructor; [|done]. destruct (pair_tx (lpp d)); [by right | left; auto].
Qed.

(** A datagram arrives: opening it leaves the plane, or spends the base key
    because it was sealed under the pair key. *)
Lemma arrive_inv d (x : bool * bytes) pp' :
  duo_inv d -> x ∈ arl d -> local_ok (lcp d) pp' ->
  pair_ready pp' = pair_ready (lpp d) -> pair_tx pp' = pair_tx (lpp d) ->
  pp_pair pp' = pp_pair (lpp d) ->
  (base_ok pp' = base_ok (lpp d) \/
   (pair_ready (lpp d) = true /\
    ~ (if x.1 then path_probe_parse magic (pp_pair (lpp d)) x.2 = None
       else dataauth_open (pp_pair (lpp d)) x.2 = None))) ->
  duo_inv (mk_duo (lcp d) pp' (rcp d) (rpp d) (qlr d) (qrl d) (alr d) (arl d)).
Proof.
  intros Hi Hx Hl E1 E2 E3 Hb. pose proof Hi as [Ho Hw]. split.
  - by apply one_way_left.
  - apply (one_way_right (swap d)); [done | done |]. cbn.
    destruct Hb as [Hb|[Hr Hp]]; [by left | right].
    destruct Hw as [_ _ _ _ _ Ra _]. cbn in Ra. rewrite Forall_forall in Ra.
    destruct (Ra x Hx) as [Hbase|Htx]; [|done]. exfalso. apply Hp.
    destruct (pair_halves d Hi Hr) as (a & b & Ha & Hb & ->). by apply Hbase.
Qed.

Lemma left_inv d d' : duo_inv d -> left_step d d' -> duo_inv d'.
Proof.
  intros Hi Hs. pose proof Hi as [Ho Hw]. pose proof (ow_local _ Ho) as Hl.
  pose proof Hl as [L1 L2 L3 L4 L5 L6]. destruct Hs.
  - by apply offer_inv.
  - by eapply recv_inv.
  - destruct Ho as [_ Hc Hk Ht Hs Ha Hd], Hw as [Rl Rc Rk Rt Rs Ra Rd].
    split; split; cbn in *; auto.
    + apply channel_app; [done | by repeat constructor | right; by repeat constructor].
    + intros Hr. apply no_type_app. split; [auto | by repeat constructor].
    + intros Hr. destruct (Hd Hr) as [?|[pl' Hin]]; [by left|]. right. exists pl'. set_solver.
  - by apply send_inv.
  - apply (arrive_inv d (true, dg)); try done;
      destruct (open_state (lpp d) dg) as [E|(E & Hr & Hp)];
      rewrite E; try done; try by apply saw_pair_local.
    all: try (by destruct (saw_pair_fields (lpp d)) as (F1 & F2 & F3 & F4 & F5 & _)).
    + by left.
    + right. rewrite L2 in Hp. by split.
  - by apply send_inv.
  - destruct (unwrap_state (lpp d) dg) as (w & E).
    apply (arrive_inv d (false, dg)); try done; destruct E as [E|(E & Hr & Hp)]; rewrite E; try done.
    all: try (by destruct (saw_pair_fields (lpp d)) as (F1 & F2 & F3 & F4 & F5 & _)).
    + destruct (saw_pair_local _ _ Hl) as [K1 K2 K3 K4 K5 K6]. split; cbn; auto.
    + by left.
    + right. by split.
Qed.

Lemma swap_swap d : swap (swap d) = d.
Proof. by destruct d. Qed.

Lemma duo_reach_inv d : duo_reach d -> duo_inv d.
Proof.
  induction 1 as [lseq rseq|d d' _ IH Hs|d d' _ IH Hs].
  - split; split; cbn; try done; try (split; cbn; done); try by constructor.
    all: try (unfold channel_ok; cbn; split_and!; done || by constructor).
  - by eapply left_inv.
  - assert (duo_inv (swap d)) as Hsw by (destruct IH; split; [done | by rewrite swap_swap]).
    destruct (left_inv _ _ Hsw Hs) as [H1 H2]. rewrite swap_swap in H2. by split.
Qed.
End Duo.

(** ** Lemmas: what is sealed now opens now *)
Section Opens.
Context {C : Crypto} {L : CryptoLaws C}.
Context (magic : Z) (base : bytes) (half_ok : bytes -> Prop).

(** Which key the left seals with, and how the right stands towards it. *)
Lemma key_in_force d :
  duo_inv magic base half_ok d ->
  (pair_tx (lpp d) = true /\ pair_ready (rpp d) = true /\ pp_pair (rpp d) = pp_pair (lpp d)) \/
  (pair_tx (lpp d) = false /\ base_ok (rpp d) = true /\
   (pair_ready (rpp d) = true ->
    exists a b, half_ok a /\ half_ok b /\ pp_pair (rpp d) = keys_conn_key base a b)).
Proof.
  intros Hi. pose proof Hi as [Ho Hw]. destruct (pair_tx (lpp d)) eqn:Et.
  - left. assert (pair_ready (rpp d) = true) as Hr by (by apply (ow_tx _ _ _ _ Hw)).
    split_and!; try done. symmetry. apply (pair_same magic base half_ok); try done.
    by apply (lo_tx _ _ _ _ _ (ow_local _ _ _ _ Ho)).
  - right. split_and!; [done | |].
    + destruct (base_ok (rpp d)) eqn:Eb; [done|].
      rewrite (ow_spent _ _ _ _ Ho Eb) in Et. done.
    + intros Hr. apply (pair_halves magic base half_ok (swap d)); [|done].
      split; [done|]. by rewrite swap_swap.
Qed.

Lemma probe_opens d rnd pr u n dg :
  duo_inv magic base half_ok d -> is_u32 magic -> length rnd = 24%nat ->
  let stamped := probe_stamp pr u (u64 (pp_seq (lpp d) + 1)) in
  probe_ok stamped -> (probeplane_seal (lpp d) (Some rnd) pr u n).2 = Some dg ->
  (pair_tx (lpp d) = false -> no_clash magic base half_ok (true, dg)) ->
  (probeplane_open (rpp d) dg).2 = Some (probe_heard stamped).
Proof using L.
  intros Hi Hm Hr stamped Hok H Hnc. unfold probeplane_seal in H. cbn [snd] in H. fold stamped in H.
  pose proof Hi as [Ho Hw].
  destruct (ow_local _ _ _ _ Ho) as [B1 M1 _ _ _ _], (ow_local _ _ _ _ Hw) as [B2 M2 _ _ _ _].
  cbn in B2, M2. rewrite B1, M1 in H. unfold probeplane_open, open_with.
  cbn [keys_take k_have_rx k_rx k_base_ok]. rewrite B2, M2.
  destruct (key_in_force d Hi) as [(Et & Er & Ep)|(Et & Eb & Es)]; rewrite Et in H.
  - rewrite Er, Ep, (probe_parse_build n rnd magic _ stamped dg); done.
  - rewrite Eb. assert ((if pair_ready (rpp d) then path_probe_parse magic (pp_pair (rpp d)) dg
      else None) = None) as ->.
    { destruct (pair_ready (rpp d)); [|done].
      destruct (Es eq_refl) as (a & b & Ha & Hb & ->). by apply (Hnc Et). }
    rewrite (probe_parse_build n rnd magic _ stamped dg); done.
Qed.

Lemma wrap_open out_max key data seq dg :
  bytes_ok data -> is_u64 seq -> dataauth_wrap out_max key data seq = Some dg ->
  dataauth_open key dg = Some (data, seq).
Proof using L.
  intros Hd Hs H. unfold dataauth_wrap in H. destruct (_ <? _)%nat; [done|]. simplify_eq.
  set (b := data ++ put_u64 seq). unfold dataauth_open.
  pose proof (tag_of_length key b) as Ht. unfold DATAAUTH_TAG_LEN in Ht.
  assert (length b = length data + 8)%nat as Hb
    by (unfold b, put_u64; by rewrite length_app, be_put_length).
  unfold DATAAUTH_OVERHEAD, DATAAUTH_TAG_LEN, DATAAUTH_CTR_LEN.
  rewrite length_app, Ht, Hb. destruct (Nat.ltb_spec (length data + 8 + 16) 24); [lia|].
  replace (length data + 8 + 16 - 16)%nat with (length b) by lia.
  rewrite take_app_length, drop_app_length.
  assert (bytes_ok (tag_of key b)) as Htok by apply Forall_take, blake2b_ok.
  rewrite (proj2 (tag_eq_iff _ _ Htok Htok Ht Ht) eq_refl). cbn [negb].
  replace (length b - 8)%nat with (length data) by lia.
  assert (b ++ tag_of key b = data ++ put_u64 seq ++ tag_of key b) as ->
    by (unfold b at 1; by rewrite <- app_assoc).
  rewrite take_app_length, drop_app_length. unfold get_u64, put_u64.
  rewrite take_app_length' by (by rewrite be_put_length). by rewrite be_put8_get.
Qed.

Lemma stream_opens d n data dg :
  duo_inv magic base half_ok d -> bytes_ok data ->
  (probeplane_wrap (lpp d) n data).2 = Some dg ->
  (pair_tx (lpp d) = false -> no_clash magic base half_ok (false, dg)) ->
  (unwrap_with (rpp d) (keys_take (rpp d)) dg).2 = Some (data, u64 (data_seq (lpp d) + 1)).
Proof using L.
  intros Hi Hd H Hnc. unfold probeplane_wrap in H. cbn [snd keys_take k_tx] in H.
  pose proof Hi as [Ho Hw].
  destruct (ow_local _ _ _ _ Ho) as [B1 M1 _ _ _ _], (ow_local _ _ _ _ Hw) as [B2 M2 _ _ _ _].
  cbn in B2, M2. rewrite B1 in H. unfold unwrap_with.
  cbn [keys_take k_have_rx k_rx k_base_ok]. rewrite B2.
  destruct (key_in_force d Hi) as [(Et & Er & Ep)|(Et & Eb & Es)]; rewrite Et in H.
  - rewrite Er, Ep, (wrap_open n _ data (u64 (data_seq (lpp d) + 1)) dg); auto with word.
  - rewrite Eb. assert ((if pair_ready (rpp d) then dataauth_open (pp_pair (rpp d)) dg
      else None) = None) as ->.
    { destruct (pair_ready (rpp d)); [|done].
      destruct (Es eq_refl) as (a & b & Ha & Hb & ->). by apply (Hnc Et). }
    cbn [negb snd]. rewrite (wrap_open n _ data (u64 (data_seq (lpp d) + 1)) dg); auto with word.
Qed.
End Opens.

(** ** Properties *)

(** C1: through the whole key exchange, in whatever order its messages and the
    datagrams around it arrive, neither end ever seals what the other cannot
    open: at every reachable moment a probe the left seals is read by the right
    as it was written, and a stream datagram the left wraps passes the right's
    check with its body and counter, whichever of the two keys is in force at
    each end (and the other way round, the model being symmetric). *)
Theorem sealed_now_opens {C : Crypto} {L : CryptoLaws C} magic base half_ok d :
  is_u32 magic -> duo_reach magic base half_ok d ->
  (forall rnd pr u n dg, length rnd = 24%nat ->
     let stamped := probe_stamp pr u (u64 (pp_seq (lpp d) + 1)) in
     probe_ok stamped -> (probeplane_seal (lpp d) (Some rnd) pr u n).2 = Some dg ->
     (pair_tx (lpp d) = false -> no_clash magic base half_ok (true, dg)) ->
     (probeplane_open (rpp d) dg).2 = Some (probe_heard stamped)) /\
  (forall n data dg, bytes_ok data -> (probeplane_wrap (lpp d) n data).2 = Some dg ->
     (pair_tx (lpp d) = false -> no_clash magic base half_ok (false, dg)) ->
     (unwrap_with (rpp d) (keys_take (rpp d)) dg).2 = Some (data, u64 (data_seq (lpp d) + 1))).
Proof.
  intros Hm Hr. pose proof (duo_reach_inv magic base half_ok d Hr) as Hi. split.
  - intros. by eapply probe_opens.
  - intros. by eapply stream_opens.
Qed.

(** *** A run of the exchange *)
Definition half_a : bytes := replicate 32 11.
Definition half_b : bytes := replicate 32 22.
Definition two_halves (h : bytes) : Prop := h = half_a \/ h = half_b.

Definition left_offers {C : Crypto} (half : bytes) (d : duo) : duo :=
  let r := ctlplane_offer_key (lcp d) (lpp d) (Some half) in
  mk_duo r.1.1.1 r.1.1.2 (rcp d) (rpp d) (qlr d ++ sends r.1.2) (qrl d) (alr d) (arl d).

Definition left_hears {C : Crypto} (d : duo) : duo :=
  match qrl d with
  | (type, pl) :: rest =>
    let r := ctlplane_on_msg (lcp d) (lpp d) plain_sinks type pl 0 0 in
    mk_duo r.1.1.1 r.1.1.2 (rcp d) (rpp d) (qlr d ++ sends r.1.2) rest (alr d) (arl d)
  | [] => d
  end.

Definition right_side (f : duo -> duo) (d : duo) : duo := swap (f (swap d)).

Lemma run_offers {C : Crypto} magic base ok half d :
  ok half -> length half = CTL_KEY_PLEN -> left_step magic base ok d (left_offers half d).
Proof. intros H1 H2. by apply ls_offer. Qed.

Lemma run_hears {C : Crypto} magic base ok d :
  duo_reach magic base ok d -> duo_reach magic base ok (left_hears d).
Proof.
  intros H. unfold left_hears. destruct (qrl d) as [|[type pl] rest] eqn:E; [done|].
  eapply dr_left; [exact H|]. by apply (ls_recv _ _ _ d plain_sinks type pl rest 0 0).
Qed.

Lemma run_right {C : Crypto} magic base ok f d :
  duo_reach magic base ok d ->
  (duo_reach magic base ok (swap d) -> duo_reach magic base ok (f (swap d))) ->
  duo_reach magic base ok (right_side f d).
Proof.
  assert (forall d, duo_reach magic base ok d -> duo_reach magic base ok (swap d)) as Hs.
  { induction 1 as [l r|d1 d2 _ IH Hst|d1 d2 _ IH Hst].
    - apply (dr_init magic base ok r l).
    - eapply dr_right; [exact IH|]. by rewrite !swap_swap.
    - by eapply dr_left. }
  intros Hd Hf. unfold right_side. auto.
Qed.

(** Both ends have offered and each has heard the other's half, neither the
    other's acknowledgement. *)
Definition midway {C : Crypto} : duo :=
  right_side left_hears (left_hears (right_side (left_offers half_b)
    (left_offers half_a (mk_duo ctlplane_init (probeplane_init 99 [1; 2] 5)
       ctlplane_init (probeplane_init 99 [1; 2] 8) [] [] [] [])))).

Lemma midway_reach {C : Crypto} : duo_reach 99 [1; 2] two_halves midway.
Proof.
  unfold midway. apply run_right; [|by apply run_hears].
  apply run_hears. apply run_right.
  - eapply dr_left; [apply dr_init|]. apply run_offers; [by left | done].
  - intros H. eapply dr_left; [exact H|]. apply run_offers; [by right | done].
Qed.

Lemma sealed_now_opens_witness :
  let pp := lpp (@midway toy_crypto) in let qq := rpp (@midway toy_crypto) in
  pair_ready pp = true /\ pair_tx pp = false /\
  (@unwrap_with toy_crypto qq (keys_take qq)
     (default [] (snd (@probeplane_wrap toy_crypto pp 100 [7; 8; 9])))).2 = Some ([7; 8; 9], 6) /\
  (@probeplane_open toy_crypto qq
     (default [] (snd (@probeplane_seal toy_crypto pp (Some (replicate 24 3)) sample_probe None
        PROBE_MAX)))).2
    = Some (probe_heard (probe_stamp sample_probe None 6)).
Proof.
  cbv zeta. assert (is_u32 99) as Hm by done.
  pose proof (@sealed_now_opens toy_crypto toy_crypto_laws 99 [1; 2] two_halves midway
    Hm midway_reach) as [Hp Hs].
  split; [vm_compute; reflexivity|]. split; [vm_compute; reflexivity|]. split.
  - destruct (@probeplane_wrap toy_crypto (lpp midway) 100 [7; 8; 9]).2 as [dg|] eqn:E; cbn [default].
    + specialize (Hs 100%nat [7; 8; 9] dg ltac:(forall_list; done) E).
      assert (u64 (data_seq (lpp (@midway toy_crypto)) + 1) = 6) as Eq by (vm_compute; reflexivity).
      rewrite Eq in Hs. apply Hs. intros _ a b Ha Hb. cbn [fst snd].
      vm_compute in E. injection E as <-.
      destruct Ha as [-> | ->], Hb as [-> | ->]; vm_compute; reflexivity.
    + vm_compute in E. discriminate E.
  - destruct (@probeplane_seal toy_crypto (lpp midway) (Some (replicate 24 3)) sample_probe None
      PROBE_MAX).2 as [dg|] eqn:E; cbn [default].
    + assert (u64 (pp_seq (lpp (@midway toy_crypto)) + 1) = 6) as Eq by (vm_compute; reflexivity).
      specialize (Hp (replicate 24 3) sample_probe None PROBE_MAX dg eq_refl). cbv zeta in Hp.
      rewrite Eq in Hp. apply Hp; [|exact E|].
      * split_and!; try done; cbn; try by constructor. all: try (unfold PROBE_UFRAG_MAX; lia).
        split_and!; [done | cbn; forall_list; done | done].
      * intros _ a b Ha Hb. cbn [fst snd]. vm_compute in E. injection E as <-.
        destruct Ha as [-> | ->], Hb as [-> | ->]; vm_compute; reflexivity.
    + vm_compute in E. discriminate E.
Defined.

(** Once both have offered and all of it has been heard. *)
Lemma all_heard_done {C : Crypto} {L : CryptoLaws C} magic base half_ok d :
  duo_inv magic base half_ok d ->
  half_sent (lcp d) = true -> half_sent (rcp d) = true -> qlr d = [] -> qrl d = [] ->
  pair_tx (lpp d) = true /\ pair_tx (rpp d) = true /\
  pp_pair (lpp d) = pp_pair (rpp d) /\
  pp_pair (lpp d) = keys_conn_key base (half_out (lcp d)) (half_out (rcp d)).
Proof.
  intros Hi S1 S2 Q1 Q2. pose proof Hi as [[Hl Hc _ _ _ _ Hd] [Rl Rc _ _ _ _ Rd]]. cbn in Rl, Rc, Rd.
  unfold channel_ok in Hc, Rc. rewrite S1, Q1 in Hc. rewrite S2, Q2 in Rc.
  destruct Hc as [(E1 & E1' & _)|(_ & pre & post & E & _)]; [|by destruct pre].
  destruct Rc as [(E2 & E2' & _)|(_ & pre & post & E & _)]; [|by destruct pre].
  pose proof (lo_ready _ _ _ _ _ Hl) as R1. pose proof (lo_ready _ _ _ _ _ Rl) as R2.
  rewrite S1, E2 in R1. rewrite S2, E1 in R2. cbn in R1, R2. split_and!.
  - destruct (Rd R2) as [?|[pl Hin]]; [done|]. rewrite Q2 in Hin. by apply elem_of_nil in Hin.
  - destruct (Hd R1) as [?|[pl Hin]]; [done|]. rewrite Q1 in Hin. by apply elem_of_nil in Hin.
  - by apply (pair_same magic base half_ok).
  - by rewrite (lo_pair _ _ _ _ _ Hl R1), E2'.
Qed.

(** C2: the exchange is safe and completes. In every state two ends reach by offering their halves,
    saying other things, and delivering what was said in order: an end that seals with the pair key has
    an opposite end that already holds the same pair key and so can open it, in both directions; and
    once both have offered their half and everything said has been delivered, both hold the same pair
    key, the one derived from the two halves offered, and both seal with it. *)
Theorem key_exchange_completes {C : Crypto} {L : CryptoLaws C} magic base half_ok d :
  duo_reach magic base half_ok d ->
  (pair_tx (lpp d) = true -> pair_ready (rpp d) = true /\ pp_pair (rpp d) = pp_pair (lpp d)) /\
  (pair_tx (rpp d) = true -> pair_ready (lpp d) = true /\ pp_pair (lpp d) = pp_pair (rpp d)) /\
  (half_sent (lcp d) = true -> half_sent (rcp d) = true -> qlr d = [] -> qrl d = [] ->
   pair_tx (lpp d) = true /\ pair_tx (rpp d) = true /\
   pp_pair (lpp d) = pp_pair (rpp d) /\
   pp_pair (lpp d) = keys_conn_key base (half_out (lcp d)) (half_out (rcp d))).
Proof.
  intros Hr. pose proof (duo_reach_inv magic base half_ok d Hr) as Hi. split_and!.
  - intros E. destruct (key_in_force magic base half_ok d Hi) as [(_ & ? & ?)|(E' & _)]; [done | congruence].
  - intros E. assert (duo_inv magic base half_ok (swap d)) as Hs
      by (destruct Hi; split; [done | by rewrite swap_swap]).
    destruct (key_in_force magic base half_ok (swap d) Hs) as [(_ & ? & ?)|(E' & _)]; [done|].
    cbn in E'. congruence.
  - by apply (all_heard_done magic base half_ok).
Qed.

Lemma key_exchange_completes_witness :
  let d := right_side (@left_hears toy_crypto) (@left_hears toy_crypto (@midway toy_crypto)) in
  pair_tx (lpp d) = true /\ pair_tx (rpp d) = true /\ pair_ready (rpp d) = true /\
  pp_pair (lpp d) = pp_pair (rpp d).
Proof.
  cbv zeta. set (d := right_side _ _).
  assert (@duo_reach toy_crypto 99 [1; 2] two_halves d) as Hr.
  { apply run_right; [|by apply run_hears]. apply run_hears. apply midway_reach. }
  assert (half_sent (lcp d) = true) as H1 by (vm_compute; reflexivity).
  assert (half_sent (rcp d) = true) as H2 by (vm_compute; reflexivity).
  assert (qlr d = []) as H3 by (vm_compute; reflexivity).
  assert (qrl d = []) as H4 by (vm_compute; reflexivity).
  destruct (@key_exchange_completes toy_crypto toy_crypto_laws 99 [1; 2] two_halves d
    Hr) as (P & _ & Q). destruct (Q H1 H2 H3 H4) as (A & B & E & _).
  destruct (P A) as [R _]. by split_and!.
Defined.
