(* ===== verification/PathPlane.v ===== *)
(** src/src/pathplane.c: the path plane of a connection, which owns the table of
    paths, the probe cadence, the handling of answers, the pin and the carriers
    set aside.  The key schedule [pl->pp] points at is shared with the control
    plane and is passed beside the plane.  A critical section under the table's
    lock is one function; what an operation does outside it is another, and the
    callbacks it makes are returned as a list. *)
From S2P Require Import Prelude Net Replay Crypto Keys PathEp Path PathTable PathAdopt ProbePlane.

Definition PATHPLANE_LIVE_MAX : nat := 17.
Definition PATHPLANE_HOLD_MAX : nat := 16.

(** A carrier is the address of a [struct nat_agent], 0 for NULL; so is the
    context its callbacks were handed. *)
Record pathplane_hold := mk_hold { hd_agent : Z; hd_ctx : Z; hd_until_ms : Z }.
Definition hold_zero : pathplane_hold := mk_hold 0 0 0.

Record pathplane := mk_plane {
  pl_t : path_table;
  pin_id : bytes;
  pinned : bool;
  pin_warmth : Z;
  next_ice_ep_ms : Z;
  holds : list pathplane_hold;
  bh_kind : Z;
  bh_ep : path_ep;
  bh_mute : bool
}.

Definition plane_eta (p : pathplane) : pathplane :=
  mk_plane (pl_t p) (pin_id p) (pinned p) (pin_warmth p) (next_ice_ep_ms p) (holds p)
    (bh_kind p) (bh_ep p) (bh_mute p).

#[export] Instance set_pl_t : Setter pl_t := ltac:(solve_setter plane_eta).
#[export] Instance set_pin_id : Setter pin_id := ltac:(solve_setter plane_eta).
#[export] Instance set_pinned : Setter pinned := ltac:(solve_setter plane_eta).
#[export] Instance set_pin_warmth : Setter pin_warmth := ltac:(solve_setter plane_eta).
#[export] Instance set_next_ice_ep_ms : Setter next_ice_ep_ms := ltac:(solve_setter plane_eta).
#[export] Instance set_holds : Setter holds := ltac:(solve_setter plane_eta).
#[export] Instance set_bh_kind : Setter bh_kind := ltac:(solve_setter plane_eta).
#[export] Instance set_bh_ep : Setter bh_ep := ltac:(solve_setter plane_eta).
#[export] Instance set_bh_mute : Setter bh_mute := ltac:(solve_setter plane_eta).

(** What the owner's sinks answer when asked; [None] is a NULL sink.  A sink
    that is only told something is a flag, and the telling is a [pl_call]. *)
Record pathplane_sinks := mk_psinks {
  ps_ident : bytes;
  ps_live : option (list Z);
  ps_ice_ep : option (Z -> option path_ep);
  ps_is_self : option (path_ep -> bool);
  ps_kind_of : option (path_ep -> path_kind);
  ps_heard : bool;
  ps_qualified : bool;
  ps_agent_free : bool;
  ps_agent_failed : option (Z -> bool);
  ps_other : bool
}.

Inductive pl_call :=
| PSend (k : path_kind) (ag : Z) (to : option sockaddr) (b : bytes)
| PHeard (now : Z)
| PQualified
| PAgentFree (ag ctx : Z)
| POther (pr : path_probe) (k : path_kind) (held : bool).

Definition pathplane_init : pathplane :=
  mk_plane path_table_init (replicate PATH_ID_LEN 0) false 0 0
    (replicate PATHPLANE_HOLD_MAX hold_zero) (-1) ep_zero false.

(** ** Entering, finding and dropping paths *)
Definition pathplane_add_ice (pl : pathplane) (ag now : Z) : pathplane :=
  pl <| pl_t := (path_table_add (pl_t pl) PATH_ICE None ag now).1 |>.

Definition pathplane_drop_ice (pl : pathplane) : pathplane :=
  pl <| pl_t := path_table_drop_kind (pl_t pl) PATH_ICE |>.

Definition pathplane_drop_agent (pl : pathplane) (ag : Z) : pathplane :=
  pl <| pl_t := path_table_drop_agent (pl_t pl) ag |>.

Definition is_self (k : pathplane_sinks) (ep : path_ep) : bool :=
  match ps_is_self k with Some f => f ep | None => false end.

Definition kind_of (k : pathplane_sinks) (ep : path_ep) : path_kind :=
  match ps_kind_of k with Some f => f ep | None => PATH_ROUTED end.

(** The label, cut to the caller's buffer, of the path the plane holds
    afterwards; [None] is the return of -1. *)
Definition pathplane_add_ep (pl : pathplane) (k : pathplane_sinks) (kd : path_kind)
  (rem : sockaddr) (label_len : nat) (now : Z) : pathplane * option bytes :=
  if match path_ep_from_sockaddr rem sizeof_sockaddr_in6 with
     | Some ep => is_self k ep | None => false end
  then (pl, None)
  else let '(t, p) := path_table_add (pl_t pl) kd (Some rem) 0 now in
       (pl <| pl_t := t |>, option_map (fun i => snprintf label_len (label (slot t i))) p).

Definition pathplane_offer_path (pl : pathplane) (k : pathplane_sinks) (rem : sockaddr) (now : Z) :
  pathplane :=
  match path_ep_from_sockaddr rem sizeof_sockaddr_in6 with
  | None => pl
  | Some ep =>
      if path_ep_any ep || (ep_port ep =? 0) then pl
      else if negb (path_ep_is_unicast ep) then pl
      else if is_self k ep then pl
      else pl <| pl_t := (path_table_offer (pl_t pl) (kind_of k ep) (Some rem) now).1 |>
  end.

Definition pathplane_holds_ep (pl : pathplane) (ep : path_ep) (exact : bool) : bool :=
  bool_decide (is_Some (if exact then path_table_find_ep (pl_t pl) ep
                        else path_table_find_port (pl_t pl) (ep_port ep))).

(** [IN6_IS_ADDR_LINKLOCAL] of a path's remote address. *)
Definition is_linklocal (sa : sockaddr) : bool :=
  match sa with
  | AF_INET6 _ a _ => (nth 0 a 0 =? 0xfe) && (nth 1 a 0 .& 0xc0 =? 0x80)
  | _ => false
  end.

Definition pathplane_lan_paths (pl : pathplane) (routable_only : bool) : Z :=
  Z.of_nat (length (filter (fun p => Is_true
    (used p && negb (kind_eqb (kind p) PATH_ICE) && negb (routable_only && is_linklocal (remote p))))
    (slots (pl_t pl)))).

Definition pathplane_any_qualified (pl : pathplane) : bool := path_table_any_qualified (pl_t pl).
Definition pathplane_all_dead (pl : pathplane) (now : Z) : bool := path_table_all_dead (pl_t pl) now.

Definition pathplane_is_probe (pp : probeplane) (data : bytes) : bool :=
  path_probe_is (pp_magic pp) data.

Definition pathplane_gate (pl : option pathplane) (a : path_adopt) (magic : Z) (ep : path_ep)
  (data : bytes) (now : Z) : path_adopt * bool :=
  if negb (path_probe_is magic data) then (a, true)
  else if match pl with Some pl => pathplane_holds_ep pl ep true | None => false end then (a, true)
  else path_adopt_allow a ep now.

Definition recv_path (pl : pathplane) (kd : path_kind) (src : path_ep) (ag : Z) : option nat :=
  if kind_eqb kd PATH_ICE then path_table_find_agent (pl_t pl) ag
  else path_table_find_ep (pl_t pl) src.

Definition nonce_path (pl : pathplane) (n : Z) : option nat :=
  first_slot (fun p => used p && outstanding p && (nonce p =? n)) (pl_t pl).

(** ** The test hook *)
Definition kind_int (k : path_kind) : Z :=
  match k with PATH_SEGMENT => 0 | PATH_ROUTED => 1 | PATH_ICE => 2 end.

Definition blackholed (pl : pathplane) (kd : path_kind) (to : option sockaddr) : bool :=
  if bh_mute pl then true
  else if (bh_kind pl <? 0) || negb (kind_int kd =? bh_kind pl) then false
  else if kind_eqb kd PATH_ICE then true
  else match to with
       | None => false
       | Some sa => match path_ep_from_sockaddr sa sizeof_sockaddr_in6 with
                    | None => false
                    | Some ep => path_ep_eq ep (bh_ep pl)
                    end
       end.

Definition pathplane_blackhole_arm (pl : pathplane) (kd : Z) (to : option sockaddr) : pathplane :=
  pl <| bh_ep := match to with
                 | Some sa => default ep_zero (path_ep_from_sockaddr sa sizeof_sockaddr_in6)
                 | None => ep_zero
                 end |>
     <| bh_kind := kd |>.
Definition pathplane_blackhole_mute (pl : pathplane) (on : bool) : pathplane :=
  pl <| bh_mute := on |>.
Definition pathplane_blackhole_lift (pl : pathplane) : pathplane :=
  pl <| bh_kind := -1 |> <| bh_mute := false |>.
Definition pathplane_muted (pl : pathplane) : bool := bh_mute pl.
Definition pathplane_blackhole_kind (pl : pathplane) : Z := bh_kind pl.
Definition pathplane_blackhole_armed (pl : pathplane) : bool :=
  (0 <=? bh_kind pl) || pathplane_muted pl.

(** ** Carriers that can send *)
Definition agent_listed (live : list Z) (a : Z) : bool := existsb (fun l => l =? a) live.

Definition pathplane_usable (p : path) (live : list Z) : bool :=
  if negb (kind_eqb (kind p) PATH_ICE) then true else agent_listed live (agent p).

(** [k->live ? pathplane_usable(p, live, nlive) : 1] *)
Definition usable_now (k : pathplane_sinks) (p : path) : bool :=
  match ps_live k with Some live => pathplane_usable p live | None => true end.

(** ** The probe round *)

(** The nominated pairs, asked of the agents on their own cadence. *)
Definition tick_eps (pl : pathplane) (k : pathplane_sinks) (now : Z) : list (Z * path_ep) :=
  match ps_ice_ep k with
  | Some f => if next_ice_ep_ms pl <=? now
              then omap (fun a => option_map (fun ep => (a, ep)) (f a)) (default [] (ps_live k))
              else []
  | None => []
  end.

Definition tick_ep_clock (pl : pathplane) (k : pathplane_sinks) (now : Z) : pathplane :=
  if (next_ice_ep_ms pl <=? now) && bool_decide (is_Some (ps_ice_ep k))
  then pl <| next_ice_ep_ms := u64 (now + PATH_KEEP_MS) |> else pl.

Definition note_warmth (p : path) (now : Z) : path :=
  if qualified p then
    let w := warmth_int (path_warmth_of p now) in
    if negb (w =? warmth_noted p) then p <| warmth_noted := w |> else p
  else p.

Section PathPlane.
Context {C : Crypto}.

(** The first nominated pair of the path's agent. *)
Definition tick_ep (eps : list (Z * path_ep)) (base : bytes) (p : path) : path :=
  if kind_eqb (kind p) PATH_ICE then
    match find (fun e : Z * path_ep => agent p =? e.1) eps with
    | Some e => path_set_peer_ep p e.2 base
    | None => p
    end
  else p.

(** The body of the first loop over one slot. *)
Definition tick_slot (k : pathplane_sinks) (eps : list (Z * path_ep)) (base : bytes) (now : Z)
  (p : path) : path :=
  if negb (used p) then p
  else
    let p := p <| usable := usable_now k p |> in
    let p := path_probe_expire p now in
    let p := note_warmth p now in
    tick_ep eps base p.

Definition tick_scan (k : pathplane_sinks) (eps : list (Z * path_ep)) (base : bytes) (now : Z)
  (t : path_table) : path_table :=
  mk_table (map (tick_slot k eps base now) (slots t)) (sel t).

Definition tick_due (now : Z) (p : path) : bool := usable p && path_probe_due p now.

Definition due_slots (now : Z) (t : path_table) : list nat :=
  List.filter (fun i => tick_due now (slot t i)) table_idx.
End PathPlane.

(** A probe to send once the lock is let go. *)
Record tick_job := mk_job {
  tj_pr : path_probe; tj_kind : path_kind; tj_agent : Z; tj_to : sockaddr; tj_drop : bool
}.

Definition ping_probe (n : Z) : path_probe := mk_probe PROBE_PING n 0 [] false ep_zero 0 0 0.

(** The second loop: a drawn nonce for each slot still due. *)
Fixpoint tick_draw (pl : pathplane) (now : Z) (t : path_table) (due : list nat) (nonces : list Z) :
  path_table * list tick_job :=
  match due, nonces with
  | i :: due', n :: nonces' =>
      let p := slot t i in
      if negb (tick_due now p) then tick_draw pl now t due' nonces'
      else
        let job := mk_job (path_fill_tail p (ping_probe n)) (kind p) (agent p) (remote p)
                     (blackholed pl (kind p) (Some (remote p))) in
        let '(t', jobs) := tick_draw pl now (set_slot t i (path_probe_sent p n now)) due' nonces' in
        (t', job :: jobs)
  | _, _ => (t, [])
  end.

Section Messages.
Context {C : Crypto}.

(** The sends; [rnds] are the random draws of the seals, in order.  A failed
    seal ends the round. *)
Fixpoint tick_send (pp : probeplane) (mine : bytes) (jobs : list tick_job)
  (rnds : list (option bytes)) : probeplane * list pl_call :=
  match jobs with
  | [] => (pp, [])
  | j :: jobs' =>
      if tj_drop j then tick_send pp mine jobs' rnds
      else match probeplane_seal pp (nth 0 rnds None) (tj_pr j) (Some mine) PROBE_MAX with
           | (pp, None) => (pp, [])
           | (pp, Some out) =>
               let '(pp', calls) := tick_send pp mine jobs' (drop 1 rnds) in
               (pp', PSend (tj_kind j) (tj_agent j) (Some (tj_to j)) out :: calls)
           end
  end.

(** [nonces] is what [random_bytes] drew for the slots that are due, [None]
    when it failed. *)
Definition tick_probes (pl : pathplane) (pp : probeplane) (k : pathplane_sinks) (now : Z)
  (nonces : option (list Z)) (rnds : list (option bytes)) : pathplane * probeplane * list pl_call :=
  let mine := ps_ident k in
  if bytes_eqb mine [] then (pl, pp, [])
  else
    let eps := tick_eps pl k now in
    let pl := tick_ep_clock pl k now in
    let pl := pl <| pl_t := tick_scan k eps (pp_base pp) now (pl_t pl) |> in
    let due := due_slots now (pl_t pl) in
    if (length due =? 0)%nat then (pl, pp, [])
    else match nonces with
         | None => (pl, pp, [])
         | Some ns =>
             let '(t, jobs) := tick_draw pl now (pl_t pl) due ns in
             let '(pp, calls) := tick_send pp mine jobs rnds in
             (pl <| pl_t := t |>, pp, calls)
         end.

(** ** Pings and pongs *)
Definition pong_probe (n : Z) : path_probe := mk_probe PROBE_PONG n 0 [] false ep_zero 0 0 0.

Definition rp_echo (rp : path_probe) (ep : path_ep) : path_probe :=
  mk_probe (pr_type rp) (pr_nonce rp) (pr_seq rp) (pr_ufrag rp) true ep
    (pr_srtt_ms rp) (pr_loss_ppt rp) (pr_base_srtt_ms rp).

(** The part of [apply_ping] under the lock: the answer to seal and whether it
    is dropped; [None] for a ping that carries a nonce this end waits on. *)
Definition ping_locked (pl : pathplane) (base : bytes) (k : pathplane_sinks) (pr : path_probe)
  (kd : path_kind) (from : path_ep) (src : option sockaddr) (ag now : Z) :
  pathplane * option (path_probe * bool) :=
  let srck := if kind_eqb kd PATH_ICE then kd else kind_of k from in
  let rp := pong_probe (pr_nonce pr) in
  if bool_decide (is_Some (nonce_path pl (pr_nonce pr))) then (pl, None)
  else
    let '(t, p) :=
      match recv_path pl kd from ag with
      | Some i => (pl_t pl, Some i)
      | None =>
          if bool_decide (is_Some src) && negb (kind_eqb kd PATH_ICE) && negb (is_self k from)
          then path_table_offer (pl_t pl) srck src now
          else (pl_t pl, None)
      end in
    match p with
    | Some i =>
        let q := slot t i in
        let drop := blackholed pl (kind q) src in
        let from := if path_ep_any from then peer_ep q else from in
        let q := path_saw_inbound q from in
        let q := path_apply_tail q pr base in
        (pl <| pl_t := set_slot t i q |>, Some (path_fill_tail q rp, drop))
    | None => (pl <| pl_t := t |>, Some (rp_echo rp from, blackholed pl srck src))
    end.

Definition apply_ping (pl : pathplane) (pp : probeplane) (k : pathplane_sinks) (pr : path_probe)
  (kd : path_kind) (from : path_ep) (src : option sockaddr) (ag : Z) (mine : bytes) (now : Z)
  (rnd : option bytes) : pathplane * probeplane * list pl_call :=
  match ping_locked pl (pp_base pp) k pr kd from src ag now with
  | (pl, None) => (pl, pp, [])
  | (pl, Some (rp, drop)) =>
      if drop then (pl, pp, [])
      else match probeplane_seal pp rnd rp (Some mine) PROBE_MAX with
           | (pp, None) => (pl, pp, [])
           | (pp, Some out) => (pl, pp, [PSend kd ag src out])
           end
  end.

(** A pong that came from somewhere other than where its question went. *)
Definition pong_misplaced (p : path) (kd : path_kind) (from : path_ep) (src : option sockaddr) :
  bool :=
  negb (kind_eqb kd PATH_ICE) && bool_decide (is_Some src) && negb (path_ep_any from) &&
  negb (path_ep_eq from (peer_ep p)).

Definition apply_pong (pl : pathplane) (base : bytes) (k : pathplane_sinks) (pr : path_probe)
  (kd : path_kind) (from : path_ep) (src : option sockaddr) (now : Z) :
  pathplane * list pl_call :=
  match nonce_path pl (pr_nonce pr) with
  | None => (pl, [])
  | Some i =>
      let p := slot (pl_t pl) i in
      if pong_misplaced p kd from src then (pl, [])
      else
        let fresh := negb (qualified p) in
        let from := if path_ep_any from then peer_ep p else from in
        let p := path_saw_inbound p from in
        let p := path_apply_tail p pr base in
        let '(p, answered) := path_probe_pong p (pr_nonce pr) now in
        let r := if answered && fresh then path_srtt_ms p else -1 in
        (pl <| pl_t := set_slot (pl_t pl) i p |>,
         if r <? 0 then [] else if ps_qualified k then [PQualified] else [])
  end.

Definition pathplane_apply (pl : pathplane) (pp : probeplane) (k : pathplane_sinks)
  (pr : path_probe) (kd : path_kind) (src : option sockaddr) (ag now : Z) (rnd : option bytes) :
  pathplane * probeplane * list pl_call :=
  let from := match src with
              | Some sa => default ep_zero (path_ep_from_sockaddr sa sizeof_sockaddr_in6)
              | None => ep_zero
              end in
  if pr_type pr =? PROBE_PING then
    apply_ping pl pp k pr kd from src ag (ps_ident k) now rnd
  else if pr_type pr =? PROBE_PONG then
    let '(pl, calls) := apply_pong pl (pp_base pp) k pr kd from src now in (pl, pp, calls)
  else if ps_other k then
    let held := kind_eqb kd PATH_ICE || bool_decide (is_Some (recv_path pl kd from ag)) in
    (pl, pp, [POther pr kd held])
  else (pl, pp, []).

Definition pathplane_recv (pl : pathplane) (pp : probeplane) (k : pathplane_sinks) (data : bytes)
  (kd : path_kind) (src : option sockaddr) (ag now : Z) (rnd : option bytes) :
  pathplane * probeplane * list pl_call * bool :=
  match probeplane_open pp data with
  | (pp, None) => (pl, pp, [], false)
  | (pp, Some pr) =>
      if negb (bytes_eqb (pr_ufrag pr) (ps_ident k)) then (pl, pp, [], false)
      else match probeplane_fresh pp pr with
           | (pp, false) => (pl, pp, [], false)
           | (pp, true) =>
               let '(pl, pp, calls) := pathplane_apply pl pp k pr kd src ag now rnd in
               (pl, pp, (if ps_heard k then [PHeard now] else []) ++ calls, true)
           end
  end.

(** The return value, and the probe as it was opened. *)
Definition pathplane_claims (pp : probeplane) (k : pathplane_sinks) (data : bytes) :
  probeplane * option path_probe * Z :=
  match probeplane_open pp data with
  | (pp, None) => (pp, None, 0)
  | (pp, Some pr) =>
      if negb (pr_type pr =? PROBE_PING) || bytes_eqb (pr_ufrag pr) [] ||
         negb (bytes_eqb (ps_ident k) (pr_ufrag pr))
      then (pp, Some pr, 0)
      else let '(pp, ok) := probeplane_fresh pp pr in (pp, Some pr, if ok then 1 else -1)
  end.
End Messages.

(** ** Which path carries *)
Definition pin_holds (pl : pathplane) (now : Z) (i : nat) : bool :=
  let p := slot (pl_t pl) i in
  usable p && (warmth_int (path_warmth_of p now) <=? pin_warmth pl).

Definition id_is (t : bytes) (p : path) : bool := used p && bytes_eqb (id p) t.

Definition pin_check (pl : pathplane) (now : Z) : pathplane :=
  if negb (pinned pl) then pl
  else match first_slot (id_is (pin_id pl)) (pl_t pl) with
       | Some i => if pin_holds pl now i
                   then pl <| pl_t := mk_table (slots (pl_t pl)) (Z.of_nat i) |>
                   else pl <| pinned := false |>
       | None => pl <| pinned := false |>
       end.

Record pathplane_pick_t := mk_pick {
  pk_kind : Z;
  pk_blackholed : bool;
  pk_qualified : bool;
  pk_srtt_ms : Z;
  pk_remote : sockaddr;
  pk_agent : Z;
  pk_label : bytes;
  pk_nlive : Z;
  pk_moved : bool
}.

Definition pick_none (nlive : Z) : pathplane_pick_t := mk_pick (-1) false false 0 AF_OTHER 0 [] nlive false.

Definition nlive (k : pathplane_sinks) : Z := Z.of_nat (length (default [] (ps_live k))).

Definition pick_of (pl : pathplane) (n : Z) (p : path) (moved : bool) : pathplane_pick_t :=
  mk_pick (kind_int (kind p)) (blackholed pl (kind p) (Some (remote p))) (qualified p)
    (path_srtt_ms p) (remote p) (agent p) (snprintf PATH_LABEL_MAX (label p)) n moved.

(** The loop that asks which paths can send: every slot is written, free ones
    too. *)
Definition mark_usable (k : pathplane_sinks) (t : path_table) : path_table :=
  mk_table (map (fun p => p <| usable := usable_now k p |>) (slots t)) (sel t).

Definition pathplane_decide (pl : pathplane) (k : pathplane_sinks) (now : Z) :
  pathplane * pathplane_pick_t :=
  let prev := sel (pl_t pl) in
  let pl := pl <| pl_t := mark_usable k (pl_t pl) |> in
  let pl := pl <| pl_t := path_select (pl_t pl) now |> in
  let pl := pin_check pl now in
  let s := sel (pl_t pl) in
  (pl, if 0 <=? s
       then pick_of pl (nlive k) (slot (pl_t pl) (Z.to_nat s)) (negb (s =? prev))
       else pick_none (nlive k)).

Definition pathplane_pick (pl : pathplane) (k : pathplane_sinks) : pathplane_pick_t :=
  let s := sel (pl_t pl) in
  if (0 <=? s) && used (slot (pl_t pl) (Z.to_nat s))
  then pick_of pl (nlive k) (slot (pl_t pl) (Z.to_nat s)) false
  else pick_none (nlive k).

Definition pathplane_carry_id (pl : pathplane) : option bytes :=
  let s := sel (pl_t pl) in
  if (0 <=? s) && used (slot (pl_t pl) (Z.to_nat s)) then Some (id (slot (pl_t pl) (Z.to_nat s)))
  else None.

Definition pathplane_challenger (pl : pathplane) (now : Z) : option bytes :=
  option_map (fun i => id (slot (pl_t pl) i)) (path_challenger (pl_t pl) now).

Inductive pathplane_pin_t := PATHPLANE_PIN_OK | PATHPLANE_PIN_UNKNOWN | PATHPLANE_PIN_UNUSABLE.

Definition pathplane_pin (pl : pathplane) (k : pathplane_sinks) (pid : bytes) (now : Z) :
  pathplane * pathplane_pin_t :=
  match first_slot (id_is pid) (pl_t pl) with
  | None => (pl, PATHPLANE_PIN_UNKNOWN)
  | Some i =>
      let p := slot (pl_t pl) i in
      let p := p <| usable := usable_now k p |> in
      let t := set_slot (pl_t pl) i p in
      if negb (usable p) then (pl <| pl_t := t |>, PATHPLANE_PIN_UNUSABLE)
      else (pl <| pl_t := mk_table (slots t) (Z.of_nat i) |> <| pin_id := pid |>
               <| pin_warmth := warmth_int (path_warmth_of p now) |> <| pinned := true |>,
            PATHPLANE_PIN_OK)
  end.

Definition pathplane_carry_rtt (pl : pathplane) : option Z :=
  let s := sel (pl_t pl) in
  if (0 <=? s) && qualified (slot (pl_t pl) (Z.to_nat s))
  then Some (path_srtt_ms (slot (pl_t pl) (Z.to_nat s))) else None.

Definition pathplane_proven (pl : pathplane) (now : Z) : Z :=
  Z.of_nat (length (filter (fun p => Is_true (used p && qualified p &&
    negb (bool_decide (path_warmth_of p now = PATH_DEAD)))) (slots (pl_t pl)))).

Definition pathplane_reset_stats (pl : pathplane) (now : Z) : pathplane :=
  pl <| pl_t := path_table_reset_stats (pl_t pl) now |>.
Definition pathplane_clear (pl : pathplane) : pathplane :=
  pl <| pl_t := path_table_clear (pl_t pl) |>.

Definition pathplane_tick {C : Crypto} (pl : pathplane) (pp : probeplane) (k : pathplane_sinks)
  (now : Z) (nonces : option (list Z)) (rnds : list (option bytes)) :
  pathplane * probeplane * list pl_call * bool :=
  let '(pl, pp, calls) := tick_probes pl pp k now nonces rnds in
  let '(pl, pick) := pathplane_decide pl k now in
  (pl, pp, calls, pk_moved pick && pk_qualified pick).

(** ** Lemmas: what an operation may do to a path's proof

    [no_proof p' p]: [p'] is no more proved than [p] was, and waits on no answer
    [p] did not wait on. *)
Definition no_proof (p' p : path) : Prop :=
  (qualified p' = true -> qualified p = true) /\
  (outstanding p' = true -> outstanding p = true /\ nonce p' = nonce p /\ used p' = used p).

Lemma no_proof_same p' p :
  qualified p' = qualified p -> outstanding p' = outstanding p -> nonce p' = nonce p ->
  used p' = used p -> no_proof p' p.
Proof. unfold no_proof. intros -> -> -> ->. done. Qed.
Lemma no_proof_refl p : no_proof p p.
Proof. by apply no_proof_same. Qed.
Lemma no_proof_trans p1 p2 p3 : no_proof p1 p2 -> no_proof p2 p3 -> no_proof p1 p3.
Proof.
  intros [Q1 O1] [Q2 O2]. split; [auto|]. intros H. destruct (O1 H) as (H2 & -> & ->). by apply O2.
Qed.
Lemma no_proof_zero p : no_proof path_zero p.
Proof. done. Qed.
Lemma no_proof_new k rem ag ep now p : no_proof (path_new k rem ag ep now) p.
Proof. unfold path_new. by destruct rem, (path_ep_any ep). Qed.
Lemma no_proof_expire p now : no_proof (path_probe_expire p now) p.
Proof.
  unfold path_probe_expire. destruct (_ || _ || _); [apply no_proof_refl|].
  unfold loss_record. by destruct (_ <? _).
Qed.
Lemma no_proof_note p now : no_proof (note_warmth p now) p.
Proof. unfold note_warmth. destruct (qualified p); [|apply no_proof_refl]. by destruct (negb _). Qed.
Lemma no_proof_tail {C : Crypto} p pr key : no_proof (path_apply_tail p pr key) p.
Proof.
  unfold path_apply_tail, path_peer_view, path_set_self_ep, path_id_refresh.
  destruct (negb _); [apply no_proof_refl|]. by destruct (_ || _).
Qed.
Lemma no_proof_inbound p ep : no_proof (path_saw_inbound p ep) p.
Proof. unfold path_saw_inbound. by destruct (negb _). Qed.
Lemma no_proof_peer_ep {C : Crypto} p ep key : no_proof (path_set_peer_ep p ep key) p.
Proof. unfold path_set_peer_ep, path_id_refresh. by destruct (_ || _). Qed.
#[export] Hint Resolve no_proof_refl no_proof_zero no_proof_new no_proof_expire no_proof_note
  no_proof_tail no_proof_inbound no_proof_peer_ep : path.

Definition table_no_proof (t' t : path_table) : Prop := forall i, no_proof (slot t' i) (slot t i).

Lemma tnp_refl t : table_no_proof t t.
Proof. intros i. apply no_proof_refl. Qed.
Lemma tnp_trans t1 t2 t3 : table_no_proof t1 t2 -> table_no_proof t2 t3 -> table_no_proof t1 t3.
Proof. intros H1 H2 i. by eapply no_proof_trans. Qed.
Lemma tnp_sel t s : table_no_proof (mk_table (slots t) s) t.
Proof. intros i. apply no_proof_refl. Qed.

Lemma tnp_set t i p : no_proof p (slot t i) -> table_no_proof (set_slot t i p) t.
Proof.
  intros Hp j. destruct (decide (i = j)) as [<-|Hij]; [|rewrite slot_set_ne by done; apply no_proof_refl].
  destruct (decide (i < length (slots t))%nat); [by rewrite slot_set_eq|].
  unfold slot, set_slot. cbn [slots]. rewrite list_insert_ge by lia. apply no_proof_refl.
Qed.

Lemma tnp_map t g s :
  (forall p, no_proof (g p) p) -> table_no_proof (mk_table (map g (slots t)) s) t.
Proof.
  intros Hg i. destruct (decide (i < length (slots t))%nat).
  - unfold slot. cbn [slots]. rewrite (nth_indep _ _ (g path_zero)) by (rewrite length_map; lia).
    rewrite map_nth. apply Hg.
  - rewrite slot_beyond by (cbn; rewrite length_map; lia). apply no_proof_zero.
Qed.

Lemma tnp_add t k rem ag now : table_no_proof (path_table_add t k rem ag now).1 t.
Proof.
  unfold path_table_add. destruct (match rem with Some r => _ | None => _ end); [|apply tnp_refl].
  destruct (if truth ag then _ else _); [apply tnp_refl|].
  destruct (path_table_evict t now); [|apply tnp_refl]. apply tnp_set. auto with path.
Qed.
Lemma tnp_offer t k rem now : table_no_proof (path_table_offer t k rem now).1 t.
Proof.
  destruct (offer_cases t k rem now) as [->|[_ ->]]; [apply tnp_refl | apply tnp_add].
Qed.
Lemma tnp_add_ep pl k kd rem n now :
  table_no_proof (pl_t (pathplane_add_ep pl k kd rem n now).1) (pl_t pl).
Proof.
  unfold pathplane_add_ep. destruct (match path_ep_from_sockaddr rem _ with Some ep => _ | None => _ end);
    [apply tnp_refl|]. pose proof (tnp_add (pl_t pl) kd (Some rem) 0 now) as H.
  by destruct (path_table_add (pl_t pl) kd (Some rem) 0 now).
Qed.
Lemma tnp_init t : table_no_proof path_table_init t.
Proof.
  intros i. unfold slot. cbn [slots path_table_init]. rewrite nth_lookup.
  destruct (_ !! i) as [p|] eqn:E; [|apply no_proof_zero].
  apply lookup_replicate in E as [-> _]. apply no_proof_zero.
Qed.
Lemma tnp_drop f t : table_no_proof (drop_slots f t) t.
Proof. apply tnp_map. intros p. destruct (f p); auto with path. Qed.
Lemma tnp_reset t now : table_no_proof (path_table_reset_stats t now) t.
Proof. apply tnp_map. intros p. destruct (used p); [done | auto with path]. Qed.
Lemma tnp_select t now : table_no_proof (path_select t now) t.
Proof.
  assert (table_no_proof (expire_all t now) t) as H.
  { apply tnp_map. intros p. destruct (used p); auto with path. }
  unfold path_select. destruct (path_best _ now) as [b|]; [destruct (_ || _)|]; try done.
  all: eapply tnp_trans; [apply tnp_sel | done].
Qed.
Lemma tnp_mark k t : table_no_proof (mark_usable k t) t.
Proof. apply tnp_map. done. Qed.
Lemma tnp_pin_check pl now : table_no_proof (pl_t (pin_check pl now)) (pl_t pl).
Proof.
  unfold pin_check. destruct (negb _); [apply tnp_refl|].
  destruct (first_slot _ _) as [i|]; [|apply tnp_refl].
  destruct (pin_holds pl now i); [apply tnp_sel | apply tnp_refl].
Qed.
Lemma tnp_decide pl k now : table_no_proof (pl_t (pathplane_decide pl k now).1) (pl_t pl).
Proof.
  unfold pathplane_decide. cbn [fst]. eapply tnp_trans; [apply tnp_pin_check|]. cbn.
  eapply tnp_trans; [apply tnp_select | apply tnp_mark].
Qed.
Lemma tnp_scan {C : Crypto} k eps base now t : table_no_proof (tick_scan k eps base now t) t.
Proof.
  apply tnp_map. intros p. unfold tick_slot. destruct (negb (used p)); [auto with path|].
  set (p1 := p <| usable := usable_now k p |>).
  apply (no_proof_trans _ p1); [|by apply no_proof_same].
  apply (no_proof_trans _ (path_probe_expire p1 now)); [|auto with path].
  apply (no_proof_trans _ (note_warmth (path_probe_expire p1 now) now)); [|auto with path].
  unfold tick_ep. destruct (kind_eqb _ _); [|auto with path].
  destruct (find _ eps); auto with path.
Qed.
#[export] Hint Resolve tnp_refl tnp_add tnp_offer tnp_init tnp_drop tnp_reset tnp_decide : path.

(** A probe that is no pong proves nothing, and one that is proves the path
    that waits on its nonce, if it came from where that path leads. *)
Lemma tnp_ping {C : Crypto} pl base k pr kd from src ag now :
  table_no_proof (pl_t (ping_locked pl base k pr kd from src ag now).1) (pl_t pl).
Proof.
  unfold ping_locked. case_bool_decide; [apply tnp_refl|].
  set (tp := match recv_path pl kd from ag with Some i => _ | None => _ end).
  assert (table_no_proof tp.1 (pl_t pl)) as Ht.
  { unfold tp. destruct (recv_path pl kd from ag); [apply tnp_refl|].
    destruct (_ && _ && _); [apply tnp_offer | apply tnp_refl]. }
  destruct tp as [t [i|]]; cbn [fst] in *; [|done]. cbn.
  eapply tnp_trans; [apply tnp_set | exact Ht].
  eapply no_proof_trans; [apply no_proof_tail | apply no_proof_inbound].
Qed.

Lemma apply_ping_table {C : Crypto} pl pp k pr kd from src ag mine now rnd :
  pl_t (apply_ping pl pp k pr kd from src ag mine now rnd).1.1 =
  pl_t (ping_locked pl (pp_base pp) k pr kd from src ag now).1.
Proof.
  unfold apply_ping. destruct (ping_locked _ _ _ _ _ _ _ _ _) as [pl1 [[rp drop]|]]; [|done].
  destruct drop; [done|]. by destruct (probeplane_seal _ _ _ _ _) as [pp1 [out|]].
Qed.

Lemma nonce_path_some pl n i :
  nonce_path pl n = Some i ->
  (i < length (slots (pl_t pl)))%nat /\ used (slot (pl_t pl) i) = true /\
  outstanding (slot (pl_t pl) i) = true /\ nonce (slot (pl_t pl) i) = n.
Proof.
  intros H. apply first_slot_some in H as [H1 H2]. rewrite !andb_true_iff, Z.eqb_eq in H2. tauto.
Qed.

Lemma nonce_path_none pl n i :
  nonce_path pl n = None -> used (slot (pl_t pl) i) = true -> outstanding (slot (pl_t pl) i) = true ->
  nonce (slot (pl_t pl) i) <> n.
Proof.
  intros H Hu Ho. pose proof (first_slot_none _ _ H i (used_in_range _ _ Hu)) as Hf.
  cbn in Hf. rewrite Hu, Ho in Hf. by apply Z.eqb_neq.
Qed.

(** Where a frame came from, as the plane sees it. *)
Definition came_from (src : option sockaddr) : path_ep :=
  match src with
  | Some sa => default ep_zero (path_ep_from_sockaddr sa sizeof_sockaddr_in6)
  | None => ep_zero
  end.

Lemma apply_cases {C : Crypto} pl pp k pr kd src ag now rnd i :
  let r := pathplane_apply pl pp k pr kd src ag now rnd in
  no_proof (slot (pl_t r.1.1) i) (slot (pl_t pl) i) \/
  (pr_type pr = PROBE_PONG /\ nonce_path pl (pr_nonce pr) = Some i /\
   pong_misplaced (slot (pl_t pl) i) kd (came_from src) src = false).
Proof.
  unfold pathplane_apply. fold (came_from src). destruct (Z.eqb_spec (pr_type pr) PROBE_PING).
  { left. rewrite apply_ping_table. apply tnp_ping. }
  destruct (Z.eqb_spec (pr_type pr) PROBE_PONG) as [Ht|Ht].
  2:{ left. destruct (ps_other k); apply no_proof_refl. }
  unfold apply_pong. destruct (nonce_path pl (pr_nonce pr)) as [j|] eqn:Ej;
    [|left; apply no_proof_refl].
  destruct (pong_misplaced _ kd (came_from src) src) eqn:Em; [left; apply no_proof_refl|].
  destruct (path_probe_pong _ _ now) as [p answered] eqn:Ep. cbn [fst pl_t set set_pl_t].
  destruct (decide (j = i)) as [->|Hij]; [by right|]. left.
  rewrite slot_set_ne by done. apply no_proof_refl.
Qed.

(** ** Runs against someone who holds no key

    What this end has sent, as (type, nonce).  Anyone may deliver any ping, and
    any probe this end itself sent, over any carrier and from any source.  A
    drawn nonce is not one that was ever sent before. *)
Section Reflect.
Context {C : Crypto}.

Inductive mirror : pathplane -> list (Z * Z) -> Prop :=
| mi_start pl : table_no_proof (pl_t pl) path_table_init -> mirror pl []
| mi_tick pl pp k now ns rnds sent :
    mirror pl sent -> (forall n, n ∈ ns -> (PROBE_PONG, n) ∉ sent) ->
    mirror (pathplane_tick pl pp k now (Some ns) rnds).1.1.1 (map (pair PROBE_PING) ns ++ sent)
| mi_deliver pl pp k pr kd src ag now rnd sent :
    mirror pl sent -> (pr_type pr = PROBE_PING \/ (pr_type pr, pr_nonce pr) ∈ sent) ->
    let r := pathplane_apply pl pp k pr kd src ag now rnd in
    mirror r.1.1 (match r.2 with PSend _ _ _ _ :: _ => [(PROBE_PONG, pr_nonce pr)] | _ => [] end ++ sent)
| mi_else pl pl' sent :
    mirror pl sent -> table_no_proof (pl_t pl') (pl_t pl) -> mirror pl' sent.

Definition mirror_inv (pl : pathplane) (sent : list (Z * Z)) : Prop :=
  forall i, qualified (slot (pl_t pl) i) = false /\
    (outstanding (slot (pl_t pl) i) = true ->
     used (slot (pl_t pl) i) = true /\ (PROBE_PONG, nonce (slot (pl_t pl) i)) ∉ sent).

Lemma mirror_inv_proof pl pl' sent sent' :
  mirror_inv pl sent -> table_no_proof (pl_t pl') (pl_t pl) ->
  (forall n, (PROBE_PONG, n) ∈ sent' -> (PROBE_PONG, n) ∈ sent) -> mirror_inv pl' sent'.
Proof.
  intros Hi Hp Hs i. destruct (Hi i) as [Hq Ho], (Hp i) as [Pq Po]. split.
  - destruct (qualified (slot (pl_t pl') i)); [by rewrite Pq in Hq|done].
  - intros H. destruct (Po H) as (H1 & -> & ->). destruct (Ho H1) as [Hu Hn]. split; [done|].
    intros Hin. by apply Hn, Hs.
Qed.

(** The round draws a nonce for each slot it probes, and waits on those. *)
Lemma draw_proof pl now due ns t i :
  let t' := (tick_draw pl now t due ns).1 in
  (qualified (slot t' i) = true -> qualified (slot t i) = true) /\
  (outstanding (slot t' i) = true ->
   (outstanding (slot t i) = true /\ nonce (slot t' i) = nonce (slot t i) /\
    used (slot t' i) = used (slot t i)) \/
   (nonce (slot t' i) ∈ ns /\ used (slot t' i) = true)).
Proof.
  revert ns t. induction due as [|j due IH]; intros [|n ns] t; cbn [tick_draw fst]; auto.
  destruct (tick_due now (slot t j)) eqn:Ed; cbn [negb]; cycle 1.
  { destruct (IH ns t) as [Hq Ho]. split; [done|]. intros H.
    destruct (Ho H) as [?|[? ?]]; [auto | right; set_solver]. }
  set (p := path_probe_sent (slot t j) n now). specialize (IH ns (set_slot t j p)).
  destruct (tick_draw pl now (set_slot t j p) due ns) as [t' jobs]. cbn [fst] in *.
  destruct IH as [Hq Ho].
  assert (slot (set_slot t j p) i = slot t i \/ slot (set_slot t j p) i = p /\ j = i) as [E|[E ->]].
  { destruct (decide (j = i)) as [->|Hij]; [|left; by rewrite slot_set_ne].
    destruct (decide (i < length (slots t))%nat); [right; by rewrite slot_set_eq|]. left.
    unfold slot, set_slot. cbn [slots]. by rewrite list_insert_ge by lia. }
  - rewrite E in *. split; [done|]. intros H. destruct (Ho H) as [?|[? ?]]; [auto | right; set_solver].
  - rewrite E in *. split; [exact Hq|]. intros H. right.
    assert (used (slot t i) = true) as Hu.
    { unfold tick_due, path_probe_due in Ed. rewrite !andb_true_iff in Ed. tauto. }
    destruct (Ho H) as [(_ & -> & ->)|[Hin Hus]]; [|set_solver]. cbn. split; [set_solver | done].
Qed.

Lemma tick_proof pl pp k now ns rnds sent :
  mirror_inv pl sent -> (forall n, n ∈ ns -> (PROBE_PONG, n) ∉ sent) ->
  mirror_inv (tick_probes pl pp k now (Some ns) rnds).1.1 (map (pair PROBE_PING) ns ++ sent).
Proof.
  intros Hi Hn. set (sent' := map (pair PROBE_PING) ns ++ sent).
  assert (forall n, (PROBE_PONG, n) ∈ sent' -> (PROBE_PONG, n) ∈ sent) as Hs.
  { intros n [Hin|Hin]%elem_of_app; [|done]. by apply list_elem_of_fmap in Hin as (m & [=] & _). }
  unfold tick_probes. destruct (bytes_eqb (ps_ident k) []).
  { apply (mirror_inv_proof pl _ sent); [done | apply tnp_refl | done]. }
  set (pl1 := (tick_ep_clock pl k now) <| pl_t := _ |>).
  assert (mirror_inv pl1 sent) as H1.
  { apply (mirror_inv_proof pl _ sent); [done | | done]. cbn. eapply tnp_trans; [apply tnp_scan|].
    unfold tick_ep_clock. destruct (_ && _); apply tnp_refl. }
  destruct (_ =? 0)%nat; [by apply (mirror_inv_proof pl1 _ sent); [|apply tnp_refl|]|].
  pose proof (draw_proof pl1 now (due_slots now (pl_t pl1)) ns (pl_t pl1)) as Hd. cbv zeta in Hd.
  destruct (tick_draw pl1 now (pl_t pl1) (due_slots now (pl_t pl1)) ns) as [t jobs]. cbn [fst] in Hd.
  destruct (tick_send pp (ps_ident k) jobs rnds) as [pp1 calls]. cbn [fst pl_t set set_pl_t].
  intros i. destruct (Hd i) as [Dq Do], (H1 i) as [Hq Ho]. cbn. split.
  - destruct (qualified (slot t i)); [by rewrite Dq in Hq|done].
  - intros H. destruct (Do H) as [(Hold & -> & ->)|[Hnew Hu]].
    + destruct (Ho Hold) as [Hu Hin]. split; [done|]. intros Hin'. by apply Hin, Hs.
    + split; [done|]. intros Hin'. by apply (Hn _ Hnew), Hs.
Qed.

Lemma deliver_proof pl pp k pr kd src ag now rnd sent :
  mirror_inv pl sent -> (pr_type pr = PROBE_PING \/ (pr_type pr, pr_nonce pr) ∈ sent) ->
  let r := pathplane_apply pl pp k pr kd src ag now rnd in
  mirror_inv r.1.1 (match r.2 with PSend _ _ _ _ :: _ => [(PROBE_PONG, pr_nonce pr)] | _ => [] end ++ sent).
Proof.
  intros Hi Hd. unfold pathplane_apply. fold (came_from src). destruct (Z.eqb_spec (pr_type pr) PROBE_PING).
  - unfold apply_ping. set (pl1 := ping_locked pl (pp_base pp) k pr kd (came_from src) src ag now).
    pose proof (tnp_ping pl (pp_base pp) k pr kd (came_from src) src ag now) as Hp. fold pl1 in Hp.
    assert (is_Some pl1.2 -> forall i, outstanding (slot (pl_t pl) i) = true ->
      used (slot (pl_t pl) i) = true -> nonce (slot (pl_t pl) i) <> pr_nonce pr) as Hn.
    { unfold pl1, ping_locked. case_bool_decide as Hb; [by intros [? [=]]|]. intros _ i Ho Hu.
      destruct (nonce_path pl (pr_nonce pr)) eqn:E; [destruct Hb; eauto|]. by eapply nonce_path_none. }
    destruct pl1 as [pl2 [[rp drop]|]]; cbn [fst snd] in *;
      [|by apply (mirror_inv_proof pl _ sent)].
    destruct drop; [by apply (mirror_inv_proof pl _ sent)|].
    destruct (probeplane_seal _ _ _ _ _) as [pp1 [out|]]; cbn [fst snd app];
      [|by apply (mirror_inv_proof pl _ sent)].
    intros i. destruct (Hi i) as [Hq Ho], (Hp i) as [Pq Po]. split.
    + destruct (qualified (slot (pl_t pl2) i)); [by rewrite Pq in Hq|done].
    + intros H. destruct (Po H) as (H1 & -> & ->). destruct (Ho H1) as [Hu Hs]. split; [done|].
      intros [Hin|Hin]%elem_of_cons; [|done]. simplify_eq.
      by apply (Hn ltac:(eauto) i H1 Hu).
  - destruct (Z.eqb_spec (pr_type pr) PROBE_PONG) as [Ht|Ht].
    2:{ destruct (ps_other k); by apply (mirror_inv_proof pl _ sent); [|apply tnp_refl|]. }
    destruct Hd as [?|Hd]; [done|]. rewrite Ht in Hd. unfold apply_pong.
    destruct (nonce_path pl (pr_nonce pr)) as [j|] eqn:E.
    + apply nonce_path_some in E as (_ & _ & Ho & Hn). destruct (proj2 (Hi j) Ho) as [_ Hs]. by rewrite Hn in Hs.
    + by apply (mirror_inv_proof pl _ sent); [|apply tnp_refl|].
Qed.

Lemma mirror_reach pl sent : mirror pl sent -> mirror_inv pl sent.
Proof.
  induction 1 as [pl Hp|pl pp k now ns rnds sent _ IH Hn|pl pp k pr kd src ag now rnd sent _ IH Hd|
                  pl pl' sent _ IH Hp].
  - apply (mirror_inv_proof pathplane_init _ []); [|done|done]. intros i.
    assert (slot (pl_t pathplane_init) i = path_zero) as ->; [|done].
    unfold slot. cbn [pl_t pathplane_init slots path_table_init]. rewrite nth_lookup.
    destruct (_ !! i) as [p|] eqn:E; [|done]. by apply lookup_replicate in E as [-> _].
  - unfold pathplane_tick. pose proof (tick_proof pl pp k now ns rnds sent IH Hn) as Ht.
    destruct (tick_probes pl pp k now (Some ns) rnds) as [[pl1 pp1] calls]. cbn [fst] in Ht.
    pose proof (tnp_decide pl1 k now) as Hd.
    destruct (pathplane_decide pl1 k now) as [pl2 pick]. cbn [fst] in *.
    by apply (mirror_inv_proof pl1 _ (map (pair PROBE_PING) ns ++ sent)).
  - by apply deliver_proof.
  - by apply (mirror_inv_proof pl _ sent).
Qed.
End Reflect.

(** ** Lemmas: the selection and the pin *)
Lemma slot_map_in t g s i :
  (i < length (slots t))%nat -> slot (mk_table (map g (slots t)) s) i = g (slot t i).
Proof.
  intros Hi. unfold slot. cbn [slots].
  rewrite (nth_indep _ _ (g path_zero)) by (rewrite length_map; lia). apply map_nth.
Qed.

Lemma mark_usable_slot k t i :
  (i < length (slots t))%nat ->
  slot (mark_usable k t) i = (slot t i) <| usable := usable_now k (slot t i) |>.
Proof. exact (slot_map_in t (fun p => p <| usable := usable_now k p |>) (sel t) i). Qed.

Lemma mark_usable_ok k t : table_ok t -> table_ok (mark_usable k t).
Proof.
  intros Hok. apply (usable_ok t); [done | cbn; by rewrite length_map | done |]. intros i.
  destruct (decide (i < length (slots t))%nat).
  - by rewrite mark_usable_slot.
  - by rewrite !slot_beyond by (cbn; rewrite ?length_map; lia).
Qed.

Lemma first_from_map f g l i :
  (forall p, f (g p) = f p) -> first_from i f (map g l) = first_from i f l.
Proof.
  intros Hf. revert i. induction l as [|p l IH]; intros i; cbn; [done|]. rewrite Hf.
  by destruct (f p).
Qed.

Lemma expire_id p now : id (path_probe_expire p now) = id p.
Proof.
  unfold path_probe_expire. destruct (_ || _ || _); [done|]. unfold loss_record. by destruct (_ <? _).
Qed.

(** Scoring and asking the carriers leave every path its name. *)
Lemma decided_slots k t now :
  slots (path_select (mark_usable k t) now) =
  map (fun p => if used p then path_probe_expire (p <| usable := usable_now k p |>) now
                else p <| usable := usable_now k p |>) (slots t).
Proof.
  assert (slots (expire_all (mark_usable k t) now) =
    map (fun p => if used p then path_probe_expire (p <| usable := usable_now k p |>) now
                else p <| usable := usable_now k p |>) (slots t)) as E
    by (cbn; by rewrite map_map).
  unfold path_select. destruct (path_best _ now) as [b|]; [destruct (_ || _)|]; exact E.
Qed.

Lemma decided_first pid k t now :
  first_slot (id_is pid) (path_select (mark_usable k t) now) = first_slot (id_is pid) t.
Proof.
  unfold first_slot. rewrite decided_slots. apply first_from_map. intros p. unfold id_is.
  destruct (used p) eqn:E; cbn [used id set set_usable].
  - rewrite (proj1 (expire_frame _ now)), expire_id. cbn. by rewrite E.
  - by rewrite E.
Qed.

Lemma decided_pin k t now i :
  used (slot t i) = true ->
  let p := slot (path_select (mark_usable k t) now) i in
  used p = true /\ usable p = usable_now k (slot t i) /\
  path_warmth_of p now = path_warmth_of (slot t i) now.
Proof.
  intros Hu. cbv zeta. pose proof (used_in_range t i Hu) as Hi.
  assert (slot (path_select (mark_usable k t) now) i =
    path_probe_expire ((slot t i) <| usable := usable_now k (slot t i) |>) now) as ->.
  { set (g := fun p => if used p then path_probe_expire (p <| usable := usable_now k p |>) now
                       else p <| usable := usable_now k p |>).
    assert (slot (path_select (mark_usable k t) now) i = slot (mk_table (map g (slots t)) 0) i) as ->
      by (unfold slot; cbn [slots]; by rewrite decided_slots).
    rewrite slot_map_in by done. unfold g. by rewrite Hu. }
  pose proof (expire_frame ((slot t i) <| usable := usable_now k (slot t i) |>) now)
    as (E1 & E2 & _ & _ & _ & E6).
  rewrite E1, E2, E6. done.
Qed.

(** What the peer's pin asks for now: the path it names, if that can send and
    has not fallen below the tier it was pinned in. *)
Definition pin_target (pl : pathplane) (k : pathplane_sinks) (now : Z) : option nat :=
  match first_slot (id_is (pin_id pl)) (pl_t pl) with
  | Some i => if usable_now k (slot (pl_t pl) i) &&
                 (warmth_int (path_warmth_of (slot (pl_t pl) i) now) <=? pin_warmth pl)
              then Some i else None
  | None => None
  end.

Lemma decide_spec pl k now :
  let pl' := (pathplane_decide pl k now).1 in
  let t1 := path_select (mark_usable k (pl_t pl)) now in
  slots (pl_t pl') = slots t1 /\
  match (if pinned pl then pin_target pl k now else None) with
  | Some i => pinned pl' = true /\ sel (pl_t pl') = Z.of_nat i
  | None => pinned pl' = false /\ pl_t pl' = t1
  end.
Proof.
  cbv zeta. unfold pathplane_decide, pin_check, pin_target, pin_holds. cbn [fst pinned pin_id pin_warmth pl_t set set_pl_t].
  destruct (pinned pl) eqn:Ep; [|done]. cbn [negb]. rewrite decided_first.
  destruct (first_slot (id_is (pin_id pl)) (pl_t pl)) as [i|] eqn:Ef; [|done].
  apply first_slot_some in Ef as [Hi Hf]. apply andb_true_iff in Hf as [Hu _].
  destruct (decided_pin k (pl_t pl) now i Hu) as (_ & E2 & E3). rewrite E2, E3.
  by destruct (usable_now k (slot (pl_t pl) i) && _).
Qed.

(** What the selection picks can send. *)
Lemma select_usable t now :
  table_ok t -> 0 <= sel (path_select t now) ->
  used (slot (path_select t now) (sel_idx (path_select t now))) = true /\
  usable (slot (path_select t now) (sel_idx (path_select t now))) = true.
Proof.
  intros Hok. unfold path_select. pose proof (best_spec (expire_all t now) now) as Hb.
  destruct (path_best (expire_all t now) now) as [b|]; [|cbn; lia].
  destruct Hb as (_ & Hb & _). apply best_ok_used in Hb as [H1 H2].
  destruct (_ || _) eqn:E.
  - intros _. unfold sel_idx. cbn [sel]. rewrite Nat2Z.id. done.
  - intros _. rewrite !orb_false_iff, !negb_false_iff in E. tauto.
Qed.

Lemma pin_target_used pl k now i :
  pin_target pl k now = Some i ->
  used (slot (pl_t pl) i) = true /\ usable_now k (slot (pl_t pl) i) = true.
Proof.
  unfold pin_target. destruct (first_slot _ _) as [j|] eqn:E; [|done].
  apply first_slot_some in E as [_ E]. apply andb_true_iff in E as [E _].
  destruct (usable_now k (slot (pl_t pl) j)) eqn:Eu; [|done]. cbn. destruct (_ <=? _); [|done].
  intros H. by simplify_eq.
Qed.

Lemma adopt_ok t i : table_ok t -> used (slot t i) = true -> table_ok (mk_table (slots t) (Z.of_nat i)).
Proof. intros Hok Hu. eapply (@step_ok toy_crypto []); [exact Hok | by apply ts_adopt]. Qed.

Lemma decide_ok pl k now : table_ok (pl_t pl) -> table_ok (pl_t (pathplane_decide pl k now).1).
Proof.
  intros Hok. pose proof (select_ok _ now (mark_usable_ok k _ Hok)) as H1.
  destruct (decide_spec pl k now) as [Hs Hp].
  destruct (if pinned pl then pin_target pl k now else None) as [i|] eqn:E.
  - destruct (pinned pl); [|done]. destruct Hp as [_ Hp]. apply pin_target_used in E as [Hu _].
    destruct (decided_pin k (pl_t pl) now i Hu) as (E1 & _).
    destruct (pl_t (pathplane_decide pl k now).1) as [l s]. cbn in *. subst s l. by apply adopt_ok.
  - destruct Hp as [_ ->]. done.
Qed.

(** ** Lemmas: the table stays well formed *)

(** What a path is known by. *)
Definition same_name (p' p : path) : Prop :=
  used p' = used p /\ agent p' = agent p /\ kind p' = kind p /\ peer_ep p' = peer_ep p.

Lemma same_name_trans p1 p2 p3 : same_name p1 p2 -> same_name p2 p3 -> same_name p1 p3.
Proof. unfold same_name. intros (-> & -> & -> & ->) H. exact H. Qed.
Lemma same_name_event {C : Crypto} key p e :
  match e with EvPeerEp _ => False | _ => True end ->
  same_name (h_path (path_ev_step key (mk_hist p [] []) e)) p.
Proof.
  intros He. pose proof (event_frame key p e) as (H1 & H2 & H3 & H4). unfold same_name.
  destruct e; done.
Qed.
Lemma same_name_inbound {C : Crypto} p pr ep key :
  same_name (path_apply_tail (path_saw_inbound p ep) pr key) p.
Proof.
  eapply same_name_trans; [apply (same_name_event key _ (EvTail pr)); done|].
  apply (same_name_event key p (EvInbound ep)). done.
Qed.
Lemma same_name_pong {C : Crypto} p n now : same_name (path_probe_pong p n now).1 p.
Proof.
  pose proof (same_name_event [] p (EvPong n now) I) as H. cbn [path_ev_step] in H.
  destruct (path_probe_pong p n now) as [q []]; exact H.
Qed.

Lemma set_name_ok t i p : table_ok t -> used (slot t i) = true -> same_name p (slot t i) ->
  table_ok (set_slot t i p).
Proof. intros Hok Hu (E1 & E2 & E3 & E4). apply set_slot_ok; try done; [congruence | by right]. Qed.

Lemma pointwise_ok t g :
  table_ok t -> g path_zero = path_zero ->
  (forall p, used p = false -> g p = p) ->
  (forall p, used p = true -> used (g p) = true /\ agent (g p) = agent p /\ kind (g p) = kind p /\
     (agent p <> 0 \/ peer_ep (g p) = peer_ep p)) ->
  table_ok (mk_table (map g (slots t)) (sel t)).
Proof.
  intros [H1 H2 H3 H4 H5 H6] Hz Hf Hg.
  assert (forall i, slot (mk_table (map g (slots t)) (sel t)) i = g (slot t i)) as E
    by (intros; by apply slot_map).
  assert (forall p, used (g p) = used p) as Eu.
  { intros p. destruct (used p) eqn:Hu; [by apply Hg|]. by rewrite Hf. }
  split.
  - cbn. by rewrite length_map.
  - done.
  - intros Hs. rewrite E, Eu. by apply H3.
  - intros i. rewrite E, Eu. intros Hu. rewrite Hf by done. by apply H4.
  - intros i j. rewrite !E, !Eu. intros Hi Hj.
    destruct (Hg _ Hi) as (_ & -> & _), (Hg _ Hj) as (_ & -> & _). by apply H5.
  - intros i j. rewrite !E, !Eu. intros Hi Hj.
    destruct (Hg _ Hi) as (_ & -> & -> & Pi), (Hg _ Hj) as (_ & -> & -> & Pj).
    intros Ai Aj Hk. destruct Pi as [?| ->]; [done|]. destruct Pj as [?| ->]; [done|]. by apply H6.
Qed.

Section PlaneOk.
Context {C : Crypto}.

Lemma tick_eps_live pl k now a ep :
  (a, ep) ∈ tick_eps pl k now -> a ∈ default [] (ps_live k).
Proof.
  unfold tick_eps. destruct (ps_ice_ep k) as [f|]; [|set_solver]. destruct (_ <=? _); [|set_solver].
  rewrite list_elem_of_omap. intros (b & Hb & E). destruct (f b); cbn in E; by simplify_eq.
Qed.

(** The carriers a playbook names are carriers. *)
Definition live_ok (k : pathplane_sinks) : Prop := 0 ∉ default [] (ps_live k).

Lemma tick_scan_ok pl k now base :
  live_ok k -> table_ok (pl_t pl) -> table_ok (tick_scan k (tick_eps pl k now) base now (pl_t pl)).
Proof.
  intros Hl Hok. apply pointwise_ok; [done | done | |].
  { intros p Hu. unfold tick_slot. by rewrite Hu. }
  intros p Hu. unfold tick_slot. rewrite Hu. cbn [negb].
  set (p1 := note_warmth _ now).
  assert (same_name p1 p) as (E1 & E2 & E3 & E4).
  { unfold p1. eapply (same_name_trans _ (path_probe_expire (p <| usable := usable_now k p |>) now)).
    - unfold note_warmth. destruct (qualified _); [|done]. by destruct (negb _).
    - pose proof (expire_frame (p <| usable := usable_now k p |>) now) as (A & _ & B & D & E & _).
      done. }
  unfold tick_ep. destruct (kind_eqb (kind p1) PATH_ICE); [|rewrite E1, E2, E3, E4; auto].
  destruct (find _ _) as [[a ep]|] eqn:Ef; [|rewrite E1, E2, E3, E4; auto].
  apply find_some in Ef as [Hin Ha]. cbn [fst] in Ha. apply Z.eqb_eq in Ha.
  assert (agent p <> 0) as Hnz.
  { rewrite <- E2, Ha. intros ->. apply Hl. apply list_elem_of_In in Hin. by eapply tick_eps_live. }
  unfold path_set_peer_ep, path_id_refresh. destruct (_ || _); cbn; rewrite ?E1, ?E2, ?E3; auto.
Qed.

Lemma draw_ok pl now due ns t :
  table_ok t -> table_ok (tick_draw pl now t due ns).1 /\ sel (tick_draw pl now t due ns).1 = sel t.
Proof.
  revert ns t. induction due as [|j due IH]; intros [|n ns] t Hok; cbn [tick_draw fst]; try done.
  destruct (tick_due now (slot t j)) eqn:Ed; cbn [negb]; [|by apply IH].
  assert (used (slot t j) = true) as Hu.
  { unfold tick_due, path_probe_due in Ed. rewrite !andb_true_iff in Ed. tauto. }
  specialize (IH ns (set_slot t j (path_probe_sent (slot t j) n now))).
  destruct (tick_draw pl now _ due ns) as [t' jobs]. cbn [fst] in *. apply IH.
  by apply set_name_ok.
Qed.

Lemma tick_ok pl pp k now ns rnds :
  live_ok k -> table_ok (pl_t pl) -> table_ok (pl_t (tick_probes pl pp k now ns rnds).1.1).
Proof.
  intros Hl Hok. unfold tick_probes. destruct (bytes_eqb _ _); [done|].
  set (pl1 := (tick_ep_clock pl k now) <| pl_t := _ |>).
  assert (table_ok (pl_t pl1)) as H1.
  { cbn. assert (pl_t (tick_ep_clock pl k now) = pl_t pl) as ->
      by (unfold tick_ep_clock; by destruct (_ && _)). by apply tick_scan_ok. }
  destruct (_ =? 0)%nat; [done|]. destruct ns as [ns|]; [|done].
  pose proof (draw_ok pl1 now (due_slots now (pl_t pl1)) ns (pl_t pl1) H1) as [Hd _].
  destruct (tick_draw pl1 now (pl_t pl1) (due_slots now (pl_t pl1)) ns) as [t jobs]. cbn [fst] in Hd.
  by destruct (tick_send pp (ps_ident k) jobs rnds).
Qed.

Lemma offer_ok t k rem now : table_ok t -> table_ok (path_table_offer t k rem now).1.
Proof. intros Hok. destruct (offer_cases t k rem now) as [->|[_ ->]]; [done | by apply add_ok]. Qed.

Lemma offer_used t k rem now i :
  table_ok t -> (path_table_offer t k rem now).2 = Some i ->
  used (slot (path_table_offer t k rem now).1 i) = true.
Proof.
  intros Hok. unfold path_table_offer. destruct rem as [r|]; [|done].
  destruct (path_ep_from_sockaddr r sizeof_sockaddr_in6) as [ep|] eqn:E; [|done].
  destruct (path_table_find_ep t ep) as [j|] eqn:Ef.
  - cbn. intros H. simplify_eq. apply first_slot_some in Ef as [_ Ef]. rewrite !andb_true_iff in Ef. tauto.
  - destruct (negb _); [done|]. destruct (add_spec t k (Some r) 0 now ep Hok E)
      as (j & Hr & Hj & _ & Hc). rewrite Hr. intros H. simplify_eq.
    destruct Hc as [[Et Hk]|(_ & _ & Et)].
    + rewrite Et. unfold add_known in Hk. tauto.
    + rewrite Et, slot_set_eq by (rewrite (tk_len t Hok); done). unfold path_new.
      by destruct (path_ep_any ep).
Qed.

Lemma recv_path_used pl kd ep ag i : recv_path pl kd ep ag = Some i -> used (slot (pl_t pl) i) = true.
Proof.
  unfold recv_path, path_table_find_agent. destruct (kind_eqb _ _); [destruct (ag =? 0); [done|]|];
    intros H; apply first_slot_some in H as [_ H]; rewrite !andb_true_iff in H; tauto.
Qed.

Lemma ping_ok pl base k pr kd from src ag now :
  table_ok (pl_t pl) -> table_ok (pl_t (ping_locked pl base k pr kd from src ag now).1).
Proof.
  intros Hok. unfold ping_locked. case_bool_decide; [done|].
  set (tp := match recv_path pl kd from ag with Some i => _ | None => _ end).
  assert (table_ok tp.1 /\ forall i, tp.2 = Some i -> used (slot tp.1 i) = true) as [Ht Hu].
  { unfold tp. destruct (recv_path pl kd from ag) as [j|] eqn:E.
    - split; [done|]. cbn. intros i Hi. simplify_eq. by eapply recv_path_used.
    - destruct (_ && _ && _); [|done]. split; [by apply offer_ok|]. intros i. by apply offer_used. }
  destruct tp as [t [i|]]; cbn [fst snd] in *; [|done].
  apply set_name_ok; [done | by apply Hu | apply same_name_inbound].
Qed.

Lemma apply_ok pl pp k pr kd src ag now rnd :
  table_ok (pl_t pl) -> table_ok (pl_t (pathplane_apply pl pp k pr kd src ag now rnd).1.1).
Proof.
  intros Hok. unfold pathplane_apply. fold (came_from src). destruct (_ =? PROBE_PING).
  { rewrite apply_ping_table. by apply ping_ok. }
  destruct (_ =? PROBE_PONG); [|by destruct (ps_other k)].
  unfold apply_pong. destruct (nonce_path pl (pr_nonce pr)) as [i|] eqn:E; [|done].
  destruct (pong_misplaced _ kd (came_from src) src); [done|].
  apply nonce_path_some in E as (_ & Hu & _). set (q := path_apply_tail _ pr _).
  pose proof (same_name_pong q (pr_nonce pr) now) as Hp.
  destruct (path_probe_pong q (pr_nonce pr) now) as [p answered]. cbn [fst] in *.
  apply set_name_ok; [done | done |]. eapply same_name_trans; [exact Hp|]. apply same_name_inbound.
Qed.

Lemma pin_ok pl k pid now : table_ok (pl_t pl) -> table_ok (pl_t (pathplane_pin pl k pid now).1).
Proof.
  intros Hok. unfold pathplane_pin. destruct (first_slot _ _) as [i|] eqn:E; [|done].
  apply first_slot_some in E as [Hi E]. apply andb_true_iff in E as [Hu _].
  set (p := (slot (pl_t pl) i) <| usable := _ |>).
  assert (table_ok (set_slot (pl_t pl) i p)) as H1 by (by apply set_name_ok).
  destruct (negb _); [done|]. apply (adopt_ok (set_slot (pl_t pl) i p)); [done|].
  by rewrite slot_set_eq.
Qed.
End PlaneOk.

(** ** Lemmas: the round reaches every path that is due *)
Lemma sent_not_due p n now : tick_due now (path_probe_sent p n now) = false.
Proof. unfold tick_due, path_probe_due. cbn. by rewrite !andb_false_r. Qed.

Lemma draw_done pl now due ns t :
  (length due <= length ns)%nat ->
  (forall i, tick_due now (slot t i) = true -> i ∈ due) ->
  forall i, tick_due now (slot (tick_draw pl now t due ns).1 i) = false.
Proof.
  revert ns t. induction due as [|j due IH]; intros ns t Hl Hd i.
  { cbn [tick_draw fst]. destruct ns; cbn [fst]; destruct (tick_due now (slot t i)) eqn:E; try done;
      apply Hd in E; set_solver. }
  destruct ns as [|n ns]; cbn [length] in Hl; [lia|]. cbn [tick_draw].
  destruct (tick_due now (slot t j)) eqn:Ed; cbn [negb]; cycle 1.
  { apply IH; [lia|]. intros x Hx. destruct (decide (x = j)) as [->|]; [congruence|].
    specialize (Hd x Hx). set_solver. }
  specialize (IH ns (set_slot t j (path_probe_sent (slot t j) n now)) ltac:(lia)).
  destruct (tick_draw pl now _ due ns) as [t' jobs]. cbn [fst] in *. apply IH. intros x.
  destruct (decide (j = x)) as [<-|Hne].
  - assert (used (slot t j) = true) as Hu.
    { unfold tick_due, path_probe_due in Ed. rewrite !andb_true_iff in Ed. tauto. }
    rewrite slot_set_eq by (by apply used_in_range). by rewrite sent_not_due.
  - rewrite slot_set_ne by done. intros Hx. specialize (Hd x Hx). set_solver.
Qed.

Lemma due_slots_all now t i :
  length (slots t) = PATH_TABLE_MAX -> tick_due now (slot t i) = true -> i ∈ due_slots now t.
Proof.
  intros Hl Hd. unfold due_slots. apply list_elem_of_In, filter_In. split; [|done].
  apply list_elem_of_In, table_idx_elem. rewrite <- Hl. apply used_in_range.
  unfold tick_due, path_probe_due in Hd. rewrite !andb_true_iff in Hd. tauto.
Qed.

Lemma draw_jobs pl now due ns t : (length (tick_draw pl now t due ns).2 <= length due)%nat.
Proof.
  revert ns t. induction due as [|j due IH]; intros [|n ns] t; cbn [tick_draw snd length]; try lia.
  destruct (negb _); [specialize (IH ns t); lia|].
  specialize (IH ns (set_slot t j (path_probe_sent (slot t j) n now))).
  destruct (tick_draw pl now _ due ns). cbn in *. lia.
Qed.

Definition is_send (c : pl_call) : Prop := match c with PSend _ _ _ _ => True | _ => False end.

Lemma send_calls {C : Crypto} pp mine jobs rnds :
  let calls := (tick_send pp mine jobs rnds).2 in
  (length calls <= length jobs)%nat /\ Forall is_send calls.
Proof.
  revert pp rnds. induction jobs as [|j jobs IH]; intros pp rnds; cbn [tick_send]; [by cbn|].
  destruct (tj_drop j).
  { destruct (IH pp rnds) as [H1 H2]. cbn [length]. split; [lia | done]. }
  destruct (probeplane_seal _ _ _ _ _) as [pp1 [out|]]; [|by cbn; split; [lia|]].
  destruct (IH pp1 (drop 1 rnds)) as [H1 H2].
  destruct (tick_send pp1 mine jobs (drop 1 rnds)) as [pp2 calls]. cbn in *. split; [lia|].
  by constructor.
Qed.

(** ** The plane over time *)
Inductive plane_step {C : Crypto} (pl : pathplane) : pathplane -> Prop :=
| pl_add_ice ag now : plane_step pl (pathplane_add_ice pl ag now)
| pl_add_ep k kd rem n now : plane_step pl (pathplane_add_ep pl k kd rem n now).1
| pl_offer k rem now : plane_step pl (pathplane_offer_path pl k rem now)
| pl_drop_ice : plane_step pl (pathplane_drop_ice pl)
| pl_drop_agent ag : plane_step pl (pathplane_drop_agent pl ag)
| pl_recv pp k data kd src ag now rnd :
    plane_step pl (pathplane_recv pl pp k data kd src ag now rnd).1.1.1
| pl_apply pp k pr kd src ag now rnd :
    plane_step pl (pathplane_apply pl pp k pr kd src ag now rnd).1.1
| pl_tick pp k now ns rnds : live_ok k -> plane_step pl (pathplane_tick pl pp k now ns rnds).1.1.1
| pl_pin k pid now : plane_step pl (pathplane_pin pl k pid now).1
| pl_reset now : plane_step pl (pathplane_reset_stats pl now)
| pl_clear : plane_step pl (pathplane_clear pl)
| pl_arm kd to : plane_step pl (pathplane_blackhole_arm pl kd to)
| pl_mute on : plane_step pl (pathplane_blackhole_mute pl on)
| pl_lift : plane_step pl (pathplane_blackhole_lift pl).

Inductive plane_reach {C : Crypto} : pathplane -> Prop :=
| pc_init : plane_reach pathplane_init
| pc_step pl pl' : plane_reach pl -> plane_step pl pl' -> plane_reach pl'.

Lemma recv_apply {C : Crypto} pl pp k data kd src ag now rnd :
  (pathplane_recv pl pp k data kd src ag now rnd).1.1.1 = pl \/
  exists pp' pr, (probeplane_open pp data).2 = Some pr /\ pr_ufrag pr = ps_ident k /\
    (replay_ok (pp_rx pp) (pr_seq pr)).1 = true /\
    (pathplane_recv pl pp k data kd src ag now rnd).1.1.1 =
    (pathplane_apply pl pp' k pr kd src ag now rnd).1.1.
Proof.
  unfold pathplane_recv.
  assert (pp_rx (probeplane_open pp data).1 = pp_rx pp) as Erx.
  { destruct (open_state pp data) as [->|(-> & _ & _)]; [done|]. unfold saw_pair. by destruct (base_ok pp). }
  destruct (probeplane_open pp data) as [pp1 [pr|]]; [|by left]. cbn [fst snd] in *.
  unfold bytes_eqb. case_bool_decide as Hu; [|by left]. cbn [negb]. unfold probeplane_fresh.
  rewrite Erx. destruct (replay_ok (pp_rx pp) (pr_seq pr)) as [ok w] eqn:Ew. destruct ok; [|by left].
  right. destruct (pathplane_apply pl (pp1 <| pp_rx := w |>) k pr kd src ag now rnd) as [[pl2 pp2] calls] eqn:Ea.
  exists (pp1 <| pp_rx := w |>), pr. rewrite Ew, Ea. done.
Qed.

Lemma plane_step_ok {C : Crypto} pl pl' :
  table_ok (pl_t pl) -> plane_step pl pl' -> table_ok (pl_t pl') /\ holds pl' = holds pl.
Proof.
  assert (forall pl pp k pr kd src ag now rnd,
    holds (pathplane_apply pl pp k pr kd src ag now rnd).1.1 = holds pl) as Hap.
  { intros. unfold pathplane_apply, apply_ping, ping_locked, apply_pong.
    destruct (_ =? PROBE_PING).
    - case_bool_decide; [done|].
      destruct (match recv_path pl0 kd _ ag with Some i => _ | None => _ end) as [t [i|]];
        [destruct (blackholed pl0 _ src) | destruct (blackholed pl0 _ src)]; try done;
        by destruct (probeplane_seal _ _ _ _ _) as [? [?|]].
    - destruct (_ =? PROBE_PONG); [|by destruct (ps_other k)].
      destruct (nonce_path _ _); [|done]. destruct (pong_misplaced _ _ _ _); [done|].
      by destruct (path_probe_pong _ _ _). }
  intros Hok Hs. destruct Hs; try done.
  - split; [by apply add_ok | done].
  - unfold pathplane_add_ep. destruct (match path_ep_from_sockaddr rem _ with Some ep => _ | None => _ end);
      [done|]. pose proof (add_ok (pl_t pl) kd (Some rem) 0 now Hok) as H.
    by destruct (path_table_add (pl_t pl) kd (Some rem) 0 now).
  - unfold pathplane_offer_path. destruct (path_ep_from_sockaddr rem _); [|done].
    destruct (_ || _); [done|]. destruct (negb _); [done|]. destruct (is_self k _); [done|].
    split; [by apply offer_ok | done].
  - split; [by apply drop_slots_ok | done].
  - split; [|done]. cbn. unfold path_table_drop_agent. destruct (ag =? 0); [done | by apply drop_slots_ok].
  - destruct (recv_apply pl pp k data kd src ag now rnd) as [->|(pp' & pr & _ & _ & _ & ->)]; [done|].
    split; [by apply apply_ok | apply Hap].
  - split; [by apply apply_ok | apply Hap].
  - unfold pathplane_tick. pose proof (tick_ok pl pp k now ns rnds H Hok) as H1.
    assert (holds (tick_probes pl pp k now ns rnds).1.1 = holds pl) as Hh.
    { unfold tick_probes, tick_ep_clock. destruct (bytes_eqb _ _); [done|].
      destruct (_ && _); (destruct (_ =? 0)%nat; [done|]; destruct ns; [|done];
        destruct (tick_draw _ _ _ _ _); by destruct (tick_send _ _ _ _)). }
    destruct (tick_probes pl pp k now ns rnds) as [[pl1 pp1] calls]. cbn [fst] in *.
    pose proof (decide_ok pl1 k now H1) as H2.
    assert (holds (pathplane_decide pl1 k now).1 = holds pl1) as Hh2.
    { unfold pathplane_decide, pin_check. cbn. destruct (negb _); [done|].
      destruct (first_slot _ _); [|done]. by destruct (pin_holds _ _ _). }
    destruct (pathplane_decide pl1 k now) as [pl2 pick]. cbn [fst] in *. split; [done | congruence].
  - split; [by apply pin_ok|]. unfold pathplane_pin. destruct (first_slot _ _); [|done].
    by destruct (negb _).
  - split; [by apply reset_ok | done].
  - split; [apply init_ok | done].
Qed.

Lemma plane_reach_inv {C : Crypto} pl :
  plane_reach pl -> table_ok (pl_t pl) /\ length (holds pl) = PATHPLANE_HOLD_MAX.
Proof.
  induction 1 as [|pl pl' _ [IH1 IH2] Hs]; [split; [apply init_ok | done]|].
  destruct (plane_step_ok pl pl' IH1 Hs) as [H1 ->]. done.
Qed.

(** ** Properties *)

(** Whatever the plane is asked and whatever arrives, its table stays well
    formed: eight slots, a selection that is none or a held path, free slots
    zeroed but for the carrier flag, no path held twice; and the selection it
    hands out is a held path. *)
Theorem plane_reachable_ok {C : Crypto} pl :
  plane_reach pl ->
  table_ok (pl_t pl) /\ length (holds pl) = PATHPLANE_HOLD_MAX /\
  forall pid, pathplane_carry_id pl = Some pid ->
    exists i, used (slot (pl_t pl) i) = true /\ id (slot (pl_t pl) i) = pid /\
              sel (pl_t pl) = Z.of_nat i.
Proof.
  intros Hr. destruct (plane_reach_inv pl Hr) as [H1 H2].
  split_and!; try done. intros pid. unfold pathplane_carry_id.
  destruct (Z.leb_spec 0 (sel (pl_t pl))); [|done]. cbn [andb].
  destruct (used _) eqn:Eu; [|done]. intros E. simplify_eq.
  exists (Z.to_nat (sel (pl_t pl))). split_and!; try done. lia.
Qed.

Definition probe_sinks : pathplane_sinks :=
  mk_psinks (cstr "abcd") (Some [77]) None None None true true true None true.

Definition far_end : sockaddr := AF_INET6 7 (replicate 16 1) 0.

(** One routed path and one agent, after a round of probes. *)
Definition probing_plane : pathplane :=
  (@pathplane_tick toy_crypto
     (pathplane_add_ice (pathplane_add_ep pathplane_init probe_sinks PATH_ROUTED far_end 8 100).1 77 100)
     (probeplane_init 99 [1; 2] 5) probe_sinks 200 (Some [501; 502])
     [Some (replicate 24 3); Some (replicate 24 4)]).1.1.1.

Lemma probing_reach : @plane_reach toy_crypto probing_plane.
Proof.
  eapply pc_step; [|apply pl_tick; unfold live_ok; cbn; set_solver].
  eapply pc_step; [|apply pl_add_ice]. eapply pc_step; [apply pc_init | apply pl_add_ep].
Qed.

Lemma plane_reachable_ok_witness :
  table_ok (pl_t probing_plane) /\ sel (pl_t probing_plane) = 0 /\
  outstanding (slot (pl_t probing_plane) 0) = true.
Proof.
  split; [apply (@plane_reachable_ok toy_crypto probing_plane probing_reach)|].
  split; vm_compute; reflexivity.
Defined.

(** C3: a path is proved only by an answer to this end's own question.  When a
    datagram leaves a path qualified that was not, the datagram opened under
    this connection's keys as a pong, it names this end's identity, its
    sequence number was not seen before, it carries the very nonce this path
    was waiting on, and, unless it came over an agent, it came from where the
    question went. *)
Theorem recv_qualifies {C : Crypto} pl pp k data kd src ag now rnd i :
  let pl' := (pathplane_recv pl pp k data kd src ag now rnd).1.1.1 in
  qualified (slot (pl_t pl) i) = false -> qualified (slot (pl_t pl') i) = true ->
  exists pr, (probeplane_open pp data).2 = Some pr /\ pr_type pr = PROBE_PONG /\
    pr_ufrag pr = ps_ident k /\ (replay_ok (pp_rx pp) (pr_seq pr)).1 = true /\
    used (slot (pl_t pl) i) = true /\ outstanding (slot (pl_t pl) i) = true /\
    nonce (slot (pl_t pl) i) = pr_nonce pr /\
    forall sa ep, kd <> PATH_ICE -> src = Some sa ->
      path_ep_from_sockaddr sa sizeof_sockaddr_in6 = Some ep -> path_ep_any ep = false ->
      ep = peer_ep (slot (pl_t pl) i).
Proof.
  intros pl' Hq Hq'. unfold pl' in *.
  destruct (recv_apply pl pp k data kd src ag now rnd) as [E|(pp' & pr & Ho & Hu & Hf & E)];
    rewrite E in Hq'; [congruence|].
  destruct (apply_cases pl pp' k pr kd src ag now rnd i) as [[Hp _]|(Ht & Hn & Hm)];
    [by rewrite (Hp Hq') in Hq|].
  apply nonce_path_some in Hn as (_ & N1 & N2 & N3). exists pr. split_and!; try done.
  intros sa ep Hk -> Hep Hany.
  assert (came_from (Some sa) = ep) as Ec by (unfold came_from; by rewrite Hep).
  rewrite Ec in Hm. unfold pong_misplaced, kind_eqb in Hm.
  rewrite Hany, (bool_decide_eq_true_2 (is_Some (Some sa))), bool_decide_eq_false_2 in Hm by eauto.
  cbn [negb andb] in Hm. apply negb_false_iff in Hm. by apply path_ep_eq_iff in Hm.
Qed.

(** The far end's answer to the probe on the routed path. *)
Definition pong_datagram : bytes :=
  default [] (snd (@probeplane_seal toy_crypto (probeplane_init 99 [1; 2] 40) (Some (replicate 24 9))
    (path_fill_tail path_zero (pong_probe 501)) (Some (cstr "abcd")) PROBE_MAX)).

Lemma recv_qualifies_witness :
  nonce (slot (pl_t probing_plane) 0) = 501 /\
  mk_ep (replicate 16 1) 7 = peer_ep (slot (pl_t probing_plane) 0).
Proof.
  split; [vm_compute; reflexivity|].
  pose proof (@recv_qualifies toy_crypto probing_plane (probeplane_init 99 [1; 2] 5) probe_sinks
    pong_datagram PATH_ROUTED (Some far_end) 0 260 None 0) as H. cbv zeta in H.
  match type of H with ?A -> ?B -> _ =>
    assert A as H1 by (vm_compute; reflexivity); assert B as H2 by (vm_compute; reflexivity) end.
  destruct (H H1 H2) as (pr & _ & _ & _ & _ & _ & _ & _ & He).
  apply (He far_end); [discriminate | reflexivity | reflexivity | reflexivity].
Defined.

(** C13: an end cannot be talked into proving a path by its own words.  Someone
    who holds no key, and so can deliver only pings that were sealed before
    and probes this end sent itself, over any carrier and from any source, in
    any order and any number of times, never gets a path qualified: pings that
    carry a nonce this end waits on are not answered, so no answer of its own
    is ever one it is waiting for. *)
Theorem reflections_prove_nothing {C : Crypto} pl sent i :
  mirror pl sent -> qualified (slot (pl_t pl) i) = false.
Proof. intros H. by apply (mirror_reach pl sent H). Qed.

(** A ping of this end, sent back to it, and then another end's ping. *)
Definition bounced_plane : pathplane :=
  let back := mk_probe PROBE_PING 501 6 (cstr "abcd") false ep_zero 0 0 0 in
  (@pathplane_apply toy_crypto probing_plane (probeplane_init 99 [1; 2] 5) probe_sinks back
     PATH_ROUTED (Some far_end) 0 300 (Some (replicate 24 5))).1.1.

Lemma reflections_prove_nothing_witness :
  qualified (slot (pl_t bounced_plane) 0) = false /\ outstanding (slot (pl_t bounced_plane) 0) = true.
Proof.
  split; [|vm_compute; reflexivity].
  eapply (@reflections_prove_nothing toy_crypto).
  eapply mi_deliver; [|left; reflexivity].
  apply (mi_tick _ (probeplane_init 99 [1; 2] 5) probe_sinks 200 [501; 502]
           [Some (replicate 24 3); Some (replicate 24 4)] []); [|set_solver].
  apply mi_start. eapply tnp_trans; [apply tnp_add | apply tnp_add_ep].
Defined.

(** The peer's pin is followed while it can be and no longer.  A decision
    leaves the pin in force exactly when the path it names is held, can send
    and has not fallen below the tier it was pinned in, and then that path
    carries; otherwise the pin is dropped and the choice is the selection's
    own; and a path that carries can always send. *)
Theorem pin_contract pl k now :
  table_ok (pl_t pl) ->
  let pl' := (pathplane_decide pl k now).1 in
  (pinned pl' = true <-> pinned pl = true /\ is_Some (pin_target pl k now)) /\
  (forall i, pinned pl = true -> pin_target pl k now = Some i -> sel (pl_t pl') = Z.of_nat i) /\
  (pinned pl' = false -> pl_t pl' = path_select (mark_usable k (pl_t pl)) now) /\
  (0 <= sel (pl_t pl') ->
   used (slot (pl_t pl') (sel_idx (pl_t pl'))) = true /\
   usable (slot (pl_t pl') (sel_idx (pl_t pl'))) = true).
Proof.
  intros Hok pl'. destruct (decide_spec pl k now) as [Hs Hp]. fold pl' in Hs, Hp.
  destruct (pinned pl) eqn:Epin; [destruct (pin_target pl k now) as [i|] eqn:Et|].
  - destruct Hp as [P1 P2]. split_and!.
    + split; [eauto | done].
    + intros j _ Hj. by simplify_eq.
    + congruence.
    + intros _. unfold slot, sel_idx. rewrite Hs, P2, Nat2Z.id.
      apply pin_target_used in Et as [Hu Hus].
      destruct (decided_pin k (pl_t pl) now i Hu) as (E1 & E2 & _). unfold slot in E1, E2.
      rewrite E1, E2. done.
  - destruct Hp as [P1 P2]. split_and!; try done.
    + rewrite P1. split; [done | by intros [_ []]].
    + intros Hsel. rewrite P2 in *. pose proof (mark_usable_ok k _ Hok) as Hm.
      by apply select_usable.
  - destruct Hp as [P1 P2]. split_and!; try done.
    + rewrite P1. split; [done | by intros []].
    + intros Hsel. rewrite P2 in *. pose proof (mark_usable_ok k _ Hok) as Hm.
      by apply select_usable.
Qed.

(** The path in use pinned, and later silent for too long. *)
Lemma pin_contract_witness :
  let pl := (pathplane_pin probing_plane probe_sinks (id (slot (pl_t probing_plane) 1)) 250).1 in
  pinned pl = true /\ sel (pl_t (pathplane_decide pl probe_sinks 300).1) = 0 /\
  pinned (pathplane_decide pl probe_sinks 9000).1 = false.
Proof.
  cbv zeta. set (pl := (pathplane_pin _ _ _ _).1).
  assert (table_ok (pl_t pl)) as Hok.
  { apply pin_ok. apply (@plane_reach_inv toy_crypto probing_plane probing_reach). }
  split; [vm_compute; reflexivity|]. split.
  - apply (proj1 (proj2 (pin_contract pl probe_sinks 300 Hok)) 0%nat); vm_compute; reflexivity.
  - destruct (pin_contract pl probe_sinks 9000 Hok) as [[H _] _].
    destruct (pinned (pathplane_decide pl probe_sinks 9000).1); [|done].
    destruct (H eq_refl) as [_ [i Hi]]. vm_compute in Hi. discriminate Hi.
Defined.

(** The probe round misses nothing and floods nothing.  With an identity to
    probe under and the nonces drawn, no path that can send is left due after
    the round; a round sends at most one probe for each path, and does nothing
    but send. *)
Theorem tick_probes_all {C : Crypto} pl pp k now ns rnds :
  table_ok (pl_t pl) -> live_ok k -> ps_ident k <> [] -> (PATH_TABLE_MAX <= length ns)%nat ->
  let r := tick_probes pl pp k now (Some ns) rnds in
  (forall i, tick_due now (slot (pl_t r.1.1) i) = false) /\
  (length r.2 <= PATH_TABLE_MAX)%nat /\ Forall is_send r.2.
Proof.
  intros Hok Hl Hid Hns. unfold tick_probes, bytes_eqb. rewrite bool_decide_eq_false_2 by done.
  set (pl1 := (tick_ep_clock pl k now) <| pl_t := _ |>).
  assert (length (slots (pl_t pl1)) = PATH_TABLE_MAX) as Hlen.
  { cbn. rewrite length_map. assert (pl_t (tick_ep_clock pl k now) = pl_t pl) as ->
      by (unfold tick_ep_clock; by destruct (_ && _)). apply (tk_len _ Hok). }
  assert (length (due_slots now (pl_t pl1)) <= PATH_TABLE_MAX)%nat as Hdl.
  { unfold due_slots. etrans; [apply filter_length_le|]. done. }
  assert (forall i, tick_due now (slot (pl_t pl1) i) = true -> i ∈ due_slots now (pl_t pl1)) as Hin
    by (intros i; by apply due_slots_all).
  destruct (Nat.eqb_spec (length (due_slots now (pl_t pl1))) 0) as [E0|E0].
  { split_and!; [|cbn; lia | constructor]. intros i. cbn [fst].
    destruct (tick_due now (slot (pl_t pl1) i)) eqn:E; [|done].
    apply Hin in E. apply nil_length_inv in E0. rewrite E0 in E. by apply elem_of_nil in E. }
  pose proof (draw_done pl1 now (due_slots now (pl_t pl1)) ns (pl_t pl1) ltac:(lia) Hin) as Hd.
  pose proof (draw_jobs pl1 now (due_slots now (pl_t pl1)) ns (pl_t pl1)) as Hj.
  destruct (tick_draw pl1 now (pl_t pl1) (due_slots now (pl_t pl1)) ns) as [t jobs]. cbn [fst snd] in *.
  destruct (send_calls pp (ps_ident k) jobs rnds) as [S1 S2].
  destruct (tick_send pp (ps_ident k) jobs rnds) as [pp1 calls]. cbn [fst snd] in *.
  split_and!; [exact Hd | lia | done].
Qed.

Lemma tick_probes_all_witness :
  let r := @tick_probes toy_crypto probing_plane (probeplane_init 99 [1; 2] 9) probe_sinks 1400
             (Some (seqZ 600 8)) [Some (replicate 24 3); Some (replicate 24 4)] in
  length r.2 = 2%nat /\ tick_due 1400 (slot (pl_t r.1.1) 0) = false.
Proof.
  cbv zeta. split; [vm_compute; reflexivity|].
  apply (@tick_probes_all toy_crypto).
  - apply (@plane_reach_inv toy_crypto probing_plane probing_reach).
  - unfold live_ok. cbn. set_solver.
  - discriminate.
  - apply Nat.leb_le. vm_compute. reflexivity.
Defined.

(** A pong that arrives over an agent proves the path that waits on its nonce,
    whatever kind of path that is, and whatever source it claims. *)
Lemma pong_over_agent_qualifies {C : Crypto} pl pp k pr src ag now rnd i :
  pr_type pr = PROBE_PONG -> nonce_path pl (pr_nonce pr) = Some i ->
  qualified (slot (pl_t (pathplane_apply pl pp k pr PATH_ICE src ag now rnd).1.1) i) = true.
Proof.
  intros Ht Hn. unfold pathplane_apply. fold (came_from src). rewrite Ht.
  change (PROBE_PONG =? PROBE_PING) with false. change (PROBE_PONG =? PROBE_PONG) with true. cbv iota.
  unfold apply_pong. rewrite Hn.
  assert (pong_misplaced (slot (pl_t pl) i) PATH_ICE (came_from src) src = false) as -> by done.
  pose proof (nonce_path_some pl _ i Hn) as (Hi & _ & Ho & Hnn).
  set (q := path_apply_tail _ pr _).
  assert (outstanding q = true /\ nonce q = pr_nonce pr) as [Q1 Q2].
  { unfold q, path_apply_tail, path_saw_inbound, path_peer_view, path_set_self_ep, path_id_refresh.
    destruct (negb _); destruct (negb _); try done; by destruct (_ || _). }
  unfold path_probe_pong. rewrite Q1, Q2, Z.eqb_refl. cbn [negb orb].
  set (r1 := loss_record _ false).
  assert (forall x : path, qualified (if negb (qualified x) then
     (x <| qualified := true |> <| next_probe_ms := u64 (now + PATH_KEEP_MS) |>, true) else (x, true)).1 = true)
    as Hx by (intros x; destruct (qualified x) eqn:E; cbn; done).
  specialize (Hx (r1 <| last_pong_ms := now |>)).
  destruct (if negb (qualified (r1 <| last_pong_ms := now |>)) then _ else _) as [p answered].
  cbn [fst pl_t set set_pl_t]. cbn [fst] in Hx. by rewrite slot_set_eq.
Qed.
