(* ===== verification/PathHolds.v ===== *)
(** src/src/pathplane.c, second part: the carriers a connection has set aside,
    and when each of them is let go.  A carrier is freed through the owner's
    sink, so the calls an operation makes are the carriers it gives up. *)
From S2P Require Import Prelude Net Crypto Keys PathEp Path PathTable ProbePlane PathPlane.

(** ** Carriers set aside *)
Definition pathplane_free_agent (pl : pathplane) (k : pathplane_sinks) (ag ctx : Z) :
  pathplane * list pl_call :=
  let pl := if truth ag then pathplane_drop_agent pl ag else pl in
  (pl, if ps_agent_free k then [PAgentFree ag ctx] else []).

Definition hold_at (pl : pathplane) (i : nat) : pathplane_hold := nth i (holds pl) hold_zero.

Definition hold_idx : list nat := seq 0 PATHPLANE_HOLD_MAX.

Definition hold_clear (pl : pathplane) (k : pathplane_sinks) (i : nat) : pathplane * list pl_call :=
  let h := hold_at pl i in
  pathplane_free_agent (pl <| holds := <[i := hold_zero]> (holds pl) |>) k (hd_agent h) (hd_ctx h).

(** The first set-aside carrier a test holds of. *)
Definition find_hold (f : pathplane_hold -> bool) (pl : pathplane) : option nat :=
  find (fun i => f (hold_at pl i)) hold_idx.

Definition pathplane_hold_add (pl : pathplane) (k : pathplane_sinks) (ag ctx until_ms : Z) :
  pathplane * list pl_call :=
  match find_hold (fun h => negb (truth (hd_agent h))) pl with
  | Some i => (pl <| holds := <[i := mk_hold ag ctx until_ms]> (holds pl) |>, [])
  | None => pathplane_free_agent pl k ag ctx
  end.

Definition pathplane_has_hold (pl : pathplane) : bool :=
  existsb (fun i => truth (hd_agent (hold_at pl i))) hold_idx.

Definition pathplane_hold_carrying (pl : pathplane) : option nat :=
  let s := sel (pl_t pl) in
  let p := slot (pl_t pl) (Z.to_nat s) in
  if (0 <=? s) && used p && truth (agent p)
  then find_hold (fun h => hd_agent h =? agent p) pl
  else None.

Definition pathplane_holds_agents (pl : pathplane) (max : nat) : list Z :=
  take max (List.filter truth (map (fun i => hd_agent (hold_at pl i)) hold_idx)).

(** [for (i..) if (due(i)) hold_clear(pl, k, i);], the test reading the slot as
    it is when its turn comes. *)
Fixpoint clear_where (k : pathplane_sinks) (due : nat -> pathplane_hold -> bool) (pl : pathplane)
  (idx : list nat) : pathplane * list pl_call :=
  match idx with
  | [] => (pl, [])
  | i :: idx' =>
      let '(pl, c1) := if due i (hold_at pl i) then hold_clear pl k i else (pl, []) in
      let '(pl, c2) := clear_where k due pl idx' in
      (pl, c1 ++ c2)
  end.

Definition pathplane_holds_free_all (pl : pathplane) (k : pathplane_sinks) :
  pathplane * list pl_call :=
  clear_where k (fun _ h => truth (hd_agent h)) pl hold_idx.

Definition reap_due (k : pathplane_sinks) (carrying : option nat) (now : Z) (i : nat)
  (h : pathplane_hold) : bool :=
  if negb (truth (hd_agent h)) || bool_decide (carrying = Some i) then false
  else negb ((now <? hd_until_ms h) &&
             negb (match ps_agent_failed k with Some f => f (hd_agent h) | None => false end)).

Definition pathplane_holds_reap (pl : pathplane) (k : pathplane_sinks) (now : Z) :
  pathplane * list pl_call :=
  clear_where k (reap_due k (pathplane_hold_carrying pl) now) pl hold_idx.

(** Two paths over one route: the same address pair, ports apart. *)
Definition route_one (t : path_table) (i : nat) : bool :=
  let p := slot t i in
  used p && kind_eqb (kind p) PATH_ICE && negb (path_ep_any (peer_ep p)).

Definition route_same (t : path_table) (i j : nat) : bool :=
  let p := slot t i in
  let q := slot t j in
  used q && kind_eqb (kind q) PATH_ICE && path_ep_same_addr (peer_ep p) (peer_ep q) &&
  have_self_ep p && have_self_ep q && path_ep_same_addr (self_ep p) (self_ep q).

(** Which of the two agents goes, 0 for neither. *)
Definition route_drop (t : path_table) (live : Z) (i j : nat) : Z :=
  if negb (agent (slot t j) =? live) && negb (Z.of_nat j =? sel t) then agent (slot t j)
  else if negb (agent (slot t i) =? live) && negb (Z.of_nat i =? sel t) then agent (slot t i)
  else 0.

(** One pair of slots: the redundant agent leaves the carriers set aside. *)
Definition dedup_pair (live : Z) (st : pathplane * list (Z * Z)) (ij : nat * nat) :
  pathplane * list (Z * Z) :=
  let '(pl, losers) := st in
  let '(i, j) := ij in
  let t := pl_t pl in
  if negb (route_one t i) || negb (route_same t i j) then st
  else
    let d := route_drop t live i j in
    if negb (truth d) then st
    else match find_hold (fun h => hd_agent h =? d) pl with
         | Some h => (pl <| holds := <[h := hold_zero]> (holds pl) |>,
                      losers ++ [(d, hd_ctx (hold_at pl h))])
         | None => st
         end.

Definition slot_pairs : list (nat * nat) :=
  flat_map (fun i => map (fun j => (i, j)) (seq (S i) (PATH_TABLE_MAX - S i))) table_idx.

Fixpoint free_all (pl : pathplane) (k : pathplane_sinks) (l : list (Z * Z)) :
  pathplane * list pl_call :=
  match l with
  | [] => (pl, [])
  | (a, c) :: l' =>
      let '(pl, c1) := pathplane_free_agent pl k a c in
      let '(pl, c2) := free_all pl k l' in
      (pl, c1 ++ c2)
  end.

Definition pathplane_route_dedup (pl : pathplane) (k : pathplane_sinks) (live : Z) :
  pathplane * list pl_call :=
  let '(pl, losers) := fold_left (dedup_pair live) slot_pairs (pl, []) in
  free_all pl k losers.

(** The carrier and its context; [None] for an index out of range. *)
Definition pathplane_hold_take (pl : pathplane) (i : Z) : pathplane * option (Z * Z) :=
  if (i <? 0) || (Z.of_nat PATHPLANE_HOLD_MAX <=? i) then (pl, None)
  else
    let h := hold_at pl (Z.to_nat i) in
    (pl <| holds := <[Z.to_nat i := hold_zero]> (holds pl) |>, Some (hd_agent h, hd_ctx h)).

(** The plane, the carrier in use and its context afterwards, the calls, and
    the return value. *)
Definition pathplane_holds_settle (pl : pathplane) (k : pathplane_sinks) (live : Z * Z) :
  pathplane * (Z * Z) * list pl_call * Z :=
  match pathplane_hold_carrying pl with
  | Some i =>
      let '(pl, taken) := pathplane_hold_take pl (Z.of_nat i) in
      let '(pl, calls) := pathplane_free_agent pl k live.1 live.2 in
      (pl, default (0, live.2) taken, calls, 1)
  | None =>
      if negb (pathplane_has_hold pl) then (pl, live, [], 0)
      else let '(pl, calls) := pathplane_holds_free_all pl k in (pl, live, calls, -1)
  end.

(** ** What is set aside, and what is let go *)
Definition held_of (h : pathplane_hold) : option (Z * Z) :=
  if truth (hd_agent h) then Some (hd_agent h, hd_ctx h) else None.
Definition held (pl : pathplane) : list (Z * Z) := omap held_of (holds pl).

Definition freed_of (c : pl_call) : option (Z * Z) :=
  match c with PAgentFree a x => Some (a, x) | _ => None end.
Definition freed (calls : list pl_call) : list (Z * Z) := omap freed_of calls.

(** ** Lemmas: the slots *)
Lemma truth_true x : truth x = true <-> x <> 0.
Proof. unfold truth. destruct (Z.eqb_spec x 0); cbn; split; done. Qed.
Lemma truth_false x : truth x = false <-> x = 0.
Proof. unfold truth. destruct (Z.eqb_spec x 0); cbn; split; done. Qed.

Lemma freed_app c1 c2 : freed (c1 ++ c2) = freed c1 ++ freed c2.
Proof. apply omap_app. Qed.

(** Writing one slot of a list of holds. *)
Lemma held_insert (l : list pathplane_hold) i h :
  (i < length l)%nat ->
  exists rest, omap held_of l ≡ₚ option_list (held_of (nth i l hold_zero)) ++ rest /\
               omap held_of (<[i := h]> l) ≡ₚ option_list (held_of h) ++ rest.
Proof.
  revert i. induction l as [|x l IH]; intros [|i] Hi; cbn in Hi; try lia.
  - exists (omap held_of l). cbn. destruct (held_of x), (held_of h); done.
  - destruct (IH i) as (rest & H1 & H2); [lia|].
    exists (option_list (held_of x) ++ rest). cbn.
    destruct (held_of x) as [y|]; cbn; [|done]. rewrite H1, H2. split; by rewrite Permutation_middle.
Qed.

Lemma held_clear pl i :
  (i < length (holds pl))%nat -> hd_agent (hold_at pl i) <> 0 ->
  held pl ≡ₚ (hd_agent (hold_at pl i), hd_ctx (hold_at pl i)) ::
             held (pl <| holds := <[i := hold_zero]> (holds pl) |>).
Proof.
  intros Hi Ha. destruct (held_insert (holds pl) i hold_zero Hi) as (rest & H1 & H2).
  unfold held. cbn [holds set set_holds]. rewrite H2. change (held_of hold_zero) with (@None (Z * Z)).
  cbn [option_list app]. rewrite H1. unfold held_of, hold_at in *.
  by rewrite (proj2 (truth_true _) Ha).
Qed.

Lemma held_fill pl i ag ctx until_ms :
  (i < length (holds pl))%nat -> hd_agent (hold_at pl i) = 0 -> ag <> 0 ->
  held (pl <| holds := <[i := mk_hold ag ctx until_ms]> (holds pl) |>) ≡ₚ (ag, ctx) :: held pl.
Proof.
  intros Hi Ha Hag. destruct (held_insert (holds pl) i (mk_hold ag ctx until_ms) Hi) as (rest & H1 & H2).
  unfold held. cbn [holds set set_holds]. rewrite H2, H1. unfold held_of, hold_at in *. cbn.
  rewrite (proj2 (truth_true _) Hag), Ha. done.
Qed.

Lemma find_hold_some f pl i :
  find_hold f pl = Some i -> (i < PATHPLANE_HOLD_MAX)%nat /\ f (hold_at pl i) = true.
Proof. intros H. apply find_some in H as [H1 H2]. apply in_seq in H1. split; [lia | done]. Qed.

(** What letting one carrier go does. *)
Lemma free_agent_spec pl k ag ctx :
  ps_agent_free k = true ->
  let r := pathplane_free_agent pl k ag ctx in
  holds r.1 = holds pl /\ freed r.2 = [(ag, ctx)] /\
  pl_t r.1 = path_table_drop_agent (pl_t pl) ag.
Proof.
  intros Hf. unfold pathplane_free_agent. rewrite Hf. cbn. split_and!; try done.
  - by destruct (truth ag).
  - unfold pathplane_drop_agent, path_table_drop_agent, truth. by destruct (ag =? 0).
Qed.

(** Carriers leave the table and never come back through this file. *)
Definition fewer (t' t : path_table) : Prop :=
  forall i, used (slot t' i) = true -> slot t' i = slot t i.

Lemma fewer_refl t : fewer t t.
Proof. by intros i. Qed.
Lemma fewer_trans t1 t2 t3 : fewer t1 t2 -> fewer t2 t3 -> fewer t1 t3.
Proof. intros H1 H2 i Hu. rewrite (H1 i Hu). apply H2. by rewrite <- (H1 i Hu). Qed.

(** No path of a table borrows a carrier. *)
Definition unborrowed (a : Z) (t : path_table) : Prop :=
  forall i, used (slot t i) = true -> agent (slot t i) <> a.

Lemma unborrowed_fewer a t t' : unborrowed a t -> fewer t' t -> unborrowed a t'.
Proof. intros Hu Hf i Hi. rewrite (Hf i Hi). apply Hu. by rewrite <- (Hf i Hi). Qed.

Lemma drop_agent_spec t a :
  fewer (path_table_drop_agent t a) t /\ (a <> 0 -> unborrowed a (path_table_drop_agent t a)).
Proof.
  unfold path_table_drop_agent. destruct (Z.eqb_spec a 0); [split; [apply fewer_refl | done]|].
  assert (forall i, slot (drop_slots (fun p => used p && (agent p =? a)) t) i =
    if used (slot t i) && (agent (slot t i) =? a) then path_zero else slot t i) as E.
  { intros i. unfold drop_slots. by rewrite slot_map. }
  split.
  - intros i. rewrite E. by destruct (_ && _).
  - intros _ i. rewrite E. destruct (used (slot t i) && (agent (slot t i) =? a)) eqn:Eb; [done|].
    intros Hu. rewrite Hu in Eb. by apply Z.eqb_neq.
Qed.

(** A run of frees: what an operation of this file does to the plane, given
    the carriers it came with beside those set aside. *)
Record lets_go (pl pl' : pathplane) (gone : list (Z * Z)) : Prop := {
  lg_len : length (holds pl') = length (holds pl);
  lg_table : fewer (pl_t pl') (pl_t pl);
  lg_free : forall a c, (a, c) ∈ gone -> a <> 0 -> unborrowed a (pl_t pl');
  lg_ok : table_ok (pl_t pl) -> table_ok (pl_t pl')
}.

Lemma lets_go_refl pl : lets_go pl pl [].
Proof. split; [done | apply fewer_refl | set_solver | done]. Qed.

Lemma lets_go_trans pl1 pl2 pl3 g1 g2 :
  lets_go pl1 pl2 g1 -> lets_go pl2 pl3 g2 -> lets_go pl1 pl3 (g1 ++ g2).
Proof.
  intros [L1 T1 F1 K1] [L2 T2 F2 K2]. split; [congruence | by eapply fewer_trans| |auto].
  intros a c [Hin|Hin]%elem_of_app Ha; [|by eapply F2].
  eapply unborrowed_fewer; [by eapply F1 | done].
Qed.

Lemma free_agent_goes pl pl0 k ag ctx :
  ps_agent_free k = true -> pl_t pl0 = pl_t pl -> length (holds pl0) = length (holds pl) ->
  let r := pathplane_free_agent pl0 k ag ctx in lets_go pl r.1 (freed r.2).
Proof.
  intros Hf Ht Hl r. destruct (free_agent_spec pl0 k ag ctx Hf) as (H1 & H2 & H3). fold r in H1, H2, H3.
  rewrite H2. destruct (drop_agent_spec (pl_t pl0) ag) as [D1 D2]. rewrite <- H3, Ht in D1.
  split; [by rewrite H1 | done | |].
  2:{ rewrite H3, Ht. intros Hok. unfold path_table_drop_agent.
      destruct (ag =? 0); [done | by apply drop_slots_ok]. }
  intros a c Hin Ha. apply list_elem_of_singleton in Hin. simplify_eq. rewrite H3. by apply D2.
Qed.

Lemma hold_clear_spec pl k i :
  ps_agent_free k = true -> (i < length (holds pl))%nat -> hd_agent (hold_at pl i) <> 0 ->
  let r := hold_clear pl k i in
  lets_go pl r.1 (freed r.2) /\ held r.1 ++ freed r.2 ≡ₚ held pl /\
  holds r.1 = <[i := hold_zero]> (holds pl) /\
  pl_t r.1 = path_table_drop_agent (pl_t pl) (hd_agent (hold_at pl i)).
Proof.
  intros Hf Hi Ha r. unfold hold_clear in r.
  set (pl0 := pl <| holds := <[i := hold_zero]> (holds pl) |>) in r.
  destruct (free_agent_spec pl0 k (hd_agent (hold_at pl i)) (hd_ctx (hold_at pl i)) Hf) as (H1 & H2 & H3).
  fold r in H1, H2, H3. split; [|split_and!].
  - apply free_agent_goes; [done | done |]. cbn. by rewrite length_insert.
  - rewrite H2, (held_clear pl i Hi Ha). unfold held at 1. rewrite H1. fold (held pl0).
    by rewrite <- Permutation_cons_append.
  - exact H1.
  - exact H3.
Qed.

Lemma clear_where_spec k due idx pl :
  ps_agent_free k = true -> Forall (fun i => i < length (holds pl))%nat idx ->
  (forall i h, due i h = true -> hd_agent h <> 0) ->
  let r := clear_where k due pl idx in
  lets_go pl r.1 (freed r.2) /\ held r.1 ++ freed r.2 ≡ₚ held pl.
Proof.
  intros Hf Hidx Hdue. revert pl Hidx. induction idx as [|i idx IH]; intros pl Hidx; cbn [clear_where].
  { cbn. rewrite app_nil_r. split; [apply lets_go_refl | done]. }
  apply Forall_cons in Hidx as [Hi Hidx]. destruct (due i (hold_at pl i)) eqn:E.
  - destruct (hold_clear_spec pl k i Hf Hi (Hdue _ _ E)) as (G1 & P1 & _).
    destruct (hold_clear pl k i) as [pl1 c1]. cbn [fst snd] in *.
    specialize (IH pl1). rewrite (lg_len _ _ _ G1) in IH. destruct (IH Hidx) as [G2 P2].
    destruct (clear_where k due pl1 idx) as [pl2 c2]. cbn [fst snd] in *.
    rewrite freed_app. split; [by eapply lets_go_trans|].
    rewrite <- P1, <- P2, <- app_assoc. by rewrite (Permutation_app_comm (freed c1)).
  - destruct (IH pl Hidx) as [G P]. by destruct (clear_where k due pl idx) as [pl2 c2].
Qed.

(** The path in use, if there is one, is as it was. *)
Definition carry_kept (t t' : path_table) : Prop :=
  sel t' = sel t /\ (0 <= sel t -> slot t' (sel_idx t) = slot t (sel_idx t)).

Lemma carry_kept_refl t : carry_kept t t.
Proof. by split. Qed.
Lemma carry_kept_trans t1 t2 t3 : carry_kept t1 t2 -> carry_kept t2 t3 -> carry_kept t1 t3.
Proof.
  intros [S1 H1] [S2 H2]. unfold carry_kept, sel_idx in *. rewrite S1 in H2.
  split; [congruence|]. intros Hs. by rewrite H2, H1.
Qed.

(** The carrier of the path in use. *)
Definition carries (t : path_table) (a : Z) : Prop := 0 <= sel t /\ agent (slot t (sel_idx t)) = a.

Lemma drop_agent_carry t a : ~ carries t a -> carry_kept t (path_table_drop_agent t a).
Proof.
  intros Hc. unfold path_table_drop_agent. destruct (Z.eqb_spec a 0); [apply carry_kept_refl|].
  assert (0 <= sel t -> (used (slot t (sel_idx t)) && (agent (slot t (sel_idx t)) =? a)) = false) as Hn.
  { intros Hs. apply andb_false_iff. right. apply Z.eqb_neq. intros E. by apply Hc. }
  unfold carry_kept, drop_slots. cbn [sel]. split.
  - destruct (Z.leb_spec 0 (sel t)); [|done]. cbn [andb]. by rewrite Hn.
  - intros Hs. rewrite slot_map by done. by rewrite Hn.
Qed.

Lemma carries_kept t t' a : carry_kept t t' -> carries t' a <-> carries t a.
Proof.
  intros [Hs Hk]. unfold carries, sel_idx in *. rewrite Hs.
  split; intros [H1 H2]; split; try done; rewrite Hk in *; done.
Qed.

Lemma hold_at_insert pl i j :
  (i < length (holds pl))%nat ->
  nth j (<[i := hold_zero]> (holds pl)) hold_zero = if decide (i = j) then hold_zero else hold_at pl j.
Proof.
  intros Hi. unfold hold_at. rewrite !nth_lookup. destruct (decide (i = j)) as [<-|Hij].
  - by rewrite list_lookup_insert_eq.
  - by rewrite list_lookup_insert_ne.
Qed.

(** The loop clears what is due and nothing else, and keeps the path in use
    when what is due does not carry it. *)
Lemma clear_where_holds k due idx pl :
  ps_agent_free k = true -> Forall (fun i => i < length (holds pl))%nat idx -> NoDup idx ->
  (forall i h, due i h = true -> hd_agent h <> 0) ->
  (forall i, due i (hold_at pl i) = true -> ~ carries (pl_t pl) (hd_agent (hold_at pl i))) ->
  let r := clear_where k due pl idx in
  (forall i, hold_at r.1 i =
     if decide (i ∈ idx) then if due i (hold_at pl i) then hold_zero else hold_at pl i
     else hold_at pl i) /\
  carry_kept (pl_t pl) (pl_t r.1).
Proof.
  intros Hf Hidx Hnd Hdue. revert pl Hidx.
  induction idx as [|i idx IH]; intros pl Hidx Hsafe; cbn [clear_where].
  { split; [|apply carry_kept_refl]. intros i. case_decide; [set_solver | done]. }
  apply Forall_cons in Hidx as [Hi Hidx]. apply NoDup_cons in Hnd as [Hni Hnd].
  destruct (due i (hold_at pl i)) eqn:E.
  - destruct (hold_clear_spec pl k i Hf Hi (Hdue _ _ E)) as (G1 & _ & H1 & Ht).
    destruct (hold_clear pl k i) as [pl1 c1]. cbn [fst snd] in *.
    assert (carry_kept (pl_t pl) (pl_t pl1)) as K1
      by (rewrite Ht; apply drop_agent_carry; by apply Hsafe).
    assert (forall j, hold_at pl1 j = if decide (i = j) then hold_zero else hold_at pl j) as H1'.
    { intros j. unfold hold_at at 1. rewrite H1. by apply hold_at_insert. }
    specialize (IH Hnd pl1). rewrite (lg_len _ _ _ G1) in IH. destruct (IH Hidx) as [H2 K2].
    { intros j. rewrite H1'. destruct (decide (i = j)) as [<-|]; [by intros ?%Hdue|].
      rewrite (carries_kept _ _ _ K1). apply Hsafe. }
    destruct (clear_where k due pl1 idx) as [pl2 c2]. cbn [fst snd] in *.
    split; [|by eapply carry_kept_trans]. intros j. rewrite H2, H1'.
    destruct (decide (i = j)) as [<-|Hij].
    + rewrite decide_False by done. rewrite decide_True by set_solver. by rewrite E.
    + destruct (decide (j ∈ idx)); [rewrite decide_True by set_solver | rewrite decide_False by set_solver]; done.
  - destruct (IH Hnd pl Hidx Hsafe) as [H K].
    destruct (clear_where k due pl idx) as [pl2 c2]. cbn [fst snd] in *. split; [|done].
    intros j. rewrite H. destruct (decide (j ∈ idx)); [rewrite decide_True by set_solver; done|].
    destruct (decide (j ∈ i :: idx)) as [Hj|]; [|done]. assert (j = i) as -> by set_solver. by rewrite E.
Qed.

(** ** Lemmas: one route, one carrier *)
Record dedup_inv (pl : pathplane) (live : Z) (st : pathplane * list (Z * Z)) : Prop := {
  di_table : pl_t st.1 = pl_t pl;
  di_len : length (holds st.1) = length (holds pl);
  di_held : held st.1 ++ st.2 ≡ₚ held pl;
  di_safe : forall a c, (a, c) ∈ st.2 -> a <> live /\ a <> 0 /\ ~ carries (pl_t pl) a
}.

Lemma route_drop_safe t live i j :
  table_ok t -> used (slot t i) = true -> used (slot t j) = true ->
  let d := route_drop t live i j in
  d <> 0 -> d <> live /\ ~ carries t d.
Proof.
  intros Hok Hi Hj d Hd. unfold d, route_drop in *.
  assert (forall x, used (slot t x) = true -> Z.of_nat x <> sel t -> agent (slot t x) <> 0 ->
    ~ carries t (agent (slot t x))) as Hnc.
  { intros x Hx Hs Ha [Hsel Hc]. apply Hs.
    rewrite (tk_agent t Hok x (sel_idx t) Hx (tk_sel t Hok Hsel) Ha (eq_sym Hc)). unfold sel_idx. lia. }
  destruct (negb (agent (slot t j) =? live) && negb (Z.of_nat j =? sel t)) eqn:E1.
  { apply andb_true_iff in E1 as [E1 E2]. apply negb_true_iff, Z.eqb_neq in E1, E2. auto. }
  destruct (negb (agent (slot t i) =? live) && negb (Z.of_nat i =? sel t)) eqn:E2; [|done].
  apply andb_true_iff in E2 as [E2 E3]. apply negb_true_iff, Z.eqb_neq in E2, E3. auto.
Qed.

Lemma dedup_pair_inv pl live st ij :
  table_ok (pl_t pl) -> length (holds pl) = PATHPLANE_HOLD_MAX ->
  dedup_inv pl live st -> dedup_inv pl live (dedup_pair live st ij).
Proof.
  intros Hok Hlen Hinv. destruct st as [pl0 losers], ij as [i j]. pose proof Hinv as [D1 D2 D3 D4].
  cbn [fst snd] in *. unfold dedup_pair. rewrite D1.
  destruct (route_one (pl_t pl) i) eqn:E1; [|done]. destruct (route_same (pl_t pl) i j) eqn:E2; [|done].
  cbn [negb orb]. destruct (truth (route_drop (pl_t pl) live i j)) eqn:E3; [|done]. cbn [negb].
  apply truth_true in E3. destruct (find_hold _ pl0) as [h|] eqn:E4; [|done].
  apply find_hold_some in E4 as [Hh E4]. apply Z.eqb_eq in E4.
  unfold route_one in E1. unfold route_same in E2. cbv zeta in E1, E2.
  rewrite !andb_true_iff in E1. rewrite !andb_true_iff in E2.
  destruct (route_drop_safe (pl_t pl) live i j Hok) as [S1 S2]; [tauto | tauto | done |].
  split; cbn [fst snd].
  - done.
  - cbn. by rewrite length_insert.
  - rewrite <- D3. rewrite (held_clear pl0 h) by (rewrite ?D2, ?Hlen, ?E4; done).
    rewrite E4. rewrite (Permutation_app_comm losers), app_assoc. cbn.
    by rewrite Permutation_app_comm, <- Permutation_cons_append, Permutation_app_comm.
  - intros a c [Hin|Hin]%elem_of_app; [by eapply D4|]. apply list_elem_of_singleton in Hin.
    by simplify_eq.
Qed.

Lemma dedup_fold_inv pl live l st :
  table_ok (pl_t pl) -> length (holds pl) = PATHPLANE_HOLD_MAX ->
  dedup_inv pl live st -> dedup_inv pl live (fold_left (dedup_pair live) l st).
Proof.
  intros Hok Hlen. revert st. induction l as [|ij l IH]; intros st Hi; cbn [fold_left]; [done|].
  apply IH. by apply dedup_pair_inv.
Qed.

Lemma free_all_spec k l pl :
  ps_agent_free k = true -> (forall a c, (a, c) ∈ l -> ~ carries (pl_t pl) a) ->
  let r := free_all pl k l in
  lets_go pl r.1 (freed r.2) /\ holds r.1 = holds pl /\ freed r.2 = l /\
  carry_kept (pl_t pl) (pl_t r.1).
Proof.
  intros Hf. revert pl. induction l as [|[a c] l IH]; intros pl Hs; cbn [free_all].
  { split_and!; try done. apply lets_go_refl. }
  destruct (free_agent_spec pl k a c Hf) as (H1 & H2 & H3).
  pose proof (free_agent_goes pl pl k a c Hf eq_refl eq_refl) as G1. cbv zeta in G1.
  destruct (pathplane_free_agent pl k a c) as [pl1 c1]. cbn [fst snd] in *.
  assert (carry_kept (pl_t pl) (pl_t pl1)) as K1.
  { rewrite H3. apply drop_agent_carry. apply (Hs a c). set_solver. }
  destruct (IH pl1) as (G2 & E2 & F2 & K2).
  { intros a' c' Hin. rewrite (carries_kept _ _ _ K1). apply (Hs a' c'). set_solver. }
  destruct (free_all pl1 k l) as [pl2 c2]. cbn [fst snd] in *.
  rewrite freed_app, H2, F2 in *. split_and!; try done.
  - rewrite <- H2 in G1. rewrite H2 in G1. by apply (lets_go_trans pl pl1 pl2 [(a, c)] l).
  - congruence.
  - by eapply carry_kept_trans.
Qed.

Lemma hold_idx_range pl :
  length (holds pl) = PATHPLANE_HOLD_MAX -> Forall (fun i => i < length (holds pl))%nat hold_idx.
Proof. intros ->. apply Forall_forall. intros i Hi. apply elem_of_seq in Hi. lia. Qed.

Lemma dedup_spec pl k live :
  ps_agent_free k = true -> table_ok (pl_t pl) -> length (holds pl) = PATHPLANE_HOLD_MAX ->
  let r := pathplane_route_dedup pl k live in
  lets_go pl r.1 (freed r.2) /\ held r.1 ++ freed r.2 ≡ₚ held pl /\
  carry_kept (pl_t pl) (pl_t r.1) /\ (forall a c, (a, c) ∈ freed r.2 -> a <> live).
Proof.
  intros Hf Hok Hlen. unfold pathplane_route_dedup.
  assert (dedup_inv pl live (pl, [])) as H0 by (split; cbn; rewrite ?app_nil_r; set_solver).
  pose proof (dedup_fold_inv pl live slot_pairs (pl, []) Hok Hlen H0) as [D1 D2 D3 D4].
  destruct (fold_left _ _ _) as [pl1 losers]. cbn [fst snd] in *.
  destruct (free_all_spec k losers pl1 Hf) as (G & Hh & Hg & K).
  { intros a c Hin. rewrite D1. by eapply D4. }
  destruct (free_all pl1 k losers) as [pl2 calls]. cbn [fst snd] in *. rewrite Hg in *.
  split_and!.
  - destruct G as [G1 G2 G3 G4]. rewrite D1 in *. split; [congruence | done..].
  - unfold held at 1. by rewrite Hh.
  - by rewrite D1 in K.
  - intros a c Hin. by eapply D4.
Qed.

Lemma settle_spec pl k live :
  ps_agent_free k = true -> length (holds pl) = PATHPLANE_HOLD_MAX ->
  let '(pl', live', calls, _) := pathplane_holds_settle pl k live in
  lets_go pl pl' (freed calls) /\ live' :: held pl' ++ freed calls ≡ₚ live :: held pl.
Proof.
  intros Hf Hlen. unfold pathplane_holds_settle.
  destruct (pathplane_hold_carrying pl) as [i|] eqn:Ec.
  - unfold pathplane_hold_carrying in Ec. destruct (_ && truth _) eqn:Et; [|done].
    apply andb_true_iff in Et as [_ Et]. apply truth_true in Et.
    apply find_hold_some in Ec as [Hi Ea]. apply Z.eqb_eq in Ea.
    unfold pathplane_hold_take. rewrite (proj2 (Z.ltb_ge (Z.of_nat i) 0)) by lia.
    rewrite (proj2 (Z.leb_gt (Z.of_nat PATHPLANE_HOLD_MAX) (Z.of_nat i))) by lia.
    cbn [orb]. rewrite Nat2Z.id. set (pl0 := pl <| holds := _ |>).
    destruct (free_agent_spec pl0 k live.1 live.2 Hf) as (H1 & H2 & _).
    pose proof (free_agent_goes pl pl0 k live.1 live.2 Hf eq_refl) as G. cbv zeta in G.
    destruct (pathplane_free_agent pl0 k live.1 live.2) as [pl1 calls]. cbn [fst snd default] in *.
    split; [apply G; cbn; by rewrite length_insert|].
    rewrite H2, (held_clear pl i) by (rewrite ?Ea; lia || done). unfold held at 1. rewrite H1.
    fold (held pl0). destruct live as [a c]. cbn [fst snd].
    rewrite <- Permutation_cons_append. apply Permutation_swap.
  - destruct (pathplane_has_hold pl).
    + cbn [negb]. destruct (clear_where_spec k (fun _ h => truth (hd_agent h)) hold_idx pl Hf) as [G P].
      { by apply hold_idx_range. }
      { intros _ h. by rewrite truth_true. }
      fold (pathplane_holds_free_all pl k) in G, P.
      destruct (pathplane_holds_free_all pl k) as [pl1 calls]. cbn [fst snd] in *.
      split; [done | by rewrite P].
    + cbn. rewrite app_nil_r. split; [apply lets_go_refl | done].
Qed.

Lemma hold_add_spec pl k ag ctx until_ms :
  ps_agent_free k = true -> length (holds pl) = PATHPLANE_HOLD_MAX -> ag <> 0 ->
  let r := pathplane_hold_add pl k ag ctx until_ms in
  lets_go pl r.1 (freed r.2) /\ held r.1 ++ freed r.2 ≡ₚ (ag, ctx) :: held pl.
Proof.
  intros Hf Hlen Hag. unfold pathplane_hold_add. destruct (find_hold _ pl) as [i|] eqn:E.
  - apply find_hold_some in E as [Hi Ea]. apply negb_true_iff, truth_false in Ea. cbn [fst snd freed].
    split.
    + split; [cbn; by rewrite length_insert | apply fewer_refl | set_solver | done].
    + change (freed []) with (@nil (Z * Z)). rewrite app_nil_r. apply held_fill; [lia | done | done].
  - destruct (free_agent_spec pl k ag ctx Hf) as (H1 & H2 & _).
    pose proof (free_agent_goes pl pl k ag ctx Hf eq_refl eq_refl) as G. cbv zeta in G.
    destruct (pathplane_free_agent pl k ag ctx) as [pl1 calls]. cbn [fst snd] in *.
    split; [done|]. rewrite H2. unfold held at 1. rewrite H1. by rewrite <- Permutation_cons_append.
Qed.

(** ** The carriers of a connection over time

    The one in use, every one ever handed to the plane, and every one given
    back.  A new carrier takes the place of the one in use, which is set aside;
    anything else that happens to the plane leaves the carriers alone. *)
Record carriers := mk_car {
  c_pl : pathplane; c_live : Z * Z; c_given : list (Z * Z); c_freed : list (Z * Z)
}.

Inductive car_op :=
| CarAside (ag ctx until_ms : Z)
| CarFreeAll
| CarReap (now : Z)
| CarDedup
| CarSettle
| CarElse (pl : pathplane).

Definition car_step (k : pathplane_sinks) (s : carriers) (o : car_op) : carriers :=
  let '(mk_car pl live given gone) := s in
  match o with
  | CarAside ag ctx until_ms =>
      let '(pl, calls) := pathplane_hold_add pl k live.1 live.2 until_ms in
      mk_car pl (ag, ctx) ((ag, ctx) :: given) (freed calls ++ gone)
  | CarFreeAll =>
      let '(pl, calls) := pathplane_holds_free_all pl k in mk_car pl live given (freed calls ++ gone)
  | CarReap now =>
      let '(pl, calls) := pathplane_holds_reap pl k now in mk_car pl live given (freed calls ++ gone)
  | CarDedup =>
      let '(pl, calls) := pathplane_route_dedup pl k live.1 in
      mk_car pl live given (freed calls ++ gone)
  | CarSettle =>
      let '(pl, live, calls, _) := pathplane_holds_settle pl k live in
      mk_car pl live given (freed calls ++ gone)
  | CarElse pl' => mk_car pl' live given gone
  end.

Definition car_op_ok (s : carriers) (o : car_op) : Prop :=
  match o with
  | CarAside ag _ _ => ag <> 0
  | CarElse pl' => holds pl' = holds (c_pl s) /\ table_ok (pl_t pl')
  | _ => True
  end.

Record car_inv (s : carriers) : Prop := {
  ci_len : length (holds (c_pl s)) = PATHPLANE_HOLD_MAX;
  ci_ok : table_ok (pl_t (c_pl s));
  ci_live : (c_live s).1 <> 0;
  ci_all : c_live s :: held (c_pl s) ++ c_freed s ≡ₚ c_given s
}.

Inductive car_reach (k : pathplane_sinks) : carriers -> Prop :=
| cr_init ag ctx : ag <> 0 -> car_reach k (mk_car pathplane_init (ag, ctx) [(ag, ctx)] [])
| cr_step s o : car_reach k s -> car_op_ok s o -> car_reach k (car_step k s o).

Lemma held_nonzero pl a c : (a, c) ∈ held pl -> a <> 0.
Proof.
  unfold held. rewrite list_elem_of_omap. intros (h & _ & Hh). unfold held_of in Hh.
  destruct (truth (hd_agent h)) eqn:E; [|done]. simplify_eq. by apply truth_true.
Qed.

(** One more operation: the carriers add up as before. *)
Lemma car_more s pl live given calls :
  car_inv s -> lets_go (c_pl s) pl (freed calls) ->
  live.1 <> 0 -> live :: held pl ++ freed calls ++ c_freed s ≡ₚ given ->
  car_inv (mk_car pl live given (freed calls ++ c_freed s)).
Proof.
  intros [H1 H2 H3 H4] [G1 _ _ G4] Hl P. split; cbn [c_pl c_live c_given c_freed]; auto. congruence.
Qed.

Lemma car_step_inv k s o :
  ps_agent_free k = true -> car_inv s -> car_op_ok s o -> car_inv (car_step k s o).
Proof.
  intros Hf Hs Ho. pose proof Hs as [H1 H2 H3 H4]. destruct s as [pl live given gone].
  cbn [c_pl c_live c_given c_freed] in *. destruct o as [ag ctx un| |now| | |pl']; cbn [car_step].
  - destruct live as [la lc]. cbn [fst snd] in *.
    destruct (hold_add_spec pl k la lc un Hf H1 H3) as [G P].
    destruct (pathplane_hold_add pl k la lc un) as [pl1 calls]. cbn [fst snd] in *.
    apply (car_more _ _ (ag, ctx) _ _ Hs G Ho). cbn [c_freed]. by rewrite app_assoc, P, <- H4.
  - destruct (clear_where_spec k (fun _ h => truth (hd_agent h)) hold_idx pl Hf (hold_idx_range _ H1))
      as [G P]; [intros _ h; by rewrite truth_true|].
    fold (pathplane_holds_free_all pl k) in G, P.
    destruct (pathplane_holds_free_all pl k) as [pl1 calls]. cbn [fst snd] in *.
    apply (car_more _ _ _ _ _ Hs G H3). cbn [c_freed]. by rewrite app_assoc, P.
  - destruct (clear_where_spec k (reap_due k (pathplane_hold_carrying pl) now) hold_idx pl Hf
      (hold_idx_range _ H1)) as [G P].
    { intros i h. unfold reap_due. destruct (truth (hd_agent h)) eqn:E; [|done].
      intros _. by apply truth_true. }
    fold (pathplane_holds_reap pl k now) in G, P.
    destruct (pathplane_holds_reap pl k now) as [pl1 calls]. cbn [fst snd] in *.
    apply (car_more _ _ _ _ _ Hs G H3). cbn [c_freed]. by rewrite app_assoc, P.
  - destruct (dedup_spec pl k live.1 Hf H2 H1) as (G & P & _).
    destruct (pathplane_route_dedup pl k live.1) as [pl1 calls]. cbn [fst snd] in *.
    apply (car_more _ _ _ _ _ Hs G H3). cbn [c_freed]. by rewrite app_assoc, P.
  - pose proof (settle_spec pl k live Hf H1) as Hsp.
    destruct (pathplane_holds_settle pl k live) as [[[pl1 live1] calls] rc]. destruct Hsp as [G P].
    apply (car_more _ _ _ _ _ Hs G).
    + assert (live1 ∈ live :: held pl) as Hin by (rewrite <- P; set_solver).
      apply elem_of_cons in Hin as [->|Hin]; [done|]. destruct live1. by eapply held_nonzero.
    + cbn [c_freed]. by rewrite app_assoc, app_comm_cons, P.
  - destruct Ho as [Hh Hok]. cbn in Hh. split; cbn [c_pl c_live c_given c_freed]; auto.
    + by rewrite Hh.
    + unfold held. by rewrite Hh.
Qed.

Lemma car_reach_inv k s : ps_agent_free k = true -> car_reach k s -> car_inv s.
Proof.
  intros Hf. induction 1 as [ag ctx Ha|s o _ IH Ho]; [|by apply car_step_inv].
  split; [done | apply init_ok | done | done].
Qed.

(** ** Properties *)

(** C38: no carrier is lost and none is given back twice.  Through any sequence
    of setting aside, reaping, settling, deduplicating and clearing, with
    anything else happening to the paths in between, every carrier the plane
    was ever handed is exactly one of: the one in use, one set aside, one given
    back; so if they were distinct, none is given back twice, nor while it is
    still held. *)
Theorem carriers_conserved k s :
  ps_agent_free k = true -> car_reach k s ->
  c_live s :: held (c_pl s) ++ c_freed s ≡ₚ c_given s /\
  (NoDup (map fst (c_given s)) ->
   NoDup (map fst (c_freed s)) /\ (c_live s).1 ∉ map fst (c_freed s) /\
   forall a c, (a, c) ∈ held (c_pl s) -> a ∉ map fst (c_freed s)).
Proof.
  intros Hf Hr. destruct (car_reach_inv k s Hf Hr) as [_ _ _ P]. split; [done|].
  intros Hnd. rewrite <- P in Hnd. cbn [map] in Hnd. rewrite map_app in Hnd.
  apply NoDup_cons in Hnd as [Hl Hnd]. apply NoDup_app in Hnd as (_ & Hd & Hnd).
  split_and!; [done | set_solver |]. intros a c Hin. apply Hd.
  change a with (fst (a, c)). by apply list_elem_of_fmap_2.
Qed.

Definition free_sinks : pathplane_sinks :=
  mk_psinks (cstr "abcd") None None None None false false true None false.

Definition one_aside : carriers :=
  car_step free_sinks (mk_car pathplane_init (11, 1) [(11, 1)] []) (CarAside 22 2 5000).

Lemma carriers_conserved_witness :
  let s := car_step free_sinks one_aside (CarReap 5000) in
  c_live s = (22, 2) /\ held (c_pl s) = [] /\ c_freed s = [(11, 1)] /\ NoDup (map fst (c_freed s)).
Proof.
  cbv zeta. split_and!; [vm_compute; reflexivity..|].
  refine (proj1 (proj2 (carriers_conserved free_sinks _ eq_refl _) _)).
  - apply cr_step; [|done]. apply cr_step; [|done]. by apply cr_init.
  - vm_compute. repeat constructor; set_solver.
Defined.

(** Letting carriers go never disturbs the session and leaves nothing
    dangling.  Reaping clears exactly the carriers that are past their deadline
    or have given up and do not carry, and deduplicating routes gives back only
    carriers other than the one in use; after either, the selection and the
    path in use are what they were, and no path in the table borrows a carrier
    that was given back. *)
Theorem letting_go_safe pl k live now :
  ps_agent_free k = true -> table_ok (pl_t pl) -> length (holds pl) = PATHPLANE_HOLD_MAX ->
  (forall i j, hd_agent (hold_at pl i) <> 0 ->
     hd_agent (hold_at pl i) = hd_agent (hold_at pl j) -> i = j) ->
  let reaped := pathplane_holds_reap pl k now in
  let deduped := pathplane_route_dedup pl k live in
  (forall i, (i < PATHPLANE_HOLD_MAX)%nat -> hold_at reaped.1 i =
     if reap_due k (pathplane_hold_carrying pl) now i (hold_at pl i) then hold_zero
     else hold_at pl i) /\
  carry_kept (pl_t pl) (pl_t reaped.1) /\ carry_kept (pl_t pl) (pl_t deduped.1) /\
  (forall a c, (a, c) ∈ freed deduped.2 -> a <> live) /\
  (forall a c, (a, c) ∈ freed reaped.2 -> a <> 0 -> unborrowed a (pl_t reaped.1)) /\
  (forall a c, (a, c) ∈ freed deduped.2 -> a <> 0 -> unborrowed a (pl_t deduped.1)).
Proof.
  intros Hf Hok Hlen Hd reaped deduped.
  destruct (dedup_spec pl k live Hf Hok Hlen) as (G2 & _ & K2 & S2). fold deduped in G2, K2, S2.
  assert (forall i h, reap_due k (pathplane_hold_carrying pl) now i h = true -> hd_agent h <> 0) as Hnz.
  { intros i h. unfold reap_due. destruct (truth (hd_agent h)) eqn:E; [|done].
    intros _. by apply truth_true. }
  destruct (clear_where_spec k (reap_due k (pathplane_hold_carrying pl) now) hold_idx pl Hf
    (hold_idx_range _ Hlen) Hnz) as [G1 _]. fold (pathplane_holds_reap pl k now) in G1. fold reaped in G1.
  destruct (clear_where_holds k (reap_due k (pathplane_hold_carrying pl) now) hold_idx pl Hf
    (hold_idx_range _ Hlen)) as [H1 K1]; [apply NoDup_seq | done | |].
  { intros i Hdue [Hs Hc]. pose proof (Hnz _ _ Hdue) as Ha. unfold reap_due in Hdue.
    destruct (truth _); [|done]. cbn [negb orb] in Hdue. case_bool_decide as Hcar; [done|].
    apply Hcar. unfold pathplane_hold_carrying.
    change (Z.to_nat (sel (pl_t pl))) with (sel_idx (pl_t pl)).
    rewrite (tk_sel _ Hok Hs), (proj2 (Z.leb_le _ _) Hs), Hc, (proj2 (truth_true _) Ha). cbn [andb].
    destruct (find_hold _ pl) as [j|] eqn:E.
    - apply find_hold_some in E as [_ E]. apply Z.eqb_eq in E. f_equal. symmetry. by apply Hd.
    - assert (i ∈ hold_idx) as Hin.
      { apply elem_of_seq. destruct (decide (i < PATHPLANE_HOLD_MAX)%nat); [lia|].
        unfold hold_at in Ha. rewrite nth_overflow in Ha by lia. done. }
      apply list_elem_of_In in Hin.
      pose proof (find_none _ _ E i Hin) as Hn. cbn in Hn. by apply Z.eqb_neq in Hn. }
  fold (pathplane_holds_reap pl k now) in H1, K1. fold reaped in H1, K1.
  split_and!; try done.
  - intros i Hi. rewrite H1. rewrite decide_True; [done|]. apply elem_of_seq. lia.
  - apply (lg_free _ _ _ G1).
  - apply (lg_free _ _ _ G2).
Qed.

(** Two agents over one route: the second, set aside, is redundant. *)
Definition at_route (port : Z) (p : path) : path :=
  p <| peer_ep := mk_ep (replicate 16 1) port |> <| self_ep := mk_ep (replicate 16 2) 9 |>
    <| have_self_ep := true |>.

Definition twin_agents : path_table :=
  (path_table_add (path_table_add path_table_init PATH_ICE None 11 100).1 PATH_ICE None 22 100).1.
Definition twin_base : path_table := mk_table (slots twin_agents) 0.
Definition twin_half : path_table := set_slot twin_base 0 (at_route 7 (slot twin_base 0)).
Definition twin_table : path_table := set_slot twin_half 1 (at_route 8 (slot twin_half 1)).

Definition twin_routes : pathplane :=
  (pathplane_hold_add (pathplane_init <| pl_t := twin_table |>) free_sinks 22 2 9000).1.

Lemma at_route_ok t i port :
  table_ok t -> used (slot t i) = true -> agent (slot t i) <> 0 ->
  table_ok (set_slot t i (at_route port (slot t i))).
Proof. intros Hok Hu Ha. apply set_slot_ok; try done. by left. Qed.

Lemma twin_routes_ok : table_ok twin_table.
Proof.
  assert (table_ok twin_agents) as H0 by (apply add_ok, add_ok, init_ok).
  assert (used (slot twin_agents 0) = true) as U0 by (vm_compute; reflexivity).
  assert (table_ok twin_base) as H1 by (exact (adopt_ok _ 0 H0 U0)).
  assert (used (slot twin_base 0) = true) as U1 by (vm_compute; reflexivity).
  assert (agent (slot twin_base 0) <> 0) as A1 by (vm_compute; discriminate).
  assert (table_ok twin_half) as H2 by (exact (at_route_ok _ 0 7 H1 U1 A1)).
  assert (used (slot twin_half 1) = true) as U2 by (vm_compute; reflexivity).
  assert (agent (slot twin_half 1) <> 0) as A2 by (vm_compute; discriminate).
  exact (at_route_ok _ 1 8 H2 U2 A2).
Qed.

Lemma letting_go_safe_witness :
  let r := pathplane_route_dedup twin_routes free_sinks 11 in
  freed r.2 = [(22, 2)] /\ carry_kept (pl_t twin_routes) (pl_t r.1) /\ unborrowed 22 (pl_t r.1).
Proof.
  cbv zeta. assert (freed (pathplane_route_dedup twin_routes free_sinks 11).2 = [(22, 2)]) as E
    by (vm_compute; reflexivity).
  assert (table_ok (pl_t twin_routes)) as Hok.
  { assert (pl_t twin_routes = twin_table) as -> by (vm_compute; reflexivity). apply twin_routes_ok. }
  destruct (letting_go_safe twin_routes free_sinks 11 0 eq_refl Hok eq_refl)
    as (_ & _ & H3 & _ & _ & H6).
  - assert (holds twin_routes = mk_hold 22 2 9000 :: replicate 15 hold_zero) as Eh
      by (vm_compute; reflexivity).
    intros i j. unfold hold_at. rewrite Eh. intros Hi Hj.
    assert (forall n, hd_agent (nth n (mk_hold 22 2 9000 :: replicate 15 hold_zero) hold_zero) <> 0 ->
      n = 0%nat) as H0.
    { intros [|n] Hn; [done|]. exfalso. apply Hn. cbn [nth]. rewrite nth_lookup.
      destruct (replicate 15 hold_zero !! n) as [h|] eqn:El; [|done].
      by apply lookup_replicate in El as [-> _]. }
    rewrite (H0 i Hi), (H0 j); [done | by rewrite <- Hj].
  - split_and!; [exact E | exact H3 |]. apply (H6 22 2); [rewrite E; constructor | discriminate].
Defined.
