(* ===== verification/NsFacts.v ===== *)
(** src/src/nsfacts.c: the observations a network thread leaves for the one that
    keeps the network state.  An answer, a probe round's end and a new server
    have a slot per family; addresses seen share a bounded queue.  The abstract
    view is one list in the order it is handed out. *)
From S2P Require Import Prelude.

Definition NSF_ROUNDTRIP : Z := 0.
Definition NSF_PROBE_DONE : Z := 1.
Definition NSF_ADDR : Z := 2.
Definition NSF_SERVERS : Z := 3.
Definition NSFACTS_MAX : nat := 16.
Definition NSFACTS_OUT : nat := NSFACTS_MAX + 4.

Record nsfact := mk_nsfact { nf_kind : Z; nf_family : Z; nf_epoch : Z; nf_addr : bytes }.

(** A per-family flag and the epoch beside it; the arrays' [0] is IPv4. *)
Record nsfacts := mk_nsfacts {
  ns_q : list nsfact;
  ns_rt : bool * bool; ns_rt_epoch : Z * Z;
  ns_done : bool * bool; ns_done_epoch : Z * Z;
  ns_more : bool * bool; ns_more_epoch : Z * Z
}.

Definition nsfacts_eta (f : nsfacts) : nsfacts :=
  mk_nsfacts (ns_q f) (ns_rt f) (ns_rt_epoch f) (ns_done f) (ns_done_epoch f) (ns_more f)
    (ns_more_epoch f).
#[export] Instance set_ns_q : Setter ns_q := ltac:(solve_setter nsfacts_eta).
#[export] Instance set_ns_rt : Setter ns_rt := ltac:(solve_setter nsfacts_eta).
#[export] Instance set_ns_rt_epoch : Setter ns_rt_epoch := ltac:(solve_setter nsfacts_eta).
#[export] Instance set_ns_done : Setter ns_done := ltac:(solve_setter nsfacts_eta).
#[export] Instance set_ns_done_epoch : Setter ns_done_epoch := ltac:(solve_setter nsfacts_eta).
#[export] Instance set_ns_more : Setter ns_more := ltac:(solve_setter nsfacts_eta).
#[export] Instance set_ns_more_epoch : Setter ns_more_epoch := ltac:(solve_setter nsfacts_eta).

(** [a[i]] and [a[i] = v] of an array of two. *)
Definition get2 {A} (a : A * A) (i : bool) : A := if i then a.2 else a.1.
Definition put2 {A} (a : A * A) (i : bool) (v : A) : A * A := if i then (a.1, v) else (v, a.2).

Definition fam_idx (family : Z) : bool := family =? 6.
Definition addr_len (family : Z) : nat := if family =? 6 then 16 else 4.

Definition nsfacts_init : nsfacts :=
  mk_nsfacts [] (false, false) (0, 0) (false, false) (0, 0) (false, false) (0, 0).

Definition nsfacts_post (f : nsfacts) (kind family epoch : Z) : nsfacts :=
  let i := fam_idx family in
  if kind =? NSF_ROUNDTRIP then
    f <| ns_rt := put2 (ns_rt f) i true |> <| ns_rt_epoch := put2 (ns_rt_epoch f) i epoch |>
  else if kind =? NSF_PROBE_DONE then
    f <| ns_done := put2 (ns_done f) i true |> <| ns_done_epoch := put2 (ns_done_epoch f) i epoch |>
  else if kind =? NSF_SERVERS then
    f <| ns_more := put2 (ns_more f) i true |> <| ns_more_epoch := put2 (ns_more_epoch f) i epoch |>
  else f.

(** An entry that says this already; [addr] is the caller's buffer. *)
Definition addr_queued (family epoch : Z) (addr : bytes) (e : nsfact) : bool :=
  (nf_kind e =? NSF_ADDR) && (nf_family e =? family) && (nf_epoch e =? epoch) &&
  bytes_eqb (take (addr_len family) (nf_addr e)) (take (addr_len family) addr).

(** [memset] to zero, then the first [len] bytes of [addr]. *)
Definition addr_fact (family epoch : Z) (addr : bytes) : nsfact :=
  let len := addr_len family in
  mk_nsfact NSF_ADDR family epoch (take len addr ++ replicate (16 - len) 0).

Definition nsfacts_post_addr (f : nsfacts) (family epoch : Z) (addr : bytes) : nsfacts :=
  if existsb (addr_queued family epoch addr) (ns_q f) then f
  else if (NSFACTS_MAX <=? length (ns_q f))%nat then f
  else f <| ns_q := ns_q f ++ [addr_fact family epoch addr] |>.

Definition emit (kind : Z) (i : bool) (epoch : Z) : nsfact :=
  mk_nsfact kind (if i then 6 else 4) epoch (replicate 16 0).

(** [for (i = 0; i < 2; i++)] over one kind of slot: the flags afterwards and
    what was handed out. *)
Definition take_slot (max : nat) (kind : Z) (epochs : Z * Z) (st : (bool * bool) * list nsfact)
  (i : bool) : (bool * bool) * list nsfact :=
  let '(flags, out) := st in
  if negb (get2 flags i) || (max <=? length out)%nat then st
  else (put2 flags i false, out ++ [emit kind i (get2 epochs i)]).
Definition take_slots (max : nat) (kind : Z) (epochs : Z * Z) (flags : bool * bool)
  (out : list nsfact) : (bool * bool) * list nsfact :=
  fold_left (take_slot max kind epochs) [false; true] (flags, out).

Definition nsfacts_take (f : nsfacts) (max : nat) : nsfacts * list nsfact :=
  let '(rt, out) := take_slots max NSF_ROUNDTRIP (ns_rt_epoch f) (ns_rt f) [] in
  let '(more, out) := take_slots max NSF_SERVERS (ns_more_epoch f) (ns_more f) out in
  let i := Nat.min (length (ns_q f)) (max - length out) in
  let out := out ++ take i (ns_q f) in
  let '(dn, out) := take_slots max NSF_PROBE_DONE (ns_done_epoch f) (ns_done f) out in
  (f <| ns_rt := rt |> <| ns_more := more |> <| ns_q := drop i (ns_q f) |> <| ns_done := dn |>, out).

(** ** The abstract view *)
Definition slots_of (kind : Z) (flags : bool * bool) (epochs : Z * Z) : list nsfact :=
  (if flags.1 then [emit kind false epochs.1] else []) ++
  (if flags.2 then [emit kind true epochs.2] else []).

(** Everything waiting, in the order it is handed out. *)
Definition waiting (f : nsfacts) : list nsfact :=
  slots_of NSF_ROUNDTRIP (ns_rt f) (ns_rt_epoch f) ++
  slots_of NSF_SERVERS (ns_more f) (ns_more_epoch f) ++
  ns_q f ++
  slots_of NSF_PROBE_DONE (ns_done f) (ns_done_epoch f).

(** ** Lemmas *)

(** Handing out one kind of slot takes what still fits, in order. *)
Lemma take_slots_spec max kind epochs flags out :
  let r := take_slots max kind epochs flags out in
  r.2 = out ++ take (max - length out) (slots_of kind flags epochs) /\
  slots_of kind r.1 epochs = drop (max - length out) (slots_of kind flags epochs).
Proof.
  destruct flags as [a b], epochs as [e4 e6]. unfold take_slots, slots_of. cbn [fold_left fst snd].
  destruct a, b; unfold take_slot; cbn [get2 put2 fst snd negb orb];
    repeat match goal with |- context [(max <=? ?n)%nat] => destruct (Nat.leb_spec max n) end;
    cbn [fst snd get2 app]; rewrite ?length_app in *; cbn [length] in *; try lia.
  all: destruct (max - length out)%nat as [|[|n]] eqn:E; try lia; cbn;
    rewrite ?app_nil_r, <- ?app_assoc, ?take_nil, ?drop_nil; done.
Qed.

(** One stage of the hand-out after another. *)
Lemma stage max (out l rest : list nsfact) :
  (length out <= max)%nat ->
  (out ++ take (max - length out) l) ++ take (max - length (out ++ take (max - length out) l)) rest
    = out ++ take (max - length out) (l ++ rest) /\
  drop (max - length out) l ++ drop (max - length (out ++ take (max - length out) l)) rest
    = drop (max - length out) (l ++ rest).
Proof.
  intros Ho. rewrite length_app, length_take, <- app_assoc, take_app, drop_app.
  destruct (Nat.min_spec (max - length out) (length l)) as [[? ->]|[? ->]].
  - replace (max - (length out + (max - length out)))%nat with 0%nat by lia.
    replace (max - length out - length l)%nat with 0%nat by lia. done.
  - replace (max - (length out + length l))%nat with (max - length out - length l)%nat by lia. done.
Qed.

Lemma staged_length max (out l : list nsfact) :
  (length out <= max)%nat -> (length (out ++ take (max - length out) l) <= max)%nat.
Proof. intros H. rewrite length_app, length_take. lia. Qed.

Lemma take_waiting f max :
  let '(f', out) := nsfacts_take f max in
  out = take max (waiting f) /\ waiting f' = drop max (waiting f).
Proof.
  unfold nsfacts_take, waiting.
  pose proof (take_slots_spec max NSF_ROUNDTRIP (ns_rt_epoch f) (ns_rt f) []) as [R1 R2].
  destruct (take_slots max NSF_ROUNDTRIP _ _ _) as [rt o1]. cbn [fst snd app length] in R1, R2.
  rewrite Nat.sub_0_r in R1, R2.
  set (lr := slots_of NSF_ROUNDTRIP (ns_rt f) (ns_rt_epoch f)) in *.
  set (lm := slots_of NSF_SERVERS (ns_more f) (ns_more_epoch f)) in *.
  set (ld := slots_of NSF_PROBE_DONE (ns_done f) (ns_done_epoch f)) in *.
  assert (length o1 <= max)%nat as L1 by (rewrite R1, length_take; lia).
  pose proof (take_slots_spec max NSF_SERVERS (ns_more_epoch f) (ns_more f) o1) as [M1 M2].
  destruct (take_slots max NSF_SERVERS _ _ o1) as [more o2]. cbn [fst snd] in M1, M2. fold lm in M1, M2.
  assert (length o2 <= max)%nat as L2 by (rewrite M1; by apply staged_length).
  assert (take (Nat.min (length (ns_q f)) (max - length o2)) (ns_q f) = take (max - length o2) (ns_q f) /\
    drop (Nat.min (length (ns_q f)) (max - length o2)) (ns_q f) = drop (max - length o2) (ns_q f)) as [-> ->].
  { destruct (Nat.min_spec (length (ns_q f)) (max - length o2)) as [[? ->]|[? ->]]; [|done].
    by rewrite !take_ge, !drop_ge by lia. }
  set (o3 := o2 ++ take (max - length o2) (ns_q f)).
  assert (length o3 <= max)%nat as L3 by (by apply staged_length).
  pose proof (take_slots_spec max NSF_PROBE_DONE (ns_done_epoch f) (ns_done f) o3) as [D1 D2].
  destruct (take_slots max NSF_PROBE_DONE _ _ o3) as [dn o4]. cbn [fst snd] in D1, D2. fold ld in D1, D2.
  cbn [ns_rt ns_rt_epoch ns_more ns_more_epoch ns_q ns_done ns_done_epoch set set_ns_rt set_ns_more
       set_ns_q set_ns_done].
  destruct (stage max o2 (ns_q f) ld L2) as [S1 S2]. fold o3 in S1, S2.
  destruct (stage max o1 lm (ns_q f ++ ld) L1) as [S3 S4]. rewrite <- M1 in S3, S4.
  destruct (stage max [] lr (lm ++ ns_q f ++ ld) ltac:(cbn; lia)) as [S5 S6].
  cbn [app length] in S5, S6. rewrite Nat.sub_0_r, <- R1 in S5, S6.
  split.
  - rewrite D1, S1, S3, S5. done.
  - rewrite R2, M2, D2, S2, S4, S6. done.
Qed.

Definition nsfacts_ok (f : nsfacts) : Prop := (length (ns_q f) <= NSFACTS_MAX)%nat.

Lemma slots_of_length kind flags epochs : (length (slots_of kind flags epochs) <= 2)%nat.
Proof. destruct flags as [[] []]; cbn; lia. Qed.

Lemma slots_of_put kind flags epochs i e :
  emit kind i e ∈ slots_of kind (put2 flags i true) (put2 epochs i e).
Proof. destruct i, flags as [[] []], epochs; cbn; set_solver. Qed.

Lemma waiting_length f : nsfacts_ok f -> (length (waiting f) <= NSFACTS_MAX + 6)%nat.
Proof.
  unfold nsfacts_ok, waiting. intros H. rewrite !length_app.
  pose proof (slots_of_length NSF_ROUNDTRIP (ns_rt f) (ns_rt_epoch f)).
  pose proof (slots_of_length NSF_SERVERS (ns_more f) (ns_more_epoch f)).
  pose proof (slots_of_length NSF_PROBE_DONE (ns_done f) (ns_done_epoch f)). lia.
Qed.

(** ** Properties *)

(** The store is a queue from which nothing is lost: a take hands out,
    in order, as much of what is waiting as the caller has room for and leaves
    exactly the rest, so a smaller buffer only delays; an answer, a new server
    or the end of a round is waiting once it is posted, with the epoch it was
    posted with, however full the queue; an address is dropped only when the
    queue is full; and what waits never exceeds twenty-two facts. *)
Theorem nsfacts_queue f max family epoch kind addr :
  nsfacts_ok f ->
  let f1 := (nsfacts_take f max).1 in
  (nsfacts_take f max).2 = take max (waiting f) /\ waiting f1 = drop max (waiting f) /\
  nsfacts_ok f1 /\
  (kind = NSF_ROUNDTRIP \/ kind = NSF_SERVERS \/ kind = NSF_PROBE_DONE ->
   emit kind (fam_idx family) epoch ∈ waiting (nsfacts_post f kind family epoch)) /\
  nsfacts_ok (nsfacts_post f kind family epoch) /\
  (existsb (addr_queued family epoch addr) (ns_q f) = false -> (length (ns_q f) < NSFACTS_MAX)%nat ->
   addr_fact family epoch addr ∈ waiting (nsfacts_post_addr f family epoch addr)) /\
  nsfacts_ok (nsfacts_post_addr f family epoch addr) /\
  (length (waiting f) <= NSFACTS_MAX + 6)%nat.
Proof.
  intros Hok f1. pose proof (take_waiting f max) as Hw.
  assert (nsfacts_ok f1) as H1.
  { unfold f1, nsfacts_take, nsfacts_ok in *. destruct (take_slots _ _ _ _ _) as [rt o1].
    destruct (take_slots _ _ _ _ o1) as [more o2]. destruct (take_slots _ _ _ _ _) as [dn o3]. cbn.
    rewrite length_drop. lia. }
  unfold f1 in *. destruct (nsfacts_take f max) as [f' out]. cbn [fst snd] in *. destruct Hw as [Ho Hr].
  split_and!; try done.
  - intros [-> | [-> | ->]]; unfold nsfacts_post, waiting; cbn;
      rewrite !elem_of_app; eauto using slots_of_put.
  - unfold nsfacts_post. by repeat destruct (_ =? _).
  - intros E Hl. unfold nsfacts_post_addr. rewrite E.
    destruct (Nat.leb_spec NSFACTS_MAX (length (ns_q f))); [lia|].
    unfold waiting. cbn. rewrite !elem_of_app. set_solver.
  - unfold nsfacts_post_addr, nsfacts_ok in *. destruct (existsb _ _); [done|].
    destruct (Nat.leb_spec NSFACTS_MAX (length (ns_q f))); [done|]. cbn. rewrite length_app. cbn. lia.
  - by apply waiting_length.
Qed.

(** Both families' slots, and a queue of sixteen addresses. *)
Definition full_store : nsfacts :=
  let post f k := nsfacts_post (nsfacts_post f k 4 1) k 6 1 in
  let f := post (post (post nsfacts_init NSF_ROUNDTRIP) NSF_SERVERS) NSF_PROBE_DONE in
  fold_left (fun f a => nsfacts_post_addr f 4 1 [10; 0; 0; a]) (seqZ 0 16) f.

(** The buffer that is said to take everything is two short of it: with the
    store full, the ends of both families' rounds stay behind. *)
Lemma nsfacts_out_short :
  length (waiting full_store) = 22%nat /\
  waiting (nsfacts_take full_store NSFACTS_OUT).1 =
    [emit NSF_PROBE_DONE false 1; emit NSF_PROBE_DONE true 1].
Proof. split; vm_compute; reflexivity. Qed.

Lemma nsfacts_queue_witness :
  length (nsfacts_take full_store NSFACTS_OUT).2 = 20%nat /\
  waiting (nsfacts_take full_store NSFACTS_OUT).1 = drop NSFACTS_OUT (waiting full_store).
Proof.
  split; [vm_compute; reflexivity|].
  apply (nsfacts_queue full_store NSFACTS_OUT 4 1 NSF_ADDR []).
  unfold nsfacts_ok. apply Nat.leb_le. vm_compute. reflexivity.
Defined.
