(* ===== verification/TermFilter.v ===== *)
(** src/src/termfilter.c: the filter on the bytes a terminal sends, which makes
    its answer to the size question a few rows shorter.  A partial sequence is
    held across calls; the output of a call is a list of bytes. *)
From S2P Require Import Prelude Bencode PathEp.

Definition TF_PEND : nat := 32.                  (* sizeof(pend) *)
Definition ESC : Z := 27.
Definition CH_BRACKET : Z := 91.                 (* '[' *)
Definition CH_T : Z := 116.                      (* 't' *)

(** [npend] is the length of [tf_pend]. *)
Record termfilter := mk_tf { tf_reserve : Z; tf_pend : bytes }.

Definition termfilter_init (reserve : Z) : termfilter := mk_tf reserve [].

(** ** [sscanf] of ["\033[8;%5d;%5dt"] *)
Definition is_space (c : Z) : bool := (c =? 32) || ((9 <=? c) && (c <=? 13)).

Fixpoint skip_space (l : bytes) : bytes :=
  match l with
  | c :: l' => if is_space c then skip_space l' else l
  | [] => []
  end.

(** At most [w] digits. *)
Fixpoint scan_digits (w : nat) (l : bytes) : bytes :=
  match w, l with
  | S w', c :: l' => if is_digit c then c :: scan_digits w' l' else []
  | _, _ => []
  end.

(** ["%<w>d"]: the value and the rest; a sign counts towards the width. *)
Definition scan_int (w : nat) (l : bytes) : option (Z * bytes) :=
  let l := skip_space l in
  let '(neg, w, l) :=
    match l with
    | c :: l' => if c =? 43 then (false, (w - 1)%nat, l') else if c =? 45 then (true, (w - 1)%nat, l')
                 else (false, w, l)
    | [] => (false, w, l)
    end in
  let ds := scan_digits w l in
  if (length ds =? 0)%nat then None
  else Some (if neg : bool then - dval ds else dval ds, drop (length ds) l).

Fixpoint scan_lit (lit l : bytes) : option bytes :=
  match lit, l with
  | [], _ => Some l
  | x :: lit', c :: l' => if c =? x then scan_lit lit' l' else None
  | _, [] => None
  end.

(** Both numbers converted, a return of 2: whether the ['t'] that follows them in
    the format matches makes no difference to it. *)
Definition scan_size (s : bytes) : option (Z * Z) :=
  match scan_lit [ESC; CH_BRACKET; 56; 59] s with
  | None => None
  | Some l =>
      match scan_int 5 l with
      | None => None
      | Some (rows, l) =>
          match scan_lit [59] l with
          | None => None
          | Some l => match scan_int 5 l with
                      | None => None
                      | Some (cols, _) => Some (rows, cols)
                      end
          end
      end
  end.

(** ["%d"] *)
Definition fmt_d (n : Z) : bytes := if n <? 0 then 45 :: dec (- n) else dec n.
Definition size_text (rows cols : Z) : bytes :=
  [ESC; CH_BRACKET; 56; 59] ++ fmt_d rows ++ 59 :: fmt_d cols ++ [CH_T].

(** ** The filter *)

(** What [emit_seq] writes for the sequence held; [sscanf] reads it as a string. *)
Definition rewrite_seq (reserve : Z) (s : bytes) : bytes :=
  if (List.last s 0 =? CH_T) && (0 <? reserve) then
    match scan_size (strz s) with
    | Some (rows, cols) =>
        if reserve <? rows then take (TF_PEND - 1) (size_text (rows - reserve) cols) else s
    | None => s
    end
  else s.

Definition flush_pend (f : termfilter) : termfilter * bytes := (mk_tf (tf_reserve f) [], tf_pend f).

Definition emit_seq (f : termfilter) : termfilter * bytes :=
  (mk_tf (tf_reserve f) [], rewrite_seq (tf_reserve f) (tf_pend f)).

Definition hold (f : termfilter) (c : Z) : termfilter := mk_tf (tf_reserve f) (tf_pend f ++ [c]).

(** A byte outside a sequence. *)
Definition plain_byte (f : termfilter) (c : Z) : termfilter * bytes :=
  if c =? ESC then (hold f c, []) else (f, [c]).

(** The held bytes as they are, then the byte. *)
Definition flush_byte (f : termfilter) (c : Z) : termfilter * bytes :=
  let '(f, o) := flush_pend f in
  let '(f, o2) := plain_byte f c in (f, o ++ o2).

Definition is_final (c : Z) : bool := (0x40 <=? c) && (c <=? 0x7e).

(** The body of the loop. *)
Definition filter_byte (f : termfilter) (c : Z) : termfilter * bytes :=
  if (length (tf_pend f) =? 0)%nat then plain_byte f c
  else if (length (tf_pend f) =? 1)%nat then
    if c =? CH_BRACKET then (hold f c, []) else flush_byte f c
  else if (TF_PEND - 1 <=? length (tf_pend f))%nat then flush_byte f c
  else
    let f := hold f c in
    if is_final c then emit_seq f else (f, []).

Fixpoint termfilter_run (f : termfilter) (input : bytes) : termfilter * bytes :=
  match input with
  | [] => (f, [])
  | c :: rest =>
      let '(f, o) := filter_byte f c in
      let '(f, o') := termfilter_run f rest in
      (f, o ++ o')
  end.

(** ** Lemmas: lengths of numbers *)
Lemma dec_digits_length f n k :
  (0 < k)%nat -> 0 <= n < 10 ^ Z.of_nat k -> (length (dec_digits f n) <= k)%nat.
Proof.
  revert n k. induction f as [|f IH]; intros n k Hk Hn; cbn [dec_digits length]; [lia|].
  destruct (Z.ltb_spec n 10); [cbn; lia|]. rewrite length_app. cbn [length].
  destruct k as [|[|k]]; [lia| |].
  { change (10 ^ Z.of_nat 1) with 10 in Hn. lia. }
  assert (length (dec_digits f (n / 10)) <= S k)%nat; [|lia].
  apply IH; [lia|]. split; [apply Z.div_pos; lia|]. apply Z.div_lt_upper_bound; [lia|].
  replace (10 * 10 ^ Z.of_nat (S k)) with (10 ^ Z.of_nat (S (S k))); [lia|].
  rewrite (Nat2Z.inj_succ (S k)), Z.pow_succ_r; lia.
Qed.

Lemma dec_length n k : (0 < k)%nat -> 0 <= n < 10 ^ Z.of_nat k -> (length (dec n) <= k)%nat.
Proof. apply dec_digits_length. Qed.

Lemma dval_bound ds : digits ds -> dval ds < 10 ^ Z.of_nat (length ds).
Proof.
  induction 1 as [|c ds Hc Hds IH]; [done|]. rewrite dval_cons. cbn [length].
  rewrite Nat2Z.inj_succ, Z.pow_succ_r by lia. nia.
Qed.

Lemma dec_mono a b : 0 <= a <= b -> b <= INT64_MAX -> (length (dec a) <= length (dec b))%nat.
Proof.
  intros Ha Hb. destruct (dec_spec b) as (D1 & D2 & D3 & _); [lia|]. apply dec_length.
  - destruct (dec b); [done | cbn; lia].
  - pose proof (dval_bound (dec b) D1). lia.
Qed.

(** ** Lemmas: scanning *)
Lemma skip_space_split l : exists ws, l = ws ++ skip_space l /\ CH_T ∉ ws.
Proof.
  induction l as [|c l (ws & E & Hn)]; cbn; [exists []; set_solver|].
  destruct (is_space c) eqn:Es; [|exists []; set_solver].
  exists (c :: ws). split; [cbn; by rewrite <- E|]. apply not_elem_of_cons. split; [|done].
  intros <-. discriminate Es.
Qed.

Lemma scan_digits_split w l :
  exists rest, l = scan_digits w l ++ rest /\ digits (scan_digits w l) /\ (length (scan_digits w l) <= w)%nat.
Proof.
  revert l. induction w as [|w IH]; intros [|c l]; cbn.
  1-3: eexists; split_and!; [reflexivity | constructor | cbn; lia].
  destruct (is_digit c) eqn:Ed; [|eexists; split_and!; [reflexivity | constructor | cbn; lia]].
  destruct (IH l) as (rest & E & Hd & Hl). exists rest. split_and!.
  - cbn. by rewrite <- E.
  - constructor; [by apply is_digit_iff | done].
  - cbn. lia.
Qed.

Lemma digits_no_t ds : digits ds -> CH_T ∉ ds.
Proof. intros Hd Hin. unfold digits in Hd. rewrite Forall_forall in Hd. specialize (Hd _ Hin). unfold CH_T in Hd. lia. Qed.

Lemma fmt_d_digits ds :
  digits ds -> (0 < length ds)%nat -> (length (dec (dval ds)) <= length ds)%nat.
Proof.
  intros Hd Hl. apply dec_length; [done|]. pose proof (dval_nonneg ds Hd).
  pose proof (dval_bound ds Hd). lia.
Qed.

(** A number is never printed longer than it was read. *)
Lemma scan_int_split l v rest :
  scan_int 5 l = Some (v, rest) ->
  exists used, l = used ++ rest /\ CH_T ∉ used /\ (length (fmt_d v) <= length used)%nat /\ v < 10 ^ 5.
Proof.
  unfold scan_int. destruct (skip_space_split l) as (ws & E & Hws).
  set (sg := match skip_space l with c :: l' => _ | [] => _ end).
  assert (exists sign, skip_space l = sign ++ sg.2 /\ CH_T ∉ sign /\ (sg.1.2 <= 5)%nat /\
    (sg.1.1 = true -> length sign = 1%nat)) as (sign & Es & Hs & Hw & Hneg).
  { unfold sg. destruct (skip_space l) as [|c l']; [exists []; set_solver by lia|].
    destruct (Z.eqb_spec c 43) as [->|]; [exists [43]; set_solver by lia|].
    destruct (Z.eqb_spec c 45) as [->|]; [exists [45]; set_solver by lia|]. exists []; set_solver by lia. }
  destruct sg as [[neg w] l1]. cbn [fst snd] in *.
  destruct (scan_digits_split w l1) as (r & El & Hd & Hl). set (ds := scan_digits w l1) in *.
  destruct (Nat.eqb_spec (length ds) 0) as [|Hnz]; [done|]. intros H. simplify_eq.
  assert (drop (length ds) l1 = r) as Er by (rewrite El at 1; by rewrite drop_app_length).
  rewrite Er. exists (ws ++ sign ++ ds). pose proof (fmt_d_digits ds Hd ltac:(lia)) as Hf.
  pose proof (dval_nonneg ds Hd) as Hp. pose proof (dval_bound ds Hd) as Hb.
  assert (10 ^ Z.of_nat (length ds) <= 10 ^ 5) as H5 by (apply Z.pow_le_mono_r; lia).
  split_and!.
  - rewrite E at 1. rewrite Es at 1. rewrite El at 1. by rewrite <- !app_assoc.
  - rewrite !not_elem_of_app. split_and!; auto using digits_no_t.
  - rewrite !length_app. unfold fmt_d. destruct neg.
    + rewrite (Hneg eq_refl). destruct (Z.ltb_spec (- dval ds) 0).
      * cbn [length]. rewrite Z.opp_involutive. lia.
      * replace (- dval ds) with (dval ds) by lia. lia.
    + destruct (Z.ltb_spec (dval ds) 0); [lia|]. lia.
  - destruct neg; lia.
Qed.

Lemma scan_lit_split lit l rest : scan_lit lit l = Some rest -> l = lit ++ rest.
Proof.
  revert l. induction lit as [|x lit IH]; intros [|c l] H; cbn in *; simplify_eq; try done.
  destruct (Z.eqb_spec c x) as [->|]; [|done]. by rewrite (IH l H) at 1.
Qed.

Lemma strz_split s : exists rest, s = strz s ++ rest.
Proof.
  induction s as [|c s (rest & E)]; cbn; [by exists []|].
  destruct (c =? 0); [by exists (c :: s)|]. exists rest. cbn. by rewrite <- E.
Qed.

Lemma last_elem (s : bytes) x : List.last s 0 = x -> x <> 0 -> x ∈ s.
Proof.
  intros <- Hx. destruct s as [|c s] using rev_ind; [done|]. rewrite last_last. set_solver.
Qed.

(** Rewriting never lengthens a sequence, nor overruns its buffer. *)
Lemma rewrite_length reserve s : (length (rewrite_seq reserve s) <= length s)%nat.
Proof.
  unfold rewrite_seq. destruct (Z.eqb_spec (List.last s 0) CH_T) as [Ht|]; [|cbn; lia].
  destruct (Z.ltb_spec 0 reserve); [|cbn; lia]. cbn [andb].
  destruct (scan_size (strz s)) as [[rows cols]|] eqn:E; [|lia].
  destruct (Z.ltb_spec reserve rows); [|lia]. rewrite length_take. etrans; [apply Nat.le_min_r|].
  unfold scan_size in E. destruct (scan_lit _ (strz s)) as [l1|] eqn:E1; [|done].
  destruct (scan_int 5 l1) as [[v1 l2]|] eqn:E2; [|done].
  destruct (scan_lit [59] l2) as [l3|] eqn:E3; [|done].
  destruct (scan_int 5 l3) as [[v2 l4]|] eqn:E4; [|done]. simplify_eq.
  apply scan_lit_split in E1, E3. apply scan_int_split in E2 as (u1 & -> & N1 & F1 & B1).
  apply scan_int_split in E4 as (u2 & -> & N2 & F2 & _). subst l2.
  assert (length (fmt_d (rows - reserve)) <= length u1)%nat as F1'.
  { etrans; [|exact F1]. unfold fmt_d. destruct (Z.ltb_spec (rows - reserve) 0), (Z.ltb_spec rows 0); try lia.
    apply dec_mono; [lia|]. unfold INT64_MAX. lia. }
  destruct (strz_split s) as [r Er].
  assert (length s = length (strz s) + length r)%nat as Els by (rewrite Er at 1; apply length_app).
  assert (0 < length l4 + length r)%nat as Hpos.
  { assert (CH_T ∈ s) as Hin by (by apply last_elem). rewrite Er, E1 in Hin.
    destruct l4; [|cbn; lia]. destruct r; [|cbn; lia]. exfalso. clear -Hin N1 N2.
    rewrite !elem_of_app in Hin. unfold ESC, CH_BRACKET, CH_T in *. set_solver. }
  rewrite Els, E1. unfold size_text. rewrite !length_app. cbn [length app]. rewrite !length_app. cbn [length].
  lia.
Qed.

(** ** Lemmas: the filter *)

(** What may be held: nothing, an ESC, or the start of a control sequence with
    no final byte yet, short of the buffer. *)
Definition tf_ok (f : termfilter) : Prop :=
  tf_pend f = [] \/ tf_pend f = [ESC] \/
  exists body, tf_pend f = ESC :: CH_BRACKET :: body /\ Forall (fun c => is_final c = false) body /\
    (length (tf_pend f) < TF_PEND)%nat.

(** [segs] is a way the bytes went through: what was held and what came in is
    the segments and what is held now, and what went out is the segments, each
    rewritten if it is a size answer. *)
Definition passed (f : termfilter) (input : bytes) (f' : termfilter) (out : bytes) : Prop :=
  tf_reserve f' = tf_reserve f /\
  exists segs, tf_pend f ++ input = concat segs ++ tf_pend f' /\
               out = concat (map (rewrite_seq (tf_reserve f)) segs).

Lemma passed_trans f f1 f2 a b o1 o2 :
  passed f a f1 o1 -> passed f1 b f2 o2 -> passed f (a ++ b) f2 (o1 ++ o2).
Proof.
  intros (R1 & s1 & E1 & ->) (R2 & s2 & E2 & ->). split; [congruence|]. exists (s1 ++ s2).
  rewrite R1, map_app, !concat_app. split; [|done].
  rewrite app_assoc, E1, <- !app_assoc. by rewrite E2.
Qed.

(** A segment that does not end in the answer's final byte goes out as it is. *)
Lemma rewrite_other reserve s : List.last s 0 <> CH_T -> rewrite_seq reserve s = s.
Proof. intros H. unfold rewrite_seq. by rewrite (proj2 (Z.eqb_neq _ _) H). Qed.

Lemma rewrite_byte reserve c : rewrite_seq reserve [c] = [c].
Proof.
  unfold rewrite_seq. destruct (_ && _); [|done].
  assert (scan_size (strz [c]) = None) as ->; [|done].
  unfold scan_size. cbn [strz]. destruct (c =? 0); [done|]. cbn [scan_lit]. by destruct (c =? ESC).
Qed.

Lemma plain_passed f c :
  tf_pend f = [] -> tf_ok (plain_byte f c).1 /\ passed f [c] (plain_byte f c).1 (plain_byte f c).2.
Proof.
  intros E. unfold plain_byte, hold, tf_ok, passed. rewrite E.
  destruct (Z.eqb_spec c ESC) as [->|]; cbn [fst snd tf_pend tf_reserve app].
  - split; [auto|]. split; [done|]. by exists [].
  - split; [auto|]. split; [done|]. exists [[c]]. cbn [concat map app]. rewrite rewrite_byte, E.
    done.
Qed.

Lemma flush_passed f c :
  List.last (tf_pend f) 0 <> CH_T ->
  tf_ok (flush_byte f c).1 /\ passed f [c] (flush_byte f c).1 (flush_byte f c).2.
Proof.
  intros Hl. unfold flush_byte, flush_pend. set (f0 := mk_tf (tf_reserve f) []).
  destruct (plain_passed f0 c eq_refl) as [H1 H2]. destruct (plain_byte f0 c) as [f1 o2].
  cbn [fst snd] in *. split; [done|].
  assert (passed f [] f0 (tf_pend f)) as H0.
  { split; [done|]. exists [tf_pend f]. cbn. by rewrite !app_nil_r, rewrite_other. }
  exact (passed_trans _ _ _ _ _ _ _ H0 H2).
Qed.

Lemma pend_last f : tf_ok f -> tf_pend f <> [] -> List.last (tf_pend f) 0 <> CH_T.
Proof.
  intros [H|[H|(body & H & Hb & _)]] Hne; rewrite H in *; [done|done|].
  destruct body as [|c body _] using rev_ind; [done|]. apply Forall_app in Hb as [_ Hc].
  apply Forall_inv in Hc. rewrite !app_comm_cons, last_last. intros ->. discriminate Hc.
Qed.

Lemma filter_byte_passed f c :
  tf_ok f -> tf_ok (filter_byte f c).1 /\ passed f [c] (filter_byte f c).1 (filter_byte f c).2.
Proof.
  intros Hok. pose proof (pend_last f Hok) as Hl. unfold filter_byte.
  destruct (Nat.eqb_spec (length (tf_pend f)) 0) as [E0|E0].
  { apply plain_passed. by apply nil_length_inv. }
  assert (tf_pend f <> []) as Hne by (intros E; by rewrite E in E0). specialize (Hl Hne).
  assert (passed f [c] (hold f c) []) as Hh.
  { split; [done|]. by exists []. }
  destruct (Nat.eqb_spec (length (tf_pend f)) 1) as [E1|E1].
  { destruct (Z.eqb_spec c CH_BRACKET) as [->|]; [|by apply flush_passed]. cbn [fst snd].
    split; [|done]. destruct Hok as [H|[H|(body & H & _)]]; [done| |by rewrite H in E1].
    right. right. exists []. unfold hold. cbn. rewrite H. split_and!; [done | constructor | cbn].
    unfold TF_PEND. lia. }
  destruct (Nat.leb_spec (TF_PEND - 1) (length (tf_pend f))); [by apply flush_passed|].
  destruct Hok as [Hp|[Hp|(body & Hp & Hb & _)]]; [by rewrite Hp in E0 | by rewrite Hp in E1|].
  destruct (is_final c) eqn:Ef; cbn [fst snd emit_seq].
  - split; [by left|]. split; [done|]. exists [tf_pend f ++ [c]]. cbn. by rewrite !app_nil_r.
  - split; [|done]. right. right. exists (body ++ [c]). unfold hold. cbn [tf_pend]. rewrite Hp.
    split_and!; [done | |].
    + apply Forall_app. split; [done | by repeat constructor].
    + rewrite Hp in *. rewrite length_app. cbn [length] in *. lia.
Qed.

Lemma run_passed input f :
  tf_ok f ->
  let r := termfilter_run f input in tf_ok r.1 /\ passed f input r.1 r.2.
Proof.
  revert f. induction input as [|c input IH]; intros f Hok; cbn [termfilter_run].
  { split; [done|]. split; [done|]. exists []. cbn. by rewrite app_nil_r. }
  destruct (filter_byte_passed f c Hok) as [H1 P1]. destruct (filter_byte f c) as [f1 o1]. cbn [fst snd] in *.
  destruct (IH f1 H1) as [H2 P2]. destruct (termfilter_run f1 input) as [f2 o2]. cbn [fst snd] in *.
  split; [done|]. exact (passed_trans f f1 f2 [c] input o1 o2 P1 P2).
Qed.

Lemma run_app f a b :
  termfilter_run f (a ++ b) =
  let '(f1, o1) := termfilter_run f a in
  let '(f2, o2) := termfilter_run f1 b in (f2, o1 ++ o2).
Proof.
  revert f. induction a as [|c a IH]; intros f; cbn [termfilter_run app].
  { by destruct (termfilter_run f b). }
  destruct (filter_byte f c) as [f1 o1]. rewrite IH. destruct (termfilter_run f1 a) as [f2 o2].
  destruct (termfilter_run f2 b) as [f3 o3]. by rewrite app_assoc.
Qed.

(** Parameter bytes of a sequence are held. *)
Lemma run_params reserve held ps :
  (2 <= length held)%nat -> Forall (fun c => is_final c = false) ps ->
  (length held + length ps < TF_PEND)%nat ->
  termfilter_run (mk_tf reserve held) ps = (mk_tf reserve (held ++ ps), []).
Proof.
  intros Hh Hp. revert held Hh. induction Hp as [|c ps Hc Hps IH]; intros held Hh Hl; cbn [termfilter_run].
  { by rewrite app_nil_r. }
  unfold filter_byte. cbn [tf_pend length] in *.
  destruct (Nat.eqb_spec (length held) 0); [lia|]. destruct (Nat.eqb_spec (length held) 1); [lia|].
  destruct (Nat.leb_spec (TF_PEND - 1) (length held)); [lia|]. rewrite Hc. unfold hold. cbn [tf_pend tf_reserve].
  rewrite IH by (rewrite length_app; cbn; lia). by rewrite <- app_assoc.
Qed.

Lemma strz_nonzero s : Forall (fun c => c <> 0) s -> strz s = s.
Proof.
  induction 1 as [|c s Hc Hs IH]; [done|]. cbn. rewrite (proj2 (Z.eqb_neq _ _) Hc). by rewrite IH.
Qed.

Lemma scan_digits_all w ds rest :
  digits ds -> (length ds <= w)%nat ->
  match rest with c :: _ => is_digit c = false | [] => True end -> scan_digits w (ds ++ rest) = ds.
Proof.
  intros Hd. revert w. induction Hd as [|c ds Hc Hds IH]; intros w Hw Hr; cbn [app].
  - destruct w, rest; try done. cbn. by rewrite Hr.
  - destruct w as [|w]; cbn [length] in Hw; [lia|]. cbn. rewrite (proj2 (is_digit_iff c) Hc).
    by rewrite IH by (done || lia).
Qed.

(** A printed number is read back. *)
Lemma scan_dec n rest :
  0 <= n < 10 ^ 5 -> match rest with c :: _ => is_digit c = false | [] => True end ->
  scan_int 5 (dec n ++ rest) = Some (n, rest).
Proof.
  intros Hn Hr. destruct (dec_spec n) as (Hd & Hne & Hv & _); [unfold INT64_MAX; lia|].
  pose proof (dec_length n 5 ltac:(lia) ltac:(exact Hn)) as Hl. unfold scan_int.
  pose proof (scan_digits_all 5 (dec n) rest Hd Hl Hr) as Hs.
  destruct (dec n) as [|c ds] eqn:Ed; [done|]. pose proof Hd as Hd'. apply Forall_inv in Hd'.
  assert (skip_space ((c :: ds) ++ rest) = (c :: ds) ++ rest) as ->.
  { cbn. assert (is_space c = false) as ->; [|done]. unfold is_space.
    destruct (Z.eqb_spec c 32), (Z.leb_spec 9 c), (Z.leb_spec c 13); cbn; lia || done. }
  cbn [app]. destruct (Z.eqb_spec c 43); [lia|]. destruct (Z.eqb_spec c 45); [lia|].
  cbn [app] in Hs. rewrite Hs. cbn [length Nat.eqb]. rewrite Hv.
  change (c :: ds ++ rest) with ((c :: ds) ++ rest).
  change (S (length ds)) with (length (c :: ds)). by rewrite drop_app_length.
Qed.

(** ** Properties *)

(** The filter touches nothing but size answers, wherever the reads are
    cut.  What comes out, with what is still held, is what went in and was held
    before, cut into segments, each passed on as it is unless it is a complete
    answer with more rows than are reserved; feeding the input in two parts
    gives the same output; the stream never gets longer, and what is held never
    reaches the end of its buffer. *)
Theorem termfilter_transparent f a b :
  tf_ok f ->
  let '(f1, o1) := termfilter_run f a in
  let '(f2, o2) := termfilter_run f1 b in
  termfilter_run f (a ++ b) = (f2, o1 ++ o2) /\ tf_ok f2 /\ passed f (a ++ b) f2 (o1 ++ o2) /\
  (length (tf_pend f2) < TF_PEND)%nat /\
  (length (o1 ++ o2) + length (tf_pend f2) <= length (tf_pend f) + length (a ++ b))%nat.
Proof.
  intros Hok. pose proof (run_app f a b) as Ha. pose proof (run_passed (a ++ b) f Hok) as [H1 H2].
  destruct (termfilter_run f a) as [f1 o1], (termfilter_run f1 b) as [f2 o2].
  rewrite Ha in *. cbn [fst snd] in *. split_and!; try done.
  - destruct H1 as [E|[E|(body & _ & _ & Hl)]]; [rewrite E; unfold TF_PEND; cbn; lia..|done].
  - destruct H2 as (_ & segs & E & ->). apply (f_equal length) in E. rewrite !length_app in *.
    assert (length (concat (map (rewrite_seq (tf_reserve f)) segs)) <= length (concat segs))%nat; [|lia].
    clear. induction segs as [|s segs IH]; cbn; [lia|]. rewrite !length_app.
    pose proof (rewrite_length (tf_reserve f) s). lia.
Qed.

Lemma termfilter_transparent_witness :
  let '(f1, o1) := termfilter_run (termfilter_init 1) [65; ESC; CH_BRACKET; 56; 59; 50] in
  let '(f2, o2) := termfilter_run f1 [52; 59; 56; 48; CH_T; 66] in
  o1 ++ o2 = [65] ++ size_text 23 80 ++ [66] /\ tf_ok f2.
Proof.
  pose proof (termfilter_transparent (termfilter_init 1) [65; ESC; CH_BRACKET; 56; 59; 50]
    [52; 59; 56; 48; CH_T; 66] (or_introl eq_refl)) as H.
  destruct (termfilter_run (termfilter_init 1) [65; ESC; CH_BRACKET; 56; 59; 50]) as [f1 o1] eqn:E1.
  destruct (termfilter_run f1 [52; 59; 56; 48; CH_T; 66]) as [f2 o2] eqn:E2.
  destruct H as (_ & H & _). split; [|exact H].
  vm_compute in E1. injection E1 as <- <-. vm_compute in E2. injection E2 as <- <-.
  vm_compute. reflexivity.
Defined.

(** The answer to the size question comes out with the reserve taken
    off its rows, whatever the size, as long as there are rows to take. *)
Theorem termfilter_size_answer reserve rows cols :
  0 < reserve < rows -> rows < 10 ^ 5 -> 0 <= cols < 10 ^ 5 ->
  termfilter_run (termfilter_init reserve) (size_text rows cols) =
  (termfilter_init reserve, size_text (rows - reserve) cols).
Proof.
  intros Hr Hrows Hcols. destruct (dec_spec rows) as (D1 & _); [unfold INT64_MAX; lia|].
  destruct (dec_spec cols) as (D2 & _); [unfold INT64_MAX; lia|].
  pose proof (dec_length rows 5 ltac:(lia) ltac:(change (Z.of_nat 5) with 5; lia)) as L1.
  pose proof (dec_length cols 5 ltac:(lia) Hcols) as L2.
  assert (forall n, 0 <= n -> fmt_d n = dec n) as Hf
    by (intros n Hn; unfold fmt_d; destruct (Z.ltb_spec n 0); [lia | done]).
  set (ps := [56; 59] ++ dec rows ++ 59 :: dec cols).
  assert (size_text rows cols = [ESC; CH_BRACKET] ++ ps ++ [CH_T]) as Et.
  { unfold size_text, ps. rewrite !Hf by lia. cbn. by rewrite <- app_assoc. }
  assert (forall ds, digits ds -> Forall (fun c => 48 <= c <= 59) ds) as Hdig
    by (intros ds Hds; eapply Forall_impl; [exact Hds|]; cbn; lia).
  assert (Forall (fun c => 48 <= c <= 59) ps) as Hps.
  { unfold ps. apply Forall_app. split; [forall_list; lia|]. apply Forall_app. split; [auto|].
    constructor; [lia | auto]. }
  assert (length ps <= 13)%nat as Hlen
    by (unfold ps; rewrite !length_app; cbn [length]; lia).
  rewrite Et. rewrite run_app. change (termfilter_run (termfilter_init reserve) [ESC; CH_BRACKET])
    with (mk_tf reserve [ESC; CH_BRACKET], @nil Z). cbv iota beta.
  rewrite run_app, run_params; [|cbn; lia| |cbn [length]; unfold TF_PEND; lia].
  2:{ eapply Forall_impl; [exact Hps|]. intros c Hc. cbn in Hc. unfold is_final.
      destruct (Z.leb_spec 64 c); [lia | done]. }
  cbn [termfilter_run]. unfold filter_byte. cbn [tf_pend]. rewrite !length_app. cbn [length].
  destruct (Nat.eqb_spec (2 + length ps) 0); [lia|]. destruct (Nat.eqb_spec (2 + length ps) 1); [lia|].
  destruct (Nat.leb_spec (TF_PEND - 1) (2 + length ps)); [unfold TF_PEND in *; lia|].
  change (is_final CH_T) with true. unfold emit_seq, hold. cbn [tf_reserve tf_pend].
  f_equal. rewrite !app_nil_r. cbn [app]. unfold rewrite_seq.
  set (s := (ESC :: CH_BRACKET :: ps) ++ [CH_T]). change (ESC :: CH_BRACKET :: ps ++ [CH_T]) with s.
  assert (List.last s 0 = CH_T) as -> by apply last_last.
  rewrite Z.eqb_refl, (proj2 (Z.ltb_lt 0 reserve)) by lia. cbn [andb].
  rewrite strz_nonzero.
  2:{ unfold s. apply Forall_app. split; [|by repeat constructor].
      do 2 (constructor; [done|]). eapply Forall_impl; [exact Hps|]. cbn. lia. }
  assert (scan_size s = Some (rows, cols)) as ->.
  { unfold s, ps, scan_size. cbn [app scan_lit]. rewrite !Z.eqb_refl.
    rewrite <- app_assoc. rewrite scan_dec by (done || lia). cbn [app scan_lit]. rewrite Z.eqb_refl.
    rewrite scan_dec by (done || lia). done. }
  rewrite (proj2 (Z.ltb_lt reserve rows)) by lia. apply take_ge.
  unfold size_text. rewrite !Hf by lia.
  pose proof (dec_mono (rows - reserve) rows ltac:(lia) ltac:(unfold INT64_MAX; lia)).
  unfold TF_PEND. rewrite !length_app. cbn [length]. rewrite !length_app. cbn [length]. lia.
Qed.

Lemma termfilter_size_answer_witness :
  termfilter_run (termfilter_init 1) (size_text 24 80) = (termfilter_init 1, size_text 23 80).
Proof. apply (termfilter_size_answer 1 24 80); lia. Defined.

(** The count [sscanf] returns does not say that the ['t'] of the format
    matched: a report with a further parameter is taken for a size answer and
    loses it, and so does a width of more than five digits its last one. *)
Lemma termfilter_longer_report :
  (termfilter_run (termfilter_init 1) ([ESC] ++ cstr "[8;24;80;1t")).2 = [ESC] ++ cstr "[8;23;80t" /\
  (termfilter_run (termfilter_init 1) ([ESC] ++ cstr "[8;24;123456t")).2 = [ESC] ++ cstr "[8;23;12345t".
Proof. split; vm_compute; reflexivity. Qed.
