(* ===== verification/Netstate.v ===== *)
(** src/src/netstate.c: what a host knows of its own reachability, per address
    family.  A fact is about the network it was learnt on: each family carries
    an epoch and a fact stamped with another one is dropped.  Actions owed to the
    outside are bits, raised here and taken by the caller.

    [netstate_fam] is the struct of one family with its entry of [ns->pend]
    beside it.  An address is the list of its bytes, so that its length is the
    length of the list, and [[]] stands for a NULL pointer or a length of zero.
    [AF_INET] and [AF_INET6] are 4 and 6. *)
From S2P Require Import Prelude Net Token NsFacts.

Definition NET_SCOPE_LAN : Z := 0.
Definition NET_SCOPE_CGNAT : Z := 1.
Definition NET_SCOPE_GLOBAL : Z := 2.
Definition NET_VIA_DIRECT : Z := 0.
Definition NET_VIA_STUN : Z := 1.
Definition NET_VIA_SHADOW : Z := 2.
Definition NET_CONN_UP : Z := 1.
Definition NET_CONN_PENDING : Z := 2.

Definition NETSTATE_ADDR_MAX : nat := 64.
Definition NETSTATE_SA_MAX : nat := 128.
Definition NETSTATE_LOCAL_MAX : nat := 64.
Definition NETSTATE_XLAT_MAX : nat := 8.
Definition NETSTATE_CANDS_MAX : nat := 4.
Definition NETSTATE_SRC_FAST_MS : Z := 500.
Definition NETSTATE_SRC_FAST_TRIES : Z := 30.
Definition NETSTATE_SRC_SLOW_MS : Z := 5000.
Definition NETSTATE_ANCHOR_QUALIFY : Z := 4.
Definition NETSTATE_RDV_MS : Z := 2000.
Definition NETSTATE_ANCHOR_PROVE_MS : Z := 10000.
Definition NETSTATE_ANCHOR_TRY_MS : Z := 3 * NETSTATE_ANCHOR_PROVE_MS.
Definition NETSTATE_ANCHOR_QUIET : Z := 5.
Definition NETSTATE_ANCHOR_GONE : Z := 90.
Definition NETSTATE_PROBE_ROUNDS : Z := 5.
Definition NETSTATE_PROBE_MS : Z := 4000.
Definition NETSTATE_PROBE_SLOW_MS : Z := 30000.

Definition NSA_SAMPLE_SRC : Z := 1.
Definition NSA_KICK_PROBE : Z := 2.
Definition NSA_EMIT_ROWS : Z := 4.
Definition NSA_EMIT_CONN : Z := 8.
Definition NSA_EMIT_RDV : Z := 16.
Definition NSA_RDV_PIN : Z := 32.
Definition NSA_RDV_RELOCATE : Z := 64.
Definition NSA_EMIT_TOKEN : Z := 128.
Definition NSA_RDV_DROP : Z := 256.

Definition NETMON_CH_V4 : Z := 1.
Definition NETMON_CH_V6 : Z := 2.

(** One address of a snapshot; the array is sixteen bytes whatever the family. *)
Record netmon_addr := mk_nmaddr { nm_family : Z; nm_addr : bytes; nm_addrlen : nat }.

Record netstate_cand := mk_ncand {
  c_addr : bytes; c_acks : Z; c_first_ms : Z; c_seen_ms : Z
}.
Record netstate_local := mk_nlocal { l_addr : bytes; l_scope : Z; l_proven : bool }.
Record netstate_xlat := mk_nxlat { x_addr : bytes; x_scope : Z }.
Record netstate_row := mk_nrow { r_text : bytes; r_addr : bytes; r_scope : Z; r_via : Z }.

Record netstate_fam := mk_nfam {
  f_epoch : Z;
  f_src : bytes;
  f_src_text : bytes;
  f_src_scope : Z;
  f_src_epoch : Z;
  f_src_next_ms : Z;
  f_src_tries : Z;
  f_routed : bool;
  f_conn : Z;
  f_up_epoch : Z;
  f_probe_running : bool;
  f_probe_wanted : bool;
  f_probe_next_ms : Z;
  f_probe_rounds : Z;
  f_anchor : bytes;
  f_picking : bool;
  f_cands : list netstate_cand;
  f_anchor_confirmed : bool;
  f_anchor_vouched : bool;
  f_anchor_candidate : bool;
  f_anchor_acks : Z;
  f_anchor_quiet : Z;
  f_anchor_set_ms : Z;
  f_anchor_first_ms : Z;
  f_anchor_next_ms : Z;
  f_has_addr : bool;
  f_dht_acked : bool;
  f_concluded : bool;
  f_locals : list netstate_local;
  f_xlats : list netstate_xlat;
  f_pend : Z
}.

Record netstate := mk_netstate {
  nst_f : netstate_fam * netstate_fam;      (* [0] v4, [1] v6 *)
  nst_is_host : bool
}.

Definition nfam_eta (f : netstate_fam) : netstate_fam :=
  mk_nfam (f_epoch f) (f_src f) (f_src_text f) (f_src_scope f) (f_src_epoch f) (f_src_next_ms f)
    (f_src_tries f) (f_routed f) (f_conn f) (f_up_epoch f) (f_probe_running f) (f_probe_wanted f)
    (f_probe_next_ms f) (f_probe_rounds f) (f_anchor f) (f_picking f) (f_cands f)
    (f_anchor_confirmed f) (f_anchor_vouched f) (f_anchor_candidate f) (f_anchor_acks f)
    (f_anchor_quiet f) (f_anchor_set_ms f) (f_anchor_first_ms f) (f_anchor_next_ms f)
    (f_has_addr f) (f_dht_acked f) (f_concluded f) (f_locals f) (f_xlats f) (f_pend f).
#[export] Instance set_f_epoch : Setter f_epoch := ltac:(solve_setter nfam_eta).
#[export] Instance set_f_src : Setter f_src := ltac:(solve_setter nfam_eta).
#[export] Instance set_f_src_text : Setter f_src_text := ltac:(solve_setter nfam_eta).
#[export] Instance set_f_src_scope : Setter f_src_scope := ltac:(solve_setter nfam_eta).
#[export] Instance set_f_src_epoch : Setter f_src_epoch := ltac:(solve_setter nfam_eta).
#[export] Instance set_f_src_next_ms : Setter f_src_next_ms := ltac:(solve_setter nfam_eta).
#[export] Instance set_f_src_tries : Setter f_src_tries := ltac:(solve_setter nfam_eta).
#[export] Instance set_f_routed : Setter f_routed := ltac:(solve_setter nfam_eta).
#[export] Instance set_f_conn : Setter f_conn := ltac:(solve_setter nfam_eta).
#[export] Instance set_f_up_epoch : Setter f_up_epoch := ltac:(solve_setter nfam_eta).
#[export] Instance set_f_probe_running : Setter f_probe_running := ltac:(solve_setter nfam_eta).
#[export] Instance set_f_probe_wanted : Setter f_probe_wanted := ltac:(solve_setter nfam_eta).
#[export] Instance set_f_probe_next_ms : Setter f_probe_next_ms := ltac:(solve_setter nfam_eta).
#[export] Instance set_f_probe_rounds : Setter f_probe_rounds := ltac:(solve_setter nfam_eta).
#[export] Instance set_f_anchor : Setter f_anchor := ltac:(solve_setter nfam_eta).
#[export] Instance set_f_picking : Setter f_picking := ltac:(solve_setter nfam_eta).
#[export] Instance set_f_cands : Setter f_cands := ltac:(solve_setter nfam_eta).
#[export] Instance set_f_anchor_confirmed : Setter f_anchor_confirmed := ltac:(solve_setter nfam_eta).
#[export] Instance set_f_anchor_vouched : Setter f_anchor_vouched := ltac:(solve_setter nfam_eta).
#[export] Instance set_f_anchor_candidate : Setter f_anchor_candidate := ltac:(solve_setter nfam_eta).
#[export] Instance set_f_anchor_acks : Setter f_anchor_acks := ltac:(solve_setter nfam_eta).
#[export] Instance set_f_anchor_quiet : Setter f_anchor_quiet := ltac:(solve_setter nfam_eta).
#[export] Instance set_f_anchor_set_ms : Setter f_anchor_set_ms := ltac:(solve_setter nfam_eta).
#[export] Instance set_f_anchor_first_ms : Setter f_anchor_first_ms := ltac:(solve_setter nfam_eta).
#[export] Instance set_f_anchor_next_ms : Setter f_anchor_next_ms := ltac:(solve_setter nfam_eta).
#[export] Instance set_f_has_addr : Setter f_has_addr := ltac:(solve_setter nfam_eta).
#[export] Instance set_f_dht_acked : Setter f_dht_acked := ltac:(solve_setter nfam_eta).
#[export] Instance set_f_concluded : Setter f_concluded := ltac:(solve_setter nfam_eta).
#[export] Instance set_f_locals : Setter f_locals := ltac:(solve_setter nfam_eta).
#[export] Instance set_f_xlats : Setter f_xlats := ltac:(solve_setter nfam_eta).
#[export] Instance set_f_pend : Setter f_pend := ltac:(solve_setter nfam_eta).

Definition ncand_eta (c : netstate_cand) : netstate_cand :=
  mk_ncand (c_addr c) (c_acks c) (c_first_ms c) (c_seen_ms c).
#[export] Instance set_c_acks : Setter c_acks := ltac:(solve_setter ncand_eta).
#[export] Instance set_c_seen_ms : Setter c_seen_ms := ltac:(solve_setter ncand_eta).
Definition nlocal_eta (l : netstate_local) : netstate_local :=
  mk_nlocal (l_addr l) (l_scope l) (l_proven l).
#[export] Instance set_l_proven : Setter l_proven := ltac:(solve_setter nlocal_eta).
Definition netstate_eta (n : netstate) : netstate := mk_netstate (nst_f n) (nst_is_host n).
#[export] Instance set_nst_f : Setter nst_f := ltac:(solve_setter netstate_eta).

(** ** Shared pieces *)
Definition raise_act (bits : Z) (f : netstate_fam) : netstate_fam :=
  f <| f_pend := f_pend f .| bits |>.

Definition conn_of (f : netstate_fam) : Z :=
  if negb (f_has_addr f) then 0
  else if f_up_epoch f =? f_epoch f then NET_CONN_UP
  else if f_routed f then NET_CONN_PENDING else 0.

Definition sync_conn (f : netstate_fam) : netstate_fam :=
  if conn_of f =? f_conn f then f
  else raise_act NSA_EMIT_CONN (f <| f_conn := conn_of f |>).

Definition probe_gap (f : netstate_fam) : Z :=
  if f_probe_rounds f <? NETSTATE_PROBE_ROUNDS then NETSTATE_PROBE_MS else NETSTATE_PROBE_SLOW_MS.

Definition facts_moved (is_host : bool) (f : netstate_fam) : netstate_fam :=
  if is_host then raise_act NSA_EMIT_TOKEN f else f.

Definition byte_at (b : bytes) (i : nat) : Z := nth i b 0.

Definition addr_scope_raw (b : bytes) : Z :=
  let b0 := byte_at b 0 in
  let b1 := byte_at b 1 in
  if (length b =? 16)%nat then
    if (b0 =? 254) && (b1 .& 192 =? 128) then NET_SCOPE_LAN
    else if (b0 =? 254) && (b1 .& 192 =? 192) then NET_SCOPE_LAN
    else if b0 .& 254 =? 252 then NET_SCOPE_LAN
    else NET_SCOPE_GLOBAL
  else if (b0 =? 10) || ((b0 =? 192) && (b1 =? 168)) ||
          ((b0 =? 172) && (16 <=? b1) && (b1 <=? 31)) || ((b0 =? 169) && (b1 =? 254))
  then NET_SCOPE_LAN
  else if (b0 =? 100) && (64 <=? b1) && (b1 <=? 127) then NET_SCOPE_CGNAT
  else NET_SCOPE_GLOBAL.

(** The first index whose entry is [a]. *)
Fixpoint idx_from {A} (key : A -> bytes) (a : bytes) (i : nat) (l : list A) : option nat :=
  match l with
  | [] => None
  | x :: l' => if bytes_eqb (key x) a then Some i else idx_from key a (S i) l'
  end.

Definition local_idx (f : netstate_fam) (a : bytes) : option nat :=
  idx_from l_addr a 0 (f_locals f).

Definition snap_is (af : Z) (a : bytes) (e : netmon_addr) : bool :=
  (nm_family e =? af) && (nm_addrlen e =? length a)%nat && bytes_eqb (take (length a) (nm_addr e)) a.
Definition snap_has (addrs : list netmon_addr) (af : Z) (a : bytes) : bool :=
  existsb (snap_is af a) addrs.

(** [memmove] down over entry [i], the last one cleared. *)
Definition xlat_forget (f : netstate_fam) (a : bytes) : netstate_fam * bool :=
  match idx_from x_addr a 0 (f_xlats f) with
  | Some i => (f <| f_xlats := delete i (f_xlats f) |>, true)
  | None => (f, false)
  end.

(** [for (k = f->nlocals - 1; k >= 0; k--)]; the flag is [LOCAL_LOST]. *)
Fixpoint local_prune (keep : bytes -> bool) (k : nat) (st : list netstate_local * bool) :
  list netstate_local * bool :=
  match k with
  | O => st
  | S k' =>
      let '(ls, lost) := st in
      match ls !! k' with
      | Some l =>
          local_prune keep k' (if keep (l_addr l) then st else (delete k' ls, true))
      | None => st
      end
  end.

(** One entry of the snapshot; the flag is [LOCAL_GAINED]. *)
Definition local_add (af : Z) (len : nat) (st : netstate_fam * bool) (e : netmon_addr) :
  netstate_fam * bool :=
  let '(f, gained) := st in
  if (NETSTATE_LOCAL_MAX <=? length (f_locals f))%nat then st
  else if negb (nm_family e =? af) || negb (nm_addrlen e =? len)%nat then st
  else
    let a := take len (nm_addr e) in
    match local_idx f a with
    | Some _ => st
    | None =>
        let '(f, had) := xlat_forget f a in
        (f <| f_locals := f_locals f ++ [mk_nlocal a (addr_scope_raw a) had] |>, true)
    end.

(** The family, and whether it lost and gained addresses. *)
Definition local_sync (f : netstate_fam) (af : Z) (addrs : list netmon_addr) :
  netstate_fam * bool * bool :=
  let len := if af =? 6 then 16%nat else 4%nat in
  let '(ls, lost) :=
    local_prune (snap_has addrs af) (length (f_locals f)) (f_locals f, false) in
  let '(f, gained) := fold_left (local_add af len) addrs (f <| f_locals := ls |>, false) in
  (f, lost, gained).

Definition proofs_demote (f : netstate_fam) : netstate_fam :=
  f <| f_locals := map (fun l => l <| l_proven := false |>) (f_locals f) |>.

Definition xlat_note (f : netstate_fam) (a : bytes) : netstate_fam * bool :=
  match idx_from x_addr a 0 (f_xlats f) with
  | Some _ => (f, false)
  | None =>
      if (NETSTATE_XLAT_MAX <=? length (f_xlats f))%nat then (f, false)
      else (f <| f_xlats := f_xlats f ++ [mk_nxlat a (addr_scope_raw a)] |>, true)
  end.

(** ** The interfaces moved *)
Definition nfam_init (is_host : bool) (now : Z) : netstate_fam :=
  mk_nfam 1 [] [] 0 0 now 0 false 0 0 false false now 0 [] is_host [] false false false 0 0 0 0 now
    false false false [] [] 0.

Definition netstate_init (is_host : bool) (now : Z) : netstate :=
  mk_netstate (nfam_init is_host now, nfam_init is_host now) is_host.

(** Which way the set moved decides whether this is still the same network. *)
Definition same_network (had lost gained has : bool) : bool :=
  if gained && negb lost then had else if lost && negb gained then has else false.

Definition nonempty {A} (l : list A) : bool := match l with [] => false | _ => true end.

(** What a change of this family's network resets. *)
Definition fam_moved (is_host same was_up : bool) (now : Z) (f : netstate_fam) : netstate_fam :=
  let f := f <| f_epoch := u32 (f_epoch f + 1) |> <| f_src_tries := 0 |> <| f_src_next_ms := now |> in
  let f := if same then f else f <| f_routed := false |> in
  let f := f <| f_anchor_acks := 0 |> <| f_anchor_set_ms := now |> <| f_anchor_first_ms := 0 |>
             <| f_anchor_quiet := 0 |> <| f_anchor_next_ms := now |> <| f_cands := [] |>
             <| f_dht_acked := false |> <| f_concluded := false |> <| f_probe_rounds := 0 |>
             <| f_probe_wanted := false |> <| f_probe_running := false |>
             <| f_probe_next_ms := now |> in
  let f := if negb same then proofs_demote f <| f_xlats := [] |>
           else if was_up then f <| f_up_epoch := f_epoch f |> else f in
  let f := f <| f_conn := conn_of f |> in
  let f := raise_act (NSA_SAMPLE_SRC .| NSA_KICK_PROBE .| NSA_EMIT_ROWS .| NSA_EMIT_CONN) f in
  let f := if nonempty (f_anchor f) then raise_act (NSA_RDV_PIN .| NSA_EMIT_RDV) f else f in
  facts_moved is_host f.

Definition fam_on_netmon (is_host : bool) (i : bool) (changed : Z) (addrs : list netmon_addr)
  (now : Z) (f : netstate_fam) : netstate_fam :=
  let had := nonempty (f_locals f) in
  let '(f, lost, gained) := local_sync f (if i then 6 else 4) addrs in
  let f := if lost || gained then raise_act NSA_EMIT_ROWS f else f in
  let same := same_network had lost gained (nonempty (f_locals f)) in
  let was_up := f_up_epoch f =? f_epoch f in
  let f := if eqb (f_has_addr f) (nonempty (f_locals f)) then f
           else facts_moved is_host (sync_conn (f <| f_has_addr := nonempty (f_locals f) |>)) in
  if truth (changed .& (if i then NETMON_CH_V6 else NETMON_CH_V4))
  then fam_moved is_host same was_up now f else f.

(** An operation on one family. *)
Definition on_fam (ns : netstate) (i : bool) (g : bool -> netstate_fam -> netstate_fam) : netstate :=
  ns <| nst_f := put2 (nst_f ns) i (g (nst_is_host ns) (get2 (nst_f ns) i)) |>.

Definition netstate_on_netmon (ns : netstate) (changed : Z) (addrs : list netmon_addr) (now : Z) :
  netstate :=
  let ns := on_fam ns false (fun h => fam_on_netmon h false changed addrs now) in
  on_fam ns true (fun h => fam_on_netmon h true changed addrs now).

(** ** Facts *)
Definition src_unusable (addr : bytes) : bool :=
  (length addr =? 16)%nat && (byte_at addr 0 =? 254) && (byte_at addr 1 .& 192 =? 128).

Definition src_gap (tries : Z) : Z :=
  if tries <? NETSTATE_SRC_FAST_TRIES then NETSTATE_SRC_FAST_MS else NETSTATE_SRC_SLOW_MS.

Definition fam_on_src (is_host : bool) (epoch : Z) (addr : bytes) (scope : Z)
  (text : option bytes) (now : Z) (f : netstate_fam) : netstate_fam :=
  if negb (epoch =? f_epoch f) then f
  else if negb (nonempty addr) || src_unusable addr then
    let f := f <| f_src_tries := i32 (f_src_tries f + 1) |> in
    let f := f <| f_src_next_ms := u64 (now + src_gap (f_src_tries f)) |> in
    if f_routed f then facts_moved is_host (sync_conn (f <| f_routed := false |>)) else f
  else
    let f := f <| f_src_tries := 0 |> <| f_src_next_ms := u64 (now + NETSTATE_SRC_SLOW_MS) |> in
    let addr := take 16 addr in
    let f :=
      if negb (f_src_epoch f =? f_epoch f) || negb (bytes_eqb (f_src f) addr) then
        f <| f_src := addr |> <| f_src_scope := scope |> <| f_src_epoch := f_epoch f |>
          <| f_src_text := take (NETSTATE_ADDR_MAX - 1) (default [] text) |>
      else f in
    if f_routed f then f
    else facts_moved is_host (sync_conn (f <| f_routed := true |>)).
Definition netstate_on_src (ns : netstate) (family epoch : Z) (addr : bytes) (scope : Z)
  (text : option bytes) (now : Z) : netstate :=
  on_fam ns (fam_idx family) (fun h => fam_on_src h epoch addr scope text now).

Definition fam_on_probe_started (epoch now : Z) (f : netstate_fam) : netstate_fam :=
  if negb (epoch =? f_epoch f) then f
  else
    let f := f <| f_probe_running := true |> <| f_probe_wanted := false |>
               <| f_probe_rounds := i32 (f_probe_rounds f + 1) |> in
    f <| f_probe_next_ms := u64 (now + probe_gap f) |>.
Definition netstate_on_probe_started (ns : netstate) (family epoch now : Z) : netstate :=
  on_fam ns (fam_idx family) (fun _ => fam_on_probe_started epoch now).

Definition fam_on_probe_deferred (epoch : Z) (f : netstate_fam) : netstate_fam :=
  if negb (epoch =? f_epoch f) then f else f <| f_probe_wanted := true |>.
Definition netstate_on_probe_deferred (ns : netstate) (family epoch : Z) : netstate :=
  on_fam ns (fam_idx family) (fun _ => fam_on_probe_deferred epoch).

Definition fam_on_probe_done (epoch now : Z) (f : netstate_fam) : netstate_fam :=
  if negb (epoch =? f_epoch f) then f
  else
    let f := f <| f_probe_running := false |> in
    if f_probe_wanted f then
      raise_act NSA_KICK_PROBE (f <| f_probe_wanted := false |> <| f_probe_next_ms := now |>)
    else if u64 (now + probe_gap f) <? f_probe_next_ms f then
      f <| f_probe_next_ms := u64 (now + probe_gap f) |>
    else f.
Definition netstate_on_probe_done (ns : netstate) (family epoch now : Z) : netstate :=
  on_fam ns (fam_idx family) (fun _ => fam_on_probe_done epoch now).

Definition fam_on_servers (epoch now : Z) (f : netstate_fam) : netstate_fam :=
  if negb (epoch =? f_epoch f) || f_probe_running f then f
  else raise_act NSA_KICK_PROBE (f <| f_probe_next_ms := now |>).
Definition netstate_on_servers (ns : netstate) (family epoch now : Z) : netstate :=
  on_fam ns (fam_idx family) (fun _ => fam_on_servers epoch now).

Definition fam_on_roundtrip (epoch : Z) (f : netstate_fam) : netstate_fam :=
  if negb (epoch =? f_epoch f) then f else sync_conn (f <| f_up_epoch := epoch |>).
Definition netstate_on_roundtrip (ns : netstate) (family epoch : Z) : netstate :=
  on_fam ns (fam_idx family) (fun _ => fam_on_roundtrip epoch).

(** ** The rendezvous node *)

(** Fewer answers, or as many begun later. *)
Definition cand_weaker (a b : netstate_cand) : bool :=
  (c_acks a <? c_acks b) || ((c_acks a =? c_acks b) && (c_first_ms b <? c_first_ms a)).

(** [for (i = 1; i < f->ncands; i++)]: the index and entry of the weakest. *)
Fixpoint cand_worst (i : nat) (worst : nat * netstate_cand) (l : list netstate_cand) :
  nat * netstate_cand :=
  match l with
  | [] => worst
  | c :: l' => cand_worst (S i) (if cand_weaker c (worst.2) then (i, c) else worst) l'
  end.

(** [c->seen_ms = now; if (c->acks < QUALIFY) c->acks++] and the verdict. *)
Definition cand_touch (now : Z) (c : netstate_cand) : netstate_cand :=
  c <| c_seen_ms := now |>
    <| c_acks := if c_acks c <? NETSTATE_ANCHOR_QUALIFY then c_acks c + 1 else c_acks c |>.
Definition cand_qualifies (now : Z) (c : netstate_cand) : bool :=
  (NETSTATE_ANCHOR_QUALIFY <=? c_acks c) && (NETSTATE_ANCHOR_PROVE_MS <=? u64 (now - c_first_ms c)).

Definition cand_ack (f : netstate_fam) (node : bytes) (now : Z) : netstate_fam * bool :=
  let fresh := cand_touch now (mk_ncand node 0 now 0) in
  match idx_from c_addr node 0 (f_cands f) with
  | Some i =>
      match f_cands f !! i with
      | Some c =>
          let c := cand_touch now c in
          (f <| f_cands := <[i := c]> (f_cands f) |>, cand_qualifies now c)
      | None => (f, false)
      end
  | None =>
      if (length (f_cands f) <? NETSTATE_CANDS_MAX)%nat then
        (f <| f_cands := f_cands f ++ [fresh] |>, cand_qualifies now fresh)
      else
        match f_cands f with
        | [] => (f, false)
        | c0 :: l =>
            let '(worst, w) := cand_worst 1 (0%nat, c0) l in
            if NETSTATE_ANCHOR_QUALIFY <=? c_acks w then (f, false)
            else (f <| f_cands := <[worst := fresh]> (f_cands f) |>, cand_qualifies now fresh)
        end
  end.

Definition node_ok (node : bytes) : bool :=
  nonempty node && (length node <=? NETSTATE_SA_MAX)%nat.

Definition anchor_set (f : netstate_fam) (node : bytes) (now : Z) (candidate : bool) (acks : Z) :
  netstate_fam * bool :=
  if negb (node_ok node) then (f, false)
  else if bytes_eqb (f_anchor f) node then (f, false)
  else
    (raise_act (NSA_RDV_PIN .| NSA_EMIT_RDV)
       (f <| f_anchor := node |> <| f_anchor_confirmed := false |> <| f_anchor_vouched := false |>
          <| f_anchor_candidate := candidate |> <| f_anchor_acks := acks |>
          <| f_anchor_set_ms := now |> <| f_anchor_first_ms := if truth acks then now else 0 |>
          <| f_anchor_quiet := 0 |>), true).

Definition anchor_confirm (is_host : bool) (now : Z) (f : netstate_fam) : netstate_fam :=
  if negb (nonempty (f_anchor f)) || f_anchor_confirmed f then f
  else if (f_anchor_acks f <? NETSTATE_ANCHOR_QUALIFY) ||
          (u64 (now - f_anchor_first_ms f) <? NETSTATE_ANCHOR_PROVE_MS) then f
  else facts_moved is_host
         (raise_act NSA_EMIT_RDV (f <| f_anchor_confirmed := true |> <| f_anchor_candidate := false |>)).

(** The node held answered: the end of its silence, and one answer more. *)
Definition anchor_answered (now : Z) (f : netstate_fam) : netstate_fam :=
  let f := f <| f_anchor_quiet := 0 |> in
  let f := if truth (f_anchor_acks f) then f else f <| f_anchor_first_ms := now |> in
  if f_anchor_acks f <? NETSTATE_ANCHOR_QUALIFY
  then f <| f_anchor_acks := f_anchor_acks f + 1 |> else f.

Definition fam_on_dht_ack (is_host : bool) (epoch : Z) (node : bytes) (now : Z) (f : netstate_fam) :
  netstate_fam :=
  if negb (epoch =? f_epoch f) then f
  else
    let f := sync_conn (f <| f_up_epoch := epoch |>) in
    let f := if f_dht_acked f then f else facts_moved is_host (f <| f_dht_acked := true |>) in
    if negb (node_ok node) then f
    else
      let f := f <| f_anchor_next_ms := u64 (now + NETSTATE_RDV_MS) |> in
      if nonempty (f_anchor f) && bytes_eqb (f_anchor f) node then
        anchor_confirm is_host now (anchor_answered now f)
      else if negb (f_picking f) then f
      else
        let '(f, won) := if f_anchor_confirmed f then (f, false) else cand_ack f node now in
        if won then
          let f := (anchor_set f node now false NETSTATE_ANCHOR_QUALIFY).1 in
          facts_moved is_host
            (raise_act NSA_EMIT_RDV (f <| f_anchor_confirmed := true |> <| f_cands := [] |>))
        else if nonempty (f_anchor f) && (f_anchor_quiet f <? NETSTATE_ANCHOR_GONE) then f
        else (anchor_set f node now true 1).1.

Definition netstate_on_dht_ack (ns : netstate) (family epoch : Z) (node : bytes) (now : Z) :
  netstate :=
  on_fam ns (fam_idx family) (fun h => fam_on_dht_ack h epoch node now).

Definition fam_on_anchor_seen (now : Z) (f : netstate_fam) : netstate_fam :=
  if negb (nonempty (f_anchor f)) then f else anchor_answered now f.
Definition netstate_on_anchor_seen (ns : netstate) (family now : Z) : netstate :=
  on_fam ns (fam_idx family) (fun _ => fam_on_anchor_seen now).

Definition fam_on_rdv_offered (node : bytes) (now : Z) (f : netstate_fam) : netstate_fam :=
  (anchor_set f node now false 0).1.
Definition netstate_on_rdv_offered (ns : netstate) (family : Z) (node : bytes) (now : Z) : netstate :=
  on_fam ns (fam_idx family) (fun _ => fam_on_rdv_offered node now).

Definition fam_on_rdv_vouched (is_host : bool) (node : bytes) (now : Z) (f : netstate_fam) :
  netstate_fam :=
  let f := (anchor_set f node now false 0).1 in
  if negb (nonempty (f_anchor f)) || f_anchor_vouched f then f
  else facts_moved is_host
         (raise_act NSA_EMIT_RDV (f <| f_anchor_vouched := true |> <| f_anchor_candidate := false |>)).

Definition netstate_on_rdv_vouched (ns : netstate) (family : Z) (node : bytes) (now : Z) : netstate :=
  on_fam ns (fam_idx family) (fun h => fam_on_rdv_vouched h node now).

Definition fam_set_picking (on : bool) (f : netstate_fam) : netstate_fam :=
  if eqb (f_picking f) on then f
  else let f := f <| f_picking := on |> in if on then f else f <| f_cands := [] |>.
Definition netstate_set_picking (ns : netstate) (family : Z) (on : bool) : netstate :=
  on_fam ns (fam_idx family) (fun _ => fam_set_picking on).

(** A LAN address never enters the proven and unproven distinction. *)
Definition fam_on_reflexive (len : nat) (epoch : Z) (addr : bytes) (f : netstate_fam) : netstate_fam :=
  if negb (epoch =? f_epoch f) || negb (length addr =? len)%nat then f
  else
    match local_idx f addr with
    | Some k =>
        match f_locals f !! k with
        | Some l =>
            if l_proven l || (l_scope l =? NET_SCOPE_LAN) then f
            else raise_act NSA_EMIT_ROWS
                   (f <| f_locals := <[k := l <| l_proven := true |>]> (f_locals f) |>)
        | None => f
        end
    | None =>
        let '(f, noted) := xlat_note f addr in
        if noted then raise_act NSA_EMIT_ROWS f else f
    end.

Definition netstate_on_reflexive (ns : netstate) (family epoch : Z) (addr : bytes) : netstate :=
  on_fam ns (fam_idx family) (fun _ =>
    fam_on_reflexive (if family =? 6 then 16%nat else 4%nat) epoch addr).

Definition fam_on_dht_concluded (is_host : bool) (concluded : bool) (f : netstate_fam) : netstate_fam :=
  if eqb (f_concluded f) concluded then f
  else facts_moved is_host (f <| f_concluded := concluded |>).
Definition netstate_on_dht_concluded (ns : netstate) (family : Z) (concluded : bool) : netstate :=
  on_fam ns (fam_idx family) (fun h => fam_on_dht_concluded h concluded).

Definition cand_drop (is_host : bool) (f : netstate_fam) : netstate_fam :=
  facts_moved is_host
    (raise_act (NSA_EMIT_RDV .| NSA_RDV_DROP)
       (f <| f_anchor := [] |> <| f_anchor_candidate := false |> <| f_anchor_confirmed := false |>
          <| f_anchor_acks := 0 |> <| f_anchor_first_ms := 0 |> <| f_anchor_quiet := 0 |>)).

(** ** The clock *)
Definition tick_src (now : Z) (f : netstate_fam) : netstate_fam :=
  if f_src_next_ms f <=? now then
    raise_act NSA_SAMPLE_SRC f <| f_src_next_ms := u64 (now + src_gap (f_src_tries f)) |>
  else f.

Definition tick_probe (now : Z) (f : netstate_fam) : netstate_fam :=
  if f_has_addr f && negb (f_probe_running f) && (f_probe_next_ms f <=? now) then
    raise_act NSA_KICK_PROBE f <| f_probe_next_ms := u64 (now + probe_gap f) |>
  else f.

(** Only on a network this family has proven is a round left unanswered held
    against the node. *)
Definition tick_quiet (is_host : bool) (now : Z) (f : netstate_fam) : netstate_fam :=
  if nonempty (f_anchor f) && (f_anchor_next_ms f <=? now) then
    let f := f <| f_anchor_next_ms := u64 (now + NETSTATE_RDV_MS) |> in
    if f_conn f =? NET_CONN_UP then
      let f := f <| f_anchor_quiet := i32 (f_anchor_quiet f + 1) |> in
      if NETSTATE_ANCHOR_QUIET <=? f_anchor_quiet f then
        if f_anchor_candidate f then cand_drop is_host f else raise_act NSA_RDV_RELOCATE f
      else f
    else f
  else f.

Definition tick_trial (is_host : bool) (now : Z) (f : netstate_fam) : netstate_fam :=
  if nonempty (f_anchor f) && f_anchor_candidate f &&
     (NETSTATE_ANCHOR_TRY_MS <=? u64 (now - f_anchor_set_ms f))
  then cand_drop is_host f else f.

Definition fam_tick (is_host : bool) (now : Z) (f : netstate_fam) : netstate_fam :=
  tick_trial is_host now (anchor_confirm is_host now
    (tick_quiet is_host now (tick_probe now (tick_src now f)))).

Definition netstate_tick (ns : netstate) (now : Z) : netstate :=
  let ns := on_fam ns false (fun h => fam_tick h now) in
  on_fam ns true (fun h => fam_tick h now).

Definition netstate_resync (ns : netstate) : netstate :=
  let g := fun _ : bool => raise_act (NSA_EMIT_ROWS .| NSA_EMIT_CONN .| NSA_EMIT_RDV) in
  on_fam (on_fam ns false g) true g.

(** ** What is told outside *)
Record netstate_actions := mk_nsactions { na_f : Z * Z; na_epoch : Z * Z }.

Definition netstate_take_actions (ns : netstate) : netstate * netstate_actions * bool :=
  let '(f4, f6) := nst_f ns in
  (ns <| nst_f := (f4 <| f_pend := 0 |>, f6 <| f_pend := 0 |>) |>,
   mk_nsactions (f_pend f4, f_pend f6) (f_epoch f4, f_epoch f6),
   truth (f_pend f4) || truth (f_pend f6)).

Definition fam_of (ns : netstate) (family : Z) : netstate_fam := get2 (nst_f ns) (fam_idx family).

Definition netstate_conn (ns : netstate) (family : Z) : Z := f_conn (fam_of ns family).
Definition netstate_epoch (ns : netstate) (family : Z) : Z := f_epoch (fam_of ns family).

Definition netstate_src_text (ns : netstate) (family : Z) : bytes :=
  let f := fam_of ns family in
  if negb (f_src_epoch f =? f_epoch f) || negb (nonempty (f_src f)) then [] else f_src_text f.

(** The address held, [[]] when it is not of this epoch. *)
Definition netstate_src (ns : netstate) (family : Z) : bytes :=
  let f := fam_of ns family in
  if negb (f_src_epoch f =? f_epoch f) || negb (nonempty (f_src f)) then [] else f_src f.

Definition row_of (a : bytes) (scope via : Z) : netstate_row :=
  mk_nrow (if (length a =? 16)%nat then inet_ntop6 a else inet_ntop4 a) a scope via.

(** The four passes, each stopping where the caller's room ends. *)
Definition rows_all (f : netstate_fam) : list netstate_row :=
  let lrow via l := row_of (l_addr l) (l_scope l) via in
  let lan l := l_scope l =? NET_SCOPE_LAN in
  map (lrow NET_VIA_DIRECT) (List.filter (fun l => negb (lan l) && l_proven l) (f_locals f)) ++
  map (fun x => row_of (x_addr x) (x_scope x) NET_VIA_STUN) (f_xlats f) ++
  map (lrow NET_VIA_DIRECT) (List.filter lan (f_locals f)) ++
  map (lrow NET_VIA_SHADOW) (List.filter (fun l => negb (lan l) && negb (l_proven l)) (f_locals f)).
Definition netstate_rows (ns : netstate) (family : Z) (max : nat) : list netstate_row :=
  take max (rows_all (fam_of ns family)).

Definition netstate_has_local (ns : netstate) (family : Z) (addr : bytes) : bool :=
  bool_decide (is_Some (local_idx (fam_of ns family) addr)).
Definition netstate_has_xlat (ns : netstate) (family : Z) (addr : bytes) : bool :=
  existsb (fun x => bytes_eqb (x_addr x) addr) (f_xlats (fam_of ns family)).

Definition netstate_facts (ns : netstate) (family : Z) : tokgen_facts :=
  let f := fam_of ns family in
  mk_tokgen_facts (f_has_addr f) (f_routed f)
    ((f_anchor_confirmed f && (f_conn f =? NET_CONN_UP)) || f_anchor_vouched f)
    (f_concluded f) false.

Definition netstate_reach (ns : netstate) (family : Z) : Z * bool :=
  let f := fam_of ns family in (f_conn f, f_dht_acked f).

Definition anchor_proven (f : netstate_fam) : bool :=
  f_anchor_confirmed f || (f_anchor_vouched f && negb (f_conn f =? NET_CONN_UP)).

(** Proven, vouched, blind. *)
Definition netstate_anchor_state (ns : netstate) (family : Z) : bool * bool * bool :=
  let f := fam_of ns family in
  (f_anchor_confirmed f, f_anchor_vouched f,
   negb (truth (f_conn f .& (NET_CONN_UP .| NET_CONN_PENDING)))).

Definition netstate_anchor (ns : netstate) (family : Z) : option (bytes * bool) :=
  let f := fam_of ns family in
  if nonempty (f_anchor f) then Some (f_anchor f, anchor_proven f) else None.

(** * Runs

    Everything the outside says to the machine, in the order it says it. *)
Inductive ns_event :=
| NetMon (changed : Z) (addrs : list netmon_addr) (now : Z)
| Src (family epoch : Z) (addr : bytes) (scope : Z) (text : option bytes) (now : Z)
| ProbeStarted (family epoch now : Z)
| ProbeDeferred (family epoch : Z)
| ProbeDone (family epoch now : Z)
| Servers (family epoch now : Z)
| Roundtrip (family epoch : Z)
| DhtAck (family epoch : Z) (node : bytes) (now : Z)
| AnchorSeen (family now : Z)
| RdvOffered (family : Z) (node : bytes) (now : Z)
| RdvVouched (family : Z) (node : bytes) (now : Z)
| SetPicking (family : Z) (on : bool)
| Reflexive (family epoch : Z) (addr : bytes)
| DhtConcluded (family : Z) (concluded : bool)
| NsTick (now : Z)
| Resync
| TakeActions.

Definition netstate_step (ns : netstate) (e : ns_event) : netstate :=
  match e with
  | NetMon changed addrs now => netstate_on_netmon ns changed addrs now
  | Src family epoch addr scope text now => netstate_on_src ns family epoch addr scope text now
  | ProbeStarted family epoch now => netstate_on_probe_started ns family epoch now
  | ProbeDeferred family epoch => netstate_on_probe_deferred ns family epoch
  | ProbeDone family epoch now => netstate_on_probe_done ns family epoch now
  | Servers family epoch now => netstate_on_servers ns family epoch now
  | Roundtrip family epoch => netstate_on_roundtrip ns family epoch
  | DhtAck family epoch node now => netstate_on_dht_ack ns family epoch node now
  | AnchorSeen family now => netstate_on_anchor_seen ns family now
  | RdvOffered family node now => netstate_on_rdv_offered ns family node now
  | RdvVouched family node now => netstate_on_rdv_vouched ns family node now
  | SetPicking family on => netstate_set_picking ns family on
  | Reflexive family epoch addr => netstate_on_reflexive ns family epoch addr
  | DhtConcluded family concluded => netstate_on_dht_concluded ns family concluded
  | NsTick now => netstate_tick ns now
  | Resync => netstate_resync ns
  | TakeActions => (netstate_take_actions ns).1.1
  end.

Definition netstate_run (ns : netstate) (es : list ns_event) : netstate :=
  fold_left netstate_step es ns.

(** The same, seen from one family: the families never touch each other. *)
Definition for_fam (i : bool) (family : Z) (g : netstate_fam -> netstate_fam) (f : netstate_fam) :
  netstate_fam := if eqb (fam_idx family) i then g f else f.

Definition fam_step (h i : bool) (f : netstate_fam) (e : ns_event) : netstate_fam :=
  match e with
  | NetMon changed addrs now => fam_on_netmon h i changed addrs now f
  | Src family epoch addr scope text now =>
      for_fam i family (fam_on_src h epoch addr scope text now) f
  | ProbeStarted family epoch now => for_fam i family (fam_on_probe_started epoch now) f
  | ProbeDeferred family epoch => for_fam i family (fam_on_probe_deferred epoch) f
  | ProbeDone family epoch now => for_fam i family (fam_on_probe_done epoch now) f
  | Servers family epoch now => for_fam i family (fam_on_servers epoch now) f
  | Roundtrip family epoch => for_fam i family (fam_on_roundtrip epoch) f
  | DhtAck family epoch node now => for_fam i family (fam_on_dht_ack h epoch node now) f
  | AnchorSeen family now => for_fam i family (fam_on_anchor_seen now) f
  | RdvOffered family node now => for_fam i family (fam_on_rdv_offered node now) f
  | RdvVouched family node now => for_fam i family (fam_on_rdv_vouched h node now) f
  | SetPicking family on => for_fam i family (fam_set_picking on) f
  | Reflexive family epoch addr =>
      for_fam i family (fam_on_reflexive (if family =? 6 then 16%nat else 4%nat) epoch addr) f
  | DhtConcluded family concluded => for_fam i family (fam_on_dht_concluded h concluded) f
  | NsTick now => fam_tick h now f
  | Resync => raise_act (NSA_EMIT_ROWS .| NSA_EMIT_CONN .| NSA_EMIT_RDV) f
  | TakeActions => f <| f_pend := 0 |>
  end.

Lemma step_fam ns e i :
  get2 (nst_f (netstate_step ns e)) i = fam_step (nst_is_host ns) i (get2 (nst_f ns) i) e.
Proof.
  destruct ns as [[f4 f6] h]. destruct e, i; cbn; unfold for_fam;
    first [reflexivity | destruct (fam_idx _); reflexivity].
Qed.

Lemma step_is_host ns e : nst_is_host (netstate_step ns e) = nst_is_host ns.
Proof. destruct ns as [[f4 f6] h], e; reflexivity. Qed.

Lemma run_snoc ns es e : netstate_run ns (es ++ [e]) = netstate_step (netstate_run ns es) e.
Proof. unfold netstate_run. by rewrite fold_left_app. Qed.

Lemma run_is_host ns es : nst_is_host (netstate_run ns es) = nst_is_host ns.
Proof. induction es as [|e es IH] using rev_ind; [done|]. by rewrite run_snoc, step_is_host. Qed.

(** The family [i] of a machine started at [now0] and told [es]. *)
Definition fam_at (h : bool) (now0 : Z) (i : bool) (es : list ns_event) : netstate_fam :=
  get2 (nst_f (netstate_run (netstate_init h now0) es)) i.

Lemma fam_at_nil h now0 i : fam_at h now0 i [] = nfam_init h now0.
Proof. by destruct i. Qed.
Lemma fam_at_snoc h now0 i es e :
  fam_at h now0 i (es ++ [e]) = fam_step h i (fam_at h now0 i es) e.
Proof. unfold fam_at. by rewrite run_snoc, step_fam, run_is_host. Qed.

(** An invariant of one family is kept by a run when every step keeps it. *)
Lemma fam_invariant (h i : bool) (P : netstate_fam -> Prop) now0 :
  P (nfam_init h now0) -> (forall f e, P f -> P (fam_step h i f e)) ->
  forall es, P (fam_at h now0 i es).
Proof.
  intros H0 Hs es. induction es as [|e es IH] using rev_ind; [by rewrite fam_at_nil|].
  rewrite fam_at_snoc. by apply Hs.
Qed.

(** Case analysis on the guards of a family's operation. *)
Ltac fam_unfold :=
  unfold fam_step, for_fam, fam_on_src, fam_on_probe_started, fam_on_probe_deferred,
    fam_on_probe_done, fam_on_servers, fam_on_roundtrip, fam_on_anchor_seen, fam_on_rdv_offered,
    fam_on_rdv_vouched, fam_set_picking, fam_on_dht_concluded, fam_tick, tick_src, tick_probe,
    fam_on_reflexive, xlat_note, facts_moved, raise_act, sync_conn.
Ltac fam_cases :=
  repeat match goal with
  | |- context [if ?b then _ else _] => destruct b eqn:?; cbn [fst snd set]
  | |- context [match ?x with Some _ => _ | None => _ end] => destruct x eqn:?; cbn [fst snd set]
  end.

(** ** What an operation leaves alone

    Three views of a family: what its connectivity, its addresses and its anchor
    are decided from. *)
Definition conn_view (f : netstate_fam) : bool * Z * Z * bool * Z :=
  (f_has_addr f, f_up_epoch f, f_epoch f, f_routed f, f_conn f).
Definition addr_view (f : netstate_fam) : list netstate_local * list netstate_xlat :=
  (f_locals f, f_xlats f).
Definition anch_view (f : netstate_fam) :
  bytes * bool * list netstate_cand * (bool * bool * bool) * (Z * Z) * (Z * Z * Z) :=
  (f_anchor f, f_picking f, f_cands f,
   (f_anchor_confirmed f, f_anchor_vouched f, f_anchor_candidate f),
   (f_anchor_acks f, f_anchor_quiet f),
   (f_anchor_set_ms f, f_anchor_first_ms f, f_anchor_next_ms f)).

Ltac frame := repeat split; fam_unfold; fam_cases; reflexivity.

Lemma raise_views b f :
  conn_view (raise_act b f) = conn_view f /\ addr_view (raise_act b f) = addr_view f /\
  anch_view (raise_act b f) = anch_view f.
Proof. frame. Qed.
Lemma facts_views h f :
  conn_view (facts_moved h f) = conn_view f /\ addr_view (facts_moved h f) = addr_view f /\
  anch_view (facts_moved h f) = anch_view f.
Proof. frame. Qed.
Lemma sync_views f :
  addr_view (sync_conn f) = addr_view f /\ anch_view (sync_conn f) = anch_view f.
Proof. frame. Qed.
Lemma tick_src_views now f :
  conn_view (tick_src now f) = conn_view f /\ addr_view (tick_src now f) = addr_view f /\
  anch_view (tick_src now f) = anch_view f.
Proof. frame. Qed.
Lemma tick_probe_views now f :
  conn_view (tick_probe now f) = conn_view f /\ addr_view (tick_probe now f) = addr_view f /\
  anch_view (tick_probe now f) = anch_view f.
Proof. frame. Qed.
Lemma anchor_set_views f node now c k :
  conn_view (anchor_set f node now c k).1 = conn_view f /\
  addr_view (anchor_set f node now c k).1 = addr_view f.
Proof. unfold anchor_set. frame. Qed.
Lemma anchor_confirm_views h now f :
  conn_view (anchor_confirm h now f) = conn_view f /\
  addr_view (anchor_confirm h now f) = addr_view f.
Proof. unfold anchor_confirm. frame. Qed.
Lemma anchor_answered_views now f :
  conn_view (anchor_answered now f) = conn_view f /\
  addr_view (anchor_answered now f) = addr_view f.
Proof. unfold anchor_answered. frame. Qed.
Lemma cand_drop_views h f :
  conn_view (cand_drop h f) = conn_view f /\ addr_view (cand_drop h f) = addr_view f.
Proof. unfold cand_drop. frame. Qed.
Lemma cand_ack_views f node now :
  conn_view (cand_ack f node now).1 = conn_view f /\
  addr_view (cand_ack f node now).1 = addr_view f.
Proof.
  unfold cand_ack. fam_cases; try done.
  destruct (f_cands f) as [|c0 l]; [done|]. destruct (cand_worst 1 (0%nat, c0) l) as [w c].
  by fam_cases.
Qed.
Lemma tick_quiet_views h now f :
  conn_view (tick_quiet h now f) = conn_view f /\ addr_view (tick_quiet h now f) = addr_view f.
Proof. unfold tick_quiet, cand_drop. frame. Qed.
Lemma tick_trial_views h now f :
  conn_view (tick_trial h now f) = conn_view f /\ addr_view (tick_trial h now f) = addr_view f.
Proof. unfold tick_trial. destruct (_ && _); [apply cand_drop_views | done]. Qed.

Lemma fam_tick_views h now f :
  conn_view (fam_tick h now f) = conn_view f /\ addr_view (fam_tick h now f) = addr_view f.
Proof.
  unfold fam_tick.
  destruct (tick_trial_views h now (anchor_confirm h now
    (tick_quiet h now (tick_probe now (tick_src now f))))) as [-> ->].
  destruct (anchor_confirm_views h now (tick_quiet h now (tick_probe now (tick_src now f)))) as [-> ->].
  destruct (tick_quiet_views h now (tick_probe now (tick_src now f))) as [-> ->].
  destruct (tick_probe_views now (tick_src now f)) as (-> & -> & _).
  destruct (tick_src_views now f) as (-> & -> & _). done.
Qed.

Lemma xlat_forget_views f a :
  conn_view (xlat_forget f a).1 = conn_view f /\ anch_view (xlat_forget f a).1 = anch_view f /\
  f_locals (xlat_forget f a).1 = f_locals f.
Proof. unfold xlat_forget. by fam_cases. Qed.

Lemma local_add_views af len st e :
  conn_view (local_add af len st e).1 = conn_view st.1 /\
  anch_view (local_add af len st e).1 = anch_view st.1.
Proof.
  destruct st as [f g]. unfold local_add. fam_cases; try done.
  pose proof (xlat_forget_views f (take len (nm_addr e))) as (Hc & Ha & _).
  destruct (xlat_forget f (take len (nm_addr e))) as [f' had]. done.
Qed.

Lemma local_sync_views f af addrs :
  conn_view (local_sync f af addrs).1.1 = conn_view f /\
  anch_view (local_sync f af addrs).1.1 = anch_view f.
Proof.
  unfold local_sync.
  destruct (local_prune (snap_has addrs af) (length (f_locals f)) (f_locals f, false)) as [ls lost].
  assert (H : forall st, conn_view (fold_left (local_add af (if af =? 6 then 16%nat else 4%nat)) addrs st).1
     = conn_view st.1 /\
     anch_view (fold_left (local_add af (if af =? 6 then 16%nat else 4%nat)) addrs st).1 = anch_view st.1).
  { induction addrs as [|e l IH]; intros st; [done|]. cbn [fold_left].
    destruct (IH (local_add af (if af =? 6 then 16%nat else 4%nat) st e)) as [-> ->].
    apply local_add_views. }
  specialize (H (f <| f_locals := ls |>, false)).
  destruct (fold_left _ _ _) as [f' g]. exact H.
Qed.

(** ** Connectivity *)
Definition conn_ok (f : netstate_fam) : Prop := f_conn f = conn_of f.

Lemma conn_ok_view f g : conn_view f = conn_view g -> conn_ok f -> conn_ok g.
Proof. unfold conn_view, conn_ok, conn_of. intros [= -> -> -> -> ->]. done. Qed.

Lemma sync_conn_ok f : conn_ok (sync_conn f).
Proof.
  unfold sync_conn. destruct (Z.eqb_spec (conn_of f) (f_conn f)) as [E|E]; [by symmetry|].
  reflexivity.
Qed.

Lemma facts_conn_ok h f : conn_ok f -> conn_ok (facts_moved h f).
Proof. apply conn_ok_view. by destruct (facts_views h f) as (-> & _). Qed.

Lemma fam_moved_conn_ok h same up now f : conn_ok (fam_moved h same up now f).
Proof.
  unfold fam_moved. apply facts_conn_ok. set (g := _ <| f_conn := _ |>).
  assert (H : conn_ok g) by reflexivity. clearbody g.
  destruct (nonempty _); exact H.
Qed.

Lemma fam_on_netmon_conn_ok h i changed addrs now f :
  conn_ok f -> conn_ok (fam_on_netmon h i changed addrs now f).
Proof.
  intros Hf. unfold fam_on_netmon.
  pose proof (local_sync_views f (if i then 6 else 4) addrs) as [Hc _].
  destruct (local_sync f _ addrs) as [[g lost] gained]. cbn [fst] in Hc.
  apply (conn_ok_view _ g) in Hf; [|done].
  destruct (truth _); [apply fam_moved_conn_ok|].
  destruct (eqb _ _); [|apply facts_conn_ok, sync_conn_ok].
  by destruct (lost || gained).
Qed.

Lemma fam_on_dht_ack_conn_ok h epoch node now f :
  conn_ok f -> conn_ok (fam_on_dht_ack h epoch node now f).
Proof.
  intros Hf. unfold fam_on_dht_ack. destruct (negb (epoch =? f_epoch f)); [done|].
  pose proof (sync_conn_ok (f <| f_up_epoch := epoch |>)) as Hs.
  set (s := sync_conn _) in *. clearbody s. clear f Hf.
  assert (Hg : conn_ok (if f_dht_acked s then s else facts_moved h (s <| f_dht_acked := true |>))).
  { destruct (f_dht_acked s); [done|]. by apply facts_conn_ok. }
  set (g := if f_dht_acked s then _ else _) in *. clearbody g. clear s Hs.
  destruct (negb (node_ok node)); [done|].
  assert (Hk : conn_ok (g <| f_anchor_next_ms := u64 (now + NETSTATE_RDV_MS) |>)) by done.
  set (k := g <| f_anchor_next_ms := _ |>) in *. clearbody k. clear g Hg.
  destruct (_ && _).
  { eapply conn_ok_view; [|exact Hk].
    destruct (anchor_confirm_views h now (anchor_answered now k)) as [-> _].
    by destruct (anchor_answered_views now k) as [-> _]. }
  destruct (negb (f_picking k)); [done|].
  assert (Hw : conn_ok (if f_anchor_confirmed k then (k, false) else cand_ack k node now).1).
  { destruct (f_anchor_confirmed k); [done|]. eapply conn_ok_view; [|exact Hk].
    by destruct (cand_ack_views k node now) as [-> _]. }
  destruct (if f_anchor_confirmed k then _ else _) as [m won]. cbn [fst] in Hw.
  assert (Hset : forall c a, conn_ok (anchor_set m node now c a).1).
  { intros c a. eapply conn_ok_view; [|exact Hw].
    by destruct (anchor_set_views m node now c a) as [-> _]. }
  destruct won; [apply facts_conn_ok; exact (Hset false NETSTATE_ANCHOR_QUALIFY)|].
  destruct (_ && _); [done|]. apply Hset.
Qed.

Lemma fam_step_conn_ok h i f e : conn_ok f -> conn_ok (fam_step h i f e).
Proof.
  intros Hf. destruct e; cbn [fam_step]; unfold for_fam; try (destruct (eqb _ i); [|done]).
  - by apply fam_on_netmon_conn_ok.
  - unfold fam_on_src. destruct (negb (epoch =? f_epoch f)); [done|].
    repeat match goal with |- conn_ok (if ?b then _ else _) => destruct b eqn:? end;
      try (apply facts_conn_ok, sync_conn_ok); try exact Hf.
  - unfold fam_on_probe_started. by destruct (negb _).
  - unfold fam_on_probe_deferred. by destruct (negb _).
  - unfold fam_on_probe_done. fam_cases; done.
  - unfold fam_on_servers. fam_cases; done.
  - unfold fam_on_roundtrip. destruct (negb _); [done|]. apply sync_conn_ok.
  - by apply fam_on_dht_ack_conn_ok.
  - unfold fam_on_anchor_seen. destruct (negb _); [done|]. eapply conn_ok_view; [|exact Hf].
    by destruct (anchor_answered_views now f) as [-> _].
  - unfold fam_on_rdv_offered. eapply conn_ok_view; [|exact Hf].
    by destruct (anchor_set_views f node now false 0) as [-> _].
  - unfold fam_on_rdv_vouched. pose proof (anchor_set_views f node now false 0) as [Hc _].
    symmetry in Hc. apply (conn_ok_view f) in Hc; [|done].
    destruct (_ || _); [done|]. by apply facts_conn_ok.
  - unfold fam_set_picking. fam_cases; done.
  - unfold fam_on_reflexive, xlat_note. fam_cases; done.
  - unfold fam_on_dht_concluded. destruct (eqb _ _); [done|]. by apply facts_conn_ok.
  - eapply conn_ok_view; [|exact Hf]. by destruct (fam_tick_views h now f) as [-> _].
  - done.
  - done.
Qed.

(** What is said about the family's network: an exchange completed on it, a
    change of it, and a change to another one. *)
Definition completes (i : bool) (f : netstate_fam) (e : ns_event) : bool :=
  match e with
  | Roundtrip family epoch => eqb (fam_idx family) i && (epoch =? f_epoch f)
  | DhtAck family epoch _ _ => eqb (fam_idx family) i && (epoch =? f_epoch f)
  | _ => false
  end.
Definition moves (i : bool) (e : ns_event) : bool :=
  match e with
  | NetMon changed _ _ => truth (changed .& (if i then NETMON_CH_V6 else NETMON_CH_V4))
  | _ => false
  end.
Definition stays (i : bool) (f : netstate_fam) (e : ns_event) : bool :=
  match e with
  | NetMon _ addrs _ =>
      let '(g, lost, gained) := local_sync f (if i then 6 else 4) addrs in
      same_network (nonempty (f_locals f)) lost gained (nonempty (f_locals g))
  | _ => true
  end.
Definition leaves (i : bool) (f : netstate_fam) (e : ns_event) : bool :=
  moves i e && negb (stays i f e).

Definition up_view (f : netstate_fam) : Z * Z := (f_epoch f, f_up_epoch f).
Lemma conn_up_view f g : conn_view f = conn_view g -> up_view f = up_view g.
Proof. unfold conn_view, up_view. by intros [= _ -> -> _ _]. Qed.
Lemma sync_up_view f : up_view (sync_conn f) = up_view f.
Proof. frame. Qed.
Lemma facts_up_view h f : up_view (facts_moved h f) = up_view f.
Proof. frame. Qed.

Lemma fam_moved_up_view h same up now f :
  up_view (fam_moved h same up now f)
  = (u32 (f_epoch f + 1), if same && up then u32 (f_epoch f + 1) else f_up_epoch f).
Proof.
  unfold fam_moved. rewrite facts_up_view. by destruct (nonempty _), same, up.
Qed.

Lemma netmon_up_view h i changed addrs now f :
  let e := NetMon changed addrs now in
  up_view (fam_on_netmon h i changed addrs now f)
  = if moves i e then
      (u32 (f_epoch f + 1),
       if stays i f e && (f_up_epoch f =? f_epoch f) then u32 (f_epoch f + 1) else f_up_epoch f)
    else up_view f.
Proof.
  cbn [moves stays]. unfold fam_on_netmon.
  pose proof (local_sync_views f (if i then 6 else 4) addrs) as [Hc _].
  destruct (local_sync f _ addrs) as [[g lost] gained]. cbn [fst] in Hc.
  apply conn_up_view in Hc. unfold up_view in *. injection Hc as He Hu.
  set (g1 := if lost || gained then _ else g).
  assert (Hg1 : f_locals g1 = f_locals g /\ f_epoch g1 = f_epoch f /\ f_up_epoch g1 = f_up_epoch f).
  { unfold g1. destruct (lost || gained); cbn; auto. }
  destruct Hg1 as (-> & He1 & Hu1). rewrite He1, Hu1. clearbody g1.
  set (g2 := if eqb _ _ then g1 else _).
  assert (Hg2 : up_view g2 = up_view g1).
  { unfold g2. destruct (eqb _ _); [done|]. by rewrite facts_up_view, sync_up_view. }
  clearbody g2. unfold up_view in Hg2. injection Hg2 as He2 Hu2. rewrite He1 in He2. rewrite Hu1 in Hu2.
  destruct (truth _); [|by rewrite He2, Hu2].
  pose proof (fam_moved_up_view h
    (same_network (nonempty (f_locals f)) lost gained (nonempty (f_locals g)))
    (f_up_epoch f =? f_epoch f) now g2) as H.
  unfold up_view in H. by rewrite H, He2, Hu2.
Qed.

Lemma dht_ack_up_view h epoch node now f :
  up_view (fam_on_dht_ack h epoch node now f)
  = if epoch =? f_epoch f then (f_epoch f, f_epoch f) else up_view f.
Proof.
  unfold fam_on_dht_ack. destruct (Z.eqb_spec epoch (f_epoch f)) as [->|]; [|done]. cbn [negb].
  pose proof (sync_up_view (f <| f_up_epoch := f_epoch f |>)) as Hs.
  change (up_view (f <| f_up_epoch := f_epoch f |>)) with (f_epoch f, f_epoch f) in Hs.
  rewrite <- Hs. set (s := sync_conn _). clearbody s. clear f Hs.
  set (g := if f_dht_acked s then _ else _).
  assert (Hg : up_view g = up_view s).
  { unfold g. destruct (f_dht_acked s); [done|]. by rewrite facts_up_view. }
  rewrite <- Hg. clearbody g. clear s Hg. destruct (negb (node_ok node)); [done|].
  change (up_view g) with (up_view (g <| f_anchor_next_ms := u64 (now + NETSTATE_RDV_MS) |>)).
  set (k := g <| f_anchor_next_ms := _ |>). clearbody k. clear g.
  destruct (_ && _).
  { apply conn_up_view. destruct (anchor_confirm_views h now (anchor_answered now k)) as [-> _].
    by destruct (anchor_answered_views now k) as [-> _]. }
  destruct (negb (f_picking k)); [done|].
  assert (Hw : up_view (if f_anchor_confirmed k then (k, false) else cand_ack k node now).1 = up_view k).
  { destruct (f_anchor_confirmed k); [done|]. apply conn_up_view, cand_ack_views. }
  destruct (if f_anchor_confirmed k then _ else _) as [m won]. cbn [fst] in Hw. rewrite <- Hw.
  assert (Hset : forall c a, up_view (anchor_set m node now c a).1 = up_view m).
  { intros c a. apply conn_up_view, anchor_set_views. }
  destruct won; [rewrite facts_up_view; exact (Hset false NETSTATE_ANCHOR_QUALIFY)|].
  destruct (_ && _); [done|]. apply Hset.
Qed.

(** How the two epochs of a family change. *)
Lemma fam_step_up_view h i f e :
  up_view (fam_step h i f e)
  = if completes i f e then (f_epoch f, f_epoch f)
    else if moves i e then
      (u32 (f_epoch f + 1),
       if stays i f e && (f_up_epoch f =? f_epoch f) then u32 (f_epoch f + 1) else f_up_epoch f)
    else up_view f.
Proof.
  destruct e; cbn [fam_step completes moves]; unfold for_fam;
    try (destruct (eqb _ i); [cbn [andb]|done]).
  - apply netmon_up_view.
  - unfold fam_on_src. destruct (negb (epoch =? _)); [done|].
    destruct (_ || _).
    { destruct (f_routed _); [by rewrite facts_up_view, sync_up_view | done]. }
    set (k := if _ || _ then _ else _). assert (Hk : up_view k = up_view f).
    { unfold k. by destruct (_ || _). }
    clearbody k. destruct (f_routed k); [done|]. by rewrite facts_up_view, sync_up_view, <- Hk.
  - unfold fam_on_probe_started. by destruct (negb _).
  - unfold fam_on_probe_deferred. by destruct (negb _).
  - unfold fam_on_probe_done. by fam_cases.
  - unfold fam_on_servers. by fam_cases.
  - unfold fam_on_roundtrip. destruct (Z.eqb_spec epoch (f_epoch f)) as [->|]; [|done].
    cbn [negb]. by rewrite sync_up_view.
  - apply dht_ack_up_view.
  - unfold fam_on_anchor_seen. destruct (negb _); [done|]. apply conn_up_view, anchor_answered_views.
  - apply conn_up_view, anchor_set_views.
  - unfold fam_on_rdv_vouched. pose proof (anchor_set_views f node now false 0) as [Hc _].
    apply conn_up_view in Hc. destruct (_ || _); [done|]. by rewrite facts_up_view.
  - unfold fam_set_picking. by fam_cases.
  - unfold fam_on_reflexive, xlat_note. by fam_cases.
  - unfold fam_on_dht_concluded. destruct (eqb _ _); [done|]. by rewrite facts_up_view.
  - apply conn_up_view, fam_tick_views.
  - done.
  - done.
Qed.

(** The exchange that proved the network a family is on now: nothing since has
    taken it to another one. *)
Definition proven_here (h : bool) (now0 : Z) (i : bool) (es : list ns_event) : Prop :=
  exists es1 e es2, es = es1 ++ e :: es2 /\ completes i (fam_at h now0 i es1) e = true /\
    forall es3 e' es4, es2 = es3 ++ e' :: es4 ->
      leaves i (fam_at h now0 i (es1 ++ e :: es3)) e' = false.

Lemma proven_here_now h now0 i es e :
  completes i (fam_at h now0 i es) e = true -> proven_here h now0 i (es ++ [e]).
Proof.
  intros H. exists es, e, []. split; [done|]. split; [done|]. intros [|? ?] e' es4; discriminate.
Qed.

Lemma proven_here_keeps h now0 i es e :
  proven_here h now0 i es -> leaves i (fam_at h now0 i es) e = false ->
  proven_here h now0 i (es ++ [e]).
Proof.
  intros (es1 & e1 & es2 & -> & Hc & Hl) He. exists es1, e1, (es2 ++ [e]).
  split; [by rewrite <- app_assoc|]. split; [done|]. intros es3 e' es4 H.
  destruct es4 as [|x es4 _] using rev_ind.
  - apply app_inj_tail in H as [-> ->]. done.
  - apply (Hl es3 e' es4). rewrite app_comm_cons, app_assoc in H. by apply app_inj_tail in H as [-> _].
Qed.

Definition move_count (i : bool) (es : list ns_event) : Z :=
  Z.of_nat (length (List.filter (moves i) es)).

(** The epoch counts the moves, and the epoch of the last proof is not ahead. *)
Lemma epoch_counts h now0 i es :
  move_count i es < 2 ^ 32 - 1 ->
  f_epoch (fam_at h now0 i es) = 1 + move_count i es /\
  0 <= f_up_epoch (fam_at h now0 i es) <= f_epoch (fam_at h now0 i es) /\
  (f_up_epoch (fam_at h now0 i es) = f_epoch (fam_at h now0 i es) -> proven_here h now0 i es).
Proof.
  induction es as [|e es IH] using rev_ind; intros Hn.
  { rewrite fam_at_nil. unfold move_count. cbn. split; [lia|]. split; [lia|]. intros; lia. }
  unfold move_count in *. rewrite List.filter_app, length_app, Nat2Z.inj_add in *. cbn [List.filter] in *.
  specialize (IH ltac:(destruct (moves i e); cbn [length] in Hn; lia)) as (IHe & IHu & IHp).
  rewrite fam_at_snoc. pose proof (fam_step_up_view h i (fam_at h now0 i es) e) as H.
  pose proof (proven_here_now h now0 i es e) as Hnow.
  pose proof (proven_here_keeps h now0 i es e) as Hkeep. unfold leaves in Hkeep.
  unfold up_view in H.
  assert (Hcm : completes i (fam_at h now0 i es) e = true -> moves i e = false) by (by destruct e).
  destruct (completes i (fam_at h now0 i es) e) eqn:Hc.
  { injection H as -> ->. rewrite (Hcm eq_refl) in *. cbn [length] in *. split; [lia|]. split; [lia|].
    intros _. by apply Hnow. }
  destruct (moves i e) eqn:Hm; cbn [length andb] in *.
  - injection H as -> ->. rewrite u32_id by (unfold is_u32; lia). split; [lia|].
    destruct (stays i (fam_at h now0 i es) e); cbn [andb].
    + destruct (Z.eqb_spec (f_up_epoch (fam_at h now0 i es)) (f_epoch (fam_at h now0 i es)));
        (split; [lia|]); intros Hup; [apply Hkeep; auto | lia].
    + split; lia.
  - injection H as -> ->. split; [lia|]. split; [lia|]. intros Hup. apply Hkeep; auto.
Qed.

(** A family is reported up only on proof from the network it is on: in any
    run, with fewer than 2^32 - 1 changes of its network, a family whose
    connectivity is UP holds an address, and an exchange stamped with the epoch
    of the moment completed after which nothing took the family to another
    network, changes that keep part of the address set being the same network. *)
Theorem conn_up_proven h now0 i es :
  move_count i es < 2 ^ 32 - 1 ->
  netstate_conn (netstate_run (netstate_init h now0) es) (if i then 6 else 4) = NET_CONN_UP ->
  f_has_addr (fam_at h now0 i es) = true /\ proven_here h now0 i es.
Proof.
  intros Hn Hup.
  assert (Hf : f_conn (fam_at h now0 i es) = NET_CONN_UP) by (by destruct i).
  pose proof (fam_invariant h i conn_ok now0 eq_refl (fam_step_conn_ok h i) es) as Hok.
  unfold conn_ok, conn_of in Hok. rewrite Hf in Hok.
  destruct (epoch_counts h now0 i es Hn) as (_ & _ & Hp).
  destruct (f_has_addr _); [|done]. cbn [negb] in Hok. split; [done|]. apply Hp.
  destruct (Z.eqb_spec (f_up_epoch (fam_at h now0 i es)) (f_epoch (fam_at h now0 i es))) as [E|E];
    [done|]. by destruct (f_routed _).
Qed.

(** A machine given one address, on a network it had not seen. *)
Definition demo_addr : netmon_addr := mk_nmaddr 4 ([192; 0; 2; 1] ++ replicate 12 0) 4.
Definition demo_up : list ns_event := [NetMon 1 [demo_addr] 1000].

Lemma conn_up_proven_witness :
  f_has_addr (fam_at true 0 false (demo_up ++ [Roundtrip 4 2])) = true /\
  proven_here true 0 false (demo_up ++ [Roundtrip 4 2]).
Proof. apply conn_up_proven; reflexivity. Defined.
