(* ===== verification/NetAddrs.v ===== *)
(** src/src/netstate.c, the two address sets of a family: what the kernel reports
    and what the world saw that no interface has.  They stay bounded, without
    repetition and disjoint, and the kernel's word alone decides in which of
    them an address is. *)
From S2P Require Import Prelude Net Token NsFacts Netstate.

(** ** Finding an entry *)
Lemma idx_from_Some {A} (key : A -> bytes) a l i k :
  idx_from key a i l = Some k -> exists j x, k = (i + j)%nat /\ l !! j = Some x /\ key x = a.
Proof.
  revert i. induction l as [|x l IH]; intros i H; cbn in H; [done|].
  unfold bytes_eqb in H. case_bool_decide.
  - injection H as <-. exists 0%nat, x. split; [lia | done].
  - apply IH in H as (j & y & -> & ? & ?). exists (S j), y. split; [lia | done].
Qed.

Lemma idx_from_None {A} (key : A -> bytes) a l i :
  idx_from key a i l = None <-> a ∉ map key l.
Proof.
  revert i. induction l as [|x l IH]; intros i; cbn; [set_solver|].
  unfold bytes_eqb. case_bool_decide; [set_solver|]. rewrite IH. set_solver.
Qed.

Lemma local_idx_Some f a k :
  local_idx f a = Some k -> exists l, f_locals f !! k = Some l /\ l_addr l = a.
Proof. intros H. apply idx_from_Some in H as (j & x & -> & ? & ?). eauto. Qed.

Lemma local_idx_None f a : local_idx f a = None <-> a ∉ map l_addr (f_locals f).
Proof. apply idx_from_None. Qed.

(** ** The invariant *)
Definition fam_len (i : bool) : nat := if i then 16%nat else 4%nat.
Definition held (f : netstate_fam) : list bytes := map l_addr (f_locals f) ++ map x_addr (f_xlats f).

Record addrs_ok (i : bool) (f : netstate_fam) : Prop := mk_addrs_ok {
  ao_locals : (length (f_locals f) <= NETSTATE_LOCAL_MAX)%nat;
  ao_xlats : (length (f_xlats f) <= NETSTATE_XLAT_MAX)%nat;
  ao_nodup : NoDup (held f);
  ao_lscope : Forall (fun l => l_scope l = addr_scope_raw (l_addr l)) (f_locals f);
  ao_xscope : Forall (fun x => x_scope x = addr_scope_raw (x_addr x)) (f_xlats f);
  ao_len : Forall (fun a => length a = fam_len i) (held f)
}.

Lemma addrs_ok_view i f g : addr_view f = addr_view g -> addrs_ok i f -> addrs_ok i g.
Proof.
  unfold addr_view. intros [= Hl Hx] [? ? ? ? ? ?]. unfold held in *. rewrite Hl, Hx in *.
  split; unfold held; done.
Qed.

(** ** Following the kernel *)
Lemma local_prune_filter keep k ls lost :
  (k <= length ls)%nat ->
  (local_prune keep k (ls, lost)).1
  = List.filter (fun l => keep (l_addr l)) (take k ls) ++ drop k ls.
Proof.
  revert ls lost. induction k as [|k IH]; intros ls lost Hk; [done|]. cbn [local_prune].
  destruct (ls !! k) as [l|] eqn:E; [|apply lookup_ge_None in E; lia].
  rewrite (take_S_r _ _ _ E), List.filter_app. cbn [List.filter].
  destruct (keep (l_addr l)) eqn:Ek.
  - rewrite IH by lia. rewrite (drop_S _ _ _ E), <- app_assoc. done.
  - rewrite IH.
    + rewrite app_nil_r. f_equal.
      * f_equal. rewrite delete_take_drop, take_app_le by (rewrite length_take; lia).
        by rewrite take_take, Nat.min_id.
      * rewrite delete_take_drop, drop_app_ge by (rewrite length_take; lia).
        rewrite length_take, Nat.min_l by lia. by rewrite Nat.sub_diag.
    + pose proof (length_delete ls k ltac:(by eexists)). lia.
Qed.

Lemma local_prune_all keep ls :
  (local_prune keep (length ls) (ls, false)).1 = List.filter (fun l => keep (l_addr l)) ls.
Proof. rewrite local_prune_filter by done. by rewrite firstn_all, drop_ge, app_nil_r by done. Qed.

Lemma filter_NoDup_keys {A B} (key : A -> B) (p : A -> bool) l m :
  NoDup (map key l ++ m) -> NoDup (map key (List.filter p l) ++ m).
Proof.
  induction l as [|x l IH]; cbn; [done|]. intros [Hx Hn]%NoDup_cons.
  destruct (p x); [|by apply IH]. cbn. apply NoDup_cons. split; [|by apply IH].
  intros [Hin|Hin]%elem_of_app; apply Hx, elem_of_app; [left|by right].
  apply list_elem_of_fmap in Hin as (y & -> & Hy). apply list_elem_of_fmap.
  exists y. split; [done|]. apply list_elem_of_In, filter_In in Hy as [Hy _]. by apply list_elem_of_In.
Qed.

Lemma Forall_list_filter {A} (P : A -> Prop) (p : A -> bool) l :
  Forall P l -> Forall P (List.filter p l).
Proof.
  induction 1; cbn; [constructor|]. destruct (p x); [by constructor | done].
Qed.

Lemma sublist_Forall {A} (P : A -> Prop) l k : sublist l k -> Forall P k -> Forall P l.
Proof. rewrite !Forall_forall. intros Hs Hk x Hx. by eapply Hk, elem_of_sublist. Qed.

Lemma prune_ok i f keep :
  addrs_ok i f ->
  addrs_ok i (f <| f_locals := (local_prune keep (length (f_locals f)) (f_locals f, false)).1 |>).
Proof.
  intros [H1 H2 H3 H4 H5 H6]. rewrite local_prune_all. unfold held in *.
  apply Forall_app in H6 as [H6 H7]. split; unfold held; cbn [f_locals f_xlats set set_f_locals].
  - pose proof (List.filter_length_le (fun l => keep (l_addr l)) (f_locals f)). lia.
  - done.
  - by apply filter_NoDup_keys.
  - by apply Forall_list_filter.
  - done.
  - apply Forall_app. split; [|done]. rewrite Forall_fmap in *. by apply Forall_list_filter.
Qed.

(** An address leaves the translations when the kernel reports it. *)
Lemma xlat_forget_spec f a :
  NoDup (map x_addr (f_xlats f)) ->
  (xlat_forget f a).2 = bool_decide (a ∈ map x_addr (f_xlats f)) /\
  a ∉ map x_addr (f_xlats (xlat_forget f a).1) /\
  sublist (f_xlats (xlat_forget f a).1) (f_xlats f) /\
  (forall b, b <> a -> b ∈ map x_addr (f_xlats f) <-> b ∈ map x_addr (f_xlats (xlat_forget f a).1)).
Proof.
  intros Hn. unfold xlat_forget.
  destruct (idx_from x_addr a 0 (f_xlats f)) as [k|] eqn:E; cbn [fst snd f_xlats set set_f_xlats].
  - apply idx_from_Some in E as (j & x & -> & Hj & <-). cbn [Nat.add].
    assert (Hsplit : f_xlats f = take j (f_xlats f) ++ x :: drop (S j) (f_xlats f)).
    { by rewrite <- (drop_S _ _ _ Hj), take_drop. }
    rewrite delete_take_drop, map_app. rewrite Hsplit in Hn at 1.
    rewrite map_app in Hn. cbn in Hn.
    apply NoDup_app in Hn as (_ & Hd & [Hx _]%NoDup_cons).
    split; [|split; [|split]].
    + rewrite bool_decide_true; [done|]. apply list_elem_of_fmap. exists x. split; [done|].
      by eapply list_elem_of_lookup_2.
    + intros [Hin|Hin]%elem_of_app; [|done]. apply (Hd _ Hin). by left.
    + rewrite <- delete_take_drop. apply sublist_delete.
    + intros b Hb. rewrite Hsplit at 1. rewrite map_app. cbn. set_solver.
  - apply idx_from_None in E. split; [by rewrite bool_decide_false|]. split; [done|].
    split; [done|]. done.
Qed.

Lemma xlats_NoDup f : NoDup (held f) -> NoDup (map x_addr (f_xlats f)).
Proof. by intros (_ & _ & H)%NoDup_app. Qed.

(** One more address of the kernel's. *)
Definition with_local (f : netstate_fam) (a : bytes) : netstate_fam :=
  let '(g, had) := xlat_forget f a in
  g <| f_locals := f_locals g ++ [mk_nlocal a (addr_scope_raw a) had] |>.

Lemma with_local_ok i f a :
  addrs_ok i f -> a ∉ map l_addr (f_locals f) -> length a = fam_len i ->
  (length (f_locals f) < NETSTATE_LOCAL_MAX)%nat -> addrs_ok i (with_local f a).
Proof.
  intros [H1 H2 H3 H4 H5 H6] Ha Hlen Hroom. unfold with_local.
  pose proof (xlat_forget_spec f a (xlats_NoDup f H3)) as (_ & Hout & Hsub & _).
  pose proof (xlat_forget_views f a) as (_ & _ & Hloc).
  destruct (xlat_forget f a) as [g had]. cbn [fst] in *. unfold held in *.
  apply NoDup_app in H3 as (N1 & N2 & N3). apply Forall_app in H6 as [H6 H7].
  split; unfold held; cbn [f_locals f_xlats set set_f_locals]; rewrite ?Hloc.
  - rewrite length_app. cbn. lia.
  - pose proof (sublist_length _ _ Hsub). lia.
  - rewrite map_app, <- app_assoc. apply NoDup_app. split; [done|]. split.
    + intros b Hb [->|Hx]%elem_of_cons; [done|]. apply (N2 b Hb).
      eapply elem_of_submseteq; [exact Hx|]. by apply sublist_submseteq, fmap_sublist.
    + apply NoDup_cons. split; [done|]. eapply sublist_NoDup; [exact N3|].
      by apply fmap_sublist.
  - apply Forall_app. split; [done|]. by constructor.
  - by eapply sublist_Forall.
  - rewrite map_app, <- app_assoc. apply Forall_app. split; [done|]. constructor; [done|].
    eapply sublist_Forall; [|exact H7]. by apply fmap_sublist.
Qed.

Lemma local_add_eq af len f g e :
  local_add af len (f, g) e
  = if (NETSTATE_LOCAL_MAX <=? length (f_locals f))%nat then (f, g)
    else if negb (nm_family e =? af) || negb (nm_addrlen e =? len)%nat then (f, g)
    else if bool_decide (take len (nm_addr e) ∈ map l_addr (f_locals f)) then (f, g)
    else (with_local f (take len (nm_addr e)), true).
Proof.
  unfold local_add, with_local. destruct (_ <=? _)%nat; [done|]. destruct (_ || _); [done|].
  destruct (local_idx f (take len (nm_addr e))) as [k|] eqn:E.
  - rewrite bool_decide_true; [done|]. apply dec_stable. rewrite <- local_idx_None. congruence.
  - apply local_idx_None in E. rewrite bool_decide_false by done.
    by destruct (xlat_forget f (take len (nm_addr e))).
Qed.

(** A snapshot's entries are arrays of sixteen bytes. *)
Definition snap_ok (addrs : list netmon_addr) : Prop :=
  Forall (fun e => length (nm_addr e) = 16%nat) addrs.

Definition af_of (i : bool) : Z := if i then 6 else 4.
Lemma af_len i : (if af_of i =? 6 then 16%nat else 4%nat) = fam_len i.
Proof. by destruct i. Qed.

Lemma local_add_ok i st e :
  addrs_ok i st.1 -> length (nm_addr e) = 16%nat ->
  addrs_ok i (local_add (af_of i) (fam_len i) st e).1.
Proof.
  destruct st as [f g]. cbn [fst]. intros Hok He. rewrite local_add_eq.
  destruct (Nat.leb_spec NETSTATE_LOCAL_MAX (length (f_locals f))); [done|].
  destruct (_ || _); [done|]. case_bool_decide; [done|]. cbn [fst].
  apply with_local_ok; [done|done| |done]. rewrite length_take, He. by destruct i.
Qed.

Lemma local_sync_ok i f addrs :
  addrs_ok i f -> snap_ok addrs -> addrs_ok i (local_sync f (af_of i) addrs).1.1.
Proof.
  intros Hok Hs. unfold local_sync. rewrite af_len.
  pose proof (prune_ok i f (snap_has addrs (af_of i)) Hok) as Hp.
  destruct (local_prune _ _ _) as [ls lost]. cbn [fst] in Hp.
  assert (Hf : forall l st, snap_ok l -> addrs_ok i st.1 ->
    addrs_ok i (fold_left (local_add (af_of i) (fam_len i)) l st).1).
  { induction l as [|e l IH]; intros st Hl Hst; [done|]. apply Forall_cons in Hl as [He Hl].
    apply IH; [done|]. by apply local_add_ok. }
  specialize (Hf addrs (f <| f_locals := ls |>, false) Hs Hp).
  by destruct (fold_left _ _ _) as [g gained].
Qed.

(** ** Every operation keeps it *)
Lemma facts_addr_view h f : addr_view (facts_moved h f) = addr_view f.
Proof. apply facts_views. Qed.
Lemma sync_addr_view f : addr_view (sync_conn f) = addr_view f.
Proof. apply sync_views. Qed.

Lemma demote_ok i f : addrs_ok i f -> addrs_ok i (proofs_demote f <| f_xlats := [] |>).
Proof.
  intros [H1 H2 H3 H4 H5 H6]. unfold held in *. unfold proofs_demote.
  split; unfold held; cbn [f_locals f_xlats set set_f_locals set_f_xlats]; rewrite ?length_map.
  - done.
  - cbn. unfold NETSTATE_XLAT_MAX. lia.
  - rewrite app_nil_r, map_map. by apply NoDup_app in H3 as [H3 _].
  - rewrite Forall_fmap. exact H4.
  - constructor.
  - rewrite app_nil_r, map_map. by apply Forall_app in H6 as [H6 _].
Qed.

Lemma fam_moved_ok i h same up now f : addrs_ok i f -> addrs_ok i (fam_moved h same up now f).
Proof.
  intros Hf. unfold fam_moved. eapply addrs_ok_view; [symmetry; apply facts_addr_view|].
  destruct same, up, (nonempty _); cbn [negb]; try (eapply addrs_ok_view; [|exact Hf]; reflexivity).
  all: eapply addrs_ok_view; [|exact (demote_ok i f Hf)]; reflexivity.
Qed.

Lemma fam_on_netmon_ok i h changed addrs now f :
  addrs_ok i f -> snap_ok addrs -> addrs_ok i (fam_on_netmon h i changed addrs now f).
Proof.
  intros Hf Hs. unfold fam_on_netmon. pose proof (local_sync_ok i f addrs Hf Hs) as Hg.
  change (if i then 6 else 4) with (af_of i).
  destruct (local_sync f (af_of i) addrs) as [[g lost] gained]. cbn [fst] in Hg.
  set (g1 := if lost || gained then _ else g).
  assert (H1 : addrs_ok i g1) by (unfold g1; destruct (lost || gained); [by eapply addrs_ok_view; [|exact Hg] | done]).
  clearbody g1. set (g2 := if eqb _ _ then g1 else _).
  assert (H2 : addrs_ok i g2).
  { unfold g2. destruct (eqb _ _); [done|]. eapply addrs_ok_view; [|exact H1].
    rewrite facts_addr_view, sync_addr_view. done. }
  destruct (truth _); [by apply fam_moved_ok | done].
Qed.

Lemma fam_on_reflexive_ok i epoch addr f :
  addrs_ok i f -> addrs_ok i (fam_on_reflexive (fam_len i) epoch addr f).
Proof.
  intros [H1 H2 H3 H4 H5 H6]. unfold fam_on_reflexive.
  destruct (_ || _) eqn:E; [done|]. apply orb_false_elim in E as [_ Hlen].
  apply negb_false_iff, Nat.eqb_eq in Hlen.
  destruct (local_idx f addr) as [k|] eqn:Ek.
  - apply local_idx_Some in Ek as (l & Hk & Ha). rewrite Hk. destruct (_ || _); [done|].
    set (l' := l <| l_proven := true |>).
    assert (Hl' : l_addr l' = l_addr l /\ l_scope l' = l_scope l) by done. clearbody l'.
    destruct Hl' as [Hla Hls].
    assert (Hm : map l_addr (<[k := l']> (f_locals f)) = map l_addr (f_locals f)).
    { rewrite list_fmap_insert, Hla. apply list_insert_id. by rewrite list_lookup_fmap, Hk. }
    split; unfold held; cbn [f_locals f_xlats raise_act set set_f_locals set_f_pend]; rewrite ?Hm; try done.
    + by rewrite length_insert.
    + apply Forall_insert; [done|]. rewrite Forall_lookup in H4. rewrite Hla, Hls. exact (H4 k l Hk).
  - apply local_idx_None in Ek. unfold xlat_note.
    destruct (idx_from x_addr addr 0 (f_xlats f)) eqn:Ex; [done|]. apply idx_from_None in Ex.
    destruct (Nat.leb_spec NETSTATE_XLAT_MAX (length (f_xlats f))); [done|].
    unfold held in *.
    split; unfold held; cbn [f_locals f_xlats raise_act set set_f_xlats set_f_pend]; try done.
    + rewrite length_app. cbn. lia.
    + rewrite map_app, app_assoc. apply NoDup_app. split; [done|]. split; [|apply NoDup_singleton].
      intros b Hb ->%list_elem_of_singleton. apply elem_of_app in Hb as [?|?]; done.
    + apply Forall_app. split; [done|]. by constructor.
    + rewrite map_app, app_assoc. apply Forall_app. split; [done|]. by constructor.
Qed.

Lemma dht_ack_addr_view h epoch node now f :
  addr_view (fam_on_dht_ack h epoch node now f) = addr_view f.
Proof.
  unfold fam_on_dht_ack. destruct (negb _); [done|].
  transitivity (addr_view (sync_conn (f <| f_up_epoch := epoch |>))); [|by rewrite sync_addr_view].
  set (s := sync_conn _). clearbody s. clear f. set (g := if f_dht_acked s then _ else _).
  assert (Hg : addr_view g = addr_view s).
  { unfold g. destruct (f_dht_acked s); [done|]. by rewrite facts_addr_view. }
  rewrite <- Hg. clearbody g. clear s Hg. destruct (negb (node_ok node)); [done|].
  change (addr_view g) with (addr_view (g <| f_anchor_next_ms := u64 (now + NETSTATE_RDV_MS) |>)).
  set (k := g <| f_anchor_next_ms := _ |>). clearbody k. clear g.
  destruct (_ && _).
  { destruct (anchor_confirm_views h now (anchor_answered now k)) as [_ ->].
    by destruct (anchor_answered_views now k) as [_ ->]. }
  destruct (negb (f_picking k)); [done|].
  assert (Hw : addr_view (if f_anchor_confirmed k then (k, false) else cand_ack k node now).1 = addr_view k).
  { destruct (f_anchor_confirmed k); [done|]. apply cand_ack_views. }
  destruct (if f_anchor_confirmed k then _ else _) as [m won]. cbn [fst] in Hw. rewrite <- Hw.
  assert (Hset : forall c a, addr_view (anchor_set m node now c a).1 = addr_view m).
  { intros c a. apply anchor_set_views. }
  destruct won; [rewrite facts_addr_view; exact (Hset false NETSTATE_ANCHOR_QUALIFY)|].
  destruct (_ && _); [done|]. apply Hset.
Qed.

(** The snapshots of a run are arrays, whatever they hold. *)
Definition event_ok (e : ns_event) : Prop :=
  match e with NetMon _ addrs _ => snap_ok addrs | _ => True end.

Lemma fam_step_addrs i h f e : event_ok e -> addrs_ok i f -> addrs_ok i (fam_step h i f e).
Proof.
  intros He Hf. destruct e; cbn [fam_step]; unfold for_fam;
    try (destruct (eqb (fam_idx _) i) eqn:Ei; [|done]).
  - by apply fam_on_netmon_ok.
  - eapply addrs_ok_view; [|exact Hf]. unfold fam_on_src. destruct (negb _); [done|].
    destruct (_ || _).
    { destruct (f_routed _); [by rewrite facts_addr_view, sync_addr_view | done]. }
    set (k := if _ || _ then _ else _). assert (Hk : addr_view k = addr_view f).
    { unfold k. by destruct (_ || _). }
    clearbody k. destruct (f_routed k); [done|]. by rewrite facts_addr_view, sync_addr_view, <- Hk.
  - unfold fam_on_probe_started. destruct (negb _); [done|]. by eapply addrs_ok_view; [|exact Hf].
  - unfold fam_on_probe_deferred. destruct (negb _); [done|]. by eapply addrs_ok_view; [|exact Hf].
  - eapply addrs_ok_view; [|exact Hf]. unfold fam_on_probe_done. by fam_cases.
  - eapply addrs_ok_view; [|exact Hf]. unfold fam_on_servers. by fam_cases.
  - eapply addrs_ok_view; [|exact Hf]. unfold fam_on_roundtrip. destruct (negb _); [done|].
    by rewrite sync_addr_view.
  - eapply addrs_ok_view; [symmetry; apply dht_ack_addr_view | done].
  - eapply addrs_ok_view; [|exact Hf]. unfold fam_on_anchor_seen. destruct (negb _); [done|].
    by destruct (anchor_answered_views now f) as [_ ->].
  - eapply addrs_ok_view; [|exact Hf]. unfold fam_on_rdv_offered.
    by destruct (anchor_set_views f node now false 0) as [_ ->].
  - eapply addrs_ok_view; [|exact Hf]. unfold fam_on_rdv_vouched.
    pose proof (anchor_set_views f node now false 0) as [_ Ha].
    destruct (_ || _); [done|]. rewrite facts_addr_view. by rewrite <- Ha.
  - eapply addrs_ok_view; [|exact Hf]. unfold fam_set_picking. by fam_cases.
  - replace (if family =? 6 then 16%nat else 4%nat) with (fam_len i); [by apply fam_on_reflexive_ok|].
    apply eqb_prop in Ei. by rewrite <- Ei.
  - eapply addrs_ok_view; [|exact Hf]. unfold fam_on_dht_concluded. destruct (eqb (f_concluded f) _); [done|].
    by rewrite facts_addr_view.
  - eapply addrs_ok_view; [|exact Hf]. by destruct (fam_tick_views h now f) as [_ ->].
  - by eapply addrs_ok_view; [|exact Hf].
  - by eapply addrs_ok_view; [|exact Hf].
Qed.

Lemma run_addrs_ok h now0 i es : Forall event_ok es -> addrs_ok i (fam_at h now0 i es).
Proof.
  induction es as [|x es IH] using rev_ind; intros Hes.
  - rewrite fam_at_nil. split; cbn; unfold NETSTATE_LOCAL_MAX, NETSTATE_XLAT_MAX; try lia; constructor.
  - apply Forall_app in Hes as [Hes [Hx _]%Forall_cons]. rewrite fam_at_snoc.
    apply fam_step_addrs; [done | by apply IH].
Qed.

(** ** Whether the family holds an address at all *)
Definition has_ok (f : netstate_fam) : Prop := f_has_addr f = nonempty (f_locals f).

Lemma nonempty_length {A B} (l : list A) (k : list B) :
  length l = length k -> nonempty l = nonempty k.
Proof. by destruct l, k. Qed.

Lemma has_ok_keeps f g :
  f_has_addr g = f_has_addr f -> length (f_locals g) = length (f_locals f) -> has_ok f -> has_ok g.
Proof. unfold has_ok. intros -> Hl ->. symmetry. by apply nonempty_length. Qed.

Lemma has_ok_views f g :
  conn_view g = conn_view f -> addr_view g = addr_view f -> has_ok f -> has_ok g.
Proof. unfold has_ok, conn_view, addr_view. by intros [= -> _ _ _ _] [= -> _]. Qed.

Lemma facts_has_ok h f : has_ok f -> has_ok (facts_moved h f).
Proof. apply has_ok_views; apply facts_views. Qed.
Lemma sync_has_ok f : has_ok f -> has_ok (sync_conn f).
Proof. unfold has_ok, sync_conn. by destruct (_ =? _). Qed.

Lemma netmon_has_ok h i changed addrs now f : has_ok (fam_on_netmon h i changed addrs now f).
Proof.
  unfold fam_on_netmon. destruct (local_sync f _ addrs) as [[g lost] gained].
  set (g1 := if lost || gained then _ else g). clearbody g1. set (g2 := if eqb _ _ then g1 else _).
  assert (H2 : has_ok g2).
  { unfold g2. destruct (eqb _ _) eqn:E; [by apply eqb_prop in E|].
    by apply facts_has_ok, sync_has_ok. }
  clearbody g2. destruct (truth _); [|done]. unfold fam_moved. apply facts_has_ok.
  destruct (same_network _ _ _ _), (_ =? _), (nonempty (f_anchor _)); cbn [negb];
    (apply (has_ok_keeps g2); [done| |done]); cbn; by rewrite ?length_map.
Qed.

Lemma dht_ack_has_addr h epoch node now f :
  f_has_addr (fam_on_dht_ack h epoch node now f) = f_has_addr f.
Proof.
  unfold fam_on_dht_ack. destruct (negb _); [done|].
  transitivity (f_has_addr (sync_conn (f <| f_up_epoch := epoch |>))); [|frame].
  set (s := sync_conn _). clearbody s. clear f. set (g := if f_dht_acked s then _ else _).
  assert (Hg : f_has_addr g = f_has_addr s) by (unfold g; frame).
  rewrite <- Hg. clearbody g. clear s Hg. destruct (negb (node_ok node)); [done|].
  change (f_has_addr g) with (f_has_addr (g <| f_anchor_next_ms := u64 (now + NETSTATE_RDV_MS) |>)).
  set (k := g <| f_anchor_next_ms := _ |>). clearbody k. clear g.
  destruct (_ && _); [unfold anchor_confirm, anchor_answered; frame|].
  destruct (negb (f_picking k)); [done|].
  assert (Hw : f_has_addr (if f_anchor_confirmed k then (k, false) else cand_ack k node now).1 = f_has_addr k).
  { destruct (f_anchor_confirmed k); [done|]. pose proof (cand_ack_views k node now) as [H _].
    unfold conn_view in H. by injection H as -> _. }
  destruct (if f_anchor_confirmed k then _ else _) as [m won]. cbn [fst] in Hw. rewrite <- Hw.
  unfold anchor_set. frame.
Qed.

Lemma fam_step_has i h f e : has_ok f -> has_ok (fam_step h i f e).
Proof.
  intros Hf. destruct e; cbn [fam_step]; unfold for_fam;
    try (destruct (eqb (fam_idx _) i) eqn:Ei; [|done]).
  - apply netmon_has_ok.
  - unfold fam_on_src. destruct (negb _); [done|]. destruct (_ || _).
    { destruct (f_routed _); [by apply facts_has_ok, sync_has_ok | done]. }
    set (k := if _ || _ then _ else _). assert (Hk : has_ok k) by (unfold k; by destruct (_ || _)).
    clearbody k. destruct (f_routed k); [done|]. by apply facts_has_ok, sync_has_ok.
  - unfold fam_on_probe_started. by destruct (negb _).
  - unfold fam_on_probe_deferred. by destruct (negb _).
  - unfold fam_on_probe_done. by fam_cases.
  - unfold fam_on_servers. by fam_cases.
  - unfold fam_on_roundtrip. destruct (negb _); [done|]. by apply sync_has_ok.
  - eapply has_ok_keeps; [apply dht_ack_has_addr| |done].
    pose proof (dht_ack_addr_view h epoch node now f) as H. unfold addr_view in H. by injection H as -> _.
  - unfold fam_on_anchor_seen. destruct (negb _); [done|].
    eapply has_ok_views; [apply anchor_answered_views..|done].
  - eapply has_ok_views; [apply anchor_set_views..|done].
  - unfold fam_on_rdv_vouched.
    assert (H : has_ok (anchor_set f node now false 0).1) by (eapply has_ok_views; [apply anchor_set_views..|done]).
    destruct (_ || _); [done|]. by apply facts_has_ok.
  - unfold fam_set_picking. by fam_cases.
  - unfold fam_on_reflexive, xlat_note. destruct (_ || _); [done|].
    destruct (local_idx f addr) as [k|].
    + destruct (f_locals f !! k) as [l|]; [|done]. destruct (_ || _); [done|].
      apply (has_ok_keeps f); [done| |done]. cbn. by rewrite length_insert.
    + destruct (idx_from _ _ _ _); [done|]. by destruct (_ <=? _)%nat.
  - unfold fam_on_dht_concluded. destruct (eqb (f_concluded f) _); [done|]. by apply facts_has_ok.
  - eapply has_ok_views; [apply fam_tick_views..|done].
  - done.
  - done.
Qed.

(** ** The kernel decides *)
Definition of_family (i : bool) (e : netmon_addr) : bool :=
  (nm_family e =? af_of i) && (nm_addrlen e =? fam_len i)%nat.

(** The addresses of the family in a snapshot, as often as they are reported. *)
Definition reported (i : bool) (addrs : list netmon_addr) : list bytes :=
  map (fun e => take (fam_len i) (nm_addr e)) (List.filter (of_family i) addrs).

Lemma snap_has_reported i addrs a :
  length a = fam_len i -> snap_has addrs (af_of i) a = true <-> a ∈ reported i addrs.
Proof.
  intros Ha. unfold snap_has, reported. rewrite existsb_exists, list_elem_of_fmap.
  setoid_rewrite list_elem_of_In. setoid_rewrite filter_In.
  unfold snap_is, of_family, bytes_eqb. rewrite Ha.
  split; intros (e & He); exists e; rewrite ?andb_true_iff, ?bool_decide_eq_true in *; naive_solver.
Qed.

Lemma with_local_spec f a :
  NoDup (map x_addr (f_xlats f)) ->
  f_locals (with_local f a)
    = f_locals f ++ [mk_nlocal a (addr_scope_raw a) (bool_decide (a ∈ map x_addr (f_xlats f)))] /\
  (forall b, b ∈ map x_addr (f_xlats (with_local f a)) <-> b <> a /\ b ∈ map x_addr (f_xlats f)).
Proof.
  intros Hn. unfold with_local. pose proof (xlat_forget_spec f a Hn) as (Hh & Ho & _ & Hi).
  pose proof (xlat_forget_views f a) as (_ & _ & Hl).
  destruct (xlat_forget f a) as [g had]. cbn [fst snd] in *. subst had.
  split; [by cbn; rewrite Hl|]. intros b. cbn.
  destruct (decide (b = a)) as [->|Hb]; [naive_solver|]. rewrite (Hi b Hb). naive_solver.
Qed.

(** Where a family stands part-way through a snapshot. *)
Record syncing (i : bool) (x0 all done : list bytes) (f : netstate_fam) : Prop := mk_syncing {
  sy_ok : addrs_ok i f;
  sy_sound : forall b, b ∈ map l_addr (f_locals f) -> b ∈ all;
  sy_done : forall b, b ∈ done -> b ∈ map l_addr (f_locals f);
  sy_xlats : forall b, b ∈ map x_addr (f_xlats f) <-> b ∈ x0 /\ b ∉ map l_addr (f_locals f);
  sy_proof : forall l, l ∈ f_locals f -> l_addr l ∈ x0 -> l_proven l = true
}.

Lemma full_holds i x0 all done f a :
  syncing i x0 all done f -> a ∈ all -> (length all <= NETSTATE_LOCAL_MAX)%nat ->
  (NETSTATE_LOCAL_MAX <= length (f_locals f))%nat -> a ∈ map l_addr (f_locals f).
Proof.
  intros [Hok Hs _ _ _] Ha Hall Hfull. apply dec_stable. intros Hn.
  assert (H : (length (a :: map l_addr (f_locals f)) <= length all)%nat).
  { apply NoDup_incl_length.
    - apply NoDup_ListNoDup, NoDup_cons. split; [done|]. destruct Hok as [_ _ Hnd _ _ _].
      by apply NoDup_app in Hnd as [? _].
    - intros b [<-|Hb]; apply list_elem_of_In; [done|]. apply Hs. by apply list_elem_of_In. }
  cbn [length] in H. rewrite length_map in H. lia.
Qed.

Lemma syncing_add i x0 all done f g e :
  syncing i x0 all done f -> length (nm_addr e) = 16%nat -> (length all <= NETSTATE_LOCAL_MAX)%nat ->
  (of_family i e = true -> take (fam_len i) (nm_addr e) ∈ all) ->
  syncing i x0 all (done ++ reported i [e]) (local_add (af_of i) (fam_len i) (f, g) e).1.
Proof.
  intros Hsy He Hall Hin. pose proof (local_add_ok i (f, g) e (sy_ok _ _ _ _ _ Hsy) He) as Hok.
  rewrite local_add_eq in *. unfold reported. cbn [List.filter] in *.
  unfold of_family in *. set (a := take (fam_len i) (nm_addr e)) in *.
  destruct (nm_family e =? af_of i); cbn [andb negb orb] in *;
    [destruct (nm_addrlen e =? fam_len i)%nat; cbn [andb negb orb] in *|];
    [|destruct (_ <=? _)%nat; cbn [fst map]; by rewrite app_nil_r..].
  specialize (Hin eq_refl). destruct (Nat.leb_spec NETSTATE_LOCAL_MAX (length (f_locals f))).
  { pose proof (full_holds _ _ _ _ _ _ Hsy Hin Hall H). destruct Hsy. split; cbn [fst map] in *; try done.
    set_solver. }
  case_bool_decide as Ha.
  { destruct Hsy. split; cbn [fst map] in *; try done. set_solver. }
  destruct Hsy as [[? ? Hnd ? ? ?] Hs Hd Hx Hp].
  destruct (with_local_spec f a (xlats_NoDup f Hnd)) as [Hl Hb].
  split; cbn [fst map] in *; [done|..]; rewrite ?Hl, ?map_app; cbn [map l_addr].
  - set_solver.
  - set_solver.
  - intros b. rewrite Hb, Hx. set_solver.
  - intros l [Hin'| ->%list_elem_of_singleton]%elem_of_app Hl0; [by apply Hp|]. cbn in *.
    apply bool_decide_eq_true. apply Hx. done.
Qed.

Lemma reported_app i l k : reported i (l ++ k) = reported i l ++ reported i k.
Proof. unfold reported. by rewrite List.filter_app, map_app. Qed.

Lemma syncing_fold i x0 all rest : forall done st,
  syncing i x0 all done st.1 -> snap_ok rest -> (length all <= NETSTATE_LOCAL_MAX)%nat ->
  (forall b, b ∈ reported i rest -> b ∈ all) ->
  syncing i x0 all (done ++ reported i rest) (fold_left (local_add (af_of i) (fam_len i)) rest st).1.
Proof.
  induction rest as [|e rest IH]; intros dn [f g] Hsy Hok Hall Hin; cbn [fold_left].
  { by rewrite app_nil_r. }
  apply Forall_cons in Hok as [He Hok]. change (e :: rest) with ([e] ++ rest) in *.
  rewrite reported_app, app_assoc in *. apply IH; [|done|done|set_solver].
  apply syncing_add; [done|done|done|]. intros Hfam. apply Hin, elem_of_app. left.
  unfold reported. cbn [List.filter]. rewrite Hfam. cbn. set_solver.
Qed.

Lemma local_sync_spec i f addrs :
  addrs_ok i f -> snap_ok addrs -> (length (reported i addrs) <= NETSTATE_LOCAL_MAX)%nat ->
  syncing i (map x_addr (f_xlats f)) (reported i addrs) (reported i addrs)
    (local_sync f (af_of i) addrs).1.1.
Proof.
  intros Hok Hs Hn. unfold local_sync. rewrite af_len.
  pose proof (prune_ok i f (snap_has addrs (af_of i)) Hok) as Hp. rewrite local_prune_all in Hp.
  pose proof (local_prune_all (snap_has addrs (af_of i)) (f_locals f)) as Hl.
  destruct (local_prune _ _ _) as [ls lost]. cbn [fst] in Hl. subst ls.
  destruct Hok as [_ _ Hnd _ _ Hlen]. unfold held in *. apply Forall_app in Hlen as [Hlen _].
  apply NoDup_app in Hnd as (_ & Hdis & _).
  set (ls := List.filter _ (f_locals f)) in *.
  assert (Hkept : forall l, l ∈ ls -> l ∈ f_locals f /\ snap_has addrs (af_of i) (l_addr l) = true).
  { intros l Hl%list_elem_of_In. apply filter_In in Hl as [? ?]. split; [by apply list_elem_of_In | done]. }
  assert (Hsub : forall b, b ∈ map l_addr ls -> b ∈ map l_addr (f_locals f)).
  { intros b (l & -> & Hl)%list_elem_of_fmap. apply list_elem_of_fmap_2. by apply Hkept. }
  assert (H0 : syncing i (map x_addr (f_xlats f)) (reported i addrs) [] (f <| f_locals := ls |>)).
  { split; [done|..]; cbn [f_locals f_xlats set set_f_locals].
    - intros b (l & -> & [Hl Hr]%Hkept)%list_elem_of_fmap. apply snap_has_reported; [|done].
      rewrite Forall_fmap, Forall_forall in Hlen. exact (Hlen l Hl).
    - set_solver.
    - intros b. split; [|by intros [? _]]. intros Hb. split; [done|]. intros Hb'%Hsub. by apply (Hdis b).
    - intros l Hl Hx. exfalso. apply (Hdis (l_addr l)); [|done]. apply list_elem_of_fmap_2. by apply Hkept. }
  pose proof (syncing_fold i _ (reported i addrs) addrs [] (f <| f_locals := ls |>, false) H0 Hs Hn
    (fun b H => H)) as H.
  by destruct (fold_left _ _ _) as [g gained].
Qed.

(** The address sets after a snapshot, whether or not the network changed. *)
Lemma netmon_addr_sets h i changed addrs now f :
  let e := NetMon changed addrs now in
  let g := (local_sync f (af_of i) addrs).1.1 in
  let f' := fam_on_netmon h i changed addrs now f in
  map l_addr (f_locals f') = map l_addr (f_locals g) /\
  (if leaves i f e then f_xlats f' = [] else addr_view f' = addr_view g).
Proof.
  cbn zeta. unfold leaves. cbn [moves stays]. unfold fam_on_netmon.
  change (if i then 6 else 4) with (af_of i).
  destruct (local_sync f (af_of i) addrs) as [[g lost] gained]. cbn [fst].
  set (g1 := if lost || gained then _ else g).
  assert (H1 : addr_view g1 = addr_view g) by (unfold g1; by destruct (lost || gained)).
  clearbody g1. set (g2 := if eqb _ _ then g1 else _).
  assert (H2 : addr_view g2 = addr_view g).
  { unfold g2. destruct (eqb _ _); [done|]. by rewrite facts_addr_view, sync_addr_view. }
  assert (Hsame : f_locals g1 = f_locals g) by (unfold addr_view in H1; by injection H1 as -> _).
  rewrite Hsame. clearbody g2. set (same := same_network _ _ _ _). clearbody same.
  unfold addr_view in *. injection H2 as Hl Hx.
  destruct (truth _); cbn [andb]; [|by rewrite Hl, Hx].
  set (m := fam_moved _ _ _ _ g2).
  assert (Hm : addr_view m = if same then addr_view g2 else addr_view (proofs_demote g2 <| f_xlats := [] |>)).
  { unfold m, fam_moved. rewrite facts_addr_view.
    destruct same; cbn [negb]; destruct (_ =? _), (nonempty (f_anchor _)); reflexivity. }
  clearbody m. unfold addr_view in Hm. destruct same; injection Hm as -> ->; cbn [negb].
  - by rewrite Hl, Hx.
  - cbn. by rewrite map_map, Hl.
Qed.

(** In any run, the kernel's word alone decides which set an address is in:
    after a snapshot of at most 64 addresses of a family, the family's own
    addresses are exactly those reported, no translation is among them, and a
    translation the kernel now reports has taken its proof with it, unless the
    snapshot is of another network, where no translation is left. *)
Theorem kernel_decides h now0 i es changed addrs now a :
  Forall event_ok es -> snap_ok addrs -> (length (reported i addrs) <= NETSTATE_LOCAL_MAX)%nat ->
  length a = fam_len i ->
  let e := NetMon changed addrs now in
  let f := fam_at h now0 i es in
  let f' := fam_at h now0 i (es ++ [e]) in
  (a ∈ map l_addr (f_locals f') <-> snap_has addrs (af_of i) a = true) /\
  (a ∈ map x_addr (f_xlats f') <->
     leaves i f e = false /\ a ∈ map x_addr (f_xlats f) /\ snap_has addrs (af_of i) a = false) /\
  (leaves i f e = false -> a ∈ map x_addr (f_xlats f) -> snap_has addrs (af_of i) a = true ->
     exists l, l ∈ f_locals f' /\ l_addr l = a /\ l_proven l = true).
Proof.
  intros Hes Hs Hn Ha e f f'.
  pose proof (run_addrs_ok h now0 i es Hes) as Hok. fold f in Hok.
  unfold f'. rewrite fam_at_snoc. fold f.
  change (fam_step h i f e) with (fam_on_netmon h i changed addrs now f).
  destruct (netmon_addr_sets h i changed addrs now f) as [Hl Hx]. fold e in Hx.
  destruct (local_sync_spec i f addrs Hok Hs Hn) as [_ Hsound Hdone Hxl Hpr].
  pose proof (snap_has_reported i addrs a Ha) as Hsnap.
  assert (Hiff : a ∈ map l_addr (f_locals (local_sync f (af_of i) addrs).1.1)
    <-> snap_has addrs (af_of i) a = true) by (rewrite Hsnap; split; auto).
  split; [by rewrite Hl|].
  destruct (leaves i f e).
  { rewrite Hx. split; [|done]. cbn. split; [intros H%elem_of_nil; done | by intros [? _]]. }
  unfold addr_view in Hx. injection Hx as -> ->. split.
  - rewrite Hxl, Hiff. destruct (snap_has _ _ a); naive_solver.
  - intros _ Hax Hrep. apply Hiff in Hrep. apply list_elem_of_fmap in Hrep as (l & -> & Hl').
    exists l. split; [done|]. split; [done|]. by apply Hpr.
Qed.

Lemma kernel_decides_witness :
  [192; 0; 2; 1] ∈ map l_addr (f_locals (fam_at true 0 false ([Reflexive 4 1 [192; 0; 2; 1]] ++ demo_up))).
Proof.
  refine (proj2 (proj1 (kernel_decides true 0 false [Reflexive 4 1 [192; 0; 2; 1]] 1 [demo_addr] 1000
    [192; 0; 2; 1] _ _ _ _)) _).
  - apply Forall_cons_2; [exact I | apply Forall_nil_2].
  - apply Forall_cons_2; [reflexivity | apply Forall_nil_2].
  - cbn. unfold NETSTATE_LOCAL_MAX. lia.
  - reflexivity.
  - reflexivity.
Defined.
