(* ===== verification/NetAnchor.v ===== *)
(** src/src/netstate.c, the rendezvous node of a family: how a node earns its
    place, and what it takes to lose it.  The machine is run beside the log of
    the answers it was told of, and everything it concludes about a node is
    justified by that log. *)
From S2P Require Import Prelude Net Token NsFacts Netstate NetAddrs.

(** ** Clocks and the log of answers *)
Definition ev_time (e : ns_event) : option Z :=
  match e with
  | NetMon _ _ now | Src _ _ _ _ _ now | ProbeStarted _ _ now | ProbeDone _ _ now
  | Servers _ _ now | DhtAck _ _ _ now | AnchorSeen _ now | RdvOffered _ _ now
  | RdvVouched _ _ now | NsTick now => Some now
  | _ => None
  end.

(** The time an event leaves behind. *)
Definition time_after (t : Z) (e : ns_event) : Z := default t (ev_time e).
Definition last_time (t : Z) (es : list ns_event) : Z := fold_left time_after es t.

(** Times never go back, and stay below 2^40 ms, some thirty-four years. *)
Fixpoint clocked (t : Z) (es : list ns_event) : Prop :=
  match es with
  | [] => True
  | e :: es' => t <= time_after t e < 2 ^ 40 /\ clocked (time_after t e) es'
  end.

Lemma last_time_snoc t es e : last_time t (es ++ [e]) = time_after (last_time t es) e.
Proof. unfold last_time. by rewrite fold_left_app. Qed.

Lemma clocked_snoc t es e :
  clocked t (es ++ [e]) ->
  clocked t es /\ last_time t es <= time_after (last_time t es) e < 2 ^ 40.
Proof.
  revert t. induction es as [|x es IH]; intros t; cbn; [tauto|].
  intros [Hx H]. apply IH in H as [H1 H2]. done.
Qed.

(** An answer of a node of this family, as the machine is told of it. *)
Definition answer_of (i : bool) (f : netstate_fam) (e : ns_event) : list (bytes * Z) :=
  match e with
  | DhtAck family epoch node now =>
      if eqb (fam_idx family) i && (epoch =? f_epoch f) && node_ok node then [(node, now)] else []
  | AnchorSeen family now =>
      if eqb (fam_idx family) i && nonempty (f_anchor f) then [(f_anchor f, now)] else []
  | _ => []
  end.

Fixpoint answers_from (h i : bool) (f : netstate_fam) (es : list ns_event) : list (bytes * Z) :=
  match es with
  | [] => []
  | e :: es' => answer_of i f e ++ answers_from h i (fam_step h i f e) es'
  end.
Definition answers (h : bool) (now0 : Z) (i : bool) (es : list ns_event) : list (bytes * Z) :=
  answers_from h i (nfam_init h now0) es.

Lemma answers_from_snoc h i f es e :
  answers_from h i f (es ++ [e])
  = answers_from h i f es ++ answer_of i (fold_left (fam_step h i) es f) e.
Proof.
  revert f. induction es as [|x es IH]; intros f; cbn; [by rewrite app_nil_r|].
  by rewrite IH, app_assoc.
Qed.

Lemma fam_at_fold h now0 i es : fam_at h now0 i es = fold_left (fam_step h i) es (nfam_init h now0).
Proof.
  induction es as [|e es IH] using rev_ind; [apply fam_at_nil|].
  by rewrite fam_at_snoc, fold_left_app, IH.
Qed.

Lemma answers_snoc h now0 i es e :
  answers h now0 i (es ++ [e]) = answers h now0 i es ++ answer_of i (fam_at h now0 i es) e.
Proof. unfold answers. by rewrite answers_from_snoc, fam_at_fold. Qed.

(** The answers of one node. *)
Definition from_node (n : bytes) (log : list (bytes * Z)) : list (bytes * Z) :=
  List.filter (fun p => bytes_eqb p.1 n) log.
Definition answer_count (n : bytes) (log : list (bytes * Z)) : Z := Z.of_nat (length (from_node n log)).

Lemma from_node_In n t log : (n, t) ∈ log -> (n, t) ∈ from_node n log.
Proof.
  intros H. apply list_elem_of_In, filter_In. split; [by apply list_elem_of_In|]. cbn.
  unfold bytes_eqb. by rewrite bool_decide_true.
Qed.
Lemma answer_count_app n l k : answer_count n (l ++ k) = answer_count n l + answer_count n k.
Proof. unfold answer_count, from_node. rewrite List.filter_app, length_app. lia. Qed.
Lemma answer_count_nonneg n l : 0 <= answer_count n l.
Proof. unfold answer_count. lia. Qed.
Lemma answer_count_one n t : answer_count n [(n, t)] = 1.
Proof. unfold answer_count, from_node, bytes_eqb. cbn. by rewrite bool_decide_true. Qed.

(** ** What the log justifies *)
Section Justified.
Variables (log : list (bytes * Z)) (T : Z).

Definition log_ok : Prop := forall n t, (n, t) ∈ log -> 0 <= t <= T.

(** A run of [acks] answers begun at [first]. *)
Definition run_ok (n : bytes) (acks first : Z) : Prop :=
  0 <= acks <= NETSTATE_ANCHOR_QUALIFY /\ acks <= answer_count n log /\
  (0 < acks -> (n, first) ∈ log).

(** Enough answers, the first of them long enough ago. *)
Definition earned (n : bytes) : Prop :=
  NETSTATE_ANCHOR_QUALIFY <= answer_count n log /\
  exists t, (n, t) ∈ log /\ t + NETSTATE_ANCHOR_PROVE_MS <= T.

Definition cand_ok (c : netstate_cand) : Prop :=
  node_ok (c_addr c) = true /\ 0 < c_acks c /\ run_ok (c_addr c) (c_acks c) (c_first_ms c).

Record anchor_inv (f : netstate_fam) : Prop := mk_anchor_inv {
  ai_len : f_anchor f = [] \/ node_ok (f_anchor f) = true;
  ai_cand : f_anchor_candidate f = true ->
            f_anchor f <> [] /\ f_anchor_confirmed f = false /\ f_anchor_vouched f = false;
  ai_none : f_anchor f = [] -> f_anchor_confirmed f = false /\ f_anchor_vouched f = false /\
            f_anchor_acks f = 0;
  ai_run : run_ok (f_anchor f) (f_anchor_acks f) (f_anchor_first_ms f);
  ai_earned : f_anchor_confirmed f = true -> earned (f_anchor f);
  ai_cands : (length (f_cands f) <= NETSTATE_CANDS_MAX)%nat /\ NoDup (map c_addr (f_cands f)) /\
             Forall cand_ok (f_cands f);
  ai_next : 0 <= f_anchor_next_ms f <= T + NETSTATE_RDV_MS;
  ai_quiet : 0 <= f_anchor_quiet f /\
    (0 < f_anchor_quiet f ->
     NETSTATE_RDV_MS * f_anchor_quiet f <= f_anchor_next_ms f /\
     forall t, (f_anchor f, t) ∈ log -> t + NETSTATE_RDV_MS * f_anchor_quiet f <= f_anchor_next_ms f)
}.
End Justified.

Ltac anchor_consts :=
  unfold NETSTATE_ANCHOR_QUALIFY, NETSTATE_ANCHOR_PROVE_MS, NETSTATE_RDV_MS, NETSTATE_CANDS_MAX,
    NETSTATE_ANCHOR_QUIET, NETSTATE_ANCHOR_GONE, NETSTATE_ANCHOR_TRY_MS in *.

Lemma anchor_inv_view log T f g : anch_view f = anch_view g -> anchor_inv log T f -> anchor_inv log T g.
Proof.
  unfold anch_view. intros Hv [a b c d e k m n].
  injection Hv as H1 _ H3 H4 H5 H6 H7 H8 _ H10 H11.
  split; rewrite <- ?H1, <- ?H3, <- ?H4, <- ?H5, <- ?H6, <- ?H7, <- ?H8, <- ?H10, <- ?H11; done.
Qed.

(** More answers, of other nodes, and time passing take nothing back. *)
Lemma run_ok_mono log l n acks first : run_ok log n acks first -> run_ok (log ++ l) n acks first.
Proof.
  intros (H1 & H2 & H3). split; [done|]. rewrite answer_count_app.
  pose proof (answer_count_nonneg n l). split; [lia|]. intros Hpos. apply elem_of_app. left. auto.
Qed.

Lemma earned_mono log l T T' n : T <= T' -> earned log T n -> earned (log ++ l) T' n.
Proof.
  intros HT (H1 & t & H2 & H3). split.
  - rewrite answer_count_app. pose proof (answer_count_nonneg n l). lia.
  - exists t. split; [apply elem_of_app; by left | lia].
Qed.

Lemma cand_ok_mono log l c : cand_ok log c -> cand_ok (log ++ l) c.
Proof. intros (? & ? & ?). split; [done|]. split; [done|]. by apply run_ok_mono. Qed.

Lemma anchor_inv_mono log l T T' f :
  T <= T' -> (forall t, (f_anchor f, t) ∉ l) -> anchor_inv log T f -> anchor_inv (log ++ l) T' f.
Proof.
  intros HT Hl [a b c d e (k1 & k2 & k3) m n]. split; try done.
  - by apply run_ok_mono.
  - intros H. eapply earned_mono; [exact HT | auto].
  - split; [done|]. split; [done|]. eapply Forall_impl; [exact k3|]. intros. by apply cand_ok_mono.
  - lia.
  - destruct n as [n1 n2]. split; [done|]. intros H. destruct (n2 H) as [n3 n4]. split; [done|].
    intros t [Ht|Ht]%elem_of_app; [auto | by destruct (Hl t)].
Qed.

Lemma anchor_inv_later log T T' f : T <= T' -> anchor_inv log T f -> anchor_inv log T' f.
Proof.
  intros HT H. rewrite <- (app_nil_r log). apply (anchor_inv_mono log [] T); [done| |done].
  intros t Ht. by apply elem_of_nil in Ht.
Qed.

(** ** The pieces of the operations *)
Lemma moved_inv log T now h same up f :
  0 <= now <= T -> anchor_inv log T f -> anchor_inv log T (fam_moved h same up now f).
Proof.
  intros Hn [a b c d e (k1 & k2 & k3) m n]. unfold fam_moved.
  eapply anchor_inv_view; [symmetry; apply facts_views|].
  set (g := if nonempty _ then _ else _).
  assert (Hg : anch_view g = (f_anchor f, f_picking f, [],
    (f_anchor_confirmed f, f_anchor_vouched f, f_anchor_candidate f), (0, 0), (now, 0, now))).
  { unfold g. destruct same, up, (nonempty _); reflexivity. }
  clearbody g. unfold anch_view in Hg. injection Hg as H1 _ H3 H4 H5 H6 H7 H8 _ H10 H11.
  split; rewrite ?H1, ?H3, ?H4, ?H5, ?H6, ?H7, ?H8, ?H10, ?H11; anchor_consts; try done.
  - intros Ha. destruct (c Ha) as (? & ? & _). done.
  - split; [unfold NETSTATE_ANCHOR_QUALIFY; lia|]. pose proof (answer_count_nonneg (f_anchor f) log).
    split; lia.
  - split; [cbn; lia|]. split; constructor.
  - lia.
Qed.

Lemma answered_inv log T f now :
  f_anchor f <> [] -> log_ok log now -> T <= now -> 0 <= now -> anchor_inv log T f ->
  anchor_inv (log ++ [(f_anchor f, now)]) now (anchor_answered now f).
Proof.
  intros Ha Hlog HT H0 [a b c d e (k1 & k2 & k3) m n].
  set (g := anchor_answered now f).
  assert (Hg : anch_view g = (f_anchor f, f_picking f, f_cands f,
    (f_anchor_confirmed f, f_anchor_vouched f, f_anchor_candidate f),
    (if f_anchor_acks f <? NETSTATE_ANCHOR_QUALIFY then f_anchor_acks f + 1 else f_anchor_acks f, 0),
    (f_anchor_set_ms f, if truth (f_anchor_acks f) then f_anchor_first_ms f else now,
     f_anchor_next_ms f))).
  { unfold g, anchor_answered. cbn [f_anchor_acks set set_f_anchor_quiet].
    destruct (truth _); cbn [f_anchor_acks set set_f_anchor_quiet set_f_anchor_first_ms];
      destruct (_ <? _); reflexivity. }
  clearbody g. unfold anch_view in Hg. injection Hg as H1 _ H3 H4 H5 H6 H7 H8 _ H10 H11.
  split; rewrite ?H1, ?H3, ?H4, ?H5, ?H6, ?H7, ?H8, ?H10, ?H11; anchor_consts; try done.
  - destruct d as (d1 & d2 & d3). unfold run_ok, truth in *. anchor_consts.
    rewrite answer_count_app, answer_count_one.
    split; [destruct (_ <? _) eqn:E; lia|]. split; [destruct (_ <? _); lia|]. intros _.
    apply elem_of_app. destruct (Z.eqb_spec (f_anchor_acks f) 0); cbn [negb].
    + right. by left.
    + left. apply d3. lia.
  - intros H. eapply earned_mono; [exact HT | auto].
  - split; [done|]. split; [done|]. eapply Forall_impl; [exact k3|]. intros. by apply cand_ok_mono.
  - lia.
Qed.

Lemma confirm_inv log T h now f :
  log_ok log T -> now = T -> T < 2 ^ 40 -> anchor_inv log T f ->
  anchor_inv log T (anchor_confirm h now f).
Proof.
  intros Hlog -> HT Hi. unfold anchor_confirm.
  destruct (negb (nonempty (f_anchor f)) || f_anchor_confirmed f) eqn:E1; [done|].
  destruct ((f_anchor_acks f <? _) || _) eqn:E2; [done|]. apply orb_false_elim in E1 as [E1 _].
  apply orb_false_elim in E2 as [E2 E3]. apply Z.ltb_ge in E2, E3.
  destruct Hi as [a b c d e k m n].
  assert (Hne : f_anchor f <> []) by (intros E; by rewrite E in E1).
  assert (He : earned log T (f_anchor f)).
  { destruct d as (d1 & d2 & d3). anchor_consts. specialize (d3 ltac:(lia)).
    split; [anchor_consts; lia|]. exists (f_anchor_first_ms f). split; [done|]. apply Hlog in d3.
    rewrite u64_id in E3 by (unfold is_u64; lia). anchor_consts. lia. }
  eapply anchor_inv_view; [symmetry; apply facts_views|]. by split.
Qed.

Lemma drop_inv log T h f :
  f_anchor_candidate f = true -> anchor_inv log T f -> anchor_inv log T (cand_drop h f).
Proof.
  intros Hc [a b c d e (k1 & k2 & k3) m n]. destruct (b Hc) as (_ & _ & Hv). unfold cand_drop.
  eapply anchor_inv_view; [symmetry; apply facts_views|]. split; cbn; try done; auto.
  - split; [anchor_consts; lia|]. pose proof (answer_count_nonneg [] log). split; lia.
Qed.

Lemma set_inv log T f node now c acks :
  0 <= now <= T -> run_ok log node acks now -> anchor_inv log T f ->
  anchor_inv log T (anchor_set f node now c acks).1.
Proof.
  intros Hn Hr Hi. unfold anchor_set. destruct (node_ok node) eqn:En; [|done]. cbn [negb].
  destruct (bytes_eqb (f_anchor f) node); [done|]. cbn [fst].
  assert (Hne : node <> []) by (by intros ->).
  destruct Hi as [a b c' d e (k1 & k2 & k3) m n].
  eapply anchor_inv_view; [symmetry; apply raise_views|].
  split; cbn; try done; auto.
  - destruct Hr as (r1 & r2 & r3). split; [done|]. split; [done|]. intros Hp.
    unfold truth. destruct (Z.eqb_spec acks 0); [lia|]. auto.
Qed.

(** The entry that gives way is one of the set. *)
Lemma cand_worst_lookup all l : forall i w,
  drop i all = l -> all !! w.1 = Some w.2 ->
  all !! (cand_worst i w l).1 = Some (cand_worst i w l).2.
Proof.
  induction l as [|c l IH]; intros i w Hd Hw; [done|]. cbn [cand_worst].
  assert (Hc : all !! i = Some c).
  { rewrite <- (take_drop i all), Hd. rewrite lookup_app_r; rewrite length_take; [|lia].
    assert (length (drop i all) = S (length l)) as Hlen by (by rewrite Hd).
    rewrite length_drop in Hlen. by rewrite Nat.min_l, Nat.sub_diag by lia. }
  apply IH; [|by destruct (cand_weaker c w.2)].
  rewrite (drop_S _ _ _ Hc) in Hd. by injection Hd.
Qed.

Lemma touch_ok log c now :
  node_ok (c_addr c) = true -> run_ok log (c_addr c) (c_acks c) (c_first_ms c) ->
  (c_acks c = 0 -> c_first_ms c = now) ->
  cand_ok (log ++ [(c_addr c, now)]) (cand_touch now c).
Proof.
  intros Hn (r1 & r2 & r3) H0. unfold cand_touch, cand_ok, run_ok.
  cbn [c_addr c_acks c_first_ms set set_c_acks set_c_seen_ms]. anchor_consts.
  rewrite answer_count_app, answer_count_one.
  destruct (Z.ltb_spec (c_acks c) 4); (split; [done|]; split; [lia|]; split; [lia|]; split; [lia|]);
    intros _; apply elem_of_app.
  - destruct (decide (c_acks c = 0)) as [E|E]; [right; rewrite (H0 E); by left | left; apply r3; lia].
  - left. apply r3. lia.
Qed.

Lemma qualifies_earned log T c :
  log_ok log T -> T < 2 ^ 40 -> cand_ok log c -> cand_qualifies T c = true -> earned log T (c_addr c).
Proof.
  intros Hl HT (_ & Hp & r1 & r2 & r3) Hq. unfold cand_qualifies in Hq.
  apply andb_true_iff in Hq as [q1 q2]. apply Z.leb_le in q1, q2. specialize (r3 Hp).
  split; [lia|]. exists (c_first_ms c). split; [done|]. apply Hl in r3.
  rewrite u64_id in q2 by (unfold is_u64; lia). lia.
Qed.

Lemma idx_cands log f node k :
  Forall (cand_ok log) (f_cands f) -> idx_from c_addr node 0 (f_cands f) = Some k ->
  exists c, f_cands f !! k = Some c /\ c_addr c = node /\ cand_ok log c.
Proof.
  intros Hf Hk. apply idx_from_Some in Hk as (j & c & -> & Hj & <-). exists c. split; [done|].
  split; [done|]. rewrite Forall_lookup in Hf. by apply (Hf j).
Qed.

(** One node more on trial, in a free place or in the weakest one's. *)
Lemma cands_insert_ok log l k c c' :
  l !! k = Some c -> Forall (cand_ok log) l -> NoDup (map c_addr l) ->
  (c_addr c' = c_addr c \/ c_addr c' ∉ map c_addr l) -> cand_ok log c' ->
  NoDup (map c_addr (<[k := c']> l)) /\ Forall (cand_ok log) (<[k := c']> l).
Proof.
  intros Hk Hf Hn Hc Hok. split; [|by apply Forall_insert].
  rewrite list_fmap_insert. destruct Hc as [->|Hc].
  - rewrite list_insert_id; [done|]. by rewrite list_lookup_fmap, Hk.
  - apply NoDup_alt. intros a b x Ha Hb. rewrite NoDup_alt in Hn.
    apply list_lookup_insert_Some in Ha, Hb.
    destruct Ha as [(-> & <- & _)|[Hka Ha]], Hb as [(-> & Hx & _)|[Hkb Hb]]; [done|..].
    + destruct Hc. by apply list_elem_of_lookup_2 in Hb.
    + destruct Hc. rewrite Hx. by apply list_elem_of_lookup_2 in Ha.
    + by apply (Hn a b x).
Qed.

Lemma cand_ack_inv log T f node now :
  node_ok node = true -> node <> f_anchor f -> log_ok log T -> 0 <= T <= now -> now < 2 ^ 40 ->
  anchor_inv log T f ->
  let r := cand_ack f node now in
  let log' := log ++ [(node, now)] in
  anchor_inv log' now r.1 /\ f_anchor r.1 = f_anchor f /\
  f_anchor_confirmed r.1 = f_anchor_confirmed f /\ f_anchor_quiet r.1 = f_anchor_quiet f /\
  (r.2 = true -> earned log' now node).
Proof.
  intros Hn Hne Hlog HT Hnow Hi. cbn zeta.
  assert (Hi' : anchor_inv (log ++ [(node, now)]) now f).
  { apply (anchor_inv_mono log _ T); [lia| |done]. intros t Ht. by apply list_elem_of_singleton in Ht as [= ?]. }
  assert (Hlog' : log_ok (log ++ [(node, now)]) now).
  { intros n t [H|[= -> ->]%list_elem_of_singleton]%elem_of_app; [apply Hlog in H|]; lia. }
  assert (Hset : forall l v, (length l <= NETSTATE_CANDS_MAX)%nat -> NoDup (map c_addr l) ->
    Forall (cand_ok (log ++ [(node, now)])) l ->
    (v = true -> earned (log ++ [(node, now)]) now node) ->
    anchor_inv (log ++ [(node, now)]) now (f <| f_cands := l |>) /\ f_anchor f = f_anchor f /\
    f_anchor_confirmed f = f_anchor_confirmed f /\ f_anchor_quiet f = f_anchor_quiet f /\
    (v = true -> earned (log ++ [(node, now)]) now node)).
  { intros l v H1 H2 H3 H4. destruct Hi' as [a b c d e k m n]. split; [by split|]. auto. }
  destruct (ai_cands _ _ _ Hi) as (k1 & k2 & k3). destruct (ai_cands _ _ _ Hi') as (_ & _ & k3').
  assert (Hfresh : cand_ok (log ++ [(node, now)]) (cand_touch now (mk_ncand node 0 now 0))).
  { apply (touch_ok log (mk_ncand node 0 now 0)); [done| |done].
    pose proof (answer_count_nonneg node log). split; [anchor_consts; cbn; lia|]. split; [cbn; lia|]. done. }
  unfold cand_ack. destruct (idx_from c_addr node 0 (f_cands f)) as [k|] eqn:Ek.
  - destruct (idx_cands log f node k k3 Ek) as (c & Hk & <- & Hc). rewrite Hk.
    assert (Hc' : cand_ok (log ++ [(c_addr c, now)]) (cand_touch now c)).
    { destruct Hc as (? & ? & ?). apply touch_ok; [done|done|lia]. }
    destruct (cands_insert_ok _ (f_cands f) k c (cand_touch now c) Hk k3' k2 (or_introl eq_refl) Hc').
    apply Hset; [by rewrite length_insert|done|done|]. by apply (qualifies_earned _ _ (cand_touch now c)).
  - apply idx_from_None in Ek. destruct (Nat.ltb_spec (length (f_cands f)) NETSTATE_CANDS_MAX).
    + apply Hset; [rewrite length_app; cbn; lia| | |by apply (qualifies_earned _ _ (cand_touch now (mk_ncand node 0 now 0)))].
      * rewrite map_app. apply NoDup_app. split; [done|]. split; [|apply NoDup_singleton].
        by intros b Hb ->%list_elem_of_singleton.
      * apply Forall_app. split; [done|]. by constructor.
    + destruct (f_cands f) as [|c0 l] eqn:Ec; [exfalso; cbn in *; anchor_consts; lia|].
      pose proof (cand_worst_lookup (c0 :: l) l 1 (0%nat, c0) eq_refl eq_refl) as Hw.
      destruct (cand_worst 1 (0%nat, c0) l) as [w c]. cbn [fst snd] in Hw.
      destruct (_ <=? _); [by split|].
      destruct (cands_insert_ok _ _ w c (cand_touch now (mk_ncand node 0 now 0)) Hw k3' k2
        (or_intror Ek) Hfresh).
      apply Hset; [by rewrite length_insert|done|done|].
      by apply (qualifies_earned _ _ (cand_touch now (mk_ncand node 0 now 0))).
Qed.

(** ** Every step is justified *)
Lemma next_inv log T now f :
  0 <= T <= now -> now < 2 ^ 40 -> anchor_inv log T f ->
  anchor_inv log now (f <| f_anchor_next_ms := u64 (now + NETSTATE_RDV_MS) |>).
Proof.
  intros HT Hnow [a b c d e k m (n1 & n2)]. rewrite u64_id by (unfold is_u64; anchor_consts; lia).
  split; cbn; try done; anchor_consts.
  - intros H. rewrite <- (app_nil_r log). eapply earned_mono; [|exact (e H)]. lia.
  - lia.
  - split; [done|]. intros H. destruct (n2 H) as [n3 n4]. split; [lia|]. intros t Ht.
    specialize (n4 t Ht). lia.
Qed.

Lemma log_ok_snoc log T n now : log_ok log T -> 0 <= T <= now -> log_ok (log ++ [(n, now)]) now.
Proof.
  intros Hl HT m t [H|[= -> ->]%list_elem_of_singleton]%elem_of_app; [apply Hl in H|]; lia.
Qed.

Lemma dht_ack_rest_inv log T h node now g :
  node_ok node = true -> log_ok log T -> 0 <= T <= now -> now < 2 ^ 40 -> anchor_inv log now g ->
  anchor_inv (log ++ [(node, now)]) now
    (if nonempty (f_anchor g) && bytes_eqb (f_anchor g) node then
       anchor_confirm h now (anchor_answered now g)
     else if negb (f_picking g) then g
     else
       let '(f, won) := if f_anchor_confirmed g then (g, false) else cand_ack g node now in
       if won then
         let f := (anchor_set f node now false NETSTATE_ANCHOR_QUALIFY).1 in
         facts_moved h
           (raise_act NSA_EMIT_RDV (f <| f_anchor_confirmed := true |> <| f_cands := [] |>))
       else if nonempty (f_anchor f) && (f_anchor_quiet f <? NETSTATE_ANCHOR_GONE) then f
       else (anchor_set f node now true 1).1).
Proof.
  intros Hn Hlog HT Hnow Hi.
  assert (Hln : log_ok log now) by (intros n t H; apply Hlog in H; lia).
  pose proof (log_ok_snoc log T node now Hlog HT) as Hlog'.
  destruct (nonempty (f_anchor g) && bytes_eqb (f_anchor g) node) eqn:E.
  { apply andb_true_iff in E as [E1 E2]. unfold bytes_eqb in E2. apply bool_decide_eq_true in E2.
    apply confirm_inv; [done|done|done|]. subst node.
    apply (answered_inv log now); [by destruct (f_anchor g)|done|lia|lia|done]. }
  assert (Hne : node <> f_anchor g).
  { intros ->. unfold bytes_eqb in E. rewrite bool_decide_true, andb_true_r in E by done.
    destruct (f_anchor g); done. }
  clear E. assert (Hi' : anchor_inv (log ++ [(node, now)]) now g).
  { apply (anchor_inv_mono log _ now); [lia| |done]. intros t Ht. by apply list_elem_of_singleton in Ht as [= ?]. }
  destruct (negb (f_picking g)); [done|].
  assert (Hw : let r := if f_anchor_confirmed g then (g, false) else cand_ack g node now in
    anchor_inv (log ++ [(node, now)]) now r.1 /\ f_anchor r.1 = f_anchor g /\
    (r.2 = true -> earned (log ++ [(node, now)]) now node)).
  { destruct (f_anchor_confirmed g); cbn zeta; [by split|].
    destruct (cand_ack_inv log now g node now Hn Hne Hln ltac:(lia) Hnow Hi) as (? & ? & _ & _ & ?). done. }
  destruct (if f_anchor_confirmed g then _ else _) as [m won]. cbn [fst snd] in Hw.
  destruct Hw as (Hm & Ha & Hwon).
  assert (Hset : forall c k, run_ok (log ++ [(node, now)]) node k now ->
    anchor_inv (log ++ [(node, now)]) now (anchor_set m node now c k).1 /\
    f_anchor (anchor_set m node now c k).1 = node /\
    f_anchor_vouched (anchor_set m node now c k).1 = false /\
    f_anchor_candidate (anchor_set m node now c k).1 = c).
  { intros c k Hr. split; [by apply set_inv; [lia|..]|]. unfold anchor_set. rewrite Hn, Ha. cbn [negb].
    unfold bytes_eqb. rewrite bool_decide_false by congruence. done. }
  assert (Hone : (node, now) ∈ log ++ [(node, now)]) by (apply elem_of_app; right; by left).
  destruct won.
  - destruct (Hwon eq_refl) as [Hc Ht]. destruct (Hset false NETSTATE_ANCHOR_QUALIFY) as (Hs & Hsa & Hsv & Hsc).
    { split; [anchor_consts; lia|]. done. }
    eapply anchor_inv_view; [symmetry; apply facts_views|].
    set (s := (anchor_set m node now false NETSTATE_ANCHOR_QUALIFY).1) in *. clearbody s.
    destruct Hs as [a b c d e k q n]. split; cbn; try done.
    + intros Hc'. congruence.
    + intros Hnil. rewrite Hsa in Hnil. by rewrite Hnil in Hn.
    + intros _. rewrite Hsa. by split.
    + split; [lia|]. split; constructor.
  - destruct (_ && _); [done|]. apply Hset. split; [anchor_consts; lia|].
    rewrite answer_count_app, answer_count_one. pose proof (answer_count_nonneg node log). split; [lia|done].
Qed.

Lemma dht_ack_inv log T h i family epoch node now f :
  log_ok log T -> 0 <= T <= now -> now < 2 ^ 40 -> anchor_inv log T f ->
  eqb (fam_idx family) i = true ->
  anchor_inv (log ++ answer_of i f (DhtAck family epoch node now)) now
    (fam_on_dht_ack h epoch node now f).
Proof.
  intros Hlog HT Hnow Hi Hfam. cbn [answer_of]. rewrite Hfam. cbn [andb]. unfold fam_on_dht_ack.
  apply (anchor_inv_later _ _ now) in Hi as Hi1; [|lia].
  destruct (epoch =? f_epoch f); cbn [negb andb]; [|by rewrite app_nil_r].
  assert (Hi2 : anchor_inv log now (sync_conn (f <| f_up_epoch := epoch |>))).
  { eapply anchor_inv_view; [|exact Hi1]. by destruct (sync_views (f <| f_up_epoch := epoch |>)) as [_ ->]. }
  set (s := sync_conn _) in *. clearbody s. clear f Hi Hi1.
  set (g := if f_dht_acked s then _ else _).
  assert (Hg : anchor_inv log now g).
  { unfold g. destruct (f_dht_acked s); [done|]. eapply anchor_inv_view; [|exact Hi2].
    by destruct (facts_views h (s <| f_dht_acked := true |>)) as (_ & _ & ->). }
  clearbody g. clear s Hi2. destruct (node_ok node) eqn:En; cbn [negb]; [|by rewrite app_nil_r].
  apply (dht_ack_rest_inv log T); [done|done|done|done|].
  apply (next_inv log now); [lia|done|done].
Qed.

Lemma tick_quiet_inv log T h now f :
  log_ok log T -> 0 <= T <= now -> now < 2 ^ 40 -> anchor_inv log T f ->
  anchor_inv log now (tick_quiet h now f).
Proof.
  intros Hlog HT Hnow Hi. unfold tick_quiet.
  destruct (nonempty (f_anchor f) && (f_anchor_next_ms f <=? now)) eqn:E;
    [|by apply (anchor_inv_later _ T); [lia|]].
  apply andb_true_iff in E as [_ Hnext%Z.leb_le].
  pose proof (next_inv log T now f HT Hnow Hi) as Hj. cbn [f_conn set set_f_anchor_next_ms].
  destruct (f_conn f =? NET_CONN_UP); [|done].
  assert (Hk : anchor_inv log now (f <| f_anchor_next_ms := u64 (now + NETSTATE_RDV_MS) |>
    <| f_anchor_quiet := i32 (f_anchor_quiet f + 1) |>)).
  { destruct Hi as [_ _ _ _ _ _ m (n1 & n2)]. destruct Hj as [a b c d e k m' _].
    rewrite u64_id in * by (unfold is_u64; anchor_consts; lia). anchor_consts.
    assert (Hq : 2000 * f_anchor_quiet f <= now).
    { destruct (decide (0 < f_anchor_quiet f)) as [H|H]; [destruct (n2 H); lia | lia]. }
    rewrite i32_id by (unfold is_i32; lia). split; try done; cbn; anchor_consts; split; [lia|].
    intros _. split; [lia|]. intros t Ht. pose proof (Hlog _ _ Ht).
    destruct (decide (0 < f_anchor_quiet f)) as [H1|H1]; [|lia].
    destruct (n2 H1) as [_ n4]. specialize (n4 t Ht). lia. }
  destruct (NETSTATE_ANCHOR_QUIET <=? _); [|done].
  destruct (f_anchor_candidate _) eqn:Ec; [by apply drop_inv|].
  eapply anchor_inv_view; [|exact Hk]. reflexivity.
Qed.

Lemma tick_inv log T h now f :
  log_ok log T -> 0 <= T <= now -> now < 2 ^ 40 -> anchor_inv log T f ->
  anchor_inv log now (fam_tick h now f).
Proof.
  intros Hlog HT Hnow Hi. unfold fam_tick.
  assert (Hln : log_ok log now) by (intros n t H; apply Hlog in H; lia).
  assert (H1 : anchor_inv log T (tick_probe now (tick_src now f))).
  { eapply anchor_inv_view; [|exact Hi]. destruct (tick_probe_views now (tick_src now f)) as (_ & _ & ->).
    by destruct (tick_src_views now f) as (_ & _ & ->). }
  pose proof (confirm_inv log now h now _ Hln eq_refl Hnow (tick_quiet_inv log T h now _ Hlog HT Hnow H1)) as H2.
  unfold tick_trial. destruct (_ && _) eqn:E; [|done].
  apply andb_true_iff in E as [[_ Hc]%andb_true_iff _]. by apply drop_inv.
Qed.

Lemma netmon_inv log T h i changed addrs now f :
  0 <= T <= now -> anchor_inv log T f -> anchor_inv log now (fam_on_netmon h i changed addrs now f).
Proof.
  intros HT Hi. apply (anchor_inv_later _ _ now) in Hi; [|lia]. unfold fam_on_netmon.
  pose proof (local_sync_views f (if i then 6 else 4) addrs) as [_ Hv].
  destruct (local_sync f _ addrs) as [[g lost] gained]. cbn [fst] in Hv. symmetry in Hv.
  apply (anchor_inv_view _ _ _ _ Hv) in Hi.
  set (g1 := if lost || gained then _ else g).
  assert (H1 : anchor_inv log now g1).
  { eapply anchor_inv_view; [|exact Hi]. unfold g1. by destruct (lost || gained). }
  clearbody g1. set (g2 := if eqb _ _ then g1 else _).
  assert (H2 : anchor_inv log now g2).
  { eapply anchor_inv_view; [|exact H1]. unfold g2. destruct (eqb _ _); [done|].
    set (s := sync_conn _). destruct (facts_views h s) as (_ & _ & ->). unfold s.
    by destruct (sync_views (g1 <| f_has_addr := nonempty (f_locals g1) |>)) as [_ ->]. }
  destruct (truth _); [apply moved_inv; [lia|done] | done].
Qed.

Lemma facts_anch_view h f : anch_view (facts_moved h f) = anch_view f.
Proof. apply facts_views. Qed.
Lemma sync_anch_view f : anch_view (sync_conn f) = anch_view f.
Proof. apply sync_views. Qed.

(** Facts that are not about the anchor leave it alone. *)
Lemma step_anch_view h i f e :
  match e with
  | NetMon _ _ _ | DhtAck _ _ _ _ | AnchorSeen _ _ | RdvOffered _ _ _ | RdvVouched _ _ _
  | SetPicking _ _ | NsTick _ => True
  | _ => anch_view (fam_step h i f e) = anch_view f
  end.
Proof.
  destruct e; try done; cbn [fam_step]; unfold for_fam;
    try (destruct (eqb (fam_idx _) i); [|done]).
  - unfold fam_on_src. destruct (negb _); [done|]. destruct (_ || _).
    { destruct (f_routed _); [by rewrite facts_anch_view, sync_anch_view | done]. }
    set (k := if _ || _ then _ else _). assert (Hk : anch_view k = anch_view f).
    { unfold k. by destruct (_ || _). }
    clearbody k. destruct (f_routed k); [done|]. 
    by rewrite facts_anch_view, sync_anch_view, <- Hk.
  - unfold fam_on_probe_started. by destruct (negb _).
  - unfold fam_on_probe_deferred. by destruct (negb _).
  - unfold fam_on_probe_done. by fam_cases.
  - unfold fam_on_servers. by fam_cases.
  - unfold fam_on_roundtrip. destruct (negb _); [done|].
    by rewrite sync_anch_view.
  - unfold fam_on_reflexive, xlat_note. destruct (_ || _); [done|].
    destruct (local_idx f addr) as [k|]; [destruct (f_locals f !! k); [|done]; by destruct (_ || _)|].
    destruct (idx_from _ _ _ _); [done|]. by destruct (_ <=? _)%nat.
  - unfold fam_on_dht_concluded. destruct (eqb (f_concluded f) _); [done|].
    by rewrite facts_anch_view.
Qed.

Lemma seen_inv log T i family now f :
  log_ok log T -> 0 <= T <= now -> anchor_inv log T f -> eqb (fam_idx family) i = true ->
  anchor_inv (log ++ answer_of i f (AnchorSeen family now)) now (fam_on_anchor_seen now f).
Proof.
  intros Hlog HT Hi Hf. cbn [answer_of]. rewrite Hf. cbn [andb]. unfold fam_on_anchor_seen.
  destruct (f_anchor f) as [|b l] eqn:Ea; cbn [nonempty negb].
  - rewrite app_nil_r. by apply (anchor_inv_later _ T); [lia|].
  - rewrite <- Ea. apply (answered_inv log T); [by rewrite Ea| |lia|lia|done].
    intros n t H. apply Hlog in H. lia.
Qed.

Lemma vouched_inv log T h node now f :
  0 <= now <= T -> anchor_inv log T f -> anchor_inv log T (fam_on_rdv_vouched h node now f).
Proof.
  intros Hn Hi. unfold fam_on_rdv_vouched.
  assert (Hs : anchor_inv log T (anchor_set f node now false 0).1).
  { apply set_inv; [done| |done]. pose proof (answer_count_nonneg node log).
    split; [anchor_consts; lia|]. split; lia. }
  set (s := (anchor_set f node now false 0).1) in *. clearbody s.
  destruct (f_anchor s) as [|b l] eqn:Ea; cbn [nonempty negb orb]; [done|].
  destruct (f_anchor_vouched s); [done|].
  eapply anchor_inv_view; [symmetry; apply facts_views|].
  destruct Hs as [a' b' c d e k m n]. split; cbn; try done. intros Hnil. rewrite Ea in Hnil. done.
Qed.

Lemma anchor_step_inv log T h i f e :
  log_ok log T -> 0 <= T <= time_after T e -> time_after T e < 2 ^ 40 -> anchor_inv log T f ->
  anchor_inv (log ++ answer_of i f e) (time_after T e) (fam_step h i f e).
Proof.
  intros Hlog HT Hnow Hi.
  assert (Hstay : anchor_inv log (time_after T e) f) by (by apply (anchor_inv_later _ T); [lia|]).
  pose proof (step_anch_view h i f e) as Hv.
  destruct e; cbn [answer_of]; rewrite ?app_nil_r;
    try (eapply anchor_inv_view; [symmetry; exact Hv | exact Hstay]);
    clear Hv; cbn [fam_step]; unfold for_fam.
  - by apply (netmon_inv log T).
  - destruct (eqb (fam_idx family) i) eqn:Ef; [|cbn [andb]; by rewrite app_nil_r].
    pose proof (dht_ack_inv log T h i family epoch node now f Hlog HT Hnow Hi Ef) as H.
    cbn [answer_of] in H. by rewrite Ef in H.
  - destruct (eqb (fam_idx family) i) eqn:Ef; [|cbn [andb]; by rewrite app_nil_r].
    pose proof (seen_inv log T i family now f Hlog HT Hi Ef) as H.
    cbn [answer_of] in H. by rewrite Ef in H.
  - destruct (eqb (fam_idx family) i); [|done]. unfold fam_on_rdv_offered. cbn in HT, Hstay |- *.
    apply set_inv; [lia| |done]. pose proof (answer_count_nonneg node log).
    split; [anchor_consts; lia|]. split; lia.
  - destruct (eqb (fam_idx family) i); [|done]. cbn in HT, Hstay |- *. apply vouched_inv; [lia|done].
  - destruct (eqb (fam_idx family) i); [|done]. unfold fam_set_picking.
    destruct (eqb (f_picking f) on); [done|]. destruct Hstay as [a b c d e k m n].
    destruct on; split; cbn; try done. split; [lia|]. split; constructor.
  - by apply (tick_inv log T).
Qed.

(** Everything a run concludes about its anchor is justified by its answers. *)
Lemma run_inv h now0 i es :
  0 <= now0 -> clocked now0 es ->
  log_ok (answers h now0 i es) (last_time now0 es) /\ 0 <= last_time now0 es /\
  anchor_inv (answers h now0 i es) (last_time now0 es) (fam_at h now0 i es).
Proof.
  intros H0. induction es as [|e es IH] using rev_ind; intros Hc.
  - rewrite fam_at_nil. split; [intros n t H; by apply elem_of_nil in H|]. split; [done|].
    split; cbn; anchor_consts; try done; try lia; auto.
    split; [lia|]. split; constructor.
  - apply clocked_snoc in Hc as [Hc He]. destruct (IH Hc) as (Hl & Ht & Hi).
    rewrite last_time_snoc, fam_at_snoc, answers_snoc.
    split; [|split; [lia | apply anchor_step_inv; auto; lia]].
    intros n t [H|H]%elem_of_app; [apply Hl in H; lia|].
    destruct e; cbn [answer_of] in H; try (by apply elem_of_nil in H);
      destruct (_ && _) in H; try (by apply elem_of_nil in H);
      apply list_elem_of_singleton in H as [= -> ->]; cbn in *; lia.
Qed.

(** A rendezvous node is confirmed only on answers: in any run whose clock
    does not go back, a confirmed anchor has been reported to answer at least
    four times, and the first of these answers lies at least ten seconds back. *)
Theorem anchor_qualified h now0 i es :
  0 <= now0 -> clocked now0 es ->
  f_anchor_confirmed (fam_at h now0 i es) = true ->
  let log := answers h now0 i es in
  let n := f_anchor (fam_at h now0 i es) in
  NETSTATE_ANCHOR_QUALIFY <= answer_count n log /\
  exists t, (n, t) ∈ log /\ t + NETSTATE_ANCHOR_PROVE_MS <= last_time now0 es.
Proof.
  intros H0 Hc Hcf. destruct (run_inv h now0 i es H0 Hc) as (_ & _ & Hi).
  exact (ai_earned _ _ _ Hi Hcf).
Qed.

(** ** Losing the place *)

(** The peer names a node for this family. *)
Definition peers_word (i : bool) (e : ns_event) : bool :=
  match e with
  | RdvOffered family _ _ | RdvVouched family _ _ => eqb (fam_idx family) i
  | _ => false
  end.

(** Another node of this family answered, on the network it is on. *)
Definition other_answered (i : bool) (f : netstate_fam) (e : ns_event) : bool :=
  match e with
  | DhtAck family epoch node _ =>
      eqb (fam_idx family) i && (epoch =? f_epoch f) && node_ok node && negb (bytes_eqb (f_anchor f) node)
  | _ => false
  end.

Lemma answered_anchor now f : f_anchor (anchor_answered now f) = f_anchor f.
Proof. unfold anchor_answered. fam_cases; reflexivity. Qed.
Lemma confirm_anchor h now f : f_anchor (anchor_confirm h now f) = f_anchor f.
Proof. unfold anchor_confirm. frame. Qed.

Lemma tick_anchor h now f :
  f_anchor_candidate f = false -> f_anchor (fam_tick h now f) = f_anchor f.
Proof.
  intros Hc. unfold fam_tick.
  set (g := tick_probe now (tick_src now f)).
  assert (Hg : f_anchor g = f_anchor f /\ f_anchor_candidate g = false).
  { rewrite <- Hc. unfold g, tick_probe, tick_src. split; fam_cases; reflexivity. }
  clearbody g. destruct Hg as [<- Hgc].
  assert (Hq : f_anchor (tick_quiet h now g) = f_anchor g /\ f_anchor_candidate (tick_quiet h now g) = false).
  { unfold tick_quiet. destruct (_ && _); [|done]. cbn [f_conn set set_f_anchor_next_ms].
    destruct (_ =? _); [|done]. destruct (_ <=? _); [|done]. cbn. rewrite Hgc. done. }
  destruct Hq as [<- Hqc]. set (q := tick_quiet h now g) in *. clearbody q.
  assert (Hk : f_anchor_candidate (anchor_confirm h now q) = false).
  { unfold anchor_confirm, facts_moved. fam_cases; done. }
  unfold tick_trial. rewrite Hk, andb_false_r. cbn [andb]. apply confirm_anchor.
Qed.

Lemma netmon_anchor h i changed addrs now f :
  f_anchor (fam_on_netmon h i changed addrs now f) = f_anchor f.
Proof.
  unfold fam_on_netmon. pose proof (local_sync_views f (if i then 6 else 4) addrs) as [_ Hv].
  destruct (local_sync f _ addrs) as [[g lost] gained]. cbn [fst] in Hv.
  unfold anch_view in Hv. injection Hv as <- _ _ _ _ _ _ _ _ _ _.
  set (g1 := if lost || gained then _ else g).
  assert (H1 : f_anchor g1 = f_anchor g) by (unfold g1; by destruct (lost || gained)).
  rewrite <- H1. clearbody g1. set (g2 := if eqb _ _ then g1 else _).
  assert (H2 : f_anchor g2 = f_anchor g1) by (unfold g2; frame).
  rewrite <- H2. clearbody g2. destruct (truth _); [|done]. unfold fam_moved.
  set (same := same_network _ _ _ _). clearbody same. frame.
Qed.

(** What an answer can do to a node that is not on trial. *)
Lemma dht_ack_anchor h epoch node now f :
  f_anchor f <> [] -> (f_anchor_confirmed f = true \/ f_picking f = false) ->
  f_anchor (fam_on_dht_ack h epoch node now f) <> f_anchor f ->
  epoch = f_epoch f /\ node_ok node = true /\ f_anchor f <> node /\ f_picking f = true /\
  NETSTATE_ANCHOR_GONE <= f_anchor_quiet f.
Proof.
  intros Hne Hcp. unfold fam_on_dht_ack. destruct (Z.eqb_spec epoch (f_epoch f)) as [->|]; [cbn [negb]|done].
  set (s := sync_conn _).
  assert (Hs : anch_view s = anch_view f) by (unfold s; by rewrite sync_anch_view).
  clearbody s. set (g := if f_dht_acked s then _ else _).
  assert (Hg : anch_view g = anch_view f).
  { unfold g. destruct (f_dht_acked s); [done|]. by rewrite facts_anch_view, <- Hs. }
  clearbody g. clear s Hs. unfold anch_view in Hg. injection Hg as Ha Hp _ Hcf _ _ _ Hq _ _ _.
  destruct (node_ok node); cbn [negb]; [|by rewrite Ha].
  cbn [f_anchor f_picking f_anchor_confirmed f_anchor_quiet set set_f_anchor_next_ms].
  rewrite Ha, Hp, Hcf. assert (Hnn : nonempty (f_anchor f) = true) by (by destruct (f_anchor f)).
  rewrite Hnn. cbn [andb]. unfold bytes_eqb. case_bool_decide as Hb.
  { rewrite confirm_anchor, answered_anchor. cbn. by rewrite Ha. }
  destruct (f_picking f); cbn [negb]; [|cbn; by rewrite Ha].
  destruct Hcp as [->|]; [|done]. cbn [f_anchor f_anchor_quiet set set_f_anchor_next_ms]. rewrite Ha, Hnn, Hq. cbn [andb].
  destruct (Z.ltb_spec (f_anchor_quiet f) NETSTATE_ANCHOR_GONE); [cbn; by rewrite Ha|]. done.
Qed.

(** A rendezvous node that may be in a token is not given up lightly: in any
    run whose clock does not go back, an anchor that is confirmed, or that is not
    on trial on an end that may not choose, stays what it is through every event
    but two.  Either the peer names another node, or, on an end that may choose,
    another node answers when the anchor is confirmed and has not answered for
    at least 178 seconds. *)
Theorem anchor_kept h now0 i es e :
  0 <= now0 -> clocked now0 (es ++ [e]) ->
  let f := fam_at h now0 i es in
  f_anchor f <> [] -> f_anchor_candidate f = false ->
  (f_anchor_confirmed f = true \/ f_picking f = false) ->
  f_anchor (fam_at h now0 i (es ++ [e])) <> f_anchor f ->
  peers_word i e = true \/
  (f_picking f = true /\ f_anchor_confirmed f = true /\ other_answered i f e = true /\
   forall t, (f_anchor f, t) ∈ answers h now0 i es -> t + 178000 <= last_time now0 es).
Proof.
  intros H0 Hc f Hne Hcand Hcp. rewrite fam_at_snoc. fold f. intros Hch.
  apply clocked_snoc in Hc as [Hc _]. destruct (run_inv h now0 i es H0 Hc) as (_ & _ & Hi). fold f in Hi.
  pose proof (step_anch_view h i f e) as Hv.
  destruct e; try (destruct Hch; exact (f_equal (fun v => v.1.1.1.1.1) Hv));
    cbn [fam_step] in Hch; unfold for_fam in Hch; cbn [peers_word other_answered];
    try (destruct (eqb (fam_idx family) i); [cbn [andb]|done]).
  - by rewrite netmon_anchor in Hch.
  - right. destruct (dht_ack_anchor h epoch node now f Hne Hcp Hch) as (-> & -> & Hd & Hp & Hq).
    rewrite Hp in Hcp. destruct Hcp as [Hcf|]; [|done]. split; [done|]. split; [done|].
    split; [by rewrite Z.eqb_refl; unfold bytes_eqb; rewrite bool_decide_false|].
    intros t Ht. pose proof (ai_next _ _ _ Hi). destruct (ai_quiet _ _ _ Hi) as [_ Hq'].
    anchor_consts. destruct (Hq' ltac:(lia)) as [_ Hq'']. specialize (Hq'' t Ht). lia.
  - unfold fam_on_anchor_seen in Hch. destruct (negb _); [done|]. by rewrite answered_anchor in Hch.
  - by left.
  - by left.
  - unfold fam_set_picking in Hch. destruct (eqb (f_picking f) on); [done|]. by destruct on.
  - by rewrite tick_anchor in Hch.
Qed.

(** ** The state's invariant *)

(** The types the C keeps by convention: the connectivity that is told is the one
    the facts say; addresses are held once, within the arrays, with their scope;
    a node on trial is neither confirmed nor vouched for; no proof outlives its
    node; and the nodes on trial fit their array, each once, none without an
    answer. *)
Record fam_ok (i : bool) (f : netstate_fam) : Prop := mk_fam_ok {
  fo_conn : conn_ok f;
  fo_addrs : addrs_ok i f;
  fo_has : has_ok f;
  fo_anchor : (length (f_anchor f) <= NETSTATE_SA_MAX)%nat;
  fo_trial : f_anchor_candidate f = true ->
             f_anchor f <> [] /\ f_anchor_confirmed f = false /\ f_anchor_vouched f = false;
  fo_none : f_anchor f = [] -> f_anchor_confirmed f = false /\ f_anchor_vouched f = false;
  fo_acks : 0 <= f_anchor_acks f <= NETSTATE_ANCHOR_QUALIFY;
  fo_cands : (length (f_cands f) <= NETSTATE_CANDS_MAX)%nat;
  fo_cands_once : NoDup (map c_addr (f_cands f));
  fo_cands_acks : Forall (fun c => 0 < c_acks c <= NETSTATE_ANCHOR_QUALIFY) (f_cands f)
}.

(** Every state a run can reach is well formed, in both families, whatever is
    reported and in whatever order, the clock not going back. *)
Theorem netstate_run_ok h now0 es i :
  0 <= now0 -> clocked now0 es -> Forall event_ok es ->
  fam_ok i (get2 (nst_f (netstate_run (netstate_init h now0) es)) i).
Proof.
  intros H0 Hc He. fold (fam_at h now0 i es).
  destruct (run_inv h now0 i es H0 Hc) as (_ & _ & [a b c (d & _) _ (k1 & k2 & k3) _ _]). split; try done.
  - exact (fam_invariant h i conn_ok now0 eq_refl (fam_step_conn_ok h i) es).
  - by apply run_addrs_ok.
  - exact (fam_invariant h i has_ok now0 eq_refl (fam_step_has i h) es).
  - destruct a as [->|Hn]; [cbn; lia|]. apply andb_true_iff in Hn as [_ Hn]. by apply Nat.leb_le in Hn.
  - intros Hnil. destruct (c Hnil) as (? & ? & _). done.
  - eapply Forall_impl; [exact k3|]. intros x (_ & Hp & (Hx & _)). lia.
Qed.

(** ** What the rules do not prevent *)

(** Other nodes answer, and every tick falls within two seconds of an answer. *)
Fixpoint others_busy (i : bool) (n : bytes) (epoch last : Z) (es : list ns_event) : Prop :=
  match es with
  | [] => True
  | DhtAck family ep node now :: es' =>
      eqb (fam_idx family) i = true /\ ep = epoch /\ node_ok node = true /\ node <> n /\
      0 <= now < 2 ^ 40 /\ others_busy i n epoch now es'
  | NsTick now :: es' => now < last + NETSTATE_RDV_MS /\ others_busy i n epoch last es'
  | _ :: _ => False
  end.

Lemma busy_ack h epoch node now f :
  f_anchor f <> [] -> f_anchor_confirmed f = true -> f_anchor_quiet f < NETSTATE_ANCHOR_GONE ->
  epoch = f_epoch f -> node_ok node = true -> node <> f_anchor f -> 0 <= now < 2 ^ 40 ->
  let f' := fam_on_dht_ack h epoch node now f in
  f_anchor f' = f_anchor f /\ f_anchor_confirmed f' = true /\ f_anchor_quiet f' = f_anchor_quiet f /\
  f_anchor_next_ms f' = now + NETSTATE_RDV_MS /\ f_anchor_candidate f' = f_anchor_candidate f /\
  f_epoch f' = f_epoch f.
Proof.
  intros Hne Hcf Hq He Hn Hd Hnow. cbn zeta.
  assert (Hep : f_epoch (fam_on_dht_ack h epoch node now f) = f_epoch f).
  { pose proof (dht_ack_up_view h epoch node now f) as H. unfold up_view in H.
    destruct (epoch =? f_epoch f); by injection H as -> _. }
  unfold fam_on_dht_ack in *. rewrite He, Z.eqb_refl in *. cbn [negb] in *.
  set (s := sync_conn _) in *.
  assert (Hs : anch_view s = anch_view f) by (unfold s; by rewrite sync_anch_view).
  clearbody s. set (g := if f_dht_acked s then _ else _) in *.
  assert (Hg : anch_view g = anch_view f).
  { unfold g. destruct (f_dht_acked s); [done|]. by rewrite facts_anch_view, <- Hs. }
  clearbody g. clear s Hs. unfold anch_view in Hg. injection Hg as Ha Hp _ Hc _ Hca _ Hqq _ _ _.
  rewrite Hn in *. cbn [negb] in *. set (k := g <| f_anchor_next_ms := _ |>) in *.
  assert (Hk : f_anchor k = f_anchor f /\ f_anchor_confirmed k = true /\ f_anchor_quiet k = f_anchor_quiet f /\
    f_anchor_next_ms k = now + NETSTATE_RDV_MS /\ f_anchor_candidate k = f_anchor_candidate f).
  { unfold k. cbn. rewrite Ha, Hc, Hqq, Hca. split; [done|]. split; [done|]. split; [done|]. split; [|done]. apply u64_id. unfold is_u64. anchor_consts. lia. }
  clearbody k. destruct Hk as (K1 & K2 & K3 & K4 & K5). rewrite K1 in *.
  unfold bytes_eqb in *. rewrite bool_decide_false, andb_false_r in * by congruence.
  destruct (negb (f_picking k)); [by rewrite ?K1|]. rewrite K2 in *. rewrite K1, K3 in *.
  assert (Hnn : nonempty (f_anchor f) = true) by (by destruct (f_anchor f)). rewrite Hnn in *.
  destruct (Z.ltb_spec (f_anchor_quiet f) NETSTATE_ANCHOR_GONE); [|lia]. by rewrite ?K1.
Qed.

Lemma busy_tick h now f :
  f_anchor_confirmed f = true -> now < f_anchor_next_ms f ->
  let f' := fam_tick h now f in
  anch_view f' = anch_view f \/ f_anchor_candidate f = true.
Proof.
  intros Hcf Hnext. cbn zeta. unfold fam_tick. set (g := tick_probe now (tick_src now f)).
  assert (Hg : anch_view g = anch_view f).
  { unfold g. destruct (tick_probe_views now (tick_src now f)) as (_ & _ & ->). apply tick_src_views. }
  rewrite <- Hg. unfold anch_view in Hg. injection Hg as Ha _ _ Hc _ Hcand _ _ _ _ Hn. clearbody g.
  unfold tick_quiet. rewrite Hn. destruct (Z.leb_spec (f_anchor_next_ms f) now); [lia|]. rewrite andb_false_r.
  unfold anchor_confirm. rewrite Hc, Hcf, orb_true_r. unfold tick_trial. rewrite Hcand.
  destruct (f_anchor_candidate f); [by right|]. left. by rewrite andb_false_r.
Qed.

(** The silence of a dead rendezvous node goes unnoticed while other nodes
    answer: once a confirmed anchor is held, through any sequence of answers of
    other nodes in which every tick comes within two seconds of one of them, no
    round is ever counted against the anchor, so it is neither searched for nor
    replaced, however long the sequence. *)
Theorem quiet_starved h now0 i es busy :
  0 <= now0 -> clocked now0 es ->
  let f := fam_at h now0 i es in
  let f' := fam_at h now0 i (es ++ busy) in
  f_anchor_confirmed f = true -> f_anchor_quiet f < NETSTATE_ANCHOR_GONE ->
  f_anchor_next_ms f = last_time now0 es + NETSTATE_RDV_MS ->
  others_busy i (f_anchor f) (f_epoch f) (last_time now0 es) busy ->
  f_anchor f' = f_anchor f /\ f_anchor_quiet f' = f_anchor_quiet f.
Proof.
  intros H0 Hc f f' Hcf Hq Hnext Hb.
  destruct (run_inv h now0 i es H0 Hc) as (_ & _ & Hi). fold f in Hi.
  assert (Hne : f_anchor f <> []).
  { intros E. destruct (ai_none _ _ _ Hi E). congruence. }
  assert (Hcand : f_anchor_candidate f = false).
  { destruct (f_anchor_candidate f) eqn:E; [|done]. destruct (ai_cand _ _ _ Hi E) as (_ & ? & _). congruence. }
  unfold f'. rewrite fam_at_fold, fold_left_app, <- fam_at_fold. fold f.
  clear f' Hi Hc H0. revert Hb Hnext. generalize (last_time now0 es). clearbody f. clear es now0.
  revert f Hcf Hq Hne Hcand. induction busy as [|e busy IH]; intros f Hcf Hq Hne Hcand t Hb Hnext; [done|].
  destruct e; try done; cbn [fold_left]; cbn [others_busy] in Hb.
  - destruct Hb as (Hf & He & Hn & Hd & Hnow & Hb). cbn [fam_step]. unfold for_fam. rewrite Hf.
    destruct (busy_ack h epoch node now f Hne Hcf Hq He Hn Hd Hnow) as (Ka & Kc & Kq & Kn & Kk & Ke).
    rewrite <- Ka, <- Kq. apply (IH _ Kc ltac:(lia) ltac:(congruence) ltac:(congruence) now); [by rewrite Ka, Ke|done].
  - destruct Hb as [Hnow Hb]. cbn [fam_step].
    destruct (busy_tick h now f Hcf ltac:(lia)) as [Hv|]; [|congruence].
    assert (He : f_epoch (fam_tick h now f) = f_epoch f).
    { pose proof (fam_tick_views h now f) as [H _]. unfold conn_view in H. by injection H as _ _ -> _ _. }
    unfold anch_view in Hv. injection Hv as Va _ _ Vc _ Vk _ Vq _ _ Vn.
    rewrite <- Va, <- Vq. apply (IH (fam_tick h now f) ltac:(congruence) ltac:(lia) ltac:(congruence) ltac:(congruence) t);
      [by rewrite Va, He | congruence].
Qed.

(** ** Runs evaluated *)
Definition demo_a : bytes := [2; 0; 26; 225; 192; 0; 2; 7].
Definition demo_b : bytes := [2; 0; 26; 225; 192; 0; 2; 8].

(** Four answers of a node over eleven seconds. *)
Definition demo_steady : list ns_event :=
  demo_up ++ [DhtAck 4 2 demo_a 1000; DhtAck 4 2 demo_a 4000; DhtAck 4 2 demo_a 8000; DhtAck 4 2 demo_a 11500].

(** Four answers within 300 ms, and then ten seconds of silence. *)
Definition demo_burst : list ns_event :=
  demo_up ++ [DhtAck 4 2 demo_a 1000; DhtAck 4 2 demo_a 1100; DhtAck 4 2 demo_a 1200; DhtAck 4 2 demo_a 1300] ++
  map NsTick [2000; 3000; 4000; 5000; 6000; 7000; 8000; 9000; 10000; 11000].

(** Ten seconds need not be spent answering: four answers within 300 ms, and
    none for the next 9.7 seconds of ticks, leave the node confirmed, although
    the window is meant to pass only a node that goes on answering. *)
Theorem burst_confirms :
  let f := fam_at true 0 false demo_burst in
  f_anchor_confirmed f = true /\ f_anchor f = demo_a /\ f_anchor_quiet f = 4 /\
  map snd (from_node demo_a (answers true 0 false demo_burst)) = [1000; 1100; 1200; 1300] /\
  last_time 0 demo_burst = 11000.
Proof. vm_compute. repeat split. Qed.

(** A node the peer vouched for, and that the token names, answers at 11.4 s; a
    hundred milliseconds later another node has its four answers and takes its
    place. *)
Definition demo_vouched : list ns_event :=
  demo_up ++ [RdvVouched 4 demo_a 1000; DhtAck 4 2 demo_b 1000; DhtAck 4 2 demo_b 4000;
    DhtAck 4 2 demo_b 8000; AnchorSeen 4 11400].
Lemma vouched_unseated_alive :
  let f := fam_at true 0 false demo_vouched in
  let f' := fam_at true 0 false (demo_vouched ++ [DhtAck 4 2 demo_b 11500]) in
  f_anchor f = demo_a /\ f_anchor_vouched f = true /\ f_anchor_quiet f = 0 /\
  dht_acked (netstate_facts (netstate_run (netstate_init true 0) demo_vouched) 4) = true /\
  f_anchor f' = demo_b.
Proof. vm_compute. repeat split. Qed.

(** A vouch that names no node is credited to the node held. *)
Lemma vouch_of_nothing :
  let f := fam_at true 0 false (demo_up ++ [DhtAck 4 2 demo_a 1000]) in
  let f' := fam_at true 0 false (demo_up ++ [DhtAck 4 2 demo_a 1000; RdvVouched 4 [] 1100]) in
  f_anchor_candidate f = true /\ f_anchor_vouched f = false /\
  f_anchor f' = demo_a /\ f_anchor_vouched f' = true.
Proof. vm_compute. repeat split. Qed.

Ltac run_hyp := vm_compute; repeat split; (reflexivity || discriminate || lia).

Lemma clocked_steady : clocked 0 demo_steady.
Proof. run_hyp. Qed.

Lemma anchor_qualified_witness :
  f_anchor (fam_at true 0 false demo_steady) = demo_a /\
  NETSTATE_ANCHOR_QUALIFY <= answer_count (f_anchor (fam_at true 0 false demo_steady))
    (answers true 0 false demo_steady).
Proof.
  split; [reflexivity|].
  apply (anchor_qualified true 0 false demo_steady); [lia | exact clocked_steady | reflexivity].
Defined.

Lemma anchor_kept_witness :
  peers_word false (RdvOffered 4 demo_b 12000) = true \/
  f_picking (fam_at true 0 false demo_steady) = true.
Proof.
  destruct (anchor_kept true 0 false demo_steady (RdvOffered 4 demo_b 12000)) as [H|(H & _)].
  - lia.
  - run_hyp.
  - vm_compute. discriminate.
  - reflexivity.
  - left. reflexivity.
  - vm_compute. discriminate.
  - left. exact H.
  - right. exact H.
Defined.

Lemma netstate_run_ok_witness :
  fam_ok false (get2 (nst_f (netstate_run (netstate_init true 0) demo_steady)) false).
Proof.
  apply netstate_run_ok; [lia | exact clocked_steady|].
  repeat (apply Forall_cons_2; [first [exact I | apply Forall_cons_2; [reflexivity | apply Forall_nil_2]]|]).
  apply Forall_nil_2.
Defined.

Lemma quiet_starved_witness :
  let f' := fam_at true 0 false (demo_steady ++ [NsTick 13000; DhtAck 4 2 demo_b 13400; NsTick 15000]) in
  f_anchor f' = f_anchor (fam_at true 0 false demo_steady) /\
  f_anchor_quiet f' = f_anchor_quiet (fam_at true 0 false demo_steady).
Proof.
  apply quiet_starved.
  - lia.
  - exact clocked_steady.
  - reflexivity.
  - reflexivity.
  - reflexivity.
  - vm_compute. repeat split; discriminate.
Defined.
