(* ===== verification/SigFam.v ===== *)
(** src/src/sig.c, what the signaller holds per address family: the node it is
    rendezvoused at, and the evidence of which nodes answer, kept until the
    thread that owns the reachability model takes it.

    Of [struct sig] this is [fam[2]] with [locate], [located_any] and the
    host's [rh->info_pending].  A node is the bytes of its [sockaddr], [[]] when
    none is held.  What the DHT engine answers ([engage_dht], [bep44_pin_add])
    is an argument. *)
From S2P Require Import Prelude NsFacts.

Record sig_fam := mk_sigfam {
  rnode : bytes;
  ack_node : bytes;
  sf_epoch : Z;
  ack_new : bool;
  anchor_seen : bool;
  relocate : bool;
  relay : bool;
  sf_up : bool
}.

Record sig := mk_sig {
  sg_fam : sig_fam * sig_fam;          (* [0] v4, [1] v6 *)
  sg_dht : bool;                       (* [flags & SIG_DHT] *)
  sg_is_host : bool;
  sg_locate : bool;
  sg_located_any : bool;
  sg_info_pending : bool
}.

Definition sigfam_eta (f : sig_fam) : sig_fam :=
  mk_sigfam (rnode f) (ack_node f) (sf_epoch f) (ack_new f) (anchor_seen f) (relocate f) (relay f)
    (sf_up f).
#[export] Instance set_rnode : Setter rnode := ltac:(solve_setter sigfam_eta).
#[export] Instance set_ack_node : Setter ack_node := ltac:(solve_setter sigfam_eta).
#[export] Instance set_sf_epoch : Setter sf_epoch := ltac:(solve_setter sigfam_eta).
#[export] Instance set_ack_new : Setter ack_new := ltac:(solve_setter sigfam_eta).
#[export] Instance set_anchor_seen : Setter anchor_seen := ltac:(solve_setter sigfam_eta).
#[export] Instance set_relocate : Setter relocate := ltac:(solve_setter sigfam_eta).
#[export] Instance set_relay : Setter relay := ltac:(solve_setter sigfam_eta).
#[export] Instance set_sf_up : Setter sf_up := ltac:(solve_setter sigfam_eta).
Definition sig_eta (s : sig) : sig :=
  mk_sig (sg_fam s) (sg_dht s) (sg_is_host s) (sg_locate s) (sg_located_any s) (sg_info_pending s).
#[export] Instance set_sg_fam : Setter sg_fam := ltac:(solve_setter sig_eta).
#[export] Instance set_sg_locate : Setter sg_locate := ltac:(solve_setter sig_eta).
#[export] Instance set_sg_located_any : Setter sg_located_any := ltac:(solve_setter sig_eta).
#[export] Instance set_sg_info_pending : Setter sg_info_pending := ltac:(solve_setter sig_eta).

(** [sizeof(struct sockaddr_storage)] *)
Definition SA_STORAGE : nat := 128.

Definition sigfam_zero : sig_fam := mk_sigfam [] [] 0 false false false false false.
(** A signaller just made. *)
Definition sig_fresh (dht is_host : bool) : sig :=
  mk_sig (sigfam_zero, sigfam_zero) dht is_host false false false.

Definition sig_fam_of (s : sig) (family : Z) : sig_fam := get2 (sg_fam s) (fam_idx family).
Definition sig_on (s : sig) (family : Z) (g : sig_fam -> sig_fam) : sig :=
  s <| sg_fam := put2 (sg_fam s) (fam_idx family) (g (sig_fam_of s family)) |>.

Definition sig_set_family_up (s : sig) (family : Z) (up : bool) : sig :=
  sig_on s family (fun f => f <| sf_up := up |>).

Definition sig_set_family_epoch (s : sig) (family epoch : Z) : sig :=
  sig_on s family (fun f =>
    if sf_epoch f =? epoch then f
    else f <| sf_epoch := epoch |> <| anchor_seen := false |> <| ack_new := false |>).

Definition sig_located (s : sig) (family : Z) (out_len : nat) : option bytes :=
  let f := sig_fam_of s family in
  if negb (sg_locate s) || bool_decide (rnode f = []) || (out_len <? length (rnode f))%nat
  then None else Some (rnode f).

Definition sig_take_ack (s : sig) (family : Z) (out_len : nat) : sig * option bytes :=
  let f := sig_fam_of s family in
  if negb (ack_new f) || bool_decide (ack_node f = []) || (out_len <? length (ack_node f))%nat
  then (s, None)
  else (sig_on s family (fun f => f <| ack_new := false |>), Some (ack_node f)).

Definition sig_take_anchor_seen (s : sig) (family : Z) : sig * bool :=
  (sig_on s family (fun f => f <| anchor_seen := false |>), anchor_seen (sig_fam_of s family)).

Definition sig_relay (s : sig) (family : Z) (on : bool) : sig :=
  let s := sig_on s family (fun f => f <| relay := on |>) in
  if on then s <| sg_locate := true |> else s.

Definition sig_search_again (s : sig) (family : Z) : sig :=
  sig_on s family (fun f => f <| relocate := true |>).

(** The pin of the node is taken off the engine as well. *)
Definition sig_forget (s : sig) (family : Z) : sig :=
  if bool_decide (rnode (sig_fam_of s family) = []) then s
  else sig_on s family (fun f =>
    f <| rnode := [] |> <| ack_node := [] |> <| relocate := false |> <| anchor_seen := false |>
      <| ack_new := false |>).

Definition sig_locating (s : sig) (family : Z) : bool :=
  if negb (sg_dht s) || negb (sg_is_host s) || negb (sg_locate s) ||
     negb (bool_decide (rnode (sig_fam_of s family) = []))
  then false else sg_located_any s.

(** [engaged]: there is a DHT node, or one could be made; [pinned]: the engine
    took the pin.  The return of -1 is [false]. *)
Definition sig_reinforce (engaged pinned : bool) (s : sig) (family : Z) (sa : bytes) : sig * bool :=
  let f := sig_fam_of s family in
  if (SA_STORAGE <? length sa)%nat then (s, false)
  else if negb (sg_dht s) then (s, false)
  else if negb engaged then (s, false)
  else if negb pinned then (s, false)
  else
    let moved := negb (bytes_eqb (rnode f) sa) in
    let s := sig_on s family (fun f => if moved then f <| anchor_seen := false |> else f) in
    let s := if moved && sg_is_host s then s <| sg_info_pending := true |> else s in
    let s := sig_on s family (fun f => f <| rnode := sa |> <| relocate := false |>) in
    (s <| sg_locate := true |> <| sg_located_any := true |>, true).

Definition sig_seed_node (engaged pinned : bool) (s : sig) (sa : bytes) : bool :=
  sg_dht s && engaged && pinned.

(** A get that was asked when the family [i] was on epoch [qep]. *)
Definition ack_on_net (s : sig) (qep : Z) (family : Z) : bool := qep =? sf_epoch (sig_fam_of s family).

(** A node of [family] (0 for a socket address of neither) answered. *)
Definition node_note (s : sig) (qep family : Z) (node : bytes) : sig :=
  if bool_decide (node = []) || (SA_STORAGE <? length node)%nat then s
  else if negb ((family =? 4) || (family =? 6)) then s
  else
    let f := sig_fam_of s family in
    let on := ack_on_net s qep family in
    let s := if on && bytes_eqb (rnode f) node
             then sig_on s family (fun f => f <| anchor_seen := true |>) else s in
    let s := if on then sig_on s family (fun f => f <| ack_node := node |> <| ack_new := true |>) else s in
    if sg_locate s && bool_decide (rnode f = []) then
      let s := sig_on s family (fun f => f <| rnode := node |>) in
      let s := s <| sg_located_any := true |> in
      if sg_is_host s then s <| sg_info_pending := true |> else s
    else s.

(** ** When a signaller has gone quiet *)
Definition SIG_DHT_GET_MS : Z := 1000.
Definition SIG_QUIET_GONE_MS : Z := SIG_DHT_GET_MS * 8.
Definition SIG_QUIET_MS : Z := 60000.
Definition SIG_QUIET_COLD_MS : Z := 45000.

Definition sig_quiet_due (asking answered : bool) (idle_ms : Z) : bool :=
  if negb answered then SIG_QUIET_COLD_MS <? idle_ms
  else if negb asking then SIG_QUIET_GONE_MS <? idle_ms
  else SIG_QUIET_MS <? idle_ms.
