(* ===== verification/StunProbe.v ===== *)
(** src/src/stunprobe.c: the STUN messages of a probe round, the cache of resolved
    servers, and the classification of a NAT's mapping.

    Reading a packet is partial: the reader returns [None] where it would read
    past the datagram it was given, and is proved never to.  Sockets, the name
    lookup and the threads around them are not modelled. *)
From S2P Require Import Prelude Net.

Definition STUN_PROBE_REQ_LEN : nat := 20.
Definition STUN_PROBE_TXID_LEN : nat := 12.
Definition STUN_MAGIC : Z := 554869826.            (* 0x2112a442 *)
Definition STUN_BINDING_REQ : Z := 1.
Definition STUN_BINDING_OK : Z := 257.
Definition STUN_ATTR_MAPPED : Z := 1.
Definition STUN_ATTR_XOR_MAPPED : Z := 32.

Definition magic_bytes : bytes := be_put 4 STUN_MAGIC.

Definition stun_probe_build (txid : bytes) : bytes :=
  [STUN_BINDING_REQ >> 8; STUN_BINDING_REQ .& 255; 0; 0] ++ magic_bytes ++ take STUN_PROBE_TXID_LEN txid.

(** ** Reading a reply *)
Definition rd (p : bytes) (i : nat) : option Z := p !! i.
Definition rd16 (p : bytes) (i : nat) : option Z :=
  a ← rd p i; b ← rd p (i + 1); Some ((a << 8) .| b).
(** [memcmp(p + i, s, n)] of bytes that are there. *)
Definition rd_eq (p : bytes) (i : nat) (s : bytes) : option bool :=
  if (i + length s <=? length p)%nat then Some (bytes_eqb (slice i (length s) p) s) else None.

(** The attribute block's length, or -1; [None] is a read out of bounds. *)
Definition stun_reply_ok (pkt seed : bytes) : option (option nat) :=
  if (length pkt <? 20)%nat then Some None
  else
    type ← rd16 pkt 0;
    if negb (type =? STUN_BINDING_OK) then Some None
    else
      mlen ← rd16 pkt 2;
      if (length pkt <? 20 + Z.to_nat mlen)%nat then Some None
      else
        magic ← rd_eq pkt 4 magic_bytes;
        if negb magic then Some None
        else
          same ← rd_eq pkt 8 (take (STUN_PROBE_TXID_LEN - 1) seed);
          if negb same then Some None else Some (Some (Z.to_nat mlen)).

(** [addr[k] = v[4 + k] ^ pkt[4 + k]]: the mask is the cookie and, past its four
    bytes, the reply's own transaction id; both stand at [pkt + 4]. *)
Definition xor_bytes (a b : bytes) : bytes := zip_with Z.lxor a b.

Definition attr_addr (pkt : bytes) (at_ : Z) (v : nat) (alen : nat) : option (bytes * Z) :=
  port ← rd16 pkt (v + 2);
  if (v + 4 + alen <=? length pkt)%nat && (4 + alen <=? length pkt)%nat then
    let raw := slice (v + 4) alen pkt in
    if at_ =? STUN_ATTR_XOR_MAPPED
    then Some (xor_bytes raw (take alen (magic_bytes ++ slice 8 (alen - 4) pkt)),
               u16 (Z.lxor port (STUN_MAGIC >> 16)))
    else Some (raw, u16 port)
  else None.

(** [while (i + 4 <= 20 + mlen)]: every attribute is at least its header, so the
    packet's length is enough fuel. *)
Fixpoint stun_attrs (fuel : nat) (pkt : bytes) (i mlen : nat) (want_fam : Z) (alen : nat) :
  option (option (bytes * Z)) :=
  match fuel with
  | O => None
  | S fuel =>
      if (20 + mlen <? i + 4)%nat then Some None
      else
        at_ ← rd16 pkt i;
        al ← rd16 pkt (i + 2);
        let al := Z.to_nat al in
        if (length pkt <? i + 4 + al)%nat then Some None
        else if ((at_ =? STUN_ATTR_XOR_MAPPED) || (at_ =? STUN_ATTR_MAPPED)) && (4 + alen <=? al)%nat then
          fam ← rd pkt (i + 4 + 1);
          if fam =? want_fam then
            r ← attr_addr pkt at_ (i + 4) alen; Some (Some r)
          else stun_attrs fuel pkt (i + 4 + 4 * ((al + 3) / 4)) mlen want_fam alen
        else stun_attrs fuel pkt (i + 4 + 4 * ((al + 3) / 4)) mlen want_fam alen
  end.

Definition stun_probe_mapped_fam (pkt seed : bytes) (want_fam : Z) : option (option (bytes * Z)) :=
  let alen := if want_fam =? 2 then 16%nat else 4%nat in
  ok ← stun_reply_ok pkt seed;
  match ok with
  | None => Some None
  | Some mlen => stun_attrs (S (length pkt)) pkt 20 mlen want_fam alen
  end.

Definition stun_probe_mapped4 (pkt seed : bytes) : option (option (bytes * Z)) :=
  stun_probe_mapped_fam pkt seed 1.

(** ** The mapping's classification *)
Record stun_mapping := mk_mapping {
  sm_addr : bytes; sm_port : Z; sm_nsamples : Z; sm_agree : bool; sm_addr_agree : bool;
  sm_port_agree : bool
}.
Definition stun_mapping_reset : stun_mapping := mk_mapping [0; 0; 0; 0] 0 0 false false false.

Definition stun_mapping_add (m : stun_mapping) (addr : bytes) (port : Z) : stun_mapping :=
  if sm_nsamples m =? 0 then mk_mapping addr port (sm_nsamples m + 1) true true true
  else
    let aa := if bytes_eqb (sm_addr m) addr then sm_addr_agree m else false in
    let pa := if sm_port m =? port then sm_port_agree m else false in
    mk_mapping (sm_addr m) (sm_port m) (sm_nsamples m + 1) (aa && pa) aa pa.

Inductive mapping_verdict := STUN_MAPPING_UNKNOWN | STUN_MAPPING_INDEPENDENT | STUN_MAPPING_DEPENDENT.

Definition stun_mapping_result (m : stun_mapping) : mapping_verdict :=
  if sm_nsamples m <? 2 then STUN_MAPPING_UNKNOWN
  else if sm_agree m then STUN_MAPPING_INDEPENDENT else STUN_MAPPING_DEPENDENT.

Definition stun_mapping_port_stable (m : stun_mapping) : bool :=
  (sm_nsamples m <? 1) || sm_port_agree m.

(** ** Lemmas: reads *)
Lemma rd_some p i : (i < length p)%nat -> exists x, rd p i = Some x.
Proof. apply lookup_lt_is_Some_2. Qed.

Lemma rd16_some p i : (i + 1 < length p)%nat -> exists x, rd16 p i = Some x.
Proof.
  intros H. unfold rd16. destruct (rd_some p i ltac:(lia)) as [a ->].
  destruct (rd_some p (i + 1) H) as [b ->]. cbn. eauto.
Qed.

Lemma rd_eq_some p i s : (i + length s <= length p)%nat -> rd_eq p i s = Some (bytes_eqb (slice i (length s) p) s).
Proof. intros H. unfold rd_eq. destruct (Nat.leb_spec (i + length s) (length p)); [done | lia]. Qed.

Lemma magic_length : length magic_bytes = 4%nat.
Proof. reflexivity. Qed.

Lemma reply_ok_bounds pkt seed :
  exists r, stun_reply_ok pkt seed = Some r /\
    match r with Some mlen => (20 + mlen <= length pkt)%nat | None => True end.
Proof.
  unfold stun_reply_ok. destruct (Nat.ltb_spec (length pkt) 20) as [|Hlen]; [by eexists|].
  destruct (rd16_some pkt 0 ltac:(lia)) as [ty ->]. cbn [mbind option_bind].
  destruct (negb _); [by eexists|]. destruct (rd16_some pkt 2 ltac:(lia)) as [m ->]. cbn [mbind option_bind].
  destruct (Nat.ltb_spec (length pkt) (20 + Z.to_nat m)); [by eexists|].
  rewrite (rd_eq_some pkt 4 magic_bytes) by (rewrite magic_length; lia). cbn [mbind option_bind]. destruct (negb _); [by eexists|].
  rewrite (rd_eq_some pkt 8) by (rewrite length_take; unfold STUN_PROBE_TXID_LEN; lia). cbn [mbind option_bind].
  destruct (negb _); [by eexists|]. by eexists.
Qed.

Lemma attr_addr_some pkt at_ v alen :
  (v + 4 + alen <= length pkt)%nat -> (4 <= alen)%nat -> exists r, attr_addr pkt at_ v alen = Some r.
Proof.
  intros H Ha. unfold attr_addr. destruct (rd16_some pkt (v + 2) ltac:(lia)) as [p ->]. cbn [mbind option_bind].
  destruct (Nat.leb_spec (v + 4 + alen) (length pkt)); [|lia].
  destruct (Nat.leb_spec (4 + alen) (length pkt)); [|lia]. cbn [andb].
  destruct (_ =? _); eauto.
Qed.

Lemma attrs_some pkt mlen want_fam alen : (4 <= alen)%nat -> (20 + mlen <= length pkt)%nat ->
  forall fuel i, (length pkt < fuel + i)%nat -> (0 < fuel)%nat -> exists r, stun_attrs fuel pkt i mlen want_fam alen = Some r.
Proof.
  intros Ha Hm. induction fuel as [|fuel IH]; intros i Hf H0; [lia|]. cbn [stun_attrs].
  destruct (Nat.ltb_spec (20 + mlen) (i + 4)); [by eexists|].
  destruct (rd16_some pkt i ltac:(lia)) as [at_ ->]. cbn [mbind option_bind].
  destruct (rd16_some pkt (i + 2) ltac:(lia)) as [al ->]. cbn [mbind option_bind].
  destruct (Nat.ltb_spec (length pkt) (i + 4 + Z.to_nat al)); [by eexists|].
  destruct (_ && (4 + alen <=? Z.to_nat al)%nat) eqn:E.
  - apply andb_true_iff in E as [_ E%Nat.leb_le].
    destruct (rd_some pkt (i + 4 + 1) ltac:(lia)) as [fam ->]. cbn [mbind option_bind].
    destruct (fam =? want_fam); [|apply IH; lia].
    destruct (attr_addr_some pkt at_ (i + 4) alen ltac:(lia) Ha) as [r ->]. by eexists.
  - apply IH; lia.
Qed.

(** The reader of a STUN reply is memory safe and terminates: whatever bytes
    arrive, claimed lengths included, no read falls outside the datagram, and the
    walk over its attributes ends with an answer. *)
Theorem stun_parse_in_bounds pkt seed want_fam :
  exists r, stun_probe_mapped_fam pkt seed want_fam = Some r.
Proof.
  unfold stun_probe_mapped_fam. destruct (reply_ok_bounds pkt seed) as ([mlen|] & -> & H); cbn [mbind option_bind].
  - apply attrs_some; [destruct (want_fam =? 2); lia | done | lia | lia].
  - by eexists.
Qed.

(** ** What a server says *)

(** An attribute, padded to four bytes. *)
Definition attr (type : Z) (v : bytes) : bytes :=
  be_put 2 type ++ be_put 2 (Z.of_nat (length v)) ++ v ++
  replicate (4 * ((length v + 3) / 4) - length v) 0.
Definition xor_value (fam : Z) (txid addr : bytes) (port : Z) : bytes :=
  [0; fam] ++ be_put 2 (Z.lxor port (STUN_MAGIC >> 16)) ++ xor_bytes addr (take (length addr) (magic_bytes ++ txid)).
Definition reply (txid attrs : bytes) : bytes :=
  be_put 2 STUN_BINDING_OK ++ be_put 2 (Z.of_nat (length attrs)) ++ magic_bytes ++ txid ++ attrs.

Lemma rd_app a b i : rd (a ++ b) (length a + i) = rd b i.
Proof. unfold rd. rewrite lookup_app_r by lia. f_equal. lia. Qed.

Lemma rd16_put a x b : is_u16 x -> rd16 (a ++ be_put 2 x ++ b) (length a) = Some x.
Proof.
  intros Hx. unfold rd16. rewrite <- (Nat.add_0_r (length a)) at 1. rewrite !rd_app. cbn.
  f_equal. unfold u8. rewrite Z.shiftr_0_r, shiftr_div by lia. unfold_words.
  rewrite lor_shiftl_add by (pose proof (Z.mod_pos_bound x (2 ^ 8)); lia).
  rewrite (Z.mod_small (x / 2 ^ 8)) by (split; [apply Z.div_pos | apply Z.div_lt_upper_bound]; lia).
  pose proof (Z.div_mod x (2 ^ 8)). lia.
Qed.

Lemma attr_length t v : length (attr t v) = (4 + 4 * ((length v + 3) / 4))%nat.
Proof.
  unfold attr. rewrite !length_app, length_replicate, !be_put_length.
  pose proof (Nat.div_mod_eq (length v + 3) 4). pose proof (Nat.mod_upper_bound (length v + 3) 4). lia.
Qed.

(** The header of an attribute that stands at [length pre]. *)
Lemma attr_header pre t v post :
  is_u16 t -> (length v < 2 ^ 16)%nat ->
  let pkt := pre ++ attr t v ++ post in
  rd16 pkt (length pre) = Some t /\ rd16 pkt (length pre + 2) = Some (Z.of_nat (length v)) /\
  (length pre + 4 + length v <= length pkt)%nat /\
  forall i, (i < length v)%nat -> rd pkt (length pre + 4 + i) = v !! i.
Proof.
  intros Ht Hv. cbn zeta. unfold attr. rewrite <- !app_assoc. split; [by apply rd16_put|]. split.
  { rewrite (app_assoc pre). replace (length pre + 2)%nat with (length (pre ++ be_put 2 t))
      by (rewrite length_app, be_put_length; lia).
    apply rd16_put. unfold is_u16. change (2 ^ 16) with (Z.of_nat (2 ^ 16)). lia. }
  split; [rewrite !length_app, !be_put_length; lia|]. intros i Hi.
  rewrite (app_assoc pre), (app_assoc (pre ++ _)).
  replace (length pre + 4 + i)%nat with (length ((pre ++ be_put 2 t) ++ be_put 2 (Z.of_nat (length v))) + i)%nat
    by (rewrite !length_app, !be_put_length; lia).
  rewrite rd_app. unfold rd. by apply lookup_app_l.
Qed.

Definition plain_attr (a : Z * bytes) : Prop :=
  is_u16 a.1 /\ a.1 <> STUN_ATTR_MAPPED /\ a.1 <> STUN_ATTR_XOR_MAPPED /\ (length a.2 < 2 ^ 16)%nat.
Definition attrs_text (l : list (Z * bytes)) : bytes := concat (map (fun a => attr a.1 a.2) l).

(** Attributes of other kinds are stepped over. *)
Lemma attrs_skip mlen want_fam alen others : forall pre post fuel,
  Forall plain_attr others ->
  (length pre + length (attrs_text others) <= 20 + mlen)%nat ->
  (length others < fuel)%nat ->
  exists fuel', (fuel' + length others = fuel)%nat /\
    stun_attrs fuel (pre ++ attrs_text others ++ post) (length pre) mlen want_fam alen
    = stun_attrs fuel' (pre ++ attrs_text others ++ post) (length pre + length (attrs_text others)) mlen
        want_fam alen.
Proof.
  induction others as [|[t v] others IH]; intros pre post fuel Hp Hm Hf.
  { exists fuel. cbn. split; [lia|]. by rewrite Nat.add_0_r. }
  apply Forall_cons in Hp as [(Ht & H1 & H2 & Hv) Hp]. cbn [fst snd] in *.
  destruct fuel as [|fuel]; [cbn in Hf; lia|].
  assert (Heq : attrs_text ((t, v) :: others) = attr t v ++ attrs_text others) by done.
  rewrite Heq in *. rewrite length_app in Hm.
  destruct (IH (pre ++ attr t v) post fuel Hp) as (fuel' & Hf' & Hs).
  { rewrite length_app. lia. }
  { cbn [length] in Hf. lia. }
  exists fuel'. cbn [length]. split; [lia|]. rewrite <- !app_assoc in *. rewrite !length_app in *.
  rewrite Nat.add_assoc. rewrite <- Hs.
  destruct (attr_header pre t v (attrs_text others ++ post) Ht Hv) as (E1 & E2 & E3 & _).
  pose proof (attr_length t v) as Hal. cbn [stun_attrs].
  destruct (Nat.ltb_spec (20 + mlen) (length pre + 4)); [lia|].
  rewrite E1. cbn [mbind option_bind]. rewrite E2. cbn [mbind option_bind]. rewrite Nat2Z.id.
  destruct (Nat.ltb_spec (length (pre ++ attr t v ++ attrs_text others ++ post)) (length pre + 4 + length v)); [lia|].
  destruct (Z.eqb_spec t STUN_ATTR_XOR_MAPPED); [done|]. destruct (Z.eqb_spec t STUN_ATTR_MAPPED); [done|].
  cbn [orb andb]. f_equal. lia.
Qed.

Lemma xor_twice a m : length a = length m -> xor_bytes (xor_bytes a m) m = a.
Proof.
  revert m. induction a as [|x a IH]; intros [|y m] H; try done. cbn in *. f_equal; [|by apply IH; lia].
  rewrite Z.lxor_assoc, Z.lxor_nilpotent. apply Z.lxor_0_r.
Qed.

Lemma xor_length a m : length a = length m -> length (xor_bytes a m) = length a.
Proof. intros H. unfold xor_bytes. rewrite length_zip_with. lia. Qed.

Lemma lxor_u16 x : is_u16 x -> is_u16 (Z.lxor x (STUN_MAGIC >> 16)).
Proof.
  intros Hx. change (STUN_MAGIC >> 16) with 8466. unfold is_u16 in *.
  replace (Z.lxor x 8466) with ((Z.lxor x 8466) mod 2 ^ 16); [apply Z.mod_pos_bound; lia|].
  apply Z.bits_inj'. intros i Hi. rewrite Z.testbit_mod_pow2, Z.lxor_spec by lia.
  destruct (Z.ltb_spec i 16); [done|]. by rewrite (testbit_high 16 x), (testbit_high 16 8466) by lia.
Qed.

Lemma slice_app_mid (pre x post : bytes) n m :
  n = length pre -> m = length x -> slice n m (pre ++ x ++ post) = x.
Proof. intros -> ->. unfold slice. by rewrite drop_app_length, take_app_length. Qed.

Section Reply.
Variables (txid seed addr rest : bytes) (others : list (Z * bytes)) (fam port : Z).
Let alen := length addr.
Let value := xor_value fam txid addr port.
Let body := attrs_text others ++ attr STUN_ATTR_XOR_MAPPED value ++ rest.
Let mlen := length body.
Let head := be_put 2 STUN_BINDING_OK ++ be_put 2 (Z.of_nat mlen) ++ magic_bytes ++ txid.

Hypothesis Htx : length txid = 12%nat.
Hypothesis Hseed : take 11 seed = take 11 txid.
Hypothesis Hfam : (fam = 1 /\ length addr = 4%nat) \/ (fam = 2 /\ length addr = 16%nat).
Hypothesis Hport : is_u16 port.
Hypothesis Hoth : Forall plain_attr others.
Hypothesis Hlen : (mlen < 2 ^ 16)%nat.

Lemma head_length : length head = 20%nat.
Proof. unfold head. rewrite !length_app, !be_put_length, magic_length, Htx. done. Qed.

Lemma reply_head : reply txid body = head ++ body.
Proof. unfold reply, head. by rewrite <- !app_assoc. Qed.

Lemma reply_accepted : stun_reply_ok (head ++ body) seed = Some (Some mlen).
Proof.
  unfold stun_reply_ok. rewrite length_app, head_length. destruct (Nat.ltb_spec (20 + length body) 20); [lia|].
  assert (H0 : rd16 (head ++ body) 0 = Some STUN_BINDING_OK) by reflexivity.
  assert (H2 : rd16 (head ++ body) 2 = Some (Z.of_nat mlen)).
  { unfold head. rewrite <- !app_assoc. apply (rd16_put (be_put 2 STUN_BINDING_OK)). unfold is_u16.
    change (2 ^ 16) with (Z.of_nat (2 ^ 16)). lia. }
  rewrite H0. cbn [mbind option_bind]. rewrite Z.eqb_refl. cbn [negb]. rewrite H2. cbn [mbind option_bind].
  rewrite Nat2Z.id. fold mlen. destruct (Nat.ltb_spec (20 + mlen) (20 + mlen)); [lia|].
  assert (Hm : slice 4 4 (head ++ body) = magic_bytes).
  { unfold head. rewrite <- !app_assoc. rewrite (app_assoc (be_put 2 _)). apply slice_app_mid; done. }
  assert (Ht : slice 8 11 (head ++ body) = take 11 txid).
  { assert (Hs : head ++ body = (be_put 2 STUN_BINDING_OK ++ be_put 2 (Z.of_nat mlen) ++ magic_bytes) ++
      take 11 txid ++ (drop 11 txid ++ body)).
    { rewrite (app_assoc (take 11 txid)), take_drop. unfold head. by rewrite <- !app_assoc. }
    rewrite Hs. apply slice_app_mid; [done|]. rewrite length_take. lia. }
  rewrite (rd_eq_some (head ++ body) 4) by (rewrite length_app, head_length, magic_length; lia).
  rewrite magic_length, Hm. cbn [mbind option_bind]. unfold bytes_eqb at 1.
  rewrite bool_decide_true by done. cbn [negb].
  assert (Hl : length (take 11 seed) = 11%nat) by (rewrite Hseed, length_take; lia).
  change (STUN_PROBE_TXID_LEN - 1)%nat with 11%nat.
  rewrite (rd_eq_some (head ++ body) 8) by (rewrite length_app, head_length, Hl; lia).
  rewrite Hl, Ht, <- Hseed. cbn [mbind option_bind]. unfold bytes_eqb. by rewrite bool_decide_true.
Qed.

Lemma value_length : length value = (4 + alen)%nat.
Proof.
  unfold value, xor_value. rewrite !length_app, be_put_length, xor_length; [done|].
  rewrite length_take, length_app, magic_length, Htx. lia.
Qed.

Lemma value_read pre post :
  rd16 (pre ++ value ++ post) (length pre + 2) = Some (Z.lxor port (STUN_MAGIC >> 16)) /\
  slice (length pre + 4) alen (pre ++ value ++ post)
    = xor_bytes addr (take alen (magic_bytes ++ txid)).
Proof.
  unfold value, xor_value. fold alen. rewrite <- !app_assoc. split.
  - rewrite (app_assoc pre). replace (length pre + 2)%nat with (length (pre ++ [0; fam])) by (by rewrite length_app).
    by apply rd16_put, lxor_u16.
  - rewrite (app_assoc pre), (app_assoc (pre ++ _)). apply slice_app_mid.
    + rewrite !length_app, be_put_length. cbn. lia.
    + rewrite xor_length; [done|]. rewrite length_take, length_app, magic_length, Htx. unfold alen. lia.
Qed.

(** The attribute found, wherever in the packet it stands. *)
Lemma value_addr pre post :
  slice 8 12 (pre ++ value ++ post) = txid -> (20 <= length pre)%nat ->
  attr_addr (pre ++ value ++ post) STUN_ATTR_XOR_MAPPED (length pre) alen = Some (addr, port).
Proof.
  intros Htxid Hpre. destruct (value_read pre post) as [E1 E2]. unfold attr_addr. rewrite E1. cbn [mbind option_bind].
  pose proof value_length. rewrite !length_app.
  destruct (Nat.leb_spec (length pre + 4 + alen) (length pre + (length value + length post))); [|lia].
  destruct (Nat.leb_spec (4 + alen) (length pre + (length value + length post))); [|lia].
  cbn [andb]. rewrite Z.eqb_refl, E2. do 2 f_equal.
  - assert (Hs : take alen (magic_bytes ++ slice 8 (alen - 4) (pre ++ value ++ post))
      = take alen (magic_bytes ++ txid)).
    { rewrite <- Htxid. unfold slice. rewrite !take_app, !magic_length, !take_take. f_equal. f_equal.
      unfold alen. destruct Hfam as [[_ ->]|[_ ->]]; lia. }
    rewrite Hs. apply xor_twice. rewrite length_take, length_app, magic_length, Htx. unfold alen. lia.
  - rewrite Z.lxor_assoc, Z.lxor_nilpotent, Z.lxor_0_r. by apply u16_id.
Qed.
End Reply.

(** A mapped address survives the wire: for either family, a success reply
    that echoes the request's transaction id and carries the address and port in
    an XOR-MAPPED-ADDRESS attribute, after any attributes of other kinds and
    before anything at all, is read as exactly that address and port. *)
Theorem stun_reply_roundtrip txid seed addr rest others fam port :
  length txid = 12%nat -> take 11 seed = take 11 txid ->
  (fam = 1 /\ length addr = 4%nat) \/ (fam = 2 /\ length addr = 16%nat) ->
  is_u16 port -> Forall plain_attr others ->
  let body := attrs_text others ++ attr STUN_ATTR_XOR_MAPPED (xor_value fam txid addr port) ++ rest in
  (length body < 2 ^ 16)%nat ->
  stun_probe_mapped_fam (reply txid body) seed fam = Some (Some (addr, port)).
Proof.
  intros Htx Hseed Hfam Hport Hoth body Hlen.
  pose proof (reply_head txid addr rest others fam port) as Hr. fold body in Hr. rewrite Hr. clear Hr.
  unfold stun_probe_mapped_fam. set (head := be_put 2 STUN_BINDING_OK ++ _).
  assert (Hh : length head = 20%nat) by (apply (head_length txid addr rest others fam port); auto).
  pose proof (reply_accepted txid seed addr rest others fam port Htx Hseed Hfam Hlen) as Hacc.
  fold body in Hacc. fold head in Hacc. rewrite Hacc. cbn [mbind option_bind].
  replace (if fam =? 2 then 16%nat else 4%nat) with (length addr)
    by (destruct Hfam as [[-> ->]|[-> ->]]; reflexivity).
  set (value := xor_value fam txid addr port) in *.
  assert (Hv : length value = (4 + length addr)%nat) by (by apply (value_length txid addr rest others fam port)).
  assert (Hbody : length body = (length (attrs_text others) + (length (attr STUN_ATTR_XOR_MAPPED value) + length rest))%nat)
    by (unfold body; by rewrite !length_app).
  pose proof (attr_length STUN_ATTR_XOR_MAPPED value) as Hal.
  pose proof (Nat.div_mod_eq (length value + 3) 4). pose proof (Nat.mod_upper_bound (length value + 3) 4).
  assert (Hcount : (length others <= length (attrs_text others))%nat).
  { clear. unfold attrs_text. induction others as [|[t v] l IH]; [done|]. cbn [map concat fst snd length].
    rewrite length_app, attr_length. lia. }
  destruct (attrs_skip (length body) fam (length addr) others head (attr STUN_ATTR_XOR_MAPPED value ++ rest)
    (S (length (head ++ body))) Hoth) as (fuel & Hfuel & Hskip).
  { rewrite Hh. lia. }
  { rewrite length_app. lia. }
  rewrite <- Hh at 1. fold body in Hskip. rewrite Hskip. rewrite length_app in Hfuel.
  destruct fuel as [|fuel]; [lia|]. cbn [stun_attrs].
  destruct (attr_header (head ++ attrs_text others) STUN_ATTR_XOR_MAPPED value rest) as (E1 & E2 & E3 & E4);
    [unfold is_u16, STUN_ATTR_XOR_MAPPED; lia | lia |].
  assert (Hpkt : (head ++ attrs_text others) ++ attr STUN_ATTR_XOR_MAPPED value ++ rest = head ++ body)
    by (unfold body; by rewrite <- !app_assoc).
  rewrite Hpkt, length_app in E1, E2, E3, E4. rewrite Hh in *.
  destruct (Nat.ltb_spec (20 + length body) (20 + length (attrs_text others) + 4)); [lia|].
  rewrite E1. cbn [mbind option_bind]. rewrite E2. cbn [mbind option_bind]. rewrite Nat2Z.id.
  destruct (Nat.ltb_spec (length (head ++ body)) (20 + length (attrs_text others) + 4 + length value)); [lia|].
  rewrite Z.eqb_refl. cbn [orb andb]. destruct (Nat.leb_spec (4 + length addr) (length value)); [|lia].
  rewrite (E4 1%nat) by lia. cbn [mbind option_bind lookup list_lookup]. change (value !! 1%nat) with (Some fam).
  cbn [mbind option_bind]. rewrite Z.eqb_refl.
  set (pre := head ++ attrs_text others ++ be_put 2 STUN_ATTR_XOR_MAPPED ++ be_put 2 (Z.of_nat (length value))).
  set (post := replicate (4 * ((length value + 3) / 4) - length value) 0 ++ rest).
  assert (Hpv : head ++ body = pre ++ value ++ post).
  { unfold pre, post, body, attr. by rewrite <- !app_assoc. }
  assert (Hpre : length pre = (20 + length (attrs_text others) + 4)%nat).
  { unfold pre. rewrite !length_app, !be_put_length, Hh. lia. }
  pose proof (value_addr txid addr rest others fam port Htx Hfam Hport Hlen pre post) as Hva. fold value in Hva.
  rewrite <- Hpv, Hpre in Hva. rewrite Hva; [done| |lia].
  assert (Hs : head ++ body = (be_put 2 STUN_BINDING_OK ++ be_put 2 (Z.of_nat (length body)) ++ magic_bytes) ++
    txid ++ body) by (unfold head; by rewrite <- !app_assoc).
  rewrite Hs. by apply slice_app_mid.
Qed.

Lemma stun_reply_roundtrip_witness :
  stun_probe_mapped_fam
    (reply (replicate 12 7) (attrs_text [(32802, [65; 66; 67])] ++
       attr STUN_ATTR_XOR_MAPPED (xor_value 1 (replicate 12 7) [192; 0; 2; 9] 3478) ++ [1; 2]))
    (replicate 11 7 ++ [0]) 1 = Some (Some ([192; 0; 2; 9], 3478)).
Proof.
  apply stun_reply_roundtrip.
  - reflexivity.
  - reflexivity.
  - left. split; reflexivity.
  - unfold is_u16. lia.
  - apply Forall_cons_2; [|apply Forall_nil_2]. unfold plain_attr, is_u16. cbn [fst snd length].
    split; [lia|]. split; [discriminate|]. split; [discriminate|].
    apply (Nat.lt_le_trans _ (2 ^ 7)); [vm_compute; lia | apply Nat.pow_le_mono_r; lia].
  - apply (Nat.lt_le_trans _ (2 ^ 7)); [vm_compute; lia | apply Nat.pow_le_mono_r; lia].
Defined.

(** ** The verdict is the samples' *)
Definition mapping_of (samples : list (bytes * Z)) : stun_mapping :=
  fold_left (fun m s => stun_mapping_add m s.1 s.2) samples stun_mapping_reset.

(** What is known after the first sample [(a, p)] and [rest]. *)
Lemma mapping_of_cons a p rest :
  mapping_of ((a, p) :: rest)
  = mk_mapping a p (1 + Z.of_nat (length rest))
      (bool_decide (Forall (fun s => s.1 = a) rest) && bool_decide (Forall (fun s => s.2 = p) rest))
      (bool_decide (Forall (fun s => s.1 = a) rest)) (bool_decide (Forall (fun s => s.2 = p) rest)).
Proof.
  unfold mapping_of. induction rest as [|[b q] rest IH] using rev_ind; [reflexivity|].
  rewrite app_comm_cons, fold_left_app, IH. cbn [fold_left fst snd]. unfold stun_mapping_add. cbn.
  destruct (Z.eqb_spec (1 + Z.of_nat (length rest)) 0); [lia|].
  assert (Ha : (if bytes_eqb a b then bool_decide (Forall (fun s => s.1 = a) rest) else false)
    = bool_decide (Forall (fun s => s.1 = a) (rest ++ [(b, q)]))).
  { unfold bytes_eqb. destruct (bool_decide_reflect (a = b)); subst.
    - apply bool_decide_ext. rewrite Forall_app, Forall_singleton. cbn. tauto.
    - symmetry. apply bool_decide_eq_false. rewrite Forall_app, Forall_singleton. cbn. intros [_ ?]. congruence. }
  assert (Hp : (if p =? q then bool_decide (Forall (fun s => s.2 = p) rest) else false)
    = bool_decide (Forall (fun s => s.2 = p) (rest ++ [(b, q)]))).
  { destruct (Z.eqb_spec p q); subst.
    - apply bool_decide_ext. rewrite Forall_app, Forall_singleton. cbn. tauto.
    - symmetry. apply bool_decide_eq_false. rewrite Forall_app, Forall_singleton. cbn. intros [_ ?]. congruence. }
  rewrite Ha, Hp, length_app. cbn [length]. f_equal. lia.
Qed.

(** The classification implements its definition: from any sequence of samples
    of one socket, the mapping is endpoint-independent exactly when there are two
    or more and all name the same address and port, dependent when two of them
    differ, unknown below two; and the port counts as stable exactly when no two
    samples disagree on it. *)
Theorem stun_mapping_exact samples :
  let m := mapping_of samples in
  let agree := forall s t, s ∈ samples -> t ∈ samples -> s = t in
  (stun_mapping_result m = STUN_MAPPING_UNKNOWN <-> (length samples < 2)%nat) /\
  (stun_mapping_result m = STUN_MAPPING_INDEPENDENT <-> (2 <= length samples)%nat /\ agree) /\
  (stun_mapping_result m = STUN_MAPPING_DEPENDENT <-> exists s t, s ∈ samples /\ t ∈ samples /\ s <> t) /\
  (stun_mapping_port_stable m = true <-> forall s t, s ∈ samples -> t ∈ samples -> s.2 = t.2).
Proof.
  cbn zeta. destruct samples as [|[a p] rest].
  { cbn. split; [split; [lia|done]|]. split; [split; [done | intros [? _]; lia]|].
    split; [split; [done | intros (s & t & H & _); by apply elem_of_nil in H]|].
    split; [intros _ s t H; by apply elem_of_nil in H | done]. }
  rewrite mapping_of_cons. unfold stun_mapping_result, stun_mapping_port_stable. cbn [sm_nsamples sm_agree sm_port_agree].
  assert (Hall : bool_decide (Forall (fun s => s.1 = a) rest) && bool_decide (Forall (fun s => s.2 = p) rest) = true
    <-> forall s t, s ∈ (a, p) :: rest -> t ∈ (a, p) :: rest -> s = t).
  { rewrite andb_true_iff, !bool_decide_eq_true, !Forall_forall. split.
    - intros [H1 H2] s t Hs Ht.
      assert (Heq : forall s, s ∈ (a, p) :: rest -> s = (a, p)).
      { intros [x y] [->|H]%elem_of_cons; [done|]. f_equal; [exact (H1 _ H) | exact (H2 _ H)]. }
      by rewrite (Heq s Hs), (Heq t Ht).
    - intros H. split; intros s Hs; rewrite (H s (a, p)); set_solver. }
  assert (Hport : bool_decide (Forall (fun s => s.2 = p) rest) = true
    <-> forall s t, s ∈ (a, p) :: rest -> t ∈ (a, p) :: rest -> s.2 = t.2).
  { rewrite bool_decide_eq_true, Forall_forall. split.
    - intros H s t [->|Hs]%elem_of_cons [->|Ht]%elem_of_cons; cbn; rewrite ?(H _ Hs), ?(H _ Ht); done.
    - intros H s Hs. apply (H s (a, p)); set_solver. }
  destruct (bool_decide (Forall (fun s => s.1 = a) rest) && bool_decide (Forall (fun s => s.2 = p) rest)) eqn:E.
  - destruct (Z.ltb_spec (1 + Z.of_nat (length rest)) 2), (Z.ltb_spec (1 + Z.of_nat (length rest)) 1); cbn [orb length] in *; try lia;
      (split; [split; [lia || done | done || lia]|]); (split; [split; [done || (intros _; split; [lia|by apply Hall]) | intros [? _]; done || lia]|]);
      (split; [split; [done | intros (s & t & Hs & Ht & Hst); exfalso; apply Hst; by apply Hall]|]); exact Hport.
  - assert (Hne : exists s t, s ∈ (a, p) :: rest /\ t ∈ (a, p) :: rest /\ s <> t).
    { apply andb_false_iff in E. rewrite !bool_decide_eq_false in E.
      destruct E as [E|E]; apply not_Forall_Exists, Exists_exists in E as (s & Hs & Hn); try apply _;
        exists s, (a, p); (split; [set_solver|]); (split; [set_solver|]); intros ->; by apply Hn. }
    assert (Hlen : (1 <= length rest)%nat).
    { destruct rest; [|cbn; lia]. destruct Hne as (s & t & Hs & Ht & Hst). set_solver. }
    destruct (Z.ltb_spec (1 + Z.of_nat (length rest)) 2); [lia|]. destruct (Z.ltb_spec (1 + Z.of_nat (length rest)) 1); [lia|].
    cbn [orb length]. split; [split; [done | lia]|]. split; [split; [done | intros [_ Ha]; apply Hall in Ha; congruence]|].
    split; [by split|]. exact Hport.
Qed.
