(* ===== verification/AddrText.v ===== *)
(** Addresses read from text: the C library's [inet_pton] as its manual page and
    implementation have it, and net_addr_scope of src/src/netstate.c, which
    classifies an address by its text. *)
From S2P Require Import Prelude Net NsFacts Token Netstate.

(** ** [inet_pton(AF_INET, ..)]

    [done_] holds the octets before the one being read. *)
Definition is_digit (c : Z) : bool := (48 <=? c) && (c <=? 57).

Fixpoint pton4_loop (s : bytes) (done_ : bytes) (cur : Z) (saw_digit : bool) (octets : nat) :
  option bytes :=
  match s with
  | [] => if (octets <? 4)%nat then None else Some (done_ ++ [cur])
  | ch :: rest =>
      if is_digit ch then
        let new := cur * 10 + (ch - 48) in
        if saw_digit && (cur =? 0) then None
        else if 255 <? new then None
        else if saw_digit then pton4_loop rest done_ new true octets
        else if (4 <=? octets)%nat then None
        else pton4_loop rest done_ new true (S octets)
      else if (ch =? 46) && saw_digit then
        if (octets =? 4)%nat then None else pton4_loop rest (done_ ++ [cur]) 0 false octets
      else None
  end.
Definition inet_pton4 (s : bytes) : option bytes :=
  match pton4_loop s [] 0 false 0 with
  | Some a => if (length a =? 4)%nat then Some a else None
  | None => None
  end.

(** ** [inet_pton(AF_INET6, ..)]

    [tmp] is what has been written, [colonp] where the [::] was, [cur] the rest
    of the text from the current group on. *)
Definition hex_digit_value (ch : Z) : option Z :=
  if is_digit ch then Some (ch - 48)
  else if (97 <=? ch) && (ch <=? 102) then Some (ch - 87)
  else if (65 <=? ch) && (ch <=? 70) then Some (ch - 55)
  else None.

(** After the loop: the last group, then the zeros of the [::]. *)
Definition pton6_end (tmp : bytes) (colonp : option nat) (val : Z) (xdigits : nat) : option bytes :=
  let last := if (0 <? xdigits)%nat
              then if (16 <? length tmp + 2)%nat then None else Some (tmp ++ [val >> 8; val .& 255])
              else Some tmp in
  match last with
  | None => None
  | Some tmp =>
      match colonp with
      | Some c =>
          if (length tmp =? 16)%nat then None
          else Some (take c tmp ++ replicate (16 - length tmp) 0 ++ drop c tmp)
      | None => if (length tmp =? 16)%nat then Some tmp else None
      end
  end.

Fixpoint pton6_loop (s curtok tmp : bytes) (colonp : option nat) (val : Z) (xdigits : nat) : option bytes :=
  match s with
  | [] => pton6_end tmp colonp val xdigits
  | ch :: rest =>
      match hex_digit_value ch with
      | Some d =>
          if (xdigits =? 4)%nat then None
          else pton6_loop rest curtok tmp colonp ((val << 4) .| d) (S xdigits)
      | None =>
          if ch =? 58 then
            if (xdigits =? 0)%nat then
              match colonp with
              | Some _ => None
              | None => pton6_loop rest rest tmp (Some (length tmp)) val 0
              end
            else match rest with
                 | [] => None
                 | _ => if (16 <? length tmp + 2)%nat then None
                        else pton6_loop rest rest (tmp ++ [val >> 8; val .& 255]) colonp 0 0
                 end
          else if (ch =? 46) && (length tmp + 4 <=? 16)%nat then
            match inet_pton4 curtok with
            | Some q => pton6_end (tmp ++ q) colonp 0 0
            | None => None
            end
          else None
      end
  end.
Definition inet_pton6 (s : bytes) : option bytes :=
  match s with
  | [] => None
  | 58 :: rest =>
      match rest with
      | 58 :: _ => pton6_loop rest rest [] None 0 0
      | _ => None
      end
  | _ => pton6_loop s s [] None 0 0
  end.

(** [strchr(s, c) != NULL] *)
Definition strchr (s : bytes) (c : Z) : bool := existsb (fun x => x =? c) s.

Definition net_addr_scope (addr : bytes) : Z :=
  if strchr addr 58 then
    match inet_pton6 addr with Some b => addr_scope_raw b | None => NET_SCOPE_GLOBAL end
  else match inet_pton4 addr with Some b => addr_scope_raw b | None => NET_SCOPE_GLOBAL end.

(** ** [struct sockaddr] in memory

    The bytes of a socket address as the code copies and compares them, on a
    little-endian Linux; [sin6_flowinfo] is zero in every address the program
    makes. *)
Definition sa_bytes (sa : sockaddr) : bytes :=
  match sa with
  | AF_INET port a => [2; 0] ++ be_put 2 port ++ a ++ replicate 8 0
  | AF_INET6 port a scope => [10; 0] ++ be_put 2 port ++ replicate 4 0 ++ a ++ rev (be_put 4 scope)
  | AF_OTHER => []
  end.
(** What is read through a pointer to storage that starts with [b] and goes on
    with zeros. *)
Definition sa_read (b : bytes) : sockaddr :=
  let b := b ++ replicate (28 - length b) 0 in
  let fam := be_get (rev (slice 0 2 b)) in
  if fam =? 2 then AF_INET (be_get (slice 2 2 b)) (slice 4 4 b)
  else if fam =? 10 then AF_INET6 (be_get (slice 2 2 b)) (slice 8 16 b) (be_get (rev (slice 24 4 b)))
  else AF_OTHER.

(** ** Lemmas *)
Lemma be_put2 v : is_u16 v -> exists h l, be_put 2 v = [h; l] /\ be_get [h; l] = v.
Proof.
  intros H. eexists _, _. split; [reflexivity|]. pose proof (be_get_put 2 v) as E.
  rewrite Z.mod_small in E by exact H. exact E.
Qed.
Lemma be_put4_parts v : is_u32 v -> exists a b c d, be_put 4 v = [a; b; c; d] /\ be_get [a; b; c; d] = v.
Proof.
  intros H. eexists _, _, _, _. split; [reflexivity|]. pose proof (be_get_put 4 v) as E.
  rewrite Z.mod_small in E by exact H. exact E.
Qed.

(** What was written is read back. *)
Lemma sa_read_bytes sa : sockaddr_ok sa -> sa_read (sa_bytes sa) = sa.
Proof.
  destruct sa as [port a|port a scope|]; cbn [sockaddr_ok]; [| |done].
  - intros (Hp & _ & Ha). destruct a as [|a0 [|a1 [|a2 [|a3 [|]]]]]; try done.
    destruct (be_put2 port Hp) as (h & l & E & El). unfold sa_bytes. rewrite E. rewrite <- El. reflexivity.
  - intros (Hp & _ & Ha & Hs). do 17 (destruct a as [|? a]; try done).
    destruct (be_put2 port Hp) as (h & l & E & El). destruct (be_put4_parts scope Hs) as (s0 & s1 & s2 & s3 & E4 & El4).
    unfold sa_bytes. rewrite E, E4. rewrite <- El. rewrite <- El4. reflexivity.
Qed.

Lemma pton4_text :
  map inet_pton4 [cstr "192.0.2.1"; cstr "0.0.0.0"; cstr "01.2.3.4"; cstr "1.2.3"; cstr "1.2.3.256"; cstr "1.2.3.4."]
  = [Some [192; 0; 2; 1]; Some [0; 0; 0; 0]; None; None; None; None].
Proof. vm_compute. reflexivity. Qed.
Lemma pton6_text :
  map inet_pton6 [cstr "::"; cstr "2001:db8::1"; cstr "::ffff:192.0.2.1"; cstr "1:2:3:4:5:6:7:8::"; cstr "1::2::3"; cstr "fe80:"]
  = [Some (replicate 16 0); Some [32; 1; 13; 184; 0; 0; 0; 0; 0; 0; 0; 0; 0; 0; 0; 1];
     Some [0; 0; 0; 0; 0; 0; 0; 0; 0; 0; 255; 255; 192; 0; 2; 1]; None; None; None].
Proof. vm_compute. reflexivity. Qed.
