(* ===== verification/Obsemit.v ===== *)
(** src/src/obsemit.c: what a watcher is told of the reachability model.  The
    watcher's callbacks are the calls made on them, in order; the record says
    which of them there are. *)
From S2P Require Import Prelude Net NsFacts Token Netstate AddrText.

Definition NETSTATE_ROWS_MAX : nat := 12.
Definition RDV_ROW_CHECKING : Z := 0.
Definition RDV_ROW_PROVEN : Z := 1.
Definition RDV_ROW_VOUCHED : Z := 2.

Record session_obs := mk_obs {
  o_net : bool; o_net_reset : bool; o_net_conn : bool; o_link : bool; o_link_reset : bool;
  o_rendezvous : bool; o_mailbox : bool
}.

Record session_mailbox := mk_smail {
  sm_engaged : Z; sm_stage : Z; sm_have_mine : Z; sm_mine_stored : Z; sm_peer_seen : Z; sm_seq : Z;
  sm_gets : Z; sm_puts : Z; sm_claim : Z; sm_rdv_holding : bool; sm_rdv_proven : bool;
  sm_age_get_s : Z; sm_age_put_s : Z
}.
#[export] Instance session_mailbox_dec : EqDecision session_mailbox.
Proof. solve_decision. Defined.

(** [struct sig_mailbox]. *)
Record sig_mailbox := mk_gmail {
  gm_engaged : Z; gm_stage : Z; gm_have_mine : Z; gm_mine_stored : Z; gm_peer_seen : Z; gm_seq : Z;
  gm_gets : Z; gm_puts : Z; gm_claim : Z; gm_last_get_ms : Z; gm_last_put_ms : Z; gm_engaged_ms : Z
}.

(** [o] is [None] for NULL; the model is the one the peering holds, passed in. *)
Record obsemit := mk_oe { oe_o : option session_obs; oe_told : option session_mailbox }.

Inductive obs_call :=
| ONetReset (family : Z)
| ONet (family scope via : Z) (addr : bytes)
| ONetConn (family status : Z)
| OLinkReset
| OLink (ifname : bytes) (have4 have6 : Z)
| ORendezvous (family : Z) (addr : bytes) (ready : Z)
| OMailbox (m : session_mailbox).

Definition obsemit_init (o : option session_obs) : obsemit := mk_oe o None.

Definition obsemit_rows (e : obsemit) (ns : netstate) (family : Z) : list obs_call :=
  match oe_o e with
  | None => []
  | Some o =>
      if negb (o_net_reset o) || negb (o_net o) then []
      else ONetReset family ::
           map (fun r => ONet family (r_scope r) (r_via r) (r_text r))
             (netstate_rows ns family NETSTATE_ROWS_MAX)
  end.

Definition obsemit_conn (e : obsemit) (family conn : Z) : list obs_call :=
  match oe_o e with
  | Some o => if o_net_conn o then [ONetConn family conn] else []
  | None => []
  end.

(** An interface is its name and the two flags. *)
Definition obsemit_links (e : obsemit) (ifs : list (bytes * Z * Z)) : list obs_call :=
  match oe_o e with
  | None => []
  | Some o =>
      if negb (o_link o) then []
      else (if o_link_reset o then [OLinkReset] else []) ++
           map (fun i => OLink i.1.1 i.1.2 i.2) ifs
  end.

Definition age_s (now last : Z) : Z :=
  if truth last then i32 (u64 (now - last) / 1000) else -1.

Definition obsemit_mailbox (e : obsemit) (ns : netstate) (sm : sig_mailbox) (now : Z) :
  obsemit * list obs_call :=
  match oe_o e with
  | None => (e, [])
  | Some o =>
      if negb (o_mailbox o) then (e, [])
      else
        let proven f := match netstate_anchor ns f with Some (_, p) => p | None => false end in
        let holding f := match netstate_anchor ns f with Some (_, p) => negb p | None => false end in
        let m := mk_smail (gm_engaged sm) (gm_stage sm) (gm_have_mine sm) (gm_mine_stored sm)
          (gm_peer_seen sm) (gm_seq sm) (gm_gets sm) (gm_puts sm) (gm_claim sm)
          (holding 4 || holding 6) (proven 4 || proven 6)
          (age_s now (gm_last_get_ms sm)) (age_s now (gm_last_put_ms sm)) in
        if bool_decide (oe_told e = Some m) then (e, [])
        else (mk_oe (oe_o e) (Some m), [OMailbox m])
  end.

Definition addr_str (sa : sockaddr) (n : nat) : bytes :=
  match sa with
  | AF_INET6 port a _ => snprintf n (inet_ntop6 a ++ 58 :: dec port)
  | AF_INET port a => snprintf n (inet_ntop4 a ++ 58 :: dec port)
  | AF_OTHER => []
  end.

Definition rdv_row (ns : netstate) (family : Z) : Z :=
  let '(proven, vouched, _) := netstate_anchor_state ns family in
  if proven then RDV_ROW_PROVEN else if vouched then RDV_ROW_VOUCHED else RDV_ROW_CHECKING.

Definition obsemit_rendezvous (e : obsemit) (ns : netstate) (expect4 expect6 : bool) : list obs_call :=
  match oe_o e with
  | None => []
  | Some o =>
      if negb (o_rendezvous o) then []
      else
        let one family expect :=
          match netstate_anchor ns family with
          | Some (node, _) => [ORendezvous family (addr_str (sa_read node) 80) (rdv_row ns family)]
          | None => if expect : bool then [ORendezvous family [] RDV_ROW_CHECKING] else []
          end in
        one 4 expect4 ++ one 6 expect6
  end.
