(* ===== verification/PeerNet.v ===== *)
(** src/src/peering.c, what belongs to this machine whichever peer it talks to:
    the facts its probe threads leave, the egress pool with the mapping verdict,
    the description a gather thread stages, and the probe rounds themselves.
    Each lock is the unit of atomicity; a round is its start, one step per
    answer, and its end, so that what the loop does in between is in the model. *)
From S2P Require Import Prelude Net NsFacts Token Netstate StunProbe.

(** ** Facts *)
Definition peering_facts_feed (ns : netstate) (q : nsfact) (epoch now : Z) : netstate * bool :=
  if nf_kind q =? NSF_ROUNDTRIP then (netstate_on_roundtrip ns (nf_family q) epoch, false)
  else if nf_kind q =? NSF_SERVERS then (netstate_on_servers ns (nf_family q) epoch now, false)
  else if nf_kind q =? NSF_ADDR then
    (netstate_on_reflexive ns (nf_family q) epoch
       (take (if nf_family q =? 6 then 16 else 4) (nf_addr q)), false)
  else (netstate_on_probe_done ns (nf_family q) epoch now, true).

(** ** The egress pool *)
Definition PEERING_POOL4_MAX : nat := 8.

(** [v4[0..n)] as a list. *)
Record peering_pool := mk_pool {
  po_v4 : list bytes;
  po_map4 : stun_mapping;
  po_epoch : Z;
  po_posted : Z
}.
Definition pool_eta (p : peering_pool) : peering_pool :=
  mk_pool (po_v4 p) (po_map4 p) (po_epoch p) (po_posted p).
#[export] Instance set_po_v4 : Setter po_v4 := ltac:(solve_setter pool_eta).
#[export] Instance set_po_map4 : Setter po_map4 := ltac:(solve_setter pool_eta).
#[export] Instance set_po_epoch : Setter po_epoch := ltac:(solve_setter pool_eta).
#[export] Instance set_po_posted : Setter po_posted := ltac:(solve_setter pool_eta).

Definition peering_pool_init : peering_pool := mk_pool [] stun_mapping_reset 0 0.

Definition pool_epoch_ok (p : peering_pool) (epoch : Z) : peering_pool * bool :=
  if epoch =? po_epoch p then (p, true)
  else if epoch <? po_epoch p then (p, false)
  else (p <| po_epoch := epoch |> <| po_v4 := [] |> <| po_map4 := stun_mapping_reset |>, true).

Definition zero4 : bytes := [0; 0; 0; 0].

(** The pool and how many it holds now, 0 when nothing was added. *)
Definition peering_pool_note (p : peering_pool) (addr : bytes) (epoch : Z) : peering_pool * Z :=
  if bytes_eqb addr zero4 then (p, 0)
  else
    let '(p, ok) := pool_epoch_ok p epoch in
    if negb ok then (p, 0)
    else if existsb (bytes_eqb addr) (po_v4 p) then (p, 0)
    else if (length (po_v4 p) <? PEERING_POOL4_MAX)%nat
    then (p <| po_v4 := po_v4 p ++ [addr] |>, Z.of_nat (length (po_v4 p)) + 1)
    else (p, 0).

Definition peering_pool_copy (p : peering_pool) (epoch : Z) : list bytes :=
  if po_epoch p =? epoch then po_v4 p else [].

Definition peering_pool_count (p : peering_pool) (epoch : Z) : Z :=
  if po_epoch p =? epoch then Z.of_nat (length (po_v4 p)) else 0.

Definition peering_pool_sample (p : peering_pool) (addr : bytes) (port epoch : Z) : peering_pool :=
  let '(p, ok) := pool_epoch_ok p epoch in
  if ok then p <| po_map4 := stun_mapping_add (po_map4 p) addr port |> else p.

Definition peering_pool_mapping (p : peering_pool) : mapping_verdict := stun_mapping_result (po_map4 p).
Definition peering_pool_port_stable (p : peering_pool) : bool := stun_mapping_port_stable (po_map4 p).
Definition peering_pool_round (p : peering_pool) : peering_pool := p <| po_map4 := stun_mapping_reset |>.
Definition peering_pool_reset (p : peering_pool) : peering_pool :=
  p <| po_v4 := [] |> <| po_map4 := stun_mapping_reset |>.

(** ** The local description *)
Definition NAT_SDP_MAX : nat := 4096.

(** The three buffers are their strings. *)
Record peering_desc := mk_desc {
  ds_local : bytes;
  ds_pending : bytes;
  ds_trickle : bytes;
  ds_dirty : bool;
  ds_pending_set : bool;
  ds_have_local : bool
}.
Definition desc_eta (d : peering_desc) : peering_desc :=
  mk_desc (ds_local d) (ds_pending d) (ds_trickle d) (ds_dirty d) (ds_pending_set d) (ds_have_local d).
#[export] Instance set_ds_local : Setter ds_local := ltac:(solve_setter desc_eta).
#[export] Instance set_ds_pending : Setter ds_pending := ltac:(solve_setter desc_eta).
#[export] Instance set_ds_trickle : Setter ds_trickle := ltac:(solve_setter desc_eta).
#[export] Instance set_ds_dirty : Setter ds_dirty := ltac:(solve_setter desc_eta).
#[export] Instance set_ds_pending_set : Setter ds_pending_set := ltac:(solve_setter desc_eta).
#[export] Instance set_ds_have_local : Setter ds_have_local := ltac:(solve_setter desc_eta).

Definition peering_desc_init : peering_desc := mk_desc [] [] [] false false false.

Definition peering_desc_gathered (d : peering_desc) (sdp : bytes) : peering_desc :=
  d <| ds_pending := snprintf NAT_SDP_MAX sdp |> <| ds_pending_set := true |>.

Definition peering_desc_candidate (d : peering_desc) (cand : bytes) : peering_desc :=
  let room := (NAT_SDP_MAX - length (ds_trickle d) - 1)%nat in
  if (length cand + 1 <=? room)%nat
  then d <| ds_trickle := ds_trickle d ++ cand ++ [10] |> <| ds_dirty := true |>
  else d.

(** [None] when nothing is staged. *)
Definition peering_desc_take (d : peering_desc) (cap : nat) : peering_desc * option bytes :=
  if ds_pending_set d then (d <| ds_pending_set := false |>, Some (snprintf cap (ds_pending d)))
  else (d, None).

Definition peering_desc_set (d : peering_desc) (sdp : bytes) : peering_desc :=
  d <| ds_local := snprintf NAT_SDP_MAX sdp |> <| ds_have_local := true |>.

Definition peering_desc_drain (d : peering_desc) (cap : nat) : peering_desc * option bytes :=
  if negb (ds_dirty d) then (d, None)
  else (d <| ds_trickle := [] |> <| ds_dirty := false |>, Some (snprintf cap (ds_trickle d))).

Definition peering_desc_local (d : peering_desc) : bytes := ds_local d.
Definition peering_desc_have (d : peering_desc) : bool := ds_have_local d.
Definition peering_desc_drop (d : peering_desc) : peering_desc :=
  d <| ds_have_local := false |> <| ds_local := [] |>.
Definition peering_desc_clear (d : peering_desc) : peering_desc :=
  peering_desc_drop d <| ds_trickle := [] |> <| ds_dirty := false |> <| ds_pending_set := false |>.

(** [strstr(text, word) != NULL] *)
Fixpoint strstr (text word : bytes) : bool :=
  bytes_eqb (take (length word) text) word ||
  match text with [] => false | _ :: rest => strstr rest word end.
Definition peering_sdp_has_candidate (sdp : bytes) : bool := strstr sdp (cstr "a=candidate:").

(** ** Probe rounds *)
Record peering_probe := mk_pprobe { pb_running : bool; pb_stop : bool; pb_epoch : Z; pb_start : Z }.
Definition pprobe_eta (p : peering_probe) : peering_probe :=
  mk_pprobe (pb_running p) (pb_stop p) (pb_epoch p) (pb_start p).
#[export] Instance set_pb_running : Setter pb_running := ltac:(solve_setter pprobe_eta).
#[export] Instance set_pb_stop : Setter pb_stop := ltac:(solve_setter pprobe_eta).
#[export] Instance set_pb_epoch : Setter pb_epoch := ltac:(solve_setter pprobe_eta).
#[export] Instance set_pb_start : Setter pb_start := ltac:(solve_setter pprobe_eta).

Record peering_net := mk_net {
  pn_facts : nsfacts;
  pn_desc : peering_desc;
  pn_pool : peering_pool;
  pn_probes : peering_probe * peering_probe;       (* [probe], [probe6] *)
  pn_servers : list bytes;
  pn_auto_probe : bool;
  pn_ice_attempt : Z;
  pn_rotations : Z;
  pn_have_priv4 : bool;
  pn_have_srflx4 : bool;
  pn_mapping_reported : Z
}.
Definition net_eta (m : peering_net) : peering_net :=
  mk_net (pn_facts m) (pn_desc m) (pn_pool m) (pn_probes m) (pn_servers m) (pn_auto_probe m)
    (pn_ice_attempt m) (pn_rotations m) (pn_have_priv4 m) (pn_have_srflx4 m) (pn_mapping_reported m).
#[export] Instance set_pn_facts : Setter pn_facts := ltac:(solve_setter net_eta).
#[export] Instance set_pn_desc : Setter pn_desc := ltac:(solve_setter net_eta).
#[export] Instance set_pn_pool : Setter pn_pool := ltac:(solve_setter net_eta).
#[export] Instance set_pn_probes : Setter pn_probes := ltac:(solve_setter net_eta).
#[export] Instance set_pn_ice_attempt : Setter pn_ice_attempt := ltac:(solve_setter net_eta).
#[export] Instance set_pn_rotations : Setter pn_rotations := ltac:(solve_setter net_eta).
#[export] Instance set_pn_have_priv4 : Setter pn_have_priv4 := ltac:(solve_setter net_eta).
#[export] Instance set_pn_have_srflx4 : Setter pn_have_srflx4 := ltac:(solve_setter net_eta).
#[export] Instance set_pn_mapping_reported : Setter pn_mapping_reported := ltac:(solve_setter net_eta).

Definition nservers (m : peering_net) : Z := Z.of_nat (length (pn_servers m)).
Definition probe_of (m : peering_net) (family : Z) : peering_probe := get2 (pn_probes m) (fam_idx family).
Definition probe_on (m : peering_net) (family : Z) (g : peering_probe -> peering_probe) : peering_net :=
  m <| pn_probes := put2 (pn_probes m) (fam_idx family) (g (probe_of m family)) |>.

Definition pprobe_zero : peering_probe := mk_pprobe false false 0 0.
Definition peering_net_init (servers : list bytes) (auto_probe : bool) : peering_net :=
  mk_net nsfacts_init peering_desc_init peering_pool_init (pprobe_zero, pprobe_zero) servers auto_probe
    0 0 false false 0.

Definition peering_facts_post (m : peering_net) (kind family epoch : Z) : peering_net :=
  m <| pn_facts := nsfacts_post (pn_facts m) kind family epoch |>.
Definition peering_facts_post_addr (m : peering_net) (family epoch : Z) (addr : bytes) : peering_net :=
  m <| pn_facts := nsfacts_post_addr (pn_facts m) family epoch addr |>.
Definition peering_facts_take (m : peering_net) (max : nat) : peering_net * list nsfact :=
  let '(q, out) := nsfacts_take (pn_facts m) max in (m <| pn_facts := q |>, out).

(** One answer of a round stamped [epoch]: the sixteen bytes of the mapped
    address, of which IPv4 uses four, and the port. *)
Definition probe_hit (m : peering_net) (epoch family : Z) (addr : bytes) (port : Z) : peering_net :=
  let m := peering_facts_post m NSF_ROUNDTRIP family epoch in
  if family =? 6 then peering_facts_post_addr m 6 epoch addr
  else
    let a4 := take 4 addr in
    let '(p, added) := peering_pool_note (pn_pool m) a4 epoch in
    let m := m <| pn_pool := p |> in
    let m := if truth added && negb (pn_have_srflx4 m) then m <| pn_rotations := 0 |> else m in
    m <| pn_pool := peering_pool_sample (pn_pool m) a4 port epoch |>.

(** The stamp is read once; an IPv4 round starts the verdict over. *)
Definition probe_begin (m : peering_net) (family : Z) : peering_net * Z :=
  let epoch := pb_epoch (probe_of m family) in
  (if family =? 6 then m else m <| pn_pool := peering_pool_round (pn_pool m) |>, epoch).
Definition probe_end (m : peering_net) (epoch family : Z) : peering_net :=
  peering_facts_post m NSF_PROBE_DONE family epoch.
(** A round left to itself; [hits] is what [stun_probe_run] reported. *)
Definition probe_round (m : peering_net) (family : Z) (hits : list (bytes * Z)) : peering_net :=
  let '(m, epoch) := probe_begin m family in
  probe_end (fold_left (fun m h => probe_hit m epoch family h.1 h.2) hits m) epoch family.

Definition peering_net_more (m : peering_net) (family : Z) : peering_net :=
  peering_facts_post m NSF_SERVERS family (pb_epoch (probe_of m family)).

Definition peering_net_halt (m : peering_net) (family : Z) : peering_net :=
  if pb_running (probe_of m family) then probe_on m family (fun p => p <| pb_stop := true |>) else m.

(** The join waits for the thread's last act, which has been done when this is
    called on the end of a round. *)
Definition peering_net_reap (m : peering_net) (family : Z) : peering_net :=
  if negb (pb_running (probe_of m family)) then m
  else probe_on m family (fun p => p <| pb_running := false |>).

Definition peering_net_stop (m : peering_net) : peering_net :=
  peering_net_reap (peering_net_reap (peering_net_halt (peering_net_halt m 4) 6) 4) 6.

Definition pool_untold (m : peering_net) : peering_net :=
  m <| pn_pool := (pn_pool m) <| po_posted := 0 |> |> <| pn_mapping_reported := 0 |>.

(** [rb]: the two bytes drawn. *)
Definition peering_net_renew (m : peering_net) (rb0 rb1 : Z) : peering_net :=
  let m := m <| pn_desc := peering_desc_clear (pn_desc m) |> in
  let m := m <| pn_pool := peering_pool_reset (pn_pool m) |> in
  let m := pool_untold m in
  let m := m <| pn_rotations := 0 |> in
  let m := if 0 <? nservers m
           then m <| pn_ice_attempt := ((rb0 << 8) .| rb1) mod nservers m |> else m in
  m <| pn_have_priv4 := false |> <| pn_have_srflx4 := false |>.

(** The return: 1 started, 0 not, -1 another is still winding up.  [spawned] is
    whether [pthread_create] succeeded. *)
Definition peering_net_kick (m : peering_net) (family epoch start6 : Z) (spawned : bool) :
  peering_net * Z :=
  let m := probe_on m family (fun p => p <| pb_epoch := epoch |>) in
  if negb (pn_auto_probe m) || (nservers m <? 1) then (m, 0)
  else if pb_running (probe_of m family)
  then (probe_on m family (fun p => p <| pb_stop := true |>), -1)
  else
    let m := probe_on m family (fun p => p <| pb_start := start6 |> <| pb_stop := false |>) in
    if negb spawned then (m, 0)
    else (probe_on m family (fun p => p <| pb_running := true |>), 1).

Definition PEERING_ROTATE_MS : Z := 3000.
Definition PEERING_ROTATE_MAX : Z := 3.

Definition peering_rotate_allowed (m : peering_net) : bool :=
  if negb (pn_auto_probe m) || (nservers m <? 2) then false
  else if negb (pn_have_priv4 m) then false
  else pn_rotations m <? PEERING_ROTATE_MAX.

Definition peering_rotate_wanted (m : peering_net) (since_ms now : Z) : bool :=
  if negb (peering_rotate_allowed m) || pn_have_srflx4 m then false
  else PEERING_ROTATE_MS <? u64 (now - since_ms).

(** ** The pool is what the newest network measured

    Any sequence of calls on a pool, from any threads: the lock orders them. *)
Inductive pool_op :=
| PNote (addr : bytes) (epoch : Z)
| PSample (addr : bytes) (port epoch : Z)
| PRound
| PReset.

Definition pool_step (p : peering_pool) (o : pool_op) : peering_pool :=
  match o with
  | PNote a e => (peering_pool_note p a e).1
  | PSample a port e => peering_pool_sample p a port e
  | PRound => peering_pool_round p
  | PReset => peering_pool_reset p
  end.
Definition pool_run (ops : list pool_op) : peering_pool := fold_left pool_step ops peering_pool_init.

(** The network a call measured, if any, and the newest of them. *)
Definition op_epoch (o : pool_op) : option Z :=
  match o with
  | PNote a e => if bytes_eqb a zero4 then None else Some e
  | PSample _ _ e => Some e
  | _ => None
  end.
Definition newest (ops : list pool_op) : Z :=
  fold_left (fun m o => match op_epoch o with Some e => Z.max m e | None => m end) ops 0.

(** The calls after the last one that [stop] holds of. *)
Definition since (stop : pool_op -> bool) (ops : list pool_op) : list pool_op :=
  fold_left (fun acc o => if stop o then [] else acc ++ [o]) ops [].
Definition is_reset (o : pool_op) : bool := match o with PReset => true | _ => false end.
Definition is_restart (o : pool_op) : bool := match o with PReset | PRound => true | _ => false end.

(** What was seen on the network [e]. *)
Definition noted (e : Z) (ops : list pool_op) : list bytes :=
  omap (fun o => match o with
                 | PNote a e' => if negb (bytes_eqb a zero4) && (e' =? e) then Some a else None
                 | _ => None
                 end) ops.
Definition sampled (e : Z) (ops : list pool_op) : list (bytes * Z) :=
  omap (fun o => match o with PSample a p e' => if e' =? e then Some (a, p) else None | _ => None end) ops.

(** Without repetitions, in order of first appearance. *)
Definition nub (l : list bytes) : list bytes :=
  fold_left (fun acc a => if existsb (bytes_eqb a) acc then acc else acc ++ [a]) l [].

Lemma newest_snoc ops o :
  newest (ops ++ [o]) = match op_epoch o with Some e => Z.max (newest ops) e | None => newest ops end.
Proof. unfold newest. by rewrite fold_left_app. Qed.
Lemma since_snoc stop ops o : since stop (ops ++ [o]) = if stop o then [] else since stop ops ++ [o].
Proof. unfold since. by rewrite fold_left_app. Qed.
Lemma nub_snoc l a : nub (l ++ [a]) = if existsb (bytes_eqb a) (nub l) then nub l else nub l ++ [a].
Proof. unfold nub. by rewrite fold_left_app. Qed.

Lemma since_sub stop ops o : o ∈ since stop ops -> o ∈ ops.
Proof.
  induction ops as [|x ops IH] using rev_ind; [done|]. rewrite since_snoc.
  destruct (stop x); [intros H; by apply elem_of_nil in H|]. set_solver.
Qed.

Lemma op_epoch_newest ops o e : o ∈ ops -> op_epoch o = Some e -> e <= newest ops.
Proof.
  induction ops as [|x ops IH] using rev_ind; intros Hin He; [by apply elem_of_nil in Hin|].
  rewrite newest_snoc. apply elem_of_app in Hin as [Hin|Hin%list_elem_of_singleton].
  - specialize (IH Hin He). destruct (op_epoch x); lia.
  - subst. rewrite He. lia.
Qed.

(** Nothing has been seen yet on a network newer than every call. *)
Lemma noted_newer stop ops e : newest ops < e -> noted e (since stop ops) = [].
Proof.
  intros Hlt. destruct (noted e (since stop ops)) as [|a l] eqn:E; [done|exfalso].
  assert (Ha : a ∈ noted e (since stop ops)) by (rewrite E; set_solver).
  apply list_elem_of_omap in Ha as (o & Hin & Ho). apply since_sub in Hin.
  destruct o as [b e'| | |]; try done. destruct (bytes_eqb b zero4) eqn:Hz; [done|]. cbn in Ho.
  destruct (Z.eqb_spec e' e); [|done]. subst. apply (op_epoch_newest _ _ e) in Hin; [lia|]. cbn. by rewrite Hz.
Qed.
Lemma sampled_newer stop ops e : newest ops < e -> sampled e (since stop ops) = [].
Proof.
  intros Hlt. destruct (sampled e (since stop ops)) as [|a l] eqn:E; [done|exfalso].
  assert (Ha : a ∈ sampled e (since stop ops)) by (rewrite E; set_solver).
  apply list_elem_of_omap in Ha as (o & Hin & Ho). apply since_sub in Hin.
  destruct o as [|b p e'| |]; try done. destruct (Z.eqb_spec e' e); [|done]. subst.
  apply (op_epoch_newest _ _ e) in Hin; [lia|done].
Qed.

(** A new member takes a free place, and a known or late one none. *)
Lemma nub_note n l a :
  take n (nub (l ++ [a])) =
    if existsb (bytes_eqb a) (take n (nub l)) then take n (nub l)
    else if (length (take n (nub l)) <? n)%nat then take n (nub l) ++ [a] else take n (nub l).
Proof.
  rewrite nub_snoc. rewrite length_take.
  destruct (existsb (bytes_eqb a) (take n (nub l))) eqn:E1.
  - assert (E2 : existsb (bytes_eqb a) (nub l) = true).
    { apply existsb_exists in E1 as (x & Hin & Hx). apply existsb_exists. exists x. split; [|done].
      rewrite <- (firstn_skipn n (nub l)). apply in_or_app. by left. }
    by rewrite E2.
  - destruct (Nat.ltb_spec (n `min` length (nub l)) n).
    + rewrite (take_ge (nub l)) in E1 |- * by lia. rewrite E1, take_ge; [done|]. rewrite length_app. cbn. lia.
    + destruct (existsb (bytes_eqb a) (nub l)); [done|]. rewrite take_app_le by lia. done.
Qed.

Lemma mapping_of_snoc l a p : mapping_of (l ++ [(a, p)]) = stun_mapping_add (mapping_of l) a p.
Proof. unfold mapping_of. by rewrite fold_left_app. Qed.

(** The abstract pool after the calls [ops]. *)
Definition pool_is (ops : list pool_op) (p : peering_pool) : Prop :=
  po_epoch p = newest ops /\
  po_v4 p = take PEERING_POOL4_MAX (nub (noted (newest ops) (since is_reset ops))) /\
  po_map4 p = mapping_of (sampled (newest ops) (since is_restart ops)).

(** The epoch rule, for a call [o] that measured [e]: either it is late, or it is
    on the network the pool is then of, and what the pool holds is what was
    measured there before. *)
Lemma pool_epoch_is ops p e o :
  pool_is ops p -> op_epoch o = Some e ->
  newest (ops ++ [o]) = Z.max (newest ops) e /\
  ((pool_epoch_ok p e = (p, false) /\ e < newest ops) \/
   exists q, pool_epoch_ok p e = (q, true) /\ newest ops <= e /\ po_epoch q = e /\
     po_v4 q = take PEERING_POOL4_MAX (nub (noted e (since is_reset ops))) /\
     po_map4 q = mapping_of (sampled e (since is_restart ops))).
Proof.
  intros (H1 & H2 & H3) He. rewrite newest_snoc, He. split; [done|]. unfold pool_epoch_ok. rewrite H1.
  destruct (Z.eqb_spec e (newest ops)); [right; exists p; subst; split; [done|]; split; [lia|done]|].
  destruct (Z.ltb_spec e (newest ops)); [left; split; [done|lia]|].
  right. eexists. split; [done|]. split; [lia|]. cbn. rewrite noted_newer, sampled_newer by lia. done.
Qed.

Lemma noted_snoc e ops o : noted e (ops ++ [o]) = noted e ops ++ noted e [o].
Proof. unfold noted. by rewrite omap_app. Qed.
Lemma sampled_snoc e ops o : sampled e (ops ++ [o]) = sampled e ops ++ sampled e [o].
Proof. unfold sampled. by rewrite omap_app. Qed.

Lemma pool_note_is ops p a e : pool_is ops p -> pool_is (ops ++ [PNote a e]) (peering_pool_note p a e).1.
Proof.
  intros H. unfold peering_pool_note, pool_is. rewrite !since_snoc. cbn [is_reset is_restart].
  rewrite noted_snoc, sampled_snoc. cbn [sampled omap list_omap noted]. rewrite app_nil_r.
  destruct (bytes_eqb a zero4) eqn:Hz.
  { rewrite newest_snoc. cbn [op_epoch]. rewrite Hz. cbn. by rewrite app_nil_r. }
  destruct (pool_epoch_is ops p e (PNote a e) H) as [-> Hok]; [cbn; by rewrite Hz|].
  destruct H as (H1 & H2 & H3). destruct Hok as [[-> Hlt]|(q & -> & Hle & Hq1 & Hq2 & Hq3)]; cbn [negb fst].
  - rewrite Z.max_l by lia. destruct (Z.eqb_spec e (newest ops)); [lia|]. cbn. by rewrite app_nil_r.
  - rewrite Z.max_r by lia. rewrite Z.eqb_refl. cbn [andb negb].
    rewrite nub_note, <- Hq2. fold (existsb (bytes_eqb a)).
    destruct (existsb (bytes_eqb a) (po_v4 q)); [done|].
    destruct (length (po_v4 q) <? PEERING_POOL4_MAX)%nat; done.
Qed.

Lemma pool_sample_is ops p a port e :
  pool_is ops p -> pool_is (ops ++ [PSample a port e]) (peering_pool_sample p a port e).
Proof.
  intros H. unfold peering_pool_sample, pool_is. rewrite !since_snoc. cbn [is_reset is_restart].
  rewrite noted_snoc, sampled_snoc. cbn [sampled omap list_omap noted]. rewrite app_nil_r.
  destruct (pool_epoch_is ops p e (PSample a port e) H) as [-> Hok]; [done|].
  destruct H as (H1 & H2 & H3). destruct Hok as [[-> Hlt]|(q & -> & Hle & Hq1 & Hq2 & Hq3)].
  - rewrite Z.max_l by lia. destruct (Z.eqb_spec e (newest ops)); [lia|]. by rewrite app_nil_r.
  - rewrite Z.max_r by lia. rewrite Z.eqb_refl, mapping_of_snoc, <- Hq3. done.
Qed.

(** C16: the egress pool is what the newest network measured: after any sequence of
    calls from the loop and the probe rounds, whatever their order and their
    stamps, the pool is of the newest epoch any of them carried; asked for that
    epoch it gives the first eight distinct addresses noted on it since the last
    reset, in order; asked for any other it gives none; and the mapping verdict
    is that of exactly the samples of that epoch since the last round or reset
    began. *)
Theorem pool_refines ops :
  let p := pool_run ops in
  po_epoch p = newest ops /\
  (forall e, peering_pool_copy p e =
     if newest ops =? e then take PEERING_POOL4_MAX (nub (noted e (since is_reset ops))) else []) /\
  peering_pool_mapping p = stun_mapping_result (mapping_of (sampled (newest ops) (since is_restart ops))) /\
  peering_pool_port_stable p = stun_mapping_port_stable (mapping_of (sampled (newest ops) (since is_restart ops))).
Proof.
  cbn zeta. assert (H : pool_is ops (pool_run ops)).
  { induction ops as [|o ops IH] using rev_ind; [done|]. unfold pool_run. rewrite fold_left_app. cbn [fold_left].
    fold (pool_run ops). destruct o as [a e|a port e| |]; cbn [pool_step].
    - by apply pool_note_is.
    - by apply pool_sample_is.
    - destruct IH as (H1 & H2 & H3). unfold pool_is. rewrite newest_snoc, !since_snoc. cbn [op_epoch is_reset is_restart].
      rewrite noted_snoc. cbn. by rewrite app_nil_r.
    - destruct IH as (H1 & H2 & H3). unfold pool_is. by rewrite newest_snoc, !since_snoc. }
  destruct H as (H1 & H2 & H3). split; [done|]. split; [|by rewrite <- H3].
  intros e. unfold peering_pool_copy. rewrite H1. destruct (Z.eqb_spec (newest ops) e); [by subst|done].
Qed.
