(* ===== verification/Peering.v ===== *)
(** src/src/peering.c, one peer: the planes it owns, which path it transmits on
    and how the two ends agree about that, the carrier it gathers, and what it
    does with what arrives.

    The peer's sinks are what they answer at the time of the call, so they are
    arguments; random draws and what libjuice says are arguments too.  The model
    the peer points at is a separate state, in PeerModel.v. *)
From S2P Require Import Prelude Net Replay Liveness Crypto Keys DataAuth CtlProto PathEp Path PathTable PathAdopt ProbePlane CtlPlane PathPlane PathHolds.

Record peering_ice := mk_pice {
  ice_ufrag : bytes;
  ice_pwd : bytes;
  ice_remote_ufrag : bytes;
  ice_remote_pwd : bytes;
  ice_remote_gen : Z;
  ice_agent : Z;                     (* an address, 0 for NULL *)
  ice_ctx : Z;
  ice_up : bool
}.
Definition ice_eta (i : peering_ice) : peering_ice :=
  mk_pice (ice_ufrag i) (ice_pwd i) (ice_remote_ufrag i) (ice_remote_pwd i) (ice_remote_gen i)
    (ice_agent i) (ice_ctx i) (ice_up i).
#[export] Instance set_ice_ufrag : Setter ice_ufrag := ltac:(solve_setter ice_eta).
#[export] Instance set_ice_pwd : Setter ice_pwd := ltac:(solve_setter ice_eta).
#[export] Instance set_ice_remote_ufrag : Setter ice_remote_ufrag := ltac:(solve_setter ice_eta).
#[export] Instance set_ice_remote_pwd : Setter ice_remote_pwd := ltac:(solve_setter ice_eta).
#[export] Instance set_ice_remote_gen : Setter ice_remote_gen := ltac:(solve_setter ice_eta).
#[export] Instance set_ice_agent : Setter ice_agent := ltac:(solve_setter ice_eta).
#[export] Instance set_ice_ctx : Setter ice_ctx := ltac:(solve_setter ice_eta).

Record peering := mk_peering {
  pe_pp : probeplane;
  pe_pl : pathplane;
  pe_cp : ctlplane;
  pe_ice : peering_ice;
  pe_next_rdvask_ms : Z * Z;
  pe_next_cand_ms : Z;
  pe_rdv_told_gen : Z;
  pe_next_rdv_tell_ms : Z;
  pe_reach_told_gen : Z;
  pe_next_reach_tell_ms : Z;
  pe_next_hb_ms : Z;
  pe_proposes : bool;
  tx_pending : bool;
  tx_pending_seq : Z;
  tx_pending_id : bytes;
  tx_told_id : bytes;
  tx_told : bool
}.
Definition peering_eta (p : peering) : peering :=
  mk_peering (pe_pp p) (pe_pl p) (pe_cp p) (pe_ice p) (pe_next_rdvask_ms p) (pe_next_cand_ms p)
    (pe_rdv_told_gen p) (pe_next_rdv_tell_ms p) (pe_reach_told_gen p) (pe_next_reach_tell_ms p)
    (pe_next_hb_ms p) (pe_proposes p) (tx_pending p) (tx_pending_seq p) (tx_pending_id p)
    (tx_told_id p) (tx_told p).
#[export] Instance set_pe_pp : Setter pe_pp := ltac:(solve_setter peering_eta).
#[export] Instance set_pe_pl : Setter pe_pl := ltac:(solve_setter peering_eta).
#[export] Instance set_pe_cp : Setter pe_cp := ltac:(solve_setter peering_eta).
#[export] Instance set_pe_ice : Setter pe_ice := ltac:(solve_setter peering_eta).
#[export] Instance set_pe_next_rdvask_ms : Setter pe_next_rdvask_ms := ltac:(solve_setter peering_eta).
#[export] Instance set_pe_next_cand_ms : Setter pe_next_cand_ms := ltac:(solve_setter peering_eta).
#[export] Instance set_pe_rdv_told_gen : Setter pe_rdv_told_gen := ltac:(solve_setter peering_eta).
#[export] Instance set_pe_next_rdv_tell_ms : Setter pe_next_rdv_tell_ms := ltac:(solve_setter peering_eta).
#[export] Instance set_pe_reach_told_gen : Setter pe_reach_told_gen := ltac:(solve_setter peering_eta).
#[export] Instance set_pe_next_reach_tell_ms : Setter pe_next_reach_tell_ms := ltac:(solve_setter peering_eta).
#[export] Instance set_pe_next_hb_ms : Setter pe_next_hb_ms := ltac:(solve_setter peering_eta).
#[export] Instance set_tx_pending : Setter tx_pending := ltac:(solve_setter peering_eta).
#[export] Instance set_tx_pending_seq : Setter tx_pending_seq := ltac:(solve_setter peering_eta).
#[export] Instance set_tx_pending_id : Setter tx_pending_id := ltac:(solve_setter peering_eta).
#[export] Instance set_tx_told_id : Setter tx_told_id := ltac:(solve_setter peering_eta).
#[export] Instance set_tx_told : Setter tx_told := ltac:(solve_setter peering_eta).

(** What an operation does on the two sink tables, in order. *)
Inductive peer_call :=
| ByPath (c : pl_call)
| ByCtl (c : ctl_call).

Definition pice_zero : peering_ice := mk_pice [] [] [] [] 0 0 0 false.
Definition peering_init (magic : Z) (key : bytes) (seq0 : Z) (proposes : bool) : peering :=
  mk_peering (probeplane_init magic key seq0) pathplane_init ctlplane_init pice_zero (0, 0) 0 0 0 0 0 0
    proposes false 0 (replicate PATH_ID_LEN 0) (replicate PATH_ID_LEN 0) false.

Definition peering_reset (pr : peering) : peering :=
  pr <| pe_pp := probeplane_reset (pe_pp pr) |> <| pe_cp := ctlplane_reset (pe_cp pr) |>
     <| tx_pending := false |> <| tx_told := false |>.

(** ** Which path is transmitted on *)
Definition txack_flag (rc : pathplane_pin_t) : Z :=
  match rc with
  | PATHPLANE_PIN_OK => 0
  | PATHPLANE_PIN_UNKNOWN => CTL_TXACK_F_UNKNOWN
  | PATHPLANE_PIN_UNUSABLE => CTL_TXACK_F_UNUSABLE
  end.

Definition tx_confirm (pr : peering) (pk : pathplane_sinks) (ck : ctlplane_sinks) (now : Z) :
  peering * list peer_call :=
  let '(cp, got) := ctlplane_take_txsel (pe_cp pr) in
  let pr := pr <| pe_cp := cp |> in
  match got with
  | None => (pr, [])
  | Some (seq, id, flags) =>
      let '(pl, rc) := pathplane_pin (pe_pl pr) pk id now in
      (pr <| pe_pl := pl |>, map ByCtl (ctlplane_tell_txack ck seq id (txack_flag rc)))
  end.

(** The answer to the statement outstanding. *)
Definition tx_answered (pr : peering) (pk : pathplane_sinks) (now : Z) : peering :=
  let '(cp, got) := ctlplane_take_txack (pe_cp pr) in
  let pr := pr <| pe_cp := cp |> in
  match got with
  | None => pr
  | Some (seq, id, flags) =>
      let pr := pr <| tx_pending := false |> in
      if negb (truth flags) && bytes_eqb id (tx_pending_id pr) then
        let '(pl, rc) := pathplane_pin (pe_pl pr) pk id now in
        let pr := pr <| pe_pl := pl |> in
        match rc with PATHPLANE_PIN_OK => pr <| tx_told_id := id |> | _ => pr end
      else pr
  end.

Definition tx_propose (pr : peering) (pk : pathplane_sinks) (ck : ctlplane_sinks) (now : Z) :
  peering * list peer_call :=
  let pr := tx_answered pr pk now in
  match pathplane_carry_id (pe_pl pr) with
  | None => (pr, [])
  | Some carry =>
      if negb (tx_told pr) || negb (bytes_eqb carry (tx_told_id pr)) then
        let '(cp, calls, seq) := ctlplane_tell_txsel (pe_cp pr) ck carry CTL_TXSEL_F_FORCED in
        let pr := pr <| pe_cp := cp |> in
        if seq =? 0 then (pr, map ByCtl calls)
        else (pr <| tx_told_id := carry |> <| tx_told := true |> <| tx_pending := false |>, map ByCtl calls)
      else if tx_pending pr then (pr, [])
      else
        match pathplane_challenger (pe_pl pr) now with
        | None => (pr, [])
        | Some id =>
            let '(cp, calls, seq) := ctlplane_tell_txsel (pe_cp pr) ck id 0 in
            let pr := pr <| pe_cp := cp |> <| tx_pending_seq := seq |> in
            if seq =? 0 then (pr, map ByCtl calls)
            else (pr <| tx_pending_id := id |> <| tx_pending := true |>, map ByCtl calls)
        end
  end.

Section Peering.
Context {C : Crypto}.

(** [nonces] and [rnds]: the draws of a probe round, as [pathplane_tick] takes
    them. *)
Definition peering_paths (pr : peering) (pk : pathplane_sinks) (ck : ctlplane_sinks) (now : Z)
  (nonces : option (list Z)) (rnds : list (option bytes)) : peering * list peer_call * bool :=
  let '(pl, pp, calls, moved) := pathplane_tick (pe_pl pr) (pe_pp pr) pk now nonces rnds in
  let pr := pr <| pe_pl := pl |> <| pe_pp := pp |> in
  let '(pr, said) := if pe_proposes pr then tx_propose pr pk ck now else tx_confirm pr pk ck now in
  (pr, map ByPath calls ++ said, moved).

(** ** What arrives *)
Definition peering_recv (pr : peering) (pk : pathplane_sinks) (data : bytes) (kd : path_kind)
  (src : option sockaddr) (ag now : Z) (rnd : option bytes) : peering * list peer_call * bool :=
  let '(pl, pp, calls, ok) := pathplane_recv (pe_pl pr) (pe_pp pr) pk data kd src ag now rnd in
  (pr <| pe_pl := pl |> <| pe_pp := pp |>, map ByPath calls, ok).

Definition peering_ctl (pr : peering) (ck : ctlplane_sinks) (type : Z) (pl : bytes) (netgen now : Z) :
  peering * list peer_call :=
  let '(cp, pp, calls, _) := ctlplane_on_msg (pe_cp pr) (pe_pp pr) ck type pl netgen now in
  (pr <| pe_cp := cp |> <| pe_pp := pp |>, map ByCtl calls).

(** [None] when the engine took it, else what is left for the playbook. *)
Definition peering_datagram (pr : peering) (pk : pathplane_sinks) (data : bytes) (kd : path_kind)
  (src : option sockaddr) (ag now : Z) (rnd : option bytes) : peering * list peer_call * option bytes :=
  if pathplane_muted (pe_pl pr) then (pr, [], None)
  else if pathplane_is_probe (pe_pp pr) data then
    let '(pr, calls, _) := peering_recv pr pk data kd src ag now rnd in (pr, calls, None)
  else
    let '(pp, body) := probeplane_unwrap (pe_pp pr) data in (pr <| pe_pp := pp |>, [], body).

Definition peering_claims (pr : peering) (pk : pathplane_sinks) (data : bytes) (kd : path_kind)
  (src : option sockaddr) (now : Z) (rnd : option bytes) : peering * list peer_call * Z :=
  let '(pp, probe, claimed) := pathplane_claims (pe_pp pr) pk data in
  let pr := pr <| pe_pp := pp |> in
  match probe with
  | Some p =>
      if 0 <? claimed then
        let '(pl, pp, calls) := pathplane_apply (pe_pl pr) (pe_pp pr) pk p kd src 0 now rnd in
        (pr <| pe_pl := pl |> <| pe_pp := pp |>, map ByPath calls, claimed)
      else (pr, [], claimed)
  | None => (pr, [], claimed)
  end.
End Peering.

Definition peering_pick (pr : peering) (pk : pathplane_sinks) : pathplane_pick_t := pathplane_pick (pe_pl pr) pk.

Definition peering_add_path (pr : peering) (pk : pathplane_sinks) (kd : path_kind) (rem : sockaddr)
  (label_len : nat) (now : Z) : peering * option bytes :=
  let '(pl, label) := pathplane_add_ep (pe_pl pr) pk kd rem label_len now in (pr <| pe_pl := pl |>, label).

Definition peering_offer_path (pr : peering) (pk : pathplane_sinks) (rem : sockaddr) (now : Z) : peering :=
  pr <| pe_pl := pathplane_offer_path (pe_pl pr) pk rem now |>.

(** Everything is owed to a peer met again. *)
Definition peering_owed (pr : peering) (now : Z) : peering :=
  pr <| pe_next_cand_ms := now |> <| pe_rdv_told_gen := 0 |> <| pe_next_rdv_tell_ms := now |>
     <| pe_reach_told_gen := 0 |> <| pe_next_reach_tell_ms := now |> <| pe_next_rdvask_ms := (now, now) |>
     <| pe_next_hb_ms := now |>.

(** ** What the link looks like *)
Inductive conn_state :=
| CONN_CONNECTING | CONN_GATHERING | CONN_PUNCHING | CONN_LIVE | CONN_LOST | CONN_LAGGED | CONN_UNKNOWN.
Definition PEERING_LINK_LAG_MS : Z := 1200.

Definition peering_link (pr : peering) (netgen : Z) (carrier_up : bool) (now : Z) : conn_state :=
  let live := ctlplane_liveness (pe_cp pr) in
  let age := u64 (now - lv_last_pong_ms live) in
  if negb (lv_pong_seen live) then if carrier_up then CONN_PUNCHING else CONN_CONNECTING
  else if truth (lv_lost_since_ms live) && (hb_lost_ms (lv_rtt_ms live) <=? age) then CONN_LOST
  else if negb (lv_live_gen live =? netgen) then CONN_UNKNOWN
  else if PEERING_LINK_LAG_MS <=? age then CONN_LAGGED
  else CONN_LIVE.

(** ** The carrier *)
Definition hx (d : Z) : Z := nth (Z.to_nat d) (cstr "0123456789abcdef") 0.
(** [n] hex digits of the drawn bytes: the high nibble of each, then its low. *)
Definition hex_digits (n : nat) (rb : bytes) : bytes :=
  map (fun i => hx (if Nat.odd i then nth (i / 2) rb 0 .& 0xf else nth (i / 2) rb 0 >> 4)) (seq 0 n).
(** [uflen] and [pwlen] are at least one. *)
Definition peering_ice_gen (rb4 rb16 : bytes) (uflen pwlen : nat) : bytes * bytes :=
  (hex_digits (Nat.min (uflen - 1) 8) rb4, hex_digits (Nat.min (pwlen - 1) 32) rb16).

Definition peering_ice_ident (pr : peering) (rb4 rb16 : bytes) : peering :=
  let '(uf, pw) := peering_ice_gen rb4 rb16 16 40 in
  pr <| pe_ice := (pe_ice pr) <| ice_ufrag := uf |> <| ice_pwd := pw |> |>.

Definition peering_ice_agent (pr : peering) : Z := ice_agent (pe_ice pr).
Definition peering_ice_up (pr : peering) : bool := ice_up (pe_ice pr).

Definition peering_ice_adopt (pr : peering) (ag ctx now : Z) : peering :=
  pr <| pe_ice := (pe_ice pr) <| ice_agent := ag |> <| ice_ctx := ctx |> |>
     <| pe_pl := pathplane_add_ice (pe_pl pr) ag now |>.

Definition peering_ice_stop (pr : peering) (k : pathplane_sinks) : peering * list peer_call :=
  let ag := ice_agent (pe_ice pr) in
  let ctx := ice_ctx (pe_ice pr) in
  let pr := pr <| pe_ice := (pe_ice pr) <| ice_agent := 0 |> <| ice_ctx := 0 |> |> in
  let '(pl, calls) := pathplane_free_agent (pathplane_drop_ice (pe_pl pr)) k ag ctx in
  (pr <| pe_pl := pl |>, map ByPath calls).

(** [set]: [nat_set_remote_description] took the description. *)
Definition peering_ice_prime (pr : peering) (set : bool) (ufrag : bytes) (pwd : option bytes) :
  peering * bool :=
  if negb set then (pr, false)
  else
    let i := (pe_ice pr) <| ice_remote_ufrag := snprintf 40 ufrag |> in
    let i := match pwd with Some w => i <| ice_remote_pwd := snprintf 40 w |> | None => i end in
    (pr <| pe_ice := i |>, true).

Definition peering_ice_unprime (pr : peering) : peering :=
  pr <| pe_ice := (pe_ice pr) <| ice_remote_ufrag := [] |> <| ice_remote_pwd := [] |>
                              <| ice_remote_gen := 0 |> |>.

(** Whether the description is handed to the agent at all. *)
Definition peering_ice_amend (pr : peering) (connected : bool) : bool :=
  truth (ice_agent (pe_ice pr)) && negb connected.

Definition peering_ice_rotated (pr : peering) (offer_ufrag : bytes) : bool :=
  negb (bytes_eqb (ice_remote_ufrag (pe_ice pr)) []) &&
  negb (bytes_eqb offer_ufrag (ice_remote_ufrag (pe_ice pr))).

Definition peering_ice_moved (pr : peering) (peer_gen : Z) : bool :=
  truth (ice_remote_gen (pe_ice pr)) && (ice_remote_gen (pe_ice pr) <? peer_gen).
