(* ===== verification/PeerModel.v ===== *)
(** src/src/peering.c, the reachability model the peers of one session share and
    what passes between it, the signaller, the network's probe rounds and each
    peer: answers and facts taken in, actions carried out, and what this end can
    say of itself published to every peer.

    What the operating system, the DHT engine and libjuice answer are arguments:
    the source address the kernel names, whether a probe thread could be made,
    whether the engine took a pin. *)
From S2P Require Import Prelude Net NsFacts Token Netstate AddrText Obsemit SigFam StunProbe PeerNet Replay Liveness Crypto Keys DataAuth CtlProto PathEp Path PathTable PathAdopt ProbePlane CtlPlane PathPlane PathHolds Peering.

(** The node's bytes stand at the start of a zeroed [sockaddr_storage]. *)
Record peering_rdv := mk_prdv {
  rv_sa : bytes; rv_have : bool; rv_qualified : bool; rv_status : Z
}.

Record peering_model := mk_pmodel {
  pm_ns : netstate;
  pm_oe : obsemit;
  pm_sig : option sig;
  pm_is_host : bool;
  pm_dht : bool;
  pm_dht_since_ms : Z;
  pm_rdv : peering_rdv * peering_rdv;
  pm_rdv_gen : Z;
  pm_reach : bytes;
  pm_reach_gen : Z;
  pm_relay_fam : bool * bool;
  pm_relay_until_ms : Z * Z
}.
Definition pmodel_eta (p : peering_model) : peering_model :=
  mk_pmodel (pm_ns p) (pm_oe p) (pm_sig p) (pm_is_host p) (pm_dht p) (pm_dht_since_ms p) (pm_rdv p)
    (pm_rdv_gen p) (pm_reach p) (pm_reach_gen p) (pm_relay_fam p) (pm_relay_until_ms p).
#[export] Instance set_pm_ns : Setter pm_ns := ltac:(solve_setter pmodel_eta).
#[export] Instance set_pm_oe : Setter pm_oe := ltac:(solve_setter pmodel_eta).
#[export] Instance set_pm_sig : Setter pm_sig := ltac:(solve_setter pmodel_eta).
#[export] Instance set_pm_dht_since_ms : Setter pm_dht_since_ms := ltac:(solve_setter pmodel_eta).
#[export] Instance set_pm_rdv : Setter pm_rdv := ltac:(solve_setter pmodel_eta).
#[export] Instance set_pm_rdv_gen : Setter pm_rdv_gen := ltac:(solve_setter pmodel_eta).
#[export] Instance set_pm_reach : Setter pm_reach := ltac:(solve_setter pmodel_eta).
#[export] Instance set_pm_reach_gen : Setter pm_reach_gen := ltac:(solve_setter pmodel_eta).
#[export] Instance set_pm_relay_fam : Setter pm_relay_fam := ltac:(solve_setter pmodel_eta).
#[export] Instance set_pm_relay_until_ms : Setter pm_relay_until_ms := ltac:(solve_setter pmodel_eta).

Definition CTL_RDVST_PROVEN : Z := 1.
Definition CTL_RDVST_VOUCHED : Z := 2.
Definition CTL_RDVST_BLIND : Z := 4.
Definition CTL_REACHF_DHT : Z := 1.
Definition PEERING_RDV_TELL_MS : Z := 30000.
Definition PEERING_REACH_TELL_MS : Z := 30000.
Definition PEERING_CAND_TELL_MS : Z := 5000.
Definition PEERING_RDVASK_MS : Z := 60000.
Definition PEERING_RELAY_HOLD_MS : Z := 3 * PEERING_RDVASK_MS.

Definition prdv_zero : peering_rdv := mk_prdv [] false false 0.
Definition peering_model_init (is_host dht : bool) (o : option session_obs) (now : Z) : peering_model :=
  mk_pmodel (netstate_init is_host now) (obsemit_init o) None is_host dht 0 (prdv_zero, prdv_zero) 0
    (replicate CTL_REACH_PLEN 0) 0 (false, false) (0, 0).

(** [famv], and the loops over it. *)
Definition fam_no (i : bool) : Z := if i then 6 else 4.
Definition both {S} (f : S -> bool -> S) (s : S) : S := f (f s false) true.

(** A call on the signaller, when there is one. *)
Definition on_sig (pm : peering_model) (g : sig -> sig) : peering_model :=
  pm <| pm_sig := option_map g (pm_sig pm) |>.

(** ** What a peer says *)
Definition adopt_node (now : Z) (nodes : ctlplane_node * ctlplane_node) (pm : peering_model) (i : bool) :
  peering_model :=
  let n := get2 nodes i in
  let sa := take (Z.to_nat (cn_len n)) (sa_bytes (cn_sa n)) in
  if negb (cn_have n) then pm
  else
    let held := netstate_anchor (pm_ns pm) (fam_no i) in
    if match held with
       | Some (node, _) => pm_is_host pm || bytes_eqb node sa
       | None => false
       end then pm
    else pm <| pm_ns :=
      if truth (cn_status n .& (CTL_RDVST_PROVEN .| CTL_RDVST_VOUCHED))
      then netstate_on_rdv_vouched (pm_ns pm) (fam_no i) sa now
      else netstate_on_rdv_offered (pm_ns pm) (fam_no i) sa now |>.

Definition rdv_adopt (pm : peering_model) (pr : peering) (now : Z) : peering_model * peering :=
  let '(cp, got) := ctlplane_take_nodes (pe_cp pr) in
  let pr := pr <| pe_cp := cp |> in
  match got with
  | None => (pm, pr)
  | Some nodes => (both (adopt_node now nodes) pm, pr)
  end.

(** The peer's account is only logged. *)
Definition reach_take (pr : peering) : peering :=
  pr <| pe_cp := (ctlplane_take_reach (pe_cp pr)).1 |>.

Definition self_sufficient (pm : peering_model) (family : Z) : bool :=
  let '(conn, acked) := netstate_reach (pm_ns pm) family in
  if negb (conn =? NET_CONN_UP) then false
  else acked || bool_decide (is_Some (netstate_anchor (pm_ns pm) family)).

Definition ask_family (pm : peering_model) (reach : bytes) (now : Z) (pr : peering) (i : bool) : peering :=
  let '(_, state, _) := ctl_reach_decode reach (of_bool i) in
  if now <? get2 (pe_next_rdvask_ms pr) i then pr
  else if self_sufficient pm (fam_no i) then pr
  else if negb (state =? CTL_REACH_UP) then pr
  else pr <| pe_next_rdvask_ms := put2 (pe_next_rdvask_ms pr) i (u64 (now + PEERING_RDVASK_MS)) |>
          <| pe_cp := ctlplane_ask_rdv (pe_cp pr) (fam_no i) |>.

Definition rdv_ask (pm : peering_model) (pr : peering) (now : Z) : peering :=
  if negb (pm_is_host pm) || negb (pm_dht pm) then pr
  else match ctlplane_peer_reach (pe_cp pr) with
       | None => pr
       | Some reach => both (ask_family pm reach now) pr
       end.

Definition serve_family (ask now : Z) (pm : peering_model) (i : bool) : peering_model :=
  if truth (ask .& (if i then 2 else 1)) then
    let pm := pm <| pm_relay_until_ms := put2 (pm_relay_until_ms pm) i (u64 (now + PEERING_RELAY_HOLD_MS)) |> in
    if get2 (pm_relay_fam pm) i then pm
    else on_sig (pm <| pm_relay_fam := put2 (pm_relay_fam pm) i true |>) (fun s => sig_relay s (fam_no i) true)
  else if get2 (pm_relay_fam pm) i && (get2 (pm_relay_until_ms pm) i <=? now) then
    on_sig (pm <| pm_relay_fam := put2 (pm_relay_fam pm) i false |>) (fun s => sig_relay s (fam_no i) false)
  else pm.

Definition rdv_serve_ask (pm : peering_model) (pr : peering) (now : Z) : peering_model * peering :=
  if pm_is_host pm || negb (bool_decide (is_Some (pm_sig pm))) then (pm, pr)
  else
    let '(cp, ask) := ctlplane_take_asks (pe_cp pr) in
    (both (serve_family ask now) pm, pr <| pe_cp := cp |>).

Definition peering_absorb (pm : peering_model) (pr : peering) (now : Z) : peering_model * peering :=
  let '(pm, pr) := rdv_adopt pm pr now in
  let pr := reach_take pr in
  let '(pm, pr) := rdv_serve_ask pm pr now in
  (pm, rdv_ask pm pr now).

(** ** What a peer is told *)
Definition netmon_addr_sockaddr (a : netmon_addr) (port : Z) : option (Z * sockaddr) :=
  if (nm_family a =? 4) && (nm_addrlen a =? 4)%nat then Some (4, AF_INET port (take 4 (nm_addr a)))
  else if (nm_family a =? 6) && (nm_addrlen a =? 16)%nat then Some (6, AF_INET6 port (take 16 (nm_addr a)) 0)
  else None.

(** [addrs]: the interface snapshot. *)
Definition cand_tell (pr : peering) (addrs : list netmon_addr) (cand_port now : Z) :
  peering * list ctl_call :=
  if now <? pe_next_cand_ms pr then (pr, [])
  else
    let pr := pr <| pe_next_cand_ms := u64 (now + PEERING_CAND_TELL_MS) |> in
    if cand_port =? 0 then (pr, [])
    else (pr, concat (map (fun a => match netmon_addr_sockaddr a cand_port with
                                    | Some (fam, sa) => ctlplane_tell_cand fam sa
                                    | None => []
                                    end) addrs)).

Definition rdv_tell (pm : peering_model) (pr : peering) (now : Z) : peering * list ctl_call :=
  if (pm_rdv_gen pm =? pe_rdv_told_gen pr) && (now <? pe_next_rdv_tell_ms pr) then (pr, [])
  else
    (pr <| pe_rdv_told_gen := pm_rdv_gen pm |>
        <| pe_next_rdv_tell_ms := u64 (now + PEERING_RDV_TELL_MS) |>,
     concat (map (fun i : bool =>
       let v := get2 (pm_rdv pm) i in
       if negb (rv_have v) then []
       else ctlplane_tell_rdv (fam_no i) (sa_read (rv_sa v)) (rv_status v)) [false; true])).

Definition reach_tell (pm : peering_model) (pr : peering) (now : Z) : peering * list ctl_call :=
  if pm_reach_gen pm =? 0 then (pr, [])
  else if (pm_reach_gen pm =? pe_reach_told_gen pr) && (now <? pe_next_reach_tell_ms pr) then (pr, [])
  else (pr <| pe_reach_told_gen := pm_reach_gen pm |>
           <| pe_next_reach_tell_ms := u64 (now + PEERING_REACH_TELL_MS) |>,
        ctlplane_tell_reach (pm_reach pm)).

Section Say.
Context {C : Crypto}.

(** [rnd] as [ctlplane_offer_key] takes it. *)
Definition peering_say (pm : peering_model) (pr : peering) (ck : ctlplane_sinks)
  (addrs : list netmon_addr) (cand_port now : Z) (rnd : option bytes) : peering * list ctl_call :=
  let '(pr, c1) := cand_tell pr addrs cand_port now in
  let '(pr, c2) := rdv_tell pm pr now in
  let '(pr, c3) := reach_tell pm pr now in
  let '(cp, c4) := ctlplane_tell_asks (pe_cp pr) in
  let pr := pr <| pe_cp := cp |> in
  let '(pr, c5) :=
    if not_ready ck then (pr, [])
    else let '(cp, pp, c, _) := ctlplane_offer_key (pe_cp pr) (pe_pp pr) rnd in
         (pr <| pe_cp := cp |> <| pe_pp := pp |>, c) in
  let '(pr, c6) :=
    if now <? pe_next_hb_ms pr then (pr, [])
    else (pr <| pe_next_hb_ms := u64 (now + HB_INTERVAL_MS) |>, ctlplane_ping now) in
  (pr, c1 ++ c2 ++ c3 ++ c4 ++ c5 ++ c6).
End Say.

(** ** What the signaller saw *)
Definition acks_family (now : Z) (pm : peering_model) (i : bool) : peering_model :=
  match pm_sig pm with
  | None => pm
  | Some s =>
      let '(s, seen) := sig_take_anchor_seen s (fam_no i) in
      let ns := pm_ns pm in
      let ns := if seen then netstate_on_anchor_seen ns (fam_no i) now else ns in
      let ns := netstate_set_picking ns (fam_no i) (pm_is_host pm || get2 (pm_relay_fam pm) i) in
      let '(s, ack) := sig_take_ack s (fam_no i) SA_STORAGE in
      let ns := match ack with
                | Some node => netstate_on_dht_ack ns (fam_no i) (netstate_epoch ns (fam_no i)) node now
                | None => ns
                end in
      pm <| pm_sig := Some s |> <| pm_ns := ns |>
  end.
Definition peering_acks (pm : peering_model) (now : Z) : peering_model := both (acks_family now) pm.

(** ** Facts in, actions out *)

(** What the world outside answers in one pass. *)
Record settle_env := mk_senv {
  se_src : Z -> option bytes;         (* the source address the kernel names *)
  se_spawned : bool;                  (* the probe thread could be made *)
  se_engaged : bool;                  (* there is a DHT engine, or one could be made *)
  se_pinned : bool                    (* and it took the pin *)
}.
Record peering_settle_t := mk_settle { st_start6 : Z; st_expect4 : bool; st_expect6 : bool }.

Definition sample_src (pm : peering_model) (env : settle_env) (family epoch now : Z) : peering_model :=
  pm <| pm_ns :=
    match se_src env family with
    | None => netstate_on_src (pm_ns pm) family epoch [] 0 None now
    | Some raw =>
        let text := if family =? 6 then inet_ntop6 raw else inet_ntop4 raw in
        netstate_on_src (pm_ns pm) family epoch raw (net_addr_scope text) (Some text) now
    end |>.

Definition has_act (act bit : Z) : bool := truth (act .& bit).

Definition kick_family (pm : peering_model) (net : peering_net) (env : settle_env) (start6 family epoch now : Z) :
  peering_model * peering_net :=
  let '(net, kick) := peering_net_kick net family epoch start6 (se_spawned env) in
  (if 0 <? kick then pm <| pm_ns := netstate_on_probe_started (pm_ns pm) family epoch now |>
   else if kick <? 0 then pm <| pm_ns := netstate_on_probe_deferred (pm_ns pm) family epoch |>
   else pm, net).

(** The actions of one family that the signaller carries out. *)
Definition apply_sig (pm : peering_model) (env : settle_env) (act family : Z) : peering_model :=
  let pm := if has_act act NSA_EMIT_CONN
            then on_sig pm (fun s => sig_set_family_up s family (netstate_conn (pm_ns pm) family =? NET_CONN_UP))
            else pm in
  let pm := if has_act act NSA_RDV_PIN
            then match netstate_anchor (pm_ns pm) family with
                 | Some (node, _) =>
                     on_sig pm (fun s => (sig_reinforce (se_engaged env) (se_pinned env) s family node).1)
                 | None => pm
                 end
            else pm in
  let pm := if has_act act NSA_RDV_RELOCATE then on_sig pm (fun s => sig_search_again s family) else pm in
  if has_act act NSA_RDV_DROP then on_sig pm (fun s => sig_forget s family) else pm.

Definition apply_family (cfg : peering_settle_t) (env : settle_env) (a : netstate_actions) (now : Z)
  (st : peering_model * peering_net * list obs_call) (i : bool) :
  peering_model * peering_net * list obs_call :=
  let '(pm, net, calls) := st in
  let act := get2 (na_f a) i in
  let epoch := get2 (na_epoch a) i in
  let family := fam_no i in
  let pm := if has_act act NSA_SAMPLE_SRC then sample_src pm env family epoch now else pm in
  let '(pm, net) := if has_act act NSA_KICK_PROBE
                    then kick_family pm net env (st_start6 cfg) family epoch now else (pm, net) in
  let c1 := if has_act act NSA_EMIT_ROWS then obsemit_rows (pm_oe pm) (pm_ns pm) family else [] in
  let c2 := if has_act act NSA_EMIT_CONN
            then obsemit_conn (pm_oe pm) family (netstate_conn (pm_ns pm) family) else [] in
  let pm := apply_sig pm env act family in
  let c3 := if has_act act NSA_EMIT_RDV
            then obsemit_rendezvous (pm_oe pm) (pm_ns pm) (st_expect4 cfg) (st_expect6 cfg) else [] in
  (pm, net, calls ++ c1 ++ c2 ++ c3).

Definition apply (pm : peering_model) (net : peering_net) (cfg : peering_settle_t) (env : settle_env)
  (a : netstate_actions) (now : Z) : peering_model * peering_net * list obs_call :=
  both (apply_family cfg env a now) (pm, net, []).

Definition pool_tell (pm : peering_model) (net : peering_net) : peering_model * peering_net :=
  let e := netstate_epoch (pm_ns pm) 4 in
  match peering_pool_copy (pn_pool net) e with
  | [] => (pm, pool_untold net)
  | pool => (pm <| pm_ns := fold_left (fun ns a => netstate_on_reflexive ns 4 e a) pool (pm_ns pm) |>, net)
  end.

Definition settle_fact (now : Z) (st : peering_model * peering_net) (f : nsfact) : peering_model * peering_net :=
  let '(pm, net) := st in
  let net := if nf_kind f =? NSF_PROBE_DONE then peering_net_reap net (nf_family f) else net in
  (pm <| pm_ns := (peering_facts_feed (pm_ns pm) f (nf_epoch f) now).1 |>, net).

Definition peering_settle (pm : peering_model) (net : peering_net) (cfg : peering_settle_t)
  (env : settle_env) (now : Z) : peering_model * peering_net * list obs_call :=
  let '(net, facts) := peering_facts_take net NSFACTS_OUT in
  let '(pm, net) := fold_left (settle_fact now) facts (pm, net) in
  let '(pm, net) := pool_tell pm net in
  let pm := pm <| pm_ns := netstate_tick (pm_ns pm) now |> in
  let '(ns, a, any) := netstate_take_actions (pm_ns pm) in
  let pm := pm <| pm_ns := ns |> in
  if any then apply pm net cfg env a now else (pm, net, []).

(** ** What this end can say of itself *)
Definition rdvst (ns : netstate) (family : Z) : Z :=
  let '(proven, vouched, blind) := netstate_anchor_state ns family in
  (if proven then CTL_RDVST_PROVEN else 0) .| (if vouched then CTL_RDVST_VOUCHED else 0) .|
  (if blind then CTL_RDVST_BLIND else 0).

Definition publish_rdv (pm : peering_model) (i : bool) : peering_model :=
  match netstate_anchor (pm_ns pm) (fam_no i) with
  | None => pm
  | Some (node, confirmed) =>
      let v := get2 (pm_rdv pm) i in
      let status := rdvst (pm_ns pm) (fam_no i) in
      if rv_have v && bytes_eqb (rv_sa v) node && eqb (rv_qualified v) confirmed && (rv_status v =? status)
      then pm
      else pm <| pm_rdv := put2 (pm_rdv pm) i (mk_prdv node true confirmed status) |>
              <| pm_rdv_gen := u32 (pm_rdv_gen pm + 1) |>
  end.

Definition reach_family (ns : netstate) (pl : bytes) (i : bool) : bytes :=
  let '(conn, acked) := netstate_reach ns (fam_no i) in
  ctl_reach_encode pl (of_bool i)
    (if conn =? NET_CONN_UP then CTL_REACH_UP
     else if conn =? NET_CONN_PENDING then CTL_REACH_PENDING else CTL_REACH_DOWN)
    (if acked then CTL_REACHF_DHT else 0).

Definition peering_publish (pm : peering_model) : peering_model :=
  let pm := if pm_dht pm then both publish_rdv pm else pm in
  let pl := both (reach_family (pm_ns pm)) (replicate CTL_REACH_PLEN 0) in
  if bytes_eqb (pm_reach pm) pl then pm
  else pm <| pm_reach := pl |> <| pm_reach_gen := u32 (pm_reach_gen pm + 1) |>.

Definition peering_advance (pm : peering_model) (net : peering_net) (cfg : peering_settle_t)
  (env : settle_env) (now : Z) : peering_model * peering_net * list obs_call :=
  let pm := peering_acks pm now in
  let '(pm, net, calls) := peering_settle pm net cfg env now in
  (peering_publish pm, net, calls).

(** ** A signaller made or taken away *)
Definition model_sig_family (pm : peering_model) (s : sig) (i : bool) : sig :=
  let s := sig_set_family_up s (fam_no i) (netstate_conn (pm_ns pm) (fam_no i) =? NET_CONN_UP) in
  if get2 (pm_relay_fam pm) i then sig_relay s (fam_no i) true else s.
Definition peering_model_sig (pm : peering_model) (s : option sig) (now : Z) : peering_model :=
  match s with
  | None => pm <| pm_sig := None |>
  | Some s => pm <| pm_sig := Some (both (model_sig_family pm) s) |> <| pm_dht_since_ms := now |>
  end.

(** [cap] is the caller's buffer; a fallback is a node's bytes. *)
Definition peering_seed_pick (pm : peering_model) (family : Z) (fallback : option bytes) (cap : nat) :
  option bytes :=
  let from_fallback := match fallback with
                       | Some sa => if nonempty sa && (length sa <=? cap)%nat then Some sa else None
                       | None => None
                       end in
  match netstate_anchor (pm_ns pm) family with
  | Some (node, _) => if (length node <=? cap)%nat then Some node else from_fallback
  | None => from_fallback
  end.

Definition seed_family (env : settle_env) (fallback : option (bytes * bytes)) (now : Z) (pm : peering_model)
  (i : bool) : peering_model :=
  match peering_seed_pick pm (fam_no i) (option_map (fun f => get2 f i) fallback) SA_STORAGE with
  | None => pm
  | Some node =>
      let offered pm := pm <| pm_ns := netstate_on_rdv_offered (pm_ns pm) (fam_no i) node now |> in
      if pm_is_host pm then
        offered (on_sig pm (fun s => (sig_reinforce (se_engaged env) (se_pinned env) s (fam_no i) node).1))
      else if match pm_sig pm with
              | Some s => sig_seed_node (se_engaged env) (se_pinned env) s node
              | None => false
              end
      then offered pm else pm
  end.
Definition peering_seed_rendezvous (pm : peering_model) (env : settle_env)
  (fallback : option (bytes * bytes)) (now : Z) : peering_model :=
  both (seed_family env fallback now) pm.
