(* ===== verification/PeerAgree.v ===== *)
(** Two ends of one channel agreeing on the path they transmit on: the statements
    and answers of src/src/peering.c (tx_propose, tx_confirm) over the control
    planes and the path planes of both, run at once.  The control channel is
    reliable and ordered in each direction; everything else either end may do
    meanwhile is an act of it, in any order.  One channel's life is modelled, so
    no end resets. *)
From S2P Require Import Prelude Net NsFacts Token Netstate AddrText Obsemit SigFam StunProbe PeerNet Replay Liveness Crypto Keys DataAuth CtlProto PathEp Path PathTable PathAdopt ProbePlane CtlPlane KeyExchange PathPlane PathHolds Peering PeerModel.

(** ** What else an end does *)
Inductive peer_act :=
| ARecv (pk : pathplane_sinks) (data : bytes) (kd : path_kind) (src : option sockaddr) (ag now : Z)
    (rnd : option bytes)
| ADatagram (pk : pathplane_sinks) (data : bytes) (kd : path_kind) (src : option sockaddr) (ag now : Z)
    (rnd : option bytes)
| AClaims (pk : pathplane_sinks) (data : bytes) (kd : path_kind) (src : option sockaddr) (now : Z)
    (rnd : option bytes)
| AAddPath (pk : pathplane_sinks) (kd : path_kind) (rem : sockaddr) (n : nat) (now : Z)
| AOffer (pk : pathplane_sinks) (rem : sockaddr) (now : Z)
| AOwed (now : Z)
| AAdopt (ag ctx now : Z)
| AStop (pk : pathplane_sinks)
| APrime (took : bool) (ufrag : bytes) (pwd : option bytes)
| AUnprime
| AAbsorb (pm : peering_model) (now : Z)
| ASay (pm : peering_model) (ck : ctlplane_sinks) (addrs : list netmon_addr) (port now : Z)
    (rnd : option bytes)
| AClear
| AStats (now : Z)
| AArm (kd : Z) (to : option sockaddr)
| AMute (on : bool)
| ALift
| AHeard (now : Z)
| ALive (now : Z)
| AJudge (now : Z).

Section Agree.
Context {C : Crypto}.

Definition peer_do (pr : peering) (a : peer_act) : peering * list ctl_call :=
  let on_pl g := pr <| pe_pl := g (pe_pl pr) |> in
  let on_cp g := pr <| pe_cp := g (pe_cp pr) |> in
  match a with
  | ARecv pk data kd src ag now rnd => ((peering_recv pr pk data kd src ag now rnd).1.1, [])
  | ADatagram pk data kd src ag now rnd => ((peering_datagram pr pk data kd src ag now rnd).1.1, [])
  | AClaims pk data kd src now rnd => ((peering_claims pr pk data kd src now rnd).1.1, [])
  | AAddPath pk kd rem n now => ((peering_add_path pr pk kd rem n now).1, [])
  | AOffer pk rem now => (peering_offer_path pr pk rem now, [])
  | AOwed now => (peering_owed pr now, [])
  | AAdopt ag ctx now => (peering_ice_adopt pr ag ctx now, [])
  | AStop pk => ((peering_ice_stop pr pk).1, [])
  | APrime took ufrag pwd => ((peering_ice_prime pr took ufrag pwd).1, [])
  | AUnprime => (peering_ice_unprime pr, [])
  | AAbsorb pm now => ((peering_absorb pm pr now).2, [])
  | ASay pm ck addrs port now rnd => peering_say pm pr ck addrs port now rnd
  | AClear => (on_pl pathplane_clear, [])
  | AStats now => (on_pl (fun pl => pathplane_reset_stats pl now), [])
  | AArm kd to => (on_pl (fun pl => pathplane_blackhole_arm pl kd to), [])
  | AMute on => (on_pl (fun pl => pathplane_blackhole_mute pl on), [])
  | ALift => (on_pl pathplane_blackhole_lift, [])
  | AHeard now => (on_cp (fun cp => ctlplane_heard cp now), [])
  | ALive now => (on_cp (fun cp => ctlplane_live_reset cp now), [])
  | AJudge now => (on_cp (fun cp => (ctlplane_judge cp now).1.1), [])
  end.

Definition said (calls : list peer_call) : list (Z * bytes) :=
  sends (omap (fun c => match c with ByCtl c => Some c | ByPath _ => None end) calls).

(** The proposer, the confirmer, and the messages in flight each way. *)
Record tx_sys := mk_tx {
  ts_p : peering; ts_q : peering; ts_pq : list (Z * bytes); ts_qp : list (Z * bytes)
}.

Inductive tx_next (d : tx_sys) : bool -> tx_sys -> Prop :=
| tn_p a :
    let r := peer_do (ts_p d) a in
    tx_next d false (mk_tx r.1 (ts_q d) (ts_pq d ++ sends r.2) (ts_qp d))
| tn_q a :
    let r := peer_do (ts_q d) a in
    tx_next d false (mk_tx (ts_p d) r.1 (ts_pq d) (ts_qp d ++ sends r.2))
| tn_p_paths pk ck now nonces rnds :
    let r := peering_paths (ts_p d) pk ck now nonces rnds in
    tx_next d true (mk_tx r.1.1 (ts_q d) (ts_pq d ++ said r.1.2) (ts_qp d))
| tn_q_paths pk ck now nonces rnds :
    let r := peering_paths (ts_q d) pk ck now nonces rnds in
    tx_next d false (mk_tx (ts_p d) r.1.1 (ts_pq d) (ts_qp d ++ said r.1.2))
| tn_to_q ck type pl rest netgen now :
    ts_pq d = (type, pl) :: rest ->
    let r := peering_ctl (ts_q d) ck type pl netgen now in
    tx_next d false (mk_tx (ts_p d) r.1 rest (ts_qp d ++ said r.2))
| tn_to_p ck type pl rest netgen now :
    ts_qp d = (type, pl) :: rest ->
    let r := peering_ctl (ts_p d) ck type pl netgen now in
    tx_next d false (mk_tx r.1 (ts_q d) (ts_pq d ++ said r.2) rest).

(** From two fresh ends, with the proposer's rounds counted. *)
Inductive tx_reach : Z -> tx_sys -> Prop :=
| tr_init magic key s1 s2 :
    tx_reach 0 (mk_tx (peering_init magic key s1 true) (peering_init magic key s2 false) [] [])
| tr_step n d round d' :
    tx_reach n d -> tx_next d round d' -> tx_reach (if round then n + 1 else n) d'.

(** The statements in flight, by number. *)
Definition stmts (q : list (Z * bytes)) : list Z :=
  omap (fun m => if m.1 =? CTLM_TXSEL then Some (be_get (take 4 m.2)) else None) q.

(** Strictly rising from above [lo], up to [hi]. *)
Fixpoint rising (lo : Z) (l : list Z) (hi : Z) : Prop :=
  match l with
  | [] => lo <= hi
  | x :: l' => lo < x /\ rising x l' hi
  end.

(** Nothing said by the proposer is on its way, and the confirmer's last pin is
    the path [id]. *)
Definition settled (d : tx_sys) (id : bytes) : Prop :=
  stmts (ts_pq d) = [] /\ txsel_in_pending (pe_cp (ts_q d)) = false /\ pin_id (pe_pl (ts_q d)) = id.

Definition ack_ok (d : tx_sys) (m : Z * bytes) : Prop :=
  m.1 = CTLM_TXACK ->
  exists seq id fl, ctl_txsel_decode m.2 = Some (seq, id, fl) /\ seq <= txsel_seq_in (pe_cp (ts_q d)) /\
    (fl = 0 -> seq = txsel_seq_out (pe_cp (ts_p d)) -> settled d id).

Record tx_ok (n : Z) (d : tx_sys) : Prop := {
  to_p : pe_proposes (ts_p d) = true;
  to_q : pe_proposes (ts_q d) = false;
  to_out : 0 <= txsel_seq_out (pe_cp (ts_p d)) <= n;
  to_wait : txsel_wait (pe_cp (ts_p d)) = 0 \/ txsel_wait (pe_cp (ts_p d)) = txsel_seq_out (pe_cp (ts_p d));
  to_in : 0 <= txsel_seq_in (pe_cp (ts_q d));
  to_fly : rising (txsel_seq_in (pe_cp (ts_q d))) (stmts (ts_pq d)) (txsel_seq_out (pe_cp (ts_p d)));
  to_id : length (txsel_in_id (pe_cp (ts_q d))) = CTL_TXSEL_ID_LEN;
  to_acks : Forall (ack_ok d) (ts_qp d);
  to_got : txack_in_pending (pe_cp (ts_p d)) = true -> txack_in_flags (pe_cp (ts_p d)) = 0 ->
    settled d (txack_in_id (pe_cp (ts_p d)))
}.

(** ** Lemmas: what leaves the agreement alone *)
Definition tx_view (cp : ctlplane) : Z * Z * Z * (bool * bytes) * (bool * bytes * Z) :=
  (txsel_seq_out cp, txsel_seq_in cp, txsel_wait cp, (txsel_in_pending cp, txsel_in_id cp),
   (txack_in_pending cp, txack_in_id cp, txack_in_flags cp)).
Definition quiet (q : list (Z * bytes)) : Prop := no_type CTLM_TXSEL q /\ no_type CTLM_TXACK q.

Lemma quiet_nil : quiet [].
Proof. split; constructor. Qed.
Lemma quiet_app q1 q2 : quiet q1 -> quiet q2 -> quiet (q1 ++ q2).
Proof. unfold quiet. rewrite !no_type_app. tauto. Qed.

Lemma apply_pin_id pl pp k pr kd src ag now rnd :
  pin_id (pathplane_apply pl pp k pr kd src ag now rnd).1.1 = pin_id pl.
Proof.
  unfold pathplane_apply, apply_ping, ping_locked, apply_pong. destruct (pr_type pr =? PROBE_PING).
  - case_bool_decide; [done|]. destruct (match recv_path pl kd _ ag with Some i => _ | None => _ end) as [t [i|]];
      destruct (blackholed pl _ src); try done; by destruct (probeplane_seal _ _ _ _ _) as [? [?|]].
  - destruct (pr_type pr =? PROBE_PONG); [|by destruct (ps_other k)].
    destruct (nonce_path pl _); [|done]. destruct (pong_misplaced _ _ _ _); [done|].
    by destruct (path_probe_pong _ _ _).
Qed.

Lemma recv_pin_id pl pp k data kd src ag now rnd :
  pin_id (pathplane_recv pl pp k data kd src ag now rnd).1.1.1 = pin_id pl.
Proof.
  destruct (recv_apply pl pp k data kd src ag now rnd) as [->|(pp' & pr & _ & _ & _ & ->)]; [done|].
  apply apply_pin_id.
Qed.

Lemma tick_pin_id pl pp k now ns rnds : pin_id (pathplane_tick pl pp k now ns rnds).1.1.1 = pin_id pl.
Proof.
  unfold pathplane_tick.
  assert (H : pin_id (tick_probes pl pp k now ns rnds).1.1 = pin_id pl).
  { unfold tick_probes, tick_ep_clock. destruct (bytes_eqb (ps_ident k) []); [done|].
    destruct (_ && _); (destruct (_ =? 0)%nat; [done|]; destruct ns; [|done];
      destruct (tick_draw _ _ _ _ _); by destruct (tick_send _ _ _ _)). }
  destruct (tick_probes pl pp k now ns rnds) as [[pl1 pp1] calls]. cbn [fst] in *. rewrite <- H.
  unfold pathplane_decide, pin_check. cbn. destruct (negb (pinned pl1)); [done|].
  destruct (first_slot _ _); [|done]. by destruct (pin_holds _ _ _).
Qed.

Lemma add_ep_pin_id pl k kd rem n now : pin_id (pathplane_add_ep pl k kd rem n now).1 = pin_id pl.
Proof.
  unfold pathplane_add_ep. destruct (match path_ep_from_sockaddr rem _ with Some ep => _ | None => _ end); [done|].
  by destruct (path_table_add _ _ _ _ _).
Qed.
Lemma offer_pin_id pl k rem now : pin_id (pathplane_offer_path pl k rem now) = pin_id pl.
Proof.
  unfold pathplane_offer_path. destruct (path_ep_from_sockaddr rem _); [|done].
  destruct (_ || _); [done|]. destruct (negb _); [done|]. by destruct (is_self k _).
Qed.

(** An act that says nothing about transmitting. *)
Definition calm_call (c : ctl_call) : Prop :=
  match c with Send t _ => t <> CTLM_TXSEL /\ t <> CTLM_TXACK | _ => True end.
Definition calm (pr : peering) (r : peering * list ctl_call) : Prop :=
  tx_view (pe_cp r.1) = tx_view (pe_cp pr) /\ pin_id (pe_pl r.1) = pin_id (pe_pl pr) /\
  pe_proposes r.1 = pe_proposes pr /\ Forall calm_call r.2.

Lemma calm_quiet calls : Forall calm_call calls -> quiet (sends calls).
Proof.
  induction 1 as [|c l Hc _ [IH1 IH2]]; [apply quiet_nil|]. destruct c; cbn [sends omap list_omap]; [|done..].
  destruct Hc. split; constructor; done.
Qed.

Lemma key_bind_calm cp pp : Forall calm_call (key_bind cp pp).2.
Proof. unfold key_bind. destruct (_ || _); repeat constructor; done. Qed.

Lemma cand_tell_calm pr addrs port now : calm pr (cand_tell pr addrs port now).
Proof.
  unfold cand_tell. destruct (now <? _); [done|]. destruct (port =? 0); [done|].
  split_and!; try done. apply Forall_concat, Forall_map, Forall_true. intros a.
  destruct (netmon_addr_sockaddr a port) as [[f sa]|]; [|constructor]. unfold ctlplane_tell_cand.
  destruct (ctl_rdv_encode f sa); repeat constructor; done.
Qed.
Lemma rdv_tell_calm pm pr now : calm pr (rdv_tell pm pr now).
Proof.
  unfold rdv_tell. destruct (_ && _); [done|]. split_and!; try done.
  apply Forall_concat, Forall_map, Forall_true. intros i. destruct (negb _); [constructor|].
  unfold ctlplane_tell_rdv. destruct (ctl_rdv_encode _ _); repeat constructor; done.
Qed.
Lemma reach_tell_calm pm pr now : calm pr (reach_tell pm pr now).
Proof.
  unfold reach_tell. destruct (_ =? 0); [done|]. destruct (_ && _); [done|].
  split_and!; try done. repeat constructor; done.
Qed.

Lemma calm_bind pr r r' : calm pr r -> calm r.1 r' -> calm pr (r'.1, r.2 ++ r'.2).
Proof.
  intros (H1 & H2 & H3 & H4) (K1 & K2 & K3 & K4). unfold calm. cbn [fst snd].
  rewrite Forall_app. split_and!; congruence || done.
Qed.

Lemma say_calm pm pr ck addrs port now rnd : calm pr (peering_say pm pr ck addrs port now rnd).
Proof.
  unfold peering_say. pose proof (cand_tell_calm pr addrs port now) as H.
  destruct (cand_tell pr addrs port now) as [p1 c1].
  pose proof (calm_bind _ _ _ H (rdv_tell_calm pm p1 now)) as H2. destruct (rdv_tell pm p1 now) as [p2 c2].
  cbn [fst snd] in H2. pose proof (calm_bind _ _ _ H2 (reach_tell_calm pm p2 now)) as H3.
  destruct (reach_tell pm p2 now) as [p3 c3]. cbn [fst snd] in H3.
  set (asks := ctlplane_tell_asks (pe_cp p3)).
  assert (Ha : calm p3 (p3 <| pe_cp := asks.1 |>, asks.2)).
  { unfold asks, ctlplane_tell_asks. split_and!; try done. apply Forall_app. split; destruct (truth _); repeat constructor; done. }
  pose proof (calm_bind _ _ _ H3 Ha) as H4. destruct asks as [cp c4]. cbn [fst snd] in H4. clear H H2 H3 Ha.
  set (p4 := p3 <| pe_cp := cp |>) in *.
  set (off := if not_ready ck then (p4, []) else _).
  assert (Hk : calm p4 off).
  { unfold off. destruct (not_ready ck); [done|]. unfold ctlplane_offer_key.
    destruct (if half_sent _ then None else rnd) as [half|]; [|done].
    pose proof (key_bind_calm ((pe_cp p4) <| half_out := half |> <| half_sent := true |>) (pe_pp p4)) as K.
    destruct (key_bind _ _) as [pp c]. split_and!; try done. constructor; done. }
  pose proof (calm_bind _ _ _ H4 Hk) as H5. destruct off as [p5 c5]. cbn [fst snd] in H5.
  set (hb := if now <? pe_next_hb_ms p5 then (p5, []) else _).
  assert (Hh : calm p5 hb). { unfold hb. destruct (_ <? _); [done|]. split_and!; try done. repeat constructor; done. }
  pose proof (calm_bind _ _ _ H5 Hh) as H6. destruct hb as [p6 c6]. cbn [fst snd] in H6. by rewrite <- !app_assoc in H6.
Qed.

Lemma absorb_calm pm pr now : calm pr ((peering_absorb pm pr now).2, []).
Proof.
  unfold peering_absorb, rdv_adopt, ctlplane_take_nodes.
  assert (Hask : forall pm r, tx_view (pe_cp (rdv_ask pm r now)) = tx_view (pe_cp r) /\
    pe_pl (rdv_ask pm r now) = pe_pl r /\ pe_proposes (rdv_ask pm r now) = pe_proposes r).
  { assert (Hf : forall pm b r i, tx_view (pe_cp (ask_family pm b now r i)) = tx_view (pe_cp r) /\
      pe_pl (ask_family pm b now r i) = pe_pl r /\ pe_proposes (ask_family pm b now r i) = pe_proposes r).
    { intros. unfold ask_family. destruct (ctl_reach_decode b (of_bool i)) as [[? st] ?].
      destruct (now <? _); [done|]. destruct (self_sufficient _ _); [done|]. by destruct (negb _). }
    intros pm0 r. unfold rdv_ask. destruct (_ || _); [done|]. destruct (ctlplane_peer_reach _) as [b|]; [|done].
    unfold both. destruct (Hf pm0 b (ask_family pm0 b now r false) true) as (-> & -> & ->). apply Hf. }
  set (p1 := if rdv_in_dirty _ then _ else _).
  assert (H1 : tx_view p1.1 = tx_view (pe_cp pr)) by (unfold p1; by destruct (rdv_in_dirty _)).
  destruct p1 as [cp got]. cbn [fst] in H1.
  assert (H2 : forall pm', calm pr ((let pr0 := reach_take (pr <| pe_cp := cp |>) in
    let '(pm0, pr1) := rdv_serve_ask pm' pr0 now in (pm0, rdv_ask pm0 pr1 now)).2, [])).
  { intros pm'. cbn zeta. unfold rdv_serve_ask, reach_take, ctlplane_take_reach.
    set (p2 := pr <| pe_cp := cp |> <| pe_cp := _ |>).
    assert (K : tx_view (pe_cp p2) = tx_view cp) by (unfold p2; cbn; by destruct (reach_in_dirty cp)).
    destruct (_ || _); cbn [snd].
    - destruct (Hask pm' p2) as (E1 & E2 & E3). split_and!; cbn [fst snd]; [congruence | by rewrite E2 | by rewrite E3 | done].
    - destruct (ctlplane_take_asks (pe_cp p2)) as [cp3 ask] eqn:E. cbn [snd].
      destruct (Hask (both (serve_family ask now) pm') (p2 <| pe_cp := cp3 |>)) as (E1 & E2 & E3).
      assert (K3 : tx_view cp3 = tx_view (pe_cp p2)) by (unfold ctlplane_take_asks in E; by inversion E; subst).
      split_and!; cbn [fst snd]; [rewrite E1; cbn; congruence | by rewrite E2 | by rewrite E3 | done]. }
  destruct got as [nodes|]; [apply (H2 (both (adopt_node now nodes) pm)) | apply (H2 pm)].
Qed.

Lemma peer_do_calm pr a : calm pr (peer_do pr a).
Proof.
  destruct a; cbn [peer_do]; try (split_and!; done).
  - unfold peering_recv. pose proof (recv_pin_id (pe_pl pr) (pe_pp pr) pk data kd src ag now rnd) as H.
    by destruct (pathplane_recv _ _ _ _ _ _ _ _ _) as [[[pl pp] calls] ok].
  - unfold peering_datagram, peering_recv. destruct (pathplane_muted _); [done|].
    destruct (pathplane_is_probe _ _).
    + pose proof (recv_pin_id (pe_pl pr) (pe_pp pr) pk data kd src ag now rnd) as H.
      by destruct (pathplane_recv _ _ _ _ _ _ _ _ _) as [[[pl pp] calls] ok].
    + by destruct (probeplane_unwrap _ _).
  - unfold peering_claims. destruct (pathplane_claims _ _ _) as [[pp [p|]] n]; [|done].
    destruct (0 <? n); [|done].
    pose proof (apply_pin_id (pe_pl pr) pp pk p kd src 0 now rnd) as H. cbn in H |- *.
    by destruct (pathplane_apply _ _ _ _ _ _ _ _ _) as [[pl pp2] calls].
  - unfold peering_add_path. pose proof (add_ep_pin_id (pe_pl pr) pk kd rem n now) as H.
    by destruct (pathplane_add_ep _ _ _ _ _ _).
  - split_and!; try done. apply offer_pin_id.
  - unfold peering_ice_stop, pathplane_free_agent. by destruct (truth _).
  - unfold peering_ice_prime. destruct (negb took); [done|]. by destruct pwd.
  - apply absorb_calm.
  - apply say_calm.
  - unfold ctlplane_heard. split_and!; try done. cbn. by destruct (_ <? 100).
Qed.

(** A control message taken: what it is about is the field it changes. *)
Lemma on_msg_frame cp pp k type pl netgen now :
  let r := ctlplane_on_msg cp pp k type pl netgen now in
  Forall calm_call r.1.2 /\ txsel_seq_out r.1.1.1 = txsel_seq_out cp /\ txsel_wait r.1.1.1 = txsel_wait cp /\
  (r.1.1.1 = (if (type =? CTLM_TXSEL) && (CTL_TXSEL_PLEN <=? length pl)%nat then on_txsel cp pl
              else if (type =? CTLM_TXACK) && (CTL_TXSEL_PLEN <=? length pl)%nat then on_txack cp pl
              else r.1.1.1)) /\
  ((type =? CTLM_TXSEL) && (CTL_TXSEL_PLEN <=? length pl)%nat = false ->
   (type =? CTLM_TXACK) && (CTL_TXSEL_PLEN <=? length pl)%nat = false -> tx_view r.1.1.1 = tx_view cp).
Proof.
  cbn zeta. destruct (Z.eqb_spec type CTLM_TXSEL) as [->|Hs]; [|destruct (Z.eqb_spec type CTLM_TXACK) as [->|Ha]].
  - unfold ctlplane_on_msg. cbn [Z.eqb Pos.eqb andb CTLM_TXSEL CTLM_PING CTLM_PONG CTLM_RDV CTLM_REACH CTLM_KEY CTLM_KEYOK CTLM_RDVASK].
    unfold on_txsel. destruct (CTL_TXSEL_PLEN <=? length pl)%nat; cbn.
    + destruct (ctl_txsel_decode pl) as [[[? ?] ?]|]; [|done]. by destruct (_ <? _).
    + destruct (has_other k); split_and!; try done; repeat constructor.
  - unfold ctlplane_on_msg. cbn [Z.eqb Pos.eqb andb CTLM_TXSEL CTLM_TXACK CTLM_PING CTLM_PONG CTLM_RDV CTLM_REACH CTLM_KEY CTLM_KEYOK CTLM_RDVASK].
    unfold on_txack. destruct (CTL_TXSEL_PLEN <=? length pl)%nat; cbn.
    + destruct (ctl_txsel_decode pl) as [[[? ?] ?]|]; [|done]. by destruct (_ && _).
    + destruct (has_other k); split_and!; try done; repeat constructor.
  - cbn [andb]. unfold ctlplane_on_msg.
    rewrite (proj2 (Z.eqb_neq type CTLM_TXSEL) Hs), (proj2 (Z.eqb_neq type CTLM_TXACK) Ha). cbn [andb].
    destruct ((type =? CTLM_PING) && _); [destruct (match answer_ping k with Some b => b | None => true end); split_and!; try done; repeat constructor; done|].
    destruct ((type =? CTLM_PONG) && _); [cbn; destruct (has_pong k); split_and!; try done; repeat constructor; done|].
    destruct ((type =? CTLM_RDV) && _).
    { unfold on_rdv. destruct (ctl_rdv_decode pl) as [[? ?]|]; [|done]. by destruct (rdv_in cp). }
    destruct ((type =? CTLM_REACH) && _); [done|].
    destruct ((type =? CTLM_KEY) && _).
    { pose proof (key_bind_calm (cp <| half_in := take CTL_KEY_PLEN pl |> <| half_seen := true |>) pp) as K.
      destruct (key_bind _ _) as [pp' c]. done. }
    destruct (type =? CTLM_KEYOK); [done|].
    destruct ((type =? CTLM_RDVASK) && _); [by destruct (_ || _)|].
    destruct ((type =? CTLM_CAND) && _).
    { destruct (ctl_rdv_decode pl) as [[? ?]|]; [|done]. destruct (has_offer_path k); split_and!; try done; repeat constructor; done. }
    destruct (has_other k); split_and!; try done; repeat constructor; done.
Qed.

(** ** Lemmas: the invariant *)
Lemma stmts_app q1 q2 : stmts (q1 ++ q2) = stmts q1 ++ stmts q2.
Proof. unfold stmts. by rewrite omap_app. Qed.
Lemma stmts_quiet q : quiet q -> stmts q = [].
Proof.
  intros [H _]. induction H as [|m l Hm _ IH]; [done|]. unfold stmts. cbn [omap list_omap].
  by rewrite (proj2 (Z.eqb_neq m.1 CTLM_TXSEL) Hm).
Qed.

Lemma rising_le l : forall lo hi, rising lo l hi -> lo <= hi.
Proof. induction l as [|x l IH]; cbn; [done|]. intros lo hi [H1 H2]. apply IH in H2. lia. Qed.
Lemma rising_from lo lo' l hi : rising lo l hi -> lo' <= lo -> rising lo' l hi.
Proof. destruct l; cbn; [lia|]. intros [H1 H2] H. split; [lia|done]. Qed.
Lemma rising_none l hi : rising hi l hi -> l = [].
Proof. destruct l; cbn; [done|]. intros [H1 H2]. apply rising_le in H2. lia. Qed.
Lemma rising_snoc l x : forall lo hi, rising lo l hi -> hi < x -> rising lo (l ++ [x]) x.
Proof. induction l as [|y l IH]; cbn; intros lo hi H Hx; [split; lia|]. destruct H. split; [done|]. by eapply IH. Qed.

Definition p_view (cp : ctlplane) : Z * Z * (bool * bytes * Z) :=
  (txsel_seq_out cp, txsel_wait cp, (txack_in_pending cp, txack_in_id cp, txack_in_flags cp)).
Definition q_view (cp : ctlplane) : Z * bool * bytes := (txsel_seq_in cp, txsel_in_pending cp, txsel_in_id cp).

Lemma tx_view_p cp cp' : tx_view cp = tx_view cp' -> p_view cp = p_view cp'.
Proof. unfold tx_view, p_view. congruence. Qed.
Lemma tx_view_q cp cp' : tx_view cp = tx_view cp' -> q_view cp = q_view cp'.
Proof. unfold tx_view, q_view. congruence. Qed.

(** Whatever neither states, answers nor pins keeps the invariant. *)
Lemma tx_ok_calm n d d' :
  tx_ok n d -> p_view (pe_cp (ts_p d')) = p_view (pe_cp (ts_p d)) ->
  q_view (pe_cp (ts_q d')) = q_view (pe_cp (ts_q d)) -> pin_id (pe_pl (ts_q d')) = pin_id (pe_pl (ts_q d)) ->
  pe_proposes (ts_p d') = pe_proposes (ts_p d) -> pe_proposes (ts_q d') = pe_proposes (ts_q d) ->
  stmts (ts_pq d') = stmts (ts_pq d) -> (forall m, m ∈ ts_qp d' -> m ∈ ts_qp d \/ m.1 <> CTLM_TXACK) ->
  tx_ok n d'.
Proof.
  intros Hok HP HQ Hpin H1 H2 Hs Hm. unfold p_view, q_view in *. injection HP as P1 P2 P3 P4 P5.
  injection HQ as Q1 Q2 Q3.
  assert (Hset : forall x, settled d x -> settled d' x)
    by (intros x (A & B & D); unfold settled; rewrite Hs, Q2, Hpin; done).
  destruct Hok. constructor; rewrite ?P1, ?P2, ?P3, ?P4, ?P5, ?Q1, ?Q2, ?Q3, ?Hs; try congruence; auto.
  apply Forall_forall. intros m Hin. destruct (Hm m Hin) as [H|H]; [|by intros ?].
  rewrite Forall_forall in to_acks0. intros Ht. destruct (to_acks0 m H Ht) as (seq & x & fl & E & Hle & Himp).
  exists seq, x, fl. rewrite Q1, P1. auto.
Qed.

Lemma said_ctl calls : said (map ByCtl calls) = sends calls.
Proof. unfold said. f_equal. induction calls; cbn; [done|]. by f_equal. Qed.
Lemma said_path calls rest : said (map ByPath calls ++ rest) = said rest.
Proof. unfold said. f_equal. rewrite omap_app. induction calls; cbn; done. Qed.

(** The statement number is the first field, whatever follows it. *)
Lemma stmt_no seq pid fl : is_u32 seq -> be_get (take 4 (ctl_txsel_encode seq pid fl)) = seq.
Proof.
  intros H. unfold ctl_txsel_encode. rewrite take_app_length' by (by rewrite be_put_length).
  rewrite be_get_put. by apply Z.mod_small.
Qed.

Lemma stmts_one seq pid fl : is_u32 seq -> stmts [(CTLM_TXSEL, ctl_txsel_encode seq pid fl)] = [seq].
Proof. intros H. unfold stmts. cbn [omap list_omap fst snd]. by rewrite Z.eqb_refl, stmt_no. Qed.

Lemma txsel_decode_encode seq pid fl :
  is_u32 seq -> length pid = CTL_TXSEL_ID_LEN -> is_u8 fl ->
  ctl_txsel_decode (ctl_txsel_encode seq pid fl) = Some (seq, pid, fl).
Proof.
  intros Hs Hi Hf. unfold ctl_txsel_decode. pose proof (be_put_length 4 seq) as Hl4.
  rewrite (stmt_no seq pid fl Hs). unfold ctl_txsel_encode.
  rewrite !length_app, be_put_length, length_take, Hi. cbn [length Nat.min Nat.add Nat.ltb].
  unfold slice. rewrite drop_app_length' by done. rewrite (take_ge pid) by lia.
  rewrite take_app_length' by done. rewrite app_assoc.
  rewrite app_nth2 by (rewrite length_app; unfold CTL_TXSEL_ID_LEN in *; lia).
  rewrite length_app, Hl4, Hi, Nat.sub_diag. cbn [nth]. by rewrite u8_id.
Qed.

(** The confirmer obeys and answers. *)
Lemma confirm_ok n d pk ck now :
  tx_ok n d -> n < 2 ^ 32 ->
  let r := tx_confirm (ts_q d) pk ck now in
  tx_ok n (mk_tx (ts_p d) r.1 (ts_pq d) (ts_qp d ++ said r.2)).
Proof.
  intros Hok Hn. cbn zeta. unfold tx_confirm, ctlplane_take_txsel.
  destruct (txsel_in_pending (pe_cp (ts_q d))) eqn:Ep.
  2:{ apply (tx_ok_calm n d); try done. cbn. rewrite app_nil_r. by left. }
  assert (Hno : forall x, ~ settled d x) by (intros x (_ & B & _); congruence).
  pose proof Hok as [O1 O2 O3 O4 O5 O6 O7 O8 O9]. pose proof (rising_le _ _ _ O6) as Hle.
  assert (Hu : is_u32 (txsel_seq_in (pe_cp (ts_q d)))) by (unfold is_u32; lia).
  set (seq := txsel_seq_in _) in *. set (pid := txsel_in_id _) in *. cbn -[pathplane_pin].
  destruct (pathplane_pin (pe_pl (ts_q d)) pk pid now) as [pl rc] eqn:Epin. cbn [fst snd].
  assert (Hack : Forall (ack_ok (mk_tx (ts_p d) ((ts_q d) <| pe_cp := (pe_cp (ts_q d)) <| txsel_in_pending := false |> |>
    <| pe_pl := pl |>) (ts_pq d) (ts_qp d))) (said (map ByCtl (ctlplane_tell_txack ck seq pid (txack_flag rc))))).
  { rewrite said_ctl. unfold ctlplane_tell_txack. destruct (not_ready ck); [constructor|].
    constructor; [|constructor]. intros _. exists seq, pid, (txack_flag rc). cbn [snd].
    rewrite txsel_decode_encode; [|exact Hu | done | destruct rc; split; done].
    split; [done|]. split; [reflexivity|]. intros Hf Hs. cbn [ts_p] in Hs. unfold settled. cbn [ts_pq ts_q pe_cp pe_pl].
    split_and!; [|done|].
    - rewrite <- Hs in O6. by apply rising_none in O6.
    - unfold pathplane_pin in Epin. destruct (first_slot _ _); [|by simplify_eq].
      destruct (negb _); simplify_eq; done. }
  constructor; cbn; try done.
  - apply Forall_app. split; [|exact Hack].
    eapply Forall_impl; [exact O8|]. intros m Hm Ht. destruct (Hm Ht) as (sq & x & fl & E & Hl & Himp).
    exists sq, x, fl. split; [done|]. split; [done|]. intros A B. exfalso. by apply (Hno x), Himp.
  - intros A B. exfalso. eapply Hno. by apply O9.
Qed.

(** The proposer takes an answer. *)
Lemma answered_view pr pk now :
  p_view (pe_cp (tx_answered pr pk now)) = p_view (ctlplane_take_txack (pe_cp pr)).1 /\
  pe_proposes (tx_answered pr pk now) = pe_proposes pr.
Proof.
  unfold tx_answered. destruct (ctlplane_take_txack (pe_cp pr)) as [cp [[[sq x] fl]|]]; [|done].
  destruct (_ && _); [|done]. destruct (pathplane_pin _ _ _ _) as [pl rc]. by destruct rc.
Qed.
Lemma answered_ok n d pk now :
  tx_ok n d -> tx_ok n (mk_tx (tx_answered (ts_p d) pk now) (ts_q d) (ts_pq d) (ts_qp d)).
Proof.
  intros Hok. destruct (answered_view (ts_p d) pk now) as [Hv Hr].
  unfold ctlplane_take_txack in Hv. destruct (txack_in_pending (pe_cp (ts_p d))) eqn:Ep.
  - cbn in Hv. unfold p_view in Hv. injection Hv as V1 V2 V3 V4 V5. destruct Hok.
    constructor; cbn [ts_p ts_q ts_pq ts_qp]; rewrite ?Hr, ?V1, ?V2, ?V3; try done; [by left|].
    eapply Forall_impl; [exact to_acks0|]. intros m Hm Ht. destruct (Hm Ht) as (sq & x & fl & E & Hl & Himp).
    exists sq, x, fl. cbn [ts_p ts_q]. rewrite V1. done.
  - cbn in Hv. apply (tx_ok_calm n d); try done. by left.
Qed.

(** The proposer states. *)
Lemma tell_ok n d p' ck pid fl :
  tx_ok n d -> n + 1 < 2 ^ 32 ->
  let r := ctlplane_tell_txsel (pe_cp (ts_p d)) ck pid fl in
  pe_cp p' = r.1.1 -> pe_proposes p' = pe_proposes (ts_p d) ->
  tx_ok (n + 1) (mk_tx p' (ts_q d) (ts_pq d ++ sends r.1.2) (ts_qp d)).
Proof.
  intros Hok Hn. cbn zeta. unfold ctlplane_tell_txsel. destruct (not_ready ck); cbn [fst snd sends omap list_omap].
  - intros Hcp Hr. rewrite app_nil_r.
    assert (H : tx_ok n (mk_tx p' (ts_q d) (ts_pq d) (ts_qp d))).
    { apply (tx_ok_calm n d); try done; [cbn; by rewrite Hcp | by left]. }
    destruct H. constructor; try done. lia.
  - intros Hcp Hr. destruct Hok. assert (Hu : is_u32 (txsel_seq_out (pe_cp (ts_p d)) + 1)) by (unfold is_u32; lia).
    pose proof (rising_le _ _ _ to_fly0) as Hle. rewrite (u32_id _ Hu) in *.
    constructor; cbn [ts_p ts_q ts_pq ts_qp]; rewrite ?Hcp; cbn -[stmts ctl_txsel_encode]; try done; try congruence; try lia.
    + rewrite stmts_app, stmts_one by done. eapply rising_snoc; [done|lia].
    + eapply Forall_impl; [exact to_acks0|]. intros m Hm Ht. destruct (Hm Ht) as (sq & x & f & E & Hl & Himp).
      exists sq, x, f. split; [done|]. split; [done|]. cbn [ts_p]. rewrite Hcp. cbn. intros _ Hs. lia.
Qed.

Lemma ok_later n d : tx_ok n d -> tx_ok (n + 1) d.
Proof. intros []. constructor; try done. lia. Qed.

Lemma propose_ok n d pk ck now :
  tx_ok n d -> n + 1 < 2 ^ 32 ->
  let r := tx_propose (ts_p d) pk ck now in
  tx_ok (n + 1) (mk_tx r.1 (ts_q d) (ts_pq d ++ said r.2) (ts_qp d)).
Proof.
  intros Hok Hn. cbn zeta. pose proof (answered_ok n d pk now Hok) as H. unfold tx_propose.
  set (p1 := tx_answered _ _ _) in *.
  assert (Hidle : tx_ok (n + 1) (mk_tx p1 (ts_q d) (ts_pq d ++ said []) (ts_qp d)))
    by (rewrite app_nil_r; by apply ok_later).
  destruct (pathplane_carry_id (pe_pl p1)) as [carry|]; [|done].
  destruct (negb (tx_told p1) || _).
  { pose proof (tell_ok n _ (p1 <| pe_cp := (ctlplane_tell_txsel (pe_cp p1) ck carry CTL_TXSEL_F_FORCED).1.1 |>) ck carry
      CTL_TXSEL_F_FORCED H Hn eq_refl eq_refl) as T. cbn [ts_p ts_q ts_pq ts_qp] in T.
    destruct (ctlplane_tell_txsel _ _ _ _) as [[cp calls] sq]. cbn [fst snd] in *. rewrite <- (said_ctl calls) in T.
    destruct (sq =? 0); [exact T|]. cbn [fst snd]. eapply tx_ok_calm; [exact T|done..|by left]. }
  destruct (tx_pending p1); [done|]. destruct (pathplane_challenger (pe_pl p1) now) as [pid|]; [|done].
  pose proof (tell_ok n _ (p1 <| pe_cp := (ctlplane_tell_txsel (pe_cp p1) ck pid 0).1.1 |>) ck pid 0 H Hn eq_refl eq_refl) as T.
  cbn [ts_p ts_q ts_pq ts_qp] in T.
  destruct (ctlplane_tell_txsel _ _ _ _) as [[cp calls] sq]. cbn [fst snd] in *. rewrite <- (said_ctl calls) in T.
  destruct (sq =? 0); cbn [fst snd]; (eapply tx_ok_calm; [exact T|done..|by left]).
Qed.

(** What [peering_ctl] does, in terms of the control plane. *)
Lemma ctl_parts pr ck type pl netgen now :
  let r := peering_ctl pr ck type pl netgen now in
  let m := ctlplane_on_msg (pe_cp pr) (pe_pp pr) ck type pl netgen now in
  pe_cp r.1 = m.1.1.1 /\ pe_pl r.1 = pe_pl pr /\ pe_proposes r.1 = pe_proposes pr /\ said r.2 = sends m.1.2.
Proof.
  cbn zeta. unfold peering_ctl. destruct (ctlplane_on_msg _ _ _ _ _ _ _) as [[[cp pp] calls] ok]. cbn [fst snd].
  by rewrite said_ctl.
Qed.

Lemma quiet_acks q : quiet q -> forall m, m ∈ q -> m.1 <> CTLM_TXACK.
Proof. intros [_ H]. unfold no_type in H. rewrite Forall_forall in H. exact H. Qed.

Lemma to_q_ok n d ck type pl rest netgen now :
  tx_ok n d -> ts_pq d = (type, pl) :: rest ->
  let r := peering_ctl (ts_q d) ck type pl netgen now in
  tx_ok n (mk_tx (ts_p d) r.1 rest (ts_qp d ++ said r.2)).
Proof.
  intros Hok Hq. cbn zeta. destruct (ctl_parts (ts_q d) ck type pl netgen now) as (E1 & E2 & E3 & E4).
  destruct (on_msg_frame (pe_cp (ts_q d)) (pe_pp (ts_q d)) ck type pl netgen now) as (Hc & _ & _ & Hv & Hn).
  set (r := peering_ctl _ _ _ _ _ _) in *. set (m := ctlplane_on_msg _ _ _ _ _ _ _) in *.
  apply calm_quiet in Hc. rewrite <- E4 in Hc. pose proof (quiet_acks _ Hc) as Hna.
  destruct (Z.eqb_spec type CTLM_TXSEL) as [->|Ht]; cbn [andb] in *.
  - assert (Hst : stmts (ts_pq d) = be_get (take 4 pl) :: stmts rest) by (by rewrite Hq).
    assert (Hno : forall x, ~ settled d x) by (intros x (A & _); rewrite Hst in A; done).
    pose proof Hok as [O1 O2 O3 O4 O5 O6 O7 O8 O9]. rewrite Hst in O6. destruct O6 as [L1 L2].
    assert (Hin : txsel_seq_in (pe_cp (ts_q d)) <= txsel_seq_in (pe_cp r.1) /\
      rising (txsel_seq_in (pe_cp r.1)) (stmts rest) (txsel_seq_out (pe_cp (ts_p d))) /\
      length (txsel_in_id (pe_cp r.1)) = CTL_TXSEL_ID_LEN).
    { rewrite E1. destruct (CTL_TXSEL_PLEN <=? length pl)%nat eqn:El.
      - rewrite Hv. unfold on_txsel, ctl_txsel_decode. apply Nat.leb_le in El.
        destruct (Nat.ltb_spec (length pl) CTL_TXSEL_PLEN); [lia|].
        destruct (Z.ltb_spec (txsel_seq_in (pe_cp (ts_q d))) (be_get (take 4 pl))); [|lia]. cbn.
        split; [lia|]. split; [done|]. unfold slice. rewrite length_take, length_drop.
        unfold CTL_TXSEL_ID_LEN, CTL_TXSEL_PLEN in *. lia.
      - specialize (Hn eq_refl (andb_false_r _)). unfold tx_view in Hn. injection Hn as N1 N2 N3 N4 N5 N6 N7 N8.
        rewrite N2, N5. split; [lia|]. split; [eapply rising_from; [done|lia]|done]. }
    destruct Hin as (I1 & I2 & I3). constructor; cbn [ts_p ts_q ts_pq ts_qp]; rewrite ?E3; try done; try lia.
    + apply Forall_app. split; [|apply Forall_forall; intros x Hx Ha; by destruct (Hna x Hx)].
      eapply Forall_impl; [exact O8|]. intros x Hx Ha. destruct (Hx Ha) as (sq & y & fl & D & Hl & Himp).
      exists sq, y, fl. split; [done|]. cbn [ts_q ts_p]. split; [lia|]. intros A B. exfalso. by apply (Hno y), Himp.
    + intros A B. exfalso. eapply Hno. by apply O9.
  - assert (Hqv : q_view (pe_cp r.1) = q_view (pe_cp (ts_q d))).
    { rewrite E1. destruct (type =? CTLM_TXACK); cbn [andb] in *.
      - destruct (CTL_TXSEL_PLEN <=? length pl)%nat.
        + rewrite Hv. unfold on_txack. destruct (ctl_txsel_decode pl) as [[[? ?] ?]|]; [|done]. by destruct (_ && _).
        + apply tx_view_q. by apply Hn.
      - apply tx_view_q. by apply Hn. }
    apply (tx_ok_calm n d); cbn [ts_p ts_q ts_pq ts_qp]; try done; [by rewrite E2 | |].
    + rewrite Hq. unfold stmts. cbn [omap list_omap fst]. by rewrite (proj2 (Z.eqb_neq type CTLM_TXSEL) Ht).
    + intros x [?|?]%elem_of_app; [by left | right; by apply Hna].
Qed.

Lemma to_p_ok n d ck type pl rest netgen now :
  tx_ok n d -> ts_qp d = (type, pl) :: rest ->
  let r := peering_ctl (ts_p d) ck type pl netgen now in
  tx_ok n (mk_tx r.1 (ts_q d) (ts_pq d ++ said r.2) rest).
Proof.
  intros Hok Hq. cbn zeta. destruct (ctl_parts (ts_p d) ck type pl netgen now) as (E1 & E2 & E3 & E4).
  destruct (on_msg_frame (pe_cp (ts_p d)) (pe_pp (ts_p d)) ck type pl netgen now) as (Hc & Hs & Hw & Hv & Hn).
  set (r := peering_ctl _ _ _ _ _ _) in *. set (m := ctlplane_on_msg _ _ _ _ _ _ _) in *.
  apply calm_quiet in Hc. rewrite <- E4 in Hc. pose proof (stmts_quiet _ Hc) as Hst.
  assert (Hkeep : p_view (pe_cp r.1) = p_view (pe_cp (ts_p d)) ->
    tx_ok n (mk_tx r.1 (ts_q d) (ts_pq d ++ said r.2) rest)).
  { intros Hp. apply (tx_ok_calm n d); cbn [ts_p ts_q ts_pq ts_qp]; try done.
    - by rewrite stmts_app, Hst, app_nil_r.
    - rewrite Hq. intros x Hx. left. by right. }
  destruct (Z.eqb_spec type CTLM_TXACK) as [->|Ht]; cbn [andb Z.eqb Pos.eqb CTLM_TXSEL CTLM_TXACK] in *.
  2:{ apply Hkeep. rewrite E1. destruct (type =? CTLM_TXSEL); cbn [andb] in *.
      - destruct (CTL_TXSEL_PLEN <=? length pl)%nat; [|apply tx_view_p; by apply Hn].
        rewrite Hv. unfold on_txsel. destruct (ctl_txsel_decode pl) as [[[? ?] ?]|]; [|done]. by destruct (_ <? _).
      - apply tx_view_p. by apply Hn. }
  destruct (CTL_TXSEL_PLEN <=? length pl)%nat eqn:El; [|apply Hkeep; rewrite E1; apply tx_view_p; by apply Hn].
  pose proof Hok as [O1 O2 O3 O4 O5 O6 O7 O8 O9]. rewrite Hq in O8. apply Forall_cons in O8 as [Hm Hrest].
  destruct (Hm eq_refl) as (sq & x & fl & D & Hl & Himp). cbn [snd] in D.
  unfold on_txack in Hv. rewrite D in Hv.
  destruct (truth (txsel_wait (pe_cp (ts_p d))) && (sq =? txsel_wait (pe_cp (ts_p d)))) eqn:Et;
    [|apply Hkeep; by rewrite E1, Hv].
  apply andb_true_iff in Et as [Et1 Et2%Z.eqb_eq].
  assert (Hsq : sq = txsel_seq_out (pe_cp (ts_p d))).
  { destruct O4 as [O4|O4]; [|congruence]. rewrite O4 in Et1. discriminate. }
  assert (Hset : forall y, settled d y -> settled (mk_tx r.1 (ts_q d) (ts_pq d ++ said r.2) rest) y).
  { intros y (A & B & D'). unfold settled. cbn [ts_pq ts_q]. by rewrite stmts_app, A, Hst. }
  constructor; cbn [ts_p ts_q ts_pq ts_qp]; rewrite ?E1, ?E3, ?Hs, ?Hw; try done.
  - by rewrite stmts_app, Hst, app_nil_r.
  - eapply Forall_impl; [exact Hrest|]. intros z Hz Hz1. destruct (Hz Hz1) as (s2 & x2 & f2 & D2 & Hl2 & Himp2).
    exists s2, x2, f2. cbn [ts_p ts_q]. rewrite E1, Hs. auto.
  - rewrite Hv. cbn. intros _ Hf. apply Hset, Himp; done.
Qed.

Lemma tx_reach_ok n d : tx_reach n d -> 0 <= n /\ (n < 2 ^ 32 -> tx_ok n d).
Proof.
  induction 1 as [magic key s1 s2|n d round d' _ [Hn IH] Hs].
  { split; [lia|]. intros _. constructor; cbn; try done; try lia. }
  destruct Hs as [a|a|pk ck now nonces rnds|pk ck now nonces rnds|ck type pl rest netgen now Hq|ck type pl rest netgen now Hq];
    (split; [lia|]); intros Hlt; subst r.
  - specialize (IH Hlt). destruct (peer_do_calm (ts_p d) a) as (V1 & V2 & V3 & V4). apply calm_quiet in V4.
    apply (tx_ok_calm n d); cbn [ts_p ts_q ts_pq ts_qp]; try done; [by apply tx_view_p| |by left].
    by rewrite stmts_app, (stmts_quiet _ V4), app_nil_r.
  - specialize (IH Hlt). destruct (peer_do_calm (ts_q d) a) as (V1 & V2 & V3 & V4). apply calm_quiet in V4.
    apply (tx_ok_calm n d); cbn [ts_p ts_q ts_pq ts_qp]; try done; [by apply tx_view_q|].
    intros m [?|Hm]%elem_of_app; [by left|right; by apply (quiet_acks _ V4)].
  - assert (Hok : tx_ok n d) by (apply IH; lia). unfold peering_paths. destruct Hok as [O1 O2].
    set (t := pathplane_tick _ _ _ _ _ _). destruct t as [[[pl pp] calls] mv] eqn:Et.
    set (p1 := (ts_p d) <| pe_pl := pl |> <| pe_pp := pp |>).
    assert (H1 : tx_ok n (mk_tx p1 (ts_q d) (ts_pq d) (ts_qp d))).
    { apply (tx_ok_calm n d); [by constructor|done..|by left]. }
    change (pe_proposes p1) with (pe_proposes (ts_p d)). rewrite O1.
    pose proof (propose_ok n _ pk ck now H1 Hlt) as H2. cbn [ts_p ts_q ts_pq ts_qp] in H2.
    destruct (tx_propose p1 pk ck now) as [p2 c2]. cbn [fst snd] in *. by rewrite said_path.
  - assert (Hok : tx_ok n d) by (apply IH; lia). unfold peering_paths. destruct Hok as [O1 O2].
    pose proof (tick_pin_id (pe_pl (ts_q d)) (pe_pp (ts_q d)) pk now nonces rnds) as Hpin.
    destruct (pathplane_tick _ _ _ _ _ _) as [[[pl pp] calls] mv]. cbn [fst] in Hpin.
    set (q1 := (ts_q d) <| pe_pl := pl |> <| pe_pp := pp |>).
    assert (H1 : tx_ok n (mk_tx (ts_p d) q1 (ts_pq d) (ts_qp d))).
    { apply (tx_ok_calm n d); [by constructor|done..|by left]. }
    change (pe_proposes q1) with (pe_proposes (ts_q d)). rewrite O2.
    pose proof (confirm_ok n _ pk ck now H1 Hlt) as H2. cbn [ts_p ts_q ts_pq ts_qp] in H2.
    destruct (tx_confirm q1 pk ck now) as [q2 c2]. cbn [fst snd] in *. by rewrite said_path.
  - apply to_q_ok; auto.
  - apply to_p_ok; auto.
Qed.
End Agree.

(** ** Lemmas: a pin and what carries *)
Lemma pin_outcome pl k pid now :
  let r := pathplane_pin pl k pid now in
  (r.2 = PATHPLANE_PIN_OK /\ pathplane_carry_id r.1 = Some pid /\ pinned r.1 = true /\ pin_id r.1 = pid) \/
  (r.2 <> PATHPLANE_PIN_OK /\ sel (pl_t r.1) = sel (pl_t pl) /\ pinned r.1 = pinned pl /\ pin_id r.1 = pin_id pl).
Proof.
  cbn zeta. unfold pathplane_pin. destruct (first_slot (id_is pid) (pl_t pl)) as [i|] eqn:E; [|by right].
  apply first_slot_some in E as [Hi Hid]. unfold id_is in Hid. apply andb_true_iff in Hid as [Hu Hid].
  unfold bytes_eqb in Hid. apply bool_decide_eq_true in Hid.
  destruct (negb _); [by right|]. left. split; [done|]. split; [|done].
  unfold pathplane_carry_id. set (t' := set_slot (pl_t pl) i _).
  assert (Hs : slot t' i = (slot (pl_t pl) i) <| usable := usable_now k (slot (pl_t pl) i) |>)
    by (by apply slot_set_eq).
  assert (H1 : used (slot t' i) = true) by (by rewrite Hs). assert (H2 : id (slot t' i) = pid) by (by rewrite Hs).
  clearbody t'. cbn [fst pl_t sel set set_pl_t set_pin_id set_pin_warmth set_pinned]. cbn. rewrite Nat2Z.id.
  destruct (Z.leb_spec 0 (Z.of_nat i)); [|lia]. unfold slot in *. cbn [slots]. by rewrite H1, H2.
Qed.

Section Theorems.
Context {C : Crypto}.

Lemma propose_pl pr pk ck now : pe_pl (tx_propose pr pk ck now).1 = pe_pl (tx_answered pr pk now).
Proof.
  unfold tx_propose. set (p1 := tx_answered _ _ _). destruct (pathplane_carry_id _); [|done].
  destruct (_ || _).
  - destruct (ctlplane_tell_txsel _ _ _ _) as [[cp calls] sq]. by destruct (sq =? 0).
  - destruct (tx_pending p1); [done|]. destruct (pathplane_challenger _ _); [|done].
    destruct (ctlplane_tell_txsel _ _ _ _) as [[cp calls] sq]. by destruct (sq =? 0).
Qed.

(** C4: the two ends agree before the proposer moves by choice: whatever both do
    and however their messages are delayed, a round of the proposer leaves its
    selection and its pin where the probe round left them, unless it moves on to
    a path [id] for which, at that moment, the last pin of the confirmer is [id]
    too, the confirmer has no statement left to obey, and none is in flight. *)
Theorem tx_agreement n d pk ck now nonces rnds :
  tx_reach n d -> n < 2 ^ 32 ->
  let t := (pathplane_tick (pe_pl (ts_p d)) (pe_pp (ts_p d)) pk now nonces rnds).1.1.1 in
  let pl' := pe_pl (peering_paths (ts_p d) pk ck now nonces rnds).1.1 in
  (sel (pl_t pl') = sel (pl_t t) /\ pinned pl' = pinned t /\ pin_id pl' = pin_id t) \/
  (exists id, pathplane_carry_id pl' = Some id /\ pinned pl' = true /\ pin_id pl' = id /\
     pin_id (pe_pl (ts_q d)) = id /\ txsel_in_pending (pe_cp (ts_q d)) = false /\ stmts (ts_pq d) = []).
Proof.
  intros Hr Hn. cbn zeta. apply tx_reach_ok in Hr as [_ Hok]. specialize (Hok Hn).
  destruct Hok as [O1 O2 O3 O4 O5 O6 O7 O8 O9]. unfold peering_paths.
  destruct (pathplane_tick _ _ _ _ _ _) as [[[pl pp] calls] mv]. cbn [fst snd].
  set (p1 := (ts_p d) <| pe_pl := pl |> <| pe_pp := pp |>).
  change (pe_proposes p1) with (pe_proposes (ts_p d)). rewrite O1.
  pose proof (propose_pl p1 pk ck now) as Hpl. destruct (tx_propose p1 pk ck now) as [p2 c2]. cbn [fst snd] in *.
  rewrite Hpl. unfold tx_answered, ctlplane_take_txack. change (pe_cp p1) with (pe_cp (ts_p d)).
  destruct (txack_in_pending (pe_cp (ts_p d))); [|by left].
  destruct (truth (txack_in_flags (pe_cp (ts_p d)))) eqn:Ef; cbn [negb andb]; [by left|].
  destruct (bytes_eqb _ _); [|by left].
  assert (Hf : txack_in_flags (pe_cp (ts_p d)) = 0) by (unfold truth in Ef; apply negb_false_iff in Ef; by apply Z.eqb_eq).
  destruct (O9 eq_refl Hf) as (S1 & S2 & S3).
  cbn -[pathplane_pin]. change (pe_pl p1) with pl.
  destruct (pin_outcome pl pk (txack_in_id (pe_cp (ts_p d))) now) as [(K1 & K2 & K3 & K4)|(K1 & K2 & K3 & K4)];
    destruct (pathplane_pin _ _ _ _) as [pl2 rc]; cbn [fst snd] in *.
  - right. subst rc. exists (txack_in_id (pe_cp (ts_p d))). split_and!; done.
  - left. by destruct rc.
Qed.

(** A move already made is followed.  When the path the proposer transmits on
    is not the one the peer was last told of (its path died and it escaped, or it
    has told nothing yet) and the channel can carry, its round says so in one
    message; and whenever that message reaches a confirmer with nothing else in
    flight, the confirmer's next round transmits on that path too, if its table
    holds the path and can send on it. *)
Theorem tx_escape_followed n d pk ck now nonces rnds X :
  tx_reach n d -> n + 1 < 2 ^ 32 -> ts_pq d = [] -> not_ready ck = false ->
  let r := peering_paths (ts_p d) pk ck now nonces rnds in
  pathplane_carry_id (pe_pl r.1.1) = Some X -> length X = PATH_ID_LEN ->
  txack_in_pending (pe_cp (ts_p d)) = false -> tx_told (ts_p d) = false \/ tx_told_id (ts_p d) <> X ->
  tx_told r.1.1 = true /\ tx_told_id r.1.1 = X /\
  exists payload, said r.1.2 = [(CTLM_TXSEL, payload)] /\
    forall qk qck netgen t0 t1 qns qrnds i,
    let q1 := (peering_ctl (ts_q d) qck CTLM_TXSEL payload netgen t0).1 in
    let tq := (pathplane_tick (pe_pl q1) (pe_pp q1) qk t1 qns qrnds).1.1.1 in
    first_slot (id_is X) (pl_t tq) = Some i -> usable_now qk (slot (pl_t tq) i) = true ->
    pathplane_carry_id (pe_pl (peering_paths q1 qk qck t1 qns qrnds).1.1) = Some X.
Proof.
  intros Hr Hn Hpq Hck r Hc Hlen Hack Htold. apply tx_reach_ok in Hr as [_ Hok].
  destruct (Hok ltac:(lia)) as [O1 O2 O3 O4 O5 O6 O7 O8 O9]. pose proof (rising_le _ _ _ O6) as Hle.
  unfold r, peering_paths in *. clear r. destruct (pathplane_tick (pe_pl (ts_p d)) _ _ _ _ _) as [[[pl pp] calls] mv].
  set (p1 := (ts_p d) <| pe_pl := pl |> <| pe_pp := pp |>) in *.
  change (pe_proposes p1) with (pe_proposes (ts_p d)) in *. rewrite O1 in *.
  assert (Hans : tx_answered p1 pk now = p1)
    by (unfold tx_answered, ctlplane_take_txack; change (pe_cp p1) with (pe_cp (ts_p d)); by rewrite Hack).
  pose proof (propose_pl p1 pk ck now) as Hpl. rewrite Hans in Hpl.
  assert (Hc1 : pathplane_carry_id (pe_pl p1) = Some X).
  { rewrite <- Hpl. by destruct (tx_propose p1 pk ck now). }
  set (seq := txsel_seq_out (pe_cp (ts_p d)) + 1) in *.
  assert (Hu : is_u32 seq) by (unfold is_u32, seq; lia).
  assert (Hsaid : tx_propose p1 pk ck now =
    (p1 <| pe_cp := (pe_cp p1) <| txsel_seq_out := seq |> <| txsel_wait := seq |> <| txack_in_pending := false |> |>
        <| tx_told_id := X |> <| tx_told := true |> <| tx_pending := false |>,
     [ByCtl (Send CTLM_TXSEL (ctl_txsel_encode seq X CTL_TXSEL_F_FORCED))])).
  { unfold tx_propose. rewrite Hans, Hc1. change (tx_told p1) with (tx_told (ts_p d)).
    change (tx_told_id p1) with (tx_told_id (ts_p d)).
    assert (Hcond : negb (tx_told (ts_p d)) || negb (bytes_eqb X (tx_told_id (ts_p d))) = true).
    { destruct Htold as [->|Hne]; [done|]. unfold bytes_eqb. rewrite bool_decide_eq_false_2 by congruence. by rewrite orb_true_r. }
    rewrite Hcond. unfold ctlplane_tell_txsel. rewrite Hck. change (pe_cp p1) with (pe_cp (ts_p d)). fold seq.
    rewrite (u32_id seq Hu). destruct (Z.eqb_spec seq 0); [unfold seq in *; lia|]. done. }
  rewrite Hsaid. cbn [fst snd]. split; [done|]. split; [done|].
  exists (ctl_txsel_encode seq X CTL_TXSEL_F_FORCED). rewrite said_path. split; [done|].
  intros qk qck netgen t0 t1 qns qrnds i. cbn zeta. set (q1 := (peering_ctl _ _ _ _ _ _).1). intros Hslot Huse.
  assert (Hq1 : pe_cp q1 = (pe_cp (ts_q d)) <| txsel_seq_in := seq |> <| txsel_in_id := X |>
    <| txsel_in_flags := CTL_TXSEL_F_FORCED |> <| txsel_in_pending := true |> /\ pe_proposes q1 = false).
  { destruct (ctl_parts (ts_q d) qck CTLM_TXSEL (ctl_txsel_encode seq X CTL_TXSEL_F_FORCED) netgen t0) as (E1 & _ & E3 & _).
    destruct (on_msg_frame (pe_cp (ts_q d)) (pe_pp (ts_q d)) qck CTLM_TXSEL (ctl_txsel_encode seq X CTL_TXSEL_F_FORCED) netgen t0)
      as (_ & _ & _ & Hv & _). fold q1 in E1, E3. rewrite E3. split; [|done]. rewrite E1, Hv, Z.eqb_refl.
    assert (Hl : (CTL_TXSEL_PLEN <=? length (ctl_txsel_encode seq X CTL_TXSEL_F_FORCED))%nat = true).
    { unfold ctl_txsel_encode. rewrite !length_app, be_put_length, length_take, Hlen. done. }
    rewrite Hl. cbn [andb]. unfold on_txsel. rewrite txsel_decode_encode by done.
    destruct (Z.ltb_spec (txsel_seq_in (pe_cp (ts_q d))) seq); [done | unfold seq in *; lia]. }
  destruct Hq1 as [Ecp Epr]. clearbody q1.
  destruct (pathplane_tick (pe_pl q1) _ _ _ _ _) as [[[qpl qpp] qcalls] qmv]. cbn [fst] in *.
  cbn [pe_proposes set set_pe_pl set_pe_pp]. rewrite Epr. unfold tx_confirm, ctlplane_take_txsel. cbn -[pathplane_pin].
  rewrite Ecp. cbn -[pathplane_pin].
  destruct (pin_outcome qpl qk X t1) as [(K1 & K2 & K3 & K4)|(K1 & K2 & K3 & K4)].
  - by destruct (pathplane_pin qpl qk X t1) as [pl2 rc].
  - destruct K1. unfold pathplane_pin. rewrite Hslot. cbn. by rewrite Huse.
Qed.
End Theorems.

(** Two ends that each hold a path to one endpoint. *)
Definition duo_end (proposes : bool) : peering :=
  (@peer_do toy_crypto (peering_init 99 [1; 2] 5 proposes) (AAddPath probe_sinks PATH_ROUTED far_end 64 100)).1.
Definition duo_start : tx_sys := mk_tx (duo_end true) (duo_end false) [] [].
Definition open_ctl : ctlplane_sinks := mk_sinks None None false false false.
Definition duo_id : bytes := id (slot (pl_t (pe_pl (duo_end true))) 0).

Lemma duo_reached : @tx_reach toy_crypto 0 duo_start.
Proof.
  apply (tr_step 0 (mk_tx (duo_end true) (peering_init 99 [1; 2] 5 false) [] []) false).
  - apply (tr_step 0 (mk_tx (peering_init 99 [1; 2] 5 true) (peering_init 99 [1; 2] 5 false) [] []) false).
    + apply (@tr_init toy_crypto).
    + exact (@tn_p toy_crypto (mk_tx (peering_init 99 [1; 2] 5 true) (peering_init 99 [1; 2] 5 false) [] [])
        (AAddPath probe_sinks PATH_ROUTED far_end 64 100)).
  - exact (@tn_q toy_crypto (mk_tx (duo_end true) (peering_init 99 [1; 2] 5 false) [] [])
      (AAddPath probe_sinks PATH_ROUTED far_end 64 100)).
Qed.

Lemma tx_escape_followed_witness :
  let r := @peering_paths toy_crypto (duo_end true) probe_sinks open_ctl 200 (Some []) [] in
  tx_told r.1.1 = true /\ tx_told_id r.1.1 = duo_id /\ length (said r.1.2) = 1%nat.
Proof.
  cbv zeta. set (r := peering_paths _ _ _ _ _ _).
  destruct (@tx_escape_followed toy_crypto 0 duo_start probe_sinks open_ctl 200 (Some []) [] duo_id duo_reached)
    as (H1 & H2 & payload & H3 & _); [lia | reflexivity | reflexivity | vm_compute; reflexivity | vm_compute; reflexivity
    | vm_compute; reflexivity | left; vm_compute; reflexivity |].
  split; [exact H1|]. split; [exact H2|]. change (ts_p duo_start) with (duo_end true) in H3. fold r in H3. rewrite H3. reflexivity.
Defined.

Lemma tx_agreement_witness :
  let pl' := pe_pl (@peering_paths toy_crypto (duo_end true) probe_sinks open_ctl 200 (Some []) []).1.1 in
  pinned pl' = false /\ sel (pl_t pl') = 0.
Proof.
  cbv zeta.
  destruct (@tx_agreement toy_crypto 0 duo_start probe_sinks open_ctl 200 (Some []) [] duo_reached)
    as [(H1 & H2 & _)|(i & _ & H & _)]; [lia | |].
  - change (ts_p duo_start) with (duo_end true) in *. rewrite H1, H2. split; vm_compute; reflexivity.
  - vm_compute in H. discriminate H.
Defined.

(** An answer the confirmer's channel could not carry is never said again, and
    until its own path moves the proposer then states nothing more, whatever the
    time and however much better another path is. *)
Lemma tx_stall :
  (forall q pk ck now, not_ready ck = true -> txsel_in_pending (pe_cp q) = true ->
     (tx_confirm q pk ck now).2 = [] /\ txsel_in_pending (pe_cp (tx_confirm q pk ck now).1) = false) /\
  (forall p pk ck now carry, tx_pending p = true -> txack_in_pending (pe_cp p) = false -> tx_told p = true ->
     pathplane_carry_id (pe_pl p) = Some carry -> tx_told_id p = carry ->
     tx_propose p pk ck now = (p, [])).
Proof.
  split.
  - intros q pk ck now Hk Hp. unfold tx_confirm, ctlplane_take_txsel. rewrite Hp. cbn -[pathplane_pin].
    destruct (pathplane_pin _ _ _ _) as [pl rc]. unfold ctlplane_tell_txack. by rewrite Hk.
  - intros p pk ck now carry Hp Ha Ht Hc Hid. unfold tx_propose, tx_answered, ctlplane_take_txack. rewrite Ha.
    cbn [pe_pl set set_pe_cp]. destruct p; cbn in *. rewrite Hc, Ht, Hid. unfold bytes_eqb.
    rewrite bool_decide_eq_true_2 by done. cbn. by rewrite Hp.
Qed.
