(* ===== verification/PeerWorld.v ===== *)
(** The reachability model with what feeds it: the network state, the signaller's
    evidence, the probe rounds and the loop of src/src/peering.c that joins them,
    with the one place of src/src/session.c where a move is taken in
    (net_watch: the model first, then the signaller's epochs).  The probe
    threads and the DHT engine act between any two passes of the loop. *)
From S2P Require Import Prelude Net NsFacts Token Netstate AddrText Obsemit SigFam StunProbe PeerNet Replay Liveness Crypto Keys DataAuth CtlProto PathEp Path PathTable PathAdopt ProbePlane CtlPlane PathPlane PathHolds Peering PeerModel.

(** What came back from outside: an answer to a probe round stamped [epoch], and a
    node's answer to a query made on [epoch]. *)
Inductive answer :=
| AProbe (family epoch : Z)
| ANode (family epoch : Z) (node : bytes).

(** [w_rounds]: the rounds begun, by family and stamp. *)
Record world := mk_world { w_pm : peering_model; w_net : peering_net; w_rounds : list (Z * Z) }.

Definition is_family (family : Z) : Prop := family = 4 \/ family = 6.

Definition sig_epochs (ns : netstate) (s : sig) : sig :=
  sig_set_family_epoch (sig_set_family_epoch s 4 (netstate_epoch ns 4)) 6 (netstate_epoch ns 6).

(** The lines of session.c that take a move in. *)
Definition net_watch_taken (pm : peering_model) (changed : Z) (addrs : list netmon_addr) (now : Z) :
  peering_model :=
  let pm := pm <| pm_ns := netstate_on_netmon (pm_ns pm) changed addrs now |> in
  on_sig pm (sig_epochs (pm_ns pm)).

(** What a step shows of itself: a change of addresses taken in, an answer that came
    back, or anything else a thread or the loop does. *)
Inductive happening :=
| HMove (changed : Z) (addrs : list netmon_addr) (now : Z)
| HAnswer (a : answer)
| HTurn.

Inductive world_step (w : world) : world -> happening -> Prop :=
| ws_begin family :
    is_family family -> pb_running (probe_of (w_net w) family) = true ->
    let r := probe_begin (w_net w) family in
    world_step w (mk_world (w_pm w) r.1 ((family, r.2) :: w_rounds w)) HTurn
| ws_hit family epoch addr port :
    (family, epoch) ∈ w_rounds w ->
    world_step w (mk_world (w_pm w) (probe_hit (w_net w) epoch family addr port) (w_rounds w))
      (HAnswer (AProbe family epoch))
| ws_end family epoch :
    (family, epoch) ∈ w_rounds w ->
    world_step w (mk_world (w_pm w) (probe_end (w_net w) epoch family) (w_rounds w)) HTurn
| ws_more family :
    is_family family ->
    world_step w (mk_world (w_pm w) (peering_net_more (w_net w) family) (w_rounds w)) HTurn
| ws_node qep family node :
    world_step w (mk_world (on_sig (w_pm w) (fun s => node_note s qep family node)) (w_net w) (w_rounds w))
      (HAnswer (ANode family qep node))
| ws_move changed addrs now :
    world_step w (mk_world (net_watch_taken (w_pm w) changed addrs now) (w_net w) (w_rounds w)) (HMove changed addrs now)
| ws_advance cfg env now :
    let r := peering_advance (w_pm w) (w_net w) cfg env now in
    world_step w (mk_world r.1.1 r.1.2 (w_rounds w)) HTurn
| ws_absorb pr now :
    world_step w (mk_world (peering_absorb (w_pm w) pr now).1 (w_net w) (w_rounds w)) HTurn
| ws_seed env fallback now :
    world_step w (mk_world (peering_seed_rendezvous (w_pm w) env fallback now) (w_net w) (w_rounds w)) HTurn
| ws_sig dht is_host now :
    world_step w (mk_world (on_sig (peering_model_sig (w_pm w) (Some (sig_fresh dht is_host)) now)
                              (sig_epochs (pm_ns (w_pm w)))) (w_net w) (w_rounds w)) HTurn
| ws_sig_gone now :
    world_step w (mk_world (peering_model_sig (w_pm w) None now) (w_net w) (w_rounds w)) HTurn
| ws_renew rb0 rb1 :
    world_step w (mk_world (w_pm w) (peering_net_renew (w_net w) rb0 rb1) (w_rounds w)) HTurn.

(** From a fresh model.  The trace has every step taken, in order: the world it was
    taken in and what happened. *)
Definition trace := list (world * happening).
Inductive world_reach (h dht : bool) (o : option session_obs) (servers : list bytes) (auto : bool) (now0 : Z) :
  trace -> world -> Prop :=
| wr_init : world_reach h dht o servers auto now0 []
    (mk_world (peering_model_init h dht o now0) (peering_net_init servers auto) [])
| wr_step tr w x w' :
    world_reach h dht o servers auto now0 tr w -> world_step w w' x ->
    world_reach h dht o servers auto now0 (tr ++ [(w, x)]) w'.

(** The network a family is on in a world, as the model counts them. *)
Definition net_of (w : world) (i : bool) : Z := netstate_epoch (pm_ns (w_pm w)) (fam_no i).
Definition stamp (a : answer) : Z := match a with AProbe _ e => e | ANode _ e _ => e end.
Definition answer_family (a : answer) : bool := match a with AProbe f _ => fam_idx f | ANode f _ _ => fam_idx f end.
Definition is_hmove (x : happening) : bool := match x with HMove _ _ _ => true | _ => false end.
Definition changes (tr : trace) : Z := Z.of_nat (length (List.filter (fun p => is_hmove p.2) tr)).
(** The answers that came back, less those that name a network not reached yet. *)
Definition heard (p : world * happening) : option answer :=
  match p.2 with
  | HAnswer a => if stamp a <=? net_of p.1 (answer_family a) then Some a else None
  | _ => None
  end.
Definition answers (tr : trace) : list answer := omap heard tr.

(** An answer to what was asked on the network [e] of the family [i]. *)
Definition answered_on (i : bool) (e : Z) (a : answer) : Prop := answer_family a = i /\ stamp a = e.
(** The run itself explains that a family is up: at one of its steps an answer came
    back to what had been asked on the network the family was on at that step, and
    none of the changes taken in after that step took the family to another network. *)
Definition answered_here (i : bool) (tr : trace) : Prop :=
  exists tr1 v a tr2, tr = tr1 ++ (v, HAnswer a) :: tr2 /\ answered_on i (net_of v i) a /\
    forall u changed addrs now, (u, HMove changed addrs now) ∈ tr2 ->
      leaves i (fam_of (pm_ns (w_pm u)) (fam_no i)) (NetMon changed addrs now) = false.

(** ** Every event the model is told has its source *)
Definition backed (L : list answer) (e : ns_event) : Prop :=
  match e with
  | Roundtrip family epoch => AProbe family epoch ∈ L
  | DhtAck family epoch node _ => ANode family epoch node ∈ L
  | _ => True
  end.
Definition fact_backed (L : list answer) (f : nsfact) : Prop :=
  nf_kind f = NSF_ROUNDTRIP -> AProbe (nf_family f) (nf_epoch f) ∈ L.
Definition sig_backed (L : list answer) (ns : netstate) (s : sig) : Prop :=
  forall i, sf_epoch (sig_fam_of s (fam_no i)) = netstate_epoch ns (fam_no i) /\
    (ack_new (sig_fam_of s (fam_no i)) = true ->
     ANode (fam_no i) (sf_epoch (sig_fam_of s (fam_no i))) (ack_node (sig_fam_of s (fam_no i))) ∈ L).

(** [ns'] comes from [ns] by events with sources, none of them a move. *)
Definition is_move (e : ns_event) : bool := match e with NetMon _ _ _ => true | _ => false end.
Definition told (L : list answer) (ns ns' : netstate) : Prop :=
  exists es, ns' = netstate_run ns es /\ Forall (backed L) es /\ Forall (fun e => is_move e = false) es.

Lemma told_refl L ns : told L ns ns.
Proof. exists []. done. Qed.
Lemma told_one L ns e : backed L e -> is_move e = false -> told L ns (netstate_step ns e).
Proof. intros H1 H2. exists [e]. repeat constructor; done. Qed.
Lemma told_trans L a b c : told L a b -> told L b c -> told L a c.
Proof.
  intros (es & -> & H1 & H2) (es' & -> & H3 & H4). exists (es ++ es').
  split; [unfold netstate_run; by rewrite fold_left_app|]. split; by apply Forall_app.
Qed.
Lemma told_epoch L ns ns' family : told L ns ns' -> netstate_epoch ns' family = netstate_epoch ns family.
Proof.
  intros (es & -> & _ & H). unfold netstate_epoch, fam_of. induction es as [|e es IH] using rev_ind; [done|].
  apply Forall_app in H as [H1 H2]. apply Forall_cons in H2 as [H2 _]. rewrite run_snoc, step_fam.
  rewrite <- (IH H1). pose proof (fam_step_up_view (nst_is_host (netstate_run ns es)) (fam_idx family)
    (get2 (nst_f (netstate_run ns es)) (fam_idx family)) e) as Hu. unfold up_view in Hu.
  destruct (completes _ _ e); [by injection Hu|].
  assert (Hm : moves (fam_idx family) e = false) by (by destruct e). rewrite Hm in Hu. by injection Hu.
Qed.
Lemma told_more L L' ns ns' : told L ns ns' -> (forall a, a ∈ L -> a ∈ L') -> told L' ns ns'.
Proof.
  intros (es & -> & H1 & H2) Hsub. exists es. split; [done|]. split; [|done].
  eapply Forall_impl; [exact H1|]. intros e. destruct e; cbn; auto.
Qed.

(** The operations of the loop tell the model events. *)
Ltac tell := first [apply told_refl | eapply told_trans; [|apply told_one; [exact I | reflexivity]]; tell].

Lemma feed_told L ns f now : fact_backed L f -> told L ns (peering_facts_feed ns f (nf_epoch f) now).1.
Proof.
  intros Hf. unfold peering_facts_feed, fact_backed in *. destruct (Z.eqb_spec (nf_kind f) NSF_ROUNDTRIP) as [E|_].
  - apply (told_one L ns (Roundtrip (nf_family f) (nf_epoch f))); [by apply Hf | done].
  - destruct (nf_kind f =? NSF_SERVERS); [by apply (told_one L ns (Servers _ _ _))|].
    destruct (nf_kind f =? NSF_ADDR); [by apply (told_one L ns (Reflexive _ _ _))|].
    by apply (told_one L ns (ProbeDone _ _ _)).
Qed.

Lemma pool_tell_told L pm net : told L (pm_ns pm) (pm_ns (pool_tell pm net).1) /\
  pm_sig (pool_tell pm net).1 = pm_sig pm /\ pn_facts (pool_tell pm net).2 = pn_facts net.
Proof.
  unfold pool_tell. generalize (netstate_epoch (pm_ns pm) 4). intros ep.
  destruct (peering_pool_copy _ _) as [|a l]; [split; [apply told_refl|done]|].
  split; [|done]. cbn [fst pm_ns set set_pm_ns]. generalize (a :: l). intros pool.
  change (pm_ns (pm <| pm_ns := ?x |>)) with x. generalize (pm_ns pm). induction pool as [|b pool IH]; intros ns; [apply told_refl|].
  cbn [fold_left]. eapply told_trans; [|apply IH]. by apply (told_one L ns (Reflexive 4 _ b)).
Qed.

Lemma sample_told L pm env family epoch now :
  told L (pm_ns pm) (pm_ns (sample_src pm env family epoch now)).
Proof. unfold sample_src. destruct (se_src env family); by apply (told_one L (pm_ns pm) (Src _ _ _ _ _ _)). Qed.

Lemma kick_told L pm net env start6 family epoch now :
  let r := kick_family pm net env start6 family epoch now in
  told L (pm_ns pm) (pm_ns r.1) /\ pm_sig r.1 = pm_sig pm /\ pn_facts r.2 = pn_facts net.
Proof.
  cbn zeta. unfold kick_family, peering_net_kick.
  assert (Hf : forall m fam g, pn_facts (probe_on m fam g) = pn_facts m) by done.
  set (r := if negb _ || _ then _ else _).
  assert (H : pn_facts r.1 = pn_facts net).
  { unfold r. destruct (negb _ || _); [done|]. destruct (pb_running _); [done|]. by destruct (negb _). }
  destruct r as [net' kick]. cbn [fst snd] in *. split; [|split; [|done]].
  - destruct (0 <? kick); [by apply (told_one L (pm_ns pm) (ProbeStarted _ _ _))|].
    destruct (kick <? 0); [by apply (told_one L (pm_ns pm) (ProbeDeferred _ _))|apply told_refl].
  - destruct (0 <? kick); [done|]. by destruct (kick <? 0).
Qed.

(** The signaller [s'] offers no answer that [s] does not. *)
Definition sig_less (s' s : sig) : Prop :=
  forall i, sf_epoch (sig_fam_of s' (fam_no i)) = sf_epoch (sig_fam_of s (fam_no i)) /\
    (ack_new (sig_fam_of s' (fam_no i)) = true -> ack_new (sig_fam_of s (fam_no i)) = true /\
       ack_node (sig_fam_of s' (fam_no i)) = ack_node (sig_fam_of s (fam_no i))).

Lemma sig_less_refl s : sig_less s s.
Proof. intros i. done. Qed.
Lemma sig_less_trans a b c : sig_less a b -> sig_less b c -> sig_less a c.
Proof.
  intros H1 H2 i. destruct (H1 i) as [A B], (H2 i) as [D E]. split; [congruence|]. intros H.
  destruct (B H) as [B1 B2], (E B1) as [E1 E2]. split; [done|congruence].
Qed.
Lemma sig_on_less s family g :
  (forall f, sf_epoch (g f) = sf_epoch f /\ (ack_new (g f) = true -> ack_new f = true /\ ack_node (g f) = ack_node f)) ->
  sig_less (sig_on s family g) s.
Proof.
  intros H i. destruct s as [[f4 f6] a b c d e]. unfold sig_on, sig_fam_of.
  destruct (fam_idx family), i; cbn; (apply H || done).
Qed.
Lemma sig_backed_less L ns s s' : sig_backed L ns s -> sig_less s' s -> sig_backed L ns s'.
Proof.
  intros H1 H2 i. destruct (H1 i) as [A B], (H2 i) as [D E]. split; [congruence|]. intros H.
  destruct (E H) as [E1 E2]. rewrite D, E2. auto.
Qed.
Lemma sig_backed_told L ns ns' s : sig_backed L ns s -> told L ns ns' -> sig_backed L ns' s.
Proof. intros H Ht i. rewrite (told_epoch L ns ns' _ Ht). apply H. Qed.

Lemma reinforce_less eng pin s family sa : sig_less (sig_reinforce eng pin s family sa).1 s.
Proof.
  unfold sig_reinforce. destruct (_ <? _)%nat; [apply sig_less_refl|]. destruct (negb (sg_dht s)); [apply sig_less_refl|].
  destruct (negb eng); [apply sig_less_refl|]. destruct (negb pin); [apply sig_less_refl|]. cbn [fst].
  set (moved := negb _). clearbody moved.
  apply (sig_less_trans _ (sig_on s family (fun f => if moved then f <| anchor_seen := false |> else f)));
    [|apply sig_on_less; intros f; by destruct moved].
  set (s1 := sig_on s _ _). clearbody s1.
  destruct (moved && _); (apply (sig_less_trans _ (sig_on s1 family (fun f => f <| rnode := sa |> <| relocate := false |>)));
    [intros i; done | by apply sig_on_less]).
Qed.
Lemma relay_less s family on : sig_less (sig_relay s family on) s.
Proof.
  unfold sig_relay. apply (sig_less_trans _ (sig_on s family (fun f => f <| relay := on |>))); [by destruct on|].
  by apply sig_on_less.
Qed.
Lemma forget_less s family : sig_less (sig_forget s family) s.
Proof.
  unfold sig_forget. destruct (bool_decide _); [apply sig_less_refl|]. by apply sig_on_less.
Qed.

(** A pass over the model that only tells it events and takes answers away. *)
Definition keeps (L : list answer) (pm pm' : peering_model) : Prop :=
  told L (pm_ns pm) (pm_ns pm') /\
  forall s', pm_sig pm' = Some s' -> exists s, pm_sig pm = Some s /\ sig_less s' s.

Lemma keeps_refl L pm : keeps L pm pm.
Proof. split; [apply told_refl|]. intros s H. exists s. split; [done|apply sig_less_refl]. Qed.
Lemma keeps_trans L a b c : keeps L a b -> keeps L b c -> keeps L a c.
Proof.
  intros [A1 A2] [B1 B2]. split; [by eapply told_trans|]. intros s H. destruct (B2 s H) as (s1 & H1 & L1).
  destruct (A2 s1 H1) as (s2 & H2 & L2). exists s2. split; [done|by eapply sig_less_trans].
Qed.
Lemma keeps_ns L pm pm' : told L (pm_ns pm) (pm_ns pm') -> pm_sig pm' = pm_sig pm -> keeps L pm pm'.
Proof. intros H1 H2. split; [done|]. rewrite H2. intros s H. exists s. split; [done|apply sig_less_refl]. Qed.
Lemma keeps_sig L pm g : (forall s, sig_less (g s) s) -> keeps L pm (on_sig pm g).
Proof.
  intros H. split; [apply told_refl|]. unfold on_sig. cbn. destruct (pm_sig pm) as [s|]; cbn; [|done].
  intros s' [= <-]. exists s. split; [done|apply H].
Qed.

Lemma apply_sig_keeps L pm env act family : keeps L pm (apply_sig pm env act family).
Proof.
  unfold apply_sig. cbv zeta.
  destruct (has_act act NSA_EMIT_CONN), (has_act act NSA_RDV_PIN), (has_act act NSA_RDV_RELOCATE), (has_act act NSA_RDV_DROP);
    repeat match goal with
    | |- context [match netstate_anchor ?n ?f with _ => _ end] => destruct (netstate_anchor n f) as [[? ?]|]
    end;
    repeat match goal with
    | |- keeps L ?a ?a => apply keeps_refl
    | |- keeps L ?a (on_sig ?b ?g) => apply (keeps_trans L a b);
        [|apply keeps_sig; intros s; first [apply reinforce_less | apply forget_less | by apply sig_on_less]]
    end.
Qed.

Lemma apply_family_keeps L cfg env a now pm net calls i :
  let r := apply_family cfg env a now (pm, net, calls) i in
  keeps L pm r.1.1 /\ pn_facts r.1.2 = pn_facts net.
Proof.
  cbn zeta. unfold apply_family.
  set (p1 := if has_act _ NSA_SAMPLE_SRC then _ else pm).
  assert (H1 : keeps L pm p1).
  { unfold p1. destruct (has_act _ _); [|apply keeps_refl]. apply keeps_ns; [apply sample_told|].
    unfold sample_src. done. }
  clearbody p1. set (k := if has_act _ NSA_KICK_PROBE then _ else _).
  assert (H2 : keeps L p1 k.1 /\ pn_facts k.2 = pn_facts net).
  { unfold k. destruct (has_act _ _); [|split; [apply keeps_refl|done]].
    destruct (kick_told L p1 net env (st_start6 cfg) (fam_no i) (get2 (na_epoch a) i) now) as (T & S & F).
    split; [by apply keeps_ns|done]. }
  destruct k as [p2 net2]. destruct H2 as [H2 F2]. cbn [fst snd] in *. split; [|done].
  eapply keeps_trans; [exact H1|]. eapply keeps_trans; [exact H2|]. apply apply_sig_keeps.
Qed.

Lemma apply_keeps L pm net cfg env a now :
  let r := apply pm net cfg env a now in keeps L pm r.1.1 /\ pn_facts r.1.2 = pn_facts net.
Proof.
  cbn zeta. unfold apply, both. destruct (apply_family_keeps L cfg env a now pm net [] false) as [K1 F1].
  destruct (apply_family cfg env a now (pm, net, []) false) as [[p1 n1] c1]. cbn [fst snd] in *.
  destruct (apply_family_keeps L cfg env a now p1 n1 c1 true) as [K2 F2].
  split; [by eapply keeps_trans|congruence].
Qed.

Lemma facts_keeps L now fs : forall pm net,
  Forall (fact_backed L) fs ->
  let r := fold_left (settle_fact now) fs (pm, net) in
  keeps L pm r.1 /\ pn_facts r.2 = pn_facts net.
Proof.
  cbn zeta. induction fs as [|f fs IH]; intros pm net Hf; [split; [apply keeps_refl|done]|].
  apply Forall_cons in Hf as [Hf Hfs]. cbn [fold_left].
  set (net1 := if nf_kind f =? NSF_PROBE_DONE then peering_net_reap net (nf_family f) else net).
  change (settle_fact now (pm, net) f)
    with (pm <| pm_ns := (peering_facts_feed (pm_ns pm) f (nf_epoch f) now).1 |>, net1).
  assert (Hn : pn_facts net1 = pn_facts net).
  { unfold net1. destruct (_ =? _); [|done]. unfold peering_net_reap. by destruct (negb _). }
  specialize (IH (pm <| pm_ns := (peering_facts_feed (pm_ns pm) f (nf_epoch f) now).1 |>) net1 Hfs) as [K F].
  split; [|congruence]. eapply keeps_trans; [|exact K]. apply keeps_ns; [by apply feed_told|done].
Qed.

Lemma settle_keeps L pm net cfg env now :
  Forall (fact_backed L) (waiting (pn_facts net)) ->
  let r := peering_settle pm net cfg env now in
  keeps L pm r.1.1 /\ Forall (fact_backed L) (waiting (pn_facts r.1.2)).
Proof.
  intros Hw. cbn zeta. unfold peering_settle, peering_facts_take. pose proof (take_waiting (pn_facts net) NSFACTS_OUT) as Ht.
  destruct (nsfacts_take (pn_facts net) NSFACTS_OUT) as [q out]. destruct Ht as [-> Hq].
  assert (Hout : Forall (fact_backed L) (take NSFACTS_OUT (waiting (pn_facts net)))) by (by apply Forall_take).
  assert (Hrest : Forall (fact_backed L) (waiting q)) by (rewrite Hq; by apply Forall_drop).
  destruct (facts_keeps L now _ pm (net <| pn_facts := q |>) Hout) as [K1 F1].
  destruct (fold_left _ _ _) as [p1 n1]. cbn [fst snd] in *.
  destruct (pool_tell_told L p1 n1) as (T2 & S2 & F2). destruct (pool_tell p1 n1) as [p2 n2]. cbn [fst snd] in *.
  set (p3 := p2 <| pm_ns := netstate_tick (pm_ns p2) now |>).
  assert (K3 : keeps L p2 p3) by (apply keeps_ns; [by apply (told_one L (pm_ns p2) (NsTick now))|done]).
  destruct (netstate_take_actions (pm_ns p3)) as [[ns a] any] eqn:Ea.
  assert (K4 : keeps L p3 (p3 <| pm_ns := ns |>)).
  { apply keeps_ns; [|done]. change (pm_ns (p3 <| pm_ns := ns |>)) with ns.
    replace ns with (netstate_step (pm_ns p3) TakeActions) by (cbn [netstate_step]; by rewrite Ea).
    by apply told_one. }
  assert (K : keeps L pm (p3 <| pm_ns := ns |>)).
  { eapply keeps_trans; [exact K1|]. eapply keeps_trans; [by apply keeps_ns|]. eapply keeps_trans; [exact K3|exact K4]. }
  assert (Hf : pn_facts n2 = q) by (rewrite F2, F1; done).
  destruct any; [|split; [exact K|cbn [fst snd]; by rewrite Hf]].
  destruct (apply_keeps L (p3 <| pm_ns := ns |>) n2 cfg env a now) as [K5 F5].
  split; [by eapply keeps_trans|]. rewrite F5, Hf. done.
Qed.

Definition sig_fine (L : list answer) (pm : peering_model) : Prop :=
  forall s, pm_sig pm = Some s -> sig_backed L (pm_ns pm) s.
Lemma keeps_fine L pm pm' : sig_fine L pm -> keeps L pm pm' -> sig_fine L pm'.
Proof.
  intros H [K1 K2] s Hs. destruct (K2 s Hs) as (s0 & H0 & Hless).
  eapply sig_backed_less; [|exact Hless]. eapply sig_backed_told; [by apply H|done].
Qed.

Lemma acks_family_keeps L now pm i : sig_fine L pm -> keeps L pm (acks_family now pm i).
Proof.
  intros H. unfold acks_family. destruct (pm_sig pm) as [s|] eqn:Es; [|apply keeps_refl].
  specialize (H s Es). unfold sig_take_anchor_seen.
  set (s1 := sig_on s _ _). assert (L1 : sig_less s1 s) by (by apply sig_on_less).
  set (ns1 := if anchor_seen _ then _ else _).
  assert (T1 : told L (pm_ns pm) ns1).
  { unfold ns1. destruct (anchor_seen _); [by apply (told_one L (pm_ns pm) (AnchorSeen _ _))|apply told_refl]. }
  set (ns2 := netstate_set_picking ns1 _ _).
  assert (T2 : told L (pm_ns pm) ns2) by (eapply told_trans; [exact T1|]; by apply (told_one L ns1 (SetPicking _ _))).
  clearbody s1 ns2. pose proof (sig_backed_told _ _ _ _ (sig_backed_less _ _ _ _ H L1) T2) as H2.
  unfold sig_take_ack. destruct (negb (ack_new _) || _ || _) eqn:Ec.
  - split; [done|]. cbn. intros s' [= <-]. exists s. done.
  - apply orb_false_iff in Ec as [Ec _]. apply orb_false_iff in Ec as [Ec _]. apply negb_false_iff in Ec.
    destruct (H2 i) as [E1 E2]. specialize (E2 Ec). split.
    + eapply told_trans; [exact T2|]. apply (told_one L ns2 (DhtAck (fam_no i) (netstate_epoch ns2 (fam_no i)) _ now)); [|done].
      cbn. by rewrite <- E1.
    + cbn. intros s' [= <-]. exists s. split; [done|]. eapply sig_less_trans; [|exact L1]. by apply sig_on_less.
Qed.
Lemma acks_keeps L now pm : sig_fine L pm -> keeps L pm (peering_acks pm now).
Proof.
  intros H. unfold peering_acks, both. pose proof (acks_family_keeps L now pm false H) as K.
  eapply keeps_trans; [exact K|]. apply acks_family_keeps. by eapply keeps_fine.
Qed.

Lemma publish_keeps L pm : keeps L pm (peering_publish pm).
Proof.
  assert (H : forall pm i, pm_ns (publish_rdv pm i) = pm_ns pm /\ pm_sig (publish_rdv pm i) = pm_sig pm).
  { intros p i. unfold publish_rdv. destruct (netstate_anchor _ _) as [[? ?]|]; [|done]. by destruct (_ && _). }
  unfold peering_publish. set (p1 := if pm_dht pm then _ else _).
  assert (H1 : pm_ns p1 = pm_ns pm /\ pm_sig p1 = pm_sig pm).
  { unfold p1, both. destruct (pm_dht pm); [|done]. destruct (H (publish_rdv pm false) true) as [-> ->]. apply H. }
  clearbody p1. destruct H1 as [E1 E2].
  destruct (bytes_eqb _ _); apply keeps_ns; cbn; rewrite ?E1; try done; apply told_refl.
Qed.

Lemma absorb_keeps L pm pr now : keeps L pm (peering_absorb pm pr now).1.
Proof.
  unfold peering_absorb, rdv_adopt.
  assert (Ha : forall nodes pm i, keeps L pm (adopt_node now nodes pm i)).
  { intros nodes p i. unfold adopt_node. destruct (negb _); [apply keeps_refl|].
    destruct (match netstate_anchor _ _ with Some _ => _ | None => _ end); [apply keeps_refl|].
    apply keeps_ns; [|done]. cbn [pm_ns set set_pm_ns].
    destruct (truth _); [by apply (told_one L (pm_ns p) (RdvVouched _ _ _)) | by apply (told_one L (pm_ns p) (RdvOffered _ _ _))]. }
  assert (Hs : forall ask pm i, keeps L pm (serve_family ask now pm i)).
  { intros ask p i. unfold serve_family.
    destruct (truth _).
    - set (p1 := p <| pm_relay_until_ms := _ |>). assert (K : keeps L p p1) by (apply keeps_ns; [apply told_refl|done]).
      destruct (get2 _ i); [exact K|]. eapply (keeps_trans L p (p1 <| pm_relay_fam := _ |>)).
      + apply keeps_ns; [apply told_refl|done].
      + apply keeps_sig. intros s. apply relay_less.
    - destruct (_ && _); [|apply keeps_refl]. eapply (keeps_trans L p (p <| pm_relay_fam := _ |>)).
      + apply keeps_ns; [apply told_refl|done].
      + apply keeps_sig. intros s. apply relay_less. }
  destruct (ctlplane_take_nodes (pe_cp pr)) as [cp got].
  set (m := match got with Some _ => _ | None => _ end).
  assert (Hm : keeps L pm m.1).
  { unfold m. destruct got as [nodes|]; [|apply keeps_refl]. eapply keeps_trans; apply Ha. }
  destruct m as [p1 pr1]. cbn [fst] in Hm. unfold rdv_serve_ask. destruct (_ || _); [done|].
  destruct (ctlplane_take_asks _) as [cp2 ask]. cbn [fst]. eapply keeps_trans; [exact Hm|].
  eapply keeps_trans; apply Hs.
Qed.

Lemma seed_keeps L pm env fb now : keeps L pm (peering_seed_rendezvous pm env fb now).
Proof.
  assert (H : forall pm i, keeps L pm (seed_family env fb now pm i)).
  { intros p i. unfold seed_family. destruct (peering_seed_pick _ _ _ _) as [node|]; [|apply keeps_refl].
    assert (Ho : forall p, keeps L p (p <| pm_ns := netstate_on_rdv_offered (pm_ns p) (fam_no i) node now |>)).
    { intros q. apply keeps_ns; [|done]. by apply (told_one L (pm_ns q) (RdvOffered _ _ _)). }
    destruct (pm_is_host p).
    - eapply keeps_trans; [|apply Ho]. apply keeps_sig. intros s. apply reinforce_less.
    - destruct (match pm_sig p with Some _ => _ | None => _ end); [apply Ho|apply keeps_refl]. }
  unfold peering_seed_rendezvous, both. eapply keeps_trans; apply H.
Qed.

(** ** Lemmas: the queue of facts *)
Lemma post_waiting q kind family epoch f :
  f ∈ waiting (nsfacts_post q kind family epoch) -> f ∈ waiting q \/ f = emit kind (fam_idx family) epoch.
Proof.
  assert (H : forall k fl ep i e, f ∈ slots_of k (put2 fl i true) (put2 ep i e) -> f ∈ slots_of k fl ep \/ f = emit k i e).
  { intros k [a b] [c d] i e. unfold slots_of, put2. destruct i, a, b; cbn; set_solver. }
  unfold nsfacts_post. destruct (Z.eqb_spec kind NSF_ROUNDTRIP) as [->|]; [|destruct (Z.eqb_spec kind NSF_PROBE_DONE) as [->|];
    [|destruct (Z.eqb_spec kind NSF_SERVERS) as [->|]; [|by left]]]; unfold waiting; cbn [ns_q ns_rt ns_rt_epoch ns_done ns_done_epoch ns_more ns_more_epoch set set_ns_rt set_ns_rt_epoch set_ns_done set_ns_done_epoch set_ns_more set_ns_more_epoch];
    rewrite !elem_of_app; intros [K|[K|[K|K]]]; try (left; tauto); apply H in K as [K|K]; tauto.
Qed.
Lemma post_addr_waiting q family epoch addr f :
  f ∈ waiting (nsfacts_post_addr q family epoch addr) -> f ∈ waiting q \/ f = addr_fact family epoch addr.
Proof.
  unfold nsfacts_post_addr. destruct (existsb _ _); [by left|]. destruct (_ <=? _)%nat; [by left|].
  unfold waiting. cbn [ns_q set set_ns_q ns_rt ns_rt_epoch ns_done ns_done_epoch ns_more ns_more_epoch].
  rewrite !elem_of_app. intros [K|[K|[[K|K%list_elem_of_singleton]|K]]]; tauto.
Qed.

(** ** The invariant *)
Record world_ok (h : bool) (now0 : Z) (tr : trace) (w : world) : Prop := {
  wo_run : exists es, pm_ns (w_pm w) = netstate_run (netstate_init h now0) es /\ forall i, move_count i es <= changes tr;
  wo_facts : Forall (fact_backed (answers tr)) (waiting (pn_facts (w_net w)));
  wo_sig : sig_fine (answers tr) (w_pm w);
  wo_rounds : Forall (fun r => is_family r.1 /\ r.2 <= net_of w (fam_idx r.1)) (w_rounds w);
  wo_probes : forall i, pb_epoch (probe_of (w_net w) (fam_no i)) <= net_of w i;
  wo_stamps : forall a, a ∈ answers tr -> stamp a <= net_of w (answer_family a);
  wo_fresh : forall a i, a ∈ answers tr -> answered_on i (net_of w i) a -> answered_here i tr;
  wo_up : forall i, f_up_epoch (fam_of (pm_ns (w_pm w)) (fam_no i)) = net_of w i -> answered_here i tr
}.

Lemma move_count_app i es es' : move_count i (es ++ es') = move_count i es + move_count i es'.
Proof. unfold move_count. rewrite List.filter_app, length_app. lia. Qed.
Lemma no_move_count i es : Forall (fun e => is_move e = false) es -> move_count i es = 0.
Proof.
  unfold move_count. induction 1 as [|e es He _ IH]; [done|]. cbn [List.filter].
  assert (E : moves i e = false) by (by destruct e). by rewrite E.
Qed.

Lemma answers_last tr p : answers (tr ++ [p]) = answers tr ++ match heard p with Some a => [a] | None => [] end.
Proof. unfold answers. rewrite omap_app. f_equal. Qed.
Lemma answers_more tr p a : a ∈ answers tr -> a ∈ answers (tr ++ [p]).
Proof. rewrite answers_last. intros H. apply elem_of_app. by left. Qed.
Lemma changes_snoc tr w x : changes (tr ++ [(w, x)]) = changes tr + (if is_hmove x then 1 else 0).
Proof. unfold changes. rewrite List.filter_app, length_app. cbn. destruct (is_hmove x); cbn; lia. Qed.
Lemma fam_of_no ns i : fam_of ns (fam_no i) = get2 (nst_f ns) i.
Proof. by destruct i. Qed.

(** A family is newly up only through an answer asked for on the network it is on. *)
Lemma told_up L ns ns' i :
  told L ns ns' -> f_up_epoch (fam_of ns' (fam_no i)) = netstate_epoch ns' (fam_no i) ->
  f_up_epoch (fam_of ns (fam_no i)) = netstate_epoch ns (fam_no i) \/
  exists a, a ∈ L /\ answered_on i (netstate_epoch ns (fam_no i)) a.
Proof.
  intros (es & -> & Hb & Hm). induction es as [|e es IH] using rev_ind; [by left|].
  apply Forall_app in Hb as [Hb He], Hm as [Hm Hme]. apply Forall_cons in He as [He _], Hme as [Hme _].
  specialize (IH Hb Hm). rewrite <- (told_epoch L ns (netstate_run ns es) (fam_no i)) by (by exists es).
  rewrite <- (told_epoch L ns (netstate_run ns es) (fam_no i)) in IH by (by exists es).
  unfold netstate_epoch in *. rewrite run_snoc, !fam_of_no, step_fam in *. set (m := netstate_run ns es) in *. clearbody m.
  pose proof (fam_step_up_view (nst_is_host m) i (get2 (nst_f m) i) e) as Hu. unfold up_view in Hu.
  destruct (completes _ _ e) eqn:Hc.
  - intros _. right. destruct e; cbn in Hc; try discriminate; apply andb_true_iff in Hc as [Hi%eqb_prop Hc%Z.eqb_eq];
      cbn in He; eexists; (split; [exact He|]); by split.
  - assert (Em : moves i e = false) by (by destruct e). rewrite Em in Hu. injection Hu as -> ->. apply IH.
Qed.

(** The explanation holds until the family goes elsewhere. *)
Lemma here_more i tr w x :
  answered_here i tr ->
  (forall changed addrs now, x = HMove changed addrs now ->
     leaves i (fam_of (pm_ns (w_pm w)) (fam_no i)) (NetMon changed addrs now) = false) ->
  answered_here i (tr ++ [(w, x)]).
Proof.
  intros (tr1 & v & a & tr2 & -> & Ha & Hl) Hx. exists tr1, v, a, (tr2 ++ [(w, x)]).
  split; [by rewrite <- app_assoc|]. split; [done|]. intros u c ad t [H|H%list_elem_of_singleton]%elem_of_app; [by eapply Hl|].
  injection H as -> <-. by apply Hx.
Qed.

Lemma backed_more L L' ns s : (forall a, a ∈ L -> a ∈ L') -> sig_backed L ns s -> sig_backed L' ns s.
Proof. intros Hs H i. destruct (H i) as [A B]. split; [done|]. auto. Qed.
Lemma fine_more tr p pm : sig_fine (answers tr) pm -> sig_fine (answers (tr ++ [p])) pm.
Proof. intros H s Hs. eapply backed_more; [|by apply H]. apply answers_more. Qed.

(** A step that takes no change of addresses in: the model is told of things, and
    the answer it may be, if it is one, has been heard now. *)
Lemma told_step h now0 tr w x pm' net' rounds' :
  world_ok h now0 tr w -> is_hmove x = false ->
  told (answers (tr ++ [(w, x)])) (pm_ns (w_pm w)) (pm_ns pm') -> sig_fine (answers (tr ++ [(w, x)])) pm' ->
  Forall (fact_backed (answers (tr ++ [(w, x)]))) (waiting (pn_facts net')) ->
  Forall (fun r => is_family r.1 /\ r.2 <= net_of w (fam_idx r.1)) rounds' ->
  (forall i, pb_epoch (probe_of net' (fam_no i)) <= net_of w i) ->
  world_ok h now0 (tr ++ [(w, x)]) (mk_world pm' net' rounds').
Proof.
  intros [(es & E & Hm) _ _ _ _ Hst Hfr Hup] Hx Ht Hs Hf Hr Hp. set (L := answers (tr ++ [(w, x)])) in *.
  assert (En : forall i, net_of (mk_world pm' net' rounds') i = net_of w i) by (intros i; by apply (told_epoch L)).
  assert (Hq : forall i c a t, x = HMove c a t -> leaves i (fam_of (pm_ns (w_pm w)) (fam_no i)) (NetMon c a t) = false)
    by (intros i c a t ->; discriminate).
  assert (Hnew : forall a, a ∈ L -> a ∈ answers tr \/ (x = HAnswer a /\ stamp a <= net_of w (answer_family a))).
  { intros a. unfold L. rewrite answers_last, elem_of_app. intros [H|H]; [by left|]. right. unfold heard in H. cbn [fst snd] in H.
    destruct x as [| b |]; cbn in H; try by apply elem_of_nil in H. destruct (Z.leb_spec (stamp b) (net_of w (answer_family b))); [|by apply elem_of_nil in H].
    apply list_elem_of_singleton in H as ->. done. }
  assert (Hfresh : forall a i, a ∈ L -> answered_on i (net_of w i) a -> answered_here i (tr ++ [(w, x)])).
  { intros a i [H|[-> H]]%Hnew Ha; [by apply here_more; [by eapply Hfr|auto]|]. exists tr, w, a, []. split; [done|]. split; [done|].
    intros u c ad t Hin. by apply elem_of_nil in Hin. }
  constructor; cbn [w_net w_rounds w_pm]; try done.
  - pose proof Ht as (es' & E' & _ & Hm'). exists (es ++ es'). split.
    + rewrite E', E. unfold netstate_run. by rewrite fold_left_app.
    + intros i. rewrite move_count_app, (no_move_count i es' Hm'), changes_snoc, Hx. specialize (Hm i). lia.
  - eapply Forall_impl; [exact Hr|]. intros r. by rewrite En.
  - intros i. by rewrite En.
  - intros a H. rewrite En. destruct (Hnew a H) as [H'|[_ H']]; auto.
  - intros a i H. rewrite En. by apply Hfresh.
  - intros i. rewrite En. intros H. rewrite <- (En i) in H. destruct (told_up L _ _ i Ht H) as [H'|(a & H1 & H2)]; [|by eapply Hfresh].
    apply here_more; [by apply Hup|auto].
Qed.

(** A pass of the loop, which hears nothing new. *)
Lemma keeps_step h now0 tr w pm' net' :
  world_ok h now0 tr w -> keeps (answers tr) (w_pm w) pm' ->
  Forall (fact_backed (answers tr)) (waiting (pn_facts net')) ->
  (forall i, pb_epoch (probe_of net' (fam_no i)) <= net_of w i) ->
  world_ok h now0 (tr ++ [(w, HTurn)]) (mk_world pm' net' (w_rounds w)).
Proof.
  intros Hok K Hf Hp. pose proof K as [Ht _]. assert (E : answers (tr ++ [(w, HTurn)]) = answers tr) by (by rewrite answers_last; apply app_nil_r).
  apply told_step; rewrite ?E; try done; [|by destruct Hok].
  eapply keeps_fine; [by destruct Hok|done].
Qed.

(** Only the queue and the rounds change. *)
Lemma net_step h now0 tr w x net' rounds' :
  world_ok h now0 tr w -> is_hmove x = false ->
  Forall (fact_backed (answers (tr ++ [(w, x)]))) (waiting (pn_facts net')) ->
  Forall (fun r => is_family r.1 /\ r.2 <= net_of w (fam_idx r.1)) rounds' ->
  pn_probes net' = pn_probes (w_net w) ->
  world_ok h now0 (tr ++ [(w, x)]) (mk_world (w_pm w) net' rounds').
Proof.
  intros Hok Hx Hf Hr Hp. apply told_step; try done; [apply told_refl|apply fine_more; by destruct Hok|].
  intros i. unfold probe_of. rewrite Hp. by apply (wo_probes _ _ _ _ Hok).
Qed.

Lemma facts_more L A q : Forall (fact_backed L) q -> Forall (fact_backed (L ++ A)) q.
Proof. intros H. eapply Forall_impl; [exact H|]. unfold fact_backed. intros f Hf Hk. apply elem_of_app. left. auto. Qed.

(** The signaller on the network the model is on now, told of no answer yet. *)
Lemma epochs_fine L ns s : sig_backed L ns (sig_epochs ns s) <-> forall i,
  let f := sig_fam_of s (fam_no i) in
  sf_epoch f = netstate_epoch ns (fam_no i) -> ack_new f = true ->
  ANode (fam_no i) (sf_epoch f) (ack_node f) ∈ L.
Proof.
  destruct s as [[f4 f6] a b c d e]. unfold sig_backed, sig_epochs, sig_set_family_epoch, sig_on, sig_fam_of. cbn.
  destruct (Z.eqb_spec (sf_epoch f4) (netstate_epoch ns 4)) as [E4|E4],
    (Z.eqb_spec (sf_epoch f6) (netstate_epoch ns 6)) as [E6|E6]; cbn; split; intros H i; specialize (H i);
    destruct i; cbn in *; try tauto; intuition (congruence || auto).
Qed.

Lemma node_note_fine L N ns s qep family node :
  sig_backed L ns s -> (qep = sf_epoch (sig_fam_of s family) -> ANode family qep node ∈ L ++ N) ->
  sig_backed (L ++ N) ns (node_note s qep family node).
Proof.
  intros H HN.
  assert (H0 : sig_backed (L ++ N) ns s).
  { intros i. destruct (H i) as [A B]. split; [done|]. intros K. apply elem_of_app. left. auto. }
  unfold node_note. destruct (_ || _); [done|]. destruct (negb _) eqn:Hfam; [done|].
  set (on := ack_on_net s qep family).
  set (s1 := if on && _ then _ else s).
  assert (L1 : sig_less s1 s) by (unfold s1; destruct (on && _); [by apply sig_on_less|apply sig_less_refl]).
  pose proof (sig_backed_less _ _ _ _ H0 L1) as H1.
  assert (Eon : on = (qep =? sf_epoch (sig_fam_of s1 family))).
  { unfold on, ack_on_net. f_equal. unfold s1. destruct (on && _); [|done].
    destruct s as [[f4 f6] ? ? ? ? ?]. unfold sig_on, sig_fam_of. by destruct (fam_idx family). }
  set (s2 := if on then _ else s1).
  assert (H2 : sig_backed (L ++ N) ns s2).
  { unfold s2. destruct on eqn:Eo; [|done]. apply Z.eqb_eq, HN in Eo. clear HN. symmetry in Eon. apply Z.eqb_eq in Eon. clearbody s1. clear L1.
    intros i. destruct (H1 i) as [A B]. revert A B Eon. destruct s1 as [[f4 f6] ? ? ? ? ?].
    apply negb_false_iff, orb_true_iff in Hfam. unfold sig_on, sig_fam_of.
    destruct Hfam as [Hf%Z.eqb_eq|Hf%Z.eqb_eq]; subst family; destruct i; cbn; intros A B E; (split; [done|]);
      try exact B; intros _; by rewrite <- E. }
  clearbody s2. destruct (sg_locate s2 && _); [|done].
  assert (L2 : forall s3 : sig, (s3 = sig_on s2 family (fun f => f <| rnode := node |>)) ->
    sig_backed (L ++ N) ns s3).
  { intros s3 ->. eapply sig_backed_less; [exact H2|]. by apply sig_on_less. }
  destruct (sg_is_host _); intros i; apply (L2 _ eq_refl i).
Qed.

Lemma hit_facts net epoch family addr port f :
  f ∈ waiting (pn_facts (probe_hit net epoch family addr port)) ->
  f ∈ waiting (pn_facts net) \/ f = emit NSF_ROUNDTRIP (fam_idx family) epoch \/ nf_kind f = NSF_ADDR.
Proof.
  unfold probe_hit. destruct (family =? 6).
  - intros [H|H]%post_addr_waiting; [apply (post_waiting _ NSF_ROUNDTRIP) in H; tauto|]. right. right. by subst.
  - destruct (peering_pool_note _ _ _) as [p added].
    destruct (_ && _); intros H%(post_waiting (pn_facts net) NSF_ROUNDTRIP family epoch); tauto.
Qed.

Lemma emit_family kind family epoch : is_family family -> nf_family (emit kind (fam_idx family) epoch) = family.
Proof. by intros [->| ->]. Qed.

(** The stamp the next round of a family will carry is its own or the network of the moment. *)
Lemma probe_on_epoch m family g i :
  (forall p, pb_epoch (g p) = pb_epoch p) -> pb_epoch (probe_of (probe_on m family g) (fam_no i)) = pb_epoch (probe_of m (fam_no i)).
Proof. intros H. unfold probe_on, put2. destruct i, (fam_idx family) eqn:E; cbn; rewrite ?H; unfold probe_of, get2; rewrite ?E; done. Qed.
Lemma kick_epoch net family epoch start6 sp i :
  pb_epoch (probe_of (peering_net_kick net family epoch start6 sp).1 (fam_no i))
  = if eqb (fam_idx family) i then epoch else pb_epoch (probe_of net (fam_no i)).
Proof.
  unfold peering_net_kick. set (m := probe_on net family _).
  assert (Hm : pb_epoch (probe_of m (fam_no i)) = if eqb (fam_idx family) i then epoch else pb_epoch (probe_of net (fam_no i))).
  { unfold m, probe_of, probe_on. destruct net as [? ? ? [p4 p6]], i, (fam_idx family); done. }
  rewrite <- Hm. clearbody m. destruct (_ || _); [done|]. destruct (pb_running _); cbn [fst]; [by apply probe_on_epoch|].
  destruct (negb sp); cbn [fst]; rewrite ?probe_on_epoch; done.
Qed.
Lemma apply_family_epoch cfg env a now pm net calls j i :
  let r := apply_family cfg env a now (pm, net, calls) j in
  pb_epoch (probe_of r.1.2 (fam_no i)) = pb_epoch (probe_of net (fam_no i)) \/
  pb_epoch (probe_of r.1.2 (fam_no i)) = get2 (na_epoch a) i.
Proof.
  cbn zeta. unfold apply_family. set (p1 := if has_act _ NSA_SAMPLE_SRC then _ else pm). clearbody p1.
  destruct (has_act _ NSA_KICK_PROBE); [|by left]. unfold kick_family.
  pose proof (kick_epoch net (fam_no j) (get2 (na_epoch a) j) (st_start6 cfg) (se_spawned env) i) as H.
  destruct (peering_net_kick _ _ _ _ _) as [n k]. cbn [fst snd] in *. rewrite H.
  destruct i, j; cbn; auto.
Qed.
Lemma facts_fold_epoch now fs i : forall pm net,
  pb_epoch (probe_of (fold_left (settle_fact now) fs (pm, net)).2 (fam_no i)) = pb_epoch (probe_of net (fam_no i)).
Proof.
  induction fs as [|f fs IH]; intros pm net; [done|]. cbn [fold_left settle_fact]. rewrite IH. destruct (_ =? _); [|done].
  unfold peering_net_reap. destruct (negb _); [done|]. by apply probe_on_epoch.
Qed.
Lemma settle_epoch L pm net cfg env now i :
  Forall (fact_backed L) (waiting (pn_facts net)) ->
  let r := peering_settle pm net cfg env now in
  pb_epoch (probe_of r.1.2 (fam_no i)) = pb_epoch (probe_of net (fam_no i)) \/
  pb_epoch (probe_of r.1.2 (fam_no i)) = netstate_epoch (pm_ns pm) (fam_no i).
Proof.
  intros Hw. cbn zeta. unfold peering_settle, peering_facts_take. pose proof (take_waiting (pn_facts net) NSFACTS_OUT) as Ht.
  destruct (nsfacts_take (pn_facts net) NSFACTS_OUT) as [q out]. destruct Ht as [-> _].
  destruct (facts_keeps L now (take NSFACTS_OUT (waiting (pn_facts net))) pm (net <| pn_facts := q |>) ltac:(by apply Forall_take)) as [[K1 _] _].
  pose proof (facts_fold_epoch now (take NSFACTS_OUT (waiting (pn_facts net))) i pm (net <| pn_facts := q |>)) as E1.
  change (pb_epoch (probe_of (net <| pn_facts := q |>) (fam_no i))) with (pb_epoch (probe_of net (fam_no i))) in E1.
  destruct (fold_left _ _ _) as [p1 n1]. cbn [fst snd] in *. rewrite <- E1. clear E1.
  destruct (pool_tell_told L p1 n1) as (T2 & _ & _).
  assert (E2 : probe_of (pool_tell p1 n1).2 (fam_no i) = probe_of n1 (fam_no i)) by (unfold pool_tell; by destruct (peering_pool_copy _ _)).
  destruct (pool_tell p1 n1) as [p2 n2]. cbn [fst snd] in *. rewrite <- E2. clear E2.
  set (p3 := p2 <| pm_ns := netstate_tick (pm_ns p2) now |>).
  assert (T3 : told L (pm_ns pm) (pm_ns p3)).
  { eapply told_trans; [exact K1|]. eapply told_trans; [exact T2|]. by apply (told_one L (pm_ns p2) (NsTick now)). }
  destruct (netstate_take_actions (pm_ns p3)) as [[ns a] any] eqn:Ea.
  assert (E4 : get2 (na_epoch a) i = netstate_epoch (pm_ns pm) (fam_no i)).
  { rewrite <- (told_epoch L (pm_ns pm) (pm_ns p3)) by done. unfold netstate_take_actions in Ea. unfold netstate_epoch, fam_of.
    destruct (nst_f (pm_ns p3)) as [f4 f6]. injection Ea as _ <- _. by destruct i. }
  destruct any; [|by left]. unfold apply, both. rewrite <- E4.
  pose proof (apply_family_epoch cfg env a now (p3 <| pm_ns := ns |>) n2 [] false i) as H1.
  destruct (apply_family cfg env a now (_, n2, []) false) as [[p4 n4] c4]. cbn [fst snd] in H1.
  pose proof (apply_family_epoch cfg env a now p4 n4 c4 true i) as H2. cbn zeta in H2.
  destruct H2 as [->|]; [exact H1|by right].
Qed.

(** A change of addresses taken in. *)
Lemma move_step h now0 tr w changed addrs now :
  world_ok h now0 tr w -> changes tr + 1 < 2 ^ 32 - 1 ->
  world_ok h now0 (tr ++ [(w, HMove changed addrs now)])
    (mk_world (net_watch_taken (w_pm w) changed addrs now) (w_net w) (w_rounds w)).
Proof.
  intros [(es & E & Hm) Hf Hg Hr Hp Hst Hfr Hup] Hn. set (e := NetMon changed addrs now). set (tr' := tr ++ _).
  assert (EL : answers tr' = answers tr) by (unfold tr'; by rewrite answers_last; apply app_nil_r).
  set (w' := mk_world _ _ _).
  assert (Ens : pm_ns (w_pm w') = netstate_step (pm_ns (w_pm w)) e) by done.
  assert (Hv : forall i, (net_of w' i, f_up_epoch (fam_of (pm_ns (w_pm w')) (fam_no i)))
    = if moves i e then (net_of w i + 1,
        if stays i (fam_of (pm_ns (w_pm w)) (fam_no i)) e && (f_up_epoch (fam_of (pm_ns (w_pm w)) (fam_no i)) =? net_of w i)
        then net_of w i + 1 else f_up_epoch (fam_of (pm_ns (w_pm w)) (fam_no i)))
      else (net_of w i, f_up_epoch (fam_of (pm_ns (w_pm w)) (fam_no i)))).
  { intros i. unfold net_of, netstate_epoch. rewrite Ens, !fam_of_no, step_fam.
    pose proof (fam_step_up_view (nst_is_host (pm_ns (w_pm w))) i (get2 (nst_f (pm_ns (w_pm w))) i) e) as Hu.
    unfold up_view in Hu. cbn [completes e] in Hu. fold e in Hu. rewrite Hu. destruct (moves i e); [|done].
    destruct (epoch_counts h now0 i es ltac:(specialize (Hm i); lia)) as (Ee & _ & _).
    unfold fam_at in Ee. rewrite <- E in Ee. rewrite u32_id; [done|]. unfold is_u32. specialize (Hm i).
    assert (0 <= move_count i es) by (unfold move_count; lia). lia. }
  assert (Hle : forall i, net_of w i <= net_of w' i) by (intros i; specialize (Hv i); destruct (moves i e); injection Hv; lia).
  assert (Hu : forall i, f_up_epoch (fam_of (pm_ns (w_pm w)) (fam_no i)) <= net_of w i).
  { intros i. destruct (epoch_counts h now0 i es ltac:(specialize (Hm i); lia)) as (_ & Hu & _).
    unfold fam_at in Hu. rewrite <- E in Hu. unfold net_of, netstate_epoch. rewrite fam_of_no. lia. }
  assert (Hquiet : forall i c a t, HMove changed addrs now = HMove c a t ->
    leaves i (fam_of (pm_ns (w_pm w)) (fam_no i)) e = false -> leaves i (fam_of (pm_ns (w_pm w)) (fam_no i)) (NetMon c a t) = false)
    by (intros i c a t [= -> -> ->]; done).
  constructor; rewrite ?EL; cbn [w_net w_rounds]; try done.
  - exists (es ++ [e]). split; [by rewrite Ens, run_snoc, <- E|]. intros i. unfold tr'. rewrite move_count_app, changes_snoc. specialize (Hm i).
    assert (move_count i [e] <= 1) by (unfold move_count; cbn [List.filter]; destruct (moves i _); cbn; lia). cbn. lia.
  - unfold sig_fine, w', net_watch_taken, on_sig. cbn. destruct (pm_sig (w_pm w)) as [s|] eqn:Es; [|done].
    intros s' [= <-]. apply epochs_fine. intros i f Ee Ha. destruct (Hg s Es i) as [_ H]. by apply H.
  - eapply Forall_impl; [exact Hr|]. intros r [H1 H2]. split; [done|]. specialize (Hle (fam_idx r.1)). lia.
  - intros i. change (w_net w') with (w_net w). specialize (Hle i). specialize (Hp i). lia.
  - intros a H. specialize (Hst a H). specialize (Hle (answer_family a)). lia.
  - intros a i H [Ha1 Ha2]. specialize (Hst a H). rewrite Ha1 in Hst. specialize (Hv i). destruct (moves i e) eqn:Em.
    + injection Hv as Hv _. lia.
    + injection Hv as Hv _. apply here_more; [apply (Hfr a i H); split; [done|congruence]|]. intros c ad t Hc.
      eapply Hquiet; [exact Hc|]. unfold leaves. by rewrite Em.
  - intros i H. specialize (Hv i). specialize (Hu i). rewrite H in Hv. destruct (moves i e) eqn:Em.
    + destruct (stays i _ e) eqn:Est; cbn [andb] in Hv; [|injection Hv; lia].
      destruct (Z.eqb_spec (f_up_epoch (fam_of (pm_ns (w_pm w)) (fam_no i))) (net_of w i)) as [Eu|]; [|injection Hv; lia].
      apply here_more; [by apply Hup|]. intros c ad t Hc. eapply Hquiet; [exact Hc|]. unfold leaves. by rewrite Em, Est.
    + injection Hv as V1 V2. apply here_more; [apply Hup; congruence|]. intros c ad t Hc.
      eapply Hquiet; [exact Hc|]. unfold leaves. by rewrite Em.
Qed.

Lemma world_step_ok h now0 tr w x w' :
  world_ok h now0 tr w -> world_step w w' x -> changes (tr ++ [(w, x)]) < 2 ^ 32 - 1 -> world_ok h now0 (tr ++ [(w, x)]) w'.
Proof.
  intros Hok Hs Hn. rewrite changes_snoc in Hn. pose proof Hok as [_ Hf Hg Hr Hp _ _ _].
  assert (Hf' : forall p, Forall (fact_backed (answers (tr ++ [p]))) (waiting (pn_facts (w_net w)))).
  { intros p. rewrite answers_last. by apply facts_more. }
  destruct Hs as [family Hfam Hrun|family epoch addr port Hin|family epoch Hin|family Hfam|qep family node|
    changed addrs now|cfg env now|pr now|env fb now|dht hst now|now|rb0 rb1]; try subst r.
  - apply net_step; try done; unfold probe_begin.
    + by destruct (family =? 6).
    + constructor; [|done]. cbn. split; [done|]. destruct Hfam as [-> | ->]; [apply (Hp false)|apply (Hp true)].
    + by destruct (family =? 6).
  - rewrite Forall_forall in Hr. destruct (Hr _ Hin) as [Hfam Hle]. cbn in Hfam, Hle.
    apply net_step; try done; [|by rewrite Forall_forall|].
    + apply Forall_forall. intros f [H|[H|H]]%hit_facts.
      * specialize (Hf' (w, HAnswer (AProbe family epoch))). rewrite Forall_forall in Hf'. by apply Hf'.
      * subst f. intros _. rewrite emit_family by done. cbn [nf_epoch emit]. rewrite answers_last. unfold heard. cbn.
        destruct (Z.leb_spec epoch (net_of w (fam_idx family))); [|lia]. set_solver.
      * intros Hk. rewrite Hk in H. discriminate.
    + unfold probe_hit. destruct (family =? 6); [done|]. destruct (peering_pool_note _ _ _). by destruct (_ && _).
  - apply net_step; try done. apply Forall_forall. intros f [H|H]%(post_waiting _ NSF_PROBE_DONE).
    + specialize (Hf' (w, HTurn)). rewrite Forall_forall in Hf'. by apply Hf'.
    + subst f. intros Hk. discriminate.
  - apply net_step; try done. apply Forall_forall. intros f [H|H]%(post_waiting _ NSF_SERVERS).
    + specialize (Hf' (w, HTurn)). rewrite Forall_forall in Hf'. by apply Hf'.
    + subst f. intros Hk. discriminate.
  - apply told_step; try done; [apply told_refl|]. unfold sig_fine, on_sig. cbn.
    destruct (pm_sig (w_pm w)) as [s|] eqn:Es; [|done]. intros s' [= <-]. rewrite answers_last. apply node_note_fine; [by apply Hg|].
    intros He. unfold heard. cbn. destruct (Z.leb_spec qep (net_of w (fam_idx family))); [set_solver|].
    destruct (Hg s Es (fam_idx family)) as [Ee _].
    assert (Ef : sig_fam_of s (fam_no (fam_idx family)) = sig_fam_of s family) by (unfold sig_fam_of; by destruct (fam_idx family)).
    unfold net_of in *. rewrite Ef in Ee. lia.
  - apply move_step; [done|]. cbn in Hn. lia.
  - pose proof (acks_keeps (answers tr) now (w_pm w) Hg) as K1. unfold peering_advance.
    destruct (settle_keeps (answers tr) (peering_acks (w_pm w) now) (w_net w) cfg env now Hf) as [K2 F2].
    pose proof (fun i => settle_epoch (answers tr) (peering_acks (w_pm w) now) (w_net w) cfg env now i Hf) as E2. cbn zeta in E2.
    destruct (peering_settle _ _ _ _ _) as [[p2 n2] c2]. cbn [fst snd] in *. apply keeps_step; [done| |done|].
    + eapply keeps_trans; [exact K1|]. eapply keeps_trans; [exact K2|]. apply publish_keeps.
    + intros i. destruct K1 as [T1 _]. destruct (E2 i) as [-> | ->]; [done|]. rewrite (told_epoch (answers tr) (pm_ns (w_pm w))) by done. done.
  - apply keeps_step; [done|apply absorb_keeps|done|done].
  - apply keeps_step; [done|apply seed_keeps|done|done].
  - apply told_step; try done; [apply told_refl|]. unfold sig_fine, peering_model_sig, on_sig. cbn. intros s' [= <-].
    apply epochs_fine. intros i f _ Ha. exfalso.
    revert Ha. unfold f, both, model_sig_family, sig_relay, sig_set_family_up, sig_on, sig_fam_of.
    destruct (pm_relay_fam (w_pm w)) as [[|] [|]], i; cbn; discriminate.
  - apply told_step; try done. apply told_refl.
  - apply net_step; try done; unfold peering_net_renew; by destruct (0 <? _).
Qed.

Lemma world_reach_ok h dht o servers auto now0 tr w :
  world_reach h dht o servers auto now0 tr w -> changes tr < 2 ^ 32 - 1 -> world_ok h now0 tr w.
Proof.
  induction 1 as [|tr w x w' _ IH Hs]; intros Hn.
  - split.
    + exists []. split; [done|]. intros i. done.
    + constructor.
    + done.
    + constructor.
    + intros i. by destruct i.
    + intros a H. by apply elem_of_nil in H.
    + intros a i H. by apply elem_of_nil in H.
    + intros i H. by destruct i.
  - eapply world_step_ok; [|done|done]. apply IH. rewrite changes_snoc in Hn. destruct (is_hmove x); lia.
Qed.

(** C14: end to end, a family is reported up only because something outside answered on the network it
    is on.  Whatever the probe threads, the DHT, the peers and the loop do, in any order and with any
    delay, in a world reached with a family's verdict UP the steps actually taken, in their order,
    include one at which an answer came back, to a probe round or a query of that family stamped with
    the network the family was on at that very step; and none of the changes of addresses taken in
    after that step took the family to another network, a change that keeps part of the address set
    being the same network.  Fewer than 2^32 - 1 changes are allowed for. *)
Theorem up_means_answered h dht o servers auto now0 tr w i :
  world_reach h dht o servers auto now0 tr w -> changes tr < 2 ^ 32 - 1 ->
  netstate_conn (pm_ns (w_pm w)) (fam_no i) = NET_CONN_UP ->
  exists tr1 v a tr2, tr = tr1 ++ (v, HAnswer a) :: tr2 /\ answered_on i (net_of v i) a /\
    forall u changed addrs now, (u, HMove changed addrs now) ∈ tr2 ->
      leaves i (fam_of (pm_ns (w_pm u)) (fam_no i)) (NetMon changed addrs now) = false.
Proof.
  intros Hr Hn Hup. apply world_reach_ok in Hr as [(es & E & _) _ _ _ _ _ _ Hu]; [|done]. apply (Hu i). clear Hu.
  unfold netstate_conn in Hup. unfold net_of, netstate_epoch. rewrite fam_of_no, E in *.
  pose proof (fam_invariant h i conn_ok now0 eq_refl (fam_step_conn_ok h i) es) as Hok.
  unfold conn_ok, conn_of, fam_at in Hok. rewrite Hup in Hok. destruct (f_has_addr _); [|done]. cbn [negb] in Hok.
  destruct (Z.eqb_spec (f_up_epoch (get2 (nst_f (netstate_run (netstate_init h now0) es)) i))
    (f_epoch (get2 (nst_f (netstate_run (netstate_init h now0) es)) i))) as [Eu|Eu]; [done|by destruct (f_routed _)].
Qed.

(** ** A run: a network arrived at, a probe round on it, its answer *)
Definition demo_env : settle_env := mk_senv (fun _ => Some [192; 0; 2; 1]) true true true.
Definition demo_cfg : peering_settle_t := mk_settle 0 false false.
Definition demo_world0 : world :=
  mk_world (peering_model_init true true None 0) (peering_net_init [cstr "stun.example:3478"] true) [].
Definition w_move (w : world) (addrs : list netmon_addr) (now : Z) : world :=
  mk_world (net_watch_taken (w_pm w) 1 addrs now) (w_net w) (w_rounds w).
Definition w_advance (w : world) (now : Z) : world :=
  let r := peering_advance (w_pm w) (w_net w) demo_cfg demo_env now in mk_world r.1.1 r.1.2 (w_rounds w).
Definition w_begin (w : world) : world :=
  let r := probe_begin (w_net w) 4 in mk_world (w_pm w) r.1 ((4, r.2) :: w_rounds w).
Definition w_hit (w : world) (epoch : Z) : world :=
  mk_world (w_pm w) (probe_hit (w_net w) epoch 4 ([203; 0; 113; 9] ++ replicate 12 0) 4000) (w_rounds w).
Definition w_end (w : world) (epoch : Z) : world :=
  mk_world (w_pm w) (probe_end (w_net w) epoch 4) (w_rounds w).

Definition demo_arrived : world := w_begin (w_advance (w_move demo_world0 [demo_addr] 1000) 1010).
Definition demo_answered : world := w_advance (w_hit demo_arrived 2) 1200.

Definition demo_steps : trace :=
  let w1 := w_move demo_world0 [demo_addr] 1000 in let w2 := w_advance w1 1010 in
  [(demo_world0, HMove 1 [demo_addr] 1000); (w1, HTurn); (w2, HTurn); (demo_arrived, HAnswer (AProbe 4 2));
   (w_hit demo_arrived 2, HTurn)].
Lemma demo_reached :
  world_reach true true None [cstr "stun.example:3478"] true 0 demo_steps demo_answered.
Proof.
  change demo_steps with ((((([] ++ [(demo_world0, HMove 1 [demo_addr] 1000)]) ++ [(w_move demo_world0 [demo_addr] 1000, HTurn)])
    ++ [(w_advance (w_move demo_world0 [demo_addr] 1000) 1010, HTurn)]) ++ [(demo_arrived, HAnswer (AProbe 4 2))])
    ++ [(w_hit demo_arrived 2, HTurn)]).
  eapply wr_step; [|exact (ws_advance _ demo_cfg demo_env 1200)].
  eapply wr_step; [|apply (ws_hit demo_arrived 4 2); vm_compute; left].
  eapply wr_step; [|apply ws_begin; [by left | vm_compute; reflexivity]].
  eapply wr_step; [|exact (ws_advance _ demo_cfg demo_env 1010)].
  eapply wr_step; [|exact (ws_move _ 1 [demo_addr] 1000)]. apply wr_init.
Qed.

Lemma up_means_answered_witness :
  netstate_conn (pm_ns (w_pm demo_answered)) 4 = NET_CONN_UP /\
  exists tr1 v a tr2, demo_steps = tr1 ++ (v, HAnswer a) :: tr2 /\ answered_on false (net_of v false) a.
Proof.
  assert (H : netstate_conn (pm_ns (w_pm demo_answered)) 4 = NET_CONN_UP) by (vm_compute; reflexivity).
  assert (Hn : changes demo_steps < 2 ^ 32 - 1) by (vm_compute; reflexivity).
  split; [exact H|].
  destruct (up_means_answered true true None [cstr "stun.example:3478"] true 0 demo_steps demo_answered false
    demo_reached Hn H) as (tr1 & v & a & tr2 & E & Ha & _).
  exists tr1, v, a, tr2. exact (conj E Ha).
Defined.

(** ** Two answers for one

    An answer of the node held is evidence twice: the signaller marks it both as
    the anchor's and as the latest to answer, and the loop counts each. *)

Lemma note_held s node i :
  node_ok node = true -> rnode (sig_fam_of s (fam_no i)) = node ->
  let s' := node_note s (sf_epoch (sig_fam_of s (fam_no i))) (fam_no i) node in
  sig_fam_of s' (fam_no i)
  = (sig_fam_of s (fam_no i)) <| anchor_seen := true |> <| ack_node := node |> <| ack_new := true |>.
Proof.
  intros Hok Hr. cbn zeta. unfold node_ok in Hok. apply andb_true_iff in Hok as [Hne Hlen].
  destruct s as [[s4 s6] a b c d e]. unfold node_note, ack_on_net, sig_on, sig_fam_of in *.
  rewrite Z.eqb_refl. assert (Hn : node <> []) by (by destruct node).
  rewrite (bool_decide_eq_false_2 (node = [])) by done. unfold bytes_eqb.
  apply Nat.leb_le in Hlen. unfold NETSTATE_SA_MAX, SA_STORAGE in *.
  destruct (Nat.ltb_spec 128 (length node)); [lia|]. cbn [orb].
  destruct i; cbn in *; rewrite Hr, bool_decide_eq_true_2 by done; cbn;
    rewrite (bool_decide_eq_false_2 (node = [])) by done; by destruct c.
Qed.

Lemma acks_family_other now pm i :
  fam_of (pm_ns (acks_family now pm (negb i))) (fam_no i) = fam_of (pm_ns pm) (fam_no i) /\
  option_map (fun s => sig_fam_of s (fam_no i)) (pm_sig (acks_family now pm (negb i)))
  = option_map (fun s => sig_fam_of s (fam_no i)) (pm_sig pm).
Proof.
  unfold acks_family. destruct (pm_sig pm) as [s|] eqn:Es; [|by rewrite Es].
  destruct s as [[s4 s6] a b c d e]. destruct (pm_ns pm) as [[f4 f6] h].
  unfold sig_take_anchor_seen, sig_take_ack. destruct i; cbn;
    match goal with |- context [if ?c then (?x, None) else ?y] => destruct c end; cbn;
    match goal with |- context [if anchor_seen ?x then _ else _] => destruct (anchor_seen x) end; done.
Qed.

Lemma confirm_acks h now f : f_anchor_acks (anchor_confirm h now f) = f_anchor_acks f.
Proof. unfold anchor_confirm, facts_moved, raise_act. by fam_cases. Qed.
Lemma answered_acks now f : f_anchor_acks (anchor_answered now f)
  = if f_anchor_acks f <? NETSTATE_ANCHOR_QUALIFY then f_anchor_acks f + 1 else f_anchor_acks f.
Proof. unfold anchor_answered. destruct (truth _); cbn; by destruct (_ <? _). Qed.

Lemma dht_ack_held h node now f :
  f_anchor f = node -> node_ok node = true ->
  f_anchor_acks (fam_on_dht_ack h (f_epoch f) node now f) = f_anchor_acks (anchor_answered now f).
Proof.
  intros Ha Hok. unfold fam_on_dht_ack. rewrite Z.eqb_refl, Hok. cbn [negb].
  set (g := if f_dht_acked _ then _ else _).
  assert (Hg : f_anchor g = node /\ f_anchor_acks g = f_anchor_acks f).
  { unfold g, sync_conn, facts_moved, raise_act. cbn. fam_cases; by rewrite <- Ha. }
  clearbody g. set (k := g <| f_anchor_next_ms := _ |>).
  assert (Hk : f_anchor k = node /\ f_anchor_acks k = f_anchor_acks f) by exact Hg.
  clearbody k. clear Hg g. destruct Hk as [Hk1 Hk2]. rewrite Hk1. unfold node_ok in Hok.
  apply andb_true_iff in Hok as [-> _]. unfold bytes_eqb. rewrite bool_decide_eq_true_2 by done. cbn [andb].
  by rewrite confirm_acks, !answered_acks, Hk2.
Qed.

Lemma acks_family_held now pm s node i :
  pm_sig pm = Some s -> node_ok node = true -> f_anchor (fam_of (pm_ns pm) (fam_no i)) = node ->
  anchor_seen (sig_fam_of s (fam_no i)) = true -> ack_new (sig_fam_of s (fam_no i)) = true ->
  ack_node (sig_fam_of s (fam_no i)) = node -> 0 <= f_anchor_acks (fam_of (pm_ns pm) (fam_no i)) <= 2 ->
  f_anchor_acks (fam_of (pm_ns (acks_family now pm i)) (fam_no i)) = f_anchor_acks (fam_of (pm_ns pm) (fam_no i)) + 2.
Proof.
  intros Hs Hok Ha H1 H2 H3 Hb. unfold acks_family. rewrite Hs. unfold sig_take_anchor_seen. rewrite H1.
  set (ns2 := netstate_set_picking _ _ _). set (s1 := sig_on s _ _).
  assert (Hs1 : ack_new (sig_fam_of s1 (fam_no i)) = true /\ ack_node (sig_fam_of s1 (fam_no i)) = node).
  { destruct s as [[s4 s6] ? ? ? ? ?]. unfold s1, sig_on, sig_fam_of in *. by destruct i. }
  destruct Hs1 as [K1 K2]. unfold sig_take_ack. rewrite K1, K2. pose proof Hok as Hok'. unfold node_ok in Hok'.
  apply andb_true_iff in Hok' as [Hne Hl%Nat.leb_le]. rewrite bool_decide_eq_false_2 by (by destruct node).
  unfold SA_STORAGE, NETSTATE_SA_MAX in *. destruct (Nat.ltb_spec 128 (length node)); [lia|]. cbn [negb orb].
  change (pm_ns (_ <| pm_ns := ?x |>)) with x. set (f := fam_of (pm_ns pm) (fam_no i)) in *.
  assert (Hf2 : exists on, fam_of ns2 (fam_no i) = fam_set_picking on (anchor_answered now f)).
  { exists (pm_is_host pm || get2 (pm_relay_fam pm) i). unfold ns2, f, fam_of, netstate_set_picking, netstate_on_anchor_seen, fam_on_anchor_seen in *.
    destruct (pm_ns pm) as [[f4 f6] h]. destruct i; cbn in *; by rewrite Ha, Hne. }
  destruct Hf2 as [on Hf2].
  assert (Hstep : fam_of (netstate_on_dht_ack ns2 (fam_no i) (netstate_epoch ns2 (fam_no i)) node now) (fam_no i)
    = fam_on_dht_ack (nst_is_host ns2) (f_epoch (fam_of ns2 (fam_no i))) node now (fam_of ns2 (fam_no i))).
  { unfold netstate_on_dht_ack, netstate_epoch, fam_of. destruct ns2 as [[f4 f6] h]. by destruct i. }
  rewrite Hstep, dht_ack_held; [|rewrite Hf2; unfold fam_set_picking, anchor_answered; fam_cases; done | done].
  assert (Hp : forall g, f_anchor_acks (fam_set_picking on g) = f_anchor_acks g)
    by (intros g; unfold fam_set_picking; destruct (eqb _ _); [done|]; by destruct on).
  rewrite Hf2, answered_acks, Hp, answered_acks. unfold NETSTATE_ANCHOR_QUALIFY.
  destruct (Z.ltb_spec (f_anchor_acks f) 4); [|lia]. destruct (Z.ltb_spec (f_anchor_acks f + 1) 4); lia.
Qed.

(** One answer of the node an end is rendezvoused at is counted as two: when
    the signaller and the model hold the same node and it answers once on the
    network of the moment, the next pass of the loop raises the count of separate
    answers by two, so that two answers and not four qualify the node. *)
Theorem answer_counted_twice pm s now node i :
  let f := fam_of (pm_ns pm) (fam_no i) in
  pm_sig pm = Some s -> node_ok node = true ->
  f_anchor f = node -> rnode (sig_fam_of s (fam_no i)) = node -> 0 <= f_anchor_acks f <= 2 ->
  let noted := on_sig pm (fun s => node_note s (sf_epoch (sig_fam_of s (fam_no i))) (fam_no i) node) in
  f_anchor_acks (fam_of (pm_ns (peering_acks noted now)) (fam_no i)) = f_anchor_acks f + 2.
Proof.
  cbn zeta. intros Hs Hok Ha Hr Hb. set (noted := on_sig pm _).
  assert (Hsig : exists s', pm_sig noted = Some s' /\ sig_fam_of s' (fam_no i)
    = (sig_fam_of s (fam_no i)) <| anchor_seen := true |> <| ack_node := node |> <| ack_new := true |>).
  { unfold noted, on_sig. cbn. rewrite Hs. eexists. split; [reflexivity|]. by apply note_held. }
  destruct Hsig as (s' & Hs' & Hfam). change (pm_ns pm) with (pm_ns noted) in *. clearbody noted.
  unfold peering_acks, both. destruct i.
  - destruct (acks_family_other now noted true) as [E1 E2]. cbn [negb] in *. rewrite Hs' in E2.
    destruct (pm_sig (acks_family now noted false)) as [s2|] eqn:Es2; [|done]. 
    change (Some (sig_fam_of s2 (fam_no true)) = Some (sig_fam_of s' (fam_no true))) in E2. apply (inj Some) in E2.
    rewrite <- E1. 
    apply (acks_family_held now _ s2 node); [done | done | by rewrite E1 | | | | by rewrite E1];
      by rewrite E2, Hfam.
  - destruct (acks_family_other now (acks_family now noted false) false) as [E1 _]. cbn [negb] in *. rewrite E1.
    apply (acks_family_held now _ s' node); try done; by rewrite Hfam.
Qed.

Definition demo_node : bytes := sa_bytes (AF_INET 6881 [198; 51; 100; 7]).
(** A host that offers a node, with a signaller pinned to it. *)
Definition demo_held : peering_model :=
  peering_seed_rendezvous
    (on_sig (peering_model_sig (peering_model_init true true None 0) (Some (sig_fresh true true)) 5)
       (sig_epochs (netstate_init true 0))) demo_env (Some (demo_node, [])) 10.

Lemma answer_counted_twice_witness :
  let pm := demo_held in
  let noted := on_sig pm (fun s => node_note s (sf_epoch (sig_fam_of s 4)) 4 demo_node) in
  f_anchor_acks (fam_of (pm_ns pm) 4) = 0 /\ f_anchor_acks (fam_of (pm_ns (peering_acks noted 20)) 4) = 2.
Proof.
  cbv zeta. split; [vm_compute; reflexivity|].
  destruct (pm_sig demo_held) as [s|] eqn:Es; [|vm_compute in Es; discriminate Es].
  etransitivity; [apply (answer_counted_twice demo_held s 20 demo_node false Es)|].
  - vm_compute. reflexivity.
  - vm_compute. reflexivity.
  - assert (E : option_map (fun s => rnode (sig_fam_of s 4)) (pm_sig demo_held) = Some demo_node) by (vm_compute; reflexivity).
    rewrite Es in E. by injection E.
  - vm_compute. split; discriminate.
  - vm_compute. reflexivity.
Defined.

(** ** A round deferred *)

(** What the next round of a family waits on. *)
Definition probe_view (f : netstate_fam) : Z * bool * bool * Z * bool :=
  (f_epoch f, f_probe_running f, f_probe_wanted f, f_probe_next_ms f, has_act (f_pend f) NSA_KICK_PROBE).

Lemma kick_bit x b : b .& NSA_KICK_PROBE = 0 -> has_act (x .| b) NSA_KICK_PROBE = has_act x NSA_KICK_PROBE.
Proof. intros H. unfold has_act. by rewrite Z.land_lor_distr_l, H, Z.lor_0_r. Qed.
Lemma raise_probe b f : b .& NSA_KICK_PROBE = 0 -> probe_view (raise_act b f) = probe_view f.
Proof. intros H. unfold probe_view, raise_act. cbn [f_pend set set_f_pend f_epoch]. cbn. by rewrite kick_bit. Qed.
Lemma facts_probe h f : probe_view (facts_moved h f) = probe_view f.
Proof. unfold facts_moved. destruct h; [|done]. by apply raise_probe. Qed.
Lemma sync_probe f : probe_view (sync_conn f) = probe_view f.
Proof. unfold sync_conn. destruct (_ =? _); [done|]. by rewrite raise_probe. Qed.

Lemma reflexive_probe len epoch addr f : probe_view (fam_on_reflexive len epoch addr f) = probe_view f.
Proof.
  unfold fam_on_reflexive, xlat_note. fam_cases; try done; rewrite ?raise_probe by done; try done.
Qed.
Lemma src_probe h epoch addr scope text now f :
  probe_view (fam_on_src h epoch addr scope text now f) = probe_view f.
Proof.
  unfold fam_on_src. destruct (negb _); [done|]. destruct (_ || _).
  - set (g := _ <| f_src_next_ms := _ |>). change (probe_view f) with (probe_view g). clearbody g.
    destruct (f_routed g); [|done]. by rewrite facts_probe, sync_probe.
  - set (g := if _ || _ then _ else _). assert (Hg : probe_view g = probe_view f) by (unfold g; by destruct (_ || _)).
    clearbody g. rewrite <- Hg. destruct (f_routed g); [done|]. by rewrite facts_probe, sync_probe.
Qed.
Lemma drop_probe h f : probe_view (cand_drop h f) = probe_view f.
Proof. unfold cand_drop. by rewrite facts_probe, raise_probe. Qed.
Lemma tick_probe_view h now f : now < f_probe_next_ms f -> probe_view (fam_tick h now f) = probe_view f.
Proof.
  intros H. unfold fam_tick.
  assert (H1 : probe_view (tick_src now f) = probe_view f).
  { unfold tick_src. destruct (_ <=? _); [|done]. transitivity (probe_view (raise_act NSA_SAMPLE_SRC f)); [done|]. by apply raise_probe. }
  assert (H2 : tick_probe now (tick_src now f) = tick_src now f).
  { unfold tick_probe. injection H1 as _ _ _ E _. rewrite E.
    destruct (Z.leb_spec (f_probe_next_ms f) now); [lia|]. by rewrite andb_false_r. }
  rewrite H2, <- H1. generalize (tick_src now f). clear. intros g.
  assert (Hq : forall g, probe_view (tick_quiet h now g) = probe_view g).
  { intros k. unfold tick_quiet. fam_cases; try done; rewrite ?drop_probe, ?raise_probe by done; done. }
  assert (Hc : forall g, probe_view (anchor_confirm h now g) = probe_view g).
  { intros k. unfold anchor_confirm. fam_cases; try done. by rewrite facts_probe, raise_probe. }
  assert (Ht : forall g, probe_view (tick_trial h now g) = probe_view g).
  { intros k. unfold tick_trial. fam_cases; [apply drop_probe|done]. }
  by rewrite Ht, Hc, Hq.
Qed.

(** The other family's turn in [apply] does not touch this one. *)
Lemma on_fam_probe ns i j g :
  probe_view (g (nst_is_host ns) (get2 (nst_f ns) i)) = probe_view (get2 (nst_f ns) i) \/ j <> i ->
  probe_view (get2 (nst_f (on_fam ns j g)) i) = probe_view (get2 (nst_f ns) i).
Proof. destruct ns as [[f4 f6] h]. destruct i, j; cbn; intros [H|H]; done. Qed.

Lemma kick_other net env start6 i epoch :
  probe_of (peering_net_kick net (fam_no (negb i)) epoch start6 env).1 (fam_no i) = probe_of net (fam_no i).
Proof.
  unfold peering_net_kick.
  assert (H : forall m g, probe_of (probe_on m (fam_no (negb i)) g) (fam_no i) = probe_of m (fam_no i)).
  { intros m g. unfold probe_of, probe_on. destruct m, i; done. }
  destruct (_ || _); [apply H|]. destruct (pb_running _); cbn [fst]; [by rewrite !H|]. destruct (negb env); cbn [fst]; by rewrite !H.
Qed.

Lemma apply_family_probe cfg env a now pm net calls i j :
  (j = i -> has_act (get2 (na_f a) i) NSA_KICK_PROBE = false) ->
  let r := apply_family cfg env a now (pm, net, calls) j in
  probe_view (fam_of (pm_ns r.1.1) (fam_no i)) = probe_view (fam_of (pm_ns pm) (fam_no i)) /\
  probe_of r.1.2 (fam_no i) = probe_of net (fam_no i).
Proof.
  intros Hk. cbn zeta. unfold apply_family.
  assert (Hs : forall p e act, pm_ns (apply_sig p e act (fam_no j)) = pm_ns p).
  { intros p e act. unfold apply_sig. destruct (has_act act NSA_EMIT_CONN), (has_act act NSA_RDV_PIN),
      (has_act act NSA_RDV_RELOCATE), (has_act act NSA_RDV_DROP); cbn;
      repeat match goal with |- context [match netstate_anchor ?n ?f with _ => _ end] => destruct (netstate_anchor n f) as [[? ?]|] end; done. }
  assert (Hi : forall ns, fam_of ns (fam_no i) = get2 (nst_f ns) i) by (intros ns; by destruct i).
  set (p1 := if has_act _ NSA_SAMPLE_SRC then _ else pm).
  assert (H1 : probe_view (fam_of (pm_ns p1) (fam_no i)) = probe_view (fam_of (pm_ns pm) (fam_no i))).
  { unfold p1, sample_src. destruct (has_act (get2 (na_f a) j) NSA_SAMPLE_SRC); [|done]. rewrite !Hi.
    destruct (se_src env _); apply on_fam_probe; left; apply src_probe. }
  clearbody p1. destruct (has_act (get2 (na_f a) j) NSA_KICK_PROBE) eqn:Ek.
  2:{ cbn [fst snd]. by rewrite Hs. }
  assert (Hj : j = negb i) by (destruct (eqb_spec j i) as [->|]; [by rewrite Hk in Ek | by destruct i, j]).
  unfold kick_family. pose proof (kick_other net (se_spawned env) (st_start6 cfg) i (get2 (na_epoch a) j)) as Hn.
  rewrite <- Hj in Hn. destruct (peering_net_kick _ _ _ _ _) as [n2 kick]. cbn [fst snd] in *. rewrite Hs. split; [|done].
  rewrite <- H1, !Hi. destruct (0 <? kick).
  - apply on_fam_probe. right. rewrite Hj. by destruct i.
  - destruct (kick <? 0); [|done]. apply on_fam_probe. right. rewrite Hj. by destruct i.
Qed.

(** A probe round deferred because the one before it was still winding up does
    not start when that one ends.  Whenever the round of the network left behind
    (stamped [e0], the family now on another epoch) reports its end, the loop
    joins it, drops the report, and starts nothing: the family waits out the
    whole gap to the time the model had set, with no round running. *)
Theorem deferred_round_waits pm net cfg env now i e0 :
  let f := fam_of (pm_ns pm) (fam_no i) in
  waiting (pn_facts net) = [emit NSF_PROBE_DONE i e0] -> e0 <> f_epoch f ->
  f_probe_wanted f = true -> now < f_probe_next_ms f -> has_act (f_pend f) NSA_KICK_PROBE = false ->
  let r := peering_settle pm net cfg env now in
  let f' := fam_of (pm_ns r.1.1) (fam_no i) in
  pb_running (probe_of r.1.2 (fam_no i)) = false /\
  f_probe_wanted f' = true /\ f_probe_next_ms f' = f_probe_next_ms f.
Proof.
  cbn zeta. intros Hw He Hwant Hnow Hpend.
  assert (Hi : forall ns, fam_of ns (fam_no i) = get2 (nst_f ns) i) by (intros ns; by destruct i).
  set (v := probe_view (fam_of (pm_ns pm) (fam_no i))).
  unfold peering_settle, peering_facts_take. pose proof (take_waiting (pn_facts net) NSFACTS_OUT) as Ht.
  destruct (nsfacts_take (pn_facts net) NSFACTS_OUT) as [q out]. rewrite Hw in Ht. destruct Ht as [-> _].
  cbn [take fold_left NSFACTS_OUT NSFACTS_MAX Nat.add]. unfold settle_fact. cbn [nf_kind emit]. rewrite Z.eqb_refl.
  set (p1 := pm <| pm_ns := _ |>).
  assert (H1 : fam_of (pm_ns p1) (fam_no i) = fam_of (pm_ns pm) (fam_no i)).
  { unfold p1, peering_facts_feed. cbn. rewrite !Hi in *. unfold netstate_on_probe_done, on_fam.
    destruct (pm_ns pm) as [[f4 f6] h]. destruct i; cbn in *; unfold fam_on_probe_done;
      rewrite (proj2 (Z.eqb_neq _ _) He); done. }
  assert (Hn1 : pb_running (probe_of (peering_net_reap (net <| pn_facts := q |>) (fam_no i)) (fam_no i)) = false).
  { unfold peering_net_reap. destruct (negb _) eqn:E; [by apply negb_true_iff|]. unfold probe_of, probe_on.
    destruct (pn_probes net). by destruct i. }
  change (nf_family (emit NSF_PROBE_DONE i e0)) with (fam_no i). set (n1 := peering_net_reap _ _) in *. clearbody n1 p1.
  assert (H2 : probe_view (fam_of (pm_ns (pool_tell p1 n1).1) (fam_no i)) = v /\
    probe_of (pool_tell p1 n1).2 (fam_no i) = probe_of n1 (fam_no i)).
  { unfold pool_tell. generalize (netstate_epoch (pm_ns p1) 4). intros ep.
    destruct (peering_pool_copy _ _) as [|a l]; [cbn [fst snd]; split; [unfold v; by rewrite H1|done]|]. split; [|done]. unfold v. rewrite <- H1. cbn [fst].
    generalize (a :: l). intros pool. change (pm_ns (p1 <| pm_ns := ?x |>)) with x. rewrite !Hi. generalize (pm_ns p1).
    induction pool as [|b pool IH]; intros ns; [done|]. cbn [fold_left]. rewrite IH. apply on_fam_probe. left. apply reflexive_probe. }
  destruct (pool_tell p1 n1) as [p2 n2]. cbn [fst snd] in H2. destruct H2 as [H2 Hn2].
  set (p3 := p2 <| pm_ns := netstate_tick (pm_ns p2) now |>).
  assert (H3 : probe_view (fam_of (pm_ns p3) (fam_no i)) = v).
  { rewrite <- H2. unfold p3. change (pm_ns (p2 <| pm_ns := ?x |>)) with x. rewrite !Hi in *.
    assert (Hlt : now < f_probe_next_ms (get2 (nst_f (pm_ns p2)) i)).
    { unfold v, probe_view in H2. injection H2 as _ _ _ E _. rewrite E, ?Hi. done. }
    unfold netstate_tick. destruct (pm_ns p2) as [[f4 f6] h]. destruct i; cbn in *; by apply tick_probe_view. }
  clearbody p3. destruct (netstate_take_actions (pm_ns p3)) as [[ns a] any] eqn:Ea.
  assert (H4 : probe_view (fam_of ns (fam_no i)) = v /\ has_act (get2 (na_f a) i) NSA_KICK_PROBE = false).
  { unfold v, probe_view in *. rewrite Hpend in *. injection H3 as E1 E2 E3 E4 E5. rewrite Hi in *.
    unfold netstate_take_actions in Ea. destruct (pm_ns p3) as [[f4 f6] h]. injection Ea as <- <- <-.
    destruct i; cbn in *; (split; [by rewrite E1, E2, E3, E4|done]). }
  destruct H4 as [H4 Hact]. set (p4 := p3 <| pm_ns := ns |>). change ns with (pm_ns p4) in H4. clearbody p4.
  assert (Hend : forall r : peering_model * peering_net * list obs_call,
    probe_view (fam_of (pm_ns r.1.1) (fam_no i)) = v -> probe_of r.1.2 (fam_no i) = probe_of n2 (fam_no i) ->
    pb_running (probe_of r.1.2 (fam_no i)) = false /\ f_probe_wanted (fam_of (pm_ns r.1.1) (fam_no i)) = true /\
    f_probe_next_ms (fam_of (pm_ns r.1.1) (fam_no i)) = f_probe_next_ms (fam_of (pm_ns pm) (fam_no i))).
  { intros r Hv Hp. rewrite Hp, Hn2. unfold v, probe_view in Hv. injection Hv as _ _ E3 E4 _. split; [done|]. by rewrite E3, E4. }
  destruct any; [|by apply (Hend (p4, n2, []))]. apply Hend; unfold apply, both.
  all: destruct (apply_family_probe cfg env a now p4 n2 [] i false ltac:(done)) as [A1 A2];
    destruct (apply_family cfg env a now (p4, n2, []) false) as [[p5 n5] c5]; cbn [fst snd] in *;
    destruct (apply_family_probe cfg env a now p5 n5 c5 i true ltac:(done)) as [B1 B2]; congruence.
Qed.

(** A move while the first round is still out, and that round's end. *)
Definition demo_addr2 : netmon_addr := mk_nmaddr 4 ([198; 51; 100; 1] ++ replicate 12 0) 4.
Definition demo_moved : world := w_end (w_advance (w_move demo_arrived [demo_addr2] 1500) 1510) 2.

Lemma deferred_round_waits_witness :
  let pm := w_pm demo_moved in
  let r := peering_settle pm (w_net demo_moved) demo_cfg demo_env 1600 in
  f_epoch (fam_of (pm_ns pm) 4) = 3 /\ pb_running (probe_of (w_net demo_moved) 4) = true /\
  pb_running (probe_of r.1.2 4) = false /\ f_probe_next_ms (fam_of (pm_ns r.1.1) 4) = 5510.
Proof.
  cbv zeta. split; [vm_compute; reflexivity|]. split; [vm_compute; reflexivity|].
  destruct (deferred_round_waits (w_pm demo_moved) (w_net demo_moved) demo_cfg demo_env 1600 false 2) as (H1 & H2 & H3);
    [vm_compute; reflexivity | vm_compute; discriminate | vm_compute; reflexivity | vm_compute; reflexivity
    | vm_compute; reflexivity |].
  split; [exact H1|]. etransitivity; [exact H3|]. vm_compute. reflexivity.
Defined.
