(* ===== verification/FwdSpec.v ===== *)
(** src/src/fwdspec.c: the -L and -R forwarding specifications,
    [bind_address:]port:host:hostport, with IPv6 literals in square brackets. *)
From S2P Require Import Prelude Bencode.

(** ** [strtol(s, &end, 10)]: the value, clamped to a 64-bit [long], and [end] *)
Definition isspace (c : Z) : bool := (c =? 32) || ((9 <=? c) && (c <=? 13)).
Definition isdigit (c : Z) : bool := (48 <=? c) && (c <=? 57).

Fixpoint skip_space (s : bytes) : bytes :=
  match s with
  | c :: rest => if isspace c then skip_space rest else s
  | [] => []
  end.
Fixpoint read_digits (s : bytes) (acc : Z) : Z * bytes :=
  match s with
  | c :: rest => if isdigit c then read_digits rest (acc * 10 + (c - 48)) else (acc, s)
  | [] => (acc, [])
  end.
Definition strtol (s : bytes) : Z * bytes :=
  let t := skip_space s in
  let neg := match t with c :: _ => c =? 45 | [] => false end in
  let t := match t with c :: rest => if (c =? 45) || (c =? 43) then rest else t | [] => t end in
  match t with
  | c :: _ =>
      if isdigit c then
        let '(v, rest) := read_digits t 0 in
        (if neg then Z.max (- 2 ^ 63) (- v) else Z.min (2 ^ 63 - 1) v, rest)
      else (0, s)
  | [] => (0, s)
  end.

(** ** The parser *)
Record fwdspec := mk_fwd { fw_bind : bytes; fw_bind_port : Z; fw_host : bytes; fw_port : Z }.

Definition TOK_LEN : nat := 256.
Definition LB : Z := 91.              (* [ *)
Definition RB : Z := 93.              (* ] *)
Definition COLON : Z := 58.

(** [toks] are the tokens closed, [cur] the one being written; the end of the
    list is the terminating NUL. *)
Fixpoint split_loop (maxtok tlen : nat) (s : bytes) (toks : list bytes) (cur : bytes) (depth : bool) :
  option (list bytes) :=
  match s with
  | [] => if (maxtok <=? length toks)%nat then None else if depth then None else Some (toks ++ [cur])
  | c :: rest =>
      if (c =? LB) && negb depth && (length cur =? 0)%nat then split_loop maxtok tlen rest toks cur true
      else if (c =? RB) && depth then split_loop maxtok tlen rest toks cur false
      else if (c =? COLON) && negb depth then
        if (maxtok <=? length toks)%nat then None
        else split_loop maxtok tlen rest (toks ++ [cur]) [] depth
      else if (maxtok <=? length toks)%nat || (tlen <=? length cur + 1)%nat then None
      else split_loop maxtok tlen rest toks (cur ++ [c]) depth
  end.
(** [None] for a NULL argument too. *)
Definition split (arg : option bytes) (maxtok tlen : nat) : option (list bytes) :=
  match arg with None => None | Some s => split_loop maxtok tlen s [] [] false end.

Definition parse_port (s : bytes) (allow_zero : bool) : option Z :=
  if (length s =? 0)%nat then None
  else
    let '(v, rest) := strtol s in
    if negb (length rest =? 0)%nat || (v <? 0) || (65535 <? v) || ((v =? 0) && negb allow_zero)
    then None else Some (u16 v).

Definition fwdspec_parse (arg : option bytes) : option fwdspec :=
  let rest bind t0 t1 t2 :=
    match parse_port t0 true with
    | None => None
    | Some bport =>
        if (length t1 =? 0)%nat || (256 <=? length t1)%nat then None
        else match parse_port t2 false with
             | None => None
             | Some port => Some (mk_fwd bind bport t1 port)
             end
    end in
  match split arg 4 TOK_LEN with
  | Some [t0; t1; t2] => rest [] t0 t1 t2
  | Some [b; t0; t1; t2] => if (64 <=? length b)%nat then None else rest b t0 t1 t2
  | _ => None
  end.

(** ** What a specification looks like *)
Definition plain_char (c : Z) : Prop := c <> LB /\ c <> RB.
Definition brk (t : bytes) : bytes := LB :: t ++ [RB].
Definition fwd_text (sp : fwdspec) : bytes :=
  (match fw_bind sp with [] => [] | b => brk b ++ [COLON] end) ++
  dec (fw_bind_port sp) ++ [COLON] ++ brk (fw_host sp) ++ [COLON] ++ dec (fw_port sp).

Record fwd_ok (sp : fwdspec) : Prop := {
  fo_bind : Forall plain_char (fw_bind sp) /\ (length (fw_bind sp) < 64)%nat;
  fo_bport : is_u16 (fw_bind_port sp);
  fo_host : Forall plain_char (fw_host sp) /\ (0 < length (fw_host sp) < 256)%nat;
  fo_port : is_u16 (fw_port sp) /\ fw_port sp <> 0
}.

(** ** Lemmas *)
Lemma split_plain maxtok tlen depth rest t : forall toks cur,
  Forall (fun c => c <> LB /\ c <> RB /\ (c = COLON -> depth = true)) t ->
  (length toks < maxtok)%nat -> (length cur + length t < tlen)%nat ->
  split_loop maxtok tlen (t ++ rest) toks cur depth = split_loop maxtok tlen rest toks (cur ++ t) depth.
Proof.
  induction t as [|c t IH]; intros toks cur Hp Hn Hl; [by rewrite app_nil_r|].
  apply Forall_cons in Hp as [(H1 & H2 & H3) Hp]. cbn [length] in Hl. cbn [app split_loop].
  rewrite (proj2 (Z.eqb_neq c LB) H1), (proj2 (Z.eqb_neq c RB) H2). cbn [andb].
  assert (E : (c =? COLON) && negb depth = false).
  { destruct (Z.eqb_spec c COLON); [|done]. by rewrite H3. }
  rewrite E. destruct (Nat.leb_spec maxtok (length toks)); [lia|].
  destruct (Nat.leb_spec tlen (length cur + 1)); [lia|]. cbn [orb].
  rewrite IH; [|done|done|rewrite length_app; cbn; lia]. by rewrite <- app_assoc.
Qed.

(** A bracketed token at the start of a field, whatever colons it has. *)
Lemma split_brk maxtok tlen rest t toks :
  Forall plain_char t -> (length toks < maxtok)%nat -> (length t < tlen)%nat ->
  split_loop maxtok tlen (brk t ++ rest) toks [] false = split_loop maxtok tlen rest toks t false.
Proof.
  intros Hp Hn Hl. unfold brk. cbn [app split_loop]. rewrite <- app_assoc, Z.eqb_refl. cbn [andb negb Nat.eqb length].
  rewrite split_plain; [|eapply Forall_impl; [exact Hp|]; intros c [A B]; done|done|cbn; lia].
  cbn [app split_loop]. rewrite Z.eqb_refl. done.
Qed.

Lemma split_colon maxtok tlen rest toks cur :
  (length toks < maxtok)%nat ->
  split_loop maxtok tlen ([COLON] ++ rest) toks cur false = split_loop maxtok tlen rest (toks ++ [cur]) [] false.
Proof. intros H. cbn. by destruct (Nat.leb_spec maxtok (length toks)); [lia|]. Qed.

Lemma dec_len n : (length (dec n) <= 20)%nat.
Proof.
  unfold dec. generalize 20%nat as f. intros f. revert n. induction f as [|f IH]; intros n; [done|].
  cbn [dec_digits]. destruct (n <? 10); [cbn; lia|]. rewrite length_app. specialize (IH (n / 10)). cbn. lia.
Qed.

Lemma dec_digits_of n : 0 <= n <= INT64_MAX -> Forall (fun c => c <> LB /\ c <> RB /\ (c = COLON -> false = true)) (dec n).
Proof.
  intros Hn. destruct (dec_spec n Hn) as (Hd & _). eapply Forall_impl; [exact Hd|]. unfold LB, RB, COLON.
  intros c Hc. cbn in Hc. split; [lia|]. split; [lia|]. lia.
Qed.

Lemma read_digits_all ds acc : digits ds -> read_digits ds acc = (fold_left (fun v c => v * 10 + (c - 48)) ds acc, []).
Proof.
  intros H. revert acc. induction H as [|c l Hc _ IH]; intros acc; [done|]. cbn [read_digits fold_left].
  unfold isdigit. destruct (Z.leb_spec 48 c), (Z.leb_spec c 57); try lia. cbn [andb]. apply IH.
Qed.

(** A number as it is written is read back, with nothing left over. *)
Lemma strtol_dec n : 0 <= n <= INT64_MAX -> strtol (dec n) = (n, []).
Proof.
  intros Hn. destruct (dec_spec n Hn) as (Hd & Hne & Hv & _). unfold strtol.
  destruct (dec n) as [|c l] eqn:E; [done|]. pose proof Hd as Hd'. apply Forall_cons in Hd' as [Hc _].
  cbn [skip_space]. assert (Hs : isspace c = false) by (unfold isspace; bool_cases; lia). rewrite Hs.
  destruct (Z.eqb_spec c 45); [lia|]. destruct (Z.eqb_spec c 43); [lia|]. cbn [orb].
  assert (Hi : isdigit c = true) by (unfold isdigit; bool_cases; lia). rewrite Hi.
  rewrite (read_digits_all (c :: l) 0 Hd). change (fold_left _ (c :: l) 0) with (dval (c :: l)). rewrite Hv.
  unfold INT64_MAX in Hn. f_equal. lia.
Qed.

Lemma parse_port_dec n zero : is_u16 n -> (n = 0 -> zero = true) -> parse_port (dec n) zero = Some n.
Proof.
  intros Hn Hz. assert (Hi : 0 <= n <= INT64_MAX) by (unfold is_u16, INT64_MAX in *; lia). unfold parse_port.
  destruct (dec_spec n Hi) as (_ & Hne & _). destruct (dec n) as [|c l] eqn:E; [done|]. cbn [length Nat.eqb].
  rewrite <- E, strtol_dec by done. cbn [length Nat.eqb negb orb]. unfold is_u16 in Hn.
  destruct (Z.ltb_spec n 0); [lia|]. destruct (Z.ltb_spec 65535 n); [lia|]. cbn [orb].
  destruct (Z.eqb_spec n 0); [rewrite Hz by done | cbn [andb]]; cbn; by rewrite u16_id.
Qed.

(** Forwarding specifications survive being written and read: any bind
    address and host without brackets that fit their fields, colons included,
    with any ports, the last one not zero, is parsed from its bracketed text as
    exactly itself, with the bind address left out when it is empty. *)
Theorem fwdspec_roundtrip sp : fwd_ok sp -> fwdspec_parse (Some (fwd_text sp)) = Some sp.
Proof.
  intros [[B1 B2] P1 [H1 H2] [P2 P3]]. destruct sp as [bind bport host port]. cbn [fw_bind fw_bind_port fw_host fw_port] in *.
  assert (I1 : 0 <= bport <= INT64_MAX) by (unfold is_u16, INT64_MAX in *; lia).
  assert (I2 : 0 <= port <= INT64_MAX) by (unfold is_u16, INT64_MAX in *; lia).
  pose proof (dec_len bport) as L1. pose proof (dec_len port) as L2.
  assert (Htail : forall toks, (length toks <= 1)%nat ->
    split_loop 4 TOK_LEN (dec bport ++ [COLON] ++ brk host ++ [COLON] ++ dec port) toks [] false
    = Some (toks ++ [dec bport; host; dec port])).
  { intros toks Ht. rewrite split_plain; [|by apply dec_digits_of | lia | unfold TOK_LEN; cbn [length]; lia].
    rewrite split_colon by lia. rewrite split_brk; [|done | rewrite length_app; cbn [length]; lia | unfold TOK_LEN; lia].
    rewrite split_colon by (rewrite length_app; cbn; lia). rewrite <- (app_nil_r (dec port)) at 1.
    rewrite split_plain; [|by apply dec_digits_of | rewrite !length_app; cbn [length]; lia | unfold TOK_LEN; cbn [length]; lia].
    cbn [split_loop]. rewrite app_nil_l. destruct (Nat.leb_spec 4 (length ((toks ++ [dec bport]) ++ [host])));
      [rewrite !length_app in *; cbn in *; lia|]. by rewrite <- !app_assoc. }
  unfold fwdspec_parse, fwd_text, split. cbn [fw_bind fw_bind_port fw_host fw_port].
  destruct bind as [|b bs].
  - rewrite app_nil_l, (Htail []) by (cbn; lia). cbn [app].
    rewrite parse_port_dec, parse_port_dec by (done || lia).
    destruct (Nat.eqb_spec (length host) 0); [lia|]. destruct (Nat.leb_spec 256 (length host)); [lia|]. done.
  - rewrite <- app_assoc, split_brk by (done || (unfold TOK_LEN; cbn in *; lia)). rewrite split_colon by (cbn; lia).
    rewrite (Htail ([] ++ [b :: bs])) by (cbn; lia). cbn [app].
    destruct (Nat.leb_spec 64 (length (b :: bs))); [lia|]. rewrite parse_port_dec, parse_port_dec by (done || lia).
    destruct (Nat.eqb_spec (length host) 0); [lia|]. destruct (Nat.leb_spec 256 (length host)); [lia|]. done.
Qed.

Lemma fwdspec_roundtrip_witness :
  fwdspec_parse (Some (fwd_text (mk_fwd (cstr "::1") 8080 (cstr "2001:db8::2") 22)))
  = Some (mk_fwd (cstr "::1") 8080 (cstr "2001:db8::2") 22).
Proof.
  apply fwdspec_roundtrip. constructor; cbn [fw_bind fw_bind_port fw_host fw_port].
  - split; [|vm_compute; lia]. cbn. unfold plain_char, LB, RB. forall_list; lia.
  - unfold is_u16. lia.
  - split; [|vm_compute; lia]. cbn. unfold plain_char, LB, RB. forall_list; lia.
  - unfold is_u16. lia.
Defined.

(** What the port reader lets through beside decimal digits, and what stands after
    a closing bracket. *)
Lemma fwdspec_lenient :
  fwdspec_parse (Some (cstr " +80:h:443")) = Some (mk_fwd [] 80 (cstr "h") 443) /\
  fwdspec_parse (Some (cstr "-0:h:443")) = Some (mk_fwd [] 0 (cstr "h") 443) /\
  fwdspec_parse (Some (cstr "80:[::1]x:443")) = Some (mk_fwd [] 80 (cstr "::1x") 443).
Proof. vm_compute. done. Qed.
