(* ===== verification/Scan.v ===== *)
(** The parts of the C library's [sscanf] and string functions the candidate code
    uses: conversions skip white space, a string is read up to its width, and a
    number is what [strtol] or [strtoul] makes of its text, cut to the width of
    the variable. *)
From S2P Require Import Prelude Bencode FwdSpec.

(** A conversion: the value and what is left, or a mismatch. *)
Definition scanner (A : Type) : Type := bytes -> option (A * bytes).

Fixpoint take_word (n : nat) (s : bytes) : bytes * bytes :=
  match n, s with
  | S m, c :: rest => if isspace c then ([], s) else let '(w, r) := take_word m rest in (c :: w, r)
  | _, _ => ([], s)
  end.
(** [%Ns] *)
Definition scan_s (n : nat) : scanner bytes := fun s =>
  match take_word n (skip_space s) with
  | ([], _) => None
  | (w, r) => Some (w, r)
  end.

(** [%s] *)
Definition scan_str : scanner bytes := fun s => scan_s (length s) s.

(** The sign and the digits of a number, white space skipped. *)
Definition scan_num (s : bytes) : option (bool * Z * bytes) :=
  let t := skip_space s in
  let neg := match t with c :: _ => c =? 45 | [] => false end in
  let t := match t with c :: rest => if (c =? 45) || (c =? 43) then rest else t | [] => t end in
  match t with
  | c :: _ => if isdigit c then let '(v, r) := read_digits t 0 in Some (neg, v, r) else None
  | [] => None
  end.
(** [%d] into an [int] *)
Definition scan_d : scanner Z := fun s =>
  match scan_num s with
  | Some (neg, v, r) => Some (i32 (if neg then Z.max (- 2 ^ 63) (- v) else Z.min (2 ^ 63 - 1) v), r)
  | None => None
  end.
(** [%u] into an [unsigned] *)
Definition scan_u : scanner Z := fun s =>
  match scan_num s with
  | Some (neg, v, r) => Some (u32 (if 2 ^ 64 <=? v then 2 ^ 64 - 1 else if neg then - v else v), r)
  | None => None
  end.
(** White space and then the text [w]. *)
Definition scan_lit (w : bytes) : scanner unit := fun s =>
  let t := skip_space s in
  if bytes_eqb (take (length w) t) w then Some (tt, drop (length w) t) else None.

Notation "'scan!' x <- m ; k" := (fun s0 => match m s0 with Some (x, s1) => k s1 | None => None end)
  (at level 100, x pattern, m at level 90, k at level 100, right associativity).
Definition scan_end {A} (a : A) : scanner A := fun s => Some (a, s).

(** The offset of the first occurrence of [w]. *)
Fixpoint find_off (w s : bytes) : option nat :=
  if bytes_eqb (take (length w) s) w then Some 0%nat
  else match s with [] => None | _ :: rest => option_map S (find_off w rest) end.

Definition has_prefix (w s : bytes) : bool := bytes_eqb (take (length w) s) w.

(** ** Text by lines *)

(** What is left of the text at the start of each of its lines. *)
Fixpoint line_heads (s : bytes) (start : bool) : list bytes :=
  match s with
  | [] => []
  | c :: rest => (if start then [s] else []) ++ line_heads rest (c =? 10)
  end.
(** The line at the start of a text, its newline included. *)
Fixpoint line_of (s : bytes) : bytes :=
  match s with
  | [] => []
  | c :: rest => if c =? 10 then [c] else c :: line_of rest
  end.
Definition lines (s : bytes) : list bytes := map line_of (line_heads s true).

(** ** Lemmas *)
Lemma lines_concat_aux s start : concat (map line_of (line_heads s start)) = if start then s else
  drop (length (line_of s)) s.
Proof.
  revert start. induction s as [|c s IH]; intros start; [by destruct start|]. cbn [line_heads line_of].
  destruct start; cbn [app map concat line_of].
  - destruct (c =? 10) eqn:E; rewrite IH; cbn; [done|]. f_equal.
    clear. induction s as [|d s IH]; [done|]. cbn. destruct (d =? 10); [done|]. cbn. by f_equal.
  - destruct (c =? 10) eqn:E; rewrite IH; cbn; done.
Qed.
(** The lines are the text. *)
Lemma lines_concat s : concat (lines s) = s.
Proof. apply (lines_concat_aux s true). Qed.
