(* ===== verification/CandPolicy.v ===== *)
(** src/src/candpolicy.c: which gathered addresses are worth giving to a peer, and
    what is read of an SDP description line by line. *)
From S2P Require Import Prelude Net Bencode TermFilter FwdSpec Scan NsFacts Token Netstate AddrText PathEp.

Record cand_policy := mk_policy {
  allow_private_v4 : bool; allow_ula : bool; allow_overlay : bool; allow_eui64 : bool; allow_linklocal : bool
}.
Definition cand_policy_default : cand_policy := mk_policy true false false false false.

Definition v6_keep (b : bytes) (p : cand_policy) : bool :=
  let b0 := byte_at b 0 in
  if bytes_eqb b (replicate 15 0 ++ [1]) then false
  else if (b0 =? 0xfe) && (byte_at b 1 .& 0xc0 =? 0x80) then allow_linklocal p
  else if b0 .& 0xfe =? 0xfc then allow_ula p
  else if b0 .& 0xfe =? 0x02 then allow_overlay p
  else if b0 .& 0xe0 =? 0x20 then
    negb ((byte_at b 11 =? 0xff) && (byte_at b 12 =? 0xfe) && negb (allow_eui64 p))
  else false.

Definition v4_keep (b : bytes) (p : cand_policy) : bool :=
  let b0 := byte_at b 0 in
  let b1 := byte_at b 1 in
  if b0 =? 127 then false
  else if (b0 =? 169) && (b1 =? 254) then allow_linklocal p
  else if b0 =? 10 then allow_private_v4 p
  else if (b0 =? 172) && (16 <=? b1) && (b1 <=? 31) then allow_private_v4 p
  else if (b0 =? 192) && (b1 =? 168) then allow_private_v4 p
  else true.

(** The verdict and [*family_out]. *)
Definition cand_addr_keep (addr : bytes) (family_filter : Z) (p : cand_policy) : bool * Z :=
  let verdict fam keep := ((if truth family_filter && negb (fam =? family_filter) then false else keep), fam) in
  match inet_pton6 addr with
  | Some b => verdict 6 (v6_keep b p)
  | None => match inet_pton4 addr with
            | Some b => verdict 4 (v4_keep b p)
            | None => (false, 0)
            end
  end.

Definition CANDIDATE : bytes := cstr "candidate:".

(** The characters up to a space or the end of the line. *)
Fixpoint take_token (s : bytes) : bytes :=
  match s with
  | [] => []
  | c :: rest => if (c =? 32) || (c =? 13) || (c =? 10) then [] else c :: take_token rest
  end.
(** What follows the [n]th space, within the line. *)
Fixpoint after_spaces (n : nat) (s : bytes) : option bytes :=
  match s with
  | [] => None
  | c :: rest =>
      if (c =? 13) || (c =? 10) then None
      else if c =? 32 then match n with
                           | S (S m) => after_spaces (S m) rest
                           | _ => Some rest
                           end
      else after_spaces n rest
  end.
Definition line_addr (line : bytes) (buflen : nat) : option bytes :=
  match find_off CANDIDATE line with
  | None => None
  | Some k =>
      match after_spaces 4 (drop (k + 10) line) with
      | None => None
      | Some start =>
          let t := take_token start in
          if (buflen - 1 <? length t)%nat || (length t =? 0)%nat then None else Some t
      end
  end.

(** An address is that of an interface. *)
Definition local_is (b : bytes) (l : netmon_addr) : bool :=
  (nm_addrlen l =? length b)%nat && bytes_eqb (take (length b) (nm_addr l)) b.
Definition cand_addr_is_local (addr : bytes) (local : list netmon_addr) : bool :=
  match inet_pton6 addr with
  | Some b => existsb (local_is b) local
  | None => match inet_pton4 addr with Some b => existsb (local_is b) local | None => false end
  end.

(** Whether a line passes: every line that is not a candidate does. *)
Definition line_keep (family_filter : Z) (p : cand_policy) (line : bytes) : bool :=
  match find_off CANDIDATE line with
  | None => true
  | Some _ => match line_addr line 64 with
              | None => false
              | Some addr => (cand_addr_keep addr family_filter p).1
              end
  end.
Definition filter_line (family_filter : Z) (p : cand_policy) (outlen : nat) (out line : bytes) : bytes :=
  if line_keep family_filter p line && (length out + length line <? outlen)%nat then out ++ line else out.
Definition cand_sdp_filter (s : bytes) (family_filter : Z) (p : cand_policy) (outlen : nat) : bytes :=
  fold_left (filter_line family_filter p outlen) (lines s) [].

(** ** Fields of a candidate line

    The scan starts in the line and goes on to the end of the text: a field that
    is missing is looked for on the lines that follow. *)
Definition scan_fan : scanner (Z * bytes * Z * bytes) :=
  scan! _ <- scan_lit CANDIDATE; scan! _ <- scan_str; scan! _ <- scan_d; scan! _ <- scan_str;
  scan! pr <- scan_u; scan! addr <- scan_s 63; scan! pt <- scan_d; scan! _ <- scan_lit (cstr "typ");
  scan! typ <- scan_s 15; scan_end (pr, addr, pt, typ).
Definition scan_reach : scanner (bytes * bytes) :=
  scan! _ <- scan_lit CANDIDATE; scan! _ <- scan_str; scan! _ <- scan_d; scan! _ <- scan_str;
  scan! _ <- scan_u; scan! addr <- scan_s 63; scan! _ <- scan_d; scan! _ <- scan_lit (cstr "typ");
  scan! typ <- scan_s 15; scan_end (addr, typ).
Definition scan_ep : scanner (bytes * Z) :=
  scan! _ <- scan_lit CANDIDATE; scan! _ <- scan_str; scan! _ <- scan_d; scan! _ <- scan_str;
  scan! _ <- scan_u; scan! addr <- scan_s 63; scan! port <- scan_u; scan_end (addr, port).

(** The candidate on the line [head] starts with. *)
Definition cand_at (head : bytes) : option bytes :=
  match find_off CANDIDATE (line_of head) with Some k => Some (drop k head) | None => None end.

(** ** Fanning one reflexive candidate over the egress pool *)
Record fan_state := mk_fan { fn_seen : list bytes; fn_prio : Z; fn_port : Z }.

(** [None] when two reflexive candidates disagree on the port. *)
Definition fan_line (st : option fan_state) (head : bytes) : option fan_state :=
  match st with
  | None => None
  | Some st =>
      match (p ← cand_at head; scan_fan p) with
      | Some (pr, addr, pt, typ, _) =>
          match (if bytes_eqb typ (cstr "srflx") then inet_pton4 addr else None) with
          | Some b =>
              if (0 <=? fn_port st) && negb (pt =? fn_port st) then None
              else Some (mk_fan (if (length (fn_seen st) <? 8)%nat then fn_seen st ++ [b] else fn_seen st)
                           (if (fn_prio st =? 0) || (pr <? fn_prio st) then pr else fn_prio st) pt)
          | None => Some st
          end
      | None => Some st
      end
  end.

(** The line for pool member [i]; [snprintf] into 96 bytes. *)
Definition fan_cand (i : nat) (prio : Z) (a : bytes) (port : Z) : bytes :=
  cstr "a=candidate:pool" ++ dec (Z.of_nat i) ++ cstr " 1 UDP " ++
  dec (if Z.of_nat i + 1 <? prio then prio - Z.of_nat i - 1 else 1) ++ cstr " " ++ inet_ntop4 a ++
  cstr " " ++ dec port ++ cstr " typ srflx raddr 0.0.0.0 rport 0" ++ [10].

(** The loop over the pool; a line that does not fit ends it. *)
Fixpoint fan_pool (cap : nat) (st : fan_state) (i : nat) (pool : list bytes) (sdp : bytes) : bytes :=
  match pool with
  | [] => sdp
  | a :: rest =>
      if existsb (bytes_eqb a) (fn_seen st) then fan_pool cap st (S i) rest sdp
      else
        let cand := fan_cand i (fn_prio st) a (fn_port st) in
        if (cap <=? length sdp + length cand)%nat then sdp
        else fan_pool cap st (S i) rest (sdp ++ cand)
  end.

Definition cand_sdp_fan_v4 (sdp : bytes) (cap : nat) (pool : list bytes) (mapping_dependent : bool) : bytes :=
  if mapping_dependent then sdp
  else
    match fold_left fan_line (line_heads sdp true) (Some (mk_fan [] 0 (-1))) with
    | None => sdp
    | Some st =>
        if fn_port st <=? 0 then sdp
        else if match last sdp with Some c => negb (c =? 10) | None => false end then
          if (cap <=? length sdp + 1)%nat then sdp else fan_pool cap st 0 pool (sdp ++ [10])
        else fan_pool cap st 0 pool sdp
    end.

(** ** Where a description reaches *)
Definition cand_ep_is_local (addr : bytes) (local : list netmon_addr) : bool :=
  let v4 := bytes_eqb (take 12 addr) (replicate 10 0 ++ [255; 255]) in
  let a := if v4 then drop 12 addr else addr in
  if (if v4 then byte_at a 0 =? 127 else bytes_eqb a (replicate 15 0 ++ [1])) then true
  else existsb (local_is a) local.

Definition reaches_v4 (head : bytes) : bool :=
  match (p ← cand_at head; scan_reach p) with
  | Some (addr, typ, _) => negb (strchr addr 58) && negb (bytes_eqb typ (cstr "host"))
  | None => false
  end.
Definition cand_sdp_reaches_v4 (sdp : bytes) : bool := existsb reaches_v4 (line_heads sdp true).

Definition global_policy : cand_policy := mk_policy false false false true false.
Definition reaches_off (head : bytes) : bool :=
  match (p ← cand_at head; scan_reach p) with
  | Some (addr, typ, _) =>
      negb (bytes_eqb typ (cstr "host")) || (cand_addr_keep addr 0 global_policy).1
  | None => false
  end.
Definition cand_sdp_reaches_off_segment (sdp : bytes) : bool := existsb reaches_off (line_heads sdp true).

(** [max] at least one. *)
Definition cand_sdp_ufrag (sdp : option bytes) (max : nat) : bytes :=
  match sdp with
  | None => []
  | Some s =>
      match find_off (cstr "a=ice-ufrag:") s with
      | None => []
      | Some k => take (max - 1) (take_token (drop (k + 12) s))
      end
  end.

Definition cand_ep_parse (cand : option bytes) : option path_ep :=
  match cand with
  | None => None
  | Some s =>
      match (k ← find_off CANDIDATE s; scan_ep (drop k s)) with
      | None => None
      | Some (addr, port, _) =>
          if port =? 0 then None
          else if strchr addr 58 then
            match inet_pton6 addr with Some b => Some (mk_ep b (u16 port)) | None => None end
          else
            match inet_pton4 addr with
            | Some b => Some (mk_ep (replicate 10 0 ++ [255; 255] ++ b) (u16 port))
            | None => None
            end
      end
  end.

(** ** Lemmas: the fan *)

(** The lines added, for the pool members not yet offered. *)
Definition fan_lines (st : fan_state) (chosen : list (nat * bytes)) : bytes :=
  concat (map (fun c => fan_cand c.1 (fn_prio st) c.2 (fn_port st)) chosen).

Lemma fan_pool_spec cap st pool : forall i sdp,
  (length sdp < cap)%nat ->
  exists chosen, fan_pool cap st i pool sdp = sdp ++ fan_lines st chosen /\
    chosen `sublist_of` zip (seq i (length pool)) pool /\
    Forall (fun c => c.2 ∉ fn_seen st) chosen /\ (length (fan_pool cap st i pool sdp) < cap)%nat.
Proof.
  induction pool as [|a pool IH]; intros i sdp Hlen; cbn [fan_pool length seq zip_with zip].
  { exists []. rewrite app_nil_r. split_and!; done. }
  destruct (existsb (bytes_eqb a) (fn_seen st)) eqn:Ex.
  { destruct (IH (S i) sdp Hlen) as (ch & E & Hs & Hf & Hl). exists ch. split_and!; try done. by apply sublist_cons. }
  destruct (Nat.leb_spec cap (length sdp + length (fan_cand i (fn_prio st) a (fn_port st)))).
  { exists []. rewrite app_nil_r. split_and!; try done. apply sublist_nil_l. }
  destruct (IH (S i) (sdp ++ fan_cand i (fn_prio st) a (fn_port st))) as (ch & E & Hs & Hf & Hl);
    [rewrite length_app; lia|].
  exists ((i, a) :: ch). split; [rewrite E; unfold fan_lines; cbn [map concat fst snd]; by rewrite app_assoc|].
  split; [by apply sublist_skip|]. split; [|done]. constructor; [|done]. cbn. intros Hin.
  assert (Ht : existsb (bytes_eqb a) (fn_seen st) = true); [|congruence].
  apply existsb_exists. exists a. split; [by apply list_elem_of_In|]. unfold bytes_eqb. by apply bool_decide_eq_true.
Qed.

Lemma scan_d_range s v r : scan_d s = Some (v, r) -> is_i32 v.
Proof.
  unfold scan_d. destruct (scan_num s) as [[[neg x] y]|]; [|done]. intros [= <- _]. unfold is_i32, i32.
  match goal with |- context [(?a + 2 ^ 31) mod 2 ^ 32] => pose proof (Z.mod_pos_bound (a + 2 ^ 31) (2 ^ 32) ltac:(lia)) end. lia.
Qed.
Lemma scan_u_range s v r : scan_u s = Some (v, r) -> is_u32 v.
Proof.
  unfold scan_u. destruct (scan_num s) as [[[neg x] y]|]; [|done]. intros [= <- _]. apply u32_range.
Qed.

Lemma fan_state_range heads st :
  fold_left fan_line heads (Some (mk_fan [] 0 (-1))) = Some st -> is_u32 (fn_prio st) /\ is_i32 (fn_port st).
Proof.
  revert st. induction heads as [|h heads IH] using rev_ind; intros st.
  { intros [= <-]. cbn. unfold is_u32, is_i32. lia. }
  rewrite fold_left_app. cbn [fold_left]. destruct (fold_left fan_line heads _) as [st0|]; [|done].
  destruct (IH st0 eq_refl) as [R1 R2]. unfold fan_line.
  destruct (cand_at h ≫= scan_fan) as [[[[[pr addr] pt] typ] r]|] eqn:Es; [|by intros [= <-]].
  destruct (if bytes_eqb typ _ then _ else _) as [b|]; [|by intros [= <-]].
  destruct (_ && _); [done|]. intros [= <-]. cbn [fn_prio fn_port].
  assert (Hr : is_u32 pr /\ is_i32 pt).
  { destruct (cand_at h) as [q|]; [|done]. cbn [mbind option_bind] in Es. unfold scan_fan in Es.
    repeat match type of Es with
    | match ?m with Some _ => _ | None => _ end = _ => destruct m as [[? ?]|] eqn:?; [|discriminate Es]
    end. unfold scan_end in Es. injection Es as <- <- <- <- _.
    split; [eapply scan_u_range; eassumption | eapply scan_d_range; eassumption]. }
  destruct Hr. split; [by destruct (_ || _)|done].
Qed.

(** The text of one line never reaches the end of its 96 bytes. *)
Lemma fan_cand_len i prio a port :
  (i < 8)%nat -> is_u32 prio -> is_i32 port -> 0 < port -> length a = 4%nat -> bytes_ok a ->
  (length (fan_cand i prio a port) < 95)%nat.
Proof.
  intros Hi Hp Hport Hpos Ha Hok. unfold fan_cand. rewrite !length_app. unfold is_u32, is_i32 in *.
  assert (L1 : (length (dec (Z.of_nat i)) <= 1)%nat) by (apply dec_length; lia).
  set (pv := if Z.of_nat i + 1 <? prio then prio - Z.of_nat i - 1 else 1).
  assert (L2 : (length (dec pv) <= 10)%nat)
    by (apply dec_length; [lia|]; unfold pv; destruct (Z.ltb_spec (Z.of_nat i + 1) prio); lia).
  assert (L3 : (length (dec port) <= 10)%nat) by (apply dec_length; lia).
  assert (L4 : (length (inet_ntop4 a) <= 15)%nat).
  { destruct a as [|a0 [|a1 [|a2 [|a3 [|]]]]]; try done. cbn [inet_ntop4]. rewrite !length_app. cbn [length].
    rewrite !length_app. cbn [length]. rewrite !length_app. cbn [length].
    unfold bytes_ok, is_u8 in Hok. rewrite !Forall_cons in Hok. destruct Hok as (K0 & K1 & K2 & K3 & _).
    pose proof (dec_length a0 3 ltac:(lia) ltac:(lia)). pose proof (dec_length a1 3 ltac:(lia) ltac:(lia)).
    pose proof (dec_length a2 3 ltac:(lia) ltac:(lia)). pose proof (dec_length a3 3 ltac:(lia) ltac:(lia)). lia. }
  change (length (cstr "a=candidate:pool")) with 16%nat. change (length (cstr " 1 UDP ")) with 7%nat.
  change (length (cstr " ")) with 1%nat. change (length (cstr " typ srflx raddr 0.0.0.0 rport 0")) with 32%nat.
  change (length [10]) with 1%nat. lia.
Qed.

Lemma fan_chosen_len st pool chosen :
  is_u32 (fn_prio st) -> is_i32 (fn_port st) -> 0 < fn_port st -> (length pool <= 8)%nat ->
  Forall (fun a => length a = 4%nat /\ bytes_ok a) pool ->
  chosen `sublist_of` zip (seq 0 (length pool)) pool ->
  Forall (fun l => (length l < 95)%nat) (map (fun c => fan_cand c.1 (fn_prio st) c.2 (fn_port st)) chosen).
Proof.
  intros R1 R2 Hport Hn Hp Hs. apply Forall_forall. intros l Hl. apply list_elem_of_In, in_map_iff in Hl as ([i a] & <- & Hin).
  cbn [fst snd]. apply list_elem_of_In in Hin.
  assert (Hz : (i, a) ∈ zip (seq 0 (length pool)) pool) by (by eapply elem_of_sublist).
  apply list_elem_of_lookup in Hz as [j Hj]. apply lookup_zip_with_Some in Hj as (x & y & E & Hx & Hy).
  injection E as -> ->. apply lookup_seq in Hx as [-> Hlt]. rewrite Forall_lookup in Hp. destruct (Hp _ _ Hy).
  apply fan_cand_len; try done. lia.
Qed.

(** ** Properties *)

(** A filtered description is whole lines of the original, in order, and every
    candidate among them has an address the policy keeps: it fits its buffer with
    room for the terminator, and when all that is kept fits, it is exactly the
    lines kept. *)
Theorem cand_filter_exact s ff p outlen :
  (0 < outlen)%nat ->
  exists ls, cand_sdp_filter s ff p outlen = concat ls /\ ls `sublist_of` lines s /\
    Forall (fun l => line_keep ff p l = true) ls /\
    (length (cand_sdp_filter s ff p outlen) < outlen)%nat /\
    ((length (concat (List.filter (line_keep ff p) (lines s))) < outlen)%nat ->
     ls = List.filter (line_keep ff p) (lines s)).
Proof.
  intros Hout. unfold cand_sdp_filter. generalize (lines s). intros ll.
  induction ll as [|l ll IH] using rev_ind.
  { exists []. split_and!; try done. }
  destruct IH as (ls & E & Hsub & Hk & Hlen & Hall). rewrite fold_left_app. cbn [fold_left].
  set (out := fold_left _ _ _) in *. unfold filter_line.
  assert (Hf : List.filter (line_keep ff p) (ll ++ [l])
    = List.filter (line_keep ff p) ll ++ (if line_keep ff p l then [l] else [])).
  { rewrite List.filter_app. cbn. by destruct (line_keep ff p l). }
  destruct (line_keep ff p l) eqn:El; cbn [andb].
  - destruct (Nat.ltb_spec (length out + length l) outlen) as [Hfit|Hno].
    + exists (ls ++ [l]). rewrite concat_app. cbn [concat]. rewrite app_nil_r, E. split; [done|].
      split; [by apply sublist_app|]. split; [apply Forall_app; split; [done|by constructor]|].
      split; [rewrite length_app, <- E; lia|]. rewrite Hf. intros Hs. f_equal. apply Hall.
      rewrite concat_app, length_app in Hs. lia.
    + exists ls. split; [done|]. split; [by apply sublist_inserts_r|]. split; [done|]. split; [done|].
      rewrite Hf, concat_app, length_app. cbn [concat]. rewrite app_nil_r. intros Hs. exfalso.
      assert (Hls : ls = List.filter (line_keep ff p) ll) by (apply Hall; lia). subst ls. rewrite <- E in Hs. lia.
  - exists ls. split; [done|]. split; [by apply sublist_inserts_r|]. split; [done|]. split; [done|].
    rewrite Hf, app_nil_r. exact Hall.
Qed.

Definition demo_sdp : bytes :=
  cstr "a=ice-ufrag:ab" ++ [10] ++ cstr "a=candidate:1 1 UDP 9 192.168.1.4 5000 typ host" ++ [10] ++
  cstr "a=candidate:2 1 UDP 8 fe80::1 5000 typ host" ++ [10] ++
  cstr "a=candidate:3 1 UDP 7 203.0.113.9 6000 typ srflx" ++ [10].

Lemma cand_filter_exact_witness :
  exists ls, cand_sdp_filter demo_sdp 0 cand_policy_default 400 = concat ls /\ length ls = 3%nat.
Proof.
  destruct (cand_filter_exact demo_sdp 0 cand_policy_default 400) as (ls & E & _ & _ & _ & Hall); [lia|].
  exists ls. split; [exact E|]. rewrite Hall; [vm_compute; reflexivity|]. vm_compute. lia.
Defined.

(** What [cand_sdp_fan_v4] may make of a description. *)
Definition fanned (sdp : bytes) (pool : list bytes) (dep : bool) (out : bytes) : Prop :=
  exists nl st chosen,
    let ls := map (fun c => fan_cand c.1 (fn_prio st) c.2 (fn_port st)) chosen in
    out = sdp ++ nl ++ concat ls /\ (nl = [] \/ nl = [10]) /\ (dep = true -> nl = [] /\ chosen = []) /\
    Forall (fun l => (length l < 95)%nat) ls /\
    chosen `sublist_of` zip (seq 0 (length pool)) pool /\
    Forall (fun c => c.2 ∉ fn_seen st) chosen /\ (chosen <> [] -> 0 < fn_port st).

Lemma fanned_same sdp pool dep : fanned sdp pool dep sdp.
Proof.
  exists [], (mk_fan [] 0 0), []. cbn. rewrite app_nil_r. split_and!; try done; [by left|]. apply sublist_nil_l.
Qed.
Lemma fanned_pool cap st pool sdp nl :
  is_u32 (fn_prio st) -> is_i32 (fn_port st) -> 0 < fn_port st -> (length pool <= 8)%nat ->
  Forall (fun a => length a = 4%nat /\ bytes_ok a) pool ->
  (nl = [] \/ nl = [10]) -> (length (sdp ++ nl) < cap)%nat ->
  let out := fan_pool cap st 0 pool (sdp ++ nl) in (length out < cap)%nat /\ fanned sdp pool false out.
Proof.
  intros R1 R2 Hport Hn Hp Hnl Hl out. destruct (fan_pool_spec cap st pool 0 _ Hl) as (ch & E & Hs & Hf & Hlen).
  split; [exact Hlen|]. exists nl, st, ch. split; [unfold out; rewrite E; unfold fan_lines; by rewrite <- app_assoc|].
  split_and!; try done. by apply (fan_chosen_len st pool ch).
Qed.

(** Fanning a reflexive candidate over the addresses the carrier was seen to use
    keeps the description as it was, adds one whole line per address, in the
    pool's order and only for addresses no reflexive candidate offers, each line
    shorter than its own buffer, and stays below the buffer's end; a mapping that
    depends on the destination gets no line at all. *)
Theorem fan_exact sdp cap pool dep :
  (length sdp < cap)%nat -> (length pool <= 8)%nat ->
  Forall (fun a => length a = 4%nat /\ bytes_ok a) pool ->
  let out := cand_sdp_fan_v4 sdp cap pool dep in (length out < cap)%nat /\ fanned sdp pool dep out.
Proof.
  intros Hcap Hn Hp out. subst out. unfold cand_sdp_fan_v4.
  pose proof (conj Hcap (fanned_same sdp pool dep)) as Hsame. destruct dep; [exact Hsame|].
  destruct (fold_left fan_line _ _) as [st|] eqn:Est; [|exact Hsame]. apply fan_state_range in Est as [R1 R2].
  destruct (Z.leb_spec (fn_port st) 0) as [|Hport]; [exact Hsame|].
  destruct (match last sdp with Some c => _ | None => _ end).
  - destruct (Nat.leb_spec cap (length sdp + 1)); [exact Hsame|]. apply fanned_pool; try done; [by right|].
    rewrite length_app. cbn. lia.
  - pose proof (fanned_pool cap st pool sdp [] R1 R2 Hport Hn Hp) as H. rewrite app_nil_r in H.
    apply H; [by left|done].
Qed.

Definition demo_pool : list bytes := [[203;0;113;9]; [203;0;113;10]].
Lemma fan_exact_witness :
  let out := cand_sdp_fan_v4 demo_sdp 400 demo_pool false in
  (length out < 400)%nat /\ fanned demo_sdp demo_pool false out /\
  out = demo_sdp ++ cstr "a=candidate:pool1 1 UDP 5 203.0.113.10 6000 typ srflx raddr 0.0.0.0 rport 0" ++ [10].
Proof.
  pose proof (fan_exact demo_sdp 400 demo_pool false) as H. cbv zeta in *.
  destruct H as [H1 H2]; [vm_compute; lia | vm_compute; lia | |].
  { repeat constructor; try done; cbn; unfold is_u8; lia. }
  split; [exact H1|]. split; [exact H2|]. vm_compute. reflexivity.
Defined.

(** The port is tested before it is cut to sixteen bits: 65536 passes and becomes 0. *)
Lemma cand_ep_port_cut :
  cand_ep_parse (Some (cstr "candidate:1 1 UDP 9 192.0.2.1 65536 typ host"))
    = Some (mk_ep (replicate 10 0 ++ [255; 255] ++ [192; 0; 2; 1]) 0) /\
  cand_ep_parse (Some (cstr "candidate:1 1 UDP 9 192.0.2.1 0 typ host")) = None.
Proof. split; vm_compute; reflexivity. Qed.
(** A candidate with its line cut short borrows its fields from the lines below. *)
Lemma reaches_across_lines :
  cand_sdp_reaches_v4 (cstr "a=candidate:1 1 UDP 9" ++ [10] ++ cstr "203.0.113.9 6000 typ srflx" ++ [10]) = true.
Proof. vm_compute. reflexivity. Qed.
