(* ===== verification/CandPack.v ===== *)
(** src/src/candpack.c: the compact packing of an ICE description. The writer keeps
    the credentials and one tuple per candidate; the reader takes versions 2 to 4
    and rebuilds a description. Every read of the reader is explicit, so that one
    past the input would show as a fault. *)
From S2P Require Import Prelude Net Bencode TermFilter FwdSpec Scan NsFacts Token Netstate AddrText PathEp CandPolicy.

Definition CT_HOST : Z := 0.
Definition CT_SRFLX : Z := 1.
Definition CT_PRFLX : Z := 2.
Definition CT_RELAY : Z := 3.
Definition CANDPACK_CID_LEN : nat := 8.
Definition CANDPACK_VERSION : Z := 4.
Definition CANDPACK_ERR_VERSION : Z := -2.

Definition type_code (t : bytes) : Z :=
  if bytes_eqb t (cstr "host") then CT_HOST
  else if bytes_eqb t (cstr "srflx") then CT_SRFLX
  else if bytes_eqb t (cstr "prflx") then CT_PRFLX
  else if bytes_eqb t (cstr "relay") then CT_RELAY
  else -1.
Definition type_name (c : Z) : option bytes :=
  if c =? CT_HOST then Some (cstr "host")
  else if c =? CT_SRFLX then Some (cstr "srflx")
  else if c =? CT_PRFLX then Some (cstr "prflx")
  else if c =? CT_RELAY then Some (cstr "relay")
  else None.

(** ** Writing *)

(** The copy of a line into its buffer: carriage returns dropped, the overflow
    dropped, and where the next line starts. *)
Fixpoint copy_line (s buf : bytes) (bufsz : nat) : bytes * bytes :=
  match s with
  | [] => (buf, [])
  | c :: rest =>
      if c =? 10 then (buf, rest)
      else copy_line rest (if negb (c =? 13) && (length buf + 1 <? bufsz)%nat then buf ++ [c] else buf) bufsz
  end.
Definition next_line (p : bytes) (bufsz : nat) : option (bytes * bytes) :=
  match p with [] => None | _ => Some (copy_line p [] bufsz) end.
(** The lines [while (next_line(&p, line, sizeof(line)))] goes over. *)
Fixpoint next_lines (fuel : nat) (p : bytes) : list bytes :=
  match fuel with
  | O => []
  | S fuel => match next_line p 512 with
              | None => []
              | Some (line, p) => line :: next_lines fuel p
              end
  end.
Definition sdp_lines (sdp : bytes) : list bytes := next_lines (length sdp) sdp.

(** The return value and what [out] holds then: the scan writes it before its
    length is looked at. *)
Definition cred_value (line key out : bytes) (max : nat) : bool * bytes :=
  if negb (has_prefix key line) then (false, out)
  else match scan_s 256 (drop (length key) line) with
       | None => (false, out)
       | Some (w, _) => ((length w <? max)%nat, w)
       end.
Definition creds_line (c : bytes * bytes) (line : bytes) : bytes * bytes :=
  ((cred_value line (cstr "a=ice-ufrag:") c.1 257).2, (cred_value line (cstr "a=ice-pwd:") c.2 257).2).
Definition creds (sdp : bytes) : bytes * bytes := fold_left creds_line (sdp_lines sdp) ([], []).

Record cand := mk_cand { cd_type : Z; cd_fam : Z; cd_prio : Z; cd_port : Z; cd_addr : bytes }.

Definition tolower (c : Z) : Z := if (65 <=? c) && (c <=? 90) then c + 32 else c.
Definition strcasecmp_eq (a b : bytes) : bool := bytes_eqb (map tolower a) (map tolower b).

Definition A_CANDIDATE : bytes := cstr "a=candidate:".
Definition scan_cand : scanner (Z * bytes * Z * bytes * Z * bytes) :=
  scan! _ <- scan_s 32; scan! comp <- scan_d; scan! transport <- scan_s 7; scan! prio <- scan_u;
  scan! addr <- scan_s 63; scan! port <- scan_d; scan! _ <- scan_lit (cstr "typ");
  scan! type <- scan_s 15; scan_end (comp, transport, prio, addr, port, type).

(** The candidate a line gives, [None] where the loop goes on without it. *)
Definition cand_of_line (pol : cand_policy) (line : bytes) : option cand :=
  if negb (has_prefix A_CANDIDATE line) then None
  else
    match scan_cand (drop 12 line) with
    | None => None
    | Some (comp, transport, prio, addr, port, type, _) =>
        if negb (comp =? 1) || negb (strcasecmp_eq transport (cstr "UDP")) then None
        else if (port <? 0) || (65535 <? port) then None
        else if type_code type <? 0 then None
        else if negb (cand_addr_keep addr 0 pol).1 then None
        else match inet_pton6 addr with
             | Some ab => Some (mk_cand (type_code type) 6 prio port ab)
             | None => match inet_pton4 addr with
                       | Some ab => Some (mk_cand (type_code type) 4 prio port ab)
                       | None => None
                       end
             end
    end.
Definition cand_bytes (c : cand) : bytes :=
  [u8 (cd_type c); u8 (cd_fam c)] ++ be_put 4 (cd_prio c) ++ be_put 2 (cd_port c) ++ cd_addr c.

(** The candidate loop: [head] is what precedes the count, [body] what follows it. *)
Fixpoint pack_cands (pol : cand_policy) (max : nat) (ls : list bytes) (head body : bytes) (ncand : nat) : option bytes :=
  match ls with
  | [] => Some (head ++ [u8 (Z.of_nat ncand)] ++ body)
  | line :: ls =>
      match cand_of_line pol line with
      | None => pack_cands pol max ls head body ncand
      | Some c =>
          if (ncand =? 255)%nat then Some (head ++ [u8 (Z.of_nat ncand)] ++ body)
          else if (max <? length head + 1 + length body + (1 + 1 + 4 + 2 + (if (cd_fam c =? 6)%Z then 16 else 4)))%nat then None
          else pack_cands pol max ls head (body ++ cand_bytes c) (S ncand)
      end
  end.

Definition pack_policy (for_dht : bool) : cand_policy :=
  if for_dht then cand_policy_default else mk_policy true true true true true.
(** -1, 0 and the bytes written. *)
Inductive packed := PackErr | PackNone | Packed (out : bytes).

Definition candpack_encode (sdp : bytes) (for_dht : bool) (gen : Z) (offer_ufrag cid : option bytes)
  (max : nat) : packed :=
  let cidb := match cid with Some c => c | None => [] end in
  let ou := match offer_ufrag with Some u => u | None => [] end in
  if (255 <? length ou)%nat then PackErr
  else
    let '(ufrag, pwd) := creds sdp in
    if bytes_eqb ufrag [] || bytes_eqb pwd [] then PackNone
    else if (max <? 1 + 4 + 1 + length ou + 1 + length cidb + 1 + length ufrag + 1 + length pwd + 1)%nat then PackErr
    else
      let head := [CANDPACK_VERSION] ++ be_put 4 gen ++
        [u8 (Z.of_nat (length ou))] ++ ou ++ [u8 (Z.of_nat (length cidb))] ++ cidb ++
        [u8 (Z.of_nat (length ufrag))] ++ ufrag ++ [u8 (Z.of_nat (length pwd))] ++ pwd in
      match pack_cands (pack_policy for_dht) max (sdp_lines sdp) head [] 0 with
      | None => PackErr
      | Some out => Packed out
      end.

(** ** Reading *)

(** A read of one byte and of [n] bytes at the cursor; [None] is a read past the end. *)
Definition rd1 (p : bytes) : option (Z * bytes) := match p with [] => None | c :: p => Some (c, p) end.
Definition rdn (n : nat) (p : bytes) : option (bytes * bytes) :=
  if (length p <? n)%nat then None else Some (take n p, drop n p).

Inductive unpacked := UnpackFault | UnpackErr (v : Z) | Unpacked (text : bytes).
(** What the out parameters hold: the generation once written, the offer's ufrag, the instance id. *)
Record unpack_out := mk_uo { uo_gen : option Z; uo_ufrag : bytes; uo_cid : bytes }.

(** What [%s] prints of a buffer. *)
Fixpoint c_text (b : bytes) : bytes :=
  match b with [] => [] | c :: b => if c =? 0 then [] else c :: c_text b end.

Definition cand_text (k : nat) (prio : Z) (abuf : bytes) (port tc : Z) (tn : bytes) : bytes :=
  cstr "a=candidate:" ++ dec (Z.of_nat k) ++ cstr " 1 UDP " ++ dec prio ++ cstr " " ++ abuf ++ cstr " " ++ dec port ++
  cstr " typ " ++ tn ++ (if tc =? CT_HOST then [] else cstr " raddr 0.0.0.0 rport 0") ++ [10].
Definition creds_text (ufrag pwd : bytes) : bytes :=
  cstr "a=ice-ufrag:" ++ c_text ufrag ++ [10] ++ cstr "a=ice-pwd:" ++ c_text pwd ++ [10].

(** One round of the candidate loop and the rounds after it: [n] are left, [k] are done. *)
Fixpoint unpack_cands (n k : nat) (max : nat) (p out : bytes) : unpacked :=
  match n with
  | O => Unpacked out
  | S n =>
      if (length p <? 8)%nat then UnpackErr (-1)
      else
        match rd1 p with None => UnpackFault | Some (tc, p) =>
        match rd1 p with None => UnpackFault | Some (fam, p) =>
        match rdn 4 p with None => UnpackFault | Some (pr, p) =>
        match rdn 2 p with None => UnpackFault | Some (pt, p) =>
          let alen := if fam =? 6 then 16%nat else 4%nat in
          if (length p <? alen)%nat then UnpackErr (-1)
          else
            match rdn alen p with None => UnpackFault | Some (a, p) =>
              let abuf := if fam =? 6 then inet_ntop6 a else inet_ntop4 a in
              match type_name tc with
              | None => UnpackErr (-1)
              | Some tn =>
                  let out := out ++ cand_text k (be_get pr) abuf (be_get pt) tc tn in
                  if (max <=? length out)%nat then UnpackErr (-1) else unpack_cands n (S k) max p out
              end
            end
        end end end end
  end.

(** From the ufrag's length byte on. *)
Definition unpack_creds (max : nat) (p : bytes) : unpacked :=
  match rd1 p with None => UnpackFault | Some (ul, p) =>
    if (length p <=? Z.to_nat ul)%nat then UnpackErr (-1)
    else
      match rdn (Z.to_nat ul) p with None => UnpackFault | Some (ufrag, p) =>
      match rd1 p with None => UnpackFault | Some (pl, p) =>
        if (length p <? Z.to_nat pl)%nat then UnpackErr (-1)
        else
          match rdn (Z.to_nat pl) p with None => UnpackFault | Some (pwd, p) =>
            if (length p =? 0)%nat then UnpackErr (-1)
            else
              match rd1 p with None => UnpackFault | Some (ncand, p) =>
                let out := creds_text ufrag pwd in
                if (max <=? length out)%nat then UnpackErr (-1) else unpack_cands (Z.to_nat ncand) 0 max p out
              end
          end
      end end
  end.

(** The instance id, from version 4 on. *)
Definition unpack_cid (ver : Z) (max : nat) (p : bytes) (w : unpack_out) : unpack_out * unpacked :=
  if ver <? 4 then (w, unpack_creds max p)
  else if (length p =? 0)%nat then (w, UnpackErr (-1))
  else
    match rd1 p with None => (w, UnpackFault) | Some (cl, p) =>
      if (length p <=? Z.to_nat cl)%nat then (w, UnpackErr (-1))
      else match rdn (Z.to_nat cl) p with None => (w, UnpackFault) | Some (cid, p) =>
             let w := if (Z.to_nat cl =? CANDPACK_CID_LEN)%nat then mk_uo (uo_gen w) (uo_ufrag w) cid else w in
             (w, unpack_creds max p)
           end
    end.

(** The offer's ufrag, from version 3 on: [offer_max] is zero where none is asked for. *)
Definition unpack_offer (ver : Z) (oul : nat) (offer_max max : nat) (p : bytes) (w : unpack_out) : unpack_out * unpacked :=
  if (length p <=? oul)%nat then (w, UnpackErr (-1))
  else if (3 <=? ver) && negb (offer_max =? 0)%nat && (offer_max <=? oul)%nat then (w, UnpackErr (-1))
  else match rdn oul p with None => (w, UnpackFault) | Some (ou, p) =>
         let w := if (3 <=? ver) && negb (offer_max =? 0)%nat then mk_uo (uo_gen w) ou (uo_cid w) else w in
         unpack_cid ver max p w
       end.

Definition candpack_decode (inp : bytes) (offer_max max : nat) : unpack_out * unpacked :=
  let w := mk_uo None [] (replicate CANDPACK_CID_LEN 0) in
  if (length inp <? 1)%nat then (w, UnpackErr (-1))
  else
    match rd1 inp with None => (w, UnpackFault) | Some (ver, p) =>
      if (ver <? 2) || (CANDPACK_VERSION <? ver) then (w, UnpackErr CANDPACK_ERR_VERSION)
      else if (length p <? 4)%nat then (w, UnpackErr (-1))
      else
        match rdn 4 p with None => (w, UnpackFault) | Some (g, p) =>
          let w := mk_uo (Some (be_get g)) [] (uo_cid w) in
          if 3 <=? ver then
            if (length p =? 0)%nat then (w, UnpackErr (-1))
            else match rd1 p with None => (w, UnpackFault) | Some (oul, p) =>
                   unpack_offer ver (Z.to_nat oul) offer_max max p w
                 end
          else unpack_offer ver 0 offer_max max p w
        end
    end.

Definition demo_packed : packed := candpack_encode (cstr "a=ice-ufrag:ab" ++ [13; 10] ++ cstr "a=ice-pwd:xyz" ++ [10] ++
  cstr "a=candidate:1 1 UDP 9 192.168.1.4 5000 typ host" ++ [10] ++
  cstr "a=candidate:2 1 UDP 8 fe80::1 5000 typ host" ++ [10] ++
  cstr "a=candidate:3 1 udp 7 203.0.113.9 6000 typ srflx" ++ [10]) true 7 (Some (cstr "of")) None 200.
Example demo_packed_reads :
  match demo_packed with
  | Packed b => (candpack_decode b 16 400).2
  | _ => UnpackFault
  end = Unpacked (cstr "a=ice-ufrag:ab" ++ [10] ++ cstr "a=ice-pwd:xyz" ++ [10] ++
    cstr "a=candidate:0 1 UDP 9 192.168.1.4 5000 typ host" ++ [10] ++
    cstr "a=candidate:1 1 UDP 7 203.0.113.9 6000 typ srflx raddr 0.0.0.0 rport 0" ++ [10]).
Proof. vm_compute. reflexivity. Qed.

(** ** Lemmas: the line loop *)
Lemma copy_line_left s : forall buf n, (length (copy_line s buf n).2 <= pred (length s))%nat.
Proof.
  induction s as [|c s IH]; intros buf n; cbn [copy_line]; [done|]. destruct (c =? 10); [done|].
  etrans; [apply IH|]. cbn [length]. lia.
Qed.
(** Every line takes a byte at least: the length of the text is fuel enough. *)
Lemma next_lines_enough : forall fuel p, (length p <= fuel)%nat -> next_lines fuel p = sdp_lines p.
Proof.
  assert (H : forall f g p, (length p <= f)%nat -> (length p <= g)%nat -> next_lines f p = next_lines g p).
  { induction f as [|f IH]; intros g p Hf Hg; destruct p as [|c p]; cbn [length] in *; try lia; try (by destruct g); [].
    destruct g as [|g]; [lia|]. cbn [next_lines next_line]. pose proof (copy_line_left (c :: p) [] 512) as L.
    destruct (copy_line (c :: p) [] 512) as [l q]. cbn in L. f_equal. apply IH; lia. }
  intros fuel p Hp. by apply H.
Qed.

(** ** Lemmas: the reader stays inside its input *)
Lemma rdn_ok n p : (n <= length p)%nat -> rdn n p = Some (take n p, drop n p).
Proof. intros H. unfold rdn. destruct (Nat.ltb_spec (length p) n); [lia|done]. Qed.
Lemma rdn_app a r n : length a = n -> rdn n (a ++ r) = Some (a, r).
Proof. intros <-. rewrite rdn_ok by (rewrite length_app; lia). by rewrite take_app_length, drop_app_length. Qed.

Definition inside (max : nat) (r : unpacked) : Prop :=
  match r with UnpackFault => False | UnpackErr _ => True | Unpacked t => (length t < max)%nat end.

Lemma unpack_cands_inside max : forall n k p out, (length out < max)%nat -> inside max (unpack_cands n k max p out).
Proof.
  induction n as [|n IH]; intros k p out Hout; cbn [unpack_cands]; [exact Hout|].
  destruct (Nat.ltb_spec (length p) 8); [done|]. destruct p as [|tc [|fam p]]; cbn [length] in *; try lia.
  cbn [rd1]. rewrite rdn_ok by lia. rewrite rdn_ok by (rewrite length_drop; lia).
  destruct (Nat.ltb_spec (length (drop 2 (drop 4 p))) (if fam =? 6 then 16%nat else 4%nat)); [done|].
  rewrite rdn_ok by lia. destruct (type_name tc); [|done]. cbv zeta.
  match goal with |- inside _ (if ?b then _ else _) => destruct b eqn:Eb end; [done|].
  apply Nat.leb_gt in Eb. by apply IH.
Qed.

Lemma unpack_creds_inside max p : p <> [] -> inside max (unpack_creds max p).
Proof.
  intros Hp. unfold unpack_creds. destruct p as [|ul p]; [done|]. cbn [rd1].
  destruct (Nat.leb_spec (length p) (Z.to_nat ul)); [done|]. rewrite rdn_ok by lia.
  pose proof (length_drop p (Z.to_nat ul)) as L. destruct (drop (Z.to_nat ul) p) as [|pl q]; cbn [length] in L; [lia|].
  cbn [rd1]. destruct (Nat.ltb_spec (length q) (Z.to_nat pl)); [done|]. rewrite rdn_ok by lia.
  destruct (drop (Z.to_nat pl) q) as [|nc r]; cbn [length Nat.eqb rd1]; [done|]. cbv zeta.
  match goal with |- inside _ (if ?b then _ else _) => destruct b eqn:Eb end; [done|].
  apply Nat.leb_gt in Eb. by apply unpack_cands_inside.
Qed.

Lemma drop_more (n : nat) (p : bytes) : (n < length p)%nat -> drop n p <> [].
Proof. intros H E. pose proof (length_drop p n). rewrite E in *. cbn in *. lia. Qed.

Lemma unpack_cid_inside ver max p w : p <> [] -> inside max (unpack_cid ver max p w).2.
Proof.
  intros Hp. unfold unpack_cid. destruct (ver <? 4); [by apply unpack_creds_inside|]. destruct p as [|cl p]; [done|].
  cbn [length Nat.eqb rd1]. destruct (Nat.leb_spec (length p) (Z.to_nat cl)); [done|]. rewrite rdn_ok by lia.
  apply unpack_creds_inside. by apply drop_more.
Qed.

Lemma unpack_offer_inside ver oul om max p w : inside max (unpack_offer ver oul om max p w).2.
Proof.
  unfold unpack_offer. destruct (Nat.leb_spec (length p) oul); [done|].
  destruct ((3 <=? ver) && negb (om =? 0)%nat && (om <=? oul)%nat); [done|]. rewrite rdn_ok by lia.
  apply unpack_cid_inside. by apply drop_more.
Qed.

(** ** Lemmas: what the writer takes from a description *)
Lemma pton4_length s b : inet_pton4 s = Some b -> length b = 4%nat.
Proof.
  unfold inet_pton4. destruct (pton4_loop _ _ _ _ _) as [a|]; [|done].
  destruct (Nat.eqb_spec (length a) 4); [|done]. by intros [= <-].
Qed.
Lemma pton6_end_length tmp cp v x b : (length tmp <= 16)%nat -> pton6_end tmp cp v x = Some b -> length b = 16%nat.
Proof.
  intros Hl. unfold pton6_end.
  assert (H : forall t, (length t <= 16)%nat ->
    match cp with
    | Some c => if (length t =? 16)%nat then None else Some (take c t ++ replicate (16 - length t) 0 ++ drop c t)
    | None => if (length t =? 16)%nat then Some t else None
    end = Some b -> length b = 16%nat).
  { intros t Ht. destruct cp; destruct (Nat.eqb_spec (length t) 16) as [E|E]; try done; intros [= <-]; [|done].
    rewrite !length_app, length_take, length_drop, length_replicate. lia. }
  destruct (0 <? x)%nat; [|by apply H]. destruct (Nat.ltb_spec 16 (length tmp + 2)); [done|].
  apply H. rewrite length_app. cbn [length]. lia.
Qed.
Lemma pton6_loop_length s : forall curtok tmp cp v x b,
  (length tmp <= 16)%nat -> pton6_loop s curtok tmp cp v x = Some b -> length b = 16%nat.
Proof.
  induction s as [|ch s IH]; intros curtok tmp cp v x b Hl; cbn [pton6_loop]; [by apply pton6_end_length|].
  destruct (hex_digit_value ch); [destruct (x =? 4)%nat; [done|]; by apply IH|].
  destruct (ch =? 58).
  - destruct (x =? 0)%nat; [destruct cp; [done|]; by apply IH|]. destruct s; [done|].
    destruct (Nat.ltb_spec 16 (length tmp + 2)); [done|]. apply IH. rewrite length_app. cbn [length]. lia.
  - destruct (ch =? 46); [|done]. cbn [andb]. destruct (Nat.leb_spec (length tmp + 4) 16); [|done].
    destruct (inet_pton4 curtok) as [q|] eqn:E; [|done]. apply pton6_end_length.
    rewrite length_app, (pton4_length _ _ E). lia.
Qed.
Lemma pton6_length s b : inet_pton6 s = Some b -> length b = 16%nat.
Proof.
  unfold inet_pton6. intros H.
  repeat match type of H with
  | match ?x with _ => _ end = _ => destruct x; try discriminate H
  end; (eapply pton6_loop_length; [|exact H]; cbn; lia).
Qed.

Record cand_ok (c : cand) : Prop := {
  co_type : 0 <= cd_type c <= 3; co_prio : is_u32 (cd_prio c); co_port : is_u16 (cd_port c);
  co_addr : cd_fam c = 6 /\ length (cd_addr c) = 16%nat \/ cd_fam c = 4 /\ length (cd_addr c) = 4%nat
}.
Lemma cand_of_line_ok pol line c : cand_of_line pol line = Some c -> cand_ok c.
Proof.
  unfold cand_of_line. destruct (negb _); [done|].
  destruct (scan_cand _) as [[[[[[[comp tr] prio] addr] port] type] r]|] eqn:Es; [|done].
  assert (Hp : is_u32 prio).
  { unfold scan_cand in Es. repeat match type of Es with
    | match ?m with Some _ => _ | None => _ end = _ => destruct m as [[? ?]|] eqn:?; [|discriminate Es]
    end. unfold scan_end in Es. injection Es as <- <- <- <- <- <- _. eapply scan_u_range; eassumption. }
  destruct (_ || _); [done|]. destruct ((port <? 0) || (65535 <? port)) eqn:Ept; [done|].
  destruct (Z.ltb_spec (type_code type) 0) as [|Ht]; [done|]. destruct (negb _); [done|].
  assert (Ht3 : type_code type <= 3) by (unfold type_code, CT_HOST, CT_SRFLX, CT_PRFLX, CT_RELAY in *; repeat case_match; lia).
  apply orb_false_elim in Ept as [E1 E2]. apply Z.ltb_ge in E1, E2.
  destruct (inet_pton6 addr) as [ab|] eqn:E6; [|destruct (inet_pton4 addr) as [ab|] eqn:E4; [|done]]; intros [= <-];
    (split; cbn; [lia | done | unfold is_u16; lia |]).
  - left. split; [done|]. by eapply pton6_length.
  - right. split; [done|]. by eapply pton4_length.
Qed.

Lemma u8_small z : 0 <= z < 256 -> u8 z = z.
Proof. intros H. apply u8_id. unfold is_u8. lia. Qed.

Definition addr_text (c : cand) : bytes := if cd_fam c =? 6 then inet_ntop6 (cd_addr c) else inet_ntop4 (cd_addr c).
Definition type_text (c : cand) : bytes := match type_name (cd_type c) with Some t => t | None => [] end.
Definition cand_line (k : nat) (c : cand) : bytes :=
  cand_text k (cd_prio c) (addr_text c) (cd_port c) (cd_type c) (type_text c).
(** The candidate lines, numbered from [k]. *)
Fixpoint cand_lines (k : nat) (cs : list cand) : bytes :=
  match cs with [] => [] | c :: cs => cand_line k c ++ cand_lines (S k) cs end.

Lemma unpack_pack_cands max cs : forall k out,
  Forall cand_ok cs -> (length (out ++ cand_lines k cs) < max)%nat ->
  unpack_cands (length cs) k max (concat (map cand_bytes cs)) out = Unpacked (out ++ cand_lines k cs).
Proof.
  induction cs as [|c cs IH]; intros k out Hok Hlen; cbn [length unpack_cands map concat cand_lines]; [by rewrite app_nil_r|].
  apply Forall_cons in Hok as [[Ht Hp Hq Ha] Hok]. cbn [cand_lines] in Hlen. rewrite app_assoc in Hlen.
  specialize (IH (S k) (out ++ cand_line k c) Hok Hlen). set (tl := concat (map cand_bytes cs)) in *.
  unfold cand_bytes. rewrite <- !app_assoc. cbn [app rd1].
  assert (Hf : u8 (cd_fam c) = cd_fam c) by (apply u8_small; destruct Ha as [[-> _]|[-> _]]; lia).
  destruct (Nat.ltb_spec (length (u8 (cd_type c) :: u8 (cd_fam c) :: be_put 4 (cd_prio c) ++ be_put 2 (cd_port c) ++
    cd_addr c ++ tl)) 8) as [Hs|_].
  { cbn [length] in Hs. rewrite !length_app, !be_put_length in Hs. lia. }
  rewrite (rdn_app (be_put 4 _)), (rdn_app (be_put 2 _)) by apply be_put_length. rewrite Hf, u8_small by lia.
  assert (HL : length (cd_addr c) = if cd_fam c =? 6 then 16%nat else 4%nat).
  { destruct Ha as [[-> ->]|[-> ->]]; done. }
  rewrite length_app, HL. destruct (Nat.ltb_spec ((if cd_fam c =? 6 then 16%nat else 4%nat) + length tl)
    (if cd_fam c =? 6 then 16%nat else 4%nat)); [lia|]. rewrite (rdn_app (cd_addr c)) by done.
  rewrite !be_get_put. change (2 ^ (8 * Z.of_nat 4)) with (2 ^ 32). change (2 ^ (8 * Z.of_nat 2)) with (2 ^ 16).
  unfold is_u32, is_u16 in *. rewrite !Z.mod_small by lia.
  assert (Hn : type_name (cd_type c) = Some (type_text c)).
  { unfold type_text, type_name, CT_HOST, CT_SRFLX, CT_PRFLX, CT_RELAY.
    assert (cd_type c = 0 \/ cd_type c = 1 \/ cd_type c = 2 \/ cd_type c = 3) as [-> | [-> | [-> | ->]]] by lia; done. }
  rewrite Hn. cbv zeta. fold (addr_text c). fold (cand_line k c).
  destruct (Nat.leb_spec max (length (out ++ cand_line k c))) as [Hm|Hm]; [rewrite length_app in Hlen; lia|].
  rewrite IH. by rewrite app_assoc.
Qed.

(** The candidates packed: the first 255 the policy keeps. *)
Definition kept (sdp : bytes) (for_dht : bool) : list cand :=
  take 255 (omap (cand_of_line (pack_policy for_dht)) (sdp_lines sdp)).

Lemma pack_cands_spec pol max ls : forall head cs out,
  (length cs <= 255)%nat -> pack_cands pol max ls head (concat (map cand_bytes cs)) (length cs) = Some out ->
  let all := cs ++ take (255 - length cs) (omap (cand_of_line pol) ls) in
  out = head ++ [Z.of_nat (length all)] ++ concat (map cand_bytes all) /\ (length all <= 255)%nat.
Proof.
  induction ls as [|l ls IH]; intros head cs out Hcs; cbn [pack_cands omap list_omap].
  { intros [= <-]. rewrite take_nil, app_nil_r. split; [|done]. rewrite u8_small by lia. done. }
  destruct (cand_of_line pol l) as [c|]; [|by apply IH].
  destruct (Nat.eqb_spec (length cs) 255) as [E|E].
  { intros [= <-]. rewrite E, Nat.sub_diag, take_0, app_nil_r, E. split; [|lia]. by rewrite u8_small by lia. }
  match goal with |- (if ?b then _ else _) = _ -> _ => destruct b end; [done|]. intros H.
  specialize (IH head (cs ++ [c]) out). rewrite length_app, map_app, concat_app in IH. cbn [length map concat] in IH.
  rewrite app_nil_r, Nat.add_1_r in IH. specialize (IH ltac:(lia) H). cbv zeta in *.
  replace (255 - length cs)%nat with (S (255 - S (length cs))) by lia. cbn [take]. by rewrite <- app_assoc in IH.
Qed.

Lemma kept_ok sdp fd : Forall cand_ok (kept sdp fd).
Proof.
  unfold kept. apply Forall_take, Forall_forall. intros c Hc. apply list_elem_of_omap in Hc as (l & _ & H). by eapply cand_of_line_ok.
Qed.

(** The credentials hold none of the bytes a description cannot hold. *)
Lemma take_word_ok n s w r : cstr_ok s -> take_word n s = (w, r) -> cstr_ok w.
Proof.
  revert s w r. induction n as [|n IH]; intros s w r Hs; destruct s as [|c s]; cbn; try (intros [= <- _]; constructor).
  unfold cstr_ok in Hs. apply Forall_cons in Hs as [Hc Hs]. destruct (isspace c); [intros [= <- _]; constructor|].
  destruct (take_word n s) as [w' r'] eqn:E. intros [= <- _]. constructor; [done|]. by eapply IH.
Qed.
Lemma skip_space_ok s : cstr_ok s -> cstr_ok (skip_space s).
Proof. induction 1 as [|c s Hc Hs IH]; cbn; [constructor|]. destruct (isspace c); [done|]. by constructor. Qed.
Lemma scan_s_ok n s w r : cstr_ok s -> scan_s n s = Some (w, r) -> cstr_ok w.
Proof.
  intros Hs. unfold scan_s. destruct (take_word n (skip_space s)) as [[|c w'] r'] eqn:E; [done|]. intros [= <- _].
  eapply take_word_ok; [by apply skip_space_ok|exact E].
Qed.
Lemma copy_line_ok s : forall buf n, cstr_ok s -> cstr_ok buf -> cstr_ok (copy_line s buf n).1 /\ cstr_ok (copy_line s buf n).2.
Proof.
  induction s as [|c s IH]; intros buf n Hs Hb; cbn; [by split|]. unfold cstr_ok in Hs. apply Forall_cons in Hs as [Hc Hs].
  destruct (c =? 10); [by split|]. apply IH; [done|]. destruct (_ && _); [|done]. apply Forall_app. split; [done|by constructor].
Qed.
Lemma next_lines_ok fuel : forall p, cstr_ok p -> Forall cstr_ok (next_lines fuel p).
Proof.
  induction fuel as [|fuel IH]; intros p Hp; cbn; [constructor|]. destruct p as [|c p]; [constructor|]. cbn [next_line].
  destruct (copy_line_ok (c :: p) [] 512 Hp ltac:(constructor)) as [H1 H2].
  destruct (copy_line (c :: p) [] 512) as [l q]. constructor; [done|]. by apply IH.
Qed.
Lemma cred_value_ok line key out n : cstr_ok line -> cstr_ok out -> cstr_ok (cred_value line key out n).2.
Proof.
  intros Hl Ho. unfold cred_value. destruct (negb _); [done|].
  destruct (scan_s 256 _) as [[w r]|] eqn:E; [|done]. cbn. eapply scan_s_ok; [|exact E]. by apply Forall_drop.
Qed.
Lemma creds_ok sdp : cstr_ok sdp -> cstr_ok (creds sdp).1 /\ cstr_ok (creds sdp).2.
Proof.
  intros Hs. unfold creds. pose proof (next_lines_ok (length sdp) sdp Hs) as Hl. fold (sdp_lines sdp) in Hl.
  assert (H0 : cstr_ok (@nil Z, @nil Z).1 /\ cstr_ok (@nil Z, @nil Z).2) by (split; constructor).
  revert H0. generalize (@nil Z, @nil Z). induction Hl as [|l ls Hc Hls IH]; intros c Hc0; cbn [fold_left]; [done|].
  apply IH. destruct Hc0. split; by apply cred_value_ok.
Qed.
Lemma c_text_id s : cstr_ok s -> c_text s = s.
Proof. induction 1 as [|c s Hc Hs IH]; cbn; [done|]. destruct (Z.eqb_spec c 0); [lia|]. by rewrite IH. Qed.

(** The description the reader rebuilds. *)
Definition describe (ufrag pwd : bytes) (cs : list cand) : bytes :=
  cstr "a=ice-ufrag:" ++ ufrag ++ [10] ++ cstr "a=ice-pwd:" ++ pwd ++ [10] ++ cand_lines 0 cs.

Lemma unpack_packed_creds max ufrag pwd cs :
  cstr_ok ufrag -> cstr_ok pwd -> (length ufrag <= 255)%nat -> (length pwd <= 255)%nat -> (length cs <= 255)%nat ->
  Forall cand_ok cs -> (length (describe ufrag pwd cs) < max)%nat ->
  unpack_creds max ([u8 (Z.of_nat (length ufrag))] ++ ufrag ++ [u8 (Z.of_nat (length pwd))] ++ pwd ++
    [Z.of_nat (length cs)] ++ concat (map cand_bytes cs)) = Unpacked (describe ufrag pwd cs).
Proof.
  intros Hu Hp Lu Lp Lc Hok Hlen. unfold unpack_creds. rewrite !u8_small by lia. cbn [app rd1].
  rewrite !Nat2Z.id. match goal with |- context [(?a <=? length ufrag)%nat] => destruct (Nat.leb_spec a (length ufrag)) as [H|_] end.
  { rewrite length_app in H. cbn [length] in H. lia. }
  rewrite (rdn_app ufrag) by done. cbn [rd1]. rewrite Nat2Z.id.
  match goal with |- context [(?a <? length pwd)%nat] => destruct (Nat.ltb_spec a (length pwd)) as [H|_] end.
  { rewrite length_app in H. lia. }
  rewrite (rdn_app pwd) by done. cbn [length Nat.eqb rd1]. rewrite Nat2Z.id. cbv zeta.
  assert (E : describe ufrag pwd cs = creds_text ufrag pwd ++ cand_lines 0 cs).
  { unfold describe, creds_text. rewrite !c_text_id by done. by rewrite <- !app_assoc. }
  rewrite E in *. destruct (Nat.leb_spec max (length (creds_text ufrag pwd))) as [H|_]; [rewrite length_app in Hlen; lia|].
  by apply unpack_pack_cands.
Qed.

Definition cid_of (cid : option bytes) : bytes := match cid with Some c => c | None => replicate CANDPACK_CID_LEN 0 end.

(** The reader on a packing of version 4, from its parts. *)
Lemma decode_parts gen ou cidb rest om max :
  is_u32 gen -> (length ou <= 255)%nat -> (length cidb = 0 \/ length cidb = CANDPACK_CID_LEN)%nat -> (length ou < om)%nat -> rest <> [] ->
  candpack_decode ([CANDPACK_VERSION] ++ be_put 4 gen ++ [u8 (Z.of_nat (length ou))] ++ ou ++
    [u8 (Z.of_nat (length cidb))] ++ cidb ++ rest) om max
  = (mk_uo (Some gen) ou (if (length cidb =? 0)%nat then replicate CANDPACK_CID_LEN 0 else cidb), unpack_creds max rest).
Proof.
  intros Hg Lo Lc Hom Hr. unfold candpack_decode. cbn [app length Nat.ltb Nat.leb rd1 orb Z.ltb].
  change ((CANDPACK_VERSION <? 2) || (CANDPACK_VERSION <? CANDPACK_VERSION)) with false. cbn iota.
  match goal with |- context [(?a <=? 3)%nat] => destruct (Nat.leb_spec a 3) as [H|_] end.
  { rewrite length_app, be_put_length in H. lia. }
  rewrite (rdn_app (be_put 4 gen)) by apply be_put_length. change (3 <=? CANDPACK_VERSION) with true. cbn iota. cbn [length Nat.eqb rd1].
  rewrite be_get_put. change (2 ^ (8 * Z.of_nat 4)) with (2 ^ 32). unfold is_u32 in Hg. rewrite Z.mod_small by lia.
  rewrite !u8_small by (unfold CANDPACK_CID_LEN in *; lia). rewrite Nat2Z.id. unfold unpack_offer.
  match goal with |- context [(?a <=? length ou)%nat] => destruct (Nat.leb_spec a (length ou)) as [H|_] end.
  { rewrite length_app in H. cbn [length] in H. lia. }
  change (3 <=? CANDPACK_VERSION) with true. cbn [andb]. destruct (Nat.eqb_spec om 0); [lia|]. cbn [negb andb].
  destruct (Nat.leb_spec om (length ou)) as [|_]; [lia|]. rewrite (rdn_app ou) by done. cbn [uo_gen uo_cid].
  unfold unpack_cid. change (CANDPACK_VERSION <? 4) with false. cbn [length Nat.eqb rd1]. rewrite Nat2Z.id.
  match goal with |- context [(?a <=? length cidb)%nat] => destruct (Nat.leb_spec a (length cidb)) as [H|_] end.
  { rewrite length_app in H. destruct rest; [done|]. cbn [length] in H. lia. }
  rewrite (rdn_app cidb) by done. f_equal. cbn [uo_gen uo_ufrag]. unfold CANDPACK_CID_LEN in *.
  destruct Lc as [-> | ->]; done.
Qed.

(** ** Properties *)

(** The reader of a packed description never reads past its input, whatever the
    bytes, always comes to an end, and a description it returns fits its buffer
    with room for the terminator. *)
Theorem candpack_decode_in_bounds inp om max :
  inside max (candpack_decode inp om max).2.
Proof.
  unfold candpack_decode. destruct (Nat.ltb_spec (length inp) 1); [done|]. destruct inp as [|ver p]; cbn [length] in *; [lia|].
  cbn [rd1]. destruct (_ || _); [done|]. destruct (Nat.ltb_spec (length p) 4); [done|]. rewrite rdn_ok by lia. cbv zeta.
  destruct (3 <=? ver); [|apply unpack_offer_inside]. destruct (drop 4 p) as [|oul q]; [done|]. cbn [length Nat.eqb rd1].
  apply unpack_offer_inside.
Qed.

(** What is packed is read back: the generation, the offer answered, the instance,
    the credentials and, in order and renumbered, the first 255 candidates the
    policy keeps. *)
Theorem candpack_roundtrip sdp for_dht gen ou cid max out om max' :
  cstr_ok sdp -> is_u32 gen -> (forall c, cid = Some c -> length c = CANDPACK_CID_LEN) -> (length (default [] ou) < om)%nat ->
  candpack_encode sdp for_dht gen ou cid max = Packed out ->
  (length (creds sdp).1 <= 255)%nat -> (length (creds sdp).2 <= 255)%nat ->
  let text := describe (creds sdp).1 (creds sdp).2 (kept sdp for_dht) in
  (length text < max')%nat ->
  candpack_decode out om max' = (mk_uo (Some gen) (default [] ou) (cid_of cid), Unpacked text).
Proof.
  intros Hs Hg Hcid Hom He L1 L2 text Ht. subst text. destruct (creds_ok sdp Hs) as [C1 C2]. unfold candpack_encode in He.
  change (match ou with Some u => u | None => [] end) with (default [] ou) in He. destruct (Nat.ltb_spec 255 (length (default [] ou))) as [|Lo]; [done|].
  destruct (creds sdp) as [ufrag pwd]. cbn [fst snd] in *. destruct (_ || _); [done|].
  match type of He with (if ?b then _ else _) = _ => destruct b end; [done|].
  match type of He with context [pack_cands _ _ _ ?h] => set (head := h) in He end.
  destruct (pack_cands _ _ _ head [] 0) as [o|] eqn:Ep; [|done]. injection He as ->.
  apply (pack_cands_spec _ _ _ head []) in Ep; [|cbn; lia]. cbv zeta in Ep. rewrite app_nil_l in Ep.
  change (255 - length (@nil cand))%nat with 255%nat in Ep. fold (kept sdp for_dht) in Ep. destruct Ep as [-> Lc]. set (cidb := match cid with Some c => c | None => [] end) in head.
  assert (Hlc : (length cidb = 0 \/ length cidb = CANDPACK_CID_LEN)%nat).
  { unfold cidb. destruct cid as [c|]; [right; by apply Hcid|by left]. }
  assert (Ecid : cid_of cid = if (length cidb =? 0)%nat then replicate CANDPACK_CID_LEN 0 else cidb).
  { unfold cidb, cid_of. destruct cid as [c|]; [by rewrite (Hcid c)|done]. }
  rewrite Ecid. unfold head. rewrite <- !app_assoc. rewrite decode_parts by done. f_equal.
  apply unpack_packed_creds; try done. apply kept_ok.
Qed.

Definition demo_desc : bytes :=
  cstr "a=ice-ufrag:ab" ++ [13; 10] ++ cstr "a=ice-pwd:xyz" ++ [10] ++
  cstr "a=candidate:1 1 UDP 9 192.168.1.4 5000 typ host" ++ [10] ++
  cstr "a=candidate:2 1 UDP 8 fe80::1 5000 typ host" ++ [10] ++
  cstr "a=candidate:3 1 udp 7 203.0.113.9 6000 typ srflx" ++ [10].
Lemma candpack_roundtrip_witness :
  exists out, candpack_encode demo_desc true 7 (Some (cstr "of")) None 200 = Packed out /\
    (candpack_decode out 16 400).2 = Unpacked (cstr "a=ice-ufrag:ab" ++ [10] ++ cstr "a=ice-pwd:xyz" ++ [10] ++
    cstr "a=candidate:0 1 UDP 9 192.168.1.4 5000 typ host" ++ [10] ++
    cstr "a=candidate:1 1 UDP 7 203.0.113.9 6000 typ srflx raddr 0.0.0.0 rport 0" ++ [10]).
Proof.
  eexists. split; [vm_compute; reflexivity|].
  erewrite (candpack_roundtrip demo_desc true 7 (Some (cstr "of")) None 200).
  - vm_compute. reflexivity.
  - unfold demo_desc, cstr_ok. rewrite !Forall_app. repeat split; repeat constructor; done.
  - unfold is_u32. lia.
  - done.
  - vm_compute. lia.
  - vm_compute. reflexivity.
  - vm_compute. lia.
  - vm_compute. lia.
  - vm_compute. lia.
Defined.

(** A credential of 256 characters is not refused: its length byte is 0, and what the
    other end reads is another description, or none. *)
Definition long_desc : bytes :=
  cstr "a=ice-ufrag:" ++ replicate 256 120 ++ [10] ++ cstr "a=ice-pwd:xyz" ++ [10].
(** A description with a ufrag of 256 characters is packed with the length 0, and
    the reader does not get the credential back. *)
Theorem long_ufrag_lost :
  exists out, candpack_encode long_desc true 7 None None 1000 = Packed out /\
    length (creds long_desc).1 = 256%nat /\ (candpack_decode out 16 1000).2 = UnpackErr (-1).
Proof. eexists. split; [vm_compute; reflexivity|]. split; vm_compute; reflexivity. Qed.
