(* ===== verification/Sha1.v ===== *)
(** src/src/sha1.c: SHA-1 over a message that arrives in pieces. A context keeps
    the chaining value, the bytes seen and a buffer whose first [len % 64] bytes
    are the message's tail; the rest of the buffer is whatever was there. *)
From S2P Require Import Prelude.

Definition rotl (x n : Z) : Z := u32 (x << n) .| (x >> (32 - n)).

Record cc_sha1_ctx := mk_sha1 { sc_h : list Z; sc_len : Z; sc_buf : bytes }.

(** ** One block *)
Fixpoint load_words (p : bytes) : list Z :=
  match p with
  | a :: b :: c :: d :: p => be_get [a; b; c; d] :: load_words p
  | _ => []
  end.
(** The schedule, last word first: [w[i]] from [w[i-3]], [w[i-8]], [w[i-14]], [w[i-16]]. *)
Fixpoint expand (n : nat) (rev : list Z) : list Z :=
  match n with
  | O => rev
  | S n =>
      let at_ k := nth (k - 1) rev 0 in
      expand n (rotl (Z.lxor (Z.lxor (Z.lxor (at_ 3%nat) (at_ 8%nat)) (at_ 14%nat)) (at_ 16%nat)) 1 :: rev)
  end.
Definition schedule (p : bytes) : list Z := rev (expand 64 (rev (load_words p))).

Definition round_fk (i : nat) (b c d : Z) : Z * Z :=
  if (i <? 20)%nat then ((b .& c) .| (Z.lnot b .& d), 0x5a827999)
  else if (i <? 40)%nat then (Z.lxor (Z.lxor b c) d, 0x6ed9eba1)
  else if (i <? 60)%nat then ((b .& c) .| (b .& d) .| (c .& d), 0x8f1bbcdc)
  else (Z.lxor (Z.lxor b c) d, 0xca62c1d6).
Definition sha1_round (s : Z * Z * Z * Z * Z) (iw : nat * Z) : Z * Z * Z * Z * Z :=
  let '(a, b, c, d, e) := s in
  let '(f, k) := round_fk iw.1 b c d in
  (u32 (rotl a 5 + f + e + k + iw.2), a, rotl b 30, c, d).

Definition cc_sha1_block (h : list Z) (p : bytes) : list Z :=
  match h with
  | [h0; h1; h2; h3; h4] =>
      let '(a, b, c, d, e) := fold_left sha1_round (zip (seq 0 80) (schedule p)) (h0, h1, h2, h3, h4) in
      [u32 (h0 + a); u32 (h1 + b); u32 (h2 + c); u32 (h3 + d); u32 (h4 + e)]
  | _ => h
  end.

(** ** The context *)
Definition SHA1_H0 : list Z := [0x67452301; 0xefcdab89; 0x98badcfe; 0x10325476; 0xc3d2e1f0].
(** [buf] is what the memory held. *)
Definition cc_sha1_init (buf : bytes) : cc_sha1_ctx := mk_sha1 SHA1_H0 0 buf.

(** The loop over whole blocks. *)
Fixpoint sha1_blocks (n : nat) (h : list Z) (p : bytes) : list Z :=
  match n with O => h | S n => sha1_blocks n (cc_sha1_block h (take 64 p)) (drop 64 p) end.

(** [memcpy(buf + at, data, ..)] *)
Definition splice (buf : bytes) (at_ : nat) (data : bytes) : bytes :=
  take at_ buf ++ data ++ drop (at_ + length data) buf.

(** The blocks of [p] and its tail, when the buffer is empty. *)
Definition sha1_whole (h : list Z) (len : Z) (buf p : bytes) : cc_sha1_ctx :=
  let n := (length p / 64)%nat in
  mk_sha1 (sha1_blocks n h p) len (splice buf 0 (drop (64 * n) p)).
Definition cc_sha1_update (ctx : cc_sha1_ctx) (p : bytes) : cc_sha1_ctx :=
  let fill := Z.to_nat (sc_len ctx mod 64) in
  let len := u64 (sc_len ctx + Z.of_nat (length p)) in
  if (fill =? 0)%nat then sha1_whole (sc_h ctx) len (sc_buf ctx) p
  else
    let n := if (length p <? 64 - fill)%nat then length p else (64 - fill)%nat in
    let buf := splice (sc_buf ctx) fill (take n p) in
    if (fill + n <? 64)%nat then mk_sha1 (sc_h ctx) len buf
    else sha1_whole (cc_sha1_block (sc_h ctx) buf) len buf (drop n p).

Definition sha1_pad (len : Z) : bytes :=
  let fill := Z.to_nat (len mod 64) in
  let padlen := ((if (fill <? 56)%nat then 56 else 120) - fill)%nat in
  128 :: replicate (padlen - 1) 0 ++ be_put 8 (u64 (len * 8)).
Definition cc_sha1_final (ctx : cc_sha1_ctx) : bytes :=
  concat (map (be_put 4) (sc_h (cc_sha1_update ctx (sha1_pad (sc_len ctx))))).

Definition cc_sha1 (data : bytes) : bytes := cc_sha1_final (cc_sha1_update (cc_sha1_init (replicate 64 0)) data).
Definition SHA1_LEN : nat := 20.

Example sha1_abc : cc_sha1 (cstr "abc") =
  [0xa9;0x99;0x3e;0x36;0x47;0x06;0x81;0x6a;0xba;0x3e;0x25;0x71;0x78;0x50;0xc2;0x6c;0x9c;0xd0;0xd8;0x9d].
Proof. vm_compute. reflexivity. Qed.

(** ** The standard's definition: the padded message, block by block *)
Definition sha1 (m : bytes) : bytes :=
  let padded := m ++ sha1_pad (Z.of_nat (length m)) in
  concat (map (be_put 4) (sha1_blocks (length padded / 64) SHA1_H0 padded)).

(** ** Lemmas *)
Lemma sha1_blocks_add a b h p : sha1_blocks (a + b) h p = sha1_blocks b (sha1_blocks a h p) (drop (64 * a) p).
Proof.
  revert h p. induction a as [|a IH]; intros h p; cbn [Nat.add sha1_blocks]; [done|].
  rewrite IH, drop_drop. f_equal. f_equal. lia.
Qed.
Lemma sha1_blocks_prefix n h p q : (64 * n <= length p)%nat -> sha1_blocks n h (p ++ q) = sha1_blocks n h p.
Proof.
  revert h p. induction n as [|n IH]; intros h p Hl; cbn [sha1_blocks]; [done|].
  rewrite take_app_le by lia. rewrite drop_app_le by lia. apply IH. rewrite length_drop. lia.
Qed.
Lemma splice_take buf at_ d : (at_ <= length buf)%nat -> take (at_ + length d) (splice buf at_ d) = take at_ buf ++ d.
Proof.
  intros H. unfold splice. rewrite app_assoc. apply take_app_length'. rewrite length_app, length_take. lia.
Qed.
Lemma splice_length buf at_ d : (at_ + length d <= length buf)%nat -> length (splice buf at_ d) = length buf.
Proof. intros H. unfold splice. rewrite !length_app, length_take, length_drop. lia. Qed.

(** What a context stands for: the message so far. *)
Record rep (ctx : cc_sha1_ctx) (m : bytes) : Prop := {
  rp_len : sc_len ctx = u64 (Z.of_nat (length m));
  rp_h : sc_h ctx = sha1_blocks (length m / 64) SHA1_H0 m;
  rp_size : length (sc_buf ctx) = 64%nat;
  rp_buf : take (length m mod 64) (sc_buf ctx) = drop (64 * (length m / 64)) m
}.
Lemma rep_fill ctx m : rep ctx m -> Z.to_nat (sc_len ctx mod 64) = (length m mod 64)%nat.
Proof.
  intros H. rewrite (rp_len _ _ H). unfold u64.
  rewrite <- (Znumtheory.Zmod_div_mod 64 (2 ^ 64)) by (try lia; exists (2 ^ 58); reflexivity).
  change 64 with (Z.of_nat 64). rewrite <- Nat2Z.inj_mod. apply Nat2Z.id.
Qed.
Lemma rep_len_step ctx m p : rep ctx m ->
  u64 (sc_len ctx + Z.of_nat (length p)) = u64 (Z.of_nat (length (m ++ p))).
Proof.
  intros H. rewrite (rp_len _ _ H). unfold u64. rewrite length_app, Nat2Z.inj_add. apply Z.add_mod_idemp_l. lia.
Qed.

Lemma rep_whole m q p h len buf :
  (length (m ++ q) mod 64 = 0)%nat -> h = sha1_blocks (length (m ++ q) / 64) SHA1_H0 (m ++ q) ->
  len = u64 (Z.of_nat (length ((m ++ q) ++ p))) -> length buf = 64%nat ->
  rep (sha1_whole h len buf p) ((m ++ q) ++ p).
Proof.
  set (M := m ++ q). intros Hm Hh Hl Hb. pose proof (Nat.div_mod_eq (length M) 64) as D.
  assert (Q : (length (M ++ p) / 64 = length M / 64 + length p / 64)%nat).
  { rewrite length_app. replace (length M) with (length M / 64 * 64)%nat at 1 by lia. by rewrite Nat.div_add_l. }
  pose proof (Nat.div_mod_eq (length p) 64) as D2. pose proof (Nat.mod_upper_bound (length p) 64 ltac:(lia)) as U2.
  pose proof (Nat.div_mod_eq (length (M ++ p)) 64) as D3.
  assert (R : (length (M ++ p) mod 64 = length p mod 64)%nat) by (rewrite length_app in D3 |- *; rewrite length_app in Q; lia).
  unfold sha1_whole. split; cbn [sc_len sc_h sc_buf]; [exact Hl| | |].
  - rewrite Q, sha1_blocks_add. rewrite sha1_blocks_prefix by lia. rewrite <- Hh. f_equal.
    rewrite drop_app_ge by lia. replace (64 * (length M / 64) - length M)%nat with 0%nat by lia. by rewrite drop_0.
  - rewrite splice_length; [done|]. rewrite length_drop. lia.
  - rewrite R, Q. assert (Hd : (length (drop (64 * (length p / 64)) p) = length p mod 64)%nat) by (rewrite length_drop; lia).
    pose proof (splice_take buf 0 (drop (64 * (length p / 64)) p)) as W. cbn [Nat.add] in W.
    rewrite <- Hd, W by lia. rewrite take_0, app_nil_l.
    rewrite drop_app_ge by lia. f_equal. lia.
Qed.

Lemma rep_update ctx m p : rep ctx m -> rep (cc_sha1_update ctx p) (m ++ p).
Proof.
  intros H. unfold cc_sha1_update. rewrite (rep_fill _ _ H), (rep_len_step _ _ p H).
  pose proof (Nat.div_mod_eq (length m) 64) as D. pose proof (Nat.mod_upper_bound (length m) 64 ltac:(lia)) as U.
  destruct H as [_ Hh Hs Hb]. set (fill := (length m mod 64)%nat) in *. destruct (Nat.eqb_spec fill 0) as [F|F].
  { pose proof (rep_whole m [] p (sc_h ctx) (u64 (Z.of_nat (length (m ++ p)))) (sc_buf ctx)) as W.
    rewrite app_nil_r in W. apply W; try done. }
  set (n := if (length p <? 64 - fill)%nat then length p else (64 - fill)%nat).
  assert (Hn : (n <= length p /\ n <= 64 - fill)%nat) by (unfold n; destruct (Nat.ltb_spec (length p) (64 - fill)); lia).
  assert (Ln : length (take n p) = n) by (rewrite length_take; lia).
  assert (Bl : length (splice (sc_buf ctx) fill (take n p)) = 64%nat) by (rewrite splice_length; rewrite ?Ln; lia).
  assert (Bt : take (fill + n) (splice (sc_buf ctx) fill (take n p)) = drop (64 * (length m / 64)) m ++ take n p).
  { rewrite <- Hb, <- Ln at 1. apply splice_take. lia. }
  destruct (Nat.ltb_spec (fill + n) 64) as [Hlt|Hge].
  - assert (En : n = length p) by (unfold n in *; destruct (Nat.ltb_spec (length p) (64 - fill)); lia).
    rewrite En in *. rewrite (take_ge p (length p)) in * by done.
    assert (Q : (length (m ++ p) / 64 = length m / 64)%nat /\ (length (m ++ p) mod 64 = fill + length p)%nat).
    { rewrite length_app. split; [symmetry; apply (Nat.div_unique _ _ _ (fill + length p)) | symmetry; apply (Nat.mod_unique _ _ (length m / 64))]; lia. }
    destruct Q as [Q1 Q2]. split; cbn [sc_len sc_h sc_buf]; try done.
    + rewrite Q1, sha1_blocks_prefix by lia. done.
    + rewrite Q1, Q2, Bt. rewrite drop_app_le by lia. done.
  - assert (En : n = (64 - fill)%nat) by lia. assert (Ep : m ++ p = (m ++ take n p) ++ drop n p) by (by rewrite <- app_assoc, take_drop).
    rewrite Ep. rewrite (take_ge _ (fill + n)) in Bt by lia.
    assert (Q : (length (m ++ take n p) = 64 * (length m / 64 + 1))%nat) by (rewrite length_app, Ln; lia).
    assert (Q1 : (length (m ++ take n p) / 64 = length m / 64 + 1)%nat) by (rewrite Q, Nat.mul_comm, Nat.div_mul; lia).
    apply rep_whole; try done.
    + rewrite Q, Nat.mul_comm. apply Nat.Div0.mod_mul.
    + rewrite Q1, sha1_blocks_add. rewrite (sha1_blocks_prefix _ _ m) by lia. rewrite <- Hh. cbn [sha1_blocks]. f_equal.
      rewrite drop_app_le by lia. rewrite <- Bt. symmetry. apply take_ge. lia.
Qed.

(** ** Properties *)
Lemma rep_init buf : length buf = 64%nat -> rep (cc_sha1_init buf) [].
Proof. intros H. split; cbn; done. Qed.
Lemma rep_updates chunks : forall ctx m, rep ctx m -> rep (fold_left cc_sha1_update chunks ctx) (m ++ concat chunks).
Proof.
  induction chunks as [|p chunks IH]; intros ctx m H; cbn [fold_left concat]; [by rewrite app_nil_r|].
  rewrite app_assoc. by apply IH, rep_update.
Qed.
Lemma sha1_pad_u64 n : sha1_pad (u64 n) = sha1_pad n.
Proof.
  unfold sha1_pad, u64.
  rewrite <- (Znumtheory.Zmod_div_mod 64 (2 ^ 64)) by (try lia; exists (2 ^ 58); reflexivity).
  by rewrite Z.mul_mod_idemp_l.
Qed.

(** However a message is cut into pieces, and whatever the buffer held, the digest is
    that of the whole message: its blocks after the padding of the standard. *)
Theorem sha1_pieces buf chunks :
  length buf = 64%nat ->
  cc_sha1_final (fold_left cc_sha1_update chunks (cc_sha1_init buf)) = sha1 (concat chunks).
Proof.
  intros Hb. pose proof (rep_updates chunks _ [] (rep_init buf Hb)) as H. rewrite app_nil_l in H.
  set (ctx := fold_left _ _ _) in *. set (m := concat chunks) in *. unfold cc_sha1_final, sha1. do 2 f_equal.
  rewrite (rp_len _ _ H), sha1_pad_u64. exact (rp_h _ _ (rep_update _ _ _ H)).
Qed.
Lemma sha1_pieces_witness :
  cc_sha1_final (fold_left cc_sha1_update [cstr "a"; []; cstr "bc"] (cc_sha1_init (replicate 64 255))) = cc_sha1 (cstr "abc").
Proof. rewrite (sha1_pieces (replicate 64 255)) by reflexivity. vm_compute. reflexivity. Defined.
