(* ===== verification/Bep44.v ===== *)
(** src/src/bep44.c, what its two sides share: names of items, the text a signature
    covers, distances and the judgements on addresses. A [sockaddr] carries its own
    length, so the length checks of the C code are those of its family. *)
From S2P Require Import Prelude Net Bencode Crypto Sha1.

Definition BEP44_MAX_VALUE : nat := 1000.
Definition BEP44_MAX_SALT : nat := 64.
Definition B44_MSG_MAX : nat := 1400.

(** ** Sizing the store *)
Definition B44_STORE_MIN : Z := 64.
Definition B44_STORE_MAX : Z := 32768.
Definition B44_STORE_DEFAULT : Z := 256.
Definition B44_ITEM_BUDGET : Z := 1280.
(** [total]: the installed memory, 0 when the platform does not say. *)
Definition store_cap_for_memory (total : Z) : Z :=
  if total =? 0 then B44_STORE_DEFAULT
  else
    let records := total / 200 / B44_ITEM_BUDGET in
    if records <? B44_STORE_MIN then B44_STORE_MIN
    else if B44_STORE_MAX <? records then B44_STORE_MAX
    else records.

(** ** Writing a message: the buffer's content, [None] when it did not fit. *)
Definition write_msg (cap : nat) (ops : list wop) : option bytes :=
  let b := fold_left wop_run ops (benc_buf_init cap) in
  if bb_err b then None else Some (bb_data b).
Definition raw (s : String.string) : wop := WRaw (cstr s).
Definition key (s : String.string) : wop := WKey (cstr s).

(** ** Names and signatures *)
Definition sha1_ctx_of (chunks : list bytes) : bytes :=
  cc_sha1_final (fold_left cc_sha1_update chunks (cc_sha1_init (replicate 64 0))).

Definition sig_ops (salt : bytes) (seq : Z) (v : bytes) : list wop :=
  (if bool_decide (salt = []) then [] else [raw "4:salt"; WStr salt]) ++
  [raw "3:seq"; WInt seq; raw "1:v"; WRaw v].
(** [None] is the return of 0. *)
Definition sig_buffer_n (dst_len : nat) (salt : bytes) (seq : Z) (v : bytes) : option bytes :=
  write_msg dst_len (sig_ops salt seq v).
Definition SIGBUF_LEN : nat := BEP44_MAX_VALUE + 128.
Definition target_n (pk salt : bytes) : bytes :=
  sha1_ctx_of (if bool_decide (salt = []) then [pk] else [pk; salt]).
Definition bep44_sig_buffer (dst_len : nat) (salt : option bytes) (seq : Z) (v : bytes) : option bytes :=
  sig_buffer_n dst_len (default [] salt) seq v.
Definition bep44_target (pk : bytes) (salt : option bytes) : bytes := target_n pk (default [] salt).
Definition bep44_immutable_target (v : bytes) : bytes := cc_sha1 v.

(** ** Distances and addresses *)
Definition dist_calc (id target : bytes) : bytes := zip_with Z.lxor id target.

Definition addr_eq (a : option sockaddr) (b : sockaddr) : bool :=
  match a, b with
  | Some (AF_INET pa aa), AF_INET pb ab => (pa =? pb) && bytes_eqb aa ab
  | Some (AF_INET6 pa aa sa), AF_INET6 pb ab sb => (pa =? pb) && (sa =? sb) && bytes_eqb aa ab
  | _, _ => false
  end.
Definition byte0 (a : bytes) (i : nat) : Z := nth i a 0.
Definition addr_martian (sa : option sockaddr) : bool :=
  match sa with
  | Some (AF_INET p a) =>
      (p =? 0) || (byte0 a 0 =? 0) || (byte0 a 0 =? 127) || (byte0 a 0 .& 0xe0 =? 0xe0)
  | Some (AF_INET6 p a _) =>
      (p =? 0) || (byte0 a 0 =? 0xff) || ((byte0 a 0 =? 0xfe) && (byte0 a 1 .& 0xc0 =? 0x80)) ||
      bytes_eqb (take 12 a) (replicate 10 0 ++ [0xff; 0xff]) ||
      (bytes_eqb (take 15 a) (replicate 15 0) && ((byte0 a 15 =? 0) || (byte0 a 15 =? 1)))
  | _ => true
  end.
Definition addr_same_host (a b : sockaddr) : bool :=
  match a, b with
  | AF_INET _ aa, AF_INET _ ab => bytes_eqb aa ab
  | AF_INET6 _ aa _, AF_INET6 _ ab _ => bytes_eqb aa ab
  | _, _ => false
  end.
Definition id_nonzero (id : bytes) : bool := existsb truth id.
Definition node_addr_usable (sa : sockaddr) : bool :=
  match sa with
  | AF_INET p a => negb (p =? 0) && negb (bytes_eqb a (replicate 4 0))
  | AF_INET6 p a _ => negb (p =? 0) && negb (bytes_eqb a (replicate 16 0))
  | AF_OTHER => false
  end.
Definition addr_bytes (sa : option sockaddr) : bytes :=
  match sa with
  | Some (AF_INET _ a) => a
  | Some (AF_INET6 _ a _) => a
  | _ => []
  end.
Definition is_v6 (sa : sockaddr) : bool := match sa with AF_INET6 _ _ _ => true | _ => false end.
Definition is_v4 (sa : sockaddr) : bool := match sa with AF_INET _ _ => true | _ => false end.

(** ** Lemmas *)
Lemma sha1_ctx_of_eq chunks : sha1_ctx_of chunks = sha1 (concat chunks).
Proof.
  unfold sha1_ctx_of. pose proof (rep_updates chunks _ [] (rep_init (replicate 64 0) eq_refl)) as H.
  rewrite app_nil_l in H. unfold cc_sha1_final, sha1. do 2 f_equal.
  rewrite (rp_len _ _ H), sha1_pad_u64. exact (rp_h _ _ (rep_update _ _ _ H)).
Qed.
Lemma cc_sha1_eq m : cc_sha1 m = sha1 m.
Proof. pose proof (sha1_ctx_of_eq [m]) as H. cbn [concat] in H. by rewrite app_nil_r in H. Qed.
(** An item's name is the hash of its key and its salt. *)
Lemma target_n_eq pk salt : target_n pk salt = sha1 (pk ++ salt).
Proof.
  unfold target_n. rewrite sha1_ctx_of_eq. case_bool_decide as E; cbn [concat]; rewrite ?app_nil_r; [by rewrite E, app_nil_r|done].
Qed.

Lemma sha1_blocks_length n : forall h p, length h = 5%nat -> length (sha1_blocks n h p) = 5%nat.
Proof.
  induction n as [|n IH]; intros h p H; cbn [sha1_blocks]; [done|]. apply IH.
  unfold cc_sha1_block. destruct h as [|h0 [|h1 [|h2 [|h3 [|h4 [|]]]]]]; try done.
  destruct (fold_left _ _ _) as [[[[a b] c] d] e]. done.
Qed.
Lemma be_put_concat_length n (l : list Z) : length (concat (map (be_put n) l)) = (length l * n)%nat.
Proof. induction l as [|z l IH]; [done|]. cbn [map concat length]. rewrite length_app, be_put_length, IH. lia. Qed.
Lemma sha1_length m : length (sha1 m) = 20%nat.
Proof. unfold sha1. rewrite be_put_concat_length, sha1_blocks_length; done. Qed.
Lemma sha1_bytes m : bytes_ok (sha1 m).
Proof.
  unfold sha1, bytes_ok. apply Forall_concat, Forall_map, Forall_true. intros z. apply be_put_ok.
Qed.

Lemma write_msg_some cap ops out :
  write_msg cap ops = Some out -> out = concat (map wop_text ops) /\ (length out <= cap)%nat.
Proof.
  unfold write_msg. destruct (writer_runs ops cap [] (benc_buf_init cap)) as (_ & Hl & H); [by split_and!; [done | cbn; lia |]|].
  cbn [app] in H. destruct (bb_err _); [done|]. intros [= <-]. split; [exact H|exact Hl].
Qed.
Lemma write_msg_fits cap ops :
  (length (concat (map wop_text ops)) <= cap)%nat -> write_msg cap ops = Some (concat (map wop_text ops)).
Proof.
  intros Hle. unfold write_msg. destruct (writer_runs ops cap [] (benc_buf_init cap)) as (_ & Hl & H); [by split_and!; [done | cbn; lia |]|].
  cbn [app] in H. destruct (bb_err _); [lia|]. by rewrite H.
Qed.

Lemma lxor_zero_eq a b : Z.lxor a b = 0 -> a = b.
Proof. apply Z.lxor_eq. Qed.
(** Distinct identifiers lie at distinct distances from a third. *)
Lemma dist_inj a b t : length a = length t -> length b = length t -> dist_calc a t = dist_calc b t -> a = b.
Proof.
  revert a b. induction t as [|z t IH]; intros [|x a] [|y b]; try done. cbn. intros Ha Hb [= E1 E2]. f_equal.
  - apply lxor_zero_eq. assert (Z.lxor (Z.lxor x z) (Z.lxor y z) = 0) as <- by (by rewrite E1, Z.lxor_nilpotent).
    rewrite (Z.lxor_comm y z), Z.lxor_assoc, <- (Z.lxor_assoc z z y), Z.lxor_nilpotent, Z.lxor_0_l. done.
  - apply IH; try lia. done.
Qed.
