(* ===== verification/Bep44Store.v ===== *)
(** src/src/bep44.c, the storing side: write tokens, the item store, the referral
    cache, and the answers to get and put. The clock is read once for a query, and
    the random bytes a rotation draws are an argument. *)
From S2P Require Import Prelude Net Bencode Crypto Sha1 Bep44.

Definition B44_ITEM_TTL_MS : Z := 2 * 60 * 60 * 1000.
Definition B44_TOKEN_ROTATE_MS : Z := 5 * 60 * 1000.
Definition B44_TOKEN_LEN : nat := 8.
Definition B44_SECRET_LEN : nat := 16.
Definition B44_TID_MAX : nat := 64.
Definition B44_CACHE_MAX : nat := 128.
Definition B44_REPLY_NODES : nat := 8.
Definition B44_CACHE_TTL_MS : Z := 60 * 60 * 1000.

Record b44_item := mk_item {
  it_target : bytes; it_k : bytes; it_sig : bytes; it_salt : bytes; it_mutable : bool;
  it_seq : Z; it_expires : Z; it_v : bytes
}.
Record b44_cnode := mk_cnode { cn_id : bytes; cn_ss : sockaddr; cn_seen : Z }.

(** The fields of [struct bep44_engine] the storing side uses; an empty slot is [None]. *)
Record b44_serve := mk_serve {
  sv_myid : bytes; sv_serving : bool;
  sv_secret0 : bytes; sv_secret1 : bytes; sv_rotate_ms : Z;
  sv_store : list (option b44_item);
  sv_cache : list (option b44_cnode); sv_cache_next : nat
}.
Definition serve_eta (e : b44_serve) : b44_serve :=
  mk_serve (sv_myid e) (sv_serving e) (sv_secret0 e) (sv_secret1 e) (sv_rotate_ms e) (sv_store e) (sv_cache e) (sv_cache_next e).
#[export] Instance set_sv_serving : Setter sv_serving := ltac:(solve_setter serve_eta).
#[export] Instance set_sv_secret0 : Setter sv_secret0 := ltac:(solve_setter serve_eta).
#[export] Instance set_sv_secret1 : Setter sv_secret1 := ltac:(solve_setter serve_eta).
#[export] Instance set_sv_rotate_ms : Setter sv_rotate_ms := ltac:(solve_setter serve_eta).
#[export] Instance set_sv_store : Setter sv_store := ltac:(solve_setter serve_eta).
#[export] Instance set_sv_cache : Setter sv_cache := ltac:(solve_setter serve_eta).
#[export] Instance set_sv_cache_next : Setter sv_cache_next := ltac:(solve_setter serve_eta).

(** ** Write tokens *)
Definition token_make (secret : bytes) (sa : option sockaddr) (target : bytes) : bytes :=
  let ab := addr_bytes sa in
  take B44_TOKEN_LEN (sha1_ctx_of (secret :: (if bool_decide (ab = []) then [] else [ab]) ++ [target])).
(** The constant-time comparison of two buffers of [n] bytes. *)
Fixpoint ct_diff (a b : bytes) (diff : Z) : Z :=
  match a, b with x :: a, y :: b => ct_diff a b (diff .| Z.lxor x y) | _, _ => diff end.
Definition ct_eq (a b : bytes) : bool := ct_diff a b 0 =? 0.
Definition token_valid (e : b44_serve) (tok : bytes) (sa : option sockaddr) (target : bytes) : bool :=
  (length tok =? B44_TOKEN_LEN)%nat &&
  (ct_eq (token_make (sv_secret0 e) sa target) tok || ct_eq (token_make (sv_secret1 e) sa target) tok).
Definition token_rotate (e : b44_serve) (fresh : option bytes) (now : Z) : b44_serve :=
  if now <? sv_rotate_ms e then e
  else match fresh with
       | None => e
       | Some r => e <| sv_secret1 := sv_secret0 e |> <| sv_secret0 := r |> <| sv_rotate_ms := u64 (now + B44_TOKEN_ROTATE_MS) |>
       end.

(** ** The item store *)
Definition expire_slot (now : Z) (s : option b44_item) : option b44_item :=
  match s with Some it => if it_expires it <=? now then None else Some it | None => None end.
Definition store_expire (store : list (option b44_item)) (now : Z) : list (option b44_item) := map (expire_slot now) store.

Definition slot_is (target : bytes) (s : option b44_item) : bool :=
  match s with Some it => bytes_eqb (it_target it) target | None => false end.
Fixpoint find_index {A} (p : A -> bool) (l : list A) : option nat :=
  match l with [] => None | x :: l => if p x then Some 0%nat else option_map S (find_index p l) end.
Definition store_slot_of (store : list (option b44_item)) (target : bytes) : option nat := find_index (slot_is target) store.

(** The victim's place and distance so far, from slot [i] on. *)
Fixpoint furthest (myid : bytes) (store : list (option b44_item)) (i : nat) (best : option (nat * bytes)) : option (nat * bytes) :=
  match store with
  | [] => best
  | s :: store =>
      let d := dist_calc (match s with Some it => it_target it | None => [] end) myid in
      furthest myid store (S i)
        (match best with
         | Some (_, vd) => if 0 <? memcmp d vd then Some (i, d) else best
         | None => Some (i, d)
         end)
  end.
Definition slot_free (s : option b44_item) : bool := match s with None => true | Some _ => false end.
(** The slot and the store with its victim gone; [None] declines the item. *)
Definition store_free_slot (myid : bytes) (store : list (option b44_item)) (new_target : bytes) :
  option (nat * list (option b44_item)) :=
  match find_index slot_free store with
  | Some i => Some (i, store)
  | None =>
      match furthest myid store 0 None with
      | Some (victim, vdist) =>
          if 0 <=? memcmp (dist_calc new_target myid) vdist then None else Some (victim, <[victim := None]> store)
      | None => None
      end
  end.
Definition item_new (target v : bytes) (now : Z) : b44_item :=
  mk_item target (replicate 32 0) (replicate 64 0) [] false 0 (u64 (now + B44_ITEM_TTL_MS)) v.

(** ** The referral cache *)
Definition cnode_is (sa : sockaddr) (c : option b44_cnode) : bool :=
  match c with Some c => addr_same_host sa (cn_ss c) | None => false end.
Definition cache_add (e : b44_serve) (id : option bytes) (sa : option sockaddr) (now : Z) : b44_serve :=
  match id, sa with
  | Some id, Some sa =>
      if negb (sv_serving e) || negb (id_nonzero id) || negb (node_addr_usable sa) || addr_martian (Some sa) ||
         bytes_eqb id (sv_myid e) then e
      else match find_index (cnode_is sa) (sv_cache e) with
           | Some i => e <| sv_cache := <[i := Some (mk_cnode id sa now)]> (sv_cache e) |>
           | None => e <| sv_cache := <[sv_cache_next e := Some (mk_cnode id sa now)]> (sv_cache e) |>
                       <| sv_cache_next := ((sv_cache_next e + 1) mod B44_CACHE_MAX)%nat |>
           end
  | _, _ => e
  end.

(** The closest picks so far, nearest first: one more entry goes before the first it beats. *)
Fixpoint pick_insert (d : bytes) (c : b44_cnode) (picks : list (bytes * b44_cnode)) : list (bytes * b44_cnode) :=
  match picks with
  | [] => [(d, c)]
  | (d0, c0) :: picks => if memcmp d d0 <? 0 then (d, c) :: (d0, c0) :: picks else (d0, c0) :: pick_insert d c picks
  end.
Definition pick_step (v6 : bool) (target : bytes) (now : Z) (picks : list (bytes * b44_cnode)) (c : option b44_cnode) :
  list (bytes * b44_cnode) :=
  match c with
  | None => picks
  | Some c =>
      if negb (if v6 then is_v6 (cn_ss c) else is_v4 (cn_ss c)) || (B44_CACHE_TTL_MS <? u64 (now - cn_seen c)) then picks
      else take B44_REPLY_NODES (pick_insert (dist_calc (cn_id c) target) c picks)
  end.
Definition compact_node (c : b44_cnode) : bytes :=
  match cn_ss c with
  | AF_INET p a => cn_id c ++ a ++ be_put 2 p
  | AF_INET6 p a _ => cn_id c ++ a ++ be_put 2 p
  | AF_OTHER => []
  end.
(** The buffer is [B44_REPLY_NODES * 38] bytes: whole entries, as many as fit. *)
Definition cache_nodes (e : b44_serve) (target : bytes) (v6 : bool) (out_cap : nat) (now : Z) : bytes :=
  let entry := if v6 then 38%nat else 26%nat in
  if (out_cap <? entry)%nat then []
  else concat (map (fun p => compact_node p.2) (take (out_cap / entry) (fold_left (pick_step v6 target now) (sv_cache e) []))).

(** ** Queries *)
Record b44_query := mk_query { q_tid : bytes; q_from : option sockaddr; q_args : bytes; q_want4 : bool; q_want6 : bool }.
Inductive arg (A : Type) := ArgOk (a : A) | ArgAbsent | ArgBad.
Arguments ArgOk {A} a.
Arguments ArgAbsent {A}.
Arguments ArgBad {A}.

Definition arg_raw (args k : bytes) : option bytes := benc_dict_find args k.
Definition arg_str (args k : bytes) : arg bytes :=
  match benc_dict_find args k with
  | None => ArgAbsent
  | Some val => match benc_str_get val with Some s => ArgOk s | None => ArgBad end
  end.
Definition arg_int (args k : bytes) : arg Z :=
  match benc_dict_find args k with
  | None => ArgAbsent
  | Some val => match benc_int_get val with Some z => ArgOk z | None => ArgBad end
  end.

(** The replies, each into its buffer; nothing is sent to a caller without an address. *)
Definition send_error (q : b44_query) (code : Z) (msg : bytes) : option bytes :=
  write_msg 256 [raw "d1:el"; WInt code; WStr msg; raw "e1:t"; WStr (q_tid q); raw "1:y1:ee"].
Definition send_ack (e : b44_serve) (q : b44_query) : option bytes :=
  write_msg 128 [raw "d1:rd"; key "id"; WStr (sv_myid e); raw "e1:t"; WStr (q_tid q); raw "1:y1:re"].

Definition node_ops (k : String.string) (nodes : bytes) : list wop := if bool_decide (nodes = []) then [] else [key k; WStr nodes].
(** The reply dictionary of a get, in the order it is written. *)
Definition get_ops (e : b44_serve) (q : b44_query) (target : bytes) (it : option b44_item) (serve_value : bool) (now : Z) : list wop :=
  let full := match it with Some _ => serve_value | None => false end in
  let mut it := it_mutable it in
  let nodes v6 := cache_nodes e target v6 (B44_REPLY_NODES * 38) now in
  [raw "d1:rd"; key "id"; WStr (sv_myid e)] ++
  (match it with Some i => if mut i && serve_value then [key "k"; WStr (it_k i)] else [] | None => [] end) ++
  (if full then [] else (if q_want4 q then node_ops "nodes" (nodes false) else []) ++
                        (if q_want6 q then node_ops "nodes6" (nodes true) else [])) ++
  (match it with Some i => if mut i then [key "seq"; WInt (it_seq i)] else [] | None => [] end) ++
  (match it with Some i => if mut i && serve_value then [key "sig"; WStr (it_sig i)] else [] | None => [] end) ++
  [key "token"; WStr (token_make (sv_secret0 e) (q_from q) target)] ++
  (match it with Some i => if serve_value then [key "v"; WRaw (it_v i)] else [] | None => [] end) ++
  [raw "e1:t"; WStr (q_tid q); raw "1:y1:re"].

Definition handle_get (e : b44_serve) (q : b44_query) (now : Z) : b44_serve * option bytes :=
  match arg_str (q_args q) (cstr "target") with
  | ArgOk target =>
      if negb (length target =? 20)%nat then (e, send_error q 203 (cstr "get requires a 20-byte target"))
      else
        match arg_int (q_args q) (cstr "seq") with
        | ArgBad => (e, send_error q 203 (cstr "seq must be an integer"))
        | want =>
            let e := e <| sv_store := store_expire (sv_store e) now |> in
            let it := match store_slot_of (sv_store e) target with Some i => default None (sv_store e !! i) | None => None end in
            let serve_value :=
              match it, want with
              | Some i, ArgOk w => negb (it_mutable i && (it_seq i <=? w))
              | _, _ => true
              end in
            (e, write_msg B44_MSG_MAX (get_ops e q target it serve_value now))
        end
  | _ => (e, send_error q 203 (cstr "get requires a 20-byte target"))
  end.

(** What a put carries once its arguments have been read. *)
Record put_fields := mk_pf {
  pf_v : bytes; pf_mutable : bool; pf_k : bytes; pf_sig : bytes; pf_salt : bytes; pf_seq : Z; pf_cas : option Z
}.
Definition put_error : Type := Z * bytes.
Definition E203 (s : String.string) : put_error := (203, cstr s).
Definition arg_get {A} (a : arg A) : option A := match a with ArgOk x => Some x | _ => None end.
Definition arg_bad {A} (a : arg A) : bool := match a with ArgBad => true | _ => false end.
Definition arg_have {A} (a : arg A) : bool := match a with ArgOk _ => true | _ => false end.

Definition put_args (args : bytes) : put_error + put_fields :=
  if negb (benc_canonical args) then inl (E203 "put arguments are not canonical bencode")
  else match arg_raw args (cstr "v") with
  | None => inl (E203 "put requires v")
  | Some v =>
      let k := arg_str args (cstr "k") in
      let sig := arg_str args (cstr "sig") in
      let salt := arg_str args (cstr "salt") in
      let seq := arg_int args (cstr "seq") in
      let cas := arg_int args (cstr "cas") in
      if arg_bad k then inl (E203 "k must be a string")
      else if arg_bad sig then inl (E203 "sig must be a string")
      else if arg_bad salt then inl (E203 "salt must be a string")
      else if arg_bad seq then inl (E203 "seq must be an integer")
      else if arg_bad cas then inl (E203 "cas must be an integer")
      else
        let is_mutable := arg_have k || arg_have sig || arg_have seq || arg_have cas in
        let kb := default [] (arg_get k) in
        let sb := default [] (arg_get sig) in
        let sq := default 0 (arg_get seq) in
        if is_mutable && (negb (arg_have k) || negb (arg_have sig) || negb (arg_have seq) ||
             negb (length kb =? 32)%nat || negb (length sb =? 64)%nat || (sq <? 0))
        then inl (E203 "incomplete or malformed mutable put")
        else inr (mk_pf v is_mutable kb sb (default [] (arg_get salt)) sq (arg_get cas))
  end.

Definition pf_target (f : put_fields) : bytes :=
  if pf_mutable f then target_n (pf_k f) (pf_salt f) else cc_sha1 (pf_v f).
(** The item a put makes. *)
Definition pf_item (f : put_fields) (now : Z) : b44_item :=
  let it := item_new (pf_target f) (pf_v f) now in
  if pf_mutable f
  then mk_item (pf_target f) (pf_k f) (pf_sig f) (pf_salt f) true (pf_seq f) (it_expires it) (pf_v f)
  else it.
Definition refreshed (it : b44_item) (now : Z) : b44_item :=
  mk_item (it_target it) (it_k it) (it_sig it) (it_salt it) (it_mutable it) (it_seq it) (u64 (now + B44_ITEM_TTL_MS)) (it_v it).

(** Storing a put that has been let through: the store and the error, if any. *)
Definition put_store (myid : bytes) (store : list (option b44_item)) (f : put_fields) (now : Z) :
  list (option b44_item) * option put_error :=
  let target := pf_target f in
  let slot := store_slot_of store target in
  let it := match slot with Some i => default None (store !! i) | None => None end in
  match slot, it with
  | Some i, Some it =>
      if negb (Bool.eqb (it_mutable it) (pf_mutable f)) then (store, Some (E203 "cannot replace an item with the other kind"))
      else if negb (it_mutable it) then (<[i := Some (refreshed it now)]> store, None)
      else if match pf_cas f with Some c => negb (c =? it_seq it) | None => false end
           then (store, Some (301, cstr "CAS mismatched, re-read value and try again"))
      else if (pf_seq f =? it_seq it) && bytes_eqb (pf_v f) (it_v it) then (<[i := Some (refreshed it now)]> store, None)
      else if pf_seq f <=? it_seq it then (store, Some (302, cstr "sequence number less than current"))
      else (<[i := Some (pf_item f now)]> store, None)
  | _, _ =>
      match store_free_slot myid store target with
      | None => (store, None)
      | Some (at_, store) => (<[at_ := Some (pf_item f now)]> store, None)
      end
  end.

Section Put.
Context {Ed : Ed25519}.

(** The checks between the arguments and the store, in their order. *)
Definition put_check (e : b44_serve) (q : b44_query) (f : put_fields) : option put_error :=
  if negb (match arg_str (q_args q) (cstr "token") with
           | ArgOk tok => token_valid e tok (q_from q) (pf_target f)
           | _ => false
           end) then Some (E203 "bad write token")
  else if (BEP44_MAX_VALUE <? length (pf_v f))%nat then Some (205, cstr "message (v field) too big")
  else if (BEP44_MAX_SALT <? length (pf_salt f))%nat then Some (207, cstr "salt (salt field) too big")
  else if pf_mutable f then
    match sig_buffer_n SIGBUF_LEN (pf_salt f) (pf_seq f) (pf_v f) with
    | Some m => if cc_ed25519_check (pf_sig f) (pf_k f) m then None else Some (206, cstr "invalid signature")
    | None => Some (206, cstr "invalid signature")
    end
  else None.

Definition handle_put (e : b44_serve) (q : b44_query) (now : Z) : b44_serve * option bytes :=
  match put_args (q_args q) with
  | inl (code, msg) => (e, send_error q code msg)
  | inr f =>
      match put_check e q f with
      | Some (code, msg) => (e, send_error q code msg)
      | None =>
          let store := store_expire (sv_store e) now in
          let '(store, err) := put_store (sv_myid e) store f now in
          (e <| sv_store := store |>, match err with Some (code, msg) => send_error q code msg | None => send_ack e q end)
      end
  end.

(** Whether the text [w] occurs in [s], stepping over a match of either. *)
Fixpoint occurs (w s : bytes) : bool :=
  match s with [] => false | _ :: rest => bytes_eqb (take (length w) s) w || occurs w rest end.
Definition want_parse (from : option sockaddr) (args : bytes) : bool * bool :=
  match arg_raw args (cstr "want") with
  | None => (match from with Some a => is_v4 a | None => false end, match from with Some a => is_v6 a | None => false end)
  | Some want => (occurs (cstr "2:n4") want, occurs (cstr "2:n6") want)
  end.

(** A query past the source checks; [None] when the method is not served here.
    The second part is the reply to send. *)
Inductive b44_method := MGet | MPut.
Definition query_method (buf : bytes) : option b44_method :=
  match (v ← benc_dict_find buf (cstr "q"); benc_str_get v) with
  | Some m => if bytes_eqb m (cstr "get") then Some MGet else if bytes_eqb m (cstr "put") then Some MPut else None
  | None => None
  end.
Definition query_answer (e : b44_serve) (m : b44_method) (buf : bytes) (from : option sockaddr) (now : Z) :
  b44_serve * option bytes :=
  match (v ← benc_dict_find buf (cstr "t"); benc_str_get v) with
  | None => (e, None)
  | Some tid =>
      if (B44_TID_MAX <? length tid)%nat then (e, None)
      else
        let q0 := mk_query tid from [] false false in
        match benc_dict_find buf (cstr "a") with
        | Some (c :: a :: rest) =>
            if negb (c =? 100) then (e, send_error q0 203 (cstr "missing arguments dict"))
            else
              let args := c :: a :: rest in
              match arg_str args (cstr "id") with
              | ArgOk id =>
                  if negb (length id =? 20)%nat then (e, send_error q0 203 (cstr "bad node id"))
                  else match m with
                       | MPut => handle_put e (mk_query tid from args false false) now
                       | MGet => let '(w4, w6) := want_parse from args in handle_get e (mk_query tid from args w4 w6) now
                       end
              | _ => (e, send_error q0 203 (cstr "bad node id"))
              end
        | _ => (e, send_error q0 203 (cstr "missing arguments dict"))
        end
  end.
End Put.

(** Turning the service on draws both secrets; [None] is a refusal of the generator. *)
Definition bep44_serve (e : b44_serve) (enable : bool) (r0 r1 : option bytes) (now : Z) : b44_serve * bool :=
  if negb enable then (e <| sv_serving := false |>, true)
  else if sv_serving e then (e, true)
  else match r0 with
       | None => (e, false)
       | Some s0 =>
           let e := e <| sv_secret0 := s0 |> in
           match r1 with
           | None => (e, false)
           | Some s1 => (e <| sv_secret1 := s1 |> <| sv_rotate_ms := u64 (now + B44_TOKEN_ROTATE_MS) |> <| sv_serving := true |>, true)
           end
       end.
(** The serving half of bep44_periodic. *)
Definition serve_periodic (e : b44_serve) (fresh : option bytes) (now : Z) : b44_serve :=
  if sv_serving e then
    let e := token_rotate e fresh now in e <| sv_store := store_expire (sv_store e) now |>
  else e.

(** ** Lemmas: slots *)
Lemma find_index_some {A} (p : A -> bool) l i : find_index p l = Some i -> exists x, l !! i = Some x /\ p x = true.
Proof.
  revert i. induction l as [|x l IH]; intros i; cbn; [done|]. destruct (p x) eqn:E; [intros [= <-]; by exists x|].
  destruct (find_index p l) as [j|]; [|done]. intros [= <-]. by apply IH.
Qed.
Lemma find_index_none {A} (p : A -> bool) l i x : find_index p l = None -> l !! i = Some x -> p x = false.
Proof.
  revert i. induction l as [|y l IH]; intros i; cbn [find_index]; [by rewrite lookup_nil|].
  destruct (p y) eqn:E; [done|]. destruct (find_index p l) as [j|]; [done|]. intros _. destruct i as [|i]; cbn.
  - by intros [= <-].
  - by apply IH.
Qed.
Lemma slot_of_some store t i : store_slot_of store t = Some i -> exists it, store !! i = Some (Some it) /\ it_target it = t.
Proof.
  intros H. apply find_index_some in H as ([it|] & Hl & Hp); [|done]. exists it. split; [done|].
  cbn in Hp. unfold bytes_eqb in Hp. by apply bool_decide_eq_true in Hp.
Qed.
Lemma slot_of_none store t i it : store_slot_of store t = None -> store !! i = Some (Some it) -> it_target it <> t.
Proof.
  intros H Hl E. pose proof (find_index_none _ _ _ _ H Hl) as F. cbn in F. unfold bytes_eqb in F.
  by apply bool_decide_eq_false in F.
Qed.

(** An item is held in a store. *)
Definition held (store : list (option b44_item)) (it : b44_item) : Prop := Some it ∈ store.
Lemma held_lookup store it : held store it <-> exists i, store !! i = Some (Some it).
Proof. apply list_elem_of_lookup. Qed.
Lemma item_held_insert store i x it : held (<[i := x]> store) it -> x = Some it \/ held store it.
Proof.
  rewrite !held_lookup. intros (j & Hj). destruct (decide (i = j)) as [->|Hne].
  - left. destruct (decide (j < length store)%nat) as [Hl|Hl].
    + rewrite list_lookup_insert_eq in Hj by done. by injection Hj as ->.
    + rewrite list_insert_ge in Hj by lia. exfalso. apply lookup_lt_Some in Hj. lia.
  - right. rewrite list_lookup_insert_ne in Hj by done. by exists j.
Qed.
Lemma held_expire store now it : held (store_expire store now) it <-> held store it /\ now < it_expires it.
Proof.
  unfold held, store_expire. rewrite list_elem_of_fmap. split.
  - intros ([x|] & E & Hin); cbn in E; [|done]. destruct (Z.leb_spec (it_expires x) now); [done|]. by injection E as ->.
  - intros [Hin Hlt]. exists (Some it). cbn. destruct (Z.leb_spec (it_expires it) now); [lia|done].
Qed.

(** What storing may do to the store. *)
Inductive put_effect (myid : bytes) (store : list (option b44_item)) (f : put_fields) (now : Z) : list (option b44_item) -> Prop :=
| pe_same : put_effect myid store f now store
| pe_refresh i it : store !! i = Some (Some it) -> it_target it = pf_target f -> it_mutable it = pf_mutable f ->
    (it_mutable it = true -> pf_seq f = it_seq it /\ pf_v f = it_v it) ->
    put_effect myid store f now (<[i := Some (refreshed it now)]> store)
| pe_newer i it : store !! i = Some (Some it) -> it_target it = pf_target f -> it_mutable it = true -> pf_mutable f = true ->
    it_seq it < pf_seq f -> (forall c, pf_cas f = Some c -> c = it_seq it) ->
    put_effect myid store f now (<[i := Some (pf_item f now)]> store)
| pe_new i : store_slot_of store (pf_target f) = None -> store !! i = Some None ->
    put_effect myid store f now (<[i := Some (pf_item f now)]> store)
| pe_evict i it : store_slot_of store (pf_target f) = None -> find_index slot_free store = None ->
    store !! i = Some (Some it) -> furthest myid store 0 None = Some (i, dist_calc (it_target it) myid) ->
    memcmp (dist_calc (pf_target f) myid) (dist_calc (it_target it) myid) < 0 ->
    put_effect myid store f now (<[i := Some (pf_item f now)]> store).

Definition slot_target (s : option b44_item) : bytes := match s with Some it => it_target it | None => [] end.
Lemma memcmp_flip a b : memcmp a b <= 0 <-> 0 <= memcmp b a.
Proof. rewrite (memcmp_antisym a b). lia. Qed.

Lemma furthest_spec myid store : forall i best v d,
  furthest myid store i best = Some (v, d) ->
  (best = Some (v, d) \/ exists s, (i <= v)%nat /\ store !! (v - i)%nat = Some s /\ d = dist_calc (slot_target s) myid) /\
  (forall s, s ∈ store -> memcmp (dist_calc (slot_target s) myid) d <= 0) /\
  (forall v0 d0, best = Some (v0, d0) -> memcmp d0 d <= 0).
Proof.
  induction store as [|s store IH]; intros i best v d; cbn [furthest].
  { intros ->. split_and!; [by left | by intros s Hs%elem_of_nil | intros v0 d0 [= -> ->]; by rewrite memcmp_refl]. }
  fold (slot_target s). set (ds := dist_calc (slot_target s) myid).
  set (nb := match best with Some (_, vd) => if 0 <? memcmp ds vd then Some (i, ds) else best | None => Some (i, ds) end).
  intros H. destruct (IH (S i) nb v d H) as (Hat & Hall & Hbest).
  assert (Hnb : nb = best \/ nb = Some (i, ds)) by (unfold nb; destruct best as [[v0 d0]|]; [destruct (0 <? _)|]; auto).
  assert (Hs : memcmp ds d <= 0 /\ forall v0 d0, best = Some (v0, d0) -> memcmp d0 d <= 0).
  { unfold nb in *. destruct best as [[v0 d0]|]; [|split; [by eapply Hbest|done]].
    destruct (Z.ltb_spec 0 (memcmp ds d0)) as [Hgt|Hle].
    - pose proof (Hbest _ _ eq_refl) as Hd. split; [done|]. intros v1 d1 [= <- <-].
      apply (memcmp_trans _ ds); [|done]. apply memcmp_flip. lia.
    - pose proof (Hbest _ _ eq_refl) as Hd. split; [by apply (memcmp_trans _ d0)|]. intros v1 d1 [= <- <-]. done. }
  destruct Hs as [Hs1 Hs2]. split_and!; [|intros s0 [->|Hin]%elem_of_cons; [done|by apply Hall] | done].
  destruct Hat as [Hb | (s0 & Hle & Hl & Hd)].
  - destruct Hnb as [-> | E]; [by left|]. rewrite E in Hb. injection Hb as <- <-. right. exists s. rewrite Nat.sub_diag. by split.
  - right. exists s0. split; [lia|]. replace (v - i)%nat with (S (v - S i)) by lia. by split.
Qed.

Lemma put_store_effect myid store f now : put_effect myid store f now (put_store myid store f now).1.
Proof.
  unfold put_store. destruct (store_slot_of store (pf_target f)) as [i|] eqn:Es.
  - destruct (slot_of_some _ _ _ Es) as (it & Hl & Ht). rewrite Hl. cbn [from_option id]. cbv zeta.
    destruct (Bool.eqb (it_mutable it) (pf_mutable f)) eqn:Em; cbn [negb]; [|constructor].
    apply eqb_prop in Em. destruct (it_mutable it) eqn:Ei; cbn [negb].
    2:{ apply pe_refresh; rewrite ?Ei; done. }
    destruct (match pf_cas f with Some c => _ | None => false end) eqn:Ec; [constructor|].
    destruct ((pf_seq f =? it_seq it) && bytes_eqb (pf_v f) (it_v it)) eqn:Ev.
    { apply andb_true_iff in Ev as [Ev1 Ev2]. apply Z.eqb_eq in Ev1. unfold bytes_eqb in Ev2.
      apply bool_decide_eq_true in Ev2. apply pe_refresh; rewrite ?Ei; done. }
    destruct (Z.leb_spec (pf_seq f) (it_seq it)); [constructor|].
    apply (pe_newer _ _ _ _ i it); try done. intros c Hc. rewrite Hc in Ec. by apply negb_false_iff, Z.eqb_eq in Ec.
  - unfold store_free_slot. cbv zeta. destruct (find_index slot_free store) as [i|] eqn:Ef.
    { apply find_index_some in Ef as ([it|] & Hl & Hp); [done|]. by apply pe_new. }
    destruct (furthest myid store 0 None) as [[v d]|] eqn:Ev; [|constructor].
    destruct (Z.leb_spec 0 (memcmp (dist_calc (pf_target f) myid) d)); [constructor|].
    rewrite list_insert_insert_eq.
    destruct (furthest_spec _ _ _ _ _ _ Ev) as ([Hb | (s & _ & Hl & ->)] & _); [done|]. rewrite Nat.sub_0_r in Hl.
    destruct s as [it|]; [|pose proof (find_index_none _ _ _ _ Ef Hl); done].
    by apply (pe_evict _ _ _ _ v it).
Qed.

(** ** The invariant of the store *)
Section Invariant.
Context {Ed : Ed25519}.

(** What a stored item is: its name is its own, and a mutable one is signed by its key. *)
Record item_ok (it : b44_item) : Prop := {
  io_value : (length (it_v it) <= BEP44_MAX_VALUE)%nat;
  io_salt : (length (it_salt it) <= BEP44_MAX_SALT)%nat;
  io_seq : 0 <= it_seq it;
  io_name : if it_mutable it
            then it_target it = sha1 (it_k it ++ it_salt it) /\ length (it_k it) = 32%nat /\ length (it_sig it) = 64%nat /\
                 exists m, sig_buffer_n SIGBUF_LEN (it_salt it) (it_seq it) (it_v it) = Some m /\
                           cc_ed25519_check (it_sig it) (it_k it) m = true
            else it_target it = sha1 (it_v it)
}.
Record store_ok (store : list (option b44_item)) : Prop := {
  so_items : forall it, held store it -> item_ok it;
  so_names : forall i j it it', store !! i = Some (Some it) -> store !! j = Some (Some it') -> it_target it = it_target it' -> i = j
}.

Lemma store_ok_expire store now : store_ok store -> store_ok (store_expire store now).
Proof.
  intros [H1 H2]. split; [intros it Hh; apply held_expire in Hh as [Hh _]; by apply H1|].
  intros i j it it'. unfold store_expire. rewrite !list_lookup_fmap. intros Hi Hj.
  destruct (store !! i) as [[x|]|] eqn:Ei; try done. destruct (store !! j) as [[y|]|] eqn:Ej; try done. cbn in Hi, Hj.
  destruct (it_expires x <=? now); [done|]. destruct (it_expires y <=? now); [done|].
  injection Hi as ->. injection Hj as ->. by apply (H2 i j it it').
Qed.

Lemma store_ok_insert store i it :
  store_ok store -> item_ok it ->
  (forall j it', store !! j = Some (Some it') -> it_target it' = it_target it -> j = i) -> store_ok (<[i := Some it]> store).
Proof.
  intros [H1 H2] Hok Hu. split.
  - intros it' Hh. apply item_held_insert in Hh as [E|Hh]; [by injection E as <-|by apply H1].
  - intros a b x y Ha Hb E.
    assert (Hat : forall c z, <[i := Some it]> store !! c = Some (Some z) -> c = i /\ z = it \/ c <> i /\ store !! c = Some (Some z)).
    { intros c z Hc. destruct (decide (i = c)) as [->|Hne]; [|right; by rewrite list_lookup_insert_ne in Hc].
      left. split; [done|]. destruct (decide (c < length store)%nat) as [Hl|Hl].
      - rewrite list_lookup_insert_eq in Hc by done. by injection Hc as ->.
      - rewrite list_insert_ge in Hc by lia. apply lookup_lt_Some in Hc. lia. }
    destruct (Hat _ _ Ha) as [[-> ->]|[Na Ha']], (Hat _ _ Hb) as [[-> ->]|[Nb Hb']].
    + done.
    + symmetry. by apply (Hu b y).
    + by apply (Hu a x).
    + by apply (H2 a b x y).
Qed.

Lemma refreshed_ok it now : item_ok it -> item_ok (refreshed it now).
Proof. intros [H1 H2 H3 H4]. by split. Qed.

Lemma put_args_inr args f : put_args args = inr f ->
  (pf_mutable f = true -> length (pf_k f) = 32%nat /\ length (pf_sig f) = 64%nat /\ 0 <= pf_seq f) /\
  (pf_mutable f = false -> pf_cas f = None).
Proof.
  unfold put_args. destruct (negb _); [done|]. destruct (arg_raw _ _) as [v|]; [|done].
  destruct (arg_bad _); [done|]. destruct (arg_bad _); [done|]. destruct (arg_bad _); [done|]. destruct (arg_bad _); [done|].
  destruct (arg_bad _); [done|]. destruct (_ && _) eqn:E; [done|]. intros [= <-]. cbn [pf_mutable pf_k pf_sig pf_seq pf_cas].
  split.
  - intros Hm. rewrite Hm in E. cbn [andb] in E. rewrite !orb_false_iff, !negb_false_iff in E.
    destruct E as (((((_ & _) & _) & E1) & E2) & E3). apply Nat.eqb_eq in E1, E2. apply Z.ltb_ge in E3. done.
  - intros Hm. rewrite !orb_false_iff in Hm. destruct Hm as [_ Hm]. by destruct (arg_int args (cstr "cas")).
Qed.

Lemma put_check_none e q f : put_check e q f = None ->
  (exists tok, arg_str (q_args q) (cstr "token") = ArgOk tok /\ token_valid e tok (q_from q) (pf_target f) = true) /\
  (length (pf_v f) <= BEP44_MAX_VALUE)%nat /\ (length (pf_salt f) <= BEP44_MAX_SALT)%nat /\
  (pf_mutable f = true -> exists m, sig_buffer_n SIGBUF_LEN (pf_salt f) (pf_seq f) (pf_v f) = Some m /\
     cc_ed25519_check (pf_sig f) (pf_k f) m = true).
Proof.
  unfold put_check. destruct (arg_str _ _) as [tok| |] eqn:Et; cbn [negb]; try done.
  destruct (token_valid e tok (q_from q) (pf_target f)) eqn:Ev; cbn [negb]; [|done].
  destruct (Nat.ltb_spec BEP44_MAX_VALUE (length (pf_v f))); [done|].
  destruct (Nat.ltb_spec BEP44_MAX_SALT (length (pf_salt f))); [done|]. intros H1.
  split; [by exists tok|]. split; [lia|]. split; [lia|]. intros Hm. rewrite Hm in H1.
  destruct (sig_buffer_n _ _ _ _) as [m|]; [|done]. exists m. split; [done|]. by destruct (cc_ed25519_check _ _ _).
Qed.

Lemma pf_item_ok e q f now : put_args (q_args q) = inr f -> put_check e q f = None -> item_ok (pf_item f now).
Proof.
  intros Ha Hc. apply put_args_inr in Ha as [Hm _]. apply put_check_none in Hc as (_ & Hv & Hs & Hsig).
  unfold pf_item, pf_target. destruct (pf_mutable f) eqn:E;
    split; cbn [item_new it_v it_salt it_seq it_mutable it_target it_k it_sig]; try done.
  - by destruct (Hm eq_refl) as (_ & _ & ?).
  - rewrite target_n_eq. destruct (Hm eq_refl) as (? & ? & _). split_and!; try done. by apply Hsig.
  - cbn [length]. lia.
  - apply cc_sha1_eq.
Qed.
Lemma pf_item_target f now : it_target (pf_item f now) = pf_target f.
Proof. unfold pf_item. by destruct (pf_mutable f). Qed.

Lemma effect_ok myid store f now store' :
  store_ok store -> item_ok (pf_item f now) -> put_effect myid store f now store' -> store_ok store'.
Proof.
  intros Hs Hi H. destruct H as [|i it Hl Ht _ _|i it Hl Ht _ _ _|i Hn Hl|i it Hn _ Hl _ _]; [done|..];
    (apply store_ok_insert; [done| |]); rewrite ?pf_item_target; cbn [it_target refreshed]; try done.
  - apply refreshed_ok, (so_items _ Hs), held_lookup. by exists i.
  - intros j it' Hj E. by apply (so_names _ Hs j i it' it).
  - intros j it' Hj E. apply (so_names _ Hs j i it' it); [done|done|congruence].
  - intros j it' Hj E. exfalso. by apply (slot_of_none _ _ _ _ Hn Hj).
  - intros j it' Hj E. exfalso. by apply (slot_of_none _ _ _ _ Hn Hj).
Qed.
End Invariant.

(** ** The node as it runs *)
Section Run.
Context {Ed : Ed25519}.

Inductive serve_event :=
| SvQuery (m : b44_method) (buf : bytes) (from : option sockaddr) (now : Z)
| SvPeriodic (fresh : option bytes) (now : Z)
| SvServe (enable : bool) (r0 r1 : option bytes) (now : Z)
| SvReferral (id : option bytes) (sa : option sockaddr) (now : Z).
Definition serve_step (e : b44_serve) (ev : serve_event) : b44_serve :=
  match ev with
  | SvQuery m buf from now => (query_answer e m buf from now).1
  | SvPeriodic fresh now => serve_periodic e fresh now
  | SvServe enable r0 r1 now => (bep44_serve e enable r0 r1 now).1
  | SvReferral id sa now => cache_add e id sa now
  end.
Definition serve_init (myid : bytes) (cap : nat) : b44_serve :=
  mk_serve myid false (replicate B44_SECRET_LEN 0) (replicate B44_SECRET_LEN 0) 0 (replicate cap None)
    (replicate B44_CACHE_MAX None) 0.

(** What a query with these arguments may do to the store. *)
Inductive query_effect (e : b44_serve) (args : option bytes) (from : option sockaddr) (now : Z) : b44_serve -> Prop :=
| qe_same : query_effect e args from now e
| qe_expire : query_effect e args from now (e <| sv_store := store_expire (sv_store e) now |>)
| qe_put q f store : args = Some (q_args q) -> q_from q = from -> put_args (q_args q) = inr f -> put_check e q f = None ->
    put_effect (sv_myid e) (store_expire (sv_store e) now) f now store ->
    query_effect e args from now (e <| sv_store := store |>).

Lemma handle_get_effect e q now : query_effect e (Some (q_args q)) (q_from q) now (handle_get e q now).1.
Proof.
  unfold handle_get. destruct (arg_str _ _) as [t| |]; try constructor. destruct (negb _); [constructor|].
  destruct (arg_int _ _); constructor.
Qed.
Lemma handle_put_effect e q now : query_effect e (Some (q_args q)) (q_from q) now (handle_put e q now).1.
Proof.
  unfold handle_put. destruct (put_args (q_args q)) as [[c m]|f] eqn:Ea; [constructor|].
  destruct (put_check e q f) as [[c m]|] eqn:Ec; [constructor|].
  pose proof (put_store_effect (sv_myid e) (store_expire (sv_store e) now) f now) as H.
  destruct (put_store _ _ _ _) as [store err]. cbn [fst] in H. by apply (qe_put _ _ _ _ q f).
Qed.
Lemma query_answer_effect e m buf from now :
  let e' := (query_answer e m buf from now).1 in
  query_effect e (benc_dict_find buf (cstr "a")) from now e' /\ (m = MGet -> e' = e \/ sv_store e' = store_expire (sv_store e) now).
Proof.
  unfold query_answer. destruct (_ ≫= _) as [tid|]; [|split; [constructor|by left]].
  destruct (_ <? _)%nat; [split; [constructor|by left]|].
  destruct (benc_dict_find buf (cstr "a")) as [[|c [|a rest]]|]; try (split; [constructor|by left]).
  destruct (negb _); [split; [constructor|by left]|].
  destruct (arg_str _ _) as [id| |]; try (split; [constructor|by left]).
  destruct (negb _); [split; [constructor|by left]|]. destruct m.
  - destruct (want_parse from (c :: a :: rest)) as [w4 w6]. set (q := mk_query _ _ _ _ _).
    split; [apply (handle_get_effect e q)|]. intros _. unfold handle_get.
    destruct (arg_str _ _); try by left. destruct (negb _); [by left|]. destruct (arg_int _ _); [by right|by right|by left].
  - set (q := mk_query _ _ _ _ _). split; [apply (handle_put_effect e q)|done].
Qed.

Lemma query_effect_ok e args from now e' : store_ok (sv_store e) -> query_effect e args from now e' -> store_ok (sv_store e').
Proof.
  intros Hs H. destruct H as [| |q f store _ _ Ha Hc He]; [done|by apply store_ok_expire|].
  cbn. eapply effect_ok; [by apply store_ok_expire| |exact He]. by apply (pf_item_ok e q).
Qed.

Lemma serve_step_ok e ev : store_ok (sv_store e) -> store_ok (sv_store (serve_step e ev)).
Proof.
  intros Hs. destruct ev as [m buf from now|fresh now|en r0 r1 now|id sa now]; cbn [serve_step].
  - destruct (query_answer_effect e m buf from now) as [H _]. by eapply query_effect_ok.
  - unfold serve_periodic, token_rotate. destruct (sv_serving e); [|done].
    destruct (now <? sv_rotate_ms e); [|destruct fresh]; cbn; by apply store_ok_expire.
  - unfold bep44_serve. destruct en; cbn [negb]; [|done]. destruct (sv_serving e); [done|].
    destruct r0; [|done]. by destruct r1.
  - unfold cache_add. destruct id, sa; try done. destruct (_ || _); [done|]. by destruct (find_index _ _).
Qed.

Lemma empty_store_ok cap : store_ok (replicate cap None).
Proof.
  split; [intros it Hh; apply elem_of_replicate in Hh as [? _]; done|].
  intros i j it it' Hi. apply lookup_replicate in Hi as [? _]. done.
Qed.

(** ** Lemmas: tokens *)
Lemma ct_diff_zero a : forall b d, length a = length b -> ct_diff a b d = 0 <-> d = 0 /\ a = b.
Proof.
  induction a as [|x a IH]; intros [|y b] d Hl; cbn [ct_diff]; try done; [tauto|]. cbn in Hl.
  rewrite IH by lia. rewrite Z.lor_eq_0_iff. split.
  - intros [[-> H%lxor_zero_eq] ->]. by subst.
  - intros [-> [= -> ->]]. by rewrite Z.lxor_nilpotent.
Qed.
Lemma ct_eq_iff a b : length a = length b -> ct_eq a b = true <-> a = b.
Proof. intros Hl. unfold ct_eq. rewrite Z.eqb_eq, ct_diff_zero by done. naive_solver. Qed.

(** The token for an address and a name. *)
Definition token_of (secret : bytes) (sa : option sockaddr) (target : bytes) : bytes :=
  take B44_TOKEN_LEN (sha1 (secret ++ addr_bytes sa ++ target)).
Lemma token_make_eq secret sa target : token_make secret sa target = token_of secret sa target.
Proof.
  unfold token_make, token_of. rewrite sha1_ctx_of_eq. cbn [concat]. case_bool_decide as E; cbn [app concat].
  - by rewrite E, app_nil_r.
  - by rewrite app_nil_r.
Qed.
Lemma token_of_length secret sa target : length (token_of secret sa target) = B44_TOKEN_LEN.
Proof. unfold token_of. rewrite length_take, sha1_length. done. Qed.
Lemma token_valid_iff e tok sa target :
  token_valid e tok sa target = true <-> tok = token_of (sv_secret0 e) sa target \/ tok = token_of (sv_secret1 e) sa target.
Proof.
  unfold token_valid. rewrite andb_true_iff, orb_true_iff, !token_make_eq, Nat.eqb_eq. split.
  - intros [Hl [H|H]]; [left|right]; apply ct_eq_iff in H; rewrite ?token_of_length; congruence.
  - intros [-> | ->]; rewrite token_of_length; (split; [done|]); [left|right]; by apply ct_eq_iff.
Qed.
End Run.

(** ** Properties *)
Section Properties.
Context {Ed : Ed25519}.

(** Whatever queries, rotations, restarts and referrals a node sees, every item in
    its store is within the size limits and named by what it is: an immutable one
    by the hash of its value, a mutable one by the hash of its key and salt, with a
    signature of that key over its salt, sequence and value; and no name is held twice. *)
Theorem store_sound myid cap evs :
  store_ok (sv_store (fold_left serve_step evs (serve_init myid cap))).
Proof.
  assert (H : store_ok (sv_store (serve_init myid cap))) by apply empty_store_ok. revert H. generalize (serve_init myid cap).
  induction evs as [|ev evs IH]; intros e H; cbn [fold_left]; [done|]. by apply IH, serve_step_ok.
Qed.

(** C12: nothing enters the store but through a put that carries the node's own token: any item held
    after a query that was not held just so before it (a new name, a newer value, a later expiry) was
    put there by a put query whose argument dictionary, the one under "a" in the very datagram, has a
    token made with one of the node's two secrets for the address the datagram came from and the name
    the item is stored under; and the item is the one those arguments describe, or the one held
    under that name before with its time to live renewed. *)
Theorem stored_only_with_token e m buf from now it :
  held (sv_store (query_answer e m buf from now).1) it -> ~ held (sv_store e) it ->
  m = MPut /\ exists args tok f,
    benc_dict_find buf (cstr "a") = Some args /\ arg_str args (cstr "token") = ArgOk tok /\
    (tok = token_of (sv_secret0 e) from (it_target it) \/ tok = token_of (sv_secret1 e) from (it_target it)) /\
    put_args args = inr f /\ it_target it = pf_target f /\
    (it = pf_item f now \/ exists old, held (sv_store e) old /\ it = refreshed old now).
Proof.
  intros Hh Hnew. destruct (query_answer_effect e m buf from now) as [He Hg]. cbv zeta in *.
  assert (Hm : m = MPut).
  { destruct m; [|done]. exfalso. destruct (Hg eq_refl) as [E|E]; rewrite E in Hh; [done|].
    by apply held_expire in Hh as [Hh _]. }
  split; [done|]. destruct He as [| |q f store Hb Hq Ha Hc He]; [done|..].
  { exfalso. by apply held_expire in Hh as [Hh _]. }
  apply put_check_none in Hc as ((tok & Ht & Hv) & _). exists (q_args q), tok, f.
  apply token_valid_iff in Hv. rewrite Hq in Hv.
  assert (Hold : ~ held (store_expire (sv_store e) now) it) by (intros [H _]%held_expire; done).
  assert (E : it_target it = pf_target f /\ (it = pf_item f now \/ exists old, held (sv_store e) old /\ it = refreshed old now)).
  { cbn in Hh. destruct He as [|i x Hl Ht' _ _|i x Hl Ht' _ _ _|i Hn Hl|i x Hn _ Hl _ _]; [done|..];
      (apply item_held_insert in Hh as [[= <-]|Hh]; [|done]); rewrite ?pf_item_target; (split; [done|]); [|by left..].
    right. exists x. split; [|done]. assert (Hx : held (store_expire (sv_store e) now) x) by (apply held_lookup; by exists i).
    by apply held_expire in Hx as [Hx _]. }
  destruct E as [E E']. rewrite E. split_and!; done.
Qed.

(** A name never goes back: across any query, an item that has not run out and the
    one held under its name afterwards are of the same kind, the sequence does not
    fall, and at the same sequence the value is the same. *)
Theorem seq_never_back e m buf from now it it' :
  store_ok (sv_store e) -> held (sv_store e) it -> now < it_expires it ->
  held (sv_store (query_answer e m buf from now).1) it' -> it_target it' = it_target it ->
  it_mutable it' = it_mutable it /\ it_seq it <= it_seq it' /\ (it_seq it' = it_seq it -> it_v it' = it_v it).
Proof.
  intros Hs Hin Hexp Hh Ht. destruct (query_answer_effect e m buf from now) as [He _]. cbv zeta in He.
  assert (Huniq : forall st x, store_ok st -> held st it -> held st x -> it_target x = it_target it -> x = it).
  { intros st x Hst (i & Hi)%held_lookup (j & Hj)%held_lookup E. assert (j = i) as -> by (by apply (so_names _ Hst j i x it)). congruence. }
  destruct He as [| |q f store _ Hq Ha Hc He].
  { rewrite (Huniq (sv_store e) it') by done. done. }
  { cbn in Hh. apply held_expire in Hh as [Hh _]. rewrite (Huniq (sv_store e) it') by done. done. }
  cbn in Hh. assert (Hso := store_ok_expire _ now Hs). assert (Hhe : held (store_expire (sv_store e) now) it) by (by apply held_expire).
  destruct He as [|i x Hl Htx Hk Hv|i x Hl Htx Hk Hk' Hlt Hcas|i Hn Hl|i x Hn _ Hl _ _].
  - rewrite (Huniq _ it' Hso Hhe Hh Ht). done.
  - apply item_held_insert in Hh as [[= <-]|Hh]; [|by rewrite (Huniq _ it' Hso Hhe Hh Ht)]. cbn in *.
    assert (Hx : held (store_expire (sv_store e) now) x) by (apply held_lookup; by exists i). rewrite (Huniq _ x Hso Hhe Hx) by done. done.
  - apply item_held_insert in Hh as [[= <-]|Hh]; [|by rewrite (Huniq _ it' Hso Hhe Hh Ht)]. rewrite pf_item_target in Ht.
    assert (Hx : held (store_expire (sv_store e) now) x) by (apply held_lookup; by exists i).
    assert (x = it) as -> by (apply (Huniq _ x Hso Hhe Hx); congruence). unfold pf_item. rewrite Hk'. cbn. rewrite Hk. split; [done|]. lia.
  - apply item_held_insert in Hh as [[= <-]|Hh]; [|by rewrite (Huniq _ it' Hso Hhe Hh Ht)]. rewrite pf_item_target in Ht.
    exfalso. apply held_lookup in Hhe as (j & Hj). by apply (slot_of_none _ _ _ _ Hn Hj).
  - apply item_held_insert in Hh as [[= <-]|Hh]; [|by rewrite (Huniq _ it' Hso Hhe Hh Ht)]. rewrite pf_item_target in Ht.
    exfalso. apply held_lookup in Hhe as (j & Hj). by apply (slot_of_none _ _ _ _ Hn Hj).
Qed.

(** An item that has not run out is only ever pushed out of a store that is full, by
    an item closer to the node, and only when nothing stored is further away. *)
Theorem eviction_keeps_near e m buf from now it :
  store_ok (sv_store e) -> held (sv_store e) it -> now < it_expires it ->
  let e' := (query_answer e m buf from now).1 in
  (forall it', held (sv_store e') it' -> it_target it' <> it_target it) ->
  let full := store_expire (sv_store e) now in
  (forall i, full !! i <> Some None) /\
  (forall it', held full it' -> memcmp (dist_calc (it_target it') (sv_myid e)) (dist_calc (it_target it) (sv_myid e)) <= 0) /\
  exists new, held (sv_store e') new /\ memcmp (dist_calc (it_target new) (sv_myid e)) (dist_calc (it_target it) (sv_myid e)) < 0.
Proof.
  intros Hs Hin Hexp e' Hgone full. subst e'. destruct (query_answer_effect e m buf from now) as [He _]. cbv zeta in *.
  assert (Hhe : held full it) by (by apply held_expire).
  destruct He as [| |q f store _ Hq Ha Hc He]; cbn in *; [by exfalso; apply (Hgone it)|by exfalso; apply (Hgone it)|].
  apply held_lookup in Hhe as (j & Hj).
  assert (Hstay : forall i y, i <> j -> store = <[i := y]> full -> False).
  { intros i y Hne ->. apply (Hgone it); [|done]. apply held_lookup. exists j. by rewrite list_lookup_insert_ne. }
  assert (Hput : forall y, it_target y = it_target it -> store = <[j := Some y]> full -> False).
  { intros y Hy ->. apply (Hgone y); [|done]. apply held_lookup. exists j. apply list_lookup_insert_eq. by eapply lookup_lt_Some. }
  destruct He as [|i x Hl Htx Hk Hv|i x Hl Htx Hk Hk' Hlt Hcas|i Hn Hl|i x Hn Hfull Hl Hfar Hnear].
  - exfalso. apply (Hgone it); [|done]. apply held_lookup. by exists j.
  - exfalso. destruct (decide (i = j)) as [->|Hne]; [|by eapply Hstay]. unfold full in *. rewrite Hj in Hl. injection Hl as <-. by apply (Hput (refreshed it now)).
  - exfalso. destruct (decide (i = j)) as [->|Hne]; [|by eapply Hstay]. unfold full in *. rewrite Hj in Hl. injection Hl as <-.
    apply (Hput (pf_item f now)); [|done]. by rewrite pf_item_target.
  - exfalso. destruct (decide (i = j)) as [->|Hne]; [|by eapply Hstay]. unfold full in *. congruence.
  - destruct (decide (i = j)) as [->|Hne]; [|by exfalso; eapply Hstay]. unfold full in *. rewrite Hj in Hl. injection Hl as <-.
    split; [intros k Hk; by pose proof (find_index_none _ _ _ _ Hfull Hk)|]. split.
    + intros it' Hh'. destruct (furthest_spec _ _ _ _ _ _ Hfar) as (_ & Hall & _). by apply (Hall (Some it')).
    + exists (pf_item f now). rewrite pf_item_target. split; [|done]. apply held_lookup. exists j.
      apply list_lookup_insert_eq. by eapply lookup_lt_Some.
Qed.
End Properties.

(** ** A small node *)
Definition demo_from : option sockaddr := Some (AF_INET 6881 [203; 0; 113; 5]).
Definition demo_node : b44_serve :=
  (bep44_serve (serve_init (replicate 20 7) 1) true (Some (replicate 16 1)) (Some (replicate 16 2)) 0).1.
Definition query_msg (m : String.string) (args : list (bytes * bval)) : bytes :=
  encode (BDict [(cstr "a", BDict args); (cstr "q", BStr (cstr m)); (cstr "t", BStr (cstr "aa")); (cstr "y", BStr (cstr "q"))]).
Definition demo_put (v : bval) : bytes :=
  query_msg "put" [(cstr "id", BStr (replicate 20 9));
    (cstr "token", BStr (token_of (replicate 16 1) demo_from (sha1 (encode v)))); (cstr "v", v)].
Definition demo_mput (v : bval) (seq : Z) : bytes :=
  let k := replicate 32 5 in
  let sig := match sig_buffer_n SIGBUF_LEN [] seq (encode v) with Some m => toy_blake 64 (k ++ k) m | None => [] end in
  query_msg "put" [(cstr "id", BStr (replicate 20 9)); (cstr "k", BStr k); (cstr "seq", BInt seq); (cstr "sig", BStr sig);
    (cstr "token", BStr (token_of (replicate 16 1) demo_from (sha1 k))); (cstr "v", v)].
Definition demo_run (e : b44_serve) (buf : bytes) (now : Z) : b44_serve :=
  serve_step (Ed := toy_ed25519) e (SvQuery MPut buf demo_from now).
Definition demo_item (e : b44_serve) : b44_item :=
  match sv_store e with Some it :: _ => it | _ => item_new [] [] 0 end.

Definition hello : bval := BStr (cstr "hello").
Lemma stored_only_with_token_witness :
  let it := demo_item (demo_run demo_node (demo_put hello) 5) in
  it_v it = encode hello /\ exists args tok,
    benc_dict_find (demo_put hello) (cstr "a") = Some args /\ arg_str args (cstr "token") = ArgOk tok /\
    (tok = token_of (sv_secret0 demo_node) demo_from (it_target it) \/ tok = token_of (sv_secret1 demo_node) demo_from (it_target it)).
Proof.
  split; [vm_compute; reflexivity|].
  destruct (stored_only_with_token (Ed := toy_ed25519) demo_node MPut (demo_put hello) demo_from 5 (demo_item (demo_run demo_node (demo_put hello) 5)))
    as [_ (args & tok & f & H1 & H2 & H3 & _)].
  - apply held_lookup. exists 0%nat. vm_compute. reflexivity.
  - intros (i & Hi)%held_lookup. destruct i; discriminate Hi.
  - exists args, tok. exact (conj H1 (conj H2 H3)).
Defined.

Definition demo_one : b44_serve := demo_run demo_node (demo_mput hello 3) 5.
Definition demo_two : b44_serve := demo_run demo_one (demo_mput (BStr (cstr "world")) 4) 9.
Lemma demo_one_ok : store_ok (Ed := toy_ed25519) (sv_store demo_one).
Proof.
  unfold demo_one, demo_run. apply serve_step_ok, empty_store_ok.
Qed.
Lemma seq_never_back_witness :
  it_seq (demo_item demo_one) = 3 /\ it_seq (demo_item demo_two) = 4 /\ it_seq (demo_item demo_one) <= it_seq (demo_item demo_two).
Proof.
  split; [vm_compute; reflexivity|]. split; [vm_compute; reflexivity|].
  apply (seq_never_back (Ed := toy_ed25519) demo_one MPut (demo_mput (BStr (cstr "world")) 4) demo_from 9 (demo_item demo_one) (demo_item demo_two)).
  - apply demo_one_ok.
  - apply held_lookup. exists 0%nat. vm_compute. reflexivity.
  - vm_compute. reflexivity.
  - apply held_lookup. exists 0%nat. vm_compute. reflexivity.
  - vm_compute. reflexivity.
Defined.
(** A store of one slot, an item, and one nearer to the node. *)
Definition demo_far : b44_serve := demo_run demo_node (demo_put (BInt 5)) 5.
Definition demo_near : b44_serve := demo_run demo_far (demo_put (BInt 6)) 9.
Lemma demo_far_ok : store_ok (Ed := toy_ed25519) (sv_store demo_far).
Proof.
  unfold demo_far, demo_run. apply serve_step_ok, empty_store_ok.
Qed.
Lemma demo_near_store :
  sv_store (query_answer (Ed := toy_ed25519) demo_far MPut (demo_put (BInt 6)) demo_from 9).1 = [Some (demo_item demo_near)].
Proof. vm_compute. reflexivity. Qed.
Lemma demo_near_other : it_target (demo_item demo_near) <> it_target (demo_item demo_far).
Proof. vm_compute. discriminate. Qed.
Lemma eviction_keeps_near_witness :
  it_v (demo_item demo_far) = encode (BInt 5) /\ it_v (demo_item demo_near) = encode (BInt 6) /\
  (forall i, store_expire (sv_store demo_far) 9 !! i <> Some None).
Proof.
  split; [vm_compute; reflexivity|]. split; [vm_compute; reflexivity|].
  apply (eviction_keeps_near (Ed := toy_ed25519) demo_far MPut (demo_put (BInt 6)) demo_from 9 (demo_item demo_far)).
  - apply demo_far_ok.
  - apply held_lookup. exists 0%nat. vm_compute. reflexivity.
  - vm_compute. reflexivity.
  - intros it' Hh. rewrite demo_near_store in Hh. apply list_elem_of_singleton in Hh.
    pose proof demo_near_other as Hne. remember (demo_item demo_near) as x. injection Hh as ->. exact Hne.
Defined.
