(* ===== verification/Bep44Ban.v ===== *)
(** src/src/bep44.c, the per-source limit: sources are counted over a window, an
    offender is banned, and a ban widens along its family's prefixes as offenders
    spread over them. A network is 16 bytes, of which its family's address uses the
    first; the escalation reads the network it climbs from in the table it rewrites. *)
From S2P Require Import Prelude Net Bencode Crypto Sha1 Bep44.

Definition B44_BAN_MAX : nat := 128.
Definition B44_BAN_WINDOW_MS : Z := 10000.
Definition B44_PEER_RATE_MAX : Z := 5.
Definition B44_PEERS_PER_SOURCE : Z := 8.
Definition B44_BAN_RATE : Z := B44_PEERS_PER_SOURCE * B44_PEER_RATE_MAX.
Definition B44_BAN_TIME_MS : Z := 5 * 60 * 1000.
Definition B44_FAILCLOSED_MS : Z := 30000.

(** The family of an entry, [None] for a free slot. *)
Inductive family := F4 | F6.
#[export] Instance family_eq_dec : EqDecision family.
Proof. solve_decision. Defined.

Record b44_ban := mk_ban {
  bn_net : bytes; bn_family : option family; bn_bits : Z; bn_weight : Z; bn_count : Z; bn_window : Z; bn_until : Z
}.
Definition ban_zero : b44_ban := mk_ban (replicate 16 0) None 0 0 0 0 0.
(** [memcpy] of an address into a cleared network, and what is compared of it. *)
Definition net_set (a : bytes) : bytes := a ++ replicate (16 - length a) 0.
Definition ban_net (b : b44_ban) (alen : nat) : bytes := take alen (bn_net b).
Record ban_table := mk_bans { bt_ban : list b44_ban; bt_block_all : Z; bt_rate : Z; bt_ban_ms : Z }.
Definition bans_init : ban_table := mk_bans (replicate B44_BAN_MAX ban_zero) 0 0 0.

Definition b44_ladder6 : list Z := [128; 64; 56; 48; 40; 32].
Definition b44_ladder4 : list Z := [32; 30; 28; 26; 24].
Definition ladder (f : family) : list Z := match f with F6 => b44_ladder6 | F4 => b44_ladder4 end.
Definition fam_len (f : family) : nat := match f with F6 => 16 | F4 => 4 end.
Definition ban_base_bits (f : family) : Z := match f with F6 => 128 | F4 => 32 end.
Definition family_of (sa : option sockaddr) : option family :=
  match sa with Some (AF_INET _ _) => Some F4 | Some (AF_INET6 _ _ _) => Some F6 | _ => None end.

(** ** Prefixes *)
Definition mask_byte (keep x : Z) : Z :=
  if 8 <=? keep then x else if keep <=? 0 then 0 else x .& u8 (0xff << (8 - keep)).
Fixpoint net_mask (addr : bytes) (bits : Z) : bytes :=
  match addr with [] => [] | x :: addr => mask_byte bits x :: net_mask addr (bits - 8) end.
Definition net_contains (b : b44_ban) (addr : bytes) : bool := bytes_eqb (net_mask addr (bn_bits b)) (ban_net b (length addr)).

(** ** Widening *)
Definition ban_in (f : family) (now pbits : Z) (pnet : bytes) (b : b44_ban) : bool :=
  negb (negb (bool_decide (bn_family b = Some f)) || (bn_until b <=? now) || (bn_bits b <? pbits)) &&
  bytes_eqb (net_mask (ban_net b (fam_len f)) pbits) pnet.
Definition weight_in (f : family) (now pbits : Z) (pnet : bytes) (l : list b44_ban) : Z :=
  fold_left (fun w b => if ban_in f now pbits pnet b then w + bn_weight b else w) l 0.
Fixpoint first_in (p : b44_ban -> bool) (l : list b44_ban) : option nat :=
  match l with [] => None | b :: l => if p b then Some 0%nat else option_map S (first_in p l) end.
(** One rung, the [i]th of the ladder; [track] is the slot of the ban just made, whose
    network is read as it is now. *)
Definition escalate_rung (f : family) (track : nat) (now ban_ms : Z) (l : list b44_ban) (rung : nat * Z) : list b44_ban :=
  let pbits := rung.2 in
  let pnet := net_mask (ban_net (nth track l ban_zero) (fam_len f)) pbits in
  let inside := ban_in f now pbits pnet in
  let weight := weight_in f now pbits pnet l in
  if weight <? Z.of_nat rung.1 + 1 then l
  else
    let cleared := map (fun b => if inside b then ban_zero else b) l in
    match first_in inside l with
    | Some first => <[first := mk_ban (net_set pnet) (Some f) pbits (u16 weight) 0 0 (u64 (now + ban_ms))]> cleared
    | None => cleared
    end.
Definition ban_escalate (l : list b44_ban) (track : nat) (f : family) (now ban_ms : Z) : list b44_ban :=
  fold_left (escalate_rung f track now ban_ms) (drop 1 (imap (fun i b => (i, b)) (ladder f))) l.

(** ** The scan of the table *)
Record scan_at := mk_scan { sn_track : option nat; sn_slot : option nat; sn_lru : option (nat * Z) }.
Definition or_else {A} (a : option A) (b : A) : option A := match a with Some _ => a | None => Some b end.
(** [inl] is the early return: the source is inside a ban. *)
Fixpoint ban_scan (f : family) (ab base : bytes) (now : Z) (i : nat) (l : list b44_ban) (st : scan_at) :
  list b44_ban * (unit + scan_at) :=
  match l with
  | [] => ([], inr st)
  | b :: l =>
      let go b st := let '(l, r) := ban_scan f ab base now (S i) l st in (b :: l, r) in
      match bn_family b with
      | None => go b (mk_scan (sn_track st) (or_else (sn_slot st) i) (sn_lru st))
      | Some bf =>
          if truth (bn_until b) && (bn_until b <=? now)
          then go ban_zero (mk_scan (sn_track st) (or_else (sn_slot st) i) (sn_lru st))
          else if negb (bool_decide (bf = f)) then go b st
          else if (now <? bn_until b) && net_contains b ab then (b :: l, inl tt)
          else if bn_until b =? 0 then
            go b (mk_scan (if (bn_bits b =? ban_base_bits f) && bytes_eqb (ban_net b (length ab)) base then Some i else sn_track st)
                    (sn_slot st)
                    (match sn_lru st with
                     | Some (_, c) => if bn_count b <? c then Some (i, bn_count b) else sn_lru st
                     | None => Some (i, bn_count b)
                     end))
          else go b st
      end
  end.

Definition track_ban (b : b44_ban) (now ban_ms : Z) : b44_ban :=
  mk_ban (bn_net b) (bn_family b) (bn_bits b) 1 0 (bn_window b) (u64 (now + ban_ms)).
(** The verdict: [true] is served. *)
Definition ban_ok (t : ban_table) (from : option sockaddr) (now : Z) : ban_table * bool :=
  if bt_ban_ms t =? 0 then (t, true)
  else if now <? bt_block_all t then (t, false)
  else match family_of from with
  | None => (t, true)
  | Some f =>
      let ab := addr_bytes from in
      let base := net_mask ab (ban_base_bits f) in
      let '(l, r) := ban_scan f ab base now 0 (bt_ban t) (mk_scan None None None) in
      let with_bans l := mk_bans l (bt_block_all t) (bt_rate t) (bt_ban_ms t) in
      match r with
      | inl _ => (with_bans l, false)
      | inr st =>
          match sn_track st with
          | Some i =>
              let b := nth i l ban_zero in
              let fresh := bn_window b <=? now in
              let count := (if fresh then 0 else bn_count b) + 1 in
              let window := if fresh then u64 (now + B44_BAN_WINDOW_MS) else bn_window b in
              let b := mk_ban (bn_net b) (bn_family b) (bn_bits b) (bn_weight b) count window (bn_until b) in
              if count <? bt_rate t * 10 then (with_bans (<[i := b]> l), true)
              else
                let l := <[i := track_ban b now (bt_ban_ms t)]> l in
                (with_bans (ban_escalate l i f now (bt_ban_ms t)), false)
          | None =>
              match (match sn_slot st with Some i => Some i | None => option_map fst (sn_lru st) end) with
              | None => (mk_bans l (u64 (now + B44_FAILCLOSED_MS)) (bt_rate t) (bt_ban_ms t), false)
              | Some i => (with_bans (<[i := mk_ban (net_set base) (Some f) (ban_base_bits f) 0 1 (u64 (now + B44_BAN_WINDOW_MS)) 0]> l), true)
              end
          end
      end
  end.
Definition bep44_ratelimit (t : ban_table) (per_source_rate ban_seconds : Z) : ban_table :=
  mk_bans (bt_ban t) (bt_block_all t) per_source_rate (u64 ((if 0 <? ban_seconds then ban_seconds else 0) * 1000)).

(** ** Lemmas: prefixes *)
Lemma mask_byte_mask k1 k2 x : k2 <= k1 -> mask_byte k2 (mask_byte k1 x) = mask_byte k2 x.
Proof.
  intros H. unfold mask_byte. destruct (Z.leb_spec 8 k2), (Z.leb_spec 8 k1); try lia; try done.
  destruct (Z.leb_spec k2 0); [done|]. destruct (Z.leb_spec k1 0); [lia|]. rewrite <- Z.land_assoc. f_equal.
  assert (E1 : In k1 [1;2;3;4;5;6;7]) by (cbn; lia). assert (E2 : In k2 [1;2;3;4;5;6;7]) by (cbn; lia).
  cbn in E1, E2. repeat (destruct E1 as [<-|E1] || destruct E1); repeat (destruct E2 as [<-|E2] || destruct E2); (reflexivity || lia).
Qed.
Lemma net_mask_mask a : forall k1 k2, k2 <= k1 -> net_mask (net_mask a k1) k2 = net_mask a k2.
Proof. induction a as [|x a IH]; intros k1 k2 H; cbn; [done|]. rewrite mask_byte_mask by done. f_equal. apply IH. lia. Qed.
Lemma net_mask_length a : forall k, length (net_mask a k) = length a.
Proof. induction a as [|x a IH]; intros k; cbn; [done|]. by rewrite IH. Qed.
Lemma net_set_take a n : length a = n -> take n (net_set a) = a.
Proof. intros <-. unfold net_set. apply take_app_length. Qed.
Lemma mask_byte_full x : mask_byte 8 x = x.
Proof. done. Qed.
Lemma net_mask_full a : forall k, 8 * Z.of_nat (length a) <= k -> net_mask a k = a.
Proof.
  induction a as [|x a IH]; intros k H; cbn [net_mask length] in *; [done|]. rewrite IH by lia. f_equal.
  unfold mask_byte. destruct (Z.leb_spec 8 k); [done|lia].
Qed.

(** ** Lemmas: what a table refuses *)

(** An address of a family is inside a ban at a time. *)
Definition covers (f : family) (now : Z) (a : bytes) (b : b44_ban) : Prop :=
  bn_family b = Some f /\ now < bn_until b /\ net_contains b a = true.
Definition covered (l : list b44_ban) (f : family) (now : Z) (a : bytes) : Prop := exists b, b ∈ l /\ covers f now a b.

Lemma first_in_some p l b : b ∈ l -> p b = true -> exists i, first_in p l = Some i /\ (i < length l)%nat.
Proof.
  induction l as [|x l IH]; intros Hin Hp; [by apply elem_of_nil in Hin|]. cbn.
  destruct (p x) eqn:E; [exists 0%nat; split; [done|lia]|]. apply elem_of_cons in Hin as [->|Hin]; [congruence|].
  destruct (IH Hin Hp) as (i & -> & Hi). exists (S i). split; [done|lia].
Qed.
Lemma first_in_is p l i : first_in p l = Some i -> exists b, l !! i = Some b /\ p b = true.
Proof.
  revert i. induction l as [|x l IH]; intros i; cbn; [done|]. destruct (p x) eqn:E; [intros [= <-]; by exists x|].
  destruct (first_in p l) as [j|]; [|done]. intros [= <-]. by apply IH.
Qed.
Lemma ban_in_iff f now pbits pnet b : ban_in f now pbits pnet b = true <->
  bn_family b = Some f /\ now < bn_until b /\ pbits <= bn_bits b /\ net_mask (ban_net b (fam_len f)) pbits = pnet.
Proof.
  unfold ban_in, bytes_eqb. rewrite andb_true_iff, negb_true_iff, !orb_false_iff, negb_false_iff, !bool_decide_eq_true, Z.leb_gt, Z.ltb_ge.
  tauto.
Qed.

(** No ban runs past a time. *)
Definition until_le (B : Z) (l : list b44_ban) : Prop := forall b, b ∈ l -> bn_until b <= B.
Lemma elem_insert (l : list b44_ban) i x b : b ∈ <[i := x]> l -> b = x \/ b ∈ l.
Proof.
  intros (j & Hj)%list_elem_of_lookup. destruct (decide (i = j)) as [->|Hne].
  - destruct (decide (j < length l)%nat).
    + rewrite list_lookup_insert_eq in Hj by done. injection Hj as <-. by left.
    + rewrite list_insert_ge in Hj by lia. right. apply list_elem_of_lookup. by exists j.
  - rewrite list_lookup_insert_ne in Hj by done. right. apply list_elem_of_lookup. by exists j.
Qed.
Lemma insert_covered l i x f T a :
  covered l f T a -> (forall y, l !! i = Some y -> ~ covers f T a y) -> covered (<[i := x]> l) f T a.
Proof.
  intros (b & (j & Hj)%list_elem_of_lookup & Hc) Hi. exists b. split; [|done]. apply list_elem_of_lookup. exists j.
  destruct (decide (i = j)) as [->|Hne]; [|by rewrite list_lookup_insert_ne]. exfalso. by apply (Hi b).
Qed.

(** A rung never uncovers an address, whatever prefix it is taken at. *)
Lemma rung_covers f track now ban_ms l rung g T a :
  is_u64 (now + ban_ms) -> now <= T -> until_le (now + ban_ms) l -> length a = fam_len g ->
  covered l g T a -> covered (escalate_rung f track now ban_ms l rung) g T a.
Proof.
  intros H64 HT Hle Ha (b & Hin & Hf & Hu & Hc). unfold escalate_rung. set (pnet := net_mask _ _).
  destruct (Z.ltb_spec (weight_in f now rung.2 pnet l) (Z.of_nat rung.1 + 1)); [by exists b|].
  destruct (ban_in f now rung.2 pnet b) eqn:Ei.
  - destruct (first_in_some _ _ _ Hin Ei) as (i & E & Hi). rewrite E.
    apply ban_in_iff in Ei as (Hbf & _ & Hbits & Hp). assert (g = f) as -> by congruence.
    eexists. split; [eapply list_elem_of_lookup; exists i; apply list_lookup_insert_eq; by rewrite length_map|].
    split; [done|]. cbn [bn_until]. rewrite u64_id by done. specialize (Hle b Hin). split; [lia|].
    unfold net_contains, ban_net, bytes_eqb in *. cbn [bn_bits bn_net].
    apply bool_decide_eq_true in Hc. apply bool_decide_eq_true. rewrite Ha in *. rewrite <- Hc in Hp.
    rewrite net_set_take by (rewrite <- Hp, !net_mask_length; done). rewrite <- Hp. by rewrite net_mask_mask.
  - set (cl := map _ l). assert (Hcl : covered cl g T a).
    { exists b. split; [|done]. apply list_elem_of_fmap. exists b. by rewrite Ei. }
    destruct (first_in _ l) as [i|] eqn:E; [|done]. apply insert_covered; [done|]. intros y Hy (Hyf & Hyu & _).
    apply first_in_is in E as (x & Hx & Hpx). unfold cl in Hy. rewrite list_lookup_fmap, Hx in Hy. cbn in Hy.
    rewrite Hpx in Hy. injection Hy as <-. done.
Qed.
Lemma rung_until f track now ban_ms l rung :
  is_u64 (now + ban_ms) -> until_le (now + ban_ms) l -> until_le (now + ban_ms) (escalate_rung f track now ban_ms l rung).
Proof.
  intros H64 Hle. unfold escalate_rung. set (pnet := net_mask _ _). destruct (_ <? _); [done|].
  assert (Hcl : until_le (now + ban_ms) (map (fun b => if ban_in f now rung.2 pnet b then ban_zero else b) l)).
  { intros b (x & -> & Hx)%list_elem_of_fmap. destruct (ban_in _ _ _ _ x); [cbn; unfold is_u64 in H64; lia|by apply Hle]. }
  destruct (first_in _ l); [|done]. intros b [->|Hb]%elem_insert; [cbn; rewrite u64_id by done; lia|by apply Hcl].
Qed.
Lemma escalate_covers track f now ban_ms g T a l :
  is_u64 (now + ban_ms) -> now <= T -> length a = fam_len g -> until_le (now + ban_ms) l ->
  until_le (now + ban_ms) (ban_escalate l track f now ban_ms) /\
  (covered l g T a -> covered (ban_escalate l track f now ban_ms) g T a).
Proof.
  intros H64 HT Ha Hle. unfold ban_escalate. revert l Hle. generalize (drop 1 (imap (fun i b => (i, b)) (ladder f))).
  intros rungs. induction rungs as [|r rungs IH]; intros l Hle; cbn [fold_left]; [done|].
  destruct (IH (escalate_rung f track now ban_ms l r)) as [H1 H2]; [by apply rung_until|]. split; [done|].
  intros Hc. apply H2. by apply rung_covers.
Qed.

(** ** Lemmas: the scan *)
Lemma scan_inside f ab base now : forall l i st, covered l f now ab -> (ban_scan f ab base now i l st).2 = inl tt.
Proof.
  induction l as [|b l IH]; intros i st (x & Hin & Hf & Hu & Hc); [by apply elem_of_nil in Hin|]. cbn [ban_scan].
  assert (Hgo : forall b' st', x ∈ l -> (let '(l0, r) := ban_scan f ab base now (S i) l st' in (b' :: l0, r)).2 = inl tt).
  { intros b' st' Hx. specialize (IH (S i) st'). destruct (ban_scan f ab base now (S i) l st') as [l0 r]. apply IH. by exists x. }
  apply elem_of_cons in Hin as [<-|Hin].
  - rewrite Hf. destruct (Z.leb_spec (bn_until x) now); [lia|]. rewrite andb_false_r, bool_decide_true by done. cbn [negb].
    destruct (Z.ltb_spec now (bn_until x)); [|lia]. by rewrite Hc.
  - destruct (bn_family b) as [bf|]; [|by apply Hgo]. destruct (_ && _); [by apply Hgo|].
    destruct (negb _); [by apply Hgo|]. destruct (_ && _); [done|]. destruct (_ =? _); by apply Hgo.
Qed.

(** The scan clears what has run out and changes nothing else. *)
Definition swept (now : Z) (b b' : b44_ban) : Prop := b' = b \/ b' = ban_zero /\ bn_until b <= now.
Definition is_tracker (f : family) (base : bytes) (n : nat) (b : b44_ban) : Prop :=
  bn_until b = 0 /\ bn_family b = Some f /\ bn_bits b = ban_base_bits f /\ ban_net b n = base.
(** A slot that bans nobody. *)
Definition idle (b : b44_ban) : Prop := bn_family b = None \/ bn_until b = 0.
(** An index is the one given, or that of an entry scanned of which [P] holds. *)
Definition found {A} (at_ : A -> nat) (P : b44_ban -> Prop) (i : nat) (l : list b44_ban) (old new : option A) : Prop :=
  new = old \/ exists a k b, new = Some a /\ at_ a = (i + k)%nat /\ l !! k = Some b /\ P b.
Lemma found_go {A} (at_ : A -> nat) P i l b old mid new :
  found at_ P i [b] old mid -> found at_ P (S i) l mid new -> found at_ P i (b :: l) old new.
Proof.
  intros H1 [->|(a & k & x & -> & Hk & Hx & HP)].
  - destruct H1 as [->|(a & k & x & -> & Hk & Hx & HP)]; [by left|]. right. exists a, k, x. split_and!; try done.
    destruct k; [done|]. by rewrite lookup_cons, lookup_nil in Hx.
  - right. exists a, (S k), x. split_and!; try done. lia.
Qed.
Lemma found_here {A} (at_ : A -> nat) (P : b44_ban -> Prop) i b old (a : A) :
  at_ a = i -> P b -> found at_ P i [b] old (Some a).
Proof. intros H HP. right. exists a, 0%nat, b. split_and!; try done. lia. Qed.

Lemma ban_scan_spec f ab base now : forall l i st l' r,
  ban_scan f ab base now i l st = (l', r) ->
  Forall2 (swept now) l l' /\
  match r with
  | inl _ => covered l f now ab
  | inr st' => found id (is_tracker f base (length ab)) i l' (sn_track st) (sn_track st') /\
               found id idle i l' (sn_slot st) (sn_slot st') /\ found fst idle i l' (sn_lru st) (sn_lru st')
  end.
Proof.
  induction l as [|b l IH]; intros i st l' r; cbn [ban_scan].
  { intros [= <- <-]. split; [constructor|]. split_and!; by left. }
  assert (Hgo : forall b' st', swept now b b' ->
    found id (is_tracker f base (length ab)) i [b'] (sn_track st) (sn_track st') ->
    found id idle i [b'] (sn_slot st) (sn_slot st') -> found fst idle i [b'] (sn_lru st) (sn_lru st') ->
    (let '(l0, r0) := ban_scan f ab base now (S i) l st' in (b' :: l0, r0)) = (l', r) ->
    Forall2 (swept now) (b :: l) l' /\ match r with
    | inl _ => covered (b :: l) f now ab
    | inr st'' => found id (is_tracker f base (length ab)) i l' (sn_track st) (sn_track st'') /\
        found id idle i l' (sn_slot st) (sn_slot st'') /\ found fst idle i l' (sn_lru st) (sn_lru st'')
    end).
  { intros b' st' Hb F1 F2 F3. destruct (ban_scan f ab base now (S i) l st') as [l0 r0] eqn:E. intros [= <- <-].
    destruct (IH _ _ _ _ E) as [H1 H2]. split; [by constructor|]. destruct r0 as [u|st2].
    - destruct H2 as (x & Hx & Hc). exists x. split; [by right|done].
    - destruct H2 as (G1 & G2 & G3). split_and!; by eapply found_go. }
  destruct (bn_family b) as [bf|] eqn:Ef.
  2:{ apply Hgo; [by left|by left| |by left]. cbn. destruct (sn_slot st); [by left|]. apply found_here; [done|by left]. }
  destruct (truth (bn_until b) && (bn_until b <=? now)) eqn:Ex.
  { apply andb_true_iff in Ex as [_ Ex]. apply Z.leb_le in Ex. apply Hgo; [by right|by left| |by left]. cbn.
    destruct (sn_slot st); [by left|]. apply found_here; [done|by left]. }
  destruct (bool_decide (bf = f)) eqn:Eb; cbn [negb]; [apply bool_decide_eq_true in Eb as ->|apply Hgo; by left].
  destruct ((now <? bn_until b) && net_contains b ab) eqn:Ec.
  { intros [= <- <-]. apply andb_true_iff in Ec as [E1 E2]. apply Z.ltb_lt in E1. split.
    - constructor; [by left|]. apply Forall_Forall2_diag, Forall_true. by left.
    - exists b. split; [by left|]. done. }
  destruct (Z.eqb_spec (bn_until b) 0) as [E0|E0]; [|apply Hgo; by left].
  apply Hgo; [by left| |by left|]; cbn.
  - destruct ((bn_bits b =? ban_base_bits f) && bytes_eqb (ban_net b (length ab)) base) eqn:Et; [|by left].
    apply andb_true_iff in Et as [E1 E2]. apply Z.eqb_eq in E1. unfold bytes_eqb in E2. apply bool_decide_eq_true in E2.
    by apply found_here.
  - destruct (sn_lru st) as [[j c]|]; [destruct (bn_count b <? c); [|by left]|]; (apply found_here; [done|by right]).
Qed.

Lemma swept_covered now T l l' f a : now <= T -> Forall2 (swept now) l l' -> covered l f T a -> covered l' f T a.
Proof.
  intros HT H (b & (j & Hj)%list_elem_of_lookup & Hc). destruct (Forall2_lookup_l _ _ _ _ _ H Hj) as (b' & Hj' & Hs).
  exists b'. split; [apply list_elem_of_lookup; by exists j|]. destruct Hs as [-> | [_ Hle]]; [done|].
  destruct Hc as (_ & Hu & _). lia.
Qed.
Lemma swept_until now B l l' : 0 <= B -> Forall2 (swept now) l l' -> until_le B l -> until_le B l'.
Proof.
  intros HB H Hle b' (j & Hj)%list_elem_of_lookup. destruct (Forall2_lookup_r _ _ _ _ _ H Hj) as (b & Hb & [-> | [-> _]]).
  - apply Hle, list_elem_of_lookup. by exists j.
  - done.
Qed.
Lemma idle_not_covers T f a b : 0 <= T -> idle b -> ~ covers f T a b.
Proof. intros HT [E|E] (Hf & Hu & _); [congruence|lia]. Qed.

(** A query at [now]: the table's clock does not run backwards past its bans. *)
Record bans_ok (now : Z) (t : ban_table) : Prop := {
  bo_now : 0 <= now;
  bo_ms : 0 <= bt_ban_ms t;
  bo_u64 : is_u64 (now + bt_ban_ms t);
  bo_until : until_le (now + bt_ban_ms t) (bt_ban t)
}.
Lemma idle_insert l i x T g a :
  0 <= T -> (forall y, l !! i = Some y -> idle y) -> covered l g T a -> covered (<[i := x]> l) g T a.
Proof. intros HT Hi Hc. apply insert_covered; [done|]. intros y Hy. by apply idle_not_covers, Hi. Qed.
Lemma found_idle {A} (at_ : A -> nat) (P : b44_ban -> Prop) l (new : option A) x :
  (forall b, P b -> idle b) -> found at_ P 0 l None new -> new = Some x -> forall y, l !! (at_ x) = Some y -> idle y.
Proof.
  intros HP [->|(a & k & b & -> & Hk & Hb & Hpb)] Hx; [done|]. injection Hx as ->. cbn in Hk. rewrite Hk. intros y Hy.
  rewrite Hb in Hy. injection Hy as <-. by apply HP.
Qed.

Lemma ban_ok_step t from now T g a :
  bans_ok now t -> now <= T -> length a = fam_len g ->
  let t' := (ban_ok t from now).1 in
  bt_ban_ms t' = bt_ban_ms t /\ until_le (now + bt_ban_ms t) (bt_ban t') /\
  (covered (bt_ban t) g T a -> covered (bt_ban t') g T a).
Proof.
  intros [Hn Hms H64 Hle] HT Ha. unfold ban_ok. destruct (bt_ban_ms t =? 0); [done|]. destruct (now <? bt_block_all t); [done|].
  destruct (family_of from) as [f|]; [|done]. destruct (ban_scan _ _ _ _ _ _ _) as [l r] eqn:Es.
  apply ban_scan_spec in Es as [Hsw Hr]. assert (Hl : until_le (now + bt_ban_ms t) l) by (eapply swept_until; [lia|exact Hsw|done]).
  assert (Hcov : covered (bt_ban t) g T a -> covered l g T a) by (by apply (swept_covered now)).
  assert (Hins : forall i x, bn_until x <= now + bt_ban_ms t -> (forall y, l !! i = Some y -> idle y) ->
    until_le (now + bt_ban_ms t) (<[i := x]> l) /\ (covered (bt_ban t) g T a -> covered (<[i := x]> l) g T a)).
  { intros i x Hx Hi. split; [intros b [->|Hb]%elem_insert; [done|by apply Hl]|]. intros Hc. apply idle_insert; [lia|done|by apply Hcov]. }
  destruct r as [u|st]; [done|]. destruct Hr as (F1 & F2 & F3). cbn [sn_track sn_slot sn_lru] in *.
  destruct (sn_track st) as [i|] eqn:Et.
  - pose proof (found_idle id _ l _ i (fun b Hb => or_intror (proj1 Hb)) F1 eq_refl) as Hi. cbn [id] in Hi.
    assert (Hz : bn_until (nth i l ban_zero) = 0).
    { destruct F1 as [|(a0 & k & b & [= <-] & Hk & Hb & Hp & _)]; [done|]. cbn in Hk. subst k. by rewrite (nth_lookup_Some _ _ _ _ Hb). }
    cbv zeta. set (b' := mk_ban _ _ _ _ _ _ _). destruct (_ <? bt_rate t * 10).
    + cbn. split; [done|]. apply Hins; [|done]. unfold b'. cbn. lia.
    + cbn. split; [done|]. destruct (Hins i (track_ban b' now (bt_ban_ms t))) as [H1 H2]; [cbn; rewrite u64_id by done; lia|done|].
      destruct (escalate_covers i f now (bt_ban_ms t) g T a _ H64 HT Ha H1) as [H3 H4]. split; [done|]. auto.
  - destruct (match sn_slot st with Some i => _ | None => _ end) as [i|] eqn:Ei; [|done]. cbn. split; [done|].
    apply Hins; [cbn; lia|]. intros y Hy. destruct (sn_slot st) as [j|] eqn:Esl.
    + injection Ei as ->. by apply (found_idle id _ l _ i (fun b Hb => Hb) F2 eq_refl).
    + destruct (sn_lru st) as [[j c]|]; [|done]. injection Ei as ->. by apply (found_idle fst _ l _ (i, c) (fun b Hb => Hb) F3 eq_refl).
Qed.

Definition ban_run (qs : list (option sockaddr * Z)) (t : ban_table) : ban_table :=
  fold_left (fun t q => (ban_ok t q.1 q.2).1) qs t.
(** Times that do not go back, none after [T]. *)
Fixpoint in_order (t0 T : Z) (qs : list (option sockaddr * Z)) : Prop :=
  match qs with [] => t0 <= T | (_, now) :: qs => t0 <= now /\ in_order now T qs end.
Lemma in_order_le t0 T qs : in_order t0 T qs -> t0 <= T.
Proof. revert t0. induction qs as [|[s now] qs IH]; intros t0; cbn; [done|]. intros [H1 H2%IH]. lia. Qed.

(** ** Properties *)

(** A ban holds: an address inside a banned prefix is refused as long as the ban
    lasts, whatever sources are tracked, banned or merged into wider bans meanwhile. *)
Theorem ban_lasts t t0 T qs from f :
  bans_ok t0 t -> is_u64 (T + bt_ban_ms t) -> bt_ban_ms t <> 0 -> in_order t0 T qs ->
  family_of from = Some f -> length (addr_bytes from) = fam_len f ->
  covered (bt_ban t) f T (addr_bytes from) ->
  (ban_ok (ban_run qs t) from T).2 = false.
Proof.
  intros Hok H64 Hms Hord Hf Ha Hc.
  assert (Hrun : bt_ban_ms (ban_run qs t) = bt_ban_ms t /\ covered (bt_ban (ban_run qs t)) f T (addr_bytes from)).
  { revert t t0 Hok H64 Hms Hord Hc. induction qs as [|[s now] qs IH]; intros t t0 Hok H64 Hms Hord Hc; [done|].
    destruct Hord as [H1 H2]. pose proof (in_order_le _ _ _ H2) as H3. cbn [ban_run fold_left fst snd].
    assert (Hn : bans_ok now t).
    { destruct Hok as [A B C D]. split; [lia|lia| |intros b Hb; specialize (D b Hb); lia]. unfold is_u64 in *. lia. }
    destruct (ban_ok_step t s now T f (addr_bytes from) Hn H3 Ha) as (E1 & E2 & E3).
    destruct (IH (ban_ok t s now).1 now) as [G1 G2].
    - destruct Hn as [A B C D]. split; rewrite ?E1; done.
    - by rewrite E1.
    - by rewrite E1.
    - done.
    - by apply E3.
    - split; [by rewrite <- E1|done]. }
  destruct Hrun as [E Hcov]. unfold ban_ok. rewrite E. destruct (Z.eqb_spec (bt_ban_ms t) 0); [done|].
  destruct (T <? _); [done|]. rewrite Hf. pose proof (scan_inside f (addr_bytes from) (net_mask (addr_bytes from) (ban_base_bits f)) T _ 0 (mk_scan None None None) Hcov) as Hs.
  destruct (ban_scan _ _ _ _ _ _ _) as [l r]. cbn in Hs. by rewrite Hs.
Qed.

(** ** A flood from one source *)
Definition bans_empty (n : nat) (rate ms : Z) : ban_table := mk_bans (replicate n ban_zero) 0 rate ms.
Definition bans_new (rate ms : Z) : ban_table := bans_empty B44_BAN_MAX rate ms.
Fixpoint verdicts (t : ban_table) (from : option sockaddr) (ts : list Z) : list bool :=
  match ts with [] => [] | now :: ts => let '(t, v) := ban_ok t from now in v :: verdicts t from ts end.
(** The table that only counts this source. *)
Definition counting (n : nat) (rate ms : Z) (f : family) (base : bytes) (k w : Z) : ban_table :=
  mk_bans (mk_ban (net_set base) (Some f) (ban_base_bits f) 0 k w 0 :: replicate n ban_zero) 0 rate ms.

Lemma scan_zeros f ab base now n : forall i st,
  ban_scan f ab base now i (replicate n ban_zero) st =
  (replicate n ban_zero, inr (mk_scan (sn_track st) (if (n =? 0)%nat then sn_slot st else or_else (sn_slot st) i) (sn_lru st))).
Proof.
  induction n as [|n IH]; intros i st; cbn [replicate ban_scan bn_family ban_zero]; [by destruct st|].
  rewrite IH. cbn [sn_track sn_slot sn_lru Nat.eqb]. destruct n; [done|]. cbn [Nat.eqb]. by destruct (sn_slot st).
Qed.

Section Flood.
Context (n : nat) (from : option sockaddr) (f : family) (rate ms : Z).
Hypothesis Hf : family_of from = Some f.
Hypothesis Ha : length (addr_bytes from) = fam_len f.
Hypothesis Hrate : 1 <= rate.
Hypothesis Hms : B44_BAN_WINDOW_MS <= ms.
Let ab := addr_bytes from.
Let base := net_mask ab (ban_base_bits f).

Lemma flood_first now : 0 <= now -> is_u64 (now + ms) ->
  ban_ok (bans_empty (S n) rate ms) from now = (counting n rate ms f base 1 (now + B44_BAN_WINDOW_MS), true).
Proof.
  intros Hn H64. unfold ban_ok, bans_empty, B44_BAN_WINDOW_MS, is_u64 in *. cbn [bt_ban_ms bt_block_all bt_ban bt_rate].
  destruct (Z.eqb_spec ms 0); [lia|]. destruct (Z.ltb_spec now 0); [lia|]. rewrite Hf, scan_zeros.
  cbn [sn_track sn_slot sn_lru Nat.eqb or_else]. rewrite u64_id by (unfold is_u64; lia). done.
Qed.

Lemma flood_next now k w : 0 <= now < w -> is_u64 (now + ms) -> 1 <= k ->
  let r := ban_ok (counting n rate ms f base k w) from now in
  if k + 1 <? rate * 10 then r = (counting n rate ms f base (k + 1) w, true)
  else r.2 = false /\ bt_ban_ms r.1 = ms /\ bt_block_all r.1 = 0 /\ covered (bt_ban r.1) f (now + ms - 1) ab.
Proof.
  intros Hn H64 Hk. unfold ban_ok, counting, B44_BAN_WINDOW_MS, is_u64 in *. cbn [bt_ban_ms bt_block_all bt_ban bt_rate].
  destruct (Z.eqb_spec ms 0); [lia|]. destruct (Z.ltb_spec now 0); [lia|]. rewrite Hf.
  cbn [ban_scan bn_family bn_until bn_bits bn_net bn_count]. rewrite bool_decide_true by done. cbn [negb truth andb Z.eqb sn_track sn_slot sn_lru].
  destruct (Z.ltb_spec now 0); [lia|]. cbn [andb]. rewrite Z.eqb_refl. cbn [andb].
  assert (Et : bytes_eqb (ban_net (mk_ban (net_set base) (Some f) (ban_base_bits f) 0 k w 0) (length (addr_bytes from))) (net_mask (addr_bytes from) (ban_base_bits f)) = true).
  { unfold bytes_eqb, ban_net. cbn [bn_net]. apply bool_decide_eq_true. apply net_set_take. apply net_mask_length. }
  rewrite Et, scan_zeros. cbn [sn_track nth bn_window bn_count bn_net bn_family bn_bits bn_weight bn_until].
  destruct (Z.leb_spec w now); [lia|]. destruct (Z.ltb_spec (k + 1) (rate * 10)); [done|]. cbn [fst snd bt_ban bt_ban_ms bt_block_all].
  split_and!; try done. apply escalate_covers; try done; try lia.
  - intros b [->|Hb]%elem_insert; [cbn; rewrite u64_id by (unfold is_u64; lia); lia|].
    apply elem_of_cons in Hb as [->|Hb]; [cbn; lia|]. apply elem_of_replicate in Hb as [-> _]. cbn. lia.
  - eexists. split; [by left|]. split; [done|]. cbn [bn_until track_ban]. rewrite u64_id by (unfold is_u64; lia). split; [lia|].
    unfold net_contains, ban_net, bytes_eqb. cbn [bn_bits bn_net track_ban]. apply bool_decide_eq_true. symmetry. apply net_set_take. apply net_mask_length.
Qed.

(** Once banned, refused until the ban runs out. *)
Lemma flood_refused t now T : bt_ban_ms t = ms -> bt_block_all t = 0 -> 0 <= now <= T -> covered (bt_ban t) f T ab ->
  let r := ban_ok t from now in r.2 = false /\ bt_ban_ms r.1 = ms /\ bt_block_all r.1 = 0 /\ covered (bt_ban r.1) f T ab.
Proof.
  intros E1 E2 Hn Hc. unfold ban_ok. rewrite E1, E2, Hf. unfold B44_BAN_WINDOW_MS in *. destruct (Z.eqb_spec ms 0); [lia|].
  destruct (Z.ltb_spec now 0); [lia|].
  assert (Hcn : covered (bt_ban t) f now ab) by (destruct Hc as (b & Hb & H1 & H2 & H3); exists b; split; [done|split_and!; [done|lia|done]]).
  pose proof (scan_inside f ab base now _ 0 (mk_scan None None None) Hcn) as Hs. fold ab base.
  destruct (ban_scan f ab base now 0 (bt_ban t) _) as [l r] eqn:El. cbn in Hs. subst r. apply ban_scan_spec in El as [Hsw _].
  cbn. split_and!; try done. eapply swept_covered; [|exact Hsw|done]. lia.
Qed.
End Flood.

Lemma seq_map_shift {A} (g : nat -> A) n : map g (seq 1 n) = map (fun j => g (S j)) (seq 0 n).
Proof. rewrite <- (seq_shift n 0). apply map_map. Qed.

Section FloodRun.
Context (n : nat) (from : option sockaddr) (f : family) (rate ms t0 : Z).
Hypothesis Hf : family_of from = Some f.
Hypothesis Ha : length (addr_bytes from) = fam_len f.
Hypothesis Hrate : 1 <= rate.
Hypothesis Hms : B44_BAN_WINDOW_MS <= ms.
Hypothesis H0 : 0 <= t0.
Hypothesis H64 : is_u64 (t0 + B44_BAN_WINDOW_MS + ms).
Definition within (t : Z) : Prop := t0 <= t < t0 + B44_BAN_WINDOW_MS.

Lemma flood_dead ts : Forall within ts -> forall t, bt_ban_ms t = ms -> bt_block_all t = 0 ->
  covered (bt_ban t) f (t0 + B44_BAN_WINDOW_MS - 1) (addr_bytes from) -> verdicts t from ts = map (fun _ => false) (seq 0 (length ts)).
Proof.
  induction 1 as [|now ts Hn Hts IH]; intros t E1 E2 Hc; [done|]. cbn [verdicts length seq map]. unfold within in Hn.
  destruct (flood_refused from f ms Hf Ha Hms t now (t0 + B44_BAN_WINDOW_MS - 1) E1 E2 ltac:(lia) Hc) as (V & F1 & F2 & F3).
  destruct (ban_ok t from now) as [t' v]. cbn in V, F1, F2, F3. subst v. f_equal. rewrite (IH t' F1 F2 F3). by rewrite seq_map_shift.
Qed.

Lemma flood_rest ts : Forall within ts -> forall k w, t0 + B44_BAN_WINDOW_MS <= w -> 1 <= k ->
  verdicts (counting n rate ms f (net_mask (addr_bytes from) (ban_base_bits f)) k w) from ts =
  map (fun j => k + 1 + Z.of_nat j <? rate * 10) (seq 0 (length ts)).
Proof.
  unfold is_u64, B44_BAN_WINDOW_MS in *.
  induction 1 as [|now ts Hn Hts IH]; intros k w Hw Hk; [done|]. cbn [verdicts length seq map]. unfold within, B44_BAN_WINDOW_MS in Hn.
  pose proof (flood_next n from f rate ms Hf Ha Hms now k w ltac:(lia) ltac:(unfold is_u64; lia) Hk) as Hnx. cbv zeta in Hnx.
  rewrite seq_map_shift. rewrite Z.add_0_r. destruct (Z.ltb_spec (k + 1) (rate * 10)) as [Hlt|Hge].
  - rewrite Hnx. f_equal. rewrite IH by lia. apply map_ext. intros j. f_equal. lia.
  - destruct Hnx as (V & F1 & F2 & (b & Hb & C1 & C2 & C3)). destruct (ban_ok _ from now) as [t' v]. cbn in V, F1, F2, Hb. subst v. f_equal.
    rewrite (flood_dead ts Hts t' F1 F2).
    + apply map_ext. intros j. symmetry. apply Z.ltb_ge. lia.
    + exists b. split; [done|]. split_and!; [done| |done]. unfold B44_BAN_WINDOW_MS. lia.
Qed.
End FloodRun.

(** Of a flood from one address over a window, on a node that tracks nobody else,
    exactly the first [rate * 10 - 1] queries are answered and every later one is dropped. *)
Theorem flood_bounded from f rate ms t0 ts :
  family_of from = Some f -> length (addr_bytes from) = fam_len f -> 1 <= rate -> B44_BAN_WINDOW_MS <= ms -> 0 <= t0 ->
  is_u64 (t0 + B44_BAN_WINDOW_MS + ms) -> Forall (fun t => t0 <= t < t0 + B44_BAN_WINDOW_MS) ts ->
  verdicts (bans_new rate ms) from ts = map (fun j => Z.of_nat j + 1 <? rate * 10) (seq 0 (length ts)).
Proof.
  intros Hf Ha Hr Hms H0 H64 Hts. destruct ts as [|now ts]; [done|]. apply Forall_cons in Hts as [Hn Hts].
  unfold bans_new. change B44_BAN_MAX with (S 127). generalize 127%nat. intros n. cbn [verdicts length seq map].
  rewrite (flood_first n from f rate ms Hf Ha Hms) by (unfold is_u64 in *; lia).
  destruct (Z.ltb_spec (Z.of_nat 0 + 1) (rate * 10)); [|lia]. f_equal.
  rewrite (flood_rest n from f rate ms t0) by (done || lia). rewrite seq_map_shift. apply map_ext. intros j. f_equal. lia.
Qed.

Definition src (a b c d : Z) : option sockaddr := Some (AF_INET 6881 [a; b; c; d]).
Lemma flood_bounded_witness :
  verdicts (bans_new 1 20000) (src 203 0 113 5) (map (fun k => 7 * Z.of_nat k) (seq 0 12)) =
  [true; true; true; true; true; true; true; true; true; false; false; false].
Proof.
  refine (eq_trans (flood_bounded (src 203 0 113 5) F4 1 20000 0 _ eq_refl eq_refl _ _ _ _ _) _);
    [lia| | lia | | |vm_compute; reflexivity].
  - unfold B44_BAN_WINDOW_MS. lia.
  - unfold is_u64, B44_BAN_WINDOW_MS. lia.
  - apply Forall_map, Forall_forall. intros k Hk%elem_of_seq. unfold B44_BAN_WINDOW_MS. lia.
Defined.

(** Three addresses flooded one after another: two of a /28 in different /30s, then the
    neighbour of the first. *)
Fixpoint flood (k : nat) (from : option sockaddr) (now : Z) (t : ban_table) : ban_table :=
  match k with O => t | S k => flood k from now (ban_ok t from now).1 end.
Definition three_offenders (b0 c0 b1 : option sockaddr) : ban_table :=
  flood 10 b1 3 (flood 10 c0 2 (flood 10 b0 1 (bans_new 1 20000))).
(** The prefix lengths and weights of the bans in force. *)
Definition bans_in_force (now : Z) (t : ban_table) : list (Z * Z) :=
  map (fun b => (bn_bits b, bn_weight b)) (List.filter (fun b => now <? bn_until b) (bt_ban t)).

Definition demo_banned : ban_table := flood 10 (src 203 0 113 5) 1 (bans_new 1 20000).
Lemma demo_banned_ok : bans_ok 1 demo_banned.
Proof.
  assert (Hms : bt_ban_ms demo_banned = 20000) by (vm_compute; reflexivity).
  split; rewrite ?Hms; [lia|lia|unfold is_u64; lia|]. intros b Hb.
  assert (Hall : forallb (fun b => bn_until b <=? 20001) (bt_ban demo_banned) = true) by (vm_compute; reflexivity).
  rewrite forallb_forall in Hall. apply list_elem_of_In in Hb. apply Hall, Z.leb_le in Hb. lia.
Qed.
Lemma ban_lasts_witness :
  (ban_ok (ban_run [(src 203 0 113 9, 5); (src 203 0 113 4, 6)] demo_banned) (src 203 0 113 5) 20000).2 = false.
Proof.
  apply (ban_lasts demo_banned 1 20000 [(src 203 0 113 9, 5); (src 203 0 113 4, 6)] (src 203 0 113 5) F4).
  - apply demo_banned_ok.
  - vm_compute. by split.
  - vm_compute. discriminate.
  - cbn. lia.
  - reflexivity.
  - reflexivity.
  - eexists. split; [apply list_elem_of_lookup; exists 0%nat; vm_compute; reflexivity|]. vm_compute. by split_and!.
Defined.

(** The climb stops half way: the third offender completes both its /30 and the /28
    around it, and with its slot first in the table both are banned; behind its
    neighbour's slot, the widening to /30 clears the very network the climb is read
    from, and the /28 is left open although three offenders lie in it. *)
Theorem climb_stops_on_cleared_slot :
  let b0 := src 203 0 113 1 in let c0 := src 203 0 113 5 in let b1 := src 203 0 113 2 in
  bans_in_force 3 (three_offenders b0 c0 b1) = [(30, 2); (32, 1)] /\
  bans_in_force 3 (flood 9 b1 3 (flood 10 c0 2 (flood 10 b0 1 (flood 1 b1 1 (bans_new 1 20000))))) = [(28, 3)] /\
  (ban_ok (three_offenders b0 c0 b1) (src 203 0 113 9) 4).2 = true.
Proof. vm_compute. split_and!; reflexivity. Qed.
