(* ===== verification/Bep44Op.v ===== *)
(** src/src/bep44.c, the asking side: an operation keeps the nodes it knows sorted by
    distance, asks them within its budgets, keeps the newest value whose signature
    holds, and stores on the nodes that gave it a token. The clock is read once per
    call; whether the kernel takes a datagram is an argument ([tx]); datagrams and
    callbacks are the outputs, in order. *)
From S2P Require Import Prelude Net Bencode Crypto Sha1 Bep44 Bep44Store.

Definition B44_ALPHA_V4 : nat := 16.
Definition B44_ALPHA_V6 : nat := 32.
Definition B44_K : nat := 8.
Definition B44_NODES_MAX : nat := 192.
Definition B44_BOOTSTRAP_MAX : nat := 8.
Definition B44_REQS_MAX : nat := B44_ALPHA_V4 + B44_ALPHA_V6.
Definition B44_REQ_TIMEOUT_MS : Z := 1000.
Definition B44_OP_TIMEOUT_MS : Z := 30000.
Definition B44_TOKEN_MAX : nat := 40.
Definition B44_SEEDS_MAX : nat := 16.
Definition B44_PINNED_MAX : nat := 8.
Definition B44_PIN_STALE_MS : Z := 2 * 60 * 1000.
Definition B44_RETAINED_MAX : nat := 8.
Definition B44_NODE_BURST : Z := 4.
Definition B44_NODE_COST_MS : Z := 2 * 1000 / 5.
Definition B44_COMPACT_CACHE_MAX : nat := 4.

(** ** Data *)
Inductive b44_node_state := B44_NODE_FRESH | B44_NODE_INFLIGHT | B44_NODE_REPLIED | B44_NODE_FAILED | B44_NODE_STORE_INFLIGHT | B44_NODE_STORED.
#[export] Instance node_state_eq_dec : EqDecision b44_node_state.
Proof. solve_decision. Defined.
Inductive b44_phase := B44_PHASE_LOOKUP | B44_PHASE_STORE.

Record b44_node := mk_node {
  nd_id : bytes; nd_dist : bytes; nd_ss : sockaddr; nd_state : b44_node_state; nd_token : bytes;
  nd_seq : option Z                                     (* [seq] where [have_seq] *)
}.
Definition node_eta (n : b44_node) : b44_node := mk_node (nd_id n) (nd_dist n) (nd_ss n) (nd_state n) (nd_token n) (nd_seq n).
#[export] Instance set_nd_state : Setter nd_state := ltac:(solve_setter node_eta).
#[export] Instance set_nd_token : Setter nd_token := ltac:(solve_setter node_eta).
#[export] Instance set_nd_seq : Setter nd_seq := ltac:(solve_setter node_eta).

Record b44_req := mk_req { rq_node : nat; rq_tid : Z; rq_sent : Z }.

(** [bep44_merge_fn]: the current value and its sequence, and the value to store. *)
Definition merge_fn : Type := option bytes -> Z -> option bytes.
Inductive op_cb := CbPut | CbGet.
Record b44_op := mk_op {
  op_put : bool; op_immutable : bool; op_update : bool; op_deferred : bool; op_direct : bool;
  op_merge : merge_fn; op_phase : b44_phase; op_target : bytes; op_pk : bytes; op_sk : bytes; op_salt : bytes;
  op_value : bytes; op_seq : Z; op_cas : Z;
  op_best : option (bytes * Z);                         (* [best], [best_seq] where [have_best] *)
  op_best4 : option sockaddr; op_best6 : option sockaddr;
  op_nodes : list b44_node; op_reqs : list (option b44_req);
  op_start : Z; op_stored : Z; op_cbk : op_cb
}.
Definition op_eta (o : b44_op) : b44_op :=
  mk_op (op_put o) (op_immutable o) (op_update o) (op_deferred o) (op_direct o) (op_merge o) (op_phase o) (op_target o)
    (op_pk o) (op_sk o) (op_salt o) (op_value o) (op_seq o) (op_cas o) (op_best o) (op_best4 o) (op_best6 o)
    (op_nodes o) (op_reqs o) (op_start o) (op_stored o) (op_cbk o).
#[export] Instance set_op_put : Setter op_put := ltac:(solve_setter op_eta).
#[export] Instance set_op_immutable : Setter op_immutable := ltac:(solve_setter op_eta).
#[export] Instance set_op_update : Setter op_update := ltac:(solve_setter op_eta).
#[export] Instance set_op_deferred : Setter op_deferred := ltac:(solve_setter op_eta).
#[export] Instance set_op_merge : Setter op_merge := ltac:(solve_setter op_eta).
#[export] Instance set_op_phase : Setter op_phase := ltac:(solve_setter op_eta).
#[export] Instance set_op_pk : Setter op_pk := ltac:(solve_setter op_eta).
#[export] Instance set_op_sk : Setter op_sk := ltac:(solve_setter op_eta).
#[export] Instance set_op_salt : Setter op_salt := ltac:(solve_setter op_eta).
#[export] Instance set_op_value : Setter op_value := ltac:(solve_setter op_eta).
#[export] Instance set_op_seq : Setter op_seq := ltac:(solve_setter op_eta).
#[export] Instance set_op_cas : Setter op_cas := ltac:(solve_setter op_eta).
#[export] Instance set_op_best : Setter op_best := ltac:(solve_setter op_eta).
#[export] Instance set_op_best4 : Setter op_best4 := ltac:(solve_setter op_eta).
#[export] Instance set_op_best6 : Setter op_best6 := ltac:(solve_setter op_eta).
#[export] Instance set_op_nodes : Setter op_nodes := ltac:(solve_setter op_eta).
#[export] Instance set_op_reqs : Setter op_reqs := ltac:(solve_setter op_eta).
#[export] Instance set_op_stored : Setter op_stored := ltac:(solve_setter op_eta).
#[export] Instance set_op_cbk : Setter op_cbk := ltac:(solve_setter op_eta).

Record b44_seed := mk_seed { sd_id : option bytes; sd_ss : sockaddr; sd_tat : Z; sd_last_ok : Z }.
Definition seed_eta (s : b44_seed) : b44_seed := mk_seed (sd_id s) (sd_ss s) (sd_tat s) (sd_last_ok s).
#[export] Instance set_sd_id : Setter sd_id := ltac:(solve_setter seed_eta).
#[export] Instance set_sd_tat : Setter sd_tat := ltac:(solve_setter seed_eta).
#[export] Instance set_sd_last_ok : Setter sd_last_ok := ltac:(solve_setter seed_eta).

(** The fields of [struct bep44_engine] the asking side uses, but for the operations. *)
Record b44_client := mk_client {
  cl_serve : b44_serve; cl_s4 : bool; cl_s6 : bool; cl_tid : Z;
  cl_bootstrap : list sockaddr;
  cl_seeds : list (option b44_seed); cl_seed_next : nat;
  cl_pinned : list b44_seed;
  cl_retained : list (option b44_seed); cl_retain_next : nat
}.
Definition client_eta (c : b44_client) : b44_client :=
  mk_client (cl_serve c) (cl_s4 c) (cl_s6 c) (cl_tid c) (cl_bootstrap c) (cl_seeds c) (cl_seed_next c) (cl_pinned c) (cl_retained c) (cl_retain_next c).
#[export] Instance set_cl_serve : Setter cl_serve := ltac:(solve_setter client_eta).
#[export] Instance set_cl_tid : Setter cl_tid := ltac:(solve_setter client_eta).
#[export] Instance set_cl_bootstrap : Setter cl_bootstrap := ltac:(solve_setter client_eta).
#[export] Instance set_cl_seeds : Setter cl_seeds := ltac:(solve_setter client_eta).
#[export] Instance set_cl_seed_next : Setter cl_seed_next := ltac:(solve_setter client_eta).
#[export] Instance set_cl_pinned : Setter cl_pinned := ltac:(solve_setter client_eta).
#[export] Instance set_cl_retained : Setter cl_retained := ltac:(solve_setter client_eta).
#[export] Instance set_cl_retain_next : Setter cl_retain_next := ltac:(solve_setter client_eta).

Inductive output :=
| OSend (to : sockaddr) (msg : bytes)
| OPut (stored : Z) (node : option sockaddr)
| OGet (v : option bytes) (seq : Z) (node : option sockaddr).

(** ** The node list *)
Fixpoint insert_pos (dist : bytes) (l : list b44_node) : nat :=
  match l with [] => 0%nat | n :: l => if memcmp dist (nd_dist n) <? 0 then 0%nat else S (insert_pos dist l) end.
Definition node_known (id : option bytes) (sa : sockaddr) (n : b44_node) : bool :=
  addr_eq (Some sa) (nd_ss n) || match id with Some i => bytes_eqb (nd_id n) i | None => false end.
Definition node_dist (op : b44_op) (id : option bytes) (pinned : bool) : bytes :=
  match id with Some i => dist_calc i (op_target op) | None => if pinned then replicate 20 0 else replicate 20 255 end.
Definition inflight (s : b44_node_state) : bool :=
  bool_decide (s = B44_NODE_INFLIGHT) || bool_decide (s = B44_NODE_STORE_INFLIGHT).
Definition shift_req (pos : nat) (r : option b44_req) : option b44_req :=
  match r with
  | Some r => Some (if (pos <=? rq_node r)%nat then mk_req (S (rq_node r)) (rq_tid r) (rq_sent r) else r)
  | None => None
  end.
Definition node_insert (op : b44_op) (id : option bytes) (sa : sockaddr) (pinned : bool) : b44_op :=
  let dist := node_dist op id pinned in
  let nodes := op_nodes op in
  if existsb (node_known id sa) nodes then op
  else
    let pos := insert_pos dist nodes in
    if (B44_NODES_MAX <=? pos)%nat then op
    else
      let full := (B44_NODES_MAX <=? length nodes)%nat in
      if full && match nodes !! (B44_NODES_MAX - 1)%nat with Some n => inflight (nd_state n) | None => false end then op
      else
        let nodes := if full then take (B44_NODES_MAX - 1) nodes else nodes in
        let n := mk_node (default (replicate 20 0) id) dist sa B44_NODE_FRESH [] None in
        op <| op_nodes := take pos nodes ++ n :: drop pos nodes |>
           <| op_reqs := map (shift_req pos) (op_reqs op) |>.

(** A compact entry: the id and the address, of 26 or 38 bytes. *)
Definition compact_addr (v6 : bool) (p : bytes) : sockaddr :=
  if v6 then AF_INET6 (be_get (take 2 (drop 36 p))) (take 16 (drop 20 p)) 0
  else AF_INET (be_get (take 2 (drop 24 p))) (take 4 (drop 20 p)).
Fixpoint nodes_compact_loop (fuel : nat) (cl : b44_client) (op : b44_op) (data : bytes) (v6 : bool) (cached : nat) (now : Z) :
  b44_client * b44_op :=
  match fuel with
  | O => (cl, op)
  | S fuel =>
      let entry := if v6 then 38%nat else 26%nat in
      if (length data <? entry)%nat then (cl, op)
      else
        let sa := compact_addr v6 data in
        let op := node_insert op (Some (take 20 data)) sa false in
        let '(cl, cached) :=
          if (cached <? B44_COMPACT_CACHE_MAX)%nat
          then (cl <| cl_serve := cache_add (cl_serve cl) (Some (take 20 data)) (Some sa) now |>, S cached)
          else (cl, cached) in
        nodes_compact_loop fuel cl op (drop entry data) v6 cached now
  end.
Definition nodes_compact_add (cl : b44_client) (op : b44_op) (data : bytes) (v6 : bool) (now : Z) : b44_client * b44_op :=
  nodes_compact_loop (length data) cl op data v6 0 now.

(** ** Requests *)
Definition req_free (r : option b44_req) : bool := match r with None => true | Some _ => false end.
(** The slot, with the next transaction id. *)
Definition req_alloc (cl : b44_client) (op : b44_op) (node : nat) (now : Z) : option (nat * Z * b44_client * b44_op) :=
  match find_index req_free (op_reqs op) with
  | None => None
  | Some i => Some (i, cl_tid cl, cl <| cl_tid := u16 (cl_tid cl + 1) |>,
                    op <| op_reqs := <[i := Some (mk_req node (cl_tid cl) now)]> (op_reqs op) |>)
  end.
Definition req_drop (op : b44_op) (i : nat) : b44_op := op <| op_reqs := <[i := None]> (op_reqs op) |>.
Definition tid_bytes (seq : Z) : bytes := [112; 109; u8 seq; u8 (seq >> 8)].
Definition set_node (op : b44_op) (i : nat) (f : b44_node -> b44_node) : b44_op := op <| op_nodes := alter f i (op_nodes op) |>.
Definition node_at (op : b44_op) (i : nat) : b44_node := nth i (op_nodes op) (mk_node [] [] AF_OTHER B44_NODE_FAILED [] None).

Definition msg_sent (cl : b44_client) (tx : sockaddr -> bool) (sa : sockaddr) : bool :=
  (if is_v6 sa then cl_s6 cl else cl_s4 cl) && tx sa.
(** What follows building a message: the node's state, and the request given back when the
    datagram does not leave. *)
Definition send_tail (cl : b44_client) (op : b44_op) (tx : sockaddr -> bool) (i node : nat) (st : b44_node_state) (msg : bytes) : b44_op * list output :=
  let sa := nd_ss (node_at op node) in
  if msg_sent cl tx sa then (set_node op node (fun n => n <| nd_state := st |>), [OSend sa msg])
  else (req_drop (set_node op node (fun n => n <| nd_state := B44_NODE_FAILED |>)) i, []).

Definition get_msg (myid target : bytes) (tid : Z) : list wop :=
  [raw "d1:ad"; key "id"; WStr myid; key "target"; WStr target; key "want"; raw "l2:n42:n6e"; raw "e1:q3:get1:t";
   WStr (tid_bytes tid); raw "1:y1:qe"].
(** The return value is [true] for 0. *)
Definition get_send (cl : b44_client) (op : b44_op) (node : nat) (tx : sockaddr -> bool) (now : Z) :
  bool * b44_client * b44_op * list output :=
  match req_alloc cl op node now with
  | None => (false, cl, op, [])
  | Some (i, tid, cl, op) =>
      match write_msg B44_MSG_MAX (get_msg (sv_myid (cl_serve cl)) (op_target op) tid) with
      | None => (false, cl, req_drop op i, [])
      | Some msg =>
          let st := match op_phase op with B44_PHASE_STORE => B44_NODE_STORE_INFLIGHT | B44_PHASE_LOOKUP => B44_NODE_INFLIGHT end in
          let '(op, out) := send_tail cl op tx i node st msg in (true, cl, op, out)
      end
  end.

Definition node_cas (n : b44_node) (op_cas : Z) : Z := match nd_seq n with Some s => s | None => op_cas end.
Definition put_msg_immutable (myid token value : bytes) (tid : Z) : list wop :=
  [raw "d1:ad"; key "id"; WStr myid; key "token"; WStr token; key "v"; WRaw value; raw "e1:q3:put1:t";
   WStr (tid_bytes tid); raw "1:y1:qe"].
Definition put_msg_mutable (myid pk salt sig token value : bytes) (seq cas tid : Z) : list wop :=
  [raw "d1:ad"] ++ (if 0 <=? cas then [key "cas"; WInt cas] else []) ++ [key "id"; WStr myid; key "k"; WStr pk] ++
  (if bool_decide (salt = []) then [] else [key "salt"; WStr salt]) ++
  [key "seq"; WInt seq; key "sig"; WStr sig; key "token"; WStr token; key "v"; WRaw value; raw "e1:q3:put1:t";
   WStr (tid_bytes tid); raw "1:y1:qe"].

(** ** Budgets *)
Definition seed_is (sa : sockaddr) (s : b44_seed) : bool := addr_eq (Some sa) (sd_ss s).
Definition slot_seed_is (sa : sockaddr) (s : option b44_seed) : bool := match s with Some s => seed_is sa s | None => false end.
Definition bucket_step (tat now : Z) : Z * bool :=
  let tat := if tat <? now then now else tat in
  if B44_NODE_BURST * B44_NODE_COST_MS <? u64 (tat - now) then (tat, false) else (u64 (tat + B44_NODE_COST_MS), true).
Definition node_budget_ok (cl : b44_client) (sa : sockaddr) (now : Z) : b44_client * bool :=
  match find_index (seed_is sa) (cl_pinned cl) with
  | Some i =>
      match cl_pinned cl !! i with
      | Some s => let '(tat, ok) := bucket_step (sd_tat s) now in (cl <| cl_pinned := <[i := s <| sd_tat := tat |>]> (cl_pinned cl) |>, ok)
      | None => (cl, true)
      end
  | None =>
      match find_index (slot_seed_is sa) (cl_retained cl) with
      | Some i =>
          match cl_retained cl !! i with
          | Some (Some s) => let '(tat, ok) := bucket_step (sd_tat s) now in
              (cl <| cl_retained := <[i := Some (s <| sd_tat := tat |>)]> (cl_retained cl) |>, ok)
          | _ => (cl, true)
          end
      | None => (cl, true)
      end
  end.

(** ** Retained nodes and the end of an operation *)
Definition retain_add (cl : b44_client) (id : option bytes) (sa : sockaddr) : b44_client :=
  if existsb (slot_seed_is sa) (cl_retained cl) then cl
  else cl <| cl_retained := <[cl_retain_next cl := Some (mk_seed id sa 0 0)]> (cl_retained cl) |>
          <| cl_retain_next := ((cl_retain_next cl + 1) mod B44_RETAINED_MAX)%nat |>.
(** Nodes in their order, four of each family at most. *)
Fixpoint retain_nodes (cl : b44_client) (nodes : list b44_node) (kept4 kept6 : nat) : b44_client :=
  match nodes with
  | [] => cl
  | nd :: nodes =>
      if negb ((kept4 <? 4)%nat || (kept6 <? 4)%nat) then cl
      else if negb (bool_decide (nd_state nd = B44_NODE_REPLIED) || bool_decide (nd_state nd = B44_NODE_STORED))
      then retain_nodes cl nodes kept4 kept6
      else
        let v6 := is_v6 (nd_ss nd) in
        if (4 <=? (if v6 then kept6 else kept4))%nat then retain_nodes cl nodes kept4 kept6
        else
          let cl := retain_add cl (if id_nonzero (nd_id nd) then Some (nd_id nd) else None) (nd_ss nd) in
          if v6 then retain_nodes cl nodes kept4 (S kept6) else retain_nodes cl nodes (S kept4) kept6
  end.
Definition op_retain_nodes (cl : b44_client) (op : b44_op) : b44_client := retain_nodes cl (op_nodes op) 0 0.

Definition stored_usable (n : b44_node) : bool := bool_decide (nd_state n = B44_NODE_STORED) && node_addr_usable (nd_ss n).
(** The two slots for who served the value, after the closest storing node was looked up for a put. *)
Definition finish_best (op : b44_op) : option sockaddr * option sockaddr :=
  match op_put op, op_best4 op, op_best6 op with
  | true, None, None =>
      match List.find stored_usable (op_nodes op) with
      | Some n => if is_v6 (nd_ss n) then (None, Some (nd_ss n)) else (Some (nd_ss n), None)
      | None => (None, None)
      end
  | _, b4, b6 => (b4, b6)
  end.
Definition best_value (op : b44_op) : option bytes := option_map fst (op_best op).
Definition best_seq (op : b44_op) : Z := match op_best op with Some (_, s) => s | None => 0 end.
(** The operation is gone when its callback runs. *)
Definition op_finish (cl : b44_client) (op : b44_op) : b44_client * list output :=
  let '(b4, b6) := finish_best op in
  let out :=
    match op_cbk op with
    | CbPut => [OPut (op_stored op) (match b4 with Some _ => b4 | None => b6 end)]
    | CbGet =>
        match b4, b6 with
        | None, None => [OGet (best_value op) (best_seq op) None]
        | _, _ => (match b4 with Some _ => [OGet (best_value op) (best_seq op) b4] | None => [] end) ++
                  (match b6 with Some _ => [OGet (best_value op) (best_seq op) b6] | None => [] end)
        end
    end in
  (op_retain_nodes cl op, out).

Definition next_seq (best : option Z) : Z :=
  match best with None => 1 | Some b => if INT64_MAX <=? b then -1 else b + 1 end.
Definition store_seq (best : option (bytes * Z)) (nv : bytes) : Z :=
  let next := next_seq (option_map snd best) in
  if next <? 0 then -1
  else match best with Some (cur, b) => if bytes_eqb nv cur then b else next | None => next end.

(** ** Replies *)
Definition record_best_node (op : b44_op) (sa : option sockaddr) : b44_op :=
  match sa with
  | Some sa =>
      if negb (node_addr_usable sa) then op
      else if is_v6 sa then match op_best6 op with Some _ => op | None => op <| op_best6 := Some sa |> end
      else match op_best4 op with Some _ => op | None => op <| op_best4 := Some sa |> end
  | None => op
  end.
Definition new_best (op : b44_op) (v : bytes) (seq : Z) (from : option sockaddr) : b44_op :=
  record_best_node (op <| op_best := Some (v, seq) |> <| op_best4 := None |> <| op_best6 := None |>) from.

Section Client.
Context {Ed : Ed25519}.

(** A signature by the key of the operation, over its salt. *)
Definition sig_holds (pk salt sig v : bytes) (seq : Z) : bool :=
  match bep44_sig_buffer SIGBUF_LEN (Some salt) seq v with Some m => cc_ed25519_check sig pk m | None => false end.
(** The value of a reply with its sequence, where it can be trusted. *)
Definition reply_value (op : b44_op) (rdict : bytes) : option (bytes * Z) :=
  match benc_dict_find rdict (cstr "v") with
  | None => None
  | Some v =>
      if (BEP44_MAX_VALUE <? length v)%nat then None
      else if op_immutable op then if bytes_eqb (cc_sha1 v) (op_target op) then Some (v, -1) else None
      else
        match (x ← benc_dict_find rdict (cstr "k"); benc_str_get x) with
        | Some k =>
            if negb (length k =? 32)%nat || negb (bytes_eqb k (op_pk op)) then None
            else
              match (x ← benc_dict_find rdict (cstr "sig"); benc_str_get x) with
              | Some sig =>
                  if negb (length sig =? 64)%nat then None
                  else
                    match (x ← benc_dict_find rdict (cstr "seq"); benc_int_get x) with
                    | Some seq => if seq <? 0 then None else if sig_holds (op_pk op) (op_salt op) sig v seq then Some (v, seq) else None
                    | None => None
                    end
              | None => None
              end
        | None => None
        end
  end.
Definition value_check (op : b44_op) (node : nat) (from : option sockaddr) (rdict : bytes) : b44_op :=
  match reply_value op rdict with
  | None => op
  | Some (v, seq) =>
      if op_immutable op then
        match op_best op with Some _ => record_best_node op from | None => new_best op v (-1) from end
      else
        let op := set_node op node (fun n => n <| nd_seq := Some seq |>) in
        match op_best op with
        | Some (_, b) => if seq <=? b then record_best_node op from else new_best op v seq from
        | None => new_best op v seq from
        end
  end.
Definition pin_learn (from : option sockaddr) (id : bytes) (now : Z) (p : b44_seed) : b44_seed :=
  if negb (addr_eq from (sd_ss p)) then p
  else let p := p <| sd_last_ok := now |> in match sd_id p with Some _ => p | None => p <| sd_id := Some id |> end.
Definition pin_learn_id (cl : b44_client) (from : option sockaddr) (rdict : bytes) (now : Z) : b44_client :=
  match from, (x ← benc_dict_find rdict (cstr "id"); benc_str_get x) with
  | Some _, Some id => if negb (length id =? 20)%nat then cl else cl <| cl_pinned := map (pin_learn from id now) (cl_pinned cl) |>
  | _, _ => cl
  end.

(** ** Storing *)
Definition put_send (cl : b44_client) (op : b44_op) (node : nat) (tx : sockaddr -> bool) (now : Z) :
  bool * b44_client * b44_op * list output :=
  match req_alloc cl op node now with
  | None => (false, cl, op, [])
  | Some (i, tid, cl, op) =>
      let nd := node_at op node in
      let myid := sv_myid (cl_serve cl) in
      let msg :=
        if op_immutable op then write_msg B44_MSG_MAX (put_msg_immutable myid (nd_token nd) (op_value op) tid)
        else
          match bep44_sig_buffer SIGBUF_LEN (Some (op_salt op)) (op_seq op) (op_value op) with
          | None => None
          | Some m =>
              match cc_ed25519_sign (op_sk op) m with
              | None => None
              | Some sig => write_msg B44_MSG_MAX (put_msg_mutable myid (op_pk op) (op_salt op) sig (nd_token nd) (op_value op)
                                                     (op_seq op) (node_cas nd (op_cas op)) tid)
              end
          end in
      match msg with
      | None => (false, cl, req_drop op i, [])
      | Some msg => let '(op, out) := send_tail cl op tx i node B44_NODE_STORE_INFLIGHT msg in (true, cl, op, out)
      end
  end.

(** The loop over the nodes from [i] on: [s4], [s6] sent so far, and how many in all. *)
Fixpoint store_loop (fuel i : nat) (cl : b44_client) (op : b44_op) (tx : sockaddr -> bool) (now : Z) (s4 s6 sent : nat) :
  b44_client * b44_op * list output * nat :=
  match fuel with
  | O => (cl, op, [], sent)
  | S fuel =>
      if (length (op_nodes op) <=? i)%nat then (cl, op, [], sent)
      else
        let nd := node_at op i in
        if negb (bool_decide (nd_state nd = B44_NODE_REPLIED)) || bool_decide (nd_token nd = [])
        then store_loop fuel (S i) cl op tx now s4 s6 sent
        else
          let v6 := is_v6 (nd_ss nd) in
          if (B44_K <=? (if v6 then s6 else s4))%nat then store_loop fuel (S i) cl op tx now s4 s6 sent
          else
            let '(cl, ok) := node_budget_ok cl (nd_ss nd) now in
            if negb ok then store_loop fuel (S i) cl (op <| op_deferred := true |>) tx now s4 s6 sent
            else
              let '(rc, cl, op, out) := put_send cl op i tx now in
              if negb rc then (cl, op, out, sent)
              else
                let '(cl, op, out', sent) := store_loop fuel (S i) cl op tx now (if v6 then s4 else S s4) (if v6 then S s6 else s6) (S sent) in
                (cl, op, out ++ out', sent)
  end.
Definition store_start (cl : b44_client) (op : b44_op) (tx : sockaddr -> bool) (now : Z) : b44_client * b44_op * list output * nat :=
  let op := op <| op_phase := B44_PHASE_STORE |> <| op_deferred := false |> in
  store_loop (length (op_nodes op)) 0 cl op tx now 0 0 0.

(** The operation after a step, [None] once it has finished. *)
Definition step_result : Type := b44_client * option b44_op * list output.
Definition finish (cl : b44_client) (op : b44_op) (out : list output) : step_result :=
  let '(cl, o) := op_finish cl op in (cl, None, out ++ o).
Definition store_or_finish (cl : b44_client) (op : b44_op) (tx : sockaddr -> bool) (now : Z) : step_result :=
  let '(cl, op, out, sent) := store_start cl op tx now in
  if (sent =? 0)%nat && negb (op_deferred op) then finish cl op out else (cl, Some op, out).

Definition update_store (cl : b44_client) (op : b44_op) (tx : sockaddr -> bool) (now : Z) : step_result :=
  match op_merge op (best_value op) (match op_best op with Some (_, s) => s | None => -1 end) with
  | None => finish cl op []
  | Some nv =>
      if bool_decide (nv = []) || (BEP44_MAX_VALUE <? length nv)%nat then finish cl op []
      else
        let next := store_seq (op_best op) nv in
        if next <? 0 then finish cl op []
        else
          let op := op <| op_value := nv |> <| op_seq := next |>
                       <| op_cas := match op_best op with Some (_, s) => s | None => -1 end |> <| op_put := true |> in
          store_or_finish cl op tx now
  end.

(** Requests out of time fail their node; the others are in flight, by family. *)
Fixpoint reap_reqs (now : Z) (i : nat) (reqs : list (option b44_req)) (op : b44_op) (if4 if6 : nat) : b44_op * nat * nat :=
  match reqs with
  | [] => (op, if4, if6)
  | None :: reqs => reap_reqs now (S i) reqs op if4 if6
  | Some r :: reqs =>
      if B44_REQ_TIMEOUT_MS <? u64 (now - rq_sent r)
      then reap_reqs now (S i) reqs (req_drop (set_node op (rq_node r) (fun n => n <| nd_state := B44_NODE_FAILED |>)) i) if4 if6
      else if is_v6 (nd_ss (node_at op (rq_node r))) then reap_reqs now (S i) reqs op if4 (S if6)
      else reap_reqs now (S i) reqs op (S if4) if6
  end.

(** The lookup round from node [i] on; the last numbers are in flight, held off and answered. *)
Fixpoint ask_loop (fuel i : nat) (cl : b44_client) (op : b44_op) (tx : sockaddr -> bool) (now : Z) (if4 if6 infl deferred answered : nat) :
  b44_client * b44_op * list output * (nat * nat * nat) :=
  match fuel with
  | O => (cl, op, [], (infl, deferred, answered))
  | S fuel =>
      if (length (op_nodes op) <=? i)%nat then (cl, op, [], (infl, deferred, answered))
      else
        let nd := node_at op i in
        let answered := if bool_decide (nd_state nd = B44_NODE_REPLIED) || bool_decide (nd_state nd = B44_NODE_STORED) then S answered else answered in
        if negb (bool_decide (nd_state nd = B44_NODE_FRESH)) then ask_loop fuel (S i) cl op tx now if4 if6 infl deferred answered
        else
          let v6 := is_v6 (nd_ss nd) in
          if ((if v6 then B44_ALPHA_V6 else B44_ALPHA_V4) <=? (if v6 then if6 else if4))%nat
          then ask_loop fuel (S i) cl op tx now if4 if6 infl deferred answered
          else
            let '(cl, ok) := node_budget_ok cl (nd_ss nd) now in
            if negb ok then ask_loop fuel (S i) cl op tx now if4 if6 infl (S deferred) answered
            else
              let '(rc, cl, op, out) := get_send cl op i tx now in
              if negb rc then (cl, op, out, (infl, deferred, answered))
              else
                let '(cl, op, out', n) := ask_loop fuel (S i) cl op tx now (if v6 then if4 else S if4) (if v6 then S if6 else if6) (S infl) deferred answered in
                (cl, op, out ++ out', n)
  end.

Definition op_step (cl : b44_client) (op : b44_op) (tx : sockaddr -> bool) (now : Z) : step_result :=
  if B44_OP_TIMEOUT_MS <? u64 (now - op_start op) then finish cl op []
  else
    let '(op, if4, if6) := reap_reqs now 0 (op_reqs op) op 0 0 in
    match op_phase op with
    | B44_PHASE_LOOKUP =>
        let '(cl, op, out, (infl, deferred, answered)) := ask_loop (length (op_nodes op)) 0 cl op tx now if4 if6 (if4 + if6) 0 0 in
        if negb (infl =? 0)%nat || (negb (deferred =? 0)%nat && (answered =? 0)%nat) then (cl, Some op, out)
        else
          let '(cl, r, out') :=
            if op_update op then update_store cl op tx now
            else if negb (op_put op) then finish cl op []
            else store_or_finish cl op tx now in
          (cl, r, out ++ out')
    | B44_PHASE_STORE =>
        if negb (if4 + if6 =? 0)%nat then (cl, Some op, [])
        else if op_deferred op then store_or_finish cl op tx now
        else finish cl op []
    end.

Definition reply_handle (cl : b44_client) (op : b44_op) (i : nat) (req : b44_req) (buf : bytes) (is_error : bool)
  (from : option sockaddr) (tx : sockaddr -> bool) (now : Z) : step_result :=
  let op := req_drop op i in
  let n := rq_node req in
  let st := nd_state (node_at op n) in
  let to s op := set_node op n (fun nd => nd <| nd_state := s |>) in
  if bool_decide (st = B44_NODE_STORE_INFLIGHT) then
    op_step cl (if is_error then to B44_NODE_FAILED op else (to B44_NODE_STORED op) <| op_stored := op_stored op + 1 |>) tx now
  else if is_error then op_step cl (to B44_NODE_FAILED op) tx now
  else
    let op := to B44_NODE_REPLIED op in
    match benc_dict_find buf (cstr "r") with
    | None => op_step cl op tx now
    | Some rdict =>
        let cl := pin_learn_id cl from rdict now in
        let op := match (x ← benc_dict_find rdict (cstr "token"); benc_str_get x) with
                  | Some tok => if (length tok <=? B44_TOKEN_MAX)%nat then set_node op n (fun nd => nd <| nd_token := tok |>) else op
                  | None => op
                  end in
        let op := if op_put op then op else value_check op n from rdict in
        let more v6 k cl op := if op_direct op then (cl, op)
          else match (x ← benc_dict_find rdict (cstr k); benc_str_get x) with
               | Some data => nodes_compact_add cl op data v6 now
               | None => (cl, op)
               end in
        let '(cl, op) := more false "nodes" cl op in
        let '(cl, op) := more true "nodes6" cl op in
        op_step cl op tx now
    end.
End Client.
