(* ===== verification/Bep44Engine.v ===== *)
(** src/src/bep44.c, the engine as a whole: a datagram goes to the storing side or to
    the operation whose request it answers, the periodic call steps every operation,
    and the entry points start them. *)
From S2P Require Import Prelude Net Bencode Crypto Sha1 Bep44 Bep44Store Bep44Ban Bep44Op.

Record bep44_engine := mk_engine { en_cl : b44_client; en_bans : ban_table; en_ops : list b44_op }.

Definition seeds_empty (n : nat) : list (option b44_seed) := replicate n None.
(** [total]: the installed memory. *)
Definition bep44_create (myid : bytes) (s4 s6 : bool) (total : Z) : bep44_engine :=
  mk_engine (mk_client (serve_init myid (Z.to_nat (store_cap_for_memory total))) s4 s6 0 [] (seeds_empty B44_SEEDS_MAX) 0 []
               (seeds_empty B44_RETAINED_MAX) 0) bans_init [].

(** ** Nodes the engine holds *)
Definition bep44_bootstrap_add (cl : b44_client) (sa : sockaddr) : b44_client * bool :=
  if (B44_BOOTSTRAP_MAX <=? length (cl_bootstrap cl))%nat then (cl, false)
  else (cl <| cl_bootstrap := cl_bootstrap cl ++ [sa] |>, true).
(** A slot used again keeps its bucket and its time of answer. *)
Definition bep44_seed_add (cl : b44_client) (id : option bytes) (sa : sockaddr) : b44_client :=
  if existsb (slot_seed_is sa) (cl_seeds cl) then cl
  else
    let old := default None (cl_seeds cl !! cl_seed_next cl) in
    let tat := match old with Some s => sd_tat s | None => 0 end in
    let ok := match old with Some s => sd_last_ok s | None => 0 end in
    cl <| cl_seeds := <[cl_seed_next cl := Some (mk_seed id sa tat ok)]> (cl_seeds cl) |>
       <| cl_seed_next := ((cl_seed_next cl + 1) mod B44_SEEDS_MAX)%nat |>.
(** The pin silent longest past the limit, with how long. *)
Fixpoint stalest (now : Z) (pins : list b44_seed) (i : nat) (best : option (nat * Z)) : option (nat * Z) :=
  match pins with
  | [] => best
  | p :: pins =>
      let quiet := u64 (now - sd_last_ok p) in
      stalest now pins (S i)
        (if quiet <=? B44_PIN_STALE_MS then best
         else match best with
              | Some (_, oldest) => if oldest <? quiet then Some (i, quiet) else best
              | None => Some (i, quiet)
              end)
  end.
Definition bep44_pin_add (cl : b44_client) (id : option bytes) (sa : sockaddr) (now : Z) : b44_client * bool :=
  let p := mk_seed id sa 0 now in
  if existsb (seed_is sa) (cl_pinned cl) then (cl, true)
  else if (B44_PINNED_MAX <=? length (cl_pinned cl))%nat then
    match stalest now (cl_pinned cl) 0 None with
    | None => (cl, false)
    | Some (i, _) => (cl <| cl_pinned := <[i := p]> (cl_pinned cl) |>, true)
    end
  else (cl <| cl_pinned := cl_pinned cl ++ [p] |>, true).
Definition bep44_pin_del (cl : b44_client) (sa : sockaddr) : b44_client :=
  match find_index (seed_is sa) (cl_pinned cl) with
  | Some i => cl <| cl_pinned := take i (cl_pinned cl) ++ drop (S i) (cl_pinned cl) |>
  | None => cl
  end.
Definition bep44_direct_nodes (cl : b44_client) : nat :=
  length (cl_pinned cl) + length (List.filter (fun s : option b44_seed => match s with Some _ => true | None => false end) (cl_retained cl)).

(** ** Starting an operation *)
Definition insert_seed (pinned : bool) (op : b44_op) (s : b44_seed) : b44_op := node_insert op (sd_id s) (sd_ss s) pinned.
Definition insert_slot (op : b44_op) (s : option b44_seed) : b44_op := match s with Some s => insert_seed false op s | None => op end.
Definition op_blank (target : bytes) (direct : bool) (cb : op_cb) (now : Z) : b44_op :=
  mk_op false false false false direct (fun _ _ => None) B44_PHASE_LOOKUP target (replicate 32 0) (replicate 64 0) [] [] 0 0
    None None None [] (replicate B44_REQS_MAX None) now 0 cb.
Definition op_new (cl : b44_client) (target : bytes) (direct : bool) (cb : op_cb) (now : Z) : b44_op :=
  let op := fold_left (insert_seed true) (cl_pinned cl) (op_blank target direct cb now) in
  let op := fold_left insert_slot (cl_retained cl) op in
  if direct then op
  else
    let op := fold_left insert_slot (cl_seeds cl) op in
    fold_left (fun op sa => node_insert op None sa false) (cl_bootstrap cl) op.
Definition op_create (cl : b44_client) (pk salt : bytes) (direct : bool) (cb : op_cb) (now : Z) : option b44_op :=
  if (BEP44_MAX_SALT <? length salt)%nat then None
  else Some ((op_new cl (bep44_target pk (Some salt)) direct cb now) <| op_pk := pk |> <| op_salt := salt |>).

Section Engine.
Context {Ed : Ed25519}.

(** The operations after the one at [i] has stepped. *)
Definition ops_after (ops : list b44_op) (i : nat) (r : option b44_op) : list b44_op :=
  match r with Some op => <[i := op]> ops | None => take i ops ++ drop (S i) ops end.
(** The first step of an operation just put at the head of the list. *)
Definition op_begin (e : bep44_engine) (op : b44_op) (tx : sockaddr -> bool) (now : Z) : bep44_engine * list output :=
  let '(cl, r, out) := op_step (en_cl e) op tx now in
  (mk_engine cl (en_bans e) (match r with Some op => op :: en_ops e | None => en_ops e end), out).

Definition value_fits (v : bytes) : bool := negb (bool_decide (v = [])) && (length v <=? BEP44_MAX_VALUE)%nat.
(** [None] is the return of -1. *)
Definition bep44_put (e : bep44_engine) (sk pk salt v : bytes) (seq cas : Z) (tx : sockaddr -> bool) (now : Z) :
  option (bep44_engine * list output) :=
  if negb (value_fits v) then None
  else match op_create (en_cl e) pk salt false CbPut now with
       | None => None
       | Some op => Some (op_begin e (op <| op_put := true |> <| op_sk := sk |> <| op_value := v |> <| op_seq := seq |> <| op_cas := cas |>) tx now)
       end.
Definition update_impl (e : bep44_engine) (sk pk salt : bytes) (merge : merge_fn) (direct : bool) (tx : sockaddr -> bool) (now : Z) :
  option (bep44_engine * list output) :=
  match op_create (en_cl e) pk salt direct CbPut now with
  | None => None
  | Some op => Some (op_begin e (op <| op_update := true |> <| op_sk := sk |> <| op_merge := merge |>) tx now)
  end.
Definition bep44_update (e : bep44_engine) (sk pk salt : bytes) (merge : merge_fn) := update_impl e sk pk salt merge false.
Definition bep44_update_direct (e : bep44_engine) (sk pk salt : bytes) (merge : merge_fn) := update_impl e sk pk salt merge true.
Definition get_impl (e : bep44_engine) (pk salt : bytes) (direct : bool) (tx : sockaddr -> bool) (now : Z) :
  option (bep44_engine * list output) :=
  match op_create (en_cl e) pk salt direct CbGet now with
  | None => None
  | Some op => Some (op_begin e op tx now)
  end.
Definition bep44_get (e : bep44_engine) (pk salt : bytes) := get_impl e pk salt false.
Definition bep44_get_direct (e : bep44_engine) (pk salt : bytes) := get_impl e pk salt true.
Definition bep44_put_immutable (e : bep44_engine) (v : bytes) (tx : sockaddr -> bool) (now : Z) : option (bep44_engine * list output) :=
  if negb (value_fits v) then None
  else
    let op := op_new (en_cl e) (cc_sha1 v) false CbPut now in
    Some (op_begin e (op <| op_put := true |> <| op_immutable := true |> <| op_cas := -1 |> <| op_value := v |>) tx now).
Definition bep44_get_immutable (e : bep44_engine) (target : bytes) (tx : sockaddr -> bool) (now : Z) : bep44_engine * list output :=
  op_begin e ((op_new (en_cl e) target false CbGet now) <| op_immutable := true |>) tx now.

(** ** Datagrams *)

(** The verdict is whether the datagram was taken here. *)
Definition query_handle (e : bep44_engine) (buf : bytes) (from : option sockaddr) (now : Z) : bep44_engine * bool * list output :=
  let sv := cl_serve (en_cl e) in
  if negb (sv_serving sv) then (e, false, [])
  else match query_method buf with
  | None => (e, false, [])
  | Some m =>
      if addr_martian from then (e, true, [])
      else
        let '(bans, ok) := ban_ok (en_bans e) from now in
        let e := mk_engine (en_cl e) bans (en_ops e) in
        if negb ok then (e, true, [])
        else
          let '(sv, reply) := query_answer sv m buf from now in
          (mk_engine ((en_cl e) <| cl_serve := sv |>) bans (en_ops e), true,
           match reply, from with
           | Some msg, Some sa => if (if is_v6 sa then cl_s6 (en_cl e) else cl_s4 (en_cl e)) then [OSend sa msg] else []
           | _, _ => []
           end)
  end.

(** The request a reply answers: its operation, its slot and itself. *)
Definition req_match (op : b44_op) (tid : Z) (from : option sockaddr) (r : option b44_req) : bool :=
  match r with Some r => (rq_tid r =? tid) && addr_eq from (nd_ss (node_at op (rq_node r))) | None => false end.
Fixpoint find_req (ops : list b44_op) (tid : Z) (from : option sockaddr) (k : nat) : option (nat * b44_op * nat * b44_req) :=
  match ops with
  | [] => None
  | op :: ops =>
      match find_index (req_match op tid from) (op_reqs op) with
      | Some i => match op_reqs op !! i with Some (Some r) => Some (k, op, i, r) | _ => None end
      | None => find_req ops tid from (S k)
      end
  end.
Definition bep44_input (e : bep44_engine) (buf : bytes) (from : option sockaddr) (tx : sockaddr -> bool) (now : Z) :
  bep44_engine * bool * list output :=
  match (x ← benc_dict_find buf (cstr "y"); benc_str_get x) with
  | Some [y] =>
      if y =? 113 then query_handle e buf from now
      else if negb ((y =? 101) || (y =? 114)) then (e, false, [])
      else
        match (x ← benc_dict_find buf (cstr "t"); benc_str_get x) with
        | Some [112; 109; t2; t3] =>
            let tid := u16 (t2 .| (t3 << 8)) in
            match find_req (en_ops e) tid from 0 with
            | None => (e, true, [])
            | Some (k, op, i, r) =>
                let '(cl, res, out) := reply_handle (en_cl e) op i r buf (y =? 101) from tx now in
                (mk_engine cl (en_bans e) (ops_after (en_ops e) k res), true, out)
            end
        | _ => (e, false, [])
        end
  | _ => (e, false, [])
  end.

(** ** The periodic call *)
Fixpoint step_ops (cl : b44_client) (ops : list b44_op) (tx : sockaddr -> bool) (now : Z) : b44_client * list b44_op * list output :=
  match ops with
  | [] => (cl, [], [])
  | op :: ops =>
      let '(cl, r, out) := op_step cl op tx now in
      let '(cl, ops, out') := step_ops cl ops tx now in
      (cl, match r with Some op => op :: ops | None => ops end, out ++ out')
  end.
(** The second part is the caller's timeout, the third whether operations are left. *)
Definition bep44_periodic (e : bep44_engine) (fresh : option bytes) (timeout_ms : Z) (tx : sockaddr -> bool) (now : Z) :
  bep44_engine * Z * bool * list output :=
  let cl := (en_cl e) <| cl_serve := serve_periodic (cl_serve (en_cl e)) fresh now |> in
  let '(cl, ops, out) := step_ops cl (en_ops e) tx now in
  let busy := negb (bool_decide (length ops = 0%nat)) in
  (mk_engine cl (en_bans e) ops, if busy && (300 <? timeout_ms) then 300 else timeout_ms, busy, out).

(** Turning the service on also sets the limiter's defaults. *)
Definition engine_serve (e : bep44_engine) (enable : bool) (r0 r1 : option bytes) (now : Z) : bep44_engine * bool :=
  let '(sv, ok) := bep44_serve (cl_serve (en_cl e)) enable r0 r1 now in
  let starts := enable && negb (sv_serving (cl_serve (en_cl e))) && ok in
  (mk_engine ((en_cl e) <| cl_serve := sv |>)
     (if starts then mk_bans (bt_ban (en_bans e)) (bt_block_all (en_bans e)) B44_BAN_RATE B44_BAN_TIME_MS else en_bans e) (en_ops e), ok).
End Engine.
