(* ===== verification/Bep44Safe.v ===== *)
(** What an operation of src/src/bep44.c reports and when: values are verified, an
    operation calls back at its end and only then, it ends in time, and a node is
    not asked faster than its budget. *)
From S2P Require Import Prelude Net Bencode Crypto Sha1 Bep44 Bep44Store Bep44Ban Bep44Op Bep44Engine.

(** ** What steps leave alone *)
Definition op_ident (op : b44_op) := (op_immutable op, op_target op, op_pk op, op_salt op, op_start op, op_cbk op).
Definition kept (op op' : b44_op) : Prop := op_ident op' = op_ident op /\ op_best op' = op_best op.
#[export] Instance kept_preorder : PreOrder kept.
Proof. split; [by intros op|]. intros a b c [H1 H2] [H3 H4]. split; congruence. Qed.
Create HintDb b44.

Lemma kept_set_node op i f : kept op (set_node op i f).
Proof. by split. Qed.
Lemma kept_req_drop op i : kept op (req_drop op i).
Proof. by split. Qed.
Lemma kept_deferred op b : kept op (op <| op_deferred := b |>).
Proof. by split. Qed.
Lemma kept_phase op p b : kept op (op <| op_phase := p |> <| op_deferred := b |>).
Proof. by split. Qed.
#[export] Hint Resolve kept_set_node kept_req_drop kept_deferred kept_phase : b44.
Lemma kept_node_insert op id sa pinned : kept op (node_insert op id sa pinned).
Proof. unfold node_insert. repeat case_match; by split. Qed.
Lemma kept_record op sa : kept op (record_best_node op sa).
Proof. unfold record_best_node. repeat case_match; by split. Qed.
#[export] Hint Resolve kept_node_insert kept_record : b44.
Lemma kept_compact fuel : forall cl op data v6 cached now, kept op (nodes_compact_loop fuel cl op data v6 cached now).2.
Proof.
  induction fuel as [|fuel IH]; intros cl op data v6 cached now; cbn [nodes_compact_loop]; [done|].
  destruct (_ <? _)%nat; [done|]. destruct (cached <? _)%nat; (etrans; [|apply IH]); auto with b44.
Qed.

(** An output that is a datagram. *)
Definition is_send (o : output) : Prop := match o with OSend _ _ => True | _ => False end.
Lemma send_tail_kept cl op tx i node st msg op' out :
  send_tail cl op tx i node st msg = (op', out) -> kept op op' /\ Forall is_send out.
Proof. unfold send_tail. case_match; intros [= <- <-]; (split; [by split|by repeat constructor]). Qed.
Lemma req_alloc_kept cl op node now i tid cl' op' : req_alloc cl op node now = Some (i, tid, cl', op') -> kept op op'.
Proof. unfold req_alloc. destruct (find_index _ _); [|done]. intros [= _ _ _ <-]. by split. Qed.
Lemma get_send_kept cl op node tx now rc cl' op' out :
  get_send cl op node tx now = (rc, cl', op', out) -> kept op op' /\ Forall is_send out.
Proof.
  unfold get_send. destruct (req_alloc cl op node now) as [[[[i tid] cl1] op1]|] eqn:Er; [|intros [= <- <- <- <-]; by split].
  apply req_alloc_kept in Er. destruct (write_msg _ _) as [msg|]; [|intros [= <- <- <- <-]; split; [by rewrite Er; apply kept_req_drop|done]].
  destruct (send_tail _ _ _ _ _ _ _) as [op2 o] eqn:Es. apply send_tail_kept in Es as [E1 E2]. intros [= <- <- <- <-].
  split; [by etrans|done].
Qed.

Section Kept.
Context {Ed : Ed25519}.
Lemma put_send_kept cl op node tx now rc cl' op' out :
  put_send cl op node tx now = (rc, cl', op', out) -> kept op op' /\ Forall is_send out.
Proof.
  unfold put_send. destruct (req_alloc cl op node now) as [[[[i tid] cl1] op1]|] eqn:Er; [|intros [= <- <- <- <-]; by split].
  apply req_alloc_kept in Er. set (msg := if op_immutable op1 then _ else _). destruct msg as [m|].
  - destruct (send_tail _ _ _ _ _ _ _) as [op2 o] eqn:Es. apply send_tail_kept in Es as [E1 E2]. intros [= <- <- <- <-].
    split; [by etrans|done].
  - intros [= <- <- <- <-]. split; [by rewrite Er; apply kept_req_drop|done].
Qed.

Lemma store_loop_kept fuel : forall i cl op tx now s4 s6 sent cl' op' out n,
  store_loop fuel i cl op tx now s4 s6 sent = (cl', op', out, n) -> kept op op' /\ Forall is_send out.
Proof.
  induction fuel as [|fuel IH]; intros i cl op tx now s4 s6 sent cl' op' out n; cbn [store_loop]; [intros [= <- <- <- <-]; by split|].
  destruct (_ <=? _)%nat; [intros [= <- <- <- <-]; by split|]. destruct (_ || _); [by apply IH|].
  destruct (B44_K <=? _)%nat; [by apply IH|]. destruct (node_budget_ok _ _ _) as [cl1 ok]. destruct ok; cbn [negb].
  - destruct (put_send cl1 op i tx now) as [[[rc cl2] op2] o2] eqn:Ep. apply put_send_kept in Ep as [K1 S1]. destruct rc; cbn [negb].
    + destruct (store_loop _ _ _ _ _ _ _ _ _) as [[[cl3 op3] o3] n3] eqn:El. apply IH in El as [K2 S2]. intros [= <- <- <- <-].
      split; [by etrans|]. by apply Forall_app.
    + by intros [= <- <- <- <-].
  - intros H. apply IH in H as [K S]. split; [|done]. etrans; [|exact K]. apply kept_deferred.
Qed.
Lemma store_start_kept cl op tx now cl' op' out n :
  store_start cl op tx now = (cl', op', out, n) -> kept op op' /\ Forall is_send out.
Proof. unfold store_start. intros H. apply store_loop_kept in H as [K S]. split; [|done]. etrans; [|exact K]. apply kept_phase. Qed.
Lemma ask_loop_kept fuel : forall i cl op tx now a b c d e cl' op' out n,
  ask_loop fuel i cl op tx now a b c d e = (cl', op', out, n) -> kept op op' /\ Forall is_send out.
Proof.
  induction fuel as [|fuel IH]; intros i cl op tx now a b c d e cl' op' out n; cbn [ask_loop]; [intros [= <- <- <- <-]; by split|].
  destruct (_ <=? _)%nat; [intros [= <- <- <- <-]; by split|]. destruct (negb _); [by apply IH|].
  destruct (_ <=? _)%nat; [by apply IH|]. destruct (node_budget_ok _ _ _) as [cl1 ok]. destruct ok; cbn [negb]; [|by apply IH].
  destruct (get_send cl1 op i tx now) as [[[rc cl2] op2] o2] eqn:Ep. apply get_send_kept in Ep as [K1 S1]. destruct rc; cbn [negb].
  + destruct (ask_loop _ _ _ _ _ _ _ _ _ _ _) as [[[cl3 op3] o3] n3] eqn:El. apply IH in El as [K2 S2]. intros [= <- <- <- <-].
    split; [by etrans|]. by apply Forall_app.
  + by intros [= <- <- <- <-].
Qed.
Lemma reap_kept now reqs : forall i op a b, kept op (reap_reqs now i reqs op a b).1.1.
Proof.
  induction reqs as [|[r|] reqs IH]; intros i op a b; cbn [reap_reqs]; [done| |apply IH].
  destruct (_ <? _); [etrans; [|apply IH]; by split|]. destruct (is_v6 _); apply IH.
Qed.

(** ** How a step ends *)

(** The callbacks of an operation that ends as [op]. *)
Definition reports (op : b44_op) (out : list output) : Prop :=
  match op_cbk op with
  | CbPut => exists stored node, out = [OPut stored node]
  | CbGet => exists nodes, out = map (OGet (best_value op) (best_seq op)) nodes /\
      (nodes = [None] \/ exists a, nodes = [Some a] \/ exists b, nodes = [Some a; Some b])
  end.
(** A step either goes on having sent datagrams only, or ends with the callbacks last. *)
Definition step_ends (op : b44_op) (r : step_result) : Prop :=
  match r with
  | (_, Some op', out) => kept op op' /\ Forall is_send out
  | (_, None, out) => exists sent cb, out = sent ++ cb /\ Forall is_send sent /\ exists op', kept op op' /\ reports op' cb
  end.
Lemma step_ends_mono op op0 r : kept op0 op -> step_ends op r -> step_ends op0 r.
Proof.
  intros K. destruct r as [[cl [op'|]] out]; cbn; [intros [H1 H2]; split; [by etrans|done]|].
  intros (sent & cb & E & S & op' & K' & R). exists sent, cb. split; [done|]. split; [done|]. exists op'. split; [by etrans|done].
Qed.
Lemma step_ends_more op cl r o o1 : Forall is_send o1 -> step_ends op (cl, r, o) -> step_ends op (cl, r, o1 ++ o).
Proof.
  intros S. destruct r as [op'|]; cbn; [intros [H1 H2]; split; [done|by apply Forall_app]|].
  intros (sent & cb & -> & S1 & H). exists (o1 ++ sent), cb. by rewrite app_assoc, Forall_app.
Qed.
Lemma finish_ends cl op out : Forall is_send out -> step_ends op (finish cl op out).
Proof.
  intros S. unfold finish, op_finish. destruct (finish_best op) as [b4 b6]. cbn. eexists out, _. split; [done|]. split; [done|].
  exists op. split; [done|]. unfold reports. destruct (op_cbk op).
  - by eexists _, _.
  - destruct b4 as [a|], b6 as [b|]; cbn.
    + exists [Some a; Some b]. split; [done|]. right. exists a. right. by exists b.
    + exists [Some a]. split; [done|]. right. exists a. by left.
    + exists [Some b]. split; [done|]. right. exists b. by left.
    + exists [None]. split; [done|]. by left.
Qed.
Lemma store_or_finish_ends cl op tx now : step_ends op (store_or_finish cl op tx now).
Proof.
  unfold store_or_finish. destruct (store_start _ _ _ _) as [[[cl1 op1] o1] n] eqn:E. apply store_start_kept in E as [K S].
  apply (step_ends_mono op1); [done|]. destruct (_ && _); [by apply finish_ends|]. by split.
Qed.
Lemma update_store_ends cl op tx now : step_ends op (update_store cl op tx now).
Proof.
  unfold update_store. destruct (op_merge _ _ _) as [nv|]; [|by apply finish_ends].
  destruct (_ || _); [by apply finish_ends|]. cbv zeta. destruct (_ <? _); [by apply finish_ends|].
  eapply step_ends_mono; [|apply store_or_finish_ends]. by split.
Qed.
Lemma op_step_ends cl op tx now : step_ends op (op_step cl op tx now).
Proof.
  unfold op_step. destruct (_ <? _); [by apply finish_ends|].
  pose proof (reap_kept now (op_reqs op) 0 op 0 0) as K. destruct (reap_reqs _ _ _ _ _ _) as [[op1 a] b]. cbn in K.
  apply (step_ends_mono op1); [done|]. destruct (op_phase op1).
  - destruct (ask_loop _ _ _ _ _ _ _ _ _ _ _) as [[[cl2 op2] o2] [[n1 n2] n3]] eqn:Ea. apply ask_loop_kept in Ea as [K2 S2].
    destruct (_ || _); [by split|].
    destruct (if op_update op2 then _ else _) as [[cl3 r] o3] eqn:Er. apply (step_ends_mono op2); [done|].
    apply step_ends_more; [done|]. rewrite <- Er. destruct (op_update op2); [apply update_store_ends|].
    destruct (negb _); [by apply finish_ends|apply store_or_finish_ends].
  - destruct (negb _); [by split|]. destruct (op_deferred op1); [apply store_or_finish_ends|by apply finish_ends].
Qed.
End Kept.

(** ** Verified values *)
Section Verified.
Context {Ed : Ed25519}.

(** A value an operation may report: named by its hash, or signed by its key over its salt. *)
Definition value_ok (op : b44_op) (v : bytes) (seq : Z) : Prop :=
  (length v <= BEP44_MAX_VALUE)%nat /\
  if op_immutable op then sha1 v = op_target op
  else 0 <= seq /\ exists sig, length sig = 64%nat /\ sig_holds (op_pk op) (op_salt op) sig v seq = true.
Definition best_ok (op : b44_op) : Prop := forall v seq, op_best op = Some (v, seq) -> value_ok op v seq.

Lemma value_ok_ident op op' v seq : op_ident op' = op_ident op -> value_ok op v seq -> value_ok op' v seq.
Proof. unfold op_ident, value_ok. intros [= -> -> -> -> _ _]. done. Qed.
Lemma best_ok_kept op op' : kept op op' -> best_ok op -> best_ok op'.
Proof. intros [E1 E2] H v seq. rewrite E2. intros Hv. by eapply value_ok_ident, H. Qed.

Lemma reply_value_ok op rdict v seq : reply_value op rdict = Some (v, seq) -> value_ok op v seq.
Proof.
  unfold reply_value, value_ok. destruct (benc_dict_find rdict (cstr "v")) as [x|]; [|done].
  destruct (Nat.ltb_spec BEP44_MAX_VALUE (length x)) as [|Hl]; [done|]. destruct (op_immutable op).
  { destruct (bytes_eqb (cc_sha1 x) (op_target op)) eqn:E; [|done]. intros [= <- <-]. split; [done|].
    unfold bytes_eqb in E. apply bool_decide_eq_true in E. by rewrite <- cc_sha1_eq. }
  destruct (_ ≫= _) as [k|]; [|done]. destruct (_ || _); [done|]. destruct (_ ≫= _) as [sig|]; [|done].
  destruct (Nat.eqb_spec (length sig) 64); [cbn [negb]|done]. destruct (_ ≫= _) as [sq|]; [|done].
  destruct (Z.ltb_spec sq 0); [done|]. destruct (sig_holds _ _ _ _ _) eqn:Es; [|done]. intros [= <- <-].
  split; [done|]. split; [done|]. by exists sig.
Qed.

Lemma new_best_spec op v seq from :
  op_ident (new_best op v seq from) = op_ident op /\ op_best (new_best op v seq from) = Some (v, seq).
Proof. unfold new_best. set (o := _ <| op_best6 := None |>). destruct (kept_record o from) as [-> ->]. done. Qed.

(** The best value of an operation never gets older. *)
Definition best_le (op op' : b44_op) : Prop :=
  forall v seq, op_best op = Some (v, seq) -> exists v' seq', op_best op' = Some (v', seq') /\ seq <= seq' /\ (seq' = seq -> v' = v).
Lemma value_check_spec op node from rdict :
  let op' := value_check op node from rdict in op_ident op' = op_ident op /\ (best_ok op -> best_ok op') /\ best_le op op'.
Proof.
  unfold value_check. destruct (reply_value op rdict) as [[v seq]|] eqn:Er.
  2:{ split_and!; try done. intros v seq H. exists v, seq. by split_and!. }
  apply reply_value_ok in Er.
  assert (Hnew : forall o, op_ident o = op_ident op -> forall s, value_ok op v s ->
    op_ident (new_best o v s from) = op_ident op /\ best_ok (new_best o v s from)).
  { intros o Ho s Hv. destruct (new_best_spec o v s from) as [E1 E2]. split; [congruence|]. intros v' s'. rewrite E2. intros [= <- <-].
    eapply value_ok_ident; [|exact Hv]. congruence. }
  assert (Hrec : forall o, kept op o -> let o' := record_best_node o from in op_ident o' = op_ident op /\ (best_ok op -> best_ok o') /\ best_le op o').
  { intros o K. pose proof (kept_record o from) as K2. assert (K3 : kept op (record_best_node o from)) by (by etrans).
    destruct K3 as [E1 E2]. split; [done|]. split; [by apply best_ok_kept|]. intros v' s' H. exists v', s'. split_and!; [congruence|lia|done]. }
  destruct (op_immutable op) eqn:Ei.
  - destruct (op_best op) as [[v0 s0]|] eqn:Eb; [by apply Hrec|].
    destruct (Hnew op eq_refl (-1)) as [H1 H2]; [unfold value_ok in *; by rewrite Ei in *|].
    split_and!; [done|done|]. intros v' s' H. congruence.
  - set (o := set_node op node _). assert (K : kept op o) by apply kept_set_node.
    assert (Eb : op_best o = op_best op) by (by destruct K). rewrite Eb.
    destruct (Hnew o (proj1 K) seq Er) as [H1 H2]. destruct (new_best_spec o v seq from) as [_ H3].
    destruct (op_best op) as [[v0 s0]|] eqn:E0.
    + destruct (Z.leb_spec seq s0); [by apply Hrec|]. split_and!; [done|done|]. intros v' s'. rewrite E0. intros [= <- <-].
      exists v, seq. split_and!; [done|lia|lia].
    + split_and!; [done|done|]. intros v' s' H. congruence.
Qed.

Lemma reply_handle_ends cl op i req buf err from tx now :
  exists op1, op_ident op1 = op_ident op /\ (best_ok op -> best_ok op1) /\
    step_ends op1 (reply_handle cl op i req buf err from tx now).
Proof.
  unfold reply_handle. set (op0 := req_drop op i). assert (K0 : kept op op0) by apply kept_req_drop.
  assert (Hk : forall o c t n, kept op o -> exists op1, op_ident op1 = op_ident op /\ (best_ok op -> best_ok op1) /\ step_ends op1 (op_step c o t n)).
  { intros o c t n K. exists o. split; [by destruct K|]. split; [by apply best_ok_kept|]. apply op_step_ends. }
  destruct (bool_decide _); [apply Hk; destruct err; (etrans; [exact K0|by split])|].
  destruct err; [apply Hk; etrans; [exact K0|apply kept_set_node]|].
  set (op1 := set_node op0 _ _). assert (K1 : kept op op1) by (etrans; [exact K0|apply kept_set_node]).
  destruct (benc_dict_find buf (cstr "r")) as [rdict|]; [|by apply Hk].
  set (op2 := match _ ≫= _ with Some _ => _ | None => _ end).
  assert (K2 : kept op op2) by (unfold op2; repeat case_match; try done; (etrans; [exact K1|apply kept_set_node])).
  set (op3 := if op_put op2 then op2 else _).
  assert (H3 : op_ident op3 = op_ident op /\ (best_ok op -> best_ok op3)).
  { unfold op3. destruct (op_put op2); [split; [by destruct K2|by apply best_ok_kept]|].
    destruct (value_check_spec op2 (rq_node req) from rdict) as (E1 & E2 & _). split; [rewrite E1; by destruct K2|].
    intros H. by apply E2, (best_ok_kept op). }
  cbv zeta. set (m4 := if op_direct op3 then _ else _). assert (K4 : kept op3 m4.2).
  { unfold m4. destruct (op_direct op3); [done|]. destruct (benc_dict_find rdict (cstr "nodes") ≫= _); [apply kept_compact|done]. }
  destruct m4 as [c4 op4]. cbn in K4. set (m5 := if op_direct op4 then _ else _). assert (K5 : kept op4 m5.2).
  { unfold m5. destruct (op_direct op4); [done|]. destruct (benc_dict_find rdict (cstr "nodes6") ≫= _); [apply kept_compact|done]. }
  destruct m5 as [c5 op5]. cbn in K5. exists op5. assert (K : kept op3 op5) by (by etrans).
  split; [destruct K as [-> _]; by destruct H3|]. split; [intros H; eapply best_ok_kept; [exact K|]; by apply H3|]. apply op_step_ends.
Qed.

(** ** The life of an operation *)
Inductive op_event :=
| OpReply (i : nat) (req : b44_req) (buf : bytes) (err : bool) (from : option sockaddr) (tx : sockaddr -> bool) (now : Z)
| OpTick (tx : sockaddr -> bool) (now : Z).
Definition op_react (cl : b44_client) (op : b44_op) (ev : op_event) : step_result :=
  match ev with
  | OpReply i req buf err from tx now => reply_handle cl op i req buf err from tx now
  | OpTick tx now => op_step cl op tx now
  end.
(** The events that reach it, each with the engine as it is then. *)
Fixpoint op_life (op : b44_op) (evs : list (b44_client * op_event)) : option b44_op * list output :=
  match evs with
  | [] => (Some op, [])
  | (cl, ev) :: evs =>
      match op_react cl op ev with
      | (_, None, out) => (None, out)
      | (_, Some op, out) => let '(r, out') := op_life op evs in (r, out ++ out')
      end
  end.
Lemma op_react_ends cl op ev : exists op1, op_ident op1 = op_ident op /\ (best_ok op -> best_ok op1) /\ step_ends op1 (op_react cl op ev).
Proof.
  destruct ev as [i req buf err from tx now|tx now]; cbn [op_react]; [apply reply_handle_ends|].
  exists op. split_and!; try done. apply op_step_ends.
Qed.
End Verified.

(** ** Lemmas: the node budget *)

(** Queries asked of one node at the given times: how many it let through and the bucket after. *)
Fixpoint bucket_run (tat : Z) (ts : list Z) : Z * nat :=
  match ts with
  | [] => (tat, 0%nat)
  | now :: ts => let '(tat, ok) := bucket_step tat now in let '(tat, n) := bucket_run tat ts in (tat, if ok then S n else n)
  end.
Fixpoint ascending_times (t0 : Z) (ts : list Z) (t1 : Z) : Prop :=
  match ts with [] => t0 <= t1 | t :: ts => t0 <= t /\ ascending_times t ts t1 end.
Lemma ascending_le t0 ts t1 : ascending_times t0 ts t1 -> t0 <= t1.
Proof. revert t0. induction ts as [|t ts IH]; intros t0; cbn; [done|]. intros [H1 H2%IH]. lia. Qed.
Lemma bucket_step_spec tat now : 0 <= now -> now + 4000 < 2 ^ 64 -> is_u64 tat ->
  let '(tat', ok) := bucket_step tat now in
  is_u64 tat' /\ if ok then tat' = Z.max tat now + 400 /\ tat' <= now + 2000 else tat' = Z.max tat now.
Proof.
  intros Hn Hb Ht. unfold bucket_step, B44_NODE_BURST, B44_NODE_COST_MS, is_u64 in *. change (4 * (2 * 1000 / 5)) with 1600. change (2 * 1000 / 5) with 400.
  assert (E : (if tat <? now then now else tat) = Z.max tat now) by (destruct (Z.ltb_spec tat now); lia). rewrite E.
  rewrite (u64_id (Z.max tat now - now)) by (unfold is_u64; lia). destruct (Z.ltb_spec 1600 (Z.max tat now - now)); [lia|].
  rewrite u64_id by (unfold is_u64; lia). lia.
Qed.
Lemma bucket_run_bound ts : forall tat t0 t1, 0 <= t0 -> t1 + 4000 < 2 ^ 64 -> is_u64 tat -> ascending_times t0 ts t1 ->
  let '(tat', n) := bucket_run tat ts in
  tat <= tat' <= Z.max tat (t1 + 2000) /\ (n <> 0%nat -> Z.max tat t0 + 400 * Z.of_nat n <= tat' <= t1 + 2000).
Proof.
  induction ts as [|now ts IH]; intros tat t0 t1 H0 H1 Ht Ha; cbn [bucket_run]; [cbn in Ha; split; [lia|done]|].
  destruct Ha as [Ha1 Ha2]. pose proof (ascending_le _ _ _ Ha2) as Hle.
  pose proof (bucket_step_spec tat now ltac:(lia) ltac:(lia) Ht) as Hs. destruct (bucket_step tat now) as [tat1 ok]. destruct Hs as [Hu Hs].
  specialize (IH tat1 now t1 ltac:(lia) H1 Hu Ha2). destruct (bucket_run tat1 ts) as [tat' n]. destruct IH as [I1 I2]. destruct ok.
  - split; [lia|]. intros _. destruct (decide (n = 0%nat)) as [->|Hn]; [lia|]. specialize (I2 Hn). lia.
  - split; [lia|]. intros Hn. specialize (I2 Hn). lia.
Qed.

(** ** Properties *)
Section Properties.
Context {Ed : Ed25519}.

(** C15: an operation calls back exactly once it is over and sends nothing but datagrams
    until then; what a get reports is a value whose hash is the name asked for, or one
    signed by the key asked for over its salt and sequence, whatever the network sent. *)
Theorem life_reports_verified op evs :
  op_best op = None ->
  match op_life op evs with
  | (Some _, out) => Forall is_send out
  | (None, out) => exists sent cb op', out = sent ++ cb /\ Forall is_send sent /\ op_ident op' = op_ident op /\ reports op' cb /\
      forall v seq node, OGet (Some v) seq node ∈ out -> op_best op' = Some (v, seq) /\ value_ok op v seq
  end.
Proof.
  intros Hb. assert (Hok : best_ok op) by (intros v s; congruence). clear Hb. revert op Hok.
  induction evs as [|[cl ev] evs IH]; intros op Hok; cbn [op_life]; [constructor|].
  destruct (op_react_ends cl op ev) as (op1 & E1 & H1 & He). destruct (op_react cl op ev) as [[cl' [op2|]] out]; cbn in He.
  - destruct He as [K S]. specialize (IH op2 (best_ok_kept _ _ K (H1 Hok))). destruct (op_life op2 evs) as [[op3|] out'].
    { by apply Forall_app. }
    destruct IH as (sent & cb & op' & -> & S' & Ei & R & Hv). exists (out ++ sent), cb, op'. assert (E : op_ident op2 = op_ident op) by (destruct K; congruence).
    split; [by rewrite app_assoc|]. split; [by apply Forall_app|]. split; [congruence|]. split; [done|]. intros v seq node [Hin|Hin]%elem_of_app.
    { exfalso. rewrite Forall_forall in S. by apply (S _ Hin). }
    destruct (Hv _ _ _ Hin) as [? ?]. split; [done|]. by eapply value_ok_ident; [|done].
  - destruct He as (sent & cb & -> & S & op' & K & R). exists sent, cb, op'. split; [done|]. split; [done|].
    split; [destruct K; congruence|]. split; [done|]. intros v seq node [Hin|Hin]%elem_of_app.
    { exfalso. rewrite Forall_forall in S. by apply (S _ Hin). }
    assert (Hop : op_best op' = Some (v, seq)).
    { unfold reports in R. destruct (op_cbk op'); [destruct R as (? & ? & ->); by apply list_elem_of_singleton in Hin|].
      destruct R as (nodes & -> & _). apply list_elem_of_fmap in Hin as (x & E & _). injection E as E2 E3 _.
      unfold best_value, best_seq in *. destruct (op_best op') as [[v' s']|]; [cbn in E2|done]. congruence. }
    split; [done|]. assert (Hb' : best_ok op') by (eapply best_ok_kept; [exact K|auto]).
    eapply value_ok_ident; [|by apply Hb']. destruct K. congruence.
Qed.

Definition overdue (now : Z) (op : b44_op) : bool := B44_OP_TIMEOUT_MS <? u64 (now - op_start op).
(** Every operation ends: after a periodic call no operation is left that has run for
    more than its thirty seconds, whether or not anything answered. *)
Theorem operations_end e fresh timeout tx now :
  let '(e', _, busy, _) := bep44_periodic e fresh timeout tx now in
  Forall (fun op => overdue now op = false) (en_ops e') /\ (busy = false <-> en_ops e' = []).
Proof.
  unfold bep44_periodic. generalize ((en_cl e) <| cl_serve := serve_periodic (cl_serve (en_cl e)) fresh now |>). intros cl.
  destruct (step_ops cl (en_ops e) tx now) as [[cl' ops] out] eqn:Es. cbn [en_ops].
  split; [|by case_bool_decide as E; destruct ops].
  revert cl cl' ops out Es. induction (en_ops e) as [|op l IH]; intros cl cl' ops out; cbn [step_ops]; [intros [= _ <- _]; constructor|].
  pose proof (op_step_ends cl op tx now) as He. destruct (op_step cl op tx now) as [[cl1 r] o1] eqn:Eo.
  destruct (step_ops cl1 l tx now) as [[cl2 ops2] o2] eqn:E2. intros [= _ <- _]. specialize (IH _ _ _ _ E2).
  destruct r as [op'|]; [|done]. constructor; [|done]. destruct He as [[K _] _]. unfold op_ident, overdue in *. injection K as _ _ _ _ -> _.
  unfold op_step in Eo.
  destruct (Z.ltb_spec B44_OP_TIMEOUT_MS (u64 (now - op_start op))); [|done].
  unfold finish in Eo. by destruct (op_finish cl op).
Qed.

(** A node the engine holds is asked at a bounded rate: between two times it is sent
    at most five queries and one more for every 400 ms between them. *)
Theorem budget_bound tat ts t0 t1 :
  0 <= t0 -> t1 + 4000 < 2 ^ 64 -> is_u64 tat -> ascending_times t0 ts t1 ->
  400 * Z.of_nat (bucket_run tat ts).2 <= (t1 - t0) + 2000.
Proof.
  intros H0 H1 Ht Ha. pose proof (bucket_run_bound ts tat t0 t1 H0 H1 Ht Ha) as H. pose proof (ascending_le _ _ _ Ha).
  destruct (bucket_run tat ts) as [tat' n]. cbn [snd]. destruct H as [_ H]. destruct (decide (n = 0%nat)) as [->|Hn]; [lia|].
  specialize (H Hn). lia.
Qed.
End Properties.

(** ** A small run *)
Definition rdv_addr : sockaddr := AF_INET 6881 [203; 0; 113; 7].
Definition demo_k : bytes := replicate 32 5.
Definition demo_engine : bep44_engine :=
  let e := bep44_create (replicate 20 1) true true 0 in mk_engine (bep44_pin_add (en_cl e) None rdv_addr 0).1 (en_bans e) [].
Definition all_sent (_ : sockaddr) : bool := true.
Definition demo_sig (v : bytes) (seq : Z) : bytes :=
  match sig_buffer_n SIGBUF_LEN [] seq v with Some m => toy_blake 64 (demo_k ++ demo_k) m | None => [] end.
Definition reply_msg (kvs : list (bytes * bval)) (tid : Z) : bytes :=
  encode (BDict [(cstr "r", BDict kvs); (cstr "t", BStr (tid_bytes tid)); (cstr "y", BStr (cstr "r"))]).
Definition error_msg (tid : Z) : bytes :=
  encode (BDict [(cstr "e", BList [BInt 301; BStr (cstr "CAS mismatched")]); (cstr "t", BStr (tid_bytes tid)); (cstr "y", BStr (cstr "e"))]).
Definition demo_value : bytes := encode (BStr (cstr "old")).
Definition demo_reply : bytes :=
  reply_msg [(cstr "id", BStr (replicate 20 9)); (cstr "k", BStr demo_k); (cstr "seq", BInt 3);
    (cstr "sig", BStr (demo_sig demo_value 3)); (cstr "token", BStr (cstr "tk")); (cstr "v", BStr (cstr "old"))] 0.

Definition demo_op : b44_op :=
  match op_create (en_cl demo_engine) demo_k [] true CbGet 10 with Some op => op | None => op_blank [] true CbGet 10 end.
Definition demo_life : list (b44_client * op_event) :=
  [(en_cl demo_engine, OpTick all_sent 10); (en_cl demo_engine, OpReply 0 (mk_req 0 0 10) demo_reply false (Some rdv_addr) all_sent 20)].
Lemma life_reports_verified_witness :
  (exists sent, (op_life (Ed := toy_ed25519) demo_op demo_life) = (None, sent ++ [OGet (Some demo_value) 3 (Some rdv_addr)])) /\
  value_ok (Ed := toy_ed25519) demo_op demo_value 3.
Proof.
  assert (E : exists sent, (op_life (Ed := toy_ed25519) demo_op demo_life) = (None, sent ++ [OGet (Some demo_value) 3 (Some rdv_addr)])).
  { eexists [_]. vm_compute. reflexivity. }
  split; [exact E|]. pose proof (life_reports_verified (Ed := toy_ed25519) demo_op demo_life) as H.
  destruct E as [sent E]. rewrite E in H. destruct H as (s & cb & op' & _ & _ & _ & _ & Hv); [vm_compute; reflexivity|].
  destruct (Hv demo_value 3 (Some rdv_addr)) as [_ Hok]; [|exact Hok]. apply elem_of_app. right. by left.
Defined.
Lemma budget_bound_witness : (bucket_run 0 [100; 101; 102; 103; 104; 105; 106]).2 = 5%nat /\ 400 * 5 <= (106 - 100) + 2000.
Proof.
  split; [vm_compute; reflexivity|]. apply (budget_bound 0 [100; 101; 102; 103; 104; 105; 106] 100 106); try lia.
  - unfold is_u64. lia.
  - cbn. lia.
Defined.

Definition bind_run (r : bep44_engine * list output) (f : bep44_engine -> bep44_engine * bool * list output) : bep44_engine * list output :=
  let '(e, o) := r in let '(e', _, o') := f e in (e', o ++ o').
Definition demo_update : bep44_engine * list output :=
  default (demo_engine, []) (bep44_update_direct (Ed := toy_ed25519) demo_engine (demo_k ++ demo_k) demo_k []
    (fun _ _ => Some (encode (BStr (cstr "new")))) all_sent 10).
Definition refused_update : bep44_engine * list output :=
  let got := bind_run demo_update (fun e => bep44_input (Ed := toy_ed25519) e demo_reply (Some rdv_addr) all_sent 20) in
  bind_run got (fun e => bep44_input (Ed := toy_ed25519) e (error_msg 1) (Some rdv_addr) all_sent 30).
(** An update whose store is refused by the only node it was sent to reports that
    nothing was stored and still names that node as the one that stored it. *)
Theorem refused_update_names_node :
  last refused_update.2 = Some (OPut 0 (Some rdv_addr)) /\ en_ops refused_update.1 = [].
Proof. split; vm_compute; reflexivity. Qed.

(** A direct update with no node to ask is over before it returns, with nothing stored. *)
Lemma direct_update_settles {Ed : Ed25519} e sk pk salt merge tx now :
  cl_pinned (en_cl e) = [] -> Forall (fun r => r = None) (cl_retained (en_cl e)) -> (length salt <= BEP44_MAX_SALT)%nat ->
  exists e', bep44_update_direct e sk pk salt merge tx now = Some (e', [OPut 0 None]) /\ en_ops e' = en_ops e.
Proof.
  intros Hp Hr Hs. unfold bep44_update_direct, update_impl, op_create. destruct (Nat.ltb_spec BEP44_MAX_SALT (length salt)); [lia|].
  unfold op_new. rewrite Hp. cbn [fold_left]. set (op0 := op_blank _ _ _ _).
  assert (E : fold_left insert_slot (cl_retained (en_cl e)) op0 = op0). { induction Hr as [|r l -> Hl IH]; [done|]. cbn [fold_left insert_slot]. exact IH. }
  rewrite E. unfold op_begin, op_step. cbn. rewrite Z.sub_diag. change (B44_OP_TIMEOUT_MS <? u64 0) with false. cbn. unfold update_store. cbn.
  destruct (merge None (-1)) as [nv|]; [destruct (_ || _)|]; by eexists.
Qed.
