(* ===== verification/Bep44World.v ===== *)
(** Two engines of src/src/bep44.c against each other: what one writes into a put is
    what the other stores, and what a third then reads back and accepts. *)
From S2P Require Import Prelude Net Bencode TermFilter Crypto Sha1 Bep44 Bep44Store Bep44Ban Bep44Op Bep44Engine.

(** ** Messages as values *)
Definition opt_kv (b : bool) (k : String.string) (v : bval) : list (bytes * bval) := if b then [(cstr k, v)] else [].
Definition put_kvs (myid pk salt sig token : bytes) (v : bval) (seq cas : Z) : list (bytes * bval) :=
  opt_kv (0 <=? cas) "cas" (BInt cas) ++ [(cstr "id", BStr myid); (cstr "k", BStr pk)] ++
  opt_kv (negb (bool_decide (salt = []))) "salt" (BStr salt) ++
  [(cstr "seq", BInt seq); (cstr "sig", BStr sig); (cstr "token", BStr token); (cstr "v", v)].
Definition get_kvs (myid target : bytes) : list (bytes * bval) :=
  [(cstr "id", BStr myid); (cstr "target", BStr target); (cstr "want", BList [BStr (cstr "n4"); BStr (cstr "n6")])].
Definition reply_kvs (myid k sig token : bytes) (v : bval) (seq : Z) : list (bytes * bval) :=
  [(cstr "id", BStr myid); (cstr "k", BStr k); (cstr "seq", BInt seq); (cstr "sig", BStr sig); (cstr "token", BStr token); (cstr "v", v)].
Definition query_val (m : String.string) (kvs : list (bytes * bval)) (tid : bytes) : bval :=
  BDict [(cstr "a", BDict kvs); (cstr "q", BStr (cstr m)); (cstr "t", BStr tid); (cstr "y", BStr (cstr "q"))].
Definition reply_val (kvs : list (bytes * bval)) (tid : bytes) : bval :=
  BDict [(cstr "r", BDict kvs); (cstr "t", BStr tid); (cstr "y", BStr (cstr "r"))].

(** The text of a constant key. *)
Ltac const_text :=
  repeat match goal with |- context [str_text (cstr ?s)] =>
    let r := eval vm_compute in (str_text (cstr s)) in change (str_text (cstr s)) with r end;
  repeat match goal with |- context [cstr ?s] => let r := eval vm_compute in (cstr s) in change (cstr s) with r end.
Ltac msg_text :=
  rewrite ?encode_dict; cbn [map concat pair_text fst snd app encode wop_text raw key];
  unfold raw, key, pair_text; cbn [fst snd encode wop_text map concat]; rewrite ?encode_dict; const_text;
  repeat (rewrite <- ?app_assoc, ?app_nil_r; cbn [app map concat fst snd encode wop_text]).

Lemma put_text myid pk salt sig token v seq cas tid :
  concat (map wop_text (put_msg_mutable myid pk salt sig token (encode v) seq cas tid)) =
  encode (query_val "put" (put_kvs myid pk salt sig token v seq cas) (tid_bytes tid)).
Proof.
  unfold put_msg_mutable, query_val, put_kvs, opt_kv. destruct (0 <=? cas), (bool_decide (salt = [])); cbn [negb];
    msg_text; done.
Qed.
Lemma get_text myid target tid :
  concat (map wop_text (get_msg myid target tid)) = encode (query_val "get" (get_kvs myid target) (tid_bytes tid)).
Proof. unfold get_msg, query_val, get_kvs. msg_text. done. Qed.

(** ** Reading them *)
Definition kvs_ok (kvs : list (bytes * bval)) : Prop := Forall (fun kv => len_ok kv.1 /\ canon_at 0 kv.2) kvs.
Lemma short_ok s : (length s <= 2000)%nat -> len_ok s.
Proof. intros H. unfold len_ok, INT64_MAX. lia. Qed.
Lemma canon_str d s : 0 <= d <= 16 -> (length s <= 2000)%nat -> canon_at d (BStr s).
Proof. intros Hd H. constructor; [unfold BENC_MAX_DEPTH; lia|by apply short_ok]. Qed.
Lemma find_str kvs k s : kvs_ok kvs -> dict_get k kvs = Some (BStr s) -> (length s <= 2000)%nat ->
  benc_dict_find (encode (BDict kvs)) k ≫= benc_str_get = Some s.
Proof.
  intros Hk Hg Hs. rewrite dict_find_shallow, Hg by done. cbn [option_map mbind option_bind encode].
  rewrite <- (app_nil_r (str_text s)). by apply str_get_text, short_ok.
Qed.
Lemma find_int kvs k z : kvs_ok kvs -> dict_get k kvs = Some (BInt z) -> - INT64_MAX <= z <= INT64_MAX ->
  benc_dict_find (encode (BDict kvs)) k ≫= benc_int_get = Some z.
Proof.
  intros Hk Hg Hz. rewrite dict_find_shallow, Hg by done. cbn [option_map mbind option_bind encode]. by apply int_get_text.
Qed.
Lemma find_raw kvs k v : kvs_ok kvs -> dict_get k kvs = Some v -> benc_dict_find (encode (BDict kvs)) k = Some (encode v).
Proof. intros Hk Hg. by rewrite dict_find_shallow, Hg. Qed.
Lemma arg_str_ok kvs k s : kvs_ok kvs -> dict_get k kvs = Some (BStr s) -> (length s <= 2000)%nat ->
  arg_str (encode (BDict kvs)) k = ArgOk s.
Proof.
  intros Hk Hg Hs. pose proof (find_str _ _ _ Hk Hg Hs) as H. unfold arg_str. destruct (benc_dict_find _ k); [|done].
  cbn in H. by rewrite H.
Qed.
Lemma arg_int_ok kvs k z : kvs_ok kvs -> dict_get k kvs = Some (BInt z) -> - INT64_MAX <= z <= INT64_MAX ->
  arg_int (encode (BDict kvs)) k = ArgOk z.
Proof.
  intros Hk Hg Hz. pose proof (find_int _ _ _ Hk Hg Hz) as H. unfold arg_int. destruct (benc_dict_find _ k); [|done].
  cbn in H. by rewrite H.
Qed.
Lemma arg_str_none kvs k : kvs_ok kvs -> dict_get k kvs = None -> arg_str (encode (BDict kvs)) k = ArgAbsent.
Proof. intros Hk Hg. unfold arg_str. by rewrite dict_find_shallow, Hg. Qed.
Lemma arg_int_none kvs k : kvs_ok kvs -> dict_get k kvs = None -> arg_int (encode (BDict kvs)) k = ArgAbsent.
Proof. intros Hk Hg. unfold arg_int. by rewrite dict_find_shallow, Hg. Qed.

Ltac dict_keys :=
  unfold opt_kv; cbn [app dict_get];
  repeat match goal with |- context [bytes_eqb (cstr ?a) (cstr ?b)] =>
    let r := eval vm_compute in (bytes_eqb (cstr a) (cstr b)) in change (bytes_eqb (cstr a) (cstr b)) with r end;
  cbn iota.

(** The arguments of a put, as long as they may be. *)
Record put_ok (myid pk salt sig token : bytes) (v : bval) (seq cas : Z) : Prop := {
  pk_myid : length myid = 20%nat; pk_pk : length pk = 32%nat; pk_salt : (length salt <= BEP44_MAX_SALT)%nat;
  pk_sig : length sig = 64%nat; pk_token : (length token <= B44_TOKEN_MAX)%nat; pk_v : canon_at 1 v;
  pk_vlen : (length (encode v) <= BEP44_MAX_VALUE)%nat; pk_seq : 0 <= seq <= INT64_MAX; pk_cas : cas <= INT64_MAX
}.
Lemma put_kvs_canon myid pk salt sig token v seq cas : put_ok myid pk salt sig token v seq cas ->
  canon_at 0 (BDict (put_kvs myid pk salt sig token v seq cas)).
Proof.
  intros [H1 H2 H3 H4 H5 H6 H7 H8 H9]. unfold BEP44_MAX_SALT, B44_TOKEN_MAX, BEP44_MAX_VALUE in *.
  constructor; [unfold BENC_MAX_DEPTH; lia| |].
  - unfold put_kvs, opt_kv. destruct (0 <=? cas), (bool_decide (salt = [])); cbn; repeat split.
  - unfold put_kvs, opt_kv. destruct (Z.leb_spec 0 cas), (bool_decide (salt = [])); cbn [negb app];
      repeat (apply Forall_cons_2 || apply Forall_nil_2);
      (split; [apply short_ok; vm_compute; lia | cbn [snd]; first [exact H6 | apply canon_str; lia | (constructor; [unfold BENC_MAX_DEPTH; lia | lia])]]).
Qed.
Lemma canon_kvs_ok kvs : canon_at 0 (BDict kvs) -> kvs_ok kvs.
Proof.
  intros H. apply canon_at_inv in H as (_ & _ & H). eapply Forall_impl; [exact H|]. intros kv [A B]. split; [done|].
  eapply canon_at_le; [exact B|lia].
Qed.
Lemma query_kvs_ok m kvs tid : canon_at 0 (BDict kvs) -> (length tid <= 64)%nat -> (length (cstr m) <= 10)%nat ->
  kvs_ok [(cstr "a", BDict kvs); (cstr "q", BStr (cstr m)); (cstr "t", BStr tid); (cstr "y", BStr (cstr "q"))].
Proof.
  intros H Ht Hm. repeat (apply Forall_cons_2 || apply Forall_nil_2);
    (split; [apply short_ok; vm_compute; lia|cbn [snd]; first [exact H | apply canon_str; [lia|]; try lia]]). cbn. lia.
Qed.
Lemma put_args_text myid pk salt sig token v seq cas : put_ok myid pk salt sig token v seq cas ->
  put_args (encode (BDict (put_kvs myid pk salt sig token v seq cas))) =
  inr (mk_pf (encode v) true pk sig salt seq (if 0 <=? cas then Some cas else None)).
Proof.
  intros Hok. pose proof (put_kvs_canon _ _ _ _ _ _ _ _ Hok) as Hc. pose proof (canon_kvs_ok _ Hc) as Hk.
  destruct Hok as [H1 H2 H3 H4 H5 H6 H7 H8 H9]. unfold BEP44_MAX_SALT, B44_TOKEN_MAX, BEP44_MAX_VALUE in *.
  unfold put_args. rewrite canonical_encode by done. cbn [negb]. unfold arg_raw. set (kvs := put_kvs _ _ _ _ _ _ _ _) in *.
  assert (G : dict_get (cstr "v") kvs = Some v /\ dict_get (cstr "k") kvs = Some (BStr pk) /\ dict_get (cstr "sig") kvs = Some (BStr sig) /\
    dict_get (cstr "seq") kvs = Some (BInt seq) /\
    dict_get (cstr "salt") kvs = (if bool_decide (salt = []) then None else Some (BStr salt)) /\
    dict_get (cstr "cas") kvs = (if 0 <=? cas then Some (BInt cas) else None)).
  { unfold kvs, put_kvs. destruct (0 <=? cas), (bool_decide (salt = [])); cbn [negb]; dict_keys; done. }
  destruct G as (G1 & G2 & G3 & G4 & G5 & G6). rewrite (find_raw _ _ _ Hk G1).
  rewrite (arg_str_ok _ _ _ Hk G2), (arg_str_ok _ _ _ Hk G3), (arg_int_ok _ _ _ Hk G4) by lia. cbn [arg_bad arg_have arg_get].
  assert (Es : arg_bad (arg_str (encode (BDict kvs)) (cstr "salt")) = false /\ default [] (arg_get (arg_str (encode (BDict kvs)) (cstr "salt"))) = salt).
  { case_bool_decide as E; [rewrite (arg_str_none _ _ Hk G5); by rewrite E|]. by rewrite (arg_str_ok _ _ _ Hk G5) by lia. }
  assert (Ec : arg_bad (arg_int (encode (BDict kvs)) (cstr "cas")) = false /\
    arg_get (arg_int (encode (BDict kvs)) (cstr "cas")) = if 0 <=? cas then Some cas else None).
  { destruct (Z.leb_spec 0 cas); [by rewrite (arg_int_ok _ _ _ Hk G6) by lia|by rewrite (arg_int_none _ _ Hk G6)]. }
  destruct Es as [-> ->], Ec as [-> ->]. cbn [from_option id orb andb negb]. rewrite H2, H4. cbn [Nat.eqb negb orb].
  destruct (Z.ltb_spec seq 0); [lia|]. done.
Qed.

(** ** The node that stores *)
Section World.
Context {Ed : Ed25519}.

(** A query in its envelope reaches its handler. *)
Lemma query_answer_text sv m (meth : b44_method) kvs tid from now id :
  canon_at 0 (BDict kvs) -> (length tid <= 64)%nat -> (length (cstr m) <= 10)%nat ->
  dict_get (cstr "id") kvs = Some (BStr id) -> length id = 20%nat ->
  query_answer sv meth (encode (query_val m kvs tid)) from now =
  match meth with
  | MPut => handle_put sv (mk_query tid from (encode (BDict kvs)) false false) now
  | MGet => let '(w4, w6) := want_parse from (encode (BDict kvs)) in handle_get sv (mk_query tid from (encode (BDict kvs)) w4 w6) now
  end.
Proof.
  intros Hc Ht Hm Hi Hl. pose proof (query_kvs_ok m kvs tid Hc Ht Hm) as Hq. unfold query_answer, query_val.
  rewrite (find_str _ _ tid Hq) by (dict_keys; done || lia). unfold B44_TID_MAX. destruct (Nat.ltb_spec 64 (length tid)); [lia|].
  rewrite (find_raw _ (cstr "a") (BDict kvs) Hq) by (dict_keys; done).
  assert (E : exists a rest, encode (BDict kvs) = 100 :: a :: rest).
  { rewrite encode_dict. destruct (concat (map pair_text kvs)) as [|x l]; [by eexists _, _|]. cbn [app]. by eexists _, _. }
  destruct E as (a & rest & E). rewrite E. cbn [negb Z.eqb]. rewrite <- E.
  pose proof (arg_str_ok kvs (cstr "id") id (canon_kvs_ok _ Hc) Hi ltac:(lia)) as Ha. rewrite E in Ha |- *.
  change (negb (100 =? 100)) with false. cbn iota. rewrite Ha, Hl. done.
Qed.

Definition keypair (sk pk : bytes) : Prop := forall m sig, cc_ed25519_sign sk m = Some sig -> cc_ed25519_check sig pk m = true.

(** The store takes a value under a name: it holds nothing there and makes room, with a free slot or
    by dropping an item further from the node than the name is; or it holds an older value there, at
    the sequence the put expects when it expects one. *)
Definition takes (myid : bytes) (store : list (option b44_item)) (target : bytes) (seq cas : Z) : Prop :=
  (store_slot_of store target = None /\ is_Some (store_free_slot myid store target)) \/
  (exists i it, store_slot_of store target = Some i /\ store !! i = Some (Some it) /\ it_mutable it = true /\ it_seq it < seq /\ (0 <= cas -> cas = it_seq it)).

Lemma free_slot_room myid store target i store' :
  store_free_slot myid store target = Some (i, store') -> (i < length store')%nat.
Proof.
  unfold store_free_slot. destruct (find_index slot_free store) as [j|] eqn:Ef.
  - intros [= <- <-]. apply find_index_some in Ef as (x & Hx & _). by eapply lookup_lt_Some.
  - destruct (furthest _ _ _ _) as [[v d]|] eqn:Ev; [|done]. destruct (_ <=? _); [done|]. intros [= <- <-].
    destruct (furthest_spec _ _ _ _ _ _ Ev) as ([Hb | (s & _ & Hl & _)] & _); [done|]. rewrite Nat.sub_0_r in Hl.
    rewrite length_insert. by eapply lookup_lt_Some.
Qed.
Lemma put_store_takes myid store f now :
  pf_mutable f = true -> takes myid store (pf_target f) (pf_seq f) (match pf_cas f with Some c => c | None => -1 end) ->
  (forall c, pf_cas f = Some c -> 0 <= c) ->
  exists store', put_store myid store f now = (store', None) /\ held store' (pf_item f now).
Proof.
  intros Hm Ht Hcas. unfold put_store. destruct Ht as [(-> & [i store'] & Hi)|(i & it & -> & Hl & Him & Hs & Hc)].
  - rewrite Hi. eexists. split; [done|]. apply held_lookup. exists i. apply list_lookup_insert_eq.
    by apply free_slot_room in Hi.
  - rewrite Hl. cbn [from_option id]. rewrite Him, Hm. cbn [Bool.eqb negb].
    destruct (match pf_cas f with Some c => _ | None => false end) eqn:Ec.
    { destruct (pf_cas f) as [c|]; [|done]. rewrite <- (Hc (Hcas c eq_refl)), Z.eqb_refl in Ec. done. }
    destruct (Z.eqb_spec (pf_seq f) (it_seq it)); [lia|]. cbn [andb]. destruct (Z.leb_spec (pf_seq f) (it_seq it)); [lia|].
    eexists. split; [done|]. apply held_lookup. exists i. apply list_lookup_insert_eq. by eapply lookup_lt_Some.
Qed.

(** What the node that stores sees of a put. *)
Lemma put_answer sv from now myid pk salt sig token v seq cas tid m :
  put_ok myid pk salt sig token v seq cas -> (length tid <= 64)%nat ->
  token = token_of (sv_secret0 sv) from (sha1 (pk ++ salt)) \/ token = token_of (sv_secret1 sv) from (sha1 (pk ++ salt)) ->
  sig_buffer_n SIGBUF_LEN salt seq (encode v) = Some m -> cc_ed25519_check sig pk m = true ->
  takes (sv_myid sv) (store_expire (sv_store sv) now) (sha1 (pk ++ salt)) seq cas ->
  let q := mk_query tid from (encode (BDict (put_kvs myid pk salt sig token v seq cas))) false false in
  let r := query_answer sv MPut (encode (query_val "put" (put_kvs myid pk salt sig token v seq cas) tid)) from now in
  r.2 = send_ack sv q /\ sv_myid r.1 = sv_myid sv /\ sv_secret0 r.1 = sv_secret0 sv /\
  held (sv_store r.1) (mk_item (sha1 (pk ++ salt)) pk sig salt true seq (u64 (now + B44_ITEM_TTL_MS)) (encode v)).
Proof.
  intros Hok Ht Htok Hm Hsig Htakes q r. subst r.
  pose proof (put_kvs_canon _ _ _ _ _ _ _ _ Hok) as Hc. pose proof (canon_kvs_ok _ Hc) as Hk.
  rewrite (query_answer_text sv "put" MPut _ tid from now myid Hc Ht); [|cbn; lia| |apply (pk_myid _ _ _ _ _ _ _ _ Hok)].
  2:{ unfold put_kvs. destruct (0 <=? cas), (bool_decide (salt = [])); cbn [negb]; dict_keys; done. }
  fold q. unfold handle_put. change (q_args q) with (encode (BDict (put_kvs myid pk salt sig token v seq cas))).
  rewrite (put_args_text _ _ _ _ _ _ _ _ Hok). set (f := mk_pf _ _ _ _ _ _ _).
  assert (Et : pf_target f = sha1 (pk ++ salt)) by (unfold pf_target, f; cbn; apply target_n_eq).
  assert (Hchk : put_check sv q f = None).
  { unfold put_check. cbn [q_args q_from q].
    assert (G : dict_get (cstr "token") (put_kvs myid pk salt sig token v seq cas) = Some (BStr token)).
    { unfold put_kvs. destruct (0 <=? cas), (bool_decide (salt = [])); cbn [negb]; dict_keys; done. }
    destruct Hok as [H1 H2 H3 H4 H5 H6 H7 H8 H9]. unfold B44_TOKEN_MAX in H5.
    rewrite (arg_str_ok _ _ _ Hk G) by lia. rewrite (proj2 (token_valid_iff sv token from (pf_target f))) by (by rewrite Et).
    cbn [negb pf_v pf_salt pf_mutable pf_seq pf_sig pf_k f]. destruct (Nat.ltb_spec BEP44_MAX_VALUE (length (encode v))); [lia|].
    destruct (Nat.ltb_spec BEP44_MAX_SALT (length salt)); [lia|]. by rewrite Hm, Hsig. }
  rewrite Hchk. destruct (put_store_takes (sv_myid sv) (store_expire (sv_store sv) now) f now) as (store' & E & Hh).
  - done.
  - rewrite Et. unfold f. cbn [pf_seq pf_cas]. destruct (Z.leb_spec 0 cas); [done|].
    destruct Htakes as [H1|(i & it & H1 & H2 & H3 & H4 & _)]; [by left|]. right. exists i, it. split_and!; try done.
  - unfold f. cbn [pf_cas]. intros c. destruct (Z.leb_spec 0 cas); [by intros [= <-]|done].
  - rewrite E. cbn. split_and!; try done. unfold pf_item in Hh. rewrite Et in Hh. exact Hh.
Qed.

(** The text a held value is served as. *)
Lemma get_ops_text sv q target it now v :
  it_mutable it = true -> it_v it = encode v ->
  concat (map wop_text (get_ops sv q target (Some it) true now)) =
  encode (reply_val (reply_kvs (sv_myid sv) (it_k it) (it_sig it) (token_make (sv_secret0 sv) (q_from q) target) v (it_seq it)) (q_tid q)).
Proof.
  intros Hm Hv. unfold get_ops, reply_val, reply_kvs. rewrite Hm, Hv. cbn [andb app].
  generalize (token_make (sv_secret0 sv) (q_from q) target). intros tok. msg_text. done.
Qed.

Lemma int_text_length z : 0 <= z <= INT64_MAX -> (length (int_text z) <= 21)%nat.
Proof.
  intros H. unfold int_text. destruct (Z.ltb_spec z 0); [lia|]. cbn [length]. rewrite length_app. cbn [length].
  pose proof (dec_length z 19 ltac:(lia)) as D. unfold INT64_MAX in H. specialize (D ltac:(change (10 ^ Z.of_nat 19) with (10 ^ 19); lia)). lia.
Qed.
Lemma str_text_length s : (length s <= 2000)%nat -> (length (str_text s) <= length s + 5)%nat.
Proof.
  intros H. unfold str_text. rewrite length_app. cbn [length].
  pose proof (dec_length (Z.of_nat (length s)) 4 ltac:(lia)) as D. specialize (D ltac:(change (10 ^ Z.of_nat 4) with 10000; lia)). lia.
Qed.

(** A value as a reply may carry it. *)
Record served_ok (myid k sig token tid : bytes) (v : bval) (seq : Z) : Prop := {
  sk_myid : length myid = 20%nat; sk_k : length k = 32%nat; sk_sig : length sig = 64%nat; sk_token : (length token <= 40)%nat;
  sk_tid : (length tid <= 64)%nat; sk_v : canon_at 1 v; sk_vlen : (length (encode v) <= BEP44_MAX_VALUE)%nat; sk_seq : 0 <= seq <= INT64_MAX
}.
Lemma reply_canon myid k sig token tid v seq : served_ok myid k sig token tid v seq ->
  canon_at 0 (BDict (reply_kvs myid k sig token v seq)).
Proof.
  intros [H1 H2 H3 H4 H5 H6 H7 H8]. constructor; [unfold BENC_MAX_DEPTH; lia|cbn; repeat split|]. unfold reply_kvs.
  repeat (apply Forall_cons_2 || apply Forall_nil_2);
    (split; [apply short_ok; vm_compute; lia | cbn [snd]; first [exact H6 | apply canon_str; lia | (constructor; [unfold BENC_MAX_DEPTH; lia | lia])]]).
Qed.
Lemma reply_length myid k sig token tid v seq : served_ok myid k sig token tid v seq ->
  (length (encode (reply_val (reply_kvs myid k sig token v seq) tid)) <= B44_MSG_MAX)%nat.
Proof.
  intros [H1 H2 H3 H4 H5 H6 H7 H8]. unfold reply_val, reply_kvs. msg_text.
  pose proof (str_text_length myid ltac:(lia)). pose proof (str_text_length k ltac:(lia)). pose proof (str_text_length sig ltac:(lia)).
  pose proof (str_text_length token ltac:(lia)). pose proof (str_text_length tid ltac:(lia)). pose proof (int_text_length seq ltac:(lia)).
  unfold BEP44_MAX_VALUE, B44_MSG_MAX in *. repeat (cbn [length]; rewrite ?length_app). lia.
Qed.

Lemma get_kvs_canon myid target : length myid = 20%nat -> length target = 20%nat -> canon_at 0 (BDict (get_kvs myid target)).
Proof.
  intros H1 H2. constructor; [unfold BENC_MAX_DEPTH; lia|cbn; repeat split|]. unfold get_kvs.
  repeat (apply Forall_cons_2 || apply Forall_nil_2); (split; [apply short_ok; vm_compute; lia|cbn [snd]]); try (apply canon_str; lia).
  constructor; [unfold BENC_MAX_DEPTH; lia|]. repeat (apply Forall_cons_2 || apply Forall_nil_2); apply canon_str; cbn; lia.
Qed.

(** A get for a name a node holds. *)
Lemma get_answer sv myid tid from now it v :
  store_ok (sv_store sv) -> held (sv_store sv) it -> now < it_expires it -> it_mutable it = true -> it_v it = encode v ->
  length myid = 20%nat -> length (it_target it) = 20%nat ->
  served_ok (sv_myid sv) (it_k it) (it_sig it) (token_make (sv_secret0 sv) from (it_target it)) tid v (it_seq it) ->
  (query_answer sv MGet (encode (query_val "get" (get_kvs myid (it_target it)) tid)) from now).2 =
  Some (encode (reply_val (reply_kvs (sv_myid sv) (it_k it) (it_sig it) (token_make (sv_secret0 sv) from (it_target it)) v (it_seq it)) tid)).
Proof.
  intros Hs Hh Hexp Hm Hv H1 H2 Hok. pose proof (get_kvs_canon myid (it_target it) H1 H2) as Hc. pose proof (canon_kvs_ok _ Hc) as Hk.
  rewrite (query_answer_text sv "get" MGet _ tid from now myid Hc (sk_tid _ _ _ _ _ _ _ Hok)); [|cbn; lia|unfold get_kvs; dict_keys; done|done].
  destruct (want_parse from _) as [w4 w6]. unfold handle_get. cbn [q_args].
  rewrite (arg_str_ok _ _ (it_target it) Hk) by (try (unfold get_kvs; dict_keys; done); lia). rewrite H2. cbn [Nat.eqb negb].
  rewrite (arg_int_none _ _ Hk) by (unfold get_kvs; dict_keys; done). cbv zeta.
  assert (Hhe : held (store_expire (sv_store sv) now) it) by (by apply held_expire).
  assert (Hslot : (match store_slot_of (store_expire (sv_store sv) now) (it_target it) with
    | Some i => default None (store_expire (sv_store sv) now !! i) | None => None end) = Some it).
  { destruct (store_slot_of _ _) as [i|] eqn:Es.
    - destruct (slot_of_some _ _ _ Es) as (x & Hx & Ht). rewrite Hx. cbn. f_equal. apply held_lookup in Hhe as (j & Hj).
      assert (i = j) as -> by (by apply (so_names _ (store_ok_expire _ now Hs) i j x it)). congruence.
    - apply held_lookup in Hhe as (j & Hj). exfalso. by apply (slot_of_none _ _ _ _ Es Hj). }
  set (sv' := sv <| sv_store := store_expire (sv_store sv) now |>).
  change (store_expire (sv_store sv) now) with (sv_store sv') in Hslot. rewrite Hslot. cbn [snd]. rewrite write_msg_fits.
  - by rewrite (get_ops_text _ _ _ it now v Hm Hv).
  - rewrite (get_ops_text _ _ _ it now v Hm Hv). by apply reply_length.
Qed.

(** Reading a reply that serves a value. *)
Lemma reply_read op myid k sig token tid v seq m :
  served_ok myid k sig token tid v seq -> op_immutable op = false -> op_pk op = k ->
  bep44_sig_buffer SIGBUF_LEN (Some (op_salt op)) seq (encode v) = Some m -> cc_ed25519_check sig k m = true ->
  exists rdict, benc_dict_find (encode (reply_val (reply_kvs myid k sig token v seq) tid)) (cstr "r") = Some rdict /\
    reply_value op rdict = Some (encode v, seq).
Proof.
  intros Hok Hi Hk Hm Hc. pose proof (reply_canon _ _ _ _ _ _ _ Hok) as Hcan. pose proof (canon_kvs_ok _ Hcan) as Hkv.
  destruct Hok as [H1 H2 H3 H4 H5 H6 H7 H8]. exists (encode (BDict (reply_kvs myid k sig token v seq))). split.
  - apply find_raw; [|dict_keys; done]. repeat (apply Forall_cons_2 || apply Forall_nil_2);
      (split; [apply short_ok; vm_compute; lia|cbn [snd]; first [exact Hcan | apply canon_str; [lia|]; try lia]]). cbn. lia.
  - unfold reply_value. rewrite (find_raw _ _ v Hkv) by (unfold reply_kvs; dict_keys; done).
    destruct (Nat.ltb_spec BEP44_MAX_VALUE (length (encode v))); [lia|]. rewrite Hi.
    rewrite (find_str _ _ k Hkv) by (try (unfold reply_kvs; dict_keys; done); lia). rewrite H2. cbn [Nat.eqb negb orb].
    unfold bytes_eqb at 1. rewrite bool_decide_true by done. cbn [negb].
    rewrite (find_str _ _ sig Hkv) by (try (unfold reply_kvs; dict_keys; done); lia). rewrite H3. cbn [Nat.eqb negb].
    rewrite (find_int _ _ seq Hkv) by (try (unfold reply_kvs; dict_keys; done); lia).
    destruct (Z.ltb_spec seq 0); [lia|]. unfold sig_holds. rewrite Hm, Hk, Hc. done.
Qed.
(** ** What leaves the asking side *)
Lemma put_send_text cl op n tx now cl' op' sa msg :
  put_send cl op n tx now = (true, cl', op', [OSend sa msg]) -> op_immutable op = false ->
  exists m sig, bep44_sig_buffer SIGBUF_LEN (Some (op_salt op)) (op_seq op) (op_value op) = Some m /\
    cc_ed25519_sign (op_sk op) m = Some sig /\
    msg = concat (map wop_text (put_msg_mutable (sv_myid (cl_serve cl)) (op_pk op) (op_salt op) sig (nd_token (node_at op n)) (op_value op)
                    (op_seq op) (node_cas (node_at op n) (op_cas op)) (cl_tid cl))).
Proof.
  unfold put_send, req_alloc. destruct (find_index _ _) as [i|]; [|done]. set (op1 := op <| op_reqs := _ |>).
  change (op_immutable op1) with (op_immutable op). intros H Hi. rewrite Hi in H.
  change (op_salt op1) with (op_salt op) in H. change (op_seq op1) with (op_seq op) in H. change (op_value op1) with (op_value op) in H.
  destruct (bep44_sig_buffer _ _ _ _) as [m|] eqn:Em; [|done]. change (op_sk op1) with (op_sk op) in H.
  destruct (cc_ed25519_sign (op_sk op) m) as [sig|] eqn:Es; [|done]. exists m, sig. split; [done|]. split; [done|].
  match type of H with context [write_msg _ ?o] => destruct (write_msg B44_MSG_MAX o) as [w|] eqn:Ew end; [|done].
  apply write_msg_some in Ew as [-> _]. unfold send_tail in H. destruct (msg_sent _ _ _); [|done]. injection H as _ _ _ H. by rewrite <- H.
Qed.
Lemma get_send_text cl op n tx now cl' op' sa msg :
  get_send cl op n tx now = (true, cl', op', [OSend sa msg]) ->
  msg = concat (map wop_text (get_msg (sv_myid (cl_serve cl)) (op_target op) (cl_tid cl))).
Proof.
  unfold get_send, req_alloc. destruct (find_index _ _) as [i|]; [|done]. intros H.
  match type of H with context [write_msg _ ?o] => destruct (write_msg B44_MSG_MAX o) as [w|] eqn:Ew end; [|done].
  apply write_msg_some in Ew as [-> _]. unfold send_tail in H. destruct (msg_sent _ _ _); [|done]. injection H as _ _ _ H. by rewrite <- H.
Qed.

(** An operation that stores [v] on its [n]th node. *)
Record writer_ok (cl : b44_client) (op : b44_op) (n : nat) (v : bval) : Prop := {
  wr_mutable : op_immutable op = false; wr_keys : keypair (op_sk op) (op_pk op);
  wr_myid : length (sv_myid (cl_serve cl)) = 20%nat; wr_pk : length (op_pk op) = 32%nat;
  wr_salt : (length (op_salt op) <= BEP44_MAX_SALT)%nat; wr_value : op_value op = encode v; wr_canon : canon_at 1 v;
  wr_vlen : (length (encode v) <= BEP44_MAX_VALUE)%nat; wr_seq : 0 <= op_seq op <= INT64_MAX;
  wr_cas : node_cas (node_at op n) (op_cas op) <= INT64_MAX
}.
(** An operation that reads what another writes. *)
Record reader_ok (cl : b44_client) (op : b44_op) (pk salt : bytes) : Prop := {
  rd_mutable : op_immutable op = false; rd_pk : op_pk op = pk; rd_salt : op_salt op = salt;
  rd_target : op_target op = bep44_target pk (Some salt); rd_myid : length (sv_myid (cl_serve cl)) = 20%nat
}.

(** C11: what one peer stores another reads: the datagram a put of a signed value sends, to a node
    whose token for the name it carries and which takes the value, is stored there, and until it runs
    out, two hours later and with no other put in between, the datagram a get sends, from anywhere, is
    answered with a reply in which the reader finds the same value at the same sequence, with a
    signature it accepts. The node takes the value when it holds nothing under the name and has a free
    slot or an item further from its own identifier than the name to drop, or when it holds an older
    value there whose sequence is the expected one if the put carries one; a store full of nearer
    items acknowledges the put and drops it, and a value that is not newer is refused or only has its
    time renewed. The value is canonical bencoding within the size limits, as are salt and sequence,
    and the writer's keys are a pair. *)
Theorem put_then_get {L : Ed25519Laws Ed} sv from now v cl op n tx t cl1 op1 sa msg from2 now2 cl2 op2 n2 tx2 t2 cl3 op3 sa2 gmsg :
  put_send cl op n tx t = (true, cl1, op1, [OSend sa msg]) -> writer_ok cl op n v ->
  get_send cl2 op2 n2 tx2 t2 = (true, cl3, op3, [OSend sa2 gmsg]) -> reader_ok cl2 op2 (op_pk op) (op_salt op) ->
  length (sv_myid sv) = 20%nat -> store_ok (sv_store sv) ->
  nd_token (node_at op n) = token_of (sv_secret0 sv) from (sha1 (op_pk op ++ op_salt op)) ->
  takes (sv_myid sv) (store_expire (sv_store sv) now) (sha1 (op_pk op ++ op_salt op)) (op_seq op) (node_cas (node_at op n) (op_cas op)) ->
  is_u64 (now + B44_ITEM_TTL_MS) -> now2 < now + B44_ITEM_TTL_MS ->
  let sv1 := (query_answer sv MPut msg from now).1 in
  exists reply rdict, (query_answer sv1 MGet gmsg from2 now2).2 = Some reply /\
    benc_dict_find reply (cstr "r") = Some rdict /\ reply_value op2 rdict = Some (encode v, op_seq op).
Proof.
  intros Hput [W1 W2 W3 W4 W5 W6 W7 W8 W9 W10] Hget [R1 R2 R3 R4 R5] Hid Hst Htok Htakes H64 Hn2 sv1.
  destruct (put_send_text _ _ _ _ _ _ _ _ _ Hput W1) as (m & sig & Em & Es & Hmsg). rewrite W6 in *. rewrite put_text in Hmsg.
  destruct (ed25519_sign_length _ _ _ Es) as [Ls _].
  assert (Hok : put_ok (sv_myid (cl_serve cl)) (op_pk op) (op_salt op) sig (nd_token (node_at op n)) v (op_seq op) (node_cas (node_at op n) (op_cas op))).
  { split; try done. rewrite Htok, token_of_length. unfold B44_TOKEN_LEN, B44_TOKEN_MAX. lia. }
  destruct (put_answer sv from now _ _ _ _ _ v _ _ (tid_bytes (cl_tid cl)) m Hok ltac:(cbn; lia) (or_introl Htok) Em (W2 _ _ Es) Htakes) as (_ & Hm1 & Hs1 & Hheld).
  rewrite <- Hmsg in Hm1, Hs1, Hheld. fold sv1 in Hm1, Hs1, Hheld. set (it := mk_item _ _ _ _ _ _ _ _) in Hheld.
  assert (Hst1 : store_ok (sv_store sv1)) by (apply (serve_step_ok sv (SvQuery MPut msg from now)); done).
  assert (Hgt : gmsg = encode (query_val "get" (get_kvs (sv_myid (cl_serve cl2)) (it_target it)) (tid_bytes (cl_tid cl2)))).
  { rewrite (get_send_text _ _ _ _ _ _ _ _ _ Hget), get_text, R4. unfold bep44_target. cbn [from_option id it_target it]. by rewrite target_n_eq. }
  assert (Hso : served_ok (sv_myid sv1) (op_pk op) sig (token_make (sv_secret0 sv1) from2 (it_target it)) (tid_bytes (cl_tid cl2)) v (op_seq op)).
  { split; try done; [by rewrite Hm1| |cbn; lia]. rewrite token_make_eq, token_of_length. unfold B44_TOKEN_LEN. lia. }
  rewrite Hgt. rewrite (get_answer sv1 (sv_myid (cl_serve cl2)) (tid_bytes (cl_tid cl2)) from2 now2 it v Hst1 Hheld); try done.
  - destruct (reply_read op2 (sv_myid sv1) (op_pk op) sig (token_make (sv_secret0 sv1) from2 (it_target it)) (tid_bytes (cl_tid cl2)) v (op_seq op) m Hso R1 R2) as (rd & E1 & E2).
    + by rewrite R3.
    + by apply (W2 m).
    + eexists _, rd. split; [reflexivity|]. by split.
  - cbn [it_expires it]. by rewrite u64_id.
  - apply sha1_length.
Qed.
End World.

(** ** Two peers and a node *)
Definition peer_k : bytes := replicate 32 5.
Definition peer_client (id : Z) : b44_client := en_cl (bep44_create (replicate 20 id) true true 0).
Definition node_sa : sockaddr := AF_INET 6881 [203; 0; 113; 7].
Definition peer_op (cb : op_cb) (token : bytes) : b44_op :=
  (op_blank (sha1 peer_k) true cb 10) <| op_pk := peer_k |> <| op_sk := peer_k ++ peer_k |> <| op_value := encode hello |>
    <| op_seq := 3 |> <| op_cas := -1 |> <| op_nodes := [mk_node (replicate 20 7) (replicate 20 0) node_sa B44_NODE_REPLIED token None] |>.
Definition writer_op : b44_op := peer_op CbPut (token_of (replicate 16 1) demo_from (sha1 peer_k)).
Definition reader_op : b44_op := peer_op CbGet [].
Definition sent_msg (r : bool * b44_client * b44_op * list output) : bytes := match r.2 with OSend _ m :: _ => m | _ => [] end.
Definition always (_ : sockaddr) : bool := true.
Definition writer_run := put_send (Ed := toy_ed25519) (peer_client 1) writer_op 0 always 10.
Definition reader_run := get_send (peer_client 2) reader_op 0 always 20.

Lemma toy_keypair k : keypair (Ed := toy_ed25519) (k ++ k) k.
Proof.
  intros m sig H. change (Some (toy_blake 64 (k ++ k) m) = Some sig) in H. assert (sig = toy_blake 64 (k ++ k) m) as -> by congruence.
  unfold cc_ed25519_check, toy_ed25519, bytes_eqb. by apply bool_decide_eq_true.
Qed.
Lemma put_then_get_witness :
  exists reply rdict,
    (query_answer (Ed := toy_ed25519) (query_answer (Ed := toy_ed25519) demo_node MPut (sent_msg writer_run) demo_from 30).1
       MGet (sent_msg reader_run) (Some (AF_INET 9 [198; 51; 100; 1])) 40).2 = Some reply /\
    benc_dict_find reply (cstr "r") = Some rdict /\ reply_value (Ed := toy_ed25519) reader_op rdict = Some (encode hello, 3).
Proof.
  apply (put_then_get (Ed := toy_ed25519) (L := toy_ed25519_laws) demo_node demo_from 30 hello (peer_client 1) writer_op 0 always 10
    (writer_run.1.1.2) (writer_run.1.2) node_sa (sent_msg writer_run) (Some (AF_INET 9 [198; 51; 100; 1])) 40
    (peer_client 2) reader_op 0 always 20 (reader_run.1.1.2) (reader_run.1.2) node_sa (sent_msg reader_run)).
  - vm_compute. reflexivity.
  - split.
    + reflexivity.
    + exact (toy_keypair peer_k).
    + reflexivity.
    + reflexivity.
    + cbn. lia.
    + reflexivity.
    + apply canon_str; [lia|cbn; lia].
    + vm_compute. lia.
    + vm_compute. split; discriminate.
    + vm_compute. discriminate.
  - vm_compute. reflexivity.
  - split; [reflexivity|reflexivity|reflexivity| |reflexivity]. vm_compute. reflexivity.
  - reflexivity.
  - apply empty_store_ok.
  - vm_compute. reflexivity.
  - left. split; [vm_compute; reflexivity|]. eexists. vm_compute. reflexivity.
  - unfold is_u64, B44_ITEM_TTL_MS. lia.
  - unfold B44_ITEM_TTL_MS. lia.
Defined.
