(* ===== verification/Bep44Wf.v ===== *)
(** The shape of an operation of src/src/bep44.c: its nodes are sorted and bounded, and
    every request in flight points at the node it was sent to, and goes on doing so as
    closer nodes are inserted before it. *)
From Stdlib Require Import Sorted.
From S2P Require Import Prelude Net Bencode Crypto Sha1 Bep44 Bep44Store Bep44Ban Bep44Op Bep44Engine.

Definition dist_le (a b : bytes) : Prop := memcmp a b <= 0.
Record op_wf (op : b44_op) : Prop := {
  wf_len : (length (op_nodes op) <= B44_NODES_MAX)%nat;
  wf_sorted : StronglySorted dist_le (map nd_dist (op_nodes op));
  wf_reqs : forall i r, op_reqs op !! i = Some (Some r) -> exists n, op_nodes op !! rq_node r = Some n /\ inflight (nd_state n) = true;
  wf_uniq : forall i j r r', op_reqs op !! i = Some (Some r) -> op_reqs op !! j = Some (Some r') -> rq_node r = rq_node r' -> i = j
}.
(** What the invariant is about. *)
Lemma wf_ext op op' : op_nodes op' = op_nodes op -> op_reqs op' = op_reqs op -> op_wf op -> op_wf op'.
Proof. intros E1 E2 [H1 H2 H3 H4]. split; rewrite ?E1, ?E2; done. Qed.

(** ** Lemmas: changing one node *)
Lemma alter_dist f k l : (forall n, nd_dist (f n) = nd_dist n) -> map nd_dist (alter f k l) = map nd_dist l.
Proof.
  intros Hf. revert k. induction l as [|n l IH]; intros [|k]; cbn; try done; [by rewrite Hf|]. f_equal. apply IH.
Qed.
Lemma wf_set_node op k f :
  op_wf op -> (forall n, nd_dist (f n) = nd_dist n) ->
  (forall n i r, op_nodes op !! k = Some n -> op_reqs op !! i = Some (Some r) -> rq_node r = k -> inflight (nd_state (f n)) = true) ->
  op_wf (set_node op k f).
Proof.
  intros [H1 H2 H3 H4] Hd Hk. split; cbn.
  - by rewrite length_alter.
  - by rewrite alter_dist.
  - intros i r Hi. destruct (H3 i r Hi) as (n & Hn & Hs). destruct (decide (rq_node r = k)) as [E|E].
    + exists (f n). rewrite E in *. rewrite list_lookup_alter_eq, Hn. split; [done|]. by apply (Hk n i r).
    + exists n. rewrite list_lookup_alter_ne by done. done.
  - exact H4.
Qed.
(** A change that leaves the state alone. *)
Lemma wf_set_other op k f :
  op_wf op -> (forall n, nd_dist (f n) = nd_dist n) -> (forall n, nd_state (f n) = nd_state n) -> op_wf (set_node op k f).
Proof.
  intros H Hd Hs. apply wf_set_node; try done. intros n i r Hn Hi Hr. rewrite Hs.
  destruct (wf_reqs _ H i r Hi) as (m & Hm & Hf). rewrite Hr in Hm. congruence.
Qed.
Lemma req_drop_at op i j r : op_reqs (req_drop op i) !! j = Some (Some r) -> op_reqs op !! j = Some (Some r) /\ j <> i.
Proof.
  cbn. destruct (decide (i = j)) as [->|Hne].
  - destruct (decide (j < length (op_reqs op))%nat) as [Hl|Hl]; [by rewrite list_lookup_insert_eq by done|].
    rewrite list_insert_ge by lia. intros H. apply lookup_lt_Some in H. lia.
  - rewrite list_lookup_insert_ne by done. auto.
Qed.
Lemma wf_req_drop op i : op_wf op -> op_wf (req_drop op i).
Proof.
  intros [H1 H2 H3 H4]. split; [done|done| |].
  - intros j r Hj. apply req_drop_at in Hj as [Hj _]. by apply (H3 j).
  - intros j k r r' Hj Hk. apply req_drop_at in Hj as [Hj _]. apply req_drop_at in Hk as [Hk _]. by apply H4.
Qed.
(** Giving a request back lets its node be in any state. *)
Lemma wf_close op i r f :
  op_wf op -> op_reqs op !! i = Some (Some r) -> (forall n, nd_dist (f n) = nd_dist n) ->
  op_wf (set_node (req_drop op i) (rq_node r) f).
Proof.
  intros H Hi Hd. apply wf_set_node; [by apply wf_req_drop|done|]. intros n j r' _ Hj Hr.
  apply req_drop_at in Hj as [Hj Hne]. exfalso. apply Hne. by apply (wf_uniq _ H j i r' r).
Qed.
Lemma set_drop_comm op i k f : req_drop (set_node op k f) i = set_node (req_drop op i) k f.
Proof. done. Qed.

(** ** Lemmas: asking a node *)
Lemma req_alloc_spec cl op k now i tid cl' op' :
  req_alloc cl op k now = Some (i, tid, cl', op') ->
  op_reqs op !! i = Some None /\ op' = op <| op_reqs := <[i := Some (mk_req k tid now)]> (op_reqs op) |>.
Proof.
  unfold req_alloc. destruct (find_index req_free (op_reqs op)) as [j|] eqn:E; [|done]. intros [= <- <- <- <-].
  apply find_index_some in E as ([x|] & Hx & Hp); [done|]. done.
Qed.
Lemma alloc_at op i k tid now j r : op_reqs op !! i = Some None ->
  <[i := Some (mk_req k tid now)]> (op_reqs op) !! j = Some (Some r) ->
  j = i /\ r = mk_req k tid now \/ j <> i /\ op_reqs op !! j = Some (Some r).
Proof.
  intros Hi. destruct (decide (i = j)) as [->|Hne].
  - rewrite list_lookup_insert_eq by (by eapply lookup_lt_Some). intros [= <-]. by left.
  - rewrite list_lookup_insert_ne by done. auto.
Qed.
(** A request for a node that waits for nothing, whose state then says it waits. *)
Lemma wf_open op i k tid now n st :
  op_wf op -> op_reqs op !! i = Some None -> op_nodes op !! k = Some n -> inflight (nd_state n) = false -> inflight st = true ->
  op_wf (set_node (op <| op_reqs := <[i := Some (mk_req k tid now)]> (op_reqs op) |>) k (fun n => n <| nd_state := st |>)).
Proof.
  intros [H1 H2 H3 H4] Hi Hn Hf Hst.
  assert (Hno : forall j r, op_reqs op !! j = Some (Some r) -> rq_node r <> k).
  { intros j r Hj E. destruct (H3 j r Hj) as (m & Hm & Hs). rewrite E in Hm. congruence. }
  split; cbn.
  - by rewrite length_alter.
  - by rewrite alter_dist.
  - intros j r Hj. apply (alloc_at op) in Hj as [[-> ->]|[Hne Hj]]; [|..]; try done; cbn.
    + exists (n <| nd_state := st |>). by rewrite list_lookup_alter_eq, Hn.
    + destruct (H3 j r Hj) as (m & Hm & Hs). exists m. rewrite list_lookup_alter_ne by (intros E; by apply (Hno j r)). done.
  - intros a b r r' Ha Hb E. apply (alloc_at op) in Ha as [[-> ->]|[Na Ha]]; try done; apply (alloc_at op) in Hb as [[-> ->]|[Nb Hb]]; try done.
    + cbn in E. exfalso. by apply (Hno b r').
    + cbn in E. exfalso. by apply (Hno a r).
    + by apply (H4 a b r r').
Qed.
(** The request taken and given back, its node failed. *)
Lemma wf_open_close op i k tid now f : op_wf op -> op_reqs op !! i = Some None -> (forall n, nd_dist (f n) = nd_dist n) ->
  (forall j r, op_reqs op !! j = Some (Some r) -> rq_node r <> k) ->
  op_wf (req_drop (set_node (op <| op_reqs := <[i := Some (mk_req k tid now)]> (op_reqs op) |>) k f) i).
Proof.
  intros H Hi Hd Hno. apply (wf_ext (set_node op k f)); [done|cbn; by rewrite list_insert_insert_eq, list_insert_id|].
  apply wf_set_node; [done|done|]. intros n j r _ Hj Hr. exfalso. by apply (Hno j r).
Qed.
Lemma send_tail_wf cl op tx i k tid now n st msg op' out :
  op_wf op -> op_reqs op !! i = Some None -> op_nodes op !! k = Some n -> inflight (nd_state n) = false -> inflight st = true ->
  send_tail cl (op <| op_reqs := <[i := Some (mk_req k tid now)]> (op_reqs op) |>) tx i k st msg = (op', out) ->
  op_wf op' /\ length (op_nodes op') = length (op_nodes op).
Proof.
  intros H Hi Hn Hf Hst. unfold send_tail. destruct (msg_sent _ _ _); intros [= <- _].
  - split; [by eapply wf_open|cbn; by rewrite length_alter].
  - split; [|cbn; by rewrite length_alter]. apply wf_open_close; try done. intros j r Hj E.
    destruct (wf_reqs _ H j r Hj) as (m & Hm & Hs). rewrite E in Hm. congruence.
Qed.
Lemma alloc_drop op i k tid now : op_wf op -> op_reqs op !! i = Some None ->
  op_wf (req_drop (op <| op_reqs := <[i := Some (mk_req k tid now)]> (op_reqs op) |>) i).
Proof. intros H Hi. apply (wf_ext op); [done|cbn; by rewrite list_insert_insert_eq, list_insert_id|done]. Qed.
Lemma get_send_wf cl op k tx now n rc cl' op' out :
  op_wf op -> op_nodes op !! k = Some n -> inflight (nd_state n) = false ->
  get_send cl op k tx now = (rc, cl', op', out) -> op_wf op' /\ length (op_nodes op') = length (op_nodes op).
Proof.
  intros H Hn Hf. unfold get_send. destruct (req_alloc cl op k now) as [[[[i tid] cl1] op1]|] eqn:Ea; [|by intros [= _ _ <- _]].
  apply req_alloc_spec in Ea as [Hi ->]. destruct (write_msg _ _); [|intros [= _ _ <- _]; split; [by apply alloc_drop|done]].
  destruct (send_tail _ _ _ _ _ _ _) as [op2 o] eqn:Es. intros [= _ _ <- _]. eapply send_tail_wf; [exact H|exact Hi|exact Hn|exact Hf| |exact Es].
  by destruct (op_phase _).
Qed.
Lemma put_send_wf {Ed : Ed25519} cl op k tx now n rc cl' op' out :
  op_wf op -> op_nodes op !! k = Some n -> inflight (nd_state n) = false ->
  put_send cl op k tx now = (rc, cl', op', out) -> op_wf op' /\ length (op_nodes op') = length (op_nodes op).
Proof.
  intros H Hn Hf. unfold put_send. destruct (req_alloc cl op k now) as [[[[i tid] cl1] op1]|] eqn:Ea; [|by intros [= _ _ <- _]].
  apply req_alloc_spec in Ea as [Hi ->]. set (msg := if op_immutable _ then _ else _).
  destruct msg as [m|]; [|intros [= _ _ <- _]; split; [by apply alloc_drop|done]].
  destruct (send_tail _ _ _ _ _ _ _) as [op2 o] eqn:Es. intros [= _ _ <- _]. by eapply send_tail_wf; [exact H|exact Hi|exact Hn|exact Hf| |exact Es].
Qed.

Lemma node_at_lookup op i : (i < length (op_nodes op))%nat -> op_nodes op !! i = Some (node_at op i).
Proof.
  intros H. destruct (lookup_lt_is_Some_2 _ _ H) as [n Hn]. unfold node_at. rewrite Hn. f_equal. symmetry. by apply nth_lookup_Some.
Qed.
Lemma ask_loop_wf fuel : forall i cl op tx now a b c d e cl' op' out n,
  op_wf op -> ask_loop fuel i cl op tx now a b c d e = (cl', op', out, n) -> op_wf op'.
Proof.
  induction fuel as [|fuel IH]; intros i cl op tx now a b c d e cl' op' out n H; cbn [ask_loop]; [by intros [= _ <- _ _]|].
  destruct (Nat.leb_spec (length (op_nodes op)) i) as [|Hi]; [by intros [= _ <- _ _]|].
  destruct (bool_decide (nd_state (node_at op i) = B44_NODE_FRESH)) eqn:Ef; cbn [negb]; [apply bool_decide_eq_true in Ef|by apply IH].
  destruct (_ <=? _)%nat; [by apply IH|]. destruct (node_budget_ok _ _ _) as [cl1 ok]. destruct ok; cbn [negb]; [|by apply IH].
  destruct (get_send cl1 op i tx now) as [[[rc cl2] op2] o2] eqn:Eg.
  apply (get_send_wf _ _ _ _ _ (node_at op i)) in Eg as [W _]; [|done|by apply node_at_lookup|by rewrite Ef].
  destruct rc; cbn [negb]; [|by intros [= _ <- _ _]].
  destruct (ask_loop _ _ _ _ _ _ _ _ _ _ _) as [[[cl3 op3] o3] n3] eqn:El. intros [= _ <- _ _]. by apply IH in El.
Qed.
Lemma wf_deferred op b : op_wf op -> op_wf (op <| op_deferred := b |>).
Proof. by apply wf_ext. Qed.
Lemma wf_best_nodes op from : op_wf op -> op_wf (record_best_node op from).
Proof. intros H. unfold record_best_node. repeat case_match; try done; by apply (wf_ext op). Qed.

Section Wf.
Context {Ed : Ed25519}.
Lemma store_loop_wf fuel : forall i cl op tx now s4 s6 sent cl' op' out n,
  op_wf op -> store_loop fuel i cl op tx now s4 s6 sent = (cl', op', out, n) -> op_wf op'.
Proof.
  induction fuel as [|fuel IH]; intros i cl op tx now s4 s6 sent cl' op' out n H; cbn [store_loop]; [by intros [= _ <- _ _]|].
  destruct (Nat.leb_spec (length (op_nodes op)) i) as [|Hi]; [by intros [= _ <- _ _]|].
  destruct (bool_decide (nd_state (node_at op i) = B44_NODE_REPLIED)) eqn:Ef; cbn [negb orb]; [apply bool_decide_eq_true in Ef|by apply IH].
  destruct (bool_decide _); [by apply IH|].
  destruct (_ <=? _)%nat; [by apply IH|]. destruct (node_budget_ok _ _ _) as [cl1 ok]. destruct ok; cbn [negb]; [|apply IH; by apply wf_deferred].
  destruct (put_send cl1 op i tx now) as [[[rc cl2] op2] o2] eqn:Eg.
  apply (put_send_wf _ _ _ _ _ (node_at op i)) in Eg as [W _]; [|done|by apply node_at_lookup|by rewrite Ef].
  destruct rc; cbn [negb]; [|by intros [= _ <- _ _]].
  destruct (store_loop _ _ _ _ _ _ _ _ _) as [[[cl3 op3] o3] n3] eqn:El. intros [= _ <- _ _]. by apply IH in El.
Qed.
Lemma reap_wf now reqs : forall i op a b, op_wf op -> (forall k r, reqs !! k = Some (Some r) -> op_reqs op !! (i + k)%nat = Some (Some r)) ->
  op_wf (reap_reqs now i reqs op a b).1.1.
Proof.
  induction reqs as [|[r|] reqs IH]; intros i op a b H Hr; cbn [reap_reqs]; [done| |].
  - pose proof (Hr 0%nat r eq_refl) as Hi. rewrite Nat.add_0_r in Hi.
    assert (Hr' : forall k r', reqs !! k = Some (Some r') -> op_reqs op !! (S i + k)%nat = Some (Some r')).
    { intros k r' Hk. specialize (Hr (S k) r' Hk). by rewrite Nat.add_succ_r in Hr. }
    destruct (_ <? _); [|destruct (is_v6 _); by apply IH]. apply IH.
    + rewrite set_drop_comm. by apply wf_close.
    + intros k r' Hk. cbn. rewrite list_lookup_insert_ne by lia. by apply Hr'.
  - apply IH; [done|]. intros k r' Hk. specialize (Hr (S k) r' Hk). by rewrite Nat.add_succ_r in Hr.
Qed.
(** A step that goes on leaves the operation in shape. *)
Definition res_wf (r : step_result) : Prop := match r with (_, Some op, _) => op_wf op | _ => True end.
Lemma finish_wf cl op out : res_wf (finish cl op out).
Proof. unfold finish. by destruct (op_finish cl op). Qed.
Lemma store_or_finish_wf cl op tx now : op_wf op -> res_wf (store_or_finish cl op tx now).
Proof.
  intros H. unfold store_or_finish, store_start. destruct (store_loop _ _ _ _ _ _ _ _ _) as [[[cl1 op1] o1] n] eqn:E.
  apply store_loop_wf in E; [|by apply (wf_ext op)]. destruct (_ && _); [apply finish_wf|done].
Qed.
Lemma op_step_wf cl op tx now : op_wf op -> res_wf (op_step cl op tx now).
Proof.
  intros H. unfold op_step. destruct (_ <? _); [apply finish_wf|].
  pose proof (reap_wf now (op_reqs op) 0 op 0 0 H (fun k r Hk => Hk)) as W. destruct (reap_reqs _ _ _ _ _ _) as [[op1 a] b]. cbn in W.
  destruct (op_phase op1).
  - destruct (ask_loop _ _ _ _ _ _ _ _ _ _ _) as [[[cl2 op2] o2] [[n1 n2] n3]] eqn:Ea. apply ask_loop_wf in Ea; [|done].
    destruct (_ || _); [done|]. destruct (if op_update op2 then _ else _) as [[cl3 r] o3] eqn:Er.
    assert (Hr : res_wf (cl3, r, o3)); [|by destruct r]. rewrite <- Er.
    destruct (op_update op2); [|destruct (negb _); [apply finish_wf|by apply store_or_finish_wf]].
    unfold update_store. destruct (op_merge _ _ _); [|apply finish_wf]. destruct (_ || _); [apply finish_wf|]. cbv zeta.
    destruct (_ <? _); [apply finish_wf|]. apply store_or_finish_wf. by apply (wf_ext op2).
  - destruct (negb _); [done|]. destruct (op_deferred op1); [by apply store_or_finish_wf|apply finish_wf].
Qed.
End Wf.

(** ** Lemmas: inserting a node *)
Lemma insert_pos_le d l : (insert_pos d l <= length l)%nat.
Proof. induction l as [|n l IH]; cbn; [done|]. destruct (_ <? _); lia. Qed.
Lemma insert_sorted d n l : nd_dist n = d -> StronglySorted dist_le (map nd_dist l) ->
  StronglySorted dist_le (map nd_dist (take (insert_pos d l) l ++ n :: drop (insert_pos d l) l)).
Proof.
  intros Hn. induction l as [|x l IH]; cbn [insert_pos]; [intros _; repeat constructor|]. cbn [map]. intros Hs.
  inversion Hs as [|? ? Hs' Hf]; subst. destruct (Z.ltb_spec (memcmp (nd_dist n) (nd_dist x)) 0) as [Hlt|Hge]; cbn [take drop app map].
  - constructor; [done|]. constructor; [unfold dist_le; lia|]. eapply Forall_impl; [exact Hf|]. intros y Hy. unfold dist_le in *.
    apply (memcmp_trans _ (nd_dist x)); [lia|done].
  - constructor; [by apply IH|]. rewrite map_app. cbn [map]. rewrite <- (take_drop (insert_pos (nd_dist n) l) l), map_app in Hf.
    apply Forall_app in Hf as [F1 F2]. apply Forall_app. split; [done|]. constructor; [|done].
    unfold dist_le. rewrite memcmp_antisym. lia.
Qed.
Lemma sorted_take k l : StronglySorted dist_le (map nd_dist l) -> StronglySorted dist_le (map nd_dist (take k l)).
Proof.
  revert k. induction l as [|x l IH]; intros [|k]; cbn; try constructor; intros; inversion H; subst; [by apply IH|].
  rewrite <- (take_drop k l), map_app in H3. by apply Forall_app in H3 as [? _].
Qed.
Lemma insert_pos_take d k l : insert_pos d (take k l) = Nat.min k (insert_pos d l).
Proof.
  revert k. induction l as [|x l IH]; intros [|k]; cbn; try done.
  destruct (_ <? _); [done|]. by rewrite IH.
Qed.
Definition shifted (pos k : nat) : nat := if (pos <=? k)%nat then S k else k.
Lemma insert_lookup {A} pos (l : list A) x k : (pos <= length l)%nat -> (take pos l ++ x :: drop pos l) !! shifted pos k = l !! k.
Proof.
  intros Hp. unfold shifted. destruct (Nat.leb_spec pos k).
  - rewrite lookup_app_r by (rewrite length_take; lia). rewrite length_take, Nat.min_l by lia.
    replace (S k - pos)%nat with (S (k - pos)) by lia.
    change ((x :: drop pos l) !! S (k - pos)%nat) with (drop pos l !! (k - pos)%nat). rewrite lookup_drop. f_equal. lia.
  - rewrite lookup_app_l by (rewrite length_take; lia). by apply lookup_take_lt.
Qed.
Lemma shift_req_at pos (l : list (option b44_req)) i r' :
  map (shift_req pos) l !! i = Some (Some r') ->
  exists r, l !! i = Some (Some r) /\ r' = mk_req (shifted pos (rq_node r)) (rq_tid r) (rq_sent r).
Proof.
  rewrite list_lookup_fmap. destruct (l !! i) as [[r|]|]; cbn; try done. intros [= <-]. exists r. split; [done|].
  unfold shifted. by destruct (pos <=? rq_node r)%nat, r.
Qed.
Lemma shift_req_to pos (l : list (option b44_req)) i r :
  l !! i = Some (Some r) -> map (shift_req pos) l !! i = Some (Some (mk_req (shifted pos (rq_node r)) (rq_tid r) (rq_sent r))).
Proof. intros H. rewrite list_lookup_fmap, H. cbn. unfold shifted. by destruct (pos <=? rq_node r)%nat, r. Qed.

(** Every request still points at the node it pointed at. *)
Definition same_nodes (op op' : b44_op) : Prop :=
  forall i r, op_reqs op !! i = Some (Some r) -> exists r', op_reqs op' !! i = Some (Some r') /\
    rq_tid r' = rq_tid r /\ rq_sent r' = rq_sent r /\ op_nodes op' !! rq_node r' = op_nodes op !! rq_node r.
Lemma same_nodes_refl op : same_nodes op op.
Proof. intros i r H. by exists r. Qed.

Lemma node_insert_wf op id sa pinned :
  op_wf op -> op_wf (node_insert op id sa pinned) /\ same_nodes op (node_insert op id sa pinned).
Proof.
  intros H. unfold node_insert. pose proof (same_nodes_refl op) as Hr. destruct (existsb _ _); [done|]. cbv zeta.
  set (d := node_dist op id pinned). set (pos := insert_pos d (op_nodes op)). set (nd := mk_node _ _ _ _ _ _).
  destruct (Nat.leb_spec B44_NODES_MAX pos) as [|Hpos]; [done|]. set (full := (B44_NODES_MAX <=? length (op_nodes op))%nat).
  destruct (full && _) eqn:Et; [done|]. set (nodes := if full then _ else _).
  assert (Hlen : (length nodes < B44_NODES_MAX)%nat /\ (pos <= length nodes)%nat /\ pos = insert_pos d nodes /\ StronglySorted dist_le (map nd_dist nodes)).
  { pose proof (insert_pos_le d (op_nodes op)) as Hle. fold pos in Hle. pose proof (wf_len _ H) as HL. pose proof (wf_sorted _ H) as HS.
    unfold nodes, full. destruct (Nat.leb_spec B44_NODES_MAX (length (op_nodes op))) as [Hf|Hf]; [|done].
    unfold B44_NODES_MAX in *. rewrite length_take, insert_pos_take. fold pos. split_and!; [lia|lia|lia|by apply sorted_take]. }
  assert (Hold : forall i r n, op_reqs op !! i = Some (Some r) -> op_nodes op !! rq_node r = Some n -> inflight (nd_state n) = true ->
    nodes !! rq_node r = Some n).
  { intros i r n Hi Hn Hs. unfold nodes. destruct full eqn:Ef; [|done]. rewrite lookup_take_lt; [done|].
    pose proof (lookup_lt_Some _ _ _ Hn). pose proof (wf_len _ H). destruct (decide (rq_node r = B44_NODES_MAX - 1)%nat) as [E|E]; [|lia].
    exfalso. cbn [andb] in Et. rewrite E in Hn. rewrite Hn in Et. congruence. }
  destruct Hlen as (L1 & L2 & L3 & L4). split.
  - split; cbn [op_nodes op_reqs set set_op_nodes set_op_reqs].
    + rewrite length_app. cbn [length]. rewrite length_take, length_drop. lia.
    + rewrite L3. by apply insert_sorted.
    + intros i r' Hi. apply shift_req_at in Hi as (r & Hi & ->). destruct (wf_reqs _ H i r Hi) as (n & Hn & Hs). exists n.
      cbn [rq_node]. rewrite insert_lookup by done. split; [by apply (Hold i)|done].
    + intros i j r r' Hi Hj E. apply shift_req_at in Hi as (r0 & Hi & ->). apply shift_req_at in Hj as (r1 & Hj & ->). cbn [rq_node] in E.
      apply (wf_uniq _ H i j r0 r1 Hi Hj). unfold shifted in E. destruct (Nat.leb_spec pos (rq_node r0)), (Nat.leb_spec pos (rq_node r1)); lia.
  - intros i r Hi. eexists. split; [cbn [op_reqs set set_op_nodes set_op_reqs]; by apply shift_req_to|]. cbn [rq_tid rq_sent rq_node op_nodes set set_op_nodes set_op_reqs].
    split_and!; try done. rewrite insert_lookup by done. destruct (wf_reqs _ H i r Hi) as (n & Hn & Hs). rewrite Hn. by apply (Hold i).
Qed.
Lemma compact_wf fuel : forall cl op data v6 cached now, op_wf op -> op_wf (nodes_compact_loop fuel cl op data v6 cached now).2.
Proof.
  induction fuel as [|fuel IH]; intros cl op data v6 cached now H; cbn [nodes_compact_loop]; [done|].
  destruct (_ <? _)%nat; [done|]. destruct (cached <? _)%nat; apply IH; by apply node_insert_wf.
Qed.
Lemma compact_add_wf cl op data v6 now : op_wf op -> op_wf (nodes_compact_add cl op data v6 now).2.
Proof. apply compact_wf. Qed.

(** ** Lemmas: starting an operation *)
Lemma fold_insert_wf {A} (f : b44_op -> A -> b44_op) l : (forall op a, op_wf op -> op_wf (f op a)) ->
  forall op, op_wf op -> op_wf (fold_left f l op).
Proof. intros Hf. induction l as [|a l IH]; intros op H; cbn; [done|]. by apply IH, Hf. Qed.
Lemma insert_seed_wf pinned op s : op_wf op -> op_wf (insert_seed pinned op s).
Proof. intros H. by apply node_insert_wf. Qed.
Lemma insert_slot_wf op s : op_wf op -> op_wf (insert_slot op s).
Proof. destruct s; [apply insert_seed_wf|done]. Qed.
Lemma op_blank_wf target direct cb now : op_wf (op_blank target direct cb now).
Proof.
  split; unfold op_blank; cbn [op_nodes op_reqs map length]; [lia|apply SSorted_nil| |].
  - intros i r H. by apply lookup_replicate in H as [? _].
  - intros i j r r' H. by apply lookup_replicate in H as [? _].
Qed.
Lemma op_new_wf cl target direct cb now : op_wf (op_new cl target direct cb now).
Proof.
  unfold op_new. cbv zeta.
  assert (H : op_wf (fold_left insert_slot (cl_retained cl) (fold_left (insert_seed true) (cl_pinned cl) (op_blank target direct cb now)))).
  { apply fold_insert_wf; [apply insert_slot_wf|]. apply fold_insert_wf; [apply insert_seed_wf|apply op_blank_wf]. }
  destruct direct; [done|]. apply fold_insert_wf; [intros op sa Ho; by apply node_insert_wf|].
  by apply fold_insert_wf; [apply insert_slot_wf|].
Qed.
Lemma op_create_wf cl pk salt direct cb now op : op_create cl pk salt direct cb now = Some op -> op_wf op.
Proof. unfold op_create. destruct (_ <? _)%nat; [done|]. intros [= <-]. apply (wf_ext (op_new cl (bep44_target pk (Some salt)) direct cb now)); [done|done|apply op_new_wf]. Qed.

(** ** Lemmas: a reply *)
Section Reply.
Context {Ed : Ed25519}.
Lemma new_best_wf op v seq from : op_wf op -> op_wf (new_best op v seq from).
Proof. intros H. unfold new_best. apply wf_best_nodes. by apply (wf_ext op). Qed.
Lemma value_check_wf op node from rdict : op_wf op -> op_wf (value_check op node from rdict).
Proof.
  intros H. unfold value_check. destruct (reply_value op rdict) as [[v seq]|]; [|done]. destruct (op_immutable op).
  - destruct (op_best op); [by apply wf_best_nodes|by apply new_best_wf].
  - assert (W : op_wf (set_node op node (fun n => n <| nd_seq := Some seq |>))) by by apply wf_set_other. cbv zeta.
    destruct (op_best _) as [[? ?]|]; [|by apply new_best_wf]. destruct (_ <=? _); [by apply wf_best_nodes|by apply new_best_wf].
Qed.
Lemma reply_handle_wf cl op i r buf err from tx now :
  op_wf op -> op_reqs op !! i = Some (Some r) -> res_wf (reply_handle cl op i r buf err from tx now).
Proof.
  intros H Hi. unfold reply_handle.
  assert (W : forall s, op_wf (set_node (req_drop op i) (rq_node r) (fun nd => nd <| nd_state := s |>))) by (intros s; by apply wf_close).
  destruct (bool_decide _); [apply op_step_wf; destruct err; [apply W|]; eapply wf_ext; [| |apply (W B44_NODE_STORED)]; done|].
  destruct err; [apply op_step_wf, W|]. specialize (W B44_NODE_REPLIED). destruct (benc_dict_find buf _) as [rdict|]; [|by apply op_step_wf].
  cbv zeta. set (op1 := set_node (req_drop op i) _ _) in *. set (op2 := match (_ ≫= _) with Some _ => _ | None => _ end).
  assert (W2 : op_wf op2). { unfold op2. destruct (_ ≫= _); [|done]. destruct (_ <=? _)%nat; [by apply wf_set_other|done]. }
  set (op3 := if op_put op2 then _ else _). assert (W3 : op_wf op3) by (unfold op3; destruct (op_put op2); [done|by apply value_check_wf]).
  clearbody op3. clear op1 op2 W W2. set (cl3 := pin_learn_id _ _ _ _). clearbody cl3.
  set (more := fun (v6 : bool) (k : string) (cl : b44_client) (op : b44_op) =>
     if op_direct op then (cl, op) else match benc_dict_find rdict (cstr k) ≫= benc_str_get with
     | Some data => nodes_compact_add cl op data v6 now | None => (cl, op) end).
  assert (M : forall v6 k cl op, op_wf op -> op_wf (more v6 k cl op).2).
  { intros v6 k c o Ho. unfold more. destruct (op_direct o); [done|]. destruct (benc_dict_find rdict (cstr k) ≫= benc_str_get); [by apply compact_add_wf|done]. }
  change (res_wf (let '(cl, op) := more false "nodes" cl3 op3 in let '(cl, op) := more true "nodes6" cl op in op_step cl op tx now)).
  specialize (M false "nodes" cl3 op3 W3) as M1. destruct (more false "nodes" cl3 op3) as [cl4 op4]. cbn in M1.
  specialize (M true "nodes6" cl4 op4 M1) as M2. destruct (more true "nodes6" cl4 op4) as [cl5 op5]. by apply op_step_wf.
Qed.

(** ** The engine *)

(** What its user calls on it, and what the sockets bring. *)
Inductive engine_call :=
| CBootstrap (sa : sockaddr)
| CSeed (id : option bytes) (sa : sockaddr)
| CPin (id : option bytes) (sa : sockaddr)
| CUnpin (sa : sockaddr)
| CServe (enable : bool) (r0 r1 : option bytes)
| CPut (sk pk salt v : bytes) (seq cas : Z)
| CUpdate (sk pk salt : bytes) (merge : merge_fn) (direct : bool)
| CGet (pk salt : bytes) (direct : bool)
| CPutImmutable (v : bytes)
| CGetImmutable (target : bytes)
| CInput (buf : bytes) (from : option sockaddr)
| CPeriodic (fresh : option bytes) (timeout_ms : Z).
Definition or_refused (e : bep44_engine) (r : option (bep44_engine * list output)) : bep44_engine * list output := default (e, []) r.
Definition on_client (e : bep44_engine) (cl : b44_client) : bep44_engine * list output := (mk_engine cl (en_bans e) (en_ops e), []).
Definition engine_run1 (e : bep44_engine) (c : engine_call) (tx : sockaddr -> bool) (now : Z) : bep44_engine * list output :=
  match c with
  | CBootstrap sa => on_client e (bep44_bootstrap_add (en_cl e) sa).1
  | CSeed id sa => on_client e (bep44_seed_add (en_cl e) id sa)
  | CPin id sa => on_client e (bep44_pin_add (en_cl e) id sa now).1
  | CUnpin sa => on_client e (bep44_pin_del (en_cl e) sa)
  | CServe b r0 r1 => ((engine_serve e b r0 r1 now).1, [])
  | CPut sk pk salt v seq cas => or_refused e (bep44_put e sk pk salt v seq cas tx now)
  | CUpdate sk pk salt m d => or_refused e (update_impl e sk pk salt m d tx now)
  | CGet pk salt d => or_refused e (get_impl e pk salt d tx now)
  | CPutImmutable v => or_refused e (bep44_put_immutable e v tx now)
  | CGetImmutable t => bep44_get_immutable e t tx now
  | CInput buf from => let '(e, _, out) := bep44_input e buf from tx now in (e, out)
  | CPeriodic fresh t => let '(e, _, _, out) := bep44_periodic e fresh t tx now in (e, out)
  end.
Fixpoint engine_run (e : bep44_engine) (l : list (engine_call * (sockaddr -> bool) * Z)) : bep44_engine * list output :=
  match l with
  | [] => (e, [])
  | (c, tx, now) :: l => let '(e, o) := engine_run1 e c tx now in let '(e, o') := engine_run e l in (e, o ++ o')
  end.
Definition engine_wf (e : bep44_engine) : Prop := Forall op_wf (en_ops e).

Lemma op_begin_wf e op tx now : engine_wf e -> op_wf op -> engine_wf (op_begin e op tx now).1.
Proof.
  intros He Ho. unfold op_begin. pose proof (op_step_wf (en_cl e) op tx now Ho) as W. destruct (op_step _ _ _ _) as [[cl [op'|]] out]; [by constructor|done].
Qed.
Lemma ops_after_wf ops k r : Forall op_wf ops -> (forall op, r = Some op -> op_wf op) -> Forall op_wf (ops_after ops k r).
Proof.
  intros H Hr. destruct r as [op|]; cbn.
  - apply Forall_insert; [done|by apply Hr].
  - rewrite <- (take_drop k ops) in H. apply Forall_app in H as [H1 H2]. apply Forall_app. split; [done|].
    replace (S k) with (k + 1)%nat by lia. rewrite <- drop_drop. by apply Forall_drop.
Qed.
Lemma find_req_wf ops tid from : forall k j op i r, Forall op_wf ops -> find_req ops tid from k = Some (j, op, i, r) ->
  op_wf op /\ op_reqs op !! i = Some (Some r).
Proof.
  induction ops as [|o ops IH]; intros k j op i r H; cbn; [done|]. inversion H; subst. destruct (find_index _ _) as [i0|]; [|by apply IH].
  destruct (op_reqs o !! i0) as [[r0|]|] eqn:E; try done. intros [= <- <- <- <-]. done.
Qed.
Lemma input_wf e buf from tx now : engine_wf e -> engine_wf (bep44_input e buf from tx now).1.1.
Proof.
  intros H. unfold bep44_input. destruct (benc_dict_find buf (cstr "y") ≫= benc_str_get) as [[|y [|]]|]; try done.
  destruct (y =? 113).
  - unfold query_handle. destruct (negb _); [done|]. destruct (query_method _); [|done]. destruct (addr_martian _); [done|].
    destruct (ban_ok _ _ _) as [bans ok]. destruct (negb ok); [done|]. by destruct (query_answer _ _ _ _ _).
  - destruct (negb _); [done|]. destruct (benc_dict_find buf (cstr "t") ≫= benc_str_get) as [t|]; [|done].
    repeat (case_match; try done). match goal with E : find_req _ _ _ _ = _ |- _ => apply find_req_wf in E as [Ho Hi]; [|exact H] end.
    pose proof (reply_handle_wf (en_cl e) _ _ _ buf (y =? 101) from tx now Ho Hi) as W.
    match goal with E : reply_handle _ _ _ _ _ _ _ _ _ = _ |- _ => rewrite E in W end. apply ops_after_wf; [exact H|].
    intros op ->. exact W.
Qed.
Lemma step_ops_wf ops tx now : forall cl, Forall op_wf ops -> Forall op_wf (step_ops cl ops tx now).1.2.
Proof.
  induction ops as [|op ops IH]; intros cl H; cbn; [done|]. inversion H as [|? ? Ho Hs]; subst.
  pose proof (op_step_wf cl op tx now Ho) as W. destruct (op_step cl op tx now) as [[cl1 r] o]. specialize (IH cl1 Hs).
  destruct (step_ops cl1 ops tx now) as [[cl2 ops2] o2]. cbn in *. destruct r; [by constructor|done].
Qed.
Lemma run1_wf e c tx now : engine_wf e -> engine_wf (engine_run1 e c tx now).1.
Proof.
  intros H. destruct c; cbn [engine_run1 on_client fst]; try done; unfold or_refused.
  - unfold engine_serve. by destruct (bep44_serve _ _ _ _ _).
  - unfold bep44_put. destruct (negb _); [done|]. destruct (op_create _ _ _ _ _ _) eqn:E; [|done]. apply op_create_wf in E. apply op_begin_wf; [done|by eapply wf_ext, E].
  - unfold update_impl. destruct (op_create _ _ _ _ _ _) eqn:E; [|done]. apply op_create_wf in E. apply op_begin_wf; [done|by eapply wf_ext, E].
  - unfold get_impl. destruct (op_create _ _ _ _ _ _) eqn:E; [|done]. apply op_create_wf in E. by apply op_begin_wf.
  - unfold bep44_put_immutable. destruct (negb _); [done|]. apply op_begin_wf; [done|]. eapply wf_ext; [| |apply op_new_wf]; done.
  - unfold bep44_get_immutable. apply op_begin_wf; [done|]. eapply wf_ext; [| |apply op_new_wf]; done.
  - pose proof (input_wf e buf from tx now H). by destruct (bep44_input _ _ _ _ _) as [[? ?] ?].
  - unfold bep44_periodic. cbv zeta. pose proof (step_ops_wf (en_ops e) tx now ((en_cl e) <| cl_serve := serve_periodic (cl_serve (en_cl e)) fresh now |>) H) as W.
    by destruct (step_ops _ _ _ _) as [[? ?] ?].
Qed.
Lemma run_wf l : forall e, engine_wf e -> engine_wf (engine_run e l).1.
Proof.
  induction l as [|[[c tx] now] l IH]; intros e H; cbn; [done|]. pose proof (run1_wf e c tx now H) as W.
  destruct (engine_run1 e c tx now) as [e1 o1]. specialize (IH e1 W). by destruct (engine_run e1 l).
Qed.

(** C22: whatever is called on an engine and whatever datagrams arrive, every operation it
    holds stays in shape: at most [B44_NODES_MAX] nodes in order of distance to the
    target, and every request in flight names a node of the list that is waiting for it,
    no two the same one, although nodes are inserted before it all the time. *)
Theorem engine_ops_wf myid s4 s6 total l : engine_wf (engine_run (bep44_create myid s4 s6 total) l).1.
Proof. apply run_wf. constructor. Qed.
End Reply.
