(* ===== verification/Rdv.v ===== *)
(** src/src/rdv.c: the rendezvous exchange in the shared cell.  A host states who it
    is; a claimant takes the one turn of the cell with an offer; the host answers or
    refuses it there; the claimant takes the answer.  Here: the message codec, the
    host's table of claimants, and the claimant's side.

    A message is built with its payload, whose length is [payload_len].  The refusals
    and grades are the bytes the source keeps. *)
From S2P Require Import Prelude.

Definition RDV_VERSION : Z := 3.
Definition RDV_CID_LEN : nat := 8.
Definition RDV_MAX_PAYLOAD : nat := 760.
Definition RDV_HOST_PAYLOAD : nat := 64.
Definition RDV_HDR_LEN : nat := 1 + 1 + 4 + RDV_CID_LEN + RDV_CID_LEN + 4 + 4 + 2.
Definition RDV_MAX_MSG : nat := RDV_HDR_LEN + RDV_MAX_PAYLOAD.
Definition RDV_HOST_MAX : nat := 16.
Definition RDV_PREV_MAX : nat := 4.

Inductive rdv_kind := RDV_HOSTINFO | RDV_OFFER | RDV_ANSWER | RDV_REFUSE | RDV_TOMB.
#[export] Instance rdv_kind_dec : EqDecision rdv_kind.
Proof. solve_decision. Defined.
Definition kind_code (k : rdv_kind) : Z :=
  match k with RDV_HOSTINFO => 1 | RDV_OFFER => 2 | RDV_ANSWER => 3 | RDV_REFUSE => 4 | RDV_TOMB => 5 end.
(** [m->kind < RDV_HOSTINFO || m->kind > RDV_TOMB] is [None]. *)
Definition rdv_kind_of (b : Z) : option rdv_kind :=
  if b =? 1 then Some RDV_HOSTINFO else if b =? 2 then Some RDV_OFFER else if b =? 3 then Some RDV_ANSWER
  else if b =? 4 then Some RDV_REFUSE else if b =? 5 then Some RDV_TOMB else None.

Definition RDV_REFUSE_NONE : Z := 0.
Definition RDV_REFUSE_FULL : Z := 1.
Definition RDV_REFUSE_CLASH : Z := 2.

Record rdv_msg := mk_rdv { m_kind : rdv_kind; m_gen : Z; m_from : bytes; m_to : bytes; m_seq : Z; m_re : Z; m_payload : bytes }.
Definition rdv_zero : bytes := replicate RDV_CID_LEN 0.

Definition put32 (v : Z) : bytes := be_put 4 v.
Definition get32 (p : bytes) : Z := be_get (take 4 p).

(** ** The codec *)
Definition rdv_encode (m : rdv_msg) (max : nat) : option bytes :=
  if (RDV_MAX_PAYLOAD <? length (m_payload m))%nat then None
  else if (max <? RDV_HDR_LEN + length (m_payload m))%nat then None
  else Some ([RDV_VERSION; kind_code (m_kind m)] ++ put32 (m_gen m) ++ m_from m ++ m_to m ++ put32 (m_seq m) ++ put32 (m_re m)
             ++ be_put 2 (Z.of_nat (length (m_payload m))) ++ m_payload m).

Inductive rdv_decoded := DecOk (m : rdv_msg) | DecBad | DecVersion.
Definition rdv_decode (inp : bytes) : rdv_decoded :=
  match inp with
  | [] => DecBad
  | v :: _ =>
      if negb (v =? RDV_VERSION) then DecVersion
      else if (length inp <? RDV_HDR_LEN)%nat then DecBad
      else
        match rdv_kind_of (nth 1 inp 0) with
        | None => DecBad
        | Some k =>
            let plen := Z.to_nat ((nth 30 inp 0 << 8) .| nth 31 inp 0) in
            if (RDV_MAX_PAYLOAD <? plen)%nat || negb (32 + plen =? length inp)%nat then DecBad
            else DecOk (mk_rdv k (get32 (drop 2 inp)) (slice 6 8 inp) (slice 14 8 inp) (get32 (drop 22 inp)) (get32 (drop 26 inp))
                          (drop 32 inp))
        end
  end.

Definition rdv_addressed_to (to cid : bytes) : bool := if bytes_eqb to rdv_zero then true else bytes_eqb to cid.

Inductive rdv_seal := RDV_SEAL_INFO | RDV_SEAL_CLASS.
#[export] Instance rdv_seal_dec : EqDecision rdv_seal.
Proof. solve_decision. Defined.
Record rdv_out := mk_out { o_msg : bytes; o_seal : rdv_seal }.

(** ** The host *)
Inductive rdv_cstate := RDV_C_FREE | RDV_C_HARVESTED | RDV_C_ANSWERED | RDV_C_REFUSED | RDV_C_GONE.
#[export] Instance rdv_cstate_dec : EqDecision rdv_cstate.
Proof. solve_decision. Defined.
Record rdv_claimant := mk_claimant {
  c_cid : bytes; c_last_seq : Z; c_answer_re : Z; c_state : rdv_cstate; c_have_seq : bool; c_pending : bool; c_holds : bool;
  c_wide_ask : bool; c_refusal : Z; c_grade : Z; c_answer : bytes
}.
Definition claimant_zero : rdv_claimant := mk_claimant rdv_zero 0 0 RDV_C_FREE false false false false 0 0 [].
Definition claimant_eta (c : rdv_claimant) : rdv_claimant :=
  mk_claimant (c_cid c) (c_last_seq c) (c_answer_re c) (c_state c) (c_have_seq c) (c_pending c) (c_holds c) (c_wide_ask c)
    (c_refusal c) (c_grade c) (c_answer c).
#[export] Instance set_c_last_seq : Setter c_last_seq := ltac:(solve_setter claimant_eta).
#[export] Instance set_c_answer_re : Setter c_answer_re := ltac:(solve_setter claimant_eta).
#[export] Instance set_c_state : Setter c_state := ltac:(solve_setter claimant_eta).
#[export] Instance set_c_have_seq : Setter c_have_seq := ltac:(solve_setter claimant_eta).
#[export] Instance set_c_pending : Setter c_pending := ltac:(solve_setter claimant_eta).
#[export] Instance set_c_holds : Setter c_holds := ltac:(solve_setter claimant_eta).
#[export] Instance set_c_wide_ask : Setter c_wide_ask := ltac:(solve_setter claimant_eta).
#[export] Instance set_c_refusal : Setter c_refusal := ltac:(solve_setter claimant_eta).
#[export] Instance set_c_grade : Setter c_grade := ltac:(solve_setter claimant_eta).
#[export] Instance set_c_answer : Setter c_answer := ltac:(solve_setter claimant_eta).

Record rdv_host := mk_host {
  h_cid : bytes; h_gen : Z; h_seq : Z; h_grant : Z; h_answered : Z; h_c : list rdv_claimant; h_info_pending : bool;
  h_turn_spent : bool; h_gone : bool
}.
Definition host_eta (h : rdv_host) : rdv_host :=
  mk_host (h_cid h) (h_gen h) (h_seq h) (h_grant h) (h_answered h) (h_c h) (h_info_pending h) (h_turn_spent h) (h_gone h).
#[export] Instance set_h_gen : Setter h_gen := ltac:(solve_setter host_eta).
#[export] Instance set_h_seq : Setter h_seq := ltac:(solve_setter host_eta).
#[export] Instance set_h_answered : Setter h_answered := ltac:(solve_setter host_eta).
#[export] Instance set_h_c : Setter h_c := ltac:(solve_setter host_eta).
#[export] Instance set_h_info_pending : Setter h_info_pending := ltac:(solve_setter host_eta).
#[export] Instance set_h_turn_spent : Setter h_turn_spent := ltac:(solve_setter host_eta).
#[export] Instance set_h_gone : Setter h_gone := ltac:(solve_setter host_eta).

Definition rdv_host_init (cid : bytes) (gen grant : Z) : rdv_host :=
  mk_host cid gen 0 grant 0 (replicate RDV_HOST_MAX claimant_zero) true false false.
Definition rdv_host_set_gen (h : rdv_host) (gen : Z) : rdv_host :=
  if gen =? h_gen h then h else h <| h_gen := gen |> <| h_info_pending := true |>.
Definition rdv_host_entomb (h : rdv_host) : rdv_host := h <| h_gone := true |> <| h_info_pending := true |>.

(** The first slot that satisfies a test. *)
Fixpoint first_c (p : rdv_claimant -> bool) (l : list rdv_claimant) (i : nat) : option nat :=
  match l with [] => None | c :: l => if p c then Some i else first_c p l (S i) end.
Definition in_state (s : rdv_cstate) (c : rdv_claimant) : bool := bool_decide (c_state c = s).
Definition c_named (cid : bytes) (c : rdv_claimant) : bool := negb (in_state RDV_C_FREE c) && bytes_eqb (c_cid c) cid.
Definition c_at (h : rdv_host) (i : nat) : rdv_claimant := nth i (h_c h) claimant_zero.
Definition set_c (h : rdv_host) (i : nat) (c : rdv_claimant) : rdv_host := h <| h_c := <[i := c]> (h_c h) |>.

Definition rdv_host_find (h : rdv_host) (cid : bytes) : option nat := first_c (c_named cid) (h_c h) 0.
Definition host_evict (h : rdv_host) (s : rdv_cstate) : option nat := first_c (in_state s) (h_c h) 0.
Definition host_admit (h : rdv_host) (cid : bytes) : option (rdv_host * nat) :=
  match rdv_host_find h cid with
  | Some i => Some (h, i)
  | None =>
      let slot := match host_evict h RDV_C_FREE with
                  | Some i => Some i
                  | None => match host_evict h RDV_C_GONE with Some i => Some i | None => host_evict h RDV_C_REFUSED end
                  end in
      match slot with
      | None => None
      | Some i => Some (set_c h i (mk_claimant cid 0 0 RDV_C_HARVESTED false false false false 0 0 []), i)
      end
  end.
Fixpoint stands_from (l : list rdv_claimant) (i skip : nat) : bool :=
  match l with [] => false | c :: l => (negb (i =? skip)%nat && c_holds c) || stands_from l (S i) skip end.
Definition answer_stands (h : rdv_host) (skip : nat) : bool := stands_from (h_c h) 0 skip.
Definition rdv_host_turn_spent (h : rdv_host) : bool := h_turn_spent h.
Definition rdv_host_turn_kept (h : rdv_host) : rdv_host := h <| h_turn_spent := false |>.
Definition rdv_host_busy (h : rdv_host) : bool :=
  existsb (fun c => in_state RDV_C_HARVESTED c || c_pending c || c_holds c) (h_c h).

Definition rdv_host_release (h : rdv_host) (cid : bytes) : rdv_host :=
  let owe h := h <| h_info_pending := true |> <| h_turn_spent := true |> in
  match rdv_host_find h cid with
  | None => owe h
  | Some i => let h := set_c h i ((c_at h i) <| c_holds := false |>) in if c_pending (c_at h i) then h else owe h
  end.
Definition clear_holds (l : list rdv_claimant) : list rdv_claimant := map (fun c => c <| c_holds := false |>) l.
Definition less_answered (h : rdv_host) : rdv_host := h <| h_answered := if 0 <? h_answered h then h_answered h - 1 else h_answered h |>.

(** The verdict is whether the offer is new. *)
Definition rdv_host_slot (h : rdv_host) (m : rdv_msg) : rdv_host * bool :=
  if negb (bool_decide (m_kind m = RDV_OFFER)) then (h, false)
  else if bytes_eqb (m_from m) rdv_zero then (h, false)
  else if negb (rdv_addressed_to (m_to m) (h_cid h)) then (h, false)
  else
    match host_admit h (m_from m) with
    | None => (h, false)
    | Some (h, i) =>
        let c := c_at h i in
        if c_have_seq c && (m_seq m <=? c_last_seq c) then (h, false)
        else
          let h := set_c h i (c <| c_last_seq := m_seq m |> <| c_have_seq := true |>) in
          let h := h <| h_turn_spent := false |> <| h_c := clear_holds (h_c h) |> in
          let h := if in_state RDV_C_ANSWERED (c_at h i) then less_answered (set_c h i ((c_at h i) <| c_state := RDV_C_HARVESTED |>)) else h in
          let h := if in_state RDV_C_GONE (c_at h i) || in_state RDV_C_REFUSED (c_at h i)
                   then set_c h i ((c_at h i) <| c_state := RDV_C_HARVESTED |>) else h in
          if truth (h_grant h) && (h_grant h <=? h_answered h) then
            (set_c h i ((c_at h i) <| c_state := RDV_C_REFUSED |> <| c_refusal := RDV_REFUSE_FULL |> <| c_pending := true |>
                          <| c_answer_re := c_last_seq (c_at h i) |>), false)
          else (h, true)
    end.
Definition rdv_host_answer (h : rdv_host) (cid payload : bytes) : rdv_host :=
  match rdv_host_find h cid with
  | None => h
  | Some i =>
      if (RDV_MAX_PAYLOAD <? length payload)%nat then h
      else
        let c := c_at h i in
        let h := if in_state RDV_C_ANSWERED c then h else h <| h_answered := h_answered h + 1 |> in
        set_c h i (c <| c_state := RDV_C_ANSWERED |> <| c_refusal := RDV_REFUSE_NONE |> <| c_pending := true |>
                     <| c_answer_re := c_last_seq c |> <| c_answer := payload |>)
  end.
Definition rdv_host_unsent (h : rdv_host) (cid : bytes) : rdv_host :=
  match rdv_host_find h cid with
  | None => h
  | Some i => if in_state RDV_C_GONE (c_at h i) then h else set_c h i ((c_at h i) <| c_pending := true |> <| c_holds := false |>)
  end.
Definition rdv_host_refuse (h : rdv_host) (cid : bytes) (reason : Z) : rdv_host :=
  match rdv_host_find h cid with
  | None => h
  | Some i =>
      let c := c_at h i in
      let h := if in_state RDV_C_ANSWERED c then less_answered h else h in
      set_c h i (c <| c_state := RDV_C_REFUSED |> <| c_refusal := u8 reason |> <| c_pending := true |> <| c_answer_re := c_last_seq c |>
                   <| c_answer := [] |>)
  end.
Definition rdv_host_keep (h : rdv_host) (cid : bytes) : rdv_host :=
  match rdv_host_find h cid with
  | None => h
  | Some i =>
      let c := c_at h i in
      if in_state RDV_C_GONE c then h
      else if negb (in_state RDV_C_REFUSED c) && bool_decide (c_answer c = []) then h
      else
        let h := if in_state RDV_C_ANSWERED c then h else h <| h_answered := h_answered h + 1 |> in
        let c := c <| c_state := RDV_C_ANSWERED |> in
        let c := if c_pending c then c else c <| c_pending := negb (c_holds c) |> in
        set_c h i (if c_pending c then c <| c_answer_re := c_last_seq c |> else c)
  end.
Definition rdv_host_forget (h : rdv_host) (cid : bytes) : rdv_host :=
  match rdv_host_find h cid with
  | None => h
  | Some i =>
      let c := c_at h i in
      let h := if in_state RDV_C_ANSWERED c then less_answered h else h in
      (set_c h i (c <| c_state := RDV_C_GONE |> <| c_pending := false |> <| c_holds := false |> <| c_answer := [] |>))
        <| h_info_pending := true |> <| h_turn_spent := true |>
  end.

(** The statement the claimant in slot [i] is owed. *)
Definition owed_msg (h : rdv_host) (c : rdv_claimant) (seq : Z) : rdv_msg :=
  if in_state RDV_C_REFUSED c then mk_rdv RDV_REFUSE (h_gen h) (h_cid h) (c_cid c) seq (c_answer_re c) [c_refusal c]
  else mk_rdv RDV_ANSWER (h_gen h) (h_cid h) (c_cid c) seq (c_answer_re c) (c_answer c).
Fixpoint first_owed (h : rdv_host) (l : list rdv_claimant) (i : nat) : option nat :=
  match l with
  | [] => None
  | c :: l => if negb (c_pending c) || answer_stands h i then first_owed h l (S i) else Some i
  end.
(** A statement that does not encode leaves its number used. *)
Definition rdv_host_next (h : rdv_host) (info : bytes) : rdv_host * option rdv_out :=
  let seq := u32 (h_seq h + 1) in
  if h_info_pending h then
    if (RDV_HOST_PAYLOAD <? length info)%nat then (h, None)
    else
      let h := h <| h_seq := seq |> in
      match rdv_encode (mk_rdv (if h_gone h then RDV_TOMB else RDV_HOSTINFO) (h_gen h) (h_cid h) rdv_zero seq 0 info) RDV_MAX_MSG with
      | None => (h, None)
      | Some msg => (h <| h_info_pending := false |>, Some (mk_out msg RDV_SEAL_INFO))
      end
  else
    match first_owed h (h_c h) 0 with
    | None => (h, None)
    | Some i =>
        let c := c_at h i in
        let h := h <| h_seq := seq |> in
        match rdv_encode (owed_msg h c seq) RDV_MAX_MSG with
        | None => (h, None)
        | Some msg => (set_c h i (c <| c_pending := false |> <| c_holds := true |>), Some (mk_out msg RDV_SEAL_CLASS))
        end
    end.

(** ** The claimant *)
Inductive rdv_clstate := RDV_CL_ANNOUNCING | RDV_CL_OFFERED | RDV_CL_ANSWERED | RDV_CL_REFUSED.
#[export] Instance rdv_clstate_dec : EqDecision rdv_clstate.
Proof. solve_decision. Defined.
(** [k_prev] are [prev_cid[0 .. nprev)]. *)
Record rdv_client := mk_client_ {
  k_cid : bytes; k_host_cid : bytes; k_prev : list bytes; k_hseq : Z; k_host_gen : Z; k_seq : Z; k_offer_seq : Z; k_prev_offer_seq : Z;
  k_answer_seq : Z; k_state : rdv_clstate; k_have_host : bool; k_have_answer_seq : bool; k_live : bool; k_reask : bool; k_refusal : Z;
  k_host_gone : bool; k_offer : bytes; k_answer : bytes
}.
Definition client_eta (c : rdv_client) : rdv_client :=
  mk_client_ (k_cid c) (k_host_cid c) (k_prev c) (k_hseq c) (k_host_gen c) (k_seq c) (k_offer_seq c) (k_prev_offer_seq c)
    (k_answer_seq c) (k_state c) (k_have_host c) (k_have_answer_seq c) (k_live c) (k_reask c) (k_refusal c) (k_host_gone c)
    (k_offer c) (k_answer c).
#[export] Instance set_k_host_cid : Setter k_host_cid := ltac:(solve_setter client_eta).
#[export] Instance set_k_prev : Setter k_prev := ltac:(solve_setter client_eta).
#[export] Instance set_k_hseq : Setter k_hseq := ltac:(solve_setter client_eta).
#[export] Instance set_k_host_gen : Setter k_host_gen := ltac:(solve_setter client_eta).
#[export] Instance set_k_seq : Setter k_seq := ltac:(solve_setter client_eta).
#[export] Instance set_k_offer_seq : Setter k_offer_seq := ltac:(solve_setter client_eta).
#[export] Instance set_k_prev_offer_seq : Setter k_prev_offer_seq := ltac:(solve_setter client_eta).
#[export] Instance set_k_answer_seq : Setter k_answer_seq := ltac:(solve_setter client_eta).
#[export] Instance set_k_state : Setter k_state := ltac:(solve_setter client_eta).
#[export] Instance set_k_have_host : Setter k_have_host := ltac:(solve_setter client_eta).
#[export] Instance set_k_have_answer_seq : Setter k_have_answer_seq := ltac:(solve_setter client_eta).
#[export] Instance set_k_live : Setter k_live := ltac:(solve_setter client_eta).
#[export] Instance set_k_reask : Setter k_reask := ltac:(solve_setter client_eta).
#[export] Instance set_k_refusal : Setter k_refusal := ltac:(solve_setter client_eta).
#[export] Instance set_k_host_gone : Setter k_host_gone := ltac:(solve_setter client_eta).
#[export] Instance set_k_offer : Setter k_offer := ltac:(solve_setter client_eta).
#[export] Instance set_k_answer : Setter k_answer := ltac:(solve_setter client_eta).

Definition rdv_client_init (cid : bytes) : rdv_client :=
  mk_client_ cid rdv_zero [] (-1) 0 0 0 0 0 RDV_CL_ANNOUNCING false false false false 0 false [] [].
Definition client_knew (c : rdv_client) (cid : bytes) : bool :=
  (k_have_host c && bytes_eqb (k_host_cid c) cid) || existsb (fun p => bytes_eqb p cid) (k_prev c).
Definition client_copy_acts (c : rdv_client) (m : rdv_msg) (seq : Z) : rdv_client * bool :=
  if (0 <=? seq) && (seq <? k_hseq c) && client_knew c (m_from m) then (c, false)
  else (if k_hseq c <? seq then c <| k_hseq := seq |> else c, true).
(** [prev_cid[nprev % RDV_PREV_MAX]], and [nprev] up to its bound. *)
Definition prev_push (l : list bytes) (cid : bytes) : list bytes :=
  if (length l <? RDV_PREV_MAX)%nat then l ++ [cid] else <[(length l mod RDV_PREV_MAX)%nat := cid]> l.

Inductive host_word := HostNothing | HostStale | HostMoved.
Definition rdv_client_host_slot (c : rdv_client) (m : rdv_msg) (seq : Z) : rdv_client * host_word :=
  if negb (bool_decide (m_kind m = RDV_TOMB)) && negb (bool_decide (m_kind m = RDV_HOSTINFO)) then (c, HostNothing)
  else if bytes_eqb (m_from m) rdv_zero then (c, HostNothing)
  else
    let '(c, acts) := client_copy_acts c m seq in
    if negb acts then (c, HostStale)
    else if bool_decide (m_kind m = RDV_TOMB) then (c <| k_host_gone := true |>, HostNothing)
    else
      let c := c <| k_host_gone := false |> in
      if k_have_host c && bytes_eqb (k_host_cid c) (m_from m) && (m_gen m =? k_host_gen c) then (c, HostNothing)
      else
        let c := if k_have_host c && negb (bytes_eqb (k_host_cid c) (m_from m))
                 then c <| k_prev := prev_push (k_prev c) (k_host_cid c) |> <| k_have_answer_seq := false |> else c in
        (c <| k_host_cid := m_from m |> <| k_host_gen := m_gen m |> <| k_have_host := true |> <| k_state := RDV_CL_ANNOUNCING |>
           <| k_answer := [] |> <| k_offer_seq := 0 |> <| k_refusal := RDV_REFUSE_NONE |>, HostMoved).

Definition rdv_client_ask_gone (c : rdv_client) (seq : Z) : rdv_client :=
  if (0 <=? seq) && (seq <? k_hseq c) then c
  else if bool_decide (k_state c = RDV_CL_OFFERED) then c <| k_reask := true |> else c.

Inductive rdv_take :=
| RDV_TAKE_OK | RDV_TAKE_NOT_AN_ANSWER | RDV_TAKE_ADDRESSED_ELSEWHERE | RDV_TAKE_ANOTHER_HOST | RDV_TAKE_NOTHING_ASKED
| RDV_TAKE_ANOTHER_OFFER | RDV_TAKE_ALREADY_TAKEN.
#[export] Instance rdv_take_dec : EqDecision rdv_take.
Proof. solve_decision. Defined.
Definition rdv_client_refusal (c : rdv_client) (m : rdv_msg) : rdv_take :=
  if negb (bool_decide (m_kind m = RDV_ANSWER)) && negb (bool_decide (m_kind m = RDV_REFUSE)) then RDV_TAKE_NOT_AN_ANSWER
  else if negb (rdv_addressed_to (m_to m) (k_cid c)) || negb (bytes_eqb (m_to m) (k_cid c)) then RDV_TAKE_ADDRESSED_ELSEWHERE
  else if k_have_host c && negb (bytes_eqb (m_from m) (k_host_cid c)) then RDV_TAKE_ANOTHER_HOST
  else if negb (truth (k_offer_seq c)) then RDV_TAKE_NOTHING_ASKED
  else if negb (m_re m =? k_offer_seq c) && negb (truth (k_prev_offer_seq c) && (m_re m =? k_prev_offer_seq c)) then RDV_TAKE_ANOTHER_OFFER
  else if k_have_answer_seq c && (m_seq m <=? k_answer_seq c) then RDV_TAKE_ALREADY_TAKEN
  else RDV_TAKE_OK.
Definition rdv_client_would_take (c : rdv_client) (m : rdv_msg) : bool := bool_decide (rdv_client_refusal c m = RDV_TAKE_OK).
(** [None]: the statement could not be opened. *)
Definition rdv_client_may_replace (c : option rdv_client) (m : option rdv_msg) : bool :=
  match c with
  | None => false
  | Some c =>
      match m with
      | None => true
      | Some m =>
          if bytes_eqb (m_from m) (k_cid c) then negb (m_seq m =? k_offer_seq c)
          else if negb (k_have_host c) || negb (bytes_eqb (m_from m) (k_host_cid c)) then true
          else negb (rdv_client_would_take c m)
      end
  end.
Definition rdv_client_own_slot (c : rdv_client) (m : rdv_msg) : rdv_client * bool :=
  if negb (rdv_client_would_take c m) then (c, false)
  else
    let c := c <| k_answer_seq := m_seq m |> <| k_have_answer_seq := true |> in
    if bool_decide (m_kind m = RDV_REFUSE) then
      (c <| k_state := RDV_CL_REFUSED |> <| k_refusal := match m_payload m with b :: _ => b | [] => RDV_REFUSE_NONE end |>
         <| k_answer := [] |>, true)
    else (c <| k_state := RDV_CL_ANSWERED |> <| k_refusal := RDV_REFUSE_NONE |> <| k_answer := m_payload m |>, true).
Definition rdv_client_answer_unusable (c : rdv_client) (m : rdv_msg) : rdv_client :=
  if negb (rdv_client_would_take c m) then c
  else c <| k_answer_seq := m_seq m |> <| k_have_answer_seq := true |> <| k_answer := [] |> <| k_reask := true |>.
Definition rdv_client_ident_changed (c : rdv_client) : rdv_client := c <| k_prev_offer_seq := 0 |>.
Definition rdv_client_reask (c : rdv_client) : rdv_client := c <| k_reask := true |>.
Definition rdv_client_set_live (c : rdv_client) (live : bool) : rdv_client :=
  let c := c <| k_live := live |> in
  if negb live && bool_decide (k_state c = RDV_CL_ANSWERED) then c <| k_state := RDV_CL_ANNOUNCING |> else c.

(** The number the offer goes under. *)
Definition offer_seq (c : rdv_client) (offer : bytes) : rdv_client * Z :=
  if negb (k_reask c) && truth (k_offer_seq c) && bytes_eqb (k_offer c) offer then (c, k_offer_seq c)
  else
    let seq := u32 (k_seq c + 1) in
    (c <| k_reask := false |> <| k_offer := offer |> <| k_prev_offer_seq := k_offer_seq c |> <| k_seq := seq |> <| k_offer_seq := seq |>, seq).
Definition rdv_client_next (c : rdv_client) (offer : bytes) : rdv_client * option rdv_out :=
  if k_live c || bool_decide (k_state c = RDV_CL_REFUSED) || k_host_gone c then (c, None)
  else if bool_decide (k_state c = RDV_CL_ANSWERED) then (c, None)
  else if negb (k_have_host c) then (c, None)
  else if (RDV_MAX_PAYLOAD <? length offer)%nat then (c, None)
  else
    let '(c, seq) := offer_seq c offer in
    match rdv_encode (mk_rdv RDV_OFFER (k_host_gen c) (k_cid c) (k_host_cid c) seq 0 offer) RDV_MAX_MSG with
    | None => (c, None)
    | Some msg => (c <| k_state := RDV_CL_OFFERED |>, Some (mk_out msg RDV_SEAL_CLASS))
    end.

(** ** Lemmas: the codec *)
Record msg_ok (m : rdv_msg) : Prop := {
  mo_gen : is_u32 (m_gen m); mo_seq : is_u32 (m_seq m); mo_re : is_u32 (m_re m);
  mo_from : length (m_from m) = RDV_CID_LEN; mo_to : length (m_to m) = RDV_CID_LEN;
  mo_payload : (length (m_payload m) <= RDV_MAX_PAYLOAD)%nat
}.
Lemma kind_of_code k : rdv_kind_of (kind_code k) = Some k.
Proof. by destruct k. Qed.
Lemma kind_code_of b k : rdv_kind_of b = Some k -> kind_code k = b.
Proof. unfold rdv_kind_of. bool_cases; intros [= <-]; done. Qed.
Lemma get32_put v l : is_u32 v -> get32 (put32 v ++ l) = v.
Proof.
  intros H. unfold get32, put32. rewrite take_app_length' by (symmetry; apply be_put_length). rewrite be_get_put. apply Z.mod_small. exact H.
Qed.
Lemma be_get2 a b : be_get [a; b] = (a << 8) .| b.
Proof. done. Qed.
Lemma list8 (l : bytes) : length l = 8%nat -> exists a b c d e f g h, l = [a; b; c; d; e; f; g; h].
Proof.
  intros H. do 8 (destruct l as [|? l]; [done|]). destruct l; [|done]. repeat eexists.
Qed.
Lemma decode_encode m max msg : msg_ok m -> rdv_encode m max = Some msg -> rdv_decode msg = DecOk m.
Proof.
  intros [Hg Hs Hr Hf Ht Hp]. unfold rdv_encode. destruct (Nat.ltb_spec RDV_MAX_PAYLOAD (length (m_payload m))); [done|].
  destruct (_ <? _)%nat; [done|]. intros [= <-]. destruct m as [k gen from to seq re p]. cbn [m_kind m_gen m_from m_to m_seq m_re m_payload] in *.
  destruct (list8 from Hf) as (f0 & f1 & f2 & f3 & f4 & f5 & f6 & f7 & ->). destruct (list8 to Ht) as (t0 & t1 & t2 & t3 & t4 & t5 & t6 & t7 & ->).
  pose proof (get32_put gen) as G1. pose proof (get32_put seq) as G2. pose proof (get32_put re) as G3.
  pose proof (be_get_put 2 (Z.of_nat (length p))) as Hl. rewrite Z.mod_small in Hl by (unfold RDV_MAX_PAYLOAD in *; lia).
  unfold put32 in *. cbn [be_put app] in *. rewrite be_get2 in Hl. unfold rdv_decode. cbn [Z.eqb negb RDV_VERSION Pos.eqb length nth]. rewrite kind_of_code.
  rewrite Hl, Nat2Z.id. match goal with |- context [(?a <? RDV_HDR_LEN)%nat] => destruct (Nat.ltb_spec a RDV_HDR_LEN) as [Hh|_] end;
    [unfold RDV_HDR_LEN, RDV_CID_LEN in Hh; lia|].
  destruct (Nat.ltb_spec RDV_MAX_PAYLOAD (length p)); [lia|]. rewrite (proj2 (Nat.eqb_eq _ _)) by lia. cbn [orb negb drop].
  rewrite G1, G2, G3 by done. done.
Qed.
Lemma encode_decode inp m : bytes_ok inp -> rdv_decode inp = DecOk m -> msg_ok m /\ rdv_encode m RDV_MAX_MSG = Some inp.
Proof.
  intros Hb. unfold rdv_decode. destruct inp as [|v inp]; [done|]. destruct (Z.eqb_spec v RDV_VERSION) as [->|]; [cbn [negb]|done].
  destruct (Nat.ltb_spec (length (RDV_VERSION :: inp)) RDV_HDR_LEN) as [|Hl]; [done|].
  change RDV_HDR_LEN with 32%nat in *. cbn [length] in Hl. do 31 (destruct inp as [|? inp]; [cbn [length] in Hl; lia|]). clear Hl.
  cbn [nth]. destruct (rdv_kind_of z) as [k|] eqn:Ek; [|done]. set (pl := (z28 << 8) .| z29).
  destruct (Nat.ltb_spec RDV_MAX_PAYLOAD (Z.to_nat pl)) as [|Hp]; [done|]. cbn [orb length].
  match goal with |- context [negb (?a =? ?b)%nat] => destruct (Nat.eqb_spec a b) as [El|]; cbn [negb]; [|done] end. intros [= <-].
  unfold bytes_ok in Hb. rewrite !Forall_cons in Hb. destruct_and! Hb.
  match goal with H : Forall is_u8 inp |- _ => rename H into Hin end.
  assert (Hpl : pl = Z.of_nat (length inp)).
  { pose proof (be_get_range [z28; z29]) as Hr. rewrite be_get2 in Hr. fold pl in Hr. assert (0 <= pl) by (apply Hr; by forall_list). lia. }
  assert (W : forall a b c d, is_u8 a -> is_u8 b -> is_u8 c -> is_u8 d -> is_u32 (be_get [a; b; c; d])).
  { intros a b c d Ha Hb Hc Hd. apply (be_get_range [a; b; c; d]). by forall_list. }
  assert (P : forall a b c d, is_u8 a -> is_u8 b -> is_u8 c -> is_u8 d -> be_put 4 (be_get [a; b; c; d]) = [a; b; c; d]).
  { intros a b c d Ha Hb Hc Hd. apply (be_put_get [a; b; c; d]). by forall_list. }
  assert (E2 : be_put 2 pl = [z28; z29]). { unfold pl. rewrite <- be_get2. apply (be_put_get [z28; z29]). by forall_list. }
  clearbody pl. subst pl. rewrite Nat2Z.id in Hp. split; [by split; cbn; try (by apply W)|].
  unfold rdv_encode. cbn [m_kind m_gen m_from m_to m_seq m_re m_payload drop]. rewrite ?drop_0.
  destruct (Nat.ltb_spec RDV_MAX_PAYLOAD (length inp)) as [|_]; [lia|]. unfold RDV_MAX_MSG.
  match goal with |- context [(?a <? ?b)%nat] => destruct (Nat.ltb_spec a b) as [|_]; [lia|] end.
  unfold get32, put32, slice. cbn [drop take]. rewrite !P by done. by rewrite (kind_code_of _ _ Ek), E2.
Qed.

(** C18: the codec is exact: what encodes decodes to itself, and a buffer decodes exactly when it is
    the one encoding of a well-formed statement. *)
Theorem rdv_codec_exact inp m :
  bytes_ok inp -> (length (m_from m) = RDV_CID_LEN /\ length (m_to m) = RDV_CID_LEN /\ is_u32 (m_gen m) /\ is_u32 (m_seq m) /\ is_u32 (m_re m)) ->
  rdv_decode inp = DecOk m <-> rdv_encode m RDV_MAX_MSG = Some inp.
Proof.
  intros Hb (Hf & Ht & Hg & Hs & Hr). split; [by intros H; apply encode_decode|]. intros H. eapply decode_encode; [|exact H].
  split; try done. unfold rdv_encode in H. destruct (Nat.ltb_spec RDV_MAX_PAYLOAD (length (m_payload m))); [done|lia].
Qed.
Definition demo_cid : bytes := [1; 2; 3; 4; 5; 6; 7; 8].
Definition demo_stmt : rdv_msg := mk_rdv RDV_ANSWER 7 demo_cid (map (Z.add 16) demo_cid) 3 2 [9; 8].
Definition demo_wire : bytes := default [] (rdv_encode demo_stmt RDV_MAX_MSG).
Lemma rdv_codec_exact_witness : rdv_decode demo_wire = DecOk demo_stmt.
Proof. apply (rdv_codec_exact demo_wire demo_stmt); [vm_compute; by repeat constructor|split_and!; try done|reflexivity]. Defined.
