(* ===== verification/RdvWorld.v ===== *)
(** The rendezvous exchange of src/src/rdv.c between a host and its claimants.  What any of
    them ever stated may be read by any of them at any time, again and again and in any order,
    as the nodes that hold copies of the cell may serve them. *)
From S2P Require Import Prelude Rdv.

(** ** The host's table *)
Definition tally (c : rdv_claimant) : Z := if in_state RDV_C_ANSWERED c then 1 else 0.
Fixpoint answered_in (l : list rdv_claimant) : Z := match l with [] => 0 | c :: l => tally c + answered_in l end.
Definition used (c : rdv_claimant) : Prop := c_state c <> RDV_C_FREE.
Definition quiet_c (c : rdv_claimant) : Prop := c_pending c = false /\ c_holds c = false.
Record host_ok (h : rdv_host) : Prop := {
  ho_len : length (h_c h) = RDV_HOST_MAX;
  ho_answered : h_answered h = answered_in (h_c h);
  ho_one : forall i j c d, h_c h !! i = Some c -> h_c h !! j = Some d -> c_holds c = true -> c_holds d = true -> i = j;
  ho_uniq : forall i j c d, h_c h !! i = Some c -> h_c h !! j = Some d -> used c -> used d -> c_cid c = c_cid d -> i = j;
  ho_idle : forall i c, h_c h !! i = Some c -> c_state c = RDV_C_FREE \/ c_state c = RDV_C_GONE -> quiet_c c
}.

Inductive host_op :=
| HSetGen (gen : Z) | HEntomb | HTurnKept | HRelease (cid : bytes) | HSlot (m : rdv_msg) | HAnswer (cid payload : bytes)
| HUnsent (cid : bytes) | HRefuse (cid : bytes) (reason : Z) | HKeep (cid : bytes) | HForget (cid : bytes) | HNext (info : bytes).
Definition host_do (h : rdv_host) (o : host_op) : rdv_host :=
  match o with
  | HSetGen g => rdv_host_set_gen h g
  | HEntomb => rdv_host_entomb h
  | HTurnKept => rdv_host_turn_kept h
  | HRelease cid => rdv_host_release h cid
  | HSlot m => (rdv_host_slot h m).1
  | HAnswer cid p => rdv_host_answer h cid p
  | HUnsent cid => rdv_host_unsent h cid
  | HRefuse cid r => rdv_host_refuse h cid r
  | HKeep cid => rdv_host_keep h cid
  | HForget cid => rdv_host_forget h cid
  | HNext info => (rdv_host_next h info).1
  end.

(** *** Lemmas *)
Lemma answered_insert l i c c' : l !! i = Some c -> answered_in (<[i := c']> l) = answered_in l - tally c + tally c'.
Proof.
  revert i. induction l as [|x l IH]; intros [|i] H; try done.
  - injection H as ->. cbn. lia.
  - change (answered_in (<[S i := c']> (x :: l))) with (tally x + answered_in (<[i := c']> l)). rewrite (IH i H). change (answered_in (x :: l)) with (tally x + answered_in l). lia.
Qed.
Lemma answered_nonneg l : 0 <= answered_in l.
Proof. induction l as [|x l IH]; cbn; [lia|]. unfold tally. destruct (in_state _ _); lia. Qed.
Lemma answered_pos l i c : l !! i = Some c -> in_state RDV_C_ANSWERED c = true -> 0 < answered_in l.
Proof.
  revert i. induction l as [|x l IH]; intros [|i] H Hc; try done; cbn in *.
  - injection H as ->. unfold tally. rewrite Hc. pose proof (answered_nonneg l). lia.
  - specialize (IH i H Hc). unfold tally. destruct (in_state _ x); lia.
Qed.
Lemma in_state_true s c : in_state s c = true <-> c_state c = s.
Proof. apply bool_decide_eq_true. Qed.
Lemma first_c_some p l : forall i j, first_c p l i = Some j -> exists c, (i <= j)%nat /\ l !! (j - i)%nat = Some c /\ p c = true.
Proof.
  induction l as [|x l IH]; intros i j; cbn; [done|]. destruct (p x) eqn:Ep.
  - intros [= <-]. exists x. by rewrite Nat.sub_diag.
  - intros H. apply IH in H as (c & Hij & Hc & Hp). exists c. split; [lia|]. split; [|done]. by replace (j - i)%nat with (S (j - S i)) by lia.
Qed.
Lemma first_c_none p l : forall i, first_c p l i = None -> forall j c, l !! j = Some c -> p c = false.
Proof.
  induction l as [|x l IH]; intros i; cbn; [done|]. destruct (p x) eqn:Ep; [done|]. intros H [|j] c Hc; [by injection Hc as <-|by eapply IH].
Qed.
Lemma c_at_lookup h i c : h_c h !! i = Some c -> c_at h i = c.
Proof. intros H. by apply nth_lookup_Some. Qed.
Lemma find_spec h cid i : rdv_host_find h cid = Some i -> h_c h !! i = Some (c_at h i) /\ used (c_at h i) /\ c_cid (c_at h i) = cid.
Proof.
  intros H. apply first_c_some in H as (c & _ & Hc & Hp). rewrite Nat.sub_0_r in Hc. rewrite (c_at_lookup _ _ _ Hc). split; [done|].
  unfold c_named in Hp. apply andb_true_iff in Hp as [H1 H2]. apply bool_decide_eq_true in H2. split; [|done].
  intros E. apply negb_true_iff, bool_decide_eq_false in H1. done.
Qed.
(** One slot rewritten, the rest as it was. *)
Lemma set_ok h i c c' n :
  host_ok h -> h_c h !! i = Some c ->
  (used c' -> used c /\ c_cid c' = c_cid c \/ (forall j d, h_c h !! j = Some d -> used d -> c_cid d <> c_cid c')) ->
  (c_holds c' = true -> c_holds c = true \/ forall j d, h_c h !! j = Some d -> j <> i -> c_holds d = false) ->
  (c_state c' = RDV_C_FREE \/ c_state c' = RDV_C_GONE -> quiet_c c') ->
  n = h_answered h - tally c + tally c' ->
  host_ok ((set_c h i c') <| h_answered := n |>).
Proof.
  intros [H1 H2 H3 H4 H5] Hi Hu Hh Hq ->. assert (Hlt := lookup_lt_Some _ _ _ Hi).
  assert (L : forall j d, <[i := c']> (h_c h) !! j = Some d -> j = i /\ d = c' \/ j <> i /\ h_c h !! j = Some d).
  { intros j d Hj. destruct (decide (i = j)) as [->|Hn]; [rewrite list_lookup_insert_eq in Hj by done; left; by injection Hj|].
    rewrite list_lookup_insert_ne in Hj by done. auto. }
  split; cbn.
  - by rewrite length_insert.
  - rewrite (answered_insert _ _ _ _ Hi). lia.
  - intros j k d e Hj Hk Hd He. apply L in Hj as [[-> ->]|[Nj Hj]]; apply L in Hk as [[-> ->]|[Nk Hk]]; [done| | |by apply (H3 j k d e)].
    + destruct (Hh Hd) as [Hc|Hn]; [by apply (H3 i k c e)|rewrite (Hn k e Hk Nk) in He; done].
    + destruct (Hh He) as [Hc|Hn]; [by apply (H3 j i d c)|rewrite (Hn j d Hj Nj) in Hd; done].
  - intros j k d e Hj Hk Hd He E. apply L in Hj as [[-> ->]|[Nj Hj]]; apply L in Hk as [[-> ->]|[Nk Hk]]; [done| | |by apply (H4 j k d e)].
    + destruct (Hu Hd) as [[Hc Ec]|Hn]; [apply (H4 i k c e); congruence|exfalso; by apply (Hn k e Hk He)].
    + destruct (Hu He) as [[Hc Ec]|Hn]; [apply (H4 j i d c); congruence|exfalso; by apply (Hn j d Hj Hd)].
  - intros j d Hj. apply L in Hj as [[-> ->]|[Nj Hj]]; [done|by apply (H5 j)].
Qed.
(** What the host knows beside its table does not matter here. *)
Lemma host_ok_ext h h' : h_c h' = h_c h -> h_answered h' = h_answered h -> host_ok h -> host_ok h'.
Proof. intros E1 E2 [H1 H2 H3 H4 H5]. split; rewrite ?E1, ?E2; done. Qed.
Lemma init_host_ok cid gen grant : host_ok (rdv_host_init cid gen grant).
Proof.
  split; cbn; [done|done|..].
  - intros i j c d Hi Hj Hc. change (replicate RDV_HOST_MAX claimant_zero !! i = Some c) in Hi. apply lookup_replicate in Hi as [-> _]. done.
  - intros i j c d Hi Hj Hc. change (replicate RDV_HOST_MAX claimant_zero !! i = Some c) in Hi. apply lookup_replicate in Hi as [-> _]. by destruct Hc.
  - intros i c Hi _. change (replicate RDV_HOST_MAX claimant_zero !! i = Some c) in Hi. apply lookup_replicate in Hi as [-> _]. done.
Qed.
Lemma less_answered_eq h i c : host_ok h -> h_c h !! i = Some c -> in_state RDV_C_ANSWERED c = true ->
  (if 0 <? h_answered h then h_answered h - 1 else h_answered h) = h_answered h - 1.
Proof.
  intros H Hi Hc. pose proof (answered_pos _ _ _ Hi Hc). rewrite (ho_answered _ H). destruct (Z.ltb_spec 0 (answered_in (h_c h))); lia.
Qed.
Lemma tally_no c : c_state c <> RDV_C_ANSWERED -> tally c = 0.
Proof. intros H. unfold tally, in_state. by rewrite bool_decide_eq_false_2. Qed.
Lemma tally_yes c : c_state c = RDV_C_ANSWERED -> tally c = 1.
Proof. intros H. unfold tally, in_state. by rewrite H. Qed.
Lemma not_answered c : in_state RDV_C_ANSWERED c = false -> c_state c <> RDV_C_ANSWERED.
Proof. apply bool_decide_eq_false. Qed.
Lemma set_c_eta h i c : set_c h i c = (set_c h i c) <| h_answered := h_answered h |>.
Proof. by destruct h. Qed.
Lemma set_c_answered h i c n : set_c (h <| h_answered := n |>) i c = (set_c h i c) <| h_answered := n |>.
Proof. done. Qed.
(** A change that keeps the name, the state and takes nothing up. *)
Lemma set_same_ok h i c c' :
  host_ok h -> h_c h !! i = Some c -> c_cid c' = c_cid c -> c_state c' = c_state c -> (c_holds c' = true -> c_holds c = true) ->
  (c_pending c' = true -> c_pending c = true \/ c_state c <> RDV_C_FREE /\ c_state c <> RDV_C_GONE) -> host_ok (set_c h i c').
Proof.
  intros H Hi E1 E2 Eh Ep. rewrite set_c_eta. eapply set_ok; [done|exact Hi|..].
  - intros Hu. left. split; [|done]. unfold used in *. congruence.
  - intros Hh. left. by apply Eh.
  - intros Hs. rewrite E2 in Hs. destruct (ho_idle _ H i c Hi Hs) as [Q1 Q2]. split.
    + destruct (c_pending c'); [|done]. destruct (Ep eq_refl) as [?|[? ?]]; [congruence|naive_solver].
    + destruct (c_holds c'); [|done]. rewrite Eh in Q2; done.
  - unfold tally, in_state. rewrite E2. lia.
Qed.
(** A change to a state that may owe something. *)
Lemma set_state_ok h i c c' n :
  host_ok h -> h_c h !! i = Some c -> used c -> c_cid c' = c_cid c -> (c_holds c' = true -> c_holds c = true) ->
  (c_state c' = RDV_C_FREE \/ c_state c' = RDV_C_GONE -> quiet_c c') ->
  n = h_answered h - tally c + tally c' -> host_ok ((set_c h i c') <| h_answered := n |>).
Proof.
  intros H Hi Hu E Eh Eq En. eapply set_ok; [done|exact Hi|by left|left; by apply Eh|done|done].
Qed.
Lemma clear_ok h : host_ok h -> host_ok (h <| h_c := clear_holds (h_c h) |>).
Proof.
  intros [H1 H2 H3 H4 H5].
  assert (L : forall i c, clear_holds (h_c h) !! i = Some c -> exists d, h_c h !! i = Some d /\ c = d <| c_holds := false |>).
  { intros i c Hi. unfold clear_holds in Hi. rewrite list_lookup_fmap in Hi. destruct (h_c h !! i) as [d|]; [|done]. injection Hi as <-. by exists d. }
  split; cbn.
  - unfold clear_holds. by rewrite length_map.
  - rewrite H2. clear. induction (h_c h) as [|c l IH]; cbn; [done|]. by rewrite IH.
  - intros i j c d Hi _ Hc. apply L in Hi as (c0 & _ & ->). done.
  - intros i j c d Hi Hj Uc Ud E. apply L in Hi as (c0 & Hi & ->). apply L in Hj as (d0 & Hj & ->). by apply (H4 i j c0 d0).
  - intros i c Hi Hs. apply L in Hi as (c0 & Hi & ->). destruct (H5 i c0 Hi Hs) as [Q _]. by split.
Qed.
Lemma c_evict_spec h s i : host_evict h s = Some i -> exists c, h_c h !! i = Some c /\ c_state c = s.
Proof. intros H. apply first_c_some in H as (c & _ & Hc & Hp). rewrite Nat.sub_0_r in Hc. exists c. by rewrite <- in_state_true. Qed.
Lemma admit_ok h cid h' i : host_ok h -> host_admit h cid = Some (h', i) ->
  host_ok h' /\ h_c h' !! i = Some (c_at h' i) /\ used (c_at h' i) /\ c_cid (c_at h' i) = cid.
Proof.
  intros H. unfold host_admit. destruct (rdv_host_find h cid) as [j|] eqn:Ef.
  { intros [= <- <-]. apply find_spec in Ef as (F1 & F2 & F3). done. }
  set (slot := match host_evict h RDV_C_FREE with Some _ => _ | None => _ end). destruct slot as [j|] eqn:Es; [|done]. intros [= <- <-].
  assert (exists c, h_c h !! j = Some c /\ tally c = 0) as (c & Hc & Tc).
  { unfold slot in Es. destruct (host_evict h RDV_C_FREE) as [k|] eqn:E1; [injection Es as ->|].
    - apply c_evict_spec in E1 as (c & Hc & Ec). exists c. unfold tally, in_state. by rewrite Ec.
    - destruct (host_evict h RDV_C_GONE) as [k|] eqn:E2; [injection Es as ->; apply c_evict_spec in E2 as (c & Hc & Ec)|apply c_evict_spec in Es as (c & Hc & Ec)];
        exists c; unfold tally, in_state; by rewrite Ec. }
  set (c' := mk_claimant _ _ _ _ _ _ _ _ _ _ _). assert (Hat : h_c (set_c h j c') !! j = Some c').
  { cbn. apply list_lookup_insert_eq. by eapply lookup_lt_Some. }
  rewrite (c_at_lookup _ _ _ Hat). split_and!; [|done|done|done]. rewrite set_c_eta. eapply set_ok; [done|exact Hc|..].
  - intros _. right. intros k d Hd Hu E. pose proof (first_c_none _ _ _ Ef k d Hd) as Hn. unfold c_named in Hn. cbn in E. subst cid.
    apply andb_false_iff in Hn as [Hn|Hn]; [apply negb_false_iff, in_state_true in Hn; done|by apply bool_decide_eq_false in Hn].
  - done.
  - by intros [?|?].
  - rewrite Tc. change (tally c') with 0. lia.
Qed.
Lemma slot_ok h m : host_ok h -> host_ok (rdv_host_slot h m).1.
Proof.
  intros H. unfold rdv_host_slot. destruct (negb (bool_decide (m_kind m = RDV_OFFER))); [done|]. destruct (bytes_eqb _ _); [done|].
  destruct (negb (rdv_addressed_to _ _)); [done|]. destruct (host_admit h (m_from m)) as [[h1 i]|] eqn:Ea; [|done].
  apply admit_ok in Ea as (H1 & Hi & Hu & _); [|done]. set (c := c_at h1 i) in *. destruct (_ && _); [done|]. cbv zeta.
  set (h2 := set_c h1 i _). assert (H2 : host_ok h2) by (eapply set_same_ok; [done|exact Hi|done|done|done|by left]).
  assert (Hi2 : h_c h2 !! i = Some (c <| c_last_seq := m_seq m |> <| c_have_seq := true |>)).
  { cbn. apply list_lookup_insert_eq. by eapply lookup_lt_Some. }
  set (h3 := h2 <| h_turn_spent := false |> <| h_c := clear_holds (h_c h2) |>).
  assert (H3 : host_ok h3) by (apply clear_ok in H2; by apply (host_ok_ext (h2 <| h_c := clear_holds (h_c h2) |>))).
  assert (Hi3 : exists c3, h_c h3 !! i = Some c3 /\ used c3 /\ c_holds c3 = false).
  { eexists. split; [cbn; unfold clear_holds; rewrite list_lookup_fmap; cbn in Hi2; rewrite Hi2; done|done]. }
  clearbody h3. clear h1 h2 c H1 Hi Hu H2 Hi2 H. destruct Hi3 as (c3 & Hi3 & Hu3 & Hh3).
  set (h4 := if in_state RDV_C_ANSWERED (c_at h3 i) then _ else h3).
  assert (H4 : host_ok h4 /\ exists c4, h_c h4 !! i = Some c4 /\ used c4 /\ c_holds c4 = false /\ in_state RDV_C_ANSWERED c4 = false).
  { unfold h4. rewrite (c_at_lookup _ _ _ Hi3). destruct (in_state RDV_C_ANSWERED c3) eqn:Es; [|split; [done|by exists c3]].
    assert (Hl := lookup_lt_Some _ _ _ Hi3). split.
    - eapply set_state_ok; [done|exact Hi3|done|done|done|by intros [?|?]|]. cbn [h_answered set_c set set_h_c]. rewrite (less_answered_eq h3 i c3) by done.
      unfold tally at 1. rewrite Es. change (tally (set_c_state RDV_C_HARVESTED c3)) with 0. lia.
    - exists (c3 <| c_state := RDV_C_HARVESTED |>). split; [cbn; by apply list_lookup_insert_eq|done]. }
  clearbody h4. clear h3 c3 H3 Hi3 Hu3 Hh3. destruct H4 as (H4 & c4 & Hi4 & Hu4 & Hh4 & Ha4).
  set (h5 := if in_state RDV_C_GONE (c_at h4 i) || in_state RDV_C_REFUSED (c_at h4 i) then _ else h4).
  assert (H5 : host_ok h5 /\ exists c5, h_c h5 !! i = Some c5 /\ used c5 /\ c_holds c5 = false /\ in_state RDV_C_ANSWERED c5 = false).
  { unfold h5. rewrite (c_at_lookup _ _ _ Hi4). destruct (in_state RDV_C_GONE c4 || in_state RDV_C_REFUSED c4); [|split; [done|by exists c4]]. assert (Hl := lookup_lt_Some _ _ _ Hi4). split.
    - rewrite set_c_eta. eapply set_state_ok; [done|exact Hi4|done|done|done|by intros [?|?]|]. unfold tally at 1. rewrite Ha4.
      cbn [set]. change (tally (set_c_state RDV_C_HARVESTED c4)) with 0. lia.
    - exists (c4 <| c_state := RDV_C_HARVESTED |>). split; [cbn; by apply list_lookup_insert_eq|done]. }
  clearbody h5. clear h4 c4 H4 Hi4 Hu4 Hh4 Ha4. destruct H5 as (H5 & c5 & Hi5 & Hu5 & Hh5 & Ha5). destruct (_ && _); [|done].
  rewrite (c_at_lookup _ _ _ Hi5). cbn [fst]. rewrite set_c_eta. eapply set_state_ok; [done|exact Hi5|done|done|by cbn; intros; congruence|by intros [?|?]|].
  rewrite !tally_no by (done || by apply not_answered). lia.
Qed.
Lemma answer_ok h cid p : host_ok h -> host_ok (rdv_host_answer h cid p).
Proof.
  intros H. unfold rdv_host_answer. destruct (rdv_host_find h cid) as [i|] eqn:Ef; [|done]. apply find_spec in Ef as (Hi & Hu & _).
  destruct (_ <? _)%nat; [done|]. set (c := c_at h i) in *. destruct (in_state RDV_C_ANSWERED c) eqn:Es; [rewrite set_c_eta|rewrite set_c_answered];
    (eapply set_state_ok; [done|exact Hi|done|done|done|by intros [?|?]|]); rewrite (tally_yes (_ <| c_answer := p |>)) by done.
  - apply in_state_true in Es. rewrite tally_yes by done. lia.
  - rewrite tally_no by (by apply not_answered). cbn. lia.
Qed.
Lemma unsent_ok h cid : host_ok h -> host_ok (rdv_host_unsent h cid).
Proof.
  intros H. unfold rdv_host_unsent. destruct (rdv_host_find h cid) as [i|] eqn:Ef; [|done]. apply find_spec in Ef as (Hi & Hu & _).
  destruct (in_state RDV_C_GONE (c_at h i)) eqn:Eg; [done|]. eapply set_same_ok; [done|exact Hi|done|done|done|]. intros _. right. split; [done|].
  intros E. by rewrite (proj2 (in_state_true _ _) E) in Eg.
Qed.
Lemma refuse_ok h cid r : host_ok h -> host_ok (rdv_host_refuse h cid r).
Proof.
  intros H. unfold rdv_host_refuse. destruct (rdv_host_find h cid) as [i|] eqn:Ef; [|done]. apply find_spec in Ef as (Hi & Hu & _). cbv zeta.
  set (c := c_at h i) in *. destruct (in_state RDV_C_ANSWERED c) eqn:Es; [unfold less_answered; rewrite set_c_answered|rewrite set_c_eta];
    (eapply set_state_ok; [done|exact Hi|done|done|done|by intros [?|?]|]); rewrite (tally_no (_ <| c_answer := [] |>)) by done.
  - rewrite (less_answered_eq h i c) by done. apply in_state_true in Es. rewrite tally_yes by done. lia.
  - rewrite tally_no by (by apply not_answered). lia.
Qed.
Lemma forget_ok h cid : host_ok h -> host_ok (rdv_host_forget h cid).
Proof.
  intros H. unfold rdv_host_forget. destruct (rdv_host_find h cid) as [i|] eqn:Ef; [|done]. apply find_spec in Ef as (Hi & Hu & _). cbv zeta.
  set (c := c_at h i) in *. set (c' := c <| c_state := _ |> <| c_pending := _ |> <| c_holds := _ |> <| c_answer := _ |>).
  set (h1 := if in_state RDV_C_ANSWERED c then _ else h). apply (host_ok_ext (set_c h1 i c')); [done|done|]. unfold h1.
  destruct (in_state RDV_C_ANSWERED c) eqn:Es; [unfold less_answered; rewrite set_c_answered|rewrite set_c_eta]; (eapply set_state_ok; [done|exact Hi|done|done|done|done|]); rewrite (tally_no c') by done.
  - rewrite (less_answered_eq h i c) by done. apply in_state_true in Es. rewrite tally_yes by done. lia.
  - rewrite tally_no by (by apply not_answered). lia.
Qed.
Lemma keep_ok h cid : host_ok h -> host_ok (rdv_host_keep h cid).
Proof.
  intros H. unfold rdv_host_keep. destruct (rdv_host_find h cid) as [i|] eqn:Ef; [|done]. apply find_spec in Ef as (Hi & Hu & _). cbv zeta.
  set (c := c_at h i) in *. destruct (in_state RDV_C_GONE c); [done|]. destruct (_ && _); [done|]. set (c' := if c_pending _ then _ else _).
  assert (E : c_state c' = RDV_C_ANSWERED /\ c_cid c' = c_cid c /\ c_holds c' = c_holds c).
  { unfold c'. repeat (case_match; cbn); done. }
  destruct E as (E1 & E2 & E3). destruct (in_state RDV_C_ANSWERED c) eqn:Es; [rewrite set_c_eta|rewrite set_c_answered];
    (eapply set_state_ok; [done|exact Hi|done|done|congruence|rewrite E1; by intros [?|?]|]); rewrite (tally_yes c') by done.
  - apply in_state_true in Es. rewrite tally_yes by done. lia.
  - rewrite tally_no by (by apply not_answered). cbn. lia.
Qed.
Lemma release_ok h cid : host_ok h -> host_ok (rdv_host_release h cid).
Proof.
  intros H. unfold rdv_host_release. cbv zeta. destruct (rdv_host_find h cid) as [i|] eqn:Ef; [|by apply (host_ok_ext h)]. apply find_spec in Ef as (Hi & Hu & _).
  set (h1 := set_c h i _). assert (H1 : host_ok h1) by (by eapply set_same_ok; [done|exact Hi|done|done|done|left]).
  destruct (c_pending _); [done|by apply (host_ok_ext h1)].
Qed.
Lemma stands_spec l : forall i skip, stands_from l i skip = false -> forall j d, l !! j = Some d -> (i + j)%nat <> skip -> c_holds d = false.
Proof.
  induction l as [|x l IH]; intros i skip; cbn; [done|]. intros [H1 H2]%orb_false_iff [|j] d Hd Hn.
  - injection Hd as ->. rewrite Nat.add_0_r in Hn. apply andb_false_iff in H1 as [H1|H1]; [|done]. apply negb_false_iff, Nat.eqb_eq in H1. done.
  - apply (IH (S i) skip H2 j d Hd). lia.
Qed.
Lemma first_owed_spec h l : forall i j, first_owed h l i = Some j ->
  exists c, (i <= j)%nat /\ l !! (j - i)%nat = Some c /\ c_pending c = true /\ answer_stands h j = false.
Proof.
  induction l as [|x l IH]; intros i j; cbn; [done|]. destruct (negb (c_pending x) || answer_stands h i) eqn:E.
  - intros H. apply IH in H as (c & Hij & Hc & Hp). exists c. split; [lia|]. split; [|done]. by replace (j - i)%nat with (S (j - S i)) by lia.
  - intros [= <-]. apply orb_false_iff in E as [E1 E2]. apply negb_false_iff in E1. exists x. by rewrite Nat.sub_diag.
Qed.
(** What goes out in the turn: the statement owed to a claimant no other answer stands before. *)
Lemma next_class h info h' o : rdv_host_next h info = (h', Some o) -> o_seal o = RDV_SEAL_CLASS ->
  h_info_pending h = false /\ exists i, first_owed h (h_c h) 0 = Some i /\ h_c h !! i = Some (c_at h i) /\ c_pending (c_at h i) = true /\
    (forall j d, h_c h !! j = Some d -> j <> i -> c_holds d = false) /\
    rdv_encode (owed_msg h (c_at h i) (u32 (h_seq h + 1))) RDV_MAX_MSG = Some (o_msg o) /\
    h' = set_c (h <| h_seq := u32 (h_seq h + 1) |>) i ((c_at h i) <| c_pending := false |> <| c_holds := true |>).
Proof.
  unfold rdv_host_next. destruct (h_info_pending h); [destruct (_ <? _)%nat; [done|]; destruct (rdv_encode _ _); [|done]; by intros [= <- <-]|].
  destruct (first_owed h (h_c h) 0) as [i|] eqn:Ef; [|done]. destruct (rdv_encode _ _) as [msg|] eqn:Ee; [|done]. intros [= <- <-] _. split; [done|].
  exists i. pose proof Ef as Hf. apply first_owed_spec in Hf as (c & _ & Hc & Hp & Hs). rewrite Nat.sub_0_r in Hc. rewrite (c_at_lookup _ _ _ Hc) in *.
  split_and!; try done. intros j d Hd Hn. exact (stands_spec _ _ _ Hs j d Hd Hn).
Qed.
Lemma next_other h info : (forall o, (rdv_host_next h info).2 = Some o -> o_seal o = RDV_SEAL_INFO) ->
  h_c (rdv_host_next h info).1 = h_c h /\ h_answered (rdv_host_next h info).1 = h_answered h.
Proof.
  unfold rdv_host_next. destruct (h_info_pending h); [destruct (_ <? _)%nat; [done|]; by destruct (rdv_encode _ _)|].
  destruct (first_owed _ _ _); [|done]. destruct (rdv_encode _ _); [|done]. intros H. by specialize (H _ eq_refl).
Qed.
Lemma next_ok h info : host_ok h -> host_ok (rdv_host_next h info).1.
Proof.
  intros H. destruct (rdv_host_next h info) as [h' [o|]] eqn:E.
  - destruct (o_seal o) eqn:Es.
    + pose proof (next_other h info) as [E1 E2]; [rewrite E; by intros ? [= <-]|]. rewrite E in E1, E2. by apply (host_ok_ext h).
    + apply next_class in E as (_ & i & _ & Hi & Hp & Hn & _ & ->); [|done]. cbn [fst]. assert (Hst : c_state (c_at h i) <> RDV_C_FREE /\ c_state (c_at h i) <> RDV_C_GONE).
      { split; intros Hs; destruct (ho_idle _ H i _ Hi) as [Q _]; auto; congruence. }
      apply (host_ok_ext (set_c h i ((c_at h i) <| c_pending := false |> <| c_holds := true |>))); [done|done|]. rewrite set_c_eta.
      eapply set_ok; [done|exact Hi|by left|by right|naive_solver|unfold tally, in_state; cbn; lia].
  - pose proof (next_other h info) as [E1 E2]; [by rewrite E|]. rewrite E in E1, E2. by apply (host_ok_ext h).
Qed.
Lemma host_do_ok h o : host_ok h -> host_ok (host_do h o).
Proof.
  intros H. destruct o; cbn [host_do]; auto using release_ok, slot_ok, answer_ok, unsent_ok, refuse_ok, keep_ok, forget_ok, next_ok;
    try by apply (host_ok_ext h). unfold rdv_host_set_gen. destruct (_ =? _); [done|by apply (host_ok_ext h)].
Qed.

(** Whatever is asked of the host, its table stays sound: the count of answered claimants is
    exact, no claimant has two slots, at most one answer stands in the cell, and a slot that is
    free or given up owes nothing. *)
Theorem host_table_ok cid gen grant ops : host_ok (fold_left host_do ops (rdv_host_init cid gen grant)).
Proof. induction ops as [|o ops IH] using rev_ind; [apply init_host_ok|]. rewrite fold_left_app. by apply host_do_ok. Qed.

(** ** What reading an offer does *)
Record scalars_same (h h' : rdv_host) : Prop := {
  ss_cid : h_cid h' = h_cid h; ss_gen : h_gen h' = h_gen h; ss_seq : h_seq h' = h_seq h; ss_grant : h_grant h' = h_grant h;
  ss_info : h_info_pending h' = h_info_pending h; ss_gone : h_gone h' = h_gone h
}.
Lemma scalars_refl h : scalars_same h h.
Proof. done. Qed.
Record heard (c c' : rdv_claimant) (m : rdv_msg) (new : bool) : Prop := {
  hd_cid : c_cid c' = c_cid c; hd_seq : c_last_seq c' = m_seq m; hd_have : c_have_seq c' = true; hd_holds : c_holds c' = false;
  hd_answer : c_answer c' = c_answer c; hd_re : c_answer_re c' = c_answer_re c \/ c_answer_re c' = m_seq m;
  hd_state : c_state c' = if new then RDV_C_HARVESTED else RDV_C_REFUSED;
  hd_pending : new = true -> c_pending c' = c_pending c /\ c_answer_re c' = c_answer_re c
}.
Inductive slot_effect (h : rdv_host) (m : rdv_msg) : rdv_host -> bool -> Prop :=
| SlotIgnored : slot_effect h m h false
| SlotHeard h1 i h' c' new :
    m_kind m = RDV_OFFER -> m_from m <> rdv_zero -> host_admit h (m_from m) = Some (h1, i) ->
    (c_have_seq (c_at h1 i) = true -> c_last_seq (c_at h1 i) < m_seq m) ->
    h_c h' = <[i := c']> (clear_holds (h_c h1)) -> scalars_same h h' -> heard (c_at h1 i) c' m new ->
    (h_grant h = 0 -> new = true) -> slot_effect h m h' new.
Lemma admit_scalars h cid h1 i : host_admit h cid = Some (h1, i) -> scalars_same h h1.
Proof. unfold host_admit. repeat case_match; try done; by intros [= <- <-]. Qed.
Lemma insert_clear i c l : (i < length l)%nat -> clear_holds (<[i := c]> l) = <[i := c <| c_holds := false |>]> (clear_holds l).
Proof. intros H. unfold clear_holds. apply list_fmap_insert. Qed.
Lemma slot_spec h m : host_ok h -> slot_effect h m (rdv_host_slot h m).1 (rdv_host_slot h m).2.
Proof.
  intros H. unfold rdv_host_slot. destruct (bool_decide (m_kind m = RDV_OFFER)) eqn:Ek; [cbn [negb]|constructor]. apply bool_decide_eq_true in Ek.
  destruct (bytes_eqb _ _) eqn:Ez; [constructor|]. apply bool_decide_eq_false in Ez. destruct (negb (rdv_addressed_to _ _)); [constructor|].
  destruct (host_admit h (m_from m)) as [[h1 i]|] eqn:Ea; [|constructor]. pose proof (admit_scalars _ _ _ _ Ea) as S1.
  pose proof (admit_ok _ _ _ _ H Ea) as (H1 & Hi & Hu & Hc). set (c := c_at h1 i) in *. destruct (c_have_seq c && (m_seq m <=? c_last_seq c)) eqn:Est.
  { assert (h1 = h) as ->; [|constructor]. unfold host_admit in Ea. destruct (rdv_host_find h (m_from m)); [by injection Ea|].
    destruct (match host_evict h RDV_C_FREE with Some _ => _ | None => _ end) as [j|]; [|done]. injection Ea as <- <-.
    exfalso. unfold c in Est. rewrite (c_at_lookup _ _ _ Hi) in Est. cbn in Hi, Est. assert (Hl := lookup_lt_Some _ _ _ Hi). rewrite length_insert in Hl.
    unfold c_at in Est. cbn in Est. erewrite nth_lookup_Some in Est by (by apply list_lookup_insert_eq). done. }
  assert (Hlt := lookup_lt_Some _ _ _ Hi). cbv zeta. set (c1 := c <| c_last_seq := m_seq m |> <| c_have_seq := true |>). set (h2 := set_c h1 i c1).
  set (h3 := h2 <| h_turn_spent := false |> <| h_c := clear_holds (h_c h2) |>). set (L := clear_holds (h_c h1)).
  assert (E3 : h_c h3 = <[i := c1 <| c_holds := false |>]> L) by (apply insert_clear; done).
  assert (HL : (i < length L)%nat) by (unfold L, clear_holds; by rewrite length_map).
  assert (A : forall h c, h_c h = <[i := c]> L -> c_at h i = c). { intros h0 c0 E. apply c_at_lookup. rewrite E. by apply list_lookup_insert_eq. }
  set (c3 := c1 <| c_holds := false |>) in *. rewrite (A h3 c3 E3).
  assert (S3 : scalars_same h h3) by (destruct S1; by split). clearbody h3. clear h2.
  set (h4 := if in_state RDV_C_ANSWERED c3 then _ else h3).
  assert (exists s, h_c h4 = <[i := c3 <| c_state := s |>]> L /\ scalars_same h h4 /\ s <> RDV_C_FREE /\ s <> RDV_C_ANSWERED) as (s4 & E4 & S4 & N4).
  { unfold h4. destruct (in_state RDV_C_ANSWERED c3) eqn:Es.
    - exists RDV_C_HARVESTED. split; [cbn; by rewrite E3, list_insert_insert_eq|]. split; [destruct S3; by split|done].
    - exists (c_state c). split; [by rewrite E3|]. split; [done|]. split; [done|by apply not_answered in Es]. }
  clearbody h4. clear h3 E3 S3. rewrite (A h4 _ E4). set (c4 := c3 <| c_state := s4 |>) in *.
  set (h5 := if in_state RDV_C_GONE c4 || _ then _ else h4).
  assert (h_c h5 = <[i := c3 <| c_state := RDV_C_HARVESTED |>]> L /\ scalars_same h h5) as [E5 S5].
  { unfold h5. destruct (in_state RDV_C_GONE c4 || in_state RDV_C_REFUSED c4) eqn:Es.
    - split; [cbn; by rewrite E4, list_insert_insert_eq|]. destruct S4; by split.
    - split; [|done]. rewrite E4. assert (s4 = RDV_C_HARVESTED) as ->; [|done]. apply orb_false_iff in Es as [Es1 Es2].
      apply bool_decide_eq_false in Es1, Es2. cbn in Es1, Es2. destruct s4; naive_solver. }
  clearbody h5. clear h4 E4 S4 c4. rewrite !(A h5 _ E5). assert (Hfresh : c_have_seq c = true -> c_last_seq c < m_seq m).
  { intros Hh. rewrite Hh in Est. cbn in Est. lia. }
  destruct (truth (h_grant h5) && (h_grant h5 <=? h_answered h5)) eqn:Eg; cbn [fst snd].
  - eapply SlotHeard; [done|done|exact Ea|done|cbn; by rewrite E5, list_insert_insert_eq|destruct S5; by split|split; try done; by right|].
    intros E0. rewrite (ss_grant _ _ S5), E0 in Eg. done.
  - eapply SlotHeard; [done|done|exact Ea|done|exact E5|done|split; try done; by left|done].
Qed.

(** ** The world: a host, its claimants, and every statement ever made *)
#[export] Instance rdv_msg_dec : EqDecision rdv_msg.
Proof. solve_decision. Defined.
Record world := mk_world { w_h : rdv_host; w_k : list rdv_client; w_net : list rdv_msg; w_given : list (bytes * bytes) }.
Definition publish (net : list rdv_msg) (o : option rdv_out) : list rdv_msg :=
  match o with
  | Some o => match rdv_decode (o_msg o) with DecOk m => m :: net | _ => net end
  | None => net
  end.
Definition world_init (cid : bytes) (gen grant : Z) (cids : list bytes) : world :=
  mk_world (rdv_host_init cid gen grant) (map rdv_client_init cids) [] [].

Inductive client_op :=
| KHost (m : rdv_msg) (seq : Z) | KAskGone (seq : Z) | KOwn (m : rdv_msg) | KUnusable (m : rdv_msg) | KIdent | KReask | KLive (live : bool)
| KNext (offer : bytes).
Definition client_do (k : rdv_client) (o : client_op) : rdv_client * option rdv_out :=
  match o with
  | KHost m seq => ((rdv_client_host_slot k m seq).1, None)
  | KAskGone seq => (rdv_client_ask_gone k seq, None)
  | KOwn m => ((rdv_client_own_slot k m).1, None)
  | KUnusable m => (rdv_client_answer_unusable k m, None)
  | KIdent => (rdv_client_ident_changed k, None)
  | KReask => (rdv_client_reask k, None)
  | KLive b => (rdv_client_set_live k b, None)
  | KNext offer => rdv_client_next k offer
  end.
(** What is read was stated. *)
Definition client_reads (o : client_op) : option rdv_msg :=
  match o with KHost m _ | KOwn m | KUnusable m => Some m | _ => None end.
Definition host_reads (o : host_op) : option rdv_msg := match o with HSlot m => Some m | _ => None end.
Definition stated (net : list rdv_msg) (m : option rdv_msg) : bool := match m with Some m => bool_decide (m ∈ net) | None => true end.

Inductive world_op := WHost (o : host_op) | WClient (i : nat) (o : client_op).
Definition world_do (w : world) (o : world_op) : world :=
  match o with
  | WHost o =>
      if negb (stated (w_net w) (host_reads o)) then w
      else
        let o := match o with HSetGen g => HSetGen (u32 g) | _ => o end in
        mk_world (host_do (w_h w) o) (w_k w)
          (match o with HNext info => publish (w_net w) (rdv_host_next (w_h w) info).2 | _ => w_net w end)
          (match o with HAnswer cid p => (cid, p) :: w_given w | _ => w_given w end)
  | WClient i o =>
      match w_k w !! i with
      | None => w
      | Some k =>
          if negb (stated (w_net w) (client_reads o)) then w
          else let '(k, out) := client_do k o in mk_world (w_h w) (<[i := k]> (w_k w)) (publish (w_net w) out) (w_given w)
      end
  end.
Definition world_run (w : world) (ops : list world_op) : world := fold_left world_do ops w.

(** *** The invariant *)
Definition is_offer (net : list rdv_msg) (cid : bytes) (seq : Z) : Prop :=
  exists o, o ∈ net /\ m_kind o = RDV_OFFER /\ m_from o = cid /\ m_seq o = seq.
Record claim_ok (net : list rdv_msg) (given : list (bytes * bytes)) (c : rdv_claimant) : Prop := {
  co_cid : length (c_cid c) = RDV_CID_LEN; co_seq : is_offer net (c_cid c) (c_last_seq c); co_have : c_have_seq c = true;
  co_re : c_answer_re c = 0 \/ is_offer net (c_cid c) (c_answer_re c);
  co_answer : c_answer c = [] \/ (c_cid c, c_answer c) ∈ given; co_len : (length (c_answer c) <= RDV_MAX_PAYLOAD)%nat
}.
Definition stmt_ok (w : world) (m : rdv_msg) : Prop :=
  msg_ok m /\
  match m_kind m with
  | RDV_OFFER => exists k, k ∈ w_k w /\ m_from m = k_cid k /\ 0 < m_seq m <= k_seq k
  | RDV_HOSTINFO | RDV_TOMB => m_from m = h_cid (w_h w)
  | RDV_ANSWER => m_from m = h_cid (w_h w) /\ m_seq m <= h_seq (w_h w) /\ (m_re m = 0 \/ is_offer (w_net w) (m_to m) (m_re m)) /\
                  (m_payload m = [] \/ (m_to m, m_payload m) ∈ w_given w)
  | RDV_REFUSE => m_from m = h_cid (w_h w) /\ m_seq m <= h_seq (w_h w) /\ (m_re m = 0 \/ is_offer (w_net w) (m_to m) (m_re m))
  end.
Record client_ok (h : rdv_host) (net : list rdv_msg) (n : Z) (k : rdv_client) : Prop := {
  ko_cid : length (k_cid k) = RDV_CID_LEN; ko_seq : 0 <= k_seq k <= n; ko_offer : 0 <= k_offer_seq k <= k_seq k;
  ko_prev : 0 <= k_prev_offer_seq k <= k_seq k;
  ko_text : forall o, o ∈ net -> m_kind o = RDV_OFFER -> m_from o = k_cid k -> m_seq o = k_offer_seq k -> m_payload o = k_offer k;
  ko_host : k_have_host k = true -> k_host_cid k = h_cid h; ko_gen : is_u32 (k_host_gen k); ko_hostlen : length (k_host_cid k) = RDV_CID_LEN;
  ko_answer : k_have_answer_seq k = true -> k_answer_seq k <= h_seq h
}.
Record world_ok (n : Z) (w : world) : Prop := {
  wo_host : host_ok (w_h w); wo_hcid : length (h_cid (w_h w)) = RDV_CID_LEN; wo_hseq : 0 <= h_seq (w_h w) <= n; wo_gen : is_u32 (h_gen (w_h w));
  wo_claims : forall i c, h_c (w_h w) !! i = Some c -> used c -> claim_ok (w_net w) (w_given w) c;
  wo_net : forall m, m ∈ w_net w -> stmt_ok w m;
  wo_text : forall o o', o ∈ w_net w -> o' ∈ w_net w -> m_kind o = RDV_OFFER -> m_kind o' = RDV_OFFER -> m_from o = m_from o' -> m_seq o = m_seq o' ->
            m_payload o = m_payload o';
  wo_clients : forall k, k ∈ w_k w -> client_ok (w_h w) (w_net w) n k;
  wo_cids : NoDup (map k_cid (w_k w))
}.

(** *** Lemmas: the host's side *)
Definition claims (net : list rdv_msg) (given : list (bytes * bytes)) (l : list rdv_claimant) : Prop :=
  forall i c, l !! i = Some c -> used c -> claim_ok net given c.
Lemma is_offer_more net net' cid seq : net ⊆ net' -> is_offer net cid seq -> is_offer net' cid seq.
Proof. intros Hs (o & Ho & H). exists o. split; [by apply Hs|done]. Qed.
Lemma claim_more net net' given given' c : net ⊆ net' -> given ⊆ given' -> claim_ok net given c -> claim_ok net' given' c.
Proof.
  intros Hn Hg [H1 H2 H3 H4 H5 H6]. split; try done; [by eapply is_offer_more| |].
  - destruct H4; [by left|right; by eapply is_offer_more].
  - destruct H5; [by left|right; by apply Hg].
Qed.
Lemma claims_more net net' given given' l : net ⊆ net' -> given ⊆ given' -> claims net given l -> claims net' given' l.
Proof. intros Hn Hg H i c Hi Hu. eapply claim_more; [done|done|by eapply H]. Qed.
Lemma claims_insert net given l i c : claims net given l -> (used c -> claim_ok net given c) -> claims net given (<[i := c]> l).
Proof.
  intros H Hc j d Hj Hu. destruct (decide (i = j)) as [->|Hn].
  - destruct (decide (j < length l)%nat) as [Hl|Hl]; [rewrite list_lookup_insert_eq in Hj by done; injection Hj as <-; by apply Hc|].
    rewrite list_insert_ge in Hj by lia. by apply (H j).
  - rewrite list_lookup_insert_ne in Hj by done. by apply (H j).
Qed.
(** The same claimant, owing what it owed or an answer to its last ask. *)
Lemma claim_same net given c c' :
  claim_ok net given c -> c_cid c' = c_cid c -> c_last_seq c' = c_last_seq c -> c_have_seq c' = c_have_seq c ->
  c_answer_re c' = c_answer_re c \/ c_answer_re c' = c_last_seq c -> c_answer c' = c_answer c \/ c_answer c' = [] -> claim_ok net given c'.
Proof.
  intros [H1 H2 H3 H4 H5 H6] E1 E2 E3 E4 E5. split; rewrite ?E1, ?E2, ?E3; try done.
  - destruct E4 as [-> | ->]; [done|by right].
  - destruct E5 as [-> | ->]; [done|by left].
  - destruct E5 as [-> | ->]; [done|cbn; lia].
Qed.
Lemma claims_found net given h cid i c' :
  claims net given (h_c h) -> rdv_host_find h cid = Some i ->
  c_cid c' = c_cid (c_at h i) -> c_last_seq c' = c_last_seq (c_at h i) -> c_have_seq c' = c_have_seq (c_at h i) ->
  c_answer_re c' = c_answer_re (c_at h i) \/ c_answer_re c' = c_last_seq (c_at h i) ->
  c_answer c' = c_answer (c_at h i) \/ c_answer c' = [] -> claims net given (<[i := c']> (h_c h)).
Proof.
  intros H Hf E1 E2 E3 E4 E5. apply find_spec in Hf as (Hi & Hu & _). apply claims_insert; [done|]. intros _.
  eapply claim_same; [by apply (H i)|done..].
Qed.
Lemma claims_release net given h cid : claims net given (h_c h) -> claims net given (h_c (rdv_host_release h cid)).
Proof.
  intros H. unfold rdv_host_release. cbv zeta. destruct (rdv_host_find h cid) as [i|] eqn:Ef; [|done].
  assert (H1 : claims net given (<[i := (c_at h i) <| c_holds := false |>]> (h_c h))) by (apply (claims_found _ _ h cid); try done; by left).
  by destruct (c_pending _).
Qed.
Lemma claims_unsent net given h cid : claims net given (h_c h) -> claims net given (h_c (rdv_host_unsent h cid)).
Proof.
  intros H. unfold rdv_host_unsent. destruct (rdv_host_find h cid) as [i|] eqn:Ef; [|done]. destruct (in_state _ _); [done|].
  apply (claims_found _ _ h cid); try done; by left.
Qed.
Lemma claims_refuse net given h cid r : claims net given (h_c h) -> claims net given (h_c (rdv_host_refuse h cid r)).
Proof.
  intros H. unfold rdv_host_refuse. destruct (rdv_host_find h cid) as [i|] eqn:Ef; [|done]. cbv zeta.
  destruct (in_state _ _); (apply (claims_found _ _ h cid); try done; by right).
Qed.
Lemma claims_forget net given h cid : claims net given (h_c h) -> claims net given (h_c (rdv_host_forget h cid)).
Proof.
  intros H. unfold rdv_host_forget. destruct (rdv_host_find h cid) as [i|] eqn:Ef; [|done]. cbv zeta.
  destruct (in_state _ _); (apply (claims_found _ _ h cid); try done; first [by left|by right]).
Qed.
Lemma claims_keep net given h cid : claims net given (h_c h) -> claims net given (h_c (rdv_host_keep h cid)).
Proof.
  intros H. unfold rdv_host_keep. destruct (rdv_host_find h cid) as [i|] eqn:Ef; [|done]. cbv zeta.
  destruct (in_state RDV_C_GONE _); [done|]. destruct (_ && _); [done|]. set (c' := if c_pending _ then _ else _).
  assert (E : claims net given (<[i := c']> (h_c h))); [|by destruct (in_state _ _)].
  assert (F : c_cid c' = c_cid (c_at h i) /\ c_last_seq c' = c_last_seq (c_at h i) /\ c_have_seq c' = c_have_seq (c_at h i) /\
    (c_answer_re c' = c_answer_re (c_at h i) \/ c_answer_re c' = c_last_seq (c_at h i)) /\ c_answer c' = c_answer (c_at h i)).
  { unfold c'. repeat (case_match; cbn); auto 10. }
  destruct F as (F1 & F2 & F3 & F4 & F5). apply (claims_found _ _ h cid); try done. by left.
Qed.
Lemma claims_answer net given h cid p : claims net given (h_c h) -> claims net ((cid, p) :: given) (h_c (rdv_host_answer h cid p)).
Proof.
  intros H. assert (Hm : claims net ((cid, p) :: given) (h_c h)) by (eapply claims_more; [done| |exact H]; set_solver).
  unfold rdv_host_answer. destruct (rdv_host_find h cid) as [i|] eqn:Ef; [|done]. destruct (Nat.ltb_spec RDV_MAX_PAYLOAD (length p)) as [|Hp]; [done|].
  apply find_spec in Ef as (Hi & Hu & Hc). pose proof (Hm i _ Hi Hu) as [K1 K2 K3 K4 K5 K6].
  cbv zeta. set (c' := (c_at h i) <| c_state := _ |> <| c_refusal := _ |> <| c_pending := _ |> <| c_answer_re := _ |> <| c_answer := p |>).
  assert (E : claims net ((cid, p) :: given) (<[i := c']> (h_c h))); [|by destruct (in_state _ _)]. apply claims_insert; [done|].
  intros _. split; cbn; try done; [by right|right; rewrite Hc; set_solver].
Qed.
Lemma claims_admit net given h cid h1 i : claims net given (h_c h) -> host_admit h cid = Some (h1, i) ->
  forall j d, h_c h1 !! j = Some d -> used d -> claim_ok net given d \/ j = i /\ d = mk_claimant cid 0 0 RDV_C_HARVESTED false false false false 0 0 [].
Proof.
  intros H. unfold host_admit. destruct (rdv_host_find h cid); [intros [= <- <-] j d Hd Hu; left; by apply (H j)|].
  destruct (match host_evict h RDV_C_FREE with Some _ => _ | None => _ end) as [k|]; [|done]. intros [= <- <-] j d Hd Hu. cbn in Hd.
  destruct (decide (k = j)) as [->|Hn]; [|rewrite list_lookup_insert_ne in Hd by done; left; by apply (H j)].
  destruct (decide (j < length (h_c h))%nat) as [Hl|Hl]; [rewrite list_lookup_insert_eq in Hd by done; injection Hd as <-; by right|].
  rewrite list_insert_ge in Hd by lia. left. by apply (H j).
Qed.
Lemma claims_slot net given h m : host_ok h -> claims net given (h_c h) -> m ∈ net -> length (m_from m) = RDV_CID_LEN ->
  claims net given (h_c (rdv_host_slot h m).1).
Proof.
  intros Hh H Hm Hlen. destruct (slot_spec h m Hh) as [|h1 i h' c' new Hk Hz Ha Hfr E S [D1 D2 D3 D4 D5 D6 D7 D8] _]; [done|]. rewrite E.
  pose proof (claims_admit _ _ _ _ _ _ H Ha) as Hc. pose proof (admit_ok _ _ _ _ Hh Ha) as (_ & Hi & Hu & Hcid).
  assert (Hoff : is_offer net (m_from m) (m_seq m)) by (by exists m). intros j d Hd Ud. destruct (decide (i = j)) as [<-|Hn].
  - rewrite list_lookup_insert_eq in Hd by (unfold clear_holds; rewrite length_map; by eapply lookup_lt_Some). injection Hd as <-.
    split; rewrite ?D1, ?D2, ?D5, ?Hcid; try done; destruct (Hc i _ Hi Hu) as [[K1 K2 K3 K4 K5 K6]|[_ K]].
    + rewrite Hcid in K4. destruct D6 as [-> | ->]; [done|by right].
    + rewrite K in D6. destruct D6 as [-> | ->]; [by left|by right].
    + by rewrite Hcid in K5.
    + rewrite K. by left.
    + done.
    + rewrite K. cbn. lia.
  - rewrite list_lookup_insert_ne in Hd by done. unfold clear_holds in Hd. rewrite list_lookup_fmap in Hd.
    destruct (h_c h1 !! j) as [d0|] eqn:E0; [|done]. injection Hd as <-. destruct (Hc j _ E0 Ud) as [K|[-> _]]; [|done].
    eapply claim_same; [exact K|done|done|done|by left|by left].
Qed.
Lemma world_net_more w w' m : w_net w ⊆ w_net w' -> w_given w ⊆ w_given w' -> w_k w' = w_k w -> h_cid (w_h w') = h_cid (w_h w) ->
  h_seq (w_h w) <= h_seq (w_h w') -> stmt_ok w m -> stmt_ok w' m.
Proof.
  intros Hn Hg Hk Hc Hs [H1 H2]. split; [done|]. rewrite Hk, Hc. destruct (m_kind m); try done.
  - destruct H2 as (A & B & D & E). split_and!; [done|lia| |].
    + destruct D; [by left|right; by eapply is_offer_more].
    + destruct E; [by left|right; by apply Hg].
  - destruct H2 as (A & B & D). split_and!; [done|lia|]. destruct D; [by left|right; by eapply is_offer_more].
Qed.
(** The host does something, and states at most one thing. *)
Lemma host_part n w h' net' given' :
  world_ok n w -> host_ok h' -> h_cid h' = h_cid (w_h w) -> h_seq (w_h w) <= h_seq h' <= n + 1 -> is_u32 (h_gen h') ->
  claims (w_net w) given' (h_c h') -> w_given w ⊆ given' ->
  net' = w_net w \/ (exists m, net' = m :: w_net w /\ m_kind m <> RDV_OFFER /\ stmt_ok (mk_world h' (w_k w) net' given') m) ->
  world_ok (n + 1) (mk_world h' (w_k w) net' given').
Proof.
  intros [W1 W2 W3 W4 W5 W6 W7 W8 W9] Hh Hc Hs Hg Hcl Hgv Hnet.
  assert (Hsub : w_net w ⊆ net') by (destruct Hnet as [-> |(m & -> & _)]; set_solver).
  assert (Hoff : forall o, o ∈ net' -> m_kind o = RDV_OFFER -> o ∈ w_net w).
  { intros o Ho Ek. destruct Hnet as [-> |(m & -> & Hk & _)]; [done|]. apply elem_of_cons in Ho as [-> |Ho]; [done|done]. }
  split; cbn [w_h w_k w_net w_given]; try done; [by rewrite Hc|lia| | | |].
  - apply (claims_more (w_net w) _ given'); [exact Hsub|set_solver|done].
  - intros m Hm. destruct Hnet as [-> |(m0 & E & Hk & Hst)]; [by apply (world_net_more w); try (cbn; lia); auto|]. rewrite E in Hm.
    apply elem_of_cons in Hm as [-> |Hm]; [done|]. apply (world_net_more w); try done; [cbn; lia|by apply W6].
  - intros o o' Ho Ho' Ek Ek'. apply W7; auto.
  - intros k Hk. destruct (W8 k Hk) as [K1 K2 K3 K4 K5 K6 K7 K8 K9]. split; try done; [lia|by intros o Ho Ek; apply K5; auto|by rewrite Hc|].
    intros Ha. specialize (K9 Ha). lia.
Qed.
Lemma owed_ok n w i : world_ok n w -> n + 1 < 2 ^ 32 -> h_c (w_h w) !! i = Some (c_at (w_h w) i) -> used (c_at (w_h w) i) ->
  let m := owed_msg (w_h w) (c_at (w_h w) i) (u32 (h_seq (w_h w) + 1)) in
  msg_ok m /\ m_kind m <> RDV_OFFER /\ m_seq m = h_seq (w_h w) + 1 /\ m_from m = h_cid (w_h w) /\
  (m_re m = 0 \/ is_offer (w_net w) (m_to m) (m_re m)) /\ (m_kind m = RDV_ANSWER -> m_payload m = [] \/ (m_to m, m_payload m) ∈ w_given w) /\
  (m_kind m = RDV_ANSWER \/ m_kind m = RDV_REFUSE).
Proof.
  intros W Hn Hi Hu. pose proof (wo_claims _ _ W i _ Hi Hu) as [K1 K2 K3 K4 K5 K6]. pose proof (wo_hseq _ _ W).
  assert (Es : u32 (h_seq (w_h w) + 1) = h_seq (w_h w) + 1) by (apply Z.mod_small; lia).
  assert (Hre : is_u32 (c_answer_re (c_at (w_h w) i))).
  { destruct K4 as [-> |(o & Ho & _ & _ & <-)]; [unfold is_u32; lia|]. destruct (wo_net _ _ W o Ho) as [[] _]. done. }
  cbv zeta. rewrite Es. unfold owed_msg. destruct (in_state _ _); split_and!; try done; try (by left); try (by right);
    (split; cbn; first [done|by apply W|unfold is_u32; lia|unfold RDV_MAX_PAYLOAD; lia]).
Qed.
Definition info_msg (h : rdv_host) (info : bytes) : rdv_msg :=
  mk_rdv (if h_gone h then RDV_TOMB else RDV_HOSTINFO) (h_gen h) (h_cid h) rdv_zero (u32 (h_seq h + 1)) 0 info.
Lemma next_cases h info :
  let r := rdv_host_next h info in
  h_cid r.1 = h_cid h /\ h_gen r.1 = h_gen h /\
  ((r.2 = None /\ h_c r.1 = h_c h /\ (h_seq r.1 = h_seq h \/ h_seq r.1 = u32 (h_seq h + 1))) \/
   (exists o, r.2 = Some o /\ h_seq r.1 = u32 (h_seq h + 1) /\
     ((h_c r.1 = h_c h /\ rdv_encode (info_msg h info) RDV_MAX_MSG = Some (o_msg o)) \/
      o_seal o = RDV_SEAL_CLASS))).
Proof.
  cbv zeta. unfold rdv_host_next. destruct (h_info_pending h).
  - destruct (_ <? _)%nat; [cbn; auto 10|]. cbn [h_gone h_gen h_cid set set_h_seq]. destruct (rdv_encode _ _) eqn:E; cbn; split_and!; try done; [right|by left; auto].
    eexists. split_and!; [done|done|by left].
  - destruct (first_owed _ _ _); [|cbn; auto 10]. destruct (rdv_encode _ _) eqn:E; cbn; split_and!; try done; [right|by left; auto].
    eexists. split_and!; [done|done|by right].
Qed.
Lemma publish_ok net o m : msg_ok m -> rdv_encode m RDV_MAX_MSG = Some (o_msg o) -> publish net (Some o) = m :: net.
Proof. intros Hm He. cbn. by rewrite (decode_encode m RDV_MAX_MSG). Qed.
Lemma next_world n w info : world_ok n w -> n + 1 < 2 ^ 32 ->
  world_ok (n + 1) (mk_world (rdv_host_next (w_h w) info).1 (w_k w) (publish (w_net w) (rdv_host_next (w_h w) info).2) (w_given w)).
Proof.
  intros W Hn. pose proof W as [W1 W2 W3 W4 W5 W6 W7 W8 W9]. set (h := w_h w) in *. pose proof (next_ok h info W1) as Hok.
  assert (Es : u32 (h_seq h + 1) = h_seq h + 1) by (apply Z.mod_small; lia). pose proof (next_cases h info) as (E1 & E2 & E3).
  destruct (rdv_host_next h info) as [h' out] eqn:E; cbn [fst snd] in *. rewrite Es in E3.
  destruct E3 as [(-> & Ec & Hs)|(o & -> & Hs & [[Ec He]|Hl])].
  - apply (host_part n w); try done; [unfold h in *; lia|by rewrite E2|by rewrite Ec|by left].
  - assert (Hm : msg_ok (info_msg h info)).
    { split; cbn; try done; [rewrite Es; unfold is_u32; lia|]. unfold rdv_encode in He. cbn [info_msg m_payload] in He.
      destruct (Nat.ltb_spec RDV_MAX_PAYLOAD (length info)); [done|lia]. }
    rewrite (publish_ok _ o _ Hm He). apply (host_part n w); try done; [unfold h in *; lia|by rewrite E2|by rewrite Ec|].
    right. exists (info_msg h info). split; [done|]. cbn [info_msg m_kind]. split; [by destruct (h_gone h)|]. split; [done|]. cbn [info_msg m_kind m_from w_h].
    rewrite E1. by destruct (h_gone h).
  - apply next_class in E as (_ & i & _ & Hi & Hp & _ & He & Eh); [|done].
    assert (Hu : used (c_at h i)). { intros Hf. destruct (ho_idle _ W1 i _ Hi (or_introl Hf)) as [Q _]. congruence. }
    destruct (owed_ok n w i W Hn Hi Hu) as (M1 & M2 & M3 & M4 & M5 & M6 & M7). fold h in M1, M2, M3, M4, M5, M6, M7. set (m := owed_msg h _ _) in *.
    rewrite (publish_ok _ o m M1 He). apply (host_part n w); try done; [unfold h in *; lia|by rewrite E2| |].
    { rewrite Eh. cbn [h_c set_c set set_h_c set_h_seq]. apply claims_insert; [done|]. intros _. eapply claim_same; [by apply (W5 i)|done|done|done|by left|by left]. }
    right. exists m. split; [done|]. split; [done|]. split; [done|]. cbn [w_h w_net w_given]. rewrite E1, Hs, M3.
    assert (Mr : m_re m = 0 \/ is_offer (m :: w_net w) (m_to m) (m_re m)) by (destruct M5; [by left|right; eapply is_offer_more; [|done]; set_solver]).
    destruct M7 as [Ek|Ek]; rewrite Ek; [split_and!; auto; unfold h in *; lia|split_and!; auto; unfold h in *; lia].
Qed.
Lemma host_do_scalars h o : host_ok h -> (forall info, o <> HNext info) ->
  h_cid (host_do h o) = h_cid h /\ h_seq (host_do h o) = h_seq h /\ (h_gen (host_do h o) = h_gen h \/ o = HSetGen (h_gen (host_do h o))).
Proof.
  intros H Hn. destruct o as [g| | |cid|m|cid p|cid|cid r|cid|cid|info]; cbn [host_do]; auto.
  - unfold rdv_host_set_gen. destruct (_ =? _); cbn; auto.
  - unfold rdv_host_release. cbv zeta. destruct (rdv_host_find h cid); [destruct (c_pending _)|]; auto.
  - destruct (slot_spec h m H) as [|h1 i h' c' new _ _ _ _ _ [] _ _]; auto.
  - unfold rdv_host_answer. by repeat case_match; auto.
  - unfold rdv_host_unsent. by repeat case_match; auto.
  - unfold rdv_host_refuse. by repeat case_match; auto.
  - unfold rdv_host_keep. by repeat case_match; auto.
  - unfold rdv_host_forget. by repeat case_match; auto.
  - by destruct (Hn info).
Qed.
Lemma host_claims net given h o : host_ok h -> claims net given (h_c h) -> (forall m, host_reads o = Some m -> m ∈ net /\ length (m_from m) = RDV_CID_LEN) ->
  (forall info, o <> HNext info) -> claims net (match o with HAnswer cid p => (cid, p) :: given | _ => given end) (h_c (host_do h o)).
Proof.
  intros H Hc Hm Hn. destruct o as [g| | |cid|m|cid p|cid|cid r|cid|cid|info]; cbn [host_do];
    auto using claims_release, claims_answer, claims_unsent, claims_refuse, claims_keep, claims_forget.
  - unfold rdv_host_set_gen. by destruct (_ =? _).
  - destruct (Hm m eq_refl). by apply claims_slot.
  - by destruct (Hn info).
Qed.
Lemma host_world n w o : world_ok n w -> n + 1 < 2 ^ 32 -> world_ok (n + 1) (world_do w (WHost o)).
Proof.
  intros W Hn. pose proof W as [W1 W2 W3 W4 W5 W6 W7 W8 W9].
  assert (Hsame : world_ok (n + 1) (mk_world (w_h w) (w_k w) (w_net w) (w_given w))) by (apply (host_part n w); try done; [lia|by left]).
  cbn [world_do]. destruct (stated (w_net w) (host_reads o)) eqn:Er; cbn [negb]; [|by destruct w].
  set (o' := match o with HSetGen g => HSetGen (u32 g) | _ => o end).
  assert (Hr : forall m, host_reads o' = Some m -> m ∈ w_net w /\ length (m_from m) = RDV_CID_LEN).
  { intros m Hm. destruct o; try done. injection Hm as ->. apply bool_decide_eq_true in Er. split; [done|]. by destruct (W6 _ Er) as [[] _]. }
  assert (Hg : forall g, o' = HSetGen g -> is_u32 g). { intros g E. destruct o; try done. injection E as <-. apply u32_range. }
  assert (Hc : (exists info, o' = HNext info) \/ forall info, o' <> HNext info) by (destruct o'; first [by right|by left; eexists]).
  clearbody o'. destruct Hc as [[info ->]|Hnx]; [by apply next_world|].
  destruct (host_do_scalars _ o' W1 Hnx) as (E1 & E2 & E3). pose proof (host_claims _ _ _ o' W1 W5 Hr Hnx) as Hcl.
  assert (G : is_u32 (h_gen (host_do (w_h w) o'))) by (destruct E3 as [-> |E3]; [done|by apply Hg]).
  pose proof (host_do_ok _ o' W1) as Hok. destruct o'; try (apply (host_part n w); try done; try (by left); try lia; set_solver).
Qed.

(** *** Lemmas: a claimant's side *)
Lemma would_take_spec k m : rdv_client_would_take k m = true ->
  (m_kind m = RDV_ANSWER \/ m_kind m = RDV_REFUSE) /\ m_to m = k_cid k /\ (k_have_host k = true -> m_from m = k_host_cid k) /\
  k_offer_seq k <> 0 /\ m_re m <> 0 /\ (m_re m = k_offer_seq k \/ m_re m = k_prev_offer_seq k) /\ (k_have_answer_seq k = true -> k_answer_seq k < m_seq m).
Proof.
  intros H. apply bool_decide_eq_true in H. unfold rdv_client_refusal in H.
  destruct (_ && _) eqn:E1 in H; [done|]. destruct (_ || _) eqn:E2 in H; [done|]. destruct (_ && _) eqn:E3 in H; [done|].
  destruct (negb (truth (k_offer_seq k))) eqn:E4; [done|]. destruct (_ && _) eqn:E5 in H; [done|]. destruct (_ && _) eqn:E6 in H; [done|].
  apply negb_false_iff in E4. unfold truth in *. apply negb_true_iff, Z.eqb_neq in E4.
  apply orb_false_iff in E2 as [_ E2]. apply negb_false_iff, bool_decide_eq_true in E2.
  split_and!; try done.
  - apply andb_false_iff in E1 as [E1|E1]; apply negb_false_iff, bool_decide_eq_true in E1; auto.
  - intros Hh. rewrite Hh in E3. by apply negb_false_iff, bool_decide_eq_true in E3.
  - apply andb_false_iff in E5 as [E5|E5]; apply negb_false_iff in E5; [apply Z.eqb_eq in E5; lia|]. apply andb_true_iff in E5 as [E5 E7].
    apply negb_true_iff, Z.eqb_neq in E5. apply Z.eqb_eq in E7. lia.
  - apply andb_false_iff in E5 as [E5|E5]; apply negb_false_iff in E5; [apply Z.eqb_eq in E5; auto|]. apply andb_true_iff in E5 as [_ E7]. apply Z.eqb_eq in E7. auto.
  - intros Hh. rewrite Hh in E6. cbn in E6. lia.
Qed.
(** What a statement read says of the world. *)
Lemma read_stmt n w m : world_ok n w -> m ∈ w_net w ->
  is_u32 (m_gen m) /\ (m_kind m <> RDV_OFFER -> m_from m = h_cid (w_h w)) /\ (m_kind m = RDV_ANSWER \/ m_kind m = RDV_REFUSE -> m_seq m <= h_seq (w_h w)).
Proof.
  intros W Hm. destruct (wo_net _ _ W m Hm) as [Ho Hs]. split; [by destruct Ho|]. destruct (m_kind m); split; try done; try (intros _; by destruct_and? Hs); by intros [?|?].
Qed.
Lemma offer_positive n w o : world_ok n w -> o ∈ w_net w -> m_kind o = RDV_OFFER -> 0 < m_seq o.
Proof. intros W Hm Ek. destruct (wo_net _ _ W o Hm) as [_ Hs]. rewrite Ek in Hs. destruct Hs as (k & _ & _ & H). lia. Qed.
(** The same claimant, apart from what the invariant leaves open. *)
Lemma client_same h net n k k' : client_ok h net n k -> k_cid k' = k_cid k -> k_seq k' = k_seq k -> k_offer_seq k' = k_offer_seq k ->
  (k_prev_offer_seq k' = k_prev_offer_seq k \/ k_prev_offer_seq k' = 0) -> k_offer k' = k_offer k -> k_have_host k' = k_have_host k -> k_host_cid k' = k_host_cid k ->
  k_host_gen k' = k_host_gen k -> (k_have_answer_seq k' = true -> k_answer_seq k' <= h_seq h) -> client_ok h net n k'.
Proof.
  intros [K1 K2 K3 K4 K5 K6 K7 K8 K9] E1 E2 E3 E4 E5 E6 E7 E8 E9. split; rewrite ?E1, ?E2, ?E3, ?E5, ?E6, ?E7, ?E8; try done. destruct E4 as [-> | ->]; lia.
Qed.
Ltac client_keeps K := apply (client_same _ _ _ _ _ K); first [done|by left|by right|by apply K].
Lemma host_slot_client n w k m seq : world_ok n w -> m ∈ w_net w -> client_ok (w_h w) (w_net w) n k -> client_ok (w_h w) (w_net w) n (rdv_client_host_slot k m seq).1.
Proof.
  intros W Hm K. unfold rdv_client_host_slot. destruct (_ && _) eqn:Ek; [done|]. destruct (bytes_eqb _ _); [done|].
  assert (Hk : m_kind m <> RDV_OFFER). { intros E. rewrite E in Ek. done. }
  destruct (read_stmt _ _ _ W Hm) as (Hg & Hf & _). specialize (Hf Hk).
  assert (K1 : client_ok (w_h w) (w_net w) n (client_copy_acts k m seq).1).
  { unfold client_copy_acts. destruct (_ && _ && _); [done|]. destruct (k_hseq k <? seq); [|done]. client_keeps K. }
  destruct (client_copy_acts k m seq) as [k1 acts]. cbn in K1. destruct acts; [cbn [negb]|done].
  destruct (bool_decide _); [client_keeps K1|].
  cbn [fst k_have_host k_host_cid k_host_gen set set_k_host_gone]. destruct (_ && _ && _); [client_keeps K1|].
  set (k2 := if _ && _ then _ else _). assert (K2 : client_ok (w_h w) (w_net w) n k2).
  { unfold k2. destruct (k_have_host k1 && negb (bytes_eqb (k_host_cid k1) (m_from m))); client_keeps K1. }
  clearbody k2. destruct K2 as [A1 A2 A3 A4 A5 A6 A7 A8 A9]. split; cbn; try done; [lia| |by rewrite Hf; apply W].
  intros o Ho Eo _ Es. pose proof (offer_positive _ _ _ W Ho Eo). lia.
Qed.
Lemma quiet_client n w k o k' out : world_ok n w -> (forall m, client_reads o = Some m -> m ∈ w_net w) -> client_ok (w_h w) (w_net w) n k ->
  (forall offer, o <> KNext offer) -> client_do k o = (k', out) -> client_ok (w_h w) (w_net w) n k' /\ out = None /\ k_cid k' = k_cid k /\ k_seq k' = k_seq k.
Proof.
  intros W Hr K Hn. destruct o as [m seq|seq|m|m| | |live|offer]; cbn [client_do]; try (by destruct (Hn offer)); intros [= <- <-].
  - split; [by apply (host_slot_client n w); [|apply Hr|]|]. split; [done|]. unfold rdv_client_host_slot, client_copy_acts. repeat (case_match; simplify_eq/=); done.
  - split; [|unfold rdv_client_ask_gone; by repeat case_match]. unfold rdv_client_ask_gone. repeat case_match; client_keeps K.
  - unfold rdv_client_own_slot. destruct (rdv_client_would_take k m) eqn:Et; cbn [negb fst]; [|done]. destruct (would_take_spec _ _ Et) as (Ek & _).
    destruct (read_stmt _ _ _ W (Hr m eq_refl)) as (_ & _ & Hs). specialize (Hs Ek).
    destruct (bool_decide _); (split; [apply (client_same _ _ _ _ _ K); first [done|by left]|done]).
  - unfold rdv_client_answer_unusable. destruct (rdv_client_would_take k m) eqn:Et; cbn [negb fst]; [|done]. destruct (would_take_spec _ _ Et) as (Ek & _).
    destruct (read_stmt _ _ _ W (Hr m eq_refl)) as (_ & _ & Hs). specialize (Hs Ek). split; [apply (client_same _ _ _ _ _ K); first [done|by left]|done].
  - split; [client_keeps K|done].
  - split; [client_keeps K|done].
  - split; [|unfold rdv_client_set_live; by case_match]. unfold rdv_client_set_live. case_match; client_keeps K.
Qed.
Lemma client_at_cid n w i k k' : world_ok n w -> w_k w !! i = Some k -> k' ∈ w_k w -> k_cid k' = k_cid k -> k' = k.
Proof.
  intros W Hi Hk E. apply list_elem_of_lookup in Hk as [j Hj]. pose proof (wo_cids _ _ W) as Hd.
  assert (i = j) as ->; [|congruence]. eapply (NoDup_lookup _ i j _ Hd); rewrite list_lookup_fmap; [by rewrite Hi|rewrite Hj; cbn; by rewrite E].
Qed.
(** A claimant changes and says nothing. *)
Lemma client_part n w i k k' : world_ok n w -> w_k w !! i = Some k -> client_ok (w_h w) (w_net w) n k' -> k_cid k' = k_cid k -> k_seq k' = k_seq k ->
  world_ok (n + 1) (mk_world (w_h w) (<[i := k']> (w_k w)) (w_net w) (w_given w)).
Proof.
  intros W Hi K Ec Es. pose proof W as [W1 W2 W3 W4 W5 W6 W7 W8 W9]. split; cbn [w_h w_k w_net w_given]; try done; [lia| | |].
  - intros m Hm. destruct (W6 m Hm) as [M1 M2]. split; [done|]. destruct (m_kind m); try done. destruct M2 as (k0 & Hk0 & Ef & Hs).
    destruct (decide (k_cid k0 = k_cid k)) as [E|E].
    + exists k'. split; [eapply list_elem_of_lookup_2; apply list_lookup_insert_eq; by eapply lookup_lt_Some|]. rewrite (client_at_cid _ _ _ _ _ W Hi Hk0 E) in *.
      rewrite Ec, Es. done.
    + exists k0. split; [|done]. apply list_elem_of_lookup in Hk0 as [j Hj]. apply list_elem_of_lookup. exists j. cbn [w_k]. rewrite list_lookup_insert_ne; [done|]. intros ->. congruence.
  - intros k0 Hk0. apply list_elem_of_lookup in Hk0 as [j Hj]. assert (C : client_ok (w_h w) (w_net w) n k0).
    { destruct (decide (i = j)) as [->|Hn]; [rewrite list_lookup_insert_eq in Hj by (by eapply lookup_lt_Some); by injection Hj as <-|].
      rewrite list_lookup_insert_ne in Hj by done. apply W8. by eapply list_elem_of_lookup_2. }
    destruct C as [C1 C2 C3 C4 C5 C6 C7 C8 C9]. split; try done. lia.
  - rewrite list_fmap_insert, list_insert_id; [done|]. rewrite list_lookup_fmap, Hi. cbn. by rewrite Ec.
Qed.
(** A claimant asks. *)
Lemma next_client k offer k' out : rdv_client_next k offer = (k', out) ->
  k_cid k' = k_cid k /\ k_host_cid k' = k_host_cid k /\ k_host_gen k' = k_host_gen k /\ k_have_host k' = k_have_host k /\
  k_have_answer_seq k' = k_have_answer_seq k /\ k_answer_seq k' = k_answer_seq k /\
  ((out = None /\ k_seq k' = k_seq k /\ k_offer_seq k' = k_offer_seq k /\ k_prev_offer_seq k' = k_prev_offer_seq k /\ k_offer k' = k_offer k) \/
   (k_have_host k = true /\ k_offer k' = offer /\ (length offer <= RDV_MAX_PAYLOAD)%nat /\ k_state k' = RDV_CL_OFFERED /\
    (exists o, out = Some o /\ rdv_encode (mk_rdv RDV_OFFER (k_host_gen k) (k_cid k) (k_host_cid k) (k_offer_seq k') 0 offer) RDV_MAX_MSG = Some (o_msg o)) /\
    ((k_seq k' = k_seq k /\ k_offer_seq k' = k_offer_seq k /\ k_offer_seq k <> 0 /\ k_offer k = offer /\ k_prev_offer_seq k' = k_prev_offer_seq k) \/
     (k_seq k' = u32 (k_seq k + 1) /\ k_offer_seq k' = u32 (k_seq k + 1) /\ k_prev_offer_seq k' = k_offer_seq k)))).
Proof.
  unfold rdv_client_next. assert (Hq : k_cid k = k_cid k /\ True) by done.
  destruct (_ || _ || _); [intros [= <- <-]; split_and!; auto 10|]. destruct (bool_decide _); [intros [= <- <-]; split_and!; auto 10|].
  destruct (k_have_host k) eqn:Eh; cbn [negb]; [|intros [= <- <-]; split_and!; auto 10].
  destruct (Nat.ltb_spec RDV_MAX_PAYLOAD (length offer)) as [|Hl]; [intros [= <- <-]; split_and!; auto 10|].
  unfold offer_seq. destruct (negb (k_reask k) && truth (k_offer_seq k) && bytes_eqb (k_offer k) offer) eqn:Es.
  - apply andb_true_iff in Es as [Es E3]. apply andb_true_iff in Es as [_ E2]. apply bool_decide_eq_true in E3. apply negb_true_iff, Z.eqb_neq in E2.
    destruct (rdv_encode _ _) as [msg|] eqn:Ee; intros [= <- <-]; [|split_and!; auto 10]. split_and!; try done. right. split_and!; try done; [by exists (mk_out msg RDV_SEAL_CLASS)|left; auto 10].
  - cbn [k_host_gen k_cid k_host_cid set set_k_reask set_k_offer set_k_prev_offer_seq set_k_seq set_k_offer_seq].
    assert (Hf : rdv_encode (mk_rdv RDV_OFFER (k_host_gen k) (k_cid k) (k_host_cid k) (u32 (k_seq k + 1)) 0 offer) RDV_MAX_MSG <> None).
    { unfold rdv_encode, RDV_MAX_MSG. cbn [m_payload]. destruct (Nat.ltb_spec RDV_MAX_PAYLOAD (length offer)); [lia|]. destruct (Nat.ltb_spec (RDV_HDR_LEN + RDV_MAX_PAYLOAD) (RDV_HDR_LEN + length offer)); [lia|done]. }
    change (k_host_gen (set_k_offer_seq _ _)) with (k_host_gen k). change (k_cid (set_k_offer_seq _ _)) with (k_cid k). change (k_host_cid (set_k_offer_seq _ _)) with (k_host_cid k).
    destruct (rdv_encode _ _) as [msg|] eqn:Ee; [|done]. intros [= <- <-]. split_and!; try done. right. split_and!; try done; [by exists (mk_out msg RDV_SEAL_CLASS)|by right].
Qed.
Lemma ask_world n w i k offer k' out : world_ok n w -> n + 1 < 2 ^ 32 -> w_k w !! i = Some k -> rdv_client_next k offer = (k', out) ->
  world_ok (n + 1) (mk_world (w_h w) (<[i := k']> (w_k w)) (publish (w_net w) out) (w_given w)).
Proof.
  intros W Hn Hi E. pose proof (wo_clients _ _ W k (list_elem_of_lookup_2 _ _ _ Hi)) as K. pose proof K as [K1 K2 K3 K4 K5 K6 K7 K8 K9].
  apply next_client in E as (E1 & E2 & E3 & E4 & E5 & E6 & [(-> & F1 & F2 & F3 & F4)|(Hh & Eo & Hl & _ & (o & -> & He) & Hs)]).
  { apply (client_part n w i k k'); try done. apply (client_same _ _ _ _ _ K); try done; [by left|]. rewrite E5, E6. done. }
  set (m := mk_rdv _ _ _ _ _ _ _) in He. assert (Eu : u32 (k_seq k + 1) = k_seq k + 1) by (apply Z.mod_small; lia). rewrite Eu in Hs.
  assert (Hpos : 0 < k_offer_seq k' <= k_seq k' /\ k_seq k <= k_seq k' <= n + 1 /\ 0 <= k_prev_offer_seq k' <= k_seq k').
  { destruct Hs as [(A & B & C & D & F)|(A & B & C)]; lia. }
  assert (Hm : msg_ok m). { split; cbn; try done; unfold is_u32; lia. }
  assert (Hold : forall o0, o0 ∈ w_net w -> m_kind o0 = RDV_OFFER -> m_from o0 = k_cid k -> m_seq o0 = k_offer_seq k' -> m_payload o0 = offer).
  { intros o0 Ho Ek Ef Eq. destruct Hs as [(A & B & C & D & F)|(A & B & C)]; [rewrite <- D; apply K5; try done; congruence|].
    destruct (wo_net _ _ W o0 Ho) as [_ S]. rewrite Ek in S. destruct S as (k0 & Hk0 & Ec & S). rewrite Ef in Ec. rewrite (client_at_cid _ _ _ _ _ W Hi Hk0) in S by done. lia. }
  assert (Hin : k' ∈ <[i := k']> (w_k w)). { eapply list_elem_of_lookup_2, list_lookup_insert_eq. by eapply lookup_lt_Some. }
  rewrite (publish_ok _ o m Hm He). pose proof W as [W1 W2 W3 W4 W5 W6 W7 W8 W9]. split; cbn [w_h w_k w_net w_given]; try done; [lia| | | | |].
  - eapply (claims_more (w_net w)); [set_solver|done|exact W5].
  - intros m0 [-> |H0]%elem_of_cons; [split; [done|]; exists k'; cbn; rewrite E1; split_and!; try done; lia|]. destruct (W6 m0 H0) as [M1 M2]. split; [done|].
    assert (Hmore : forall cid q, is_offer (w_net w) cid q -> is_offer (m :: w_net w) cid q) by (intros; eapply is_offer_more; [|done]; set_solver).
    destruct (m_kind m0); try done.
    + destruct M2 as (k0 & Hk0 & Ef & Hq). destruct (decide (k_cid k0 = k_cid k)) as [Ec|Ec].
      * exists k'. rewrite (client_at_cid _ _ _ _ _ W Hi Hk0 Ec) in *. rewrite E1. split_and!; try done; lia.
      * exists k0. split; [|done]. apply list_elem_of_lookup in Hk0 as [j Hj]. apply list_elem_of_lookup. exists j. cbn [w_k].
        rewrite list_lookup_insert_ne; [done|]. intros ->. congruence.
    + destruct M2 as (A & B & D & F). split_and!; try done. destruct D; auto.
    + destruct M2 as (A & B & D). split_and!; try done. destruct D; auto.
  - intros o1 o2 [-> |H1]%elem_of_cons [-> |H2]%elem_of_cons Q1 Q2 Q3 Q4; [done|symmetry; by apply Hold|by apply Hold|by apply W7].
  - intros k0 Hk0. apply list_elem_of_lookup in Hk0 as [j Hj]. destruct (decide (i = j)) as [->|Hne].
    + rewrite list_lookup_insert_eq in Hj by (by eapply lookup_lt_Some). injection Hj as <-. split; rewrite ?E1, ?E2, ?E3, ?E4, ?E5, ?E6; try done; try lia.
      intros o1 [-> |H1]%elem_of_cons Q1 Q2 Q3; [done|]. rewrite Eo. by apply Hold.
    + rewrite list_lookup_insert_ne in Hj by done. pose proof (list_elem_of_lookup_2 _ _ _ Hj) as Hk0. destruct (W8 _ Hk0) as [C1 C2 C3 C4 C5 C6 C7 C8 C9].
      split; try done; [lia|]. intros o1 [-> |H1]%elem_of_cons Q1 Q2 Q3; [|by apply C5]. exfalso. cbn in Q2. rewrite (client_at_cid _ _ _ _ _ W Hi Hk0) in Hj by done.
      apply Hne. eapply (NoDup_lookup _ i j _ W9); rewrite list_lookup_fmap; [by rewrite Hi|by rewrite Hj].
  - rewrite list_fmap_insert, list_insert_id; [done|]. rewrite list_lookup_fmap, Hi. cbn. by rewrite E1.
Qed.
Lemma world_do_ok n w o : world_ok n w -> n + 1 < 2 ^ 32 -> world_ok (n + 1) (world_do w o).
Proof.
  intros W Hn. destruct o as [o|i o]; [by apply host_world|]. cbn [world_do].
  assert (Hsame : world_ok (n + 1) w). { destruct w as [h ks net gv]. pose proof (wo_hseq _ _ W) as Hq. cbn in Hq.
    apply (host_part n (mk_world h ks net gv)); [done|apply W|done|cbn; lia|apply W|exact (wo_claims _ _ W)|done|by left]. }
  destruct (w_k w !! i) as [k|] eqn:Hi; [|done]. destruct (stated _ _) eqn:Er; cbn [negb]; [|done]. destruct (client_do k o) as [k' out] eqn:Ed.
  assert (Hc : (exists offer, o = KNext offer) \/ forall offer, o <> KNext offer) by (destruct o; first [by right|by left; eexists]).
  destruct Hc as [[offer ->]|Hnx]; [by eapply ask_world|].
  destruct (quiet_client n w k o k' out W) as (K & -> & Ec & Es); try done; [|by apply W; eapply list_elem_of_lookup_2|by eapply client_part].
  intros m Hm. rewrite Hm in Er. by apply bool_decide_eq_true in Er.
Qed.
Lemma world_init_ok cid gen grant cids : length cid = RDV_CID_LEN -> is_u32 gen -> Forall (fun c => length c = RDV_CID_LEN) cids -> NoDup cids ->
  world_ok 0 (world_init cid gen grant cids).
Proof.
  intros Hc Hg Hcs Hd. split; cbn [w_h w_k w_net w_given world_init]; try done.
  - apply init_host_ok.
  - intros i c Hi Hu. cbn in Hi. change (replicate RDV_HOST_MAX claimant_zero !! i = Some c) in Hi. apply lookup_replicate in Hi as [-> _]. by destruct Hu.
  - by intros m ?%elem_of_nil.
  - by intros o o' ?%elem_of_nil.
  - intros k Hk. apply list_elem_of_fmap in Hk as (c & -> & Hc'). rewrite Forall_forall in Hcs. split; cbn; try done; [by apply Hcs|by intros o ?%elem_of_nil].
  - rewrite map_map. cbn. by rewrite map_id.
Qed.
Lemma world_run_ok ops : forall n w, world_ok n w -> n + Z.of_nat (length ops) < 2 ^ 32 -> world_ok (n + Z.of_nat (length ops)) (world_run w ops).
Proof.
  induction ops as [|o ops IH]; intros n w W Hn; [by rewrite Z.add_0_r|]. cbn [length] in *. replace (n + Z.of_nat (S (length ops))) with (n + 1 + Z.of_nat (length ops)) by lia.
  apply IH; [apply world_do_ok; [done|lia]|lia].
Qed.

(** ** Properties *)

(** C9: a claimant takes only what is meant for it: whatever was stated, in whatever order it is
    read, a statement a claimant takes is the host's, is addressed to it, and answers an offer
    it did make, the only one it ever made under that number and, where it answers the offer
    that stands, that one; and an answer carries what the host answered to this claimant, or
    nothing. *)
Theorem taken_is_ours cid gen grant cids ops i k m :
  length cid = RDV_CID_LEN -> is_u32 gen -> Forall (fun c => length c = RDV_CID_LEN) cids -> NoDup cids -> Z.of_nat (length ops) < 2 ^ 32 ->
  let w := world_run (world_init cid gen grant cids) ops in
  w_k w !! i = Some k -> m ∈ w_net w -> rdv_client_would_take k m = true ->
  m_from m = h_cid (w_h w) /\ m_to m = k_cid k /\
  (exists o, o ∈ w_net w /\ m_kind o = RDV_OFFER /\ m_from o = k_cid k /\ m_seq o = m_re m /\
    (forall o', o' ∈ w_net w -> m_kind o' = RDV_OFFER -> m_from o' = k_cid k -> m_seq o' = m_re m -> m_payload o' = m_payload o) /\
    (m_re m = k_offer_seq k -> m_payload o = k_offer k)) /\
  (m_kind m = RDV_ANSWER -> m_payload m = [] \/ (k_cid k, m_payload m) ∈ w_given w).
Proof.
  intros Hc Hg Hcs Hd Hn w Hi Hm Ht. assert (W : world_ok (0 + Z.of_nat (length ops)) w) by (apply world_run_ok; [by apply world_init_ok|lia]).
  destruct (would_take_spec _ _ Ht) as (Ek & Eto & _ & _ & Hre & _). destruct (wo_net _ _ W m Hm) as [_ S].
  assert (B : m_from m = h_cid (w_h w) /\ is_offer (w_net w) (m_to m) (m_re m)).
  { destruct Ek as [Ek|Ek]; rewrite Ek in S; [destruct S as (A & _ & D & _)|destruct S as (A & _ & D)]; (split; [done|]; by destruct D). }
  destruct B as [Hf (o & Ho & Eo & Ef & Es)]. rewrite Eto in Ef. split_and!; [done|done| |].
  - exists o. split_and!; try done.
    + intros o' Ho' Eo' Ef' Es'. eapply (wo_text _ _ W); try done; congruence.
    + intros E. apply (wo_clients _ _ W k (list_elem_of_lookup_2 _ _ _ Hi)); try done. congruence.
  - intros Ek'. rewrite Ek' in S. destruct S as (_ & _ & _ & D). by rewrite Eto in D.
Qed.

(** What was taken stays taken. *)
Definition spent (k : rdv_client) (m : rdv_msg) : Prop := k_have_answer_seq k = true /\ m_seq m <= k_answer_seq k.
Lemma spent_not_taken k m : spent k m -> rdv_client_would_take k m = false.
Proof.
  intros [H1 H2]. destruct (rdv_client_would_take k m) eqn:E; [|done]. apply would_take_spec in E as (_ & _ & _ & _ & _ & _ & H). specialize (H H1). lia.
Qed.
Lemma spent_keeps n w k o k' out m : world_ok n w -> client_ok (w_h w) (w_net w) n k -> (forall m0, client_reads o = Some m0 -> m0 ∈ w_net w) ->
  client_do k o = (k', out) -> spent k m -> spent k' m.
Proof.
  intros W K Hr Hd [S1 S2]. destruct o as [m0 seq|seq|m0|m0| | |live|offer]; cbn [client_do] in Hd.
  - injection Hd as <- <-. unfold rdv_client_host_slot. destruct (_ && _) eqn:Ek; [done|]. destruct (bytes_eqb _ _); [done|].
    assert (Hk : m_kind m0 <> RDV_OFFER). { intros E. rewrite E in Ek. done. }
    destruct (read_stmt _ _ _ W (Hr m0 eq_refl)) as (_ & Hf & _). specialize (Hf Hk). pose proof (ko_host _ _ _ _ K) as Kh.
    unfold client_copy_acts. destruct (_ && _ && _); [done|]. cbn [negb]. set (k1 := if _ <? _ then _ else k).
    assert (S : k_have_answer_seq k1 = true /\ k_answer_seq k1 = k_answer_seq k /\ k_have_host k1 = k_have_host k /\ k_host_cid k1 = k_host_cid k).
    { unfold k1. by destruct (_ <? _). }
    destruct S as (A1 & A2 & A3 & A4). clearbody k1. destruct (bool_decide _); [split; cbn; [done|lia]|]. cbn [fst k_have_host k_host_cid k_host_gen set set_k_host_gone].
    change (k_have_host (set_k_host_gone false k1)) with (k_have_host k1). change (k_host_cid (set_k_host_gone false k1)) with (k_host_cid k1).
    destruct (_ && _ && _); [split; cbn; [done|lia]|]. destruct (k_have_host k1 && negb (bytes_eqb (k_host_cid k1) (m_from m0))) eqn:Em; [|split; cbn; [done|lia]].
    exfalso. apply andb_true_iff in Em as [E1 E2]. apply negb_true_iff, bool_decide_eq_false in E2. rewrite A3 in E1. apply E2. by rewrite A4, Hf, Kh.
  - injection Hd as <- <-. unfold rdv_client_ask_gone. by repeat case_match.
  - injection Hd as <- <-. unfold rdv_client_own_slot. destruct (rdv_client_would_take k m0) eqn:Et; cbn [negb]; [|done]. apply would_take_spec in Et as (_ & _ & _ & _ & _ & _ & Hs).
    specialize (Hs S1). destruct (bool_decide _); (split; cbn; [done|lia]).
  - injection Hd as <- <-. unfold rdv_client_answer_unusable. destruct (rdv_client_would_take k m0) eqn:Et; cbn [negb]; [|done]. apply would_take_spec in Et as (_ & _ & _ & _ & _ & _ & Hs).
    specialize (Hs S1). split; cbn; [done|lia].
  - by injection Hd as <- <-.
  - by injection Hd as <- <-.
  - injection Hd as <- <-. unfold rdv_client_set_live. by case_match.
  - apply next_client in Hd as (_ & _ & _ & _ & E5 & E6 & _). split; [by rewrite E5|by rewrite E6].
Qed.
Lemma spent_run ops : forall n w i k m, world_ok n w -> n + Z.of_nat (length ops) < 2 ^ 32 -> w_k w !! i = Some k -> spent k m ->
  exists k', w_k (world_run w ops) !! i = Some k' /\ spent k' m.
Proof.
  induction ops as [|o ops IH]; intros n w i k m W Hn Hi Hs; [by exists k|]. cbn [length] in Hn.
  assert (H1 : exists k1, w_k (world_do w o) !! i = Some k1 /\ spent k1 m).
  { destruct o as [o|j o]; cbn [world_do]; [exists k; by destruct (negb _)|]. destruct (w_k w !! j) as [kj|] eqn:Ej; [|by exists k]. destruct (stated _ _) eqn:Er; cbn [negb]; [|by exists k].
    destruct (client_do kj o) as [k' out] eqn:Ed. cbn [w_k]. destruct (decide (j = i)) as [->|Hne]; [|exists k; by rewrite list_lookup_insert_ne].
    exists k'. rewrite Hi in Ej. injection Ej as <-. split; [apply list_lookup_insert_eq; by eapply lookup_lt_Some|].
    eapply (spent_keeps n w k); try done; [by apply (wo_clients _ _ W); eapply list_elem_of_lookup_2|]. intros m0 Hm0. rewrite Hm0 in Er. by apply bool_decide_eq_true in Er. }
  destruct H1 as (k1 & Hk1 & Hs1). apply (IH (n + 1) (world_do w o) i k1); try done; [apply world_do_ok; [done|lia]|lia].
Qed.

(** C10: an answer is taken once: after a claimant has taken a statement, no copy of it, however late
    and however often it is served, is taken again. *)
Theorem taken_once cid gen grant cids ops more i k m :
  length cid = RDV_CID_LEN -> is_u32 gen -> Forall (fun c => length c = RDV_CID_LEN) cids -> NoDup cids ->
  Z.of_nat (length ops + length more) + 1 < 2 ^ 32 ->
  let w := world_run (world_init cid gen grant cids) ops in
  w_k w !! i = Some k -> m ∈ w_net w -> rdv_client_would_take k m = true ->
  exists k', w_k (world_run w (WClient i (KOwn m) :: more)) !! i = Some k' /\ rdv_client_would_take k' m = false.
Proof.
  intros Hc Hg Hcs Hd Hn w Hi Hm Ht. assert (W : world_ok (0 + Z.of_nat (length ops)) w) by (apply world_run_ok; [by apply world_init_ok|lia]).
  set (w1 := world_do w (WClient i (KOwn m))). assert (W1 : world_ok (0 + Z.of_nat (length ops) + 1) w1) by (apply world_do_ok; [done|lia]).
  assert (H1 : exists k1, w_k w1 !! i = Some k1 /\ spent k1 m).
  { exists (rdv_client_own_slot k m).1. unfold w1. cbn [world_do]. rewrite Hi. cbn [client_reads stated client_do]. rewrite bool_decide_eq_true_2 by done. cbn [negb w_k].
    split; [apply list_lookup_insert_eq; by eapply lookup_lt_Some|]. unfold rdv_client_own_slot. rewrite Ht. cbn [negb]. destruct (bool_decide _); (split; cbn; [done|lia]). }
  destruct H1 as (k1 & Hk1 & Hs1). destruct (spent_run more _ w1 i k1 m W1) as (k' & Hk' & Hs'); [lia|done|done|]. exists k'. split; [done|by apply spent_not_taken].
Qed.

(** ** Witnesses: one claimant, one exchange *)
Definition demo_host_cid : bytes := [200; 201; 202; 203; 204; 205; 206; 207].
Definition demo_start : world := world_init demo_host_cid 7 0 [demo_cid].
Definition demo_info : rdv_msg := mk_rdv RDV_HOSTINFO 7 demo_host_cid rdv_zero 1 0 [].
Definition demo_offer : rdv_msg := mk_rdv RDV_OFFER 7 demo_cid demo_host_cid 1 0 [7].
Definition demo_answer : rdv_msg := mk_rdv RDV_ANSWER 7 demo_host_cid demo_cid 2 1 [9].
Definition demo_meet : list world_op := [WHost (HNext []); WClient 0 (KHost demo_info 1)].
Definition demo_ops : list world_op :=
  demo_meet ++ [WClient 0 (KNext [7]); WHost (HSlot demo_offer); WHost (HAnswer demo_cid [9]); WHost (HNext [])].
Definition demo_waiting : rdv_client := nth 0 (w_k (world_run demo_start demo_ops)) (rdv_client_init []).

Lemma taken_is_ours_witness :
  rdv_client_would_take demo_waiting demo_answer = true /\ m_from demo_answer = demo_host_cid /\ m_to demo_answer = demo_cid /\
  (demo_cid, [9]) ∈ w_given (world_run demo_start demo_ops).
Proof.
  assert (H : Z.of_nat (length demo_ops) < 2 ^ 32) by (vm_compute; reflexivity).
  destruct (taken_is_ours demo_host_cid 7 0 [demo_cid] demo_ops 0 demo_waiting demo_answer) as (A & B & _ & D);
    [reflexivity|split; reflexivity || (intros ?; discriminate)|repeat constructor|apply NoDup_singleton|exact H|vm_compute; reflexivity|vm_compute; apply elem_of_cons; left; reflexivity|vm_compute; reflexivity|].
  split; [vm_compute; reflexivity|]. split; [exact A|]. split; [exact B|]. destruct (D eq_refl) as [E|E]; [discriminate E|exact E].
Defined.
Lemma taken_once_witness :
  exists k', w_k (world_run (world_run demo_start demo_ops) [WClient 0 (KOwn demo_answer); WClient 0 KReask]) !! 0%nat = Some k' /\
    rdv_client_would_take k' demo_answer = false.
Proof.
  assert (H : Z.of_nat (length demo_ops + 1) + 1 < 2 ^ 32) by (vm_compute; reflexivity).
  refine (taken_once demo_host_cid 7 0 [demo_cid] demo_ops [WClient 0 KReask] 0 demo_waiting demo_answer _ _ _ _ H _ _ _);
    [reflexivity|split; reflexivity || (intros ?; discriminate)|repeat constructor|apply NoDup_singleton|vm_compute; reflexivity|vm_compute; apply elem_of_cons; left; reflexivity|vm_compute; reflexivity].
Defined.
