(* ===== verification/RdvLive.v ===== *)
(** The rendezvous exchange of src/src/rdv.c goes through: from any state the two sides can
    reach, a claimant that may ask and a host that may answer complete an exchange in one
    round; and the one way a host's statement comes back as another than it was. *)
From S2P Require Import Prelude Rdv RdvWorld.

(** ** When a round goes through *)
(** The claimant has something new to ask and nothing keeps it from asking. *)
Definition may_ask (k : rdv_client) (offer : bytes) : bool :=
  negb (k_live k) && negb (bool_decide (k_state k = RDV_CL_REFUSED)) && negb (bool_decide (k_state k = RDV_CL_ANSWERED)) &&
  negb (k_host_gone k) && k_have_host k && (length offer <=? RDV_MAX_PAYLOAD)%nat && negb (bytes_eqb (k_cid k) rdv_zero) &&
  (k_reask k || (k_offer_seq k =? 0) || negb (bytes_eqb (k_offer k) offer)).
(** The host has room and nobody else to answer first. *)
Definition may_answer (h : rdv_host) (cid : bytes) : bool :=
  negb (h_info_pending h) && ((h_grant h =? 0) || (h_answered h <? h_grant h)) && bool_decide (is_Some (host_admit h cid)) &&
  forallb (fun c => negb (c_pending c) || bytes_eqb (c_cid c) cid) (h_c h).
(** Neither the host's own statement nor anything to a claimant waits or stands. *)
Definition nothing_owed (h : rdv_host) : Prop := h_info_pending h = false /\ forall j c, h_c h !! j = Some c -> quiet_c c.

(** ** Lemmas *)
Lemma find_at h i c : host_ok h -> h_c h !! i = Some c -> used c -> rdv_host_find h (c_cid c) = Some i.
Proof.
  intros H Hi Hu. destruct (rdv_host_find h (c_cid c)) as [j|] eqn:Ef.
  - apply find_spec in Ef as (Hj & Uj & Ec). by rewrite (ho_uniq _ H j i _ c Hj Hi Uj Hu Ec).
  - pose proof (first_c_none _ _ _ Ef i c Hi) as Hn. unfold c_named in Hn. apply andb_false_iff in Hn as [Hn|Hn].
    + by apply negb_false_iff, in_state_true in Hn.
    + by apply bool_decide_eq_false in Hn.
Qed.
Lemma stands_none l skip : (forall j d, l !! j = Some d -> j <> skip -> c_holds d = false) -> stands_from l 0 skip = false.
Proof.
  assert (G : forall i, (forall j d, l !! j = Some d -> (i + j)%nat <> skip -> c_holds d = false) -> stands_from l i skip = false); [|exact (G 0%nat)].
  induction l as [|x l IH]; intros i H; [done|]. cbn. rewrite IH; [|intros j d Hd Hn; apply (H (S j) d Hd); lia]. rewrite orb_false_r.
  destruct (Nat.eqb_spec i skip) as [->|Hn]; [done|]. apply (H 0%nat x eq_refl). lia.
Qed.
Lemma first_owed_only h l c j : forall i, l !! j = Some c -> c_pending c = true -> answer_stands h (i + j)%nat = false ->
  (forall a d, l !! a = Some d -> c_pending d = true -> a = j) -> first_owed h l i = Some (i + j)%nat.
Proof.
  revert j. induction l as [|x l IH]; intros [|j] i Hj Hp Hs Ho; try done; cbn.
  - injection Hj as ->. rewrite Nat.add_0_r in *. by rewrite Hp, Hs.
  - destruct (c_pending x) eqn:Ex; [discriminate (Ho 0%nat x eq_refl Ex)|]. cbn. replace (i + S j)%nat with (S i + j)%nat by lia.
    apply IH; try done; [by replace (S i + j)%nat with (i + S j)%nat by lia|]. intros a d Ha Hd. specialize (Ho (S a) d Ha Hd). lia.
Qed.
Lemma encode_fits m : (length (m_payload m) <= RDV_MAX_PAYLOAD)%nat -> is_Some (rdv_encode m RDV_MAX_MSG).
Proof.
  intros H. unfold rdv_encode, RDV_MAX_MSG. destruct (Nat.ltb_spec RDV_MAX_PAYLOAD (length (m_payload m))); [lia|].
  destruct (Nat.ltb_spec (RDV_HDR_LEN + RDV_MAX_PAYLOAD) (RDV_HDR_LEN + length (m_payload m))); [lia|by eexists].
Qed.
(** A claimant that may ask puts its offer under a number of its own. *)
Lemma ask_new k offer : may_ask k offer = true ->
  exists k' o, rdv_client_next k offer = (k', Some o) /\ k_seq k' = u32 (k_seq k + 1) /\ k_offer_seq k' = u32 (k_seq k + 1) /\ k_state k' = RDV_CL_OFFERED /\
    rdv_encode (mk_rdv RDV_OFFER (k_host_gen k) (k_cid k) (k_host_cid k) (u32 (k_seq k + 1)) 0 offer) RDV_MAX_MSG = Some (o_msg o).
Proof.
  unfold may_ask, rdv_client_next. intros H. repeat (apply andb_true_iff in H as [H ?]).
  repeat match goal with E : negb _ = true |- _ => apply negb_true_iff in E; rewrite ?E end. cbn [orb].
  match goal with E : k_have_host k = true |- _ => rewrite E end. cbn [negb].
  match goal with E : (length offer <=? _)%nat = true |- _ => apply Nat.leb_le in E as Hl end.
  destruct (Nat.ltb_spec RDV_MAX_PAYLOAD (length offer)); [lia|]. unfold offer_seq.
  assert (En : negb (k_reask k) && truth (k_offer_seq k) && bytes_eqb (k_offer k) offer = false).
  { unfold truth. match goal with E : (k_reask k || _ || _) = true |- _ => clear -E; destruct (k_reask k), (k_offer_seq k =? 0), (bytes_eqb (k_offer k) offer); done end. }
  rewrite En. destruct (encode_fits (mk_rdv RDV_OFFER (k_host_gen k) (k_cid k) (k_host_cid k) (u32 (k_seq k + 1)) 0 offer)) as [msg He]; [done|].
  set (k1 := k <| k_reask := false |> <| k_offer := offer |> <| k_prev_offer_seq := _ |> <| k_seq := _ |> <| k_offer_seq := _ |>).
  change (k_host_gen k1) with (k_host_gen k). change (k_cid k1) with (k_cid k). change (k_host_cid k1) with (k_host_cid k). rewrite He. by do 2 eexists.
Qed.
Lemma admit_other h cid h1 j a d : host_admit h cid = Some (h1, j) -> h_c h1 !! a = Some d -> a = j \/ h_c h !! a = Some d.
Proof.
  unfold host_admit. destruct (rdv_host_find h cid); [intros [= <- <-]; auto|]. destruct (match host_evict h RDV_C_FREE with Some _ => _ | None => _ end) as [b|]; [|done].
  intros [= <- <-] Hd. cbn in Hd. destruct (decide (b = a)) as [->|Hn]; [by left|right]. by rewrite list_lookup_insert_ne in Hd.
Qed.
(** An offer under a number the host has not seen is new to it while it has room. *)
Lemma slot_new h m : host_ok h -> may_answer h (m_from m) = true -> m_kind m = RDV_OFFER -> m_from m <> rdv_zero -> m_to m = h_cid h ->
  (forall i c, h_c h !! i = Some c -> used c -> c_cid c = m_from m -> c_last_seq c < m_seq m) -> (rdv_host_slot h m).2 = true.
Proof.
  intros H Ha Ek Ez Et Hf. unfold may_answer in Ha. repeat (apply andb_true_iff in Ha as [Ha ?]).
  match goal with E : bool_decide (is_Some _) = true |- _ => apply bool_decide_eq_true in E as [[h1 i] Ea] end.
  unfold rdv_host_slot. rewrite Ek. cbn [bool_decide decide negb]. rewrite (bool_decide_eq_true_2 (RDV_OFFER = RDV_OFFER)) by done. cbn [negb].
  unfold bytes_eqb at 1. rewrite bool_decide_eq_false_2 by done.
  assert (Eto : rdv_addressed_to (m_to m) (h_cid h) = true). { unfold rdv_addressed_to. rewrite Et. case_match; [done|]. by apply bool_decide_eq_true. }
  rewrite Eto, Ea. cbn [negb]. pose proof (admit_ok _ _ _ _ H Ea) as (H1 & Hi & Hu & Hc). pose proof (admit_scalars _ _ _ _ Ea) as S.
  assert (Ef : c_have_seq (c_at h1 i) && (m_seq m <=? c_last_seq (c_at h1 i)) = false).
  { unfold host_admit in Ea. destruct (rdv_host_find h (m_from m)) as [j|] eqn:Efi.
    - injection Ea as <- <-. apply find_spec in Efi as (F1 & F2 & F3). specialize (Hf j _ F1 F2 F3). lia.
    - destruct (match host_evict h RDV_C_FREE with Some _ => _ | None => _ end) as [j|]; [|done]. injection Ea as <- <-. unfold c_at. cbn.
      cbn in Hi. assert (Hl := lookup_lt_Some _ _ _ Hi). rewrite length_insert in Hl. erewrite nth_lookup_Some by (by apply list_lookup_insert_eq). done. }
  rewrite Ef. cbv zeta. set (h3 := (set_c h1 i _) <| h_turn_spent := false |> <| h_c := _ |>). set (h4 := if in_state RDV_C_ANSWERED (c_at h3 i) then _ else h3).
  assert (A4 : h_grant h4 = h_grant h /\ h_answered h4 <= h_answered h).
  { assert (A1 : h_answered h1 = h_answered h). { unfold host_admit in Ea. repeat case_match; try done; by injection Ea as <- <-. }
    assert (A3 : h_grant h3 = h_grant h /\ h_answered h3 = h_answered h) by (split; [apply S|exact A1]). clearbody h3. unfold h4. destruct (in_state _ _); [|lia].
    cbn. destruct A3 as [-> ->]. split; [done|]. case_match; lia. }
  clearbody h4. set (h5 := if in_state RDV_C_GONE (c_at h4 i) || in_state RDV_C_REFUSED (c_at h4 i) then _ else h4).
  assert (A5 : h_grant h5 = h_grant h /\ h_answered h5 <= h_answered h) by (unfold h5; destruct (in_state RDV_C_GONE (c_at h4 i) || _); exact A4). clearbody h5. destruct A5 as [G5 A5].
  match goal with E : ((h_grant h =? 0) || _) = true |- _ => rename E into Hg end.
  unfold truth. rewrite G5. destruct (Z.eqb_spec (h_grant h) 0); cbn; [done|]. cbn in Hg. destruct (Z.leb_spec (h_grant h) (h_answered h5)); [lia|done].
Qed.
(** The one claimant owed something is told next. *)
Lemma states_owed h i c : h_info_pending h = false -> h_c h !! i = Some c -> c_pending c = true ->
  (forall a d, h_c h !! a = Some d -> a <> i -> quiet_c d) -> (length (c_answer c) <= RDV_MAX_PAYLOAD)%nat ->
  exists o, rdv_host_next h [] = (set_c (h <| h_seq := u32 (h_seq h + 1) |>) i (c <| c_pending := false |> <| c_holds := true |>), Some o) /\
    rdv_encode (owed_msg h c (u32 (h_seq h + 1))) RDV_MAX_MSG = Some (o_msg o).
Proof.
  intros Hip Hi Hp Hq Hl. assert (Hst : answer_stands h i = false).
  { apply stands_none. intros a d Hd Hn. by destruct (Hq a d Hd Hn). }
  assert (Hon : forall a d, h_c h !! a = Some d -> c_pending d = true -> a = i).
  { intros a d Hd Hpd. destruct (decide (a = i)) as [->|Hn]; [done|]. destruct (Hq a d Hd Hn) as [Q _]. congruence. }
  pose proof (first_owed_only h (h_c h) c i 0%nat Hi Hp Hst Hon) as Hfo. unfold rdv_host_next. rewrite Hip, Hfo. cbn [Nat.add]. rewrite (c_at_lookup _ _ _ Hi).
  change (owed_msg (h <| h_seq := u32 (h_seq h + 1) |>) c (u32 (h_seq h + 1))) with (owed_msg h c (u32 (h_seq h + 1))).
  destruct (encode_fits (owed_msg h c (u32 (h_seq h + 1)))) as [msg He]; [unfold owed_msg; case_match; cbn; unfold RDV_MAX_PAYLOAD in *; lia|].
  rewrite He. by eexists.
Qed.
Lemma slot_at h m i : host_ok h -> rdv_host_find h (m_from m) = Some i -> (rdv_host_slot h m).2 = true ->
  exists c', h_c (rdv_host_slot h m).1 = <[i := c']> (clear_holds (h_c h)) /\ scalars_same h (rdv_host_slot h m).1 /\ heard (c_at h i) c' m true.
Proof.
  intros H Hf Hs. pose proof (slot_spec h m H) as Hsp. rewrite Hs in Hsp. remember true as new. destruct Hsp as [|h1' j h2 c' new _ _ Ea _ Ec S D _]; [done|]. subst new.
  unfold host_admit in Ea. rewrite Hf in Ea. injection Ea as -> ->. by exists c'.
Qed.
(** It is then the one claimant something may be owed to. *)
Lemma heard_alone h m : host_ok h -> may_answer h (m_from m) = true -> m_kind m = RDV_OFFER -> m_from m <> rdv_zero -> m_to m = h_cid h ->
  (forall i c, h_c h !! i = Some c -> used c -> c_cid c = m_from m -> c_last_seq c < m_seq m) ->
  let h2 := (rdv_host_slot h m).1 in
  exists i c, rdv_host_find h2 (m_from m) = Some i /\ h_c h2 !! i = Some c /\ c_cid c = m_from m /\ c_state c = RDV_C_HARVESTED /\ c_last_seq c = m_seq m /\
    c_holds c = false /\ (forall a d, h_c h2 !! a = Some d -> a <> i -> quiet_c d) /\ h_info_pending h2 = false /\ scalars_same h h2 /\ host_ok h2.
Proof.
  intros H Ha Ek Ez Et Hf. pose proof (slot_new h m H Ha Ek Ez Et Hf) as Hnew. pose proof (slot_ok h m H) as H2. pose proof (slot_spec h m H) as Hs. cbv zeta.
  unfold may_answer in Ha. apply andb_true_iff in Ha as [Ha Hpend]. apply andb_true_iff in Ha as [Ha _]. apply andb_true_iff in Ha as [Ha _]. apply negb_true_iff in Ha.
  rewrite Hnew in Hs. remember true as new. destruct Hs as [|h1 j h2 c' new _ _ Ea _ Ec S [D1 D2 D3 D4 D5 D6 D7 D8] _]; [done|]. subst new.
  pose proof (admit_ok _ _ _ _ H Ea) as (H1 & Hj & Uj & Cj). clear Hnew.
  assert (Hl : (j < length (clear_holds (h_c h1)))%nat) by (unfold clear_holds; rewrite length_map; by eapply lookup_lt_Some).
  assert (Hj2 : h_c h2 !! j = Some c') by (rewrite Ec; by apply list_lookup_insert_eq). exists j, c'. rewrite D1, Cj.
  assert (Ef : rdv_host_find h2 (m_from m) = Some j). { rewrite <- Cj, <- D1. apply find_at; [done|done|]. intros E. rewrite D7 in E. done. }
  split_and!; try done; [|by rewrite (ss_info _ _ S)]. intros a d Hd Hn. rewrite Ec, list_lookup_insert_ne in Hd by done. unfold clear_holds in Hd. rewrite list_lookup_fmap in Hd.
  destruct (h_c h1 !! a) as [d0|] eqn:Hd0; [|done]. injection Hd as <-. split; [|done]. cbn. destruct (c_pending d0) eqn:Hpd; [|done]. destruct Hn.
  assert (Ud : used d0). { intros E. destruct (ho_idle _ H1 a d0 Hd0 (or_introl E)) as [Q _]. congruence. }
  apply (ho_uniq _ H1 a j d0 _ Hd0 Hj Ud Uj). rewrite Cj. destruct (admit_other _ _ _ _ a d0 Ea Hd0) as [->|Hd0h]; [congruence|].
  rewrite forallb_forall in Hpend. specialize (Hpend d0). rewrite <- list_elem_of_In in Hpend. specialize (Hpend (list_elem_of_lookup_2 _ _ _ Hd0h)).
  rewrite Hpd in Hpend. by apply bool_decide_eq_true in Hpend.
Qed.
(** A claimant heard and nobody else to answer: its answer is the next thing the host says. *)
Lemma answer_next h cid i c payload : host_ok h -> rdv_host_find h cid = Some i -> h_c h !! i = Some c -> c_cid c = cid -> c_state c = RDV_C_HARVESTED -> c_holds c = false ->
  (forall a d, h_c h !! a = Some d -> a <> i -> quiet_c d) -> h_info_pending h = false -> (length payload <= RDV_MAX_PAYLOAD)%nat ->
  exists h' o c', rdv_host_next (rdv_host_answer h cid payload) [] = (h', Some o) /\ o_seal o = RDV_SEAL_CLASS /\
    rdv_encode (mk_rdv RDV_ANSWER (h_gen h) (h_cid h) cid (u32 (h_seq h + 1)) (c_last_seq c) payload) RDV_MAX_MSG = Some (o_msg o) /\
    h_c h' = <[i := c']> (h_c h) /\ h_info_pending h' = false /\ c_cid c' = cid /\ c_pending c' = false /\ c_state c' = RDV_C_ANSWERED /\
    c_grade c' = c_grade c /\ c_wide_ask c' = c_wide_ask c.
Proof.
  intros H Ef Hi Hc Hst Hh Hq Hip Hp. unfold rdv_host_answer. rewrite Ef. destruct (Nat.ltb_spec RDV_MAX_PAYLOAD (length payload)); [lia|].
  rewrite (c_at_lookup _ _ _ Hi). cbv zeta. unfold in_state at 1. rewrite Hst, bool_decide_eq_false_2 by done.
  set (c3 := c <| c_state := _ |> <| c_refusal := _ |> <| c_pending := true |> <| c_answer_re := _ |> <| c_answer := payload |>).
  set (h3 := set_c (h <| h_answered := _ |>) i c3). assert (Hi3 : h_c h3 !! i = Some c3) by (cbn; apply list_lookup_insert_eq; by eapply lookup_lt_Some).
  destruct (states_owed h3 i c3) as (o & En & Eo); [exact Hip|done|done| |done|].
  { intros a d Hd Hn. cbn in Hd. rewrite list_lookup_insert_ne in Hd by done. by apply (Hq a). }
  rewrite En. eexists _, o, _. split; [done|]. split.
  { unfold rdv_host_next in En. change (h_info_pending h3) with (h_info_pending h) in En. rewrite Hip in En. destruct (first_owed h3 (h_c h3) 0); [|done]. destruct (rdv_encode _ _); [|done].
    injection En as _ <-. done. }
  split; [rewrite <- Eo; unfold owed_msg; change (in_state RDV_C_REFUSED c3) with false; cbn; by rewrite Hc|]. cbn. rewrite list_insert_insert_eq. done.
Qed.
Lemma host_round h m payload : host_ok h -> may_answer h (m_from m) = true -> m_kind m = RDV_OFFER -> m_from m <> rdv_zero -> m_to m = h_cid h ->
  (forall i c, h_c h !! i = Some c -> used c -> c_cid c = m_from m -> c_last_seq c < m_seq m) -> (length payload <= RDV_MAX_PAYLOAD)%nat ->
  exists h' o, rdv_host_next (rdv_host_answer (rdv_host_slot h m).1 (m_from m) payload) [] = (h', Some o) /\
    rdv_encode (mk_rdv RDV_ANSWER (h_gen h) (h_cid h) (m_from m) (u32 (h_seq h + 1)) (m_seq m) payload) RDV_MAX_MSG = Some (o_msg o).
Proof.
  intros H Ha Ek Ez Et Hf Hp. destruct (heard_alone h m H Ha Ek Ez Et Hf) as (i & c & Efi & Hi & Hc & Hst & Hls & Hh & Hq & Hip & [S1 S2 S3 S4 S5 S6] & H2).
  destruct (answer_next _ _ _ _ payload H2 Efi Hi Hc Hst Hh Hq Hip Hp) as (h' & o & c' & En & _ & Eo & _). rewrite S1, S2, S3, Hls in Eo. eauto.
Qed.
(** An answer to the offer that stands, newer than the last one taken, is taken. *)
Lemma would_take_when k m : m_kind m = RDV_ANSWER -> m_to m = k_cid k -> (k_have_host k = true -> m_from m = k_host_cid k) -> k_offer_seq k <> 0 ->
  m_re m = k_offer_seq k -> (k_have_answer_seq k = true -> k_answer_seq k < m_seq m) -> rdv_client_would_take k m = true.
Proof.
  intros Ek Et Ef Eo Er Es. apply bool_decide_eq_true. unfold rdv_client_refusal. rewrite Ek. rewrite (bool_decide_eq_true_2 (RDV_ANSWER = RDV_ANSWER)) by done. cbn [negb andb].
  assert (Ea : rdv_addressed_to (m_to m) (k_cid k) = true). { unfold rdv_addressed_to. rewrite Et. case_match; [done|]. by apply bool_decide_eq_true. }
  rewrite Ea, Et. unfold bytes_eqb. rewrite (bool_decide_eq_true_2 (k_cid k = k_cid k)) by done. cbn [negb orb].
  destruct (k_have_host k); [rewrite bool_decide_eq_true_2 by auto|]; cbn [andb negb]; unfold truth; (rewrite (proj2 (Z.eqb_neq _ _) Eo); cbn [negb];
    rewrite Er, Z.eqb_refl; cbn [negb andb]; destruct (k_have_answer_seq k); [|done]; cbn [andb]; destruct (Z.leb_spec (m_seq m) (k_answer_seq k)); [specialize (Es eq_refl); lia|done]).
Qed.
Lemma taken_when k m : m_kind m = RDV_ANSWER -> m_to m = k_cid k -> (k_have_host k = true -> m_from m = k_host_cid k) -> k_offer_seq k <> 0 ->
  m_re m = k_offer_seq k -> (k_have_answer_seq k = true -> k_answer_seq k < m_seq m) ->
  k_state (rdv_client_own_slot k m).1 = RDV_CL_ANSWERED /\ k_answer (rdv_client_own_slot k m).1 = m_payload m.
Proof.
  intros Ek Et Ef Eo Er Es. unfold rdv_client_own_slot. rewrite (would_take_when k m Ek Et Ef Eo Er Es), Ek. cbn [negb]. by rewrite bool_decide_eq_false_2.
Qed.

(** ** Properties *)

(** The exchange goes through: from any state the two sides can reach, a claimant with something
    new to ask and a host with room for it and nobody else to answer complete one round: the
    claimant puts its offer, the host reads it and answers, the claimant reads what the host
    states next, and it has taken that answer. *)
Theorem exchange_completes cid gen grant cids ops i k offer payload :
  length cid = RDV_CID_LEN -> is_u32 gen -> Forall (fun c => length c = RDV_CID_LEN) cids -> NoDup cids -> Z.of_nat (length ops) + 5 < 2 ^ 32 ->
  let w := world_run (world_init cid gen grant cids) ops in
  w_k w !! i = Some k -> may_ask k offer = true -> may_answer (w_h w) (k_cid k) = true -> (length payload <= RDV_MAX_PAYLOAD)%nat ->
  let w1 := world_do w (WClient i (KNext offer)) in
  exists m1, head (w_net w1) = Some m1 /\
    let w4 := world_run w1 [WHost (HSlot m1); WHost (HAnswer (k_cid k) payload); WHost (HNext [])] in
    exists m2, head (w_net w4) = Some m2 /\
      exists k', w_k (world_do w4 (WClient i (KOwn m2))) !! i = Some k' /\ k_state k' = RDV_CL_ANSWERED /\ k_answer k' = payload.
Proof.
  intros Hc Hg Hcs Hd Hn w Hi Hask Hans Hp. assert (W : world_ok (0 + Z.of_nat (length ops)) w) by (apply world_run_ok; [by apply world_init_ok|lia]).
  pose proof (wo_clients _ _ W k (list_elem_of_lookup_2 _ _ _ Hi)) as K. pose proof (ko_seq _ _ _ _ K) as Kq. pose proof (wo_hseq _ _ W) as Hq.
  destruct (ask_new k offer Hask) as (k1 & o & Ek & Es1 & Es2 & Est & He). pose proof Hask as Hask'. unfold may_ask in Hask'. repeat (apply andb_true_iff in Hask' as [Hask' ?]).
  assert (Eu : u32 (k_seq k + 1) = k_seq k + 1) by (apply Z.mod_small; lia). rewrite Eu in *. set (m1 := mk_rdv _ _ _ _ _ _ _) in He.
  assert (Hh : k_have_host k = true) by done. pose proof (ko_host _ _ _ _ K Hh) as Ehost. pose proof (next_client _ _ _ _ Ek) as (C1 & C2 & C3 & C4 & C5 & C6 & _).
  assert (M1 : msg_ok m1). { split; cbn; try apply K; try (unfold is_u32; lia). match goal with E : (length offer <=? _)%nat = true |- _ => by apply Nat.leb_le end. }
  cbn [world_do]. rewrite Hi. cbn [client_reads stated negb client_do]. rewrite Ek, (publish_ok _ o m1 M1 He). exists m1. split; [done|].
  cbn [world_run fold_left world_do host_reads stated w_net]. rewrite bool_decide_eq_true_2 by (apply elem_of_cons; by left). cbn [negb host_do w_h w_k w_net w_given].
  assert (Hz : k_cid k <> rdv_zero). { match goal with E : negb (bytes_eqb (k_cid k) rdv_zero) = true |- _ => by apply negb_true_iff, bool_decide_eq_false in E end. }
  destruct (host_round (w_h w) m1 payload) as (h' & o2 & En & He2); try done; [apply W| |].
  { intros j c Hj Hu Ec. destruct (wo_claims _ _ W j c Hj Hu) as [_ (o1 & Ho & Eko & Efo & Eso) _ _ _ _]. destruct (wo_net _ _ W o1 Ho) as [_ S].
    rewrite Eko in S. destruct S as (k0 & Hk0 & Ef0 & S0). cbn in Ec. rewrite (client_at_cid _ _ _ _ _ W Hi Hk0) in S0 by congruence. cbn. lia. }
  change (m_from m1) with (k_cid k) in *. rewrite En. cbn [fst snd]. set (m2 := mk_rdv _ _ _ _ _ _ _) in He2.
  assert (Eh : u32 (h_seq (w_h w) + 1) = h_seq (w_h w) + 1) by (apply Z.mod_small; lia).
  assert (M2 : msg_ok m2). { split; cbn [m_gen m_seq m_re m_from m_to m_payload m2]; [apply W|rewrite Eh; unfold is_u32; lia|unfold is_u32; cbn; lia|apply W|apply K|done]. }
  rewrite (publish_ok _ o2 m2 M2 He2). exists m2. split; [done|]. cbn [w_k]. rewrite list_lookup_insert_eq by (by eapply lookup_lt_Some).
  cbn [client_reads stated w_net client_do]. rewrite bool_decide_eq_true_2 by (apply elem_of_cons; by left). cbn [negb w_k].
  rewrite list_insert_insert_eq, list_lookup_insert_eq by (by eapply lookup_lt_Some). eexists. split; [done|].
  apply taken_when; cbn; [done|by rewrite C1|by rewrite C2, Ehost|lia|by rewrite Es2|]. rewrite C5, C6, Eh. intros Ha. pose proof (ko_answer _ _ _ _ K Ha). lia.
Qed.
Lemma exchange_completes_witness :
  exists m1, head (w_net (world_do (world_run demo_start demo_meet) (WClient 0 (KNext [7])))) = Some m1 /\ m1 = demo_offer.
Proof.
  assert (H : Z.of_nat (length demo_meet) + 5 < 2 ^ 32) by (vm_compute; reflexivity).
  destruct (exchange_completes demo_host_cid 7 0 [demo_cid] demo_meet 0 (nth 0 (w_k (world_run demo_start demo_meet)) (rdv_client_init [])) [7] [9])
    as (m1 & E & _); [reflexivity|split; reflexivity || (intros ?; discriminate)|repeat constructor|apply NoDup_singleton|exact H|vm_compute; reflexivity
    |vm_compute; reflexivity|vm_compute; reflexivity|cbn; unfold RDV_MAX_PAYLOAD; lia|].
  exists m1. split; [exact E|]. vm_compute in E. injection E as <-. reflexivity.
Defined.

(** A refusal that comes back unsent comes back as something else: where the claimant the host
    refused asks again before the store of that refusal fails, what the host states to it next
    is neither a refusal nor an answer it gave, but an empty answer to the ask before. *)
Theorem unsent_refusal_is_empty_answer h cid reason m i :
  host_ok h -> nothing_owed h -> rdv_host_find h cid = Some i ->
  let h1 := (rdv_host_next (rdv_host_refuse h cid reason) []).1 in
  m_from m = cid -> (rdv_host_slot h1 m).2 = true ->
  exists o, (rdv_host_next (rdv_host_unsent (rdv_host_slot h1 m).1 cid) []).2 = Some o /\
    rdv_encode (mk_rdv RDV_ANSWER (h_gen h) (h_cid h) cid (u32 (u32 (h_seq h + 1) + 1)) (c_last_seq (c_at h i)) []) RDV_MAX_MSG = Some (o_msg o).
Proof.
  intros H [Hip Hq] Ef h1 Em Hs. pose proof (next_ok _ [] (refuse_ok h cid reason H)) as H1. fold h1 in H1. apply find_spec in Ef as F. destruct F as (Hi & Hu & Hc).
  assert (Hl := lookup_lt_Some _ _ _ Hi). set (c0 := c_at h i) in *.
  set (cr := c0 <| c_state := RDV_C_REFUSED |> <| c_refusal := u8 reason |> <| c_pending := true |> <| c_answer_re := c_last_seq c0 |> <| c_answer := [] |>).
  assert (E0 : h_c (rdv_host_refuse h cid reason) = <[i := cr]> (h_c h) /\ scalars_same h (rdv_host_refuse h cid reason)).
  { unfold rdv_host_refuse. rewrite Ef. fold c0. cbv zeta. by destruct (in_state _ _). }
  destruct E0 as [E0 [S1 S2 S3 S4 S5 S6]]. set (h0 := rdv_host_refuse h cid reason) in *. clearbody h0.
  destruct (states_owed h0 i cr) as (o0 & En & _); [by rewrite S5|rewrite E0; by apply list_lookup_insert_eq|done| |cbn; lia|].
  { intros a d Hd Hne. rewrite E0, list_lookup_insert_ne in Hd by done. by apply (Hq a). }
  assert (E1 : h1 = set_c (h0 <| h_seq := u32 (h_seq h0 + 1) |>) i (cr <| c_pending := false |> <| c_holds := true |>)) by (unfold h1; by rewrite En).
  assert (C1 : h_c h1 = <[i := cr <| c_pending := false |> <| c_holds := true |>]> (h_c h)) by (rewrite E1; cbn; by rewrite E0, list_insert_insert_eq).
  assert (Hi1 : h_c h1 !! i = Some (cr <| c_pending := false |> <| c_holds := true |>)) by (rewrite C1; by apply list_lookup_insert_eq).
  assert (T : h_cid h1 = h_cid h /\ h_gen h1 = h_gen h /\ h_seq h1 = u32 (h_seq h + 1) /\ h_info_pending h1 = false) by (rewrite E1; cbn; by rewrite S1, S2, S3, S5).
  clearbody h1. clear E1 En E0. destruct T as (T1 & T2 & T3 & T4). assert (Hf1 : rdv_host_find h1 cid = Some i) by (rewrite <- Hc; by apply (find_at h1 i _ H1 Hi1)).
  subst cid. destruct (slot_at h1 m i H1 Hf1 Hs) as (c' & Ec & [U1 U2 U3 U4 U5 U6] & [D1 D2 D3 D4 D5 D6 D7 D8]). destruct (D8 eq_refl) as [_ D10].
  rewrite (c_at_lookup _ _ _ Hi1) in *. pose proof (slot_ok h1 m H1) as H2. set (h2 := (rdv_host_slot h1 m).1) in *. clearbody h2.
  assert (Hi2 : h_c h2 !! i = Some c') by (rewrite Ec; apply list_lookup_insert_eq; unfold clear_holds; rewrite length_map; by eapply lookup_lt_Some).
  assert (Hf2 : rdv_host_find h2 (m_from m) = Some i). { replace (m_from m) with (c_cid c') by (rewrite D1; exact Hc). apply find_at; [done|done|]. intros E. rewrite D7 in E. done. }
  unfold rdv_host_unsent. rewrite Hf2, (c_at_lookup _ _ _ Hi2). unfold in_state. rewrite D7, bool_decide_eq_false_2 by done. set (c3 := c' <| c_pending := true |> <| c_holds := false |>).
  destruct (states_owed (set_c h2 i c3) i c3) as (o & En & Eo); [cbn; by rewrite U5|cbn; apply list_lookup_insert_eq; by eapply lookup_lt_Some|done| |cbn; rewrite D5; cbn; lia|].
  { intros a d Hd Hne. cbn in Hd. rewrite list_lookup_insert_ne, Ec, list_lookup_insert_ne in Hd by done. unfold clear_holds in Hd.
    rewrite list_lookup_fmap, C1, list_lookup_insert_ne in Hd by done. destruct (h_c h !! a) as [d0|] eqn:Ed; [|done]. injection Hd as <-. destruct (Hq a d0 Ed). done. }
  rewrite En. exists o. split; [done|]. rewrite <- Eo. unfold owed_msg, in_state. cbn. rewrite D7, bool_decide_eq_false_2 by done. rewrite U1, U2, U3, T1, T2, T3, D1, D5, D10, <- Hc. done.
Qed.

Definition demo_reask : rdv_msg := mk_rdv RDV_OFFER 7 demo_cid demo_host_cid 2 0 [8].
Definition demo_heard : rdv_host := w_h (world_run demo_start (demo_meet ++ [WClient 0 (KNext [7]); WHost (HSlot demo_offer)])).
Lemma unsent_refusal_is_empty_answer_witness :
  exists o, (rdv_host_next (rdv_host_unsent (rdv_host_slot (rdv_host_next (rdv_host_refuse demo_heard demo_cid RDV_REFUSE_FULL) []).1 demo_reask).1 demo_cid) []).2
    = Some o /\ rdv_decode (o_msg o) = DecOk (mk_rdv RDV_ANSWER 7 demo_host_cid demo_cid 3 1 []).
Proof.
  destruct (unsent_refusal_is_empty_answer demo_heard demo_cid RDV_REFUSE_FULL demo_reask 0) as (o & E & En).
  - exact (host_table_ok demo_host_cid 7 0 [HNext []; HSlot demo_offer]).
  - split; [vm_compute; reflexivity|]. intros j c Hj. vm_compute in Hj. do 16 (destruct j as [|j]; [injection Hj as <-; split; reflexivity|]). discriminate Hj.
  - vm_compute. reflexivity.
  - reflexivity.
  - vm_compute. reflexivity.
  - exists o. split; [exact E|]. destruct o as [msg seal]. vm_compute in En. injection En as <-. vm_compute. reflexivity.
Defined.
