(* ===== verification/Sig.v ===== *)
(** src/src/sig.c: the signaller.  It drives the rendezvous exchange of [Rdv] through one cell
    of the DHT, which carries two places, the host's statement and the turn a claimant takes,
    and announces itself on the link.

    The families' nodes are [SigFam]; the host's and the claimant's own state are [Rdv]'s.
    The engine of [Bep44Engine] is asked through [eng_answer]: it takes an operation or not,
    and one it cannot put to any node it settles before it returns.  Its callbacks are the
    operations [on_slot_get], [on_slot_put] and [merge_mine], given the context they were
    registered with.  What the signaller says to the rest of the program, to the engine and to
    the link is its trace; a receiver's callback is the last thing done with a message, so that
    what it does in turn comes after.  The clock is read once per call. *)
From S2P Require Import Prelude Net Bencode Crypto Keys CtlProto AddrText NsFacts SigFam Scan CandPolicy CandPack Obsemit Rdv.

Definition SIG_WIRE_MAX : nat := 1000.
Definition SIG_SDP_MAX : nat := 4096.
Definition SIG_OPS_MAX : nat := 64.
Definition SIG_VALUE_MAX : nat := RDV_MAX_MSG + SEAL_OVERHEAD.
Definition SIG_MCAST_MAX : nat := RDV_CID_LEN + 2 + SIG_VALUE_MAX.
Definition SIG_DHT_PUT_MS : Z := 1000.
Definition SIG_DHT_RESTORE_MS : Z := 8000.
Definition SIG_MCAST_ANN_MS : Z := 1000.
Definition SIG_DHT_TOMB_MS : Z := 300.
Definition SIG_TOMB_SETTLE_MS : Z := 4000.
Definition SIG_MCAST_OPEN_MS : Z := 1000.
Definition SIG_DHT_GRACE_MS : Z := 2000.
Definition SIG_DHT_OPEN_MS : Z := 1000.
Definition SIG_DHT_WIDE_GET_MS : Z := 4000.
Definition SIG_DHT_WIDE_IDLE_MS : Z := 20000.
Definition SIG_DHT_RELAY_MS : Z := 4000.
Definition SIG_DHT_WIDE_PUT_MS : Z := 45000.
Definition SIG_DHT_PUT_SLOW_MS : Z := 20000.
Definition SIG_GRADE_RW : Z := 1.
Definition SIG_GRADE_RO : Z := 2.

(** A context: [kind] is none for a read. *)
Record sig_op := mk_sop {
  so_val : bytes; so_cid : bytes; so_qep : Z * Z; so_seq_seen : Z; so_kind : option rdv_kind;
  so_busy : bool; so_done : bool; so_wide : bool; so_is_put : bool; so_free_turn : bool
}.
Definition sop_eta (o : sig_op) : sig_op :=
  mk_sop (so_val o) (so_cid o) (so_qep o) (so_seq_seen o) (so_kind o) (so_busy o) (so_done o) (so_wide o) (so_is_put o) (so_free_turn o).
#[export] Instance set_so_val : Setter so_val := ltac:(solve_setter sop_eta).
#[export] Instance set_so_seq_seen : Setter so_seq_seen := ltac:(solve_setter sop_eta).
#[export] Instance set_so_busy : Setter so_busy := ltac:(solve_setter sop_eta).
#[export] Instance set_so_done : Setter so_done := ltac:(solve_setter sop_eta).
#[export] Instance set_so_free_turn : Setter so_free_turn := ltac:(solve_setter sop_eta).
Definition sop_zero : sig_op := mk_sop [] rdv_zero (0, 0) 0 None false false false false false.

(** What it does to the world. *)
Inductive sig_ev :=
| EvRecv (cid sdp : bytes)                                  (* [cb] *)
| EvDirect (ep : sockaddr) (sdp : bytes)                    (* [direct_cb] *)
| EvPin (node : bytes) | EvUnpin (node : bytes)             (* [bep44_pin_add], [bep44_pin_del] *)
| EvGet (i : nat) (wide : bool) | EvPut (i : nat) (wide : bool)
| EvMcast (salt frame : bytes).                             (* [sig_mcast_send] *)

Record sig_t := mk_sigt {
  g_base : SigFam.sig; (* what each family holds, [flags & SIG_DHT], [is_host], [locate], [located_any] *)
  g_keys : session_keys; g_rdv : bytes; g_auth : bytes; g_auth_ro : bytes; g_have_rw : bool;
  g_mcast : bool; (* [flags & SIG_MCAST] *) g_start_ms : Z; g_node : bool; (* [node != NULL] *)
  g_mc : bool; (* [mc != NULL] *) g_mcast_claims : bool; g_cb : bool; (* [cb != NULL] *) g_direct_cb : bool; g_ops : list sig_op; g_rh : option rdv_host;
  g_rc : option rdv_client; g_hval : bytes; g_h_stale : bool; g_hcopy : bytes; g_hcopy_seq : Z; g_h_seq : Z;
  g_end_direct : bool; (* [end_placed_direct] *) g_end_wide : bool; (* [end_placed_wide] *) g_tomb_seen : Z;
  g_info_seen : Z; g_direct_port : Z; g_packed : bytes; (* [my_packed[0 .. my_packed_len)] *)
  g_ufrag : bytes; (* [my_ufrag] *) g_my_gen : Z; g_mine_stored : bool; g_gets_ok : Z; g_puts_ok : Z; g_last_get : Z;
  g_last_put : Z; g_engaged : Z; (* [engaged_ms] *) g_stage : Z; (* [rdv_stage] *) g_routeless : bool; g_next_get : Z;
  g_next_put : Z; g_next_hput : Z; g_next_wide_get : Z; g_next_wide_put : Z; g_next_mcast : Z; g_next_mcast_open : Z;
  g_next_dht_open : Z; g_trace : list sig_ev (* what it did to the world, newest first *)
}.
Definition sigt_eta (s : sig_t) : sig_t :=
  mk_sigt (g_base s) (g_keys s) (g_rdv s) (g_auth s) (g_auth_ro s) (g_have_rw s) (g_mcast s) (g_start_ms s)
    (g_node s) (g_mc s) (g_mcast_claims s) (g_cb s) (g_direct_cb s) (g_ops s) (g_rh s) (g_rc s) (g_hval s) (g_h_stale s) (g_hcopy s)
    (g_hcopy_seq s) (g_h_seq s) (g_end_direct s) (g_end_wide s) (g_tomb_seen s) (g_info_seen s) (g_direct_port s)
    (g_packed s) (g_ufrag s) (g_my_gen s) (g_mine_stored s) (g_gets_ok s) (g_puts_ok s) (g_last_get s) (g_last_put s)
    (g_engaged s) (g_stage s) (g_routeless s) (g_next_get s) (g_next_put s) (g_next_hput s) (g_next_wide_get s)
    (g_next_wide_put s) (g_next_mcast s) (g_next_mcast_open s) (g_next_dht_open s) (g_trace s).
#[export] Instance set_g_base : Setter g_base := ltac:(solve_setter sigt_eta).
#[export] Instance set_g_node : Setter g_node := ltac:(solve_setter sigt_eta).
#[export] Instance set_g_mc : Setter g_mc := ltac:(solve_setter sigt_eta).
#[export] Instance set_g_mcast_claims : Setter g_mcast_claims := ltac:(solve_setter sigt_eta).
#[export] Instance set_g_ops : Setter g_ops := ltac:(solve_setter sigt_eta).
#[export] Instance set_g_rh : Setter g_rh := ltac:(solve_setter sigt_eta).
#[export] Instance set_g_rc : Setter g_rc := ltac:(solve_setter sigt_eta).
#[export] Instance set_g_hval : Setter g_hval := ltac:(solve_setter sigt_eta).
#[export] Instance set_g_h_stale : Setter g_h_stale := ltac:(solve_setter sigt_eta).
#[export] Instance set_g_hcopy : Setter g_hcopy := ltac:(solve_setter sigt_eta).
#[export] Instance set_g_hcopy_seq : Setter g_hcopy_seq := ltac:(solve_setter sigt_eta).
#[export] Instance set_g_h_seq : Setter g_h_seq := ltac:(solve_setter sigt_eta).
#[export] Instance set_g_end_direct : Setter g_end_direct := ltac:(solve_setter sigt_eta).
#[export] Instance set_g_end_wide : Setter g_end_wide := ltac:(solve_setter sigt_eta).
#[export] Instance set_g_tomb_seen : Setter g_tomb_seen := ltac:(solve_setter sigt_eta).
#[export] Instance set_g_info_seen : Setter g_info_seen := ltac:(solve_setter sigt_eta).
#[export] Instance set_g_direct_port : Setter g_direct_port := ltac:(solve_setter sigt_eta).
#[export] Instance set_g_packed : Setter g_packed := ltac:(solve_setter sigt_eta).
#[export] Instance set_g_ufrag : Setter g_ufrag := ltac:(solve_setter sigt_eta).
#[export] Instance set_g_my_gen : Setter g_my_gen := ltac:(solve_setter sigt_eta).
#[export] Instance set_g_mine_stored : Setter g_mine_stored := ltac:(solve_setter sigt_eta).
#[export] Instance set_g_gets_ok : Setter g_gets_ok := ltac:(solve_setter sigt_eta).
#[export] Instance set_g_puts_ok : Setter g_puts_ok := ltac:(solve_setter sigt_eta).
#[export] Instance set_g_last_get : Setter g_last_get := ltac:(solve_setter sigt_eta).
#[export] Instance set_g_last_put : Setter g_last_put := ltac:(solve_setter sigt_eta).
#[export] Instance set_g_engaged : Setter g_engaged := ltac:(solve_setter sigt_eta).
#[export] Instance set_g_stage : Setter g_stage := ltac:(solve_setter sigt_eta).
#[export] Instance set_g_routeless : Setter g_routeless := ltac:(solve_setter sigt_eta).
#[export] Instance set_g_next_get : Setter g_next_get := ltac:(solve_setter sigt_eta).
#[export] Instance set_g_next_put : Setter g_next_put := ltac:(solve_setter sigt_eta).
#[export] Instance set_g_next_hput : Setter g_next_hput := ltac:(solve_setter sigt_eta).
#[export] Instance set_g_next_wide_get : Setter g_next_wide_get := ltac:(solve_setter sigt_eta).
#[export] Instance set_g_next_wide_put : Setter g_next_wide_put := ltac:(solve_setter sigt_eta).
#[export] Instance set_g_next_mcast : Setter g_next_mcast := ltac:(solve_setter sigt_eta).
#[export] Instance set_g_next_mcast_open : Setter g_next_mcast_open := ltac:(solve_setter sigt_eta).
#[export] Instance set_g_next_dht_open : Setter g_next_dht_open := ltac:(solve_setter sigt_eta).
#[export] Instance set_g_trace : Setter g_trace := ltac:(solve_setter sigt_eta).
#[export] Instance set_g_cb : Setter g_cb := ltac:(solve_setter sigt_eta).
#[export] Instance set_g_direct_cb : Setter g_direct_cb := ltac:(solve_setter sigt_eta).

(** What a call of the signaller meets: the clock, the DHT node, the engine, the random source. *)
Inductive eng_answer := EngRefused | EngStarted | EngSettled.
Record sig_env := mk_senv {
  x_now : Z;
  x_ready : bool;                    (* [dhtnode_ready(node)] *)
  x_held : bool;                     (* [bep44_direct_nodes(engine) > 0] *)
  x_made : bool;                     (* [dhtnode_create] makes one *)
  x_mc : bool;                       (* [sig_mcast_open] opens one *)
  x_pin : bool;                      (* [bep44_pin_add] takes the node *)
  x_rnd : nat -> option bytes;       (* the nonce of the n-th seal for the cell *)
  x_mrnd : option bytes;             (* and of the one for the link *)
  x_eng : nat -> eng_answer          (* for the operation in context [i] *)
}.

Definition note (s : sig_t) (e : sig_ev) : sig_t := s <| g_trace := e :: g_trace s |>.
(** A change to the families; [rh->info_pending] is the host's. *)
Definition owe_info (h : rdv_host) : rdv_host := h <| h_info_pending := true |>.
Definition on_base (s : sig_t) (g : SigFam.sig -> SigFam.sig) : sig_t :=
  let b := g ((g_base s) <| sg_info_pending := false |>) in
  let s := s <| g_base := b <| sg_info_pending := false |> |> in
  if sg_info_pending b then s <| g_rh := option_map owe_info (g_rh s) |> else s.
Definition s_is_host (s : sig_t) : bool := sg_is_host (g_base s).
Definition s_dht (s : sig_t) : bool := sg_dht (g_base s).
Definition s_fam (s : sig_t) (i : bool) : sig_fam := get2 (sg_fam (g_base s)) i.
Definition rnode_held (s : sig_t) (i : bool) : bool := negb (bool_decide (rnode (s_fam s i) = [])).
Definition any_rnode (s : sig_t) : bool := rnode_held s false || rnode_held s true.

Definition engage_dht (s : sig_t) (x : sig_env) : sig_t :=
  if x_made x then s <| g_node := true |> <| g_engaged := x_now x |> else s.

(** ** Setting up *)
Definition sig_rdv_host (s : sig_t) (h : rdv_host) : sig_t := s <| g_rh := Some h |> <| g_next_put := 0 |> <| g_next_hput := 0 |>.
Definition sig_rdv_client (s : sig_t) (c : rdv_client) : sig_t := s <| g_rc := Some c |> <| g_next_put := 0 |>.

(** [SIG_ROUTE_DIRECT], [SIG_ROUTE_WIDE]. *)
Record routes := mk_routes { r_direct : bool; r_wide : bool }.
Definition sig_routes_open (node_ready rdv_held : bool) : routes := if node_ready then mk_routes true true else mk_routes rdv_held false.
Definition routes_now (x : sig_env) : routes := sig_routes_open (x_ready x) (x_held x).
Definition any_route (r : routes) : bool := r_direct r || r_wide r.
Definition sig_ready (s : sig_t) (x : sig_env) : bool := g_mc s || (g_node s && any_route (routes_now x)).
Definition sig_dht_ready (s : sig_t) (x : sig_env) : bool := g_node s && x_ready x.
Definition sig_subscribe (s : sig_t) : sig_t := s <| g_cb := true |>.
Definition sig_subscribe_direct (s : sig_t) : sig_t := s <| g_direct_cb := true |>.
Definition sig_set_direct_port (s : sig_t) (port : Z) : sig_t := s <| g_direct_port := port |>.
Definition sig_set_mcast_claims (s : sig_t) (on : bool) : sig_t := s <| g_mcast_claims := on |>.
Definition sig_seed (s : sig_t) (node : bytes) (x : sig_env) : sig_t :=
  if negb (s_dht s) then s
  else let s := if g_node s then s else engage_dht s x in if g_node s then note s (EvPin node) else s.
Definition sig_set_gen (s : sig_t) (gen : Z) : sig_t :=
  let s := s <| g_my_gen := gen |> in
  match g_rh s with Some h => s <| g_rh := Some (rdv_host_set_gen h gen) |> <| g_next_hput := 0 |> | None => s end.
Definition sig_locate (s : sig_t) (x : sig_env) : sig_t :=
  if negb (s_dht s) then s
  else let s := if g_node s then s else engage_dht s x in if g_node s then on_base s (fun b => b <| sg_locate := true |>) else s.
Definition sig_forget_node (s : sig_t) (family : Z) : sig_t :=
  let n := rnode (sig_fam_of (g_base s) family) in
  if bool_decide (n = []) then s
  else (on_base (if g_node s then note s (EvUnpin n) else s) (fun b => sig_forget b family)) <| g_next_hput := 0 |>.
Definition sig_reinforce_node (s : sig_t) (family : Z) (sa : bytes) (x : sig_env) : sig_t :=
  if (SA_STORAGE <? length sa)%nat || negb (s_dht s) then s
  else
    let s := if g_node s then s else engage_dht s x in
    if negb (g_node s) then s
    else on_base (note s (EvPin sa)) (fun b => (sig_reinforce true (x_pin x) b family sa).1).
Definition sig_peer_gen (s : sig_t) : Z := match g_rc s with Some c => k_host_gen c | None => 0 end.
Definition sig_peer_cid (s : sig_t) : option bytes := match g_rc s with Some c => if k_have_host c then Some (k_host_cid c) else None | None => None end.
Definition sig_refusal (s : sig_t) : Z := match g_rc s with Some c => k_refusal c | None => 0 end.

(** ** What the session asks of it *)
Definition sig_ident_changed (s : sig_t) : sig_t :=
  if s_is_host s then s
  else match g_rc s with None => s | Some c => s <| g_rc := Some (rdv_client_ident_changed c) |> <| g_ufrag := [] |> end.
Definition sig_reask (s : sig_t) : sig_t :=
  if s_is_host s then s else match g_rc s with None => s | Some c => s <| g_rc := Some (rdv_client_reask c) |> <| g_next_put := 0 |> end.
(** [iid] is [sig_instance_id()]; the verdict is the return of 0. *)
Definition sig_post (s : sig_t) (data : bytes) (iid : option bytes) : sig_t * bool :=
  match g_rc s with
  | None => (s, false)
  | Some c =>
      if s_is_host s || (SIG_SDP_MAX <=? length data)%nat then (s, false)
      else
        let sdp := c_text data in
        match candpack_encode sdp true (g_my_gen s) None iid RDV_MAX_PAYLOAD with
        | Packed packed =>
            let changed := negb (bytes_eqb (g_packed s) packed) in
            let ufrag := cand_sdp_ufrag (Some sdp) 40 in
            let c := if negb (bool_decide (g_ufrag s = [])) && negb (bytes_eqb (g_ufrag s) ufrag) then rdv_client_ident_changed c else c in
            let s := s <| g_ufrag := ufrag |> <| g_packed := packed |> <| g_rc := Some (rdv_client_set_live c false) |> in
            ((if changed then s <| g_next_put := 0 |> else s) <| g_next_mcast := 0 |>, true)
        | _ => (s, false)
        end
  end.
Definition sig_answer (s : sig_t) (cid data : bytes) (iid : option bytes) : sig_t * bool :=
  match g_rh s with
  | None => (s, false)
  | Some h =>
      if negb (s_is_host s) || (SIG_SDP_MAX <=? length data)%nat then (s, false)
      else match candpack_encode (c_text data) true (g_my_gen s) None iid RDV_MAX_PAYLOAD with
           | Packed packed => (s <| g_rh := Some (rdv_host_answer h cid packed) |> <| g_next_put := 0 |>, true)
           | _ => (s, false)
           end
  end.
Definition sig_refuse (s : sig_t) (cid : bytes) : sig_t :=
  match g_rh s with
  | Some h => if s_is_host s then s <| g_rh := Some (rdv_host_refuse h cid RDV_REFUSE_FULL) |> <| g_next_put := 0 |> else s
  | None => s
  end.
Definition sig_claimant_gone (s : sig_t) (cid : bytes) : sig_t := s <| g_rh := option_map (fun h => rdv_host_forget h cid) (g_rh s) |>.
Definition sig_withdraw (s : sig_t) : sig_t := s <| g_rc := option_map (fun c => rdv_client_set_live c true) (g_rc s) |>.
Definition sig_end (s : sig_t) : sig_t :=
  match g_rh s with
  | Some h => if negb (s_is_host s) || h_gone h then s else s <| g_rh := Some (rdv_host_entomb h) |> <| g_next_hput := 0 |>
  | None => s
  end.
Definition ending (s : sig_t) : bool := match g_rh s with Some h => h_gone h | None => false end.
Definition sig_end_placed (s : sig_t) (x : sig_env) : bool :=
  if negb (ending s) then false
  else if s_dht s && g_node s && x_ready x then if any_rnode s && negb (g_end_direct s) then false else g_end_wide s
  else true.
Definition sig_tomb_settled (tomb_ms info_ms now : Z) : bool :=
  if negb (truth tomb_ms) then false else if tomb_ms <=? info_ms then false else SIG_TOMB_SETTLE_MS <=? u64 (now - tomb_ms).
Definition sig_peer_ended (s : sig_t) (x : sig_env) : bool :=
  if s_is_host s then false else sig_tomb_settled (g_tomb_seen s) (g_info_seen s) (x_now x).
Definition sig_quiet (s : sig_t) (x : sig_env) : bool :=
  if negb (g_node s) then false
  else if negb (truth (g_last_get s)) && negb (sf_up (s_fam s false)) && negb (sf_up (s_fam s true)) then false
  else sig_quiet_due (any_route (routes_now x)) (truth (g_last_get s)) (u64 (x_now x - (if truth (g_last_get s) then g_last_get s else g_engaged s))).
Definition claim_standing (s : sig_t) : Z :=
  match g_rc s with
  | Some c => if k_have_host c then match k_state c with RDV_CL_OFFERED => 2 | RDV_CL_ANSWERED => 4 | RDV_CL_REFUSED => 5 | _ => 1 end else 0
  | None => 0
  end.
Definition claimants_seen (s : sig_t) : bool :=
  match g_rh s with Some h => existsb (fun c => negb (in_state RDV_C_FREE c)) (h_c h) | None => false end.
Definition zb (b : bool) : Z := if b then 1 else 0.
Definition sig_mailbox_state (s : sig_t) : sig_mailbox :=
  mk_gmail (zb (g_node s)) (g_stage s) (zb (negb (bool_decide ((if s_is_host s then g_hval s else g_packed s) = [])))) (zb (g_mine_stored s))
    (zb (if s_is_host s then claimants_seen s else match g_rc s with Some c => k_have_host c | None => false end))
    (g_h_seq s) (g_gets_ok s) (g_puts_ok s) (claim_standing s) (g_last_get s) (g_last_put s) (g_engaged s).
Definition sig_rdv_stage (s : sig_t) (family : Z) : Z :=
  if bool_decide (rnode (sig_fam_of (g_base s) family) = []) then g_stage s else 4.

(** ** Contexts *)
Definition op_alloc (s : sig_t) (kind : option rdv_kind) (cid : option bytes) (wide is_put : bool) : option (sig_t * nat) :=
  match list_find (fun o => negb (so_busy o)) (g_ops s) with
  | None => None
  | Some (i, _) =>
      let o := mk_sop [] (default rdv_zero cid) (sf_epoch (s_fam s false), sf_epoch (s_fam s true)) 0 kind true false wide is_put false in
      Some (s <| g_ops := <[i := o]> (g_ops s) |>, i)
  end.
Definition op_sweep (s : sig_t) : sig_t :=
  s <| g_ops := map (fun o => if so_busy o && so_done o then o <| so_busy := false |> else o) (g_ops s) |>.
Definition op_get (s : sig_t) (i : nat) : sig_op := nth i (g_ops s) sop_zero.
Definition on_op (s : sig_t) (i : nat) (g : sig_op -> sig_op) : sig_t := s <| g_ops := <[i := g (op_get s i)]> (g_ops s) |>.
(** A store still under way. *)
Definition op_storing (o : sig_op) : bool := so_busy o && negb (so_done o) && so_is_put o.
Definition slot_inflight (s : sig_t) : bool := existsb op_storing (g_ops s).

(** ** The cell *)
Definition CELL_HOST : bytes := cstr "h".
Definition CELL_TURN : bytes := cstr "c".
Definition cell_part (v place : bytes) : option bytes :=
  match v with
  | [] => None
  | _ => match benc_dict_find v place with Some val => benc_str_get val | None => None end
  end.
Definition cell_place (b : benc_buf) (place part : bytes) : benc_buf :=
  if bool_decide (part = []) then b else benc_str_add (benc_key_add b place) part.
Definition cell_pack (max : nat) (host turn : bytes) : option bytes :=
  let b := benc_raw_add (benc_buf_init max) (cstr "d") in
  let b := cell_place (cell_place b CELL_TURN turn) CELL_HOST host in
  let b := benc_raw_add b (cstr "e") in
  if bb_err b then None else Some (bb_data b).
Definition writes_host_place (k : option rdv_kind) : bool :=
  match k with Some RDV_HOSTINFO | Some RDV_TOMB => true | _ => false end.

Section Sig.
Context {C : Crypto}.

(** The fields a signaller starts with, the rest zero. *)
Definition sig_blank (keys : session_keys) (rdv auth auth_ro : bytes) (have_rw dht mcast is_host mc : bool) (now : Z) : sig_t :=
  mk_sigt (sig_fresh dht is_host) keys rdv auth auth_ro have_rw mcast now false mc false false false (replicate SIG_OPS_MAX sop_zero) None None
    [] false [] (-1) (-1) false false 0 0 0 [] [] 0 false 0 0 0 0 0 0 false 0 0 0 0 0 0 0 0 [].
Definition sig_create (rdv auth : bytes) (auth_ro dht mcast is_host : bool) (x : sig_env) : option sig_t :=
  match keys_derive rdv with
  | None => None
  | Some keys =>
      let s := if auth_ro then sig_blank keys rdv (replicate 16 0) auth false dht mcast is_host (mcast && x_mc x) (x_now x)
               else sig_blank keys rdv auth (keys_derive_ro_auth auth) true dht mcast is_host (mcast && x_mc x) (x_now x) in
      let s := if dht && negb (g_mc s) then engage_dht s x else s in
      if dht || mcast then Some s else None
  end.

Definition slot_key (s : sig_t) (grade : Z) : bytes := keys_slot_key (if grade =? SIG_GRADE_RO then g_auth_ro s else g_auth s).
Definition my_grade (s : sig_t) : Z := if g_have_rw s then SIG_GRADE_RW else SIG_GRADE_RO.
Definition slot_salt (s : sig_t) : bytes := keys_slot_salt (g_rdv s).

Definition rdv_open (key sealed : bytes) : option rdv_msg :=
  match msg_open RDV_MAX_MSG key sealed with
  | None => None
  | Some plain => match rdv_decode plain with DecOk m => Some m | _ => None end
  end.
Definition claimant_open (s : sig_t) (v : bytes) : option (rdv_msg * Z) :=
  match (if g_have_rw s then rdv_open (slot_key s SIG_GRADE_RW) v else None) with
  | Some m => Some (m, SIG_GRADE_RW)
  | None => match rdv_open (slot_key s SIG_GRADE_RO) v with Some m => Some (m, SIG_GRADE_RO) | None => None end
  end.
(** The text, where the payload unpacks. *)
Definition sdp_of (m : rdv_msg) : option bytes :=
  match (candpack_decode (m_payload m) 0 SIG_SDP_MAX).2 with Unpacked t => Some t | _ => None end.

(** ** Reading the cell *)
Definition sa_family (node : bytes) : Z := match sa_read node with AF_INET _ _ => 4 | AF_INET6 _ _ _ => 6 | AF_OTHER => 0 end.
Definition node_noted (s : sig_t) (op : sig_op) (node : bytes) : sig_t :=
  let fam := sa_family node in
  let was := rnode (sig_fam_of (g_base s) fam) in
  let s := on_base s (fun b => node_note b (get2 (so_qep op) (fam_idx fam)) fam node) in
  if bool_decide (was = []) && negb (bool_decide (rnode (sig_fam_of (g_base s) fam) = [])) then note s (EvPin node) else s.
Definition host_nodes_seed (s : sig_t) (pl : bytes) (x : sig_env) : sig_t :=
  fold_left (fun s o => match ctl_rdv_decode (slice (o * CTL_RDV_PLEN) CTL_RDV_PLEN pl) with
                        | Some (_, sa) => sig_seed s (sa_bytes sa) x
                        | None => s
                        end) (seq 0 (length pl / CTL_RDV_PLEN)) s.
Definition got (s : sig_t) (x : sig_env) : sig_t := s <| g_gets_ok := g_gets_ok s + 1 |> <| g_last_get := x_now x |>.

Definition host_slot_read (s : sig_t) (v : bytes) (seq : Z) (x : sig_env) : sig_t :=
  match rdv_open (sig_key (g_keys s)) v with
  | None => s
  | Some m =>
      if negb (bool_decide (m_kind m = RDV_HOSTINFO)) && negb (bool_decide (m_kind m = RDV_TOMB)) then s
      else
        let s := got s x in
        let up s := if g_h_seq s <? seq then s <| g_h_seq := seq |> else s in
        if s_is_host s then
          up (if bytes_eqb v (g_hval s) then s <| g_mine_stored := true |> else s <| g_h_stale := true |>)
        else
          match g_rc s with
          | None => s
          | Some c =>
              let s := if g_hcopy_seq s <=? seq then s <| g_hcopy := v |> <| g_hcopy_seq := seq |> else s in
              let '(c, moved) := rdv_client_host_slot c m seq in
              let s := s <| g_rc := Some c |> in
              match moved with
              | HostStale => s
              | _ =>
                  let s := up s in
                  if bool_decide (m_kind m = RDV_TOMB) then
                    if negb (truth (g_tomb_seen s)) then s <| g_tomb_seen := g_last_get s |> else s
                  else
                    let s := s <| g_info_seen := g_last_get s |> <| g_tomb_seen := 0 |> in
                    let s := host_nodes_seed s (m_payload m) x in
                    match moved with HostMoved => s <| g_next_put := 0 |> | _ => s end
              end
          end
  end.

(** How a claimant is answered: under the class it asked in, and the way its ask arrived. *)
Definition grade_claimant (h : rdv_host) (cid : bytes) (g : rdv_claimant -> rdv_claimant) : rdv_host :=
  match rdv_host_find h cid with Some i => set_c h i (g (c_at h i)) | None => h end.
Definition recv (s : sig_t) (cid sdp : bytes) : sig_t := if g_cb s then note s (EvRecv cid sdp) else s.
Definition claimant_read (s : sig_t) (v : bytes) (wide : bool) (x : sig_env) : sig_t :=
  match g_rh s with
  | None => s
  | Some h =>
      match claimant_open s v with
      | None => s
      | Some (m, grade) =>
          let s := got s x in
          if negb (bool_decide (m_kind m = RDV_OFFER)) then s
          else
            let '(h, new) := rdv_host_slot h m in
            let s := s <| g_rh := Some h |> in
            if negb new then s
            else
              let s := s <| g_rh := Some (grade_claimant h (m_from m) (fun c => c <| c_grade := u8 grade |> <| c_wide_ask := wide |>)) |> in
              match sdp_of m with None => s | Some sdp => recv s (m_from m) sdp end
      end
  end.
Definition answer_read (s : sig_t) (v : bytes) (seq : Z) (x : sig_env) : sig_t :=
  match g_rc s with
  | None => s
  | Some c =>
      match rdv_open (slot_key s (my_grade s)) v with
      | None => s <| g_rc := Some (rdv_client_ask_gone c seq) |>
      | Some m =>
          let s := got s x in
          if bytes_eqb (m_from m) (k_cid c) then s
          else if negb (rdv_client_would_take c m) then s <| g_rc := Some (rdv_client_ask_gone c seq) |>
          else
            match (if bool_decide (m_kind m = RDV_REFUSE) then Some [] else sdp_of m) with
            | None => s <| g_rc := Some (rdv_client_answer_unusable c m) |>
            | Some sdp =>
                let '(c, taken) := rdv_client_own_slot c m in
                let s := s <| g_rc := Some c |> in
                if negb taken then s
                else if bool_decide (m_kind m = RDV_REFUSE) then s else recv s (m_from m) sdp
            end
      end
  end.
(** [v] is none where nothing was found; [node] is [[]] for a null address. *)
Definition on_slot_get (s : sig_t) (i : nat) (v : option bytes) (seq : Z) (node : bytes) (x : sig_env) : sig_t :=
  let op := op_get s i in
  let s := on_op s i (fun o => o <| so_done := true |>) in
  match v with
  | None => s
  | Some v =>
      let s := node_noted s op node in
      if so_done op then s
      else
        let s := match cell_part v CELL_HOST with Some part => host_slot_read s part seq x | None => s end in
        match cell_part v CELL_TURN with
        | None => if s_is_host s then s else s <| g_rc := option_map (fun c => rdv_client_ask_gone c seq) (g_rc s) |>
        | Some part => if s_is_host s then claimant_read s part (so_wide op) x else answer_read s part seq x
        end
  end.

(** ** Writing the cell *)
Definition on_slot_put (s : sig_t) (i : nat) (stored : Z) (x : sig_env) : sig_t :=
  let op := op_get s i in
  let s := on_op s i (fun o => o <| so_done := true |>) in
  match so_kind op with
  | Some RDV_TOMB =>
      if 0 <? stored then if so_wide op then s <| g_end_wide := true |> else s <| g_end_direct := true |> else s
  | Some RDV_HOSTINFO =>
      if negb (s_is_host s) || negb (0 <? stored) then s
      else
        let s := s <| g_mine_stored := true |> <| g_h_stale := false |> in
        let s := if so_free_turn op then s <| g_rh := option_map rdv_host_turn_kept (g_rh s) |> else s in
        if so_wide op
        then let s := s <| g_next_hput := u64 (x_now x + SIG_DHT_RESTORE_MS) |> in if g_stage s <? 3 then s <| g_stage := 3 |> else s
        else s
  | Some RDV_ANSWER => if 0 <? stored then s else s <| g_rh := option_map (fun h => rdv_host_unsent h (so_cid op)) (g_rh s) |>
  | Some RDV_OFFER => if 0 <? stored then s <| g_mine_stored := true |> else s
  | _ => s
  end.
Definition turn_is_ours (s : sig_t) (turn : bytes) : bool :=
  match turn, g_rc s with
  | [], _ | _, None => true
  | _, Some c => rdv_client_may_replace (Some c) (fst <$> claimant_open s turn)
  end.
(** The merge function of the store in context [i], as it runs in state [s]. *)
Definition merge_mine (s : sig_t) (i : nat) (max : nat) (cur : option bytes) (seq : Z) : option bytes :=
  let op := op_get s i in
  if (0 <=? so_seq_seen op) && bool_decide (is_Some cur) && (so_seq_seen op <? seq) then None
  else
    let host := default [] (cell_part (default [] cur) CELL_HOST) in
    let turn := default [] (cell_part (default [] cur) CELL_TURN) in
    if writes_host_place (so_kind op) then
      cell_pack max (so_val op) (if bool_decide (so_kind op = Some RDV_TOMB) || so_free_turn op then [] else turn)
    else if bool_decide (so_kind op = Some RDV_OFFER) && negb (turn_is_ours s turn) then None
    else cell_pack max host (so_val op).
Definition slot_get (s : sig_t) (wide : bool) (x : sig_env) : sig_t :=
  match op_alloc s None None wide false with
  | None => s
  | Some (s, i) =>
      let s := note s (EvGet i wide) in
      match x_eng x i with
      | EngRefused => on_op s i (fun o => o <| so_busy := false |>)
      | EngStarted => s
      | EngSettled => on_slot_get s i None 0 [] x
      end
  end.
(** The verdict is the return of 0. *)
Definition slot_put (s : sig_t) (kind : rdv_kind) (cid : option bytes) (wide : bool) (val : bytes) (seq_seen : Z) (x : sig_env) : sig_t * bool :=
  if (SIG_WIRE_MAX <? length val)%nat then (s, false)
  else
    match op_alloc s (Some kind) cid wide true with
    | None => (s, false)
    | Some (s, i) =>
        let spent := match g_rh s with Some h => s_is_host s && writes_host_place (Some kind) && rdv_host_turn_spent h | None => false end in
        let s := on_op s i (fun o => o <| so_free_turn := spent |> <| so_val := val |> <| so_seq_seen := seq_seen |>) in
        let s := note s (EvPut i wide) in
        let sent s := s <| g_puts_ok := g_puts_ok s + 1 |> <| g_last_put := x_now x |> in
        match x_eng x i with
        | EngRefused => (on_op s i (fun o => o <| so_busy := false |>), false)
        | EngStarted => (sent s, true)
        | EngSettled => (sent (on_slot_put s i 0 x), true)
        end
    end.
Definition seal_to (key : bytes) (o : rdv_out) (rnd : option bytes) : option bytes := msg_seal SIG_WIRE_MAX rnd key (o_msg o).

(** ** The host's side of the cell *)
(** The bytes of a node read as the struct of [family]. *)
Definition sa_cast (family : Z) (b : bytes) : sockaddr :=
  let b := b ++ replicate (28 - length b) 0 in
  if family =? 6 then AF_INET6 (be_get (slice 2 2 b)) (slice 8 16 b) (be_get (rev (slice 24 4 b))) else AF_INET (be_get (slice 2 2 b)) (slice 4 4 b).
Definition info_node (s : sig_t) (max : nat) (out : bytes) (i : bool) : bytes :=
  if negb (rnode_held s i) || (max <? length out + CTL_RDV_PLEN)%nat then out
  else out ++ default [] (ctl_rdv_encode (if i then 6 else 4) (sa_cast (if i then 6 else 4) (rnode (s_fam s i)))).
Definition host_info_nodes (s : sig_t) (max : nat) : bytes := info_node s max (info_node s max [] false) true.
Definition host_info_seal (s : sig_t) (h : rdv_host) (x : sig_env) : sig_t :=
  let '(h, o) := rdv_host_next h (host_info_nodes s RDV_HOST_PAYLOAD) in
  let s := s <| g_rh := Some h |> in
  match o with
  | Some o =>
      if negb (bool_decide (o_seal o = RDV_SEAL_INFO)) then s
      else match seal_to (sig_key (g_keys s)) o (x_rnd x 0%nat) with
           | None => s
           | Some v => s <| g_hval := v |> <| g_h_stale := true |> <| g_mine_stored := false |> <| g_next_hput := 0 |>
           end
  | None => s
  end.

(** The loop over what is due; [held] are the claimants set back, and [n] counts the seals. *)
Fixpoint answers_loop (fuel : nat) (s : sig_t) (r : routes) (x : sig_env) (n : nat) (held : list bytes) : sig_t * list bytes :=
  match fuel with
  | O => (s, held)
  | S fuel =>
      match g_rh s with
      | None => (s, held)
      | Some h =>
          if (RDV_HOST_MAX <=? length held)%nat then (s, held)
          else
            let '(h, o) := rdv_host_next h [] in
            let s := s <| g_rh := Some h |> in
            match o with
            | None => (s, held)
            | Some o =>
                match o_seal o, rdv_decode (o_msg o) with
                | RDV_SEAL_CLASS, DecOk m =>
                    match rdv_host_find h (m_to m) with
                    | None => answers_loop fuel s r x n held
                    | Some j =>
                        let c := c_at h j in
                        if negb (any_route r) || slot_inflight s then answers_loop fuel s r x n (held ++ [c_cid c])
                        else
                          let key := slot_key s (if c_grade c =? SIG_GRADE_RO then SIG_GRADE_RO else SIG_GRADE_RW) in
                          match seal_to key o (x_rnd x (S n)) with
                          | None => answers_loop fuel s r x (S n) (held ++ [c_cid c])
                          | Some val =>
                              let '(s, ok) := slot_put s RDV_ANSWER (Some (m_to m)) (c_wide_ask c) val (-1) x in
                              answers_loop fuel s r x (S n) (if ok then held else held ++ [c_cid c])
                          end
                    end
                | _, _ => answers_loop fuel s r x n held
                end
            end
      end
  end.
Definition answers_fuel : nat := SIG_OPS_MAX + RDV_HOST_MAX + 2.
Definition host_answers (s : sig_t) (r : routes) (x : sig_env) : sig_t :=
  let '(s, held) := answers_loop answers_fuel s r x 0 [] in
  fold_left (fun s cid => s <| g_rh := option_map (fun h => rdv_host_unsent h cid) (g_rh s) |>) held s.

Definition host_tomb_put (s : sig_t) (r : routes) (x : sig_env) : sig_t :=
  let s := if negb (g_end_direct s) && any_rnode s then (slot_put s RDV_TOMB None false (g_hval s) (-1) x).1
           else if r_wide r && negb (g_end_wide s) then (slot_put s RDV_TOMB None true (g_hval s) (-1) x).1 else s in
  s <| g_next_hput := u64 (x_now x + SIG_DHT_TOMB_MS) |>.
Definition fam_missing (f : sig_fam) : bool := bool_decide (rnode f = []) || relocate f.
Definition host_slot_put (s : sig_t) (r : routes) (x : sig_env) : sig_t :=
  let now := x_now x in
  let f4 := s_fam s false in
  let f6 := s_fam s true in
  if g_h_stale s && r_direct r && any_rnode s then
    ((slot_put s RDV_HOSTINFO None false (g_hval s) (-1) x).1) <| g_next_hput := u64 (now + SIG_DHT_PUT_MS) |>
  else if (fam_missing f4 || fam_missing f6) && r_wide r then
    let eager := (fam_missing f4 && sf_up f4) || (fam_missing f6 && sf_up f6) in
    let s := if g_stage s <? 2 then s <| g_stage := 2 |> else s in
    ((slot_put s RDV_HOSTINFO None true (g_hval s) (-1) x).1) <| g_next_hput := u64 (now + (if eager then SIG_DHT_PUT_MS else SIG_DHT_PUT_SLOW_MS)) |>
  else if r_wide r && (g_next_wide_put s <=? now) then
    ((slot_put s RDV_HOSTINFO None true (g_hval s) (-1) x).1) <| g_next_wide_put := u64 (now + SIG_DHT_WIDE_PUT_MS) |>
      <| g_next_hput := u64 (now + SIG_DHT_PUT_MS) |>
  else s.
Definition host_pump_puts (s : sig_t) (r : routes) (x : sig_env) : sig_t :=
  match g_rh s with
  | None => s
  | Some h =>
      let s := if h_info_pending h then host_info_seal s h x else s in
      let s := if negb (ending s) && (g_next_put s <=? x_now x)
               then (host_answers s r x) <| g_next_put := u64 (x_now x + SIG_DHT_PUT_MS) |> else s in
      if bool_decide (g_hval s = []) || (x_now x <? g_next_hput s) || slot_inflight s then s
      else if ending s then host_tomb_put s r x else host_slot_put s r x
  end.

(** ** The claimant's side *)
Definition relaying (s : sig_t) : bool := relay (s_fam s false) || relay (s_fam s true).
Definition relay_locating (s : sig_t) : bool :=
  (relay (s_fam s false) && negb (rnode_held s false)) || (relay (s_fam s true) && negb (rnode_held s true)).
Definition client_relay_put (s : sig_t) (r : routes) (x : sig_env) : sig_t :=
  if negb (relaying s) || bool_decide (g_hcopy s = []) || slot_inflight s then s
  else if relay_locating s && r_wide r then
    ((slot_put s RDV_HOSTINFO None true (g_hcopy s) (g_hcopy_seq s) x).1) <| g_next_put := u64 (x_now x + SIG_DHT_PUT_MS) |>
  else if r_direct r then
    ((slot_put s RDV_HOSTINFO None false (g_hcopy s) (g_hcopy_seq s) x).1) <| g_next_put := u64 (x_now x + SIG_DHT_RELAY_MS) |>
  else s.
Definition client_pump_puts (s : sig_t) (r : routes) (x : sig_env) : sig_t :=
  match g_rc s with
  | None => s
  | Some c =>
      if x_now x <? g_next_put s then s
      else if r_direct r && negb (slot_inflight s) then
        let '(c, o) := rdv_client_next c (g_packed s) in
        let s := s <| g_rc := Some c |> in
        match o with
        | Some o =>
            let s := match seal_to (slot_key s (my_grade s)) o (x_rnd x 0%nat) with
                     | Some val => (slot_put s RDV_OFFER (Some (k_cid c)) false val (-1) x).1
                     | None => s
                     end in
            s <| g_next_put := u64 (x_now x + SIG_DHT_PUT_MS) |>
        | None => client_relay_put s r x
        end
      else client_relay_put s r x
  end.
Definition warming (s : sig_t) : bool :=
  let w f := sf_up f && bool_decide (ack_node f = []) in w (s_fam s false) || w (s_fam s true).

Definition dht_pump (s : sig_t) (x : sig_env) : sig_t :=
  let r := routes_now x in
  let now := x_now x in
  let s := s <| g_routeless := negb (any_route r) |> in
  if negb (any_route r) then s
  else
    let s := if r_wide r && (g_stage s <? 1) then s <| g_stage := 1 |> else s in
    let s := if g_next_get s <=? now then (slot_get s false x) <| g_next_get := u64 (now + SIG_DHT_GET_MS) |> else s in
    let s := if r_wide r && (g_next_wide_get s <=? now) then
               let s := slot_get s true x in
               let seen := if s_is_host s then g_mine_stored s else match g_rc s with Some c => k_have_host c | None => false end in
               s <| g_next_wide_get := u64 (now + (if seen && negb (relay_locating s) && negb (warming s) then SIG_DHT_WIDE_IDLE_MS else SIG_DHT_WIDE_GET_MS)) |>
             else s in
    if s_is_host s then host_pump_puts s r x else client_pump_puts s r x.

(** ** The link *)
Definition addr_is_lan_scope (sa : sockaddr) : bool :=
  match sa with
  | AF_INET6 _ a _ =>
      let b i := nth i a 0 in
      ((b 0%nat =? 0xfe) && ((b 1%nat .& 0xc0) =? 0x80)) || bytes_eqb a (replicate 15 0 ++ [1]) || ((b 0%nat .& 0xfe) =? 0xfc)
  | AF_INET _ a =>
      let b i := nth i a 0 in
      (b 0%nat =? 127) || (b 0%nat =? 10) || ((b 0%nat =? 172) && (16 <=? b 1%nat) && (b 1%nat <=? 31)) ||
      ((b 0%nat =? 192) && (b 1%nat =? 168)) || ((b 0%nat =? 169) && (b 1%nat =? 254))
  | AF_OTHER => false
  end.
Definition with_port (sa : sockaddr) (port : Z) : sockaddr :=
  match sa with AF_INET6 _ a sc => AF_INET6 port a sc | AF_INET _ a => AF_INET port a | AF_OTHER => AF_OTHER end.
Definition direct_fire (s : sig_t) (src : sockaddr) (dport : Z) (sdp : bytes) : sig_t :=
  if negb (g_direct_cb s) || negb (truth dport) || negb (addr_is_lan_scope src) then s else note s (EvDirect (with_port src dport) sdp).
Definition mcast_open (key salt data : bytes) : option (Z * rdv_msg) :=
  match msg_open_ad (2 + RDV_MAX_MSG) key salt data with
  | None => None
  | Some plain =>
      if (length plain <? 3)%nat then None
      else match rdv_decode (drop 2 plain) with DecOk m => Some ((nth 0 plain 0 << 8) .| nth 1 plain 0, m) | _ => None end
  end.
Definition deliver_host_mcast (s : sig_t) (data : bytes) (src : sockaddr) : sig_t :=
  match mcast_open (sig_key (g_keys s)) (cstr "h") data with
  | None => s
  | Some (dport, m) => if bool_decide (m_kind m = RDV_HOSTINFO) then direct_fire s src dport [] else s
  end.
Definition deliver_claim_mcast (s : sig_t) (data : bytes) (src : sockaddr) : sig_t :=
  if (length data <=? RDV_CID_LEN)%nat then s
  else
    let cid := take RDV_CID_LEN data in
    let sealed := drop RDV_CID_LEN data in
    let opened := match mcast_open (slot_key s SIG_GRADE_RW) (cstr "c") sealed with
                  | Some om => Some (om, SIG_GRADE_RW)
                  | None => match mcast_open (slot_key s SIG_GRADE_RO) (cstr "c") sealed with Some om => Some (om, SIG_GRADE_RO) | None => None end
                  end in
    match opened with
    | None => s
    | Some ((dport, m), grade) =>
        if negb (bool_decide (m_kind m = RDV_OFFER)) || negb (bytes_eqb (m_from m) cid) then s
        else
          match sdp_of m with
          | None => s
          | Some sdp =>
              let s := match g_rh s with
                       | Some h =>
                           if g_mcast_claims s then s
                           else
                             let '(h, new) := rdv_host_slot h m in
                             let s := s <| g_rh := Some h |> in
                             if new then recv (s <| g_rh := Some (grade_claimant h cid (fun c => c <| c_grade := u8 grade |>)) |>) cid sdp else s
                       | None => s
                       end in
              direct_fire s src dport sdp
          end
    end.
Definition on_mcast_recv (s : sig_t) (salt data : bytes) (src : sockaddr) : sig_t :=
  if s_is_host s && bytes_eqb salt (cstr "c") then deliver_claim_mcast s data src
  else if negb (s_is_host s) && bytes_eqb salt (cstr "h") then deliver_host_mcast s data src
  else s.
Definition mcast_plain (s : sig_t) (m : rdv_msg) : option bytes :=
  match rdv_encode m RDV_MAX_MSG with
  | Some b => Some ([u8 (g_direct_port s >> 8); u8 (g_direct_port s)] ++ b)
  | None => None
  end.
(** The salt and the frame. *)
Definition mcast_frame (s : sig_t) (max : nat) (x : sig_env) : option (bytes * bytes) :=
  if s_is_host s then
    match g_rh s with
    | None => None
    | Some h =>
        match mcast_plain s (mk_rdv RDV_HOSTINFO (h_gen h) (h_cid h) rdv_zero 0 0 []) with
        | None => None
        | Some plain => match msg_seal_ad max (x_mrnd x) (sig_key (g_keys s)) (cstr "h") plain with Some f => Some (cstr "h", f) | None => None end
        end
    end
  else
    match g_rc s with
    | None => None
    | Some c =>
        if bool_decide (g_packed s = []) || (max <? RDV_CID_LEN)%nat then None
        else
          match mcast_plain s (mk_rdv RDV_OFFER (k_host_gen c) (k_cid c) (if k_have_host c then k_host_cid c else rdv_zero) 0 0 (g_packed s)) with
          | None => None
          | Some plain =>
              match msg_seal_ad (max - RDV_CID_LEN) (x_mrnd x) (slot_key s (my_grade s)) (cstr "c") plain with
              | Some f => Some (cstr "c", k_cid c ++ f)
              | None => None
              end
          end
    end.
Definition mcast_pump (s : sig_t) (x : sig_env) : sig_t :=
  if ending s || (x_now x <? g_next_mcast s) then s
  else
    let s := match mcast_frame s SIG_MCAST_MAX x with Some (salt, f) => note s (EvMcast salt f) | None => s end in
    s <| g_next_mcast := u64 (x_now x + SIG_MCAST_ANN_MS) |>.

(** ** One round: what arrived on the link, and what the engine reports. *)
Inductive eng_ev := EngGot (i : nat) (v : option bytes) (seq : Z) (node : bytes) | EngStored (i : nat) (stored : Z).
Definition on_eng (s : sig_t) (e : eng_ev) (x : sig_env) : sig_t :=
  match e with EngGot i v seq node => on_slot_get s i v seq node x | EngStored i stored => on_slot_put s i stored x end.
Definition sig_dispatch (s : sig_t) (frames : list (bytes * bytes * sockaddr)) (evs : list eng_ev) (x : sig_env) : sig_t :=
  let now := x_now x in
  let s := if g_mcast s && negb (g_mc s) && (g_next_mcast_open s <=? now)
           then s <| g_mc := x_mc x |> <| g_next_mcast_open := u64 (now + SIG_MCAST_OPEN_MS) |> else s in
  let s := if g_mc s then mcast_pump (fold_left (fun s '(salt, data, src) => on_mcast_recv s salt data src) frames s) x else s in
  let s := if s_dht s && negb (g_node s) && (negb (g_mc s) || (SIG_DHT_GRACE_MS <? u64 (now - g_start_ms s))) && (g_next_dht_open s <=? now)
           then (engage_dht s x) <| g_next_dht_open := u64 (now + SIG_DHT_OPEN_MS) |> else s in
  if g_node s then op_sweep (dht_pump (fold_left (fun s e => on_eng s e x) evs s) x) else s.
End Sig.
