(* ===== verification/SigCell.v ===== *)
(** src/src/sig.c, the cell: what a writer leaves in the two places, that a claimant does not
    write over an answer it has yet to take, and that every statement has room. *)
From S2P Require Import Prelude Net Bencode Crypto Keys CtlProto AddrText NsFacts SigFam Scan CandPolicy CandPack Obsemit Rdv Sig.

(** What a place of a cell holds, [[]] where there is none. *)
Definition place (cell : option bytes) (p : bytes) : bytes := default [] (cell_part (default [] cell) p).
(** The cell as a dictionary. *)
Definition cell_entry (p part : bytes) : list (bytes * bval) := if bool_decide (part = []) then [] else [(p, BStr part)].
Definition cell_dict (host turn : bytes) : bval := BDict (cell_entry CELL_TURN turn ++ cell_entry CELL_HOST host).

(** ** Lemmas *)
Lemma cell_place_runs b p part : cell_place b p part = fold_left wop_run (if bool_decide (part = []) then [] else [WKey p; WStr part]) b.
Proof. unfold cell_place. by case_match. Qed.
Lemma cell_pack_eq max host turn :
  cell_pack max host turn = if (length (encode (cell_dict host turn)) <=? max)%nat then Some (encode (cell_dict host turn)) else None.
Proof.
  set (e p part := if bool_decide (part = []) then [] else [WKey p; WStr part]).
  set (ops := WRaw (cstr "d") :: e CELL_TURN turn ++ e CELL_HOST host ++ [WRaw (cstr "e")]).
  assert (Et : concat (map wop_text ops) = encode (cell_dict host turn)).
  { unfold ops, cell_dict, cell_entry, e. rewrite encode_dict. repeat case_bool_decide; cbn [app map concat wop_text pair_text fst snd encode]; by rewrite <- ?app_assoc. }
  destruct (writer_runs ops max [] (benc_buf_init max)) as (_ & Hl & Hw); [by split_and!; [done|cbn; lia|]|]. cbn [app] in Hw. rewrite Et in Hw.
  unfold cell_pack. rewrite !cell_place_runs. fold (e CELL_TURN turn) (e CELL_HOST host).
  assert (Ef : benc_raw_add (fold_left wop_run (e CELL_HOST host) (fold_left wop_run (e CELL_TURN turn) (benc_raw_add (benc_buf_init max) (cstr "d")))) (cstr "e")
    = fold_left wop_run ops (benc_buf_init max)). { unfold ops. cbn [fold_left]. by rewrite !fold_left_app. }
  rewrite Ef. set (b := fold_left wop_run ops _) in *. destruct (bb_err b).
  - destruct (Nat.leb_spec (length (encode (cell_dict host turn))) max); [lia|done].
  - rewrite Hw in *. by destruct (Nat.leb_spec (length (encode (cell_dict host turn))) max); [|lia].
Qed.
Lemma str_text_longer s : (length s < length (str_text s))%nat.
Proof. unfold str_text. rewrite length_app. cbn [length]. lia. Qed.
Lemma cell_dict_longer host turn : (length host < length (encode (cell_dict host turn)))%nat /\ (length turn < length (encode (cell_dict host turn)))%nat.
Proof.
  unfold cell_dict, cell_entry. rewrite encode_dict. pose proof (str_text_longer host). pose proof (str_text_longer turn).
  repeat case_bool_decide; subst; cbn; rewrite ?length_app; cbn; rewrite ?length_app; cbn [length]; lia.
Qed.
Lemma cell_pack_len max host turn v : cell_pack max host turn = Some v -> (length host < max)%nat /\ (length turn < max)%nat /\ (length v <= max)%nat.
Proof.
  rewrite cell_pack_eq. destruct (Nat.leb_spec (length (encode (cell_dict host turn))) max) as [H|]; [|done]. intros E.
  assert (v = encode (cell_dict host turn)) as -> by congruence. pose proof (cell_dict_longer host turn). lia.
Qed.
(** What was packed is what is read. *)
Lemma cell_pack_part max host turn v p : (max <= SIG_WIRE_MAX)%nat -> cell_pack max host turn = Some v ->
  p = CELL_HOST \/ p = CELL_TURN -> place (Some v) p = (if bytes_eqb p CELL_HOST then host else turn).
Proof.
  intros Hm Hp Hin. pose proof (cell_pack_len _ _ _ _ Hp) as (L1 & L2 & _). rewrite cell_pack_eq in Hp. destruct (_ <=? _)%nat; [|done].
  assert (v = encode (cell_dict host turn)) as -> by congruence.
  assert (K : forall q, (length q < max)%nat -> len_ok q). { intros q Hq. unfold len_ok, INT64_MAX, SIG_WIRE_MAX in *. lia. }
  assert (Hf : Forall (fun kv => len_ok kv.1 /\ canon_at 0 kv.2) (cell_entry CELL_TURN turn ++ cell_entry CELL_HOST host)).
  { assert (Ht : forall q part, (length part < max)%nat -> len_ok q -> Forall (fun kv => len_ok kv.1 /\ canon_at 0 kv.2) (cell_entry q part)).
    { intros q part Hq Ho. unfold cell_entry. case_bool_decide; [done|]. forall_list. split; [done|]. constructor; [by unfold BENC_MAX_DEPTH|by apply K]. }
    apply Forall_app. split; apply Ht; done. }
  unfold place. cbn [default]. assert (En : exists c t, encode (cell_dict host turn) = c :: t) by (unfold cell_dict; rewrite encode_dict; eauto).
  destruct En as (c & t & En). unfold cell_part. rewrite En. rewrite <- En. unfold cell_dict. rewrite (dict_find_shallow _ _ Hf).
  assert (Hs : forall q, (length q < max)%nat -> benc_str_get (encode (BStr q)) = Some q).
  { intros q Hq. cbn [encode]. rewrite <- (app_nil_r (str_text q)). apply str_get_text. by apply K. }
  unfold cell_entry. destruct Hin as [-> | ->]; case_bool_decide; case_bool_decide; subst; cbn [app dict_get];
    change (bytes_eqb CELL_TURN CELL_HOST) with false; change (bytes_eqb CELL_HOST CELL_HOST) with true; change (bytes_eqb CELL_TURN CELL_TURN) with true;
    change (bytes_eqb CELL_HOST CELL_TURN) with false; cbn [option_map]; rewrite ?Hs by done; done.
Qed.
Lemma dec_three n : (n < 1000)%nat -> (length (dec (Z.of_nat n)) <= 3)%nat.
Proof.
  intros H. assert (A : forallb (fun n => (length (dec (Z.of_nat n)) <=? 3)%nat) (seq 0 1000) = true) by (vm_compute; reflexivity).
  rewrite forallb_forall in A. specialize (A n). rewrite in_seq in A. apply Nat.leb_le, A. lia.
Qed.
Lemma str_text_room s : (length s < 1000)%nat -> (length (str_text s) <= length s + 4)%nat.
Proof. intros H. unfold str_text. rewrite length_app. cbn [length]. pose proof (dec_three _ H). lia. Qed.
Lemma cell_fits host turn : (length host <= RDV_HDR_LEN + RDV_HOST_PAYLOAD + SEAL_OVERHEAD)%nat -> (length turn <= SIG_VALUE_MAX)%nat ->
  is_Some (cell_pack SIG_WIRE_MAX host turn).
Proof.
  intros Hh Ht. rewrite cell_pack_eq. assert (Hl : (length (encode (cell_dict host turn)) <= SIG_WIRE_MAX)%nat).
  { assert (A : (length host <= 136)%nat) by exact Hh. assert (B : (length turn <= 832)%nat) by exact Ht.
    pose proof (str_text_room host ltac:(lia)). pose proof (str_text_room turn ltac:(lia)). unfold cell_dict, cell_entry, SIG_WIRE_MAX. rewrite encode_dict.
    assert (E1 : length (str_text CELL_TURN) = 3%nat) by reflexivity. assert (E2 : length (str_text CELL_HOST) = 3%nat) by reflexivity. unfold pair_text.
    repeat case_bool_decide; cbn [app map concat fst snd encode length]; rewrite ?length_app; cbn [length]; rewrite ?length_app, ?E1, ?E2; cbn [length]; lia. }
  destruct (Nat.leb_spec (length (encode (cell_dict host turn))) SIG_WIRE_MAX); [by eexists|lia].
Qed.

Section Cell.
Context {C : Crypto} {L : CryptoLaws C}.

Lemma rdv_open_sealed key nonce m msg v n : length nonce = 24%nat -> msg_ok m -> rdv_encode m RDV_MAX_MSG = Some msg ->
  msg_seal n (Some nonce) key msg = Some v -> rdv_open key v = Some m.
Proof.
  intros Hn Hm He Hs. unfold rdv_open, msg_open. erewrite msg_open_seal_ad; [|exact Hn|exact Hs|]; [by rewrite (decode_encode _ _ _ Hm He)|].
  unfold rdv_encode in He. repeat (case_match; [done|]). injection He as <-. unfold put32. cbn [be_put app]. destruct Hm as [_ _ _ Hf Ht Hp].
  cbn [app length]. rewrite !length_app, Hf, Ht. cbn [length]. unfold RDV_MAX_MSG, RDV_HDR_LEN, RDV_CID_LEN. lia.
Qed.
Lemma own_class_opens s m v : rdv_open (slot_key s (my_grade s)) v = Some m -> claimant_open s v = Some (m, my_grade s).
Proof. intros H. unfold claimant_open, my_grade in *. destruct (g_have_rw s); rewrite H; done. Qed.
End Cell.

(** ** Properties *)

(** A writer keeps the place it did not author: whatever cell it finds, a store of the host's
    statement leaves the turn as it was, unless the session has ended or the turn is handed
    back, and a store of an ask or an answer leaves the host's statement as it was; its own
    place then reads back what it stored, and the cell fits a value of the DHT. *)
Theorem merge_keeps_the_other_place {C : Crypto} s i cur seq out :
  merge_mine s i SIG_WIRE_MAX cur seq = Some out ->
  let op := op_get s i in
  let freed := bool_decide (so_kind op = Some RDV_TOMB) || so_free_turn op in
  place (Some out) CELL_HOST = (if writes_host_place (so_kind op) then so_val op else place cur CELL_HOST) /\
  place (Some out) CELL_TURN = (if writes_host_place (so_kind op) then if freed then [] else place cur CELL_TURN else so_val op) /\
  (length out <= SIG_WIRE_MAX)%nat.
Proof.
  intros H. cbv zeta. unfold merge_mine in H. destruct (_ && _ && _) in H; [done|]. fold (place cur CELL_HOST) (place cur CELL_TURN) in H.
  assert (R : forall host turn, cell_pack SIG_WIRE_MAX host turn = Some out ->
    place (Some out) CELL_HOST = host /\ place (Some out) CELL_TURN = turn /\ (length out <= SIG_WIRE_MAX)%nat).
  { intros host turn Hp. split_and!; [rewrite (cell_pack_part _ _ _ _ _ (le_n _) Hp) by auto; done|rewrite (cell_pack_part _ _ _ _ _ (le_n _) Hp) by auto; done|].
    by apply cell_pack_len in Hp as (_ & _ & Hp). }
  destruct (writes_host_place (so_kind (op_get s i))); [apply R; by destruct (bool_decide _ || _)|]. destruct (bool_decide _ && _) in H; [done|]. by apply R.
Qed.

(** A claimant never writes over an answer it has yet to take: where the turn carries a statement
    sealed to its class that it would take, its store gives up, whatever else the cell holds. *)
Theorem unread_answer_is_kept {C : Crypto} {L : CryptoLaws C} s i c m msg nonce n turn cur seq :
  so_kind (op_get s i) = Some RDV_OFFER -> g_rc s = Some c -> k_have_host c = true -> k_cid c <> k_host_cid c ->
  length nonce = 24%nat -> msg_ok m -> rdv_encode m RDV_MAX_MSG = Some msg ->
  msg_seal n (Some nonce) (slot_key s (my_grade s)) msg = Some turn ->
  rdv_client_would_take c m = true -> place (Some cur) CELL_TURN = turn ->
  merge_mine s i SIG_WIRE_MAX (Some cur) seq = None.
Proof.
  intros Hk Hc Hh Hne Hn Hm He Hs Ht Hp. unfold merge_mine. fold (place (Some cur) CELL_TURN). rewrite Hp. destruct (_ && _ && _); [done|]. rewrite Hk. cbn [writes_host_place].
  rewrite bool_decide_eq_true_2 by done. cbn [andb].
  assert (Ho : turn_is_ours s turn = false); [|by rewrite Ho].
  unfold turn_is_ours. destruct turn as [|b turn].
  { unfold msg_seal in Hs. apply msg_seal_ad_length in Hs; [|done]. unfold SEAL_OVERHEAD in Hs. cbn in Hs. lia. }
  rewrite Hc, (own_class_opens s m) by (by eapply rdv_open_sealed). cbn. unfold rdv_client_may_replace.
  pose proof Ht as Hw. apply bool_decide_eq_true in Hw. unfold rdv_client_refusal in Hw. rewrite Hh in Hw. cbn [andb] in Hw.
  destruct (bytes_eqb (m_from m) (k_host_cid c)) eqn:Ef; cbn [negb] in Hw; [|by repeat case_match]. apply bool_decide_eq_true in Ef.
  assert (bytes_eqb (m_from m) (k_cid c) = false) as -> by (apply bool_decide_eq_false; congruence).
  rewrite Hh. cbn [negb orb]. by rewrite Ht.
Qed.

(** ** Witnesses: a host and a claimant of one invitation *)
Definition demo_token : bytes := replicate 16 9.
Definition demo_auth : bytes := replicate 16 5.
Definition demo_hcid : bytes := [200; 201; 202; 203; 204; 205; 206; 207].
Definition demo_nonce : bytes := replicate 24 3.
Definition demo_env (now : Z) : sig_env := mk_senv now true true true true true (fun _ => Some demo_nonce) (Some demo_nonce) (fun _ => EngStarted).
Definition demo_make (is_host : bool) : sig_t :=
  match @sig_create toy_crypto demo_token demo_auth false true false is_host (demo_env 10) with
  | Some s => sig_subscribe s
  | None => sig_blank (mk_session_keys [] [] [] 0 0 0) [] [] [] false false false is_host false 0
  end.
(** A claimant that has met the host and asked, with its ask going out in context 0. *)
Definition demo_asking : rdv_client :=
  (rdv_client_next (rdv_client_host_slot (rdv_client_init demo_cid) (mk_rdv RDV_HOSTINFO 7 demo_hcid rdv_zero 1 0 []) 1).1 [7]).1.
Definition demo_claimant : sig_t := (slot_put (sig_rdv_client (demo_make false) demo_asking) RDV_OFFER (Some demo_cid) false [1; 2; 3] (-1) (demo_env 20)).1.
Definition demo_answer_to : rdv_msg := mk_rdv RDV_ANSWER 7 demo_hcid demo_cid 2 1 [9].
Definition demo_answer_msg : bytes := default [] (rdv_encode demo_answer_to RDV_MAX_MSG).
Definition demo_answer_sealed : bytes :=
  default [] (@msg_seal toy_crypto SIG_WIRE_MAX (Some demo_nonce) (@slot_key toy_crypto demo_claimant (@my_grade demo_claimant)) demo_answer_msg).
Definition demo_cell : bytes := default [] (cell_pack SIG_WIRE_MAX [4; 5] demo_answer_sealed).

Lemma merge_keeps_the_other_place_witness :
  exists out, @merge_mine toy_crypto demo_claimant 0 SIG_WIRE_MAX (cell_pack SIG_WIRE_MAX [4; 5] []) 1 = Some out /\
    place (Some out) CELL_HOST = [4; 5] /\ place (Some out) CELL_TURN = [1; 2; 3].
Proof.
  destruct (@merge_mine toy_crypto demo_claimant 0 SIG_WIRE_MAX (cell_pack SIG_WIRE_MAX [4; 5] []) 1) as [out|] eqn:E; [|vm_compute in E; discriminate E].
  destruct (@merge_keeps_the_other_place toy_crypto _ _ _ _ _ E) as (A & B & _). exists out. split; [reflexivity|]. split; [exact A|exact B].
Defined.
Lemma unread_answer_is_kept_witness : @merge_mine toy_crypto demo_claimant 0 SIG_WIRE_MAX (Some demo_cell) 3 = None.
Proof.
  assert (E : @msg_seal toy_crypto SIG_WIRE_MAX (Some demo_nonce) (@slot_key toy_crypto demo_claimant (@my_grade demo_claimant)) demo_answer_msg = Some demo_answer_sealed)
    by (vm_compute; reflexivity).
  apply (@unread_answer_is_kept toy_crypto toy_crypto_laws demo_claimant 0 demo_asking demo_answer_to demo_answer_msg demo_nonce SIG_WIRE_MAX demo_answer_sealed).
  - vm_compute. reflexivity.
  - vm_compute. reflexivity.
  - vm_compute. reflexivity.
  - vm_compute. discriminate.
  - reflexivity.
  - split; cbn; try reflexivity; try (split; reflexivity || discriminate); repeat constructor.
  - vm_compute. reflexivity.
  - exact E.
  - vm_compute. reflexivity.
  - vm_compute. reflexivity.
Defined.
