(* ===== verification/SigFlight.v ===== *)
(** src/src/sig.c, what is under way: whatever the session asks, the link carries and the engine
    reports, in any order, one store at most is in flight, and nothing the host states to a
    claimant is lost: it is stored, under way, or due again. *)
From stdpp Require Import relations.
From S2P Require Import Prelude Net Bencode Crypto Keys CtlProto AddrText NsFacts SigFam Scan CandPolicy CandPack Obsemit Rdv RdvWorld RdvLive Sig.

(** ** The steps *)
(** What the rest of the program calls, and the parts of a round. *)
Inductive sig_act :=
| APost (data : bytes) (iid : option bytes) | AAnswer (cid data : bytes) (iid : option bytes) | ARefuse (cid : bytes) | AGone (cid : bytes)
| AWithdraw | AEnd | AGen (gen : Z) | AReask | AIdent | ALocate (x : sig_env) | AForget (family : Z) | AReinforce (family : Z) (sa : bytes) (x : sig_env)
| AFam (g : SigFam.sig -> SigFam.sig)                      (* the families' notes, see [SigFam] *)
| AKeep (cid : bytes) | ARelease (cid : bytes)             (* the session, on the host's own table *)
| AOpen (x : sig_env) | AFrame (salt data : bytes) (src : sockaddr) | ALink (x : sig_env) | AEngage (x : sig_env) | APump (x : sig_env) | ASweep.
Section Steps.
Context {C : Crypto}.
Definition mc_open_step (s : sig_t) (x : sig_env) : sig_t :=
  if g_mcast s && negb (g_mc s) && (g_next_mcast_open s <=? x_now x)
  then s <| g_mc := x_mc x |> <| g_next_mcast_open := u64 (x_now x + SIG_MCAST_OPEN_MS) |> else s.
Definition engage_step (s : sig_t) (x : sig_env) : sig_t :=
  if s_dht s && negb (g_node s) && (negb (g_mc s) || (SIG_DHT_GRACE_MS <? u64 (x_now x - g_start_ms s))) && (g_next_dht_open s <=? x_now x)
  then (engage_dht s x) <| g_next_dht_open := u64 (x_now x + SIG_DHT_OPEN_MS) |> else s.
Definition act_do (s : sig_t) (a : sig_act) : sig_t :=
  match a with
  | APost data iid => (sig_post s data iid).1
  | AAnswer cid data iid => (sig_answer s cid data iid).1
  | ARefuse cid => sig_refuse s cid
  | AGone cid => sig_claimant_gone s cid
  | AWithdraw => sig_withdraw s
  | AEnd => sig_end s
  | AGen gen => sig_set_gen s gen
  | AReask => sig_reask s
  | AIdent => sig_ident_changed s
  | ALocate x => sig_locate s x
  | AForget family => sig_forget_node s family
  | AReinforce family sa x => sig_reinforce_node s family sa x
  | AFam g => on_base s g
  | AKeep cid => s <| g_rh := option_map (fun h => rdv_host_keep h cid) (g_rh s) |>
  | ARelease cid => s <| g_rh := option_map (fun h => rdv_host_release h cid) (g_rh s) |>
  | AOpen x => mc_open_step s x
  | AFrame salt data src => on_mcast_recv s salt data src
  | ALink x => mcast_pump s x
  | AEngage x => engage_step s x
  | APump x => dht_pump s x
  | ASweep => op_sweep s
  end.
(** A state with the claimants some statement to which is known to be stored.  The engine reports
    on a store once, and on a read any number of times. *)
Inductive sig_step : sig_t * list bytes -> sig_t * list bytes -> Prop :=
| StAct s st a : sig_step (s, st) (act_do s a, st)
| StGot s st i v seq node x : so_is_put (op_get s i) = false -> sig_step (s, st) (on_slot_get s i v seq node x, st)
| StStored s st i n x : op_storing (op_get s i) = true ->
    sig_step (s, st) (on_slot_put s i n x, if (0 <? n) && bool_decide (so_kind (op_get s i) = Some RDV_ANSWER) then so_cid (op_get s i) :: st else st).
End Steps.

(** ** The invariant *)
Definition host_wf (h : rdv_host) : Prop :=
  length (h_cid h) = RDV_CID_LEN /\ Forall (fun c => length (c_cid c) = RDV_CID_LEN /\ (length (c_answer c) <= RDV_MAX_PAYLOAD)%nat) (h_c h).
Definition host_sound (h : rdv_host) : Prop := host_ok h /\ host_wf h.
Definition storing_n (o : sig_op) : nat := if op_storing o then 1 else 0.
Fixpoint stores (l : list sig_op) : nat := match l with [] => 0 | o :: l => storing_n o + stores l end.
(** A statement to [cid] is on its way. *)
Definition under_way (s : sig_t) (cid : bytes) : Prop :=
  exists o, o ∈ g_ops s /\ op_storing o = true /\ so_kind o = Some RDV_ANSWER /\ so_cid o = cid.
Definition holders (h : rdv_host) (P : bytes -> Prop) : Prop := forall i c, h_c h !! i = Some c -> c_holds c = true -> P (c_cid c).
Record flight_ok (held st : list bytes) (s : sig_t) : Prop := {
  fo_len : length (g_ops s) = SIG_OPS_MAX;
  fo_one : (stores (g_ops s) <= 1)%nat;
  fo_host : forall h, g_rh s = Some h -> host_sound h /\ holders h (fun cid => under_way s cid \/ cid ∈ st \/ cid ∈ held)
}.

(** ** Lemmas: the host's table *)
Definition holders_sub (h h' : rdv_host) : Prop :=
  forall i c, h_c h' !! i = Some c -> c_holds c = true -> exists j c0, h_c h !! j = Some c0 /\ c_holds c0 = true /\ c_cid c0 = c_cid c.
Lemma holders_sub_refl h : holders_sub h h.
Proof. intros i c Hi Hh. by exists i, c. Qed.
Lemma holders_sub_trans h1 h2 h3 : holders_sub h1 h2 -> holders_sub h2 h3 -> holders_sub h1 h3.
Proof.
  intros H1 H2 i c Hi Hh. destruct (H2 i c Hi Hh) as (j & c0 & Hj & Hh0 & E). destruct (H1 j c0 Hj Hh0) as (k & c1 & Hk & Hh1 & E1).
  exists k, c1. split_and!; [done|done|congruence].
Qed.
Lemma holders_mono h h' P Q : holders_sub h h' -> (forall cid, P cid -> Q cid : Prop) -> holders h P -> holders h' Q.
Proof. intros Hs HPQ H i c Hi Hh. destruct (Hs i c Hi Hh) as (j & c0 & Hj & Hh0 & <-). apply HPQ. by eapply H. Qed.
(** A slot rewritten under its name, taking nothing up. *)
Lemma set_sub h i c : (c_holds c = true -> c_holds (c_at h i) = true /\ c_cid c = c_cid (c_at h i)) -> holders_sub h (set_c h i c).
Proof.
  intros Hc j d Hd Hh. cbn in Hd. destruct (decide (i = j)) as [->|Hn].
  - destruct (decide (j < length (h_c h))%nat) as [Hl|Hl]; [|rewrite list_insert_ge in Hd by lia; by exists j, d].
    rewrite list_lookup_insert_eq in Hd by done. injection Hd as <-. destruct (Hc Hh) as [H1 H2]. exists j, (c_at h j). split_and!; [|done|done].
    apply lookup_lt_is_Some_2 in Hl as [c0 H0]. by rewrite (c_at_lookup _ _ _ H0).
  - rewrite list_lookup_insert_ne in Hd by done. by exists j, d.
Qed.
Lemma wf_set h i c : host_wf h -> length (c_cid c) = RDV_CID_LEN -> (length (c_answer c) <= RDV_MAX_PAYLOAD)%nat -> host_wf (set_c h i c).
Proof. intros [H1 H2] Hc Ha. split; [done|]. cbn. by apply Forall_insert. Qed.
Lemma wf_at h i : host_wf h -> length (c_cid (c_at h i)) = RDV_CID_LEN /\ (length (c_answer (c_at h i)) <= RDV_MAX_PAYLOAD)%nat.
Proof.
  intros [_ H]. unfold c_at. destruct (nth_in_or_default i (h_c h) claimant_zero) as [Hi| ->]; [|split; [done|cbn; lia]].
  rewrite Forall_forall in H. apply H. by apply list_elem_of_In.
Qed.
Lemma host_wf_ext h h' : h_cid h' = h_cid h -> h_c h' = h_c h -> host_wf h -> host_wf h'.
Proof. intros E1 E2 [H1 H2]. split; by rewrite ?E1, ?E2. Qed.
Lemma sub_ext h h' h0 : h_c h' = h_c h -> holders_sub h0 h -> holders_sub h0 h'.
Proof. intros E H i c Hi. rewrite E in Hi. by apply (H i). Qed.
Definition narrows (h h' : rdv_host) : Prop := host_wf h -> host_wf h' /\ holders_sub h h'.
Lemma narrows_set h h' i c : h_c h' = <[i := c]> (h_c h) -> h_cid h' = h_cid h -> c_cid c = c_cid (c_at h i) ->
  c_answer c = c_answer (c_at h i) \/ (length (c_answer c) <= RDV_MAX_PAYLOAD)%nat -> (c_holds c = true -> c_holds (c_at h i) = true) -> narrows h h'.
Proof.
  intros E1 E2 Ec Ea Eh Hw. destruct (wf_at h i Hw) as [W1 W2]. split.
  - apply (host_wf_ext (set_c h i c)); [done|done|]. apply wf_set; [done|by rewrite Ec|]. destruct Ea as [-> |?]; done.
  - apply (sub_ext (set_c h i c)); [done|]. apply set_sub. auto.
Qed.
Lemma narrows_same h h' : h_c h' = h_c h -> h_cid h' = h_cid h -> narrows h h'.
Proof. intros E1 E2 Hw. split; [by apply (host_wf_ext h)|]. apply (sub_ext h); [done|apply holders_sub_refl]. Qed.
Lemma narrows_found h cid f : (forall i, rdv_host_find h cid = Some i -> narrows h (f i)) ->
  narrows h (match rdv_host_find h cid with Some i => f i | None => h end).
Proof. intros H. destruct (rdv_host_find h cid) as [i|]; [by apply H|by apply narrows_same]. Qed.
Lemma narrows_answer h cid p : narrows h (rdv_host_answer h cid p).
Proof.
  apply narrows_found. intros i _. destruct (Nat.ltb_spec RDV_MAX_PAYLOAD (length p)); [by apply narrows_same|]. cbv zeta.
  eapply (narrows_set _ _ i); [by destruct (in_state _ _)|by destruct (in_state _ _)|done|by right|done].
Qed.
Lemma narrows_unsent h cid : narrows h (rdv_host_unsent h cid).
Proof. apply narrows_found. intros i _. destruct (in_state _ _); [by apply narrows_same|]. eapply (narrows_set _ _ i); try done; by left. Qed.
Lemma narrows_refuse h cid r : narrows h (rdv_host_refuse h cid r).
Proof.
  apply narrows_found. intros i _. cbv zeta. eapply (narrows_set _ _ i); [by destruct (in_state _ _)|by destruct (in_state _ _)|done|right; cbn; lia|done].
Qed.
Lemma narrows_forget h cid : narrows h (rdv_host_forget h cid).
Proof.
  apply narrows_found. intros i _. cbv zeta. eapply (narrows_set _ _ i); [by destruct (in_state _ _)|by destruct (in_state _ _)|done|right; cbn; lia|done].
Qed.
Lemma narrows_keep h cid : narrows h (rdv_host_keep h cid).
Proof.
  apply narrows_found. intros i _. cbv zeta. destruct (in_state RDV_C_GONE _); [by apply narrows_same|]. destruct (_ && _); [by apply narrows_same|].
  eapply (narrows_set _ _ i); [by destruct (in_state _ _)|by destruct (in_state _ _)|..]; repeat (case_match; cbn); auto.
Qed.
Lemma narrows_release h cid : narrows h (rdv_host_release h cid).
Proof.
  unfold rdv_host_release. cbv zeta. destruct (rdv_host_find h cid) as [i|]; [|by apply narrows_same].
  eapply (narrows_set _ _ i ((c_at h i) <| c_holds := false |>)); [by case_match|by case_match|done|by left|done].
Qed.
Lemma narrows_trans h1 h2 h3 : narrows h1 h2 -> narrows h2 h3 -> narrows h1 h3.
Proof. intros N1 N2 Hw. destruct (N1 Hw) as [W1 S1]. destruct (N2 W1) as [W2 S2]. split; [done|by eapply holders_sub_trans]. Qed.
Lemma narrows_slot h m : host_ok h -> length (m_from m) = RDV_CID_LEN -> narrows h (rdv_host_slot h m).1.
Proof.
  intros Hok Hl Hw. destruct (slot_spec h m Hok) as [|h1 i h' c' new Hk Hz Ha Hfr E S D _]; [split; [done|apply holders_sub_refl]|].
  pose proof (admit_ok _ _ _ _ Hok Ha) as (_ & Hi & _ & Hc).
  assert (W1 : host_wf h1).
  { unfold host_admit in Ha. destruct (rdv_host_find h (m_from m)); [by injection Ha as <- <-|].
    destruct (match host_evict h RDV_C_FREE with Some _ => _ | None => _ end) as [b|]; [|done]. injection Ha as <- <-. apply wf_set; [done|done|cbn; lia]. }
  pose proof D as [D1 _ _ D4 D5 _ _ _]. destruct (wf_at h1 i W1) as [A1 A2]. split.
  - split; [rewrite (ss_cid _ _ S); by destruct Hw|]. rewrite E. apply Forall_insert; [|rewrite D1, D5; done]. destruct W1 as [_ W1].
    unfold clear_holds. apply Forall_fmap. eapply Forall_impl; [exact W1|done].
  - intros j d Hd Hh. exfalso. rewrite E in Hd. destruct (decide (i = j)) as [->|Hn].
    + rewrite list_lookup_insert_eq in Hd by (unfold clear_holds; rewrite length_map; by eapply lookup_lt_Some). injection Hd as <-. congruence.
    + rewrite list_lookup_insert_ne in Hd by done. unfold clear_holds in Hd. rewrite list_lookup_fmap in Hd. destruct (h_c h1 !! j); [|done]. injection Hd as <-. done.
Qed.
Lemma grade_ok h cid g : (forall c, c_cid (g c) = c_cid c /\ c_state (g c) = c_state c /\ c_holds (g c) = c_holds c /\ c_pending (g c) = c_pending c /\ c_answer (g c) = c_answer c) ->
  host_ok h -> host_ok (grade_claimant h cid g) /\ narrows h (grade_claimant h cid g).
Proof.
  intros Hg Hok. unfold grade_claimant. destruct (rdv_host_find h cid) as [i|] eqn:Ef; [|split; [done|by apply narrows_same]].
  destruct (Hg (c_at h i)) as (G1 & G2 & G3 & G4 & G5). apply find_spec in Ef as (Hi & _ & _). split.
  - eapply set_same_ok; [done|exact Hi|done|done|by rewrite G3|rewrite G4; by left].
  - eapply (narrows_set _ _ i); [done|done|done|by left|by rewrite G3].
Qed.
(** What the host says to the link or under its seal takes nothing up. *)
Lemma narrows_next_info h info : h_info_pending h = true -> narrows h (rdv_host_next h info).1.
Proof. intros Hi. unfold rdv_host_next. rewrite Hi. destruct (_ <? _)%nat; [by apply narrows_same|]. destruct (rdv_encode _ _); by apply narrows_same. Qed.
Lemma next_info_ok h info : h_info_pending h = true -> host_sound h -> host_sound (rdv_host_next h info).1 /\ holders_sub h (rdv_host_next h info).1.
Proof. intros Hi [H1 H2]. destruct (narrows_next_info h info Hi H2) as [W S]. split; [split; [by apply next_ok|done]|done]. Qed.

(** *** The message the loop reads back from what the host states *)
Lemma get32_mod v l : get32 (put32 v ++ l) = v mod 2 ^ 32.
Proof. unfold get32, put32. rewrite take_app_length' by (symmetry; apply be_put_length). by rewrite be_get_put. Qed.
Lemma owed_reads_back m msg : length (m_from m) = RDV_CID_LEN -> length (m_to m) = RDV_CID_LEN -> rdv_encode m RDV_MAX_MSG = Some msg ->
  exists m', rdv_decode msg = DecOk m' /\ m_to m' = m_to m.
Proof.
  intros Hf Ht He. set (m' := mk_rdv (m_kind m) (u32 (m_gen m)) (m_from m) (m_to m) (u32 (m_seq m)) (u32 (m_re m)) (m_payload m)). exists m'. split; [|done].
  assert (Hp : (length (m_payload m) <= RDV_MAX_PAYLOAD)%nat). { unfold rdv_encode in He. destruct (Nat.ltb_spec RDV_MAX_PAYLOAD (length (m_payload m))); [done|lia]. }
  assert (R : forall v, put32 (u32 v) = put32 v).
  { intros v. pose proof (be_put_get (put32 v)) as E. unfold put32 in *. rewrite be_get_put, be_put_length in E. apply E. apply be_put_ok. }
  apply (decode_encode m' RDV_MAX_MSG).
  - split; cbn; try done; apply Z.mod_pos_bound; lia.
  - rewrite <- He. unfold rdv_encode. cbn [m_payload m_kind m_gen m_from m_to m_seq m_re m']. by rewrite !R.
Qed.

(** ** Lemmas: contexts *)
Lemma storing_insert l i o o' : l !! i = Some o -> (stores (<[i := o']> l) + storing_n o = stores l + storing_n o')%nat.
Proof.
  revert i. induction l as [|y l IH]; intros [|i] H; try done.
  - injection H as ->. cbn. lia.
  - change (<[S i := o']> (y :: l)) with (y :: <[i := o']> l). cbn [stores]. specialize (IH i H). lia.
Qed.
Lemma inflight_stores s : slot_inflight s = false -> stores (g_ops s) = 0%nat.
Proof.
  unfold slot_inflight. intros H. induction (g_ops s) as [|o l IH]; [done|]. cbn in *. apply orb_false_iff in H as [H1 H2]. unfold storing_n. by rewrite H1, IH.
Qed.
Lemma op_get_lookup s i o : g_ops s !! i = Some o -> op_get s i = o.
Proof. intros H. by apply nth_lookup_Some. Qed.
Lemma flight_same held st s s' : g_ops s' = g_ops s -> g_rh s' = g_rh s -> flight_ok held st s -> flight_ok held st s'.
Proof. intros E1 E2 [H1 H2 H3]. split; unfold under_way in *; rewrite ?E1, ?E2; done. Qed.
Lemma flight_host held st s s' h' : g_ops s' = g_ops s -> g_rh s' = Some h' ->
  (forall h, g_rh s = Some h -> host_sound h -> host_sound h' /\ holders_sub h h') -> is_Some (g_rh s) -> flight_ok held st s -> flight_ok held st s'.
Proof.
  intros E1 E2 Hh [h E] [H1 H2 H3]. split; unfold under_way in *; rewrite ?E1; [done|done|]. intros h0 E0. rewrite E2 in E0. injection E0 as ->.
  destruct (H3 h E) as [S P]. destruct (Hh h E S) as [S' Sub]. split; [done|]. eapply holders_mono; [exact Sub|intros cid Hc; exact Hc|exact P].
Qed.
Lemma flight_map held st s s' f : g_ops s' = g_ops s -> g_rh s' = option_map f (g_rh s) ->
  (forall h, host_ok h -> host_ok (f h)) -> (forall h, narrows h (f h)) -> flight_ok held st s -> flight_ok held st s'.
Proof.
  intros E1 E2 Hok Hn F. destruct (g_rh s) as [h|] eqn:E; [|by apply (flight_same _ _ s); [done|by rewrite E2, E|]].
  eapply (flight_host _ _ s); [done|exact E2| |by rewrite E|done]. intros h0 E0 [O W]. rewrite E in E0. injection E0 as <-. destruct (Hn h W). split; [split; auto|done].
Qed.
(** A context that is not a store, before or after. *)
Lemma flight_op held st s s' i o : g_ops s' = <[i := o]> (g_ops s) -> g_rh s' = g_rh s -> op_storing o = false -> op_storing (op_get s i) = false ->
  flight_ok held st s -> flight_ok held st s'.
Proof.
  intros E1 E2 Ho Hi [H1 H2 H3]. destruct (g_ops s !! i) as [o0|] eqn:E.
  - rewrite (op_get_lookup _ _ _ E) in Hi. pose proof (storing_insert _ _ _ o E) as Hc. unfold storing_n in Hc. rewrite Ho, Hi in Hc. split.
    + rewrite E1. by rewrite length_insert.
    + rewrite E1. lia.
    + intros h Eh. rewrite E2 in Eh. destruct (H3 h Eh) as [S P]. split; [done|]. eapply holders_mono; [apply holders_sub_refl| |exact P].
      intros cid [(o1 & Ho1 & Hs & Hk)|?]; [left|by right]. exists o1. split; [|done]. rewrite E1. apply list_elem_of_lookup in Ho1 as [k Hk1]. apply list_elem_of_lookup. exists k.
      rewrite list_lookup_insert_ne; [done|]. intros ->. rewrite E in Hk1. injection Hk1 as <-. congruence.
  - apply (flight_same _ _ s); [|done|by split]. rewrite E1. apply list_insert_ge. by apply lookup_ge_None.
Qed.
Lemma not_put_not_storing o : so_is_put o = false -> op_storing o = false.
Proof. intros H. unfold op_storing. by rewrite H, andb_false_r. Qed.

(** *** What only touches other fields *)
Lemma same_seed s node x : g_ops (sig_seed s node x) = g_ops s /\ g_rh (sig_seed s node x) = g_rh s.
Proof. unfold sig_seed, engage_dht, note. by repeat (case_match; cbn). Qed.
Lemma same_nodes s pl x : g_ops (host_nodes_seed s pl x) = g_ops s /\ g_rh (host_nodes_seed s pl x) = g_rh s.
Proof.
  unfold host_nodes_seed. generalize (seq 0 (length pl / CTL_RDV_PLEN)). intros l. revert s. induction l as [|o l IH]; intros s; [done|]. cbn [fold_left].
  destruct (IH (match ctl_rdv_decode (slice (o * CTL_RDV_PLEN) CTL_RDV_PLEN pl) with Some (_, sa) => sig_seed s (sa_bytes sa) x | None => s end)) as [E1 E2].
  rewrite E1, E2. case_match; [|done]. destruct p as [? sa]. apply same_seed.
Qed.
Lemma base_ops s g : g_ops (on_base s g) = g_ops s.
Proof. unfold on_base. cbv zeta. by case_match. Qed.
Lemma flight_base held st s g : flight_ok held st s -> flight_ok held st (on_base s g).
Proof.
  intros F. unfold on_base. cbv zeta. destruct (sg_info_pending _); [|by apply (flight_same _ _ s)]. apply (flight_map _ _ s _ owe_info); [done|done| |by intros h; apply narrows_same|done].
  intros h H. by apply (host_ok_ext h).
Qed.
Lemma decode_from_len inp m : rdv_decode inp = DecOk m -> length (m_from m) = RDV_CID_LEN.
Proof.
  unfold rdv_decode. destruct inp as [|v inp]; [done|]. destruct (negb _); [done|]. destruct (Nat.ltb_spec (length (v :: inp)) RDV_HDR_LEN) as [|Hl]; [done|].
  destruct (rdv_kind_of _); [|done]. destruct (_ || _); [done|]. intros [= <-]. cbn [m_from]. unfold slice. rewrite length_take, length_drop.
  change RDV_HDR_LEN with 32%nat in Hl. unfold RDV_CID_LEN. lia.
Qed.

Section Flight.
Context {C : Crypto}.

Lemma open_from_len key v m : rdv_open key v = Some m -> length (m_from m) = RDV_CID_LEN.
Proof. unfold rdv_open. case_match; [|done]. case_match; try done. intros [= <-]. by eapply decode_from_len. Qed.
Lemma claimant_from_len s v m g : claimant_open s v = Some (m, g) -> length (m_from m) = RDV_CID_LEN.
Proof.
  unfold claimant_open. intros H. destruct (if g_have_rw s then _ else None) as [m0|] eqn:E.
  - injection H as -> _. destruct (g_have_rw s); [by eapply open_from_len|done].
  - destruct (rdv_open (slot_key s SIG_GRADE_RO) v) eqn:E2; [|done]. injection H as -> _. by eapply open_from_len.
Qed.
Lemma same_host_read s v seq x : g_ops (host_slot_read s v seq x) = g_ops s /\ g_rh (host_slot_read s v seq x) = g_rh s.
Proof.
  unfold host_slot_read. destruct (rdv_open _ v) as [m|]; [|done]. destruct (_ && _); [done|]. cbv zeta. destruct (s_is_host (got s x)); [by repeat case_match|].
  destruct (g_rc (got s x)) as [c|]; [|done]. set (s1 := if g_hcopy_seq (got s x) <=? seq then _ else got s x).
  assert (E : g_ops s1 = g_ops s /\ g_rh s1 = g_rh s) by (unfold s1; by case_match). clearbody s1. destruct (rdv_client_host_slot c m seq) as [c' w].
  set (s2 := if g_h_seq _ <? seq then _ else _). assert (E2 : g_ops s2 = g_ops s /\ g_rh s2 = g_rh s) by (unfold s2; by case_match). clearbody s2.
  destruct (bool_decide (m_kind m = RDV_TOMB)); [by destruct w; repeat case_match|].
  set (s3 := s2 <| g_info_seen := _ |> <| g_tomb_seen := 0 |>). pose proof (same_nodes s3 (m_payload m) x) as [N1 N2].
  set (s4 := host_nodes_seed s3 _ x) in *. clearbody s4. destruct E2 as [E2 E3]. change (g_ops s3) with (g_ops s2) in N1. change (g_rh s3) with (g_rh s2) in N2.
  destruct w; [|exact E|]; (split; [rewrite <- E2, <- N1; reflexivity|rewrite <- E3, <- N2; reflexivity]).
Qed.
Lemma flight_claimant_read held st s v wide x : flight_ok held st s -> flight_ok held st (claimant_read s v wide x).
Proof.
  intros F. unfold claimant_read. destruct (g_rh s) as [h|] eqn:Eh; [|done]. destruct (claimant_open s v) as [[m g]|] eqn:Eo; [|done].
  pose proof (claimant_from_len _ _ _ _ Eo) as Hl. destruct (negb _); [by apply (flight_same _ _ s)|]. pose proof (slot_ok h m) as Hok. pose proof (narrows_slot h m) as Hn.
  destruct (rdv_host_slot h m) as [h1 new]. cbn [fst] in *. cbv zeta.
  assert (S1 : host_sound h -> host_sound h1 /\ holders_sub h h1). { intros [O W]. destruct (Hn O Hl W). split; [split; auto|done]. }
  destruct new; cbn [negb].
  - set (h2 := grade_claimant h1 _ _). set (s2 := (got s x) <| g_rh := Some h1 |> <| g_rh := Some h2 |>).
    assert (F2 : flight_ok held st s2).
    { apply (flight_host _ _ s _ h2); [done|done| |by rewrite Eh|done]. intros h0 E0 S. rewrite Eh in E0. injection E0 as <-. destruct (S1 S) as [[O1 W1] B1].
      destruct (grade_ok h1 (m_from m) (fun c => c <| c_grade := u8 g |> <| c_wide_ask := wide |>)) as [O2 N2]; [by intros c|done|]. destruct (N2 W1) as [W2 B2]. split; [by split|by eapply holders_sub_trans]. }
    destruct (sdp_of m); [|done]. unfold recv. case_match; [by apply (flight_same _ _ s2)|done].
  - apply (flight_host _ _ s _ h1); [done|done| |by rewrite Eh|done]. intros h0 E0 S. rewrite Eh in E0. injection E0 as <-. by apply S1.
Qed.
Lemma same_answer_read s v seq x : g_ops (answer_read s v seq x) = g_ops s /\ g_rh (answer_read s v seq x) = g_rh s.
Proof.
  unfold answer_read. destruct (g_rc s) as [c|]; [|done]. destruct (rdv_open _ v) as [m|]; [|done]. cbv zeta. repeat (destruct (bytes_eqb _ _) || destruct (negb (rdv_client_would_take c m)); [done|]).
  destruct (if bool_decide _ then Some [] else sdp_of m) as [sdp|]; [|done]. destruct (rdv_client_own_slot c m) as [c' taken]. unfold recv, note. by repeat case_match.
Qed.
Lemma flight_noted held st s op node : flight_ok held st s -> flight_ok held st (node_noted s op node).
Proof.
  intros F. unfold node_noted. cbv zeta. set (s1 := on_base s _). assert (F1 : flight_ok held st s1) by by apply flight_base. case_match; [by apply (flight_same _ _ s1)|done].
Qed.
Lemma flight_got held st s i v seq node x : so_is_put (op_get s i) = false -> flight_ok held st s -> flight_ok held st (on_slot_get s i v seq node x).
Proof.
  intros Hp F. unfold on_slot_get. cbv zeta. set (s1 := on_op s i _).
  assert (F1 : flight_ok held st s1). { eapply (flight_op _ _ s _ i); [done|done| |by apply not_put_not_storing|done]. by apply not_put_not_storing. }
  clearbody s1. destruct v as [v|]; [|done]. pose proof (flight_noted held st s1 (op_get s i) node F1) as F2. set (s2 := node_noted s1 _ node) in *. clearbody s2.
  destruct (so_done _); [done|]. set (s3 := match cell_part v CELL_HOST with Some _ => _ | None => s2 end).
  assert (F3 : flight_ok held st s3). { unfold s3. destruct (cell_part v CELL_HOST) as [b|]; [|done]. destruct (same_host_read s2 b seq x) as [E1 E2]. by apply (flight_same _ _ s2). } clearbody s3.
  destruct (cell_part v CELL_TURN) as [part|]; destruct (s_is_host s3); try done; [by apply flight_claimant_read| |by apply (flight_same _ _ s3)].
  destruct (same_answer_read s3 part seq x). by apply (flight_same _ _ s3).
Qed.

(** *** Contexts and stores *)
Lemma alloc_spec s kind cid wide put s' i : op_alloc s kind cid wide put = Some (s', i) ->
  exists o o', g_ops s !! i = Some o /\ so_busy o = false /\ g_ops s' = <[i := o']> (g_ops s) /\ g_rh s' = g_rh s /\ s' = s <| g_ops := <[i := o']> (g_ops s) |> /\
    o' = mk_sop [] (default rdv_zero cid) (sf_epoch (s_fam s false), sf_epoch (s_fam s true)) 0 kind true false wide put false.
Proof.
  unfold op_alloc. destruct (list_find _ _) as [[j o]|] eqn:E; [|done]. intros [= <- <-]. apply list_find_Some in E as (Ho & Hb & _). exists o. eexists.
  split; [done|]. split; [by destruct (so_busy o)|]. done.
Qed.
Lemma idle_not_storing o : so_busy o = false -> op_storing o = false.
Proof. intros H. unfold op_storing. by rewrite H. Qed.
Lemma flight_get held st s wide x : flight_ok held st s -> flight_ok held st (slot_get s wide x).
Proof.
  intros F. unfold slot_get. destruct (op_alloc s None None wide false) as [[s1 i]|] eqn:Ea; [|done].
  apply alloc_spec in Ea as (o & o' & Ho & Hb & E1 & E2 & -> & ->). assert (Hl := lookup_lt_Some _ _ _ Ho). set (s1 := s <| g_ops := _ |>) in *.
  assert (F1 : flight_ok held st (note s1 (EvGet i wide))).
  { apply (flight_op _ _ s _ i (mk_sop [] (default rdv_zero None) (sf_epoch (s_fam s false), sf_epoch (s_fam s true)) 0 None true false wide false false)); try done.
    rewrite (op_get_lookup _ _ _ Ho). by apply idle_not_storing. }
  assert (Hp : so_is_put (op_get (note s1 (EvGet i wide)) i) = false) by (erewrite op_get_lookup by (by apply list_lookup_insert_eq); done).
  destruct (x_eng x i); [|done|by apply flight_got]. eapply (flight_op _ _ (note s1 (EvGet i wide)) _ i); try done; by apply not_put_not_storing.
Qed.
(** A report ends the one store there is. *)
Lemma reported s i (s1 := on_op s i (fun o => o <| so_done := true |>)) : op_storing (op_get s i) = true -> length (g_ops s) = SIG_OPS_MAX -> (stores (g_ops s) <= 1)%nat ->
  length (g_ops s1) = SIG_OPS_MAX /\ stores (g_ops s1) = 0%nat /\ forall cid, under_way s cid -> so_kind (op_get s i) = Some RDV_ANSWER /\ so_cid (op_get s i) = cid.
Proof.
  intros Hst L1 L2. destruct (g_ops s !! i) as [o|] eqn:Ho.
  2:{ unfold op_get in Hst. rewrite nth_overflow in Hst by (by apply lookup_ge_None). done. }
  rewrite (op_get_lookup _ _ _ Ho) in *. pose proof (storing_insert _ _ _ (o <| so_done := true |>) Ho) as Hc.
  assert (Hd : op_storing (o <| so_done := true |>) = false) by (unfold op_storing; cbn; by rewrite andb_false_r). unfold storing_n in Hc. rewrite Hd, Hst in Hc.
  assert (E1 : g_ops s1 = <[i := o <| so_done := true |>]> (g_ops s)) by (unfold s1, on_op; by rewrite (op_get_lookup _ _ _ Ho)). rewrite E1.
  split; [by rewrite length_insert|]. split; [lia|]. intros cid (o1 & Ho1 & Hs1 & Hk1 & Hc1). apply list_elem_of_lookup in Ho1 as [k Hk].
  destruct (decide (k = i)) as [->|Hn]; [rewrite Ho in Hk; by injection Hk as ->|]. exfalso.
  assert (Hk' : <[i := o <| so_done := true |>]> (g_ops s) !! k = Some o1) by (by rewrite list_lookup_insert_ne).
  pose proof (storing_insert _ _ _ sop_zero Hk') as Hc'. unfold storing_n in Hc'. rewrite Hs1 in Hc'. change (op_storing sop_zero) with false in Hc'. cbn in Hc, Hc'. lia.
Qed.
Lemma unsent_clears h cid : host_ok h -> holders (rdv_host_unsent h cid) (fun c => c <> cid).
Proof.
  intros H j c Hj Hh E. unfold rdv_host_unsent in Hj. destruct (rdv_host_find h cid) as [i|] eqn:Ef.
  2:{ assert (Hu : used c). { intros Hf. destruct (ho_idle _ H j c Hj (or_introl Hf)). congruence. } rewrite <- E, (find_at h j c H Hj Hu) in Ef. done. }
  apply find_spec in Ef as F. destruct F as (Hi & Ui & Ci). destruct (in_state RDV_C_GONE (c_at h i)) eqn:Eg.
  - apply in_state_true in Eg. assert (Hu : used c). { intros Hf. destruct (ho_idle _ H j c Hj (or_introl Hf)). congruence. }
    assert (i = j) as -> by (apply (ho_uniq _ H i j _ c Hi Hj Ui Hu); congruence). rewrite (c_at_lookup _ _ _ Hj) in Eg. destruct (ho_idle _ H j c Hj (or_intror Eg)). congruence.
  - cbn in Hj. destruct (decide (i = j)) as [->|Hn]; [rewrite list_lookup_insert_eq in Hj by (by eapply lookup_lt_Some); injection Hj as <-; done|].
    rewrite list_lookup_insert_ne in Hj by done. assert (Hu : used c). { intros Hf. destruct (ho_idle _ H j c Hj (or_introl Hf)). congruence. }
    apply Hn. apply (ho_uniq _ H i j _ c Hi Hj Ui Hu). congruence.
Qed.
(** What is left of the host's table once the store it waited on has been reported. *)
Lemma flight_reported held st st' s s' i f :
  flight_ok held st s -> op_storing (op_get s i) = true -> g_ops s' = g_ops (on_op s i (fun o => o <| so_done := true |>)) -> g_rh s' = option_map f (g_rh s) ->
  (forall h, host_ok h -> host_ok (f h)) -> (forall h, narrows h (f h)) -> st ⊆ st' ->
  (so_kind (op_get s i) = Some RDV_ANSWER -> so_cid (op_get s i) ∈ st' \/ forall h, host_ok h -> holders (f h) (fun c => c <> so_cid (op_get s i))) ->
  flight_ok held st' s' /\ stores (g_ops s') = 0%nat.
Proof.
  intros [L1 L2 L3] Hst E1 E2 Hok Hn Hss Hc. destruct (reported s i Hst L1 L2) as (R1 & R2 & R3). rewrite <- E1 in R1, R2. split; [|done]. split; [done|lia|].
  intros h0 E0. rewrite E2 in E0. destruct (g_rh s) as [h|] eqn:Eh; [|done]. injection E0 as <-. destruct (L3 h eq_refl) as [[O W] P]. destruct (Hn h W) as [W' Sub].
  split; [split; auto|]. intros j c Hj Hh. destruct (Sub j c Hj Hh) as (k & c0 & Hk & Hh0 & E). specialize (P k c0 Hk Hh0). rewrite E in P.
  destruct P as [P|[P|P]]; [|auto|auto]. apply R3 in P as [P1 P2]. destruct (Hc P1) as [Hin|Hout]; [right; left; congruence|]. by destruct (Hout h O j c Hj Hh).
Qed.
Lemma flight_stored held st s i n x :
  op_storing (op_get s i) = true -> flight_ok held st s ->
  flight_ok held (if (0 <? n) && bool_decide (so_kind (op_get s i) = Some RDV_ANSWER) then so_cid (op_get s i) :: st else st) (on_slot_put s i n x) /\
  stores (g_ops (on_slot_put s i n x)) = 0%nat.
Proof.
  intros Hst F. set (st' := if _ && _ then _ else st). assert (Hss : st ⊆ st') by (unfold st'; case_match; set_solver).
  assert (Bid : forall s' f, g_ops s' = g_ops (on_op s i (fun o => o <| so_done := true |>)) -> g_rh s' = option_map f (g_rh s) -> (forall h, host_ok h -> host_ok (f h)) ->
    (forall h, narrows h (f h)) -> (so_kind (op_get s i) = Some RDV_ANSWER -> 0 <? n = true) -> flight_ok held st' s' /\ stores (g_ops s') = 0%nat).
  { intros s' f E1 E2 Hok Hn Hk. apply (flight_reported held st st' s s' i f); try done. intros Ek. left. unfold st'. rewrite (Hk Ek), bool_decide_eq_true_2 by done. set_solver. }
  assert (Bsame : forall s', g_ops s' = g_ops (on_op s i (fun o => o <| so_done := true |>)) -> g_rh s' = g_rh s -> (so_kind (op_get s i) = Some RDV_ANSWER -> 0 <? n = true) ->
    flight_ok held st' s' /\ stores (g_ops s') = 0%nat).
  { intros s' E1 E2. apply (Bid s' (fun h => h)); [done|rewrite E2; by destruct (g_rh s)|done|by intros h; apply narrows_same]. }
  unfold on_slot_put. cbv zeta. set (s1 := on_op s i _) in *. destruct (so_kind (op_get s i)) as [[]|] eqn:Ek; try (by apply Bsame).
  - destruct (negb (s_is_host s1) || negb (0 <? n)); [by apply Bsame|].
    destruct (so_free_turn _); destruct (so_wide _); cbn [g_stage]; try destruct (_ <? 3); try (by apply Bsame);
      (apply (Bid _ rdv_host_turn_kept); [done|done| |by intros h; apply narrows_same|done]; intros h H; by apply (host_ok_ext h)).
  - destruct (0 <? n); by apply Bsame.
  - destruct (0 <? n) eqn:En; [by apply Bsame|]. apply (flight_reported held st st' s _ i (fun h => rdv_host_unsent h (so_cid (op_get s i)))); try done; [by intros; apply unsent_ok|by intros; apply narrows_unsent|].
    intros _. right. intros h O. by apply unsent_clears.
  - destruct (0 <? n); [|by apply Bsame]. destruct (so_wide _); by apply Bsame.
Qed.

(** A store takes a context; one for a claimant vouches for what the host holds for it. *)
Lemma flight_put held st s kind cid wide val q x : slot_inflight s = false -> flight_ok (match kind, cid with RDV_ANSWER, Some c => c :: held | _, _ => held end) st s ->
  let r := slot_put s kind cid wide val q x in
  flight_ok (match kind, cid, r.2 with RDV_ANSWER, Some c, false => c :: held | _, _, _ => held end) st r.1.
Proof.
  intros Hi F. cbv zeta. unfold slot_put. set (held1 := match kind, cid with RDV_ANSWER, Some c => c :: held | _, _ => held end) in *.
  assert (Hsame : match kind, cid, false with RDV_ANSWER, Some c, false => c :: held | _, _, _ => held end = held1) by (unfold held1; by destruct kind, cid).
  destruct (_ <? _)%nat; [cbn [fst snd]; by rewrite Hsame|]. destruct (op_alloc s (Some kind) cid wide true) as [[s0 i]|] eqn:Ea; [|cbn [fst snd]; by rewrite Hsame].
  apply alloc_spec in Ea as (o & o' & Ho & Hb & _ & _ & -> & ->). assert (Hl := lookup_lt_Some _ _ _ Ho). set (s0 := s <| g_ops := _ |>). cbv zeta.
  set (spent := match g_rh s0 with Some _ => _ | None => false end). set (s1 := on_op s0 i _).
  set (o1 := mk_sop val (default rdv_zero cid) (sf_epoch (s_fam s false), sf_epoch (s_fam s true)) q (Some kind) true false wide true spent).
  assert (E1 : g_ops s1 = <[i := o1]> (g_ops s)).
  { unfold s1, on_op. cbn [g_ops set set_g_ops s0]. unfold op_get. cbn [g_ops set set_g_ops s0]. erewrite nth_lookup_Some by (by apply list_lookup_insert_eq). apply list_insert_insert_eq. }
  assert (E2 : g_rh s1 = g_rh s) by done. clearbody s1.
  assert (F2 : flight_ok held st (note s1 (EvPut i wide))).
  { destruct F as [L1 L2 L3]. split; cbn [note g_ops g_rh set set_g_trace].
    - rewrite E1, length_insert. done.
    - rewrite E1. pose proof (storing_insert _ _ _ o1 Ho) as Hc. rewrite (inflight_stores _ Hi) in Hc. change (storing_n o1) with 1%nat in Hc. lia.
    - intros h Eh. rewrite E2 in Eh. destruct (L3 h Eh) as [S P]. split; [done|]. eapply holders_mono; [apply holders_sub_refl| |exact P].
      intros c [(o2 & Ho2 & Hs2 & _)|[?|Hc]]; [|by auto|].
      + exfalso. apply list_elem_of_lookup in Ho2 as [k Hk]. pose proof (storing_insert _ _ _ sop_zero Hk) as Hc. rewrite (inflight_stores _ Hi) in Hc. unfold storing_n in Hc.
        rewrite Hs2 in Hc. cbn in Hc. lia.
      + assert (Hin : c ∈ held \/ kind = RDV_ANSWER /\ cid = Some c) by (unfold held1 in Hc; destruct kind, cid; set_solver). destruct Hin as [?|[-> ->]]; [by auto|]. left. exists o1.
        split_and!; [|done|done|done]. cbn [note g_ops set set_g_trace]. rewrite E1. apply list_elem_of_lookup. exists i. by apply list_lookup_insert_eq. }
  assert (Hst : op_storing (op_get (note s1 (EvPut i wide)) i) = true). { erewrite op_get_lookup; [|cbn [note g_ops set set_g_trace]; rewrite E1; by apply list_lookup_insert_eq]. done. }
  set (s2 := note s1 (EvPut i wide)) in *. destruct (x_eng x i); cbn [fst snd].
  - rewrite Hsame. apply (flight_op _ _ s _ i (o1 <| so_busy := false |>)); try done.
    + unfold on_op. cbn [g_ops set set_g_ops]. unfold s2. unfold op_get. cbn [note g_ops set set_g_trace]. rewrite E1. erewrite nth_lookup_Some by (by apply list_lookup_insert_eq). apply list_insert_insert_eq.
    + rewrite (op_get_lookup _ _ _ Ho). by apply idle_not_storing.
  - assert (E : match kind, cid, true with RDV_ANSWER, Some c, false => c :: held | _, _, _ => held end = held) by (by destruct kind, cid). rewrite E. by apply (flight_same _ _ s2).
  - assert (E : match kind, cid, true with RDV_ANSWER, Some c, false => c :: held | _, _, _ => held end = held) by (by destruct kind, cid). rewrite E.
    destruct (flight_stored held st s2 i 0 x Hst F2) as [F3 _]. cbn [Z.ltb Z.compare andb] in F3. by apply (flight_same _ _ (on_slot_put s2 i 0 x)).
Qed.
Lemma flight_put_host held st s kind wide val q x : slot_inflight s = false -> flight_ok held st s -> flight_ok held st (slot_put s kind None wide val q x).1.
Proof. intros Hi F. pose proof (flight_put held st s kind None wide val q x Hi) as P. destruct kind; by apply P. Qed.

(** *** The loop over what is due *)
Inductive next_said (h : rdv_host) : rdv_host -> option rdv_out -> Prop :=
| SaidNothing h' : host_sound h' -> holders_sub h h' -> next_said h h' None
| SaidInfo h' o : o_seal o = RDV_SEAL_INFO -> h_info_pending h = true -> h_info_pending h' = false -> host_sound h' -> holders_sub h h' -> next_said h h' (Some o)
| SaidTo h' o i m : o_seal o = RDV_SEAL_CLASS -> rdv_decode (o_msg o) = DecOk m -> rdv_host_find h' (m_to m) = Some i -> c_cid (c_at h' i) = m_to m ->
    h_info_pending h' = h_info_pending h -> host_sound h' ->
    (forall P, holders h P -> holders h' (fun cid => cid = m_to m \/ P cid)) -> next_said h h' (Some o).
Lemma next_says h : host_sound h -> next_said h (rdv_host_next h []).1 (rdv_host_next h []).2.
Proof.
  intros [O W]. pose proof (next_ok h [] O) as O'. destruct (rdv_host_next h []) as [h' [o|]] eqn:E; cbn [fst snd] in *.
  - destruct (o_seal o) eqn:Es.
    + assert (Hp : h_info_pending h = true).
      { destruct (h_info_pending h) eqn:Ep; [done|]. unfold rdv_host_next in E. rewrite Ep in E. destruct (first_owed h (h_c h) 0); [|done]. destruct (rdv_encode _ _); [|done].
        injection E as <- <-. done. }
      destruct (next_info_ok h [] Hp (conj O W)) as [S B]. rewrite E in S, B. eapply SaidInfo; try done. unfold rdv_host_next in E. rewrite Hp in E.
      destruct (_ <? _)%nat; [done|]. destruct (rdv_encode _ _); [|done]. by injection E as <- <-.
    + apply next_class in E as (Hip & i & _ & Hi & Hp & _ & He & ->); [|done]. set (c := c_at h i) in *. destruct (wf_at h i W) as [W1 W2]. fold c in W1, W2.
      destruct (owed_reads_back (owed_msg h c (u32 (h_seq h + 1))) (o_msg o)) as (m & Hd & Hm); [unfold owed_msg; case_match; apply W|unfold owed_msg; by case_match|done|].
      assert (Et : m_to m = c_cid c) by (rewrite Hm; unfold owed_msg; by case_match). clear Hm.
      set (c' := c <| c_pending := false |> <| c_holds := true |>) in *. set (h' := set_c _ i c') in *.
      assert (Hi' : h_c h' !! i = Some c') by (cbn; apply list_lookup_insert_eq; by eapply lookup_lt_Some).
      assert (Hu : used c'). { intros Hf. destruct (ho_idle _ O i c Hi (or_introl Hf)). congruence. }
      assert (Hf : rdv_host_find h' (m_to m) = Some i) by (rewrite Et; by apply (find_at h' i c')).
      eapply (SaidTo h h' o i m); try done; [by rewrite (c_at_lookup _ _ _ Hi')|split; [done|]|].
      * apply (host_wf_ext (set_c h i c')); [done|done|]. by apply wf_set.
      * intros P HP j d Hj Hh. cbn in Hj. destruct (decide (i = j)) as [->|Hn].
        -- change (h_c h' !! j = Some d) in Hj. rewrite Hi' in Hj. injection Hj as <-. left. by rewrite Et.
        -- rewrite list_lookup_insert_ne in Hj by done. right. by apply (HP j).
  - pose proof (next_other h []) as [E1 E2]; [by rewrite E|]. rewrite E in E1, E2. cbn [fst] in E1. pose proof (next_cases h []) as (C1 & _ & _). rewrite E in C1.
    apply SaidNothing; [split; [done|by apply (host_wf_ext h)]|]. apply (sub_ext h); [done|apply holders_sub_refl].
Qed.
Lemma flight_more held held' st s : held ⊆ held' -> flight_ok held st s -> flight_ok held' st s.
Proof.
  intros Hs [H1 H2 H3]. split; [done|done|]. intros h Eh. destruct (H3 h Eh) as [S P]. split; [done|]. eapply holders_mono; [apply holders_sub_refl| |exact P]. intros c [?|[?|?]]; auto.
Qed.
(** The host's side of one turn of the loop. *)
Lemma flight_next held st s h : flight_ok held st s -> g_rh s = Some h ->
  let s' := s <| g_rh := Some (rdv_host_next h []).1 |> in
  match (rdv_host_next h []).2 with
  | Some o => match o_seal o, rdv_decode (o_msg o) with RDV_SEAL_CLASS, DecOk m => flight_ok (m_to m :: held) st s' | _, _ => flight_ok held st s' end
  | None => flight_ok held st s'
  end.
Proof.
  intros F Eh. cbv zeta. pose proof F as [L1 L2 L3]. destruct (L3 h Eh) as [S P]. pose proof (next_says h S) as N. destruct N as [h' S' B|h' o Es Hp Hp' S' B|h' o i m Es Hd Hf Hc Hp S' B].
  - eapply (flight_host _ _ s); [done|done| |by rewrite Eh|done]. intros h0 E0 _. rewrite Eh in E0. by injection E0 as <-.
  - rewrite Es. eapply (flight_host _ _ s); [done|done| |by rewrite Eh|done]. intros h0 E0 _. rewrite Eh in E0. by injection E0 as <-.
  - rewrite Es, Hd. split; [done|done|]. intros h0 E0. injection E0 as <-. split; [done|]. eapply holders_mono; [apply holders_sub_refl| |exact (B _ P)].
    intros c [-> |[?|[?|?]]]; [right; right; set_solver|by left|by auto|right; right; set_solver].
Qed.
Lemma flight_loop st r x fuel : forall s n held, flight_ok held st s -> flight_ok (answers_loop fuel s r x n held).2 st (answers_loop fuel s r x n held).1.
Proof.
  induction fuel as [|fuel IH]; intros s n held F; [done|]. cbn [answers_loop]. destruct (g_rh s) as [h|] eqn:Eh; [|done]. destruct (_ <=? _)%nat; [done|].
  pose proof (flight_next held st s h F Eh) as N. cbv zeta in N. destruct (rdv_host_next h []) as [h1 [o|]] eqn:En; cbn [fst snd] in N; [|done].
  set (s1 := s <| g_rh := Some h1 |>) in *. destruct (o_seal o) eqn:Es; [by apply IH|]. destruct (rdv_decode (o_msg o)) as [m| |] eqn:Ed; [|by apply IH|by apply IH].
  assert (Fin : forall c, c = m_to m -> flight_ok (held ++ [c]) st s1) by (intros c ->; eapply flight_more; [|exact N]; set_solver).
  destruct (rdv_host_find h1 (m_to m)) as [j|] eqn:Ef.
  - apply find_spec in Ef as (_ & _ & Ec). destruct (negb (any_route r) || slot_inflight s1) eqn:Eb; [apply IH; by apply Fin|]. apply orb_false_iff in Eb as [_ Eb].
    destruct (seal_to _ o _) as [val|]; [|apply IH; by apply Fin]. pose proof (flight_put held st s1 RDV_ANSWER (Some (m_to m)) (c_wide_ask (c_at h1 j)) val (-1) x Eb N) as Fp.
    cbv zeta in Fp. destruct (slot_put s1 RDV_ANSWER (Some (m_to m)) _ val (-1) x) as [s2 []]; cbn [fst snd] in Fp; apply IH; [done|]. eapply flight_more; [|exact Fp]. rewrite Ec. set_solver.
  - exfalso. destruct (fo_host _ _ _ F h Eh) as [S _]. pose proof (next_says h S) as Q. rewrite En in Q. cbn [fst snd] in Q. inversion Q; congruence.
Qed.
Lemma flight_unsent cid held st s : flight_ok (cid :: held) st s -> flight_ok held st (s <| g_rh := option_map (fun h => rdv_host_unsent h cid) (g_rh s) |>).
Proof.
  intros [L1 L2 L3]. split; [done|done|]. intros h0 E0. cbn in E0. destruct (g_rh s) as [h|] eqn:Eh; [|done]. injection E0 as <-. destruct (L3 h eq_refl) as [[O W] P].
  destruct (narrows_unsent h cid W) as [W' B]. split; [split; [by apply unsent_ok|done]|]. intros j c Hj Hh. pose proof (unsent_clears h cid O j c Hj Hh) as Hne.
  destruct (B j c Hj Hh) as (k & c0 & Hk & Hh0 & E). specialize (P k c0 Hk Hh0). rewrite E in P. destruct P as [?|[?|Hin]]; [by left|by auto|]. right. right. set_solver.
Qed.
Lemma flight_answers st s r x : flight_ok [] st s -> flight_ok [] st (host_answers s r x).
Proof.
  intros F. unfold host_answers. pose proof (flight_loop st r x answers_fuel s 0%nat [] F) as G. destruct (answers_loop _ s r x 0 []) as [s1 held]. cbn [fst snd] in G.
  revert s1 G. induction held as [|cid held IH]; intros s1 G; [done|]. cbn [fold_left]. apply IH. by apply flight_unsent.
Qed.

(** *** The rest of a round *)
Lemma flight_info_seal st s h x : flight_ok [] st s -> g_rh s = Some h -> h_info_pending h = true -> flight_ok [] st (host_info_seal s h x).
Proof.
  intros F Eh Hp. unfold host_info_seal. pose proof (next_info_ok h (host_info_nodes s RDV_HOST_PAYLOAD) Hp) as N. destruct (rdv_host_next h _) as [h1 o]. cbn [fst] in N.
  assert (F1 : flight_ok [] st (s <| g_rh := Some h1 |>)).
  { eapply (flight_host _ _ s); [done|done| |by rewrite Eh|done]. intros h0 E0 S. rewrite Eh in E0. injection E0 as <-. by apply N. }
  destruct o as [o|]; [|done]. destruct (negb _); [done|]. destruct (seal_to _ _ _); [|done]. by apply (flight_same _ _ (s <| g_rh := Some h1 |>)).
Qed.
Lemma flight_tomb_put st s r x : slot_inflight s = false -> flight_ok [] st s -> flight_ok [] st (host_tomb_put s r x).
Proof.
  intros Hi F. unfold host_tomb_put. cbv zeta. set (s1 := if negb (g_end_direct s) && _ then _ else _). assert (F1 : flight_ok [] st s1).
  { unfold s1. destruct (_ && any_rnode s); [by apply flight_put_host|]. destruct (_ && _); [by apply flight_put_host|done]. }
  by apply (flight_same _ _ s1).
Qed.
Lemma flight_slot_put st s r x : slot_inflight s = false -> flight_ok [] st s -> flight_ok [] st (host_slot_put s r x).
Proof.
  intros Hi F. unfold host_slot_put. cbv zeta. destruct (_ && any_rnode s).
  { pose proof (flight_put_host [] st s RDV_HOSTINFO false (g_hval s) (-1) x Hi F) as P. by eapply flight_same; [..|exact P]. }
  destruct (_ && r_wide r).
  { set (s1 := if g_stage s <? 2 then _ else s). assert (E : slot_inflight s1 = false /\ flight_ok [] st s1) by (unfold s1; case_match; split; try done; by apply (flight_same _ _ s)).
    destruct E as [Hi1 F1]. pose proof (flight_put_host [] st s1 RDV_HOSTINFO true (g_hval s1) (-1) x Hi1 F1) as P. by eapply flight_same; [..|exact P]. }
  destruct (_ && _); [|done]. pose proof (flight_put_host [] st s RDV_HOSTINFO true (g_hval s) (-1) x Hi F) as P. by eapply flight_same; [..|exact P].
Qed.
Lemma flight_host_pump st s r x : flight_ok [] st s -> flight_ok [] st (host_pump_puts s r x).
Proof.
  intros F. unfold host_pump_puts. destruct (g_rh s) as [h|] eqn:Eh; [|done]. cbv zeta. set (s1 := if h_info_pending h then _ else s).
  assert (F1 : flight_ok [] st s1). { unfold s1. destruct (h_info_pending h) eqn:Ep; [by apply flight_info_seal|done]. } clearbody s1.
  set (s2 := if negb (ending s1) && _ then _ else s1). assert (F2 : flight_ok [] st s2).
  { unfold s2. destruct (_ && _); [|done]. pose proof (flight_answers st s1 r x F1) as G. set (sa := host_answers s1 r x) in *. clearbody sa. by apply (flight_same _ _ sa). } clearbody s2.
  destruct (_ || _ || slot_inflight s2) eqn:Ei; [done|]. apply orb_false_iff in Ei as [_ Ei]. destruct (ending s2); [by apply flight_tomb_put|by apply flight_slot_put].
Qed.
Lemma flight_relay_put st s r x : flight_ok [] st s -> flight_ok [] st (client_relay_put s r x).
Proof.
  intros F. unfold client_relay_put. destruct (_ || _ || slot_inflight s) eqn:Ei; [done|]. apply orb_false_iff in Ei as [_ Ei].
  destruct (_ && _).
  { pose proof (flight_put_host [] st s RDV_HOSTINFO true (g_hcopy s) (g_hcopy_seq s) x Ei F) as P. by eapply flight_same; [..|exact P]. }
  destruct (r_direct r); [|done]. pose proof (flight_put_host [] st s RDV_HOSTINFO false (g_hcopy s) (g_hcopy_seq s) x Ei F) as P. by eapply flight_same; [..|exact P].
Qed.
Lemma flight_client_pump st s r x : flight_ok [] st s -> flight_ok [] st (client_pump_puts s r x).
Proof.
  intros F. unfold client_pump_puts. destruct (g_rc s) as [c|]; [|done]. destruct (_ <? _); [done|]. destruct (r_direct r && negb (slot_inflight s)) eqn:Ei; [|by apply flight_relay_put].
  apply andb_true_iff in Ei as [_ Ei]. apply negb_true_iff in Ei. destruct (rdv_client_next c (g_packed s)) as [c1 o]. cbv zeta. set (s1 := s <| g_rc := Some c1 |>).
  assert (F1 : flight_ok [] st s1) by by apply (flight_same _ _ s). destruct o as [o|]; [|by apply flight_relay_put].
  destruct (seal_to _ o _) as [val|]; [|by apply (flight_same _ _ s1)].
  pose proof (flight_put [] st s1 RDV_OFFER (Some (k_cid c1)) false val (-1) x Ei F1) as P. cbv zeta in P. by eapply flight_same; [..|exact P].
Qed.
Lemma flight_pump st s x : flight_ok [] st s -> flight_ok [] st (dht_pump s x).
Proof.
  intros F. unfold dht_pump. cbv zeta. set (s1 := s <| g_routeless := _ |>). assert (F1 : flight_ok [] st s1) by by apply (flight_same _ _ s). clearbody s1. destruct (negb _); [done|].
  set (s2 := if _ && (g_stage s1 <? 1) then _ else s1). assert (F2 : flight_ok [] st s2) by (unfold s2; destruct (_ && _); [by apply (flight_same _ _ s1)|done]). clearbody s2.
  set (s3 := if g_next_get s2 <=? _ then _ else s2). assert (F3 : flight_ok [] st s3).
  { unfold s3. destruct (_ <=? _); [|done]. pose proof (flight_get [] st s2 false x F2) as G. set (sa := slot_get s2 false x) in *. clearbody sa. by apply (flight_same _ _ sa). } clearbody s3.
  set (s4 := if _ && (g_next_wide_get s3 <=? _) then _ else s3). assert (F4 : flight_ok [] st s4).
  { unfold s4. destruct (_ && _); [|done]. pose proof (flight_get [] st s3 true x F3) as G. set (sa := slot_get s3 true x) in *. clearbody sa. by apply (flight_same _ _ sa). } clearbody s4.
  destruct (s_is_host s4); [by apply flight_host_pump|by apply flight_client_pump].
Qed.

(** *** Calls, and steps *)
Lemma flight_engage held st s x : flight_ok held st s -> flight_ok held st (engage_dht s x).
Proof. intros F. unfold engage_dht. case_match; [by apply (flight_same _ _ s)|done]. Qed.
Lemma flight_mcast held st s salt data src : flight_ok held st s -> flight_ok held st (on_mcast_recv s salt data src).
Proof.
  assert (D : forall s src dport sdp, flight_ok held st s -> flight_ok held st (direct_fire s src dport sdp)).
  { intros s0 src0 dp sdp F. unfold direct_fire. case_match; [done|by apply (flight_same _ _ s0)]. }
  intros F. unfold on_mcast_recv. destruct (_ && _); [|destruct (_ && _); [|done]].
  - unfold deliver_claim_mcast. destruct (_ <=? _)%nat; [done|]. cbv zeta. destruct (match mcast_open _ _ _ with Some _ => _ | None => _ end) as [[[dport m] g]|] eqn:Eo; [|done].
    destruct (_ || _) eqn:Ek; [done|]. destruct (sdp_of m) as [sdp|]; [|done]. apply D. destruct (g_rh s) as [h|] eqn:Eh; [|done]. destruct (g_mcast_claims s); [done|].
    assert (Hl : length (m_from m) = RDV_CID_LEN).
    { assert (G : forall key d om, mcast_open key (cstr "c") d = Some om -> length (m_from om.2) = RDV_CID_LEN).
      { intros key d [p om] H. unfold mcast_open in H. destruct (msg_open_ad _ _ _ _) as [plain|]; [|done]. destruct (_ <? _)%nat; [done|].
        destruct (rdv_decode _) eqn:Ed; [|done|done]. injection H as <- <-. by eapply decode_from_len. }
      destruct (mcast_open (slot_key s SIG_GRADE_RW) _ _) as [om|] eqn:E1; [injection Eo as -> _; exact (G _ _ _ E1)|].
      destruct (mcast_open (slot_key s SIG_GRADE_RO) _ _) as [om|] eqn:E2; [injection Eo as -> _; exact (G _ _ _ E2)|done]. }
    pose proof (slot_ok h m) as Hok. pose proof (narrows_slot h m) as Hn. destruct (rdv_host_slot h m) as [h1 new]. cbn [fst] in *.
    assert (S1 : host_sound h -> host_sound h1 /\ holders_sub h h1). { intros [O W]. destruct (Hn O Hl W). split; [split; auto|done]. }
    destruct new.
    + set (cid := take RDV_CID_LEN data). set (gr := fun c => c <| c_grade := u8 g |>). set (s2 := s <| g_rh := Some h1 |> <| g_rh := Some (grade_claimant h1 cid gr) |>).
      assert (F2 : flight_ok held st s2).
      { apply (flight_host _ _ s _ (grade_claimant h1 cid gr)); [done|done| |by rewrite Eh|done]. intros h0 E0 S. rewrite Eh in E0. injection E0 as <-. destruct (S1 S) as [[O1 W1] B1].
        destruct (grade_ok h1 cid gr) as [O2 N2]; [by intros c|done|]. destruct (N2 W1) as [W2 B2]. split; [by split|by eapply holders_sub_trans]. }
      change (flight_ok held st (recv s2 cid sdp)). unfold recv. destruct (g_cb s2); [by apply (flight_same _ _ s2)|done].
    + apply (flight_host _ _ s _ h1); [done|done| |by rewrite Eh|done]. intros h0 E0 S. rewrite Eh in E0. injection E0 as <-. by apply S1.
  - unfold deliver_host_mcast. destruct (mcast_open _ _ _) as [[dport m]|]; [|done]. destruct (bool_decide _); [by apply D|done].
Qed.
Lemma flight_sweep held st s : flight_ok held st s -> flight_ok held st (op_sweep s).
Proof.
  intros F. destruct F as [L1 L2 L3].
  assert (Hs : forall o, op_storing (if so_busy o && so_done o then o <| so_busy := false |> else o) = op_storing o).
  { intros o. unfold op_storing. destruct (so_busy o) eqn:Eb, (so_done o) eqn:Ed; cbn; rewrite ?Eb, ?Ed; done. }
  split; cbn [op_sweep g_ops g_rh set set_g_ops].
  - by rewrite length_map.
  - assert (E : forall l, stores (map (fun o => if so_busy o && so_done o then o <| so_busy := false |> else o) l) = stores l); [|by rewrite E].
      induction l as [|o l IH]; [done|]. cbn [map stores]. unfold storing_n. by rewrite Hs, IH.
  - intros h Eh. destruct (L3 h Eh) as [S P]. split; [done|]. eapply holders_mono; [apply holders_sub_refl| |exact P]. intros c [(o & Ho & H1 & H2 & H3)|?]; [left|by right].
      exists (if so_busy o && so_done o then o <| so_busy := false |> else o). split; [cbn; apply list_elem_of_fmap; by exists o|]. rewrite Hs. split; [done|]. by case_match.
Qed.
Lemma flight_act st s a : flight_ok [] st s -> flight_ok [] st (act_do s a).
Proof.
  intros F. destruct a; cbn [act_do].
  - unfold sig_post. repeat (case_match; try done); by apply (flight_same _ _ s).
  - unfold sig_answer. destruct (g_rh s) as [h|] eqn:Eh; [|done]. destruct (_ || _); [done|]. destruct (candpack_encode _ _ _ _ _ _); [done|done|].
    eapply (flight_map _ _ s _ (fun h => rdv_host_answer h cid out)); [done|cbn; by rewrite Eh|by intros; apply answer_ok|by intros; apply narrows_answer|done].
  - unfold sig_refuse. destruct (g_rh s) as [h|] eqn:Eh; [|done]. destruct (s_is_host s); [|done].
    eapply (flight_map _ _ s _ (fun h => rdv_host_refuse h cid RDV_REFUSE_FULL)); [done|cbn; by rewrite Eh|by intros; apply refuse_ok|by intros; apply narrows_refuse|done].
  - eapply (flight_map _ _ s _ (fun h => rdv_host_forget h cid)); [done|done|by intros; apply forget_ok|by intros; apply narrows_forget|done].
  - by apply (flight_same _ _ s).
  - unfold sig_end. destruct (g_rh s) as [h|] eqn:Eh; [|done]. destruct (_ || _); [done|].
    eapply (flight_map _ _ s _ rdv_host_entomb); [done|cbn; by rewrite Eh|by intros h0 H0; apply (host_ok_ext h0)|by intros; apply narrows_same|done].
  - unfold sig_set_gen. cbv zeta. cbn [g_rh set set_g_my_gen]. change (g_rh (set_g_my_gen gen s)) with (g_rh s). destruct (g_rh s) as [h|] eqn:Eh; [|by apply (flight_same _ _ s)].
    eapply (flight_map _ _ s _ (fun h => rdv_host_set_gen h gen)); [done|cbn; by rewrite Eh| | |done].
    + intros h0 H0. unfold rdv_host_set_gen. case_match; [done|by apply (host_ok_ext h0)].
    + intros h0. unfold rdv_host_set_gen. case_match; by apply narrows_same.
  - unfold sig_reask. repeat (case_match; try done); by apply (flight_same _ _ s).
  - unfold sig_ident_changed. repeat (case_match; try done); by apply (flight_same _ _ s).
  - unfold sig_locate. destruct (negb _); [done|]. cbv zeta. set (s1 := if g_node s then s else _). assert (F1 : flight_ok [] st s1) by (unfold s1; case_match; [done|by apply flight_engage]).
    case_match; [by apply flight_base|done].
  - unfold sig_forget_node. cbv zeta. destruct (bool_decide _); [done|]. set (s1 := if g_node s then _ else s).
    assert (F1 : flight_ok [] st s1) by (unfold s1; case_match; [by apply (flight_same _ _ s)|done]). clearbody s1.
    pose proof (flight_base [] st s1 (fun b => sig_forget b family) F1) as G. set (s2 := on_base s1 _) in *. clearbody s2. by apply (flight_same _ _ s2).
  - unfold sig_reinforce_node. destruct (_ || _); [done|]. cbv zeta. set (s1 := if g_node s then s else _). assert (F1 : flight_ok [] st s1) by (unfold s1; case_match; [done|by apply flight_engage]).
    case_match; [done|]. apply flight_base. by apply (flight_same _ _ s1).
  - by apply flight_base.
  - eapply (flight_map _ _ s _ (fun h => rdv_host_keep h cid)); [done|done|by intros; apply keep_ok|by intros; apply narrows_keep|done].
  - eapply (flight_map _ _ s _ (fun h => rdv_host_release h cid)); [done|done|by intros; apply release_ok|by intros; apply narrows_release|done].
  - unfold mc_open_step. case_match; [by apply (flight_same _ _ s)|done].
  - by apply flight_mcast.
  - unfold mcast_pump. destruct (_ || _); [done|]. destruct (mcast_frame _ _ _) as [[salt f]|]; by apply (flight_same _ _ s).
  - unfold engage_step. destruct (_ && _); [|done]. pose proof (flight_engage [] st s x F) as G. set (s1 := engage_dht s x) in *. clearbody s1. by apply (flight_same _ _ s1).
  - by apply flight_pump.
  - by apply flight_sweep.
Qed.
Lemma flight_step c c' : sig_step c c' -> flight_ok [] c.2 c.1 -> flight_ok [] c'.2 c'.1.
Proof. intros [s st a|s st i v seq node x Hp|s st i n x Hst] F; cbn [fst snd] in *; [by apply flight_act|by apply flight_got|by apply (flight_stored [] st s i n x)]. Qed.
Lemma flight_reach c c' : rtc sig_step c c' -> flight_ok [] c.2 c.1 -> flight_ok [] c'.2 c'.1.
Proof. induction 1 as [|c1 c2 c3 H12 H23 IH]; [done|]. intros F. apply IH. by eapply flight_step. Qed.

(** *** A round of [sig_dispatch] is a run of steps, where the engine reports on what it was asked *)
Definition eng_fits (s : sig_t) (e : eng_ev) : Prop :=
  match e with EngGot i _ _ _ => so_is_put (op_get s i) = false | EngStored i _ => op_storing (op_get s i) = true end.
Fixpoint all_fit (s : sig_t) (evs : list eng_ev) (x : sig_env) : Prop :=
  match evs with [] => True | e :: evs => eng_fits s e /\ all_fit (on_eng s e x) evs x end.
Definition before_reports (s : sig_t) (frames : list (bytes * bytes * sockaddr)) (x : sig_env) : sig_t :=
  let s := mc_open_step s x in
  let s := if g_mc s then mcast_pump (fold_left (fun s '(salt, data, src) => on_mcast_recv s salt data src) frames s) x else s in
  engage_step s x.
Lemma frames_run frames : forall s st, rtc sig_step (s, st) (fold_left (fun s '(salt, data, src) => on_mcast_recv s salt data src) frames s, st).
Proof. induction frames as [|[[salt data] src] frames IH]; intros s st; [done|]. cbn [fold_left]. eapply rtc_l; [exact (StAct s st (AFrame salt data src))|]. apply IH. Qed.
Lemma reports_run x evs : forall s st, all_fit s evs x -> exists st', rtc sig_step (s, st) (fold_left (fun s e => on_eng s e x) evs s, st').
Proof.
  induction evs as [|e evs IH]; intros s st H; [by exists st|]. destruct H as [He H]. cbn [fold_left].
  assert (Hs : exists st1, sig_step (s, st) (on_eng s e x, st1)) by (destruct e; cbn [on_eng]; eexists; [by apply StGot|by apply StStored]).
  destruct Hs as [st1 Hs]. destruct (IH (on_eng s e x) st1 H) as [st' Hr]. exists st'. by eapply rtc_l.
Qed.
Lemma dispatch_runs s st frames evs x : all_fit (before_reports s frames x) evs x -> exists st', rtc sig_step (s, st) (sig_dispatch s frames evs x, st').
Proof.
  intros H. set (s1 := mc_open_step s x). set (s2 := if g_mc s1 then mcast_pump (fold_left (fun s '(salt, data, src) => on_mcast_recv s salt data src) frames s1) x else s1).
  assert (R2 : rtc sig_step (s, st) (s2, st)).
  { eapply rtc_l; [exact (StAct s st (AOpen x))|]. unfold s2. fold s1. destruct (g_mc s1); [|done]. eapply rtc_r; [apply frames_run|]. exact (StAct _ st (ALink x)). }
  change (before_reports s frames x) with (engage_step s2 x) in H. set (s3 := engage_step s2 x) in *.
  assert (R3 : rtc sig_step (s, st) (s3, st)) by (eapply rtc_r; [exact R2|]; exact (StAct s2 st (AEngage x))).
  change (sig_dispatch s frames evs x) with (if g_node s3 then op_sweep (dht_pump (fold_left (fun s e => on_eng s e x) evs s3) x) else s3).
  destruct (g_node s3); [|by exists st]. destruct (reports_run x evs s3 st H) as [st' R4]. exists st'. etrans; [exact R3|]. etrans; [exact R4|].
  eapply rtc_l; [exact (StAct _ st' (APump x))|]. apply rtc_once. exact (StAct _ st' ASweep).
Qed.
End Flight.

(** A signaller just made. *)
Lemma create_ops {C : Crypto} rdv auth ro dht mc is_host x s0 : sig_create rdv auth ro dht mc is_host x = Some s0 -> g_ops s0 = replicate SIG_OPS_MAX sop_zero /\ g_rh s0 = None.
Proof. unfold sig_create. destruct (keys_derive rdv); [|done]. cbv zeta. destruct (dht || mc); [|done]. intros [= <-]. unfold engage_dht. by repeat case_match. Qed.
Lemma idle_flight {C : Crypto} st s h : g_ops s = replicate SIG_OPS_MAX sop_zero -> g_rh s = Some h -> host_sound h -> holders h (fun cid => cid ∈ st) -> flight_ok [] st s.
Proof.
  intros E0 Eh S P. split.
  - by rewrite E0.
  - rewrite E0. vm_compute. lia.
  - intros h' E. rewrite Eh in E. injection E as <-. split; [done|]. eapply holders_mono; [apply holders_sub_refl| |exact P]. auto.
Qed.
(** With a host that has yet to answer anybody. *)
Definition sig_began {C : Crypto} (s : sig_t) : Prop :=
  exists rdv auth ro dht mc x s0 cid gen grant, sig_create rdv auth ro dht mc true x = Some s0 /\ length cid = RDV_CID_LEN /\ s = sig_rdv_host s0 (rdv_host_init cid gen grant).
Lemma fresh_host_sound cid gen grant : length cid = RDV_CID_LEN -> host_sound (rdv_host_init cid gen grant).
Proof. intros Hl. split; [apply init_host_ok|]. split; [done|]. cbn [rdv_host_init h_c]. apply Forall_replicate. split; [done|cbn; lia]. Qed.
Lemma began_ok {C : Crypto} s : sig_began s -> flight_ok [] [] s.
Proof.
  intros (rdv & auth & ro & dht & mc & x & s0 & cid & gen & grant & E & Hl & ->). apply create_ops in E as [E0 _].
  eapply idle_flight; [exact E0|done|by apply fresh_host_sound|].
  intros i c Hi Hh. cbn [rdv_host_init h_c] in Hi. apply lookup_replicate in Hi as [-> _]. done.
Qed.
(** As sig_arm of session.c makes it, anew after each move: with the host's table as it stands, or with
    the claimant's. *)
Definition sig_armed {C : Crypto} (s : sig_t) : Prop :=
  exists rdv auth ro dht mc is_host x s0, sig_create rdv auth ro dht mc is_host x = Some s0 /\
    if is_host : bool then exists h, host_sound h /\ s = sig_rdv_host s0 h else exists k, s = sig_rdv_client s0 k.
Lemma armed_ok {C : Crypto} s : sig_armed s -> exists l, flight_ok [] l s.
Proof.
  intros (rdv & auth & ro & dht & mc & is_host & x & s0 & E & H). apply create_ops in E as [E0 E1]. destruct is_host.
  - destruct H as (h & S & ->). exists (map c_cid (h_c h)). eapply idle_flight; [exact E0|done|done|].
    intros i c Hi _. apply list_elem_of_fmap. exists c. split; [done|by eapply list_elem_of_lookup_2].
  - destruct H as (k & ->). exists []. split; change (g_ops (sig_rdv_client s0 k)) with (g_ops s0); rewrite ?E0; [done|vm_compute; lia|].
    intros h Eh. change (g_rh (sig_rdv_client s0 k)) with (g_rh s0) in Eh. congruence.
Qed.
(** The list of claimants known to be stored only records. *)
Lemma step_more {C : Crypto} l c c' : rtc sig_step c c' -> rtc sig_step (c.1, c.2 ++ l) (c'.1, c'.2 ++ l).
Proof.
  induction 1 as [c|c1 c2 c3 H12 H23 IH]; [done|]. eapply rtc_l; [|exact IH]. destruct H12 as [s st a|s st i v seq node x Hp|s st i n x Hst]; cbn [fst snd].
  - apply StAct.
  - by apply StGot.
  - pose proof (StStored s (st ++ l) i n x Hst) as H. destruct (_ && _); exact H.
Qed.

(** ** Properties *)

(** C17: one store at a time, on either side: from any signaller [sig_create] makes and [sig_rdv_host] or
    [sig_rdv_client] arms, a host's with whatever sound table of claimants it has, or a claimant's with whatever
    it knows of its host, whatever the program asks, whatever arrives and whatever the engine reports,
    in any order, no two stores of the cell, statements of the host, answers, asks or copies kept
    alive for the host, are ever under way together. *)
Theorem one_store_in_flight {C : Crypto} s0 s st : sig_armed s0 -> rtc sig_step (s0, []) (s, st) -> (length (List.filter op_storing (g_ops s)) <= 1)%nat.
Proof.
  intros Hb Hr. destruct (armed_ok _ Hb) as [l F]. pose proof (flight_reach _ _ (step_more l _ _ Hr) F) as [_ H _]. cbn [fst] in H. etrans; [|exact H]. clear. induction (g_ops s) as [|o os IH]; [done|]. cbn.
  unfold storing_n. destruct (op_storing o); cbn; lia.
Qed.

(** C6: nothing said to a claimant is lost: where the host's table says a claimant's answer or refusal
    is in the cell, a store of one to it has succeeded, or one is under way whose failure puts it
    back to be said again. *)
Theorem answer_is_never_lost {C : Crypto} s0 s st h i c :
  sig_began s0 -> rtc sig_step (s0, []) (s, st) -> g_rh s = Some h -> h_c h !! i = Some c -> c_holds c = true ->
  c_cid c ∈ st \/
  exists j o, g_ops s !! j = Some o /\ op_storing o = true /\ so_kind o = Some RDV_ANSWER /\ so_cid o = c_cid c /\
    forall n x h', 0 <? n = false -> g_rh (on_slot_put s j n x) = Some h' ->
      exists i' c', h_c h' !! i' = Some c' /\ c_cid c' = c_cid c /\ c_pending c' = true /\ c_holds c' = false.
Proof.
  intros Hb Hr Eh Hi Hh. pose proof (flight_reach _ _ Hr (began_ok _ Hb)) as [_ _ H]. cbn [fst snd] in H. destruct (H h Eh) as [[O W] P].
  destruct (P i c Hi Hh) as [(o & Ho & Hs & Hk & Hc)|[?|?%elem_of_nil]]; [right|by left|done]. apply list_elem_of_lookup in Ho as [j Hj]. exists j, o. split_and!; try done.
  intros n x h' Hn Eh'. unfold on_slot_put in Eh'. cbv zeta in Eh'. rewrite (op_get_lookup _ _ _ Hj), Hk, Hn in Eh'. cbn in Eh'. rewrite Eh in Eh'. cbn in Eh'. injection Eh' as <-.
  assert (Hst : c_state c <> RDV_C_FREE /\ c_state c <> RDV_C_GONE) by (split; intros E; destruct (ho_idle _ O i c Hi) as [_ Q]; auto; congruence). destruct Hst as [Hf Hg].
  unfold rdv_host_unsent. rewrite Hc, (find_at h i c O Hi Hf), (c_at_lookup _ _ _ Hi). unfold in_state. rewrite bool_decide_eq_false_2 by done. eexists i, _. split; [cbn; apply list_lookup_insert_eq; by eapply lookup_lt_Some|done].
Qed.
