(* ===== verification/SigLoop.v ===== *)
(** src/src/sig.c, [host_answers]: the loop over what the host owes ends, whatever the engine does
    with its stores, and what it does where the engine settles each of them at once. *)
From stdpp Require Import relations.
From S2P Require Import Prelude Net Bencode Crypto Keys CtlProto AddrText NsFacts SigFam Scan CandPolicy CandPack Obsemit Rdv RdvWorld RdvLive Sig SigCell SigFlight.

(** ** How far the loop is from its end *)
Definition idle_n (o : sig_op) : nat := if so_busy o then 0 else 1.
Fixpoint idles (l : list sig_op) : nat := match l with [] => 0 | o :: l => idle_n o + idles l end.
Definition owes_info (s : sig_t) : nat := match g_rh s with Some h => if h_info_pending h then 1 else 0 | None => 0 end.
Definition turns_left (s : sig_t) (held : list bytes) : nat := idles (g_ops s) + (RDV_HOST_MAX - length held) + owes_info s.

(** ** Lemmas *)
Lemma idles_insert l i o o' : l !! i = Some o -> (idles (<[i := o']> l) + idle_n o = idles l + idle_n o')%nat.
Proof.
  revert i. induction l as [|y l IH]; intros [|i] H; try done.
  - injection H as ->. cbn. lia.
  - change (<[S i := o']> (y :: l)) with (y :: <[i := o']> l). cbn [idles]. specialize (IH i H). lia.
Qed.
Lemma idles_le l : (idles l <= length l)%nat.
Proof. induction l as [|o l IH]; [done|]. cbn. unfold idle_n. case_match; lia. Qed.
Lemma unsent_info h cid : h_info_pending (rdv_host_unsent h cid) = h_info_pending h.
Proof. unfold rdv_host_unsent. by repeat case_match. Qed.
(** A store that is taken uses a context up until the round is over. *)
Lemma put_uses s cid wide val q x : let r := slot_put s RDV_ANSWER (Some cid) wide val q x in
  owes_info r.1 = owes_info s /\ (if r.2 then S (idles (g_ops r.1)) = idles (g_ops s) else idles (g_ops r.1) = idles (g_ops s)).
Proof.
  cbv zeta. unfold slot_put. destruct (_ <? _)%nat; [done|]. destruct (op_alloc s (Some RDV_ANSWER) (Some cid) wide true) as [[s0 i]|] eqn:Ea; [|done].
  apply alloc_spec in Ea as (o & o' & Ho & Hb & _ & _ & -> & ->). assert (Hl := lookup_lt_Some _ _ _ Ho). set (s0 := s <| g_ops := _ |>). cbv zeta.
  set (spent := match g_rh s0 with Some _ => _ | None => false end). set (s1 := on_op s0 i _).
  assert (E1 : exists o1, g_ops s1 = <[i := o1]> (g_ops s) /\ so_busy o1 = true /\ so_kind o1 = Some RDV_ANSWER).
  { eexists. split; [|split; [|]]; [unfold s1, on_op; cbn [g_ops set set_g_ops s0]; apply list_insert_insert_eq|..];
      (unfold op_get; cbn [g_ops set set_g_ops s0]; erewrite nth_lookup_Some by (by apply list_lookup_insert_eq); done). }
  destruct E1 as (o1 & E1 & Hb1 & Hk1). assert (E2 : g_rh s1 = g_rh s) by done. clearbody s1.
  assert (N : forall o2, (idles (<[i := o2]> (g_ops s)) + 1 = idles (g_ops s) + idle_n o2)%nat).
  { intros o2. pose proof (idles_insert _ _ _ o2 Ho) as Hc. unfold idle_n at 1 in Hc. by rewrite Hb in Hc. }
  assert (G : op_get (note s1 (EvPut i wide)) i = o1) by (apply op_get_lookup; cbn [note g_ops set set_g_trace]; rewrite E1; by apply list_lookup_insert_eq).
  destruct (x_eng x i); cbn [fst snd].
  - split; [unfold owes_info; cbn; by rewrite E2|]. unfold on_op. cbn [g_ops set set_g_ops]. rewrite G. cbn [note g_ops set set_g_trace]. rewrite E1, list_insert_insert_eq.
    pose proof (N (o1 <| so_busy := false |>)) as Hc. change (idle_n (o1 <| so_busy := false |>)) with 1%nat in Hc. cbn [set] in *. lia.
  - split; [unfold owes_info; cbn; by rewrite E2|]. cbn. rewrite E1. pose proof (N o1) as Hc. unfold idle_n in Hc. rewrite Hb1 in Hc. lia.
  - unfold on_slot_put. cbv zeta. rewrite G, Hk1. cbn [Z.ltb Z.compare]. split.
    + unfold owes_info. cbn. rewrite E2. destruct (g_rh s); [|done]. cbn. by rewrite unsent_info.
    + cbn [g_ops set set_g_rh set_g_puts_ok set_g_last_put]. unfold on_op. cbn [g_ops set set_g_ops]. rewrite G. cbn. rewrite E1, list_insert_insert_eq.
      pose proof (N (set_so_done true o1)) as Hc. unfold idle_n in Hc. cbn [so_busy set_so_done] in Hc. rewrite Hb1 in Hc. cbn in Hc. lia.
Qed.
Lemma loop_ends {C : Crypto} st r x fuel : forall s n held fuel', flight_ok held st s -> (turns_left s held < fuel)%nat -> (fuel <= fuel')%nat ->
  answers_loop fuel' s r x n held = answers_loop fuel s r x n held.
Proof.
  induction fuel as [|fuel IH]; intros s n held fuel' F Hf Hle; [lia|]. destruct fuel' as [|fuel']; [lia|]. apply le_S_n in Hle. cbn [answers_loop].
  destruct (g_rh s) as [h|] eqn:Eh; [|done]. destruct (Nat.leb_spec RDV_HOST_MAX (length held)) as [|Hh]; [done|].
  pose proof (flight_next held st s h F Eh) as N. cbv zeta in N. destruct (fo_host _ _ _ F h Eh) as [S _]. pose proof (next_says h S) as Q.
  destruct (rdv_host_next h []) as [h1 [o|]] eqn:En; cbn [fst snd] in N, Q; [|done]. set (s1 := s <| g_rh := Some h1 |>) in *.
  inversion Q as [|? ? Es Hp Hp' _ _|? ? i m Es Hd Hfi Hc Hp _ _]; subst.
  - rewrite Es in N |- *. apply IH; [done| |done]. unfold turns_left, owes_info in *. rewrite Eh, Hp in Hf. cbn [s1 g_rh g_ops set set_g_rh]. change (g_ops s1) with (g_ops s). rewrite Hp'. lia.
  - rewrite Es, Hd in N |- *. rewrite Hfi, Hc. assert (Eo : owes_info s1 = owes_info s) by (unfold owes_info; rewrite Eh; cbn; by rewrite Hp).
    assert (Hin : (turns_left s1 (held ++ [m_to m]) < fuel)%nat) by (unfold turns_left in *; change (g_ops s1) with (g_ops s); rewrite Eo, length_app; cbn [length]; lia).
    assert (Fin : flight_ok (held ++ [m_to m]) st s1) by (eapply flight_more; [|exact N]; set_solver).
    destruct (negb (any_route r) || slot_inflight s1) eqn:Eb; [by apply IH|]. apply orb_false_iff in Eb as [_ Eb]. destruct (seal_to _ o _) as [val|]; [|by apply IH].
    pose proof (flight_put held st s1 RDV_ANSWER (Some (m_to m)) (c_wide_ask (c_at h1 i)) val (-1) x Eb N) as Fp. pose proof (put_uses s1 (m_to m) (c_wide_ask (c_at h1 i)) val (-1) x) as [U1 U2].
    cbv zeta in Fp. destruct (slot_put s1 RDV_ANSWER (Some (m_to m)) _ val (-1) x) as [s2 []]; cbn [fst snd] in *.
    + apply IH; [done| |done]. unfold turns_left in *. change (g_ops s1) with (g_ops s) in U2. rewrite U1, Eo. lia.
    + apply IH; [eapply flight_more; [|exact Fp]; set_solver| |done]. unfold turns_left in *. rewrite U1, U2, Eo, length_app. change (g_ops s1) with (g_ops s). cbn [length]. lia.
Qed.

(** ** Properties *)

(** The loop over what the host owes ends: from any state the signaller can reach, whatever the
    engine makes of the stores, [answers_fuel] turns are enough, and more
    than are left change nothing. *)
Theorem answers_loop_ends {C : Crypto} s0 s st r x :
  sig_began s0 -> rtc sig_step (s0, []) (s, st) -> (turns_left s [] < answers_fuel)%nat /\
  forall fuel, (turns_left s [] < fuel)%nat -> answers_loop fuel s r x 0 [] = answers_loop answers_fuel s r x 0 [].
Proof.
  intros Hb Hr. pose proof (flight_reach _ _ Hr (began_ok _ Hb)) as F. cbn [fst snd] in F.
  assert (Ht : (turns_left s [] < answers_fuel)%nat).
  { unfold turns_left, answers_fuel, owes_info. pose proof (idles_le (g_ops s)) as Hi. rewrite (fo_len _ _ _ F) in Hi. cbn [length]. repeat case_match; lia. }
  split; [done|]. intros fuel Hf. destruct (decide (answers_fuel <= fuel)%nat) as [Hle|Hle]; [by apply (loop_ends st)|]. symmetry. apply (loop_ends st); [done|done|lia].
Qed.

(** ** Witnesses: a host hears one claimant and answers it *)
Inductive move := MAct (a : sig_act) | MGot (i : nat) (v : option bytes) (seq : Z) (node : bytes) (x : sig_env) | MStored (i : nat) (n : Z) (x : sig_env).
Section Moves.
Context {C : Crypto}.
Definition move_ok (s : sig_t) (m : move) : bool :=
  match m with MAct _ => true | MGot i _ _ _ _ => negb (so_is_put (op_get s i)) | MStored i _ _ => op_storing (op_get s i) end.
Definition move_do (c : sig_t * list bytes) (m : move) : sig_t * list bytes :=
  let '(s, st) := c in
  match m with
  | MAct a => (act_do s a, st)
  | MGot i v seq node x => (on_slot_get s i v seq node x, st)
  | MStored i n x => (on_slot_put s i n x, if (0 <? n) && bool_decide (so_kind (op_get s i) = Some RDV_ANSWER) then so_cid (op_get s i) :: st else st)
  end.
Fixpoint moves_ok (c : sig_t * list bytes) (ms : list move) : bool :=
  match ms with [] => true | m :: ms => move_ok c.1 m && moves_ok (move_do c m) ms end.
Lemma moves_run ms : forall c, moves_ok c ms = true -> rtc sig_step c (fold_left move_do ms c).
Proof.
  induction ms as [|m ms IH]; intros [s st] H; [done|]. cbn in H. apply andb_true_iff in H as [H1 H2]. eapply rtc_l; [|by apply IH].
  destruct m; cbn [move_do]; [apply StAct|apply StGot; by apply negb_true_iff|by apply StStored].
Qed.
End Moves.
Definition demo_sdp : bytes := cstr "a=ice-ufrag:ab" ++ [13; 10] ++ cstr "a=ice-pwd:xyz" ++ [10] ++ cstr "a=candidate:1 1 UDP 9 192.168.1.4 5000 typ host" ++ [10].
Definition demo_ask_cell : option bytes :=
  let payload := match candpack_encode demo_sdp true 0 None (Some demo_cid) RDV_MAX_PAYLOAD with Packed p => p | _ => [] end in
  let m := mk_rdv RDV_OFFER 7 demo_cid demo_hcid 1 0 payload in
  let s := demo_make true in
  let sealed := option_bind _ _ (fun b => @msg_seal toy_crypto SIG_WIRE_MAX (Some demo_nonce) (@slot_key toy_crypto s SIG_GRADE_RW) b) (rdv_encode m RDV_MAX_MSG) in
  cell_pack SIG_WIRE_MAX [] (default [] sealed).
Definition demo_create : option sig_t := @sig_create toy_crypto demo_token demo_auth false true false true (demo_env 10).
Definition demo_began : sig_t := sig_rdv_host (default (demo_make true) demo_create) (rdv_host_init demo_hcid 7 0).
(** Its statement goes out in context 2 and is stored; the ask comes back in context 0; the answer is owed. *)
Definition demo_owing_moves : list move :=
  [MAct (APump (demo_env 20)); MStored 2 1 (demo_env 30); MGot 0 demo_ask_cell 2 [] (demo_env 40); MAct (AAnswer demo_cid demo_sdp (Some demo_hcid))].
Definition demo_moves : list move := demo_owing_moves ++ [MAct ASweep; MAct (APump (demo_env 2000))].
Definition demo_owing : sig_t := (fold_left (@move_do toy_crypto) demo_owing_moves (demo_began, [])).1.
Definition demo_answering : sig_t := (fold_left (@move_do toy_crypto) demo_moves (demo_began, [])).1.

Lemma demo_began_ok : @sig_began toy_crypto demo_began.
Proof.
  exists demo_token, demo_auth, false, true, false, (demo_env 10), (default (demo_make true) demo_create), demo_hcid, 7, 0.
  split; [vm_compute; reflexivity|]. split; reflexivity.
Qed.
Lemma demo_moves_run : rtc (@sig_step toy_crypto) (demo_began, []) (demo_answering, []).
Proof.
  assert (E : fold_left (@move_do toy_crypto) demo_moves (demo_began, []) = (demo_answering, [])) by (vm_compute; reflexivity). rewrite <- E.
  apply moves_run. vm_compute. reflexivity.
Qed.
(** A claimant that knows its host posts its description and asks: its ask goes out in context 2. *)
Definition demo_knowing : sig_t :=
  sig_rdv_client (default (demo_make false) (@sig_create toy_crypto demo_token demo_auth false true false false (demo_env 10)))
    (rdv_client_host_slot (rdv_client_init demo_cid) (mk_rdv RDV_HOSTINFO 7 demo_hcid rdv_zero 1 0 []) 1).1.
Definition demo_asked : sig_t := (fold_left (@move_do toy_crypto) [MAct (APost demo_sdp (Some demo_cid)); MAct (APump (demo_env 2000))] (demo_knowing, [])).1.
Lemma one_store_in_flight_witness :
  length (List.filter op_storing (g_ops demo_answering)) = 1%nat /\ (length (List.filter op_storing (g_ops demo_answering)) <= 1)%nat /\
  length (List.filter op_storing (g_ops demo_asked)) = 1%nat /\ (length (List.filter op_storing (g_ops demo_asked)) <= 1)%nat.
Proof.
  assert (A : @sig_armed toy_crypto demo_began).
  { exists demo_token, demo_auth, false, true, false, true, (demo_env 10), (default (demo_make true) demo_create). split; [vm_compute; reflexivity|].
    exists (rdv_host_init demo_hcid 7 0). split; [apply fresh_host_sound; reflexivity|reflexivity]. }
  assert (B : @sig_armed toy_crypto demo_knowing).
  { exists demo_token, demo_auth, false, true, false, false, (demo_env 10), (default (demo_make false) (@sig_create toy_crypto demo_token demo_auth false true false false (demo_env 10))).
    split; [vm_compute; reflexivity|]. eexists. reflexivity. }
  assert (R : rtc (@sig_step toy_crypto) (demo_knowing, []) (demo_asked, [])).
  { eapply rtc_l; [exact (StAct demo_knowing [] (APost demo_sdp (Some demo_cid)))|]. apply rtc_once. exact (StAct _ [] (APump (demo_env 2000))). }
  split; [vm_compute; reflexivity|]. split; [exact (@one_store_in_flight toy_crypto demo_began demo_answering [] A demo_moves_run)|].
  split; [vm_compute; reflexivity|]. exact (@one_store_in_flight toy_crypto demo_knowing demo_asked [] B R).
Defined.
Definition demo_host_now : rdv_host := match g_rh demo_answering with Some h => h | None => rdv_host_init [] 0 0 end.
Lemma answer_is_never_lost_witness : c_holds (c_at demo_host_now 0) = true /\ exists j o, g_ops demo_answering !! j = Some o /\ op_storing o = true /\ so_cid o = demo_cid.
Proof.
  split; [vm_compute; reflexivity|].
  destruct (@answer_is_never_lost toy_crypto demo_began demo_answering [] demo_host_now 0 (c_at demo_host_now 0) demo_began_ok demo_moves_run) as [H|(j & o & Hj & Ho & _ & Hc & _)].
  - vm_compute. reflexivity.
  - vm_compute. reflexivity.
  - vm_compute. reflexivity.
  - apply elem_of_nil in H. destruct H.
  - exists j, o. split; [exact Hj|]. split; [exact Ho|]. rewrite Hc. vm_compute. reflexivity.
Defined.
Lemma answers_loop_ends_witness :
  @answers_loop toy_crypto 1000 demo_answering (mk_routes true true) (demo_env 3000) 0 [] = @answers_loop toy_crypto answers_fuel demo_answering (mk_routes true true) (demo_env 3000) 0 [].
Proof.
  destruct (@answers_loop_ends toy_crypto demo_began demo_answering [] (mk_routes true true) (demo_env 3000) demo_began_ok demo_moves_run) as [_ H].
  apply H. apply Nat.ltb_lt. vm_compute. reflexivity.
Defined.

(** Where the engine settles a store before it returns, as a direct one does with no node to ask, the
    answer that came back unsent is owed again at once, and the same round stores it again and
    again, until no context is left. *)
Definition demo_settling : sig_env := mk_senv 2000 true true true true true (fun _ => Some demo_nonce) (Some demo_nonce) (fun _ => EngSettled).
Example settled_store_is_repeated :
  idles (g_ops demo_owing) = 61%nat /\
  let s := @host_answers toy_crypto demo_owing (mk_routes true true) demo_settling in
  idles (g_ops s) = 0%nat /\ g_puts_ok s - g_puts_ok demo_owing = 61 /\ match g_rh s with Some h => c_pending (c_at h 0) | None => false end = true.
Proof. vm_compute. split_and!; reflexivity. Qed.

(** A statement of the host's that cannot be sealed is lost: the table no longer owes it, and what
    goes to the cell is still the statement before. *)
Lemma unsealed_statement_is_lost {C : Crypto} s h x :
  g_rh s = Some h -> h_info_pending h = true -> x_rnd x 0%nat = None ->
  let s' := host_info_seal s h x in
  g_hval s' = g_hval s /\ g_h_stale s' = g_h_stale s /\ exists h', g_rh s' = Some h' /\ h_info_pending h' = false.
Proof.
  intros Hr Hp Hx. cbv zeta. unfold host_info_seal, rdv_host_next. rewrite Hp. assert (Hl : (length (host_info_nodes s RDV_HOST_PAYLOAD) <= 38)%nat).
  { unfold host_info_nodes. assert (A : forall (f : bool) b, (length (default [] (ctl_rdv_encode (if f then 6 else 4) (sa_cast (if f then 6 else 4) b))) <= 19)%nat).
    { intros f b. unfold sa_cast, ctl_rdv_encode, slice. generalize (b ++ replicate (28 - length b) 0). intros l. destruct f; cbn [Z.eqb Pos.eqb default from_option length].
      - pose proof (length_take (drop 8 l) 16). unfold id. cbn [length]. lia.
      - pose proof (length_take (drop 4 l) 4). unfold id. cbn [length]. rewrite length_app, length_replicate. lia. }
    assert (B : forall max out f n, (length out <= n)%nat -> (length (info_node s max out f) <= n + 19)%nat).
    { intros max out f n Ho. unfold info_node. destruct (_ || _); [lia|]. rewrite length_app. pose proof (A f (rnode (s_fam s f))). lia. }
    apply (B _ _ true 19%nat). apply (B _ _ false 0%nat). cbn. lia. }
  set (nodes := host_info_nodes s RDV_HOST_PAYLOAD) in *. clearbody nodes.
  destruct (Nat.ltb_spec RDV_HOST_PAYLOAD (length nodes)) as [Hb|_]; [unfold RDV_HOST_PAYLOAD in Hb; lia|].
  match goal with |- context [rdv_encode ?m RDV_MAX_MSG] => destruct (encode_fits m) as [msg Hm] end; [cbn; unfold RDV_MAX_PAYLOAD; lia|]. rewrite Hm. cbn [o_seal].
  rewrite bool_decide_eq_true_2 by done. cbn [negb]. unfold seal_to. rewrite Hx. unfold msg_seal, msg_seal_ad. destruct (_ <? _)%nat; (split; [done|]; split; [done|]; by eexists).
Qed.
