(* ===== verification/SigRound.v ===== *)
(** src/src/sig.c from end to end: a claimant's ask goes into the cell, the host hears it and is
    told its text, the answer goes into the cell, and the claimant hears that and is told its
    text, through the seals, the cell and the tables of both sides. *)
From S2P Require Import Prelude Net Bencode Crypto Keys CtlProto AddrText NsFacts SigFam Scan CandPolicy CandPack Obsemit Rdv RdvWorld RdvLive Sig SigCell SigFlight.

(** What a signaller is made with. *)
Record same_self (s s' : sig_t) : Prop := {
  ss_keys : g_keys s' = g_keys s; ss_auth : g_auth s' = g_auth s; ss_auth_ro : g_auth_ro s' = g_auth_ro s; ss_rw : g_have_rw s' = g_have_rw s;
  ss_is_host : s_is_host s' = s_is_host s; ss_cb : g_cb s' = g_cb s; ss_my_gen : g_my_gen s' = g_my_gen s
}.
#[export] Instance same_self_preorder : PreOrder same_self.
Proof. split; [by intros s|]. intros a b c [] []. split; congruence. Qed.
(** Two signallers of one invitation, the first of them the one that minted it. *)
Record same_invitation (sh sc : sig_t) : Prop := {
  si_keys : sig_key (g_keys sc) = sig_key (g_keys sh); si_ro : g_auth_ro sc = g_auth_ro sh; si_host_rw : g_have_rw sh = true;
  si_rw : g_have_rw sc = true -> g_auth sc = g_auth sh
}.
Definition has_idle (s : sig_t) : bool := existsb (fun o => negb (so_busy o)) (g_ops s).

(** ** Lemmas *)
Section Round.
Context {C : Crypto} {L : CryptoLaws C}.

Lemma created_together rdv auth (ro : bool) dht mc x sh dht' mc' x' sc :
  sig_create rdv auth false dht mc true x = Some sh ->
  sig_create rdv (if ro then keys_derive_ro_auth auth else auth) ro dht' mc' false x' = Some sc -> same_invitation sh sc.
Proof.
  unfold sig_create. destruct (keys_derive rdv) as [keys|]; [|done]. cbv zeta. intros H1 H2. destruct (dht || mc); [|done]. destruct (dht' || mc'); [|done].
  injection H1 as <-. injection H2 as <-. unfold engage_dht. destruct ro; repeat case_match; done.
Qed.
Lemma class_key sh sc : same_invitation sh sc -> slot_key sh (my_grade sc) = slot_key sc (my_grade sc).
Proof. intros [_ H2 _ H4]. unfold slot_key, my_grade. destruct (g_have_rw sc); cbn; [by rewrite H4|by rewrite H2]. Qed.
Lemma self_key s s' g : same_self s s' -> slot_key s' g = slot_key s g.
Proof. intros [H1 H2 H3 _ _ _ _]. unfold slot_key. by rewrite H2, H3. Qed.
Lemma self_grade s s' : same_self s s' -> my_grade s' = my_grade s.
Proof. intros [_ _ _ H _ _ _]. unfold my_grade. by rewrite H. Qed.

(** A store that the engine takes. *)
Lemma put_starts s kind cid wide val q x : has_idle s = true -> (length val <= SIG_WIRE_MAX)%nat -> (forall i, x_eng x i = EngStarted) ->
  exists s' i, slot_put s kind (Some cid) wide val q x = (s', true) /\ same_self s s' /\ g_rh s' = g_rh s /\ g_rc s' = g_rc s /\
    so_val (op_get s' i) = val /\ so_kind (op_get s' i) = Some kind /\ so_seq_seen (op_get s' i) = q /\ op_storing (op_get s' i) = true /\ slot_inflight s' = true.
Proof.
  intros Hi Hl He. unfold slot_put. destruct (Nat.ltb_spec SIG_WIRE_MAX (length val)); [lia|]. destruct (op_alloc s (Some kind) (Some cid) wide true) as [[s0 i]|] eqn:Ea.
  2:{ exfalso. unfold op_alloc in Ea. destruct (list_find _ _) as [[j o]|] eqn:Ef; [done|]. apply list_find_None in Ef. unfold has_idle in Hi. apply existsb_exists in Hi as (o & Ho & Hb).
      rewrite Forall_forall in Ef. apply list_elem_of_In in Ho. specialize (Ef o Ho). by rewrite Hb in Ef. }
  apply alloc_spec in Ea as (o & o' & Ho & _ & _ & _ & -> & ->). assert (Hlt := lookup_lt_Some _ _ _ Ho). set (s0 := s <| g_ops := _ |>). cbv zeta. rewrite He.
  set (s1 := on_op s0 i _). assert (Ei : exists o1, g_ops s1 !! i = Some o1 /\ so_val o1 = val /\ so_kind o1 = Some kind /\ so_seq_seen o1 = q /\ op_storing o1 = true).
  { eexists. split; [unfold s1, on_op; cbn [g_ops set set_g_ops s0]; apply list_lookup_insert_eq; by rewrite length_insert|].
    unfold op_get. cbn [g_ops set set_g_ops s0]. erewrite nth_lookup_Some by (by apply list_lookup_insert_eq). done. }
  destruct Ei as (o1 & Eo & E1 & E2 & E3 & E4). eexists _, i. split; [reflexivity|].
  match goal with |- context [op_get ?t i] => assert (Eg : op_get t i = o1) by (apply op_get_lookup; exact Eo) end. rewrite Eg. split_and!; try done.
  unfold slot_inflight. apply existsb_exists. exists o1. split; [|done]. apply list_elem_of_In, list_elem_of_lookup. by exists i.
Qed.

(** What a read that says who the host is leaves of a claimant that knows it. *)
Definition knows (k k' : rdv_client) : Prop :=
  k_cid k' = k_cid k /\ k_host_cid k' = k_host_cid k /\ k_host_gen k' = k_host_gen k /\ k_have_host k' = k_have_host k /\ k_offer_seq k' = k_offer_seq k /\
  k_prev_offer_seq k' = k_prev_offer_seq k /\ k_have_answer_seq k' = k_have_answer_seq k /\ k_answer_seq k' = k_answer_seq k.
Lemma host_slot_same k m seq : m_kind m = RDV_HOSTINFO -> k_have_host k = true -> m_from m = k_host_cid k -> m_gen m = k_host_gen k ->
  knows k (rdv_client_host_slot k m seq).1 /\ (rdv_client_host_slot k m seq).2 <> HostMoved.
Proof.
  intros Ek Hh Ef Eg. unfold rdv_client_host_slot, client_copy_acts. rewrite Ek. cbn [bool_decide decide negb andb]. rewrite (bool_decide_eq_true_2 (RDV_HOSTINFO = RDV_HOSTINFO)) by done.
  rewrite andb_false_r. destruct (bytes_eqb _ _); [done|]. destruct (_ && _ && _); [done|]. cbn [negb]. rewrite (bool_decide_eq_false_2 (RDV_HOSTINFO = RDV_TOMB)) by done.
  set (k1 := if k_hseq k <? seq then _ else k). assert (K1 : knows k k1) by (unfold k1; by case_match). clearbody k1. destruct K1 as (A1 & A2 & A3 & A4 & A5).
  change (k_have_host (k1 <| k_host_gone := false |>)) with (k_have_host k1). change (k_host_cid (k1 <| k_host_gone := false |>)) with (k_host_cid k1).
  change (k_host_gen (k1 <| k_host_gone := false |>)) with (k_host_gen k1). rewrite A2, A3, A4, Hh, Ef, Eg, Z.eqb_refl. unfold bytes_eqb. rewrite bool_decide_eq_true_2 by done. cbn [andb fst snd].
  split; [|done]. unfold knows. cbn. rewrite A4. done.
Qed.

Lemma existsb_insert {A} (f : A -> bool) l i y y' : l !! i = Some y -> (f y' = true -> f y = true) -> existsb f l = false -> existsb f (<[i := y']> l) = false.
Proof.
  revert i. induction l as [|z l IH]; intros [|i] Hi Hf H; try done; cbn [existsb] in H; apply orb_false_iff in H as [H1 H2].
  - injection Hi as ->. change (<[0%nat := y']> (y :: l)) with (y' :: l). cbn [existsb]. rewrite H2, orb_false_r. destruct (f y'); [|done]. by rewrite Hf in H1.
  - change (<[S i := y']> (z :: l)) with (z :: <[i := y']> l). cbn [existsb]. by rewrite H1, (IH i Hi).
Qed.
Lemma existsb_insert_same {A} (f : A -> bool) l i y y' : l !! i = Some y -> f y' = f y -> existsb f (<[i := y']> l) = existsb f l.
Proof.
  revert i. induction l as [|z l IH]; intros [|i] Hi Hf; try done.
  - injection Hi as ->. change (<[0%nat := y']> (y :: l)) with (y' :: l). cbn [existsb]. by rewrite Hf.
  - change (<[S i := y']> (z :: l)) with (z :: <[i := y']> l). cbn [existsb]. by rewrite (IH i Hi).
Qed.
(** A read with no node to note. *)
Lemma noted_null s op : let s' := node_noted s op [] in
  same_self s s' /\ g_ops s' = g_ops s /\ g_rh s' = g_rh s /\ g_rc s' = g_rc s /\ g_trace s' = g_trace s.
Proof.
  cbv zeta. unfold node_noted, on_base. change (node_note _ _ _ []) with ((g_base s) <| sg_info_pending := false |>). cbv zeta. cbn [sg_info_pending set set_sg_info_pending].
  destruct (bool_decide _) eqn:E; cbn [andb negb]; by split_and!.
Qed.
Lemma host_place_read s v seq x : s_is_host s = true -> let s' := host_slot_read s v seq x in
  same_self s s' /\ g_ops s' = g_ops s /\ g_rh s' = g_rh s /\ g_rc s' = g_rc s.
Proof.
  intros Hh. cbv zeta. unfold host_slot_read. destruct (rdv_open _ v); [|by split_and!]. destruct (_ && _); [by split_and!|]. cbv zeta. change (s_is_host (got s x)) with (s_is_host s).
  rewrite Hh. repeat case_match; by split_and!.
Qed.
(** The host hears an ask that is new to it. *)
Lemma host_hears s h j cell seq x v m g h1 sdp :
  s_is_host s = true -> g_rh s = Some h -> g_cb s = true -> so_done (op_get s j) = false -> cell_part cell CELL_TURN = Some v ->
  claimant_open s v = Some (m, g) -> m_kind m = RDV_OFFER -> rdv_host_slot h m = (h1, true) -> sdp_of m = Some sdp ->
  let s' := on_slot_get s j (Some cell) seq [] x in
  same_self s s' /\ g_rh s' = Some (grade_claimant h1 (m_from m) (fun c => c <| c_grade := u8 g |> <| c_wide_ask := so_wide (op_get s j) |>)) /\
  head (g_trace s') = Some (EvRecv (m_from m) sdp) /\ (slot_inflight s = false -> slot_inflight s' = false) /\ has_idle s' = has_idle s.
Proof.
  intros Hh Hr Hcb Hd Ht Ho Hk Hs Hp. cbv zeta. unfold on_slot_get. cbv zeta. set (s1 := on_op s j _).
  destruct (noted_null s1 (op_get s j)) as (S2 & E2 & R2 & _ & _). set (s2 := node_noted s1 _ []) in *. clearbody s2. rewrite Hd.
  assert (S12 : same_self s s2) by (etrans; [|exact S2]; by split). set (s3 := match cell_part cell CELL_HOST with Some _ => _ | None => s2 end).
  assert (A : same_self s s3 /\ g_ops s3 = g_ops s1 /\ g_rh s3 = Some h).
  { unfold s3. destruct (cell_part cell CELL_HOST) as [hp|]; [|split_and!; [done|done|by rewrite R2]].
    destruct (host_place_read s2 hp seq x) as (P1 & P2 & P3 & _); [by rewrite (ss_is_host _ _ S12)|]. split_and!; [by etrans|by rewrite P2|by rewrite P3, R2]. }
  clearbody s3. destruct A as (S3 & E3 & R3). rewrite Ht, (ss_is_host _ _ S3), Hh. unfold claimant_read. rewrite R3.
  assert (Ho3 : claimant_open s3 v = Some (m, g)). { rewrite <- Ho. unfold claimant_open. by rewrite (ss_rw _ _ S3), !(self_key _ _ _ S3). }
  rewrite Ho3, Hk. rewrite (bool_decide_eq_true_2 (RDV_OFFER = RDV_OFFER)) by done. cbn [negb]. rewrite Hs. cbn [negb]. rewrite Hp. unfold recv.
  set (s4 := (got s3 x) <| g_rh := Some h1 |> <| g_rh := _ |>). assert (Ecb : g_cb s4 = true) by (change (g_cb s4) with (g_cb s3); by rewrite (ss_cb _ _ S3)). rewrite Ecb.
  split; [etrans; [exact S3|]; by split|]. split; [done|]. split; [done|].
  assert (Eops : g_ops (note s4 (EvRecv (m_from m) sdp)) = <[j := (op_get s j) <| so_done := true |>]> (g_ops s)) by (change (g_ops (note s4 _)) with (g_ops s3); by rewrite E3).
  unfold slot_inflight, has_idle. rewrite Eops. destruct (g_ops s !! j) as [o|] eqn:Ej; [|rewrite list_insert_ge by (by apply lookup_ge_None); done].
  rewrite (op_get_lookup _ _ _ Ej). split; [|by apply (existsb_insert_same _ _ _ o)]. intros Hin. apply (existsb_insert _ _ _ o); [done| |done].
  unfold op_storing. cbn. by rewrite andb_false_r.
Qed.
(** With nothing owed, nothing is said. *)
Lemma next_none h : h_info_pending h = false -> (forall i c, h_c h !! i = Some c -> c_pending c = false) -> rdv_host_next h [] = (h, None).
Proof.
  intros Hi Hp. unfold rdv_host_next. rewrite Hi. assert (E : forall l k, (forall i c, l !! i = Some c -> c_pending c = false) -> first_owed h l k = None); [|by rewrite E].
  induction l as [|c l IH]; intros k Hl; [done|]. cbn. rewrite (Hl 0%nat c eq_refl). cbn. apply IH. intros i d Hd. by apply (Hl (S i)).
Qed.
(** The one answer owed goes out, sealed to the class of the claimant it is for. *)
Lemma answers_one s h r x h1 o m i val : g_rh s = Some h -> rdv_host_next h [] = (h1, Some o) -> o_seal o = RDV_SEAL_CLASS -> rdv_decode (o_msg o) = DecOk m ->
  rdv_host_find h1 (m_to m) = Some i -> h_info_pending h1 = false -> (forall i c, h_c h1 !! i = Some c -> c_pending c = false) ->
  any_route r = true -> slot_inflight s = false -> has_idle s = true -> (forall i, x_eng x i = EngStarted) ->
  seal_to (slot_key s (if c_grade (c_at h1 i) =? SIG_GRADE_RO then SIG_GRADE_RO else SIG_GRADE_RW)) o (x_rnd x 1%nat) = Some val -> (length val <= SIG_WIRE_MAX)%nat ->
  let s' := host_answers s r x in
  exists j, same_self s s' /\ g_rh s' = Some h1 /\ so_val (op_get s' j) = val /\ so_kind (op_get s' j) = Some RDV_ANSWER /\ so_seq_seen (op_get s' j) = -1 /\ op_storing (op_get s' j) = true.
Proof.
  intros Hr Hn Hs Hd Hf Hip Hp Hro Hin Hid He Hse Hl. cbv zeta. set (s1 := s <| g_rh := Some h1 |>).
  destruct (put_starts s1 RDV_ANSWER (m_to m) (c_wide_ask (c_at h1 i)) val (-1) x Hid Hl He) as (s2 & j & Ep & S2 & R2 & _ & V1 & V2 & V3 & V4 & _).
  assert (Loop : forall fuel, answers_loop (S (S fuel)) s r x 0 [] = (s2 <| g_rh := Some h1 |>, [])).
  { intros fuel. cbn [answers_loop]. rewrite Hr. change ((RDV_HOST_MAX <=? length (@nil bytes))%nat) with false. cbv iota. rewrite Hn, Hs, Hd, Hf. fold s1.
    rewrite Hro. change (slot_inflight s1) with (slot_inflight s). rewrite Hin. cbn [negb orb]. change (slot_key s1) with (slot_key s). rewrite Hse, Ep, R2.
    change (g_rh s1) with (Some h1). cbv iota. by rewrite (next_none h1 Hip Hp). }
  unfold host_answers. change answers_fuel with (S (S 80)). rewrite Loop. cbn [fold_left]. exists j. change (op_get (s2 <| g_rh := Some h1 |>) j) with (op_get s2 j).
  split; [|done]. transitivity s1; [by split|]. transitivity s2; [done|by split].
Qed.
(** The claimant hears what it would take. *)
Lemma claimant_hears s k j cell seq x v hp hm m sdp :
  s_is_host s = false -> g_rc s = Some k -> g_cb s = true -> so_done (op_get s j) = false ->
  cell_part cell CELL_HOST = Some hp -> rdv_open (sig_key (g_keys s)) hp = Some hm -> m_kind hm = RDV_HOSTINFO -> k_have_host k = true -> m_from hm = k_host_cid k -> m_gen hm = k_host_gen k ->
  cell_part cell CELL_TURN = Some v -> rdv_open (slot_key s (my_grade s)) v = Some m -> m_kind m = RDV_ANSWER -> m_to m = k_cid k -> m_from m = k_host_cid k -> k_cid k <> k_host_cid k ->
  k_offer_seq k <> 0 -> m_re m = k_offer_seq k -> (k_have_answer_seq k = true -> k_answer_seq k < m_seq m) -> sdp_of m = Some sdp ->
  let s' := on_slot_get s j (Some cell) seq [] x in
  head (g_trace s') = Some (EvRecv (m_from m) sdp) /\ exists k', g_rc s' = Some k' /\ k_state k' = RDV_CL_ANSWERED /\ k_answer k' = m_payload m.
Proof.
  intros Hh Hr Hcb Hd Hhp Hho Hhk Hkh Hhf Hhg Ht Ho Hk Hto Hfr Hne Hos Hre Has Hp. cbv zeta. unfold on_slot_get. cbv zeta. set (s1 := on_op s j _).
  destruct (noted_null s1 (op_get s j)) as (S2 & _ & _ & R2 & _). set (s2 := node_noted s1 _ []) in *. clearbody s2. rewrite Hd, Hhp.
  assert (S12 : same_self s s2) by (etrans; [|exact S2]; by split). assert (R : g_rc s2 = Some k) by (by rewrite R2). clear S2 R2 s1.
  assert (A : exists k1, let s3 := host_slot_read s2 hp seq x in same_self s s3 /\ g_rc s3 = Some k1 /\ knows k k1).
  { destruct (host_slot_same k hm seq Hhk Hkh Hhf Hhg) as [Kn Hmv]. exists (rdv_client_host_slot k hm seq).1. cbv zeta. unfold host_slot_read. rewrite (ss_keys _ _ S12), Hho, Hhk.
    rewrite (bool_decide_eq_true_2 (RDV_HOSTINFO = RDV_HOSTINFO)) by done. cbn [negb andb]. change (s_is_host (got s2 x)) with (s_is_host s2). rewrite (ss_is_host _ _ S12), Hh.
    change (g_rc (got s2 x)) with (g_rc s2). rewrite R. set (s3 := if g_hcopy_seq (got s2 x) <=? seq then _ else got s2 x).
    assert (S3 : same_self s s3) by (etrans; [exact S12|]; unfold s3; by case_match). clearbody s3. destruct (rdv_client_host_slot k hm seq) as [k1 w]. cbn [fst snd] in *.
    set (s4 := if g_h_seq _ <? seq then _ else _). assert (E4 : same_self s s4 /\ g_rc s4 = Some k1) by (unfold s4; case_match; (split; [etrans; [exact S3|]; by split|done])). clearbody s4.
    rewrite (bool_decide_eq_false_2 (RDV_HOSTINFO = RDV_TOMB)) by done. set (s5 := s4 <| g_info_seen := _ |> <| g_tomb_seen := 0 |>).
    assert (E5 : same_self s (host_nodes_seed s5 (m_payload hm) x) /\ g_rc (host_nodes_seed s5 (m_payload hm) x) = Some k1).
    { destruct E4 as [E4 E4']. unfold host_nodes_seed. generalize (List.seq 0 (length (m_payload hm) / CTL_RDV_PLEN)). intros l.
      assert (G : same_self s s5 /\ g_rc s5 = Some k1) by (split; [etrans; [exact E4|]; by split|done]). clearbody s5. revert s5 G. induction l as [|q l IH]; intros s5 G; [done|].
      cbn [fold_left]. apply IH. destruct (ctl_rdv_decode _) as [[f sa]|]; [|done]. destruct G as [G1 G2]. unfold sig_seed, engage_dht.
      repeat (case_match; cbn); (split; [etrans; [exact G1|]; by split|done]). }
    destruct w; [|split_and!; [etrans; [exact S3|]; by split|done|done]|done]. by destruct E5. }
  destruct A as (k1 & S3 & R3 & (K1 & K2 & K3 & K4 & K5 & K6 & K7 & K8)). set (s3 := host_slot_read s2 hp seq x) in *. clearbody s3. rewrite Ht, (ss_is_host _ _ S3), Hh.
  unfold answer_read. rewrite R3, (self_grade _ _ S3), (self_key _ _ _ S3), Ho. cbv zeta.
  assert (bytes_eqb (m_from m) (k_cid k1) = false) as -> by (apply bool_decide_eq_false; rewrite K1; congruence).
  assert (Hw : rdv_client_would_take k1 m = true).
  { apply (would_take_when k1 m); [done|by rewrite K1|by rewrite K2|by rewrite K5|by rewrite K5|by rewrite K7, K8]. }
  rewrite Hw. cbn [negb]. rewrite Hk. rewrite (bool_decide_eq_false_2 (RDV_ANSWER = RDV_REFUSE)) by done. rewrite Hp.
  destruct (taken_when k1 m) as [T1 T2]; [done|by rewrite K1|by rewrite K2|by rewrite K5|by rewrite K5|by rewrite K7, K8|].
  unfold rdv_client_own_slot in *. rewrite Hw in *. cbn [negb] in *. rewrite Hk in *. rewrite (bool_decide_eq_false_2 (RDV_ANSWER = RDV_REFUSE)) in * by done. cbn [fst snd negb] in *.
  unfold recv. set (s4 := (got s3 x) <| g_rc := _ |>). assert (Ecb : g_cb s4 = true) by (change (g_cb s4) with (g_cb s3); by rewrite (ss_cb _ _ S3)). rewrite Ecb.
  split; [done|]. eexists. split; [done|]. by split.
Qed.

Lemma place_some cell p v : place (Some cell) p = v -> v <> [] -> cell_part cell p = Some v.
Proof. unfold place. cbn. destruct (cell_part cell p); cbn; congruence. Qed.
Lemma encode_len m msg : msg_ok m -> rdv_encode m RDV_MAX_MSG = Some msg -> (length msg <= RDV_MAX_MSG)%nat.
Proof.
  intros [_ _ _ Hf Ht Hp] He. unfold rdv_encode in He. repeat (case_match; [done|]). injection He as <-. unfold put32. cbn [be_put app].
  cbn [app length]. rewrite !length_app, Hf, Ht. cbn [length]. unfold RDV_MAX_MSG, RDV_HDR_LEN, RDV_CID_LEN. lia.
Qed.
(** A statement is sealed where the cipher works, and opens again. *)
Lemma statement_seals key nonce m o : length nonce = 24%nat -> (forall ad pt, is_Some (cc_aead_lock key nonce ad pt)) -> msg_ok m ->
  rdv_encode m RDV_MAX_MSG = Some (o_msg o) ->
  exists val, seal_to key o (Some nonce) = Some val /\ rdv_open key val = Some m /\ (length val <= SIG_VALUE_MAX)%nat /\ val <> [].
Proof.
  intros Hn Hc Hm He. pose proof (encode_len _ _ Hm He) as Hl. unfold seal_to, msg_seal.
  assert (Hs : exists val, msg_seal_ad SIG_WIRE_MAX (Some nonce) key [] (o_msg o) = Some val).
  { unfold msg_seal_ad. destruct (Hc [] (o_msg o)) as [[ct mac] Hk]. change RDV_MAX_MSG with 792%nat in Hl. unfold SIG_WIRE_MAX, SEAL_OVERHEAD.
    destruct (Nat.ltb_spec 1000 (length (o_msg o) + 40)); [lia|]. rewrite Hk. by eexists. }
  destruct Hs as [val Hs]. exists val. split; [done|]. pose proof (msg_seal_ad_length _ _ _ _ _ _ Hn Hs) as Hv. split; [by eapply rdv_open_sealed|].
  unfold SIG_VALUE_MAX. split; [lia|]. intros ->. cbn in Hv. unfold SEAL_OVERHEAD in Hv. lia.
Qed.
(** The claimant's ask goes out. *)
Lemma ask_goes_out s k r x nonce (m := mk_rdv RDV_OFFER (k_host_gen k) (k_cid k) (k_host_cid k) (u32 (k_seq k + 1)) 0 (g_packed s)) :
  g_rc s = Some k -> may_ask k (g_packed s) = true -> g_next_put s <= x_now x -> r_direct r = true -> slot_inflight s = false -> has_idle s = true ->
  (forall i, x_eng x i = EngStarted) -> x_rnd x 0%nat = Some nonce -> length nonce = 24%nat -> (forall ad pt, is_Some (cc_aead_lock (slot_key s (my_grade s)) nonce ad pt)) ->
  length (k_cid k) = RDV_CID_LEN -> length (k_host_cid k) = RDV_CID_LEN -> is_u32 (k_host_gen k) ->
  let s' := client_pump_puts s r x in
  exists i val k', same_self s s' /\ g_rc s' = Some k' /\ rdv_client_next k (g_packed s) = (k', (rdv_client_next k (g_packed s)).2) /\ k_offer_seq k' = u32 (k_seq k + 1) /\
    so_val (op_get s' i) = val /\ so_kind (op_get s' i) = Some RDV_OFFER /\ so_seq_seen (op_get s' i) = -1 /\ op_storing (op_get s' i) = true /\
    rdv_open (slot_key s (my_grade s)) val = Some m /\ (length val <= SIG_VALUE_MAX)%nat /\ val <> [].
Proof.
  intros Hr Ha Hn Hd Hin Hid He Hrnd Hl Hc Hk1 Hk2 Hk3. cbv zeta. destruct (ask_new k (g_packed s) Ha) as (k1 & o & Ek & _ & Es2 & _ & Henc). fold m in Henc.
  pose proof Ha as Ha'. unfold may_ask in Ha'. repeat (apply andb_true_iff in Ha' as [Ha' ?]).
  assert (M : msg_ok m). { split; cbn; try done; [apply Z.mod_pos_bound; lia|]. match goal with E : (length (g_packed s) <=? _)%nat = true |- _ => by apply Nat.leb_le end. }
  destruct (statement_seals (slot_key s (my_grade s)) nonce m o Hl Hc M Henc) as (val & Hs & Ho & Hv & Hne).
  unfold client_pump_puts. rewrite Hr. destruct (Z.ltb_spec (x_now x) (g_next_put s)); [lia|]. rewrite Hd, Hin. cbn [negb andb]. rewrite Ek. cbv zeta. set (s1 := s <| g_rc := Some k1 |>).
  change (slot_key s1 (my_grade s1)) with (slot_key s (my_grade s)). rewrite Hrnd, Hs.
  destruct (put_starts s1 RDV_OFFER (k_cid k1) false val (-1) x Hid) as (s2 & i & Ep & S2 & _ & R2 & V1 & V2 & V3 & V4 & _); [unfold SIG_WIRE_MAX; change SIG_VALUE_MAX with 832%nat in Hv; lia|done|].
  rewrite Ep. cbn [fst]. set (s3 := s2 <| g_next_put := _ |>). exists i, val, k1. change (op_get s3 i) with (op_get s2 i). split_and!; try done.
  transitivity s2; [transitivity s1; [by split|done]|by split].
Qed.
Lemma ask_merges s i cur q hp val : so_kind (op_get s i) = Some RDV_OFFER -> so_seq_seen (op_get s i) = -1 -> so_val (op_get s i) = val -> cell_part cur CELL_TURN = None ->
  cell_part cur CELL_HOST = Some hp -> (length hp <= RDV_HDR_LEN + RDV_HOST_PAYLOAD + SEAL_OVERHEAD)%nat -> (length val <= SIG_VALUE_MAX)%nat ->
  exists cell, merge_mine s i SIG_WIRE_MAX (Some cur) q = Some cell /\ place (Some cell) CELL_HOST = hp /\ place (Some cell) CELL_TURN = val.
Proof.
  intros Hk Hq Hv Ht Hh Hl1 Hl2. destruct (cell_fits hp val Hl1 Hl2) as [cell Hc]. exists cell. split.
  - unfold merge_mine. rewrite Hk, Hq, Hv. change (default [] (Some cur)) with cur. rewrite Ht, Hh. exact Hc.
  - split; by rewrite (cell_pack_part _ _ _ _ _ (le_n _) Hc) by auto.
Qed.
Lemma answer_merges s i cur q hp val : so_kind (op_get s i) = Some RDV_ANSWER -> so_seq_seen (op_get s i) = -1 -> so_val (op_get s i) = val ->
  place (Some cur) CELL_HOST = hp -> (length hp <= RDV_HDR_LEN + RDV_HOST_PAYLOAD + SEAL_OVERHEAD)%nat -> (length val <= SIG_VALUE_MAX)%nat ->
  exists cell, merge_mine s i SIG_WIRE_MAX (Some cur) q = Some cell /\ place (Some cell) CELL_HOST = hp /\ place (Some cell) CELL_TURN = val.
Proof.
  intros Hk Hq Hv Hh Hl1 Hl2. destruct (cell_fits hp val Hl1 Hl2) as [cell Hc]. exists cell. split.
  - unfold merge_mine. rewrite Hk, Hq, Hv. fold (place (Some cur) CELL_HOST). rewrite Hh. exact Hc.
  - split; by rewrite (cell_pack_part _ _ _ _ _ (le_n _) Hc) by auto.
Qed.
(** The host, having heard one claimant, answers it. *)
Lemma host_answers_it s hg cid i c data iid p r x nonce (m := mk_rdv RDV_ANSWER (h_gen hg) (h_cid hg) cid (u32 (h_seq hg + 1)) (c_last_seq c) p) :
  s_is_host s = true -> g_rh s = Some hg -> host_ok hg -> rdv_host_find hg cid = Some i -> h_c hg !! i = Some c -> c_cid c = cid -> c_state c = RDV_C_HARVESTED -> c_holds c = false ->
  (forall a d, h_c hg !! a = Some d -> a <> i -> quiet_c d) -> h_info_pending hg = false -> length (h_cid hg) = RDV_CID_LEN -> length cid = RDV_CID_LEN -> is_u32 (h_gen hg) -> is_u32 (c_last_seq c) ->
  (length data < SIG_SDP_MAX)%nat -> candpack_encode (c_text data) true (g_my_gen s) None iid RDV_MAX_PAYLOAD = Packed p -> (length p <= RDV_MAX_PAYLOAD)%nat ->
  any_route r = true -> slot_inflight s = false -> has_idle s = true -> (forall i, x_eng x i = EngStarted) -> x_rnd x 1%nat = Some nonce -> length nonce = 24%nat ->
  (forall key ad pt, is_Some (cc_aead_lock key nonce ad pt)) ->
  let s' := host_answers (sig_answer s cid data iid).1 r x in
  exists j val, same_self s s' /\ so_val (op_get s' j) = val /\ so_kind (op_get s' j) = Some RDV_ANSWER /\ so_seq_seen (op_get s' j) = -1 /\ op_storing (op_get s' j) = true /\
    rdv_open (slot_key s (if c_grade c =? SIG_GRADE_RO then SIG_GRADE_RO else SIG_GRADE_RW)) val = Some m /\ (length val <= SIG_VALUE_MAX)%nat /\ val <> [].
Proof.
  intros Hh Hr Hok Hf Hi Hc Hst Hho Hq Hip Hl1 Hl2 Hu1 Hu2 Hd Hp Hpl Hro Hin Hid He Hrn Hnl Hck. cbv zeta.
  assert (Ea : sig_answer s cid data iid = (s <| g_rh := Some (rdv_host_answer hg cid p) |> <| g_next_put := 0 |>, true)).
  { unfold sig_answer. rewrite Hr, Hh, Hp. destruct (Nat.leb_spec SIG_SDP_MAX (length data)); [lia|done]. }
  rewrite Ea. cbn [fst]. set (s1 := s <| g_rh := _ |> <| g_next_put := 0 |>).
  destruct (answer_next hg cid i c p Hok Hf Hi Hc Hst Hho Hq Hip Hpl) as (h' & o & c' & En & Eos & Eo & Ec & Ei & Ecid & Epd & Est & Egr & _). fold m in Eo.
  assert (M : msg_ok m) by (split; cbn; try done; apply Z.mod_pos_bound; lia).
  pose proof (decode_encode _ _ _ M Eo) as Hdec. assert (Hi' : h_c h' !! i = Some c') by (rewrite Ec; apply list_lookup_insert_eq; by eapply lookup_lt_Some).
  assert (Hok' : host_ok h'). { pose proof (next_ok (rdv_host_answer hg cid p) [] (answer_ok _ _ _ Hok)) as Q. by rewrite En in Q. }
  assert (Hf' : rdv_host_find h' (m_to m) = Some i). { change (m_to m) with cid. rewrite <- Ecid. apply find_at; [done|done|]. intros E. rewrite Est in E. done. }
  assert (Hg : c_grade (c_at h' i) = c_grade c) by (by rewrite (c_at_lookup _ _ _ Hi'), Egr).
  destruct (statement_seals (slot_key s (if c_grade c =? SIG_GRADE_RO then SIG_GRADE_RO else SIG_GRADE_RW)) nonce m o Hnl (Hck _) M Eo) as (val & Hs & Hop & Hv & Hne).
  destruct (answers_one s1 (rdv_host_answer hg cid p) r x h' o m i val) as (j & S & _ & V1 & V2 & V3 & V4); try done.
  - intros a d Hd'. destruct (decide (a = i)) as [->|Hn]; [rewrite Hi' in Hd'; by injection Hd' as <-|]. rewrite Ec, list_lookup_insert_ne in Hd' by done. by destruct (Hq a d Hd' Hn).
  - rewrite Hg, Hrn. exact Hs.
  - unfold SIG_WIRE_MAX. change SIG_VALUE_MAX with 832%nat in Hv. lia.
  - exists j, val. split_and!; try done. transitivity s1; [by split|done].
Qed.
Lemma ask_opens sh sc v m : same_invitation sh sc ->
  (g_have_rw sc = false -> forall v m, rdv_open (slot_key sc SIG_GRADE_RO) v = Some m -> rdv_open (slot_key sh SIG_GRADE_RW) v = None) ->
  rdv_open (slot_key sc (my_grade sc)) v = Some m -> claimant_open sh v = Some (m, my_grade sc).
Proof.
  intros Hsi Hc Ho. rewrite <- (class_key sh sc Hsi) in Ho. unfold claimant_open, my_grade in *. rewrite (si_host_rw _ _ Hsi). destruct (g_have_rw sc) eqn:Erw; [by rewrite Ho|].
  pose proof (class_key sh sc Hsi) as Hk. unfold my_grade in Hk. rewrite Erw in Hk. rewrite (Hc eq_refl v m), Ho; [done|by rewrite <- Hk].
Qed.
(** The table once the claimant just heard has its class noted. *)
Lemma graded h2 cid i c g : host_ok h2 -> rdv_host_find h2 cid = Some i -> h_c h2 !! i = Some c -> c_cid c = cid -> c_state c = RDV_C_HARVESTED -> c_holds c = false ->
  (forall c, c_cid (g c) = c_cid c /\ c_state (g c) = c_state c /\ c_holds (g c) = c_holds c /\ c_pending (g c) = c_pending c /\ c_answer (g c) = c_answer c) ->
  (forall a d, h_c h2 !! a = Some d -> a <> i -> quiet_c d) ->
  let hg := grade_claimant h2 cid g in
  host_ok hg /\ rdv_host_find hg cid = Some i /\ h_c hg !! i = Some (g c) /\ (forall a d, h_c hg !! a = Some d -> a <> i -> quiet_c d) /\ scalars_same h2 hg.
Proof.
  intros Ho Hf Hi Hc Hs Hh Hg Hq. cbv zeta. destruct (grade_ok h2 cid g Hg Ho) as [Og _]. destruct (Hg c) as (G1 & G2 & _). revert Og. unfold grade_claimant. rewrite Hf, (c_at_lookup _ _ _ Hi). intros Og.
  assert (Hi' : h_c (set_c h2 i (g c)) !! i = Some (g c)) by (cbn; apply list_lookup_insert_eq; by eapply lookup_lt_Some). split; [done|]. split.
  { rewrite <- Hc, <- G1. apply find_at; [done|done|]. intros E. rewrite G2, Hs in E. done. }
  split; [done|]. split; [|done]. intros a d Hd Hn. cbn in Hd. rewrite list_lookup_insert_ne in Hd by done. by apply (Hq a).
Qed.
End Round.

(** ** Properties *)

(** C5: one round of the mailbox, from end to end: a claimant that may ask and a host that may answer,
    holding one invitation, complete an exchange through the cell.  The ask the claimant's round
    stores merges into the free turn; reading the cell, the host tells the program the claimant's
    text; the answer the program then gives is stored by the host's next round, merges, and,
    read by the claimant, is its text told the program there; the host's own statement stands
    throughout.  (A box sealed to one class is taken not to open under the key of another.) *)
Theorem mailbox_round {C : Crypto} {L : CryptoLaws C} sh sc h k x1 x2 x3 x4 r1 r3 n1 n3 cur hp hm q1 q2 q3 q4 j1 j2 sdp1 data iid p sdp2 :
  same_invitation sh sc -> s_is_host sh = true -> s_is_host sc = false -> g_cb sh = true -> g_cb sc = true -> g_rh sh = Some h -> g_rc sc = Some k ->
  (* the claimant has met the host *)
  length (k_cid k) = RDV_CID_LEN -> k_host_cid k = h_cid h -> k_cid k <> h_cid h -> is_u32 (k_host_gen k) -> 0 <= k_seq k < 2 ^ 32 - 1 ->
  (k_have_answer_seq k = true -> k_answer_seq k <= h_seq h) -> may_ask k (g_packed sc) = true ->
  (* the host has room for it *)
  host_sound h -> is_u32 (h_gen h) -> 0 <= h_seq h < 2 ^ 32 - 1 -> (forall i c, h_c h !! i = Some c -> used c -> c_cid c = k_cid k -> c_last_seq c <= k_seq k) -> may_answer h (k_cid k) = true ->
  (* each can store, and the cipher works *)
  g_next_put sc <= x_now x1 -> r_direct r1 = true -> slot_inflight sc = false -> has_idle sc = true -> (forall i, x_eng x1 i = EngStarted) ->
  any_route r3 = true -> slot_inflight sh = false -> has_idle sh = true -> (forall i, x_eng x3 i = EngStarted) ->
  x_rnd x1 0%nat = Some n1 -> x_rnd x3 1%nat = Some n3 -> length n1 = 24%nat -> length n3 = 24%nat -> (forall key n ad pt, length n = 24%nat -> is_Some (cc_aead_lock key n ad pt)) ->
  (g_have_rw sc = false -> forall v m, rdv_open (slot_key sc SIG_GRADE_RO) v = Some m -> rdv_open (slot_key sh SIG_GRADE_RW) v = None) ->
  (* the cell carries the host's statement, and the turn is free *)
  cell_part cur CELL_HOST = Some hp -> rdv_open (sig_key (g_keys sh)) hp = Some hm -> m_kind hm = RDV_HOSTINFO -> m_from hm = h_cid h -> m_gen hm = k_host_gen k ->
  (length hp <= RDV_HDR_LEN + RDV_HOST_PAYLOAD + SEAL_OVERHEAD)%nat -> cell_part cur CELL_TURN = None ->
  so_done (op_get sh j1) = false -> so_done (op_get (client_pump_puts sc r1 x1) j2) = false ->
  (* the texts pack *)
  (candpack_decode (g_packed sc) 0 SIG_SDP_MAX).2 = Unpacked sdp1 -> (length data < SIG_SDP_MAX)%nat ->
  candpack_encode (c_text data) true (g_my_gen sh) None iid RDV_MAX_PAYLOAD = Packed p -> (length p <= RDV_MAX_PAYLOAD)%nat -> (candpack_decode p 0 SIG_SDP_MAX).2 = Unpacked sdp2 ->
  let sc1 := client_pump_puts sc r1 x1 in
  exists i1 cell1, op_storing (op_get sc1 i1) = true /\ merge_mine sc1 i1 SIG_WIRE_MAX (Some cur) q1 = Some cell1 /\
    let sh1 := on_slot_get sh j1 (Some cell1) q2 [] x2 in
    head (g_trace sh1) = Some (EvRecv (k_cid k) sdp1) /\
    let sh2 := host_answers (sig_answer sh1 (k_cid k) data iid).1 r3 x3 in
    exists i2 cell2, op_storing (op_get sh2 i2) = true /\ merge_mine sh2 i2 SIG_WIRE_MAX (Some cell1) q3 = Some cell2 /\ place (Some cell2) CELL_HOST = hp /\
      let sc2 := on_slot_get sc1 j2 (Some cell2) q4 [] x4 in
      head (g_trace sc2) = Some (EvRecv (h_cid h) sdp2) /\ exists k', g_rc sc2 = Some k' /\ k_state k' = RDV_CL_ANSWERED /\ k_answer k' = p.
Proof.
  intros Hsi Hih Hic Hcbh Hcbc Hrh Hrc Kl Kh Kne Kg Kq Ka Kask [Ho Hw] Hg Hq Hold Hroom Hnp Hrd Hin1 Hid1 He1 Hro Hin3 Hid3 He3 Hr1 Hr3 Hn1 Hn3 Hck Hcls
    Hhp Hhm Hmk Hmf Hmg Hhl Hturn Hj1 Hj2 Hd1 Hdl Hen Hpl Hd2. cbv zeta.
  pose proof Kask as Kask'. unfold may_ask in Kask'. repeat (apply andb_true_iff in Kask' as [Kask' ?]). assert (Khh : k_have_host k = true) by done.
  assert (Kz : k_cid k <> rdv_zero). { match goal with E : negb (bytes_eqb (k_cid k) rdv_zero) = true |- _ => by apply negb_true_iff, bool_decide_eq_false in E end. }
  assert (Hhcid : length (h_cid h) = RDV_CID_LEN) by apply Hw. assert (Eu : u32 (k_seq k + 1) = k_seq k + 1) by (apply Z.mod_small; lia).
  destruct (ask_goes_out sc k r1 x1 n1) as (i1 & v1 & k1 & S1 & R1 & Ek1 & Eos & V1 & V2 & V3 & V4 & Op1 & Vl1 & Vn1); try done; [by intros; apply Hck|by rewrite Kh|].
  rewrite Eu in Eos, Op1. set (sc1 := client_pump_puts sc r1 x1) in *. clearbody sc1.
  destruct (ask_merges sc1 i1 cur q1 hp v1 V2 V3 V1 Hturn Hhp Hhl Vl1) as (cell1 & Em1 & Pl1 & Pt1). exists i1, cell1. split; [done|]. split; [done|].
  set (m1 := mk_rdv RDV_OFFER (k_host_gen k) (k_cid k) (k_host_cid k) (k_seq k + 1) 0 (g_packed sc)) in *.
  pose proof (ask_opens sh sc v1 m1 Hsi Hcls Op1) as Hopen.
  assert (Hfresh : forall i c, h_c h !! i = Some c -> used c -> c_cid c = m_from m1 -> c_last_seq c < m_seq m1) by (intros i c Hi Hu Ec; specialize (Hold i c Hi Hu Ec); cbn; lia).
  pose proof (slot_new h m1 Ho Hroom eq_refl Kz Kh Hfresh) as Hnew.
  destruct (heard_alone h m1 Ho Hroom eq_refl Kz Kh Hfresh) as (i & c & Hfi & Hi & Hci & Hst & Hls & Hho & Hqu & Hip & [T1 T2 T3 T4 T5 T6] & Hok2). cbv zeta in *.
  destruct (rdv_host_slot h m1) as [h2 new] eqn:Esl. cbn [fst snd] in *. subst new.
  destruct (host_hears sh h j1 cell1 q2 x2 v1 m1 (my_grade sc) h2 sdp1) as (Sh1 & Rh1 & Tr1 & In1 & Id1); try done; [by apply place_some|by unfold sdp_of, m1; cbn; rewrite Hd1|].
  set (gr := fun c => c <| c_grade := _ |> <| c_wide_ask := _ |>) in Rh1. change (m_from m1) with (k_cid k) in *. split; [exact Tr1|].
  destruct (graded h2 (k_cid k) i c gr Hok2 Hfi Hi Hci Hst Hho) as (Og & Fg & Ig & Qg & [G1 G2 G3 G4 G5 G6]); [by intros c0|done|]. set (hg := grade_claimant h2 (k_cid k) gr) in *. clearbody hg.
  set (sh1 := on_slot_get sh j1 (Some cell1) q2 [] x2) in *. clearbody sh1.
  destruct (host_answers_it sh1 hg (k_cid k) i (gr c) data iid p r3 x3 n3) as (i2 & v3 & S3 & W1 & W2 & W3 & W4 & Op3 & Wl & Wn);
    [by rewrite (ss_is_host _ _ Sh1)|done|done|done|done|done|done|done|done|by rewrite G5|by rewrite G1, T1|done|by rewrite G2, T2|change (c_last_seq (gr c)) with (c_last_seq c); rewrite Hls; unfold is_u32; cbn; lia
    |done|by rewrite (ss_my_gen _ _ Sh1)|done|done|by apply In1|by rewrite Id1|done|done|done|by intros; apply Hck|].
  change (c_last_seq (gr c)) with (c_last_seq c) in Op3. rewrite Hls, G1, G2, G3, T1, T2, T3 in Op3. set (sh2 := host_answers _ r3 x3) in *. clearbody sh2.
  destruct (answer_merges sh2 i2 cell1 q3 hp v3 W2 W3 W1 Pl1 Hhl Wl) as (cell2 & Em2 & Pl2 & Pt2). exists i2, cell2. split; [done|]. split; [done|]. split; [done|].
  assert (Eq : u32 (h_seq h + 1) = h_seq h + 1) by (apply Z.mod_small; lia). rewrite Eq in Op3. set (m3 := mk_rdv RDV_ANSWER _ _ _ _ _ _) in Op3.
  assert (Gk : (if c_grade (gr c) =? SIG_GRADE_RO then SIG_GRADE_RO else SIG_GRADE_RW) = my_grade sc) by (unfold gr, my_grade; cbn; by destruct (g_have_rw sc)).
  rewrite Gk, (self_key _ _ _ Sh1), (class_key _ _ Hsi) in Op3. pose proof (next_client _ _ _ _ Ek1) as (C1 & C2 & C3 & C4 & C5 & C6 & _).
  apply (claimant_hears sc1 k1 j2 cell2 q4 x4 v3 hp hm m3 sdp2); try done; rewrite ?C1, ?C2, ?C3, ?C4, ?C5, ?C6, ?Eos;
    try first [by rewrite (ss_is_host _ _ S1)|by rewrite (ss_cb _ _ S1)|by rewrite (ss_keys _ _ S1), (si_keys _ _ Hsi)|by rewrite (self_grade _ _ S1), (self_key _ _ _ S1)|by rewrite Kh|lia].
  - apply place_some; [done|]. intros ->. unfold rdv_open, msg_open, msg_open_ad in Hhm. done.
  - exact Khh.
  - by apply place_some.
  - cbn. intros Hh. specialize (Ka Hh). lia.
  - unfold sdp_of, m3. cbn. by rewrite Hd2.
Qed.

(** ** Witness: a claimant and a host of one invitation *)
Definition demo_sdp_text : bytes := cstr "a=ice-ufrag:ab" ++ [10] ++ cstr "a=ice-pwd:xyz" ++ [10] ++ cstr "a=candidate:0 1 UDP 9 192.168.1.4 5000 typ host" ++ [10].
Definition demo_packed_ask : bytes := match candpack_encode demo_sdp_text true 0 None (Some demo_cid) RDV_MAX_PAYLOAD with Packed p => p | _ => [] end.
Definition demo_packed_answer : bytes := match candpack_encode demo_sdp_text true 0 None (Some demo_hcid) RDV_MAX_PAYLOAD with Packed p => p | _ => [] end.
Definition demo_statement : rdv_msg := mk_rdv RDV_HOSTINFO 7 demo_hcid rdv_zero 1 0 [].
Definition demo_met : rdv_client := (rdv_client_host_slot (rdv_client_init demo_cid) demo_statement 1).1.
Definition demo_host_said : rdv_host := (rdv_host_next (rdv_host_init demo_hcid 7 0) []).1.
Definition demo_sh : sig_t := sig_rdv_host (demo_make true) demo_host_said.
Definition demo_sc : sig_t := (sig_post (sig_rdv_client (demo_make false) demo_met) demo_sdp_text (Some demo_cid)).1.
Definition demo_hp : bytes :=
  default [] (option_bind _ _ (fun b => @msg_seal toy_crypto SIG_WIRE_MAX (Some demo_nonce) (sig_key (g_keys demo_sh)) b) (rdv_encode demo_statement RDV_MAX_MSG)).
Definition demo_free_cell : bytes := default [] (cell_pack SIG_WIRE_MAX demo_hp []).
Definition demo_both : routes := mk_routes true true.
Lemma mailbox_round_witness :
  let sc1 := @client_pump_puts toy_crypto demo_sc demo_both (demo_env 100) in
  exists i1 cell1, op_storing (op_get sc1 i1) = true /\ @merge_mine toy_crypto sc1 i1 SIG_WIRE_MAX (Some demo_free_cell) 1 = Some cell1 /\
    head (g_trace (@on_slot_get toy_crypto demo_sh 0 (Some cell1) 2 [] (demo_env 200))) = Some (EvRecv demo_cid demo_sdp_text).
Proof.
  assert (T : (candpack_decode (g_packed demo_sc) 0 SIG_SDP_MAX).2 = Unpacked demo_sdp_text) by (vm_compute; reflexivity).
  destruct (@mailbox_round toy_crypto toy_crypto_laws demo_sh demo_sc demo_host_said demo_met (demo_env 100) (demo_env 200) (demo_env 300) (demo_env 400) demo_both demo_both demo_nonce demo_nonce
    demo_free_cell demo_hp demo_statement 1 2 2 3 0 1 demo_sdp_text demo_sdp_text (Some demo_hcid) demo_packed_answer demo_sdp_text) as (i1 & cell1 & H1 & H2 & H3 & _).
  33: { intros key n ad pt _. eexists. reflexivity. }
  33: { intros E. vm_compute in E. discriminate E. }
  all: try (match goal with
            | A : op_storing (op_get _ ?i) = true, B : merge_mine _ _ _ _ _ = Some ?c, D : head _ = _ |- _ => exists i, c; split; [exact A|]; split; [exact B|exact D] end).
  all: try (vm_compute; reflexivity). all: try exact T.
  - split; vm_compute; reflexivity.
  - vm_compute. discriminate.
  - split; vm_compute; [discriminate|reflexivity].
  - split; vm_compute; [discriminate|reflexivity].
  - vm_compute. discriminate.
  - split; [exact (host_table_ok demo_hcid 7 0 [HNext []])|]. split; [reflexivity|]. vm_compute. repeat constructor.
  - split; vm_compute; [discriminate|reflexivity].
  - split; vm_compute; [discriminate|reflexivity].
  - intros i c Hi Hu _. vm_compute in Hi. do 16 (destruct i as [|i]; [injection Hi as <-; destruct Hu; reflexivity|]). discriminate Hi.
  - vm_compute. discriminate.
  - apply Nat.leb_le. vm_compute. reflexivity.
  - apply Nat.ltb_lt. vm_compute. reflexivity.
  - apply Nat.leb_le. vm_compute. reflexivity.
Defined.
