(* ===== verification/Admit.v ===== *)
(** src/src/session.c, the host's turnstile: the queue of asks, the punches under way, the
    workers that serve, and how a claimant goes from one to the next; with [lanlink_map_peer] of
    src/src/lanlink.c and [peering_offer_judge] of src/src/peering.c.

    A connection is its address in the heap, so that what is freed can be told from what is
    held.  What libjuice, the allocator, the threads and the clock say is in [aenv].  Dashboard
    rows and the frames that leave are returned in the trace; the log, the descriptors, the marks a
    row gets for a guest's grade and for a refused forward, and the test hooks (a punch wedged on
    purpose apart) are left out. *)
From stdpp Require Import gmap.
From S2P Require Import Prelude Net Crypto Keys ClaimLog PathEp Path PathTable ProbePlane CtlPlane PathPlane PathHolds PeerNet Peering Scan CandPolicy Rdv Sig.

Definition HOST_MAX_WORKERS : nat := 16.
Definition PUNCH_PARALLEL_MAX : nat := 3.
Definition ICE_HOLD_MAX : nat := 16.
Definition HOST_REGATHER_MS : Z := 1000.

(** ** [struct conn]: what the turnstile keeps of it *)
Record hconn := mk_hconn {
  hc_pr : peering; hc_id : Z;                                        (* [pr], [pr.id] *)
  hc_resume_q : list Z; hc_resume_pending : Z; hc_resume_last_ms : Z;
  hc_punch_resume : option nat; hc_punch_start_ms : Z; hc_punch_stuck : bool; hc_punch_ufrag : bytes;
  hc_claim_ufrag : bytes; hc_claim_cid : bytes; hc_answer_sdp : bytes; hc_status_peer : bytes; hc_link_told_any : bool
}.
Definition hconn_eta (c : hconn) : hconn :=
  mk_hconn (hc_pr c) (hc_id c) (hc_resume_q c) (hc_resume_pending c) (hc_resume_last_ms c) (hc_punch_resume c) (hc_punch_start_ms c)
    (hc_punch_stuck c) (hc_punch_ufrag c) (hc_claim_ufrag c) (hc_claim_cid c) (hc_answer_sdp c) (hc_status_peer c) (hc_link_told_any c).
#[export] Instance set_hc_pr : Setter hc_pr := ltac:(solve_setter hconn_eta).
#[export] Instance set_hc_id : Setter hc_id := ltac:(solve_setter hconn_eta).
#[export] Instance set_hc_resume_q : Setter hc_resume_q := ltac:(solve_setter hconn_eta).
#[export] Instance set_hc_resume_pending : Setter hc_resume_pending := ltac:(solve_setter hconn_eta).
#[export] Instance set_hc_resume_last_ms : Setter hc_resume_last_ms := ltac:(solve_setter hconn_eta).
#[export] Instance set_hc_punch_resume : Setter hc_punch_resume := ltac:(solve_setter hconn_eta).
#[export] Instance set_hc_punch_start_ms : Setter hc_punch_start_ms := ltac:(solve_setter hconn_eta).
#[export] Instance set_hc_punch_stuck : Setter hc_punch_stuck := ltac:(solve_setter hconn_eta).
#[export] Instance set_hc_punch_ufrag : Setter hc_punch_ufrag := ltac:(solve_setter hconn_eta).
#[export] Instance set_hc_claim_ufrag : Setter hc_claim_ufrag := ltac:(solve_setter hconn_eta).
#[export] Instance set_hc_claim_cid : Setter hc_claim_cid := ltac:(solve_setter hconn_eta).
#[export] Instance set_hc_answer_sdp : Setter hc_answer_sdp := ltac:(solve_setter hconn_eta).
#[export] Instance set_hc_status_peer : Setter hc_status_peer := ltac:(solve_setter hconn_eta).
#[export] Instance set_hc_link_told_any : Setter hc_link_told_any := ltac:(solve_setter hconn_eta).
Definition hc_pwd (c : hconn) : bytes := ice_remote_pwd (pe_ice (hc_pr c)).
Definition hconn_of (pr : peering) : hconn := mk_hconn pr 0 (replicate ICE_HOLD_MAX 0) 0 0 None 0 false [] [] (replicate RDV_CID_LEN 0) [] [] false.
Definition hconn_zero : hconn := hconn_of (peering_init 0 [] 0 false).

(** [struct worker] *)
Record worker := mk_worker { w_c : nat; w_done : bool; w_used : bool; w_released : bool }.
Definition worker_zero : worker := mk_worker 0 false false false.
(** One endpoint of [lan_pending]. *)
Record lan_claim := mk_lan { lc_sa : sockaddr; lc_len : Z; lc_ufrag : bytes }.

(** What the dashboard is told and what leaves. *)
Inductive peer_row := SESSION_PEER_SEEN | SESSION_PEER_LIVE | SESSION_PEER_GONE.
Inductive hev :=
| EvRow (id : Z) (st : peer_row) (addr : bytes)
| EvIdent (id : Z) (id8 : bytes)
| EvFresh (c : nat) (frame : bytes)
| EvRemote (c : nat) (sdp : bytes)
| EvGraft (c t : nat) (ctx : Z).

(** ** [struct sess] on a host, with the turnstile's own variables *)
Record asess := mk_asess {
  (* the configuration *)
  a_family : Z; a_admit_max : Z; a_obs : bool; a_multiuser : bool; a_is_host : bool; a_magic : Z; a_sig_key : bytes;
  (* memory *)
  a_heap : gmap nat hconn; a_shells : list nat;
  (* admission *)
  a_offers : list (option (bytes * bytes)); a_lan_conns : list (option nat); a_lan_pending : list lan_claim; a_conns : list (option nat);
  a_punching : list (option nat); a_last_served : bytes; a_have_served : bool; a_served : claim_served; a_admitted : Z; a_sig : sig_t;
  (* [host_turnstile]'s *)
  a_ws : list worker; a_listen : option nat; a_waiting : bool; (* TS_WAIT_CLAIM *) a_count : Z; (* served *) a_dash : Z; a_stuck_left : Z;
  a_next_gather_ms : Z;
  (* the one connection of a session that is not multi-user *)
  a_c : peering; a_served_cid : bytes; a_peer_cid : bytes; a_peer_sdp : bytes; a_have_peer : bool; a_remote_set : bool; a_restart : bool;
  a_trace : list hev
}.
Definition asess_eta (s : asess) : asess :=
  mk_asess (a_family s) (a_admit_max s) (a_obs s) (a_multiuser s) (a_is_host s) (a_magic s) (a_sig_key s) (a_heap s) (a_shells s) (a_offers s)
    (a_lan_conns s) (a_lan_pending s) (a_conns s) (a_punching s) (a_last_served s) (a_have_served s) (a_served s) (a_admitted s) (a_sig s)
    (a_ws s) (a_listen s) (a_waiting s) (a_count s) (a_dash s) (a_stuck_left s) (a_next_gather_ms s) (a_c s) (a_served_cid s) (a_peer_cid s)
    (a_peer_sdp s) (a_have_peer s) (a_remote_set s) (a_restart s) (a_trace s).
#[export] Instance set_a_heap : Setter a_heap := ltac:(solve_setter asess_eta).
#[export] Instance set_a_shells : Setter a_shells := ltac:(solve_setter asess_eta).
#[export] Instance set_a_offers : Setter a_offers := ltac:(solve_setter asess_eta).
#[export] Instance set_a_lan_conns : Setter a_lan_conns := ltac:(solve_setter asess_eta).
#[export] Instance set_a_lan_pending : Setter a_lan_pending := ltac:(solve_setter asess_eta).
#[export] Instance set_a_conns : Setter a_conns := ltac:(solve_setter asess_eta).
#[export] Instance set_a_punching : Setter a_punching := ltac:(solve_setter asess_eta).
#[export] Instance set_a_last_served : Setter a_last_served := ltac:(solve_setter asess_eta).
#[export] Instance set_a_have_served : Setter a_have_served := ltac:(solve_setter asess_eta).
#[export] Instance set_a_served : Setter a_served := ltac:(solve_setter asess_eta).
#[export] Instance set_a_admitted : Setter a_admitted := ltac:(solve_setter asess_eta).
#[export] Instance set_a_sig : Setter a_sig := ltac:(solve_setter asess_eta).
#[export] Instance set_a_ws : Setter a_ws := ltac:(solve_setter asess_eta).
#[export] Instance set_a_listen : Setter a_listen := ltac:(solve_setter asess_eta).
#[export] Instance set_a_waiting : Setter a_waiting := ltac:(solve_setter asess_eta).
#[export] Instance set_a_count : Setter a_count := ltac:(solve_setter asess_eta).
#[export] Instance set_a_dash : Setter a_dash := ltac:(solve_setter asess_eta).
#[export] Instance set_a_stuck_left : Setter a_stuck_left := ltac:(solve_setter asess_eta).
#[export] Instance set_a_next_gather_ms : Setter a_next_gather_ms := ltac:(solve_setter asess_eta).
#[export] Instance set_a_c : Setter a_c := ltac:(solve_setter asess_eta).
#[export] Instance set_a_peer_cid : Setter a_peer_cid := ltac:(solve_setter asess_eta).
#[export] Instance set_a_peer_sdp : Setter a_peer_sdp := ltac:(solve_setter asess_eta).
#[export] Instance set_a_have_peer : Setter a_have_peer := ltac:(solve_setter asess_eta).
#[export] Instance set_a_remote_set : Setter a_remote_set := ltac:(solve_setter asess_eta).
#[export] Instance set_a_restart : Setter a_restart := ltac:(solve_setter asess_eta).
#[export] Instance set_a_trace : Setter a_trace := ltac:(solve_setter asess_eta).

(** What the rest of the machine says while one operation runs. *)
Record aenv := mk_aenv {
  x_at : Z;                                   (* [now_ms()] *)
  x_addr : nat -> option nat;                 (* what [calloc] gives the n-th time *)
  x_seq0 : Z; x_rb4 : bytes; x_rb16 : bytes;  (* the random draws of a new connection *)
  x_nonce : Z; x_seal : option bytes;         (* and of a frame *)
  x_connected : nat -> bool;                  (* [nat_connected], [nat_failed] of a connection's agent *)
  x_failed : nat -> bool;
  x_selected : nat -> bytes;                  (* the remote address of its pair, as [cand_addr] prints it; empty for none *)
  x_in_use : nat -> bytes;                    (* [status.peer], the remote the worker publishes *)
  x_takes : bool;                             (* [nat_set_remote_description] took it *)
  x_threads : nat -> bool;                    (* a thread could be started for it *)
  x_pk : pathplane_sinks;                     (* its [is_self] is [sess_ep_is_self] *)
  x_srflx4 : bool;                            (* [net.have_srflx4] *)
  x_local : bytes;                            (* [local_sdp(s)] *)
  x_iid : option bytes                        (* [sig_instance_id()] *)
}.

(** ** The heap and the tables *)
Definition conn_at (s : asess) (c : nat) : hconn := default hconn_zero (a_heap s !! c).
Definition on_conn (s : asess) (c : nat) (f : hconn -> hconn) : asess := s <| a_heap := alter f c (a_heap s) |>.
Definition say (s : asess) (e : hev) : asess := s <| a_trace := a_trace s ++ [e] |>.
Definition on_rh (s : asess) (f : rdv_host -> rdv_host) : asess := s <| a_sig := (a_sig s) <| g_rh := option_map f (g_rh (a_sig s)) |> |>.
(** The slot of a table, NULL out of range. *)
Definition at_slot (l : list (option nat)) (i : nat) : option nat := default None (l !! i).
Fixpoint first_index {A} (f : A -> bool) (l : list A) (i : nat) : option nat :=
  match l with [] => None | a :: l => if f a then Some i else first_index f l (S i) end.
Definition is_null (p : option nat) : bool := match p with None => true | Some _ => false end.
Definition free_slot (l : list (option nat)) : option nat := first_index is_null l 0.
Definition held (s : asess) (f : hconn -> bool) (p : option nat) : bool := match p with Some c => f (conn_at s c) | None => false end.
Definition worker_at (s : asess) (i : nat) : worker := nth i (a_ws s) worker_zero.

Definition cid_set (cid : bytes) : bool := negb (bytes_eqb cid (replicate RDV_CID_LEN 0)).
Definition conn_is_proven (c : hconn) : bool := lv_pong_seen (ctlplane_liveness (pe_cp (hc_pr c))).
Definition conn_is_lost (c : hconn) : bool := ctlplane_lost (pe_cp (hc_pr c)).
Definition sdp_pwd (sdp : bytes) : bytes :=
  match find_off (cstr "ice-pwd:") sdp with
  | None => []
  | Some k => match scan_s 39 (drop (k + 8) sdp) with Some (w, _) => w | None => [] end
  end.
Definition sdp_ufrag (sdp : bytes) : bytes := cand_sdp_ufrag (Some sdp) 40.
Definition sdp_filter (sdp : bytes) (family : Z) (outlen : nat) : bytes := cand_sdp_filter sdp family cand_policy_default outlen.
Definition sdp_filter_peer (sdp : bytes) (family : Z) (outlen : nat) : bytes := sdp_filter sdp family outlen.

Definition conn_register (s : asess) (c : nat) : asess :=
  match free_slot (a_conns s) with Some i => s <| a_conns := <[i := Some c]> (a_conns s) |> | None => s end.
Definition conn_unregister (s : asess) (c : nat) : asess :=
  s <| a_conns := map (fun p => if bool_decide (p = Some c) then None else p) (a_conns s) |>.
Definition conn_alloc (s : asess) (x : aenv) (n : nat) : option (asess * nat) :=
  match x_addr x n with
  | None => None
  | Some c =>
      if bool_decide (is_Some (a_heap s !! c)) then None
      else
        let pr := peering_ice_ident (peering_init (a_magic s) (a_sig_key s) (x_seq0 x) (negb (a_is_host s))) (x_rb4 x) (x_rb16 x) in
        let pr := peering_ice_unprime (pr <| pe_pl := pathplane_reset_stats (pe_pl pr) (x_at x) |>) in
        Some (s <| a_heap := <[c := hconn_of pr]> (a_heap s) |>, c)
  end.
(** What it holds is given back: the carriers set aside, its own, and the ones grafted and never
    adopted, each through [conn_agent_free].  The connection itself stays, for a callback that may
    still be inside it. *)
Definition carriers_gone (pr : peering) (x : aenv) : peering :=
  (peering_ice_stop (pr <| pe_pl := (pathplane_holds_free_all (pe_pl pr) (x_pk x)).1 |>) (x_pk x)).1.
Definition conn_dissolve (s : asess) (x : aenv) (c : nat) : asess :=
  on_conn (conn_unregister s c) c (fun h => h <| hc_pr := carriers_gone (hc_pr h) x |> <| hc_resume_q := replicate ICE_HOLD_MAX 0 |>).
Definition conn_release (s : asess) (c : nat) : asess := s <| a_heap := delete c (a_heap s) |>.
Definition conn_free (s : asess) (x : aenv) (c : option nat) : asess := match c with None => s | Some c => conn_release (conn_dissolve s x c) c end.

(** ** Where an endpoint belongs *)
Definition lanlink_map_peer (sa : sockaddr) (len : Z) : option sockaddr :=
  match sa with
  | AF_INET6 _ _ _ => if len <? sizeof_sockaddr_in6 then None else Some sa
  | AF_INET port addr => if len <? sizeof_sockaddr_in then None else Some (AF_INET6 port (v4_prefix ++ addr) 0)
  | AF_OTHER => None
  end.
Definition sin6_port_of (sa : sockaddr) : Z := match sa with AF_INET6 p _ _ => p | AF_INET p _ => p | AF_OTHER => 0 end.
Definition lan_peer_same (a b : sockaddr) : bool := sin6_port_of a =? sin6_port_of b.
Definition conn_holds_ep (c : hconn) (ep : path_ep) (exact : bool) : bool := pathplane_holds_ep (pe_pl (hc_pr c)) ep exact.
Definition ep_owner (s : asess) (tab : list (option nat)) (ep : path_ep) (by_port : bool) : option nat :=
  let look exact := match first_index (held s (fun c => conn_holds_ep c ep exact)) tab 0 with Some i => at_slot tab i | None => None end in
  match look true with Some c => Some c | None => if by_port then look false else None end.
Definition lan_owner (s : asess) (ep : path_ep) : option nat := ep_owner s (a_lan_conns s) ep true.
Definition lan_conn_active (s : asess) (peer : sockaddr) : bool :=
  match path_ep_from_sockaddr peer sizeof_sockaddr_in6 with None => false | Some ep => negb (is_null (lan_owner s ep)) end.

(** ** Who is already in hand *)
Definition ufrag_is (u : bytes) (c : hconn) : bool := bytes_eqb (hc_punch_ufrag c) u.
Definition lan_pending_ufrag (s : asess) (ufrag : bytes) : bool := existsb (fun l => bytes_eqb (lc_ufrag l) ufrag) (a_lan_pending s).
Definition lan_ufrag_claimed (s : asess) (ufrag : bytes) : bool :=
  if bytes_eqb ufrag [] then false
  else match first_index (held s (fun c => bytes_eqb (hc_claim_ufrag c) ufrag)) (a_lan_conns s) 0 with
       | Some i => held s (fun c => conn_is_proven c && negb (conn_is_lost c)) (at_slot (a_lan_conns s) i)
       | None => lan_pending_ufrag s ufrag
       end.
Definition punch_by_ufrag (s : asess) (ufrag : bytes) : option nat :=
  if bytes_eqb ufrag [] then None
  else match first_index (held s (ufrag_is ufrag)) (a_punching s) 0 with Some i => at_slot (a_punching s) i | None => None end.
Definition ufrag_admitted (s : asess) (ufrag : bytes) : bool :=
  negb (bytes_eqb ufrag []) && existsb (held s (ufrag_is ufrag)) (a_punching s).
Definition worker_serves (s : asess) (ufrag : bytes) (w : worker) : bool :=
  w_used w && negb (w_done w) && bytes_eqb (hc_claim_ufrag (conn_at s (w_c w))) ufrag.
Definition worker_by_ufrag (s : asess) (ufrag : bytes) : option nat :=
  if bytes_eqb ufrag [] then None else option_map (fun i => w_c (worker_at s i)) (first_index (worker_serves s ufrag) (a_ws s) 0).
Definition punch_tried_again (s : asess) (ufrag pwd : bytes) : bool :=
  if bytes_eqb ufrag [] || bytes_eqb pwd [] then false
  else match first_index (held s (ufrag_is ufrag)) (a_punching s) 0 with
       | Some i => held s (fun c => negb (bytes_eqb (hc_pwd c) pwd)) (at_slot (a_punching s) i)
       | None => false
       end.
Definition punch_dup (s : asess) (ufrag pwd : bytes) : bool :=
  existsb (held s (fun c => ufrag_is ufrag c && bytes_eqb (hc_pwd c) pwd)) (a_punching s).
Definition punch_count (s : asess) (ufrag : bytes) : nat := length (List.filter (held s (ufrag_is ufrag)) (a_punching s)).
Definition offer_queued_ufrag (s : asess) (ufrag : bytes) : bool :=
  existsb (fun o => match o with Some (_, sdp) => bytes_eqb (sdp_ufrag sdp) ufrag | None => false end) (a_offers s).

(** ** What arrives *)
Definition offers_drop_ufrag (s : asess) (ufrag : bytes) : asess :=
  s <| a_offers := map (fun o => match o with Some (_, sdp) => if bytes_eqb (sdp_ufrag sdp) ufrag then None else o | None => None end) (a_offers s) |>.
Definition offers_push (s : asess) (cid sdp : bytes) : asess :=
  let mine o := match o with Some (c, _) => bytes_eqb c cid | None => false end in
  let free o := match o with None => true | Some _ => false end in
  match (match first_index mine (a_offers s) 0 with Some i => Some i | None => first_index free (a_offers s) 0 end) with
  | None => s
  | Some i => s <| a_offers := <[i := Some (cid, snprintf NAT_SDP_MAX sdp)]> (a_offers s) |>
  end.
(** [data] is without a NUL, as a sealed description is. *)
Definition on_direct_claim (s : asess) (src : sockaddr) (srclen : Z) (sdp : bytes) : asess :=
  if (NAT_SDP_MAX <=? length sdp)%nat then s
  else
    let ufrag := sdp_ufrag sdp in
    match lanlink_map_peer src srclen with
    | None => s
    | Some mapped =>
        if ufrag_admitted s ufrag || (a_have_served s && bytes_eqb ufrag (a_last_served s)) then s
        else if lan_conn_active s mapped then s
        else if lan_ufrag_claimed s ufrag then s
        else
          let s := offers_drop_ufrag s ufrag in
          if existsb (fun q => match lanlink_map_peer (lc_sa q) (lc_len q) with Some m => lan_peer_same m mapped | None => false end) (a_lan_pending s)
          then s
          else if (HOST_MAX_WORKERS <=? length (a_lan_pending s))%nat then s
          else s <| a_lan_pending := a_lan_pending s ++ [mk_lan src srclen (snprintf 40 ufrag)] |>
    end.
Definition peering_offer_judge (pr : peering) (data : bytes) (cap uflen : nat) : bool * bytes * bytes :=
  let out := take (cap - 1) data in
  let ufrag := cand_sdp_ufrag (Some out) uflen in
  (negb (peering_ice_rotated pr ufrag), out, ufrag).
Definition conn_amend_remote (s : asess) (x : aenv) (c : nat) (sdp : bytes) : asess :=
  if bytes_eqb sdp [] then s
  else if peering_ice_amend (hc_pr (conn_at s c)) (x_connected x c)
  then say s (EvRemote c (sdp_filter_peer sdp (a_family s) NAT_SDP_MAX)) else s.
(** The one connection of a session that is not multi-user is [a_c], and [0] in the trace. *)
Definition on_peer_offer (s : asess) (x : aenv) (cid data : bytes) : asess :=
  if (NAT_SDP_MAX <=? length data)%nat then s
  else if a_multiuser s then offers_push s cid data
  else
    let '(take, incoming, _) := peering_offer_judge (a_c s) data NAT_SDP_MAX 40 in
    let fresh := negb take && negb (a_is_host s) && negb (cid_set (a_served_cid s) && negb (bytes_eqb cid (a_served_cid s))) in
    let s := if fresh then s <| a_restart := true |> else s in
    if negb (take || fresh) then s
    else
      let s := s <| a_peer_cid := cid |> <| a_peer_sdp := snprintf NAT_SDP_MAX incoming |> <| a_have_peer := true |> in
      if a_remote_set s && negb (bytes_eqb incoming []) && peering_ice_amend (a_c s) (x_connected x 0%nat)
      then say s (EvRemote 0 (sdp_filter_peer incoming (a_family s) NAT_SDP_MAX)) else s.

(** ** Workers *)
Section Turnstile.
Context {C : Crypto}.
(** A claimant is told that what serves it is new to it. *)
Definition conn_tell_fresh (s : asess) (x : aenv) (c : nat) (lan_to : option sockaddr) : asess :=
  let h := conn_at s c in
  if bytes_eqb (hc_claim_ufrag h) [] then s
  else
    let pr := mk_probe PROBE_FRESH (x_nonce x) 0 (snprintf 40 (hc_claim_ufrag h)) true ep_zero 0 0 0 in
    let '(pp, out) := probeplane_seal (pe_pp (hc_pr h)) (x_seal x) pr (Some (hc_claim_ufrag h)) PROBE_MAX in
    let s := on_conn s c (fun h => h <| hc_pr := (hc_pr h) <| pe_pp := pp |> |>) in
    match out with
    | None => s
    | Some frame => if truth (ice_agent (pe_ice (hc_pr h))) || bool_decide (is_Some lan_to) then say s (EvFresh c frame) else s
    end.
Definition emit_peer_ident (s : asess) (c : nat) : asess :=
  let h := conn_at s c in
  if negb (a_obs s) || bytes_eqb (hc_claim_ufrag h) [] then s else say s (EvIdent (hc_id h) (take 8 (hc_claim_ufrag h))).
(** Its row is opened. *)
Definition open_row (s : asess) (c : nat) (addr : bytes) : asess :=
  let id := hc_id (conn_at s c) in
  on_conn (emit_peer_ident (say (say s (EvRow id SESSION_PEER_SEEN addr)) (EvRow id SESSION_PEER_LIVE addr)) c) c (fun h => h <| hc_link_told_any := false |>).
Definition worker_spawn (s : asess) (x : aenv) (c : nat) : asess * bool :=
  match first_index (fun w => negb (w_used w)) (a_ws s) 0 with
  | None => (s, false)
  | Some i => let ok := x_threads x c in (s <| a_ws := <[i := mk_worker c false ok false]> (a_ws s) |>, ok)
  end.
Definition budget_spent (s : asess) : bool := truth (a_admit_max s) && (a_admit_max s <=? a_admitted s).
Definition give_back (s : asess) : asess := if 0 <? a_admitted s then s <| a_admitted := a_admitted s - 1 |> else s.

(** ** Claims over the segment *)
(** One endpoint admitted into slot [slot]. *)
Definition lan_admit (s : asess) (x : aenv) (c slot : nat) (mapped : sockaddr) (ufrag addr : bytes) : asess :=
  let s := on_conn s c (fun h => h <| hc_claim_ufrag := snprintf 40 ufrag |>) in
  let u := snprintf 40 ufrag in
  let s := if bytes_eqb u [] then s else s <| a_last_served := snprintf 40 u |> <| a_have_served := true |> in
  let s := s <| a_admitted := a_admitted s + 1 |> <| a_dash := a_dash s + 1 |> in
  let s := on_conn s c (fun h => h <| hc_id := a_dash s |> <| hc_status_peer := snprintf 80 addr |>) in
  let s := s <| a_lan_conns := <[slot := Some c]> (a_lan_conns s) |> in
  let s := conn_register (conn_tell_fresh s x c (Some mapped)) c in
  let s := if a_obs s then open_row s c addr else s in
  let '(s, ok) := worker_spawn s x c in
  if ok then s
  else
    let s := if a_obs s then say s (EvRow (hc_id (conn_at s c)) SESSION_PEER_GONE addr) else s in
    conn_free (s <| a_lan_conns := <[slot := None]> (a_lan_conns s) |>) x (Some c).
Fixpoint lan_loop (s : asess) (x : aenv) (n : nat) (q : list lan_claim) : asess :=
  match q with
  | [] => s
  | l :: q =>
      match lanlink_map_peer (lc_sa l) (lc_len l) with
      | None => lan_loop s x (S n) q
      | Some mapped =>
          if lan_conn_active s mapped || match path_ep_from_sockaddr mapped sizeof_sockaddr_in6 with Some ep => is_self (x_pk x) ep | None => false end
             || budget_spent s
          then lan_loop s x (S n) q
          else
            match free_slot (a_lan_conns s) with
            | None => s
            | Some slot =>
                match conn_alloc s x n with
                | None => s
                | Some (s, c) =>
                    let '(pr, label) := peering_add_path (hc_pr (conn_at s c)) (x_pk x) PATH_SEGMENT mapped PATH_LABEL_MAX (x_at x) in
                    let s := on_conn s c (fun h => h <| hc_pr := pr |>) in
                    match label with
                    | None => conn_free s x (Some c)
                    | Some addr => lan_loop (lan_admit s x c slot mapped (lc_ufrag l) addr) x (S n) q
                    end
                end
            end
      end
  end.
Definition lan_drain (s : asess) (x : aenv) : asess := (lan_loop s x 0 (a_lan_pending s)) <| a_lan_pending := [] |>.

(** ** Punches *)
Definition resume_q_publish (s : asess) (t : nat) (ctx : Z) : asess :=
  match first_index (fun q => q =? 0) (hc_resume_q (conn_at s t)) 0 with
  | Some i => on_conn s t (fun h => h <| hc_resume_q := <[i := ctx]> (hc_resume_q h) |>)
  | None => s
  end.
Definition punch_at (s : asess) (i : nat) : option nat := at_slot (a_punching s) i.
Definition punch_clear (s : asess) (i : nat) : asess := s <| a_punching := <[i := None]> (a_punching s) |>.
Definition one_less (s : asess) (t : nat) : asess := on_conn s t (fun h => h <| hc_resume_pending := hc_resume_pending h - 1 |>).
(** A punch is over: its hold on the worker it resumed ends, or its admission goes back. *)
Definition punch_uncount (s : asess) (c : nat) : asess :=
  match hc_punch_resume (conn_at s c) with Some t => one_less s t | None => give_back s end.
(** A connected punch joins the worker that serves its claimant: its agent is lent, and its shell dissolved. *)
Definition punch_lent (s : asess) (i c t : nat) : asess :=
  let ctx := ice_ctx (pe_ice (hc_pr (conn_at s c))) in
  let pwd := hc_pwd (conn_at s c) in
  let s := if truth ctx then resume_q_publish (say (s <| a_shells := c :: a_shells s |>) (EvGraft c t ctx)) t ctx else s in
  let s := on_conn s c (fun h => h <| hc_pr := (hc_pr h) <| pe_ice := (pe_ice (hc_pr h)) <| ice_agent := 0 |> <| ice_ctx := 0 |> |> |>) in
  let s := on_conn s t (fun h => h <| hc_pr := (hc_pr h) <| pe_ice := (pe_ice (hc_pr h)) <| ice_remote_pwd := snprintf 40 pwd |> |> |>) in
  punch_clear (punch_uncount s c) i.
Definition punch_graft (s : asess) (x : aenv) (i c t : nat) : asess := conn_dissolve (punch_lent s i c t) x c.
(** Or becomes a worker of its own. *)
Definition punch_serve (s : asess) (x : aenv) (i c : nat) : asess :=
  let addr := x_selected x c in
  let s := if a_obs s
           then let s := s <| a_dash := a_dash s + 1 |> in
                open_row (on_conn s c (fun h => h <| hc_id := a_dash s |> <| hc_status_peer := snprintf 80 addr |>)) c addr
           else s in
  let s := punch_clear s i in
  let u := hc_punch_ufrag (conn_at s c) in
  let pwd := hc_pwd (conn_at s c) in
  let s := if claim_served_has (a_served s) (Some u) then conn_tell_fresh s x c None else s in
  let s := conn_register (s <| a_served := claim_served_note (a_served s) (Some u) (Some pwd) |>) c in
  let '(s, ok) := worker_spawn s x c in
  if ok then s else conn_free s x (Some c).
Definition punch_scan_one (x : aenv) (s : asess) (i : nat) : asess :=
  match punch_at s i with
  | None => s
  | Some c =>
      let h := conn_at s c in
      if negb (hc_punch_stuck h) && x_connected x c then
        let s := s <| a_last_served := take 39 (hc_punch_ufrag h) |> <| a_have_served := true |> in
        match (match hc_punch_resume h with Some t => Some t | None => worker_by_ufrag s (hc_punch_ufrag h) end) with
        | Some t => punch_graft s x i c t
        | None => punch_serve s x i c
        end
      else if negb (hc_punch_stuck h) && x_failed x c then conn_free (punch_clear (punch_uncount s c) i) x (Some c)
      else s
  end.
Definition punch_scan (s : asess) (x : aenv) : asess := fold_left (punch_scan_one x) (seq 0 HOST_MAX_WORKERS) s.
Definition punch_release (s : asess) (x : aenv) (i : nat) : asess :=
  match punch_at s i with
  | None => s
  | Some c =>
      let cid := hc_claim_cid (conn_at s c) in
      let s := punch_uncount s c in
      let s := if cid_set cid then on_rh s (fun h => rdv_host_release h cid) else s in
      conn_free (punch_clear s i) x (Some c)
  end.
(** The longest-running punch that satisfies [f]. *)
Fixpoint oldest (s : asess) (f : hconn -> bool) (l : list (option nat)) (i : nat) (best : option (nat * Z)) : option nat :=
  match l with
  | [] => option_map fst best
  | p :: l =>
      let better := match p with
                    | Some c => f (conn_at s c) && match best with None => true | Some (_, b) => hc_punch_start_ms (conn_at s c) <? b end
                    | None => false
                    end in
      oldest s f l (S i) (if better then match p with Some c => Some (i, hc_punch_start_ms (conn_at s c)) | None => best end else best)
  end.
Definition oldest_punch (s : asess) (f : hconn -> bool) : option nat := oldest s f (a_punching s) 0 None.
Definition punch_reap_oldest (s : asess) (x : aenv) (ufrag : bytes) : asess :=
  match oldest_punch s (ufrag_is ufrag) with Some i => punch_release s x i | None => s end.
(** A free slot, and how much is in flight. *)
Definition punch_slot_find (s : asess) : option nat * nat :=
  (free_slot (a_punching s), length (List.filter w_used (a_ws s)) + length (List.filter (fun p => negb (is_null p)) (a_punching s)))%nat.
Definition punch_evict_idle (s : asess) (x : aenv) : asess * bool :=
  match oldest_punch s (fun c => negb (bool_decide (is_Some (hc_punch_resume c))) && negb (offer_queued_ufrag s (hc_punch_ufrag c))) with
  | Some i => (punch_release s x i, true)
  | None => (s, false)
  end.
Definition punch_reap_stale (s : asess) (x : aenv) (ufrag pwd : bytes) : asess :=
  fold_left (fun s i => if held s (fun c => ufrag_is ufrag c && negb (bytes_eqb (hc_pwd c) pwd)) (punch_at s i) then punch_release s x i else s)
    (seq 0 HOST_MAX_WORKERS) s.
Definition unreachable (x : aenv) (s : asess) (c : nat) : bool :=
  let h := conn_at s c in
  negb (bytes_eqb (hc_answer_sdp h) []) && negb (cand_sdp_reaches_v4 (hc_answer_sdp h)) &&
  negb (truth (ice_agent (pe_ice (hc_pr h))) && x_connected x c).
Definition punch_drop_unreachable (s : asess) (x : aenv) : asess :=
  if negb (x_srflx4 x) then s
  else fold_left (fun s i => match punch_at s i with Some c => if unreachable x s c then punch_release s x i else s | None => s end)
         (seq 0 HOST_MAX_WORKERS) s.
Definition punch_amend_repost (s : asess) (x : aenv) (ufrag pwd sdp : bytes) : asess :=
  match punch_by_ufrag s ufrag with
  | Some c => if bytes_eqb (hc_pwd (conn_at s c)) pwd then conn_amend_remote s x c sdp else s
  | None => s
  end.
(** [filtered] is what the agent is given. *)
Definition punch_take (s : asess) (x : aenv) (pc : nat) (resume : option nat) (pslot : nat) (cid cu cp filtered : bytes) (stuck : bool) : asess * bool :=
  let s := say s (EvRemote pc filtered) in
  let '(pr, ok) := peering_ice_prime (hc_pr (conn_at s pc)) (x_takes x) cu (Some cp) in
  if negb ok then (s, false)
  else
    let s := on_conn s pc (fun h => h <| hc_pr := pr |> <| hc_claim_cid := cid |>) in
    let s := match resume with
             | Some t => on_conn s t (fun h => h <| hc_resume_pending := hc_resume_pending h + 1 |> <| hc_resume_last_ms := x_at x |>)
             | None => if ufrag_admitted s cu then s else s <| a_admitted := a_admitted s + 1 |>
             end in
    let s := s <| a_punching := <[pslot := Some pc]> (a_punching s) |> in
    (on_conn s pc (fun h => h <| hc_punch_resume := resume |> <| hc_claim_ufrag := snprintf 40 cu |> <| hc_punch_start_ms := x_at x |>
                              <| hc_punch_stuck := stuck |> <| hc_punch_ufrag := snprintf 40 cu |>), true).

(** ** The asks in the queue *)
Definition offer_done (s : asess) (i : nat) : asess := s <| a_offers := <[i := None]> (a_offers s) |>.
(** What is already in hand for this ask. *)
Definition in_hand (s : asess) (w : option nat) (made : bool) (cu cp : bytes) : bool :=
  lan_ufrag_claimed s cu || lan_pending_ufrag s cu || punch_dup s cu cp ||
  match w with Some c => negb (conn_is_lost (conn_at s c)) && (conn_is_proven (conn_at s c) || made) | None => false end.
(** Room for one more punch, somebody idle given up for it where there is none. *)
Definition make_room (s : asess) (x : aenv) : asess * option nat :=
  let full r := is_null r.1 || (HOST_MAX_WORKERS <=? r.2)%nat in
  let r := punch_slot_find s in
  let '(s, r) := if full r then let '(s, ev) := punch_evict_idle s x in if ev then (s, punch_slot_find s) else (s, r) else (s, r) in
  (s, if full r then None else r.1).
(** The ready agent is spent on it and it is answered. *)
Definition offer_punch (s : asess) (x : aenv) (l idx pslot : nat) (resume : option nat) (cid sdp cu cp : bytes) : asess :=
  let s := if (PUNCH_PARALLEL_MAX <=? punch_count s cu)%nat then punch_reap_oldest s x cu else s in
  let '(s, ok) := punch_take s x l resume pslot cid cu cp (sdp_filter_peer sdp (a_family s) NAT_SDP_MAX) (0 <? a_stuck_left s) in
  if negb ok then offer_done (conn_free s x (Some l)) idx
  else
    let s := if 0 <? a_stuck_left s then s <| a_stuck_left := a_stuck_left s - 1 |> else s in
    let s := on_conn s l (fun h => h <| hc_answer_sdp := snprintf NAT_SDP_MAX (x_local x) |>) in
    offer_done (s <| a_sig := (sig_answer (a_sig s) cid (x_local x) (x_iid x)).1 |>) idx.
Definition host_offer_take (s : asess) (x : aenv) (listen : option nat) (idx : nat) : asess * bool :=
  match default None (a_offers s !! idx) with
  | None => (s, false)
  | Some (cid, sdp) =>
      let cu := sdp_ufrag sdp in
      let cp := sdp_pwd sdp in
      if bytes_eqb cu [] then (offer_done s idx, false)
      else
        let w := worker_by_ufrag s cu in
        let adm := ufrag_admitted s cu in
        let again := punch_tried_again s cu cp in
        let made := match w with Some c => claim_made (Some (hc_pwd (conn_at s c))) (Some cp) | None => false end
                    || claim_served_made (a_served s) (Some cu) (Some cp) in
        let s := punch_amend_repost s x cu cp sdp in
        if in_hand s w made cu cp then (offer_done (on_rh s (fun h => rdv_host_keep h cid)) idx, false)
        else if is_null w && negb adm && budget_spent s then (offer_done (s <| a_sig := sig_refuse (a_sig s) cid |>) idx, false)
        else
          match listen with
          | None => (s, false)
          | Some l =>
              let s := if again then punch_reap_stale s x cu cp else s in
              match make_room s x with
              | (s, None) => (s, false)
              | (s, Some pslot) => (offer_punch s x l idx pslot w cid sdp cu cp, true)
              end
          end
  end.
Fixpoint offers_loop (s : asess) (x : aenv) (listen : option nat) (l : list nat) : asess * bool :=
  match l with
  | [] => (s, false)
  | i :: l => let '(s, spent) := host_offer_take s x listen i in if spent then (s, true) else offers_loop s x listen l
  end.
Definition host_offers_drain (s : asess) (x : aenv) (listen : option nat) : asess * bool := offers_loop s x listen (seq 0 RDV_HOST_MAX).

(** ** The turns of [host_turnstile] *)
(** The ready agent is given up. *)
Definition drop_listener (s : asess) (x : aenv) : asess := (conn_free s x (a_listen s)) <| a_listen := None |> <| a_waiting := false |>.
Definition swap_sig (s : asess) (fresh : sig_t) : asess :=
  s <| a_sig := match g_rh (a_sig s) with Some h => sig_rdv_host fresh h | None => fresh end |>.
(** The network moved: [fresh] is the signaller armed on the new one. *)
Definition turn_moved (s : asess) (x : aenv) (fresh : sig_t) : asess :=
  let s := drop_listener s x in
  swap_sig (fold_left (fun s i => punch_release s x i) (seq 0 HOST_MAX_WORKERS) s) fresh.
(** The rendezvous went quiet. *)
Definition turn_quiet (s : asess) (x : aenv) (fresh : sig_t) : asess := swap_sig (drop_listener s x) fresh.
Definition forget_worker (c : nat) (p : option nat) : option nat := if bool_decide (p = Some c) then None else p.
(** The punches that were to resume it go on without it; the first under its name loses the name. *)
Definition orphan (s : asess) (c : nat) : asess :=
  let drop s p := match p with
                  | Some q => on_conn s q (fun h => if bool_decide (hc_punch_resume h = Some c) then h <| hc_punch_resume := None |> else h)
                  | None => s
                  end in
  fold_left drop (a_punching s) s.
Definition unname (s : asess) (ufrag : bytes) : asess :=
  if bytes_eqb ufrag [] then s
  else match first_index (held s (ufrag_is ufrag)) (a_punching s) 0 with
       | Some i => match at_slot (a_punching s) i with Some q => on_conn s q (fun h => h <| hc_punch_ufrag := [] |>) | None => s end
       | None => s
       end.
(** A worker whose thread has returned is taken down. *)
Definition worker_reap (s : asess) (x : aenv) (i : nat) : asess :=
  let c := w_c (worker_at s i) in
  let h := conn_at s c in
  let s := if a_obs s then say s (EvRow (hc_id h) SESSION_PEER_GONE (hc_status_peer h)) else s in
  let s := s <| a_lan_conns := map (forget_worker c) (a_lan_conns s) |> in
  let s := unname (orphan s c) (hc_claim_ufrag h) in
  let s := s <| a_sig := sig_claimant_gone (a_sig s) (hc_claim_cid h) |> in
  let s := if negb (bytes_eqb (hc_claim_ufrag h) []) && a_have_served s && bytes_eqb (a_last_served s) (hc_claim_ufrag h)
           then s <| a_last_served := [] |> <| a_have_served := false |> else s in
  let s := if conn_is_proven h then s <| a_count := a_count s + 1 |> else give_back s in
  let s := conn_free s x (Some c) in
  s <| a_ws := <[i := mk_worker c (w_done (worker_at s i)) false (w_released (worker_at s i))]> (a_ws s) |>.
(** A claimant heard from has read its answer, so the turn is handed back. *)
Definition worker_heard (s : asess) (i : nat) : asess :=
  let w := worker_at s i in
  let h := conn_at s (w_c w) in
  if negb (w_released w) && conn_is_proven h && cid_set (hc_claim_cid h)
  then on_rh (s <| a_ws := <[i := mk_worker (w_c w) (w_done w) (w_used w) true]> (a_ws s) |>) (fun r => rdv_host_release r (hc_claim_cid h))
  else s.
(** Its row follows the pair in use. *)
Definition worker_shown (s : asess) (x : aenv) (i : nat) : asess :=
  let c := w_c (worker_at s i) in
  let cur := snprintf 80 (x_in_use x c) in
  if a_obs s && negb (bytes_eqb cur []) && negb (bytes_eqb cur (hc_status_peer (conn_at s c)))
  then say (on_conn s c (fun h => h <| hc_status_peer := cur |>)) (EvRow (hc_id (conn_at s c)) SESSION_PEER_LIVE cur) else s.
Definition worker_turn (x : aenv) (s : asess) (i : nat) : asess :=
  let s := if w_used (worker_at s i) && w_done (worker_at s i) then worker_reap s x i else s in
  if w_used (worker_at s i) then worker_shown (worker_heard s i) x i else s.
Definition workers_turn (s : asess) (x : aenv) : asess := fold_left (worker_turn x) (seq 0 HOST_MAX_WORKERS) s.
(** The asks, with the agent that is ready for one. *)
Definition offers_turn (s : asess) (x : aenv) : asess :=
  let '(s, spent) := host_offers_drain s x (if a_waiting s then a_listen s else None) in
  if spent then s <| a_listen := None |> <| a_waiting := false |> else s.
(** The agent [nat_setup] makes, with its context; 0 for NULL, none where gathering fails. *)
Definition gather_start (s : asess) (x : aenv) (agent : option (Z * Z)) : asess :=
  if a_waiting s || negb (is_null (a_listen s)) || (x_at x <? a_next_gather_ms s) then s
  else
    match conn_alloc s x 0 with
    | None => s
    | Some (s, l) =>
        let s := s <| a_have_peer := false |> <| a_remote_set := false |> <| a_restart := false |> <| a_peer_sdp := [] |> in
        match agent with
        | None => conn_free s x (Some l)
        | Some (ag, ctx) =>
            if negb (truth ag && truth ctx) then conn_free s x (Some l)
            else (on_conn s l (fun h => h <| hc_pr := peering_ice_adopt (hc_pr h) ag ctx (x_at x) |>)) <| a_listen := Some l |>
        end
    end.
(** What it gathered: worth waiting with, or given up for another try. *)
Definition gather_end (s : asess) (x : aenv) (good : bool) : asess :=
  if a_waiting s then s
  else if good then s <| a_waiting := true |>
  else (drop_listener s x) <| a_next_gather_ms := u64 (x_at x + HOST_REGATHER_MS) |>.
(** The pool grew: every punch is answered again, [fan] being [peering_net_fan]. *)
Definition host_reanswer (s : asess) (x : aenv) (fan : bytes -> bytes) : asess :=
  fold_left (fun s p => match p with
                        | Some c => let h := conn_at s c in
                                    if bytes_eqb (hc_answer_sdp h) [] then s
                                    else s <| a_sig := (sig_answer (a_sig s) (hc_claim_cid h) (fan (hc_answer_sdp h)) (x_iid x)).1 |>
                        | None => s
                        end) (a_punching s) s.
(** The loop is left: everything still held is freed.  While a worker winds down the signaller and the
    segment are still pumped, and what arrives then is handled with the tables as they stand. *)
Inductive arrival := ArrOffer (cid data : bytes) | ArrDirect (src : sockaddr) (len : Z) (sdp : bytes).
Definition arrive (x : aenv) (s : asess) (a : arrival) : asess :=
  match a with ArrOffer cid data => on_peer_offer s x cid data | ArrDirect src len sdp => on_direct_claim s src len sdp end.
Definition end_step (x : aenv) (wind : nat -> list arrival) (s : asess) (i : nat) : asess :=
  let s := conn_free s x (punch_at s i) in
  if w_used (worker_at s i) then conn_free (fold_left (arrive x) (wind i) s) x (Some (w_c (worker_at s i))) else s.
Definition turnstile_end (s : asess) (x : aenv) (wind : nat -> list arrival) : asess :=
  fold_left (end_step x wind) (seq 0 HOST_MAX_WORKERS) ((conn_free s x (a_listen s)) <| a_listen := None |>).
Definition host_init (family admit_max : Z) (obs : bool) (magic : Z) (key : bytes) (stuck : Z) (sg : sig_t) : asess :=
  let none := replicate HOST_MAX_WORKERS None in
  mk_asess family admit_max obs true true magic key ∅ [] (replicate RDV_HOST_MAX None) none [] none none [] false claim_served_zero 0 sg
    (replicate HOST_MAX_WORKERS worker_zero) None false 0 0 stuck 0 (peering_init magic key 0 false) [] [] [] false false false [].
End Turnstile.
