(* ===== verification/AdmitOk.v ===== *)
(** src/src/session.c, the host's turnstile: its operations in any order.  What every reachable
    state satisfies: each connection in memory has exactly one role, no table names one that was
    freed, and the punches a worker waits for are counted exactly. *)
From stdpp Require Import gmap relations.
From S2P Require Import Prelude Net Crypto Keys ClaimLog PathEp Path PathTable ProbePlane CtlPlane PathPlane PathHolds PeerNet Peering Scan CandPolicy Rdv Sig Admit.

(** ** What the tables say of each other *)
Record cinfo := mk_cinfo { ci_resume : option nat; ci_pending : Z; ci_punch : bytes; ci_claim : bytes; ci_pwd : bytes; ci_ctx : Z }.
Definition info (h : hconn) : cinfo := mk_cinfo (hc_punch_resume h) (hc_resume_pending h) (hc_punch_ufrag h) (hc_claim_ufrag h) (hc_pwd h) (ice_ctx (pe_ice (hc_pr h))).
Record gate := mk_gate {
  q_info : gmap nat cinfo; q_punching : list (option nat); q_ws : list worker; q_listen : option nat; q_shells : list nat;
  q_conns : list (option nat); q_lan : list (option nat); q_admitted : Z; q_count : Z; q_max : Z
}.
Definition view (s : asess) : gate :=
  mk_gate (info <$> a_heap s) (a_punching s) (a_ws s) (a_listen s) (a_shells s) (a_conns s) (a_lan_conns s) (a_admitted s) (a_count s) (a_admit_max s).
Definition q_at (g : gate) (c : nat) : cinfo := default (info hconn_zero) (q_info g !! c).
Definition punches (g : gate) : list nat := omap (fun p => p) (q_punching g).
Definition working (ws : list worker) : list nat := map w_c (List.filter w_used ws).
Definition workers (g : gate) : list nat := working (q_ws g).
Definition roles (g : gate) : list nat := punches g ++ workers g ++ option_list (q_listen g) ++ q_shells g.
Definition resumes (g : gate) (t c : nat) : bool := bool_decide (ci_resume (q_at g c) = Some t).
Definition resumers (g : gate) (t : nat) : nat := length (List.filter (resumes g t) (punches g)).

(** [loose] are connections an operation holds between two tables, [bare] ones whose agent it has taken. *)
Record gate_ok (bare loose : list nat) (g : gate) : Prop := {
  go_punching : length (q_punching g) = HOST_MAX_WORKERS;
  go_ws : length (q_ws g) = HOST_MAX_WORKERS;
  go_once : NoDup (loose ++ roles g);
  go_heap : forall c, is_Some (q_info g !! c) <-> c ∈ loose ++ roles g;
  go_conns : forall c, Some c ∈ q_conns g -> c ∈ loose ++ workers g;
  go_lan : forall c, Some c ∈ q_lan g -> c ∈ loose ++ workers g;
  go_resume : forall c t, c ∈ punches g -> ci_resume (q_at g c) = Some t -> t ∈ workers g;
  go_pending : forall t, t ∈ workers g -> ci_pending (q_at g t) = Z.of_nat (resumers g t);
  go_idle : forall c, c ∈ loose ++ punches g ++ option_list (q_listen g) -> ci_pending (q_at g c) = 0;
  go_ctx : forall c, c ∈ punches g ++ option_list (q_listen g) -> c ∉ bare -> ci_ctx (q_at g c) <> 0
}.
Definition adm_ok (loose : list nat) (s : asess) : Prop := gate_ok [] loose (view s).

(** ** What may happen, in any order *)
Inductive act :=
| ActOffer (cid data : bytes) (x : aenv)
| ActDirect (src : sockaddr) (len : Z) (sdp : bytes)
| ActLan (x : aenv)
| ActMoved (x : aenv) (fresh : sig_t)
| ActQuiet (x : aenv) (fresh : sig_t)
| ActWorkers (x : aenv)
| ActScan (x : aenv)
| ActDrop (x : aenv)
| ActRotate (x : aenv)
| ActOffers (x : aenv)
| ActGather (x : aenv) (agent : option (Z * Z))
| ActGathered (x : aenv) (good : bool)
| ActReanswer (x : aenv) (fan : bytes -> bytes)
(* the other threads: a worker returns; a connection's planes move; a worker adopts what was grafted; an agent lent away is destroyed *)
| ActDone (i : nat)
| ActPlanes (c : nat) (pp : probeplane) (pl : pathplane) (cp : ctlplane)
| ActAdopt (i : nat) (q : list Z) (ag ctx : Z)
| ActShell (c : nat)
(* the signaller goes on *)
| ActSig (sg : sig_t).
Section Acts.
Context {C : Crypto}.
Definition act_do (s : asess) (a : act) : asess :=
  match a with
  | ActOffer cid data x => on_peer_offer s x cid data
  | ActDirect src len sdp => on_direct_claim s src len sdp
  | ActLan x => lan_drain s x
  | ActMoved x fresh => turn_moved s x fresh
  | ActQuiet x fresh => turn_quiet s x fresh
  | ActWorkers x => workers_turn s x
  | ActScan x => punch_scan s x
  | ActDrop x => punch_drop_unreachable s x
  | ActRotate x => drop_listener s x
  | ActOffers x => offers_turn s x
  | ActGather x ag => gather_start s x ag
  | ActGathered x good => gather_end s x good
  | ActReanswer x fan => host_reanswer s x fan
  | ActDone i => let w := worker_at s i in s <| a_ws := <[i := mk_worker (w_c w) true (w_used w) (w_released w)]> (a_ws s) |>
  | ActPlanes c pp pl cp => on_conn s c (fun h => h <| hc_pr := (hc_pr h) <| pe_pp := pp |> <| pe_pl := pl |> <| pe_cp := cp |> |>)
  | ActAdopt i q ag ctx =>
      if w_used (worker_at s i)
      then on_conn s (w_c (worker_at s i)) (fun h => h <| hc_resume_q := q |> <| hc_pr := (hc_pr h) <| pe_ice := (pe_ice (hc_pr h)) <| ice_agent := ag |> <| ice_ctx := ctx |> |> |>)
      else s
  | ActShell c => if bool_decide (c ∈ a_shells s) then (conn_release s c) <| a_shells := List.filter (fun d => negb (bool_decide (d = c))) (a_shells s) |> else s
  | ActSig sg => s <| a_sig := sg |>
  end.
Definition act_run (s : asess) (l : list act) : asess := fold_left act_do l s.
End Acts.

(** ** Lists *)
Lemma omap_fill (l : list (option nat)) i c : l !! i = Some None -> omap (fun p => p) (<[i := Some c]> l) ≡ₚ c :: omap (fun p => p) l.
Proof.
  revert i. induction l as [|p l IH]; intros [|i] H; try done; cbn in H |- *.
  - by injection H as ->.
  - specialize (IH i H). destruct p as [d|]; cbn; [|done]. rewrite IH. constructor.
Qed.
Lemma omap_clear (l : list (option nat)) i c : l !! i = Some (Some c) -> omap (fun p => p) l ≡ₚ c :: omap (fun p => p) (<[i := None]> l).
Proof.
  intros H. assert (Hl := lookup_lt_Some _ _ _ H). rewrite <- (omap_fill (<[i := None]> l) i c) by (by apply list_lookup_insert_eq).
  by rewrite list_insert_insert_eq, list_insert_id.
Qed.
Lemma omap_same (l : list (option nat)) i : l !! i = Some None -> <[i := None]> l = l.
Proof. apply list_insert_id. Qed.
Lemma working_fill l i w c d r : l !! i = Some w -> w_used w = false -> working (<[i := mk_worker c d true r]> l) ≡ₚ c :: working l.
Proof.
  revert i. induction l as [|v l IH]; intros [|i] H Hu; try done; cbn in H |- *.
  - injection H as ->. unfold working. cbn. by rewrite Hu.
  - specialize (IH i H Hu). unfold working in *. cbn. destruct (w_used v); cbn; [|done]. rewrite IH. constructor.
Qed.
Lemma working_empty l i w c d r : l !! i = Some w -> w_used w = false -> working (<[i := mk_worker c d false r]> l) = working l.
Proof.
  revert i. induction l as [|v l IH]; intros [|i] H Hu; try done; cbn in H |- *.
  - injection H as ->. unfold working. cbn. by rewrite Hu.
  - specialize (IH i H Hu). unfold working in *. cbn. destruct (w_used v); cbn; [f_equal|]; exact IH.
Qed.
Lemma working_clear l i w d r : l !! i = Some w -> w_used w = true -> working l ≡ₚ w_c w :: working (<[i := mk_worker (w_c w) d false r]> l).
Proof.
  revert i. induction l as [|v l IH]; intros [|i] H Hu; try done; cbn in H |- *.
  - injection H as ->. unfold working. cbn. by rewrite Hu.
  - specialize (IH i H Hu). unfold working in *. cbn. destruct (w_used v); cbn; [|done]. rewrite IH. constructor.
Qed.
Lemma working_same l i w d r : l !! i = Some w -> working (<[i := mk_worker (w_c w) d (w_used w) r]> l) = working l.
Proof.
  revert i. induction l as [|v l IH]; intros [|i] H; try done; cbn in H |- *.
  - injection H as ->. unfold working. cbn. by destruct (w_used w).
  - specialize (IH i H). unfold working in *. cbn. destruct (w_used v); cbn; [f_equal|]; exact IH.
Qed.
Lemma working_in l i w : l !! i = Some w -> w_used w = true -> w_c w ∈ working l.
Proof. intros H Hu. rewrite (working_clear l i w false false H Hu). left. Qed.
Lemma filter_perm {A} (f : A -> bool) l l' : l ≡ₚ l' -> length (List.filter f l) = length (List.filter f l').
Proof. induction 1; cbn; repeat case_match; cbn; lia. Qed.
Lemma filter_ext_in {A} (f g : A -> bool) l : (forall a, a ∈ l -> f a = g a) -> List.filter f l = List.filter g l.
Proof. induction l as [|a l IH]; intros H; [done|]. cbn. rewrite (H a) by left. rewrite IH; [done|]. intros b Hb. apply H. by right. Qed.
Lemma filter_none {A} (f : A -> bool) l : (forall a, a ∈ l -> f a = false) -> List.filter f l = [].
Proof. intros H. induction l as [|a l IH]; [done|]. cbn. rewrite (H a) by left. apply IH. intros b Hb. apply H. by right. Qed.
Lemma first_index_spec {A} (f : A -> bool) l : forall k i, first_index f l k = Some i -> exists j a, i = (k + j)%nat /\ l !! j = Some a /\ f a = true.
Proof.
  induction l as [|a l IH]; intros k i H; [done|]. cbn in H. destruct (f a) eqn:E.
  - injection H as <-. exists 0%nat, a. split_and!; [lia|done|done].
  - apply IH in H as (j & b & -> & Hj & Hb). exists (S j), b. split_and!; [lia|done|done].
Qed.
Lemma first_index_at {A} (f : A -> bool) l i : first_index f l 0 = Some i -> exists a, l !! i = Some a /\ f a = true.
Proof. intros H. apply first_index_spec in H as (j & a & -> & H). eauto. Qed.
Lemma first_index_none {A} (f : A -> bool) l : forall k, first_index f l k = None -> forall a, a ∈ l -> f a = false.
Proof.
  induction l as [|a l IH]; intros k H b Hb; [by apply elem_of_nil in Hb|]. cbn in H. destruct (f a) eqn:E; [done|].
  apply elem_of_cons in Hb as [->|Hb]; [done|by eapply IH].
Qed.
Lemma free_slot_at l i : free_slot l = Some i -> l !! i = Some None.
Proof. intros H. apply first_index_at in H as ([c|] & Hi & ?); done. Qed.
Lemma at_slot_some l i c : at_slot l i = Some c -> l !! i = Some (Some c).
Proof. unfold at_slot. destruct (l !! i) as [[d|]|]; cbn; congruence. Qed.
Lemma worker_at_used s i : w_used (worker_at s i) = true -> a_ws s !! i = Some (worker_at s i).
Proof.
  unfold worker_at. intros H. destruct (a_ws s !! i) as [w|] eqn:E; [by erewrite nth_lookup_Some|]. apply lookup_ge_None in E. by rewrite nth_overflow in H by done.
Qed.

(** ** Frames *)
Record gate_like (bare : list nat) (g g' : gate) : Prop := {
  gl_punching : q_punching g' = q_punching g; gl_ws : q_ws g' = q_ws g; gl_listen : q_listen g' = q_listen g; gl_shells : q_shells g' = q_shells g;
  gl_conns : q_conns g' = q_conns g; gl_lan : q_lan g' = q_lan g;
  gl_heap : forall c, is_Some (q_info g' !! c) <-> is_Some (q_info g !! c);
  gl_resume : forall c, ci_resume (q_at g' c) = ci_resume (q_at g c); gl_pending : forall c, ci_pending (q_at g' c) = ci_pending (q_at g c);
  gl_ctx : forall c, c ∈ punches g ++ option_list (q_listen g) -> c ∉ bare -> ci_ctx (q_at g c) <> 0 -> ci_ctx (q_at g' c) <> 0
}.
Lemma gate_like_refl b g : gate_like b g g.
Proof. by split. Qed.
Lemma gate_like_trans b g1 g2 g3 : gate_like b g1 g2 -> gate_like b g2 g3 -> gate_like b g1 g3.
Proof.
  intros [A1 A2 A3 A4 A5 A6 A7 A8 A9 A10] [B1 B2 B3 B4 B5 B6 B7 B8 B9 B10]. split; try congruence; try (intros c; by rewrite ?B7, ?B8, ?B9).
  intros c Hc Hb H. apply B10; [unfold punches; by rewrite A1, A3|done|by apply A10].
Qed.
Lemma resumers_like g g' t : q_punching g' = q_punching g -> (forall c, c ∈ punches g -> ci_resume (q_at g' c) = ci_resume (q_at g c)) -> resumers g' t = resumers g t.
Proof. intros E H. unfold resumers, punches. rewrite E. f_equal. apply filter_ext_in. intros c Hc. unfold resumes. by rewrite H. Qed.
Lemma gate_ok_like b b' l g g' : gate_like b' g g' -> b ⊆ b' -> gate_ok b l g -> gate_ok b' l g'.
Proof.
  intros [A1 A2 A3 A4 A5 A6 A7 A8 A9 A10] Hb [B1 B2 B3 B4 B5 B6 B7 B8 B9 B10].
  assert (Ep : punches g' = punches g) by (unfold punches; by rewrite A1). assert (Ew : workers g' = workers g) by (unfold workers; by rewrite A2).
  assert (Er : roles g' = roles g) by (unfold roles; by rewrite Ep, Ew, A3, A4).
  split; rewrite ?A1, ?A2, ?A3, ?A5, ?A6, ?Ep, ?Ew, ?Er; try done.
  - intros c. by rewrite A7.
  - intros c t Hc. rewrite A8. by apply B7.
  - intros t Ht. rewrite A9, (resumers_like g g' t A1) by auto. by apply B8.
  - intros c Hc. rewrite A9. by apply B9.
  - intros c Hc Hn. apply A10; [done|done|apply B10; [done|set_solver]].
Qed.
Lemma at_view s c : q_at (view s) c = info (conn_at s c).
Proof. unfold q_at, view, conn_at. cbn [q_info]. rewrite lookup_fmap. by destruct (a_heap s !! c). Qed.
Lemma conn_at_on s c f d : conn_at (on_conn s c f) d = if bool_decide (d = c) then match a_heap s !! c with Some h => f h | None => hconn_zero end else conn_at s d.
Proof.
  unfold conn_at, on_conn. cbn [a_heap set set_a_heap]. case_bool_decide as E; [subst; rewrite lookup_alter_eq; by destruct (a_heap s !! c)|by rewrite lookup_alter_ne].
Qed.
(** An update of one connection that touches none of what [gate_ok] speaks of. *)
Lemma like_on b s c f :
  (forall h, ci_resume (info (f h)) = ci_resume (info h) /\ ci_pending (info (f h)) = ci_pending (info h)) ->
  (c ∈ punches (view s) ++ option_list (a_listen s) -> c ∉ b -> forall h, ci_ctx (info h) <> 0 -> ci_ctx (info (f h)) <> 0) -> gate_like b (view s) (view (on_conn s c f)).
Proof.
  intros Hf Hx. split; try done.
  - intros d. cbn. rewrite !lookup_fmap, !fmap_is_Some. destruct (decide (d = c)) as [->|]; [rewrite lookup_alter_eq; by rewrite fmap_is_Some|by rewrite lookup_alter_ne].
  - intros d. rewrite !at_view, conn_at_on. case_bool_decide as E; [subst|done]. unfold conn_at. destruct (a_heap s !! c) as [h|]; cbn [default]; [apply Hf|done].
  - intros d. rewrite !at_view, conn_at_on. case_bool_decide as E; [subst|done]. unfold conn_at. destruct (a_heap s !! c) as [h|]; cbn [default]; [apply Hf|done].
  - intros d Hd Hb. rewrite !at_view, conn_at_on. case_bool_decide as E; [subst|done]. unfold conn_at. destruct (a_heap s !! c) as [h|]; cbn [default]; [by apply Hx|done].
Qed.
Lemma like_on_same b s c f : (forall h, info (f h) = info h) -> gate_like b (view s) (view (on_conn s c f)).
Proof. intros H. apply like_on; intros; by rewrite H. Qed.

(** ** From one table to another *)
Lemma gate_perm b l l' g : l ≡ₚ l' -> gate_ok b l g -> gate_ok b l' g.
Proof.
  intros P [B1 B2 B3 B4 B5 B6 B7 B8 B9 B10]. split; try done; [by rewrite <- P| | | |]; intros c; rewrite <- P; auto.
Qed.
Lemma loose_apart b l c g : gate_ok b (c :: l) g -> c ∉ l /\ c ∉ punches g /\ c ∉ workers g /\ c ∉ option_list (q_listen g) /\ c ∉ q_shells g.
Proof.
  intros H. pose proof (go_once _ _ _ H) as Hn. cbn in Hn. apply NoDup_cons in Hn as [Hn _]. unfold roles in Hn. rewrite !elem_of_app in Hn. by repeat split; intros ?; apply Hn; auto 8.
Qed.
Lemma once_apart l g d : NoDup (l ++ roles g) -> d ∈ workers g -> d ∉ l /\ d ∉ punches g /\ d ∉ option_list (q_listen g) /\ d ∉ q_shells g.
Proof.
  intros H Hd. unfold roles in H. apply NoDup_app in H as (_ & H1 & H). apply NoDup_app in H as (_ & H2 & H). apply NoDup_app in H as (_ & H3 & _).
  split_and!; intros X; [apply (H1 d X)|apply (H2 d X)|apply (H3 d Hd)|apply (H3 d Hd)]; rewrite !elem_of_app; auto.
Qed.
Lemma nobody_resumes b l c g : gate_ok b (c :: l) g -> resumers g c = 0%nat.
Proof.
  intros H. unfold resumers. rewrite filter_none; [done|]. intros d Hd. unfold resumes. apply bool_decide_eq_false. intros E.
  apply (go_resume _ _ _ H d c Hd) in E. by apply loose_apart in H as (_ & _ & ? & _).
Qed.
(** Allocated. *)
Lemma ok_new l s c h : adm_ok l s -> a_heap s !! c = None -> hc_resume_pending h = 0 -> adm_ok (c :: l) (s <| a_heap := <[c := h]> (a_heap s) |>) /\ Some c ∉ a_lan_conns s.
Proof.
  intros H En Hh. assert (Hd : c ∉ l ++ roles (view s)).
  { intros Hd. apply (go_heap _ _ _ H) in Hd. cbn in Hd. rewrite lookup_fmap, En in Hd. by destruct Hd. }
  set (s' := s <| a_heap := _ |>).
  assert (A : forall e, e <> c -> q_at (view s') e = q_at (view s) e) by (intros e He; unfold q_at; cbn; by rewrite !lookup_fmap, lookup_insert_ne by done).
  assert (Hr : forall e, e ∈ l ++ roles (view s) -> e <> c) by (intros e He ->; done).
  assert (Hp : forall e, e ∈ punches (view s) -> e <> c) by (intros e He; apply Hr; unfold roles; rewrite !elem_of_app; auto).
  assert (Hw : forall e, e ∈ workers (view s) -> e <> c) by (intros e He; apply Hr; unfold roles; rewrite !elem_of_app; auto).
  destruct H as [B1 B2 B3 B4 B5 B6 B7 B8 B9 B10]. split; [split|]; try done.
  - cbn [app]. by apply NoDup_cons.
  - intros e. change (roles (view s')) with (roles (view s)). cbn [app]. rewrite elem_of_cons, <- B4. cbn. rewrite !lookup_fmap, !fmap_is_Some.
    destruct (decide (e = c)) as [->|]; [rewrite lookup_insert_eq; naive_solver|rewrite lookup_insert_ne by done; naive_solver].
  - intros e He. cbn [app]. right. by apply B5.
  - intros e He. cbn [app]. right. by apply B6.
  - intros e t He. rewrite A by auto. by apply B7.
  - intros t Ht. rewrite A by auto. etrans; [by apply B8|]. f_equal. symmetry. apply resumers_like; [done|]. intros e He. by rewrite A by auto.
  - intros e He. destruct (decide (e = c)) as [->|]; [rewrite at_view; unfold conn_at, s'; cbn [a_heap set set_a_heap]; by rewrite lookup_insert_eq|]. rewrite A by done. apply B9.
    cbn [app] in He. apply elem_of_cons in He. naive_solver.
  - intros e He. rewrite A; [by apply B10|]. apply Hr. change (punches (view s')) with (punches (view s)) in He. unfold roles. rewrite !elem_of_app in *. naive_solver.
  - intros Hl. apply B6 in Hl. apply Hd. unfold roles. rewrite !elem_of_app in *. naive_solver.
Qed.
Lemma ok_alloc l s x n s' c : adm_ok l s -> conn_alloc s x n = Some (s', c) -> adm_ok (c :: l) s' /\ Some c ∉ a_lan_conns s'.
Proof.
  intros H E. unfold conn_alloc in E. destruct (x_addr x n) as [d|]; [|done]. case_bool_decide as Ed; [done|]. cbv zeta in E. injection E as <- <-.
  apply (ok_new l s d); [done| |done]. destruct (a_heap s !! d); [by destruct Ed|done].
Qed.
(** Freed. *)
Lemma ok_delete l s c : adm_ok (c :: l) s -> Some c ∉ a_conns s -> Some c ∉ a_lan_conns s -> adm_ok l (conn_release s c).
Proof.
  intros H Hc Hl. pose proof (loose_apart _ _ _ _ H) as (N1 & N2 & N3 & N4 & N5). set (s' := conn_release s c).
  assert (A : forall e, e <> c -> q_at (view s') e = q_at (view s) e) by (intros e He; unfold q_at; cbn; by rewrite !lookup_fmap, lookup_delete_ne by done).
  assert (Hp : forall e, e ∈ punches (view s) -> e <> c) by (by intros e He ->). assert (Hw : forall e, e ∈ workers (view s) -> e <> c) by (by intros e He ->).
  destruct H as [B1 B2 B3 B4 B5 B6 B7 B8 B9 B10]. cbn [app] in B3, B4, B5, B6, B9. pose proof B3 as B3'. apply NoDup_cons in B3' as [B3a B3b]. split; try done.
  - intros e. specialize (B4 e). rewrite elem_of_cons in B4. change (roles (view s')) with (roles (view s)). cbn in *. rewrite !lookup_fmap, !fmap_is_Some in *.
    destruct (decide (e = c)) as [->|]; [rewrite lookup_delete_eq; split; [by intros [? ?]|done]|rewrite lookup_delete_ne by done; naive_solver].
  - intros e He. pose proof (B5 e He) as X. apply elem_of_cons in X as [->|X]; done.
  - intros e He. pose proof (B6 e He) as X. apply elem_of_cons in X as [->|X]; done.
  - intros e t He. rewrite A by auto. by apply B7.
  - intros t Ht. rewrite A by auto. etrans; [by apply B8|]. f_equal. symmetry. apply resumers_like; [done|]. intros e He. by rewrite A by auto.
  - intros e He. assert (e <> c). { intros ->. rewrite !elem_of_app in He. naive_solver. } rewrite A by done. apply B9. by right.
  - intros e He. assert (e <> c). { intros ->. rewrite !elem_of_app in He. naive_solver. } rewrite A by done. by apply B10.
Qed.
Lemma unregistered s c : Some c ∉ a_conns (conn_unregister s c).
Proof.
  unfold conn_unregister. cbn. intros H. apply list_elem_of_In, in_map_iff in H as (p & E & _). case_bool_decide; congruence.
Qed.
Lemma like_dissolve s x c : c ∉ punches (view s) ++ option_list (a_listen s) ->
  gate_like [] (view (conn_unregister s c)) (view (conn_dissolve s x c)).
Proof. intros H. unfold conn_dissolve. apply like_on; [done|]. intros Hc. done. Qed.
Lemma ok_unregister l s c : adm_ok l s -> adm_ok l (conn_unregister s c).
Proof.
  intros [B1 B2 B3 B4 B5 B6 B7 B8 B9 B10]. split; try done. intros e He. apply B5. cbn in He. apply list_elem_of_In, in_map_iff in He as (p & E & Hp). apply list_elem_of_In in Hp.
  case_bool_decide; [done|by subst].
Qed.
Lemma ok_dissolve l s x c : c ∉ punches (view s) ++ option_list (a_listen s) -> adm_ok l s -> adm_ok l (conn_dissolve s x c).
Proof. intros Hc H. eapply gate_ok_like; [by apply like_dissolve|done|by apply ok_unregister]. Qed.
Lemma ok_free l s x c : adm_ok (c :: l) s -> Some c ∉ a_lan_conns s -> adm_ok l (conn_free s x (Some c)).
Proof.
  intros H Hl. pose proof (loose_apart _ _ _ _ H) as (N1 & N2 & N3 & N4 & N5). cbn [conn_free]. apply ok_delete; [|apply (unregistered s c)|done].
  apply ok_dissolve; [|done]. rewrite elem_of_app. by intros [?|?].
Qed.

(** A punch is over. *)
Lemma ok_unpunch l s i c : gate_ok [c] l (view s) -> punch_at s i = Some c -> adm_ok (c :: l) (punch_clear (punch_uncount s c) i) /\ Some c ∉ a_lan_conns s.
Proof.
  intros H Hi. apply at_slot_some in Hi. pose proof (omap_clear _ _ _ Hi) as P.
  assert (E : exists s1, s1 = punch_uncount s c /\ a_punching s1 = a_punching s /\ a_ws s1 = a_ws s /\ a_listen s1 = a_listen s /\ a_shells s1 = a_shells s /\ a_conns s1 = a_conns s /\
    a_lan_conns s1 = a_lan_conns s /\ (forall d, is_Some (q_info (view s1) !! d) <-> is_Some (q_info (view s) !! d)) /\
    (forall d, ci_resume (q_at (view s1) d) = ci_resume (q_at (view s) d) /\ ci_ctx (q_at (view s1) d) = ci_ctx (q_at (view s) d)) /\
    (forall d, ci_pending (q_at (view s1) d) = ci_pending (q_at (view s) d) - (if decide (ci_resume (q_at (view s) c) = Some d) then (if decide (is_Some (a_heap s !! d)) then 1 else 0) else 0))).
  { eexists. split; [done|]. unfold punch_uncount. rewrite !at_view. cbn [info ci_resume]. destruct (hc_punch_resume (conn_at s c)) as [t|] eqn:Er.
    - assert (L : forall d, conn_at (one_less s t) d = if bool_decide (d = t) then match a_heap s !! t with Some h => h <| hc_resume_pending := hc_resume_pending h - 1 |> | None => hconn_zero end else conn_at s d)
        by (intros d; apply conn_at_on).
      split_and!; try done.
      + intros d. cbn. rewrite !lookup_fmap, !fmap_is_Some. destruct (decide (d = t)) as [->|]; [rewrite lookup_alter_eq; by rewrite fmap_is_Some|by rewrite lookup_alter_ne].
      + intros d. rewrite !at_view, L. case_bool_decide as Ed; [|done]. subst d. unfold conn_at. by destruct (a_heap s !! t).
      + intros d. rewrite !at_view, L. destruct (decide (Some t = Some d)) as [[= <-]|Ed].
        * rewrite bool_decide_eq_true_2 by done. unfold conn_at. destruct (a_heap s !! t) as [h|]; cbn; [by rewrite decide_True|]. rewrite decide_False; [done|]. by intros [? ?].
        * rewrite bool_decide_eq_false_2 by congruence. lia.
    - split_and!; unfold give_back; try (by destruct (0 <? a_admitted s)). intros d. rewrite decide_False by done. rewrite Z.sub_0_r. by destruct (0 <? a_admitted s). }
  destruct E as (s1 & Es & E1 & E2 & E3 & E4 & E5 & E6 & E7 & E8 & E9). rewrite <- Es. clear Es. set (s2 := punch_clear s1 i).
  assert (Ep : punches (view s) ≡ₚ c :: punches (view s2)) by (unfold s2, punches; cbn; by rewrite E1).
  assert (Ew : workers (view s2) = workers (view s)) by (unfold s2, workers; cbn; by rewrite E2).
  assert (Er : roles (view s) ≡ₚ c :: roles (view s2)).
  { unfold roles. rewrite Ep, Ew. unfold s2; cbn. by rewrite E3, E4. }
  assert (Hcp : c ∈ punches (view s)) by (rewrite Ep; left).
  assert (Q : forall t, resumers (view s) t = (resumers (view s2) t + if decide (ci_resume (q_at (view s) c) = Some t) then 1 else 0)%nat).
  { intros t. unfold resumers. rewrite (filter_perm _ _ _ Ep). cbn. rewrite (filter_ext_in (resumes (view s2) t) (resumes (view s) t)).
    - unfold resumes at 1. case_bool_decide; [rewrite decide_True by done; cbn; lia|rewrite decide_False by done; lia].
    - intros d _. unfold resumes. destruct (E8 d) as [Ed _]. change (q_at (view s2) d) with (q_at (view s1) d). by rewrite Ed. }
  destruct H as [B1 B2 B3 B4 B5 B6 B7 B8 B9 B10].
  assert (Hcr : c ∉ roles (view s2)) by (rewrite Er in B3; apply NoDup_app in B3 as (_ & _ & B3); by apply NoDup_cons in B3 as [B3 _]).
  assert (Hcw : c ∉ workers (view s)) by (rewrite <- Ew; intros Hw; apply Hcr; unfold roles; rewrite !elem_of_app; auto).
  assert (Hcl : c ∉ l).
  { intros Hl. apply NoDup_app in B3 as (_ & B3 & _). apply (B3 c Hl). unfold roles. rewrite !elem_of_app. auto. }
  assert (Hp2 : forall d, d ∈ punches (view s2) -> d ∈ punches (view s)) by (intros d Hd; rewrite Ep; by right).
  split; [split|].
  - cbn. rewrite length_insert. by rewrite E1.
  - cbn. by rewrite E2.
  - cbn [app]. rewrite Permutation_middle, <- Er. done.
  - intros d. change (q_info (view s2)) with (q_info (view s1)). rewrite E7, B4, Er. cbn [app]. by rewrite <- Permutation_middle.
  - intros d Hd. rewrite Ew. cbn [app]. right. apply B5. cbn in Hd. by rewrite E5 in Hd.
  - intros d Hd. rewrite Ew. cbn [app]. right. apply B6. cbn in Hd. by rewrite E6 in Hd.
  - intros d t Hd Et. rewrite Ew. apply (B7 d); [by apply Hp2|]. destruct (E8 d) as [Ed _]. by rewrite <- Ed.
  - intros t Ht. rewrite Ew in Ht. change (q_at (view s2) t) with (q_at (view s1) t). rewrite E9, (B8 t Ht), (Q t). destruct (decide (ci_resume _ = Some t)); [|lia].
    rewrite decide_True; [lia|]. assert (Hs : is_Some (q_info (view s) !! t)) by (apply B4; unfold roles; rewrite !elem_of_app; auto). cbn in Hs. by rewrite lookup_fmap, fmap_is_Some in Hs.
  - intros d Hd. change (q_at (view s2) d) with (q_at (view s1) d). rewrite E9. assert (Hd' : d ∈ l ++ punches (view s) ++ option_list (a_listen s)).
    { cbn [app] in Hd. rewrite Ep. rewrite elem_of_cons, !elem_of_app in Hd. rewrite !elem_of_app, elem_of_cons. cbn in Hd. rewrite E3 in Hd. naive_solver. }
    rewrite (B9 d Hd'). destruct (decide (ci_resume _ = Some d)) as [Ed|]; [|done]. exfalso. pose proof (B7 c d Hcp Ed) as Hw.
    apply (once_apart _ _ _ B3) in Hw as (? & ? & ? & _). rewrite !elem_of_app in Hd'. cbn in *. naive_solver.
  - intros d Hd _. change (q_at (view s2) d) with (q_at (view s1) d). destruct (E8 d) as [_ ->]. assert (d <> c). { intros ->. apply Hcr. unfold roles. rewrite !elem_of_app in *. naive_solver. }
    apply B10; [rewrite Ep; cbn in Hd |- *; rewrite E3 in Hd; by right|]. by rewrite list_elem_of_singleton.
  - intros Hl. apply B6 in Hl. rewrite elem_of_app in Hl. naive_solver.
Qed.
(** A punch begins. *)
Record punch_begun (g g' : gate) (pc k : nat) (resume : option nat) : Prop := {
  pb_punching : q_punching g' = <[k := Some pc]> (q_punching g); pb_ws : q_ws g' = q_ws g; pb_listen : q_listen g' = q_listen g; pb_shells : q_shells g' = q_shells g;
  pb_conns : q_conns g' = q_conns g; pb_lan : q_lan g' = q_lan g;
  pb_heap : forall d, is_Some (q_info g' !! d) <-> is_Some (q_info g !! d);
  pb_resume : forall d, ci_resume (q_at g' d) = if decide (d = pc) then resume else ci_resume (q_at g d);
  pb_pending : forall d, ci_pending (q_at g' d) = ci_pending (q_at g d) + (if decide (resume = Some d) then 1 else 0);
  pb_ctx : forall d, d <> pc -> ci_ctx (q_at g' d) = ci_ctx (q_at g d); pb_own : ci_ctx (q_at g' pc) <> 0
}.
Lemma ok_punch l g g' pc k resume : gate_ok [] (pc :: l) g -> q_punching g !! k = Some None -> (forall t, resume = Some t -> t ∈ workers g) ->
  Some pc ∉ q_conns g -> Some pc ∉ q_lan g -> punch_begun g g' pc k resume -> gate_ok [] l g'.
Proof.
  intros H Hk Ht Hnc Hnl [E1 E2 E3 E4 E5 E6 E7 E8 E9 E10 E11]. pose proof (loose_apart _ _ _ _ H) as (N1 & N2 & N3 & N4 & N5).
  assert (Ep : punches g' ≡ₚ pc :: punches g) by (unfold punches; rewrite E1; by apply omap_fill). assert (Ew : workers g' = workers g) by (unfold workers; by rewrite E2).
  assert (Er : roles g' ≡ₚ pc :: roles g) by (unfold roles; by rewrite Ep, Ew, E3, E4).
  assert (Q : forall t, resumers g' t = (resumers g t + if decide (resume = Some t) then 1 else 0)%nat).
  { intros t. unfold resumers. rewrite (filter_perm _ _ _ Ep). cbn. rewrite (filter_ext_in (resumes g' t) (resumes g t)).
    - unfold resumes at 1. rewrite E8, decide_True by done. case_bool_decide; [rewrite decide_True by done; cbn; lia|rewrite decide_False by done; lia].
    - intros d Hd. unfold resumes. rewrite E8, decide_False; [done|]. by intros ->. }
  destruct H as [B1 B2 B3 B4 B5 B6 B7 B8 B9 B10]. split.
  - rewrite E1. by rewrite length_insert.
  - by rewrite E2.
  - rewrite Er, <- Permutation_middle. done.
  - intros d. rewrite E7, B4, Er. cbn [app]. by rewrite <- Permutation_middle.
  - intros d. rewrite E5, Ew. intros Hd. pose proof (B5 d Hd) as X. cbn [app] in X. apply elem_of_cons in X as [->|X]; done.
  - intros d. rewrite E6, Ew. intros Hd. pose proof (B6 d Hd) as X. cbn [app] in X. apply elem_of_cons in X as [->|X]; done.
  - intros d t Hd. rewrite E8, Ew. destruct (decide (d = pc)); [by intros ?; apply Ht|]. apply B7. rewrite Ep in Hd. apply elem_of_cons in Hd as [?|?]; done.
  - intros t. rewrite Ew. intros Hw. rewrite E9, (B8 t Hw), Q. destruct (decide (resume = Some t)); lia.
  - intros d Hd. assert (Hd' : d ∈ (pc :: l) ++ punches g ++ option_list (q_listen g)) by (rewrite Ep, E3 in Hd; cbn [app] in *; by rewrite <- Permutation_middle in Hd).
    rewrite E9, (B9 d Hd'). rewrite decide_False; [done|]. intros Hr. apply Ht in Hr. apply (once_apart _ _ _ B3) in Hr as (X1 & X2 & X3 & _).
    apply elem_of_app in Hd' as [?|Hd']; [done|]. by apply elem_of_app in Hd' as [?|?].
  - intros d Hd Hn. destruct (decide (d = pc)) as [->|]; [done|]. rewrite E10 by done. apply B10; [|done]. rewrite Ep, E3 in Hd. cbn [app] in Hd. apply elem_of_cons in Hd as [?|?]; done.
Qed.
(** A worker begins, or the table is full. *)
Lemma ok_spawn l s x c : adm_ok (c :: l) s -> if (worker_spawn s x c).2 then adm_ok l (worker_spawn s x c).1 else adm_ok (c :: l) (worker_spawn s x c).1.
Proof.
  intros H. unfold worker_spawn. destruct (first_index _ (a_ws s) 0) as [i|] eqn:Ei; [|done]. apply first_index_at in Ei as (w & Hi & Hu). apply negb_true_iff in Hu. cbn [fst snd].
  destruct (x_threads x c).
  - pose proof (working_fill _ _ _ c false false Hi Hu) as P. set (s' := s <| a_ws := _ |>). assert (Ew : workers (view s') ≡ₚ c :: workers (view s)) by exact P.
    assert (Er : roles (view s') ≡ₚ c :: roles (view s)). { unfold roles. rewrite Ew. cbn [app]. by rewrite <- Permutation_middle. }
    pose proof (nobody_resumes _ _ _ _ H) as Hn. destruct H as [B1 B2 B3 B4 B5 B6 B7 B8 B9 B10]. cbn [app] in *. split; try done.
    + cbn. by rewrite length_insert.
    + by rewrite Er, <- Permutation_middle.
    + intros d. rewrite Er, <- Permutation_middle. apply B4.
    + intros d Hd. rewrite Ew, <- Permutation_middle. by apply B5.
    + intros d Hd. rewrite Ew, <- Permutation_middle. by apply B6.
    + intros d t Hd Et. rewrite Ew. right. by apply (B7 d).
    + intros t Ht. rewrite Ew in Ht. change (q_at (view s') t) with (q_at (view s) t). change (resumers (view s') t) with (resumers (view s) t).
      apply elem_of_cons in Ht as [->|Ht]; [|by apply B8]. rewrite Hn. apply B9. left.
    + intros d Hd. apply (B9 d). by right.
  - pose proof (working_empty _ _ _ c false false Hi Hu) as P. set (s' := s <| a_ws := _ |>). assert (Ew : workers (view s') = workers (view s)) by exact P.
    assert (Er : roles (view s') = roles (view s)) by (unfold roles; by rewrite Ew). destruct H as [B1 B2 B3 B4 B5 B6 B7 B8 B9 B10]. split; rewrite ?Ew, ?Er; try done.
    cbn. by rewrite length_insert.
Qed.
Lemma ok_register l s c : c ∈ l ++ workers (view s) -> adm_ok l s -> adm_ok l (conn_register s c).
Proof.
  intros Hc H. unfold conn_register. destruct (free_slot (a_conns s)) as [i|] eqn:Ei; [|done]. destruct H as [B1 B2 B3 B4 B5 B6 B7 B8 B9 B10]. split; try done.
  intros d Hd. cbn in Hd. apply list_elem_of_lookup in Hd as [j Hj]. destruct (decide (j = i)) as [->|].
  - assert (Hl : (i < length (a_conns s))%nat) by (apply free_slot_at, lookup_lt_Some in Ei; done). rewrite list_lookup_insert_eq in Hj by done. by injection Hj as ->.
  - rewrite list_lookup_insert_ne in Hj by done. apply B5. by eapply list_elem_of_lookup_2.
Qed.
(** The agent that was ready. *)
Lemma ok_unlisten l s : adm_ok l s -> adm_ok (option_list (a_listen s) ++ l) (s <| a_listen := None |>).
Proof.
  intros [B1 B2 B3 B4 B5 B6 B7 B8 B9 B10]. set (s' := s <| a_listen := None |>).
  assert (P : (option_list (a_listen s) ++ l) ++ roles (view s') ≡ₚ l ++ roles (view s)).
  { unfold roles. cbn. change (punches (view s')) with (punches (view s)). change (workers (view s')) with (workers (view s)).
    rewrite <- !(assoc_L app). rewrite (Permutation_app_comm (option_list _)), <- !(assoc_L app). do 3 f_equiv. by rewrite (Permutation_app_comm (a_shells s)). }
  split; try done.
  - by rewrite P.
  - intros d. rewrite P. apply B4.
  - intros d Hd. rewrite <- (assoc_L app). rewrite elem_of_app. right. by apply B5.
  - intros d Hd. rewrite <- (assoc_L app). rewrite elem_of_app. right. by apply B6.
  - intros d Hd. apply (B9 d). cbn in *. rewrite !elem_of_app in *. rewrite elem_of_nil in Hd. change (punches (view s')) with (punches (view s)) in Hd. naive_solver.
  - intros d Hd. apply (B10 d). cbn in *. rewrite !elem_of_app in *. rewrite elem_of_nil in Hd. change (punches (view s')) with (punches (view s)) in Hd. naive_solver.
Qed.

(** ** The operations *)
Section Operations.
Context {C : Crypto}.
Lemma fold_keeps {A} (P : asess -> Prop) (f : asess -> A -> asess) l : (forall s a, P s -> P (f s a)) -> forall s, P s -> P (fold_left f l s).
Proof. intros H. induction l as [|a l IH]; intros s Hs; [done|]. cbn. apply IH. by apply H. Qed.
Lemma ok_on l s c f : (forall h, info (f h) = info h) -> adm_ok l s -> adm_ok l (on_conn s c f).
Proof. intros H. eapply gate_ok_like; [by apply (like_on_same [])|done]. Qed.
Lemma ok_bare l s c : adm_ok l s -> gate_ok [c] l (view s).
Proof. apply gate_ok_like; [apply gate_like_refl|set_solver]. Qed.
Lemma ok_tell l s x c o : adm_ok l s -> adm_ok l (conn_tell_fresh s x c o).
Proof.
  intros H. unfold conn_tell_fresh. destruct (bytes_eqb _ _); [done|]. cbv zeta. destruct (probeplane_seal _ _ _ _ _) as [pp [frame|]]; [|by apply ok_on].
  destruct (_ || _); by apply ok_on.
Qed.
Lemma ok_row l s c addr : adm_ok l s -> adm_ok l (open_row s c addr).
Proof. intros H. unfold open_row, emit_peer_ident. apply ok_on; [done|]. by destruct (_ || _). Qed.
Lemma ok_release l s x i : adm_ok l s -> adm_ok l (punch_release s x i).
Proof.
  intros H. unfold punch_release. destruct (punch_at s i) as [c|] eqn:Ei; [|done]. cbv zeta. destruct (ok_unpunch l s i c (ok_bare _ _ _ H) Ei) as [H1 H2].
  assert (E : a_lan_conns (punch_uncount s c) = a_lan_conns s) by (unfold punch_uncount, give_back; by repeat case_match).
  destruct (cid_set _); (apply ok_free; [exact H1|cbn; by rewrite E]).
Qed.
Lemma ok_publish l s t ctx : adm_ok l s -> adm_ok l (resume_q_publish s t ctx).
Proof. intros H. unfold resume_q_publish. destruct (first_index _ _ _); [by apply ok_on|done]. Qed.
Lemma ok_shelve l s c : adm_ok (c :: l) s -> Some c ∉ a_conns s -> Some c ∉ a_lan_conns s -> adm_ok l (s <| a_shells := c :: a_shells s |>).
Proof.
  intros H Hc Hl. pose proof (loose_apart _ _ _ _ H) as (N1 & N2 & N3 & N4 & N5). destruct H as [B1 B2 B3 B4 B5 B6 B7 B8 B9 B10]. set (s' := s <| a_shells := _ |>).
  assert (P : l ++ roles (view s') ≡ₚ (c :: l) ++ roles (view s)) by (unfold roles; cbn; change (punches (view s')) with (punches (view s)); change (workers (view s')) with (workers (view s)); by rewrite <- !Permutation_middle).
  split; try done.
  - by rewrite P.
  - intros d. rewrite P. apply B4.
  - intros d Hd. pose proof (B5 d Hd) as X. cbn [app] in X. apply elem_of_cons in X as [->|X]; done.
  - intros d Hd. pose proof (B6 d Hd) as X. cbn [app] in X. apply elem_of_cons in X as [->|X]; done.
  - intros d Hd. apply (B9 d). by right.
Qed.
Lemma not_registered l s c : adm_ok l s -> c ∉ l -> c ∉ workers (view s) -> Some c ∉ a_conns s /\ Some c ∉ a_lan_conns s.
Proof. intros H Hl Hw. split; intros X; [apply (go_conns _ _ _ H) in X|apply (go_lan _ _ _ H) in X]; apply elem_of_app in X as [?|?]; done. Qed.
Lemma ok_lent l s i c t : adm_ok l s -> punch_at s i = Some c -> t <> c -> adm_ok l (punch_lent s i c t) /\ c ∉ punches (view (punch_lent s i c t)) /\ c ∉ option_list (a_listen (punch_lent s i c t)).
Proof.
  intros H Ei Ht. pose proof (at_slot_some _ _ _ Ei) as Ei'. assert (Hcp : c ∈ punches (view s)) by (rewrite (omap_clear _ _ _ Ei'); left).
  assert (Hx : ice_ctx (pe_ice (hc_pr (conn_at s c))) <> 0). { pose proof (go_ctx _ _ _ H c) as X. rewrite at_view in X. apply X; [rewrite elem_of_app; auto|set_solver]. }
  unfold punch_lent. cbv zeta. set (pwd := hc_pwd (conn_at s c)). clearbody pwd. set (ctx := ice_ctx _) in *. clearbody ctx. unfold truth. rewrite (proj2 (Z.eqb_neq _ _) Hx). cbn [negb].
  set (e := EvGraft c t ctx). clearbody e. set (f := fun h : hconn => h <| hc_pr := (hc_pr h) <| pe_ice := (pe_ice (hc_pr h)) <| ice_agent := 0 |> <| ice_ctx := 0 |> |> |>).
  set (k := fun h : hconn => h <| hc_pr := (hc_pr h) <| pe_ice := (pe_ice (hc_pr h)) <| ice_remote_pwd := snprintf 40 pwd |> |> |>).
  (* the same without the note that it is lent *)
  set (s3 := on_conn (on_conn (resume_q_publish (say s e) t ctx) c f) t k).
  assert (E : on_conn (on_conn (resume_q_publish (say (s <| a_shells := c :: a_shells s |>) e) t ctx) c f) t k = s3 <| a_shells := c :: a_shells s3 |>).
  { unfold s3, resume_q_publish. change (conn_at (say (s <| a_shells := c :: a_shells s |>) e) t) with (conn_at (say s e) t). by destruct (first_index _ _ _). }
  rewrite E. clear E. assert (H3 : gate_ok [c] l (view s3)).
  { unfold s3. eapply gate_ok_like; [apply (like_on [c]); [done|]; intros _ _ h Hh; exact Hh|reflexivity|].
    eapply gate_ok_like; [apply (like_on [c]); [done|]; intros _ X; exfalso; apply X; set_solver|reflexivity|]. apply ok_bare. by apply ok_publish. }
  assert (E3 : punch_at s3 i = Some c /\ a_conns s3 = a_conns s /\ a_lan_conns s3 = a_lan_conns s /\ workers (view s3) = workers (view s)) by (unfold s3, resume_q_publish; by destruct (first_index _ _ _)).
  destruct E3 as (Ei3 & Ec3 & El3 & _). clearbody s3. destruct (ok_unpunch l s3 i c H3 Ei3) as [H4 Hl4]. set (s4 := punch_clear (punch_uncount s3 c) i) in *.
  assert (E4 : punch_clear (punch_uncount (s3 <| a_shells := c :: a_shells s3 |>) c) i = s4 <| a_shells := c :: a_shells s4 |>).
  { unfold s4, punch_uncount, give_back. change (conn_at (s3 <| a_shells := c :: a_shells s3 |>) c) with (conn_at s3 c). destruct (hc_punch_resume (conn_at s3 c)); [done|]. cbn [a_admitted set set_a_shells]. by destruct (0 <? a_admitted s3). }
  rewrite E4. assert (Hcw : c ∉ workers (view s)) by (intros Hw; apply (once_apart _ _ _ (go_once _ _ _ H)) in Hw as (_ & X & _); done).
  assert (Hcl : c ∉ l). { pose proof (go_once _ _ _ H) as X. apply NoDup_app in X as (_ & X & _). intros Y. apply (X c Y). unfold roles. rewrite !elem_of_app. auto. }
  destruct (not_registered l s c H Hcl Hcw) as [Hc Hl]. assert (E5 : a_conns s4 = a_conns s /\ a_lan_conns s4 = a_lan_conns s).
  { unfold s4, punch_uncount, give_back. rewrite <- Ec3, <- El3. by repeat case_match. }
  destruct E5 as [E5 E6]. pose proof (loose_apart _ _ _ _ H4) as (_ & N2 & _ & N4 & _). split; [by apply ok_shelve; rewrite ?E5, ?E6|done].
Qed.
Lemma ok_graft l s x i c t : adm_ok l s -> punch_at s i = Some c -> t <> c -> adm_ok l (punch_graft s x i c t).
Proof. intros H Ei Ht. destruct (ok_lent l s i c t H Ei Ht) as (H1 & N1 & N2). apply ok_dissolve; [rewrite elem_of_app; by intros [?|?]|done]. Qed.
Lemma ok_admitted l s n : adm_ok l s -> adm_ok l (s <| a_admitted := n |>).
Proof. apply gate_ok_like; [by split|done]. Qed.
Lemma ok_give_back l s : adm_ok l s -> adm_ok l (give_back s).
Proof. intros H. unfold give_back. destruct (0 <? a_admitted s); [by apply ok_admitted|done]. Qed.
Lemma ok_fresh_over l s i c : adm_ok l s -> punch_at s i = Some c -> hc_punch_resume (conn_at s c) = None -> adm_ok (c :: l) (punch_clear s i) /\ Some c ∉ a_lan_conns s.
Proof.
  intros H Ei Er. destruct (ok_unpunch l s i c (ok_bare _ _ _ H) Ei) as [H1 H2]. split; [|done]. unfold punch_uncount in H1. rewrite Er in H1. unfold give_back in H1.
  destruct (0 <? a_admitted s); [|done]. exact (ok_admitted _ _ (a_admitted s) H1).
Qed.
Lemma spawn_lan s x c : a_lan_conns (worker_spawn s x c).1 = a_lan_conns s.
Proof. unfold worker_spawn. by destruct (first_index _ _ _). Qed.
Lemma tell_lan s x c o : a_lan_conns (conn_tell_fresh s x c o) = a_lan_conns s.
Proof. unfold conn_tell_fresh. destruct (bytes_eqb _ _); [done|]. cbv zeta. destruct (probeplane_seal _ _ _ _ _) as [pp [frame|]]; [|done]. by destruct (_ || _). Qed.
Lemma register_lan s c : a_lan_conns (conn_register s c) = a_lan_conns s.
Proof. unfold conn_register. by destruct (free_slot _). Qed.
Lemma row_lan s c a : a_lan_conns (open_row s c a) = a_lan_conns s.
Proof. unfold open_row, emit_peer_ident. by destruct (_ || _). Qed.
Lemma punch_row s c a : a_punching (open_row s c a) = a_punching s /\ hc_punch_resume (conn_at (open_row s c a) c) = hc_punch_resume (conn_at s c).
Proof.
  unfold open_row, emit_peer_ident. destruct (_ || _); (split; [done|]); rewrite conn_at_on, bool_decide_eq_true_2 by done; unfold conn_at; cbn [a_heap set set_a_trace say]; by destruct (a_heap s !! c).
Qed.
Lemma ok_serve l s x i c : adm_ok l s -> punch_at s i = Some c -> hc_punch_resume (conn_at s c) = None -> adm_ok l (punch_serve s x i c).
Proof.
  intros H Ei Er. unfold punch_serve. cbv zeta. set (s1 := if a_obs s then _ else s).
  assert (H1 : adm_ok l s1 /\ punch_at s1 i = Some c /\ hc_punch_resume (conn_at s1 c) = None).
  { unfold s1. destruct (a_obs s); [|done]. set (s0 := on_conn _ c _). assert (A : adm_ok l s0) by (by apply ok_on). split; [by apply ok_row|].
    destruct (punch_row s0 c (x_selected x c)) as [P1 P2]. unfold punch_at. rewrite P1, P2. split; [done|]. unfold s0. rewrite conn_at_on, bool_decide_eq_true_2 by done.
    unfold conn_at in Er. cbn [a_heap set set_a_dash]. by destruct (a_heap s !! c). }
  destruct H1 as (H1 & Ei1 & Er1). clearbody s1. destruct (ok_fresh_over l s1 i c H1 Ei1 Er1) as [H2 Hl]. change (a_lan_conns s1) with (a_lan_conns (punch_clear s1 i)) in Hl.
  set (s2 := punch_clear s1 i) in *. clearbody s2. set (s3 := if claim_served_has _ _ then _ else s2).
  assert (H3 : adm_ok (c :: l) s3 /\ Some c ∉ a_lan_conns s3) by (unfold s3; destruct (claim_served_has _ _); [rewrite tell_lan; split; [by apply ok_tell|done]|done]).
  destruct H3 as [H3 Hl3]. clearbody s3. set (s4 := conn_register _ c).
  assert (H4 : adm_ok (c :: l) s4) by (apply ok_register; [rewrite elem_of_app; left; left|exact H3]).
  assert (Hl4 : Some c ∉ a_lan_conns s4) by (unfold s4; by rewrite register_lan). clearbody s4. pose proof (ok_spawn l s4 x c H4) as H5. pose proof (spawn_lan s4 x c) as E5.
  destruct (worker_spawn s4 x c) as [s5 []]; cbn [fst snd] in *; [done|]. apply ok_free; [done|by rewrite E5].
Qed.
Lemma by_ufrag_works s u t : worker_by_ufrag s u = Some t -> t ∈ workers (view s).
Proof.
  unfold worker_by_ufrag. destruct (bytes_eqb u []); [done|]. destruct (first_index _ (a_ws s) 0) as [i|] eqn:Ei; [|done]. intros [= <-]. apply first_index_at in Ei as (w & Hw & Hs).
  unfold worker_at. erewrite nth_lookup_Some by done. apply (working_in _ i); [done|]. unfold worker_serves in Hs. by destruct (w_used w).
Qed.
Lemma ok_scan_one l x s i : adm_ok l s -> adm_ok l (punch_scan_one x s i).
Proof.
  intros H. unfold punch_scan_one. destruct (punch_at s i) as [c|] eqn:Ei; [|done]. cbv zeta. pose proof (at_slot_some _ _ _ Ei) as Ei'.
  assert (Hcp : c ∈ punches (view s)) by (rewrite (omap_clear _ _ _ Ei'); left).
  assert (Hne : forall t, t ∈ workers (view s) -> t <> c) by (intros t Ht ->; apply (once_apart _ _ _ (go_once _ _ _ H)) in Ht as (_ & X & _); done).
  destruct (negb _ && x_connected x c).
  - set (s0 := s <| a_last_served := _ |> <| a_have_served := true |>). assert (H0 : adm_ok l s0) by exact H.
    destruct (hc_punch_resume (conn_at s c)) as [t|] eqn:Er.
    + apply ok_graft; [done|done|]. apply Hne. apply (go_resume _ _ _ H c t Hcp). by rewrite at_view.
    + destruct (worker_by_ufrag s0 _) as [t|] eqn:Ew; [apply ok_graft; [done|done|]; apply Hne; by apply by_ufrag_works in Ew|by apply ok_serve].
  - destruct (negb _ && x_failed x c); [|done]. destruct (ok_unpunch l s i c (ok_bare _ _ _ H) Ei) as [H1 H2]. apply ok_free; [done|].
    cbn. unfold punch_uncount, give_back. by repeat case_match.
Qed.
Lemma ok_scan l s x : adm_ok l s -> adm_ok l (punch_scan s x).
Proof. apply fold_keeps. intros s' i. apply ok_scan_one. Qed.
Lemma ok_reap_stale l s x u p : adm_ok l s -> adm_ok l (punch_reap_stale s x u p).
Proof. apply fold_keeps. intros s' i H. destruct (held _ _ _); [by apply ok_release|done]. Qed.
Lemma ok_drop_unreachable l s x : adm_ok l s -> adm_ok l (punch_drop_unreachable s x).
Proof.
  intros H. unfold punch_drop_unreachable. destruct (negb _); [done|]. revert H. apply fold_keeps. intros s' i H. destruct (punch_at s' i); [|done]. destruct (unreachable _ _ _); [by apply ok_release|done].
Qed.
Lemma ok_evict l s x : adm_ok l s -> adm_ok l (punch_evict_idle s x).1.
Proof. intros H. unfold punch_evict_idle. destruct (oldest_punch s _); [by apply ok_release|done]. Qed.
Lemma ok_reap_oldest l s x u : adm_ok l s -> adm_ok l (punch_reap_oldest s x u).
Proof. intros H. unfold punch_reap_oldest. destruct (oldest_punch s _); [by apply ok_release|done]. Qed.
Lemma listen_lan l s c : adm_ok l s -> a_listen s = Some c -> Some c ∉ a_conns s /\ Some c ∉ a_lan_conns s.
Proof.
  intros H E. assert (X : c ∉ workers (view s)) by (intros Hw; apply (once_apart _ _ _ (go_once _ _ _ H)) in Hw as (_ & _ & X & _); apply X; cbn; rewrite E; left).
  apply (not_registered l); [done| |done]. intros Hl. pose proof (go_once _ _ _ H) as Y. apply NoDup_app in Y as (_ & Y & _). apply (Y c Hl). unfold roles. cbn. rewrite E. rewrite !elem_of_app. right; right; left; left.
Qed.
Lemma ok_drop_listener l s x : adm_ok l s -> adm_ok l (drop_listener s x).
Proof.
  intros H. unfold drop_listener. destruct (a_listen s) as [c|] eqn:E.
  - pose proof (ok_unlisten l s H) as H1. rewrite E in H1. cbn [option_list app] in H1. pose proof (ok_free l (s <| a_listen := None |>) x c H1) as H2. apply H2. by apply (listen_lan l s c H E).
  - exact (eq_rect _ (fun g => gate_ok [] l g) H _ ltac:(unfold view; cbn; by rewrite E)).
Qed.
Lemma ok_on_loose l s c f : (forall h, ci_resume (info (f h)) = ci_resume (info h) /\ ci_pending (info (f h)) = ci_pending (info h)) -> adm_ok (c :: l) s -> adm_ok (c :: l) (on_conn s c f).
Proof.
  intros Hf H. pose proof (loose_apart _ _ _ _ H) as (_ & N2 & _ & N4 & _). eapply gate_ok_like; [apply (like_on []); [done|]|done|done]. intros X. by apply elem_of_app in X as [?|?].
Qed.
Lemma loose_free l s c : adm_ok (c :: l) s -> is_Some (a_heap s !! c).
Proof. intros H. assert (X : is_Some (q_info (view s) !! c)) by (apply (go_heap _ _ _ H); left). cbn in X. by rewrite lookup_fmap, fmap_is_Some in X. Qed.
Lemma ok_listen l s c : adm_ok (c :: l) s -> a_listen s = None -> Some c ∉ a_conns s -> Some c ∉ a_lan_conns s -> ice_ctx (pe_ice (hc_pr (conn_at s c))) <> 0 ->
  adm_ok l (s <| a_listen := Some c |>).
Proof.
  intros H E Hc Hl Hx. pose proof (loose_apart _ _ _ _ H) as (N1 & N2 & N3 & N4 & N5). destruct H as [B1 B2 B3 B4 B5 B6 B7 B8 B9 B10]. set (s' := s <| a_listen := Some c |>).
  assert (P : l ++ roles (view s') ≡ₚ (c :: l) ++ roles (view s)).
  { unfold roles. cbn. rewrite E. change (punches (view s')) with (punches (view s)). change (workers (view s')) with (workers (view s)). cbn. by rewrite <- !Permutation_middle. }
  split; try done.
  - by rewrite P.
  - intros d. rewrite P. apply B4.
  - intros d Hd. pose proof (B5 d Hd) as X. cbn [app] in X. apply elem_of_cons in X as [->|X]; done.
  - intros d Hd. pose proof (B6 d Hd) as X. cbn [app] in X. apply elem_of_cons in X as [->|X]; done.
  - intros d Hd. change (q_at (view s') d) with (q_at (view s) d). apply B9. cbn in *. rewrite E. change (punches (view s')) with (punches (view s)) in Hd. rewrite !elem_of_app, list_elem_of_singleton in Hd.
    rewrite elem_of_cons, !elem_of_app. naive_solver.
  - intros d Hd _. change (q_at (view s') d) with (q_at (view s) d). change (punches (view s')) with (punches (view s)) in Hd. cbn in Hd. apply elem_of_app in Hd as [Hd|Hd].
    + apply B10; [rewrite elem_of_app; by left|set_solver].
    + apply list_elem_of_singleton in Hd as ->. by rewrite at_view.
Qed.
Lemma fresh_conns l s x n s' c : adm_ok l s -> conn_alloc s x n = Some (s', c) -> Some c ∉ a_conns s' /\ a_listen s' = a_listen s /\ a_lan_conns s' = a_lan_conns s /\ view s' = view s' /\ workers (view s') = workers (view s).
Proof.
  intros H E. unfold conn_alloc in E. destruct (x_addr x n) as [d|]; [|done]. case_bool_decide as Ed; [done|]. cbv zeta in E. injection E as <- <-. split_and!; try done. cbn. intros X.
  apply (go_conns _ _ _ H) in X. apply Ed. assert (Y : is_Some (q_info (view s) !! d)). { apply (go_heap _ _ _ H). unfold roles. rewrite !elem_of_app in *. naive_solver. }
  cbn in Y. by rewrite lookup_fmap, fmap_is_Some in Y.
Qed.
Lemma ok_gather_start s x ag : adm_ok [] s -> adm_ok [] (gather_start s x ag).
Proof.
  intros H. unfold gather_start. destruct (a_waiting s || negb (is_null (a_listen s)) || _) eqn:Eg; [done|]. destruct (conn_alloc s x 0) as [[s1 c]|] eqn:Ea; [|done].
  assert (En : a_listen s = None). { apply orb_false_iff in Eg as [Eg _]. apply orb_false_iff in Eg as [_ Eg]. by destruct (a_listen s). }
  destruct (ok_alloc _ _ _ _ _ _ H Ea) as [H1 Hl]. destruct (fresh_conns _ _ _ _ _ _ H Ea) as (Hc & El & _). clear Ea. cbv zeta.
  set (s2 := s1 <| a_have_peer := false |> <| a_remote_set := false |> <| a_restart := false |> <| a_peer_sdp := [] |>). assert (H2 : adm_ok [c] s2) by exact H1.
  assert (F : adm_ok [] (conn_free s2 x (Some c))) by (by apply ok_free). destruct ag as [[ag ctx]|]; [|exact F]. destruct (negb (truth ag && truth ctx)) eqn:Eb; [exact F|]. apply negb_false_iff, andb_true_iff in Eb as [_ Ex].
  apply ok_listen; [by apply ok_on_loose|by cbn; rewrite El|done|done|]. rewrite conn_at_on, bool_decide_eq_true_2 by done. destruct (loose_free _ _ _ H2) as [h ->]. cbn. intros ->. done.
Qed.
Lemma ok_gather_end s x g : adm_ok [] s -> adm_ok [] (gather_end s x g).
Proof. intros H. unfold gather_end. destruct (a_waiting s); [done|]. destruct g; [done|]. exact (ok_drop_listener [] s x H). Qed.
Lemma ok_swap l s f : adm_ok l s -> adm_ok l (swap_sig s f).
Proof. done. Qed.
Lemma ok_moved l s x f : adm_ok l s -> adm_ok l (turn_moved s x f).
Proof. intros H. unfold turn_moved. apply ok_swap. apply fold_keeps; [intros s' i; apply ok_release|by apply ok_drop_listener]. Qed.

(** Admission over the segment. *)
Lemma ok_lan_slot l s slot c : c ∈ l ++ workers (view s) -> adm_ok l s -> adm_ok l (s <| a_lan_conns := <[slot := Some c]> (a_lan_conns s) |>).
Proof.
  intros Hc [B1 B2 B3 B4 B5 B6 B7 B8 B9 B10]. split; try done. intros d Hd. cbn in Hd. apply list_elem_of_lookup in Hd as [j Hj]. destruct (decide (j = slot)) as [->|].
  - destruct (decide (slot < length (a_lan_conns s))%nat); [rewrite list_lookup_insert_eq in Hj by done; by injection Hj as ->|].
    rewrite list_insert_ge in Hj by lia. apply B6. by eapply list_elem_of_lookup_2.
  - rewrite list_lookup_insert_ne in Hj by done. apply B6. by eapply list_elem_of_lookup_2.
Qed.
Lemma ok_lan_unslot l s slot : adm_ok l s -> adm_ok l (s <| a_lan_conns := <[slot := None]> (a_lan_conns s) |>).
Proof.
  intros [B1 B2 B3 B4 B5 B6 B7 B8 B9 B10]. split; try done. intros d Hd. apply B6. cbn in Hd. apply list_elem_of_lookup in Hd as [j Hj].
  destruct (decide (j = slot)) as [->|]; [|rewrite list_lookup_insert_ne in Hj by done; by eapply list_elem_of_lookup_2].
  destruct (decide (slot < length (a_lan_conns s))%nat); [by rewrite list_lookup_insert_eq in Hj|rewrite list_insert_ge in Hj by lia; by eapply list_elem_of_lookup_2].
Qed.
Lemma ok_lan_admit l s x c slot m u addr : adm_ok (c :: l) s -> Some c ∉ a_lan_conns s -> (slot < length (a_lan_conns s))%nat -> adm_ok l (lan_admit s x c slot m u addr).
Proof.
  intros H Hl Hs. unfold lan_admit. cbv zeta. set (s1 := on_conn s c _). assert (H1 : adm_ok (c :: l) s1 /\ a_lan_conns s1 = a_lan_conns s) by (split; [by apply ok_on_loose|done]). clearbody s1. destruct H1 as [H1 E1].
  set (s2 := if bytes_eqb _ [] then s1 else _). assert (H2 : adm_ok (c :: l) s2 /\ a_lan_conns s2 = a_lan_conns s) by (unfold s2; by destruct (bytes_eqb _ _)). clearbody s2. destruct H2 as [H2 E2].
  set (s3 := on_conn _ c _). assert (H3 : adm_ok (c :: l) s3 /\ a_lan_conns s3 = a_lan_conns s) by (split; [apply ok_on; [done|]; by apply ok_admitted|done]). clearbody s3. destruct H3 as [H3 E3].
  set (s4 := s3 <| a_lan_conns := _ |>). assert (H4 : adm_ok (c :: l) s4) by (apply ok_lan_slot; [rewrite elem_of_app; left; left|done]).
  assert (E4 : a_lan_conns s4 = <[slot := Some c]> (a_lan_conns s)) by (unfold s4; cbn; by rewrite E3). clearbody s4.
  set (s5 := conn_register _ c). assert (H5 : adm_ok (c :: l) s5) by (apply ok_register; [rewrite elem_of_app; left; left|by apply ok_tell]).
  assert (E5 : a_lan_conns s5 = a_lan_conns s4) by (unfold s5; by rewrite register_lan, tell_lan). clearbody s5.
  set (s6 := if a_obs s5 then _ else s5). assert (H6 : adm_ok (c :: l) s6 /\ a_lan_conns s6 = a_lan_conns s5) by (unfold s6; destruct (a_obs s5); [split; [by apply ok_row|apply row_lan]|split; done]). clearbody s6. destruct H6 as [H6 E6].
  pose proof (ok_spawn l s6 x c H6) as H7. pose proof (spawn_lan s6 x c) as E7. destruct (worker_spawn s6 x c) as [s7 []]; cbn [fst snd] in *; [done|].
  set (s8 := if a_obs s7 then _ else s7). assert (H8 : adm_ok (c :: l) s8 /\ a_lan_conns s8 = a_lan_conns s7) by (unfold s8; by destruct (a_obs s7)). clearbody s8. destruct H8 as [H8 E8].
  apply ok_free; [by apply ok_lan_unslot|]. cbn. rewrite E8, E7, E6, E5, E4, list_insert_insert_eq. intros X. apply list_elem_of_lookup in X as [j Hj]. destruct (decide (j = slot)) as [->|].
  - by rewrite list_lookup_insert_eq in Hj.
  - rewrite list_lookup_insert_ne in Hj by done. apply Hl. by eapply list_elem_of_lookup_2.
Qed.
Lemma ok_lan_loop x q : forall s n, adm_ok [] s -> adm_ok [] (lan_loop s x n q).
Proof.
  induction q as [|a q IH]; intros s n H; [done|]. cbn [lan_loop]. destruct (lanlink_map_peer _ _) as [m|]; [|by apply IH]. destruct (lan_conn_active s m || _ || budget_spent s); [by apply IH|].
  destruct (free_slot (a_lan_conns s)) as [slot|] eqn:Ef; [|done]. destruct (conn_alloc s x n) as [[s1 c]|] eqn:Ea; [|done]. destruct (ok_alloc _ _ _ _ _ _ H Ea) as [H1 Hl].
  destruct (fresh_conns _ _ _ _ _ _ H Ea) as (_ & _ & El & _). destruct (peering_add_path _ _ _ _ _ _) as [pr [addr|]] eqn:Ep.
  2: { apply ok_free; [|done]. by apply ok_on_loose. }
  apply IH. apply ok_lan_admit; [by apply ok_on_loose|done|]. cbn. rewrite El. apply free_slot_at, lookup_lt_Some in Ef. done.
Qed.

(** An ask taken up. *)
Lemma release_listen s x i : a_listen (punch_release s x i) = a_listen s.
Proof. unfold punch_release, punch_uncount, give_back. by repeat case_match. Qed.
Lemma stale_listen s x u p : a_listen (punch_reap_stale s x u p) = a_listen s.
Proof. unfold punch_reap_stale. apply (fold_keeps (fun s' => a_listen s' = a_listen s)); [|done]. intros s' i H. destruct (held _ _ _); [by rewrite release_listen|done]. Qed.
Lemma evict_listen s x : a_listen (punch_evict_idle s x).1 = a_listen s.
Proof. unfold punch_evict_idle. destruct (oldest_punch s _); [apply release_listen|done]. Qed.
Lemma room_spec l s x : adm_ok l s -> adm_ok l (make_room s x).1 /\ a_listen (make_room s x).1 = a_listen s /\ (forall k, (make_room s x).2 = Some k -> a_punching (make_room s x).1 !! k = Some None).
Proof.
  intros H. unfold make_room. cbv zeta. pose proof (ok_evict l s x H) as He. pose proof (evict_listen s x) as El. destruct (is_null (punch_slot_find s).1 || _) eqn:Ef.
  - destruct (punch_evict_idle s x) as [s1 []] eqn:E1; cbn [fst snd] in *.
    + split_and!; [done|done|]. intros k. destruct (is_null (punch_slot_find s1).1 || (_ <=? (punch_slot_find s1).2)%nat); [done|]. cbn. apply free_slot_at.
    + assert (s1 = s) as -> by (unfold punch_evict_idle in E1; destruct (oldest_punch s _); [done|by injection E1]). rewrite Ef. done.
  - rewrite Ef. split_and!; [done|done|]. intros k. cbn. apply free_slot_at.
Qed.
Lemma release_slot s x i k : a_punching s !! k = Some None -> a_punching (punch_release s x i) !! k = Some None.
Proof.
  intros H. unfold punch_release. destruct (punch_at s i) as [c|] eqn:Ei; [|done]. cbv zeta. apply at_slot_some in Ei.
  assert (E : a_punching (punch_uncount s c) = a_punching s) by (unfold punch_uncount, give_back; by repeat case_match).
  assert (k <> i) by congruence. destruct (cid_set _); cbn; rewrite E; by rewrite list_lookup_insert_ne.
Qed.
Lemma release_workers s x i : workers (view (punch_release s x i)) = workers (view s).
Proof. unfold punch_release, punch_uncount, give_back. by repeat case_match. Qed.
Lemma stale_workers s x u p : workers (view (punch_reap_stale s x u p)) = workers (view s).
Proof. unfold punch_reap_stale. apply (fold_keeps (fun s' => workers (view s') = workers (view s))); [|done]. intros s' i H. destruct (held _ _ _); [by rewrite release_workers|done]. Qed.
Lemma room_workers s x : workers (view (make_room s x).1) = workers (view s).
Proof.
  unfold make_room, punch_evict_idle. cbv zeta. destruct (is_null (punch_slot_find s).1 || (_ <=? (punch_slot_find s).2)%nat); [|done].
  destruct (oldest_punch s _); cbn [fst]; [apply release_workers|done].
Qed.
Lemma amend_same s x u p d : view (punch_amend_repost s x u p d) = view s /\ a_offers (punch_amend_repost s x u p d) = a_offers s.
Proof. unfold punch_amend_repost, conn_amend_remote. by repeat case_match. Qed.
Record taken_up (s s1 s' : asess) (pc k : nat) (resume : option nat) (cu : bytes) : Prop := {
  tu_other : forall d, d <> pc -> conn_at s1 d = conn_at s d;
  tu_tables : a_punching s1 = a_punching s /\ a_ws s1 = a_ws s /\ a_conns s1 = a_conns s /\ a_lan_conns s1 = a_lan_conns s /\ a_admitted s1 = a_admitted s /\ a_count s1 = a_count s /\ a_admit_max s1 = a_admit_max s;
  tu_begun : punch_begun (view s1) (view s') pc k resume;
  tu_punch : forall d, ci_punch (q_at (view s') d) = if decide (d = pc) then snprintf 40 cu else ci_punch (q_at (view s1) d);
  tu_claim : forall d, d <> pc -> ci_claim (q_at (view s') d) = ci_claim (q_at (view s1) d);
  tu_admitted : a_admitted s' = match resume with Some _ => a_admitted s | None => if ufrag_admitted s1 cu then a_admitted s else a_admitted s + 1 end;
  tu_count : a_count s' = a_count s; tu_max : a_admit_max s' = a_admit_max s
}.
Lemma take_begun l s x pc resume k cid cu cp fl st : adm_ok (pc :: l) s -> (forall t, resume = Some t -> t ∈ workers (view s)) -> ice_ctx (pe_ice (hc_pr (conn_at s pc))) <> 0 ->
  let r := punch_take s x pc resume k cid cu cp fl st in if r.2 then exists s1, adm_ok (pc :: l) s1 /\ taken_up s s1 r.1 pc k resume cu else r.1 = say s (EvRemote pc fl).
Proof.
  intros H Ht Hx. cbv zeta. unfold punch_take. set (s0 := say s _). assert (H0 : adm_ok (pc :: l) s0) by exact H. destruct (loose_free _ _ _ H0) as [h Hh].
  assert (Eh : conn_at s0 pc = h) by (unfold conn_at; by rewrite Hh). destruct (peering_ice_prime _ _ _ _) as [pr ok] eqn:Ep. destruct ok; cbn [negb fst snd]; [|done].
  assert (Epr : ice_ctx (pe_ice pr) <> 0). { unfold peering_ice_prime in Ep. destruct (negb (x_takes x)); [done|]. injection Ep as <-. cbn. change (conn_at s pc) with (conn_at s0 pc) in Hx. exact Hx. }
  set (s1 := on_conn s0 pc _). assert (H1 : adm_ok (pc :: l) s1) by (by apply ok_on_loose). exists s1. split; [done|].
  assert (X1 : ice_ctx (pe_ice (hc_pr (conn_at s1 pc))) <> 0) by (unfold s1; rewrite conn_at_on, bool_decide_eq_true_2, Hh by done; exact Epr).
  assert (O1 : forall d, d <> pc -> conn_at s1 d = conn_at s d) by (intros d Hd; unfold s1; by rewrite conn_at_on, bool_decide_eq_false_2).
  assert (T1 : a_punching s1 = a_punching s /\ a_ws s1 = a_ws s /\ a_conns s1 = a_conns s /\ a_lan_conns s1 = a_lan_conns s /\ a_admitted s1 = a_admitted s /\ a_count s1 = a_count s /\ a_admit_max s1 = a_admit_max s) by done.
  assert (T2 : workers (view s1) = workers (view s)) by done. clearbody s1. clear h Hh Eh Ep Epr Hx H H0 s0. rewrite <- T2 in Ht.
  pose proof (loose_apart _ _ _ _ H1) as (_ & _ & Nw & _). destruct (loose_free _ _ _ H1) as [h Hh].
  set (s2 := match resume with Some t => _ | None => _ end).
  assert (A2 : forall d, conn_at s2 d = if decide (resume = Some d) then (conn_at s1 d) <| hc_resume_pending := hc_resume_pending (conn_at s1 d) + 1 |> <| hc_resume_last_ms := x_at x |> else conn_at s1 d).
  { intros d. unfold s2. destruct resume as [t|]; [|rewrite decide_False by done; by destruct (ufrag_admitted s1 cu)]. rewrite conn_at_on. destruct (decide (Some t = Some d)) as [[= <-]|Hn].
    - rewrite bool_decide_eq_true_2 by done. assert (Hs : is_Some (q_info (view s1) !! t)) by (apply (go_heap _ _ _ H1); cbn [app]; right; unfold roles; rewrite !elem_of_app; auto).
      cbn in Hs. rewrite lookup_fmap, fmap_is_Some in Hs. destruct Hs as [ht Hht]. unfold conn_at. by rewrite Hht.
    - rewrite bool_decide_eq_false_2 by congruence. done. }
  assert (D2 : forall d, is_Some (a_heap s2 !! d) <-> is_Some (a_heap s1 !! d)).
  { intros d. unfold s2. destruct resume as [t|]; [|by destruct (ufrag_admitted s1 cu)]. cbn. destruct (decide (d = t)) as [->|]; [rewrite lookup_alter_eq; by rewrite fmap_is_Some|by rewrite lookup_alter_ne]. }
  assert (T : a_punching s2 = a_punching s1 /\ a_ws s2 = a_ws s1 /\ a_listen s2 = a_listen s1 /\ a_shells s2 = a_shells s1 /\ a_conns s2 = a_conns s1 /\ a_lan_conns s2 = a_lan_conns s1 /\
    a_count s2 = a_count s1 /\ a_admit_max s2 = a_admit_max s1 /\ a_admitted s2 = match resume with Some _ => a_admitted s1 | None => if ufrag_admitted s1 cu then a_admitted s1 else a_admitted s1 + 1 end)
    by (unfold s2; destruct resume; [done|by destruct (ufrag_admitted s1 cu)]).
  clearbody s2. destruct T as (Q1 & Q2 & Q3 & Q4 & Q5 & Q6 & Q7 & Q8 & Q9). destruct T1 as (R1 & R2 & R3 & R4 & R5 & R6 & R7). set (s3 := s2 <| a_punching := _ |>). set (f := fun h : hconn => _). assert (Hp2 : is_Some (a_heap s2 !! pc)) by (apply D2; by exists h). destruct Hp2 as [h2 Hh2].
  assert (Eh2 : conn_at s1 pc = h2). { pose proof (A2 pc) as X. rewrite decide_False in X by (intros E; apply Nw; by apply Ht). rewrite <- X. unfold conn_at. by rewrite Hh2. }
  assert (A4 : forall d, conn_at (on_conn s3 pc f) d = if decide (d = pc) then f (conn_at s1 pc) else conn_at s2 d).
  { intros d. rewrite conn_at_on. change (a_heap s3) with (a_heap s2). rewrite Hh2, Eh2. case_bool_decide; [by rewrite decide_True|by rewrite decide_False]. }
  assert (P : punch_begun (view s1) (view (on_conn s3 pc f)) pc k resume).
  { split; cbn [view q_punching q_ws q_listen q_shells q_conns q_lan on_conn s3 a_punching a_ws a_listen a_shells a_conns a_lan_conns set set_a_heap set_a_punching]; try done.
    - by rewrite Q1.
    - intros d. cbn. rewrite !lookup_fmap, !fmap_is_Some. destruct (decide (d = pc)) as [->|]; [rewrite lookup_alter_eq, fmap_is_Some|rewrite lookup_alter_ne by done]; apply D2.
    - intros d. rewrite !at_view, A4. destruct (decide (d = pc)); [done|]. rewrite A2. by destruct (decide (resume = Some d)).
    - intros d. rewrite !at_view, A4. destruct (decide (d = pc)) as [->|]; [rewrite decide_False by (intros E; apply Nw; by apply Ht); cbn; lia|]. rewrite A2. destruct (decide (resume = Some d)); cbn; lia.
    - intros d Hd. rewrite !at_view, A4, decide_False by done. rewrite A2. by destruct (decide (resume = Some d)).
    - rewrite at_view, A4, decide_True by done. exact X1. }
  split; [done|done|done| | | | |].
  - intros d. rewrite !at_view, A4. destruct (decide (d = pc)); [done|]. rewrite A2. by destruct (decide (resume = Some d)).
  - intros d Hd. rewrite !at_view, A4, decide_False by done. rewrite A2. by destruct (decide (resume = Some d)).
  - change (a_admitted (on_conn s3 pc f)) with (a_admitted s2). rewrite Q9. by rewrite R5.
  - change (a_count (on_conn s3 pc f)) with (a_count s2). congruence.
  - change (a_admit_max (on_conn s3 pc f)) with (a_admit_max s2). congruence.
Qed.
Lemma ok_take l s x pc resume k cid cu cp fl st : adm_ok (pc :: l) s -> a_punching s !! k = Some None -> (forall t, resume = Some t -> t ∈ workers (view s)) ->
  Some pc ∉ a_conns s -> Some pc ∉ a_lan_conns s -> ice_ctx (pe_ice (hc_pr (conn_at s pc))) <> 0 ->
  let r := punch_take s x pc resume k cid cu cp fl st in if r.2 then adm_ok l r.1 else adm_ok (pc :: l) r.1.
Proof.
  intros H Hk Ht Hc Hl Hx. pose proof (take_begun l s x pc resume k cid cu cp fl st H Ht Hx) as T. cbv zeta in *. destruct (punch_take _ _ _ _ _ _ _ _ _ _) as [s' []]; cbn [fst snd] in *; [|by subst].
  destruct T as (s1 & H1 & [_ (R1 & R2 & R3 & R4 & _) P _ _ _ _ _]). apply (ok_punch l (view s1) _ pc k resume); try done; cbn [view q_punching q_conns q_lan]; rewrite ?R1, ?R3, ?R4; try done. unfold workers in *. cbn [view q_ws] in *. by rewrite R2.
Qed.
Lemma take_listen s x pc r k cid cu cp fl st :
  punch_take (s <| a_listen := None |>) x pc r k cid cu cp fl st = ((punch_take s x pc r k cid cu cp fl st).1 <| a_listen := None |>, (punch_take s x pc r k cid cu cp fl st).2).
Proof.
  unfold punch_take. change (conn_at (say (s <| a_listen := None |>) (EvRemote pc fl)) pc) with (conn_at (say s (EvRemote pc fl)) pc). destruct (peering_ice_prime _ _ _ _) as [pr []]; [|done]. cbn [negb].
  destruct r; [done|]. set (a := say s (EvRemote pc fl)). change (ufrag_admitted (on_conn (say (s <| a_listen := None |>) (EvRemote pc fl)) pc ?f) cu) with (ufrag_admitted (on_conn a pc f) cu).
  by destruct (ufrag_admitted _ _).
Qed.
Lemma ok_offer_punch s x l idx k w cid sdp cu cp : adm_ok [] s -> a_listen s = Some l -> a_punching s !! k = Some None -> (forall t, w = Some t -> t ∈ workers (view s)) ->
  adm_ok [] ((offer_punch s x l idx k w cid sdp cu cp) <| a_listen := None |>).
Proof.
  intros H El Hk Hw. unfold offer_punch. cbv zeta. set (s1 := if (_ <=? _)%nat then punch_reap_oldest s x cu else s).
  assert (H1 : adm_ok [] s1 /\ a_listen s1 = Some l /\ a_punching s1 !! k = Some None /\ workers (view s1) = workers (view s)).
  { unfold s1. destruct (_ <=? _)%nat; [|done]. split; [by apply ok_reap_oldest|]. unfold punch_reap_oldest. destruct (oldest_punch s _); [|done]. rewrite release_listen, release_workers. split_and!; [done|by apply release_slot|done]. }
  clearbody s1. destruct H1 as (H1 & El1 & Hk1 & Ew1). pose proof (ok_unlisten [] s1 H1) as U. rewrite El1 in U. cbn [option_list app] in U. destruct (listen_lan [] s1 l H1 El1) as [Hc Hl].
  assert (Hx : ice_ctx (pe_ice (hc_pr (conn_at s1 l))) <> 0).
  { pose proof (go_ctx _ _ _ H1 l) as X. rewrite at_view in X. apply X; [cbn; rewrite El1; rewrite elem_of_app; right; left|set_solver]. }
  pose proof (ok_take [] (s1 <| a_listen := None |>) x l w k cid cu cp (sdp_filter_peer sdp (a_family s1) NAT_SDP_MAX) (0 <? a_stuck_left s1) U Hk1) as T. cbv zeta in T.
  rewrite take_listen in T. specialize (T ltac:(intros t Et; rewrite <- Ew1 in Hw; by apply Hw) Hc Hl Hx). cbn [fst snd] in T.
  assert (Tl : a_lan_conns (punch_take s1 x l w k cid cu cp (sdp_filter_peer sdp (a_family s1) NAT_SDP_MAX) (0 <? a_stuck_left s1)).1 = a_lan_conns s1).
  { unfold punch_take. destruct (peering_ice_prime _ _ _ _) as [pr []]; [|done]. cbn. destruct w; [done|]. by destruct (ufrag_admitted _ _). }
  destruct (punch_take s1 x l w k cid cu cp _ _) as [s2 []]; cbn [fst snd negb] in *.
  - set (s3 := if 0 <? a_stuck_left s2 then _ else s2). assert (H3 : adm_ok [] (s3 <| a_listen := None |>)) by (unfold s3; by destruct (0 <? a_stuck_left s2)). clearbody s3.
    set (f := fun h : hconn => h <| hc_answer_sdp := snprintf NAT_SDP_MAX (x_local x) |>). assert (Ef : forall h, info (f h) = info h) by done. exact (ok_on [] (s3 <| a_listen := None |>) l f Ef H3).
  - apply (ok_free [] (s2 <| a_listen := None |>) x l T). cbn. by rewrite Tl.
Qed.
Lemma ok_offer_take s x listen i : adm_ok [] s -> (forall l, listen = Some l -> a_listen s = Some l) ->
  let r := host_offer_take s x listen i in if r.2 then adm_ok [] (r.1 <| a_listen := None |>) else adm_ok [] r.1 /\ a_listen r.1 = a_listen s.
Proof.
  intros H Hl. cbv zeta. unfold host_offer_take. destruct (default None (a_offers s !! i)) as [[cid sdp]|]; [|done]. cbv zeta. destruct (bytes_eqb (sdp_ufrag sdp) []); [done|].
  set (cu := sdp_ufrag sdp). set (cp := sdp_pwd sdp). set (w := worker_by_ufrag s cu). pose proof (by_ufrag_works s cu) as Hw. fold w in Hw. clearbody w.
  set (again := punch_tried_again s cu cp). clearbody again. set (adm := ufrag_admitted s cu). clearbody adm. set (made := _ || _). clearbody made.
  destruct (amend_same s x cu cp sdp) as [Ev _]. set (s1 := punch_amend_repost s x cu cp sdp) in *. clearbody s1. assert (H1 : adm_ok [] s1) by (unfold adm_ok; by rewrite Ev). assert (El1 : a_listen s1 = a_listen s) by (by injection Ev).
  rewrite <- Ev in Hw. destruct (in_hand s1 w made cu cp); [done|]. destruct (is_null w && negb adm && budget_spent s1); [done|]. destruct listen as [l|]; [|done]. specialize (Hl l eq_refl).
  set (s2 := if again then _ else s1). assert (H2 : adm_ok [] s2 /\ a_listen s2 = Some l /\ workers (view s2) = workers (view s1)).
  { unfold s2. destruct again; [|rewrite El1; done]. rewrite stale_listen, stale_workers. split; [by apply ok_reap_stale|by rewrite El1]. }
  clearbody s2. destruct H2 as (H2 & El2 & Ew2). destruct (room_spec [] s2 x H2) as (R1 & R2 & R3). pose proof (room_workers s2 x) as R4. destruct (make_room s2 x) as [s3 [k|]]; cbn [fst snd] in *.
  - apply ok_offer_punch; [done|by rewrite R2|by apply R3|]. intros t Et. rewrite R4, Ew2. by apply Hw.
  - split; [done|]. by rewrite R2, El2, Hl.
Qed.
Lemma ok_offers_loop x listen js : forall s, adm_ok [] s -> (forall l, listen = Some l -> a_listen s = Some l) ->
  let r := offers_loop s x listen js in if r.2 then adm_ok [] (r.1 <| a_listen := None |>) else adm_ok [] r.1.
Proof.
  induction js as [|i js IH]; intros s H Hl; [done|]. cbv zeta in *. cbn [offers_loop]. pose proof (ok_offer_take s x listen i H Hl) as T. cbv zeta in T.
  destruct (host_offer_take s x listen i) as [s1 []]; cbn [fst snd] in *; [done|]. destruct T as [T1 T2]. apply IH; [done|]. by rewrite T2.
Qed.
Lemma ok_offers s x : adm_ok [] s -> adm_ok [] (offers_turn s x).
Proof.
  intros H. unfold offers_turn, host_offers_drain. pose proof (ok_offers_loop x (if a_waiting s then a_listen s else None) (seq 0 RDV_HOST_MAX) s H) as T. cbv zeta in T.
  destruct (offers_loop _ _ _ _) as [s1 []]; cbn [fst snd] in *; apply T; intros l; by destruct (a_waiting s).
Qed.

(** A worker taken down. *)
Record worker_gone (g g' : gate) (i : nat) (w : worker) : Prop := {
  wg_at : q_ws g !! i = Some w; wg_used : w_used w = true; wg_ws : exists d r, q_ws g' = <[i := mk_worker (w_c w) d false r]> (q_ws g);
  wg_punching : q_punching g' = q_punching g; wg_listen : q_listen g' = q_listen g; wg_shells : q_shells g' = q_shells g;
  wg_conns : forall d, Some d ∈ q_conns g' -> Some d ∈ q_conns g /\ d <> w_c w; wg_lan : forall d, Some d ∈ q_lan g' -> Some d ∈ q_lan g /\ d <> w_c w;
  wg_heap : forall d, is_Some (q_info g' !! d) <-> is_Some (q_info g !! d) /\ d <> w_c w;
  wg_resume : forall d, d <> w_c w -> d ∈ punches g -> ci_resume (q_at g' d) = if decide (ci_resume (q_at g d) = Some (w_c w)) then None else ci_resume (q_at g d);
  wg_pending : forall d, d <> w_c w -> ci_pending (q_at g' d) = ci_pending (q_at g d); wg_ctx : forall d, d <> w_c w -> ci_ctx (q_at g' d) = ci_ctx (q_at g d)
}.
Lemma ok_worker_gone l g g' i w : gate_ok [] l g -> worker_gone g g' i w -> gate_ok [] l g'.
Proof.
  intros H [A1 A2 (wd & wr & A3) A4 A5 A6 A7 A8 A9 A10 A11 A12]. pose proof (working_clear _ _ _ wd wr A1 A2) as P. set (c := w_c w) in *.
  assert (Ep : punches g' = punches g) by (unfold punches; by rewrite A4). assert (Ew : workers g ≡ₚ c :: workers g') by (unfold workers; rewrite A3; exact P).
  assert (Er : roles g ≡ₚ c :: roles g') by (unfold roles; rewrite Ep, A5, A6, Ew; cbn [app]; by rewrite <- Permutation_middle).
  assert (Hc : c ∈ workers g) by (rewrite Ew; left). destruct (once_apart _ _ _ (go_once _ _ _ H) Hc) as (N1 & N2 & N3 & N4). destruct H as [B1 B2 B3 B4 B5 B6 B7 B8 B9 B10].
  assert (B3' : NoDup (c :: (l ++ roles g'))) by (rewrite Permutation_middle, <- Er; done). apply NoDup_cons in B3' as [Nc B3'].
  assert (Nw : c ∉ workers g') by (intros X; apply Nc; unfold roles; rewrite !elem_of_app; auto). assert (Hp : forall d, d ∈ punches g -> d <> c) by (by intros d Hd ->).
  split.
  - by rewrite A4.
  - rewrite A3. by rewrite length_insert.
  - done.
  - intros d. rewrite A9, B4, Er, <- Permutation_middle, elem_of_cons. split; [naive_solver|]. intros X. split; [by right|]. by intros ->.
  - intros d Hd. apply A7 in Hd as [Hd Hn]. apply B5 in Hd. rewrite Ew, <- Permutation_middle in Hd. by apply elem_of_cons in Hd as [?|?].
  - intros d Hd. apply A8 in Hd as [Hd Hn]. apply B6 in Hd. rewrite Ew, <- Permutation_middle in Hd. by apply elem_of_cons in Hd as [?|?].
  - intros d t. rewrite Ep. intros Hd Et. rewrite A10 in Et by auto. destruct (decide (ci_resume (q_at g d) = Some c)) as [|Hn]; [done|]. apply (B7 d) in Et as Hw; [|done]. rewrite Ew in Hw.
    apply elem_of_cons in Hw as [->|?]; done.
  - intros t Ht. assert (t <> c) by (by intros ->). rewrite A11 by done. rewrite B8 by (rewrite Ew; by right). f_equal. unfold resumers. rewrite Ep. f_equal. apply filter_ext_in. intros d Hd. unfold resumes.
    rewrite A10 by auto. destruct (decide (ci_resume (q_at g d) = Some c)) as [E|]; [|done]. rewrite E. rewrite !bool_decide_eq_false_2 by congruence. done.
  - intros d. rewrite Ep, A5. intros Hd. rewrite A11; [by apply B9|]. intros ->. rewrite !elem_of_app in Hd. naive_solver.
  - intros d. rewrite Ep, A5. intros Hd Hb. rewrite A12; [by apply B10|]. intros ->. rewrite !elem_of_app in Hd. naive_solver.
Qed.
Definition clr (c : nat) (h : hconn) : hconn := if bool_decide (hc_punch_resume h = Some c) then h <| hc_punch_resume := None |> else h.
Record same_but_conns (s s' : asess) : Prop := {
  sb_punching : a_punching s' = a_punching s; sb_ws : a_ws s' = a_ws s; sb_listen : a_listen s' = a_listen s; sb_shells : a_shells s' = a_shells s;
  sb_conns : a_conns s' = a_conns s; sb_lan : a_lan_conns s' = a_lan_conns s; sb_heap : forall d, is_Some (a_heap s' !! d) <-> is_Some (a_heap s !! d);
  sb_admitted : a_admitted s' = a_admitted s; sb_count : a_count s' = a_count s; sb_max : a_admit_max s' = a_admit_max s
}.
Lemma sb_on s c f : same_but_conns s (on_conn s c f).
Proof. split; try done. intros d. cbn. destruct (decide (d = c)) as [->|]; [rewrite lookup_alter_eq; by rewrite fmap_is_Some|by rewrite lookup_alter_ne]. Qed.
Lemma sb_refl s : same_but_conns s s.
Proof. done. Qed.
Lemma sb_trans a b c : same_but_conns a b -> same_but_conns b c -> same_but_conns a c.
Proof. intros [A1 A2 A3 A4 A5 A6 A7 A8 A9 A10] [B1 B2 B3 B4 B5 B6 B7 B8 B9 B10]. split; try congruence. intros d. by rewrite B7. Qed.
Lemma orphan_spec s c : same_but_conns s (orphan s c) /\ forall d, conn_at (orphan s c) d = if decide (d ∈ punches (view s)) then clr c (conn_at s d) else conn_at s d.
Proof.
  unfold orphan, punches. cbn [view q_punching]. generalize (a_punching s) as ps. intros ps. revert s. induction ps as [|p ps IH]; intros s; [split; [done|]; intros d; by rewrite decide_False by set_solver|].
  cbn [fold_left]. destruct p as [q|]; [|apply IH]. change (omap (fun p : option nat => p) (Some q :: ps)) with (q :: omap (fun p : option nat => p) ps).
  set (s1 := on_conn s q _). destruct (IH s1) as [H1 H2]. split; [eapply sb_trans; [apply sb_on|exact H1]|]. intros d. rewrite H2.
  assert (E1 : conn_at s1 d = if decide (d = q) then clr c (conn_at s d) else conn_at s d).
  { unfold s1. rewrite conn_at_on. destruct (decide (d = q)) as [->|]; [|by rewrite bool_decide_eq_false_2 by done]. rewrite bool_decide_eq_true_2 by done. unfold conn_at. by destruct (a_heap s !! q). }
  rewrite E1. assert (I : forall h, clr c (clr c h) = clr c h) by (intros h; unfold clr; destruct (bool_decide (hc_punch_resume h = Some c)) eqn:E; [cbn; done|by rewrite E]).
  destruct (decide (d = q)) as [->|Hn]; [rewrite (decide_True (P := q ∈ q :: _)) by left; destruct (decide _); [apply I|done]|].
  destruct (decide (d ∈ omap _ ps)) as [Hd|Hd]; [rewrite (decide_True (P := d ∈ q :: _)) by (by right); done|rewrite (decide_False (P := d ∈ q :: _)); [done|]]. intros X. by apply elem_of_cons in X as [?|?].
Qed.
Lemma unname_spec s u : same_but_conns s (unname s u) /\ forall d, ci_resume (info (conn_at (unname s u) d)) = ci_resume (info (conn_at s d)) /\
  ci_pending (info (conn_at (unname s u) d)) = ci_pending (info (conn_at s d)) /\ ci_ctx (info (conn_at (unname s u) d)) = ci_ctx (info (conn_at s d)).
Proof.
  unfold unname. destruct (bytes_eqb u []); [done|]. destruct (first_index _ _ _); [|done]. destruct (at_slot _ _) as [q|]; [|done]. split; [apply sb_on|]. intros d. rewrite conn_at_on.
  case_bool_decide as E; [|done]. subst. unfold conn_at. by destruct (a_heap s !! q).
Qed.
Lemma free_other s x c d : d <> c -> conn_at (conn_free s x (Some c)) d = conn_at s d.
Proof. intros H. unfold conn_at. cbn. by rewrite lookup_delete_ne, lookup_alter_ne by done. Qed.
Lemma free_heap s x c d : is_Some (a_heap (conn_free s x (Some c)) !! d) <-> is_Some (a_heap s !! d) /\ d <> c.
Proof. cbn. destruct (decide (d = c)) as [->|]; [rewrite lookup_delete_eq; split; [by intros [? ?]|by intros [_ ?]]|rewrite lookup_delete_ne, lookup_alter_ne by done; naive_solver]. Qed.
Lemma gone_filter l c d : Some d ∈ map (forget_worker c) l -> Some d ∈ l /\ d <> c.
Proof. intros H. apply list_elem_of_In, in_map_iff in H as (p & E & Hp). apply list_elem_of_In in Hp. unfold forget_worker in E. case_bool_decide; [done|]. subst. split; [done|congruence]. Qed.
Lemma reap_gone s x i : w_used (worker_at s i) = true -> worker_gone (view s) (view (worker_reap s x i)) i (worker_at s i).
Proof.
  intros Hu. pose proof (worker_at_used s i Hu) as Hi. unfold worker_reap. cbv zeta. set (w := worker_at s i) in *. set (c := w_c w). set (h := conn_at s c). clearbody h.
  set (s1 := if a_obs s then _ else s). assert (E1 : same_but_conns s s1 /\ forall d, conn_at s1 d = conn_at s d) by (unfold s1; by destruct (a_obs s)). clearbody s1. destruct E1 as [S1 E1].
  set (s2 := s1 <| a_lan_conns := _ |>). assert (S2 : a_punching s2 = a_punching s1 /\ a_ws s2 = a_ws s1 /\ a_listen s2 = a_listen s1 /\ a_shells s2 = a_shells s1 /\ a_conns s2 = a_conns s1 /\ a_lan_conns s2 = map (forget_worker c) (a_lan_conns s1)) by done.
  destruct (orphan_spec s2 c) as [S3 E3]. set (s3 := orphan s2 c) in *. clearbody s3. destruct (unname_spec s3 (hc_claim_ufrag h)) as [S4 E4]. set (s4 := unname s3 _) in *. clearbody s4.
  set (s5 := s4 <| a_sig := _ |>). set (s6 := if negb _ && a_have_served s5 && _ then _ else s5). set (s7 := if conn_is_proven h then _ else _).
  assert (S7 : a_punching s7 = a_punching s /\ a_ws s7 = a_ws s /\ a_listen s7 = a_listen s /\ a_shells s7 = a_shells s /\ a_conns s7 = a_conns s /\ a_lan_conns s7 = map (forget_worker c) (a_lan_conns s) /\ a_heap s7 = a_heap s4).
  { unfold s7, s6, give_back. destruct S1, S3, S4, S2 as (? & ? & ? & ? & ? & ?). destruct (negb _ && a_have_served s5 && _), (conn_is_proven h); try case_match; cbn in *; split_and!; congruence. }
  destruct S7 as (T1 & T2 & T3 & T4 & T5 & T6 & T7). set (s8 := conn_free s7 x (Some c)).
  assert (W8 : a_ws s8 = a_ws s) by exact T2.
  assert (A : forall d, d <> c -> conn_at s8 d = conn_at s4 d) by (intros d Hd; unfold s8; rewrite free_other by done; unfold conn_at; by rewrite T7).
  assert (D : forall d, is_Some (a_heap s8 !! d) <-> is_Some (a_heap s !! d) /\ d <> c).
  { intros d. unfold s8. rewrite free_heap, T7. rewrite (sb_heap _ _ S4), (sb_heap _ _ S3). change (a_heap s2) with (a_heap s1). by rewrite (sb_heap _ _ S1). }
  assert (P2 : punches (view s2) = punches (view s)) by (unfold punches; cbn; by rewrite (sb_punching _ _ S1)).
  assert (Z : forall d, conn_at s2 d = conn_at s d) by (intros d; exact (E1 d)).
  set (s9 := s8 <| a_ws := _ |>). assert (A9 : forall d, d <> c -> conn_at s9 d = conn_at s4 d) by exact A. assert (D9 : forall d, is_Some (a_heap s9 !! d) <-> is_Some (a_heap s !! d) /\ d <> c) by exact D.
  assert (W9 : exists d r, a_ws s9 = <[i := mk_worker c d false r]> (a_ws s)) by (eexists _, _; unfold s9; cbn [a_ws set set_a_ws]; by rewrite W8).
  assert (C9 : a_conns s9 = map (forget_worker c) (a_conns s7) /\ a_lan_conns s9 = a_lan_conns s7 /\ a_punching s9 = a_punching s7 /\ a_listen s9 = a_listen s7 /\ a_shells s9 = a_shells s7) by done.
  clearbody s9. destruct C9 as (C1 & C2 & C3 & C4 & C5). split; try done.
  - cbn. congruence.
  - cbn. congruence.
  - cbn. congruence.
  - intros d Hd. cbn in Hd. rewrite C1, T5 in Hd. by apply (gone_filter _ c).
  - intros d Hd. cbn in Hd. rewrite C2, T6 in Hd. by apply gone_filter.
  - intros d. cbn. rewrite !lookup_fmap, !fmap_is_Some. apply D9.
  - intros d Hd Hp. rewrite !at_view, A9 by done. destruct (E4 d) as (-> & _ & _). rewrite E3, Z. rewrite decide_True by (by rewrite P2).
    unfold clr. cbn [info ci_resume]. case_bool_decide as Eb; [by rewrite decide_True|by rewrite decide_False].
  - intros d Hd. rewrite !at_view, A9 by done. destruct (E4 d) as (_ & -> & _). rewrite E3, Z. destruct (decide _); [|done]. unfold clr. by case_bool_decide.
  - intros d Hd. rewrite !at_view, A9 by done. destruct (E4 d) as (_ & _ & ->). rewrite E3, Z. destruct (decide _); [|done]. unfold clr. by case_bool_decide.
Qed.
Lemma ok_ws_same l s i d r : adm_ok l s -> (i < length (a_ws s))%nat -> adm_ok l (s <| a_ws := <[i := mk_worker (w_c (worker_at s i)) d (w_used (worker_at s i)) r]> (a_ws s) |>).
Proof.
  intros H Hi. destruct (lookup_lt_is_Some_2 _ _ Hi) as [w Hw]. assert (E : worker_at s i = w) by (unfold worker_at; by erewrite nth_lookup_Some). rewrite E.
  set (s' := s <| a_ws := _ |>). assert (Ew : workers (view s') = workers (view s)) by (by apply working_same). assert (Er : roles (view s') = roles (view s)) by (unfold roles; by rewrite Ew).
  destruct H as [B1 B2 B3 B4 B5 B6 B7 B8 B9 B10]. split; rewrite ?Ew, ?Er; try done. cbn. by rewrite length_insert.
Qed.
Lemma ok_shown l s x i : adm_ok l s -> adm_ok l (worker_shown s x i).
Proof. intros H. unfold worker_shown. cbv zeta. destruct (_ && _ && _); [|done]. set (f := fun h : hconn => h <| hc_status_peer := snprintf 80 (x_in_use x (w_c (worker_at s i))) |>). assert (Ef : forall h, info (f h) = info h) by done. exact (ok_on l s _ f Ef H). Qed.
Lemma ok_worker_turn l x s i : adm_ok l s -> adm_ok l (worker_turn x s i).
Proof.
  intros H. unfold worker_turn. cbv zeta. set (s1 := if _ && _ then _ else s). assert (H1 : adm_ok l s1).
  { unfold s1. destruct (w_used (worker_at s i)) eqn:Eu; [|done]. destruct (w_done _); [|done]. cbn [andb]. eapply ok_worker_gone; [exact H|by apply reap_gone]. }
  clearbody s1. destruct (w_used (worker_at s1 i)) eqn:Eu; [|done]. apply ok_shown. unfold worker_heard. cbv zeta. destruct (_ && _ && _); [|done]. apply (ok_ws_same l s1 i _ true H1).
  apply worker_at_used in Eu. by eapply lookup_lt_Some.
Qed.
Lemma ok_reanswer l s x fan : adm_ok l s -> adm_ok l (host_reanswer s x fan).
Proof. apply fold_keeps. intros s' [c|] H; [|done]. cbv zeta. by destruct (bytes_eqb _ _). Qed.
Lemma ok_shell s c : adm_ok [] s -> c ∈ a_shells s -> adm_ok [] ((conn_release s c) <| a_shells := List.filter (fun d => negb (bool_decide (d = c))) (a_shells s) |>).
Proof.
  intros H Hc. assert (P : a_shells s ≡ₚ c :: List.filter (fun d => negb (bool_decide (d = c))) (a_shells s)).
  { pose proof (go_once _ _ _ H) as N. unfold roles in N. cbn [app] in N. rewrite !(assoc_L app) in N. apply NoDup_app in N as (_ & _ & N). cbn in N. clear H. induction (a_shells s) as [|d l IH]; [by apply elem_of_nil in Hc|].
    apply NoDup_cons in N as [Nd N]. cbn. case_bool_decide as E; cbn.
    - subst. f_equiv. clear -Nd. induction l as [|e l IH]; [done|]. cbn. rewrite bool_decide_eq_false_2 by set_solver. cbn. f_equiv. apply IH. set_solver.
    - apply elem_of_cons in Hc as [->|Hc]; [done|]. rewrite (IH Hc N) at 1. constructor. }
  set (l' := List.filter _ _) in *. clearbody l'. set (s' := s <| a_shells := l' |>).
  assert (Er : roles (view s) ≡ₚ c :: roles (view s')). { unfold roles. cbn. change (punches (view s')) with (punches (view s)). change (workers (view s')) with (workers (view s)). rewrite P. by rewrite <- !Permutation_middle. }
  assert (Hcs : c ∈ q_shells (view s)) by done. assert (N1 : c ∉ workers (view s)) by (intros X; by apply (once_apart _ _ _ (go_once _ _ _ H)) in X as (_ & _ & _ & ?)).
  destruct (not_registered [] s c H ltac:(set_solver) N1) as [Hn Hl].
  set (s2 := (conn_release s c) <| a_shells := l' |>).
  assert (A : forall e, e <> c -> q_at (view s2) e = q_at (view s) e) by (intros e He; unfold q_at; cbn; by rewrite !lookup_fmap, lookup_delete_ne by done).
  assert (Nc : c ∉ roles (view s2)) by (pose proof (go_once _ _ _ H) as N; cbn [app] in N; rewrite Er in N; by apply NoDup_cons in N as [N _]).
  assert (Hne : forall e, e ∈ roles (view s2) -> e <> c) by (by intros e He ->). assert (Hp : forall e, e ∈ punches (view s) -> e <> c) by (intros e He; apply Hne; unfold roles; rewrite !elem_of_app; auto).
  assert (Hw : forall e, e ∈ workers (view s) -> e <> c) by (intros e He; apply Hne; unfold roles; rewrite !elem_of_app; auto).
  assert (Hpl : forall e, e ∈ punches (view s) ++ option_list (a_listen s) -> e <> c) by (intros e He; apply Hne; unfold roles; rewrite !elem_of_app in *; cbn; naive_solver).
  destruct H as [B1 B2 B3 B4 B5 B6 B7 B8 B9 B10]. cbn [app] in *. split; try done.
  - cbn [app]. rewrite Er in B3. by apply NoDup_cons in B3 as [_ B3].
  - intros e. specialize (B4 e). rewrite Er, elem_of_cons in B4. change (roles (view s')) with (roles (view s2)) in B4. cbn [app]. cbn in B4 |- *. rewrite !lookup_fmap, !fmap_is_Some in *.
    destruct (decide (e = c)) as [->|]; [rewrite lookup_delete_eq; split; [by intros [? ?]|done]|rewrite lookup_delete_ne by done; naive_solver].
  - intros e t He. rewrite A by auto. by apply B7.
  - intros t Ht. rewrite A by auto. etrans; [by apply B8|]. f_equal. symmetry. apply resumers_like; [done|]. intros e He. by rewrite A by auto.
  - intros e He. rewrite A by (by apply Hpl). by apply B9.
  - intros e He. rewrite A by (by apply Hpl). by apply B10.
Qed.
End Operations.

(** ** Every state the turnstile reaches *)
Section Reached.
Context {C : Crypto}.
Lemma ok_act s a : adm_ok [] s -> adm_ok [] (act_do s a).
Proof.
  intros H. destruct a as [cid data x|src len sdp|x|x f|x f|x|x|x|x|x|x ag|x g|x fan|i|c pp pl cp|i q ag ctx|c|sg]; cbn [act_do].
  - unfold on_peer_offer, offers_push. destruct (_ <=? _)%nat; [done|]. destruct (a_multiuser s); [by destruct (match first_index _ _ _ with Some _ => _ | None => _ end)|].
    destruct (peering_offer_judge _ _ _ _) as [[tk inc] uf]. cbv zeta. by destruct (negb tk && _ && _), (negb (tk || _)); try done; destruct (_ && _ && _).
  - unfold on_direct_claim. destruct (_ <=? _)%nat; [done|]. cbv zeta. destruct (lanlink_map_peer src len); [|done]. by repeat case_match.
  - exact (ok_lan_loop x _ s 0 H).
  - by apply ok_moved.
  - apply ok_swap. by apply ok_drop_listener.
  - revert H. apply fold_keeps. intros s' i. apply ok_worker_turn.
  - by apply ok_scan.
  - by apply ok_drop_unreachable.
  - by apply ok_drop_listener.
  - by apply ok_offers.
  - by apply ok_gather_start.
  - by apply ok_gather_end.
  - by apply ok_reanswer.
  - cbv zeta. destruct (decide (i < length (a_ws s))%nat) as [Hi|Hi]; [exact (ok_ws_same [] s i true _ H Hi)|]. unfold adm_ok, view. cbn. rewrite list_insert_ge by lia. exact H.
  - by apply ok_on.
  - destruct (w_used (worker_at s i)) eqn:Eu; [|done]. assert (Hw : w_c (worker_at s i) ∈ workers (view s)) by (apply (working_in _ i); [by apply worker_at_used|done]).
    destruct (once_apart _ _ _ (go_once _ _ _ H) Hw) as (_ & N2 & N3 & _). eapply gate_ok_like; [apply (like_on []); [done|]|done|done]. intros X. by apply elem_of_app in X as [?|?].
  - case_bool_decide; [by apply ok_shell|done].
  - exact H.
Qed.
Lemma ok_init family max obs magic key stuck sg : adm_ok [] (host_init family max obs magic key stuck sg).
Proof.
  assert (Ep : punches (view (host_init family max obs magic key stuck sg)) = []) by reflexivity. assert (Ew : workers (view (host_init family max obs magic key stuck sg)) = []) by reflexivity.
  assert (Er : roles (view (host_init family max obs magic key stuck sg)) = []) by reflexivity. split; rewrite ?Ep, ?Ew, ?Er; try done.
  - constructor.
  - intros c. cbn. rewrite lookup_fmap, lookup_empty. split; [by intros [? ?]|by intros ?%elem_of_nil].
  - intros c Hc. change (Some c ∈ replicate HOST_MAX_WORKERS (@None nat)) in Hc. apply list_elem_of_lookup in Hc as [j Hj]. by apply lookup_replicate in Hj as [? _].
  - intros c Hc. change (Some c ∈ replicate HOST_MAX_WORKERS (@None nat)) in Hc. apply list_elem_of_lookup in Hc as [j Hj]. by apply lookup_replicate in Hj as [? _].
Qed.
Lemma ok_run acts : forall s, adm_ok [] s -> adm_ok [] (act_run s acts).
Proof. apply fold_keeps. apply ok_act. Qed.
(** The tables of the turnstile that name a connection. *)
Inductive named (s : asess) (c : nat) : Prop :=
| nm_punch : Some c ∈ a_punching s -> named s c
| nm_resume q : Some q ∈ a_punching s -> hc_punch_resume (conn_at s q) = Some c -> named s c
| nm_worker w : w ∈ a_ws s -> w_used w = true -> w_c w = c -> named s c
| nm_registry : Some c ∈ a_conns s -> named s c
| nm_lan : Some c ∈ a_lan_conns s -> named s c
| nm_listen : a_listen s = Some c -> named s c
| nm_shell : c ∈ a_shells s -> named s c.
Lemma in_punches s c : Some c ∈ a_punching s -> c ∈ punches (view s).
Proof. intros H. unfold punches. apply list_elem_of_omap. by exists (Some c). Qed.
Lemma named_role s c : adm_ok [] s -> named s c -> c ∈ roles (view s).
Proof.
  intros H Hn. unfold roles. rewrite !elem_of_app. destruct Hn as [Hc|q Hq Er|w Hw Hu Hc|Hc|Hc|Hc|Hc].
  - left. by apply in_punches.
  - right; left. apply (go_resume _ _ _ H q c (in_punches _ _ Hq)). by rewrite at_view.
  - right; left. apply list_elem_of_lookup in Hw as [j Hj]. subst. by apply (working_in _ j).
  - right; left. by apply (go_conns _ _ _ H) in Hc.
  - right; left. by apply (go_lan _ _ _ H) in Hc.
  - right; right; left. cbn. rewrite Hc. left.
  - by do 3 right.
Qed.
Record same_tables (s s' : asess) : Prop := {
  st_heap : a_heap s' = a_heap s; st_punching : a_punching s' = a_punching s; st_ws : a_ws s' = a_ws s; st_shells : a_shells s' = a_shells s
}.
Lemma arrive_same x a s : same_tables s (arrive x s a).
Proof.
  destruct a as [cid data|src len sdp]; cbn [arrive].
  - unfold on_peer_offer, offers_push. destruct (_ <=? _)%nat; [done|]. destruct (a_multiuser s); [by destruct (match first_index _ _ _ with Some _ => _ | None => _ end)|].
    destruct (peering_offer_judge _ _ _ _) as [[tk inc] uf]. cbv zeta. by destruct (negb tk && _ && _), (negb (tk || _)); try done; destruct (_ && _ && _).
  - unfold on_direct_claim. destruct (_ <=? _)%nat; [done|]. cbv zeta. destruct (lanlink_map_peer src len); [|done]. by repeat case_match.
Qed.
Lemma arrivals_same x l : forall s, same_tables s (fold_left (arrive x) l s).
Proof. induction l as [|a l IH]; intros s; [done|]. cbn. destruct (arrive_same x a s), (IH (arrive x s a)). split; congruence. Qed.
Lemma end_step_spec x wind s i : let s' := end_step x wind s i in
  (forall c, is_Some (a_heap s' !! c) -> is_Some (a_heap s !! c) /\ punch_at s i <> Some c /\ (w_used (worker_at s i) = true -> w_c (worker_at s i) <> c)) /\
  a_punching s' = a_punching s /\ a_ws s' = a_ws s /\ a_shells s' = a_shells s.
Proof.
  cbv zeta. unfold end_step. set (s0 := conn_free s x (punch_at s i)).
  assert (E0 : (forall c, is_Some (a_heap s0 !! c) -> is_Some (a_heap s !! c) /\ punch_at s i <> Some c) /\ a_punching s0 = a_punching s /\ a_ws s0 = a_ws s /\ a_shells s0 = a_shells s).
  { unfold s0. destruct (punch_at s i) as [p|]; [|done]. split; [|done]. intros c Hc. apply free_heap in Hc as [? ?]. split; [done|congruence]. }
  destruct E0 as (E0 & P0 & W0 & S0). clearbody s0. cbv zeta. assert (W1 : worker_at s0 i = worker_at s i) by (unfold worker_at; by rewrite W0). rewrite W1. destruct (w_used (worker_at s i)) eqn:Eu.
  - destruct (arrivals_same x (wind i) s0) as [T1 T2 T3 T4]. set (s1 := fold_left _ _ _) in *. clearbody s1. split_and!; [|cbn; congruence..].
    intros c Hc. apply free_heap in Hc as [Hc Hn]. rewrite T1 in Hc. destruct (E0 c Hc). split_and!; [done|done|intros _; congruence].
  - split_and!; [|done|done|done]. intros c Hc. destruct (E0 c Hc). by split_and!.
Qed.
Lemma end_fold x wind js : forall s, let s' := fold_left (end_step x wind) js s in a_shells s' = a_shells s /\
  forall c, is_Some (a_heap s' !! c) -> is_Some (a_heap s !! c) /\ forall i, i ∈ js -> punch_at s i <> Some c /\ (w_used (worker_at s i) = true -> w_c (worker_at s i) <> c).
Proof.
  induction js as [|j js IH]; intros s; [split; [done|]; intros c Hc; split; [done|]; by intros i ?%elem_of_nil|]. cbn [fold_left]. cbv zeta in *. pose proof (end_step_spec x wind s j) as (E1 & E2 & E3 & E4). cbv zeta in *.
  destruct (IH (end_step x wind s j)) as [I1 I2]. split; [by rewrite I1|]. intros c Hc. destruct (I2 c Hc) as [H1 H2]. destruct (E1 c H1) as (F1 & F2 & F3). split; [done|]. intros i Hi. apply elem_of_cons in Hi as [->|Hi]; [done|].
  specialize (H2 i Hi). unfold punch_at, worker_at in *. by rewrite E2, E3 in H2.
Qed.
Lemma heap_roles s c : adm_ok [] s -> is_Some (a_heap s !! c) <-> c ∈ roles (view s).
Proof. intros H. pose proof (go_heap _ _ _ H c) as X. cbn in X. by rewrite lookup_fmap, fmap_is_Some in X. Qed.
Lemma listener_freed s x d : is_Some (a_heap ((conn_free s x (a_listen s)) <| a_listen := None |>) !! d) -> is_Some (a_heap s !! d) /\ a_listen s <> Some d.
Proof. destruct (a_listen s) as [l|]; intros Hd; [|done]. apply (free_heap s x l d) in Hd as [? ?]. split; [done|congruence]. Qed.
Lemma end_reaches s s1 x wind c : adm_ok [] s -> a_punching s1 = a_punching s -> a_ws s1 = a_ws s ->
  is_Some (a_heap (fold_left (end_step x wind) (seq 0 HOST_MAX_WORKERS) s1) !! c) -> is_Some (a_heap s1 !! c) /\ c ∉ punches (view s) /\ c ∉ workers (view s).
Proof.
  intros H P1 W1 Hc. destruct (end_fold x wind (seq 0 HOST_MAX_WORKERS) s1) as [_ E2]. destruct (E2 c Hc) as [F1 F2]. clear E2 Hc.
  assert (M : forall j, (j < HOST_MAX_WORKERS)%nat -> j ∈ seq 0 HOST_MAX_WORKERS) by (intros j Hj; apply elem_of_seq; lia). split_and!; [done|intros G|intros G].
  - unfold punches in G. apply list_elem_of_omap in G as (p & Hp & ->). apply list_elem_of_lookup in Hp as [j Hj]. assert (Hl := lookup_lt_Some _ _ _ Hj). rewrite (go_punching _ _ _ H) in Hl.
    destruct (F2 j) as [F _]; [by apply M|]. apply F. unfold punch_at, at_slot. rewrite P1. change (a_punching s) with (q_punching (view s)). by rewrite Hj.
  - unfold workers, working in G. apply list_elem_of_In, in_map_iff in G as (w & <- & Hw). apply filter_In in Hw as [Hw Hu]. apply list_elem_of_In, list_elem_of_lookup in Hw as [j Hj]. assert (Hl := lookup_lt_Some _ _ _ Hj).
    rewrite (go_ws _ _ _ H) in Hl. destruct (F2 j) as [_ F]; [by apply M|]. assert (Ej : worker_at s1 j = w) by (unfold worker_at; rewrite W1; by erewrite nth_lookup_Some). rewrite Ej in F. by apply F.
Qed.
Lemma turnstile_end_eq s x wind : turnstile_end s x wind = fold_left (end_step x wind) (seq 0 HOST_MAX_WORKERS) ((conn_free s x (a_listen s)) <| a_listen := None |>).
Proof. unfold turnstile_end. reflexivity. Qed.
Lemma end_frees s x wind c : adm_ok [] s -> is_Some (a_heap (turnstile_end s x wind) !! c) -> c ∈ a_shells s.
Proof.
  intros H Hc. rewrite turnstile_end_eq in Hc. assert (P1 : a_punching ((conn_free s x (a_listen s)) <| a_listen := None |>) = a_punching s /\ a_ws ((conn_free s x (a_listen s)) <| a_listen := None |>) = a_ws s) by (by destruct (a_listen s)).
  destruct P1 as [P1 W1]. destruct (end_reaches s _ x wind c H P1 W1 Hc) as (F1 & F2 & F3). destruct (listener_freed s x c F1) as [G1 G2].
  apply (proj1 (heap_roles s c H)) in G1. unfold roles in G1. rewrite !elem_of_app in G1. destruct G1 as [G|[G|[G|G]]]; [done|done| |exact G].
  cbn in G. destruct (a_listen s) as [l|]; [|by apply elem_of_nil in G]. by apply list_elem_of_singleton in G as ->.
Qed.
End Reached.

(** ** Properties *)

(** C7: nothing the turnstile names is freed, nothing it holds is lost: whatever arrives, whatever the
    workers do and in whatever order the turnstile acts, every connection its tables name is
    allocated, each allocated one has exactly one of the roles of punch, worker, ready agent and
    lent shell, and when the turnstile ends every connection but the lent ones is freed. *)
Theorem one_role_each {C : Crypto} family max obs magic key stuck sg acts x wind :
  let s := act_run (host_init family max obs magic key stuck sg) acts in
  (forall c, named s c -> is_Some (a_heap s !! c)) /\
  NoDup (roles (view s)) /\ (forall c, is_Some (a_heap s !! c) -> c ∈ roles (view s)) /\
  (forall c, is_Some (a_heap (turnstile_end s x wind) !! c) -> c ∈ a_shells s).
Proof.
  cbv zeta. set (s := act_run _ acts). assert (H : adm_ok [] s) by (apply ok_run, ok_init). clearbody s.
  assert (Hr : forall c, is_Some (a_heap s !! c) <-> c ∈ roles (view s)) by (intros c; pose proof (go_heap _ _ _ H c) as X; cbn in X; by rewrite lookup_fmap, fmap_is_Some in X).
  split_and!; [intros c Hc; apply Hr; by apply named_role|exact (go_once _ _ _ H)|intros c; apply Hr|].
  intros c. by apply end_frees.
Qed.

(** A worker is held for exactly the punches that resume it: its count, which puts off the verdict
    that it is gone, is the number of punches under way for it, in every reachable state. *)
Theorem resumptions_counted {C : Crypto} family max obs magic key stuck sg acts w :
  let s := act_run (host_init family max obs magic key stuck sg) acts in
  w ∈ a_ws s -> w_used w = true -> hc_resume_pending (conn_at s (w_c w)) = Z.of_nat (resumers (view s) (w_c w)).
Proof.
  cbv zeta. set (s := act_run _ acts). assert (H : adm_ok [] s) by (apply ok_run, ok_init). intros Hw Hu. apply list_elem_of_lookup in Hw as [j Hj].
  pose proof (go_pending _ _ _ H (w_c w) (working_in _ j _ Hj Hu)) as E. by rewrite at_view in E.
Qed.
