(* ===== verification/AdmitBook.v ===== *)
(** src/src/session.c, the host's turnstile: who is admitted.  The grant is kept in every run in
    which no worker ends while a punch is resuming it and the worker table does not overflow;
    both conditions are needed, and what the code does without them is evaluated here. *)
From stdpp Require Import gmap relations.
From S2P Require Import Prelude Net Crypto Keys ClaimLog PathEp Path PathTable ProbePlane CtlPlane PathPlane PathHolds PeerNet Peering Scan CandPolicy Rdv Sig Admit AdmitOk.

(** ** The books *)
Definition freshes (g : gate) : nat := length (List.filter (fun c => is_null (ci_resume (q_at g c))) (punches g)).
Definition names (g : gate) : list bytes := List.filter (fun u => negb (bytes_eqb u [])) (map (fun c => ci_punch (q_at g c)) (punches g)).
Definition asks_well (sdp : bytes) : bool := bytes_eqb (sdp_ufrag sdp) [] || negb (bytes_eqb (sdp_pwd sdp) []).
Definition offers_well (l : list (option (bytes * bytes))) : bool := forallb (fun o => match o with Some (_, sdp) => asks_well sdp | None => true end) l.
(** [d] admissions are noted whose connection is between two tables. *)
Record book_ok (d : Z) (g : gate) : Prop := {
  bk_count : 0 <= d /\ 0 <= q_count g;
  bk_balance : q_admitted g = q_count g + Z.of_nat (length (workers g)) + Z.of_nat (freshes g) + d;
  bk_max : q_max g <> 0 -> q_admitted g <= q_max g;
  bk_one : NoDup (names g);
  bk_done : forall i w c, q_ws g !! i = Some w -> w_used w = true -> w_done w = true -> c ∈ punches g -> ci_resume (q_at g c) <> Some (w_c w);
  bk_name : forall c t, c ∈ punches g -> ci_resume (q_at g c) = Some t -> ci_punch (q_at g c) = [] \/ ci_punch (q_at g c) = ci_claim (q_at g t)
}.
(** What a run may not do. *)
Definition act_clean (s : asess) (a : act) : Prop :=
  match a with
  | ActOffers _ => offers_well (a_offers s) = true
  | ActLan x => (forall c, x_threads x c = true) /\ (length (workers (view s)) + length (a_lan_pending s) <= HOST_MAX_WORKERS)%nat
  | ActScan x => (forall c, x_threads x c = true) /\ (length (workers (view s)) + length (punches (view s)) <= HOST_MAX_WORKERS)%nat
  | ActDone i => forall c, c ∈ punches (view s) -> hc_punch_resume (conn_at s c) <> Some (w_c (worker_at s i))
  | _ => True
  end.
Section Clean.
Context {C : Crypto}.
Fixpoint clean_run (s : asess) (acts : list act) : Prop :=
  match acts with [] => True | a :: acts => act_clean s a /\ clean_run (act_do s a) acts end.
End Clean.

(** ** Frames *)
Record book_like (g g' : gate) : Prop := {
  bl_punching : q_punching g' = q_punching g; bl_ws : q_ws g' = q_ws g; bl_admitted : q_admitted g' = q_admitted g; bl_count : q_count g' = q_count g; bl_max : q_max g' = q_max g;
  bl_info : forall c, c ∈ punches g -> ci_resume (q_at g' c) = ci_resume (q_at g c) /\ ci_punch (q_at g' c) = ci_punch (q_at g c);
  bl_claim : forall c, c ∈ workers g -> ci_claim (q_at g' c) = ci_claim (q_at g c)
}.
Lemma book_like_refl g : book_like g g.
Proof. done. Qed.
Lemma book_like_trans a b c : book_like a b -> book_like b c -> book_like a c.
Proof.
  intros [A1 A2 A3 A4 A5 A6 A7] [B1 B2 B3 B4 B5 B6 B7]. split; try congruence.
  - intros d Hd. destruct (A6 d Hd) as [<- <-]. apply B6. unfold punches. by rewrite A1.
  - intros d Hd. rewrite <- A7 by done. apply B7. unfold workers. by rewrite A2.
Qed.
Lemma names_like g g' : punches g' = punches g -> (forall c, c ∈ punches g -> ci_punch (q_at g' c) = ci_punch (q_at g c)) -> names g' = names g.
Proof. intros E H. unfold names. rewrite E. f_equal. apply map_ext_in. intros c Hc. apply H. by apply list_elem_of_In. Qed.
Lemma fresh_like g g' : punches g' = punches g -> (forall c, c ∈ punches g -> ci_resume (q_at g' c) = ci_resume (q_at g c)) -> freshes g' = freshes g.
Proof. intros E H. unfold freshes. rewrite E. f_equal. apply filter_ext_in. intros c Hc. by rewrite H. Qed.
Lemma book_ok_like n l g g' : gate_ok [] l g -> book_like g g' -> book_ok n g -> book_ok n g'.
Proof.
  intros G [A1 A2 A3 A4 A5 A6 A7] [B1 B2 B3 B4 B5 B6]. assert (Ep : punches g' = punches g) by (unfold punches; by rewrite A1). assert (Ew : workers g' = workers g) by (unfold workers; by rewrite A2).
  split; rewrite ?A2, ?A3, ?A4, ?A5, ?Ep, ?Ew; try done.
  - rewrite (fresh_like g g' Ep); [done|]. intros c Hc. by destruct (A6 c Hc).
  - rewrite (names_like g g' Ep); [done|]. intros c Hc. by destruct (A6 c Hc).
  - intros i w c Hi Hu Hd Hc. destruct (A6 c Hc) as [-> _]. by apply (B5 i w c).
  - intros c t Hc. destruct (A6 c Hc) as [-> ->]. intros Et. rewrite A7 by (by apply (go_resume _ _ _ G c t)). by apply (B6 c t).
Qed.
Lemma book_on s c f : (forall h, ci_resume (info (f h)) = ci_resume (info h) /\ ci_punch (info (f h)) = ci_punch (info h) /\ ci_claim (info (f h)) = ci_claim (info h)) ->
  book_like (view s) (view (on_conn s c f)).
Proof.
  intros Hf. assert (A : forall d, ci_resume (q_at (view (on_conn s c f)) d) = ci_resume (q_at (view s) d) /\ ci_punch (q_at (view (on_conn s c f)) d) = ci_punch (q_at (view s) d) /\ ci_claim (q_at (view (on_conn s c f)) d) = ci_claim (q_at (view s) d)).
  { intros d. rewrite !at_view, conn_at_on. case_bool_decide as E; [|done]. subst. unfold conn_at. destruct (a_heap s !! c) as [h|]; [apply Hf|done]. }
  split; try done; intros d _; by destruct (A d) as (? & ? & ?).
Qed.
(** A connection without a role may change in any way, or go. *)
Lemma book_on_loose s c f : c ∉ punches (view s) -> c ∉ workers (view s) -> book_like (view s) (view (on_conn s c f)).
Proof.
  intros Hp Hw. split; try done; intros d Hd; rewrite !at_view, conn_at_on, bool_decide_eq_false_2; try done; by intros ->.
Qed.
Lemma book_free s x c : c ∉ punches (view s) -> c ∉ workers (view s) -> book_like (view s) (view (conn_free s x (Some c))).
Proof. intros Hp Hw. split; try done; intros d Hd; rewrite !at_view, free_other; try done; by intros ->. Qed.
Lemma book_dissolve s x c : c ∉ punches (view s) -> c ∉ workers (view s) -> book_like (view s) (view (conn_dissolve s x c)).
Proof. intros Hp Hw. eapply book_like_trans; [|apply (book_on_loose (conn_unregister s c) c _ Hp Hw)]. by split. Qed.

(** ** A punch ends *)
Lemma uncount_same s c d : let a := info (conn_at (punch_uncount s c) d) in let b := info (conn_at s d) in ci_resume a = ci_resume b /\ ci_punch a = ci_punch b /\ ci_claim a = ci_claim b.
Proof.
  cbv zeta. unfold punch_uncount, give_back, one_less. destruct (hc_punch_resume (conn_at s c)) as [t|]; [|by destruct (0 <? a_admitted s)]. rewrite conn_at_on. case_bool_decide as E; [|done]. subst. unfold conn_at. by destruct (a_heap s !! t).
Qed.
Lemma names_perm g g' c : punches g ≡ₚ c :: punches g' -> (forall d, ci_punch (q_at g' d) = ci_punch (q_at g d)) -> NoDup (names g) -> NoDup (names g').
Proof.
  intros P H N. assert (Q : names g ≡ₚ List.filter (fun u => negb (bytes_eqb u [])) [ci_punch (q_at g c)] ++ names g').
  { unfold names. assert (F : forall l l' : list bytes, l ≡ₚ l' -> List.filter (fun u => negb (bytes_eqb u [])) l ≡ₚ List.filter (fun u => negb (bytes_eqb u [])) l').
    { intros l l'. induction 1; cbn; repeat case_match; eauto using Permutation. }
    assert (E : map (fun c => ci_punch (q_at g c)) (punches g) ≡ₚ ci_punch (q_at g c) :: map (fun c => ci_punch (q_at g' c)) (punches g')).
    { rewrite (Permutation_map (fun c => ci_punch (q_at g c)) P). cbn. f_equiv. erewrite map_ext; [done|]. intros d. cbn. by rewrite H. }
    rewrite (F _ _ E). cbn. by destruct (negb _). }
  rewrite Q in N. by apply NoDup_app in N as (_ & _ & N).
Qed.
Lemma book_unpunch n s i c : book_ok n (view s) -> punch_at s i = Some c -> book_ok n (view (punch_clear (punch_uncount s c) i)).
Proof.
  intros [B1 B2 B3 B4 B5 B6] Ei. change (q_admitted (view s)) with (a_admitted s) in *. change (q_count (view s)) with (a_count s) in *. change (q_max (view s)) with (a_admit_max s) in *. apply at_slot_some in Ei. pose proof (omap_clear _ _ _ Ei) as P. set (s2 := punch_clear (punch_uncount s c) i).
  assert (T : a_punching (punch_uncount s c) = a_punching s /\ a_ws (punch_uncount s c) = a_ws s /\ a_count (punch_uncount s c) = a_count s /\ a_admit_max (punch_uncount s c) = a_admit_max s)
    by (unfold punch_uncount, give_back; by repeat case_match). destruct T as (T1 & T2 & T3 & T4).
  assert (Ep : punches (view s) ≡ₚ c :: punches (view s2)) by (unfold s2, punches; cbn; by rewrite T1). assert (Ew : workers (view s2) = workers (view s)) by (unfold s2, workers; cbn; by rewrite T2).
  assert (A : forall d, ci_resume (q_at (view s2) d) = ci_resume (q_at (view s) d) /\ ci_punch (q_at (view s2) d) = ci_punch (q_at (view s) d) /\ ci_claim (q_at (view s2) d) = ci_claim (q_at (view s) d)) by (intros d; rewrite !at_view; exact (uncount_same s c d)).
  assert (Hp : forall d, d ∈ punches (view s2) -> d ∈ punches (view s)) by (intros d Hd; rewrite Ep; by right).
  assert (Ef : (freshes (view s) = freshes (view s2) + if ci_resume (q_at (view s) c) then 0 else 1)%nat).
  { unfold freshes. rewrite (filter_perm _ _ _ Ep). cbn [List.filter]. rewrite (filter_ext_in (fun d => is_null (ci_resume (q_at (view s2) d))) (fun d => is_null (ci_resume (q_at (view s) d)))) by (intros d _; by destruct (A d) as [-> _]).
    destruct (ci_resume (q_at (view s) c)); cbn [is_null length]; lia. }
  assert (Ea : a_admitted (punch_uncount s c) = a_admitted s - (if ci_resume (q_at (view s) c) then 0 else 1)).
  { rewrite at_view in Ef |- *. cbn [info ci_resume] in *. unfold punch_uncount. destruct (hc_punch_resume (conn_at s c)); [cbn; lia|]. unfold give_back. destruct (Z.ltb_spec 0 (a_admitted s)); cbn; [lia|].
    exfalso. lia. }
  split; change (q_admitted (view s2)) with (a_admitted (punch_uncount s c)); change (q_count (view s2)) with (a_count (punch_uncount s c)); change (q_max (view s2)) with (a_admit_max (punch_uncount s c)); rewrite ?T3, ?T4, ?Ew.
  - done.
  - rewrite Ea, B2, Ef. destruct (ci_resume _); lia.
  - intros Hm. specialize (B3 Hm). rewrite Ea. destruct (ci_resume _); lia.
  - eapply names_perm; [exact Ep| |done]. intros d. by destruct (A d) as (_ & ? & _).
  - intros j w d Hj Hu Hd Hdp. destruct (A d) as [-> _]. apply (B5 j w d); try done; [|by apply Hp]. cbn in Hj. by rewrite T2 in Hj.
  - intros d t Hd. destruct (A d) as (-> & -> & _). destruct (A t) as (_ & _ & ->). apply B6. by apply Hp.
Qed.
Definition both (d : Z) (l : list nat) (s : asess) : Prop := adm_ok l s /\ book_ok d (view s).
Lemma both_free n l s x c : both n (c :: l) s -> Some c ∉ a_lan_conns s -> both n l (conn_free s x (Some c)).
Proof.
  intros [H B] Hl. pose proof (loose_apart _ _ _ _ H) as (_ & N2 & N3 & _). split; [by apply ok_free|]. eapply book_ok_like; [exact H|by apply book_free|done].
Qed.
Lemma uncount_tables s c : a_lan_conns (punch_uncount s c) = a_lan_conns s /\ a_offers (punch_uncount s c) = a_offers s.
Proof. unfold punch_uncount, give_back. by repeat case_match. Qed.
Lemma both_over n l s x i c : both n l s -> punch_at s i = Some c -> both n l (conn_free (punch_clear (punch_uncount s c) i) x (Some c)).
Proof.
  intros [H B] Ei. destruct (ok_unpunch l s i c (ok_bare _ _ _ H) Ei) as [H1 H2]. apply both_free; [split; [done|by apply book_unpunch]|]. cbn. by destruct (uncount_tables s c) as [-> _].
Qed.
Lemma both_release n l s x i : both n l s -> both n l (punch_release s x i).
Proof. intros H. unfold punch_release. destruct (punch_at s i) as [c|] eqn:Ei; [|done]. cbv zeta. destruct (cid_set _); exact (both_over n l s x i c H Ei). Qed.

(** ** A punch becomes a worker, or joins one *)
Lemma both_view n l s s' : view s' = view s -> both n l s -> both n l s'.
Proof. unfold both, adm_ok. by intros ->. Qed.
Lemma both_like n l s s' : gate_like [] (view s) (view s') -> book_like (view s) (view s') -> both n l s -> both n l s'.
Proof. intros G L [H B]. split; [by eapply gate_ok_like|by eapply book_ok_like]. Qed.
Lemma both_on n l s c f : (forall h, info (f h) = info h) -> both n l s -> both n l (on_conn s c f).
Proof. intros Hf. apply both_like; [by apply like_on_same|]. apply book_on. intros h. by rewrite Hf. Qed.
Lemma both_on_loose n l s c f : (forall h, ci_resume (info (f h)) = ci_resume (info h) /\ ci_pending (info (f h)) = ci_pending (info h)) -> both n (c :: l) s -> both n (c :: l) (on_conn s c f).
Proof.
  intros Hf [H B]. pose proof (loose_apart _ _ _ _ H) as (_ & N2 & N3 & _). split; [by apply ok_on_loose|]. eapply book_ok_like; [exact H|by apply book_on_loose|done].
Qed.
Lemma both_register n l s c : c ∈ l ++ workers (view s) -> both n l s -> both n l (conn_register s c).
Proof. intros Hc [H B]. split; [by apply ok_register|]. eapply book_ok_like; [exact H| |done]. unfold conn_register. destruct (free_slot _); by split. Qed.
Section Moves.
Context {C : Crypto}.
Lemma both_tell n l s x c o : both n l s -> both n l (conn_tell_fresh s x c o).
Proof.
  intros H. unfold conn_tell_fresh. destruct (bytes_eqb _ _); [done|]. cbv zeta. destruct (probeplane_seal _ _ _ _ _) as [pp [frame|]]; [|by apply both_on].
  destruct (_ || _); by apply both_on.
Qed.
Lemma both_row n l s c addr : both n l s -> both n l (open_row s c addr).
Proof. intros H. unfold open_row, emit_peer_ident. apply both_on; [done|]. by destruct (_ || _). Qed.
Lemma book_fresh_over n s i c : book_ok n (view s) -> punch_at s i = Some c -> hc_punch_resume (conn_at s c) = None -> book_ok (n + 1) (view (punch_clear s i)).
Proof.
  intros B Ei Er. pose proof (book_unpunch n s i c B Ei) as B2. unfold punch_uncount in B2. rewrite Er in B2. unfold give_back in B2. destruct (Z.ltb_spec 0 (a_admitted s)) as [Hlt|Hle].
  - destruct B2 as [B1 B2 B3 B4 B5 B6], B as [D1 D2 D3 D4 D5 D6]. split; try done; [destruct D1; split; [lia|done]|].
    assert (E2 : a_admitted s - 1 = a_count s + Z.of_nat (length (workers (view (punch_clear s i)))) + Z.of_nat (freshes (view (punch_clear s i))) + n) by exact B2.
    change (a_admitted s = a_count s + Z.of_nat (length (workers (view (punch_clear s i)))) + Z.of_nat (freshes (view (punch_clear s i))) + (n + 1)). lia.
  - exfalso. clear B2. destruct B as [B1 B2 _ _ _ _]. apply at_slot_some in Ei. pose proof (omap_clear _ _ _ Ei) as P. assert (F : (0 < freshes (view s))%nat).
    { unfold freshes, punches. change (q_punching (view s)) with (a_punching s). rewrite (filter_perm _ _ _ P). cbn [List.filter]. rewrite at_view. cbn [info ci_resume]. rewrite Er. cbn. lia. }
    change (q_admitted (view s)) with (a_admitted s) in B2. lia.
Qed.
Lemma spawn_room s : (length (workers (view s)) < length (a_ws s))%nat -> exists i, first_index (fun w => negb (w_used w)) (a_ws s) 0 = Some i.
Proof.
  intros H. destruct (first_index _ (a_ws s) 0) as [i|] eqn:E; [eauto|]. exfalso. pose proof (first_index_none _ _ _ E) as N. unfold workers, working in H. rewrite length_map in H. cbn in H.
  assert (X : List.filter w_used (a_ws s) = a_ws s); [|rewrite X in H; lia]. clear -N. induction (a_ws s) as [|w l IH]; [done|]. cbn. pose proof (N w (list_elem_of_here _ _)) as Hw. apply negb_false_iff in Hw. rewrite Hw. f_equal. apply IH. intros v Hv. apply N. by right.
Qed.
Lemma both_spawn n l s x c : both (n + 1) (c :: l) s -> 0 <= n -> (forall d, x_threads x d = true) -> (length (workers (view s)) < HOST_MAX_WORKERS)%nat ->
  (worker_spawn s x c).2 = true /\ both n l (worker_spawn s x c).1 /\ length (workers (view (worker_spawn s x c).1)) = S (length (workers (view s))).
Proof.
  intros [H B] Hn Ht Hr. pose proof (ok_spawn l s x c H) as Hs. pose proof (nobody_resumes _ _ _ _ H) as Nr. destruct (spawn_room s) as [i Ei]; [by rewrite (go_ws _ _ _ H : length (a_ws s) = _)|]. unfold worker_spawn in *. rewrite Ei, Ht in *. cbn [fst snd] in *.
  apply first_index_at in Ei as (w & Hi & Hu). apply negb_true_iff in Hu. pose proof (working_fill _ _ _ c false false Hi Hu) as P. set (s' := s <| a_ws := _ |>) in *. assert (Ew : workers (view s') ≡ₚ c :: workers (view s)) by exact P.
  split; [done|]. split; [split; [done|]|by rewrite Ew]. destruct B as [B1 B2 B3 B4 B5 B6]. split; try done.
  - by destruct B1.
  - rewrite Ew. change (freshes (view s')) with (freshes (view s)). change (q_admitted (view s')) with (q_admitted (view s)). change (q_count (view s')) with (q_count (view s)). cbn [length]. lia.
  - intros j v d Hj Hv Hd Hdp. cbn in Hj. destruct (decide (j = i)) as [->|]; [|rewrite list_lookup_insert_ne in Hj by done; by apply (B5 j v d)].
    rewrite list_lookup_insert_eq in Hj by (by eapply lookup_lt_Some). by injection Hj as <-.
Qed.
Lemma tell_workers s x c o : workers (view (conn_tell_fresh s x c o)) = workers (view s).
Proof. unfold conn_tell_fresh. destruct (bytes_eqb _ _); [done|]. cbv zeta. destruct (probeplane_seal _ _ _ _ _) as [pp [frame|]]; [|done]. by destruct (_ || _). Qed.
Lemma register_workers s c : workers (view (conn_register s c)) = workers (view s).
Proof. unfold conn_register. by destruct (free_slot _). Qed.
Lemma row_workers s c a : workers (view (open_row s c a)) = workers (view s) /\ punches (view (open_row s c a)) = punches (view s).
Proof. unfold open_row, emit_peer_ident. by destruct (_ || _). Qed.
Lemma both_serve n l s x i c : both n l s -> 0 <= n -> punch_at s i = Some c -> hc_punch_resume (conn_at s c) = None -> (forall d, x_threads x d = true) ->
  (length (workers (view s)) + length (punches (view s)) <= HOST_MAX_WORKERS)%nat ->
  both n l (punch_serve s x i c) /\ (length (workers (view (punch_serve s x i c))) <= S (length (workers (view s))))%nat.
Proof.
  intros H Hn Ei Er Ht Hr. unfold punch_serve. cbv zeta. set (s1 := if a_obs s then _ else s).
  assert (H1 : both n l s1 /\ punch_at s1 i = Some c /\ hc_punch_resume (conn_at s1 c) = None /\ workers (view s1) = workers (view s) /\ punches (view s1) = punches (view s)).
  { unfold s1. destruct (a_obs s); [|done]. set (s0 := on_conn _ c _). assert (A : both n l s0) by (by apply both_on). split; [by apply both_row|].
    destruct (punch_row s0 c (x_selected x c)) as [P1 P2]. destruct (row_workers s0 c (x_selected x c)) as [R1 R2]. unfold punch_at. rewrite P1, P2, R1, R2. split_and!; try done. unfold s0. rewrite conn_at_on, bool_decide_eq_true_2 by done.
    unfold conn_at in Er. cbn [a_heap set set_a_dash]. by destruct (a_heap s !! c). }
  destruct H1 as ([H1 B1] & Ei1 & Er1 & W1 & P1). clearbody s1. destruct (ok_fresh_over l s1 i c H1 Ei1 Er1) as [H2 _]. pose proof (book_fresh_over n s1 i c B1 Ei1 Er1) as B2.
  set (s2 := punch_clear s1 i) in *. assert (W2 : workers (view s2) = workers (view s)) by exact W1. assert (Q : (length (workers (view s)) < HOST_MAX_WORKERS)%nat).
  { apply at_slot_some in Ei1. pose proof (omap_clear _ _ _ Ei1) as P. rewrite <- P1 in Hr. unfold punches in Hr. change (q_punching (view s1)) with (a_punching s1) in Hr. rewrite P in Hr. cbn [length] in Hr. lia. }
  clearbody s2. set (s3 := if claim_served_has _ _ then _ else s2).
  assert (H3 : both (n + 1) (c :: l) s3 /\ workers (view s3) = workers (view s)) by (unfold s3; destruct (claim_served_has _ _); [rewrite tell_workers; split; [by apply both_tell|done]|done]).
  destruct H3 as [H3 W3]. clearbody s3. set (s4 := conn_register _ c). assert (H4 : both (n + 1) (c :: l) s4) by (apply both_register; [rewrite elem_of_app; left; left|exact H3]).
  assert (W4 : workers (view s4) = workers (view s)) by (unfold s4; rewrite register_workers; exact W3). clearbody s4.
  destruct (both_spawn n l s4 x c H4 Hn Ht) as (E5 & H5 & W5); [by rewrite W4|]. destruct (worker_spawn s4 x c) as [s5 ok]; cbn [fst snd] in *. subst ok. split; [done|]. rewrite W5, W4. lia.
Qed.
Lemma lent_workers s i c t : workers (view (punch_lent s i c t)) = workers (view s).
Proof.
  unfold punch_lent, resume_q_publish. cbv zeta. set (ctx := ice_ctx _). clearbody ctx. set (s1 := if truth ctx then _ else s). assert (E1 : workers (view s1) = workers (view s)) by (unfold s1; destruct (truth ctx); [by destruct (first_index _ _ _)|done]).
  clearbody s1. unfold punch_uncount, give_back. destruct (hc_punch_resume _); [exact E1|]. destruct (0 <? _); exact E1.
Qed.
Lemma book_lent n l s i c t : both n l s -> punch_at s i = Some c -> book_ok n (view (punch_lent s i c t)).
Proof.
  intros [H B] Ei. unfold punch_lent. cbv zeta. set (pwd := hc_pwd (conn_at s c)). clearbody pwd. set (ctx := ice_ctx _). clearbody ctx.
  set (s1 := if truth ctx then _ else s). assert (L1 : book_like (view s) (view s1) /\ punch_at s1 i = Some c).
  { unfold s1, resume_q_publish. destruct (truth ctx); [|done]. destruct (first_index _ _ _); [|split; [by split|done]]. split; [|done]. eapply book_like_trans; [|by apply book_on]. by split. }
  destruct L1 as [L1 Ei1]. clearbody s1. set (s2 := on_conn s1 c _). assert (L2 : book_like (view s1) (view s2)) by (by apply book_on). set (s3 := on_conn s2 t _). assert (L3 : book_like (view s2) (view s3)) by (by apply book_on).
  apply book_unpunch; [|exact Ei1]. eapply book_ok_like; [exact H| |exact B]. eapply book_like_trans; [exact L1|]. by eapply book_like_trans.
Qed.
Lemma dissolve_workers s x c : workers (view (conn_dissolve s x c)) = workers (view s).
Proof. reflexivity. Qed.
Lemma both_graft n l s x i c t : both n l s -> punch_at s i = Some c -> t <> c -> t ∈ workers (view s) -> both n l (punch_graft s x i c t) /\ workers (view (punch_graft s x i c t)) = workers (view s).
Proof.
  intros H Ei Ht Hw. destruct (ok_lent l s i c t (proj1 H) Ei Ht) as (H1 & N1 & N2). pose proof (lent_workers s i c t) as Ew. split; [split; [apply ok_graft; [by destruct H|done|done]|]|unfold punch_graft; by rewrite dissolve_workers, Ew]. unfold punch_graft.
  eapply book_ok_like; [exact H1| |by eapply book_lent]. apply book_dissolve; [done|]. rewrite Ew. intros X. apply (once_apart _ _ _ (go_once _ _ _ (proj1 H))) in X as (_ & X & _).
  apply X. apply at_slot_some in Ei. unfold punches. change (q_punching (view s)) with (a_punching s). rewrite (omap_clear _ _ _ Ei). left.
Qed.
Lemma serve_punching s x i c : a_punching (punch_serve s x i c) = <[i := None]> (a_punching s).
Proof.
  unfold punch_serve. cbv zeta. set (s1 := if a_obs s then _ else s). assert (E1 : a_punching s1 = a_punching s) by (unfold s1, open_row, emit_peer_ident; destruct (a_obs s); [by destruct (_ || _)|done]). clearbody s1.
  set (s2 := punch_clear s1 i). assert (E2 : a_punching s2 = <[i := None]> (a_punching s)) by (unfold s2; cbn; by rewrite E1). clearbody s2. set (s3 := if claim_served_has _ _ then _ else s2).
  assert (E3 : a_punching s3 = a_punching s2). { unfold s3, conn_tell_fresh. destruct (claim_served_has _ _); [|done]. destruct (bytes_eqb _ _); [done|]. cbv zeta. destruct (probeplane_seal _ _ _ _ _) as [pp [frame|]]; [|done]. by destruct (_ || _). }
  clearbody s3. rewrite <- E2, <- E3. set (s4 := conn_register _ c). assert (E4 : a_punching s4 = a_punching s3) by (unfold s4, conn_register; by destruct (free_slot _)). clearbody s4. rewrite <- E4.
  unfold worker_spawn. destruct (first_index _ (a_ws s4) 0); [|done]. by destruct (x_threads x c).
Qed.
Lemma lent_punching s i c t : a_punching (punch_lent s i c t) = <[i := None]> (a_punching s).
Proof.
  unfold punch_lent, resume_q_publish. cbv zeta. set (ctx := ice_ctx _). clearbody ctx. set (s1 := if truth ctx then _ else s). assert (E1 : a_punching s1 = a_punching s) by (unfold s1; destruct (truth ctx); [by destruct (first_index _ _ _)|done]).
  clearbody s1. rewrite <- E1. unfold punch_uncount, give_back. destruct (hc_punch_resume _); [done|]. by destruct (0 <? _).
Qed.
Definition room (s : asess) : Prop := (length (workers (view s)) + length (punches (view s)) <= HOST_MAX_WORKERS)%nat.
Lemma punches_less s s' i c : punch_at s i = Some c -> a_punching s' = <[i := None]> (a_punching s) -> length (punches (view s)) = S (length (punches (view s'))).
Proof. intros Ei E. apply at_slot_some in Ei. unfold punches. cbn [view q_punching]. rewrite E. by rewrite (omap_clear _ _ _ Ei). Qed.
Lemma both_scan_one x s i : both 0 [] s /\ room s -> (forall c, x_threads x c = true) -> both 0 [] (punch_scan_one x s i) /\ room (punch_scan_one x s i).
Proof.
  intros [H Hr] Ht. unfold punch_scan_one. destruct (punch_at s i) as [c|] eqn:Ei; [|done]. cbv zeta. pose proof (at_slot_some _ _ _ Ei) as Ei'. destruct H as [H B].
  assert (Hcp : c ∈ punches (view s)) by (rewrite (omap_clear _ _ _ Ei'); left).
  assert (Hne : forall t, t ∈ workers (view s) -> t <> c) by (intros t Ht' ->; apply (once_apart _ _ _ (go_once _ _ _ H)) in Ht' as (_ & X & _); done).
  destruct (negb _ && x_connected x c).
  - set (s0 := s <| a_last_served := _ |> <| a_have_served := true |>). assert (H0 : both 0 [] s0) by (split; done).
    assert (G : forall t, t ∈ workers (view s) -> both 0 [] (punch_graft s0 x i c t) /\ room (punch_graft s0 x i c t)).
    { intros t Hw. destruct (both_graft 0 [] s0 x i c t H0 Ei (Hne t Hw) Hw) as [G1 G2]. split; [done|]. unfold room in *. rewrite G2. change (workers (view s0)) with (workers (view s)).
      pose proof (punches_less s (punch_graft s0 x i c t) i c Ei (lent_punching s0 i c t)). lia. }
    destruct (hc_punch_resume (conn_at s c)) as [t|] eqn:Er; [apply G; apply (go_resume _ _ _ H c t Hcp); by rewrite at_view|].
    destruct (worker_by_ufrag s0 _) as [t|] eqn:Ew; [apply G; by apply by_ufrag_works in Ew|]. destruct (both_serve 0 [] s0 x i c H0 ltac:(lia) Ei Er Ht Hr) as [S1 S2]. split; [done|]. unfold room in *.
    pose proof (punches_less s (punch_serve s0 x i c) i c Ei (serve_punching s0 x i c)). change (workers (view s0)) with (workers (view s)) in S2. lia.
  - destruct (negb _ && x_failed x c); [|done]. split; [by apply both_over|]. unfold room in *. set (s' := conn_free _ x _).
    assert (T : a_punching s' = <[i := None]> (a_punching s) /\ workers (view s') = workers (view s)) by (unfold s', punch_uncount, give_back; by repeat case_match). destruct T as [T1 T2].
    pose proof (punches_less s s' i c Ei T1). rewrite T2. lia.
Qed.
Lemma both_scan x s : both 0 [] s -> room s -> (forall c, x_threads x c = true) -> both 0 [] (punch_scan s x).
Proof.
  intros H Hr Ht. unfold punch_scan. cut (both 0 [] (fold_left (punch_scan_one x) (seq 0 HOST_MAX_WORKERS) s) /\ room (fold_left (punch_scan_one x) (seq 0 HOST_MAX_WORKERS) s)); [by intros []|].
  apply (fold_keeps (fun s => both 0 [] s /\ room s)); [|done]. intros s' i Hs. by apply both_scan_one.
Qed.

(** ** Claims over the segment *)
Lemma alloc_both n l s x k s' c : both n l s -> conn_alloc s x k = Some (s', c) -> both n (c :: l) s' /\ Some c ∉ a_lan_conns s'.
Proof.
  intros [H B] E. destruct (ok_alloc _ _ _ _ _ _ H E) as [H1 H2]. split; [split; [done|]|done]. pose proof (loose_apart _ _ _ _ H1) as (_ & N2 & N3 & _). unfold conn_alloc in E. destruct (x_addr x k) as [d|]; [|done]. case_bool_decide as Ed; [done|]. cbv zeta in E.
  injection E as <- <-. eapply book_ok_like; [exact H| |exact B]. split; try done; intros e He; (assert (e <> d) by (by intros ->)); unfold q_at; cbn; by rewrite !lookup_fmap, lookup_insert_ne by done.
Qed.
Lemma both_admit_more n l s : both n l s -> (a_admit_max s <> 0 -> a_admitted s < a_admit_max s) -> both (n + 1) l (s <| a_admitted := a_admitted s + 1 |>).
Proof.
  intros [H [B1 B2 B3 B4 B5 B6]] Hm. split; [by apply ok_admitted|]. split; try done.
  - destruct B1. split; [lia|done].
  - change (a_admitted s + 1 = q_count (view s) + Z.of_nat (length (workers (view s))) + Z.of_nat (freshes (view s)) + (n + 1)). change (q_admitted (view s)) with (a_admitted s) in B2. lia.
  - cbn. intros X. specialize (Hm X). lia.
Qed.
Lemma both_lan_slot n l s slot p : (forall c, p = Some c -> c ∈ l ++ workers (view s)) -> both n l s -> both n l (s <| a_lan_conns := <[slot := p]> (a_lan_conns s) |>).
Proof.
  intros Hp [H B]. split; [|eapply book_ok_like; [exact H| |exact B]; by split]. destruct p as [c|]; [by apply ok_lan_slot; [apply Hp|]|by apply ok_lan_unslot].
Qed.
Lemma both_lan_admit s x c slot m u addr : both 0 [c] s -> Some c ∉ a_lan_conns s -> (forall d, x_threads x d = true) -> (length (workers (view s)) < HOST_MAX_WORKERS)%nat -> budget_spent s = false ->
  both 0 [] (lan_admit s x c slot m u addr) /\ length (workers (view (lan_admit s x c slot m u addr))) = S (length (workers (view s))).
Proof.
  intros H Hl Ht Hr Hb. unfold lan_admit. cbv zeta. set (s1 := on_conn s c _). assert (H1 : both 0 [c] s1 /\ workers (view s1) = workers (view s) /\ a_admitted s1 = a_admitted s /\ a_admit_max s1 = a_admit_max s) by (split; [by apply both_on_loose|done]).
  clearbody s1. destruct H1 as (H1 & E1 & F1 & M1). set (s2 := if bytes_eqb _ [] then s1 else _). assert (H2 : both 0 [c] s2 /\ workers (view s2) = workers (view s) /\ a_admitted s2 = a_admitted s /\ a_admit_max s2 = a_admit_max s) by (unfold s2; by destruct (bytes_eqb _ _)).
  clearbody s2. destruct H2 as (H2 & E2 & F2 & M2). set (s3 := on_conn _ c _). assert (H3 : both (0 + 1) [c] s3 /\ workers (view s3) = workers (view s)).
  { split; [|exact E2]. apply both_on; [done|]. apply (both_admit_more 0 [c] s2 H2). rewrite F2, M2. intros Hm. unfold budget_spent, truth in Hb. destruct (Z.eqb_spec (a_admit_max s) 0); [done|]. cbn in Hb. lia. }
  clearbody s3. destruct H3 as [H3 E3]. set (s4 := s3 <| a_lan_conns := _ |>). assert (H4 : both (0 + 1) [c] s4 /\ workers (view s4) = workers (view s)) by (split; [apply both_lan_slot; [|done]; intros d [= <-]; rewrite elem_of_app; left; left|exact E3]).
  clearbody s4. destruct H4 as [H4 E4]. set (s5 := conn_register _ c). assert (H5 : both (0 + 1) [c] s5 /\ workers (view s5) = workers (view s)).
  { split; [apply both_register; [rewrite elem_of_app; left; left|by apply both_tell]|unfold s5; by rewrite register_workers, tell_workers]. }
  clearbody s5. destruct H5 as [H5 E5]. set (s6 := if a_obs s5 then _ else s5). assert (H6 : both (0 + 1) [c] s6 /\ workers (view s6) = workers (view s)).
  { unfold s6. destruct (a_obs s5); [|done]. destruct (row_workers s5 c addr) as [-> _]. split; [by apply both_row|done]. }
  clearbody s6. destruct H6 as [H6 E6]. destruct (both_spawn 0 [] s6 x c H6 ltac:(lia) Ht) as (E7 & H7 & W7); [by rewrite E6|]. destruct (worker_spawn s6 x c) as [s7 ok]; cbn [fst snd] in *. subst ok. split; [done|]. by rewrite W7, E6.
Qed.
Lemma both_lan_loop x q : (forall c, x_threads x c = true) -> forall s n, both 0 [] s -> (length (workers (view s)) + length q <= HOST_MAX_WORKERS)%nat -> both 0 [] (lan_loop s x n q).
Proof.
  intros Ht. induction q as [|a q IH]; intros s n H Hr; [done|]. cbn [lan_loop length] in *. destruct (lanlink_map_peer _ _) as [m|]; [|apply IH; [done|lia]].
  destruct (lan_conn_active s m || _ || budget_spent s) eqn:Eg; [apply IH; [done|lia]|]. apply orb_false_iff in Eg as [_ Eg].
  destruct (free_slot (a_lan_conns s)) as [slot|] eqn:Ef; [|done]. destruct (conn_alloc s x n) as [[s1 c]|] eqn:Ea; [|done]. destruct (alloc_both _ _ _ _ _ _ _ H Ea) as [H1 Hl].
  destruct (fresh_conns _ _ _ _ _ _ (proj1 H) Ea) as (_ & _ & El & _ & Ew). assert (Eb : budget_spent s1 = false) by (unfold conn_alloc in Ea; destruct (x_addr x n); [|done]; case_bool_decide; [done|]; cbv zeta in Ea; injection Ea as <- _; exact Eg).
  destruct (peering_add_path _ _ _ _ _ _) as [pr [addr|]] eqn:Ep.
  2: { apply both_free; [|done]. by apply both_on_loose. }
  set (s2 := on_conn s1 c _). assert (H2 : both 0 [c] s2) by (by apply both_on_loose). destruct (both_lan_admit s2 x c slot m (lc_ufrag a) addr H2 Hl Ht) as [H3 W3]; [change (workers (view s2)) with (workers (view s1)); rewrite Ew; lia|exact Eb|].
  apply IH; [done|]. rewrite W3. change (workers (view s2)) with (workers (view s1)). rewrite Ew. lia.
Qed.
End Moves.
