(* ===== verification/AdmitGrant.v ===== *)
(** src/src/session.c, the host's turnstile: an ask taken up and a worker taken down, and with them
    the grant in every clean run.  What the code does where a run is not clean is evaluated at the
    end. *)
From stdpp Require Import gmap relations.
From S2P Require Import Prelude Net Crypto Keys ClaimLog PathEp Path PathTable ProbePlane CtlPlane PathPlane PathHolds PeerNet Peering Scan CandPolicy Rdv Sig Admit AdmitOk AdmitBook.

(** ** Punches given up *)
Definition same3 (a b : hconn) : Prop := hc_punch_resume a = hc_punch_resume b /\ hc_punch_ufrag a = hc_punch_ufrag b /\ hc_pwd a = hc_pwd b.
Record shrunk (s s' : asess) : Prop := {
  sk_ws : a_ws s' = a_ws s; sk_count : a_count s' = a_count s; sk_max : a_admit_max s' = a_admit_max s; sk_offers : a_offers s' = a_offers s; sk_listen : a_listen s' = a_listen s;
  sk_slot : forall j, punch_at s' j = None \/ punch_at s' j = punch_at s j;
  sk_info : forall j d, punch_at s' j = Some d -> same3 (conn_at s' d) (conn_at s d);
  sk_claim : forall t, t ∈ workers (view s) -> hc_claim_ufrag (conn_at s' t) = hc_claim_ufrag (conn_at s t);
  sk_adm : a_admitted s' <= a_admitted s;
  sk_fresh : forall j c, punch_at s j = Some c -> hc_punch_resume (conn_at s c) = None -> punch_at s' j = None -> a_admitted s' < a_admitted s
}.
Lemma shrunk_refl s : shrunk s s.
Proof. split; auto; try done. intros j c E _ N. congruence. Qed.
Lemma shrunk_trans a b c : shrunk a b -> shrunk b c -> shrunk a c.
Proof.
  intros [A1 A2 A3 A4 A5 A6 A7 A8 A9 A10] [B1 B2 B3 B4 B5 B6 B7 B8 B9 B10]. split; try congruence; try lia.
  - intros j. destruct (B6 j) as [->| ->]; auto.
  - intros j d E. destruct (B6 j) as [X|X]; [congruence|]. destruct (B7 j d E) as (X1 & X2 & X3), (A7 j d) as (Y1 & Y2 & Y3); [congruence|]. unfold same3. split_and!; congruence.
  - intros t Ht. rewrite B8; [by apply A8|]. unfold workers in *. cbn in *. by rewrite A1.
  - intros j d E Er N. destruct (A6 j) as [X|X]; [pose proof (A10 j d E Er X); lia|]. rewrite E in X. destruct (A7 j d X) as (Y & _ & _). rewrite <- Y in Er. pose proof (B10 j d X Er N). lia.
Qed.
Lemma in_slot s j d : punch_at s j = Some d -> d ∈ punches (view s).
Proof. intros H. apply at_slot_some in H. unfold punches. cbn [view q_punching]. rewrite (omap_clear _ _ _ H). left. Qed.
Lemma slot_once l s i j c : adm_ok l s -> punch_at s i = Some c -> punch_at s j = Some c -> i = j.
Proof.
  intros H Hi Hj. destruct (decide (i = j)) as [|Hn]; [done|]. exfalso. apply at_slot_some in Hi. apply at_slot_some in Hj. pose proof (go_once _ _ _ H) as N. apply NoDup_app in N as (_ & _ & N). unfold roles in N.
  apply NoDup_app in N as (N & _ & _). unfold punches in N. cbn [view q_punching] in N. rewrite (omap_clear _ _ _ Hi) in N. apply NoDup_cons in N as [N _]. apply N.
  rewrite (omap_clear (<[i := None]> (a_punching s)) j c) by (by rewrite list_lookup_insert_ne). left.
Qed.
Lemma uncount_at s c d : same3 (conn_at (punch_uncount s c) d) (conn_at s d).
Proof.
  unfold punch_uncount, give_back, one_less. destruct (hc_punch_resume (conn_at s c)) as [t|]; [|by destruct (0 <? a_admitted s)]. rewrite conn_at_on. case_bool_decide as E; [|done]. subst. unfold conn_at. by destruct (a_heap s !! t).
Qed.
Lemma shrunk_release n l s x i : both n l s -> shrunk s (punch_release s x i).
Proof.
  intros [H B]. unfold punch_release. destruct (punch_at s i) as [c|] eqn:Ei; [|apply shrunk_refl]. cbv zeta. set (s1 := punch_uncount s c). set (s2 := if cid_set _ then _ else s1).
  assert (E2 : a_ws s2 = a_ws s /\ a_count s2 = a_count s /\ a_admit_max s2 = a_admit_max s /\ a_offers s2 = a_offers s /\ a_listen s2 = a_listen s /\ a_punching s2 = a_punching s /\ a_admitted s2 = a_admitted s1 /\ forall d, conn_at s2 d = conn_at s1 d).
  { unfold s2, s1, punch_uncount, give_back. by repeat case_match. }
  assert (Hcp := in_slot _ _ _ Ei). assert (Ea : a_admitted s1 <= a_admitted s /\ (hc_punch_resume (conn_at s c) = None -> a_admitted s1 < a_admitted s)).
  { unfold s1, punch_uncount, give_back. destruct (hc_punch_resume (conn_at s c)) eqn:Er; [by split; [cbn; lia|]|]. destruct (Z.ltb_spec 0 (a_admitted s)); [cbn; split; [lia|lia]|].
    exfalso. pose proof (book_fresh_over n s i c B Ei Er) as [_ Y _ _ _ _]. destruct B as [[? ?] _ _ _ _ _]. cbn [view q_admitted q_count punch_clear a_admitted a_count set set_a_punching] in *. lia. }
  destruct Ea as [Ea1 Ea2]. destruct E2 as (F1 & F2 & F3 & F4 & F5 & F6 & F7 & F8). set (s3 := punch_clear s2 i).
  assert (Sl : forall j, j <> i -> punch_at s3 j = punch_at s j) by (intros j Hj; unfold punch_at, s3, at_slot; cbn; by rewrite list_lookup_insert_ne, F6).
  assert (Si : punch_at s3 i = None). { unfold punch_at, s3, at_slot. cbn. rewrite F6. apply at_slot_some, lookup_lt_Some in Ei. by rewrite list_lookup_insert_eq. }
  assert (O : forall d, d <> c -> conn_at (conn_free s3 x (Some c)) d = conn_at s1 d) by (intros d Hd; rewrite free_other by done; exact (F8 d)).
  split; try done.
  - intros j. change (punch_at (conn_free s3 x (Some c)) j) with (punch_at s3 j). destruct (decide (j = i)) as [->|]; auto.
  - intros j d. change (punch_at (conn_free s3 x (Some c)) j) with (punch_at s3 j). destruct (decide (j = i)) as [->|Hj]; [congruence|]. rewrite Sl by done. intros E.
    assert (d <> c). { intros ->. apply Hj. by eapply slot_once. } rewrite O by done. apply uncount_at.
  - intros t Ht. rewrite O; [|intros ->; by apply (once_apart _ _ _ (go_once _ _ _ H)) in Ht as (_ & X & _)]. by destruct (uncount_same s c t) as (_ & _ & ?).
  - change (a_admitted s2 <= a_admitted s). lia.
  - intros j d E Er. change (punch_at (conn_free s3 x (Some c)) j) with (punch_at s3 j). destruct (decide (j = i)) as [->|Hj]; [|rewrite Sl by done; congruence]. intros _. rewrite Ei in E. injection E as <-. change (a_admitted s2 < a_admitted s). specialize (Ea2 Er). lia.
Qed.
Definition less (s s' : asess) : Prop := both 0 [] s' /\ shrunk s s'.
Lemma less_release s s' x i : less s s' -> less s (punch_release s' x i).
Proof. intros [H K]. split; [by apply both_release|]. eapply shrunk_trans; [exact K|by eapply shrunk_release]. Qed.
Lemma less_trans a b c : less a b -> less b c -> less a c.
Proof. intros [_ A] [B1 B2]. split; [done|by eapply shrunk_trans]. Qed.
Lemma less_refl s : both 0 [] s -> less s s.
Proof. intros H. split; [done|apply shrunk_refl]. Qed.
Lemma held_shrunk s s' u j : shrunk s s' -> held s (ufrag_is u) (punch_at s j) = false -> held s' (ufrag_is u) (punch_at s' j) = false.
Proof.
  intros K H. destruct (punch_at s' j) as [d|] eqn:E; [|done]. destruct (sk_slot _ _ K j) as [X|X]; [congruence|]. rewrite <- X, E in H. cbn in *. destruct (sk_info _ _ K j d E) as (_ & F & _). unfold ufrag_is in *. by rewrite F.
Qed.
Definition unnamed (u : bytes) (s : asess) : Prop := forall j, held s (ufrag_is u) (punch_at s j) = false.
Lemma unnamed_less u s s' : less s s' -> unnamed u s -> unnamed u s'.
Proof. intros [_ K] H j. by eapply held_shrunk. Qed.
Definition other_pwd (u p : bytes) (c : hconn) : bool := ufrag_is u c && negb (bytes_eqb (hc_pwd c) p).
Lemma stale_spec x u p js : forall s, both 0 [] s ->
  let s' := fold_left (fun s i => if held s (other_pwd u p) (punch_at s i) then punch_release s x i else s) js s in
  less s s' /\ forall j, j ∈ js -> held s' (other_pwd u p) (punch_at s' j) = false.
Proof.
  induction js as [|i js IH]; intros s H; [split; [by apply less_refl|]; by intros j ?%elem_of_nil|]. cbn [fold_left]. cbv zeta. set (s1 := if held s _ _ then _ else s).
  assert (L1 : less s s1 /\ held s1 (other_pwd u p) (punch_at s1 i) = false).
  { unfold s1. destruct (held s _ _) eqn:E; [|split; [by apply less_refl|done]]. split; [by apply less_release, less_refl|]. destruct (punch_at s i) as [c|] eqn:Ei; [|done]. unfold punch_release. rewrite Ei. cbv zeta.
    set (s3 := punch_clear _ i). assert (X : punch_at s3 i = None).
    { unfold punch_at, s3, at_slot. cbn. apply at_slot_some, lookup_lt_Some in Ei. rewrite list_lookup_insert_eq; [done|]. unfold punch_uncount, give_back. by repeat case_match. }
    change (punch_at (conn_free s3 x (Some c)) i) with (punch_at s3 i). by rewrite X. }
  clearbody s1. destruct L1 as [L1 N1]. destruct (IH s1 (proj1 L1)) as [L2 N2]. cbv zeta in *. set (s2 := fold_left _ js s1) in *. split; [by eapply less_trans|]. intros j Hj. apply elem_of_cons in Hj as [->|Hj]; [|by apply N2].
  destruct (punch_at s2 i) as [d|] eqn:E; [|done]. destruct (sk_slot _ _ (proj2 L2) i) as [X|X]; [congruence|]. rewrite <- X, E in N1. cbn in *. destruct (sk_info _ _ (proj2 L2) i d E) as (_ & F & G). unfold other_pwd, ufrag_is in *. by rewrite F, G.
Qed.
Lemma reap_stale_eq s x u p : punch_reap_stale s x u p = fold_left (fun s i => if held s (other_pwd u p) (punch_at s i) then punch_release s x i else s) (seq 0 HOST_MAX_WORKERS) s.
Proof. unfold punch_reap_stale, other_pwd. reflexivity. Qed.
Lemma stale_all x u p s : both 0 [] s -> let s' := punch_reap_stale s x u p in less s s' /\ forall j, j ∈ seq 0 HOST_MAX_WORKERS -> held s' (other_pwd u p) (punch_at s' j) = false.
Proof. intros H. rewrite reap_stale_eq. by apply stale_spec. Qed.
Lemma slot_range s j d : adm_ok [] s -> punch_at s j = Some d -> j ∈ seq 0 HOST_MAX_WORKERS.
Proof. intros H E. apply at_slot_some, lookup_lt_Some in E. rewrite (go_punching _ _ _ H : length (a_punching s) = _) in E. apply elem_of_seq. lia. Qed.
Lemma existsb_slot s f j : existsb (held s f) (a_punching s) = false -> held s f (punch_at s j) = false.
Proof.
  intros H. destruct (punch_at s j) as [d|] eqn:E; [|done]. apply at_slot_some in E. destruct (held s f (Some d)) eqn:F; [|done]. rewrite <- H. symmetry. apply existsb_exists. exists (Some d). split; [|done]. apply list_elem_of_In. by eapply list_elem_of_lookup_2.
Qed.
Lemma named_slot_none s f j : first_index (held s f) (a_punching s) 0 = None -> held s f (punch_at s j) = false.
Proof.
  intros H. destruct (punch_at s j) as [d|] eqn:E; [|done]. apply at_slot_some in E. apply (first_index_none _ _ _ H). by eapply list_elem_of_lookup_2.
Qed.
Definition no_dup (s : asess) (u p : bytes) : Prop := forall j, held s (fun c => ufrag_is u c && bytes_eqb (hc_pwd c) p) (punch_at s j) = false.
Lemma unnamed_stale s r u p : less s r -> no_dup s u p -> (forall j, j ∈ seq 0 HOST_MAX_WORKERS -> held r (other_pwd u p) (punch_at r j) = false) -> unnamed u r.
Proof.
  intros L Nd N j. destruct (punch_at r j) as [d|] eqn:E; [|done]. pose proof (N j (slot_range _ j d (proj1 (proj1 L)) E)) as Nj. rewrite E in Nj. cbn in Nj |- *.
  destruct (sk_slot _ _ (proj2 L) j) as [X|X]; [congruence|]. destruct (sk_info _ _ (proj2 L) j d E) as (_ & F & G). pose proof (Nd j) as Y. rewrite <- X, E in Y. cbn in Y. unfold other_pwd, ufrag_is in *. rewrite <- F, <- G in Y.
  destruct (bytes_eqb (hc_punch_ufrag _) u); [|done]. cbn in *. by rewrite Y in Nj.
Qed.
Lemma unnamed_once s u p : u <> [] -> p <> [] -> no_dup s u p -> punch_tried_again s u p = false -> unnamed u s.
Proof.
  intros Hu Hp Nd Ea j. unfold punch_tried_again in Ea. unfold bytes_eqb in Ea at 1 2. rewrite !bool_decide_eq_false_2 in Ea by done. cbn [orb] in Ea. destruct (first_index _ _ _) as [i|] eqn:Ei; [|by apply named_slot_none].
  exfalso. apply first_index_at in Ei as ([c|] & Hi & Hf); [|done]. unfold at_slot in Ea. rewrite Hi in Ea. cbn in Ea, Hf. pose proof (Nd i) as Y. unfold punch_at, at_slot in Y. rewrite Hi in Y. cbn in Y. rewrite Hf in Y. cbn in Y. by rewrite Y in Ea.
Qed.
(** Whoever is not already in hand under this name and this ask has no punch left under the name. *)
Lemma cleared s x u p : both 0 [] s -> u <> [] -> p <> [] -> punch_dup s u p = false ->
  let s' := if punch_tried_again s u p then punch_reap_stale s x u p else s in less s s' /\ unnamed u s'.
Proof.
  intros H Hu Hp Hd. assert (Nd : no_dup s u p) by (intros j; by apply existsb_slot). destruct (punch_tried_again s u p) eqn:Ea; cbv zeta.
  - destruct (stale_all x u p s H) as [L N]. split; [exact L|]. exact (unnamed_stale s _ u p L Nd N).
  - split; [by apply less_refl|by eapply unnamed_once].
Qed.
Lemma less_room s x : both 0 [] s -> less s (make_room s x).1.
Proof.
  intros H. unfold make_room, punch_evict_idle. cbv zeta. destruct (is_null (punch_slot_find s).1 || (_ <=? (punch_slot_find s).2)%nat); [|by apply less_refl].
  destruct (oldest_punch s _); cbn [fst]; [by apply less_release, less_refl|by apply less_refl].
Qed.

(** ** An ask taken up *)
Lemma working_once l s i j v w : adm_ok l s -> a_ws s !! i = Some v -> a_ws s !! j = Some w -> w_used v = true -> w_used w = true -> w_c v = w_c w -> i = j.
Proof.
  intros H Hi Hj Hv Hw E. destruct (decide (i = j)) as [|Hn]; [done|]. exfalso. pose proof (go_once _ _ _ H) as N. apply NoDup_app in N as (_ & _ & N). unfold roles in N. apply NoDup_app in N as (_ & _ & N). apply NoDup_app in N as (N & _ & _).
  unfold workers in N. cbn [view q_ws] in N. rewrite (working_clear _ _ _ false false Hi Hv) in N. apply NoDup_cons in N as [N _]. apply N. rewrite E. apply (working_in _ j); [|done]. by rewrite list_lookup_insert_ne.
Qed.
(** The worker an ask resumes: it serves this name and has not returned. *)
Definition serves (s : asess) (u : bytes) (t : nat) : Prop := exists i w, a_ws s !! i = Some w /\ w_used w = true /\ w_done w = false /\ w_c w = t /\ hc_claim_ufrag (conn_at s t) = u.
Lemma by_ufrag_serves s u t : worker_by_ufrag s u = Some t -> serves s u t.
Proof.
  unfold worker_by_ufrag. destruct (bytes_eqb u []); [done|]. destruct (first_index _ (a_ws s) 0) as [i|] eqn:Ei; [|done]. intros [= <-]. apply first_index_at in Ei as (w & Hw & Hs). unfold worker_serves in Hs.
  apply andb_true_iff in Hs as [Hs Hu]. apply andb_true_iff in Hs as [Ha Hd]. apply negb_true_iff in Hd. unfold bytes_eqb in Hu. apply bool_decide_eq_true in Hu. assert (E : worker_at s i = w) by (unfold worker_at; by erewrite nth_lookup_Some). rewrite E. by exists i, w.
Qed.
Lemma by_ufrag_none s u i w : worker_by_ufrag s u = None -> u <> [] -> a_ws s !! i = Some w -> w_used w = true -> w_done w = false -> hc_claim_ufrag (conn_at s (w_c w)) <> u.
Proof.
  intros H Hu Hi Ha Hd E. unfold worker_by_ufrag, bytes_eqb in H. rewrite bool_decide_eq_false_2 in H by done. destruct (first_index _ (a_ws s) 0) as [j|] eqn:Ei; [done|].
  pose proof (first_index_none _ _ _ Ei w ltac:(by eapply list_elem_of_lookup_2)) as X. unfold worker_serves in X. rewrite Ha, Hd, E in X. unfold bytes_eqb in X. by rewrite bool_decide_eq_true_2 in X.
Qed.
Lemma serves_like s s' u t : a_ws s' = a_ws s -> hc_claim_ufrag (conn_at s' t) = hc_claim_ufrag (conn_at s t) -> serves s u t -> serves s' u t.
Proof. intros E F (i & w & A & B & D & G & K). exists i, w. split_and!; try done; congruence. Qed.
Lemma serves_works s u t : serves s u t -> t ∈ workers (view s).
Proof. intros (i & w & A & B & _ & <- & _). by apply (working_in _ i). Qed.
Lemma names_unnamed s u : unnamed u s -> u ∉ names (view s).
Proof.
  intros H X. unfold names in X. apply list_elem_of_In, filter_In in X as [X _]. apply in_map_iff in X as (c & E & Hc). apply list_elem_of_In in Hc. unfold punches in Hc. apply list_elem_of_omap in Hc as (p & Hp & ->).
  apply list_elem_of_lookup in Hp as [j Hj]. specialize (H j). unfold punch_at, at_slot in H. cbn [view q_punching] in Hj. rewrite Hj in H. cbn in H. rewrite at_view in E. cbn in E. unfold ufrag_is, bytes_eqb in H. by rewrite bool_decide_eq_true_2 in H.
Qed.
Lemma names_more g g' c : punches g' ≡ₚ c :: punches g -> c ∉ punches g -> (forall d, d <> c -> ci_punch (q_at g' d) = ci_punch (q_at g d)) -> ci_punch (q_at g' c) <> [] -> names g' ≡ₚ ci_punch (q_at g' c) :: names g.
Proof.
  intros P N H Hc. assert (F : forall l l' : list bytes, l ≡ₚ l' -> List.filter (fun u => negb (bytes_eqb u [])) l ≡ₚ List.filter (fun u => negb (bytes_eqb u [])) l').
  { intros l l'. induction 1; cbn; repeat case_match; eauto using Permutation. }
  unfold names. rewrite (F _ _ (Permutation_map (fun c => ci_punch (q_at g' c)) P)). cbn [map List.filter]. unfold bytes_eqb at 1. rewrite bool_decide_eq_false_2 by done. cbn [negb]. f_equiv. erewrite map_ext_in; [done|]. intros d Hd. apply H. intros ->. by apply N, list_elem_of_In.
Qed.
Lemma book_punch l s s1 s' pc k resume cu : adm_ok (pc :: l) s -> book_ok 0 (view s) -> a_punching s !! k = Some None -> taken_up s s1 s' pc k resume cu -> snprintf 40 cu = cu -> cu <> [] -> unnamed cu s ->
  (forall t, resume = Some t -> serves s cu t) -> (resume = None -> a_admit_max s <> 0 -> a_admitted s < a_admit_max s) -> book_ok 0 (view s').
Proof.
  intros H B Hk [O (R1 & R2 & R3 & R4 & R5 & R6 & R7) P N K A Q1 Q2] Hs Hu Hn Hr Hm. pose proof (loose_apart _ _ _ _ H) as (_ & N2 & N3 & _). destruct P as [P1 P2 _ _ _ _ _ P8 _ _ _]. cbn [view q_punching q_ws] in P1, P2.
  assert (Ep : punches (view s') ≡ₚ pc :: punches (view s)) by (unfold punches; cbn [view q_punching]; rewrite P1, R1; by apply omap_fill). assert (Ew : workers (view s') = workers (view s)) by (unfold workers; cbn [view q_ws]; by rewrite P2, R2).
  assert (V : forall d, d <> pc -> ci_resume (q_at (view s') d) = ci_resume (q_at (view s) d) /\ ci_punch (q_at (view s') d) = ci_punch (q_at (view s) d) /\ ci_claim (q_at (view s') d) = ci_claim (q_at (view s) d)).
  { intros d Hd. rewrite P8, N, K, !decide_False by done. rewrite !at_view, O by done. done. }
  assert (Vp : ci_resume (q_at (view s') pc) = resume /\ ci_punch (q_at (view s') pc) = cu) by (rewrite P8, N, !decide_True by done; done). destruct Vp as [V1 V2].
  assert (Ef : freshes (view s') = (freshes (view s) + if resume then 0 else 1)%nat).
  { unfold freshes. rewrite (filter_perm _ _ _ Ep). cbn [List.filter]. rewrite V1. rewrite (filter_ext_in _ (fun c => is_null (ci_resume (q_at (view s) c)))) by (intros d Hd; destruct (V d) as [-> _]; [by intros ->|done]). destruct resume; cbn [is_null length]; lia. }
  assert (Ea : a_admitted s' = a_admitted s + if resume then 0 else 1).
  { rewrite A. destruct resume; [lia|]. assert (X : ufrag_admitted s1 cu = false); [|by rewrite X]. unfold ufrag_admitted. rewrite R1. apply andb_false_iff. right. apply not_true_iff_false. intros X. apply existsb_exists in X as ([d|] & Hd & X); [|done].
    apply list_elem_of_In, list_elem_of_lookup in Hd as [j Hj]. specialize (Hn j). unfold punch_at, at_slot in Hn. rewrite Hj in Hn. cbn in Hn, X. rewrite O in X; [congruence|]. intros ->. apply N2. apply (in_slot s j). unfold punch_at, at_slot. by rewrite Hj. }
  destruct B as [[B0 B1] B2 B3 B4 B5 B6]. split; rewrite ?Ew; cbn [view q_admitted q_count q_max] in *.
  - by rewrite Q1.
  - rewrite Ea, Q1, Ef, B2. destruct resume; lia.
  - rewrite Ea, Q2. intros X. specialize (B3 X). destruct resume; [lia|]. specialize (Hm eq_refl X). lia.
  - rewrite (names_more (view s) (view s') pc Ep N2) by (try (by rewrite V2); intros d Hd; by destruct (V d Hd) as (_ & ? & _)). rewrite V2. constructor; [by apply names_unnamed|done].
  - intros i w d Hi Hw Hd Hdp. rewrite Ep in Hdp. cbn [view q_ws] in Hi. rewrite P2, R2 in Hi. apply elem_of_cons in Hdp as [->|Hdp].
    + rewrite V1. intros ->. destruct (Hr _ eq_refl) as (j & v & Hj & Hv & Hvd & E & _). rewrite (working_once _ s j i v w H Hj Hi Hv Hw E) in Hj. congruence.
    + assert (d <> pc) by (by intros ->). destruct (V d) as [-> _]; [done|]. by apply (B5 i w d).
  - intros d t Hd Et. rewrite Ep in Hd. apply elem_of_cons in Hd as [->|Hd].
    + rewrite V1 in Et. right. rewrite V2. destruct (Hr _ Et) as (j & v & Hj & Hv & _ & E & F). assert (t <> pc). { intros ->. apply N3. apply (serves_works _ cu). by apply Hr. } destruct (V t) as (_ & _ & ->); [done|]. by rewrite at_view.
    + assert (d <> pc) by (by intros ->). destruct (V d) as (X & -> & _); [done|]. rewrite X in Et. assert (t <> pc). { intros ->. apply N3. by apply (go_resume _ _ _ H d). } destruct (V t) as (_ & _ & ->); [done|]. by apply B6.
Qed.
Lemma ufrag_fits sdp : snprintf 40 (sdp_ufrag sdp) = sdp_ufrag sdp.
Proof. unfold snprintf, sdp_ufrag, cand_sdp_ufrag. destruct (find_off _ sdp); [|done]. rewrite take_take. f_equal. Qed.
Section Asks.
Context {C : Crypto}.
Lemma both_unlisten n l s : both n l s -> both n (option_list (a_listen s) ++ l) (s <| a_listen := None |>).
Proof. intros [H B]. split; [by apply ok_unlisten|]. eapply book_ok_like; [exact H| |exact B]. by split. Qed.
Lemma count_unnamed s u : unnamed u s -> punch_count s u = 0%nat.
Proof.
  intros H. unfold punch_count. rewrite filter_none; [done|]. intros p Hp. apply list_elem_of_lookup in Hp as [j Hj]. specialize (H j). unfold punch_at, at_slot in H. by rewrite Hj in H.
Qed.
Lemma both_offer_punch s x l idx k w cid sdp cu cp : both 0 [] s -> a_listen s = Some l -> a_punching s !! k = Some None -> snprintf 40 cu = cu -> cu <> [] -> unnamed cu s ->
  (forall t, w = Some t -> serves s cu t) -> (w = None -> a_admit_max s <> 0 -> a_admitted s < a_admit_max s) ->
  both 0 [] ((offer_punch s x l idx k w cid sdp cu cp) <| a_listen := None |>).
Proof.
  intros [H B] El Hk Hs Hu Hn Hw Hm. split; [apply ok_offer_punch; try done; intros t Et; by eapply serves_works, Hw|]. unfold offer_punch. cbv zeta. rewrite (count_unnamed s cu Hn). cbn [Nat.leb PUNCH_PARALLEL_MAX].
  pose proof (both_unlisten 0 [] s (conj H B)) as [U UB]. rewrite El in U. cbn [option_list app] in U. destruct (listen_lan [] s l H El) as [Hc Hl].
  assert (Hx : ice_ctx (pe_ice (hc_pr (conn_at s l))) <> 0).
  { pose proof (go_ctx _ _ _ H l) as X. rewrite at_view in X. apply X; [cbn; rewrite El; rewrite elem_of_app; right; left|set_solver]. }
  set (fl := sdp_filter_peer _ _ _). set (st := 0 <? a_stuck_left s). clearbody fl st.
  pose proof (take_begun [] (s <| a_listen := None |>) x l w k cid cu cp fl st U ltac:(intros t Et; exact (serves_works _ _ _ (Hw t Et))) Hx) as T. cbv zeta in T.
  pose proof (ok_take [] (s <| a_listen := None |>) x l w k cid cu cp fl st U Hk ltac:(intros t Et; exact (serves_works _ _ _ (Hw t Et))) Hc Hl Hx) as G. cbv zeta in G.
  rewrite take_listen in T, G. cbn [fst snd] in T, G. destruct (punch_take s x l w k cid cu cp fl st) as [s2 []]; cbn [fst snd negb] in *.
  - destruct T as (s1 & _ & T). pose proof (book_punch [] _ s1 _ l k w cu U UB Hk T Hs Hu Hn Hw Hm) as B2. clear T.
    set (s3 := if 0 <? a_stuck_left s2 then _ else s2). assert (B3 : both 0 [] (s3 <| a_listen := None |>)) by (unfold s3; by destruct (0 <? a_stuck_left s2)). clearbody s3.
    set (f := fun h : hconn => h <| hc_answer_sdp := snprintf NAT_SDP_MAX (x_local x) |>). assert (Ef : forall h, info (f h) = info h) by done.
    exact (proj2 (both_on 0 [] (s3 <| a_listen := None |>) l f Ef B3)).
  - assert (G2 : both 0 [l] (s2 <| a_listen := None |>)) by (split; [done|by rewrite T]). refine (proj2 (both_free 0 [] (s2 <| a_listen := None |>) x l G2 _)). by rewrite T.
Qed.
(** A claimant that nobody serves and that has a punch has one of its own. *)
Lemma admitted_fresh s u : both 0 [] s -> u <> [] -> worker_by_ufrag s u = None -> ufrag_admitted s u = true -> exists j c, punch_at s j = Some c /\ ufrag_is u (conn_at s c) = true /\ hc_punch_resume (conn_at s c) = None.
Proof.
  intros [H B] Hu Hw Ha. unfold ufrag_admitted in Ha. apply andb_true_iff in Ha as [_ Ha]. apply existsb_exists in Ha as ([c|] & Hc & Hf); [|done]. apply list_elem_of_In, list_elem_of_lookup in Hc as [j Hj]. cbn in Hf. exists j, c.
  assert (Ej : punch_at s j = Some c) by (unfold punch_at, at_slot; by rewrite Hj). split_and!; try done. destruct (hc_punch_resume (conn_at s c)) as [t|] eqn:Er; [exfalso|done]. pose proof (in_slot _ _ _ Ej) as Hp.
  assert (Et : ci_resume (q_at (view s) c) = Some t) by (by rewrite at_view). unfold ufrag_is, bytes_eqb in Hf. apply bool_decide_eq_true in Hf. pose proof (bk_name _ _ B c t Hp Et) as Hn. rewrite !at_view in Hn. cbn in Hn.
  pose proof (go_resume _ _ _ H c t Hp Et) as Ht. unfold workers, working in Ht. apply list_elem_of_In, in_map_iff in Ht as (w & Ew & Hin). apply filter_In in Hin as [Hin Hus]. apply list_elem_of_In, list_elem_of_lookup in Hin as [i Hi]. cbn in Hi.
  destruct (w_done w) eqn:Ed; [apply (bk_done _ _ B i w c Hi Hus Ed Hp); by rewrite Et, Ew|]. apply (by_ufrag_none s u i w Hw Hu Hi Hus Ed). rewrite Ew. destruct Hn as [Hn|Hn]; congruence.
Qed.
Lemma room_left s s' u : both 0 [] s -> u <> [] -> worker_by_ufrag s u = None -> negb (ufrag_admitted s u) && budget_spent s = false -> less s s' -> unnamed u s' -> a_admit_max s' <> 0 -> a_admitted s' < a_admit_max s'.
Proof.
  intros H Hu Hw Hb [_ K] Hn. rewrite (sk_max _ _ K). intros Hm. pose proof (sk_adm _ _ K). destruct (ufrag_admitted s u) eqn:Ea.
  - destruct (admitted_fresh s u H Hu Hw Ea) as (j & c & Ej & Hf & Er). assert (X : punch_at s' j = None).
    { destruct (sk_slot _ _ K j) as [?|E]; [done|]. exfalso. rewrite Ej in E. destruct (sk_info _ _ K j c E) as (_ & F & _). specialize (Hn j). rewrite E in Hn. cbn in Hn. unfold ufrag_is in *. congruence. }
    pose proof (sk_fresh _ _ K j c Ej Er X). pose proof (bk_max _ _ (proj2 H) Hm). cbn in *. lia.
  - cbn in Hb. unfold budget_spent, truth in Hb. destruct (Z.eqb_spec (a_admit_max s) 0); [done|]. cbn in Hb. lia.
Qed.
Lemma well_done s i : offers_well (a_offers s) = true -> offers_well (a_offers (offer_done s i)) = true.
Proof.
  intros H. unfold offers_well in *. rewrite forallb_forall in *. intros o Ho. apply list_elem_of_In, list_elem_of_lookup in Ho as [j Hj]. cbn in Hj. destruct (decide (j = i)) as [->|].
  - destruct (decide (i < length (a_offers s))%nat); [rewrite list_lookup_insert_eq in Hj by done; by injection Hj as <-|]. rewrite list_insert_ge in Hj by lia. apply H, list_elem_of_In. by eapply list_elem_of_lookup_2.
  - rewrite list_lookup_insert_ne in Hj by done. apply H, list_elem_of_In. by eapply list_elem_of_lookup_2.
Qed.
Lemma well_at s i cid sdp : offers_well (a_offers s) = true -> default None (a_offers s !! i) = Some (cid, sdp) -> asks_well sdp = true.
Proof.
  intros H E. unfold offers_well in H. rewrite forallb_forall in H. destruct (a_offers s !! i) as [o|] eqn:Eo; [|done]. cbn in E. subst o. apply (H (Some (cid, sdp))). apply list_elem_of_In. by eapply list_elem_of_lookup_2.
Qed.
Lemma amend_eq s x u p d : exists t, punch_amend_repost s x u p d = s <| a_trace := t |>.
Proof.
  assert (E : s = s <| a_trace := a_trace s |>) by (by destruct s). unfold punch_amend_repost, conn_amend_remote, say. repeat case_match; eauto.
Qed.
Lemma in_hand_dup s w m u p : in_hand s w m u p = false -> punch_dup s u p = false.
Proof. unfold in_hand. destruct (punch_dup s u p); [|done]. by rewrite orb_true_r. Qed.
(** What [host_offer_take] does once it is clear that the ask is for a punch. *)
Lemma both_spend s x l i w cid sdp cu cp : both 0 [] s -> a_listen s = Some l -> offers_well (a_offers s) = true -> cu = sdp_ufrag sdp -> cu <> [] -> cp <> [] -> w = worker_by_ufrag s cu -> punch_dup s cu cp = false ->
  is_null w && negb (ufrag_admitted s cu) && budget_spent s = false ->
  let s2 := if punch_tried_again s cu cp then punch_reap_stale s x cu cp else s in
  match make_room s2 x with
  | (s3, None) => both 0 [] s3 /\ a_listen s3 = a_listen s /\ offers_well (a_offers s3) = true
  | (s3, Some k) => both 0 [] ((offer_punch s3 x l i k w cid sdp cu cp) <| a_listen := None |>)
  end.
Proof.
  intros H El Wl Ecu Hu Hp Ew Hd Hb s2. destruct (cleared s x cu cp H Hu Hp Hd) as [L2 N2]. fold s2 in L2, N2. clearbody s2. pose proof (less_room s2 x (proj1 L2)) as L3. destruct (room_spec [] s2 x (proj1 (proj1 L2))) as (_ & _ & R3).
  destruct (make_room s2 x) as [s3 o]. cbn [fst snd] in *. pose proof (unnamed_less _ _ _ L3 N2) as N3. pose proof (less_trans _ _ _ L2 L3) as L. clear L2 L3 N2 s2. destruct L as [H3 K]. destruct o as [k|].
  - apply both_offer_punch; [done|rewrite (sk_listen _ _ K); done|by apply R3|by rewrite Ecu, ufrag_fits|done|done| |].
    + intros t Et. rewrite Ew in Et. pose proof (by_ufrag_serves _ _ _ Et) as Sv. apply (serves_like s); [exact (sk_ws _ _ K)| |done]. apply (sk_claim _ _ K). by eapply serves_works.
    + intros En. eapply (room_left s s3 cu); try done; [congruence|by rewrite En in Hb].
  - split; [done|]. split; [exact (sk_listen _ _ K)|by rewrite (sk_offers _ _ K)].
Qed.
Lemma both_offer_take s x listen i : both 0 [] s -> offers_well (a_offers s) = true -> (forall l, listen = Some l -> a_listen s = Some l) ->
  let r := host_offer_take s x listen i in if r.2 then both 0 [] (r.1 <| a_listen := None |>) else both 0 [] r.1 /\ a_listen r.1 = a_listen s /\ offers_well (a_offers r.1) = true.
Proof.
  intros H Wl Hl. cbv zeta. unfold host_offer_take. destruct (default None (a_offers s !! i)) as [[cid sdp]|] eqn:Eo; [|done]. cbv zeta. pose proof (well_at s i cid sdp Wl Eo) as Wa. unfold asks_well in Wa.
  destruct (bytes_eqb (sdp_ufrag sdp) []) eqn:Eu; cbn [fst snd]; [split; [exact H|]; split; [done|by apply well_done]|]. cbn [orb] in Wa. apply negb_true_iff in Wa. unfold bytes_eqb in Wa, Eu. apply bool_decide_eq_false in Wa, Eu.
  destruct (amend_eq s x (sdp_ufrag sdp) (sdp_pwd sdp) sdp) as [t ->]. set (s1 := s <| a_trace := t |>).
  change (worker_by_ufrag s (sdp_ufrag sdp)) with (worker_by_ufrag s1 (sdp_ufrag sdp)). change (ufrag_admitted s (sdp_ufrag sdp)) with (ufrag_admitted s1 (sdp_ufrag sdp)). change (punch_tried_again s (sdp_ufrag sdp) (sdp_pwd sdp)) with (punch_tried_again s1 (sdp_ufrag sdp) (sdp_pwd sdp)).
  set (made := _ || _). clearbody made. assert (H1 : both 0 [] s1) by done. assert (W1 : offers_well (a_offers s1) = true) by done. assert (El1 : a_listen s1 = a_listen s) by done. clearbody s1. rewrite <- El1 in *. clear Eo Wl H El1.
  destruct (in_hand s1 _ made _ _) eqn:Eh; cbn [fst snd]; [split; [exact H1|]; split; [done|by apply (well_done s1)]|]. destruct (is_null _ && _ && _) eqn:Eb; cbn [fst snd]; [split; [exact H1|]; split; [done|by apply (well_done s1)]|].
  destruct listen as [l|]; [|done]. pose proof (both_spend s1 x l i _ cid sdp _ (sdp_pwd sdp) H1 (Hl l eq_refl) W1 eq_refl Eu Wa eq_refl (in_hand_dup _ _ _ _ _ Eh) Eb) as S. cbv zeta in S.
  destruct (make_room _ x) as [s3 [k|]]; cbn [fst snd]; exact S.
Qed.
Lemma both_offers_loop x listen js : forall s, both 0 [] s -> offers_well (a_offers s) = true -> (forall l, listen = Some l -> a_listen s = Some l) ->
  let r := offers_loop s x listen js in if r.2 then both 0 [] (r.1 <| a_listen := None |>) else both 0 [] r.1.
Proof.
  induction js as [|i js IH]; intros s H Wl Hl; [done|]. cbv zeta in *. cbn [offers_loop]. pose proof (both_offer_take s x listen i H Wl Hl) as T. cbv zeta in T.
  destruct (host_offer_take s x listen i) as [s1 []]; cbn [fst snd] in *; [done|]. destruct T as (T1 & T2 & T3). apply IH; [done|done|]. by rewrite T2.
Qed.
Lemma both_offers s x : both 0 [] s -> offers_well (a_offers s) = true -> both 0 [] (offers_turn s x).
Proof.
  intros H Wl. unfold offers_turn, host_offers_drain. pose proof (both_offers_loop x (if a_waiting s then a_listen s else None) (seq 0 RDV_HOST_MAX) s H Wl) as T. cbv zeta in T.
  destruct (offers_loop _ _ _ _) as [s1 []]; cbn [fst snd] in *; apply T; intros l; by destruct (a_waiting s).
Qed.

(** ** A worker taken down *)
Lemma names_fewer (f g : nat -> bytes) l : (forall c, c ∈ l -> g c = f c \/ g c = []) ->
  List.filter (fun u => negb (bytes_eqb u [])) (map g l) `sublist_of` List.filter (fun u => negb (bytes_eqb u [])) (map f l).
Proof.
  intros H. induction l as [|c l IH]; [done|]. cbn. specialize (IH ltac:(intros d Hd; apply H; by right)). destruct (H c ltac:(left)) as [->| ->].
  - destruct (negb _); [by apply sublist_skip|done].
  - change (bytes_eqb [] []) with true. cbn [negb]. destruct (negb (bytes_eqb (f c) [])); [by apply sublist_cons|done].
Qed.
Record paid_off (s s' : asess) (c : nat) : Prop := {
  po_claim : forall d, d <> c -> hc_claim_ufrag (conn_at s' d) = hc_claim_ufrag (conn_at s d);
  po_punch : forall d, d <> c -> hc_punch_ufrag (conn_at s' d) = hc_punch_ufrag (conn_at s d) \/ hc_punch_ufrag (conn_at s' d) = [];
  po_max : a_admit_max s' = a_admit_max s;
  po_sum : (a_count s' = a_count s + 1 /\ a_admitted s' = a_admitted s) \/ (a_count s' = a_count s /\ (0 < a_admitted s -> a_admitted s' = a_admitted s - 1))
}.
Lemma unname_names s u d : hc_claim_ufrag (conn_at (unname s u) d) = hc_claim_ufrag (conn_at s d) /\ (hc_punch_ufrag (conn_at (unname s u) d) = hc_punch_ufrag (conn_at s d) \/ hc_punch_ufrag (conn_at (unname s u) d) = []).
Proof.
  unfold unname. destruct (bytes_eqb u []); [auto|]. destruct (first_index _ _ _); [|auto]. destruct (at_slot _ _) as [q|]; [|auto]. rewrite conn_at_on. case_bool_decide as E; [|auto]. subst. unfold conn_at. destruct (a_heap s !! q); cbn; auto.
Qed.
Lemma reap_paid s x i : paid_off s (worker_reap s x i) (w_c (worker_at s i)).
Proof.
  unfold worker_reap. cbv zeta. set (c := w_c (worker_at s i)). set (h := conn_at s c). clearbody h.
  set (s1 := if a_obs s then _ else s). assert (E1 : same_but_conns s s1 /\ forall d, conn_at s1 d = conn_at s d) by (unfold s1; by destruct (a_obs s)). clearbody s1. destruct E1 as [S1 E1].
  set (s2 := s1 <| a_lan_conns := _ |>). assert (E2 : forall d, conn_at s2 d = conn_at s d) by exact E1. assert (Q2 : a_admitted s2 = a_admitted s /\ a_count s2 = a_count s /\ a_admit_max s2 = a_admit_max s) by (destruct S1; done). clearbody s2. clear S1 E1 s1.
  destruct (orphan_spec s2 c) as [S3 E3]. set (s3 := orphan s2 c) in *. clearbody s3. destruct (unname_spec s3 (hc_claim_ufrag h)) as [S4 _]. pose proof (unname_names s3 (hc_claim_ufrag h)) as E4. set (s4 := unname s3 _) in *. clearbody s4.
  set (s5 := s4 <| a_sig := _ |>). set (s6 := if negb _ && a_have_served s5 && _ then _ else s5).
  assert (Q6 : a_admitted s6 = a_admitted s /\ a_count s6 = a_count s /\ a_admit_max s6 = a_admit_max s /\ a_heap s6 = a_heap s4).
  { destruct S3, S4, Q2 as (? & ? & ?). unfold s6. destruct (negb _ && a_have_served s5 && _); cbn; split_and!; congruence. }
  clearbody s6. clear s5 S3 S4 Q2. destruct Q6 as (Q1 & Q2 & Q3 & Q4). set (s7 := if conn_is_proven h then _ else _).
  assert (H7 : a_heap s7 = a_heap s4 /\ a_admit_max s7 = a_admit_max s /\ ((a_count s7 = a_count s + 1 /\ a_admitted s7 = a_admitted s) \/ (a_count s7 = a_count s /\ (0 < a_admitted s -> a_admitted s7 = a_admitted s - 1)))).
  { unfold s7, give_back. destruct (conn_is_proven h); cbn; [split_and!; try done; left; split; congruence|]. destruct (Z.ltb_spec 0 (a_admitted s6)); cbn; split_and!; try done; right; split; try done; lia. }
  clearbody s7. destruct H7 as (F1 & F2 & F3).
  assert (Z : forall d, d <> c -> conn_at (conn_free s7 x (Some c)) d = conn_at s4 d) by (intros d Hd; rewrite free_other by done; unfold conn_at; by rewrite F1).
  assert (Y : forall d, hc_claim_ufrag (conn_at s3 d) = hc_claim_ufrag (conn_at s d) /\ hc_punch_ufrag (conn_at s3 d) = hc_punch_ufrag (conn_at s d)) by (intros d; rewrite E3, E2; destruct (decide _); [|done]; unfold clr; by case_bool_decide).
  set (s8 := conn_free s7 x (Some c)) in *. assert (G8 : a_count s8 = a_count s7 /\ a_admitted s8 = a_admitted s7 /\ a_admit_max s8 = a_admit_max s7) by done. clearbody s8. destruct G8 as (G1 & G2 & G3). split.
  - intros d Hd. change (conn_at _ d) with (conn_at s8 d) at 1. rewrite Z by done. destruct (E4 d) as [-> _]. apply Y.
  - intros d Hd. change (conn_at (s8 <| a_ws := ?w |>) d) with (conn_at s8 d). rewrite Z by done. destruct (Y d) as [_ <-]. by destruct (E4 d) as [_ ?].
  - cbn [a_admit_max set set_a_ws]. congruence.
  - cbn [a_count a_admitted set set_a_ws]. rewrite G1, G2. exact F3.
Qed.
Lemma book_worker_gone s s' i w : both 0 [] s -> worker_gone (view s) (view s') i w -> w_done w = true -> paid_off s s' (w_c w) -> book_ok 0 (view s').
Proof.
  intros [H B] [A1 A2 (wd & wr & A3) A4 A5 A6 A7 A8 A9 A10 A11 A12] Hd [P1 P2 P3 P4]. set (c := w_c w) in *. assert (Hc : c ∈ workers (view s)) by (by apply (working_in _ i)). destruct (once_apart _ _ _ (go_once _ _ _ H) Hc) as (_ & N2 & _ & _).
  assert (Ep : punches (view s') = punches (view s)) by (unfold punches; by rewrite A4). assert (Ew : workers (view s) ≡ₚ c :: workers (view s')) by (unfold workers; rewrite A3; by apply working_clear).
  assert (V : forall d, d ∈ punches (view s) -> ci_resume (q_at (view s') d) = ci_resume (q_at (view s) d)).
  { intros d Hp. rewrite A10; [|by intros ->|done]. rewrite decide_False; [done|]. by apply (bk_done _ _ B i w d). }
  assert (Nc : c ∉ workers (view s')). { pose proof (go_once _ _ _ H) as N. unfold roles in N. cbn [app] in N. apply NoDup_app in N as (_ & _ & N). rewrite Ew in N. cbn [app] in N. apply NoDup_cons in N as [N _]. intros X. apply N. rewrite elem_of_app. auto. }
  destruct B as [[B0 B1] B2 B3 B4 B5 B6]. assert (Pos : 0 < a_admitted s) by (cbn [view q_admitted q_count] in *; rewrite B2, Ew; cbn [length]; lia). rewrite Ew in B2. cbn [length] in B2.
  assert (Ef : freshes (view s') = freshes (view s)) by (apply fresh_like; [done|exact V]). cbn [view q_admitted q_count q_max] in *. split; cbn [view q_admitted q_count q_max]; rewrite ?Ef, ?Ep, ?P3.
  - split; [done|]. destruct P4 as [[-> _]|[-> _]]; lia.
  - destruct P4 as [[-> ->]|[-> X]]; [lia|]. rewrite X by done. lia.
  - intros Hm. specialize (B3 Hm). destruct P4 as [[_ ->]|[_ X]]; [done|]. rewrite X by done. lia.
  - unfold names in *. rewrite Ep. eapply sublist_NoDup; [exact B4|]. apply names_fewer. intros d Hp. rewrite !at_view. apply P2. intros E. apply N2. by rewrite <- E.
  - intros j v d Hj Hv Hvd Hp. rewrite V by done. cbn [view q_ws] in Hj. change (a_ws s') with (q_ws (view s')) in Hj. rewrite A3 in Hj. destruct (decide (j = i)) as [->|]; [|rewrite list_lookup_insert_ne in Hj by done; by apply (B5 j v d)].
    rewrite list_lookup_insert_eq in Hj by (by eapply lookup_lt_Some). by injection Hj as <-.
  - intros d t Hp. rewrite V by done. intros Et. pose proof (go_resume _ _ _ H d t Hp Et) as Ht. assert (Htc : t <> c). { intros E. apply (B5 i w d A1 A2 Hd Hp). by rewrite Et, E. }
    rewrite !at_view. cbn [info ci_punch ci_claim]. rewrite P1 by done. destruct (P2 d) as [->| ->]; [intros E; apply N2; by rewrite <- E| |by left]. specialize (B6 d t Hp Et). by rewrite !at_view in B6.
Qed.

(** ** The rest *)
Lemma both_drop_listener s x : both 0 [] s -> both 0 [] (drop_listener s x).
Proof.
  intros [H B]. split; [by apply ok_drop_listener|]. unfold drop_listener. destruct (a_listen s) as [c|] eqn:E; [|eapply book_ok_like; [exact H| |exact B]; by split].
  assert (N : c ∉ punches (view s) /\ c ∉ workers (view s)).
  { pose proof (ok_unlisten [] s H) as X. rewrite E in X. cbn [option_list app] in X. apply loose_apart in X as (_ & N2 & N3 & _). done. }
  destruct N as [N2 N3]. eapply book_ok_like; [exact H| |exact B]. eapply book_like_trans; [by apply (book_free s x c)|]. by split.
Qed.
Lemma book_listen n l s o : adm_ok l s -> book_ok n (view s) -> book_ok n (view (s <| a_listen := o |>)).
Proof. intros H B. eapply book_ok_like; [exact H| |exact B]. by split. Qed.
Lemma both_gather s x ag : both 0 [] s -> both 0 [] (gather_start s x ag).
Proof.
  intros H. split; [apply ok_gather_start, H|]. unfold gather_start. destruct (_ || _ || _); [apply H|]. destruct (conn_alloc s x 0) as [[s1 c]|] eqn:Ea; [|apply H]. destruct (alloc_both _ _ _ _ _ _ _ H Ea) as [H1 Hl]. cbv zeta.
  set (s2 := s1 <| a_have_peer := false |> <| a_remote_set := false |> <| a_restart := false |> <| a_peer_sdp := [] |>). assert (H2 : both 0 [c] s2) by exact H1. assert (F : both 0 [] (conn_free s2 x (Some c))) by (by apply both_free).
  destruct ag as [[ag ctx]|]; [|apply F]. destruct (negb _); [apply F|]. set (f := fun h : hconn => _). destruct (both_on_loose 0 [] s2 c f ltac:(done) H2) as [H3 B3]. apply (book_listen 0 [c] (on_conn s2 c f)); done.
Qed.
Lemma both_shown n l s x i : both n l s -> both n l (worker_shown s x i).
Proof. intros H. unfold worker_shown. cbv zeta. destruct (_ && _ && _); [|done]. set (f := fun h : hconn => h <| hc_status_peer := snprintf 80 (x_in_use x (w_c (worker_at s i))) |>). assert (Ef : forall h, info (f h) = info h) by done. exact (both_on n l s _ f Ef H). Qed.
Lemma both_worker_turn x s i : both 0 [] s -> both 0 [] (worker_turn x s i).
Proof.
  intros H. unfold worker_turn. cbv zeta. set (s1 := if _ && _ then _ else s). assert (H1 : both 0 [] s1).
  { unfold s1. destruct (w_used (worker_at s i)) eqn:Eu; [|done]. destruct (w_done _) eqn:Ed; [|done]. cbn [andb]. pose proof (reap_gone s x i Eu) as G. split; [eapply ok_worker_gone; [apply H|exact G]|]. eapply book_worker_gone; [exact H|exact G|done|apply reap_paid]. }
  clearbody s1. destruct (w_used (worker_at s1 i)) eqn:Eu; [|done]. apply both_shown. unfold worker_heard. cbv zeta. destruct (_ && _ && _); [|done]. set (s2 := s1 <| a_ws := _ |>). apply worker_at_used in Eu. pose proof (lookup_lt_Some _ _ _ Eu) as Hi.
  assert (H2 : adm_ok [] s2) by (apply (ok_ws_same [] s1 i _ true (proj1 H1) Hi)). assert (Ew : workers (view s2) = workers (view s1)) by (by apply working_same).
  split; [exact H2|]. change (book_ok 0 (view s2)). destruct H1 as [_ [B1 B2 B3 B4 B5 B6]]. split; rewrite ?Ew; try done. intros j v d Hj Hv Hd. cbn in Hj. destruct (decide (j = i)) as [->|]; [|rewrite list_lookup_insert_ne in Hj by done; by apply (B5 j v d)].
  rewrite list_lookup_insert_eq in Hj by done. injection Hj as <-. cbn in *. by apply (B5 i _ d Eu).
Qed.
Lemma both_done s i : both 0 [] s -> (forall c, c ∈ punches (view s) -> hc_punch_resume (conn_at s c) <> Some (w_c (worker_at s i))) -> both 0 [] (act_do s (ActDone i)).
Proof.
  intros [H B] Hn. split; [by apply ok_act|]. cbn [act_do]. cbv zeta. set (s2 := s <| a_ws := _ |>). destruct (decide (i < length (a_ws s))%nat) as [Hi|Hi].
  2: { assert (E : view s2 = view s) by (unfold s2, view; cbn; by rewrite list_insert_ge by lia). by rewrite E. }
  destruct (lookup_lt_is_Some_2 _ _ Hi) as [w Hw]. assert (E : worker_at s i = w) by (unfold worker_at; by erewrite nth_lookup_Some).
  assert (Ew : workers (view s2) = workers (view s)) by (unfold s2; rewrite E; by apply working_same). destruct B as [B1 B2 B3 B4 B5 B6]. split; rewrite ?Ew; try done.
  intros j v d Hj Hv Hd Hp. cbn in Hj. destruct (decide (j = i)) as [->|]; [|rewrite list_lookup_insert_ne in Hj by done; by apply (B5 j v d)]. rewrite list_lookup_insert_eq in Hj by done. injection Hj as <-. change (q_at (view s2) d) with (q_at (view s) d). rewrite at_view. by apply Hn.
Qed.
Lemma both_shell s c : both 0 [] s -> both 0 [] (act_do s (ActShell c)).
Proof.
  intros [H B]. split; [by apply ok_act|]. cbn [act_do]. case_bool_decide as Ec; [|done]. set (s2 := _ <| a_shells := _ |>).
  assert (Nw : c ∉ workers (view s)) by (intros X; by apply (once_apart _ _ _ (go_once _ _ _ H)) in X as (_ & _ & _ & ?)).
  assert (Np : c ∉ punches (view s)). { intros X. pose proof (go_once _ _ _ H) as N. apply NoDup_app in N as (_ & _ & N). unfold roles in N. apply NoDup_app in N as (_ & N & _). apply (N c X). rewrite !elem_of_app. by right; right. }
  eapply book_ok_like; [exact H| |exact B]. split; try done; intros d Hd; unfold q_at; cbn; rewrite !lookup_fmap, lookup_delete_ne; try done; by intros ->.
Qed.
Lemma both_swap n l s f : both n l s -> both n l (swap_sig s f).
Proof. done. Qed.
Lemma both_act s a : both 0 [] s -> act_clean s a -> both 0 [] (act_do s a).
Proof.
  intros H Hc. destruct a as [cid data x|src len sdp|x|x f|x f|x|x|x|x|x|x ag|x g|x fan|i|c pp pl cp|i q ag ctx|c|sg]; try (cbn [act_do]).
  - revert H. apply both_view. unfold on_peer_offer, offers_push. destruct (_ <=? _)%nat; [done|]. destruct (a_multiuser s); [by destruct (match first_index _ _ _ with Some _ => _ | None => _ end)|].
    destruct (peering_offer_judge _ _ _ _) as [[tk inc] uf]. cbv zeta. by destruct (negb tk && _ && _), (negb (tk || _)); try done; destruct (_ && _ && _).
  - revert H. apply both_view. unfold on_direct_claim. destruct (_ <=? _)%nat; [done|]. cbv zeta. destruct (lanlink_map_peer src len); [|done]. by repeat case_match.
  - destruct Hc as [Ht Hr]. exact (both_lan_loop x _ Ht s 0 H Hr).
  - unfold turn_moved. apply both_swap. apply (fold_keeps (fun s => both 0 [] s)); [intros s' i; apply both_release|by apply both_drop_listener].
  - apply both_swap. by apply both_drop_listener.
  - revert H. apply (fold_keeps (fun s => both 0 [] s)). intros s' i. apply both_worker_turn.
  - destruct Hc as [Ht Hr]. by apply both_scan.
  - unfold punch_drop_unreachable. destruct (negb _); [done|]. revert H. apply (fold_keeps (fun s => both 0 [] s)). intros s' i H. destruct (punch_at s' i); [|done]. destruct (unreachable _ _ _); [by apply both_release|done].
  - by apply both_drop_listener.
  - by apply both_offers.
  - by apply both_gather.
  - unfold gather_end. destruct (a_waiting s); [done|]. destruct g; [done|]. exact (both_drop_listener s x H).
  - revert H. apply (fold_keeps (fun s => both 0 [] s)). intros s' [c|] H; [|done]. cbv zeta. by destruct (bytes_eqb _ _).
  - by apply both_done.
  - by apply both_on.
  - split; [exact (ok_act s (ActAdopt i q ag ctx) (proj1 H))|]. destruct (w_used (worker_at s i)); [|apply H]. eapply book_ok_like; [apply H| |apply H]. by apply book_on.
  - by apply both_shell.
  - exact H.
Qed.
Lemma both_init family max obs magic key stuck sg : 0 <= max -> both 0 [] (host_init family max obs magic key stuck sg).
Proof.
  intros Hm. split; [apply ok_init|]. split; try done.
  - cbn. constructor.
Qed.
Lemma both_run acts : forall s, both 0 [] s -> clean_run s acts -> both 0 [] (act_run s acts).
Proof. induction acts as [|a acts IH]; intros s H Hc; [done|]. destruct Hc as [Ha Hc]. cbn. apply IH; [by apply both_act|done]. Qed.

(** ** The grant itself never changes *)
Lemma max_free s x o : a_admit_max (conn_free s x o) = a_admit_max s.
Proof. by destruct o. Qed.
Lemma max_uncount s c : a_admit_max (punch_uncount s c) = a_admit_max s.
Proof. unfold punch_uncount, give_back. by repeat case_match. Qed.
Lemma max_release s x i : a_admit_max (punch_release s x i) = a_admit_max s.
Proof. unfold punch_release. destruct (punch_at s i) as [c|]; [|done]. cbv zeta. destruct (cid_set _); exact (max_uncount s c). Qed.
Lemma max_fold {A} (f : asess -> A -> asess) l : (forall s a, a_admit_max (f s a) = a_admit_max s) -> forall s, a_admit_max (fold_left f l s) = a_admit_max s.
Proof. intros H. induction l as [|a l IH]; intros s; [done|]. cbn. by rewrite IH, H. Qed.
Lemma max_tell s x c o : a_admit_max (conn_tell_fresh s x c o) = a_admit_max s.
Proof. unfold conn_tell_fresh. destruct (bytes_eqb _ _); [done|]. cbv zeta. destruct (probeplane_seal _ _ _ _ _) as [pp [frame|]]; [|done]. by destruct (_ || _). Qed.
Lemma max_register s c : a_admit_max (conn_register s c) = a_admit_max s.
Proof. unfold conn_register. by destruct (free_slot _). Qed.
Lemma max_row s c a : a_admit_max (open_row s c a) = a_admit_max s.
Proof. unfold open_row, emit_peer_ident. by destruct (_ || _). Qed.
Lemma max_spawn s x c : a_admit_max (worker_spawn s x c).1 = a_admit_max s.
Proof. unfold worker_spawn. by destruct (first_index _ _ _). Qed.
Lemma max_serve s x i c : a_admit_max (punch_serve s x i c) = a_admit_max s.
Proof.
  unfold punch_serve. cbv zeta. set (s1 := if a_obs s then _ else s). assert (E1 : a_admit_max s1 = a_admit_max s) by (unfold s1; destruct (a_obs s); [by rewrite max_row|done]). clearbody s1. rewrite <- E1.
  set (s2 := if claim_served_has _ _ then _ else _). assert (E2 : a_admit_max s2 = a_admit_max s1) by (unfold s2; destruct (claim_served_has _ _); [by rewrite max_tell|done]). clearbody s2. rewrite <- E2.
  set (s3 := conn_register _ c). assert (E3 : a_admit_max s3 = a_admit_max s2) by (unfold s3; by rewrite max_register). clearbody s3. rewrite <- E3, <- (max_spawn s3 x c). destruct (worker_spawn s3 x c) as [s4 []]; [done|by rewrite max_free].
Qed.
Lemma max_dissolve s x c : a_admit_max (conn_dissolve s x c) = a_admit_max s.
Proof. reflexivity. Qed.
Lemma max_graft s x i c t : a_admit_max (punch_graft s x i c t) = a_admit_max s.
Proof.
  unfold punch_graft. rewrite max_dissolve. unfold punch_lent, resume_q_publish. cbv zeta. set (ctx := ice_ctx _). clearbody ctx. set (s1 := if truth ctx then _ else s).
  assert (E1 : a_admit_max s1 = a_admit_max s) by (unfold s1; destruct (truth ctx); [by destruct (first_index _ _ _)|done]). clearbody s1. rewrite <- E1. exact (max_uncount (on_conn (on_conn s1 c _) t _) c).
Qed.
Lemma max_scan_one x s i : a_admit_max (punch_scan_one x s i) = a_admit_max s.
Proof.
  unfold punch_scan_one. destruct (punch_at s i) as [c|]; [|done]. cbv zeta. destruct (negb _ && x_connected x c).
  - destruct (match hc_punch_resume _ with Some _ => _ | None => _ end); [by rewrite max_graft|by rewrite max_serve].
  - destruct (negb _ && x_failed x c); [|done]. rewrite max_free. exact (max_uncount s c).
Qed.
Lemma max_lan_admit s x c slot m u addr : a_admit_max (lan_admit s x c slot m u addr) = a_admit_max s.
Proof.
  unfold lan_admit. cbv zeta. set (s1 := if bytes_eqb _ [] then _ else _). assert (E1 : a_admit_max s1 = a_admit_max s) by (unfold s1; by destruct (bytes_eqb _ _)). clearbody s1. rewrite <- E1. set (s2 := conn_register _ c).
  assert (E2 : a_admit_max s2 = a_admit_max s1) by (unfold s2; by rewrite max_register, max_tell). clearbody s2. rewrite <- E2. set (s3 := if a_obs s2 then _ else s2). assert (E3 : a_admit_max s3 = a_admit_max s2) by (unfold s3; destruct (a_obs s2); [by rewrite max_row|done]).
  clearbody s3. rewrite <- E3, <- (max_spawn s3 x c). destruct (worker_spawn s3 x c) as [s4 []]; [done|]. rewrite max_free. by destruct (a_obs s4).
Qed.
Lemma max_lan_loop x q : forall s n, a_admit_max (lan_loop s x n q) = a_admit_max s.
Proof.
  induction q as [|a q IH]; intros s n; [done|]. cbn [lan_loop]. destruct (lanlink_map_peer _ _) as [m|]; [|apply IH]. destruct (_ || _ || _); [apply IH|]. destruct (free_slot _); [|done]. destruct (conn_alloc s x n) as [[s1 c]|] eqn:Ea; [|done].
  assert (E1 : a_admit_max s1 = a_admit_max s) by (unfold conn_alloc in Ea; destruct (x_addr x n); [|done]; case_bool_decide; [done|]; cbv zeta in Ea; by injection Ea as <- _).
  destruct (peering_add_path _ _ _ _ _ _) as [pr [addr|]]; [rewrite IH, max_lan_admit; exact E1|rewrite max_free; exact E1].
Qed.
Lemma max_take s x pc r k cid cu cp fl st : a_admit_max (punch_take s x pc r k cid cu cp fl st).1 = a_admit_max s.
Proof. unfold punch_take. destruct (peering_ice_prime _ _ _ _) as [pr []]; [|done]. cbn [negb]. destruct r; [done|]. by destruct (ufrag_admitted _ _). Qed.
Lemma max_offer_punch s x l idx k w cid sdp cu cp : a_admit_max (offer_punch s x l idx k w cid sdp cu cp) = a_admit_max s.
Proof.
  unfold offer_punch. cbv zeta. set (s1 := if (_ <=? _)%nat then _ else s). assert (E1 : a_admit_max s1 = a_admit_max s) by (unfold s1, punch_reap_oldest; destruct (_ <=? _)%nat; [|done]; destruct (oldest_punch s _); [apply max_release|done]). clearbody s1. rewrite <- E1.
  set (fl := sdp_filter_peer _ _ _). rewrite <- (max_take s1 x l w k cid cu cp fl (0 <? a_stuck_left s1)). destruct (punch_take _ _ _ _ _ _ _ _ _ _) as [s2 []]; cbn [negb fst]; [by destruct (0 <? a_stuck_left s2)|]. exact (max_free s2 x (Some l)).
Qed.
Lemma max_room s x : a_admit_max (make_room s x).1 = a_admit_max s.
Proof.
  unfold make_room, punch_evict_idle. cbv zeta. destruct (is_null (punch_slot_find s).1 || (_ <=? (punch_slot_find s).2)%nat); [|done]. destruct (oldest_punch s _); cbn [fst]; [apply max_release|done].
Qed.
Lemma max_stale s x u p : a_admit_max (punch_reap_stale s x u p) = a_admit_max s.
Proof. unfold punch_reap_stale. apply max_fold. intros s' i. destruct (held _ _ _); [apply max_release|done]. Qed.
Lemma max_offer_take s x listen i : a_admit_max (host_offer_take s x listen i).1 = a_admit_max s.
Proof.
  unfold host_offer_take. destruct (default None (a_offers s !! i)) as [[cid sdp]|]; [|done]. cbv zeta. destruct (bytes_eqb (sdp_ufrag sdp) []); [done|]. set (w := worker_by_ufrag s _). set (made := _ || _). clearbody made.
  set (again := punch_tried_again s _ _). set (adm := ufrag_admitted s _). clearbody again adm w. destruct (amend_eq s x (sdp_ufrag sdp) (sdp_pwd sdp) sdp) as [t ->]. set (s1 := s <| a_trace := t |>). change (a_admit_max s) with (a_admit_max s1). clearbody s1.
  destruct (in_hand _ _ _ _ _); [done|]. destruct (is_null _ && _ && _); [done|]. destruct listen as [l|]; [|done]. set (s2 := if again then _ else s1). assert (E2 : a_admit_max s2 = a_admit_max s1) by (unfold s2; destruct again; [apply max_stale|done]). clearbody s2. rewrite <- E2, <- (max_room s2 x).
  destruct (make_room s2 x) as [s3 [k|]]; cbn [fst]; [apply max_offer_punch|done].
Qed.
Lemma max_offers s x : a_admit_max (offers_turn s x) = a_admit_max s.
Proof.
  unfold offers_turn, host_offers_drain. assert (H : forall js s l, a_admit_max (offers_loop s x l js).1 = a_admit_max s).
  { induction js as [|i js IH]; intros s' l; [done|]. cbn [offers_loop]. rewrite <- (max_offer_take s' x l i). destruct (host_offer_take s' x l i) as [s1 []]; [done|apply IH]. }
  set (l := if a_waiting s then _ else _). rewrite <- (H (seq 0 RDV_HOST_MAX) s l). by destruct (offers_loop _ _ _ _) as [s1 []].
Qed.
Lemma max_worker_turn x s i : a_admit_max (worker_turn x s i) = a_admit_max s.
Proof.
  unfold worker_turn. cbv zeta. set (s1 := if _ && _ then _ else s). assert (E1 : a_admit_max s1 = a_admit_max s) by (unfold s1; destruct (_ && _); [apply (po_max _ _ _ (reap_paid s x i))|done]). clearbody s1. rewrite <- E1. destruct (w_used _); [|done]. unfold worker_shown, worker_heard. cbv zeta. destruct (negb (w_released _) && _ && _); by destruct (_ && _ && _).
Qed.
Lemma max_drop_listener s x : a_admit_max (drop_listener s x) = a_admit_max s.
Proof. exact (max_free s x (a_listen s)). Qed.
Lemma max_gather s x ag : a_admit_max (gather_start s x ag) = a_admit_max s.
Proof.
  unfold gather_start. destruct (_ || _ || _); [done|]. destruct (conn_alloc s x 0) as [[s1 c]|] eqn:Ea; [|done]. assert (E1 : a_admit_max s1 = a_admit_max s) by (unfold conn_alloc in Ea; destruct (x_addr x 0); [|done]; case_bool_decide; [done|]; cbv zeta in Ea; by injection Ea as <- _).
  cbv zeta. destruct ag as [[ag ctx]|]; [|exact E1]. destruct (negb _); exact E1.
Qed.
Lemma max_swap s f : a_admit_max (swap_sig s f) = a_admit_max s.
Proof. done. Qed.
Lemma max_act s a : a_admit_max (act_do s a) = a_admit_max s.
Proof.
  destruct a as [cid data x|src len sdp|x|x f|x f|x|x|x|x|x|x ag|x g|x fan|i|c pp pl cp|i q ag ctx|c|sg]; cbn [act_do].
  - unfold on_peer_offer, offers_push. destruct (_ <=? _)%nat; [done|]. destruct (a_multiuser s); [by destruct (match first_index _ _ _ with Some _ => _ | None => _ end)|].
    destruct (peering_offer_judge _ _ _ _) as [[tk inc] uf]. cbv zeta. by destruct (negb tk && _ && _), (negb (tk || _)); try done; destruct (_ && _ && _).
  - unfold on_direct_claim. destruct (_ <=? _)%nat; [done|]. cbv zeta. destruct (lanlink_map_peer src len); [|done]. by repeat case_match.
  - exact (max_lan_loop x _ s 0).
  - unfold turn_moved. rewrite max_swap, max_fold by (intros; apply max_release). apply max_drop_listener.
  - unfold turn_quiet. rewrite max_swap. apply max_drop_listener.
  - apply max_fold. apply max_worker_turn.
  - apply max_fold. apply max_scan_one.
  - unfold punch_drop_unreachable. destruct (negb _); [done|]. apply max_fold. intros s' i. destruct (punch_at s' i); [|done]. destruct (unreachable _ _ _); [apply max_release|done].
  - apply max_drop_listener.
  - apply max_offers.
  - apply max_gather.
  - unfold gather_end. destruct (a_waiting s); [done|]. destruct g; [done|]. exact (max_drop_listener s x).
  - apply max_fold. intros s' [c|]; [|done]. cbv zeta. by destruct (bytes_eqb _ _).
  - done.
  - done.
  - by destruct (w_used _).
  - by case_bool_decide.
  - done.
Qed.
Lemma max_run acts : forall s, a_admit_max (act_run s acts) = a_admit_max s.
Proof. apply max_fold. apply max_act. Qed.
End Asks.

(** ** Properties *)
(** C8: the grant is kept: in every run in which the asks carry a password, threads start, the worker
    table has room and no worker returns while a punch resumes it, the admissions charged are exactly
    the guests served to their end, the workers and the punches for strangers; and where the host set a
    limit the admissions never exceed it. The limit is on the clients ever admitted, as session.h and
    INTEGRATION.md have it, so it bounds those connected at once as well; runs outside the four
    conditions can break the count, as the runs of AdmitRun show. *)
Theorem grant_kept {C : Crypto} family max obs magic key stuck sg acts :
  let s0 := host_init family max obs magic key stuck sg in let s := act_run s0 acts in
  0 <= max -> clean_run s0 acts ->
  a_admitted s = a_count s + Z.of_nat (length (workers (view s))) + Z.of_nat (freshes (view s)) /\
  (max <> 0 -> a_admitted s <= max).
Proof.
  cbv zeta. intros Hm Hc. pose proof (both_run acts _ (both_init family max obs magic key stuck sg Hm) Hc) as [H [B1 B2 B3 B4 B5 B6]]. pose proof (max_run acts (host_init family max obs magic key stuck sg)) as Em. set (s := act_run _ acts) in *. cbn [view q_admitted q_count q_max] in *. clearbody s.
  split; [lia|intros X; rewrite Em in B3; by apply B3].
Qed.
