(* ===== verification/AdmitRun.v ===== *)
(** src/src/session.c, the host's turnstile, run on concrete claimants: the runs the properties of
    [AdmitOk] and [AdmitGrant] are instantiated at, and the runs in which the code does otherwise
    than its comments and PROTOCOL.md say. *)
From stdpp Require Import gmap relations.
From S2P Require Import Prelude Net Crypto Keys ClaimLog PathEp Path PathTable ProbePlane CtlPlane PathPlane PathHolds PeerNet Peering Scan CandPolicy Rdv Sig Admit AdmitOk AdmitBook AdmitGrant.

(** ** A host, its claimants and what the machine says *)
Definition eol : bytes := [13; 10].
Definition ask_sdp (u p addr : string) : bytes :=
  cstr "a=ice-ufrag:" ++ cstr u ++ eol ++ cstr "a=ice-pwd:" ++ cstr p ++ eol ++ cstr "a=candidate:1 1 UDP 9 " ++ cstr addr ++ cstr " 5000 typ host" ++ eol.
Definition cid_of (n : Z) : bytes := n :: replicate (RDV_CID_LEN - 1) 7.
Definition offered (n seq : Z) (sdp : bytes) (h : rdv_host) : rdv_host := (rdv_host_slot h (mk_rdv RDV_OFFER 0 (cid_of n) (cid_of 9) seq 0 sdp)).1.
(** The signaller with the asks of claimants 1, 2 and 3 harvested. *)
Definition run_sig : sig_t :=
  let h := rdv_host_init (cid_of 9) 0 0 in
  let h := offered 3 1 [] (offered 2 1 [] (offered 1 1 [] h)) in
  sig_rdv_host (sig_blank (mk_session_keys [] [] [] 0 0 0) [] [] [] false true false true false 0) h.
Definition run_host (max : Z) : asess := host_init 0 max true 0 [] 0 run_sig.
(** Addresses from [base]; punches connect or fail as told; threads start. *)
Definition env (base : nat) (conn fail : bool) (threads : bool) : aenv :=
  mk_aenv 1000 (fun n => Some (base + n)%nat) 5 (replicate 4 1) (replicate 16 1) 7 None (fun _ => conn) (fun _ => fail) (fun _ => cstr "192.0.2.7") (fun _ => cstr "192.0.2.7") true (fun _ => threads)
    free_sinks true (ask_sdp "host" "hostpwd" "192.0.2.1") None.
Definition quiet (base : nat) : aenv := env base false false true.
(** One claimant's ask, from arrival to a punch. *)
Definition ask (base : nat) (n : Z) (u p : string) : list act :=
  [ActOffer (cid_of n) (ask_sdp u p "192.0.2.7") (quiet base); ActGather (quiet base) (Some (1, Z.of_nat base)); ActGathered (quiet base) true; ActOffers (quiet base)].
(** A worker's connection as its thread leaves it: heard from, or heard from and then lost. *)
Definition planes (c : nat) (lost : bool) : act :=
  let pr := peering_init 0 [] 0 false in
  ActPlanes c (pe_pp pr) (pe_pl pr) ((pe_cp pr) <| live := (live (pe_cp pr)) <| lv_pong_seen := true |> <| lv_lost_since_ms := if lost then 500 else 0 |> |>).
(** A claim over the segment. *)
Definition direct (u p : string) : act := ActDirect (AF_INET 5000 [192; 0; 2; 7]) sizeof_sockaddr_in (ask_sdp u p "192.0.2.7").
Definition turn_of (s : asess) (i : nat) : option bool := option_map (fun h => c_holds (c_at h i)) (g_rh (a_sig s)).
(** The host writes what it owes. *)
Definition wrote (s : asess) (k : nat) : sig_t :=
  (a_sig s) <| g_rh := option_map (fun h => Nat.iter k (fun h => (rdv_host_next h (cstr "i")).1) h) (g_rh (a_sig s)) |>.
Section Runs.
#[local] Existing Instance toy_crypto.
(** ** The clean run *)
(** A guest is served and is heard from, another's punch fails, a third is taken up, the first is lost, asks
    again, and its punch is grafted; it leaves, and is counted. *)
Definition clean_acts : list act :=
  ask 10 1 "alice" "pw1" ++ [ActScan (env 0 true false true); planes 10 false; ActWorkers (quiet 0)] ++ ask 20 2 "bob" "pw2" ++ [ActScan (env 0 false true true)] ++
  ask 30 3 "carol" "pw3" ++ [ActScan (env 0 true false true); planes 10 true] ++ ask 40 1 "alice" "pw4".
Example clean_run_ends :
  let s := act_run (run_host 2) clean_acts in
  a_admitted s = 2 /\ a_count s = 0 /\ workers (view s) = [10; 30]%nat /\ punches (view s) = [40%nat] /\ freshes (view s) = 0%nat /\ hc_resume_pending (conn_at s 10) = 1.
Proof. vm_compute. by split_and!. Qed.
Lemma clean_run_is : clean_run (run_host 2) clean_acts.
Proof. vm_compute. repeat split; lia. Qed.
Lemma grant_kept_witness : clean_run (run_host 2) clean_acts /\ a_admitted (act_run (run_host 2) clean_acts) = 2 /\ a_admitted (act_run (run_host 2) clean_acts) <= 2.
Proof.
  split; [exact clean_run_is|]. split; [vm_compute; reflexivity|]. assert (H0 : 0 <= 2) by discriminate. assert (H2 : 2 <> 0) by discriminate.
  exact (proj2 (grant_kept 0 2 true 0 [] 0 run_sig clean_acts H0 clean_run_is) H2).
Defined.
Lemma resumptions_counted_witness :
  let s := act_run (run_host 2) clean_acts in worker_at s 0 ∈ a_ws s /\ w_used (worker_at s 0) = true /\ hc_resume_pending (conn_at s (w_c (worker_at s 0))) = Z.of_nat (resumers (view s) (w_c (worker_at s 0))).
Proof.
  assert (Hu : w_used (worker_at (act_run (run_host 2) clean_acts) 0) = true) by (vm_compute; reflexivity). pose proof (list_elem_of_lookup_2 _ _ _ (worker_at_used _ _ Hu)) as Hw.
  exact (conj Hw (conj Hu (resumptions_counted 0 2 true 0 [] 0 run_sig clean_acts _ Hw Hu))).
Defined.

(** ** What happens in the other runs *)
(** A resumption is taken up uncharged, its worker leaves, and when the punch then fails one admission is
    handed back for it: with a grant of one, a second guest is served. *)
Definition refund_acts : list act :=
  ask 10 1 "alice" "pw1" ++ [ActScan (env 0 true false true); planes 10 true] ++ ask 20 1 "alice" "pw2" ++ [ActDone 0; ActWorkers (quiet 0); ActScan (env 0 false true true)] ++
  ask 30 2 "bob" "pw3" ++ [ActScan (env 0 true false true)].
Example resumption_refunded :
  let s := act_run (run_host 1) refund_acts in a_count s = 1 /\ workers (view s) = [30%nat] /\ a_admitted s = 1.
Proof. vm_compute. by split_and!. Qed.
(** A punch connects and no thread starts for it: the admission stays charged with nobody served, the row
    stays open, and with a grant of one the next stranger is refused. *)
Definition unstarted_acts : list act := ask 10 1 "alice" "pw1" ++ [ActScan (env 0 true false false)] ++ ask 20 2 "bob" "pw2".
Example unstarted_charged :
  let s := act_run (run_host 1) unstarted_acts in
  a_admitted s = 1 /\ a_count s = 0 /\ workers (view s) = [] /\ punches (view s) = [] /\
  option_map (fun h => c_state (c_at h 1)) (g_rh (a_sig s)) = Some RDV_C_REFUSED /\
  existsb (fun e => match e with EvRow _ SESSION_PEER_LIVE _ => true | _ => false end) (a_trace s) = true /\
  existsb (fun e => match e with EvRow _ SESSION_PEER_GONE _ => true | _ => false end) (a_trace s) = false.
Proof. vm_compute. by split_and!. Qed.
(** A guest served through a punch claims over the segment as well, somebody else having been served since:
    it is admitted a second time and has two workers. *)
Definition twice_acts : list act :=
  ask 10 1 "alice" "pw1" ++ ask 20 2 "bob" "pw2" ++ [ActScan (env 0 true false true); planes 10 false; planes 20 false; direct "alice" "pw1"; ActLan (quiet 50)].
Example admitted_twice :
  let s := act_run (run_host 0) twice_acts in
  a_admitted s = 3 /\ workers (view s) = [10; 20; 50]%nat /\ hc_claim_ufrag (conn_at s 10) = cstr "alice" /\ hc_claim_ufrag (conn_at s 50) = cstr "alice".
Proof. vm_compute. by split_and!. Qed.
(** While it is the one served last, the claim is dropped. *)
Example admitted_once :
  let s := act_run (run_host 0) (ask 10 1 "alice" "pw1" ++ [ActScan (env 0 true false true); planes 10 false; direct "alice" "pw1"; ActLan (quiet 50)]) in
  a_admitted s = 1 /\ workers (view s) = [10%nat].
Proof. vm_compute. by split_and!. Qed.
(** The shared session ends while one punch runs and a worker winds down: the punch is freed and stays in the
    table, so that a claim over the segment that arrives meanwhile is compared with freed memory. *)
Example wind_down_dangles :
  let s := act_run (run_host 0) (ask 10 1 "alice" "pw1" ++ [ActScan (env 0 true false true)] ++ ask 20 2 "bob" "pw2") in
  let s1 := conn_free s (quiet 0) (punch_at s 0) in
  w_used (worker_at s1 0) = true /\ w_done (worker_at s1 0) = false /\ punch_at s1 0 = Some 20%nat /\ a_heap s1 !! 20%nat = None.
Proof. vm_compute. by split_and!. Qed.
(** A claimant asks under another password while its punch runs: the running punch is given up for the new
    one, so that no two run alongside each other. *)
Example attempt_replaced :
  let s := act_run (run_host 0) (ask 10 1 "alice" "pw1" ++ ask 20 1 "alice" "pw2") in punches (view s) = [20%nat] /\ a_heap s !! 10%nat = None.
Proof. vm_compute. by split_and!. Qed.
End Runs.

(** ** The turn of a punch that ends *)
Section Turn.
Context {C : Crypto}.
Lemma uncount_frame s c : a_sig (punch_uncount s c) = a_sig s /\ a_punching (punch_uncount s c) = a_punching s /\ forall d, hc_punch_stuck (conn_at (punch_uncount s c) d) = hc_punch_stuck (conn_at s d).
Proof.
  unfold punch_uncount, give_back, one_less. destruct (hc_punch_resume (conn_at s c)) as [t|]; [|by destruct (0 <? a_admitted s)]. split_and!; [done|done|]. intros d. rewrite conn_at_on. case_bool_decide as E; [|done]. subst. unfold conn_at. by destruct (a_heap s !! t).
Qed.
Lemma free_stuck s x c d : hc_punch_stuck (conn_at s d) = false -> hc_punch_stuck (conn_at (conn_free s x (Some c)) d) = false.
Proof. intros H. destruct (decide (d = c)) as [->|]; [unfold conn_at; cbn; by rewrite lookup_delete_eq|by rewrite free_other]. Qed.
Lemma spent_step x s i : (forall c, x_connected x c = false) -> let s' := punch_scan_one x s i in
  a_sig s' = a_sig s /\ (forall j, punch_at s' j = None \/ punch_at s' j = punch_at s j) /\ (forall d, hc_punch_stuck (conn_at s d) = false -> hc_punch_stuck (conn_at s' d) = false) /\
  (forall c, punch_at s i = Some c -> hc_punch_stuck (conn_at s c) = false -> x_failed x c = true -> punch_at s' i = None).
Proof.
  intros Hx. cbv zeta. unfold punch_scan_one. destruct (punch_at s i) as [c|] eqn:Ei; [|by split_and!; auto]. cbv zeta. rewrite Hx, andb_false_r. destruct (hc_punch_stuck (conn_at s c)) eqn:Es; cbn [negb andb].
  { split_and!; auto. intros c' [= <-] F. congruence. }
  destruct (x_failed x c) eqn:Ef; [|split_and!; auto; intros c' [= <-] _ F; congruence]. destruct (uncount_frame s c) as (U1 & U2 & U3). set (s1 := punch_clear (punch_uncount s c) i).
  assert (Sl : punch_at s1 i = None) by (unfold punch_at, s1, at_slot; cbn; rewrite U2; apply at_slot_some, lookup_lt_Some in Ei; by rewrite list_lookup_insert_eq). split_and!.
  - exact U1.
  - intros j. change (punch_at (conn_free s1 x (Some c)) j) with (punch_at s1 j). destruct (decide (j = i)) as [->|]; [by left|right]. unfold punch_at, s1, at_slot. cbn. by rewrite U2, list_lookup_insert_ne.
  - intros d Hd. apply free_stuck. change (conn_at s1 d) with (conn_at (punch_uncount s c) d). by rewrite U3.
  - intros c' _ _ _. exact Sl.
Qed.
Lemma spent_fold x js : (forall c, x_connected x c = false) -> forall s, let s' := fold_left (punch_scan_one x) js s in
  a_sig s' = a_sig s /\ (forall j, punch_at s' j = None \/ punch_at s' j = punch_at s j) /\ (forall i c, i ∈ js -> punch_at s i = Some c -> hc_punch_stuck (conn_at s c) = false -> x_failed x c = true -> punch_at s' i = None).
Proof.
  intros Hx. induction js as [|k js IH]; intros s; [by split_and!; auto; intros i c ?%elem_of_nil|]. cbn [fold_left]. cbv zeta in *. destruct (spent_step x s k Hx) as (A1 & A2 & A3 & A4). destruct (IH (punch_scan_one x s k)) as (B1 & B2 & B3). set (s1 := punch_scan_one x s k) in *. split_and!.
  - congruence.
  - intros j. destruct (B2 j) as [->| ->]; auto.
  - intros i c Hi Ei Es Ef. destruct (A2 i) as [E|E]; [destruct (B2 i) as [->| ->]; auto|]. apply elem_of_cons in Hi as [->|Hi]; [specialize (A4 c Ei Es Ef); congruence|]. apply (B3 i c); auto. congruence.
Qed.
Lemma spent_all x s : (forall c, x_connected x c = false) -> let s' := punch_scan s x in
  a_sig s' = a_sig s /\ (forall j, punch_at s' j = None \/ punch_at s' j = punch_at s j) /\ (forall i c, i ∈ seq 0 HOST_MAX_WORKERS -> punch_at s i = Some c -> hc_punch_stuck (conn_at s c) = false -> x_failed x c = true -> punch_at s' i = None).
Proof. intros Hx. unfold punch_scan. by apply spent_fold. Qed.
(** C40: the turn of a punch that ends is handed back where the host gives the punch up, and only there: when
    punches are spent instead, [punch_scan] takes every one of them down and leaves the rendezvous as it
    was, so a claimant that held the turn still holds it.  PROTOCOL.md 4 has the turn handed back in both
    cases. *)
Theorem spent_punch_keeps_turn s x : (forall c, x_connected x c = false) -> (forall i c, punch_at s i = Some c -> (i < HOST_MAX_WORKERS)%nat /\ hc_punch_stuck (conn_at s c) = false /\ x_failed x c = true) ->
  (forall i, punch_at (punch_scan s x) i = None) /\ (forall k, turn_of (punch_scan s x) k = turn_of s k) /\
  (forall i c h k, punch_at s i = Some c -> cid_set (hc_claim_cid (conn_at s c)) = true -> g_rh (a_sig s) = Some h -> rdv_host_find h (hc_claim_cid (conn_at s c)) = Some k -> (k < length (h_c h))%nat ->
     turn_of (punch_release s x i) k = Some false).
Proof.
  intros Hx Hs. destruct (spent_all x s Hx) as (A1 & A2 & A3). set (r := punch_scan s x) in *. clearbody r. split_and!.
  - intros i. destruct (punch_at s i) as [c|] eqn:Ei; [|destruct (A2 i); congruence]. destruct (Hs i c Ei) as (H1 & H2 & H3). apply (A3 i c); [apply elem_of_seq; lia|done|done|done].
  - intros k. unfold turn_of. by rewrite A1.
  - intros i c h k Ei Ec Eh Ek Hk. unfold punch_release. rewrite Ei. cbv zeta. rewrite Ec. destruct (uncount_frame s c) as (U1 & _ & _). unfold turn_of. cbn [conn_free conn_release conn_dissolve conn_unregister punch_clear on_conn on_rh a_sig g_rh set set_a_heap set_a_conns set_a_punching set_a_sig set_g_rh]. rewrite U1, Eh. cbn [option_map].
    unfold rdv_host_release. rewrite Ek. f_equal. assert (E : c_at (set_c h k ((c_at h k) <| c_holds := false |>)) k = (c_at h k) <| c_holds := false |>).
    { unfold c_at, set_c. cbn [h_c set set_h_c]. apply nth_lookup_Some. by apply list_lookup_insert_eq. }
    destruct (c_pending _); [by rewrite E|]. change (c_at (_ <| h_info_pending := true |> <| h_turn_spent := true |>) k) with (c_at (set_c h k ((c_at h k) <| c_holds := false |>)) k). by rewrite E.
Qed.
End Turn.
(** A host that has answered its one claimant, and the punch for it. *)
Definition answered_host : asess := let s := @act_run toy_crypto (run_host 0) (@ask 10 1 "alice" "pw1") in s <| a_sig := wrote s 2 |>.
Lemma spent_punch_keeps_turn_witness :
  let x := env 0 false true true in turn_of answered_host 0 = Some true /\ punch_at answered_host 0 = Some 10%nat /\ punch_at (@punch_scan toy_crypto answered_host x) 0 = None /\ turn_of (@punch_scan toy_crypto answered_host x) 0 = Some true.
Proof.
  cbv zeta. assert (E1 : turn_of answered_host 0 = Some true) by (vm_compute; reflexivity). assert (E2 : punch_at answered_host 0 = Some 10%nat) by (vm_compute; reflexivity).
  assert (P : forall i c, punch_at answered_host i = Some c -> (i < HOST_MAX_WORKERS)%nat /\ hc_punch_stuck (conn_at answered_host c) = false /\ x_failed (env 0 false true true) c = true).
  { assert (A : a_punching answered_host = Some 10%nat :: replicate 15 None) by (vm_compute; reflexivity). intros i c E. unfold punch_at, at_slot in E. rewrite A in E. destruct i as [|i].
    - injection E as <-. split; [unfold HOST_MAX_WORKERS; lia|]. split; [vm_compute; reflexivity|reflexivity].
    - exfalso. change (default None ((replicate 15 (@None nat) : list (option nat)) !! i) = Some c) in E. destruct (replicate 15 (@None nat) !! i) as [o|] eqn:F; [|done]. apply lookup_replicate in F as [F _]. subst o. done. }
  destruct (@spent_punch_keeps_turn toy_crypto answered_host (env 0 false true true) (fun _ => eq_refl) P) as (A1 & A2 & _). split; [exact E1|]. split; [exact E2|]. split; [exact (A1 0%nat)|]. rewrite A2. exact E1.
Defined.
