(* ===== verification/ShowFmt.v ===== *)
(** src/src/showfmt.c: what [comrade show] prints, and the JSON pieces it shares with the machine
    view.  The model of JSON is the one of the documents this program writes: numbers are their
    text, a string holds bytes, and what a byte above 127 means is left to the encoding of the
    terminal. *)
From S2P Require Import Prelude Net Base58 Bencode Token.

(** ** JSON: values, and the reader of what is printed *)
Inductive json := JNum (txt : bytes) | JBool (b : bool) | JStr (s : bytes) | JArr (l : list json) | JObj (l : list (bytes * json)).
Definition hex4 (c : Z) : bytes := [hex_char (c / 4096 mod 16); hex_char (c / 256 mod 16); hex_char (c / 16 mod 16); hex_char (c mod 16)].
(** [showfmt_json_str], one character and all. *)
Definition json_char (c : Z) : bytes := if (c =? 34) || (c =? 92) then [92; c] else if c <? 32 then [92; 117] ++ hex4 c else [c].
Definition showfmt_json_str (s : bytes) : bytes := [34] ++ concat (map json_char s) ++ [34].
Fixpoint commas (l : list bytes) : bytes := match l with [] => [] | [a] => a | a :: l => a ++ 44 :: commas l end.
Fixpoint json_print (v : json) : bytes :=
  match v with
  | JNum t => t
  | JBool b => if b then cstr "true" else cstr "false"
  | JStr s => showfmt_json_str s
  | JArr l => [91] ++ commas (map json_print l) ++ [93]
  | JObj l => [123] ++ commas (map (fun kv => showfmt_json_str kv.1 ++ 58 :: json_print kv.2) l) ++ [125]
  end.
(** The reader: RFC 8259 without white space, surrogates and the escapes this program never writes. *)
Definition hex_val (c : Z) : option Z := if (48 <=? c) && (c <=? 57) then Some (c - 48) else if (97 <=? c) && (c <=? 102) then Some (c - 87) else None.
Definition hex4_val (a b c d : Z) : option Z :=
  match hex_val a, hex_val b, hex_val c, hex_val d with Some a, Some b, Some c, Some d => Some (a * 4096 + b * 256 + c * 16 + d) | _, _, _, _ => None end.
Definition cons_str (o : option Z) (r : option (bytes * bytes)) : option (bytes * bytes) :=
  match o, r with Some c, Some (t, r) => Some (c :: t, r) | _, _ => None end.
Fixpoint str_read (s : bytes) : option (bytes * bytes) :=
  match s with
  | [] => None
  | c :: r =>
      if c =? 34 then Some ([], r)
      else if c =? 92 then
        match r with
        | e :: r =>
            if e =? 117 then match r with a :: b :: c :: d :: r => cons_str (hex4_val a b c d) (str_read r) | _ => None end
            else if (e =? 34) || (e =? 92) then cons_str (Some e) (str_read r) else None
        | [] => None
        end
      else if c <? 32 then None else cons_str (Some c) (str_read r)
  end.
Definition num_char (c : Z) : bool := is_digit c || (c =? 45) || (c =? 46).
Fixpoint num_span (s : bytes) : bytes * bytes := match s with c :: r => if num_char c then let '(a, b) := num_span r in (c :: a, b) else ([], s) | [] => ([], []) end.
Definition strip (p s : bytes) : option bytes := if bool_decide (p = take (length p) s) then Some (drop (length p) s) else None.
Fixpoint json_read (n : nat) (s : bytes) {struct n} : option (json * bytes) :=
  match n with
  | O => None
  | S n =>
      match s with
      | [] => None
      | c :: r =>
          if c =? 34 then match str_read r with Some (t, r) => Some (JStr t, r) | None => None end
          else if c =? 91 then
            match r with
            | d :: r' => if d =? 93 then Some (JArr [], r') else match items_read n r with Some (l, r) => Some (JArr l, r) | None => None end
            | [] => None
            end
          else if c =? 123 then
            match r with
            | d :: r' => if d =? 125 then Some (JObj [], r') else match members_read n r with Some (l, r) => Some (JObj l, r) | None => None end
            | [] => None
            end
          else if num_char c then let '(t, r) := num_span s in Some (JNum t, r)
          else match strip (cstr "true") s with
               | Some r => Some (JBool true, r)
               | None => match strip (cstr "false") s with Some r => Some (JBool false, r) | None => None end
               end
      end
  end
with items_read (n : nat) (s : bytes) {struct n} : option (list json * bytes) :=
  match n with
  | O => None
  | S n =>
      match json_read n s with
      | Some (v, c :: r) =>
          if c =? 93 then Some ([v], r)
          else if c =? 44 then match items_read n r with Some (l, r) => Some (v :: l, r) | None => None end else None
      | _ => None
      end
  end
with members_read (n : nat) (s : bytes) {struct n} : option (list (bytes * json) * bytes) :=
  match n with
  | O => None
  | S n =>
      match s with
      | 34 :: s =>
          match str_read s with
          | Some (k, 58 :: s) =>
              match json_read n s with
              | Some (v, c :: r) =>
                  if c =? 125 then Some ([(k, v)], r)
                  else if c =? 44 then match members_read n r with Some (l, r) => Some ((k, v) :: l, r) | None => None end else None
              | _ => None
              end
          | _ => None
          end
      | _ => None
      end
  end.

(** ** Reading back what was printed *)
Fixpoint json_size (v : json) : nat :=
  match v with
  | JArr l => S (list_sum (map (fun v => S (json_size v)) l))
  | JObj l => S (list_sum (map (fun kv => S (json_size kv.2)) l))
  | _ => 1
  end.
Fixpoint json_ok (v : json) : Prop :=
  match v with
  | JNum t => t <> [] /\ Forall (fun c => num_char c = true) t
  | JBool _ => True
  | JStr s => bytes_ok s
  | JArr l => (fix go l := match l with [] => True | v :: l => json_ok v /\ go l end) l
  | JObj l => (fix go l := match l with [] => True | kv :: l => (bytes_ok kv.1 /\ json_ok kv.2) /\ go l end) l
  end.
Lemma json_ok_arr l : json_ok (JArr l) <-> Forall json_ok l.
Proof. induction l as [|v l IH]; [split; constructor|]. rewrite Forall_cons. cbn in *. by rewrite IH. Qed.
Lemma json_ok_obj l : json_ok (JObj l) <-> Forall (fun kv => bytes_ok kv.1 /\ json_ok kv.2) l.
Proof. induction l as [|v l IH]; [split; constructor|]. rewrite Forall_cons. cbn in *. by rewrite IH. Qed.
Definition num_end (rest : bytes) : Prop := match rest with c :: _ => num_char c = false | [] => True end.
Lemma hex_val_char d : 0 <= d < 16 -> hex_val (hex_char d) = Some d.
Proof.
  intros H. unfold hex_val, hex_char. destruct (Z.ltb_spec d 10).
  - replace ((48 <=? 48 + d) && (48 + d <=? 57)) with true by lia. f_equal. lia.
  - replace ((48 <=? 87 + d) && (87 + d <=? 57)) with false by lia. replace ((97 <=? 87 + d) && (87 + d <=? 102)) with true by lia. f_equal. lia.
Qed.
Lemma str_read_char c s : is_u8 c -> str_read (json_char c ++ s) = cons_str (Some c) (str_read s).
Proof.
  intros H. unfold json_char. destruct (Z.eqb_spec c 34); [by subst|]. destruct (Z.eqb_spec c 92); [by subst|]. cbn [orb]. destruct (Z.ltb_spec c 32).
  - cbn [app hex4]. cbn [str_read Z.eqb Pos.eqb]. unfold hex4_val. unfold_words. rewrite !hex_val_char by (apply Z.mod_pos_bound; lia). f_equal. f_equal. unfold is_u8 in H. Z.to_euclidean_division_equations. lia.
  - cbn [app str_read]. rewrite (proj2 (Z.eqb_neq c 34)), (proj2 (Z.eqb_neq c 92)) by done. rewrite (proj2 (Z.ltb_ge c 32)) by done. done.
Qed.
Lemma str_read_back s rest : bytes_ok s -> str_read (concat (map json_char s) ++ 34 :: rest) = Some (s, rest).
Proof.
  induction 1 as [|c s Hc _ IH]; [done|]. cbn [map concat]. rewrite <- app_assoc, str_read_char by done. by rewrite IH.
Qed.
Lemma num_span_back t rest : Forall (fun c => num_char c = true) t -> num_end rest -> num_span (t ++ rest) = (t, rest).
Proof.
  intros Ht Hr. induction Ht as [|c t Hc _ IH]; [destruct rest as [|c r]; [done|]; cbn in *; by rewrite Hr|]. cbn. by rewrite Hc, IH.
Qed.
Lemma num_char_not c : num_char c = true -> (c =? 34) = false /\ (c =? 91) = false /\ (c =? 123) = false /\ c <> 93.
Proof. unfold num_char, is_digit. intros H. apply orb_true_iff in H as [H|H]; [apply orb_true_iff in H as [H|H]|]; [apply andb_true_iff in H as [H1 H2]|..]; split_and!; lia. Qed.
Lemma print_head v : json_ok v -> exists c r, json_print v = c :: r /\ c <> 93.
Proof.
  destruct v as [t|[]|s|l|l]; cbn [json_print json_ok]; [|by eexists _, _..]. intros [Ht H]. destruct t as [|c t]; [done|]. apply Forall_cons in H as [H _]. exists c, t. split; [done|]. by apply num_char_not.
Qed.
Lemma commas_cons a l : commas (a :: l) = a ++ match l with [] => [] | _ => 44 :: commas l end.
Proof. cbn. destruct l; [by rewrite app_nil_r|done]. Qed.
Definition reads (n : nat) : Prop := forall v rest, (json_size v <= n)%nat -> json_ok v -> num_end rest -> json_read n (json_print v ++ rest) = Some (v, rest).
Lemma items_back n : reads n -> (forall l rest, l <> [] -> (list_sum (map (fun v => S (json_size v)) l) <= n)%nat -> Forall json_ok l -> items_read n (commas (map json_print l) ++ 93 :: rest) = Some (l, rest)) ->
  forall l rest, l <> [] -> (list_sum (map (fun v => S (json_size v)) l) <= S n)%nat -> Forall json_ok l -> items_read (S n) (commas (map json_print l) ++ 93 :: rest) = Some (l, rest).
Proof.
  intros Hr IH [|v l] rest Hl Hs Hok; [done|]. apply Forall_cons in Hok as [Hv Hok]. cbn [map] in *. change (list_sum (?a :: ?b)) with (a + list_sum b)%nat in Hs. rewrite commas_cons, <- app_assoc. cbn [items_read]. destruct l as [|w l].
  - cbn [map app]. rewrite Hr; [done|lia|done|done].
  - cbn [map] in *. rewrite Hr; [|lia|done|done]. cbn [app Z.eqb Pos.eqb]. change (json_print w :: map json_print l) with (map json_print (w :: l)). rewrite IH; [done|done| |done]. cbn [map]. lia.
Qed.
Lemma members_back n : reads n -> (forall l rest, l <> [] -> (list_sum (map (fun kv : bytes * json => S (json_size kv.2)) l) <= n)%nat -> Forall (fun kv => bytes_ok kv.1 /\ json_ok kv.2) l -> members_read n (commas (map (fun kv => showfmt_json_str kv.1 ++ 58 :: json_print kv.2) l) ++ 125 :: rest) = Some (l, rest)) ->
  forall l rest, l <> [] -> (list_sum (map (fun kv : bytes * json => S (json_size kv.2)) l) <= S n)%nat -> Forall (fun kv => bytes_ok kv.1 /\ json_ok kv.2) l -> members_read (S n) (commas (map (fun kv => showfmt_json_str kv.1 ++ 58 :: json_print kv.2) l) ++ 125 :: rest) = Some (l, rest).
Proof.
  intros Hr IH [|[k v] l] rest Hl Hs Hok; [done|]. apply Forall_cons in Hok as [[Hk Hv] Hok]. cbn [map fst snd] in *. change (list_sum (?a :: ?b)) with (a + list_sum b)%nat in Hs. rewrite commas_cons. unfold showfmt_json_str at 1. rewrite <- !app_assoc. cbn [app members_read].
  rewrite str_read_back by done. destruct l as [|w l].
  - cbn [map app]. rewrite Hr; [done|lia|done|done].
  - cbn [map] in *. rewrite Hr; [|lia|done|done]. cbn [app Z.eqb Pos.eqb]. pose proof (IH (w :: l) rest ltac:(done) ltac:(cbn [map]; lia) Hok) as E. cbn [map] in E. by rewrite E.
Qed.
Lemma read_back_step n : reads n -> (forall l rest, l <> [] -> (list_sum (map (fun v => S (json_size v)) l) <= n)%nat -> Forall json_ok l -> items_read n (commas (map json_print l) ++ 93 :: rest) = Some (l, rest)) ->
  (forall l rest, l <> [] -> (list_sum (map (fun kv : bytes * json => S (json_size kv.2)) l) <= n)%nat -> Forall (fun kv => bytes_ok kv.1 /\ json_ok kv.2) l -> members_read n (commas (map (fun kv => showfmt_json_str kv.1 ++ 58 :: json_print kv.2) l) ++ 125 :: rest) = Some (l, rest)) -> reads (S n).
Proof.
  intros Hr Hi Hm v rest Hs Hok He. destruct v as [t|b|s|l|l]; cbn [json_print].
  - destruct Hok as [Ht Hok]. pose proof (num_span_back t rest Hok He) as E. destruct t as [|c t]; [done|]. cbn [app] in *. apply Forall_cons in Hok as [Hc _]. destruct (num_char_not c Hc) as (E1 & E2 & E3 & _). cbn [json_read]. by rewrite E1, E2, E3, Hc, E.
  - by destruct b.
  - unfold showfmt_json_str. rewrite <- !app_assoc. cbn [app json_read Z.eqb Pos.eqb]. by rewrite str_read_back.
  - apply json_ok_arr in Hok. rewrite <- !app_assoc. cbn [app json_read Z.eqb Pos.eqb]. destruct l as [|w l]; [done|]. assert (Hi' := Hi (w :: l) rest ltac:(done) ltac:(cbn in Hs |- *; lia) Hok).
    destruct (print_head w) as (c & r & E & Hc); [by apply Forall_cons in Hok as [? _]|]. assert (X : exists q, commas (map json_print (w :: l)) ++ 93 :: rest = c :: q) by (cbn [map]; rewrite commas_cons, E; cbn; eauto). destruct X as [q X]. rewrite X in *. rewrite (proj2 (Z.eqb_neq c 93)) by done. by rewrite Hi'.
  - apply json_ok_obj in Hok. rewrite <- !app_assoc. cbn [app json_read Z.eqb Pos.eqb]. destruct l as [|w l]; [done|]. assert (Hi' := Hm (w :: l) rest ltac:(done) ltac:(cbn in Hs |- *; lia) Hok).
    assert (X : exists q, commas (map (fun kv => showfmt_json_str kv.1 ++ 58 :: json_print kv.2) (w :: l)) ++ 125 :: rest = 34 :: q) by (cbn [map]; rewrite commas_cons; unfold showfmt_json_str at 1; cbn; eauto). destruct X as [q X]. rewrite X in *. cbn [Z.eqb Pos.eqb]. by rewrite Hi'.
Qed.
Lemma json_size_pos v : (0 < json_size v)%nat.
Proof. destruct v; cbn; lia. Qed.
Lemma json_read_back n : reads n.
Proof.
  cut (reads n /\ (forall l rest, l <> [] -> (list_sum (map (fun v => S (json_size v)) l) <= n)%nat -> Forall json_ok l -> items_read n (commas (map json_print l) ++ 93 :: rest) = Some (l, rest)) /\
    (forall l rest, l <> [] -> (list_sum (map (fun kv : bytes * json => S (json_size kv.2)) l) <= n)%nat -> Forall (fun kv => bytes_ok kv.1 /\ json_ok kv.2) l -> members_read n (commas (map (fun kv => showfmt_json_str kv.1 ++ 58 :: json_print kv.2) l) ++ 125 :: rest) = Some (l, rest))); [by intros []|].
  induction n as [|n (I1 & I2 & I3)].
  - split_and!; [intros v rest Hs; pose proof (json_size_pos v); lia|intros [|v l] rest Hl Hs; [done|cbn in Hs; lia]|intros [|v l] rest Hl Hs; [done|cbn in Hs; lia]].
  - split_and!; [by apply read_back_step|by apply items_back|by apply members_back].
Qed.

(** ** Pieces of a document *)
Definition quote (s : bytes) : bytes := 34 :: s ++ [34].
Definition fld (k : string) (v : bytes) : bytes := quote (cstr k) ++ 58 :: v.
Definition nfld (k : string) (v : bytes) : bytes := 44 :: fld k v.
Definition sdec (n : Z) : bytes := if n <? 0 then 45 :: dec (- n) else dec n.
Definition member (kv : bytes * json) : bytes := showfmt_json_str kv.1 ++ 58 :: json_print kv.2.
Definition bare_char (c : Z) : bool := negb (c =? 34) && negb (c =? 92) && (32 <=? c) && (c <? 256).
Definition plain (s : bytes) : Prop := Forall (fun c => bare_char c = true) s.
Lemma plain_str s : plain s -> showfmt_json_str s = quote s.
Proof.
  intros H. unfold showfmt_json_str, quote. cbn [app]. do 2 f_equal. induction H as [|c s Hc _ IH]; [done|]. cbn [map concat]. rewrite IH. unfold json_char, bare_char in *.
  destruct (c =? 34); [done|]. destruct (c =? 92); [done|]. cbn [orb negb andb] in *. replace (c <? 32) with false by lia. done.
Qed.
Lemma plain_bytes s : plain s -> bytes_ok s.
Proof. intros H. eapply Forall_impl; [exact H|]. cbn. unfold bare_char, is_u8. lia. Qed.
Lemma commas_more a l : commas (a :: l) = a ++ concat (map (fun b => 44 :: b) l).
Proof. revert a. induction l as [|b l IH]; intros a; [cbn; by rewrite app_nil_r|]. rewrite commas_cons, IH. done. Qed.
Lemma print_obj kv l : json_print (JObj (kv :: l)) = 123 :: member kv ++ concat (map (fun kv => 44 :: member kv) l) ++ [125].
Proof. cbn [json_print map]. rewrite commas_more, map_map. cbn [app]. by rewrite <- app_assoc. Qed.
Lemma print_arr l : json_print (JArr l) = 91 :: match l with [] => [] | v :: l => json_print v ++ concat (map (fun v => 44 :: json_print v) l) end ++ [93].
Proof. cbn [json_print]. destruct l as [|v l]; [done|]. cbn [map]. rewrite commas_more, map_map. done. Qed.
Lemma num_digits n : 0 <= n <= INT64_MAX -> Forall (fun c => num_char c = true) (dec n) /\ dec n <> [].
Proof.
  intros H. destruct (dec_spec n) as (D & N & _); [exact H|]. split; [|done]. eapply Forall_impl; [exact D|]. cbn. unfold num_char, is_digit. lia.
Qed.
Lemma num_ok n : - INT64_MAX <= n <= INT64_MAX -> json_ok (JNum (sdec n)).
Proof.
  intros H. cbn [json_ok]. unfold sdec. destruct (Z.ltb_spec n 0) as [Hn|Hn].
  - destruct (num_digits (- n)) as [D _]; [lia|]. split; [done|]. by constructor.
  - destruct (num_digits n) as [D N]; [lia|]. done.
Qed.

(** ** [comrade show] *)
Definition fam_ready (st : token_state) : bool := match st with TOKEN_STATE_RENDEZVOUS | TOKEN_STATE_DIRECT => true | _ => false end.
Definition reach_name (st : token_state) : bytes := match st with TOKEN_STATE_PENDING => cstr "pending" | TOKEN_STATE_NONE => cstr "none" | _ => cstr "ready" end.
Definition reach_kind (st : token_state) : bytes := match st with TOKEN_STATE_DIRECT => cstr "direct" | _ => cstr "rendezvous" end.
Definition reach_ip (t : token) (family : Z) : bytes := if family =? 6 then inet_ntop6 (ep6_addr t) else inet_ntop4 (ep4_addr t).
Definition reach_port (t : token) (family : Z) : Z := if family =? 6 then ep6_port t else ep4_port t.
Definition json_reach_fam (t : token) (family : Z) : bytes :=
  let st := token_family_state t family in
  [123] ++ fld "state" (quote (reach_name st)) ++
  (if fam_ready st then nfld "kind" (quote (reach_kind st)) ++ nfld "addr" (quote (reach_ip t family)) ++ nfld "port" (dec (reach_port t family)) else []) ++ [125].
Definition showfmt_json_reach (t : token) : bytes := [123] ++ fld "v4" (json_reach_fam t 4) ++ nfld "v6" (json_reach_fam t 6) ++ [125].
Inductive showfmt_what := SHOWFMT_HUMAN | SHOWFMT_TOKEN | SHOWFMT_TOKEN_RO | SHOWFMT_JSON.
Record showfmt := mk_showfmt { sf_what : showfmt_what; sf_n : Z; sf_out : bytes; sf_keep : bytes * bytes }.
Definition showfmt_begin (what : showfmt_what) : showfmt :=
  mk_showfmt what 0 (match what with SHOWFMT_JSON => [123] ++ fld "schema" (cstr "1") ++ 44 :: quote (cstr "sessions") ++ [58; 91] | _ => [] end) ([], []).
Definition decoded (tok : bytes) : option token := match token_decode tok with TOKEN_OK t => Some t | _ => None end.
Definition show_summary (id sock tok tok_ro : bytes) : bytes :=
  [123] ++ fld "id" (showfmt_json_str id) ++ nfld "token" (showfmt_json_str tok) ++
  (if bytes_eqb tok_ro [] then [] else nfld "token_ro" (showfmt_json_str tok_ro)) ++
  match decoded tok with Some t => nfld "reach" (showfmt_json_reach t) | None => [] end ++
  nfld "tmux" ([123] ++ fld "socket" (showfmt_json_str sock) ++ nfld "session" (quote (cstr "comrade")) ++ [125]) ++ [125].
Definition showfmt_session (f : showfmt) (id sock tok tok_ro : bytes) (statejson : option bytes) : showfmt :=
  match sf_what f with
  | SHOWFMT_HUMAN =>
      mk_showfmt (sf_what f) (sf_n f + 1) (sf_out f ++ cstr "read-write  " ++ tok ++ [10] ++ (if bytes_eqb tok_ro [] then [] else cstr "read-only   " ++ tok_ro ++ [10])) (sf_keep f)
  | SHOWFMT_JSON =>
      let doc := match statejson with Some s => s | None => show_summary id sock tok tok_ro end in
      mk_showfmt (sf_what f) (sf_n f + 1) (sf_out f ++ (if truth (sf_n f) then [44] else []) ++ doc) (sf_keep f)
  | _ => mk_showfmt (sf_what f) (sf_n f + 1) (sf_out f) (snprintf 256 tok, snprintf 256 tok_ro)
  end.
(** What it says on the error stream. *)
Inductive show_error := ShowNone | ShowNoSession | ShowSeveral | ShowNoReadOnly.
Definition showfmt_end (f : showfmt) : bytes * Z * show_error :=
  match sf_what f with
  | SHOWFMT_JSON => (sf_out f ++ [93; 125; 10], 0, ShowNone)
  | SHOWFMT_TOKEN | SHOWFMT_TOKEN_RO =>
      if sf_n f =? 0 then (sf_out f, 1, ShowNoSession)
      else if 1 <? sf_n f then (sf_out f, 1, ShowSeveral)
      else
        let want := match sf_what f with SHOWFMT_TOKEN_RO => (sf_keep f).2 | _ => (sf_keep f).1 end in
        if bytes_eqb want [] then (sf_out f, 1, ShowNoReadOnly) else (sf_out f ++ want ++ [10], 0, ShowNone)
  | SHOWFMT_HUMAN => if negb (truth (sf_n f)) then (sf_out f, 1, ShowNoSession) else (sf_out f, 0, ShowNone)
  end.

(** ** The same, as JSON values *)
Definition reach_fam_json (t : token) (family : Z) : json :=
  let st := token_family_state t family in
  JObj ((cstr "state", JStr (reach_name st)) ::
        (if fam_ready st then [(cstr "kind", JStr (reach_kind st)); (cstr "addr", JStr (reach_ip t family)); (cstr "port", JNum (dec (reach_port t family)))] else [])).
Definition reach_json (t : token) : json := JObj [(cstr "v4", reach_fam_json t 4); (cstr "v6", reach_fam_json t 6)].
Definition tmux_json (sock : bytes) : json := JObj [(cstr "socket", JStr sock); (cstr "session", JStr (cstr "comrade"))].
Definition opt_member (b : bool) (k : string) (v : json) : list (bytes * json) := if b then [(cstr k, v)] else [].
Definition summary_json (id sock tok tok_ro : bytes) : json :=
  JObj ((cstr "id", JStr id) :: (cstr "token", JStr tok) :: opt_member (negb (bytes_eqb tok_ro [])) "token_ro" (JStr tok_ro) ++
        match decoded tok with Some t => [(cstr "reach", reach_json t)] | None => [] end ++ [(cstr "tmux", tmux_json sock)]).

(** ** A decoded invitation has the widths of its fields *)
Lemma slice_wf a n l : (a + n <= length l)%nat -> bytes_ok l -> length (slice a n l) = n /\ bytes_ok (slice a n l).
Proof. intros Hl H. unfold slice. split; [rewrite length_take, length_drop; lia|]. by apply Forall_take, Forall_drop. Qed.
Lemma base58_decode_wf s n out : base58_decode s n = Some out -> length out = n /\ bytes_ok out.
Proof.
  intros H. assert (Hl : (length s <= BASE58_MAX_STR)%nat) by (unfold base58_decode in H; destruct (Nat.ltb_spec BASE58_MAX_STR (length s)); [done|lia]).
  destruct (b58_digits s) as [ds|] eqn:E; [|unfold base58_decode in H; rewrite E in H; by destruct (_ <? _)%nat].
  rewrite (base58_decode_value s ds n Hl E) in H. destruct (_ <? _); [|done]. injection H as <-. split; [apply be_put_length|apply be_put_ok].
Qed.
Lemma u8_at l i : bytes_ok l -> is_u8 (nth i l 0).
Proof. intros H. destruct (nth_in_or_default i l 0) as [Hi|Hi]; [|rewrite Hi; unfold is_u8; lia]. exact (proj1 (List.Forall_forall _ _) H _ Hi). Qed.
Lemma unpack_wf w : length w = TOKEN_WIRE_LEN -> bytes_ok w -> token_wf (payload_unpack w).
Proof.
  intros L B. unfold token_wf, payload_unpack. cbn [version flags rdv auth hostpub ep6_addr ep6_port ep4_addr ep4_port].
  assert (S := fun a n H => slice_wf a n w H B). rewrite L in S.
  split_and!; first [by apply u8_at|apply u16_range|apply S; vm_compute; lia].
Qed.
Lemma decoded_wf tok t : decoded tok = Some t -> token_wf t.
Proof.
  unfold decoded, token_decode. destruct (negb _); [done|]. destruct (base58_decode tok TOKEN_WIRE_LEN) as [w|] eqn:E; [|done]. apply base58_decode_wf in E as [L B]. destruct (negb _); [done|]. destruct (negb _); [done|]. injection 1 as <-. by apply unpack_wf.
Qed.

(** ** The text of an address needs no escape *)
Lemma plain_dec n : 0 <= n <= INT64_MAX -> plain (dec n).
Proof. intros H. destruct (dec_spec n H) as (D & _). eapply Forall_impl; [exact D|]. cbn. unfold bare_char, is_digit. lia. Qed.
Lemma plain_ntop4 a : bytes_ok a -> plain (inet_ntop4 a).
Proof.
  intros H. destruct a as [|b0 [|b1 [|b2 [|b3 [|]]]]]; try by constructor. unfold bytes_ok in H. rewrite !Forall_cons in H. destruct H as (H0 & H1 & H2 & H3 & _). cbn [inet_ntop4]. unfold is_u8, plain in *.
  rewrite !Forall_app, !Forall_cons, !Forall_app, !Forall_cons, !Forall_app, !Forall_cons. split_and!; first [done|apply plain_dec; unfold_words; lia].
Qed.
Lemma plain_hex16 w : 0 <= w < 65536 -> plain (hex16 w).
Proof.
  intros H. unfold hex16, plain. apply Forall_map, Forall_drop. assert (X : forall d, 0 <= d < 16 -> bare_char (hex_char d) = true) by (intros d Hd; unfold bare_char, hex_char; destruct (Z.ltb_spec d 10); lia).
  repeat constructor; apply X; Z.to_euclidean_division_equations; lia.
Qed.
Lemma words16_ok a : bytes_ok a -> Forall (fun w => 0 <= w < 65536) (words16 a).
Proof.
  revert a. fix IH 1. intros [|h [|l a]] H; [constructor..|]. apply Forall_cons in H as [H1 H]. apply Forall_cons in H as [H2 H]. cbn [words16]. constructor; [|by apply IH]. unfold is_u8 in *. lia.
Qed.
Lemma plain_join ws : Forall (fun w => 0 <= w < 65536) ws -> plain (join_words ws).
Proof.
  induction 1 as [|w ws Hw _ IH]; [constructor|]. cbn [join_words]. destruct ws; [by apply plain_hex16|]. apply Forall_app. split; [by apply plain_hex16|]. by constructor.
Qed.
Lemma plain_ntop6 a : bytes_ok a -> plain (inet_ntop6 a).
Proof.
  intros H. unfold inet_ntop6. pose proof (words16_ok a H) as Hw. destruct (best_run 0 (words16 a) (O, O)) as [base len]. destruct (len <? 2)%nat; [by apply plain_join|].
  assert (P : plain [58; 58]) by by repeat constructor. destruct (_ && _)%nat; unfold plain in *; rewrite !Forall_app; split_and!; try done; first [apply plain_ntop4; by apply Forall_drop|apply plain_join; first [by apply Forall_take|by apply Forall_drop]].
Qed.

(** ** What is printed is the text of the value *)
Definition more (l : list (bytes * json)) : bytes := concat (map (fun kv => 44 :: member kv) l).
Lemma more_app l1 l2 : more (l1 ++ l2) = more l1 ++ more l2.
Proof. unfold more. by rewrite map_app, concat_app. Qed.
Definition plainb (s : bytes) : bool := forallb bare_char s.
Lemma plainb_plain s : plainb s = true -> plain s.
Proof. unfold plainb, plain. rewrite forallb_forall, List.Forall_forall. done. Qed.
Lemma more_fld k v l : plainb (cstr k) = true -> more ((cstr k, v) :: l) = nfld k (json_print v) ++ more l.
Proof. intros H. unfold more. cbn [map concat]. unfold member, nfld, fld. cbn [fst snd]. by rewrite plain_str by by apply plainb_plain. Qed.
Lemma more_nil : more [] = [].
Proof. done. Qed.
Lemma more_if (b : bool) l1 l2 : more (if b then l1 else l2) = if b then more l1 else more l2.
Proof. by destruct b. Qed.
Lemma print_doc k v l : plainb (cstr k) = true -> json_print (JObj ((cstr k, v) :: l)) = [123] ++ fld k (json_print v) ++ more l ++ [125].
Proof. intros H. rewrite print_obj. unfold member, fld. cbn [fst snd app]. by rewrite plain_str by by apply plainb_plain. Qed.
Lemma quote_print s : plain s -> quote s = json_print (JStr s).
Proof. intros H. cbn [json_print]. by rewrite plain_str. Qed.
Ltac doc := repeat first [rewrite print_doc by reflexivity|rewrite more_fld by reflexivity|rewrite more_app|rewrite more_if|rewrite more_nil].

Lemma reach_fam_print t family : token_wf t -> json_reach_fam t family = json_print (reach_fam_json t family).
Proof.
  intros (_ & _ & _ & _ & _ & _ & _ & _ & _ & A6 & P6 & _ & A4 & P4). unfold json_reach_fam, reach_fam_json. doc.
  rewrite !quote_print; [by rewrite app_nil_r|unfold reach_ip; destruct (_ =? _); [by apply plain_ntop6|by apply plain_ntop4]|by apply plainb_plain; destruct (token_family_state t family)..].
Qed.
Lemma reach_print t : token_wf t -> showfmt_json_reach t = json_print (reach_json t).
Proof. intros H. unfold showfmt_json_reach, reach_json. doc. by rewrite !reach_fam_print, app_nil_r by done. Qed.
Lemma summary_print id sock tok tok_ro : show_summary id sock tok tok_ro = json_print (summary_json id sock tok tok_ro).
Proof.
  unfold show_summary, summary_json, tmux_json, opt_member. doc. rewrite (quote_print (cstr "comrade")) by by apply plainb_plain. cbn [json_print].
  destruct (decoded tok) as [t|] eqn:E; doc; [rewrite reach_print by by eapply decoded_wf|]; rewrite ?app_nil_r, ?app_nil_l; destruct (bytes_eqb tok_ro []); rewrite <- ?app_assoc; cbn [negb app]; done.
Qed.

(** ** The values are well-formed, so the text reads back *)
Lemma cstr_bytes k : bytes_ok (cstr k).
Proof. unfold cstr, bytes_ok. apply Forall_map, List.Forall_forall. intros a _. cbn. pose proof (Ascii.N_ascii_bounded a). unfold is_u8. lia. Qed.
Lemma obj_member k v l : json_ok v -> json_ok (JObj l) -> json_ok (JObj ((cstr k, v) :: l)).
Proof. rewrite !json_ok_obj. intros Hv Hl. constructor; [split; [apply cstr_bytes|done]|done]. Qed.
Lemma obj_app l1 l2 : json_ok (JObj l1) -> json_ok (JObj l2) -> json_ok (JObj (l1 ++ l2)).
Proof. rewrite !json_ok_obj, Forall_app. done. Qed.
Lemma obj_nil : json_ok (JObj []).
Proof. done. Qed.
Lemma obj_if (b : bool) l1 l2 : json_ok (JObj l1) -> json_ok (JObj l2) -> json_ok (JObj (if b then l1 else l2)).
Proof. by destruct b. Qed.
Lemma dec_ok n : 0 <= n <= INT64_MAX -> json_ok (JNum (dec n)).
Proof. intros H. destruct (num_digits n H) as [D N]. done. Qed.
Lemma str_ok s : plain s -> json_ok (JStr s).
Proof. intros H. cbn. by apply plain_bytes. Qed.
Ltac doc_ok := repeat lazymatch goal with
  | |- json_ok (JObj (_ :: _)) => apply obj_member
  | |- json_ok (JObj (_ ++ _)) => apply obj_app
  | |- json_ok (JObj []) => apply obj_nil
  | |- json_ok (JObj (if _ then _ else _)) => apply obj_if
  end.
Lemma reach_fam_ok t family : token_wf t -> json_ok (reach_fam_json t family).
Proof.
  intros (_ & _ & _ & _ & _ & _ & _ & _ & _ & A6 & P6 & _ & A4 & P4). unfold reach_fam_json. doc_ok.
  - by apply str_ok, plainb_plain; destruct (token_family_state t family).
  - by apply str_ok, plainb_plain; destruct (token_family_state t family).
  - apply str_ok. unfold reach_ip. destruct (_ =? _); [by apply plain_ntop6|by apply plain_ntop4].
  - apply dec_ok. unfold reach_port, is_u16 in *. unfold_words. destruct (_ =? _); lia.
Qed.
Lemma reach_ok t : token_wf t -> json_ok (reach_json t).
Proof. intros H. unfold reach_json. doc_ok; by apply reach_fam_ok. Qed.
Lemma tmux_ok sock : bytes_ok sock -> json_ok (tmux_json sock).
Proof. intros H. unfold tmux_json. doc_ok; [done|apply cstr_bytes]. Qed.
Lemma reach_member_ok tok : json_ok (JObj (match decoded tok with Some t => [(cstr "reach", reach_json t)] | None => [] end)).
Proof. destruct (decoded tok) as [t|] eqn:E; doc_ok. by eapply reach_ok, decoded_wf. Qed.
Lemma summary_ok id sock tok tok_ro : bytes_ok id -> bytes_ok sock -> bytes_ok tok -> bytes_ok tok_ro -> json_ok (summary_json id sock tok tok_ro).
Proof. intros Hi Hs Ht Hr. unfold summary_json, opt_member. doc_ok; try done; [apply reach_member_ok|by apply tmux_ok]. Qed.

(** ** A whole [comrade show] *)

(** One running session, as [main] hands it over. *)
Record shown := mk_shown { sh_id : bytes; sh_sock : bytes; sh_tok : bytes; sh_tok_ro : bytes; sh_state : option bytes }.
Definition show_one (f : showfmt) (s : shown) : showfmt := showfmt_session f (sh_id s) (sh_sock s) (sh_tok s) (sh_tok_ro s) (sh_state s).
Definition show_run (what : showfmt_what) (l : list shown) : bytes * Z * show_error := showfmt_end (fold_left show_one l (showfmt_begin what)).
(** The value a session stands for: the summary, or the document its host left in the state file. *)
Definition shown_text (s : shown) : bytes := match sh_state s with Some d => d | None => show_summary (sh_id s) (sh_sock s) (sh_tok s) (sh_tok_ro s) end.
Definition shown_is (s : shown) (v : json) : Prop :=
  match sh_state s with
  | Some d => d = json_print v /\ json_ok v
  | None => v = summary_json (sh_id s) (sh_sock s) (sh_tok s) (sh_tok_ro s) /\ bytes_ok (sh_id s) /\ bytes_ok (sh_sock s) /\ bytes_ok (sh_tok s) /\ bytes_ok (sh_tok_ro s)
  end.
Definition show_json (vs : list json) : json := JObj [(cstr "schema", JNum (cstr "1")); (cstr "sessions", JArr vs)].
Lemma shown_is_text s v : shown_is s v -> shown_text s = json_print v /\ json_ok v.
Proof.
  unfold shown_is, shown_text. destruct (sh_state s) as [d|]; [done|]. intros (-> & H1 & H2 & H3 & H4). split; [apply summary_print|by apply summary_ok].
Qed.
Lemma show_json_fold l f : sf_what f = SHOWFMT_JSON -> 0 <= sf_n f ->
  sf_what (fold_left show_one l f) = SHOWFMT_JSON /\
  sf_out (fold_left show_one l f) = sf_out f ++ (if truth (sf_n f) then concat (map (fun s => 44 :: shown_text s) l) else commas (map shown_text l)).
Proof.
  revert f. induction l as [|s l IH]; intros f Hw Hn; [cbn; destruct (truth _); by rewrite app_nil_r|]. cbn [fold_left]. set (g := show_one f s).
  assert (E : sf_what g = SHOWFMT_JSON /\ sf_n g = sf_n f + 1 /\ sf_out g = sf_out f ++ (if truth (sf_n f) then [44] else []) ++ shown_text s) by (unfold g, show_one, showfmt_session; rewrite Hw; done).
  destruct E as (E1 & E2 & E3). destruct (IH g E1 ltac:(lia)) as [I1 I2]. split; [done|]. rewrite I2, E2, E3. replace (truth (sf_n f + 1)) with true by (unfold truth; lia).
  cbn [map]. rewrite commas_more, map_map. destruct (truth (sf_n f)); cbn [concat app]; rewrite <- !app_assoc; done.
Qed.

(** [comrade show --json] prints one JSON document, whatever the sessions are called and wherever
    their files live: it reads back as the schema and the list of the sessions' values, in order,
    and the exit code is 0. *)
Theorem show_json_reads l vs (H : Forall2 shown_is l vs) :
  exists n, match show_run SHOWFMT_JSON l with (out, code, err) => json_read n out = Some (show_json vs, [10]) /\ code = 0 /\ err = ShowNone end.
Proof.
  exists (json_size (show_json vs)). unfold show_run. destruct (show_json_fold l (showfmt_begin SHOWFMT_JSON)) as [W O]; [done..|]. unfold showfmt_end. rewrite W. split; [|done]. rewrite O. cbn [showfmt_begin sf_n sf_out].
  assert (E : map shown_text l = map json_print vs /\ Forall json_ok vs) by (clear W O; induction H as [|s v l vs Hs _ [I1 I2]]; [done|]; apply shown_is_text in Hs as [S1 S2]; cbn [map]; split; [by rewrite S1, I1|by constructor]).
  destruct E as [E Hok]. cbn [truth]. rewrite E, <- !app_assoc. transitivity (json_read (json_size (show_json vs)) (json_print (show_json vs) ++ [10])).
  - f_equal. unfold show_json. doc. cbn [json_print]. unfold nfld, fld. rewrite <- !app_assoc. cbn. rewrite <- !app_assoc. done.
  - apply json_read_back; [done| |done]. unfold show_json. doc_ok; [by split; [|repeat constructor]|by apply json_ok_arr].
Qed.

(** A socket path with a quote, a backslash and a newline in it. *)
Definition odd_path : bytes := [47; 34; 92; 10].
Lemma show_json_reads_witness :
  exists n, match show_run SHOWFMT_JSON [mk_shown (cstr "a") odd_path [] [] None] with
            | (out, code, err) => json_read n out = Some (show_json [summary_json (cstr "a") odd_path [] []], [10]) /\ code = 0 /\ err = ShowNone
            end.
Proof. apply (show_json_reads [mk_shown (cstr "a") odd_path [] [] None] [summary_json (cstr "a") odd_path [] []]). repeat constructor; unfold is_u8; lia. Defined.

(** The bare-token shapes keep what the last session said and count the rest. *)
Definition bare (what : showfmt_what) : Prop := what = SHOWFMT_TOKEN \/ what = SHOWFMT_TOKEN_RO.
Lemma bare_fold what l f : bare what -> sf_what f = what -> sf_out f = [] ->
  fold_left show_one l f = mk_showfmt what (sf_n f + Z.of_nat (length l)) [] (match last l with Some s => (snprintf 256 (sh_tok s), snprintf 256 (sh_tok_ro s)) | None => sf_keep f end).
Proof.
  intros Hb. revert f. induction l as [|s l IH]; intros f Hw Ho; [destruct f; cbn in *; subst; f_equal; lia|]. cbn [fold_left].
  assert (E : show_one f s = mk_showfmt what (sf_n f + 1) [] (snprintf 256 (sh_tok s), snprintf 256 (sh_tok_ro s))) by (unfold show_one, showfmt_session; rewrite Hw, Ho; by destruct Hb as [->| ->]).
  rewrite E, IH by done. cbn [sf_n sf_keep length]. f_equal; [lia|]. destruct l as [|w l]; [done|]. rewrite last_cons_cons. destruct (last (w :: l)) eqn:E'; [done|]. by apply last_None in E'.
Qed.
(** [comrade show --token] prints a token, bare and alone, exactly when one session runs and has
    one; nothing is printed otherwise and the exit code says so. *)
Lemma show_token_one what l (Hb : bare what) :
  show_run what l =
  match l with
  | [] => ([], 1, ShowNoSession)
  | [s] =>
      let want := snprintf 256 (match what with SHOWFMT_TOKEN_RO => sh_tok_ro s | _ => sh_tok s end) in
      if bytes_eqb want [] then ([], 1, ShowNoReadOnly) else (want ++ [10], 0, ShowNone)
  | _ => ([], 1, ShowSeveral)
  end.
Proof.
  unfold show_run. rewrite (bare_fold what) by (done || by destruct Hb as [->| ->]). unfold showfmt_end. cbn [sf_what sf_n sf_out sf_keep].
  destruct l as [|s [|w l]]; [by destruct Hb as [->| ->]..|]. match goal with |- context [?n =? 0] => assert (Hn : 1 < n) by (cbn [length]; destruct what; cbn; lia); replace (n =? 0) with false by lia; replace (1 <? n) with true by lia end. by destruct Hb as [->| ->].
Qed.

(** ** The files a host leaves behind *)

(** [fgets] of at most [n - 1] bytes: the line with its newline, and the rest of the file. *)
Fixpoint fgets (n : nat) (f : bytes) : bytes * bytes :=
  match n, f with
  | S (S n as m), c :: f => if c =? 10 then ([c], f) else let '(l, r) := fgets m f in (c :: l, r)
  | _, _ => ([], f)
  end.
(** [strchr(tok, '\n')] and a NUL in its place. *)
Fixpoint chop (l : bytes) : bytes := match l with c :: l => if c =? 10 then [] else c :: chop l | [] => [] end.
(** [read_tokens]: the file, if there is one; [None] is the return of -1. *)
Definition read_tokens (file : option bytes) (tn rn : nat) : option (bytes * bytes) :=
  match file with
  | None => None
  | Some f =>
      let '(l1, f) := fgets tn f in
      let '(l2, _) := fgets rn f in
      let tok := chop l1 in
      if bytes_eqb tok [] then None else Some (tok, chop l2)
  end.
Fixpoint rstrip (l : bytes) : bytes := match l with [] => [] | c :: l => match rstrip l with [] => if (c =? 10) || (c =? 13) then [] else [c] | r => c :: r end end.
Definition read_statejson (file : option bytes) (n : nat) : option bytes :=
  match file with
  | None => None
  | Some f => let got := rstrip (take (n - 1) f) in if bytes_eqb got [] then None else Some got
  end.
Definition TOK_BUF : nat := (TOKEN_STR_LEN + 8)%nat.
Definition STATE_BUF : nat := 4096.
(** [show_one] of src/src/host.c, and [host_show] over the sessions of the directory: whether a
    session is live, its socket and its two files are what the operating system says. *)
Record host_files := mk_files { hf_id : bytes; hf_live : bool; hf_sock : bytes; hf_tok : option bytes; hf_json : option bytes }.
Definition host_shown (h : host_files) : option shown :=
  if negb (hf_live h) then None
  else match read_tokens (hf_tok h) TOK_BUF TOK_BUF with
       | None => None
       | Some (tok, ro) => Some (mk_shown (hf_id h) (hf_sock h) tok ro (read_statejson (hf_json h) STATE_BUF))
       end.
Definition host_show (what : showfmt_what) (l : list host_files) : bytes * Z * show_error := show_run what (omap host_shown l).
