(* ===== verification/MView.v ===== *)
(** src/src/mview.c: the machine view of a headless host, its state document and its event lines.
    The world is the view, the state file and what has been written on the standard output; the
    clock, the pid and whether the file could be written are what the operating system says. *)
From S2P Require Import Prelude Net Base58 Bencode Token Obsemit ShowFmt.

Definition MV_PEERS : nat := 8.
Definition SESSION_PEER_SEEN : Z := 0.
Definition SESSION_PEER_PUNCHING : Z := 1.
Definition SESSION_PEER_LIVE : Z := 2.
Definition SESSION_PEER_GONE : Z := 3.
Record mv_peer := mk_mvp { mp_id : Z; mp_state : Z; mp_read_only : bool; mp_fwd_refused : bool; mp_addr : bytes }.
(** [expire_deadline] is in hundredths of a second, the resolution of [/proc/uptime]. *)
Record mview := mk_mview {
  mv_mb : option session_mailbox; mv_id : bytes; mv_state_path : bytes; mv_tmux_sock : bytes; mv_token_rw : bytes; mv_token_r : bytes;
  mv_err : bytes; mv_warn : bytes; mv_peers : list mv_peer; mv_expire_s : Z; mv_max_clients : Z; mv_expire_deadline : Z; mv_sb : option (Z * Z)
}.
Definition mview_eta (m : mview) : mview :=
  mk_mview (mv_mb m) (mv_id m) (mv_state_path m) (mv_tmux_sock m) (mv_token_rw m) (mv_token_r m) (mv_err m) (mv_warn m) (mv_peers m)
    (mv_expire_s m) (mv_max_clients m) (mv_expire_deadline m) (mv_sb m).
#[export] Instance set_mv_mb : Setter mv_mb := ltac:(solve_setter mview_eta).
#[export] Instance set_mv_token_rw : Setter mv_token_rw := ltac:(solve_setter mview_eta).
#[export] Instance set_mv_token_r : Setter mv_token_r := ltac:(solve_setter mview_eta).
#[export] Instance set_mv_err : Setter mv_err := ltac:(solve_setter mview_eta).
#[export] Instance set_mv_warn : Setter mv_warn := ltac:(solve_setter mview_eta).
#[export] Instance set_mv_peers : Setter mv_peers := ltac:(solve_setter mview_eta).
#[export] Instance set_mv_expire_s : Setter mv_expire_s := ltac:(solve_setter mview_eta).
#[export] Instance set_mv_max_clients : Setter mv_max_clients := ltac:(solve_setter mview_eta).
#[export] Instance set_mv_expire_deadline : Setter mv_expire_deadline := ltac:(solve_setter mview_eta).
#[export] Instance set_mv_sb : Setter mv_sb := ltac:(solve_setter mview_eta).

(** What the operating system says during one call: the pid, [os_uptime_s] in hundredths and as
    ["%.1f"] prints it, and whether the temporary file was written and moved into place. *)
Record mv_env := mk_mvenv { me_pid : Z; me_up : Z; me_up_text : bytes; me_fs_ok : bool }.
(** The rest of the world. *)
Record mworld := mk_mw { mw_m : mview; mw_file : option bytes; mw_lines : list bytes }.

(** ** The document *)
Definition mv_sb_name : list bytes :=
  [cstr "userns"; cstr "mountns"; cstr "landlock"; cstr "seccomp"; cstr "caps"; cstr "nonewprivs"; cstr "mdwe"; cstr "rlimit"; cstr "nodump"; cstr "job"; cstr "mitigation"; cstr "integrity"].
Definition sb_layer (bit : nat) : bytes := match mv_sb_name !! bit with Some n => n | None => cstr "bit" ++ dec (Z.of_nat bit) end.
Definition sb_bits (layers : Z) : list nat := filter (fun bit => Z.testbit layers (Z.of_nat bit) = true) (seq 0 31).
(** The loops print a comma before every item but the first. *)
Definition listed (l : list bytes) : bytes := (fold_left (fun '(out, first) a => (out ++ (if first : bool then [] else [44]) ++ a, false)) l ([], true)).1.
Definition mv_sandbox (sb : Z * Z) : bytes :=
  nfld "sandbox" ([123] ++ fld "mask" (sdec sb.1) ++ nfld "layers" ([91] ++ listed (map (fun b => quote (sb_layer b)) (sb_bits sb.1)) ++ [93]) ++
    (if truth sb.2 then nfld "filter_insns" (sdec sb.2) else []) ++ [125]).
Definition token_named (tok : bytes) : bool := match decoded tok with Some t => fam_ready (token_family_state t 4) || fam_ready (token_family_state t 6) | None => false end.
Definition mv_state (m : mview) : bytes :=
  if negb (bytes_eqb (mv_err m) []) then cstr "error"
  else if existsb (fun p => mp_state p =? SESSION_PEER_LIVE) (mv_peers m) then cstr "serving"
  else if bytes_eqb (mv_token_rw m) [] then cstr "starting"
  else if token_named (mv_token_rw m) then cstr "ready" else cstr "rendezvous".
Definition mv_peer_state (state : Z) : bytes :=
  if state =? SESSION_PEER_SEEN then cstr "seen" else if state =? SESSION_PEER_PUNCHING then cstr "punching"
  else if state =? SESSION_PEER_LIVE then cstr "connected" else cstr "gone".
Definition grade (p : mv_peer) : bytes := if mp_read_only p then cstr "ro" else cstr "rw".
(** [p->addr[0] && p->addr[0] != '-'] *)
Definition addr_shown (p : mv_peer) : bool := match mp_addr p with c :: _ => negb (c =? 45) | [] => false end.
(** A peer as the document ([key] "state") and an event ([key] "peer_state") print it. *)
Definition mv_peer_row (key : string) (p : mv_peer) : bytes :=
  [123] ++ fld "id" (sdec (mp_id p)) ++ nfld key (quote (mv_peer_state (mp_state p))) ++ nfld "grade" (quote (grade p)) ++
  (if mp_fwd_refused p then nfld "forward_refused" (cstr "true") else []) ++
  (if addr_shown p then nfld "addr" (showfmt_json_str (mp_addr p)) else []) ++ [125].
Definition mv_here (m : mview) : list mv_peer := filter (fun p => mp_state p <> SESSION_PEER_GONE) (mv_peers m).
(** [(long)(deadline - now)], and no less than 0. *)
Definition mv_rem (m : mview) (e : mv_env) : Z := Z.max 0 (Z.quot (mv_expire_deadline m - me_up e) 100).
Definition filled (s : bytes) : bool := negb (bytes_eqb s []).
Definition mv_doc (m : mview) (e : mv_env) : bytes :=
  [123] ++ fld "schema" (cstr "1") ++ nfld "id" (showfmt_json_str (mv_id m)) ++ nfld "pid" (sdec (me_pid e)) ++ nfld "state" (quote (mv_state m)) ++
  nfld "doc_uptime_s" (me_up_text e) ++
  (if truth (mv_expire_s m) then nfld "expire_s" (sdec (mv_expire_s m)) ++ nfld "expires_in_s" (dec (mv_rem m e)) else []) ++
  (if truth (mv_max_clients m) then nfld "max_clients" (sdec (mv_max_clients m)) else []) ++
  match mv_sb m with Some sb => mv_sandbox sb | None => [] end ++
  (if filled (mv_err m) then nfld "error" (quote (mv_err m)) else []) ++
  (if filled (mv_token_rw m) then nfld "token" (showfmt_json_str (mv_token_rw m)) else []) ++
  (if filled (mv_token_r m) then nfld "token_ro" (showfmt_json_str (mv_token_r m)) else []) ++
  (if filled (mv_token_rw m) then match decoded (mv_token_rw m) with Some t => nfld "reach" (showfmt_json_reach t) | None => [] end else []) ++
  nfld "tmux" ([123] ++ fld "socket" (showfmt_json_str (mv_tmux_sock m)) ++ nfld "session" (quote (cstr "comrade")) ++ [125]) ++
  nfld "peers" ([91] ++ listed (map (mv_peer_row "state") (mv_here m)) ++ [93]) ++
  (if filled (mv_warn m) then nfld "warning" (showfmt_json_str (mv_warn m)) else []) ++ [125].

(** ** Writing and events *)
Definition mv_write (w : mworld) (e : mv_env) : mworld :=
  if me_fs_ok e then mk_mw (mw_m w) (Some (mv_doc (mw_m w) e ++ [10])) (mw_lines w) else w.
Definition mv_event (w : mworld) (ev : string) (detail : mview -> bytes) : mworld :=
  mk_mw (mw_m w) (mw_file w) (mw_lines w ++ [[123] ++ fld "event" (quote (cstr ev)) ++ detail (mw_m w) ++ nfld "state" (quote (mv_state (mw_m w))) ++ [125]]).
Definition det_none (m : mview) : bytes := [].
Definition det_token (m : mview) : bytes :=
  nfld "token" (showfmt_json_str (mv_token_rw m)) ++ (if filled (mv_token_r m) then nfld "token_ro" (showfmt_json_str (mv_token_r m)) else []).
Definition yes (b : bool) : bytes := if b then cstr "true" else cstr "false".
Definition mb_node (b : session_mailbox) : bytes := if sm_rdv_proven b then cstr "proven" else if sm_rdv_holding b then cstr "proving" else cstr "none".
Definition mb_stage (b : session_mailbox) : bytes :=
  let st := if sm_stage b <? 0 then 0 else if 4 <? sm_stage b then 4 else sm_stage b in
  nth (Z.to_nat st) [cstr "cold"; cstr "warmup"; cstr "store"; cstr "get"; cstr "ready"] [].
Definition mb_claim (b : session_mailbox) : bytes :=
  let cl := if (sm_claim b <? 0) || (5 <? sm_claim b) then 0 else sm_claim b in
  nth (Z.to_nat cl) [cstr "unknown"; cstr "free"; cstr "held"; cstr "busy"; cstr "answered"; cstr "refused"] [].
Definition mb_ours (b : session_mailbox) : bytes := if truth (sm_mine_stored b) then cstr "stored" else if truth (sm_have_mine b) then cstr "unstored" else cstr "none".
Definition mb_peer (b : session_mailbox) : bytes := if truth (sm_peer_seen b) then cstr "present" else cstr "absent".
Definition mailbox_zero : session_mailbox := mk_smail 0 0 0 0 0 0 0 0 0 false false 0 0.
Definition mv_mailbox_seen (m : mview) : session_mailbox := default mailbox_zero (mv_mb m).
Definition det_mailbox (m : mview) : bytes :=
  let b := mv_mailbox_seen m in
  nfld "mailbox" ([123] ++ fld "engaged" (yes (truth (sm_engaged b))) ++ nfld "dht" (quote (mb_stage b)) ++ nfld "ours" (quote (mb_ours b)) ++
    nfld "peer" (quote (mb_peer b)) ++ nfld "node" (quote (mb_node b)) ++ nfld "proving" (yes (sm_rdv_holding b)) ++ nfld "proven" (yes (sm_rdv_proven b)) ++
    nfld "seq" (sdec (sm_seq b)) ++ nfld "reads" (sdec (sm_gets b)) ++ nfld "writes" (sdec (sm_puts b)) ++ nfld "claim" (quote (mb_claim b)) ++
    nfld "read_age_s" (sdec (sm_age_get_s b)) ++ nfld "write_age_s" (sdec (sm_age_put_s b)) ++ [125]).
Definition det_peer (i : nat) (m : mview) : bytes := match mv_peers m !! i with Some p => nfld "peer" (mv_peer_row "peer_state" p) | None => [] end.
Definition det_sandbox (m : mview) : bytes := match mv_sb m with Some sb => mv_sandbox sb | None => mv_sandbox (0, 0) end.
Definition det_warning (m : mview) : bytes := nfld "warning" (showfmt_json_str (mv_warn m)).

(** ** The callbacks *)
Definition on (w : mworld) (f : mview -> mview) : mworld := mk_mw (f (mw_m w)) (mw_file w) (mw_lines w).
(** [b] with what moves without being a new state taken out. *)
Definition mb_state (b : session_mailbox) : session_mailbox :=
  mk_smail (sm_engaged b) (sm_stage b) (sm_have_mine b) (sm_mine_stored b) (sm_peer_seen b) 0 0 0 (sm_claim b) (sm_rdv_holding b) (sm_rdv_proven b) 0 0.
Definition mv_mailbox (w : mworld) (e : mv_env) (b : session_mailbox) : mworld :=
  match mv_mb (mw_m w) with
  | Some was =>
      if decide (was = b) then w
      else let w := mv_write (on w (set mv_mb (Some b))) e in
           if decide (mb_state was = mb_state b) then w else mv_event w "mailbox" det_mailbox
  | None => mv_event (mv_write (on w (set mv_mb (Some b))) e) "mailbox" det_mailbox
  end.
(** The slot a peer has or gets, and the table then; [None] is NULL. *)
Definition mv_peer_slot (l : list mv_peer) (id : Z) : option (list mv_peer * nat) :=
  match list_find (fun p => mp_id p = id) l with
  | Some (i, _) => Some (l, i)
  | None => if (length l <? MV_PEERS)%nat then Some (l ++ [mk_mvp id 0 false false []], length l) else None
  end.
Definition mv_token (w : mworld) (e : mv_env) (tok : bytes) : mworld :=
  if bytes_eqb (mv_token_rw (mw_m w)) tok then w
  else mv_event (mv_write (on w (set mv_token_rw (snprintf 256 tok))) e) "token" det_token.
Definition mv_token_ro (w : mworld) (e : mv_env) (tok : bytes) : mworld :=
  if bytes_eqb (mv_token_r (mw_m w)) tok then w
  else mv_event (mv_write (on w (set mv_token_r (snprintf 256 tok))) e) "token" det_token.
(** A peer's slot changed by [f], the document and the event. *)
Definition mv_peer_told (w : mworld) (e : mv_env) (l : list mv_peer) (i : nat) (f : mv_peer -> mv_peer) (ev : string) : mworld :=
  mv_event (mv_write (on w (set mv_peers (alter f i l))) e) ev (det_peer i).
Definition mv_peer_cb (w : mworld) (e : mv_env) (id state : Z) (addr : option bytes) : mworld :=
  match mv_peer_slot (mv_peers (mw_m w)) id with
  | None => w
  | Some (l, i) =>
      mv_peer_told w e l i (fun p => mk_mvp (mp_id p) state (mp_read_only p) (mp_fwd_refused p)
        (match addr with Some (c :: a) => snprintf 80 (c :: a) | _ => mp_addr p end)) "peer"
  end.
(** The two marks come with a slot, made if it has to be, and are told once. *)
Definition mv_peer_mark (w : mworld) (e : mv_env) (id : Z) (marked : mv_peer -> bool) (mark : mv_peer -> mv_peer) (ev : string) : mworld :=
  match mv_peer_slot (mv_peers (mw_m w)) id with
  | None => w
  | Some (l, i) => if match l !! i with Some p => marked p | None => false end then on w (set mv_peers l) else mv_peer_told w e l i mark ev
  end.
Definition mv_peer_ro (w : mworld) (e : mv_env) (id : Z) : mworld :=
  mv_peer_mark w e id mp_read_only (fun p => mk_mvp (mp_id p) (mp_state p) true (mp_fwd_refused p) (mp_addr p)) "peer".
Definition mv_peer_fwd_refused (w : mworld) (e : mv_env) (id : Z) : mworld :=
  mv_peer_mark w e id mp_fwd_refused (fun p => mk_mvp (mp_id p) (mp_state p) (mp_read_only p) true (mp_addr p)) "forward_refused".
Definition mv_escalate (w : mworld) (e : mv_env) (why : bytes) : mworld :=
  mv_event (mv_write (on w (set mv_warn (snprintf 160 why))) e) "warning" det_warning.
Definition mv_escalate_clear (w : mworld) (e : mv_env) : mworld :=
  if negb (filled (mv_warn (mw_m w))) then w else mv_event (mv_write (on w (set mv_warn [])) e) "warning_cleared" det_none.

(** ** Lifecycle *)
Definition mview_new (id state_path tmux_sock : bytes) : mview :=
  mk_mview None (snprintf 64 id) (snprintf 512 state_path) (snprintf 512 tmux_sock) [] [] [] [] [] 0 0 0 None.
Definition mview_create (e : mv_env) (file : option bytes) (id state_path tmux_sock : bytes) : mworld :=
  mv_event (mv_write (mk_mw (mview_new id state_path tmux_sock) file []) e) "started" det_none.
Definition mview_limits (w : mworld) (e : mv_env) (expire_s max_clients : Z) : mworld :=
  let w := on w (set mv_max_clients max_clients) in
  let w := on w (set mv_expire_s expire_s) in
  mv_write (if 0 <? expire_s then on w (set mv_expire_deadline (me_up e + 100 * expire_s)) else w) e.
Definition mview_sandbox (w : mworld) (e : mv_env) (layers filter_insns : Z) : mworld :=
  mv_event (mv_write (on w (set mv_sb (Some (layers, filter_insns)))) e) "sandbox" det_sandbox.
Definition mview_error (w : mworld) (e : mv_env) (err : bytes) : mworld :=
  mv_event (mv_write (on w (set mv_err (snprintf 32 err))) e) "error" det_none.
Definition mview_destroy (w : mworld) : mworld := let w := mv_event w "stopped" det_none in mk_mw (mw_m w) None (mw_lines w).

(** What a host does with its view. *)
Inductive mv_op :=
| MToken (tok : bytes) | MTokenRo (tok : bytes) | MPeer (id state : Z) (addr : option bytes) | MPeerRo (id : Z) | MPeerFwd (id : Z)
| MEscalate (why : bytes) | MEscalateClear | MMailbox (b : session_mailbox) | MLimits (expire_s max_clients : Z) | MSandbox (layers insns : Z) | MError (err : bytes).
Definition mv_act (w : mworld) (oe : mv_op * mv_env) : mworld :=
  let '(o, e) := oe in
  match o with
  | MToken tok => mv_token w e tok | MTokenRo tok => mv_token_ro w e tok
  | MPeer id st a => mv_peer_cb w e id st a | MPeerRo id => mv_peer_ro w e id | MPeerFwd id => mv_peer_fwd_refused w e id
  | MEscalate why => mv_escalate w e why | MEscalateClear => mv_escalate_clear w e | MMailbox b => mv_mailbox w e b
  | MLimits x n => mview_limits w e x n | MSandbox l i => mview_sandbox w e l i | MError err => mview_error w e err
  end.
Definition mv_run (w : mworld) (l : list (mv_op * mv_env)) : mworld := fold_left mv_act l w.

(** ** The view as JSON values *)
Definition jn (n : Z) : json := JNum (sdec n).
Definition sandbox_json (sb : Z * Z) : json :=
  JObj ((cstr "mask", jn sb.1) :: (cstr "layers", JArr (map (fun b => JStr (sb_layer b)) (sb_bits sb.1))) :: opt_member (truth sb.2) "filter_insns" (jn sb.2)).
Definition peer_json (key : string) (p : mv_peer) : json :=
  JObj ((cstr "id", jn (mp_id p)) :: (cstr key, JStr (mv_peer_state (mp_state p))) :: (cstr "grade", JStr (grade p)) ::
        opt_member (mp_fwd_refused p) "forward_refused" (JBool true) ++ opt_member (addr_shown p) "addr" (JStr (mp_addr p))).
Definition str_member (k : string) (s : bytes) : list (bytes * json) := opt_member (filled s) k (JStr s).
Definition sb_member (sb : option (Z * Z)) : list (bytes * json) := match sb with Some sb => [(cstr "sandbox", sandbox_json sb)] | None => [] end.
Definition reach_member (tok : bytes) : list (bytes * json) :=
  if filled tok then match decoded tok with Some t => [(cstr "reach", reach_json t)] | None => [] end else [].
Definition doc_json (m : mview) (e : mv_env) : json :=
  JObj ((cstr "schema", JNum (cstr "1")) :: (cstr "id", JStr (mv_id m)) :: (cstr "pid", jn (me_pid e)) :: (cstr "state", JStr (mv_state m)) ::
        (cstr "doc_uptime_s", JNum (me_up_text e)) ::
        (if truth (mv_expire_s m) then [(cstr "expire_s", jn (mv_expire_s m)); (cstr "expires_in_s", JNum (dec (mv_rem m e)))] else []) ++
        opt_member (truth (mv_max_clients m)) "max_clients" (jn (mv_max_clients m)) ++ sb_member (mv_sb m) ++
        str_member "error" (mv_err m) ++ str_member "token" (mv_token_rw m) ++ str_member "token_ro" (mv_token_r m) ++ reach_member (mv_token_rw m) ++
        (cstr "tmux", tmux_json (mv_tmux_sock m)) :: (cstr "peers", JArr (map (peer_json "state") (mv_here m))) :: str_member "warning" (mv_warn m)).

(** ** Well-formed views *)
Definition text_ok (n : nat) (s : bytes) : Prop := bytes_ok s /\ (length s < n)%nat.
Definition mv_peer_ok (p : mv_peer) : Prop := is_i32 (mp_id p) /\ text_ok 80 (mp_addr p).
Definition mailbox_ok (b : session_mailbox) : Prop :=
  is_i32 (sm_gets b) /\ is_i32 (sm_puts b) /\ is_i32 (sm_age_get_s b) /\ is_i32 (sm_age_put_s b) /\ - INT64_MAX <= sm_seq b <= INT64_MAX.
Record mv_ok (m : mview) : Prop := mk_mv_ok {
  ok_id : text_ok 64 (mv_id m); ok_sock : text_ok 512 (mv_tmux_sock m); ok_tok : text_ok 256 (mv_token_rw m); ok_tok_ro : text_ok 256 (mv_token_r m);
  ok_err : text_ok 32 (mv_err m) /\ plain (mv_err m); ok_warn : text_ok 160 (mv_warn m);
  ok_peers : Forall mv_peer_ok (mv_peers m) /\ (length (mv_peers m) <= MV_PEERS)%nat /\ NoDup (map mp_id (mv_peers m));
  ok_limits : is_i32 (mv_expire_s m) /\ is_i32 (mv_max_clients m) /\ 0 <= mv_expire_deadline m <= 2 ^ 60;
  ok_sb : forall sb, mv_sb m = Some sb -> is_i32 sb.1 /\ is_i32 sb.2; ok_mb : mailbox_ok (mv_mailbox_seen m) }.
Definition env_ok (e : mv_env) : Prop :=
  is_i32 (me_pid e) /\ 0 <= me_up e <= 2 ^ 53 /\ me_up_text e <> [] /\ Forall (fun c => num_char c = true) (me_up_text e) /\ (length (me_up_text e) <= 20)%nat.
Definition op_ok (o : mv_op) : Prop :=
  match o with
  | MToken s | MTokenRo s | MEscalate s => bytes_ok s
  | MPeer id _ a => is_i32 id /\ bytes_ok (default [] a)
  | MPeerRo id | MPeerFwd id => is_i32 id
  | MEscalateClear => True
  | MMailbox b => mailbox_ok b
  | MLimits x n => is_i32 x /\ is_i32 n
  | MSandbox l i => is_i32 l /\ is_i32 i
  | MError s => plain s
  end.

(** ** The document and the lines are the text of those values *)
Lemma listed_acc l out : (fold_left (fun '(out, first) a => (out ++ (if first : bool then [] else [44]) ++ a, false)) l (out, false)).1 = out ++ concat (map (fun a => 44 :: a) l).
Proof. revert out. induction l as [|a l IH]; intros out; cbn [fold_left]; [by rewrite app_nil_r|]. rewrite IH. cbn [map concat]. by rewrite <- !app_assoc. Qed.
Lemma listed_commas l : listed l = commas l.
Proof. unfold listed. destruct l as [|a l]; [done|]. cbn [fold_left]. rewrite commas_more. apply listed_acc. Qed.
Lemma arr_print l : [91] ++ listed (map json_print l) ++ [93] = json_print (JArr l).
Proof. by rewrite listed_commas. Qed.
Lemma plain_layer b : (b < 31)%nat -> plain (sb_layer b).
Proof. intros H. apply plainb_plain. do 31 (destruct b as [|b]; [reflexivity|]). lia. Qed.
Lemma sb_bits_lt l b : b ∈ sb_bits l -> (b < 31)%nat.
Proof. unfold sb_bits. rewrite list_elem_of_filter, list_elem_of_In, in_seq. lia. Qed.
Lemma layers_print l : map (fun b => quote (sb_layer b)) (sb_bits l) = map json_print (map (fun b => JStr (sb_layer b)) (sb_bits l)).
Proof. rewrite map_map. apply map_ext_in. intros b Hb. apply quote_print, plain_layer. eapply sb_bits_lt. by apply list_elem_of_In. Qed.
Lemma sandbox_print sb : mv_sandbox sb = nfld "sandbox" (json_print (sandbox_json sb)).
Proof. unfold mv_sandbox, sandbox_json, opt_member. doc. rewrite layers_print, arr_print. destruct (truth _); by rewrite <- ?app_assoc, ?app_nil_r. Qed.
Lemma plain_peer_state st : plain (mv_peer_state st).
Proof. apply plainb_plain. unfold mv_peer_state. by repeat destruct (_ =? _). Qed.
Lemma plain_grade p : plain (grade p).
Proof. apply plainb_plain. unfold grade. by destruct (mp_read_only p). Qed.
Lemma plain_state m : plain (mv_state m).
Proof. apply plainb_plain. unfold mv_state. repeat case_match; done. Qed.
Lemma more_opt b k v : plainb (cstr k) = true -> more (opt_member b k v) = if b then nfld k (json_print v) else [].
Proof. intros H. unfold opt_member. destruct b; [|done]. by rewrite more_fld, app_nil_r. Qed.
Lemma more_str k s : plainb (cstr k) = true -> more (str_member k s) = if filled s then nfld k (showfmt_json_str s) else [].
Proof. apply more_opt. Qed.
Lemma more_reach tok : more (reach_member tok) = if filled tok then match decoded tok with Some t => nfld "reach" (showfmt_json_reach t) | None => [] end else [].
Proof.
  unfold reach_member. destruct (filled tok); [|done]. destruct (decoded tok) as [t|] eqn:E; [|done]. rewrite more_fld, app_nil_r by done. by rewrite reach_print by by eapply decoded_wf.
Qed.
Lemma more_sb sb : more (sb_member sb) = match sb with Some sb => mv_sandbox sb | None => [] end.
Proof. destruct sb as [sb|]; [|done]. cbn [sb_member]. by rewrite more_fld, sandbox_print, app_nil_r. Qed.
Ltac mdoc := repeat first [rewrite print_doc by reflexivity|rewrite more_fld by reflexivity|rewrite more_opt by reflexivity|rewrite more_str by reflexivity|rewrite more_reach|rewrite more_sb|rewrite more_app|rewrite more_if|rewrite more_nil].
Lemma peer_print key p : plainb (cstr key) = true -> mv_peer_row key p = json_print (peer_json key p).
Proof.
  intros Hk. unfold mv_peer_row, peer_json. rewrite print_doc, !more_fld by done. rewrite more_app, !more_opt by done.
  rewrite !quote_print by (apply plain_peer_state || apply plain_grade). cbn [json_print jn]. by rewrite <- !app_assoc.
Qed.
Lemma doc_print m e : plain (mv_err m) -> mv_doc m e = json_print (doc_json m e).
Proof.
  intros He. unfold mv_doc, doc_json, tmux_json. mdoc. rewrite (quote_print (mv_state m)) by apply plain_state. rewrite (quote_print (mv_err m)) by done. rewrite (quote_print (cstr "comrade")) by by apply plainb_plain.
  rewrite (map_ext _ (fun p => json_print (peer_json "state" p)) (fun p => peer_print "state" p eq_refl)), <- (map_map (peer_json "state") json_print), arr_print. cbn [json_print jn].
  rewrite <- ?app_assoc, ?app_nil_r. destruct (truth (mv_expire_s m)); rewrite <- ?app_assoc; done.
Qed.
(** An event line: what happened, what came of it, and the state then. *)
Definition ev_json (ev : string) (det : list (bytes * json)) (m : mview) : json := JObj ((cstr "event", JStr (cstr ev)) :: det ++ [(cstr "state", JStr (mv_state m))]).
Definition mb_json (b : session_mailbox) : json :=
  JObj [(cstr "engaged", JBool (truth (sm_engaged b))); (cstr "dht", JStr (mb_stage b)); (cstr "ours", JStr (mb_ours b)); (cstr "peer", JStr (mb_peer b));
        (cstr "node", JStr (mb_node b)); (cstr "proving", JBool (sm_rdv_holding b)); (cstr "proven", JBool (sm_rdv_proven b)); (cstr "seq", jn (sm_seq b));
        (cstr "reads", jn (sm_gets b)); (cstr "writes", jn (sm_puts b)); (cstr "claim", JStr (mb_claim b)); (cstr "read_age_s", jn (sm_age_get_s b)); (cstr "write_age_s", jn (sm_age_put_s b))].
Lemma plain_stage b : plain (mb_stage b).
Proof.
  apply plainb_plain. unfold mb_stage. destruct (Z.ltb_spec (sm_stage b) 0); [done|]. destruct (Z.ltb_spec 4 (sm_stage b)); [done|]. assert (Hs : (Z.to_nat (sm_stage b) < 5)%nat) by lia.
  generalize dependent (Z.to_nat (sm_stage b)). intros n Hn. do 5 (destruct n as [|n]; [done|]). lia.
Qed.
Lemma plain_claim b : plain (mb_claim b).
Proof.
  apply plainb_plain. unfold mb_claim. destruct ((sm_claim b <? 0) || (5 <? sm_claim b)) eqn:E; [done|]. assert (H : (Z.to_nat (sm_claim b) < 6)%nat) by lia.
  generalize dependent (Z.to_nat (sm_claim b)). intros n Hn. do 6 (destruct n as [|n]; [done|]). lia.
Qed.
Lemma plain_ours b : plain (mb_ours b).
Proof. apply plainb_plain. unfold mb_ours. by repeat destruct (truth _). Qed.
Lemma plain_peer_seen b : plain (mb_peer b).
Proof. apply plainb_plain. unfold mb_peer. by destruct (truth _). Qed.
Lemma plain_node b : plain (mb_node b).
Proof. apply plainb_plain. unfold mb_node. by destruct (sm_rdv_proven b), (sm_rdv_holding b). Qed.
Create HintDb plain.
#[export] Hint Resolve plain_stage plain_claim plain_ours plain_peer_seen plain_node plain_state plain_peer_state plain_grade : plain.
Lemma mailbox_print m : det_mailbox m = more [(cstr "mailbox", mb_json (mv_mailbox_seen m))].
Proof. unfold det_mailbox, mb_json. mdoc. rewrite !quote_print by auto with plain. by rewrite !app_nil_r, <- !app_assoc. Qed.

(** ** They are well-formed *)
Lemma i32_ok n : is_i32 n -> json_ok (jn n).
Proof. intros H. apply num_ok. unfold is_i32 in H. unfold_words. lia. Qed.
Lemma strs_ok (k : string) s : bytes_ok s -> json_ok (JObj (str_member k s)).
Proof. intros H. unfold str_member, opt_member. by doc_ok. Qed.
Lemma sandbox_ok sb : is_i32 sb.1 -> is_i32 sb.2 -> json_ok (sandbox_json sb).
Proof.
  intros H1 H2. unfold sandbox_json, opt_member. doc_ok; [by apply i32_ok| |by apply i32_ok]. apply json_ok_arr, Forall_map, Forall_forall. intros b Hb. by eapply str_ok, plain_layer, sb_bits_lt.
Qed.
Lemma peer_ok key p : mv_peer_ok p -> json_ok (peer_json key p).
Proof. intros (H1 & H2 & _). unfold peer_json, opt_member. doc_ok; try done; [by apply i32_ok|apply str_ok; auto with plain..]. Qed.
Lemma rem_ok m e : mv_ok m -> env_ok e -> 0 <= mv_rem m e <= 2 ^ 60.
Proof. intros H (_ & He & _). destruct (ok_limits _ H) as (_ & _ & Hd). unfold mv_rem. Z.to_euclidean_division_equations. lia. Qed.
Lemma here_ok m : mv_ok m -> Forall mv_peer_ok (mv_here m).
Proof. intros H. unfold mv_here. apply Forall_forall. intros p Hp. apply list_elem_of_filter in Hp as [_ Hp]. exact (proj1 (Forall_forall _ _) (proj1 (ok_peers _ H)) p Hp). Qed.
Lemma sbm_ok m : mv_ok m -> json_ok (JObj (sb_member (mv_sb m))).
Proof. intros H. pose proof (ok_sb _ H) as Hs. destruct (mv_sb m) as [sb|]; cbn [sb_member]; doc_ok. by apply sandbox_ok; apply Hs. Qed.
Lemma reachm_ok tok : json_ok (JObj (reach_member tok)).
Proof. unfold reach_member. doc_ok. apply reach_member_ok. Qed.
Lemma doc_json_ok m e : mv_ok m -> env_ok e -> json_ok (doc_json m e).
Proof.
  intros H He. pose proof (rem_ok m e H He) as Hr. destruct He as (Hp & _ & Hu & Hc & _). destruct (ok_limits _ H) as (Hx & Hm & _). unfold doc_json, opt_member. doc_ok.
  all: first [apply strs_ok|apply sbm_ok; done|apply reachm_ok|apply i32_ok; done|idtac].
  all: first [apply (ok_id _ H)|apply (ok_err _ H)|apply (ok_tok _ H)|apply (ok_tok_ro _ H)|apply (ok_warn _ H)|idtac].
  - by split; [|repeat constructor].
  - apply str_ok. auto with plain.
  - done.
  - apply dec_ok. unfold_words. lia.
  - apply tmux_ok. apply (ok_sock _ H).
  - apply json_ok_arr, Forall_map. eapply Forall_impl; [apply (here_ok m H)|]. intros p. apply peer_ok.
Qed.
Lemma mb_json_ok b : mailbox_ok b -> json_ok (mb_json b).
Proof. intros (H1 & H2 & H3 & H4 & H5). unfold mb_json. doc_ok; first [exact I|apply str_ok; auto with plain|by apply i32_ok|by apply num_ok]. Qed.
Lemma ev_ok ev det m : json_ok (JObj det) -> json_ok (ev_json ev det m).
Proof. intros H. unfold ev_json. doc_ok; [apply cstr_bytes|done|apply str_ok; auto with plain]. Qed.

(** ** Every run *)
Lemma snprintf_ok n s : (0 < n)%nat -> bytes_ok s -> text_ok n (snprintf n s).
Proof. intros Hn H. unfold snprintf. split; [by apply Forall_take|]. rewrite length_take. lia. Qed.
Lemma nil_text n : (0 < n)%nat -> text_ok n [].
Proof. intros H. split; [constructor|done]. Qed.
Lemma guest_slot_spec l id l' i : mv_peer_slot l id = Some (l', i) ->
  exists p, l' !! i = Some p /\ mp_id p = id /\ (l' = l \/ (l' = l ++ [mk_mvp id 0 false false []] /\ p = mk_mvp id 0 false false [] /\ (length l < MV_PEERS)%nat /\ (id ∉ map mp_id l))).
Proof.
  unfold mv_peer_slot. destruct (list_find _ l) as [[j q]|] eqn:E.
  - intros [= <- <-]. apply list_find_Some in E as (E1 & E2 & _). exists q. eauto.
  - destruct (Nat.ltb_spec (length l) MV_PEERS); [|done]. intros [= <- <-]. exists (mk_mvp id 0 false false []). split; [by apply list_lookup_middle|]. split; [done|]. right. split_and!; [done..|].
    apply list_find_None in E. intros (p & Hp & Hin)%list_elem_of_fmap. exact (proj1 (Forall_forall _ _) E p Hin (eq_sym Hp)).
Qed.
Definition peers_ok (l : list mv_peer) : Prop := Forall mv_peer_ok l /\ (length l <= MV_PEERS)%nat /\ NoDup (map mp_id l).
Lemma guest_slot_ok l id l' i : is_i32 id -> peers_ok l -> mv_peer_slot l id = Some (l', i) -> peers_ok l'.
Proof.
  intros Hid (H1 & H2 & H3) E. apply guest_slot_spec in E as (p & _ & _ & [->|(-> & _ & Hn & Hf)]); [done|]. split_and!.
  - apply Forall_app. split; [done|]. constructor; [|constructor]. split; [done|]. apply nil_text. lia.
  - rewrite length_app. cbn. lia.
  - rewrite map_app. apply NoDup_app. split_and!; [done| |apply NoDup_singleton]. cbn. set_solver.
Qed.
Lemma alter_ok l i f : peers_ok l -> (forall p, mv_peer_ok p -> mv_peer_ok (f p) /\ mp_id (f p) = mp_id p) -> peers_ok (alter f i l).
Proof.
  intros (H1 & H2 & H3) Hf. split_and!.
  - apply Forall_alter; [done|]. intros p Hp Hok. by apply Hf.
  - by rewrite length_alter.
  - assert (E : map mp_id (alter f i l) = map mp_id l); [|by rewrite E]. apply list_eq. intros j. rewrite !list_lookup_fmap, list_lookup_alter. destruct (decide _) as [->|]; [|done]. destruct (l !! j) as [p|] eqn:Ej; [|done]. cbn. f_equal. apply Hf. exact (proj1 (Forall_lookup _ _) H1 j p Ej).
Qed.
Lemma peers_set m l : mv_ok m -> peers_ok l -> mv_ok (set mv_peers l m).
Proof. intros [] Hl. by constructor. Qed.
(** Writing and telling leave the view alone. *)
Lemma write_m w e : mw_m (mv_write w e) = mw_m w.
Proof. unfold mv_write. by destruct (me_fs_ok e). Qed.
Lemma told_m w e l i f ev : mw_m (mv_peer_told w e l i f ev) = set mv_peers (alter f i l) (mw_m w).
Proof. unfold mv_peer_told. cbn [mv_event mw_m]. by rewrite write_m. Qed.
Lemma mark_ok w e id marked mark ev : mv_ok (mw_m w) -> is_i32 id -> (forall p, mv_peer_ok p -> mv_peer_ok (mark p) /\ mp_id (mark p) = mp_id p) -> mv_ok (mw_m (mv_peer_mark w e id marked mark ev)).
Proof.
  intros H Hid Hm. unfold mv_peer_mark. destruct (mv_peer_slot _ id) as [[l i]|] eqn:E; [|done]. pose proof (guest_slot_ok _ _ _ _ Hid (ok_peers _ H) E) as Hl. destruct (match l !! i with Some p => _ | None => _ end); [by apply peers_set|]. rewrite told_m. by apply peers_set, alter_ok.
Qed.
Lemma act_ok w o e : mv_ok (mw_m w) -> op_ok o -> env_ok e -> mv_ok (mw_m (mv_act w (o, e))).
Proof.
  intros H Ho He. pose proof H as []. destruct o as [s|s|id st a|id|id|s| |b|x n|l i|s]; cbn [mv_act op_ok] in *.
  - unfold mv_token. destruct (bytes_eqb _ _); [done|]. cbn [mv_event mw_m]. rewrite write_m. constructor; try done. apply (snprintf_ok _ s); [lia|done].
  - unfold mv_token_ro. destruct (bytes_eqb _ _); [done|]. cbn [mv_event mw_m]. rewrite write_m. constructor; try done. apply (snprintf_ok _ s); [lia|done].
  - destruct Ho as [Hid Ha]. unfold mv_peer_cb. destruct (mv_peer_slot _ id) as [[l i]|] eqn:E; [|done]. rewrite told_m. apply peers_set; [done|]. apply alter_ok; [by eapply guest_slot_ok|]. intros p Hp. split; [|done]. destruct Hp as [Hp1 Hp2]. split; [done|]. cbn [mp_addr]. destruct a as [[|c a]|]; [done| |done]. apply snprintf_ok; [lia|done].
  - apply mark_ok; [done..|]. intros p Hp. split; [exact Hp|done].
  - apply mark_ok; [done..|]. intros p Hp. split; [exact Hp|done].
  - unfold mv_escalate. cbn [mv_event mw_m]. rewrite write_m. constructor; try done. apply (snprintf_ok _ s); [lia|done].
  - unfold mv_escalate_clear. destruct (negb _); [done|]. cbn [mv_event mw_m]. rewrite write_m. constructor; cbn; try done. apply nil_text. lia.
  - unfold mv_mailbox. destruct (mv_mb (mw_m w)) as [was|] eqn:Em.
    + destruct (decide (was = b)); [done|]. assert (X : mv_ok (mw_m (mv_write (on w (set mv_mb (Some b))) e))) by (rewrite write_m; by constructor). by destruct (decide _).
    + cbn [mv_event mw_m]. rewrite write_m. by constructor.
  - destruct Ho as [Hx Hn]. unfold mview_limits. rewrite write_m. destruct ok_limits0 as (L1 & L2 & L3). destruct (Z.ltb_spec 0 x); constructor; cbn; try done. destruct He as (_ & Hu & _). unfold is_i32 in *. split_and!; lia.
  - unfold mview_sandbox. cbn [mv_event mw_m]. rewrite write_m. constructor; cbn; try done. intros sb [= <-]. done.
  - unfold mview_error. cbn [mv_event mw_m]. rewrite write_m. constructor; try done. split; [apply (snprintf_ok 32 s); [lia|by apply plain_bytes]|]. by apply Forall_take.
Qed.

(** ** What a host's view should tell
    The contract, on values: which calls are news, the view after each, the document it is kept
    under and the event it is told by. A guest is its number here, and a table of guests a set
    of them in the order they came. *)
Definition fresh_guest (id : Z) : mv_peer := mk_mvp id 0 false false [].
Definition known (id : Z) (l : list mv_peer) : bool := bool_decide (id ∈ map mp_id l).
Definition guest (id : Z) (l : list mv_peer) : mv_peer := default (fresh_guest id) (head (filter (fun p => mp_id p = id) l)).
Definition told_of (id : Z) (f : mv_peer -> mv_peer) (l : list mv_peer) : list mv_peer :=
  if known id l then map (fun p => if mp_id p =? id then f p else p) l else l ++ [f (fresh_guest id)].
(** A guest the table has, or has room for. *)
Definition placed (id : Z) (m : mview) : bool := known id (mv_peers m) || (length (mv_peers m) <? MV_PEERS)%nat.
Definition news (m : mview) (o : mv_op) : bool :=
  match o with
  | MToken s => negb (bytes_eqb (mv_token_rw m) s)
  | MTokenRo s => negb (bytes_eqb (mv_token_r m) s)
  | MPeer id _ _ => placed id m
  | MPeerRo id => placed id m && negb (mp_read_only (guest id (mv_peers m)))
  | MPeerFwd id => placed id m && negb (mp_fwd_refused (guest id (mv_peers m)))
  | MEscalateClear => filled (mv_warn m)
  | MMailbox b => negb (bool_decide (mv_mb m = Some b))
  | MEscalate _ | MLimits _ _ | MSandbox _ _ | MError _ => true
  end.
Definition peer_now (st : Z) (addr : option bytes) (p : mv_peer) : mv_peer :=
  mk_mvp (mp_id p) st (mp_read_only p) (mp_fwd_refused p) (match addr with Some (c :: a) => snprintf 80 (c :: a) | _ => mp_addr p end).
Definition peer_ro (p : mv_peer) : mv_peer := mk_mvp (mp_id p) (mp_state p) true (mp_fwd_refused p) (mp_addr p).
Definition peer_fwd (p : mv_peer) : mv_peer := mk_mvp (mp_id p) (mp_state p) (mp_read_only p) true (mp_addr p).
Definition view_after (o : mv_op) (e : mv_env) (m : mview) : mview :=
  match o with
  | MToken s => set mv_token_rw (snprintf 256 s) m
  | MTokenRo s => set mv_token_r (snprintf 256 s) m
  | MPeer id st a => set mv_peers (told_of id (peer_now st a) (mv_peers m)) m
  | MPeerRo id => set mv_peers (told_of id peer_ro (mv_peers m)) m
  | MPeerFwd id => set mv_peers (told_of id peer_fwd (mv_peers m)) m
  | MEscalate s => set mv_warn (snprintf 160 s) m
  | MEscalateClear => set mv_warn [] m
  | MMailbox b => set mv_mb (Some b) m
  | MLimits x n => set mv_expire_deadline (if 0 <? x then me_up e + 100 * x else mv_expire_deadline m) (set mv_expire_s x (set mv_max_clients n m))
  | MSandbox l i => set mv_sb (Some (l, i)) m
  | MError s => set mv_err (snprintf 32 s) m
  end.
(** The event of a call: its name and its members, from the view [m] it met and the view [m'] it left. *)
Definition event_of (o : mv_op) (m m' : mview) : option (string * list (bytes * json)) :=
  match o with
  | MToken _ | MTokenRo _ => Some ("token"%string, (cstr "token", JStr (mv_token_rw m')) :: str_member "token_ro" (mv_token_r m'))
  | MPeer id _ _ | MPeerRo id => Some ("peer"%string, [(cstr "peer", peer_json "peer_state" (guest id (mv_peers m')))])
  | MPeerFwd id => Some ("forward_refused"%string, [(cstr "peer", peer_json "peer_state" (guest id (mv_peers m')))])
  | MEscalate _ => Some ("warning"%string, [(cstr "warning", JStr (mv_warn m'))])
  | MEscalateClear => Some ("warning_cleared"%string, [])
  | MMailbox b => if bool_decide (mb_state <$> mv_mb m = Some (mb_state b)) then None else Some ("mailbox"%string, [(cstr "mailbox", mb_json b)])
  | MLimits _ _ => None
  | MSandbox l i => Some ("sandbox"%string, [(cstr "sandbox", sandbox_json (l, i))])
  | MError _ => Some ("error"%string, [])
  end.
(** The view, the document last written and the events so far. *)
Record mv_told := mk_told { tl_view : mview; tl_doc : option json; tl_events : list json }.
Definition told_doc (s : mv_told) (m' : mview) (e : mv_env) : option json := if me_fs_ok e then Some (doc_json m' e) else tl_doc s.
Definition told_event (m' : mview) (ev : option (string * list (bytes * json))) : list json := match ev with Some (n, det) => [ev_json n det m'] | None => [] end.
Definition tell (s : mv_told) (oe : mv_op * mv_env) : mv_told :=
  let '(o, e) := oe in let m := tl_view s in
  if news m o then let m' := view_after o e m in mk_told m' (told_doc s m' e) (tl_events s ++ told_event m' (event_of o m m')) else s.
Definition told_first (e : mv_env) (id path sock : bytes) : mv_told :=
  let m := mview_new id path sock in mk_told m (if me_fs_ok e then Some (doc_json m e) else None) [ev_json "started" [] m].
Definition told_run (s : mv_told) (l : list (mv_op * mv_env)) : mv_told := fold_left tell l s.

(** ** The view tells it *)
(** The reader has its value from the whole text, which is the value's own. *)
Definition reads_as (s : bytes) (v : json) : Prop := s = json_print v /\ exists n, json_read n s = Some (v, []).
Lemma print_reads v : json_ok v -> reads_as (json_print v) v.
Proof. intros H. split; [done|]. exists (json_size v). rewrite <- (app_nil_r (json_print v)). by apply json_read_back. Qed.
Definition file_as (f : bytes) (v : json) : Prop := exists d, f = d ++ [10] /\ reads_as d v.
Record shows (w : mworld) (s : mv_told) : Prop := mk_shows {
  sh_view : mw_m w = tl_view s; sh_doc : option_Forall2 file_as (mw_file w) (tl_doc s); sh_lines : Forall2 reads_as (mw_lines w) (tl_events s) }.
(** The bytes a detail prints are its members. *)
Definition detail (m : mview) (d : mview -> bytes) (det : list (bytes * json)) : Prop := d m = more det /\ json_ok (JObj det).
Lemma detail_none m : detail m det_none [].
Proof. done. Qed.
Lemma detail_token m : mv_ok m -> detail m det_token ((cstr "token", JStr (mv_token_rw m)) :: str_member "token_ro" (mv_token_r m)).
Proof. intros H. split; [unfold det_token; by mdoc|]. apply obj_member; [apply (ok_tok _ H)|apply strs_ok, (ok_tok_ro _ H)]. Qed.
Lemma detail_peer m i p : mv_ok m -> mv_peers m !! i = Some p -> detail m (det_peer i) [(cstr "peer", peer_json "peer_state" p)].
Proof.
  intros H E. unfold detail, det_peer. rewrite E. split; [mdoc; by rewrite peer_print, app_nil_r|]. doc_ok. apply peer_ok. exact (proj1 (Forall_lookup _ _) (proj1 (ok_peers _ H)) i p E).
Qed.
Lemma detail_mailbox m b : mv_ok m -> mv_mb m = Some b -> detail m det_mailbox [(cstr "mailbox", mb_json b)].
Proof. intros H E. pose proof (ok_mb _ H) as Hb. pose proof (mailbox_print m) as P. unfold mv_mailbox_seen in *. rewrite E in *. split; [exact P|]. doc_ok. by apply mb_json_ok. Qed.
Lemma detail_warning m : mv_ok m -> detail m det_warning [(cstr "warning", JStr (mv_warn m))].
Proof. intros H. split; [unfold det_warning; mdoc; by rewrite app_nil_r|]. doc_ok. apply (ok_warn _ H). Qed.
Lemma detail_sandbox m sb : mv_ok m -> mv_sb m = Some sb -> detail m det_sandbox [(cstr "sandbox", sandbox_json sb)].
Proof. intros H E. unfold detail, det_sandbox. rewrite E. split; [mdoc; by rewrite sandbox_print, app_nil_r|]. doc_ok. by apply sandbox_ok; apply (ok_sb _ H). Qed.
Lemma event_reads m ev d det : plainb (cstr ev) = true -> detail m d det ->
  reads_as ([123] ++ fld "event" (quote (cstr ev)) ++ d m ++ nfld "state" (quote (mv_state m)) ++ [125]) (ev_json ev det m).
Proof.
  intros Hp [E Hd]. replace (_ ++ _) with (json_print (ev_json ev det m)); [by apply print_reads, ev_ok|].
  unfold ev_json. mdoc. rewrite E, (quote_print (cstr ev)) by by apply plainb_plain. rewrite quote_print by auto with plain. by rewrite app_nil_r, <- ?app_assoc.
Qed.
Lemma shows_write w s e f : shows w s -> mv_ok (f (mw_m w)) -> env_ok e ->
  shows (mv_write (on w f) e) (mk_told (f (tl_view s)) (told_doc s (f (tl_view s)) e) (tl_events s)).
Proof.
  intros [Ev Ed El] H He. rewrite Ev in H. unfold mv_write, told_doc, on. constructor; destruct (me_fs_ok e); cbn [mw_m mw_file mw_lines tl_view tl_doc tl_events]; rewrite ?Ev; try done. constructor. exists (mv_doc (f (tl_view s)) e). split; [done|]. rewrite doc_print by apply (ok_err _ H). by apply print_reads, doc_json_ok.
Qed.
Lemma shows_event w s ev d det : shows w s -> plainb (cstr ev) = true -> detail (mw_m w) d det ->
  shows (mv_event w ev d) (mk_told (tl_view s) (tl_doc s) (tl_events s ++ [ev_json ev det (tl_view s)])).
Proof. intros [Ev Ed El] Hp Hd. constructor; [done|done|]. cbn. apply Forall2_app; [done|]. constructor; [|constructor]. rewrite <- Ev. by apply event_reads. Qed.
Lemma shows_line w s e f ev d det : shows w s -> mv_ok (f (mw_m w)) -> env_ok e -> plainb (cstr ev) = true -> detail (f (mw_m w)) d det ->
  shows (mv_event (mv_write (on w f) e) ev d) (mk_told (f (tl_view s)) (told_doc s (f (tl_view s)) e) (tl_events s ++ [ev_json ev det (f (tl_view s))])).
Proof. intros Hs H He Hp Hd. apply (shows_event _ (mk_told _ _ _)); [by apply shows_write|done|by rewrite write_m]. Qed.

(** *** Guests *)
Lemma guest_at l i p : NoDup (map mp_id l) -> l !! i = Some p -> guest (mp_id p) l = p.
Proof.
  intros Hn Hi. unfold guest. enough (E : head (filter (fun q => mp_id q = mp_id p) l) = Some p) by by rewrite E.
  revert i Hi. induction l as [|q l IH]; intros i Hi; [done|]. apply NoDup_cons in Hn as [Hq Hn]. destruct i as [|i]; [injection Hi as ->; by rewrite filter_cons_True|].
  rewrite filter_cons_False; [by eapply IH|]. intros E. apply Hq. rewrite E. apply list_elem_of_fmap. exists p. split; [done|by eapply list_elem_of_lookup_2].
Qed.
Lemma alter_told l i p f : NoDup (map mp_id l) -> l !! i = Some p -> alter f i l = map (fun q => if mp_id q =? mp_id p then f q else q) l.
Proof.
  intros Hn Hi. apply list_eq. intros j. rewrite list_lookup_alter, list_lookup_fmap. destruct (decide (i = j)) as [<-|Hj]; [rewrite Hi; cbn; by rewrite Z.eqb_refl|].
  destruct (l !! j) as [q|] eqn:Eq; [|done]. cbn. destruct (Z.eqb_spec (mp_id q) (mp_id p)) as [E|]; [|done]. exfalso. apply Hj. eapply (NoDup_lookup _ _ _ (mp_id p) Hn); rewrite list_lookup_fmap; [by rewrite Hi|by rewrite Eq, <- E].
Qed.
(** The slot of a guest is the guest. *)
Lemma slot_is_guest m id l i f : mv_ok m -> mv_peer_slot (mv_peers m) id = Some (l, i) ->
  placed id m = true /\ l !! i = Some (guest id (mv_peers m)) /\ alter f i l = told_of id f (mv_peers m).
Proof.
  intros H E. destruct (ok_peers _ H) as (_ & _ & Hn). apply guest_slot_spec in E as (p & Hp & Hid & [->|(-> & -> & Hl & Hf)]); unfold placed, told_of, known.
  - subst id. rewrite bool_decide_true by (apply list_elem_of_fmap; exists p; split; [done|by eapply list_elem_of_lookup_2]). split; [done|]. split; [by erewrite guest_at|by apply alter_told].
  - rewrite bool_decide_false by done. split; [apply orb_true_iff; right; by apply Nat.ltb_lt|]. assert (G : guest id (mv_peers m) = fresh_guest id).
    { unfold guest. destruct (filter _ _) as [|q r] eqn:Eq; [done|]. exfalso. assert (Hin : q ∈ filter (fun p => mp_id p = id) (mv_peers m)) by (rewrite Eq; left). apply list_elem_of_filter in Hin as [<- Hin]. apply Hf. by apply list_elem_of_fmap_2. }
    rewrite G. split; [exact Hp|]. rewrite (alter_told _ _ _ f) by (first [exact Hp|rewrite map_app; apply NoDup_app; split_and!; [done|cbn; set_solver|apply NoDup_singleton]]).
    rewrite map_app. cbn [map mp_id fresh_guest]. rewrite Z.eqb_refl. f_equal. rewrite <- (map_id (mv_peers m)) at 2. apply map_ext_in. intros q Hq. destruct (Z.eqb_spec (mp_id q) id) as [Eq|]; [|done]. exfalso. apply Hf. rewrite <- Eq. by apply list_elem_of_fmap_2, list_elem_of_In.
Qed.
Lemma no_slot m id : mv_peer_slot (mv_peers m) id = None -> placed id m = false.
Proof.
  unfold mv_peer_slot, placed, known. destruct (list_find _ _) as [[]|] eqn:E; [done|]. destruct (_ <? _)%nat; [done|]. intros _. rewrite bool_decide_false; [done|]. intros (p & -> & Hp)%list_elem_of_fmap. apply list_find_None in E. exact (proj1 (Forall_forall _ _) E p Hp eq_refl).
Qed.
Lemma told_shown w s e l i id f ev : shows w s -> mv_ok (mw_m w) -> mv_ok (mw_m (mv_peer_told w e l i f ev)) -> env_ok e -> (forall p, mp_id (f p) = mp_id p) -> plainb (cstr ev) = true ->
  mv_peer_slot (mv_peers (mw_m w)) id = Some (l, i) ->
  let m' := set mv_peers (told_of id f (mv_peers (tl_view s))) (tl_view s) in
  shows (mv_peer_told w e l i f ev) (mk_told m' (told_doc s m' e) (tl_events s ++ [ev_json ev [(cstr "peer", peer_json "peer_state" (guest id (mv_peers m')))] m'])).
Proof.
  intros Hs H H' He Hf Hp E m'. rewrite told_m in H'. pose proof (sh_view _ _ Hs) as Ev. assert (P : mp_id (guest id (mv_peers (mw_m w))) = id) by (pose proof E as (p & Hl & <- & _)%guest_slot_spec; destruct (slot_is_guest _ _ _ _ f H E) as (_ & G & _); rewrite Hl in G; by injection G as <-).
  destruct (slot_is_guest _ _ _ _ f H E) as (_ & Hi & Ha). unfold mv_peer_told. rewrite Ha in *. assert (Hi' : told_of id f (mv_peers (mw_m w)) !! i = Some (f (guest id (mv_peers (mw_m w))))) by (rewrite <- Ha, list_lookup_alter_eq, Hi; done).
  assert (G : guest id (mv_peers m') = f (guest id (mv_peers (mw_m w)))) by (rewrite <- P at 1; rewrite <- Hf; subst m'; rewrite <- Ev; eapply guest_at; [apply (ok_peers _ H')|exact Hi']).
  rewrite G. subst m'. pose proof (shows_line w s e (set mv_peers (told_of id f (mv_peers (mw_m w)))) ev (det_peer i) [(cstr "peer", peer_json "peer_state" (f (guest id (mv_peers (mw_m w)))))]) as X. rewrite <- Ev in X |- *. apply X; [done..|]. by apply detail_peer.
Qed.
Lemma mark_shown w s e id marked mark ev : shows w s -> mv_ok (mw_m w) -> mv_ok (mw_m (mv_peer_mark w e id marked mark ev)) -> env_ok e ->
  (forall p, mp_id (mark p) = mp_id p) -> marked (fresh_guest id) = false -> plainb (cstr ev) = true ->
  let m' := set mv_peers (told_of id mark (mv_peers (tl_view s))) (tl_view s) in
  shows (mv_peer_mark w e id marked mark ev)
    (if placed id (tl_view s) && negb (marked (guest id (mv_peers (tl_view s)))) then mk_told m' (told_doc s m' e) (tl_events s ++ [ev_json ev [(cstr "peer", peer_json "peer_state" (guest id (mv_peers m')))] m']) else s).
Proof.
  intros Hs H H' He Hid Hm Hp m'. unfold mv_peer_mark in *. pose proof (sh_view _ _ Hs) as Ev. destruct (mv_peer_slot _ id) as [[l i]|] eqn:E; [|rewrite <- Ev, no_slot by done; done].
  destruct (slot_is_guest _ _ _ _ mark H E) as (Hpl & Hi & _). rewrite <- Ev, Hpl, Hi in *. cbn [andb]. destruct (marked (guest id _)) eqn:Em; cbn [negb]; [|subst m'; rewrite <- Ev; pose proof (told_shown w s e l i id mark ev) as X; rewrite <- Ev in X; by apply X].
  apply guest_slot_spec in E as (p & Hl & _ & [->|(-> & -> & _)]); [|rewrite Hl in Hi; injection Hi as G; fold (fresh_guest id) in G; congruence]. destruct w as [[] ? ?]. exact Hs.
Qed.
Lemma act_shown w s o e : shows w s -> mv_ok (mw_m w) -> op_ok o -> env_ok e -> shows (mv_act w (o, e)) (tell s (o, e)).
Proof.
  intros Hs H Ho He. pose proof (act_ok w o e H Ho He) as H'. pose proof (sh_view _ _ Hs) as Ev. destruct o as [t|t|id st a|id|id|t| |b|x n|l i|t]; cbn [mv_act tell news] in *.
  - unfold mv_token in *. rewrite <- Ev at 1. destruct (bytes_eqb _ _); [done|]. cbn [mv_event mw_m] in H'. rewrite write_m in H'. cbn [on mw_m] in H'. rewrite Ev in H'. apply (shows_line w s e (set mv_token_rw (snprintf 256 t))); rewrite ?Ev; [done..|]. by apply detail_token.
  - unfold mv_token_ro in *. rewrite <- Ev at 1. destruct (bytes_eqb _ _); [done|]. cbn [mv_event mw_m] in H'. rewrite write_m in H'. cbn [on mw_m] in H'. rewrite Ev in H'. apply (shows_line w s e (set mv_token_r (snprintf 256 t))); rewrite ?Ev; [done..|]. by apply detail_token.
  - unfold mv_peer_cb in *. rewrite <- Ev at 1. destruct (mv_peer_slot _ id) as [[l i]|] eqn:E; [|by rewrite no_slot]. rewrite (proj1 (slot_is_guest _ _ _ _ peer_ro H E)). by apply (told_shown w s e l i id (peer_now st a)).
  - by apply (mark_shown w s e id mp_read_only peer_ro).
  - by apply (mark_shown w s e id mp_fwd_refused peer_fwd).
  - unfold mv_escalate in *. cbn [mv_event mw_m] in H'. rewrite write_m in H'. cbn [on mw_m] in H'. rewrite Ev in H'. apply (shows_line w s e (set mv_warn (snprintf 160 t))); rewrite ?Ev; [done..|]. by apply detail_warning.
  - unfold mv_escalate_clear in *. rewrite <- Ev at 1. destruct (filled _); [|done]. cbn [negb mv_event mw_m] in *. rewrite write_m in H'. by apply (shows_line w s e (set mv_warn [])).
  - unfold mv_mailbox, event_of in *. assert (En : mv_mb (tl_view s) = mv_mb (mw_m w)) by (by rewrite Ev). rewrite !En. assert (Hl : mv_ok (set mv_mb (Some b) (mw_m w))) by (clear H'; destruct H; by constructor).
    assert (L : shows (mv_event (mv_write (on w (set mv_mb (Some b))) e) "mailbox" det_mailbox) (let m' := set mv_mb (Some b) (tl_view s) in mk_told m' (told_doc s m' e) (tl_events s ++ [ev_json "mailbox" [(cstr "mailbox", mb_json b)] m']))) by (apply (shows_line w s e (set mv_mb (Some b))); [done..|by apply detail_mailbox]).
    destruct (mv_mb (mw_m w)) as [was|]; [|exact L]. destruct (decide (was = b)) as [->|Hb]; [by rewrite bool_decide_true|]. rewrite bool_decide_false by congruence. cbn [negb]. destruct (decide (mb_state was = mb_state b)) as [Eb|Eb].
    + rewrite bool_decide_true by (cbn; congruence). cbn [told_event]. rewrite app_nil_r. by apply (shows_write w s e (set mv_mb (Some b))).
    + rewrite bool_decide_false by (cbn; congruence). exact L.
  - unfold mview_limits in *. cbn [told_event event_of]. rewrite app_nil_r. rewrite write_m in H'. assert (E : (if 0 <? x then on (on (on w (set mv_max_clients n)) (set mv_expire_s x)) (set mv_expire_deadline (me_up e + 100 * x)) else on (on w (set mv_max_clients n)) (set mv_expire_s x)) = on w (view_after (MLimits x n) e)) by (unfold on, view_after; destruct (0 <? x); [done|]; destruct w as [[] ? ?]; done). rewrite E in *. by apply shows_write.
  - unfold mview_sandbox in *. cbn [mv_event mw_m] in H'. rewrite write_m in H'. apply (shows_line w s e (set mv_sb (Some (l, i)))); [done..|]. by apply detail_sandbox.
  - unfold mview_error in *. cbn [mv_event mw_m] in H'. rewrite write_m in H'. by apply (shows_line w s e (set mv_err (snprintf 32 t))).
Qed.
Definition mv_ops_ok (l : list (mv_op * mv_env)) : Prop := Forall (fun oe => op_ok oe.1 /\ env_ok oe.2) l.
Lemma run_shown l w s : mv_ops_ok l -> mv_ok (mw_m w) -> shows w s -> mv_ok (mw_m (mv_run w l)) /\ shows (mv_run w l) (told_run s l).
Proof.
  intros Hl. revert w s. induction Hl as [|[o e] l [Ho He] _ IH]; intros w s H S; [done|]. cbn [mv_run told_run fold_left]. apply IH; [by apply act_ok|by apply act_shown].
Qed.
Lemma create_ok id path sock : bytes_ok id -> bytes_ok sock -> mv_ok (mview_new id path sock).
Proof.
  intros Hi Hs. constructor; try (by apply nil_text; lia); [apply (snprintf_ok 64 id); [lia|done]|apply (snprintf_ok 512 sock); [lia|done]|split; [apply nil_text; lia|constructor]|..].
  - split_and!; [constructor|cbn; lia|constructor].
  - unfold is_i32. cbn. lia.
  - done.
  - unfold mailbox_ok, is_i32. cbn. unfold_words. lia.
Qed.
Definition fs_fine (l : list (mv_op * mv_env)) : Prop := Forall (fun oe => me_fs_ok oe.2 = true) l.

Lemma doc_fresh l s : fs_fine l -> (exists e, tl_doc s = Some (doc_json (tl_view s) e)) -> exists e, tl_doc (told_run s l) = Some (doc_json (tl_view (told_run s l)) e).
Proof.
  intros Hl. revert s. induction Hl as [|[o e] l Hf _ IH]; intros s Hs; [done|]. cbn [told_run fold_left tell]. apply IH. destruct (news _ o); [|done]. exists e. cbn [tl_doc tl_view] in *. unfold told_doc. cbn [snd] in Hf. by rewrite Hf.
Qed.
Lemma create_shown e id path sock : mv_ok (mview_new id path sock) -> env_ok e -> shows (mview_create e None id path sock) (told_first e id path sock).
Proof.
  intros H He. unfold mview_create, told_first. apply (shows_event _ (mk_told _ _ [])); [|done|by rewrite write_m].
  apply (shows_write (mk_mw (mview_new id path sock) None []) (mk_told (mview_new id path sock) None []) e (fun m => m)); [|done|done]. constructor; constructor.
Qed.

(** C36: the machine view of a headless host tells what it is told, as JSON. From its creation on, over
    any calls with any answers of the operating system, the event stream is the events the calls
    call for, in their order and no others: "started", then for each call that is news (a token
    that differs, a guest the table has or has room for, a mark not yet made, a mailbox in a new
    state, a warning, a warning there was to clear, the sandbox, an error) one line that reads as
    an object with that call's own event name, that call's own detail as it stands after it (the
    tokens, the very guest, the mailbox, the sandbox, the warning) and the state of the view then;
    and the state file reads as the document of the view at the last news whose write succeeded,
    so, when all writes do, of the view as it stands. The end adds "stopped" and takes the
    file away. Line and document are the text of those values byte for byte and a JSON reader
    gets the values back, whatever bytes the session's name, its socket, its tokens, a guest's
    address or a warning hold. An error is assumed to need no escaping (the only one the host passes
    is [no_tmux]), and the numbers to be of their C types. Bytes above 31 are
    strings to this reader whether or not they are UTF-8. The document has no mailbox in
    it, which INTEGRATION.md and the comment on [mv_mailbox] say it has: that is how the code is. *)
Theorem mview_reads e0 id path sock l
    (Hi : bytes_ok id) (Hs : bytes_ok sock) (He : env_ok e0) (Hl : mv_ops_ok l) :
  let w := mv_run (mview_create e0 None id path sock) l in
  let s := told_run (told_first e0 id path sock) l in
  mw_m w = tl_view s /\
  Forall2 reads_as (mw_lines w) (tl_events s) /\
  option_Forall2 file_as (mw_file w) (tl_doc s) /\
  (me_fs_ok e0 = true -> fs_fine l -> exists e, tl_doc s = Some (doc_json (mw_m w) e)) /\
  let w' := mview_destroy w in
  mw_file w' = None /\ Forall2 reads_as (mw_lines w') (tl_events s ++ [ev_json "stopped" [] (tl_view s)]).
Proof.
  intros w s. pose proof (create_ok id path sock Hi Hs) as H0. pose proof (create_shown e0 id path sock H0 He) as S0.
  destruct (fun H => run_shown l _ _ Hl H S0) as [_ S]; [by rewrite (sh_view _ _ S0)|]. fold w s in S. pose proof S as [Ev Ed El]. split; [done|]. split; [done|]. split; [done|]. split; [|split; [done|]].
  - intros F0 F. rewrite Ev. apply doc_fresh; [done|]. exists e0. cbn. by rewrite F0.
  - by apply (shows_event w s "stopped" det_none []), detail_none.
Qed.

(** ** What a run looks like *)
Definition env0 : mv_env := mk_mvenv 1234 482170 (cstr "4821.7") true.
Definition world0 : mworld := mview_create env0 None (cstr "a") (cstr "/run/a.json") (cstr "/run/a.sock").
Lemma env0_ok : env_ok env0.
Proof. unfold env_ok, is_i32. cbn. split_and!; try done; try lia. by repeat constructor. Qed.
(** A guest with an address that has to be escaped connects and is read-only, which is told twice
    and is news once; a warning comes; the mailbox moves to a new state and then only counts. *)
Definition odd_run : list (mv_op * mv_env) :=
  [(MPeer 1 SESSION_PEER_LIVE (Some odd_path), env0); (MPeerRo 1, env0); (MPeerRo 1, env0); (MEscalate odd_path, env0);
   (MMailbox mailbox_zero, env0); (MMailbox (mk_smail 0 0 0 0 0 1 1 0 0 false false 0 0), env0)].
Definition odd_events : list json :=
  let serving := (cstr "state", JStr (cstr "serving")) in
  let row g := [(cstr "id", JNum (cstr "1")); (cstr "peer_state", JStr (cstr "connected")); (cstr "grade", JStr (cstr g)); (cstr "addr", JStr odd_path)] in
  let event n det := JObj ((cstr "event", JStr (cstr n)) :: det ++ [serving]) in
  [JObj [(cstr "event", JStr (cstr "started")); (cstr "state", JStr (cstr "starting"))];
   event "peer" [(cstr "peer", JObj (row "rw"))]; event "peer" [(cstr "peer", JObj (row "ro"))];
   event "warning" [(cstr "warning", JStr odd_path)]; event "mailbox" [(cstr "mailbox", mb_json mailbox_zero)]].
Lemma file_shown o v : option_Forall2 file_as o (Some v) -> exists f, o = Some f /\ file_as f v.
Proof. intros H. inversion H. eauto. Qed.
Lemma odd_told : tl_events (told_run (told_first env0 (cstr "a") (cstr "/run/a.json") odd_path) odd_run) = odd_events.
Proof. by vm_compute. Qed.
Lemma odd_fine : mv_ops_ok odd_run /\ fs_fine odd_run /\ bytes_ok odd_path.
Proof. repeat constructor; try apply env0_ok; try (unfold is_i32; lia); try (unfold is_u8; lia); unfold_words; lia. Qed.
Lemma mview_reads_witness :
  let w := mv_run (mview_create env0 None (cstr "a") (cstr "/run/a.json") odd_path) odd_run in
  Forall2 reads_as (mw_lines w) odd_events /\ exists f, mw_file w = Some f /\ exists e, file_as f (doc_json (mw_m w) e).
Proof.
  destruct odd_fine as (Hl & Hf & Hp). pose proof (mview_reads env0 (cstr "a") (cstr "/run/a.json") odd_path odd_run (cstr_bytes _) Hp env0_ok Hl) as (_ & El & Ed & Ef & _).
  rewrite odd_told in El. cbv zeta. split; [exact El|]. destruct (Ef eq_refl Hf) as [e E]. rewrite E in Ed. destruct (file_shown _ _ Ed) as (f & Hw & Hd). exists f. split; [exact Hw|]. exists e. exact Hd.
Defined.
(** The document says nothing of the mailbox: the rewrite its counters ask for is of the same text. *)
Lemma document_without_mailbox m b e : mv_doc (set mv_mb b m) e = mv_doc m e.
Proof. done. Qed.

(** ** The table of guests is never cleared *)
Definition about (id : Z) (o : mv_op) : Prop := match o with MPeer i _ _ | MPeerRo i | MPeerFwd i => i = id | _ => False end.
Definition ids (w : mworld) : list Z := map mp_id (mv_peers (mw_m w)).
Lemma slot_full l id l' i : length l = MV_PEERS -> mv_peer_slot l id = Some (l', i) -> l' = l /\ id ∈ map mp_id l.
Proof.
  intros Hn E. apply guest_slot_spec in E as (p & Hp & <- & [->|(_ & _ & Hl & _)]); [|lia]. split; [done|]. apply list_elem_of_fmap. exists p. split; [done|]. by eapply list_elem_of_lookup_2.
Qed.
Lemma slot_none l id : length l = MV_PEERS -> id ∉ map mp_id l -> mv_peer_slot l id = None.
Proof. intros Hn Hid. destruct (mv_peer_slot l id) as [[l' i]|] eqn:E; [|done]. by apply slot_full in E as [_ ?]. Qed.
Lemma about_full w o e id : length (mv_peers (mw_m w)) = MV_PEERS -> id ∉ ids w -> about id o -> mv_act w (o, e) = w.
Proof.
  intros Hn Hid Ha. destruct o; try done; cbn in Ha; subst; cbn [mv_act]; unfold mv_peer_cb, mv_peer_ro, mv_peer_fwd_refused, mv_peer_mark; by rewrite slot_none.
Qed.
Lemma alter_ids f i l : (forall p, mp_id (f p) = mp_id p) -> map mp_id (alter f i l) = map mp_id l.
Proof.
  intros Hf. apply list_eq. intros j. rewrite !list_lookup_fmap, list_lookup_alter. destruct (decide _) as [->|]; [|done]. destruct (l !! j) as [p|]; [|done]. cbn. by rewrite Hf.
Qed.
Lemma mark_ids w e id marked mark ev : length (mv_peers (mw_m w)) = MV_PEERS -> (forall p, mp_id (mark p) = mp_id p) -> ids (mv_peer_mark w e id marked mark ev) = ids w.
Proof.
  intros Hn Hm. unfold mv_peer_mark, ids. destruct (mv_peer_slot _ id) as [[l i]|] eqn:E; [|done]. apply slot_full in E as [-> _]; [|done]. destruct (match _ !! i with Some p => _ | None => _ end); [done|]. rewrite told_m. by apply alter_ids.
Qed.
Lemma act_ids w oe : length (mv_peers (mw_m w)) = MV_PEERS -> ids (mv_act w oe) = ids w.
Proof.
  intros Hn. destruct oe as [[s|s|id st a|id|id|s| |b|x n|l i|s] e]; cbn [mv_act].
  - unfold mv_token. destruct (bytes_eqb _ _); [done|]. unfold ids. cbn [mv_event mw_m]. by rewrite write_m.
  - unfold mv_token_ro. destruct (bytes_eqb _ _); [done|]. unfold ids. cbn [mv_event mw_m]. by rewrite write_m.
  - unfold mv_peer_cb. destruct (mv_peer_slot _ id) as [[l i]|] eqn:E; [|done]. apply slot_full in E as [-> _]; [|done]. unfold ids. rewrite told_m. by apply alter_ids.
  - by apply mark_ids.
  - by apply mark_ids.
  - unfold ids, mv_escalate. cbn [mv_event mw_m]. by rewrite write_m.
  - unfold mv_escalate_clear. destruct (negb _); [done|]. unfold ids. cbn [mv_event mw_m]. by rewrite write_m.
  - unfold mv_mailbox. destruct (mv_mb (mw_m w)) as [was|]; repeat destruct (decide _); unfold ids; cbn [mv_event mw_m]; rewrite ?write_m; done.
  - unfold ids, mview_limits. destruct (0 <? x); by rewrite write_m.
  - unfold ids, mview_sandbox. cbn [mv_event mw_m]. by rewrite write_m.
  - unfold ids, mview_error. cbn [mv_event mw_m]. by rewrite write_m.
Qed.
Lemma run_ids l w : length (mv_peers (mw_m w)) = MV_PEERS -> ids (mv_run w l) = ids w.
Proof.
  revert w. induction l as [|oe l IH]; intros w Hn; [done|]. cbn [mv_run fold_left]. pose proof (act_ids w oe Hn) as E. etransitivity; [|exact E]. apply IH. apply (f_equal length) in E. unfold ids in E. rewrite !length_map in E. by rewrite E.
Qed.

(** A guest's slot is never given back: once eight guests have had one, the view is deaf to every
    other, for good.  Whatever the host goes on to tell it, a ninth guest who is seen, is served,
    is found to be read-only, is refused a tunnel or leaves changes neither the view, nor the state
    file, nor the event stream (mview.c:314). *)
Theorem ninth_guest_untold w l o e id
    (Hn : length (mv_peers (mw_m w)) = MV_PEERS) (Hid : id ∉ ids w) (Ha : about id o) :
  mv_act (mv_run w l) (o, e) = mv_run w l.
Proof.
  pose proof (run_ids l w Hn) as E. apply (about_full _ o e id); [|by rewrite E|done]. apply (f_equal length) in E. unfold ids in E. rewrite !length_map in E. by rewrite E.
Qed.
Definition come_and_go : list (mv_op * mv_env) := concat (map (fun i => [(MPeer i SESSION_PEER_LIVE None, env0); (MPeer i SESSION_PEER_GONE None, env0)]) [1; 2; 3; 4; 5; 6; 7; 8]).
Definition after_eight : mworld := mv_run world0 come_and_go.
(** Eight guests have come and gone; the ninth is being served. *)
Lemma ninth_guest_untold_witness :
  mv_act (mv_run after_eight []) (MPeer 9 SESSION_PEER_LIVE None, env0) = mv_run after_eight [] /\
  mv_state (mw_m after_eight) <> cstr "serving" /\ mv_here (mw_m after_eight) = [].
Proof.
  split; [|split; [by vm_compute|by vm_compute]]. apply (ninth_guest_untold after_eight [] _ env0 9); [by vm_compute| |done]. replace (ids after_eight) with [1; 2; 3; 4; 5; 6; 7; 8] by by vm_compute. set_solver.
Defined.
(** The first eight are told of. *)
Lemma eighth_guest_told : mv_state (mw_m (mv_run world0 (take 15 come_and_go))) = cstr "serving".
Proof. by vm_compute. Qed.
