(* ===== verification/ShowRun.v ===== *)
(** src/src/host.c and src/src/mview.c together: [comrade show --json] reads a headless host's state
    file into a buffer of 4096 bytes.  The document of a view fits in it, so what is shown is what
    the host wrote. *)
From S2P Require Import Prelude Net Base58 Bencode Token Obsemit ShowFmt MView.

(** ** How long the pieces are *)

(** The lengths of the literal names are numbers; the rest is arithmetic. *)
Ltac lens := repeat match goal with |- context [length (cstr ?k)] => let n := eval vm_compute in (length (cstr k)) in change (length (cstr k)) with n end; cbn [length]; lia.
Lemma len_fld k v : length (fld k v) = (3 + length (cstr k) + length v)%nat.
Proof. unfold fld, quote. rewrite length_app. cbn [length]. rewrite length_app. cbn [length]. lia. Qed.
Lemma len_nfld k v : length (nfld k v) = (4 + length (cstr k) + length v)%nat.
Proof. unfold nfld. cbn [length]. rewrite len_fld. lia. Qed.
Lemma len_quote s : length (quote s) = (2 + length s)%nat.
Proof. unfold quote. cbn [length]. rewrite length_app. cbn [length]. lia. Qed.
Lemma len_str s : plain s -> length (showfmt_json_str s) = (2 + length s)%nat.
Proof. intros H. by rewrite plain_str, len_quote. Qed.
Lemma len_dec_digits fuel n : (length (dec_digits fuel n) <= fuel)%nat.
Proof. revert n. induction fuel as [|f IH]; intros n; cbn [dec_digits]; [done|]. destruct (_ <? _); cbn [length]; [lia|]. rewrite length_app. specialize (IH (n / 10)). cbn. lia. Qed.
Lemma len_dec n : (length (dec n) <= 20)%nat.
Proof. apply len_dec_digits. Qed.
Lemma len_sdec n : (length (sdec n) <= 21)%nat.
Proof. unfold sdec. pose proof (len_dec n). pose proof (len_dec (- n)). destruct (_ <? _); cbn [length]; lia. Qed.
Lemma len_ntop4 a : (length (inet_ntop4 a) <= 83)%nat.
Proof.
  destruct a as [|b0 [|b1 [|b2 [|b3 [|]]]]]; cbn [inet_ntop4 length]; try lia. rewrite !length_app. cbn [length]. rewrite !length_app. cbn [length]. rewrite !length_app. cbn [length].
  pose proof (len_dec b0). pose proof (len_dec b1). pose proof (len_dec b2). pose proof (len_dec b3). lia.
Qed.
Lemma len_hex16 w : (length (hex16 w) <= 4)%nat.
Proof. unfold hex16. rewrite length_map, length_drop. cbn [length]. lia. Qed.
Lemma len_join ws : (length (join_words ws) <= 5 * length ws)%nat.
Proof.
  induction ws as [|w ws IH]; [done|]. pose proof (len_hex16 w). cbn [join_words length]. destruct ws as [|v ws]; [cbn [length]; lia|]. rewrite length_app. cbn [length] in *. lia.
Qed.
Lemma len_words a : (length a <= 16)%nat -> (length (words16 a) <= 8)%nat.
Proof.
  intros H. assert (X : (2 * length (words16 a) <= length a)%nat); [|lia]. clear H. revert a. fix IH 1. intros [|h [|l a]]; cbn [words16 length]; try lia. specialize (IH a). lia.
Qed.
Lemma len_ntop6 a : (length a <= 16)%nat -> (length (inet_ntop6 a) <= 90)%nat.
Proof.
  intros H. apply len_words in H. unfold inet_ntop6. destruct (best_run 0 (words16 a) (O, O)) as [base len]. pose proof (len_ntop4 (drop 12 a)).
  destruct (len <? 2)%nat; [pose proof (len_join (words16 a)); lia|]. destruct (_ && _)%nat; rewrite !length_app; cbn [length]; [lia|].
  pose proof (len_join (take base (words16 a))) as J1. pose proof (len_join (drop (base + len) (words16 a))) as J2. rewrite length_take in J1. rewrite length_drop in J2. lia.
Qed.
Lemma len_reach_fam t family : token_wf t -> (length (json_reach_fam t family) <= 180)%nat.
Proof.
  intros (_ & _ & _ & _ & _ & _ & _ & _ & L6 & _ & _ & L4 & _). unfold json_reach_fam. rewrite !length_app, !len_fld, len_quote.
  assert (I : (length (reach_ip t family) <= 90)%nat) by (unfold reach_ip; pose proof (len_ntop4 (ep4_addr t)); destruct (_ =? _); [apply len_ntop6; rewrite L6; vm_compute; lia|lia]).
  assert (N : (length (reach_name (token_family_state t family)) <= 7)%nat) by (destruct (token_family_state t family); cbn; lia). assert (K : (length (reach_kind (token_family_state t family)) <= 10)%nat) by (destruct (token_family_state t family); cbn; lia).
  pose proof (len_dec (reach_port t family)) as P. destruct (fam_ready _); [rewrite !length_app, !len_nfld, !len_quote|]; lens.
Qed.
Lemma len_if (b : bool) (l : bytes) n : (length l <= n)%nat -> (length (if b then l else []) <= n)%nat.
Proof. intros H. destruct b; cbn; lia. Qed.
Lemma len_reach tok : (length (match decoded tok with Some t => nfld "reach" (showfmt_json_reach t) | None => [] end) <= 400)%nat.
Proof.
  destruct (decoded tok) as [t|] eqn:E; [|cbn; lia]. apply decoded_wf in E. pose proof (len_reach_fam t 4 E). pose proof (len_reach_fam t 6 E). unfold showfmt_json_reach. rewrite len_nfld, !length_app, len_fld, len_nfld. lens.
Qed.
Lemma len_concat l n : Forall (fun a : bytes => (length a <= n)%nat) l -> (length (concat l) <= length l * n)%nat.
Proof. induction 1 as [|a l Ha _ IH]; [done|]. cbn [concat length]. rewrite length_app. lia. Qed.
Lemma len_listed l n : Forall (fun a : bytes => (length a <= n)%nat) l -> (length (listed l) <= length l * S n)%nat.
Proof.
  intros H. rewrite listed_commas. destruct H as [|a l Ha Hl]; [done|]. rewrite commas_more, length_app. pose proof (len_concat (map (fun a => 44 :: a) l) (S n)) as C. rewrite length_map in C. cbn [length].
  rewrite Nat.mul_succ_l, Nat.add_comm. apply Nat.add_le_mono; [|lia]. apply C, Forall_map. eapply Forall_impl; [exact Hl|]. cbn [length]. lia.
Qed.
Lemma len_layer b : (b < 31)%nat -> (length (sb_layer b) <= 10)%nat.
Proof. intros H. do 31 (destruct b as [|b]; [vm_compute; lia|]). lia. Qed.
Lemma len_bits l : (length (sb_bits l) <= 31)%nat.
Proof. unfold sb_bits. pose proof (length_filter (fun bit => Z.testbit l (Z.of_nat bit) = true) (seq 0 31)) as H. rewrite length_seq in H. exact H. Qed.
Lemma len_sandbox sb : (length (mv_sandbox sb) <= 520)%nat.
Proof.
  unfold mv_sandbox. rewrite len_nfld, !length_app, len_fld, len_nfld, !length_app. pose proof (len_sdec sb.1). pose proof (len_sdec sb.2) as S2. pose proof (len_bits sb.1) as B.
  assert (I : (length (if truth sb.2 then nfld "filter_insns" (sdec sb.2) else []) <= 40)%nat) by (apply len_if; rewrite len_nfld; lens).
  assert (L : (length (listed (map (fun b => quote (sb_layer b)) (sb_bits sb.1))) <= length (map (fun b => quote (sb_layer b)) (sb_bits sb.1)) * 13)%nat).
  { apply len_listed, Forall_map, Forall_forall. intros b Hb. rewrite len_quote. apply sb_bits_lt, len_layer in Hb. lia. }
  rewrite length_map in L. lens.
Qed.
Definition peer_plain (p : mv_peer) : Prop := plain (mp_addr p).
(** No text of the view needs an escape. *)
Definition mv_plain (m : mview) : Prop :=
  plain (mv_id m) /\ plain (mv_tmux_sock m) /\ plain (mv_token_rw m) /\ plain (mv_token_r m) /\ plain (mv_warn m) /\ Forall peer_plain (mv_peers m).
Lemma len_peer p : mv_peer_ok p -> peer_plain p -> (length (mv_peer_row "state" p) <= 175)%nat.
Proof.
  intros (_ & _ & La) Hp. unfold mv_peer_row. rewrite !length_app, len_fld, !len_nfld, !len_quote. pose proof (len_sdec (mp_id p)).
  assert (S : (length (mv_peer_state (mp_state p)) <= 9)%nat) by (unfold mv_peer_state; repeat case_match; vm_compute; lia). assert (G : length (grade p) = 2%nat) by (unfold grade; by case_match).
  assert (A : (length (if addr_shown p then nfld "addr" (showfmt_json_str (mp_addr p)) else []) <= 89)%nat) by (apply len_if; rewrite len_nfld, len_str by done; lens).
  assert (F : (length (if mp_fwd_refused p then nfld "forward_refused" (cstr "true") else []) <= 23)%nat) by (apply len_if; vm_compute; lia). lens.
Qed.
Lemma len_here m : mv_ok m -> Forall peer_plain (mv_peers m) -> (length (listed (map (mv_peer_row "state") (mv_here m))) <= 8 * 176)%nat.
Proof.
  intros H Hp. assert (N : (length (mv_here m) <= 8)%nat) by (destruct (ok_peers _ H) as (_ & Hn & _); unfold mv_here, MV_PEERS in *; pose proof (length_filter (fun p => mp_state p <> SESSION_PEER_GONE) (mv_peers m)); lia).
  assert (L : (length (listed (map (mv_peer_row "state") (mv_here m))) <= length (map (mv_peer_row "state") (mv_here m)) * 176)%nat); [|rewrite length_map in L; lia].
  apply len_listed, Forall_map, Forall_forall. intros p Hin. apply len_peer; [exact (proj1 (Forall_forall _ _) (here_ok m H) p Hin)|]. apply list_elem_of_filter in Hin as [_ Hin]. exact (proj1 (Forall_forall _ _) Hp p Hin).
Qed.
Lemma len_opt_str k s n : plain s -> (length s <= n)%nat -> (length (if filled s then nfld k (showfmt_json_str s) else []) <= 6 + length (cstr k) + n)%nat.
Proof. intros H Hn. apply len_if. rewrite len_nfld, len_str by done. lia. Qed.
Lemma len_state m : (length (mv_state m) <= 10)%nat.
Proof. unfold mv_state. repeat case_match; vm_compute; lia. Qed.
Lemma len_expire m e : (length (if truth (mv_expire_s m) then nfld "expire_s" (sdec (mv_expire_s m)) ++ nfld "expires_in_s" (dec (mv_rem m e)) else []) <= 70)%nat.
Proof. apply len_if. rewrite length_app, !len_nfld. pose proof (len_sdec (mv_expire_s m)). pose proof (len_dec (mv_rem m e)). lens. Qed.
Lemma len_max m : (length (if truth (mv_max_clients m) then nfld "max_clients" (sdec (mv_max_clients m)) else []) <= 36)%nat.
Proof. apply len_if. rewrite len_nfld. pose proof (len_sdec (mv_max_clients m)). lens. Qed.
Lemma len_sb m : (length (match mv_sb m with Some sb => mv_sandbox sb | None => [] end) <= 520)%nat.
Proof. destruct (mv_sb m); [apply len_sandbox|cbn; lia]. Qed.
Lemma len_err m : mv_ok m -> (length (if filled (mv_err m) then nfld "error" (quote (mv_err m)) else []) <= 42)%nat.
Proof. intros H. destruct (ok_err _ H) as [[_ L] _]. apply len_if. rewrite len_nfld, len_quote. lens. Qed.
Lemma doc_fits m e : mv_ok m -> mv_plain m -> env_ok e -> (length (mv_doc m e) < STATE_BUF)%nat.
Proof.
  intros H (P1 & P2 & P3 & P4 & P5 & P6) He. destruct (ok_id _ H) as [_ L1]. destruct (ok_sock _ H) as [_ L2]. destruct (ok_tok _ H) as [_ L3]. destruct (ok_tok_ro _ H) as [_ L4]. destruct (ok_warn _ H) as [_ L5]. destruct He as (_ & _ & _ & _ & Lu).
  pose proof (len_sdec (me_pid e)). pose proof (len_state m). pose proof (len_expire m e). pose proof (len_max m). pose proof (len_sb m). pose proof (len_err m H). pose proof (len_here m H P6).
  pose proof (len_opt_str "token" _ 255 P3 ltac:(lia)) as T1. pose proof (len_opt_str "token_ro" _ 255 P4 ltac:(lia)) as T2. pose proof (len_opt_str "warning" _ 159 P5 ltac:(lia)) as T3. pose proof (len_if (filled (mv_token_rw m)) _ _ (len_reach (mv_token_rw m))) as T4.
  unfold mv_doc. rewrite !length_app, !len_nfld, len_quote, !length_app, !len_fld, !len_nfld, !len_quote, !len_str by done. revert T1 T2 T3. change STATE_BUF with 4096%nat.
  repeat match goal with |- context [length (cstr ?k)] => let n := eval vm_compute in (length (cstr k)) in change (length (cstr k)) with n end. cbn [length]. lia.
Qed.

(** ** What is read back *)
Lemma rstrip_nl l : rstrip (l ++ [125; 10]) = l ++ [125].
Proof. induction l as [|c l IH]; [done|]. cbn [app rstrip]. rewrite IH. by destruct l. Qed.
Lemma rstrip_brace l : rstrip (l ++ [125]) = l ++ [125].
Proof. induction l as [|c l IH]; [done|]. cbn [app rstrip]. rewrite IH. by destruct l. Qed.
Lemma statejson_whole l n : (length l + 1 < n)%nat -> read_statejson (Some (l ++ [125; 10])) n = Some (l ++ [125]).
Proof.
  intros H. unfold read_statejson. destruct (decide (length l + 2 < n)%nat) as [Hn|Hn].
  - rewrite take_ge by (rewrite length_app; cbn; lia). rewrite rstrip_nl. by destruct l.
  - change [125; 10] with ([125] ++ [10]). rewrite app_assoc, take_app_length' by (rewrite length_app; cbn; lia). rewrite rstrip_brace. by destruct l.
Qed.
Lemma print_ends v l : v = JObj l -> exists t, json_print v = t ++ [125].
Proof. intros ->. cbn [json_print]. eexists. by rewrite app_assoc. Qed.
Lemma state_file_back m e : mv_ok m -> mv_plain m -> env_ok e -> read_statejson (Some (mv_doc m e ++ [10])) STATE_BUF = Some (mv_doc m e).
Proof.
  intros H Hp He. pose proof (doc_fits m e H Hp He) as L. rewrite doc_print in * by apply (ok_err _ H). destruct (print_ends (doc_json m e) _ eq_refl) as [t E]. rewrite E, <- app_assoc in *. rewrite length_app in L. cbn [length app] in *. apply statejson_whole. lia.
Qed.

(** A live headless session: its token file can be read, and its state file is the document of
    its view [me.1], written at [me.2]. *)
Record headless (h : host_files) (me : mview * mv_env) : Prop := mk_headless {
  hl_live : hf_live h = true; hl_tok : is_Some (read_tokens (hf_tok h) TOK_BUF TOK_BUF);
  hl_json : hf_json h = Some (mv_doc me.1 me.2 ++ [10]);
  hl_ok : mv_ok me.1; hl_plain : mv_plain me.1; hl_env : env_ok me.2 }.
Definition file_json (me : mview * mv_env) : json := doc_json me.1 me.2.
Lemma headless_shown h me : headless h me -> exists s, host_shown h = Some s /\ shown_is s (file_json me).
Proof.
  intros []. unfold host_shown. rewrite hl_live0. cbn [negb]. destruct hl_tok0 as [[tok ro] ->]. eexists. split; [done|]. unfold shown_is. cbn [sh_state]. rewrite hl_json0, state_file_back by done.
  split; [apply doc_print; apply (ok_err _ hl_ok0)|by apply doc_json_ok].
Qed.

(** C37: [comrade show --json] shows headless sessions' own documents, whole: as long as no text in them
    needs an escape, each fits the 4096 bytes of the reader's buffer whatever the number of guests,
    the addresses, the tokens and the layers, and the output reads back as the list of the
    documents the hosts wrote. *)
Theorem headless_shown_whole hs mes (H : Forall2 headless hs mes) :
  exists n, match host_show SHOWFMT_JSON hs with (out, code, _) => json_read n out = Some (show_json (map file_json mes), [10]) /\ code = 0 end.
Proof.
  assert (X : Forall2 shown_is (omap host_shown hs) (map file_json mes)).
  { induction H as [|h me hs mes Hh _ IH]; [constructor|]. destruct (headless_shown h me Hh) as (s & E & Hs). cbn [omap list_omap]. rewrite E. cbn [map]. by constructor. }
  destruct (show_json_reads _ _ X) as [n Hn]. exists n. unfold host_show. destruct (show_run SHOWFMT_JSON _) as [[out code] err]. by destruct Hn as (? & ? & _).
Qed.
Definition files0 : host_files := mk_files (cstr "a") true (cstr "/run/a.sock") (Some (cstr "112F")) (mw_file world0).
Lemma headless_shown_whole_witness :
  exists n, match host_show SHOWFMT_JSON [files0] with (out, code, _) => json_read n out = Some (show_json [file_json (mw_m world0, env0)], [10]) /\ code = 0 end.
Proof.
  apply (headless_shown_whole [files0] [(mw_m world0, env0)]). constructor; [|constructor]. constructor; [reflexivity|by eexists|reflexivity| | |exact env0_ok].
  - exact (create_ok (cstr "a") (cstr "/run/a.json") (cstr "/run/a.sock") (cstr_bytes _) (cstr_bytes _)).
  - by repeat split; repeat constructor.
Defined.
