(* ===== verification/HostTok.v ===== *)
(** src/src/host.c: the invitation as the service writes it and as [comrade show] reads it.  Whether the
    temporary file could be made, was written whole and moved into place is what the operating system
    says; the two calls on the foreground view are the list returned. *)
From S2P Require Import Prelude Net Base58 Bencode Crypto Token Keys ShowFmt.

Definition TOKEN_FLAG_RO : Z := 1.
(** [struct svc]: the token, the last one that reached the file, and the file. *)
Record svc := mk_svc { sv_tok : token; sv_last_tok : bytes; sv_file : option bytes }.
Inductive svc_out := SvcToken (s : bytes) | SvcTokenRo (s : bytes).
Definition encode_buf (t : token) : option bytes := token_encode t (TOKEN_STR_LEN + 1).

Section HostTok.
Context {C : Crypto}.
(** [ro = v->tok; ro.flags |= TOKEN_FLAG_RO; keys_derive_ro_auth(ro.auth, v->tok.auth)] *)
Definition ro_twin (t : token) : token :=
  mk_token (version t) (flags t .| TOKEN_FLAG_RO) (rdv t) (keys_derive_ro_auth (auth t)) (hostpub t) (ep6_addr t) (ep6_port t) (ep4_addr t) (ep4_port t).
Definition svc_emit_token (v : svc) (wrote : bool) : svc * list svc_out :=
  match encode_buf (sv_tok v) with
  | None => (v, [])
  | Some s =>
      if bytes_eqb s (sv_last_tok v) then (v, [])
      else match encode_buf (ro_twin (sv_tok v)) with
           | None => (v, [])
           | Some r => (if wrote then mk_svc (sv_tok v) s (Some (s ++ [10] ++ r ++ [10])) else v, [SvcToken s; SvcTokenRo r])
           end
  end.
Definition on_token_state (v : svc) (wrote : bool) (family : Z) (state : token_state) (addr : bytes) (port : Z) : svc * list svc_out :=
  svc_emit_token (mk_svc (token_set_family (sv_tok v) family state addr port) (sv_last_tok v) (sv_file v)) wrote.
(** A family's change as the session reports it, and what became of the file. *)
Definition tok_change : Type := bool * (Z * token_state * bytes * Z).
Definition svc_step (v : svc) (c : tok_change) : svc := let '(wrote, (family, st, addr, port)) := c in (on_token_state v wrote family st addr port).1.
Definition svc_run (v : svc) (l : list tok_change) : svc := fold_left svc_step l v.
Definition change_ok (c : tok_change) : Prop := let '(_, (family, _, addr, port)) := c in (family = 4 \/ family = 6) /\ (fam_len family <= length addr)%nat /\ bytes_ok addr /\ is_u16 port.

(** ** The token keeps its widths *)
Context `{!CryptoLaws C}.
Lemma put_slot_wf t family a p : token_wf t -> length a = fam_len family -> bytes_ok a -> is_u16 p -> token_wf (put_slot t family a p).
Proof. intros H L B P. unfold token_wf, fam_len in *. destruct_and! H. unfold put_slot. destruct (family =? 6); cbn; split_and!; done. Qed.
Lemma flags_wf t f : token_wf t -> is_u8 f -> token_wf (t <| flags := f |>).
Proof. intros H L. unfold token_wf in *. destruct_and! H. cbn. split_and!; done. Qed.
Lemma u8_lor a b : is_u8 a -> is_u8 b -> is_u8 (a .| b).
Proof. intros A B. apply (lor_bound 8); try lia; done. Qed.
Lemma u8_land a b : is_u8 a -> is_u8 b -> is_u8 (a .& b).
Proof.
  intros [A1 A2] [B1 B2]. assert (N : 0 <= a .& b) by (apply Z.land_nonneg; by left). split; [done|]. destruct (Z.eq_dec (a .& b) 0) as [->|E]; [lia|]. apply Z.log2_lt_pow2; [lia|].
  pose proof (Z.log2_land a b A1 B1) as L. destruct (Z.eq_dec a 0) as [->|Ea]; [by rewrite Z.land_0_l in E|]. apply Z.log2_lt_pow2 in A2; lia.
Qed.
Lemma set_family_wf t family st addr port : token_wf t -> (family = 4 \/ family = 6) -> (fam_len family <= length addr)%nat -> bytes_ok addr -> is_u16 port -> token_wf (token_set_family t family st addr port).
Proof.
  intros H Hf La Ba Pp. assert (F : is_u8 (flags t)) by apply H. unfold token_set_family.
  assert (K : is_u8 (fam_rdv family) /\ is_u8 (fam_settled family)) by (destruct Hf as [->| ->]; vm_compute; split; split; congruence). destruct K as [K1 K2].
  destruct st; apply flags_wf; repeat first [apply u8_lor|apply u8_land]; try done; try apply u8_range; apply put_slot_wf; try done.
  all: first [rewrite length_take; lia|by apply Forall_take|by rewrite length_replicate|apply Forall_replicate; unfold is_u8; lia|unfold is_u16; lia].
Qed.
Lemma twin_wf t : token_wf t -> token_wf (ro_twin t).
Proof.
  intros H. unfold token_wf in *. destruct_and! H. cbn. split_and!; try done.
  - apply u8_lor; [done|]. unfold TOKEN_FLAG_RO, is_u8. lia.
  - unfold keys_derive_ro_auth. rewrite length_take, blake2b_length. vm_compute. done.
  - apply Forall_take, blake2b_ok.
Qed.

(** ** The file and its reader *)
Lemma encode_buf_spec t : token_wf t -> version t = TOKEN_VERSION -> exists s, encode_buf t = Some s /\ length s = TOKEN_STR_LEN /\ token_decode s = TOKEN_OK t.
Proof. intros H Hv. destruct (token_roundtrip t (TOKEN_STR_LEN + 1) H ltac:(lia)) as (s & E & L & D). exists s. by rewrite Hv, Z.eqb_refl in D. Qed.
Lemma b58_no_newline s ds : b58_digits s = Some ds -> ~ In 10 s.
Proof. revert ds. induction s as [|c s IH]; intros ds; [by intros _ []|]. cbn [b58_digits]. destruct (b58_value c) as [v|] eqn:E; [|done]. destruct (b58_digits s) as [ds'|]; [|done]. intros _ [->|H]; [done|]. by eapply IH. Qed.
Lemma decode_no_newline s t : token_decode s = TOKEN_OK t -> ~ In 10 s.
Proof.
  unfold token_decode. destruct (negb _); [done|]. destruct (base58_decode s TOKEN_WIRE_LEN) as [w|] eqn:E; [|done]. intros _. unfold base58_decode in E. destruct (_ <? _)%nat; [done|]. destruct (b58_digits s) as [ds|] eqn:Ed; [|done]. by eapply b58_no_newline.
Qed.
Lemma fgets_line s rest n : ~ In 10 s -> (length s + 1 < n)%nat -> fgets n (s ++ 10 :: rest) = (s ++ [10], rest).
Proof.
  revert n. induction s as [|c s IH]; intros [|[|n]] Hs Hn; cbn [length] in Hn; try lia; [done|]. change ((if c =? 10 then ([c], s ++ 10 :: rest) else let '(l, r) := fgets (S n) (s ++ 10 :: rest) in (c :: l, r)) = ((c :: s) ++ [10], rest)). destruct (Z.eqb_spec c 10) as [->|]; [by destruct Hs; left|]. rewrite IH; [done| |lia]. intros H. apply Hs. by right.
Qed.
Lemma chop_line s : ~ In 10 s -> chop (s ++ [10]) = s.
Proof. induction s as [|c s IH]; intros H; [done|]. cbn [app chop]. destruct (Z.eqb_spec c 10) as [->|]; [by destruct H; left|]. rewrite IH; [done|]. intros X. apply H. by right. Qed.
Lemma read_tokens_back s r : ~ In 10 s -> ~ In 10 r -> length s = TOKEN_STR_LEN -> length r = TOKEN_STR_LEN -> read_tokens (Some (s ++ [10] ++ r ++ [10])) TOK_BUF TOK_BUF = Some (s, r).
Proof.
  intros Hs Hr Ls Lr. unfold read_tokens. cbn [app]. rewrite fgets_line by (try done; unfold TOK_BUF; lia). rewrite fgets_line by (try done; unfold TOK_BUF; lia). rewrite !chop_line by done. destruct s; [|done]. by vm_compute in Ls.
Qed.
(** The file holds the invitation of [t]. *)
Definition holds (v : svc) (t : token) : Prop := exists s r, encode_buf t = Some s /\ encode_buf (ro_twin t) = Some r /\ sv_last_tok v = s /\ sv_file v = Some (s ++ [10] ++ r ++ [10]).
Record svc_ok (v : svc) : Prop := mk_svc_ok {
  so_wf : token_wf (sv_tok v); so_ver : version (sv_tok v) = TOKEN_VERSION;
  so_file : (sv_last_tok v = [] /\ sv_file v = None) \/ exists t, token_wf t /\ version t = TOKEN_VERSION /\ holds v t }.
Lemma encode_inj t t' s : token_wf t -> version t = TOKEN_VERSION -> token_wf t' -> version t' = TOKEN_VERSION -> encode_buf t = Some s -> encode_buf t' = Some s -> t = t'.
Proof. intros H V H' V' E E'. destruct (encode_buf_spec t H V) as (a & A & _ & D). destruct (encode_buf_spec t' H' V') as (b & B & _ & D'). congruence. Qed.
Lemma emit_ok v wrote : svc_ok v -> svc_ok (svc_emit_token v wrote).1 /\ sv_tok (svc_emit_token v wrote).1 = sv_tok v /\ (wrote = true -> holds (svc_emit_token v wrote).1 (sv_tok v)).
Proof.
  intros [W V F]. destruct (encode_buf_spec _ W V) as (s & E & L & _). destruct (encode_buf_spec (ro_twin (sv_tok v)) (twin_wf _ W) V) as (r & E' & _). unfold svc_emit_token. rewrite E, E'.
  unfold bytes_eqb. destruct (bool_decide_reflect (s = sv_last_tok v)) as [Hs|Hs].
  - cbn [fst]. split; [done|]. split; [done|]. intros _. destruct F as [[F _]|(t & Wt & Vt & (s' & r' & T1 & T2 & T3 & T4))]; [exfalso; rewrite F in Hs; subst s; by vm_compute in L|].
    assert (sv_tok v = t) as -> by (eapply encode_inj; [done..|exact E|congruence]). exists s', r'. done.
  - destruct wrote; cbn [fst sv_tok]; [|by split; [constructor|]]. assert (Hh : holds (mk_svc (sv_tok v) s (Some (s ++ [10] ++ r ++ [10]))) (sv_tok v)) by (exists s, r; done). split; [|done]. constructor; [done..|]. right. by exists (sv_tok v).
Qed.
Lemma set_family_version t family st addr port : version (token_set_family t family st addr port) = version t.
Proof. unfold token_set_family, put_slot. by destruct st, (family =? 6). Qed.
Lemma svc_step_ok v c : svc_ok v -> change_ok c -> svc_ok (svc_step v c) /\ (c.1 = true -> holds (svc_step v c) (sv_tok (svc_step v c))).
Proof.
  destruct c as [wrote [[[family st] addr] port]]. intros H (Hf & La & Ba & Hp). unfold svc_step, on_token_state. set (v' := mk_svc _ _ _).
  assert (H' : svc_ok v') by (destruct H; constructor; [by apply set_family_wf|unfold v'; cbn [sv_tok]; by rewrite set_family_version|done]). destruct (emit_ok v' wrote H') as (E1 & E2 & E3). split; [done|]. cbn [fst]. intros Hw. rewrite E2. by apply E3.
Qed.
Lemma changes_ok v l : svc_ok v -> Forall change_ok l -> svc_ok (svc_run v l).
Proof. intros H Hl. revert v H. induction Hl as [|c l Hc _ IH]; intros v H; [done|]. cbn [svc_run fold_left]. apply IH. by apply svc_step_ok. Qed.
Lemma holds_reads v t : token_wf t -> version t = TOKEN_VERSION -> holds v t -> exists s r, read_tokens (sv_file v) TOK_BUF TOK_BUF = Some (s, r) /\ length s = TOKEN_STR_LEN /\ length r = TOKEN_STR_LEN /\ token_decode s = TOKEN_OK t /\ token_decode r = TOKEN_OK (ro_twin t).
Proof.
  intros W V (s & r & E & E' & _ & F). destruct (encode_buf_spec t W V) as (a & A & La & Da). destruct (encode_buf_spec (ro_twin t) (twin_wf _ W) V) as (b & B & Lb & Db). assert (a = s) as -> by congruence. assert (b = r) as -> by congruence.
  exists s, r. rewrite F. split; [|done]. apply read_tokens_back; [by eapply decode_no_newline|by eapply decode_no_newline|done..].
Qed.
(** The session as [comrade show] finds it. *)
Definition svc_files (v : svc) (id sock : bytes) (json : option bytes) : host_files := mk_files id true sock (sv_file v) json.
Lemma bare_tokens what v id sock json s r : bare what -> read_tokens (sv_file v) TOK_BUF TOK_BUF = Some (s, r) -> length s = TOKEN_STR_LEN -> length r = TOKEN_STR_LEN ->
  host_show what [svc_files v id sock json] = ((match what with SHOWFMT_TOKEN_RO => r | _ => s end) ++ [10], 0, ShowNone).
Proof.
  intros Hb E Ls Lr. assert (Eh : host_shown (svc_files v id sock json) = Some (mk_shown id sock s r (read_statejson json STATE_BUF))) by (unfold host_shown, svc_files; cbn [hf_live hf_tok negb]; by rewrite E).
  unfold host_show. cbn [omap list_omap]. rewrite Eh, show_token_one by done. cbn [sh_tok sh_tok_ro].
  assert (X : forall t, length t = TOKEN_STR_LEN -> snprintf 256 t = t /\ bytes_eqb t [] = false) by (intros t Ht; split; [unfold snprintf; apply take_ge; rewrite Ht; vm_compute; lia|by destruct t; [vm_compute in Ht|]]).
  destruct (X s Ls) as [S1 S2]. destruct (X r Lr) as [R1 R2]. destruct Hb as [->| ->]; cbv zeta iota; [by rewrite S1, S2|by rewrite R1, R2].
Qed.

(** C35: the invitation a host hands out is the one [comrade show] prints.  Whatever the families went
    through and however many writes of the token file failed, once a change has been written
    [show --token] prints one line that decodes to the very token the service holds, and
    [show --token-ro] one that decodes to its read-only twin: the same rendezvous and host key, the
    read-only flag set, and the credential derived from the full one. *)
Theorem invitation_shown v l c id sock json
    (Hv : svc_ok v) (Hl : Forall change_ok l) (Hc : change_ok c) (Hw : c.1 = true) :
  let v' := svc_run v (l ++ [c]) in
  exists s r,
    host_show SHOWFMT_TOKEN [svc_files v' id sock json] = (s ++ [10], 0, ShowNone) /\ token_decode s = TOKEN_OK (sv_tok v') /\
    host_show SHOWFMT_TOKEN_RO [svc_files v' id sock json] = (r ++ [10], 0, ShowNone) /\ token_decode r = TOKEN_OK (ro_twin (sv_tok v')).
Proof.
  intros v'. assert (E : v' = svc_step (svc_run v l) c) by (unfold v', svc_run; by rewrite fold_left_app). destruct (svc_step_ok (svc_run v l) c (changes_ok v l Hv Hl) Hc) as [H Hh]. rewrite <- E in *. specialize (Hh Hw).
  destruct (holds_reads v' (sv_tok v') (so_wf _ H) (so_ver _ H) Hh) as (s & r & R & Ls & Lr & Ds & Dr). exists s, r.
  split_and!; [|done| |done]; [apply (bare_tokens SHOWFMT_TOKEN v' id sock json s r)|apply (bare_tokens SHOWFMT_TOKEN_RO v' id sock json s r)]; try done; [by left|by right].
Qed.
End HostTok.

Definition svc0 : svc := mk_svc sample_token [] None.
Definition lost_change : tok_change := (false, (6, TOKEN_STATE_NONE, replicate 16 0, 0)).
Definition kept_change : tok_change := (true, (4, TOKEN_STATE_DIRECT, [198; 51; 100; 7], 41641)).
(** The first change is lost to a full disk, the second reaches the file. *)
Lemma invitation_shown_witness :
  let v' := @svc_run toy_crypto svc0 ([lost_change] ++ [kept_change]) in
  exists s r,
    host_show SHOWFMT_TOKEN [svc_files v' (cstr "a") (cstr "/s") None] = (s ++ [10], 0, ShowNone) /\ token_decode s = TOKEN_OK (sv_tok v') /\
    host_show SHOWFMT_TOKEN_RO [svc_files v' (cstr "a") (cstr "/s") None] = (r ++ [10], 0, ShowNone) /\ token_decode r = TOKEN_OK (@ro_twin toy_crypto (sv_tok v')).
Proof.
  apply (@invitation_shown toy_crypto toy_crypto_laws svc0 [lost_change] kept_change); [| | |reflexivity].
  - constructor; [|reflexivity|left; split; reflexivity]. unfold token_wf, bytes_ok; simpl; unfold_words; split_and!; try lia; try (repeat constructor; lia).
  - constructor; [|constructor]. split; [by right|]. split; [vm_compute; lia|]. split; [apply Forall_replicate; unfold is_u8; lia|unfold is_u16; lia].
  - split; [by left|]. split; [vm_compute; lia|]. split; [repeat (constructor; [unfold is_u8; lia|]); constructor|unfold is_u16; lia].
Defined.
