(* ===== verification/SshFwd.v ===== *)
(** src/src/sshfwd.c: the tunnels of a session.  Descriptors, channels, messages and resolved address
    lists are handles, so that what is closed can be told from what is held; every answer of the
    sockets, of the resolver, of the clock and of libssh is taken from a script, and a script that
    has run out answers that nothing happens.  A slot that is looked at is out of its table until
    its turn is over.  The log is what was acquired and released and what went in and out of each
    handle, in order; a loop whose fuel runs out before it stops says so in it ([Spun]). *)
From S2P Require Import Prelude Net AddrText FwdSpec.

Definition FWD_MAX_BRIDGE : nat := 16.
Definition FWD_MAX_LISTEN : nat := 8.
Definition FWD_MAX_PEND : nat := 8.
Definition FWD_CONNECT_TIMEOUT_MS : Z := 5000.
Definition FWD_BUF : Z := 32768.
Definition FWD_SLICE : Z := 8192.

(** ** State *)

(** [br_buf] is [buf] from [buf_off] to [buf_len]. *)
Record fwd_bridge := mk_br { br_fd : nat; br_chan : nat; br_polled : bool; br_sent_eof : bool; br_buf : bytes }.
(** [ls_fd] is [None] for INVALID_SOCK. *)
Record fwd_listener := mk_ls { ls_fd : option nat; ls_remote : bool; ls_sp : fwdspec; ls_req : bytes; ls_port : Z; ls_declined : bool }.
Inductive pend_kind := PEND_SRV_CONNECT | PEND_CLI_CONNECT | PEND_REV_OPEN.
(** [pd_next] is how many of the resolved addresses are untried. *)
Record fwd_pend := mk_pd {
  pd_kind : pend_kind; pd_fd : option nat; pd_msg : option nat; pd_chan : option nat; pd_deadline : Z; pd_addr : bytes; pd_port : Z;
  pd_orig : bytes; pd_orig_port : Z; pd_res : option nat; pd_next : Z; pd_tgt : bytes
}.
Record sshfwd := mk_sf {
  sf_remote : bool; sf_room : bool; sf_told : bool;      (* [have_remote], [tx_room], [declined] *)
  sf_br : list (option fwd_bridge); sf_ls : list (option fwd_listener); sf_pd : list (option fwd_pend)
}.
Definition sshfwd_create : sshfwd := mk_sf false false false (replicate FWD_MAX_BRIDGE None) (replicate FWD_MAX_LISTEN None) (replicate FWD_MAX_PEND None).

Inductive res_kind := RFd | RChan | RMsg | RAddr | RPoll.
Definition res : Type := res_kind * nat.
Inductive fev :=
| Acq (r : res) | Rel (r : res)
| FdIn (h : nat) (d : bytes) | FdOut (h : nat) (d : bytes) | ChIn (h : nat) (d : bytes) | ChOut (h : nat) (d : bytes) | ChEof (h : nat)
| Replied (h : nat) (granted : bool) | Declined (tgt : bytes) | Bound (a : bytes) (port : Z) | Asked (addr : bytes) (port : Z)
| Spun.                                                      (* a loop was cut off before it stopped *)
Record ans := mk_ans { a_n : Z; a_data : bytes }.
Record tworld := mk_tw { tw_f : sshfwd; tw_script : list ans; tw_next : nat; tw_log : list fev }.

(** ** The monad *)
Definition M (A : Type) : Type := tworld -> A * tworld.
Definition ret {A} (a : A) : M A := fun w => (a, w).
Definition bind {A B} (m : M A) (k : A -> M B) : M B := fun w => let '(a, w) := m w in k a w.
Notation "'do!' x <- m ; k" := (bind m (fun x => k)) (at level 200, x pattern, m at level 100, k at level 200).
Notation "'run!' m ; k" := (bind m (fun _ => k)) (at level 200, m at level 100, k at level 200).
Definition state : M sshfwd := fun w => (tw_f w, w).
Definition put (f : sshfwd) : M unit := fun w => (tt, mk_tw f (tw_script w) (tw_next w) (tw_log w)).
Definition log (e : fev) : M unit := fun w => (tt, mk_tw (tw_f w) (tw_script w) (tw_next w) (tw_log w ++ [e])).
Definition ask : M ans := fun w =>
  match tw_script w with
  | [] => (mk_ans 0 [], w)
  | a :: s => (a, mk_tw (tw_f w) s (tw_next w) (tw_log w))
  end.
Definition asks {A} (g : ans -> A) : M A := do! a <- ask; ret (g a).
Definition left_over : M nat := fun w => (length (tw_script w), w).
Definition acquire (k : res_kind) : M nat := fun w => (tw_next w, mk_tw (tw_f w) (tw_script w) (S (tw_next w)) (tw_log w ++ [Acq (k, tw_next w)])).
Definition release (k : res_kind) (h : nat) : M unit := log (Rel (k, h)).
(** Closing INVALID_SOCK and freeing NULL do nothing. *)
Definition release_opt (k : res_kind) (o : option nat) : M unit := match o with Some h => release k h | None => ret tt end.

Definition set_br (i : nat) (b : option fwd_bridge) : M unit := do! f <- state; put (mk_sf (sf_remote f) (sf_room f) (sf_told f) (<[i:=b]> (sf_br f)) (sf_ls f) (sf_pd f)).
Definition set_ls (i : nat) (l : option fwd_listener) : M unit := do! f <- state; put (mk_sf (sf_remote f) (sf_room f) (sf_told f) (sf_br f) (<[i:=l]> (sf_ls f)) (sf_pd f)).
Definition set_pd (i : nat) (p : option fwd_pend) : M unit := do! f <- state; put (mk_sf (sf_remote f) (sf_room f) (sf_told f) (sf_br f) (sf_ls f) (<[i:=p]> (sf_pd f))).
Definition set_remote : M unit := do! f <- state; put (mk_sf true (sf_room f) (sf_told f) (sf_br f) (sf_ls f) (sf_pd f)).
(** The first slot not in use. *)
Definition unused_slot {A} (l : list (option A)) : option nat := match list_find (fun o => o = None) l with Some (i, _) => Some i | None => None end.
Definition bridge_slot : M (option nat) := do! f <- state; ret (unused_slot (sf_br f)).
Definition pend_slot : M (option nat) := do! f <- state; ret (unused_slot (sf_pd f)).
Definition listener_slot : M (option nat) := do! f <- state; ret (unused_slot (sf_ls f)).

(** ** Connecting *)
Definition fwd_room : M bool := do! f <- state; if sf_room f then asks (fun a => truth (a_n a)) else ret true.
Definition fwd_now_ms : M Z := asks a_n.
(** [getpeername]: the address, 4 or 16 bytes, and the port. *)
Definition peer_name : M (bytes * Z) :=
  asks (fun a => if (length (a_data a) =? 4)%nat then (inet_ntop4 (a_data a), a_n a) else if (length (a_data a) =? 16)%nat then (inet_ntop6 (a_data a), a_n a) else (cstr "0.0.0.0", 0)).
Definition said_yes (a : ans) : bool := 0 <? a_n a.
(** A handle when the answer says there is one. *)
Definition acquire_if (k : res_kind) : M (option nat) := do! ok <- asks said_yes; if ok then do! h <- acquire k; ret (Some h) else ret None.
Definition connect_one : M (option nat) := acquire_if RFd.
Definition pend_res_free (p : fwd_pend) : M fwd_pend :=
  run! release_opt RAddr (pd_res p);
  ret (mk_pd (pd_kind p) (pd_fd p) (pd_msg p) (pd_chan p) (pd_deadline p) (pd_addr p) (pd_port p) (pd_orig p) (pd_orig_port p) None 0 (pd_tgt p)).
(** [while (p->next && !sock_valid(p->fd))], from no descriptor. *)
Fixpoint connect_loop (n : nat) : M (option nat * nat) :=
  match n with
  | O => ret (None, O)
  | S n => do! fd <- connect_one; match fd with Some h => ret (Some h, n) | None => connect_loop n end
  end.
(** The descriptor, the resolved list, how much of it is untried and the target's name; [None] is -1. *)
Definition pend_connect_begin (host : bytes) (port : Z) : M (option (nat * nat * Z * bytes)) :=
  do! n <- asks a_n;
  if n <=? 0 then ret None
  else
    do! r <- acquire RAddr;
    do! (fd, next) <- connect_loop (Z.to_nat n);
    match fd with
    | None => run! release RAddr r; ret None
    | Some h => ret (Some (h, r, Z.of_nat next, snprintf 80 (host ++ 58 :: dec port)))
    end.
Definition set_fd (p : fwd_pend) (fd : option nat) (next : Z) : fwd_pend :=
  mk_pd (pd_kind p) fd (pd_msg p) (pd_chan p) (pd_deadline p) (pd_addr p) (pd_port p) (pd_orig p) (pd_orig_port p) (pd_res p) next (pd_tgt p).
Definition pend_connect_next (p : fwd_pend) : M (fwd_pend * bool) :=
  run! release_opt RFd (pd_fd p);
  do! (fd, next) <- connect_loop (Z.to_nat (pd_next p));
  ret (set_fd p fd (Z.of_nat next), match fd with Some _ => true | None => false end).
(** 1 connected, 0 still going, -1 failed. *)
Definition finish_connect : M Z := asks (fun a => Z.sgn (a_n a)).

(** ** Listening *)
Inductive bind_addr := Bind4 (a : bytes) | Bind6 (a : bytes).
Definition LOOPBACK : bytes := [127; 0; 0; 1].
Definition ANY : bytes := [0; 0; 0; 0].
Definition listen_addr (addr : bytes) : option bind_addr :=
  if bytes_eqb addr [] || bytes_eqb addr (cstr "localhost") || bytes_eqb addr (cstr "127.0.0.1") then Some (Bind4 LOOPBACK)
  else if bytes_eqb addr (cstr "*") || bytes_eqb addr (cstr "0.0.0.0") then Some (Bind4 ANY)
  else match inet_pton4 addr with
       | Some a => Some (Bind4 a)
       | None => match inet_pton6 addr with Some a => Some (Bind6 a) | None => None end
       end.
Definition bind_bytes (b : bind_addr) : bytes := match b with Bind4 a | Bind6 a => a end.
(** The descriptor and the port it is bound to; the socket, the bind and the listen are one answer. *)
Definition listen_on (addr : bytes) (port : Z) : M (option (nat * Z)) :=
  match listen_addr addr with
  | None => ret None
  | Some b =>
      do! fd <- acquire_if RFd;
      match fd with
      | None => ret None
      | Some h => run! log (Bound (bind_bytes b) port); do! n <- asks a_n; ret (Some (h, if 0 <? n then u16 n else port))
      end
  end.

(** ** Bridges *)
Definition with_polled (b : fwd_bridge) (v : bool) : fwd_bridge := mk_br (br_fd b) (br_chan b) v (br_sent_eof b) (br_buf b).
Definition with_buf (b : fwd_bridge) (v : bytes) : fwd_bridge := mk_br (br_fd b) (br_chan b) (br_polled b) (br_sent_eof b) v.
Definition bridge_poll_sync (b : fwd_bridge) : M fwd_bridge :=
  do! want <- (if br_sent_eof b then ret false else do! win <- asks a_n; if 0 <? win then fwd_room else ret false);
  if want && negb (br_polled b) then
    do! ok <- asks said_yes;
    if ok then run! log (Acq (RPoll, br_fd b)); ret (with_polled b true) else ret b
  else if negb want && br_polled b then run! release RPoll (br_fd b); ret (with_polled b false)
  else ret b.
(** What a read with room for [n] bytes takes. *)
Fixpoint upto (n : Z) (d : bytes) : bytes := match d with c :: d => if n <=? 0 then [] else c :: upto (n - 1) d | [] => [] end.
(** One [sock_write] after another until the buffer is empty; [Some rc] is a return. *)
Fixpoint flush (fuel : nat) (b : fwd_bridge) : M (fwd_bridge * option bool) :=
  match br_buf b, fuel with
  | [], _ => ret (b, None)
  | _, O => run! log Spun; ret (b, Some true)
  | d, S fuel =>
      do! n <- asks a_n;
      if n <=? 0 then ret (b, Some (n =? 0))
      else
        run! log (FdOut (br_fd b) (take (Z.to_nat n) d));
        flush fuel (with_buf b (drop (Z.to_nat n) d))
  end.
(** Whether the bridge stands. *)
Fixpoint pump_out (fuel : nat) (b : fwd_bridge) : M (fwd_bridge * bool) :=
  match fuel with
  | O => run! log Spun; ret (b, true)
  | S fuel =>
      do! (b, rc) <- flush (length (br_buf b)) b;
      match rc with
      | Some ok => ret (b, ok)
      | None =>
          do! a <- ask;
          match upto FWD_BUF (a_data a) with
          | [] => ret (b, negb (a_n a <? 0))
          | d => run! log (ChIn (br_chan b) d); pump_out fuel (with_buf b d)
          end
      end
  end.
Definition bridge_pump_out (b : fwd_bridge) : M (fwd_bridge * bool) := do! n <- left_over; pump_out (S n) b.
(** 1, 0 or -1. *)
Definition bridge_pump_in (b : fwd_bridge) : M (fwd_bridge * Z) :=
  if br_sent_eof b then ret (b, 0)
  else
    do! win <- asks a_n;
    if win <=? 0 then ret (b, 0)
    else
      do! a <- ask;
      match upto (Z.min FWD_SLICE win) (a_data a) with
      | [] =>
          if 0 <? a_n a then run! log (ChEof (br_chan b)); ret (mk_br (br_fd b) (br_chan b) (br_polled b) true (br_buf b), 0)
          else ret (b, if a_n a =? 0 then 0 else -1)
      | d =>
          run! log (FdIn (br_fd b) d);
          do! short <- asks (fun a => truth (a_n a));
          if short then ret (b, -1) else run! log (ChOut (br_chan b) d); ret (b, 1)
      end.
Definition chan_close_free (c : nat) : M unit := run! ask; release RChan c.
Definition bridge_up (fd c : nat) : M bool :=
  do! i <- bridge_slot;
  match i with
  | None => run! release RFd fd; run! chan_close_free c; ret false
  | Some i => do! b <- bridge_poll_sync (mk_br fd c false false []); run! set_br i (Some b); ret true
  end.
Definition bridge_down (b : fwd_bridge) : M unit :=
  run! (if br_polled b then release RPoll (br_fd b) else ret tt); run! release RFd (br_fd b); chan_close_free (br_chan b).

(** ** The client *)
Definition sshfwd_cli_local (sp : fwdspec) : M Z :=
  do! i <- listener_slot;
  match i with
  | None => ret (-1)
  | Some i =>
      do! r <- listen_on (fw_bind sp) (fw_bind_port sp);
      match r with
      | None => ret (-1)
      | Some (fd, port) => run! set_ls i (Some (mk_ls (Some fd) false sp [] port false)); ret 0
      end
  end.
Definition remote_addr (sp : fwdspec) : bytes :=
  let addr := if bytes_eqb (fw_bind sp) [] then cstr "localhost" else fw_bind sp in if bytes_eqb addr (cstr "*") then [] else addr.
(** [ssh_channel_listen_forward]: a negative answer is a refusal, any other the port bound. *)
Definition sshfwd_cli_remote (sp : fwdspec) : M Z :=
  run! log (Asked (remote_addr sp) (fw_bind_port sp));
  do! bound <- asks a_n;
  if bound <? 0 then ret (-1)
  else
    do! i <- listener_slot;
    match i with
    | None => ret (-1)
    | Some i => run! set_ls i (Some (mk_ls None true sp [] (u16 (if truth bound then bound else fw_bind_port sp)) false)); run! set_remote; ret 0
    end.
Definition target_text (l : fwd_listener) : bytes := dec (ls_port l) ++ cstr " -> " ++ fw_host (ls_sp l) ++ 58 :: dec (fw_port (ls_sp l)).
Definition cli_local_accept (i : nat) (l : fwd_listener) : M unit :=
  do! fd <- acquire_if RFd;
  match fd with
  | None => ret tt
  | Some fd =>
      do! c <- acquire_if RChan;
      match c with
      | None => release RFd fd
      | Some c =>
          run! peer_name;
          do! ok <- asks said_yes;
          if ok then run! bridge_up fd c; ret tt
          else
            run! (if ls_declined l then ret tt
                  else run! set_ls i (Some (mk_ls (ls_fd l) (ls_remote l) (ls_sp l) (ls_req l) (ls_port l) true));
                       do! f <- state; if sf_told f then log (Declined (target_text l)) else ret tt);
            run! release RFd fd; release RChan c
      end
  end.
Definition srv_remote_accept (l : fwd_listener) : M unit :=
  do! fd <- acquire_if RFd;
  match fd with
  | None => ret tt
  | Some fd =>
      do! i <- pend_slot;
      match i with
      | None => release RFd fd
      | Some i =>
          do! c <- acquire_if RChan;
          match c with
          | None => release RFd fd
          | Some c =>
              do! (orig, oport) <- peer_name;
              do! now <- fwd_now_ms;
              set_pd i (Some (mk_pd PEND_REV_OPEN (Some fd) None (Some c) (now + FWD_CONNECT_TIMEOUT_MS) (snprintf 64 (ls_req l)) (ls_port l) (snprintf 64 orig) oport None 0 []))
          end
      end
  end.

(** ** Pending connects and opens *)
Inductive wait_state := Waits | Connected | GaveUp.
(** The first lines of both connect cases. *)
Definition connect_wait (p : fwd_pend) : M (fwd_pend * wait_state) :=
  do! rc <- finish_connect;
  if rc =? 1 then ret (p, Connected)
  else
    do! now <- fwd_now_ms;
    if pd_deadline p <=? now then ret (p, GaveUp)
    else if rc =? 0 then ret (p, Waits)
    else do! (p, on) <- pend_connect_next p; ret (p, if on then Waits else GaveUp).
Definition msg_answer (m : option nat) (granted : bool) : M unit := match m with Some h => run! log (Replied h granted); release RMsg h | None => ret tt end.
Definition up_opt (fd c : option nat) : M unit := match fd, c with Some fd, Some c => run! bridge_up fd c; ret tt | _, _ => ret tt end.
Definition chan_drop (c : option nat) : M unit := match c with Some c => chan_close_free c | None => ret tt end.
(** The entry to keep, [None] when it is done. *)
Definition pend_step (p : fwd_pend) : M (option fwd_pend) :=
  match pd_kind p with
  | PEND_SRV_CONNECT =>
      do! (p, st) <- connect_wait p;
      match st with
      | Waits => ret (Some p)
      | Connected =>
          do! c <- acquire_if RChan;
          run! msg_answer (pd_msg p) (match c with Some _ => true | None => false end);
          run! pend_res_free p;
          run! (match c with Some _ => up_opt (pd_fd p) c | None => release_opt RFd (pd_fd p) end);
          ret None
      | GaveUp => run! msg_answer (pd_msg p) false; run! pend_res_free p; run! release_opt RFd (pd_fd p); ret None
      end
  | PEND_CLI_CONNECT =>
      do! (p, st) <- connect_wait p;
      match st with
      | Waits => ret (Some p)
      | Connected => run! pend_res_free p; run! up_opt (pd_fd p) (pd_chan p); ret None
      | GaveUp => run! pend_res_free p; run! release_opt RFd (pd_fd p); run! chan_drop (pd_chan p); ret None
      end
  | PEND_REV_OPEN =>
      do! rc <- asks (fun a => Z.sgn (a_n a));
      if rc =? 1 then run! up_opt (pd_fd p) (pd_chan p); ret None
      else
        do! keep <- (if rc =? 0 then do! now <- fwd_now_ms; ret (now <? pd_deadline p) else ret false);
        if keep : bool then ret (Some p) else run! release_opt RFd (pd_fd p); run! release_opt RChan (pd_chan p); ret None
  end.

(** ** One pass *)
Fixpoint each (l : list nat) (g : nat -> M unit) : M unit := match l with [] => ret tt | i :: l => run! g i; each l g end.
Definition ls_at (i : nat) : M (option fwd_listener) := do! f <- state; ret (match sf_ls f !! i with Some o => o | None => None end).
Definition br_at (i : nat) : M (option fwd_bridge) := do! f <- state; ret (match sf_br f !! i with Some o => o | None => None end).
Definition pd_at (i : nat) : M (option fwd_pend) := do! f <- state; ret (match sf_pd f !! i with Some o => o | None => None end).
Definition listener_turn (i : nat) : M unit :=
  do! l <- ls_at i;
  match l with
  | Some (mk_ls (Some _) remote _ _ _ _ as l) => do! ready <- asks said_yes; if ready then (if remote then srv_remote_accept l else cli_local_accept i l) else ret tt
  | _ => ret tt
  end.
Definition serves_port (dport : Z) (o : option fwd_listener) : bool := match o with Some l => ls_remote l && (ls_port l =? u16 dport) | None => false end.
Definition listener_for (f : sshfwd) (dport : Z) : option fwd_listener :=
  match list_find (fun o => serves_port dport o = true) (sf_ls f) with Some (_, Some l) => Some l | _ => None end.
(** A connection the host accepted for a -R. *)
Definition remote_arrived (c : nat) (dport : Z) : M unit :=
  do! f <- state;
  do! i <- pend_slot;
  match listener_for f dport, i with
  | Some l, Some i =>
      do! r <- pend_connect_begin (fw_host (ls_sp l)) (fw_port (ls_sp l));
      match r with
      | Some (fd, ai, next, tgt) => do! now <- fwd_now_ms; set_pd i (Some (mk_pd PEND_CLI_CONNECT (Some fd) None (Some c) (now + FWD_CONNECT_TIMEOUT_MS) [] 0 [] 0 (Some ai) next tgt))
      | None => chan_close_free c
      end
  | _, _ => chan_close_free c
  end.
Fixpoint arrivals (fuel : nat) : M unit :=
  match fuel with
  | O => log Spun
  | S fuel => do! dport <- asks a_n; if dport <=? 0 then ret tt else do! c <- acquire RChan; run! remote_arrived c dport; arrivals fuel
  end.
Definition pend_turn (i : nat) : M unit :=
  do! p <- pd_at i;
  match p with Some p => run! set_pd i None; do! r <- pend_step p; set_pd i r | None => ret tt end.
(** The slices of one pass over the bridges; whether data moved. *)
Fixpoint slices (l : list nat) (moved : bool) : M bool :=
  match l with
  | [] => ret moved
  | i :: l =>
      do! room <- fwd_room;
      if negb room then ret moved
      else
        do! b <- br_at i;
        match b with
        | None => slices l moved
        | Some b =>
            run! set_br i None;
            do! (b, rc) <- bridge_pump_in b;
            run! (if rc <? 0 then bridge_down b else set_br i (Some b));
            slices l (moved || (0 <? rc))
        end
  end.
Fixpoint bulk (fuel : nat) : M unit :=
  match fuel with
  | O => log Spun
  | S fuel => do! moved <- slices (seq 0 FWD_MAX_BRIDGE) false; if moved then do! room <- fwd_room; if room then bulk fuel else ret tt else ret tt
  end.
Definition drain_turn (i : nat) : M unit :=
  do! b <- br_at i;
  match b with
  | None => ret tt
  | Some b =>
      run! set_br i None;
      do! (b, ok) <- bridge_pump_out b;
      do! down <- (if negb ok then ret true
                   else do! open <- asks (fun a => truth (a_n a));
                        if negb open then ret true else do! eof <- asks (fun a => truth (a_n a)); ret (eof && bytes_eqb (br_buf b) []));
      if down : bool then bridge_down b else do! b <- bridge_poll_sync b; set_br i (Some b)
  end.
Definition sshfwd_tick : M unit :=
  run! each (seq 0 FWD_MAX_LISTEN) listener_turn;
  do! f <- state;
  run! (if sf_remote f then do! n <- left_over; arrivals (S n) else ret tt);
  run! each (seq 0 FWD_MAX_PEND) pend_turn;
  do! n <- left_over;
  run! bulk (S n);
  each (seq 0 FWD_MAX_BRIDGE) drain_turn.

(** ** The host *)
Inductive fwd_req := DirectTcpip (dest : option bytes) (port : Z) | TcpipForward (addr : option bytes) (port : Z) | CancelForward (port : Z) | OtherMessage.
Definition srv_direct (m : nat) (dest : option bytes) (port : Z) : M unit :=
  do! i <- pend_slot;
  match dest, i with
  | Some dest, Some i =>
      if (port <=? 0) || (65535 <? port) then msg_answer (Some m) false
      else
        do! r <- pend_connect_begin dest port;
        match r with
        | None => msg_answer (Some m) false
        | Some (fd, ai, next, tgt) => do! now <- fwd_now_ms; set_pd i (Some (mk_pd PEND_SRV_CONNECT (Some fd) (Some m) None (now + FWD_CONNECT_TIMEOUT_MS) [] 0 [] 0 (Some ai) next tgt))
        end
  | _, _ => msg_answer (Some m) false
  end.
Definition srv_addr (addr : bytes) : bytes := if bytes_eqb addr (cstr "localhost") then [] else addr.
Definition no_spec : fwdspec := mk_fwd [] 0 [] 0.
Definition srv_forward (m : nat) (addr : option bytes) (port : Z) : M unit :=
  do! i <- listener_slot;
  match addr, i with
  | Some addr, Some i =>
      if (port <? 0) || (65535 <? port) then msg_answer (Some m) false
      else
        do! r <- listen_on (srv_addr addr) port;
        match r with
        | None => msg_answer (Some m) false
        | Some (fd, bound) => run! set_ls i (Some (mk_ls (Some fd) true no_spec (snprintf 64 addr) bound false)); msg_answer (Some m) true
        end
  | _, _ => msg_answer (Some m) false
  end.
(** The first host-side listener on that port. *)
Definition cancels (port : Z) (o : option fwd_listener) : bool :=
  match o with Some l => ls_remote l && (ls_port l =? port) && match ls_fd l with Some _ => true | None => false end | None => false end.
Definition srv_cancel (m : nat) (port : Z) : M unit :=
  do! f <- state;
  match list_find (fun o => cancels port o = true) (sf_ls f) with
  | Some (i, Some l) => run! release_opt RFd (ls_fd l); run! set_ls i None; msg_answer (Some m) true
  | _ => msg_answer (Some m) false
  end.
(** Whether the message was taken. *)
Definition sshfwd_srv_message (q : fwd_req) : M bool :=
  match q with
  | DirectTcpip dest port => do! m <- acquire RMsg; run! srv_direct m dest port; ret true
  | TcpipForward addr port => do! m <- acquire RMsg; run! srv_forward m addr port; ret true
  | CancelForward port => do! m <- acquire RMsg; run! srv_cancel m port; ret true
  | OtherMessage => ret false
  end.
Definition destroy_bridge (i : nat) : M unit := do! b <- br_at i; match b with Some b => run! set_br i None; bridge_down b | None => ret tt end.
Definition destroy_listener (i : nat) : M unit := do! l <- ls_at i; match l with Some l => run! set_ls i None; release_opt RFd (ls_fd l) | None => ret tt end.
Definition destroy_pend (i : nat) : M unit :=
  do! p <- pd_at i;
  match p with
  | Some p =>
      run! set_pd i None; run! release_opt RFd (pd_fd p); run! msg_answer (pd_msg p) false;
      run! release_opt RChan (pd_chan p); run! pend_res_free p; ret tt
  | None => ret tt
  end.
Definition sshfwd_destroy : M unit := run! each (seq 0 FWD_MAX_BRIDGE) destroy_bridge; run! each (seq 0 FWD_MAX_LISTEN) destroy_listener; each (seq 0 FWD_MAX_PEND) destroy_pend.

(** What a session does with its tunnels. *)
Inductive fwd_op := OpLocal (sp : fwdspec) | OpRemote (sp : fwdspec) | OpMessage (q : fwd_req) | OpTick | OpTxRoom (set : bool) | OpDeclined (set : bool).
Definition fwd_do (o : fwd_op) : M unit :=
  match o with
  | OpLocal sp => run! sshfwd_cli_local sp; ret tt
  | OpRemote sp => run! sshfwd_cli_remote sp; ret tt
  | OpMessage q => run! sshfwd_srv_message q; ret tt
  | OpTick => sshfwd_tick
  | OpTxRoom v => do! f <- state; put (mk_sf (sf_remote f) v (sf_told f) (sf_br f) (sf_ls f) (sf_pd f))
  | OpDeclined v => do! f <- state; put (mk_sf (sf_remote f) (sf_room f) v (sf_br f) (sf_ls f) (sf_pd f))
  end.
Fixpoint fwd_run (l : list fwd_op) : M unit := match l with [] => ret tt | o :: l => run! fwd_do o; fwd_run l end.
Definition fwd_start (script : list ans) : tworld := mk_tw sshfwd_create script 0 [].
