(* ===== verification/SshFwdOk.v ===== *)
(** The tunnels account for what they hold: every descriptor, channel, message, address list and event
    registration is released once and by whoever held it, and what goes through a bridge comes out
    whole and in order. *)
From S2P Require Import Prelude Net AddrText FwdSpec SshFwd.

(** ** What is held *)
Definition opt_res (k : res_kind) (o : option nat) : list res := match o with Some h => [(k, h)] | None => [] end.
Definition bridge_res (b : fwd_bridge) : list res := (RFd, br_fd b) :: (RChan, br_chan b) :: if br_polled b then [(RPoll, br_fd b)] else [].
Definition listener_res (l : fwd_listener) : list res := opt_res RFd (ls_fd l).
Definition pend_res (p : fwd_pend) : list res := opt_res RFd (pd_fd p) ++ opt_res RMsg (pd_msg p) ++ opt_res RChan (pd_chan p) ++ opt_res RAddr (pd_res p).
Definition slots {A B} (g : A -> list B) (l : list (option A)) : list B := concat (map (fun o => match o with Some a => g a | None => [] end) l).
Definition idle (f : sshfwd) : list res := slots listener_res (sf_ls f) ++ slots pend_res (sf_pd f).
Definition bridges (f : sshfwd) : list fwd_bridge := omap id (sf_br f).
Definition held (f : sshfwd) : list res := slots bridge_res (sf_br f) ++ idle f.
Definition acqs (l : list fev) : list res := omap (fun e => match e with Acq r => Some r | _ => None end) l.
Definition rels (l : list fev) : list res := omap (fun e => match e with Rel r => Some r | _ => None end) l.
Definition not_poll (r : res) : bool := match r.1 with RPoll => false | _ => true end.
(** The handles, registrations apart. *)
Definition handles (l : list res) : list nat := map snd (List.filter not_poll l).

(** ** What went through *)
Definition fdin (h : nat) (l : list fev) : bytes := concat (map (fun e => match e with FdIn g d => if (g =? h)%nat then d else [] | _ => [] end) l).
Definition fdout (h : nat) (l : list fev) : bytes := concat (map (fun e => match e with FdOut g d => if (g =? h)%nat then d else [] | _ => [] end) l).
Definition chin (h : nat) (l : list fev) : bytes := concat (map (fun e => match e with ChIn g d => if (g =? h)%nat then d else [] | _ => [] end) l).
Definition chout (h : nat) (l : list fev) : bytes := concat (map (fun e => match e with ChOut g d => if (g =? h)%nat then d else [] | _ => [] end) l).
(** What the channel gave is what the descriptor took and what waits in the buffer; what the
    descriptor gave is what the channel took. *)
Definition flows (l : list fev) (b : fwd_bridge) : Prop := chin (br_chan b) l = fdout (br_fd b) l ++ br_buf b /\ fdin (br_fd b) l = chout (br_chan b) l.
Definition data_on (e : fev) : option nat := match e with FdIn h _ | FdOut h _ | ChIn h _ | ChOut h _ => Some h | _ => None end.
Definition quiet (h : nat) (l : list fev) : Prop := Forall (fun e => data_on e <> Some h) l.

(** ** The invariant, with what the code at work holds in hand *)

(** The bridge in hand: as it should be, between the read of [d] and its write, or given up. *)
Inductive hand_state := HFlows | HHalf (d : bytes) | HDoomed.
Definition hand : Type := option (fwd_bridge * hand_state).
Definition hand_res (bs : hand) : list res := match bs with Some (b, _) => bridge_res b | None => [] end.
Definition hand_ok (l : list fev) (bs : hand) : Prop :=
  match bs with
  | Some (b, HFlows) => flows l b
  | Some (b, HHalf d) => chin (br_chan b) l = fdout (br_fd b) l ++ br_buf b /\ fdin (br_fd b) l = chout (br_chan b) l ++ d
  | _ => True
  end.
(** What an entry of each kind has. *)
Definition pend_shape (p : fwd_pend) : Prop :=
  match pd_kind p with
  | PEND_SRV_CONNECT => is_Some (pd_msg p) /\ pd_chan p = None
  | PEND_CLI_CONNECT => pd_msg p = None /\ is_Some (pd_chan p)
  | PEND_REV_OPEN => pd_msg p = None /\ is_Some (pd_chan p) /\ pd_res p = None
  end.
Definition pend_fit (p : fwd_pend) : Prop := pend_shape p /\ is_Some (pd_fd p).
Record inv (rs : list res) (bs : hand) (w : tworld) : Prop := mk_inv {
  i_perm : acqs (tw_log w) ≡ₚ rs ++ hand_res bs ++ held (tw_f w) ++ rels (tw_log w);
  i_nodup : NoDup (handles (acqs (tw_log w)));
  i_lt : Forall (fun h => (h < tw_next w)%nat) (handles (acqs (tw_log w)));
  i_hand : hand_ok (tw_log w) bs;
  i_flow : Forall (flows (tw_log w)) (bridges (tw_f w));
  i_shape : forall i p, sf_pd (tw_f w) !! i = Some (Some p) -> pend_fit p;
  i_quiet : forall h, (tw_next w <= h)%nat \/ h ∈ handles (rs ++ idle (tw_f w)) -> quiet h (tw_log w) }.
Definition tri {A} (rs : list res) (bs : hand) (m : M A) (Q : A -> list res * hand) : Prop :=
  forall w, inv rs bs w -> inv (Q (m w).1).1 (Q (m w).1).2 (m w).2.
Lemma tri_bind {A B} rs bs (m : M A) (k : A -> M B) Q R : tri rs bs m Q -> (forall a, tri (Q a).1 (Q a).2 (k a) R) -> tri rs bs (bind m k) R.
Proof. intros Hm Hk w H. specialize (Hm w H). unfold bind. destruct (m w) as [a w']. by apply Hk. Qed.
Lemma handles_app l1 l2 : handles (l1 ++ l2) = handles l1 ++ handles l2.
Proof. unfold handles. by rewrite List.filter_app, map_app. Qed.
#[global] Instance handles_perm : Proper (Permutation ==> Permutation) handles.
Proof. intros l1 l2 H. unfold handles. apply Permutation_map. induction H as [|x l l' _ IH|x y l|l1 l2 l3 _ IH1 _ IH2]; cbn; [done|destruct (not_poll x); [by constructor|done]|destruct (not_poll x), (not_poll y); first [apply perm_swap|done]|exact (Permutation_trans IH1 IH2)]. Qed.
Lemma inv_perm rs rs' bs w : rs ≡ₚ rs' -> inv rs bs w -> inv rs' bs w.
Proof.
  intros E []. constructor; try done; [by rewrite <- E|]. intros h Hh. apply i_quiet0. rewrite handles_app, E, <- handles_app. exact Hh.
Qed.
Lemma tri_ret {A} rs bs (a : A) Q : rs ≡ₚ (Q a).1 -> bs = (Q a).2 -> tri rs bs (ret a) Q.
Proof. intros E -> w H. cbn. by eapply inv_perm. Qed.
Lemma tri_pre {A} rs rs' bs (m : M A) Q : rs ≡ₚ rs' -> tri rs' bs m Q -> tri rs bs m Q.
Proof. intros E H w Hw. apply H. by eapply inv_perm. Qed.
(** Nothing of the invariant looks at the script. *)
Lemma inv_same rs bs w w' : tw_f w' = tw_f w -> tw_next w' = tw_next w -> tw_log w' = tw_log w -> inv rs bs w -> inv rs bs w'.
Proof. intros E1 E2 E3 []. constructor; rewrite ?E1, ?E2, ?E3; done. Qed.
Lemma tri_ask rs bs : tri rs bs ask (fun _ => (rs, bs)).
Proof. intros w H. unfold ask. destruct (tw_script w); cbn; [done|]. by eapply inv_same, H. Qed.
Lemma tri_asks {A} (g : ans -> A) rs bs : tri rs bs (asks g) (fun _ => (rs, bs)).
Proof. eapply tri_bind; [apply tri_ask|]. intros a. by apply tri_ret. Qed.
Lemma tri_state rs bs : tri rs bs state (fun _ => (rs, bs)).
Proof. by intros w H. Qed.

(** ** One more event *)
Lemma acqs_app l1 l2 : acqs (l1 ++ l2) = acqs l1 ++ acqs l2.
Proof. apply omap_app. Qed.
Lemma rels_app l1 l2 : rels (l1 ++ l2) = rels l1 ++ rels l2.
Proof. apply omap_app. Qed.
Lemma quiet_more h l e : quiet h l -> data_on e <> Some h -> quiet h (l ++ [e]).
Proof. intros H E. apply Forall_app. split; [done|]. by constructor. Qed.
Lemma streams_app h l1 l2 : fdin h (l1 ++ l2) = fdin h l1 ++ fdin h l2 /\ fdout h (l1 ++ l2) = fdout h l1 ++ fdout h l2 /\ chin h (l1 ++ l2) = chin h l1 ++ chin h l2 /\ chout h (l1 ++ l2) = chout h l1 ++ chout h l2.
Proof. unfold fdin, fdout, chin, chout. by rewrite !map_app, !concat_app. Qed.
Lemma other_streams h e : data_on e <> Some h -> fdin h [e] = [] /\ fdout h [e] = [] /\ chin h [e] = [] /\ chout h [e] = [].
Proof. destruct e; cbn; intros H; try done; destruct (Nat.eqb_spec h0 h); by subst. Qed.
Lemma flows_more l e b : data_on e <> Some (br_fd b) -> data_on e <> Some (br_chan b) -> flows l b -> flows (l ++ [e]) b.
Proof.
  intros Hf Hc [H1 H2]. unfold flows. destruct (streams_app (br_fd b) l [e]) as (-> & -> & _ & _). destruct (streams_app (br_chan b) l [e]) as (_ & _ & -> & ->).
  destruct (other_streams _ _ Hf) as (-> & -> & _ & _). destruct (other_streams _ _ Hc) as (_ & _ & -> & ->). by rewrite !app_nil_r.
Qed.
Lemma hand_more l e bs : data_on e = None -> hand_ok l bs -> hand_ok (l ++ [e]) bs.
Proof.
  intros E. destruct bs as [[b []]|]; cbn; [apply flows_more; by rewrite E| |done..]. intros [H1 H2]. destruct (streams_app (br_fd b) l [e]) as (-> & -> & _ & _). destruct (streams_app (br_chan b) l [e]) as (_ & _ & -> & ->).
  destruct (other_streams (br_fd b) e) as (-> & -> & _ & _); [by rewrite E|]. destruct (other_streams (br_chan b) e) as (_ & _ & -> & ->); [by rewrite E|]. by rewrite !app_nil_r.
Qed.
(** An event that is no acquisition, no release and no data. *)
Definition plain_ev (e : fev) : bool := match e with ChEof _ | Replied _ _ | Declined _ | Bound _ _ | Asked _ _ | Spun => true | _ => false end.
Lemma tri_plain e rs bs : plain_ev e = true -> tri rs bs (log e) (fun _ => (rs, bs)).
Proof.
  intros He w []. assert (E : acqs [e] = [] /\ rels [e] = [] /\ data_on e = None) by by destruct e. destruct E as (E1 & E2 & E3). constructor; cbn [log fst snd tw_f tw_log tw_next]; rewrite ?acqs_app, ?rels_app, ?E1, ?E2, ?app_nil_r; try done.
  - by apply hand_more.
  - eapply Forall_impl; [done|]. intros b. apply flows_more; by rewrite E3.
  - intros h Hh. apply quiet_more; [by apply i_quiet0|by rewrite E3].
Qed.
Lemma tri_acquire k rs bs : k <> RPoll -> tri rs bs (acquire k) (fun h => ((k, h) :: rs, bs)).
Proof.
  intros Hk w []. assert (P : not_poll (k, tw_next w) = true) by by destruct k. constructor; cbn [acquire fst snd tw_f tw_log tw_next]; rewrite ?acqs_app, ?rels_app; cbn [acqs rels omap list_omap]; rewrite ?app_nil_r.
  - rewrite i_perm0. solve_Permutation.
  - rewrite handles_app. unfold handles at 2. cbn. rewrite P. cbn. apply NoDup_app. split_and!; [done| |apply NoDup_singleton]. intros h Hh ->%list_elem_of_singleton. eapply Forall_forall in i_lt0; [|exact Hh]. lia.
  - rewrite handles_app. unfold handles at 2. cbn. rewrite P. cbn. apply Forall_app. split; [eapply Forall_impl; [done|]; cbn; lia|]. repeat constructor.
  - by apply hand_more.
  - eapply Forall_impl; [done|]. intros b. by apply flows_more.
  - exact i_shape0.
  - intros h Hh. apply quiet_more; [|done]. apply i_quiet0. unfold handles in Hh. cbn in Hh. rewrite P in Hh. cbn in Hh. destruct Hh as [Hh|Hh]; [left; lia|]. apply elem_of_cons in Hh as [->|Hh]; [by left|by right].
Qed.
Lemma handles_cons_in r rs h : h ∈ handles rs -> h ∈ handles (r :: rs).
Proof. unfold handles. cbn. destruct (not_poll r); [|done]. intros H. by apply elem_of_cons; right. Qed.
Lemma tri_release k h rs bs : tri ((k, h) :: rs) bs (release k h) (fun _ => (rs, bs)).
Proof.
  intros w []. constructor; cbn [release log fst snd tw_f tw_log tw_next]; rewrite ?acqs_app, ?rels_app; cbn [acqs rels omap list_omap]; rewrite ?app_nil_r; try done.
  - rewrite i_perm0. solve_Permutation.
  - by apply hand_more.
  - eapply Forall_impl; [done|]. intros b. by apply flows_more.
  - intros g Hg. apply quiet_more; [|done]. apply i_quiet0. destruct Hg as [Hg|Hg]; [by left|]. right. by apply handles_cons_in.
Qed.
Lemma tri_release_opt k o rs bs : tri (opt_res k o ++ rs) bs (release_opt k o) (fun _ => (rs, bs)).
Proof. destruct o as [h|]; [apply tri_release|by apply tri_ret]. Qed.
Lemma tri_acquire_if k rs bs : k <> RPoll -> tri rs bs (acquire_if k) (fun o => (opt_res k o ++ rs, bs)).
Proof.
  intros Hk. unfold acquire_if. eapply tri_bind; [apply tri_asks|]. intros []; [|by apply tri_ret]. eapply tri_bind; [by apply tri_acquire|]. intros h. by apply tri_ret.
Qed.

(** ** The bridge in hand has its handles to itself *)
Lemma handles_bridge b : handles (bridge_res b) = [br_fd b; br_chan b].
Proof. unfold handles, bridge_res. by destruct (br_polled b). Qed.
Lemma bridges_handles f b : b ∈ bridges f -> br_fd b ∈ handles (slots bridge_res (sf_br f)) /\ br_chan b ∈ handles (slots bridge_res (sf_br f)).
Proof.
  unfold bridges, slots. induction (sf_br f) as [|o l IH]; [by intros ?%elem_of_nil|]. cbn [omap list_omap map concat]. rewrite handles_app. destruct o as [c|]; cbn [id]; [|done]. rewrite handles_bridge, !elem_of_app. intros [->|H]%elem_of_cons; [split; left; set_solver|]. destruct (IH H). split; by right.
Qed.
Lemma hand_alone rs b st w : inv rs (Some (b, st)) w ->
  (forall b', b' ∈ bridges (tw_f w) -> br_fd b' <> br_fd b /\ br_fd b' <> br_chan b /\ br_chan b' <> br_fd b /\ br_chan b' <> br_chan b) /\
  (forall h, h ∈ handles (rs ++ idle (tw_f w)) -> h <> br_fd b /\ h <> br_chan b) /\ (br_fd b < tw_next w)%nat /\ (br_chan b < tw_next w)%nat.
Proof.
  intros []. assert (P : handles (acqs (tw_log w)) ≡ₚ [br_fd b; br_chan b] ++ handles (slots bridge_res (sf_br (tw_f w))) ++ handles (rs ++ idle (tw_f w)) ++ handles (rels (tw_log w))).
  { rewrite i_perm0. cbn [hand_res]. unfold held. rewrite !handles_app, handles_bridge. solve_Permutation. }
  rewrite P in i_nodup0, i_lt0. apply NoDup_app in i_nodup0 as (_ & D & _). apply Forall_app in i_lt0 as [L _].
  assert (D1 := D (br_fd b) ltac:(set_solver)). assert (D2 := D (br_chan b) ltac:(set_solver)). rewrite !elem_of_app in D1, D2. split_and!.
  - intros b' [H1 H2]%bridges_handles. split_and!; intros E; [apply D1|apply D2|apply D1|apply D2]; left; by rewrite <- E.
  - intros h Hh. split; intros ->; [apply D1|apply D2]; by right; left.
  - by apply Forall_cons in L as [? _].
  - apply Forall_cons in L as [_ L]. by apply Forall_cons in L as [? _].
Qed.
(** Data on the bridge in hand. *)
Lemma tri_data e b b' st st' rs :
  (data_on e = Some (br_fd b) \/ data_on e = Some (br_chan b)) -> br_fd b' = br_fd b -> br_chan b' = br_chan b -> br_polled b' = br_polled b ->
  (forall l, hand_ok l (Some (b, st)) -> hand_ok (l ++ [e]) (Some (b', st'))) ->
  forall w, inv rs (Some (b, st)) w -> inv rs (Some (b', st')) (log e w).2.
Proof.
  intros Hd E1 E2 E3 Hs w H. destruct (hand_alone _ _ _ _ H) as (A1 & A2 & A3 & A4). destruct H. assert (E : acqs [e] = [] /\ rels [e] = []) by (destruct e; destruct Hd; done). destruct E as (X1 & X2).
  assert (R : bridge_res b' = bridge_res b) by (unfold bridge_res; by rewrite E1, E2, E3). constructor; cbn [log fst snd tw_f tw_log tw_next]; rewrite ?acqs_app, ?rels_app, ?X1, ?X2, ?app_nil_r; try done.
  - cbn [hand_res]. rewrite R. done.
  - by apply Hs.
  - apply Forall_forall. intros c Hc. destruct (A1 c Hc) as (B1 & B2 & B3 & B4). apply flows_more; [destruct Hd as [->| ->]; congruence|destruct Hd as [->| ->]; congruence|]. exact (proj1 (Forall_forall _ _) i_flow0 c Hc).
  - intros h Hh. apply quiet_more; [by apply i_quiet0|]. assert (h <> br_fd b /\ h <> br_chan b) as [N1 N2] by (destruct Hh as [Hh|Hh]; [split; lia|by apply A2]). destruct Hd as [->| ->]; congruence.
Qed.
(** Registering and unregistering the descriptor. *)
Lemma tri_poll_add b st rs : br_polled b = false -> tri rs (Some (b, st)) (log (Acq (RPoll, br_fd b))) (fun _ => (rs, Some (with_polled b true, st))).
Proof.
  intros Hp w []. constructor; cbn [log fst snd tw_f tw_log tw_next]; rewrite ?acqs_app, ?rels_app; cbn [acqs rels omap list_omap]; rewrite ?app_nil_r; try done.
  - rewrite i_perm0. cbn [hand_res]. unfold bridge_res. cbn. rewrite Hp. solve_Permutation.
  - by rewrite handles_app, app_nil_r.
  - by rewrite handles_app, app_nil_r.
  - apply (hand_more _ (Acq (RPoll, br_fd b))) in i_hand0; [|done]. exact i_hand0.
  - eapply Forall_impl; [done|]. intros c. by apply flows_more.
  - intros h Hh. apply quiet_more; [by apply i_quiet0|done].
Qed.
Lemma tri_poll_rel b st rs : br_polled b = true -> tri rs (Some (b, st)) (release RPoll (br_fd b)) (fun _ => (rs, Some (with_polled b false, st))).
Proof.
  intros Hp w []. constructor; cbn [release log fst snd tw_f tw_log tw_next]; rewrite ?acqs_app, ?rels_app; cbn [acqs rels omap list_omap]; rewrite ?app_nil_r; try done.
  - rewrite i_perm0. cbn [hand_res]. unfold bridge_res. cbn. rewrite Hp. solve_Permutation.
  - apply (hand_more _ (Rel (RPoll, br_fd b))) in i_hand0; [|done]. exact i_hand0.
  - eapply Forall_impl; [done|]. intros c. by apply flows_more.
  - intros h Hh. apply quiet_more; [by apply i_quiet0|done].
Qed.

(** ** Bridges *)
Tactic Notation "tstep" ident(x) := eapply tri_bind; [first [apply tri_ask|apply tri_asks|apply tri_state]|intros x; cbn [fst snd]].
Lemma tri_room rs bs : tri rs bs fwd_room (fun _ => (rs, bs)).
Proof. unfold fwd_room. tstep f. destruct (sf_room f); [apply tri_asks|by apply tri_ret]. Qed.
Lemma tri_sync b rs : tri rs (Some (b, HFlows)) (bridge_poll_sync b) (fun b' => (rs, Some (b', HFlows))).
Proof.
  unfold bridge_poll_sync. eapply tri_bind with (Q := fun _ => (rs, Some (b, HFlows))).
  - destruct (br_sent_eof b); [by apply tri_ret|]. tstep win. destruct (0 <? win); [apply tri_room|by apply tri_ret].
  - intros want. cbn [fst snd]. destruct (want && negb (br_polled b)) eqn:E1.
    + tstep ok. destruct ok; [|by apply tri_ret]. apply andb_true_iff in E1 as [_ E1%negb_true_iff]. eapply tri_bind; [by apply tri_poll_add|]. intros ?. by apply tri_ret.
    + destruct (negb want && br_polled b) eqn:E2; [|by apply tri_ret]. apply andb_true_iff in E2 as [_ E2]. eapply tri_bind; [by apply tri_poll_rel|]. intros ?. by apply tri_ret.
Qed.
Lemma own_streams h d : fdin h [FdIn h d] = d /\ fdout h [FdOut h d] = d /\ chin h [ChIn h d] = d /\ chout h [ChOut h d] = d.
Proof. unfold fdin, fdout, chin, chout. cbn. rewrite Nat.eqb_refl, !app_nil_r. done. Qed.
Lemma tri_out b n rs : tri rs (Some (b, HFlows)) (log (FdOut (br_fd b) (take n (br_buf b)))) (fun _ => (rs, Some (with_buf b (drop n (br_buf b)), HFlows))).
Proof.
  intros w H. eapply tri_data; [by left| | | | |exact H]; [done..|]. intros l [H1 H2]. cbn [hand_ok]. unfold flows, with_buf. cbn [br_fd br_chan br_buf].
  destruct (streams_app (br_fd b) l [FdOut (br_fd b) (take n (br_buf b))]) as (-> & -> & _ & _). destruct (streams_app (br_chan b) l [FdOut (br_fd b) (take n (br_buf b))]) as (_ & _ & -> & ->).
  destruct (own_streams (br_fd b) (take n (br_buf b))) as (_ & -> & _ & _). cbn [fdin chin chout map concat]. rewrite !app_nil_r, <- app_assoc, take_drop. done.
Qed.
Lemma tri_chin b d rs : br_buf b = [] -> tri rs (Some (b, HFlows)) (log (ChIn (br_chan b) d)) (fun _ => (rs, Some (with_buf b d, HFlows))).
Proof.
  intros Hb w H. eapply tri_data; [by right| | | | |exact H]; [done..|]. intros l [H1 H2]. cbn [hand_ok]. unfold flows, with_buf. cbn [br_fd br_chan br_buf].
  destruct (streams_app (br_fd b) l [ChIn (br_chan b) d]) as (-> & -> & _ & _). destruct (streams_app (br_chan b) l [ChIn (br_chan b) d]) as (_ & _ & -> & ->).
  destruct (own_streams (br_chan b) d) as (_ & _ & -> & _). cbn [fdin fdout chout map concat]. rewrite !app_nil_r. rewrite H1, Hb, app_nil_r. done.
Qed.
Lemma tri_fdin b d rs : tri rs (Some (b, HFlows)) (log (FdIn (br_fd b) d)) (fun _ => (rs, Some (b, HHalf d))).
Proof.
  intros w H. eapply tri_data; [by left| | | | |exact H]; [done..|]. intros l [H1 H2]. cbn [hand_ok].
  destruct (streams_app (br_fd b) l [FdIn (br_fd b) d]) as (-> & -> & _ & _). destruct (streams_app (br_chan b) l [FdIn (br_fd b) d]) as (_ & _ & -> & ->).
  destruct (own_streams (br_fd b) d) as (-> & _). cbn [fdout chin chout map concat]. rewrite !app_nil_r. split; [done|]. by rewrite H2.
Qed.
Lemma tri_chout b d rs : tri rs (Some (b, HHalf d)) (log (ChOut (br_chan b) d)) (fun _ => (rs, Some (b, HFlows))).
Proof.
  intros w H. eapply tri_data; [by right| | | | |exact H]; [done..|]. intros l [H1 H2]. cbn [hand_ok]. unfold flows.
  destruct (streams_app (br_fd b) l [ChOut (br_chan b) d]) as (-> & -> & _ & _). destruct (streams_app (br_chan b) l [ChOut (br_chan b) d]) as (_ & _ & -> & ->).
  destruct (own_streams (br_chan b) d) as (_ & _ & _ & ->). cbn [fdin fdout chin map concat]. by rewrite !app_nil_r.
Qed.
Lemma tri_flush fuel b rs : tri rs (Some (b, HFlows)) (flush fuel b) (fun r => (rs, Some (r.1, HFlows))).
Proof.
  revert b. induction fuel as [|fuel IH]; intros b; cbn [flush]; destruct (br_buf b) as [|c d] eqn:E; try by apply tri_ret. { eapply tri_bind; [by apply tri_plain|]. intros ?. by apply tri_ret. } tstep n. destruct (n <=? 0); [by apply tri_ret|]. rewrite <- E. eapply tri_bind; [apply tri_out|]. intros ?. apply IH.
Qed.
Lemma flush_empty fuel b w : (length (br_buf b) <= fuel)%nat -> (flush fuel b w).1.2 = None -> br_buf (flush fuel b w).1.1 = [].
Proof.
  revert b w. induction fuel as [|fuel IH]; intros b w Hn; cbn [flush]; destruct (br_buf b) as [|c d] eqn:E; [done|cbn in Hn; lia|done|]. unfold bind. destruct (asks a_n w) as [n w1]. destruct (Z.leb_spec n 0); [done|]. cbn [log]. apply IH. cbn [with_buf br_buf]. rewrite length_drop. cbn [length] in *. lia.
Qed.
Lemma tri_bind_fact {A B} (F : A -> Prop) rs bs (m : M A) (k : A -> M B) Q R : tri rs bs m Q -> (forall w, F (m w).1) -> (forall a, F a -> tri (Q a).1 (Q a).2 (k a) R) -> tri rs bs (bind m k) R.
Proof. intros Hm HF Hk w H. specialize (Hm w H). specialize (HF w). unfold bind. destruct (m w) as [a w']. by apply Hk. Qed.
Lemma tri_pump_out fuel b rs : tri rs (Some (b, HFlows)) (pump_out fuel b) (fun r => (rs, Some (r.1, HFlows))).
Proof.
  revert b. induction fuel as [|fuel IH]; intros b; cbn [pump_out]. { eapply tri_bind; [by apply tri_plain|]. intros ?. by apply tri_ret. } eapply (tri_bind_fact (fun r => r.2 = None -> br_buf r.1 = [])); [apply tri_flush|intros w; by apply flush_empty|]. intros [b1 rc] F. cbn [fst snd] in *. destruct rc as [ok|]; [by apply tri_ret|].
  tstep a. destruct (upto FWD_BUF (a_data a)) as [|c d]; [by apply tri_ret|]. eapply tri_bind; [by apply tri_chin, F|]. intros ?. apply IH.
Qed.
Lemma tri_left rs bs : tri rs bs left_over (fun _ => (rs, bs)).
Proof. by intros w H. Qed.
Lemma tri_bridge_out b rs : tri rs (Some (b, HFlows)) (bridge_pump_out b) (fun r => (rs, Some (r.1, HFlows))).
Proof. unfold bridge_pump_out. eapply tri_bind; [apply tri_left|]. intros n. apply tri_pump_out. Qed.
(** A bridge given up needs no accounts. *)
Lemma tri_doom {A} b st rs (m : M A) Q : tri rs (Some (b, HDoomed)) m Q -> tri rs (Some (b, st)) m Q.
Proof. intros H w Hw. apply H. destruct Hw. by constructor. Qed.
Definition after_in (r : fwd_bridge * Z) : hand := Some (r.1, if r.2 <? 0 then HDoomed else HFlows).
Lemma tri_bridge_in b rs : tri rs (Some (b, HFlows)) (bridge_pump_in b) (fun r => (rs, after_in r)).
Proof.
  unfold bridge_pump_in. destruct (br_sent_eof b); [by apply tri_ret|]. tstep win. destruct (win <=? 0); [by apply tri_ret|]. tstep a. destruct (upto _ (a_data a)) as [|c d].
  - destruct (0 <? a_n a).
    + eapply tri_bind; [by apply tri_plain|]. intros ? w []. by constructor.
    + destruct (a_n a =? 0); [by apply tri_ret|]. apply tri_doom. by apply tri_ret.
  - eapply tri_bind; [apply tri_fdin|]. intros ?. cbn [fst snd]. tstep short. destruct short; [apply tri_doom; by apply tri_ret|]. eapply tri_bind; [apply tri_chout|]. intros ?. by apply tri_ret.
Qed.
(** What is let go in one go. *)
Lemma let_go rl : acqs (map Rel rl) = [] /\ rels (map Rel rl) = rl /\ Forall (fun e => data_on e = None) (map Rel rl).
Proof.
  induction rl as [|r l (I1 & I2 & I3)]; [done|]. split_and!; [exact I1| |by constructor]. change (r :: rels (map Rel l) = r :: l). by rewrite I2.
Qed.
Lemma inv_drop rs b st w w' rl : inv rs (Some (b, st)) w -> tw_f w' = tw_f w -> tw_next w' = tw_next w -> tw_log w' = tw_log w ++ map Rel rl -> rl ≡ₚ bridge_res b -> inv rs None w'.
Proof.
  intros [] E1 E2 E3 P. assert (X : acqs (map Rel rl) = [] /\ rels (map Rel rl) = rl /\ Forall (fun e => data_on e = None) (map Rel rl)) by apply let_go. destruct X as (X1 & X2 & X3).
  constructor; rewrite ?E1, ?E2, ?E3, ?acqs_app, ?rels_app, ?X1, ?X2, ?app_nil_r; try done.
  - rewrite i_perm0, P. cbn [hand_res]. solve_Permutation.
  - eapply Forall_impl; [exact i_flow0|]. intros c Hc. clear -Hc X3. revert Hc. generalize (tw_log w). induction X3 as [|e l He _ IH]; intros l0 Hc; [by rewrite app_nil_r|]. change (e :: l) with ([e] ++ l). rewrite app_assoc. apply IH. apply flows_more; by rewrite ?He.
  - intros h Hh. apply Forall_app. split; [by apply i_quiet0|]. eapply Forall_impl; [exact X3|]. intros e ->. done.
Qed.
Lemma tri_down b st rs : tri rs (Some (b, st)) (bridge_down b) (fun _ => (rs, None)).
Proof.
  intros w H. cbn [fst snd]. eapply (inv_drop rs b st w _ ((if br_polled b then [(RPoll, br_fd b)] else []) ++ [(RFd, br_fd b); (RChan, br_chan b)])); [exact H|..].
  1-3: unfold bridge_down, chan_close_free, release, bind; destruct (br_polled b); cbn; unfold ask; cbn; destruct (tw_script w); cbn; rewrite <- ?app_assoc; cbn; done.
  unfold bridge_res. destruct (br_polled b); cbn; solve_Permutation.
Qed.

(** ** Tables *)
Lemma slots_put {A B} (g : A -> list B) l i a : l !! i = Some None -> slots g (<[i:=Some a]> l) ≡ₚ g a ++ slots g l.
Proof.
  revert i. induction l as [|o l IH]; intros [|i] H; try done; cbn in H; [injection H as ->; done|]. change (match o with Some a => g a | None => [] end ++ slots g (<[i:=Some a]> l) ≡ₚ g a ++ match o with Some a => g a | None => [] end ++ slots g l). rewrite (IH i H). solve_Permutation.
Qed.
Lemma slots_take {A B} (g : A -> list B) l i a : l !! i = Some (Some a) -> slots g l ≡ₚ g a ++ slots g (<[i:=None]> l).
Proof.
  intros H. assert (E : l = <[i:=Some a]> (<[i:=None]> l)) by by rewrite list_insert_insert_eq, list_insert_id. rewrite E at 1. apply slots_put. apply list_lookup_insert_eq. by eapply lookup_lt_Some.
Qed.
Lemma slots_swap {A B} (g : A -> list B) l i a b : l !! i = Some (Some a) -> g b = g a -> slots g (<[i:=Some b]> l) ≡ₚ slots g l.
Proof.
  intros H E. rewrite (slots_take g l i a H), <- E. assert (E' : <[i:=Some b]> l = <[i:=Some b]> (<[i:=None]> l)) by by rewrite list_insert_insert_eq. rewrite E'. apply slots_put. apply list_lookup_insert_eq. by eapply lookup_lt_Some.
Qed.
Lemma bridges_slots f : bridges f = slots (fun b => [b]) (sf_br f).
Proof. unfold bridges, slots. induction (sf_br f) as [|[b|] l IH]; cbn; [done|by rewrite IH|done]. Qed.
Ltac settled := unfold held, idle, set_br, set_ls, set_pd, bind, state, put; cbn [fst snd tw_f sf_br sf_ls sf_pd].
Lemma inv_put_br rs b i w : sf_br (tw_f w) !! i = Some None -> inv rs (Some (b, HFlows)) w -> inv rs None (set_br i (Some b) w).2.
Proof.
  intros Hi []. assert (P : held (tw_f (set_br i (Some b) w).2) ≡ₚ bridge_res b ++ held (tw_f w)) by (settled; rewrite (slots_put bridge_res _ _ _ Hi); by rewrite <- app_assoc). constructor; try done.
  - rewrite P. cbn [set_br bind state put fst snd tw_log]. rewrite i_perm0. cbn [hand_res app]. by rewrite <- !app_assoc.
  - rewrite bridges_slots. settled. cbn [tw_log]. rewrite (slots_put (fun b => [b]) _ _ _ Hi). constructor; [done|]. by rewrite <- bridges_slots.
Qed.
Lemma inv_take_br rs b i w : sf_br (tw_f w) !! i = Some (Some b) -> inv rs None w -> inv rs (Some (b, HFlows)) (set_br i None w).2.
Proof.
  intros Hi []. rewrite bridges_slots, (slots_take (fun b => [b]) _ _ _ Hi) in i_flow0. apply Forall_app in i_flow0 as [Fb F]. apply Forall_cons in Fb as [Fb _].
  assert (P : held (tw_f w) ≡ₚ bridge_res b ++ held (tw_f (set_br i None w).2)) by (settled; rewrite (slots_take bridge_res _ _ _ Hi); by rewrite <- app_assoc). constructor; try done.
  - cbn [set_br bind state put fst snd tw_log]. rewrite i_perm0, P. cbn [hand_res app]. by rewrite <- !app_assoc.
  - by rewrite bridges_slots.
Qed.
Lemma inv_put_pd rs p bs i w : sf_pd (tw_f w) !! i = Some None -> pend_fit p -> inv (pend_res p ++ rs) bs w -> inv rs bs (set_pd i (Some p) w).2.
Proof.
  intros Hi Hf []. assert (P : idle (tw_f (set_pd i (Some p) w).2) ≡ₚ pend_res p ++ idle (tw_f w)) by (settled; rewrite (slots_put pend_res _ _ _ Hi); solve_Permutation). constructor; try done.
  - unfold held. rewrite P. cbn. rewrite i_perm0. unfold held. solve_Permutation.
  - intros j q. cbn. destruct (decide (i = j)) as [<-|N]; [rewrite list_lookup_insert_eq by (by eapply lookup_lt_Some); by intros [= <-]|]. rewrite list_lookup_insert_ne by done. apply i_shape0.
  - intros h Hh. apply i_quiet0. destruct Hh as [Hh|Hh]; [by left|]. right. rewrite handles_app, P in Hh. rewrite !handles_app in *. set_solver.
Qed.
Lemma inv_take_pd rs p bs i w : sf_pd (tw_f w) !! i = Some (Some p) -> inv rs bs w -> inv (pend_res p ++ rs) bs (set_pd i None w).2.
Proof.
  intros Hi []. assert (P : idle (tw_f w) ≡ₚ pend_res p ++ idle (tw_f (set_pd i None w).2)) by (settled; rewrite (slots_take pend_res _ _ _ Hi); solve_Permutation). constructor; try done.
  - cbn [set_pd bind state put fst snd tw_log]. rewrite i_perm0. unfold held. rewrite P. cbn. solve_Permutation.
  - intros j q. cbn. destruct (decide (i = j)) as [<-|N]; [rewrite list_lookup_insert_eq by (by eapply lookup_lt_Some); done|]. rewrite list_lookup_insert_ne by done. apply i_shape0.
  - intros h Hh. apply i_quiet0. destruct Hh as [Hh|Hh]; [by left|]. right. rewrite handles_app, P. rewrite !handles_app in *. set_solver.
Qed.
Lemma inv_put_ls rs l bs i w : sf_ls (tw_f w) !! i = Some None -> inv (listener_res l ++ rs) bs w -> inv rs bs (set_ls i (Some l) w).2.
Proof.
  intros Hi []. assert (P : idle (tw_f (set_ls i (Some l) w).2) ≡ₚ listener_res l ++ idle (tw_f w)) by (settled; rewrite (slots_put listener_res _ _ _ Hi); solve_Permutation). constructor; try done.
  - unfold held. rewrite P. cbn. rewrite i_perm0. unfold held. solve_Permutation.
  - intros h Hh. apply i_quiet0. destruct Hh as [Hh|Hh]; [by left|]. right. rewrite handles_app, P in Hh. rewrite !handles_app in *. set_solver.
Qed.
Lemma inv_take_ls rs l bs i w : sf_ls (tw_f w) !! i = Some (Some l) -> inv rs bs w -> inv (listener_res l ++ rs) bs (set_ls i None w).2.
Proof.
  intros Hi []. assert (P : idle (tw_f w) ≡ₚ listener_res l ++ idle (tw_f (set_ls i None w).2)) by (settled; rewrite (slots_take listener_res _ _ _ Hi); solve_Permutation). constructor; try done.
  - cbn [set_ls bind state put fst snd tw_log]. rewrite i_perm0. unfold held. rewrite P. cbn. solve_Permutation.
  - intros h Hh. apply i_quiet0. destruct Hh as [Hh|Hh]; [by left|]. right. rewrite handles_app, P. rewrite !handles_app in *. set_solver.
Qed.
Lemma inv_mark_ls rs l l' bs i w : sf_ls (tw_f w) !! i = Some (Some l) -> listener_res l' = listener_res l -> inv rs bs w -> inv rs bs (set_ls i (Some l') w).2.
Proof.
  intros Hi E []. assert (P : idle (tw_f (set_ls i (Some l') w).2) ≡ₚ idle (tw_f w)) by (settled; by rewrite (slots_swap listener_res _ _ _ _ Hi E)). constructor; try done.
  - unfold held. rewrite P. cbn. rewrite i_perm0. unfold held. solve_Permutation.
  - intros h Hh. apply i_quiet0. destruct Hh as [Hh|Hh]; [by left|]. right. rewrite handles_app, P in Hh. by rewrite handles_app.
Qed.

(** ** What an operation leaves as it is *)
Definition keeps {A B} (g : sshfwd -> B) (m : M A) : Prop := forall w, g (tw_f (m w).2) = g (tw_f w).
Lemma keeps_bind {A A' B} (g : sshfwd -> B) (m : M A) (k : A -> M A') : keeps g m -> (forall a, keeps g (k a)) -> keeps g (bind m k).
Proof. intros Hm Hk w. unfold bind. specialize (Hm w). destruct (m w) as [a w']. cbn in Hm. by rewrite Hk. Qed.
Lemma keeps_ret {A B} (g : sshfwd -> B) (a : A) : keeps g (ret a).
Proof. done. Qed.
Lemma keeps_ask {B} (g : sshfwd -> B) : keeps g ask.
Proof. intros w. unfold ask. by destruct (tw_script w). Qed.
Lemma keeps_log {B} (g : sshfwd -> B) e : keeps g (log e).
Proof. done. Qed.
Lemma keeps_state {B} (g : sshfwd -> B) : keeps g state.
Proof. done. Qed.
Lemma keeps_acquire {B} (g : sshfwd -> B) k : keeps g (acquire k).
Proof. done. Qed.
Create HintDb keeps.
#[export] Hint Resolve keeps_ret keeps_ask keeps_log keeps_state keeps_acquire : keeps.
Ltac keeps_go := repeat first [solve [eauto with keeps]|apply keeps_bind; [|intros ?]|progress cbn [fst snd]|case_match].
Lemma keeps_asks {A B} (g : sshfwd -> B) (h : ans -> A) : keeps g (asks h).
Proof. unfold asks. keeps_go. Qed.
Lemma keeps_release {B} (g : sshfwd -> B) k h : keeps g (release k h).
Proof. done. Qed.
Lemma keeps_release_opt {B} (g : sshfwd -> B) k o : keeps g (release_opt k o).
Proof. by destruct o. Qed.
#[export] Hint Resolve keeps_asks keeps_release keeps_release_opt : keeps.
Lemma keeps_room {B} (g : sshfwd -> B) : keeps g fwd_room.
Proof. unfold fwd_room. keeps_go. Qed.
#[export] Hint Resolve keeps_room : keeps.
Lemma keeps_sync {B} (g : sshfwd -> B) b : keeps g (bridge_poll_sync b).
Proof. unfold bridge_poll_sync. keeps_go. Qed.
Lemma keeps_flush {B} (g : sshfwd -> B) fuel b : keeps g (flush fuel b).
Proof. revert b. induction fuel as [|fuel IH]; intros b; cbn [flush]; destruct (br_buf b); keeps_go. Qed.
#[export] Hint Resolve keeps_sync keeps_flush : keeps.
Lemma keeps_out {B} (g : sshfwd -> B) fuel b : keeps g (pump_out fuel b).
Proof. revert b. induction fuel as [|fuel IH]; intros b; cbn [pump_out]; keeps_go. Qed.
#[export] Hint Resolve keeps_out : keeps.
Lemma keeps_left {B} (g : sshfwd -> B) : keeps g left_over.
Proof. done. Qed.
#[export] Hint Resolve keeps_left : keeps.
Lemma keeps_bridge_out {B} (g : sshfwd -> B) b : keeps g (bridge_pump_out b).
Proof. unfold bridge_pump_out. keeps_go. Qed.
Lemma keeps_bridge_in {B} (g : sshfwd -> B) b : keeps g (bridge_pump_in b).
Proof. unfold bridge_pump_in. keeps_go. Qed.
Lemma keeps_chan {B} (g : sshfwd -> B) c : keeps g (chan_close_free c).
Proof. unfold chan_close_free. keeps_go. Qed.
Lemma keeps_acquire_if {B} (g : sshfwd -> B) k : keeps g (acquire_if k).
Proof. unfold acquire_if. keeps_go. Qed.
#[export] Hint Resolve keeps_bridge_out keeps_bridge_in keeps_chan keeps_acquire_if : keeps.
Lemma keeps_loop {B} (g : sshfwd -> B) n : keeps g (connect_loop n).
Proof. induction n as [|n IH]; cbn [connect_loop]; unfold connect_one; keeps_go. Qed.
#[export] Hint Resolve keeps_loop : keeps.
Lemma keeps_begin {B} (g : sshfwd -> B) host port : keeps g (pend_connect_begin host port).
Proof. unfold pend_connect_begin. keeps_go. Qed.
Lemma keeps_wait {B} (g : sshfwd -> B) p : keeps g (connect_wait p).
Proof. unfold connect_wait, finish_connect, fwd_now_ms, pend_connect_next. keeps_go. Qed.
Lemma keeps_answer {B} (g : sshfwd -> B) m v : keeps g (msg_answer m v).
Proof. unfold msg_answer. keeps_go. Qed.
Lemma keeps_res {B} (g : sshfwd -> B) p : keeps g (pend_res_free p).
Proof. unfold pend_res_free. keeps_go. Qed.
Lemma keeps_set_br_pd i b : keeps sf_pd (set_br i b).
Proof. done. Qed.
Lemma keeps_set_br_ls i b : keeps sf_ls (set_br i b).
Proof. done. Qed.
#[export] Hint Resolve keeps_set_br_pd keeps_set_br_ls : keeps.
#[export] Hint Resolve keeps_begin keeps_wait keeps_answer keeps_res : keeps.
Lemma keeps_up_pd fd c : keeps sf_pd (bridge_up fd c).
Proof. unfold bridge_up, bridge_slot. keeps_go. Qed.
Lemma keeps_up_ls fd c : keeps sf_ls (bridge_up fd c).
Proof. unfold bridge_up, bridge_slot. keeps_go. Qed.
#[export] Hint Resolve keeps_up_pd keeps_up_ls : keeps.
Lemma keeps_step_pd p : keeps sf_pd (pend_step p).
Proof. unfold pend_step, up_opt, chan_drop, fwd_now_ms. keeps_go. Qed.
Lemma keeps_listen {B} (g : sshfwd -> B) a p : keeps g (listen_on a p).
Proof. unfold listen_on. keeps_go. Qed.

(** ** Coming up *)
Lemma quiet_streams h l : quiet h l -> fdin h l = [] /\ fdout h l = [] /\ chin h l = [] /\ chout h l = [].
Proof.
  induction 1 as [|e l He _ (I1 & I2 & I3 & I4)]; [done|]. change (e :: l) with ([e] ++ l). destruct (streams_app h [e] l) as (-> & -> & -> & ->). destruct (other_streams h e He) as (-> & -> & -> & ->). by rewrite I1, I2, I3, I4.
Qed.
Lemma inv_make rs fd c w : inv ((RFd, fd) :: (RChan, c) :: rs) None w -> inv rs (Some (mk_br fd c false false [], HFlows)) w.
Proof.
  intros []. constructor; try done.
  - rewrite i_perm0. unfold bridge_res, hand_res. cbn. solve_Permutation.
  - destruct (quiet_streams fd (tw_log w)) as (Q1 & Q2 & _); [apply i_quiet0; right; unfold handles; cbn; set_solver|]. destruct (quiet_streams c (tw_log w)) as (_ & _ & Q3 & Q4); [apply i_quiet0; right; unfold handles; cbn; set_solver|]. unfold hand_ok, flows. cbn [br_fd br_chan br_buf]. by rewrite Q1, Q2, Q3, Q4.
  - intros h Hh. apply i_quiet0. destruct Hh as [Hh|Hh]; [by left|]. right. unfold handles in *. cbn. set_solver.
Qed.
Lemma free_slot_none {A} (l : list (option A)) i : unused_slot l = Some i -> l !! i = Some None.
Proof. unfold unused_slot. destruct (list_find _ l) as [[j o]|] eqn:E; [|done]. intros [= <-]. apply list_find_Some in E as (E & -> & _). done. Qed.
Lemma tri_chan c rs bs : tri ((RChan, c) :: rs) bs (chan_close_free c) (fun _ => (rs, bs)).
Proof. unfold chan_close_free. tstep a. apply tri_release. Qed.
Lemma tri_refuse fd c rs : tri ((RFd, fd) :: (RChan, c) :: rs) None (run! release RFd fd; run! chan_close_free c; ret false) (fun _ => (rs, None)).
Proof. eapply tri_bind; [apply tri_release|]. intros ?. eapply tri_bind; [apply tri_chan|]. intros ?. by apply tri_ret. Qed.
Lemma tri_up fd c rs : tri ((RFd, fd) :: (RChan, c) :: rs) None (bridge_up fd c) (fun _ => (rs, None)).
Proof.
  intros w H. unfold bridge_up, bridge_slot. unfold bind at 1 2. cbn [state]. cbn [ret]. destruct (unused_slot (sf_br (tw_f w))) as [i|] eqn:E.
  - apply free_slot_none in E. apply inv_make in H. pose proof (tri_sync _ _ _ H) as Hs. pose proof (keeps_sync sf_br (mk_br fd c false false []) w) as K. unfold bind. destruct (bridge_poll_sync _ w) as [b w1]. cbn [fst snd] in *. pose proof (inv_put_br rs b i w1 ltac:(by rewrite K) Hs) as R. unfold bind, state, put, set_br in R |- *. exact R.
  - by apply tri_refuse.
Qed.
Lemma tri_loop n rs bs : tri rs bs (connect_loop n) (fun r => (opt_res RFd r.1 ++ rs, bs)).
Proof.
  induction n as [|n IH]; cbn [connect_loop]; [by apply tri_ret|]. unfold connect_one. eapply tri_bind; [by apply tri_acquire_if|]. intros [h|]; cbn [fst snd opt_res app]; [by apply tri_ret|exact IH].
Qed.
Definition begun (r : option (nat * nat * Z * bytes)) : list res := match r with Some (fd, ai, _, _) => [(RFd, fd); (RAddr, ai)] | None => [] end.
Lemma tri_begin host port rs bs : tri rs bs (pend_connect_begin host port) (fun r => (begun r ++ rs, bs)).
Proof.
  unfold pend_connect_begin. tstep n. destruct (n <=? 0); [by apply tri_ret|]. eapply tri_bind; [by apply tri_acquire|]. intros r. cbn [fst snd]. eapply tri_bind; [apply tri_loop|]. intros [fd next]. cbn [fst snd]. destruct fd as [h|]; cbn [opt_res app]; [by apply tri_ret|].
  eapply tri_bind; [apply tri_release|]. intros ?. by apply tri_ret.
Qed.

(** ** Pending entries *)
Definition same_but_fd (p q : fwd_pend) : Prop := pd_kind q = pd_kind p /\ pd_msg q = pd_msg p /\ pd_chan q = pd_chan p /\ pd_res q = pd_res p.
Lemma shape_same p q : same_but_fd p q -> pend_shape p -> pend_shape q.
Proof. intros (E1 & E2 & E3 & E4). unfold pend_shape. by rewrite E1, E2, E3, E4. Qed.
Lemma tri_next p rs bs : tri (pend_res p ++ rs) bs (pend_connect_next p) (fun r => (pend_res r.1 ++ rs, bs)).
Proof.
  unfold pend_connect_next. eapply tri_pre with (rs' := opt_res RFd (pd_fd p) ++ opt_res RMsg (pd_msg p) ++ opt_res RChan (pd_chan p) ++ opt_res RAddr (pd_res p) ++ rs); [unfold pend_res; solve_Permutation|].
  eapply tri_bind; [apply tri_release_opt|]. intros ?. cbn [fst snd]. eapply tri_bind; [apply tri_loop|]. intros [fd next]. cbn [fst snd]. apply tri_ret; [|done]. cbn [fst]. unfold pend_res, set_fd. cbn [pd_fd pd_msg pd_chan pd_res]. solve_Permutation.
Qed.
(** Who still waits or is connected has a descriptor. *)
Definition waited (p : fwd_pend) (r : fwd_pend * wait_state) : Prop := same_but_fd p r.1 /\ (r.2 <> GaveUp -> is_Some (pd_fd r.1)).
Lemma wait_fact p w : is_Some (pd_fd p) -> waited p (connect_wait p w).1.
Proof.
  intros Hp. unfold connect_wait, bind. destruct (finish_connect w) as [rc w1]. destruct (rc =? 1); [done|]. destruct (fwd_now_ms w1) as [now w2]. destruct (_ <=? _); [done|]. destruct (rc =? 0); [done|]. unfold pend_connect_next, bind. destruct (release_opt RFd (pd_fd p) w2) as [[] w3]. destruct (connect_loop _ w3) as [[fd next] w4]. cbn. split; [done|]. destruct fd; [done|]. by intros [].
Qed.
Lemma tri_wait p rs bs : tri (pend_res p ++ rs) bs (connect_wait p) (fun r => (pend_res r.1 ++ rs, bs)).
Proof.
  unfold connect_wait, finish_connect, fwd_now_ms. tstep rc. destruct (rc =? 1); [by apply tri_ret|]. tstep now. destruct (_ <=? _); [by apply tri_ret|]. destruct (rc =? 0); [by apply tri_ret|]. eapply tri_bind; [apply tri_next|]. intros [q on]. by apply tri_ret.
Qed.
Lemma tri_answer m v rs bs : tri (opt_res RMsg m ++ rs) bs (msg_answer m v) (fun _ => (rs, bs)).
Proof. destruct m as [h|]; cbn [msg_answer]; [|by apply tri_ret]. eapply tri_bind; [by apply tri_plain|]. intros ?. apply tri_release. Qed.
Lemma tri_res p rs bs : tri (opt_res RAddr (pd_res p) ++ rs) bs (pend_res_free p) (fun _ => (rs, bs)).
Proof. unfold pend_res_free. eapply tri_bind; [apply tri_release_opt|]. intros ?. by apply tri_ret. Qed.
Lemma tri_up_opt fd c rs : is_Some fd -> is_Some c -> tri (opt_res RFd fd ++ opt_res RChan c ++ rs) None (up_opt fd c) (fun _ => (rs, None)).
Proof. intros [h ->] [g ->]. cbn [up_opt]. eapply tri_bind; [apply tri_up|]. intros ?. by apply tri_ret. Qed.
Lemma tri_drop c rs bs : tri (opt_res RChan c ++ rs) bs (chan_drop c) (fun _ => (rs, bs)).
Proof. destruct c as [c|]; cbn [chan_drop]; [apply tri_chan|by apply tri_ret]. Qed.
Definition kept (o : option fwd_pend) : list res := match o with Some p => pend_res p | None => [] end.
Lemma tri_srv p rs : pend_fit p -> pd_kind p = PEND_SRV_CONNECT -> tri (pend_res p ++ rs) None (pend_step p) (fun o => (kept o ++ rs, None)).
Proof.
  intros [Hs Hf] Hk. unfold pend_step. rewrite Hk. unfold pend_shape in Hs. rewrite Hk in Hs. eapply (tri_bind_fact (waited p)); [apply tri_wait|intros w; by apply wait_fact|]. intros [q st] [(E1 & E2 & E3 & E4) F]. cbn [fst snd] in *. assert (Hc : pd_chan q = None) by (rewrite E3; apply Hs). destruct st; [by apply tri_ret|..].
  - eapply tri_bind; [by apply tri_acquire_if|]. intros c. cbn [fst snd]. eapply tri_pre with (rs' := opt_res RMsg (pd_msg q) ++ opt_res RAddr (pd_res q) ++ opt_res RFd (pd_fd q) ++ opt_res RChan c ++ rs); [unfold pend_res; rewrite Hc; cbn [opt_res app]; solve_Permutation|].
    eapply tri_bind; [apply tri_answer|]. intros ?. cbn [fst snd]. eapply tri_bind; [apply tri_res|]. intros ?. cbn [fst snd]. eapply tri_bind with (Q := fun _ => (rs, None)); [|intros ?; by apply tri_ret]. destruct c as [c|]; [apply tri_up_opt; [by apply F|done]|apply tri_release_opt].
  - eapply tri_pre with (rs' := opt_res RMsg (pd_msg q) ++ opt_res RAddr (pd_res q) ++ opt_res RFd (pd_fd q) ++ rs); [unfold pend_res; rewrite Hc; cbn [opt_res app]; solve_Permutation|].
    eapply tri_bind; [apply tri_answer|]. intros ?. cbn [fst snd]. eapply tri_bind; [apply tri_res|]. intros ?. cbn [fst snd]. eapply tri_bind; [apply tri_release_opt|]. intros ?. by apply tri_ret.
Qed.
Lemma tri_cli p rs : pend_fit p -> pd_kind p = PEND_CLI_CONNECT -> tri (pend_res p ++ rs) None (pend_step p) (fun o => (kept o ++ rs, None)).
Proof.
  intros [Hs Hf] Hk. unfold pend_step. rewrite Hk. unfold pend_shape in Hs. rewrite Hk in Hs. eapply (tri_bind_fact (waited p)); [apply tri_wait|intros w; by apply wait_fact|]. intros [q st] [(E1 & E2 & E3 & E4) F]. cbn [fst snd] in *. assert (Hm : pd_msg q = None) by (rewrite E2; apply Hs). assert (Hc : is_Some (pd_chan q)) by (rewrite E3; apply Hs). destruct st; [by apply tri_ret|..].
  - eapply tri_pre with (rs' := opt_res RAddr (pd_res q) ++ opt_res RFd (pd_fd q) ++ opt_res RChan (pd_chan q) ++ rs); [unfold pend_res; rewrite Hm; cbn [opt_res app]; solve_Permutation|].
    eapply tri_bind; [apply tri_res|]. intros ?. cbn [fst snd]. eapply tri_bind; [apply tri_up_opt; [by apply F|done]|]. intros ?. by apply tri_ret.
  - eapply tri_pre with (rs' := opt_res RAddr (pd_res q) ++ opt_res RFd (pd_fd q) ++ opt_res RChan (pd_chan q) ++ rs); [unfold pend_res; rewrite Hm; cbn [opt_res app]; solve_Permutation|].
    eapply tri_bind; [apply tri_res|]. intros ?. cbn [fst snd]. eapply tri_bind; [apply tri_release_opt|]. intros ?. cbn [fst snd]. eapply tri_bind; [apply tri_drop|]. intros ?. by apply tri_ret.
Qed.
Lemma tri_rev p rs : pend_fit p -> pd_kind p = PEND_REV_OPEN -> tri (pend_res p ++ rs) None (pend_step p) (fun o => (kept o ++ rs, None)).
Proof.
  intros [Hs Hf] Hk. unfold pend_step, fwd_now_ms. rewrite Hk. unfold pend_shape in Hs. rewrite Hk in Hs. destruct Hs as (Hm & Hc & Hr). assert (P : pend_res p ++ rs ≡ₚ opt_res RFd (pd_fd p) ++ opt_res RChan (pd_chan p) ++ rs) by (unfold pend_res; rewrite Hm, Hr; cbn [opt_res app]; solve_Permutation).
  tstep rc. destruct (rc =? 1).
  - eapply tri_pre; [exact P|]. eapply tri_bind; [by apply tri_up_opt|]. intros ?. by apply tri_ret.
  - eapply tri_bind with (Q := fun _ => (pend_res p ++ rs, None)); [destruct (rc =? 0); [tstep now; by apply tri_ret|by apply tri_ret]|]. intros keep. cbn [fst snd]. destruct keep; [by apply tri_ret|].
    eapply tri_pre; [exact P|]. eapply tri_bind; [apply tri_release_opt|]. intros ?. cbn [fst snd]. eapply tri_bind; [apply tri_release_opt|]. intros ?. by apply tri_ret.
Qed.
Lemma tri_pend p rs : pend_fit p -> tri (pend_res p ++ rs) None (pend_step p) (fun o => (kept o ++ rs, None)).
Proof. intros H. destruct (pd_kind p) eqn:E; [by apply tri_srv|by apply tri_cli|by apply tri_rev]. Qed.
Lemma step_fit p w q : pend_fit p -> (pend_step p w).1 = Some q -> pend_fit q.
Proof.
  intros Hp. pose proof Hp as [Hs Hf]. unfold pend_step. assert (W : forall k, (forall q' st w', waited p (q', st) -> (k (q', st) w').1 = Some q -> pend_fit q) -> (bind (connect_wait p) k w).1 = Some q -> pend_fit q).
  { intros k Hk. unfold bind. pose proof (wait_fact p w Hf) as F. destruct (connect_wait p w) as [[q' st] w']. by apply Hk. }
  destruct (pd_kind p).
  - apply W. intros q' st w' [E F]. destruct st; cbn [fst snd] in *; [intros [= <-]; split; [by eapply shape_same|by apply F]|..]; unfold bind; repeat case_match; done.
  - apply W. intros q' st w' [E F]. destruct st; cbn [fst snd] in *; [intros [= <-]; split; [by eapply shape_same|by apply F]|..]; unfold bind; repeat case_match; done.
  - unfold bind. destruct (asks _ w) as [rc w1]. destruct (rc =? 1); [by case_match|]. destruct (rc =? 0); cbn; repeat case_match; cbn; try done; by intros [= <-].
Qed.

(** ** Turns *)
Lemma inv_none_pd rs bs i w : sf_pd (tw_f w) !! i = Some None -> inv rs bs w -> inv rs bs (set_pd i None w).2.
Proof. intros Hi H. eapply inv_same, H; try done. cbn. rewrite list_insert_id by done. by destruct (tw_f w). Qed.
Lemma at_some {A} (l : list (option A)) i (a : A) : match l !! i with Some o => o | None => None end = Some a -> l !! i = Some (Some a).
Proof. destruct (l !! i) as [o|]; [by intros ->|done]. Qed.
Lemma slot_cleared {A} (l : list (option A)) i a : l !! i = Some (Some a) -> <[i:=None]> l !! i = Some None.
Proof. intros H. apply list_lookup_insert_eq. by eapply lookup_lt_Some. Qed.
Lemma tri_pend_turn i rs : tri rs None (pend_turn i) (fun _ => (rs, None)).
Proof.
  intros w H. unfold pend_turn, pd_at. unfold bind at 1 2 3. cbn [state ret]. destruct (match sf_pd (tw_f w) !! i with Some o => o | None => None end) as [p|] eqn:E; [|done]. apply at_some in E.
  pose proof (i_shape _ _ _ H i p E) as Hp. pose proof (inv_take_pd rs p None i w E H) as H1. unfold bind at 1. destruct (set_pd i None w) as [u w1] eqn:E1. cbn [snd] in H1. assert (S1 : sf_pd (tw_f w1) !! i = Some None) by (injection E1 as _ <-; cbn; by eapply slot_cleared).
  pose proof (tri_pend p rs Hp w1 H1) as H2. pose proof (keeps_step_pd p w1) as K. unfold bind. destruct (pend_step p w1) as [r w2] eqn:E2. cbn [fst snd] in *. rewrite <- K in S1. destruct r as [q|]; [|by apply inv_none_pd]. apply inv_put_pd; [done| |done]. eapply (step_fit p w1); [done|by rewrite E2].
Qed.
Lemma tri_each l g rs : (forall i, tri rs None (g i) (fun _ => (rs, None))) -> tri rs None (each l g) (fun _ => (rs, None)).
Proof. intros H. induction l as [|i l IH]; cbn [each]; [by apply tri_ret|]. eapply tri_bind; [apply H|]. intros ?. exact IH. Qed.
Lemma bind_at {A B} (m : M A) (k : A -> M B) w a w' : m w = (a, w') -> bind m k w = k a w'.
Proof. intros E. unfold bind. by rewrite E. Qed.
(** Taking a bridge out, working on it, and putting it back or ending it. *)
Lemma tri_with_bridge {A} i rs (k : fwd_bridge -> M A) (other : M A) Q :
  (forall b w, sf_br (tw_f w) !! i = Some None -> inv rs (Some (b, HFlows)) w -> inv (Q (k b w).1).1 (Q (k b w).1).2 (k b w).2) -> tri rs None other Q ->
  tri rs None (do! b <- br_at i; match b with Some b => run! set_br i None; k b | None => other end) Q.
Proof.
  intros Hk Ho w H. rewrite (bind_at (br_at i) _ w _ w eq_refl). destruct (match sf_br (tw_f w) !! i with Some o => o | None => None end) as [b|] eqn:E; [|by apply Ho]. apply at_some in E.
  pose proof (inv_take_br rs b i w E H) as H1. destruct (set_br i None w) as [u w1] eqn:E1. rewrite (bind_at (set_br i None) _ w u w1 E1). cbn [snd] in H1. apply Hk; [|done]. injection E1 as _ <-. cbn. by eapply slot_cleared.
Qed.
Lemma tri_slices l moved rs : tri rs None (slices l moved) (fun _ => (rs, None)).
Proof.
  revert moved. induction l as [|i l IH]; intros moved; cbn [slices]; [by apply tri_ret|]. eapply tri_bind; [apply tri_room|]. intros room. cbn [fst snd]. destruct (negb room); [by apply tri_ret|]. apply (tri_with_bridge i rs (fun b => do! (b, rc) <- bridge_pump_in b; run! (if rc <? 0 then bridge_down b else set_br i (Some b)); slices l (moved || (0 <? rc)))); [|apply IH].
  intros b w S H. pose proof (tri_bridge_in b rs w H) as H1. pose proof (keeps_bridge_in sf_br b w) as K. destruct (bridge_pump_in b w) as [[b1 rc] w1] eqn:E. rewrite (bind_at _ _ _ _ _ E). cbn [fst snd] in *. unfold after_in in H1. cbn [fst snd] in H1. rewrite <- K in S. destruct (rc <? 0).
  - pose proof (tri_down b1 _ rs w1 H1) as H2. destruct (bridge_down b1 w1) as [u w2] eqn:E2. rewrite (bind_at _ _ _ _ _ E2). cbn [fst snd] in H2. by apply IH.
  - pose proof (inv_put_br rs b1 i w1 S H1) as H2. destruct (set_br i (Some b1) w1) as [u w2] eqn:E2. rewrite (bind_at _ _ _ _ _ E2). by apply IH.
Qed.
Lemma tri_bulk fuel rs : tri rs None (bulk fuel) (fun _ => (rs, None)).
Proof.
  induction fuel as [|fuel IH]; cbn [bulk]; [by apply tri_plain|]. eapply tri_bind; [apply tri_slices|]. intros moved. cbn [fst snd]. destruct moved; [|by apply tri_ret]. eapply tri_bind; [apply tri_room|]. intros room. cbn [fst snd]. destruct room; [exact IH|by apply tri_ret].
Qed.
Lemma tri_drain i rs : tri rs None (drain_turn i) (fun _ => (rs, None)).
Proof.
  unfold drain_turn. apply tri_with_bridge; [|by apply tri_ret]. intros b w S H. pose proof (tri_bridge_out b rs w H) as H1. pose proof (keeps_bridge_out sf_br b w) as K. destruct (bridge_pump_out b w) as [[b1 ok] w1] eqn:E. rewrite (bind_at _ _ _ _ _ E). cbn [fst snd] in *. rewrite <- K in S. clear w H K E.
  set (d := if negb ok then ret true else _). assert (Hd : tri rs (Some (b1, HFlows)) d (fun _ => (rs, Some (b1, HFlows))) /\ keeps sf_br d).
  { unfold d. destruct (negb ok); [split; [by apply tri_ret|done]|]. split; [|keeps_go]. tstep open. destruct (negb open); [by apply tri_ret|]. tstep eof. by apply tri_ret. }
  destruct Hd as [D1 D2]. specialize (D1 w1 H1). specialize (D2 w1). destruct (d w1) as [down w2] eqn:E2. rewrite (bind_at _ _ _ _ _ E2). cbn [fst snd] in *. rewrite <- D2 in S. destruct down; [by apply (tri_down b1 HFlows)|].
  pose proof (tri_sync b1 rs w2 D1) as H3. pose proof (keeps_sync sf_br b1 w2) as K3. destruct (bridge_poll_sync b1 w2) as [b2 w3] eqn:E3. rewrite (bind_at _ _ _ _ _ E3). cbn [fst snd] in *. apply inv_put_br; [by rewrite K3|done].
Qed.

(** ** With something known of the tables *)
Definition triP {A} (P : sshfwd -> Prop) (rs : list res) (bs : hand) (m : M A) (Q : A -> list res * hand) : Prop :=
  forall w, P (tw_f w) -> inv rs bs w -> inv (Q (m w).1).1 (Q (m w).1).2 (m w).2.
Lemma triP_bind {A B C} (g : sshfwd -> C) (p : C -> Prop) rs bs (m : M A) (k : A -> M B) Q R :
  tri rs bs m Q -> keeps g m -> (forall a, triP (fun f => p (g f)) (Q a).1 (Q a).2 (k a) R) -> triP (fun f => p (g f)) rs bs (bind m k) R.
Proof. intros Hm K Hk w HP H. specialize (Hm w H). specialize (K w). unfold bind. destruct (m w) as [a w']. cbn [fst snd] in *. apply Hk; [by rewrite K|done]. Qed.
Lemma triP_tri {A} P rs bs (m : M A) Q : tri rs bs m Q -> triP P rs bs m Q.
Proof. intros H w _. apply H. Qed.
Lemma tri_pend_slot {A} rs bs (k : option nat -> M A) Q :
  tri rs bs (k None) Q -> (forall i, triP (fun f => sf_pd f !! i = Some None) rs bs (k (Some i)) Q) -> tri rs bs (do! i <- pend_slot; k i) Q.
Proof.
  intros H0 H1 w H. rewrite (bind_at pend_slot _ w _ w eq_refl). destruct (unused_slot (sf_pd (tw_f w))) as [i|] eqn:E; [|by apply H0]. apply H1; [by apply free_slot_none|done].
Qed.
Lemma tri_ls_slot {A} rs bs (k : option nat -> M A) Q :
  tri rs bs (k None) Q -> (forall i, triP (fun f => sf_ls f !! i = Some None) rs bs (k (Some i)) Q) -> tri rs bs (do! i <- listener_slot; k i) Q.
Proof.
  intros H0 H1 w H. rewrite (bind_at listener_slot _ w _ w eq_refl). destruct (unused_slot (sf_ls (tw_f w))) as [i|] eqn:E; [|by apply H0]. apply H1; [by apply free_slot_none|done].
Qed.
Lemma triP_put_pd i p rs bs : pend_fit p -> triP (fun f => sf_pd f !! i = Some None) (pend_res p ++ rs) bs (set_pd i (Some p)) (fun _ => (rs, bs)).
Proof. intros Hf w S H. by apply inv_put_pd. Qed.
Lemma triP_put_ls i l rs bs : triP (fun f => sf_ls f !! i = Some None) (listener_res l ++ rs) bs (set_ls i (Some l)) (fun _ => (rs, bs)).
Proof. intros w S H. by apply inv_put_ls. Qed.
Lemma triP_pre {A} P rs rs' bs (m : M A) Q : rs ≡ₚ rs' -> triP P rs' bs m Q -> triP P rs bs m Q.
Proof. intros E H w HP Hw. apply H; [done|]. by eapply inv_perm. Qed.
Lemma keeps_peer {B} (g : sshfwd -> B) : keeps g peer_name.
Proof. unfold peer_name. keeps_go. Qed.
#[export] Hint Resolve keeps_peer keeps_listen : keeps.
Ltac pstep g := eapply (triP_bind g (fun t => t !! _ = _)); [first [apply tri_ask|apply tri_asks|apply tri_state|by apply tri_acquire_if|apply tri_begin]|solve [eauto with keeps]|].

Lemma tri_remote_accept l rs : tri rs None (srv_remote_accept l) (fun _ => (rs, None)).
Proof.
  unfold srv_remote_accept, peer_name, fwd_now_ms. eapply tri_bind; [by apply tri_acquire_if|]. intros [fd|]; cbn [fst snd opt_res app]; [|by apply tri_ret]. apply tri_pend_slot; [apply tri_release|]. intros i.
  pstep sf_pd. intros [c|]; cbn [fst snd opt_res app]; [|apply triP_tri, tri_release]. pstep sf_pd. intros [orig oport]. cbn [fst snd]. pstep sf_pd. intros now. cbn [fst snd].
  eapply triP_pre; [|apply triP_put_pd]; [unfold pend_res; cbn [pd_fd pd_msg pd_chan pd_res opt_res app]; solve_Permutation|]. split; [|by eexists]. unfold pend_shape. cbn. by split_and!; [|eexists|].
Qed.
Lemma tri_local_accept i l rs : triP (fun f => sf_ls f !! i = Some (Some l)) rs None (cli_local_accept i l) (fun _ => (rs, None)).
Proof.
  unfold cli_local_accept, peer_name. pstep sf_ls. intros [fd|]; cbn [fst snd opt_res app]; [|by apply triP_tri, tri_ret]. pstep sf_ls. intros [c|]; cbn [fst snd opt_res app]; [|apply triP_tri, tri_release]. pstep sf_ls. intros ?. cbn [fst snd]. pstep sf_ls. intros ok. cbn [fst snd]. destruct ok.
  - apply triP_tri. eapply tri_pre; [apply perm_swap|]. eapply tri_bind; [apply tri_up|]. intros ?. by apply tri_ret.
  - intros w S H. set (m := if ls_declined l then ret tt else _). assert (Hm : inv ((RChan, c) :: (RFd, fd) :: rs) None (m w).2).
    { unfold m. destruct (ls_declined l); [done|]. set (l' := mk_ls _ _ _ _ _ true). pose proof (inv_mark_ls _ l l' None i w S eq_refl H) as H1. destruct (set_ls i (Some l') w) as [u w1] eqn:E. rewrite (bind_at _ _ _ _ _ E). cbn [snd] in H1. rewrite (bind_at state _ w1 _ w1 eq_refl). destruct (sf_told (tw_f w1)); [|done]. by apply (tri_plain (Declined (target_text l)) _ None eq_refl). }
    destruct (m w) as [u w1] eqn:E. rewrite (bind_at _ _ _ _ _ E). cbn [fst snd] in *. revert w1 E Hm. intros w1 _ Hm. apply (inv_perm _ ((RFd, fd) :: (RChan, c) :: rs)) in Hm; [|apply perm_swap]. revert w1 Hm. change (tri ((RFd, fd) :: (RChan, c) :: rs) None (run! release RFd fd; release RChan c) (fun _ => (rs, None))). eapply tri_bind; [apply tri_release|]. intros ?. apply tri_release.
Qed.
Lemma tri_listener_turn i rs : tri rs None (listener_turn i) (fun _ => (rs, None)).
Proof.
  intros w H. unfold listener_turn. rewrite (bind_at (ls_at i) _ w _ w eq_refl). destruct (match sf_ls (tw_f w) !! i with Some o => o | None => None end) as [[[fd|] rem sp rq po de]|] eqn:E; [|done..]. apply at_some in E. set (l := mk_ls (Some fd) rem sp rq po de) in *.
  cut (triP (fun f => sf_ls f !! i = Some (Some l)) rs None (do! ready <- asks said_yes; if ready then (if rem then srv_remote_accept l else cli_local_accept i l) else ret tt) (fun _ => (rs, None))); [intros X; by apply X|].
  pstep sf_ls. intros ready. cbn [fst snd]. destruct ready; [|by apply triP_tri, tri_ret]. destruct rem; [apply triP_tri, tri_remote_accept|apply tri_local_accept].
Qed.
Lemma tri_arrived c dport rs : tri ((RChan, c) :: rs) None (remote_arrived c dport) (fun _ => (rs, None)).
Proof.
  unfold remote_arrived, fwd_now_ms. tstep f. apply tri_pend_slot; [destruct (listener_for f dport); apply tri_chan|]. intros i. destruct (listener_for f dport) as [l|]; [|apply triP_tri, tri_chan]. pstep sf_pd. intros [[[[fd ai] next] tgt]|]; cbn [fst snd begun app]; [|apply triP_tri, tri_chan].
  pstep sf_pd. intros now. cbn [fst snd]. eapply triP_pre; [|apply triP_put_pd]; [unfold pend_res; cbn [pd_fd pd_msg pd_chan pd_res opt_res app]; solve_Permutation|]. split; [|by eexists]. unfold pend_shape. cbn. by split; [|eexists].
Qed.
Lemma tri_arrivals fuel rs : tri rs None (arrivals fuel) (fun _ => (rs, None)).
Proof.
  induction fuel as [|fuel IH]; cbn [arrivals]; [by apply tri_plain|]. tstep dport. destruct (dport <=? 0); [by apply tri_ret|]. eapply tri_bind; [by apply tri_acquire|]. intros c. cbn [fst snd]. eapply tri_bind; [apply tri_arrived|]. intros ?. exact IH.
Qed.
Lemma tri_tick rs : tri rs None sshfwd_tick (fun _ => (rs, None)).
Proof.
  unfold sshfwd_tick. eapply tri_bind; [apply tri_each; intros i; apply tri_listener_turn|]. intros ?. cbn [fst snd]. tstep f. eapply tri_bind with (Q := fun _ => (rs, None)); [destruct (sf_remote f); [eapply tri_bind; [apply tri_left|]; intros n; apply tri_arrivals|by apply tri_ret]|]. intros ?. cbn [fst snd].
  eapply tri_bind; [apply tri_each; intros i; apply tri_pend_turn|]. intros ?. cbn [fst snd]. eapply tri_bind; [apply tri_left|]. intros n. cbn [fst snd]. eapply tri_bind; [apply tri_bulk|]. intros ?. cbn [fst snd]. apply tri_each. intros i. apply tri_drain.
Qed.
Definition listened (r : option (nat * Z)) : list res := match r with Some (fd, _) => [(RFd, fd)] | None => [] end.
Lemma tri_listen a p rs bs : tri rs bs (listen_on a p) (fun r => (listened r ++ rs, bs)).
Proof.
  unfold listen_on. destruct (listen_addr a) as [b|]; [|by apply tri_ret]. eapply tri_bind; [by apply tri_acquire_if|]. intros [fd|]; cbn [fst snd opt_res app]; [|by apply tri_ret]. eapply tri_bind; [by apply tri_plain|]. intros ?. cbn [fst snd]. tstep n. by apply tri_ret.
Qed.
Lemma tri_local sp rs : tri rs None (sshfwd_cli_local sp) (fun _ => (rs, None)).
Proof.
  unfold sshfwd_cli_local. apply tri_ls_slot; [by apply tri_ret|]. intros i. eapply (triP_bind sf_ls (fun t => t !! _ = _)); [apply tri_listen|solve [eauto with keeps]|]. intros [[fd port]|]; cbn [fst snd listened app]; [|by apply triP_tri, tri_ret].
  intros w S H. set (l := mk_ls _ _ _ _ _ _). pose proof (inv_put_ls rs l None i w S H) as H1. by destruct (set_ls i (Some l) w) as [u w1] eqn:E; rewrite (bind_at _ _ _ _ _ E).
Qed.
Lemma inv_flags rs bs w a b c : inv rs bs w -> inv rs bs (mk_tw (mk_sf a b c (sf_br (tw_f w)) (sf_ls (tw_f w)) (sf_pd (tw_f w))) (tw_script w) (tw_next w) (tw_log w)).
Proof. intros []. by constructor. Qed.
Lemma tri_remote sp rs : tri rs None (sshfwd_cli_remote sp) (fun _ => (rs, None)).
Proof.
  unfold sshfwd_cli_remote. eapply tri_bind; [by apply tri_plain|]. intros ?. cbn [fst snd]. tstep bound. destruct (bound <? 0); [by apply tri_ret|]. apply tri_ls_slot; [by apply tri_ret|]. intros i w S H. set (l := mk_ls _ _ _ _ _ _). pose proof (inv_put_ls rs l None i w S H) as H1. destruct (set_ls i (Some l) w) as [u w1] eqn:E; rewrite (bind_at _ _ _ _ _ E). by apply inv_flags.
Qed.
Lemma tri_direct m dest port rs : tri ((RMsg, m) :: rs) None (srv_direct m dest port) (fun _ => (rs, None)).
Proof.
  assert (No : tri ((RMsg, m) :: rs) None (msg_answer (Some m) false) (fun _ => (rs, None))) by apply (tri_answer (Some m)).
  unfold srv_direct, fwd_now_ms. apply tri_pend_slot; [by destruct dest|]. intros i. destruct dest as [dest|]; [|by apply triP_tri]. destruct (_ || _); [by apply triP_tri|]. pstep sf_pd. intros [[[[fd ai] next] tgt]|]; cbn [fst snd begun app]; [|by apply triP_tri].
  pstep sf_pd. intros now. cbn [fst snd]. eapply triP_pre; [|apply triP_put_pd]; [unfold pend_res; cbn [pd_fd pd_msg pd_chan pd_res opt_res app]; solve_Permutation|]. split; [|by eexists]. unfold pend_shape. cbn. by split; [eexists|].
Qed.
Lemma tri_forward m addr port rs : tri ((RMsg, m) :: rs) None (srv_forward m addr port) (fun _ => (rs, None)).
Proof.
  assert (An : forall v, tri ((RMsg, m) :: rs) None (msg_answer (Some m) v) (fun _ => (rs, None))) by (intros v; apply (tri_answer (Some m))).
  unfold srv_forward. apply tri_ls_slot; [by destruct addr|]. intros i. destruct addr as [addr|]; [|by apply triP_tri]. destruct (_ || _); [by apply triP_tri|]. eapply (triP_bind sf_ls (fun t => t !! _ = _)); [apply tri_listen|solve [eauto with keeps]|]. intros [[fd port']|]; cbn [fst snd listened app]; [|by apply triP_tri].
  intros w S H. set (l := mk_ls _ _ _ _ _ _). pose proof (inv_put_ls ((RMsg, m) :: rs) l None i w S H) as H1. destruct (set_ls i (Some l) w) as [u w1] eqn:E; rewrite (bind_at _ _ _ _ _ E). by apply An.
Qed.
Lemma tri_cancel m port rs : tri ((RMsg, m) :: rs) None (srv_cancel m port) (fun _ => (rs, None)).
Proof.
  assert (An : forall v, tri ((RMsg, m) :: rs) None (msg_answer (Some m) v) (fun _ => (rs, None))) by (intros v; apply (tri_answer (Some m))).
  intros w H. unfold srv_cancel. rewrite (bind_at state _ w _ w eq_refl). destruct (list_find _ (sf_ls (tw_f w))) as [[i [l|]]|] eqn:E; [|by apply An..]. apply list_find_Some in E as (E & _ & _).
  pose proof (inv_take_ls _ l None i w E H) as H1. apply (inv_perm _ (opt_res RFd (ls_fd l) ++ (RMsg, m) :: rs)) in H1; [|done]. revert H1. set (w1 := (set_ls i None w).2). intros H1.
  pose proof (tri_release_opt RFd (ls_fd l) _ None w1 H1) as H2. cbn [fst snd] in H2. destruct (ls_fd l) as [fd|]; cbn [release_opt] in *; by apply An.
Qed.
Lemma tri_message q rs : tri rs None (sshfwd_srv_message q) (fun _ => (rs, None)).
Proof.
  destruct q as [d p|a p|p|]; cbn [sshfwd_srv_message]; [..|by apply tri_ret]; eapply tri_bind; try by apply tri_acquire.
  - intros m. cbn [fst snd]. eapply tri_bind; [apply tri_direct|]. intros ?. by apply tri_ret.
  - intros m. cbn [fst snd]. eapply tri_bind; [apply tri_forward|]. intros ?. by apply tri_ret.
  - intros m. cbn [fst snd]. eapply tri_bind; [apply tri_cancel|]. intros ?. by apply tri_ret.
Qed.
Lemma tri_do o rs : tri rs None (fwd_do o) (fun _ => (rs, None)).
Proof.
  destruct o as [sp|sp|q| |v|v]; cbn [fwd_do].
  - eapply tri_bind; [apply tri_local|]. intros ?. by apply tri_ret.
  - eapply tri_bind; [apply tri_remote|]. intros ?. by apply tri_ret.
  - eapply tri_bind; [apply tri_message|]. intros ?. by apply tri_ret.
  - apply tri_tick.
  - intros w H. by apply inv_flags.
  - intros w H. by apply inv_flags.
Qed.
Lemma tri_run l rs : tri rs None (fwd_run l) (fun _ => (rs, None)).
Proof. induction l as [|o l IH]; cbn [fwd_run]; [by apply tri_ret|]. eapply tri_bind; [apply tri_do|]. intros ?. exact IH. Qed.
Lemma inv_start script : inv [] None (fwd_start script).
Proof.
  constructor; try by constructor. intros i p H. exfalso. change (replicate FWD_MAX_PEND (@None fwd_pend) !! i = Some (Some p)) in H. apply lookup_replicate in H as [? _]. done.
Qed.

(** ** The tables keep their size, and the end empties them *)
Definition sizes (f : sshfwd) : nat * nat * nat := (length (sf_br f), length (sf_ls f), length (sf_pd f)).
Lemma sizes_set_br i b : keeps sizes (set_br i b).
Proof. intros w. unfold sizes. cbn. by rewrite length_insert. Qed.
Lemma sizes_set_ls i b : keeps sizes (set_ls i b).
Proof. intros w. unfold sizes. cbn. by rewrite length_insert. Qed.
Lemma sizes_set_pd i b : keeps sizes (set_pd i b).
Proof. intros w. unfold sizes. cbn. by rewrite length_insert. Qed.
Lemma sizes_remote : keeps sizes set_remote.
Proof. done. Qed.
#[export] Hint Resolve sizes_set_br sizes_set_ls sizes_set_pd sizes_remote : keeps.
Lemma keeps_slot_pd {B} (g : sshfwd -> B) : keeps g pend_slot.
Proof. done. Qed.
Lemma keeps_slot_ls {B} (g : sshfwd -> B) : keeps g listener_slot.
Proof. done. Qed.
Lemma keeps_slot_br {B} (g : sshfwd -> B) : keeps g bridge_slot.
Proof. done. Qed.
Lemma keeps_down {B} (g : sshfwd -> B) b : keeps g (bridge_down b).
Proof. unfold bridge_down. keeps_go. Qed.
#[export] Hint Resolve keeps_slot_pd keeps_slot_ls keeps_slot_br keeps_down : keeps.
Lemma sizes_up fd c : keeps sizes (bridge_up fd c).
Proof. unfold bridge_up. keeps_go. Qed.
#[export] Hint Resolve sizes_up : keeps.
Lemma sizes_step p : keeps sizes (pend_step p).
Proof. unfold pend_step, up_opt, chan_drop, fwd_now_ms. keeps_go. Qed.
Lemma keeps_ls_at {B} (g : sshfwd -> B) i : keeps g (ls_at i).
Proof. done. Qed.
Lemma keeps_br_at {B} (g : sshfwd -> B) i : keeps g (br_at i).
Proof. done. Qed.
Lemma keeps_pd_at {B} (g : sshfwd -> B) i : keeps g (pd_at i).
Proof. done. Qed.
#[export] Hint Resolve sizes_step keeps_ls_at keeps_br_at keeps_pd_at : keeps.
Lemma sizes_accept l : keeps sizes (srv_remote_accept l).
Proof. unfold srv_remote_accept, fwd_now_ms. keeps_go. Qed.
Lemma sizes_local_accept i l : keeps sizes (cli_local_accept i l).
Proof. unfold cli_local_accept. keeps_go. Qed.
#[export] Hint Resolve sizes_accept sizes_local_accept : keeps.
Lemma sizes_each l g : (forall i, keeps sizes (g i)) -> keeps sizes (each l g).
Proof. intros H. induction l as [|i l IH]; cbn [each]; [done|]. apply keeps_bind; [apply H|]. intros ?. exact IH. Qed.
Lemma sizes_listener i : keeps sizes (listener_turn i).
Proof. unfold listener_turn. keeps_go. Qed.
Lemma sizes_pend i : keeps sizes (pend_turn i).
Proof. unfold pend_turn. keeps_go. Qed.
Lemma sizes_arrived c d : keeps sizes (remote_arrived c d).
Proof. unfold remote_arrived, fwd_now_ms. keeps_go. Qed.
#[export] Hint Resolve sizes_listener sizes_pend sizes_arrived : keeps.
Lemma sizes_arrivals n : keeps sizes (arrivals n).
Proof. induction n as [|n IH]; cbn [arrivals]; keeps_go. Qed.
Lemma sizes_slices l m : keeps sizes (slices l m).
Proof. revert m. induction l as [|i l IH]; intros m; cbn [slices]; keeps_go. Qed.
#[export] Hint Resolve sizes_arrivals sizes_slices : keeps.
Lemma sizes_bulk n : keeps sizes (bulk n).
Proof. induction n as [|n IH]; cbn [bulk]; keeps_go. Qed.
Lemma sizes_drain i : keeps sizes (drain_turn i).
Proof. unfold drain_turn. keeps_go. Qed.
#[export] Hint Resolve sizes_bulk sizes_drain sizes_each : keeps.
Lemma sizes_do o : keeps sizes (fwd_do o).
Proof. destruct o as [sp|sp|[]| |v|v]; cbn [fwd_do sshfwd_srv_message]; unfold sshfwd_cli_local, sshfwd_cli_remote, srv_direct, srv_forward, srv_cancel, sshfwd_tick, fwd_now_ms; keeps_go. Qed.
Lemma sizes_run l : keeps sizes (fwd_run l).
Proof. induction l as [|o l IH]; cbn [fwd_run]; [done|]. apply keeps_bind; [apply sizes_do|]. intros ?. exact IH. Qed.
Definition cleared {A} (l : list (option A)) : Prop := forall j o, l !! j = Some o -> o = None.
Lemma slots_none {A B} (g : A -> list B) l : cleared l -> slots g l = [].
Proof. induction l as [|o l IH]; intros H; [done|]. rewrite (H O o eq_refl). unfold slots. cbn. apply IH. intros j p Hj. by apply (H (S j)). Qed.
Lemma each_clears {A} (get : sshfwd -> list (option A)) (g : nat -> M unit) k s w : (forall i w, get (tw_f (g i w).2) = <[i:=None]> (get (tw_f w))) ->
  (forall j o, (j < s)%nat -> get (tw_f w) !! j = Some o -> o = None) -> (length (get (tw_f w)) <= s + k)%nat -> cleared (get (tw_f (each (seq s k) g w).2)).
Proof.
  intros Hg. revert s w. induction k as [|k IH]; intros s w Hs Hl; cbn [seq each].
  - intros j o Hj. apply (Hs j); [|done]. apply lookup_lt_Some in Hj. cbn in Hj. lia.
  - specialize (Hg s w). unfold bind. destruct (g s w) as [u w1]. cbn [fst snd] in *. apply IH; rewrite Hg; [|rewrite length_insert; lia]. intros j o Hj Ho. destruct (decide (j = s)) as [->|N]; [apply list_lookup_insert_Some in Ho as [(_ & E & _)|[]]; done|]. rewrite list_lookup_insert_ne in Ho by done. apply (Hs j); [lia|done].
Qed.
Lemma clear_same {A} (l : list (option A)) i : match l !! i with Some o => o | None => None end = None -> l = <[i:=None]> l.
Proof. intros H. destruct (l !! i) as [o|] eqn:E; [subst; by rewrite list_insert_id|]. symmetry. apply list_insert_ge. by apply lookup_ge_None. Qed.
Lemma destroy_br i w : sf_br (tw_f (destroy_bridge i w).2) = <[i:=None]> (sf_br (tw_f w)) /\ sf_ls (tw_f (destroy_bridge i w).2) = sf_ls (tw_f w) /\ sf_pd (tw_f (destroy_bridge i w).2) = sf_pd (tw_f w).
Proof.
  unfold destroy_bridge. rewrite (bind_at (br_at i) _ w _ w eq_refl). destruct (match sf_br (tw_f w) !! i with Some o => o | None => None end) as [b|] eqn:E; [|split; [by apply clear_same|done]].
  rewrite (bind_at (set_br i None) _ w tt (set_br i None w).2 eq_refl). by rewrite !(keeps_down _ b).
Qed.
Lemma destroy_ls i w : sf_ls (tw_f (destroy_listener i w).2) = <[i:=None]> (sf_ls (tw_f w)) /\ sf_br (tw_f (destroy_listener i w).2) = sf_br (tw_f w) /\ sf_pd (tw_f (destroy_listener i w).2) = sf_pd (tw_f w).
Proof.
  unfold destroy_listener. rewrite (bind_at (ls_at i) _ w _ w eq_refl). destruct (match sf_ls (tw_f w) !! i with Some o => o | None => None end) as [l|] eqn:E; [|split; [by apply clear_same|done]].
  rewrite (bind_at (set_ls i None) _ w tt (set_ls i None w).2 eq_refl). by rewrite !(keeps_release_opt _ RFd (ls_fd l)).
Qed.
Definition end_pend (p : fwd_pend) : M unit := run! release_opt RFd (pd_fd p); run! msg_answer (pd_msg p) false; run! release_opt RChan (pd_chan p); run! pend_res_free p; ret tt.
Lemma keeps_end {B} (g : sshfwd -> B) p : keeps g (end_pend p).
Proof. unfold end_pend. keeps_go. Qed.
Lemma destroy_pd i w : sf_pd (tw_f (destroy_pend i w).2) = <[i:=None]> (sf_pd (tw_f w)) /\ sf_br (tw_f (destroy_pend i w).2) = sf_br (tw_f w) /\ sf_ls (tw_f (destroy_pend i w).2) = sf_ls (tw_f w).
Proof.
  unfold destroy_pend. rewrite (bind_at (pd_at i) _ w _ w eq_refl). destruct (match sf_pd (tw_f w) !! i with Some o => o | None => None end) as [p|] eqn:E; [|split; [by apply clear_same|done]].
  rewrite (bind_at (set_pd i None) _ w tt (set_pd i None w).2 eq_refl). change (run! release_opt RFd (pd_fd p); _) with (end_pend p). by rewrite !(keeps_end _ p).
Qed.
Lemma each_keeps {B} (g : sshfwd -> B) l h : (forall i w, g (tw_f (h i w).2) = g (tw_f w)) -> keeps g (each l h).
Proof. intros H. induction l as [|i l IH]; cbn [each]; [done|]. apply keeps_bind; [exact (H i)|]. intros ?. exact IH. Qed.
Lemma tri_destroy_br i rs : tri rs None (destroy_bridge i) (fun _ => (rs, None)).
Proof. unfold destroy_bridge. apply tri_with_bridge; [|by apply tri_ret]. intros b w _ H. by apply (tri_down b HFlows). Qed.
Lemma tri_destroy_ls i rs : tri rs None (destroy_listener i) (fun _ => (rs, None)).
Proof.
  intros w H. unfold destroy_listener. rewrite (bind_at (ls_at i) _ w _ w eq_refl). destruct (match sf_ls (tw_f w) !! i with Some o => o | None => None end) as [l|] eqn:E; [|done]. apply at_some in E. rewrite (bind_at (set_ls i None) _ w tt (set_ls i None w).2 eq_refl). apply (tri_release_opt RFd (ls_fd l)). by apply inv_take_ls.
Qed.
Lemma tri_end p rs bs : tri (pend_res p ++ rs) bs (end_pend p) (fun _ => (rs, bs)).
Proof.
  unfold end_pend. eapply tri_pre with (rs' := opt_res RFd (pd_fd p) ++ opt_res RMsg (pd_msg p) ++ opt_res RChan (pd_chan p) ++ opt_res RAddr (pd_res p) ++ rs); [unfold pend_res; solve_Permutation|].
  eapply tri_bind; [apply tri_release_opt|]. intros ?. cbn [fst snd]. eapply tri_bind; [apply tri_answer|]. intros ?. cbn [fst snd]. eapply tri_bind; [apply tri_release_opt|]. intros ?. cbn [fst snd]. eapply tri_bind; [apply tri_res|]. intros ?. by apply tri_ret.
Qed.
Lemma tri_destroy_pd i rs : tri rs None (destroy_pend i) (fun _ => (rs, None)).
Proof.
  intros w H. unfold destroy_pend. rewrite (bind_at (pd_at i) _ w _ w eq_refl). destruct (match sf_pd (tw_f w) !! i with Some o => o | None => None end) as [p|] eqn:E; [|done]. apply at_some in E. rewrite (bind_at (set_pd i None) _ w tt (set_pd i None w).2 eq_refl). change (run! release_opt RFd (pd_fd p); _) with (end_pend p). apply tri_end. by apply inv_take_pd.
Qed.
Lemma tri_destroy rs : tri rs None sshfwd_destroy (fun _ => (rs, None)).
Proof.
  unfold sshfwd_destroy. eapply tri_bind; [apply tri_each; intros i; apply tri_destroy_br|]. intros ?. cbn [fst snd]. eapply tri_bind; [apply tri_each; intros i; apply tri_destroy_ls|]. intros ?. apply tri_each. intros i. apply tri_destroy_pd.
Qed.
Lemma destroy_empties w : sizes (tw_f w) = (FWD_MAX_BRIDGE, FWD_MAX_LISTEN, FWD_MAX_PEND) -> held (tw_f (sshfwd_destroy w).2) = [].
Proof.
  intros Hs. unfold sizes in Hs. injection Hs as L1 L2 L3. unfold sshfwd_destroy.
  destruct (each (seq 0 FWD_MAX_BRIDGE) destroy_bridge w) as [[] w1] eqn:E1. rewrite (bind_at _ _ _ _ _ E1). destruct (each (seq 0 FWD_MAX_LISTEN) destroy_listener w1) as [[] w2] eqn:E2. rewrite (bind_at _ _ _ _ _ E2).
  assert (C1 : cleared (sf_br (tw_f w1))) by (change w1 with (tt, w1).2; rewrite <- E1; apply each_clears; [intros; apply destroy_br|intros; lia|lia]).
  assert (K1 : sf_ls (tw_f w1) = sf_ls (tw_f w) /\ sf_pd (tw_f w1) = sf_pd (tw_f w)) by (change w1 with (tt, w1).2; rewrite <- E1; split; apply each_keeps; intros; apply destroy_br).
  assert (C2 : cleared (sf_ls (tw_f w2))) by (change w2 with (tt, w2).2; rewrite <- E2; apply each_clears; [intros; apply destroy_ls|intros; lia|rewrite (proj1 K1); lia]).
  assert (K2 : sf_br (tw_f w2) = sf_br (tw_f w1) /\ sf_pd (tw_f w2) = sf_pd (tw_f w1)) by (change w2 with (tt, w2).2; rewrite <- E2; split; apply each_keeps; intros; apply destroy_ls).
  destruct K1 as [K1 K1']. destruct K2 as [K2 K2']. unfold held, idle.
  rewrite (slots_none pend_res); [|apply each_clears; [intros; apply destroy_pd|intros; lia|rewrite K2', K1'; lia]]. rewrite (each_keeps sf_br _ destroy_pend), (each_keeps sf_ls _ destroy_pend) by (intros; apply destroy_pd). rewrite K2. by rewrite (slots_none bridge_res), (slots_none listener_res).
Qed.

Lemma opt_no_poll k o h : k <> RPoll -> (RPoll, h) ∉ opt_res k o.
Proof. intros Hk. destruct o; cbn; [|set_solver]. intros [= <-]%list_elem_of_singleton. done. Qed.
Lemma slots_none_in {A B} (g : A -> list B) l x : (forall a, x ∉ g a) -> x ∉ slots g l.
Proof. intros H. unfold slots. induction l as [|[a|] l IH]; cbn [map concat]; [set_solver| |exact IH]. rewrite elem_of_app. intros [Hx|Hx]; [by apply (H a)|by apply IH]. Qed.
Lemma idle_no_poll f h : (RPoll, h) ∉ idle f.
Proof.
  unfold idle. rewrite elem_of_app. intros [H|H]; revert H; apply slots_none_in; intros a; [by apply opt_no_poll|]. unfold pend_res. rewrite !elem_of_app. intros [H|[H|[H|H]]]; revert H; by apply opt_no_poll.
Qed.

(** ** What holds of every run *)
Definition after (script : list ans) (ops : list fwd_op) : tworld := (fwd_run ops (fwd_start script)).2.
Definition ended (w : tworld) : tworld := (sshfwd_destroy w).2.
(** A descriptor or channel the log says was opened, and one it says was let go. *)
Definition opened (w : tworld) : list res := acqs (tw_log w).
Definition let_go_of (w : tworld) : list res := rels (tw_log w).

(** C31: whatever the sockets, the resolver, the clock and libssh answer, and whatever a session asks of
    its tunnels: every descriptor, channel, message and address list is a handle of its own and is
    released at most once; what is open is held by exactly one bridge, listener or pending entry, so
    nothing leaks and nothing that was closed is still in use; a descriptor is on the event only
    while a bridge holds it; and the end of the session releases every one of them. *)
Theorem tunnels_conserved script ops :
  let w := after script ops in
  NoDup (handles (opened w)) /\ opened w ≡ₚ held (tw_f w) ++ let_go_of w /\
  NoDup (handles (let_go_of w)) /\ (forall h, h ∈ handles (held (tw_f w)) -> h ∉ handles (let_go_of w)) /\
  (forall h, (RPoll, h) ∈ held (tw_f w) -> (RFd, h) ∈ held (tw_f w)) /\
  opened (ended w) ≡ₚ let_go_of (ended w).
Proof.
  intros w. pose proof (tri_run ops [] _ (inv_start script)) as H. fold (after script ops) in H. cbn [fst snd] in H. fold w in H. pose proof H as [P N _ _ _ Sh _]. cbn [hand_res app] in P. pose proof N as N'. rewrite P in N'. rewrite handles_app in N'. apply NoDup_app in N' as (N1 & N2 & N3).
  split_and!; [done|done|done|intros h Hh Hr; by apply (N2 h)| |].
  - intros h. unfold held. rewrite !elem_of_app. intros [Hh|Hh]; [left|exfalso].
    + revert Hh. unfold slots. induction (sf_br (tw_f w)) as [|[b|] l IH]; cbn [map concat]; [by intros ?%elem_of_nil| |exact IH]. rewrite !elem_of_app. intros [Hh|Hh]; [left|right; by apply IH]. unfold bridge_res in *. destruct (br_polled b); set_solver.
    + revert Hh. apply idle_no_poll.
  - pose proof (tri_destroy [] w H) as [P' _ _ _ _ _ _]. cbn [fst snd hand_res app] in P'. rewrite destroy_empties in P'; [exact P'|]. etransitivity; [apply sizes_run|]. done.
Qed.

(** C32: what goes through a tunnel comes out whole and in order: on every bridge that stands, the bytes
    the channel delivered are the bytes the descriptor was given, followed by what the buffer
    still holds, and the bytes read from the descriptor are the bytes the channel was given. *)
Theorem tunnels_in_order script ops :
  let w := after script ops in
  Forall (fun b => chin (br_chan b) (tw_log w) = fdout (br_fd b) (tw_log w) ++ br_buf b /\ fdin (br_fd b) (tw_log w) = chout (br_chan b) (tw_log w)) (bridges (tw_f w)).
Proof. intros w. exact (i_flow _ _ _ (tri_run ops [] _ (inv_start script))). Qed.
