(* ===== verification/SshFwdRun.v ===== *)
(** The loops of a pass over the tunnels come to an end, concrete runs, and what goes wrong with a
    half-closed connection, with [-R *] and at the limit of the listeners. *)
From S2P Require Import Prelude Net AddrText FwdSpec SshFwd SshFwdOk.

(** ** The loops end

    A script answers finitely many calls and then that nothing happens; a loop that has taken as
    many turns as there were answers has stopped. *)
Definition todo (w : tworld) : nat := length (tw_script w).
Definition spends {A} (m : M A) : Prop := forall w, (todo (m w).2 <= todo w)%nat.
Lemma spends_bind {A B} (m : M A) (k : A -> M B) : spends m -> (forall a, spends (k a)) -> spends (bind m k).
Proof. intros Hm Hk w. unfold bind. specialize (Hm w). destruct (m w) as [a w']. cbn in Hm. specialize (Hk a w'). lia. Qed.
Lemma spends_ret {A} (a : A) : spends (ret a).
Proof. intros w. apply Nat.le_refl. Qed.
Lemma spends_log e : spends (log e).
Proof. intros w. apply Nat.le_refl. Qed.
Lemma spends_state : spends state.
Proof. intros w. apply Nat.le_refl. Qed.
Lemma spends_ask : spends ask.
Proof. intros w. unfold ask, todo. destruct (tw_script w) eqn:E; cbn; rewrite ?E; cbn; lia. Qed.
Lemma spends_acquire k : spends (acquire k).
Proof. intros w. apply Nat.le_refl. Qed.
Create HintDb spends.
#[export] Hint Resolve spends_ret spends_log spends_state spends_ask spends_acquire : spends.
Ltac spends_go := repeat first [solve [eauto with spends]|apply spends_bind; [|intros ?]|progress cbn [fst snd]|case_match].
Lemma spends_asks {A} (g : ans -> A) : spends (asks g).
Proof. unfold asks. spends_go. Qed.
Lemma spends_release k h : spends (release k h).
Proof. intros w. apply Nat.le_refl. Qed.
Lemma spends_set_br i b : spends (set_br i b).
Proof. intros w. apply Nat.le_refl. Qed.
Lemma spends_set_ls i b : spends (set_ls i b).
Proof. intros w. apply Nat.le_refl. Qed.
Lemma spends_set_pd i b : spends (set_pd i b).
Proof. intros w. apply Nat.le_refl. Qed.
Lemma spends_br_at i : spends (br_at i).
Proof. intros w. apply Nat.le_refl. Qed.
#[export] Hint Resolve spends_asks spends_release spends_set_br spends_set_ls spends_set_pd spends_br_at : spends.
Lemma spends_room : spends fwd_room.
Proof. unfold fwd_room. spends_go. Qed.
Lemma spends_flush fuel b : spends (flush fuel b).
Proof. revert b. induction fuel as [|fuel IH]; intros b; cbn [flush]; destruct (br_buf b); spends_go. Qed.
Lemma spends_chan c : spends (chan_close_free c).
Proof. unfold chan_close_free. spends_go. Qed.
#[export] Hint Resolve spends_room spends_flush spends_chan : spends.
Lemma spends_down b : spends (bridge_down b).
Proof. unfold bridge_down. spends_go. Qed.
Lemma spends_in b : spends (bridge_pump_in b).
Proof. unfold bridge_pump_in. spends_go. Qed.
#[export] Hint Resolve spends_down spends_in : spends.
(** What a real answer gives costs one. *)
Lemma ask_costs w a w' : ask w = (a, w') -> (a_data a <> [] \/ a_n a <> 0) -> (todo w' < todo w)%nat.
Proof. unfold ask, todo. destruct (tw_script w) as [|x s] eqn:E; intros [= <- <-]; [by intros [?|?]|]. cbn. lia. Qed.
Lemma pump_out_S fuel b : pump_out (S fuel) b =
  do! (b, rc) <- flush (length (br_buf b)) b;
  match rc with
  | Some ok => ret (b, ok)
  | None => do! a <- ask; match upto FWD_BUF (a_data a) with [] => ret (b, negb (a_n a <? 0)) | d => run! log (ChIn (br_chan b) d); pump_out fuel (with_buf b d) end
  end.
Proof. done. Qed.
Lemma pump_out_more fuel b w : (todo w < fuel)%nat -> pump_out (S fuel) b w = pump_out fuel b w.
Proof.
  revert b w. induction fuel as [|fuel IH]; intros b w Hn; [lia|]. rewrite (pump_out_S (S fuel) b), (pump_out_S fuel b). pose proof (spends_flush (length (br_buf b)) b w) as Hf. destruct (flush (length (br_buf b)) b w) as [[b1 rc] w1] eqn:E. rewrite !(bind_at _ _ _ _ _ E). cbn [fst snd] in Hf. destruct rc as [ok|]; [done|].
  destruct (ask w1) as [a w2] eqn:Ea. rewrite !(bind_at _ _ _ _ _ Ea). destruct (upto FWD_BUF (a_data a)) as [|c d] eqn:Ed; [done|]. assert (a_data a <> []) by (intros X; by rewrite X in Ed). pose proof (ask_costs w1 a w2 Ea (or_introl H)) as Hc. rewrite !(bind_at (log _) _ w2 tt _ eq_refl). apply IH. unfold todo in *. cbn. lia.
Qed.
Lemma pump_out_enough k b w : pump_out (S (todo w) + k) b w = pump_out (S (todo w)) b w.
Proof. induction k as [|k IH]; [by rewrite Nat.add_0_r|]. rewrite Nat.add_succ_r, pump_out_more by lia. exact IH. Qed.

Lemma spends_flag (g : ans -> bool) w ok w' : g (mk_ans 0 []) = false -> asks g w = (ok, w') -> ok = true -> (todo w' < todo w)%nat.
Proof. intros Hg. unfold asks, bind, ask, todo, ret. destruct (tw_script w) as [|x s] eqn:E; intros [= <- <-]; [by rewrite Hg|]. cbn. lia. Qed.
Lemma in_moved b w b' rc w' : bridge_pump_in b w = ((b', rc), w') -> 0 < rc -> (todo w' < todo w)%nat.
Proof.
  unfold bridge_pump_in. destruct (br_sent_eof b); [intros [= _ <- _]; lia|]. destruct (asks a_n w) as [win w1] eqn:E1. rewrite (bind_at _ _ _ _ _ E1). destruct (win <=? 0); [intros [= _ <- _]; lia|]. pose proof (spends_asks a_n w) as S1. rewrite E1 in S1. cbn [snd] in S1.
  destruct (ask w1) as [a w2] eqn:E2. rewrite (bind_at _ _ _ _ _ E2). destruct (upto _ (a_data a)) as [|c d] eqn:Ed.
  - destruct (0 <? a_n a); [unfold bind; intros [= _ <- _]; lia|]. intros [= _ <- _]. destruct (a_n a =? 0); lia.
  - assert (a_data a <> []) by (intros X; by rewrite X in Ed). pose proof (ask_costs _ _ _ E2 (or_introl H)) as Hc. rewrite (bind_at (log _) _ w2 tt _ eq_refl). set (w3 := mk_tw _ _ _ _). assert (T3 : todo w3 = todo w2) by done. clearbody w3. destruct (asks (fun a => truth (a_n a)) w3) as [short w4] eqn:E4. pose proof (spends_asks (fun a => truth (a_n a)) w3) as S4. rewrite E4 in S4. cbn [snd] in S4. rewrite (bind_at _ _ _ _ _ E4). destruct short; unfold bind; intros [= _ _ <-]; unfold todo in *; cbn; lia.
Qed.
Lemma spends_slices l moved : spends (slices l moved).
Proof. revert moved. induction l as [|i l IH]; intros moved; cbn [slices]; spends_go. Qed.
Lemma slices_moved l w m w' : slices l false w = (m, w') -> m = true -> (todo w' < todo w)%nat.
Proof.
  revert w. induction l as [|i l IH]; intros w; cbn [slices]; [by intros [= <- _]|]. destruct (fwd_room w) as [room w1] eqn:E1. pose proof (spends_room w) as S1. rewrite E1 in S1. cbn [snd] in S1. rewrite (bind_at _ _ _ _ _ E1). destruct (negb room); [by intros [= <- _]|].
  rewrite (bind_at (br_at i) _ w1 _ w1 eq_refl). destruct (match sf_br (tw_f w1) !! i with Some o => o | None => None end) as [b|]; [|intros E Hm; specialize (IH w1 E Hm); lia]. set (w2 := (set_br i None w1).2). rewrite (bind_at (set_br i None) _ w1 tt w2 eq_refl). assert (T2 : todo w2 = todo w1) by done. clearbody w2.
  destruct (bridge_pump_in b w2) as [[b1 rc] w3] eqn:E3. pose proof (spends_in b w2) as S3. rewrite E3 in S3. cbn [snd] in S3. pose proof (in_moved b w2 b1 rc w3 E3) as C3. rewrite (bind_at _ _ _ _ _ E3). set (act := if rc <? 0 then bridge_down b1 else set_br i (Some b1)). assert (S4 : spends act) by (unfold act; destruct (rc <? 0); eauto with spends). specialize (S4 w3). destruct (act w3) as [u w4] eqn:E4. rewrite (bind_at _ _ _ _ _ E4). cbn [snd] in S4.
  intros E Hm. destruct (Z.ltb_spec 0 rc) as [Hr|Hr]; [specialize (C3 Hr); pose proof (spends_slices l (false || true) w4) as S5; rewrite E in S5; cbn [snd] in S5; lia|]. specialize (IH w4 E Hm). lia.
Qed.
Lemma bulk_more fuel w : (todo w < fuel)%nat -> bulk (S fuel) w = bulk fuel w.
Proof.
  revert w. induction fuel as [|fuel IH]; intros w Hn; [lia|]. change (bulk (S (S fuel)) w) with ((do! moved <- slices (seq 0 FWD_MAX_BRIDGE) false; if moved then do! room <- fwd_room; if room then bulk (S fuel) else ret tt else ret tt) w). change (bulk (S fuel) w) with ((do! moved <- slices (seq 0 FWD_MAX_BRIDGE) false; if moved then do! room <- fwd_room; if room then bulk fuel else ret tt else ret tt) w).
  destruct (slices (seq 0 FWD_MAX_BRIDGE) false w) as [m w1] eqn:E. rewrite !(bind_at _ _ _ _ _ E). destruct m; [|done]. pose proof (slices_moved _ _ _ _ E eq_refl) as C. destruct (fwd_room w1) as [room w2] eqn:E2. pose proof (spends_room w1) as S2. rewrite E2 in S2. cbn [snd] in S2. rewrite !(bind_at _ _ _ _ _ E2). destruct room; [|done]. apply IH. lia.
Qed.
Lemma spends_acquire_if k : spends (acquire_if k).
Proof. unfold acquire_if. spends_go. Qed.
#[export] Hint Resolve spends_acquire_if : spends.
Lemma spends_connect n : spends (connect_loop n).
Proof. induction n as [|n IH]; cbn [connect_loop]; unfold connect_one; spends_go. Qed.
Lemma spends_pend_slot : spends pend_slot.
Proof. intros w. apply Nat.le_refl. Qed.
#[export] Hint Resolve spends_connect spends_pend_slot : spends.
Lemma spends_arrived c d : spends (remote_arrived c d).
Proof. unfold remote_arrived, pend_connect_begin, fwd_now_ms. spends_go. Qed.
Lemma arrivals_more fuel w : (todo w < fuel)%nat -> arrivals (S fuel) w = arrivals fuel w.
Proof.
  revert w. induction fuel as [|fuel IH]; intros w Hn; [lia|]. change (arrivals (S (S fuel)) w) with ((do! dport <- asks a_n; if dport <=? 0 then ret tt else do! c <- acquire RChan; run! remote_arrived c dport; arrivals (S fuel)) w). change (arrivals (S fuel) w) with ((do! dport <- asks a_n; if dport <=? 0 then ret tt else do! c <- acquire RChan; run! remote_arrived c dport; arrivals fuel) w).
  destruct (asks a_n w) as [dport w1] eqn:E1. rewrite !(bind_at _ _ _ _ _ E1). destruct (Z.leb_spec dport 0) as [|Hp]; [done|]. assert (C : (todo w1 < todo w)%nat) by (revert E1; unfold asks, bind, ask, todo, ret; destruct (tw_script w) as [|x s]; intros [= <- <-]; [cbn in Hp; lia|cbn; lia]).
  destruct (acquire RChan w1) as [c w2] eqn:E2. rewrite !(bind_at _ _ _ _ _ E2). assert (T2 : todo w2 = todo w1) by (injection E2 as _ <-; done). destruct (remote_arrived c dport w2) as [u w3] eqn:E3. rewrite !(bind_at _ _ _ _ _ E3). pose proof (spends_arrived c dport w2) as S3. rewrite E3 in S3. cbn [snd] in S3. apply IH. lia.
Qed.
Lemma enough {A} (m : nat -> M A) : (forall fuel w, (todo w < fuel)%nat -> m (S fuel) w = m fuel w) -> forall k w, m (S (todo w) + k)%nat w = m (S (todo w)) w.
Proof. intros H k w. induction k as [|k IH]; [by rewrite Nat.add_0_r|]. rewrite Nat.add_succ_r, H by lia. exact IH. Qed.
(** The pass with [k] more turns for each of its loops. *)
Definition drain_with (k i : nat) : M unit :=
  do! b <- br_at i;
  match b with
  | None => ret tt
  | Some b =>
      run! set_br i None;
      do! (b, ok) <- (do! n <- left_over; pump_out (S n + k) b);
      do! down <- (if negb ok then ret true
                   else do! open <- asks (fun a => truth (a_n a));
                        if negb open then ret true else do! eof <- asks (fun a => truth (a_n a)); ret (eof && bytes_eqb (br_buf b) []));
      if down : bool then bridge_down b else do! b <- bridge_poll_sync b; set_br i (Some b)
  end.
Definition tick_with (k : nat) : M unit :=
  run! each (seq 0 FWD_MAX_LISTEN) listener_turn;
  do! f <- state;
  run! (if sf_remote f then do! n <- left_over; arrivals (S n + k) else ret tt);
  run! each (seq 0 FWD_MAX_PEND) pend_turn;
  do! n <- left_over;
  run! bulk (S n + k);
  each (seq 0 FWD_MAX_BRIDGE) (drain_with k).
Lemma bind_ext {A B} (m m' : M A) (k k' : A -> M B) w : m w = m' w -> (forall a w, k a w = k' a w) -> bind m k w = bind m' k' w.
Proof. intros Hm Hk. unfold bind. rewrite Hm. destruct (m' w) as [a w']. apply Hk. Qed.
Lemma each_ext l g h w : (forall i w, g i w = h i w) -> each l g w = each l h w.
Proof. intros H. revert w. induction l as [|i l IH]; intros w; [done|]. cbn [each]. apply bind_ext; [apply H|]. intros ? w'. apply IH. Qed.
Lemma drain_ends k i w : drain_with k i w = drain_turn i w.
Proof.
  unfold drain_with, drain_turn. apply bind_ext; [done|]. intros [b|] w1; [|done]. apply bind_ext; [done|]. intros ? w2. apply bind_ext; [|done]. unfold bridge_pump_out. rewrite !(bind_at left_over _ w2 _ w2 eq_refl). apply pump_out_enough.
Qed.

(** More turns than there are answers left change nothing. *)
Lemma tick_enough k w : tick_with k w = sshfwd_tick w.
Proof.
  unfold tick_with, sshfwd_tick. apply bind_ext; [done|]. intros ? w1. apply bind_ext; [done|]. intros f w2. apply bind_ext.
  - destruct (sf_remote f); [|done]. rewrite !(bind_at left_over _ w2 _ w2 eq_refl). apply (enough arrivals arrivals_more).
  - intros ? w3. apply bind_ext; [done|]. intros ? w4. rewrite !(bind_at left_over _ w4 _ w4 eq_refl). apply bind_ext; [apply (enough bulk bulk_more)|]. intros ? w5. apply each_ext. intros i w6. apply drain_ends.
Qed.

(** *** No loop is cut off *)
Definition stops {A} (m : M A) (w : tworld) : Prop := Spun ∈ tw_log (m w).2 -> Spun ∈ tw_log w.
Definition calm {A} (m : M A) : Prop := forall w, stops m w.
Lemma stops_bind {A B} (m : M A) (k : A -> M B) w : stops m w -> (forall a w', m w = (a, w') -> stops (k a) w') -> stops (bind m k) w.
Proof. intros Hm Hk. unfold stops, bind in *. destruct (m w) as [a w'] eqn:E. cbn in Hm. intros H. apply Hm. exact (Hk a w' eq_refl H). Qed.
Lemma calm_seq {A B} (m : M A) (k : A -> M B) : calm m -> (forall a, calm (k a)) -> calm (bind m k).
Proof. intros Hm Hk w. apply stops_bind; [apply Hm|]. intros a w' _. apply Hk. Qed.
Lemma calm_ret {A} (a : A) : calm (ret a).
Proof. intros w H. exact H. Qed.
Lemma calm_log e : e <> Spun -> calm (log e).
Proof. intros He w H. cbn in H. apply elem_of_app in H as [H|H%list_elem_of_singleton]; [done|congruence]. Qed.
Lemma calm_state : calm state.
Proof. intros w H. exact H. Qed.
Lemma calm_put f : calm (put f).
Proof. intros w H. exact H. Qed.
Lemma calm_ask : calm ask.
Proof. intros w. unfold stops, ask. destruct (tw_script w); exact id. Qed.
Lemma calm_left : calm left_over.
Proof. intros w H. exact H. Qed.
Lemma calm_acquire k : calm (acquire k).
Proof. intros w H. cbn in H. apply elem_of_app in H as [H|H%list_elem_of_singleton]; done. Qed.
Create HintDb calm.
#[export] Hint Resolve calm_ret calm_state calm_put calm_ask calm_left calm_acquire : calm.
Ltac calm_go := repeat first [solve [eauto with calm]|apply calm_log; discriminate|apply calm_seq; [|intros ?]|progress cbn [fst snd]|case_match].
Lemma calm_asks {A} (g : ans -> A) : calm (asks g).
Proof. unfold asks. calm_go. Qed.
Lemma calm_release k h : calm (release k h).
Proof. unfold release. calm_go. Qed.
Lemma calm_release_opt k o : calm (release_opt k o).
Proof. unfold release_opt, release. calm_go. Qed.
Lemma calm_set_br i b : calm (set_br i b).
Proof. intros w H. exact H. Qed.
Lemma calm_set_ls i b : calm (set_ls i b).
Proof. intros w H. exact H. Qed.
Lemma calm_set_pd i b : calm (set_pd i b).
Proof. intros w H. exact H. Qed.
Lemma calm_br_at i : calm (br_at i).
Proof. intros w H. exact H. Qed.
Lemma calm_ls_at i : calm (ls_at i).
Proof. intros w H. exact H. Qed.
Lemma calm_pd_at i : calm (pd_at i).
Proof. intros w H. exact H. Qed.
Lemma calm_bridge_slot : calm bridge_slot.
Proof. intros w H. exact H. Qed.
Lemma calm_pend_slot : calm pend_slot.
Proof. intros w H. exact H. Qed.
Lemma calm_listener_slot : calm listener_slot.
Proof. intros w H. exact H. Qed.
#[export] Hint Resolve calm_asks calm_release calm_release_opt calm_set_br calm_set_ls calm_set_pd calm_br_at calm_ls_at calm_pd_at calm_bridge_slot calm_pend_slot calm_listener_slot : calm.
Lemma calm_room : calm fwd_room.
Proof. unfold fwd_room. calm_go. Qed.
Lemma calm_acquire_if k : calm (acquire_if k).
Proof. unfold acquire_if. calm_go. Qed.
Lemma calm_chan c : calm (chan_close_free c).
Proof. unfold chan_close_free. calm_go. Qed.
#[export] Hint Resolve calm_room calm_acquire_if calm_chan : calm.
Lemma calm_sync b : calm (bridge_poll_sync b).
Proof. unfold bridge_poll_sync. calm_go. Qed.
Lemma calm_connect n : calm (connect_loop n).
Proof. induction n as [|n IH]; cbn [connect_loop]; unfold connect_one; calm_go. Qed.
Lemma calm_listen a p : calm (listen_on a p).
Proof. unfold listen_on. calm_go. Qed.
Lemma calm_msg m g : calm (msg_answer m g).
Proof. unfold msg_answer. calm_go. Qed.
#[export] Hint Resolve calm_sync calm_connect calm_listen calm_msg : calm.
Lemma calm_up fd c : calm (bridge_up fd c).
Proof. unfold bridge_up. calm_go. Qed.
Lemma calm_down b : calm (bridge_down b).
Proof. unfold bridge_down. calm_go. Qed.
Lemma calm_in b : calm (bridge_pump_in b).
Proof. unfold bridge_pump_in. calm_go. Qed.
Lemma calm_begin h p : calm (pend_connect_begin h p).
Proof. unfold pend_connect_begin. calm_go. Qed.
#[export] Hint Resolve calm_up calm_down calm_in calm_begin : calm.
Lemma calm_wait p : calm (connect_wait p).
Proof. unfold connect_wait, finish_connect, fwd_now_ms, pend_connect_next. calm_go. Qed.
Lemma calm_arrived c d : calm (remote_arrived c d).
Proof. unfold remote_arrived, fwd_now_ms. calm_go. Qed.
#[export] Hint Resolve calm_wait calm_arrived : calm.
Lemma calm_listener i : calm (listener_turn i).
Proof. unfold listener_turn, srv_remote_accept, cli_local_accept, peer_name, fwd_now_ms. calm_go. Qed.
Lemma calm_pend i : calm (pend_turn i).
Proof. unfold pend_turn, pend_step, pend_res_free, up_opt, chan_drop, fwd_now_ms. calm_go. Qed.
Lemma calm_slices l moved : calm (slices l moved).
Proof. revert moved. induction l as [|i l IH]; intros moved; cbn [slices]; calm_go. Qed.
Lemma calm_each l g : (forall i, calm (g i)) -> calm (each l g).
Proof. intros H. induction l as [|i l IH]; cbn [each]; calm_go. Qed.
(** A buffer is written out in no more turns than it has bytes. *)
Lemma calm_flush fuel b : (length (br_buf b) <= fuel)%nat -> calm (flush fuel b).
Proof.
  revert b. induction fuel as [|fuel IH]; intros b Hn; cbn [flush]; destruct (br_buf b) as [|c d] eqn:E; try apply calm_ret; [cbn in Hn; lia|].
  apply calm_seq; [apply calm_asks|]. intros n. destruct (Z.leb_spec n 0); [apply calm_ret|]. apply calm_seq; [by apply calm_log|]. intros ?. apply IH. cbn [with_buf br_buf]. rewrite length_drop. cbn [length] in *. lia.
Qed.
(** The open loops stop within the answers left. *)
Lemma pump_out_stops fuel b w : (todo w < fuel)%nat -> stops (pump_out fuel b) w.
Proof.
  revert b w. induction fuel as [|fuel IH]; intros b w Hn; [lia|]. rewrite pump_out_S. apply stops_bind; [by apply calm_flush|]. intros [b1 rc] w1 E. pose proof (spends_flush (length (br_buf b)) b w) as Hf. rewrite E in Hf. cbn [snd] in Hf. destruct rc as [ok|]; [by apply calm_ret|].
  apply stops_bind; [apply calm_ask|]. intros a w2 Ea. destruct (upto FWD_BUF (a_data a)) as [|c d] eqn:Ed; [by apply calm_ret|]. assert (a_data a <> []) by (intros X; by rewrite X in Ed). pose proof (ask_costs w1 a w2 Ea (or_introl H)) as Hc. apply stops_bind; [by apply calm_log|]. intros u w3 [= <- <-]. apply IH. unfold todo in *. cbn. lia.
Qed.
Lemma bulk_stops fuel w : (todo w < fuel)%nat -> stops (bulk fuel) w.
Proof.
  revert w. induction fuel as [|fuel IH]; intros w Hn; [lia|]. cbn [bulk]. apply stops_bind; [apply calm_slices|]. intros m w1 E. destruct m; [|by apply calm_ret]. pose proof (slices_moved _ _ _ _ E eq_refl) as C. apply stops_bind; [apply calm_room|]. intros room w2 E2. pose proof (spends_room w1) as S2. rewrite E2 in S2. cbn [snd] in S2. destruct room; [|by apply calm_ret]. apply IH. lia.
Qed.
Lemma arrivals_stops fuel w : (todo w < fuel)%nat -> stops (arrivals fuel) w.
Proof.
  revert w. induction fuel as [|fuel IH]; intros w Hn; [lia|]. cbn [arrivals]. apply stops_bind; [apply calm_asks|]. intros dport w1 E1. destruct (Z.leb_spec dport 0) as [|Hp]; [by apply calm_ret|]. assert (C : (todo w1 < todo w)%nat) by (revert E1; unfold asks, bind, ask, todo, ret; destruct (tw_script w) as [|x s]; intros [= <- <-]; [cbn in Hp; lia|cbn; lia]).
  apply stops_bind; [apply calm_acquire|]. intros c w2 E2. assert (T2 : todo w2 = todo w1) by (injection E2 as _ <-; done). apply stops_bind; [apply calm_arrived|]. intros u w3 E3. pose proof (spends_arrived c dport w2) as S3. rewrite E3 in S3. cbn [snd] in S3. apply IH. lia.
Qed.
Lemma calm_left_over {A} (m : nat -> M A) : (forall fuel w, (todo w < fuel)%nat -> stops (m fuel) w) -> calm (do! n <- left_over; m (S n)).
Proof. intros H w. apply stops_bind; [apply calm_left|]. intros n w' [= <- <-]. apply H. unfold todo. lia. Qed.
Lemma calm_drain i : calm (drain_turn i).
Proof.
  unfold drain_turn. apply calm_seq; [apply calm_br_at|]. intros [b|]; [|apply calm_ret]. apply calm_seq; [apply calm_set_br|]. intros ?. apply calm_seq; [unfold bridge_pump_out; apply (calm_left_over (fun n => pump_out n b)); intros; by apply pump_out_stops|]. intros [b1 ok]. calm_go.
Qed.
Lemma calm_tick : calm sshfwd_tick.
Proof.
  unfold sshfwd_tick. apply calm_seq; [apply calm_each, calm_listener|]. intros ?. apply calm_seq; [apply calm_state|]. intros f. apply calm_seq; [destruct (sf_remote f); [apply (calm_left_over arrivals), arrivals_stops|apply calm_ret]|]. intros ?. apply calm_seq; [apply calm_each, calm_pend|]. intros ?.
  intros w. apply stops_bind; [apply calm_left|]. intros n w' [= <- <-]. apply stops_bind; [apply bulk_stops; unfold todo; lia|]. intros ? w'' _. apply calm_each, calm_drain.
Qed.
Lemma calm_do o : calm (fwd_do o).
Proof.
  destruct o; cbn [fwd_do]; try apply calm_tick; unfold sshfwd_cli_local, sshfwd_cli_remote, set_remote; try calm_go.
  unfold sshfwd_srv_message, srv_direct, srv_forward, srv_cancel, fwd_now_ms. calm_go.
Qed.
Lemma calm_run ops : calm (fwd_run ops).
Proof. induction ops as [|o ops IH]; cbn [fwd_run]; [apply calm_ret|]. apply calm_seq; [apply calm_do|]. by intros ?. Qed.

(** C33: a pass over the tunnels ends. Its open loops, over the connections that arrive, over the bulk that
    moves, over what a channel has to say and over the rest of a buffer, are given one turn more than the
    sockets and libssh have answers left (the buffer, one for each of its bytes), and being cut off is
    logged; from any state and whatever the answers are, no pass ever logs it, nor does any whole run
    of the tunnels: each loop stops by itself, at the answer that has nothing, the write that takes
    nothing, or the bulk that has moved nothing; and any number of turns more gives the same result.
    How many answers a pass finds is finite, as it is between two passes of the session's loop, and
    after them the answer is that nothing happens. *)
Theorem tick_ends :
  (forall w, Spun ∈ tw_log (sshfwd_tick w).2 -> Spun ∈ tw_log w) /\
  (forall script ops, Spun ∉ tw_log (after script ops)) /\
  forall k w, tick_with k w = sshfwd_tick w.
Proof.
  split; [exact calm_tick|]. split; [|exact tick_enough]. intros script ops H. apply (calm_run ops) in H. by apply elem_of_nil in H.
Qed.

(** ** A tunnel at work *)
Definition n_ (n : Z) : ans := mk_ans n [].
Definition d_ (d : bytes) : ans := mk_ans 0 d.
(** A guest asks for 127.0.0.1 port 80, and the connect succeeds. *)
Definition dial : list fwd_op := [OpMessage (DirectTcpip (Some (cstr "127.0.0.1")) 80); OpTick].
Definition dial_answers : list ans := [n_ 1; n_ 1; n_ 0; n_ 1; n_ 1; n_ 1; n_ 1].
(** The request goes in and the response comes back, and the bridge stands. *)
Lemma tunnel_carries :
  let w := after (dial_answers ++ [n_ 100; d_ (cstr "200 OK"); n_ 0; n_ 100; n_ 0; d_ (cstr "GET"); n_ 2; n_ 1; n_ 0; n_ 1; n_ 0; n_ 100]) dial in
  bridges (tw_f w) = [mk_br 2 3 true false []] /\ fdout 2 (tw_log w) = cstr "GET" /\ chout 3 (tw_log w) = cstr "200 OK" /\ todo w = O.
Proof. by vm_compute. Qed.
(** A target nobody listens on is a refused channel, and everything is let go. *)
Lemma refused_target : let w := after [n_ 1; n_ 1; n_ 0; n_ (-1); n_ 0] dial in
  held (tw_f w) = [] /\ Replied 0 false ∈ tw_log w /\ todo w = O.
Proof. vm_compute. split; [done|]. split; [set_solver|done]. Qed.

(** ** What goes wrong *)

(** C34: a connection one end of which has finished sending is torn down whole.  When the channel has
    nothing more to say and is at its end of file, which is what the other side's application asks
    for with [shutdown(SHUT_WR)], and the descriptor has taken all there was, the bridge goes down
    in the same pass, descriptor and channel, although the descriptor's side has not finished:
    the response a server still has to send is lost (sshfwd.c:763). *)
Theorem half_closed_tunnel_ends w i b rest
    (Hb : sf_br (tw_f w) !! i = Some (Some b)) (Hempty : br_buf b = []) (Hopen : br_sent_eof b = false)
    (Hans : tw_script w = [n_ 0; n_ 1; n_ 1] ++ rest) :
  let w' := (drain_turn i w).2 in
  sf_br (tw_f w') !! i = Some None /\
  exists l, tw_log w' = tw_log w ++ map Rel l /\ (RFd, br_fd b) ∈ l /\ (RChan, br_chan b) ∈ l.
Proof.
  intros w'. assert (E : w' = (bridge_down b (mk_tw (tw_f (set_br i None w).2) rest (tw_next w) (tw_log w))).2).
  { unfold w', drain_turn. rewrite (bind_at (br_at i) _ w _ w eq_refl), Hb. rewrite (bind_at (set_br i None) _ w tt (set_br i None w).2 eq_refl). set (w1 := (set_br i None w).2). assert (S1 : tw_script w1 = [n_ 0; n_ 1; n_ 1] ++ rest) by done. assert (T1 : tw_next w1 = tw_next w /\ tw_log w1 = tw_log w) by done. clearbody w1.
    unfold bridge_pump_out. unfold bind at 1 2. cbn [left_over]. rewrite pump_out_S. unfold flush, bind, ask, asks, ret. rewrite Hempty. cbn [length]. rewrite Hempty. cbn. rewrite S1. cbn. rewrite Hempty. cbn. destruct T1 as [-> ->]. done. }
  rewrite E. clear E w'. set (w1 := mk_tw _ _ _ _). split; [rewrite (keeps_down sf_br b w1); cbn; by eapply slot_cleared|].
  exists ((if br_polled b then [(RPoll, br_fd b)] else []) ++ [(RFd, br_fd b); (RChan, br_chan b)]). split; [|set_solver].
  unfold bridge_down, chan_close_free, release, bind. destruct (br_polled b); cbn; unfold ask; cbn; destruct rest; cbn; rewrite <- ?app_assoc; done.
Qed.
Definition asked_and_shut : tworld := mk_tw (mk_sf false false false (Some (mk_br 2 3 true false []) :: replicate 15 None) (replicate 8 None) (replicate 8 None)) [n_ 0; n_ 1; n_ 1] 4 [].
Lemma half_closed_tunnel_ends_witness :
  let w' := (drain_turn 0 asked_and_shut).2 in
  sf_br (tw_f w') !! 0%nat = Some None /\
  exists l, tw_log w' = tw_log asked_and_shut ++ map Rel l /\ (RFd, 2%nat) ∈ l /\ (RChan, 3%nat) ∈ l.
Proof. apply (half_closed_tunnel_ends asked_and_shut 0 (mk_br 2 3 true false []) []); reflexivity. Defined.
(** The whole story: the guest's request and its end of file arrive in one pass; the request is
    handed on, the descriptor is closed, and nothing was read from it. *)
Lemma response_never_read :
  let w := after (dial_answers ++ [n_ 0; d_ (cstr "GET"); n_ 3; n_ 0; n_ 1; n_ 1; n_ 1]) dial in
  fdout 2 (tw_log w) = cstr "GET" /\ fdin 2 (tw_log w) = [] /\ (RFd, 2%nat) ∈ let_go_of w /\ bridges (tw_f w) = [].
Proof. vm_compute. split; [done|]. split; [done|]. split; [set_solver|done]. Qed.

(** [-R *:port] asks the host for every interface and gets the loopback: the client sends the empty
    string RFC 4254 has for that (sshfwd.c:500), and the host's [listen_on] takes the empty string
    for the loopback (sshfwd.c:230); with [-L *:port] the same text binds every interface. *)
Lemma remote_any_is_loopback sp : fw_bind sp = cstr "*" ->
  listen_addr (srv_addr (remote_addr sp)) = Some (Bind4 LOOPBACK) /\ listen_addr (fw_bind sp) = Some (Bind4 ANY).
Proof. intros H. unfold remote_addr. rewrite H. by vm_compute. Qed.
(** At the limit of the listeners a [-R] is refused by the client after the host has bound the port:
    the request was made, nothing takes it back (sshfwd.c:501, 524). *)
Lemma limit_leaves_port_bound sp w port s : unused_slot (sf_ls (tw_f w)) = None -> tw_script w = n_ port :: s -> 0 <= port ->
  (sshfwd_cli_remote sp w).1 = -1 /\ tw_log (sshfwd_cli_remote sp w).2 = tw_log w ++ [Asked (remote_addr sp) (fw_bind_port sp)].
Proof.
  intros Hf Hs Hp. unfold sshfwd_cli_remote. rewrite (bind_at (log _) _ w tt _ eq_refl). set (w1 := mk_tw _ _ _ _). assert (E : asks a_n w1 = (port, mk_tw (tw_f w) s (tw_next w) (tw_log w1))) by (unfold asks, bind, ask; cbn; by rewrite Hs). rewrite (bind_at _ _ _ _ _ E). rewrite (proj2 (Z.ltb_ge port 0)) by done. set (w2 := mk_tw _ s _ _). rewrite (bind_at listener_slot _ w2 _ w2 eq_refl). unfold w2. cbn [tw_f]. by rewrite Hf.
Qed.
(** A cancel takes the first listener on the port, whichever address it was bound to (sshfwd.c:845). *)
Lemma cancel_takes_first :
  let w := after [n_ 1; n_ 8080; n_ 1; n_ 8080] [OpMessage (TcpipForward (Some (cstr "127.0.0.1")) 8080); OpMessage (TcpipForward (Some (cstr "192.0.2.1")) 8080); OpMessage (CancelForward 8080)] in
  Bound [127; 0; 0; 1] 8080 ∈ tw_log w /\ omap id (sf_ls (tw_f w)) = [mk_ls (Some 3%nat) true no_spec (cstr "192.0.2.1") 8080 false].
Proof. vm_compute. split; [set_solver|done]. Qed.
