(* ===== verification/Seccomp.v ===== *)
(** src/src/sandbox_posix.c: the system-call filters, as the program assembles them and as the kernel
    runs them.  What the kernel's and the C library's headers say for one target (the numbers of
    the calls, which of them there are, the ioctl commands, the audit constants and the byte
    order) is the record [abi]; a name the headers lack is the [None] of its [#ifdef]. *)
From S2P Require Import Prelude.

(** ** The machine: classic BPF, the part the filters use *)
Inductive bpf_code := BPF_LD_W_ABS | BPF_JEQ_K | BPF_JGE_K | BPF_AND_K | BPF_RET_K.
Record sock_filter := mk_sf { sf_code : bpf_code; sf_jt : Z; sf_jf : Z; sf_k : Z }.
(** [struct seccomp_data]: [nr] and [arch] as 32-bit words, the arguments as 64-bit ones. *)
Record seccomp_data := mk_sd { sd_nr : Z; sd_arch : Z; sd_args : list Z }.
Definition lo32 (v : Z) : Z := v mod 2 ^ 32.
Definition hi32 (v : Z) : Z := v / 2 ^ 32.
(** The 32-bit word at an offset, on a target of either byte order. *)
Definition sd_word (be : bool) (d : seccomp_data) (off : Z) : option Z :=
  if off =? 0 then Some (sd_nr d)
  else if off =? 4 then Some (sd_arch d)
  else if off <? 16 then None
  else match sd_args d !! Z.to_nat ((off - 16) / 8), (off - 16) mod 8 with
       | Some v, 0 => Some (if be then hi32 v else lo32 v)
       | Some v, 4 => Some (if be then lo32 v else hi32 v)
       | _, _ => None
       end.
(** Jumps go forward only: a program is run along its list, [skip] instructions being jumped over.
    [None] is a program the kernel would not have taken. *)
Fixpoint bpf_run (be : bool) (d : seccomp_data) (l : list sock_filter) (skip : nat) (acc : Z) : option Z :=
  match l with
  | [] => None
  | i :: l =>
      match skip with
      | S skip => bpf_run be d l skip acc
      | O =>
          match sf_code i with
          | BPF_RET_K => Some (sf_k i)
          | BPF_LD_W_ABS => match sd_word be d (sf_k i) with Some v => bpf_run be d l 0 v | None => None end
          | BPF_AND_K => bpf_run be d l 0 (acc .& sf_k i)
          | BPF_JEQ_K => bpf_run be d l (Z.to_nat (if acc =? sf_k i then sf_jt i else sf_jf i)) acc
          | BPF_JGE_K => bpf_run be d l (Z.to_nat (if sf_k i <=? acc then sf_jt i else sf_jf i)) acc
          end
      end
  end.

(** ** The target *)
Record compat := mk_compat { c_arch : Z; c_socket : Z; c_socketcall : option Z; c_io_uring : Z }.
Record abi := mk_abi {
  ab_arch : Z; ab_x32_guard : bool; ab_be : bool; ab_arm : bool; ab_instrumented : bool;
  ab_nr : string -> option Z;                      (* the [__NR_] names *)
  ab_ioctl : string -> option Z;                   (* the ioctl commands *)
  ab_enosys : Z; ab_compat : option compat; ab_compat2 : option compat
}.
Definition SECCOMP_RET_KILL_PROCESS : Z := 0x80000000.
Definition SECCOMP_RET_TRAP : Z := 0x30000.
Definition SECCOMP_RET_ERRNO : Z := 0x50000.
Definition SECCOMP_RET_LOG : Z := 0x7ffc0000.
Definition SB_RET_ALLOW : Z := 0x7fff0000.
Definition SB_RET_ERRNO (e : Z) : Z := SECCOMP_RET_ERRNO .| (e .& 0xffff).
Definition EPERM : Z := 1.
Definition SB_OFF_NR : Z := 0.
Definition SB_OFF_ARCH : Z := 4.
Definition SB_ARG_LO (a : abi) (n : Z) : Z := 16 + 8 * n + (if ab_be a then 4 else 0).
Definition PR_SET_NAME : Z := 15.
Definition PR_GET_NAME : Z := 16.
Definition PR_CAPBSET_READ : Z := 23.
Definition PF_UNIX : Z := 1.
Definition PF_INET : Z := 2.
Definition PF_INET6 : Z := 10.
Definition PF_NETLINK : Z := 16.
Definition CLONE_THREAD : Z := 0x10000.
(** The numbers the filters use by themselves; a target without them does not compile. *)
Definition nr_of (a : abi) (n : string) : Z := default 0 (ab_nr a n).
Definition ioctl_of (a : abi) (n : string) : Z := default 0 (ab_ioctl a n).

(** ** The assembler *)

(** [f] up to [n], [max] and [overflow]. *)
Record sb_prog := mk_prog { sp_f : list sock_filter; sp_max : nat; sp_overflow : bool }.
Definition sp_n (p : sb_prog) : nat := length (sp_f p).
Definition sb_emit (p : sb_prog) (code : bpf_code) (jt jf k : Z) : sb_prog :=
  if (sp_max p <=? sp_n p)%nat then mk_prog (sp_f p) (sp_max p) true
  else mk_prog (sp_f p ++ [mk_sf code jt jf k]) (sp_max p) (sp_overflow p).
Definition sb_ld_nr (p : sb_prog) : sb_prog := sb_emit p BPF_LD_W_ABS 0 0 SB_OFF_NR.
Definition sb_ld_arch (p : sb_prog) : sb_prog := sb_emit p BPF_LD_W_ABS 0 0 SB_OFF_ARCH.
Definition sb_ld_arg (p : sb_prog) (off : Z) : sb_prog := sb_emit p BPF_LD_W_ABS 0 0 off.
Definition sb_ret (p : sb_prog) (action : Z) : sb_prog := sb_emit p BPF_RET_K 0 0 action.
Definition sb_eq_ret (p : sb_prog) (k action : Z) : sb_prog := sb_ret (sb_emit p BPF_JEQ_K 0 1 k) action.
Definition sb_test (p : sb_prog) (k : Z) : sb_prog * nat := let p := sb_emit p BPF_JEQ_K 0 0 k in (p, (sp_n p - 1)%nat).
Definition sb_land (p : sb_prog) (at_ : nat) (on_true : bool) : sb_prog :=
  if (sp_n p <=? at_)%nat then p
  else
    let d := Z.of_nat (sp_n p - at_ - 1) in
    if 255 <? d then mk_prog (sp_f p) (sp_max p) true
    else mk_prog (alter (fun i => if on_true then mk_sf (sf_code i) d (sf_jf i) (sf_k i) else mk_sf (sf_code i) (sf_jt i) d (sf_k i)) at_ (sp_f p)) (sp_max p) (sp_overflow p).
Definition sb_land_jt (p : sb_prog) (at_ : nat) : sb_prog := sb_land p at_ true.
Definition sb_land_jf (p : sb_prog) (at_ : nat) : sb_prog := sb_land p at_ false.
Definition sb_eq_rets (p : sb_prog) (ks : list Z) (action : Z) : sb_prog := fold_left (fun p k => sb_eq_ret p k action) ks p.
Definition sb_allow_table (p : sb_prog) (nrs : list Z) : sb_prog := sb_eq_rets p (map u32 nrs) SB_RET_ALLOW.
Definition sb_errno_table (p : sb_prog) (nrs : list Z) (err : Z) : sb_prog := sb_eq_rets p (map u32 nrs) (SB_RET_ERRNO err).

(** ** The tables *)
Definition sb_nr_hot : list string :=
  ["poll"; "read"; "recvfrom"; "sendto"; "write"; "futex"; "futex_time64"; "ppoll"; "ppoll_time64"; "ppoll_time32"].
Definition sb_nr_io : list string :=
  ["readv"; "writev"; "pread64"; "pwrite64"; "close"; "close_range"; "lseek"; "_llseek"; "dup"; "dup2"; "dup3"; "fcntl"; "fcntl64"; "ftruncate"; "ftruncate64"; "fsync"; "fdatasync"; "pipe"; "pipe2"; "eventfd2"].
Definition sb_nr_path : list string :=
  ["open"; "openat"; "access"; "faccessat"; "stat"; "stat64"; "lstat"; "lstat64"; "fstat"; "fstat64"; "fstatat64"; "newfstatat"; "statx"; "statfs"; "statfs64"; "fstatfs"; "fstatfs64"; "readlink"; "readlinkat"; "getdents64"; "getdents"; "rename"; "renameat"; "renameat2"; "mkdir"; "mkdirat"; "rmdir"; "unlink"; "unlinkat"; "chmod"; "fchmod"; "fchmodat"].
Definition sb_nr_mem : list string :=
  ["brk"; "mmap"; "mmap2"; "munmap"; "mprotect"; "mremap"; "madvise"; "mlock"; "munlock"].
Definition sb_nr_time : list string :=
  ["clock_gettime"; "clock_gettime64"; "clock_gettime32"; "clock_getres"; "clock_getres_time64"; "clock_getres_time32"; "clock_nanosleep"; "clock_nanosleep_time64"; "clock_nanosleep_time32"; "gettimeofday"; "gettimeofday_time32"; "nanosleep"; "time"].
Definition sb_nr_wait : list string :=
  ["select"; "_newselect"; "pselect6"; "pselect6_time64"; "pselect6_time32"; "epoll_create1"; "epoll_ctl"; "epoll_wait"; "epoll_pwait"].
Definition sb_nr_task : list string :=
  ["set_tid_address"; "set_robust_list"; "set_thread_area"; "rseq"; "gettid"; "getpid"; "getppid"; "sched_yield"; "sched_getaffinity"; "membarrier"; "getcpu"; "exit"; "exit_group"; "wait4"; "waitid"].
Definition sb_nr_signal : list string :=
  ["rt_sigaction"; "rt_sigprocmask"; "rt_sigreturn"; "sigreturn"; "rt_sigsuspend"; "rt_sigtimedwait"; "rt_sigtimedwait_time64"; "sigaltstack"; "restart_syscall"; "tgkill"; "tkill"; "kill"].
Definition sb_nr_net : list string :=
  ["socketpair"; "bind"; "listen"; "accept"; "accept4"; "connect"; "getsockname"; "getpeername"; "getsockopt"; "setsockopt"; "sendmsg"; "sendmmsg"; "recvmsg"; "recvmmsg"; "recvmmsg_time64"; "shutdown"].
Definition sb_nr_self : list string :=
  ["uname"; "sysinfo"; "getrandom"; "getuid"; "getuid32"; "geteuid"; "geteuid32"; "getgid"; "getgid32"; "getegid"; "getegid32"; "getrlimit"; "ugetrlimit"; "prlimit64"].
Definition sb_nr_enosys : list string :=
  ["clone3"; "openat2"; "faccessat2"; "futex_waitv"; "epoll_pwait2"; "io_uring_setup"; "io_uring_enter"; "io_uring_register"; "socketcall"].
Definition sb_nr_eperm : list string :=
  ["ptrace"; "mount"; "umount2"; "mount_setattr"; "move_mount"; "open_tree"; "fsopen"; "fsconfig"; "fsmount"; "fspick"; "pivot_root"; "chroot"; "unshare"].
Definition sb_nr_arm_private : list Z := [0x0f0001; 0x0f0002; 0x0f0003; 0x0f0004; 0x0f0005; 0x0f0006].
(** A table as it is compiled for a target. *)
Definition tbl (a : abi) (names : list string) : list Z := omap (ab_nr a) names.
Definition arm_private (a : abi) : list Z := if ab_arm a then sb_nr_arm_private else [].
(** [SB_N], the final 0 included. *)
Definition SB_N (t : list Z) : nat := S (length t).
Definition SB_MAX_FILTER (a : abi) : nat :=
  (2 * (SB_N (tbl a sb_nr_hot) + SB_N (tbl a sb_nr_io) + SB_N (tbl a sb_nr_path) + SB_N (tbl a sb_nr_mem) + SB_N (tbl a sb_nr_time) + SB_N (tbl a sb_nr_wait) +
        SB_N (tbl a sb_nr_task) + SB_N (tbl a sb_nr_signal) + SB_N (tbl a sb_nr_net) + SB_N (tbl a sb_nr_self) + SB_N (tbl a sb_nr_enosys) + SB_N (tbl a sb_nr_eperm) +
        (if ab_arm a then SB_N sb_nr_arm_private else 0)) + 128)%nat.

(** ** The argument rules *)
Definition sb_rule_prctl (a : abi) (p : sb_prog) (deflt : Z) : sb_prog :=
  let '(p, at_) := sb_test p (nr_of a "prctl") in
  let p := sb_ld_arg p (SB_ARG_LO a 0) in
  let p := sb_eq_rets p [PR_SET_NAME; PR_GET_NAME; PR_CAPBSET_READ] SB_RET_ALLOW in
  sb_land_jf (sb_ret p deflt) at_.
Definition sb_rule_socket (a : abi) (p : sb_prog) (deflt : Z) : sb_prog :=
  let '(p, at_) := sb_test p (nr_of a "socket") in
  let p := sb_ld_arg p (SB_ARG_LO a 0) in
  let p := sb_eq_rets p [PF_INET; PF_INET6; PF_UNIX; PF_NETLINK] SB_RET_ALLOW in
  sb_land_jf (sb_ret p deflt) at_.
(** The commands a role may issue: [#ifdef TCGETS] guards the pair, [#ifdef TCGETS2] the other. *)
Definition guarded (a : abi) (guard : string) (cmds : list string) : list Z := match ab_ioctl a guard with Some _ => map (ioctl_of a) cmds | None => [] end.
Definition ioctl_cmds (a : abi) (no_pty : bool) : list Z :=
  map (ioctl_of a) ["FIONBIO"; "FIONREAD"; "SIOCGIFINDEX"; "SIOCGIFNAME"; "TIOCGWINSZ"] ++
  if negb no_pty then [ioctl_of a "TIOCSWINSZ"] ++ guarded a "TCGETS" ["TCGETS"; "TCSETS"] ++ guarded a "TCGETS2" ["TCGETS2"; "TCSETS2"]
  else if ab_instrumented a then guarded a "TCGETS" ["TCGETS"] ++ guarded a "TCGETS2" ["TCGETS2"] else [].
Definition sb_rule_ioctl (a : abi) (p : sb_prog) (deflt : Z) (no_pty : bool) : sb_prog :=
  let '(p, at_) := sb_test p (nr_of a "ioctl") in
  let p := sb_ld_arg p (SB_ARG_LO a 1) in
  let p := sb_eq_rets p (ioctl_cmds a no_pty) SB_RET_ALLOW in
  sb_land_jf (sb_ret p deflt) at_.
Definition sb_rule_clone (a : abi) (p : sb_prog) (deflt : Z) : sb_prog :=
  let '(p, at_) := sb_test p (nr_of a "clone") in
  let p := sb_ld_arg p (SB_ARG_LO a 0) in
  let p := sb_emit p BPF_AND_K 0 0 CLONE_THREAD in
  let p := sb_eq_ret p CLONE_THREAD SB_RET_ALLOW in
  sb_land_jf (sb_ret p deflt) at_.
Definition sb_arch_preamble (a : abi) (p : sb_prog) : sb_prog :=
  let p := sb_ld_arch p in
  let p := sb_emit p BPF_JEQ_K 1 0 (ab_arch a) in
  let p := sb_ret p SECCOMP_RET_KILL_PROCESS in
  let p := sb_ld_nr p in
  if ab_x32_guard a then sb_ret (sb_emit p BPF_JGE_K 0 1 0x40000000) SECCOMP_RET_KILL_PROCESS else p.
Definition sb_build_allowlist (a : abi) (p : sb_prog) (deflt : Z) (no_pty : bool) : sb_prog :=
  let p := sb_arch_preamble a p in
  let p := sb_allow_table p (tbl a sb_nr_hot) in
  let p := sb_rule_socket a p deflt in
  let p := sb_rule_ioctl a p deflt no_pty in
  let p := sb_allow_table p (tbl a sb_nr_net) in
  let p := sb_allow_table p (tbl a sb_nr_io) in
  let p := sb_allow_table p (tbl a sb_nr_path) in
  let p := sb_allow_table p (tbl a sb_nr_mem) in
  let p := sb_allow_table p (tbl a sb_nr_time) in
  let p := sb_allow_table p (tbl a sb_nr_wait) in
  let p := sb_allow_table p (tbl a sb_nr_task) in
  let p := sb_allow_table p (tbl a sb_nr_signal) in
  let p := sb_allow_table p (tbl a sb_nr_self) in
  let p := sb_allow_table p (arm_private a) in
  let p := sb_rule_prctl a p deflt in
  let p := sb_rule_clone a p deflt in
  let p := sb_errno_table p (tbl a sb_nr_enosys) (ab_enosys a) in
  let p := sb_errno_table p (tbl a sb_nr_eperm) EPERM in
  sb_ret p deflt.
(** The filter that is handed to the kernel; [None] when it did not fit and none is installed. *)
Definition finished (p : sb_prog) : option (list sock_filter) := if sp_overflow p then None else Some (sp_f p).
Definition seccomp_allowlist (a : abi) (deflt : Z) (no_pty : bool) : option (list sock_filter) := finished (sb_build_allowlist a (mk_prog [] (SB_MAX_FILTER a) false) deflt no_pty).

(** ** The no-network filter *)
Definition sb_nonet_body (a : abi) (p : sb_prog) (nr_socket : Z) : sb_prog :=
  let '(p, at_) := sb_test p nr_socket in
  let p := sb_ld_arg p (SB_ARG_LO a 0) in
  let p := sb_eq_rets p [PF_INET; PF_INET6] (SB_RET_ERRNO EPERM) in
  let p := sb_land_jf (sb_ret p SB_RET_ALLOW) at_ in
  sb_ret p SB_RET_ALLOW.
Definition opt_list (o : option Z) : list Z := match o with Some k => [k] | None => [] end.
Definition sb_compat_branch (a : abi) (p : sb_prog) (c : option compat) : sb_prog :=
  match c with
  | None => p
  | Some c =>
      let '(p, skip) := sb_test p (c_arch c) in
      let p := sb_ld_nr p in
      let p := sb_eq_rets p (opt_list (c_socketcall c) ++ [c_io_uring c]) (SB_RET_ERRNO EPERM) in
      let p := sb_nonet_body a p (c_socket c) in
      sb_land_jf p skip
  end.
(** The second branch has no [socketcall] to refuse. *)
Definition compat2 (a : abi) : option compat := option_map (fun c => mk_compat (c_arch c) (c_socket c) None (c_io_uring c)) (ab_compat2 a).
Definition seccomp_nonet (a : abi) : option (list sock_filter) :=
  let p := sb_ld_arch (mk_prog [] 64 false) in
  let '(p, to_native) := sb_test p (ab_arch a) in
  let p := sb_compat_branch a p (ab_compat a) in
  let p := sb_compat_branch a p (compat2 a) in
  let p := sb_ret p SECCOMP_RET_KILL_PROCESS in
  let p := sb_land_jt p to_native in
  let p := sb_ld_nr p in
  let p := sb_eq_rets p (opt_list (ab_nr a "socketcall") ++ opt_list (ab_nr a "io_uring_setup")) (SB_RET_ERRNO EPERM) in
  finished (sb_nonet_body a p (nr_of a "socket")).
(** The default action: what [sb_mode_prepare] settles on. *)
Definition sb_mode_prepare (log_mode log_available warn_mode : bool) : Z :=
  if log_mode && log_available then SECCOMP_RET_LOG else if warn_mode || log_mode then SECCOMP_RET_TRAP else SECCOMP_RET_KILL_PROCESS.
