(* ===== verification/SeccompOk.v ===== *)
(** The filters decide what they are meant to: the assembled program always fits its buffer, its jumps
    land where they should, and running it gives the verdict of a policy written as a function;
    and a gap in the no-network filter. *)
From S2P Require Import Prelude Seccomp.

(** ** What is emitted *)

(** [q] is [p] with [l] at its end, where there was room. *)
Definition grows (p q : sb_prog) (l : list sock_filter) : Prop :=
  sp_max q = sp_max p /\ ((sp_n p + length l <= sp_max p)%nat -> sp_f q = sp_f p ++ l /\ sp_overflow q = sp_overflow p).
Lemma grows_nil p : grows p p [].
Proof. split; [done|]. intros _. by rewrite app_nil_r. Qed.
Lemma grows_trans p q r l1 l2 : grows p q l1 -> grows q r l2 -> grows p r (l1 ++ l2).
Proof.
  intros [M1 G1] [M2 G2]. split; [congruence|]. intros H. rewrite length_app in H. destruct G1 as [E1 O1]; [lia|]. destruct G2 as [E2 O2]; [unfold sp_n in *; rewrite E1, length_app, M1; lia|]. split; [by rewrite E2, E1, app_assoc|congruence].
Qed.
Lemma grows_emit p code jt jf k : grows p (sb_emit p code jt jf k) [mk_sf code jt jf k].
Proof. unfold sb_emit. split; [by destruct (_ <=? _)%nat|]. cbn [length]. intros H. destruct (Nat.leb_spec (sp_max p) (sp_n p)); [lia|done]. Qed.
Definition ld (off : Z) : sock_filter := mk_sf BPF_LD_W_ABS 0 0 off.
Definition rt (k : Z) : sock_filter := mk_sf BPF_RET_K 0 0 k.
Definition eqs (ks : list Z) (act : Z) : list sock_filter := concat (map (fun k => [mk_sf BPF_JEQ_K 0 1 k; rt act]) ks).
Definition rule (k : Z) (body : list sock_filter) : list sock_filter := mk_sf BPF_JEQ_K 0 (Z.of_nat (length body)) k :: body.
Lemma grows_eqs p ks act : grows p (sb_eq_rets p ks act) (eqs ks act).
Proof.
  revert p. induction ks as [|k ks IH]; intros p; [apply grows_nil|]. change (eqs (k :: ks) act) with (([mk_sf BPF_JEQ_K 0 1 k] ++ [rt act]) ++ eqs ks act). eapply grows_trans; [|apply IH]. eapply grows_trans; apply grows_emit.
Qed.
(** A test whose one branch is landed past the block that follows it. *)
Definition tested (on_true : bool) (k : Z) (body : list sock_filter) : list sock_filter :=
  let n := Z.of_nat (length body) in (if on_true then mk_sf BPF_JEQ_K n 0 k else mk_sf BPF_JEQ_K 0 n k) :: body.
Lemma grows_land on_true p k q body : (length body <= 255)%nat -> grows (sb_test p k).1 q body -> grows p (sb_land q (sb_test p k).2 on_true) (tested on_true k body).
Proof.
  intros Hl [M G]. unfold sb_test in *. cbn [fst snd] in *. destruct (grows_emit p BPF_JEQ_K 0 0 k) as [M1 G1]. split; [unfold sb_land; repeat case_match; cbn; congruence|]. unfold tested. cbn [length]. intros H. destruct G1 as [E1 O1]; [cbn; lia|]. destruct G as [E2 O2]; [unfold sp_n in *; rewrite E1, length_app, M1; cbn; lia|].
  unfold sb_land. assert (N1 : sp_n (sb_emit p BPF_JEQ_K 0 0 k) = S (sp_n p)) by (unfold sp_n; rewrite E1, length_app; cbn; lia). assert (N2 : sp_n q = (S (sp_n p) + length body)%nat) by (unfold sp_n in *; by rewrite E2, length_app, N1). rewrite N1, N2. replace (S (sp_n p) - 1)%nat with (sp_n p) by lia. destruct (Nat.leb_spec (S (sp_n p) + length body) (sp_n p)); [lia|].
  replace (S (sp_n p) + length body - sp_n p - 1)%nat with (length body) by lia. destruct (Z.ltb_spec 255 (Z.of_nat (length body))); [lia|]. cbn [sp_f sp_overflow]. split; [|congruence]. rewrite E2, E1, <- app_assoc. unfold sp_n. rewrite alter_app_r_alt by lia. rewrite Nat.sub_diag. by destruct on_true.
Qed.
Lemma grows_rule p k q body : (length body <= 255)%nat -> grows (sb_test p k).1 q body -> grows p (sb_land_jf q (sb_test p k).2) (rule k body).
Proof. apply (grows_land false). Qed.

(** ** What the machine makes of it *)
Section Run.
Context (be : bool) (d : seccomp_data).
Notation run := (bpf_run be d).
Lemma run_skip body r acc : run (body ++ r) (length body) acc = run r 0 acc.
Proof. induction body as [|i body IH]; [done|]. cbn. exact IH. Qed.
Lemma run_eqs ks act r acc : run (eqs ks act ++ r) 0 acc = if existsb (Z.eqb acc) ks then Some act else run r 0 acc.
Proof. induction ks as [|k ks IH]; [done|]. cbn. destruct (acc =? k); [done|]. cbn. exact IH. Qed.
Lemma run_rule k body r acc : run (rule k body ++ r) 0 acc = if acc =? k then run (body ++ r) 0 acc else run r 0 acc.
Proof. unfold rule. cbn. destruct (acc =? k); [done|]. rewrite Nat2Z.id. apply run_skip. Qed.
Lemma run_ret k r acc : run (rt k :: r) 0 acc = Some k.
Proof. done. Qed.
Lemma run_ld off r acc v : sd_word be d off = Some v -> run (ld off :: r) 0 acc = run r 0 v.
Proof. intros H. cbn. by rewrite H. Qed.
End Run.
(** The argument the rules look at: the low half, on either byte order. *)
Definition sd_arg (d : seccomp_data) (n : nat) : Z := lo32 (nth n (sd_args d) 0).
Lemma arg_word a d n : (n < length (sd_args d))%nat -> sd_word (ab_be a) d (SB_ARG_LO a (Z.of_nat n)) = Some (sd_arg d n).
Proof.
  intros H. unfold sd_word, SB_ARG_LO. set (h := if ab_be a then 4 else 0). assert (Hh : h = 0 \/ h = 4) by (unfold h; destruct (ab_be a); lia). replace (16 + 8 * Z.of_nat n + h =? 0) with false by lia. replace (16 + 8 * Z.of_nat n + h =? 4) with false by lia. replace (16 + 8 * Z.of_nat n + h <? 16) with false by lia.
  replace ((16 + 8 * Z.of_nat n + h - 16) / 8) with (Z.of_nat n) by (Z.to_euclidean_division_equations; lia). replace ((16 + 8 * Z.of_nat n + h - 16) mod 8) with h by (Z.to_euclidean_division_equations; lia). rewrite Nat2Z.id. destruct (lookup_lt_is_Some_2 _ _ H) as [v Hv]. rewrite Hv. unfold sd_arg. rewrite (nth_lookup_Some _ _ 0 v) by done. unfold h. by destruct (ab_be a).
Qed.

(** ** The allowlist as a function *)
Definition among (ks : list Z) (v : Z) : bool := existsb (Z.eqb v) ks.
Definition named (a : abi) (names : list string) (nr : Z) : bool := among (map u32 (tbl a names)) nr.
(** The calls allowed whatever their arguments, the hot ones apart. *)
Definition cold (a : abi) : list Z :=
  map u32 (tbl a sb_nr_net ++ tbl a sb_nr_io ++ tbl a sb_nr_path ++ tbl a sb_nr_mem ++ tbl a sb_nr_time ++ tbl a sb_nr_wait ++ tbl a sb_nr_task ++ tbl a sb_nr_signal ++ tbl a sb_nr_self ++ arm_private a).
Definition grant (ok : bool) (deflt : Z) : Z := if ok then SB_RET_ALLOW else deflt.
(** The verdict on a call, by its number and the low halves of its first two arguments. *)
Definition policy (a : abi) (deflt : Z) (no_pty : bool) (d : seccomp_data) : Z :=
  let nr := sd_nr d in
  if negb (sd_arch d =? ab_arch a) || (ab_x32_guard a && (0x40000000 <=? nr)) then SECCOMP_RET_KILL_PROCESS
  else if named a sb_nr_hot nr then SB_RET_ALLOW
  else if nr =? nr_of a "socket" then grant (among [PF_INET; PF_INET6; PF_UNIX; PF_NETLINK] (sd_arg d 0)) deflt
  else if nr =? nr_of a "ioctl" then grant (among (ioctl_cmds a no_pty) (sd_arg d 1)) deflt
  else if among (cold a) nr then SB_RET_ALLOW
  else if nr =? nr_of a "prctl" then grant (among [PR_SET_NAME; PR_GET_NAME; PR_CAPBSET_READ] (sd_arg d 0)) deflt
  else if nr =? nr_of a "clone" then grant (sd_arg d 0 .& CLONE_THREAD =? CLONE_THREAD) deflt
  else if named a sb_nr_enosys nr then SB_RET_ERRNO (ab_enosys a)
  else if named a sb_nr_eperm nr then SB_RET_ERRNO EPERM
  else deflt.

(** The listing: the instructions the builder leaves in its buffer. *)
Definition lst_preamble (a : abi) : list sock_filter :=
  [ld SB_OFF_ARCH; mk_sf BPF_JEQ_K 1 0 (ab_arch a); rt SECCOMP_RET_KILL_PROCESS; ld SB_OFF_NR] ++ (if ab_x32_guard a then [mk_sf BPF_JGE_K 0 1 0x40000000; rt SECCOMP_RET_KILL_PROCESS] else []).
Definition lst_args (a : abi) (n : Z) (ks : list Z) (act deflt : Z) : list sock_filter := ld (SB_ARG_LO a n) :: eqs ks act ++ [rt deflt].
Definition lst_clone (a : abi) (deflt : Z) : list sock_filter := [ld (SB_ARG_LO a 0); mk_sf BPF_AND_K 0 0 CLONE_THREAD] ++ eqs [CLONE_THREAD] SB_RET_ALLOW ++ [rt deflt].
Definition lst_table (t : list Z) (act : Z) : list sock_filter := eqs (map u32 t) act.
Definition lst_allowlist (a : abi) (deflt : Z) (no_pty : bool) : list sock_filter :=
  lst_preamble a ++ lst_table (tbl a sb_nr_hot) SB_RET_ALLOW ++
  rule (nr_of a "socket") (lst_args a 0 [PF_INET; PF_INET6; PF_UNIX; PF_NETLINK] SB_RET_ALLOW deflt) ++
  rule (nr_of a "ioctl") (lst_args a 1 (ioctl_cmds a no_pty) SB_RET_ALLOW deflt) ++
  eqs (cold a) SB_RET_ALLOW ++
  rule (nr_of a "prctl") (lst_args a 0 [PR_SET_NAME; PR_GET_NAME; PR_CAPBSET_READ] SB_RET_ALLOW deflt) ++
  rule (nr_of a "clone") (lst_clone a deflt) ++
  lst_table (tbl a sb_nr_enosys) (SB_RET_ERRNO (ab_enosys a)) ++ lst_table (tbl a sb_nr_eperm) (SB_RET_ERRNO EPERM) ++ [rt deflt].

Lemma eqs_length ks act : length (eqs ks act) = (2 * length ks)%nat.
Proof. induction ks as [|k ks IH]; [done|]. unfold eqs in *. cbn [map concat]. rewrite length_app, IH. cbn. lia. Qed.
Lemma eqs_app k1 k2 act : eqs (k1 ++ k2) act = eqs k1 act ++ eqs k2 act.
Proof. unfold eqs. by rewrite map_app, concat_app. Qed.
Lemma ioctl_few a no_pty : (length (ioctl_cmds a no_pty) <= 10)%nat.
Proof. unfold ioctl_cmds, guarded. destruct no_pty, (ab_instrumented a), (ab_ioctl a "TCGETS"), (ab_ioctl a "TCGETS2"); cbn; lia. Qed.
Lemma args_length a n ks act deflt : length (lst_args a n ks act deflt) = (2 * length ks + 2)%nat.
Proof. unfold lst_args. cbn. rewrite length_app, eqs_length. cbn. lia. Qed.
(** A block that tests one argument, the shape of three of the four rules. *)
Lemma grows_args a p k n ks act deflt : (length ks <= 10)%nat ->
  grows p (sb_land_jf (sb_ret (sb_eq_rets (sb_ld_arg (sb_test p k).1 (SB_ARG_LO a n)) ks act) deflt) (sb_test p k).2) (rule k (lst_args a n ks act deflt)).
Proof.
  intros H. apply grows_rule; [rewrite args_length; lia|]. change (lst_args a n ks act deflt) with ([ld (SB_ARG_LO a n)] ++ eqs ks act ++ [rt deflt]).
  eapply grows_trans; [apply grows_emit|]. eapply grows_trans; [apply grows_eqs|apply grows_emit].
Qed.
Lemma grows_clone a p deflt : grows p (sb_rule_clone a p deflt) (rule (nr_of a "clone") (lst_clone a deflt)).
Proof.
  apply (grows_rule p (nr_of a "clone")); [cbn; lia|]. change (lst_clone a deflt) with ([ld (SB_ARG_LO a 0)] ++ [mk_sf BPF_AND_K 0 0 CLONE_THREAD] ++ ([mk_sf BPF_JEQ_K 0 1 CLONE_THREAD] ++ [rt SB_RET_ALLOW]) ++ [rt deflt]).
  eapply grows_trans; [apply grows_emit|]. eapply grows_trans; [apply grows_emit|]. eapply grows_trans; [eapply grows_trans; apply grows_emit|apply grows_emit].
Qed.
Lemma grows_preamble a p : grows p (sb_arch_preamble a p) (lst_preamble a).
Proof.
  unfold lst_preamble. change (?w :: ?x :: ?y :: ?z :: ?r) with ([w] ++ [x] ++ [y] ++ [z] ++ r) at 1. unfold sb_arch_preamble. destruct (ab_x32_guard a); cbn [app].
  - change (?u :: ?w :: ?x :: ?y :: ?z :: [?v]) with ([u] ++ [w] ++ [x] ++ [y] ++ [z] ++ [v]). repeat (eapply grows_trans; [apply grows_emit|]). apply grows_emit.
  - change (?u :: ?w :: ?x :: [?v]) with ([u] ++ [w] ++ [x] ++ [v]). repeat (eapply grows_trans; [apply grows_emit|]). apply grows_emit.
Qed.
Lemma cold_split a act : eqs (cold a) act =
  lst_table (tbl a sb_nr_net) act ++ lst_table (tbl a sb_nr_io) act ++ lst_table (tbl a sb_nr_path) act ++ lst_table (tbl a sb_nr_mem) act ++ lst_table (tbl a sb_nr_time) act ++ lst_table (tbl a sb_nr_wait) act ++ lst_table (tbl a sb_nr_task) act ++ lst_table (tbl a sb_nr_signal) act ++ lst_table (tbl a sb_nr_self) act ++ lst_table (arm_private a) act.
Proof. unfold cold, lst_table. by rewrite !map_app, !eqs_app. Qed.
Lemma grows_socket a p deflt : grows p (sb_rule_socket a p deflt) (rule (nr_of a "socket") (lst_args a 0 [PF_INET; PF_INET6; PF_UNIX; PF_NETLINK] SB_RET_ALLOW deflt)).
Proof. apply (grows_args a p (nr_of a "socket") 0 [PF_INET; PF_INET6; PF_UNIX; PF_NETLINK]). cbn. lia. Qed.
Lemma grows_ioctl a p deflt no_pty : grows p (sb_rule_ioctl a p deflt no_pty) (rule (nr_of a "ioctl") (lst_args a 1 (ioctl_cmds a no_pty) SB_RET_ALLOW deflt)).
Proof. apply (grows_args a p (nr_of a "ioctl") 1 (ioctl_cmds a no_pty)). apply ioctl_few. Qed.
Lemma grows_prctl a p deflt : grows p (sb_rule_prctl a p deflt) (rule (nr_of a "prctl") (lst_args a 0 [PR_SET_NAME; PR_GET_NAME; PR_CAPBSET_READ] SB_RET_ALLOW deflt)).
Proof. apply (grows_args a p (nr_of a "prctl") 0 [PR_SET_NAME; PR_GET_NAME; PR_CAPBSET_READ]). cbn. lia. Qed.
Lemma grows_allow p t : grows p (sb_allow_table p t) (lst_table t SB_RET_ALLOW).
Proof. apply grows_eqs. Qed.
Lemma grows_errno p t e : grows p (sb_errno_table p t e) (lst_table t (SB_RET_ERRNO e)).
Proof. apply grows_eqs. Qed.
Lemma grows_ret p k : grows p (sb_ret p k) [rt k].
Proof. apply grows_emit. Qed.
Lemma grows_allowlist a p deflt no_pty : grows p (sb_build_allowlist a p deflt no_pty) (lst_allowlist a deflt no_pty).
Proof.
  unfold lst_allowlist. rewrite cold_split, <- !app_assoc. unfold sb_build_allowlist. cbv zeta.
  eapply grows_trans; [apply grows_preamble|]. eapply grows_trans; [apply grows_allow|]. eapply grows_trans; [apply grows_socket|]. eapply grows_trans; [apply grows_ioctl|].
  do 10 (eapply grows_trans; [apply grows_allow|]). eapply grows_trans; [apply grows_prctl|]. eapply grows_trans; [apply grows_clone|]. do 2 (eapply grows_trans; [apply grows_errno|]). apply grows_ret.
Qed.
(** The buffer, sized from the tables, holds the filter: at most 58 instructions are not a table's. *)
Lemma table_length t act : length (lst_table t act) = (2 * length t)%nat.
Proof. unfold lst_table. by rewrite eqs_length, length_map. Qed.
Lemma rule_length k body : length (rule k body) = S (length body).
Proof. done. Qed.
Lemma preamble_length a : (length (lst_preamble a) <= 6)%nat.
Proof. unfold lst_preamble. destruct (ab_x32_guard a); cbn; lia. Qed.
Lemma arm_counted a : (if ab_arm a then SB_N sb_nr_arm_private else 0)%nat = (if ab_arm a then 7 else 0)%nat.
Proof. by destruct (ab_arm a). Qed.
Lemma allowlist_fits a deflt no_pty : (length (lst_allowlist a deflt no_pty) <= SB_MAX_FILTER a)%nat.
Proof.
  unfold lst_allowlist, SB_MAX_FILTER. rewrite arm_counted, cold_split, !length_app, !rule_length, !table_length, !args_length. pose proof (ioctl_few a no_pty). pose proof (preamble_length a).
  change (length (lst_clone a deflt)) with 5%nat. change (length [rt deflt]) with 1%nat. change (length [PF_INET; PF_INET6; PF_UNIX; PF_NETLINK]) with 4%nat. change (length [PR_SET_NAME; PR_GET_NAME; PR_CAPBSET_READ]) with 3%nat.
  assert (length (arm_private a) = if ab_arm a then 6 else 0)%nat as -> by (unfold arm_private; by destruct (ab_arm a)). unfold SB_N. destruct (ab_arm a); lia.
Qed.
(** The machine on the listing. *)
Lemma run_args a d n ks act deflt k r acc : (n < length (sd_args d))%nat ->
  bpf_run (ab_be a) d (rule k (lst_args a (Z.of_nat n) ks act deflt) ++ r) 0 acc = if acc =? k then Some (if among ks (sd_arg d n) then act else deflt) else bpf_run (ab_be a) d r 0 acc.
Proof.
  intros H. rewrite run_rule. destruct (acc =? k); [|done]. unfold lst_args. cbn [app]. rewrite (run_ld _ _ _ _ _ _ (arg_word a d n H)), <- app_assoc, run_eqs. unfold among. by destruct (existsb _ ks).
Qed.
Lemma run_clone a d deflt k r acc : (0 < length (sd_args d))%nat ->
  bpf_run (ab_be a) d (rule k (lst_clone a deflt) ++ r) 0 acc = if acc =? k then Some (grant (sd_arg d 0 .& CLONE_THREAD =? CLONE_THREAD) deflt) else bpf_run (ab_be a) d r 0 acc.
Proof.
  intros H. rewrite run_rule. destruct (acc =? k); [|done]. unfold lst_clone. cbn [app]. rewrite (run_ld _ _ _ _ _ _ (arg_word a d 0 H)). unfold grant. cbn. by destruct (_ =? _).
Qed.
Lemma run_preamble a d r : bpf_run (ab_be a) d (lst_preamble a ++ r) 0 0 =
  if negb (sd_arch d =? ab_arch a) || (ab_x32_guard a && (0x40000000 <=? sd_nr d)) then Some SECCOMP_RET_KILL_PROCESS else bpf_run (ab_be a) d r 0 (sd_nr d).
Proof.
  unfold lst_preamble. destruct (ab_x32_guard a); cbn; destruct (sd_arch d =? ab_arch a); cbn; try done. by destruct (_ <=? sd_nr d).
Qed.
Lemma run_table be d t act r acc : bpf_run be d (lst_table t act ++ r) 0 acc = if among (map u32 t) acc then Some act else bpf_run be d r 0 acc.
Proof. apply run_eqs. Qed.
Lemma run_allowlist a deflt no_pty d : length (sd_args d) = 6%nat -> bpf_run (ab_be a) d (lst_allowlist a deflt no_pty) 0 0 = Some (policy a deflt no_pty d).
Proof.
  intros H. unfold lst_allowlist, policy. rewrite run_preamble. destruct (negb _ || _); [done|]. rewrite run_table. fold (named a sb_nr_hot (sd_nr d)). destruct (named a sb_nr_hot _); [done|].
  rewrite (run_args a d 0) by lia. destruct (_ =? nr_of a "socket"); [done|]. rewrite (run_args a d 1) by lia. destruct (_ =? nr_of a "ioctl"); [done|]. rewrite run_eqs. fold (among (cold a) (sd_nr d)). destruct (among (cold a) _); [done|].
  rewrite (run_args a d 0) by lia. destruct (_ =? nr_of a "prctl"); [done|]. rewrite run_clone by lia. destruct (_ =? nr_of a "clone"); [done|]. rewrite !run_table. fold (named a sb_nr_enosys (sd_nr d)) (named a sb_nr_eperm (sd_nr d)). destruct (named a sb_nr_enosys _); [done|]. by destruct (named a sb_nr_eperm _).
Qed.

Lemma allowlist_listing a deflt no_pty : seccomp_allowlist a deflt no_pty = Some (lst_allowlist a deflt no_pty).
Proof.
  pose proof (grows_allowlist a (mk_prog [] (SB_MAX_FILTER a) false) deflt no_pty) as [_ G]. unfold seccomp_allowlist, finished. revert G. generalize (sb_build_allowlist a (mk_prog [] (SB_MAX_FILTER a) false) deflt no_pty). intros p G.
  destruct (G (allowlist_fits a deflt no_pty)) as [E O]. rewrite O, E. reflexivity.
Qed.

(** C28: the filter assembled for the client and the host service always fits its buffer, and the kernel,
    running it on any system call, gives exactly the verdict of [policy]: on every target, of
    either byte order, whatever its headers name and whatever the default action. *)
Theorem allowlist_is_policy a deflt no_pty d : length (sd_args d) = 6%nat ->
  exists f, seccomp_allowlist a deflt no_pty = Some f /\ (length f <= SB_MAX_FILTER a)%nat /\ bpf_run (ab_be a) d f 0 0 = Some (policy a deflt no_pty d).
Proof. intros H. exists (lst_allowlist a deflt no_pty). split; [apply allowlist_listing|]. split; [apply allowlist_fits|]. by apply run_allowlist. Qed.

(** ** What is not named is not granted *)

(** What the headers of a target guarantee of the call numbers. *)
Record headers (a : abi) : Prop := mk_headers {
  h_apart : forall n m k, ab_nr a n = Some k -> ab_nr a m = Some k -> n = m;
  h_range : forall n k, ab_nr a n = Some k -> 0 <= k < 0x40000000;
  h_arm : forall n k, ab_nr a n = Some k -> ~ In k (arm_private a);
  h_rules : forall n, In n ["socket"; "ioctl"; "prctl"; "clone"] -> is_Some (ab_nr a n)
}.
Definition granted_names : list string :=
  sb_nr_hot ++ sb_nr_net ++ sb_nr_io ++ sb_nr_path ++ sb_nr_mem ++ sb_nr_time ++ sb_nr_wait ++ sb_nr_task ++ sb_nr_signal ++ sb_nr_self.
(** What an argument rule lets through. *)
Definition argument_ok (a : abi) (no_pty : bool) (n : string) (d : seccomp_data) : bool :=
  if String.eqb n "socket" then among [PF_INET; PF_INET6; PF_UNIX; PF_NETLINK] (sd_arg d 0)
  else if String.eqb n "ioctl" then among (ioctl_cmds a no_pty) (sd_arg d 1)
  else if String.eqb n "prctl" then among [PR_SET_NAME; PR_GET_NAME; PR_CAPBSET_READ] (sd_arg d 0)
  else String.eqb n "clone" && (sd_arg d 0 .& CLONE_THREAD =? CLONE_THREAD).
Section Named.
Context (a : abi) (Hh : headers a).
Lemma u32_nr n k : ab_nr a n = Some k -> u32 k = k.
Proof. intros H. pose proof (h_range a Hh n k H). unfold u32. rewrite Z.mod_small; lia. Qed.
Lemma named_in names n k : ab_nr a n = Some k -> among (map u32 (tbl a names)) k = true -> In n names.
Proof.
  intros Hn Hm. unfold among in Hm. apply existsb_exists in Hm as (x & Hx & E). apply Z.eqb_eq in E. subst x. apply in_map_iff in Hx as (y & Ey & Hy). apply list_elem_of_In, list_elem_of_omap in Hy as (m & Hm & E). rewrite (u32_nr m y E) in Ey. subst y. rewrite (h_apart a Hh n m k Hn E). by apply list_elem_of_In.
Qed.
Lemma cold_in n k : ab_nr a n = Some k -> among (cold a) k = true -> In n granted_names.
Proof.
  intros Hn Hm. unfold granted_names. rewrite !in_app_iff. right. unfold cold in Hm. unfold among in Hm. rewrite !map_app, !existsb_app, !orb_true_iff in Hm.
  destruct Hm as [H|[H|[H|[H|[H|[H|[H|[H|[H|H]]]]]]]]]; try (apply (named_in _ n k Hn) in H; tauto). exfalso. apply existsb_exists in H as (x & Hx & E). apply Z.eqb_eq in E. subst x. apply (h_arm a Hh n k Hn). apply in_map_iff in Hx as (y & Ey & Hy). unfold arm_private in *. destruct (ab_arm a); [|done]. cbn in Hy. repeat destruct Hy as [<-|Hy]; try done; subst k; cbn; tauto.
Qed.
Lemma rule_name n m : In m ["socket"; "ioctl"; "prctl"; "clone"] -> ab_nr a n = Some (nr_of a m) -> n = m.
Proof. intros Hm Hn. destruct (h_rules a Hh m Hm) as [k Hk]. unfold nr_of in Hn. rewrite Hk in Hn. by apply (h_apart a Hh n m k). Qed.
End Named.
Lemma errno_not_allow e : SB_RET_ERRNO e <> SB_RET_ALLOW.
Proof.
  unfold SB_RET_ERRNO, SECCOMP_RET_ERRNO, SB_RET_ALLOW. intros H. apply (f_equal (fun z => Z.testbit z 29)) in H. rewrite Z.lor_spec, Z.land_spec in H. change (Z.testbit 327680 29) with false in H. change (Z.testbit 65535 29) with false in H. rewrite andb_false_r in H. done.
Qed.
Lemma grant_inv ok deflt : deflt <> SB_RET_ALLOW -> grant ok deflt = SB_RET_ALLOW -> ok = true.
Proof. by destruct ok. Qed.
(** C29: the allowlist grants what it names and nothing else: under any default action that is not to
    allow, a call of the native ABI that the kernel lets through the installed filter is either one
    of the names in the tables, or [socket], [ioctl], [prctl] or [clone] with an argument its rule
    lists; so a call that starts or replaces a process ([execve], [fork], a [clone] without
    [CLONE_THREAD]) is never let through. *)
Theorem unlisted_refused a deflt no_pty d n f : headers a -> length (sd_args d) = 6%nat -> deflt <> SB_RET_ALLOW ->
  seccomp_allowlist a deflt no_pty = Some f -> ab_nr a n = Some (sd_nr d) ->
  bpf_run (ab_be a) d f 0 0 = Some SB_RET_ALLOW -> sd_arch d = ab_arch a /\ (In n granted_names \/ argument_ok a no_pty n d = true).
Proof.
  intros Hh Hl Hd Hf Hn. rewrite allowlist_listing in Hf. injection Hf as <-. rewrite run_allowlist by done. intros H0. assert (H : policy a deflt no_pty d = SB_RET_ALLOW) by congruence. clear H0. unfold policy in H. destruct (negb _ || _) eqn:Ea; [done|]. apply orb_false_iff in Ea as [Ea _]. apply negb_false_iff, Z.eqb_eq in Ea. split; [done|].
  destruct (named a sb_nr_hot _) eqn:Eh. { left. unfold granted_names. rewrite in_app_iff. left. by apply (named_in a Hh _ n (sd_nr d)). }
  assert (G : forall m, In m ["socket"; "ioctl"; "prctl"; "clone"] -> (sd_nr d =? nr_of a m) = true -> n = m) by (intros m Hm E; apply Z.eqb_eq in E; apply (rule_name a Hh n m Hm); congruence).
  destruct (sd_nr d =? nr_of a "socket") eqn:E1. { right. rewrite (G "socket") by (done || (cbn; tauto)). exact (grant_inv _ _ Hd H). }
  destruct (sd_nr d =? nr_of a "ioctl") eqn:E2. { right. rewrite (G "ioctl") by (done || (cbn; tauto)). exact (grant_inv _ _ Hd H). }
  destruct (among (cold a) _) eqn:Ec. { left. by apply (cold_in a Hh n (sd_nr d)). }
  destruct (sd_nr d =? nr_of a "prctl") eqn:E3. { right. rewrite (G "prctl") by (done || (cbn; tauto)). exact (grant_inv _ _ Hd H). }
  destruct (sd_nr d =? nr_of a "clone") eqn:E4. { right. rewrite (G "clone") by (done || (cbn; tauto)). exact (grant_inv _ _ Hd H). }
  destruct (named a sb_nr_enosys _); [by apply errno_not_allow in H|]. destruct (named a sb_nr_eperm _); [by apply errno_not_allow in H|done].
Qed.

(** ** The no-network filter as a function *)
Definition nonet_verdict (refused : list Z) (nr_socket : Z) (d : seccomp_data) : Z :=
  if among refused (sd_nr d) then SB_RET_ERRNO EPERM
  else if sd_nr d =? nr_socket then (if among [PF_INET; PF_INET6] (sd_arg d 0) then SB_RET_ERRNO EPERM else SB_RET_ALLOW)
  else SB_RET_ALLOW.
Definition compat_verdict (c : option compat) (d : seccomp_data) : option Z :=
  match c with
  | Some c => if sd_arch d =? c_arch c then Some (nonet_verdict (opt_list (c_socketcall c) ++ [c_io_uring c]) (c_socket c) d) else None
  | None => None
  end.
Definition nonet_policy (a : abi) (d : seccomp_data) : Z :=
  if sd_arch d =? ab_arch a then nonet_verdict (opt_list (ab_nr a "socketcall") ++ opt_list (ab_nr a "io_uring_setup")) (nr_of a "socket") d
  else match compat_verdict (ab_compat a) d with
       | Some v => v
       | None => default SECCOMP_RET_KILL_PROCESS (compat_verdict (compat2 a) d)
       end.
Definition lst_nonet (a : abi) (refused : list Z) (k : Z) : list sock_filter :=
  [ld SB_OFF_NR] ++ eqs refused (SB_RET_ERRNO EPERM) ++ rule k (lst_args a 0 [PF_INET; PF_INET6] (SB_RET_ERRNO EPERM) SB_RET_ALLOW) ++ [rt SB_RET_ALLOW].
Definition lst_compat (a : abi) (c : option compat) : list sock_filter :=
  match c with Some c => rule (c_arch c) (lst_nonet a (opt_list (c_socketcall c) ++ [c_io_uring c]) (c_socket c)) | None => [] end.
Definition lst_foreign (a : abi) : list sock_filter := lst_compat a (ab_compat a) ++ lst_compat a (compat2 a) ++ [rt SECCOMP_RET_KILL_PROCESS].
Definition lst_nonet_whole (a : abi) : list sock_filter :=
  [ld SB_OFF_ARCH; mk_sf BPF_JEQ_K (Z.of_nat (length (lst_foreign a))) 0 (ab_arch a)] ++ lst_foreign a ++
  lst_nonet a (opt_list (ab_nr a "socketcall") ++ opt_list (ab_nr a "io_uring_setup")) (nr_of a "socket").
Lemma opt_few o : (length (opt_list o) <= 1)%nat.
Proof. destruct o; cbn; lia. Qed.
Lemma nonet_length a refused k : length (lst_nonet a refused k) = (2 * length refused + 9)%nat.
Proof. unfold lst_nonet. rewrite !length_app, eqs_length, rule_length, args_length. cbn. lia. Qed.
Lemma compat_length a c : (length (lst_compat a c) <= 14)%nat.
Proof. destruct c as [c|]; [|cbn; lia]. unfold lst_compat. rewrite rule_length, nonet_length, length_app. pose proof (opt_few (c_socketcall c)). cbn. lia. Qed.
Lemma foreign_length a : (length (lst_foreign a) <= 29)%nat.
Proof. unfold lst_foreign. rewrite !length_app. pose proof (compat_length a (ab_compat a)). pose proof (compat_length a (compat2 a)). cbn [length]. lia. Qed.
Lemma nonet_fits a : (length (lst_nonet_whole a) <= 64)%nat.
Proof. unfold lst_nonet_whole. rewrite !length_app, nonet_length, length_app. pose proof (foreign_length a). pose proof (opt_few (ab_nr a "socketcall")). pose proof (opt_few (ab_nr a "io_uring_setup")). cbn [length]. lia. Qed.
Lemma grows_nonet a p refused k : grows p (sb_nonet_body a (sb_eq_rets (sb_ld_nr p) refused (SB_RET_ERRNO EPERM)) k) (lst_nonet a refused k).
Proof.
  eapply grows_trans; [apply grows_emit|]. eapply grows_trans; [apply grows_eqs|]. unfold sb_nonet_body. eapply grows_trans; [|apply grows_ret]. apply (grows_args a _ k 0 [PF_INET; PF_INET6]). cbn. lia.
Qed.
Lemma grows_compat a p c : grows p (sb_compat_branch a p c) (lst_compat a c).
Proof.
  destruct c as [c|]; [|apply grows_nil]. unfold sb_compat_branch, lst_compat. apply (grows_rule p (c_arch c)); [|apply grows_nonet]. rewrite nonet_length, length_app. pose proof (opt_few (c_socketcall c)). cbn. lia.
Qed.
Lemma grows_foreign a p : grows p (sb_ret (sb_compat_branch a (sb_compat_branch a p (ab_compat a)) (compat2 a)) SECCOMP_RET_KILL_PROCESS) (lst_foreign a).
Proof. eapply grows_trans; [apply grows_compat|]. eapply grows_trans; [apply grows_compat|apply grows_ret]. Qed.
Lemma nonet_listing a : seccomp_nonet a = Some (lst_nonet_whole a).
Proof.
  assert (G : grows (mk_prog [] 64 false) (let '(p, to_native) := sb_test (sb_ld_arch (mk_prog [] 64 false)) (ab_arch a) in
     sb_nonet_body a (sb_eq_rets (sb_ld_nr (sb_land_jt (sb_ret (sb_compat_branch a (sb_compat_branch a p (ab_compat a)) (compat2 a)) SECCOMP_RET_KILL_PROCESS) to_native)) (opt_list (ab_nr a "socketcall") ++ opt_list (ab_nr a "io_uring_setup")) (SB_RET_ERRNO EPERM)) (nr_of a "socket")) (lst_nonet_whole a)).
  { unfold lst_nonet_whole. change ([ld SB_OFF_ARCH; ?x] ++ ?y ++ ?z) with ([ld SB_OFF_ARCH] ++ (x :: y) ++ z). eapply grows_trans; [apply grows_emit|]. eapply grows_trans; [|apply grows_nonet]. apply (grows_land true _ (ab_arch a)); [pose proof (foreign_length a); lia|]. apply grows_foreign. }
  destruct G as [_ G]. unfold seccomp_nonet, finished. revert G. destruct (sb_test _ _) as [p to_native]. cbv zeta. generalize (sb_nonet_body a (sb_eq_rets (sb_ld_nr (sb_land_jt (sb_ret (sb_compat_branch a (sb_compat_branch a p (ab_compat a)) (compat2 a)) SECCOMP_RET_KILL_PROCESS) to_native)) (opt_list (ab_nr a "socketcall") ++ opt_list (ab_nr a "io_uring_setup")) (SB_RET_ERRNO EPERM)) (nr_of a "socket")).
  intros q G. destruct (G (nonet_fits a)) as [E O]. rewrite O, E. reflexivity.
Qed.
Lemma run_nonet a d refused k r acc : (0 < length (sd_args d))%nat -> bpf_run (ab_be a) d (lst_nonet a refused k ++ r) 0 acc = Some (nonet_verdict refused k d).
Proof.
  intros H. unfold lst_nonet, nonet_verdict. rewrite <- !app_assoc. cbn [app]. rewrite (run_ld _ _ _ _ _ (sd_nr d)) by done. rewrite run_eqs. fold (among refused (sd_nr d)). destruct (among refused _); [done|]. rewrite (run_args a d 0) by done. by destruct (_ =? k).
Qed.
Lemma run_compat a d c r : (0 < length (sd_args d))%nat -> bpf_run (ab_be a) d (lst_compat a c ++ r) 0 (sd_arch d) = match compat_verdict c d with Some v => Some v | None => bpf_run (ab_be a) d r 0 (sd_arch d) end.
Proof. intros H. destruct c as [c|]; [|done]. unfold lst_compat, compat_verdict. rewrite run_rule. destruct (_ =? c_arch c); [|done]. by apply run_nonet. Qed.
Lemma run_nonet_whole a d : (0 < length (sd_args d))%nat -> bpf_run (ab_be a) d (lst_nonet_whole a) 0 0 = Some (nonet_policy a d).
Proof.
  intros H. unfold lst_nonet_whole, nonet_policy. cbn [app]. rewrite (run_ld _ _ _ _ _ (sd_arch d)) by done. cbn [bpf_run sf_code sf_k sf_jt sf_jf]. destruct (sd_arch d =? ab_arch a).
  - rewrite Nat2Z.id, run_skip, <- (app_nil_r (lst_nonet _ _ _)). by apply run_nonet.
  - change (Z.to_nat 0) with 0%nat. unfold lst_foreign. rewrite <- !app_assoc, !run_compat by done. destruct (compat_verdict (ab_compat a) d); [done|]. by destruct (compat_verdict (compat2 a) d).
Qed.
(** The filter of the host operator's foreground always fits its 64 instructions, and the kernel's
    verdict on a call is that of [nonet_policy]: under the native ABI and under the compatible ones
    an INET or INET6 socket and the calls that would open one unseen are refused and all else is
    allowed, and a call of any other ABI kills. *)
Theorem nonet_is_policy a d : (0 < length (sd_args d))%nat ->
  exists f, seccomp_nonet a = Some f /\ (length f <= 64)%nat /\ bpf_run (ab_be a) d f 0 0 = Some (nonet_policy a d).
Proof. intros H. exists (lst_nonet_whole a). split; [apply nonet_listing|]. split; [apply nonet_fits|]. by apply run_nonet_whole. Qed.
(** C30: the no-network filter lets an x32 caller open an INET socket.  Under x86-64 a call may carry its
    x32 number, the native one or another with bit 30 set, and still name the native ABI; the
    allowlist kills every such call, and the no-network filter, whose native branch has no such
    guard, allows it with any argument. *)
Theorem x32_socket_allowed a d deflt no_pty : headers a -> ab_x32_guard a = true -> length (sd_args d) = 6%nat -> sd_arch d = ab_arch a -> 0x40000000 <= sd_nr d ->
  (exists f, seccomp_nonet a = Some f /\ bpf_run (ab_be a) d f 0 0 = Some SB_RET_ALLOW) /\
  (exists f, seccomp_allowlist a deflt no_pty = Some f /\ bpf_run (ab_be a) d f 0 0 = Some SECCOMP_RET_KILL_PROCESS).
Proof.
  intros Hh Hx Hl Ha Hn. assert (N : forall n k, ab_nr a n = Some k -> (sd_nr d =? k) = false) by (intros n k E; pose proof (h_range a Hh n k E); lia). split.
  - exists (lst_nonet_whole a). split; [apply nonet_listing|]. rewrite run_nonet_whole by lia. unfold nonet_policy, nonet_verdict. rewrite Ha, Z.eqb_refl. f_equal. unfold among. rewrite existsb_app.
    assert (O : forall n, existsb (Z.eqb (sd_nr d)) (opt_list (ab_nr a n)) = false) by (intros n; destruct (ab_nr a n) eqn:E; [cbn; by rewrite (N n _ E)|done]). rewrite !O. cbn [orb]. destruct (h_rules a Hh "socket") as [k Hk]; [cbn; tauto|]. assert (nr_of a "socket" = k) as -> by (unfold nr_of; by rewrite Hk). by rewrite (N _ _ Hk).
  - exists (lst_allowlist a deflt no_pty). split; [apply allowlist_listing|]. rewrite run_allowlist by done. unfold policy. rewrite Ha, Z.eqb_refl, Hx. cbn [negb orb andb]. by destruct (Z.leb_spec 1073741824 (sd_nr d)); [|lia].
Qed.

(** ** x86-64, with an i386 branch *)
Definition amd64_nrs : list (string * Z) :=
  [("read", 0); ("write", 1); ("poll", 7); ("ioctl", 16); ("socket", 41); ("connect", 42); ("clone", 56); ("fork", 57); ("execve", 59); ("prctl", 157); ("io_uring_setup", 425); ("clone3", 435)].
Definition find_nr (l : list (string * Z)) (n : string) : option Z := option_map snd (find (fun e => String.eqb (fst e) n) l).
Definition amd64 : abi :=
  mk_abi 0xC000003E true false false false (find_nr amd64_nrs) (find_nr [("FIONBIO", 0x5421); ("TCGETS", 0x5401); ("TCSETS", 0x5402)]) 38 (Some (mk_compat 0x40000003 359 (Some 102) 425)) None.
Lemma find_nr_in l n k : find_nr l n = Some k -> In (n, k) l.
Proof.
  unfold find_nr. destruct (find _ l) as [[m j]|] eqn:E; [|done]. intros [= <-]. apply find_some in E as [H He]. apply String.eqb_eq in He. cbn in He. by subst m.
Qed.
(** Distinct numbers in a table of names. *)
Definition apart (l : list (string * Z)) : bool := forallb (fun e => forallb (fun f => negb (snd e =? snd f) || String.eqb (fst e) (fst f)) l) l.
Lemma amd64_headers : headers amd64.
Proof.
  assert (A : apart amd64_nrs = true) by reflexivity. split.
  - intros n m k Hn Hm. apply find_nr_in in Hn, Hm. unfold apart in A. rewrite forallb_forall in A. specialize (A _ Hn). rewrite forallb_forall in A. specialize (A _ Hm). cbn in A. rewrite Z.eqb_refl in A. by apply String.eqb_eq.
  - intros n k Hn. apply find_nr_in in Hn. cbn in Hn. repeat destruct Hn as [[= <- <-]|Hn]; try lia.
  - intros n k _. exact id.
  - intros n Hn. cbn in Hn. repeat destruct Hn as [<-|Hn]; try (eexists; reflexivity). done.
Qed.
(** A call with one argument that matters. *)
Definition call (nr arg0 : Z) : seccomp_data := mk_sd nr 0xC000003E [arg0; 0; 0; 0; 0; 0].
Lemma allowlist_is_policy_witness : exists f, seccomp_allowlist amd64 SECCOMP_RET_KILL_PROCESS false = Some f /\ (length f <= SB_MAX_FILTER amd64)%nat /\ bpf_run false (call 59 0) f 0 0 = Some (policy amd64 SECCOMP_RET_KILL_PROCESS false (call 59 0)).
Proof. exact (allowlist_is_policy amd64 SECCOMP_RET_KILL_PROCESS false (call 59 0) eq_refl). Defined.
Definition installed : list sock_filter := default [] (seccomp_allowlist amd64 SECCOMP_RET_KILL_PROCESS false).
(** A thread may be started; the flags a new process would have are refused. *)
Lemma thread_granted : bpf_run false (call 56 0x3d0f00) installed 0 0 = Some SB_RET_ALLOW /\ bpf_run false (call 56 0x1200011) installed 0 0 = Some SECCOMP_RET_KILL_PROCESS.
Proof. split; vm_compute; reflexivity. Qed.
Lemma unlisted_refused_witness : sd_arch (call 56 0x3d0f00) = ab_arch amd64 /\ (In "clone" granted_names \/ argument_ok amd64 false "clone" (call 56 0x3d0f00) = true).
Proof. apply (unlisted_refused amd64 SECCOMP_RET_KILL_PROCESS false (call 56 0x3d0f00) "clone" installed); [exact amd64_headers|reflexivity|discriminate|vm_compute; reflexivity|reflexivity|vm_compute; reflexivity]. Defined.
Lemma nonet_is_policy_witness : exists f, seccomp_nonet amd64 = Some f /\ (length f <= 64)%nat /\ bpf_run false (call 41 PF_INET) f 0 0 = Some (nonet_policy amd64 (call 41 PF_INET)).
Proof. apply (nonet_is_policy amd64 (call 41 PF_INET)). cbn. lia. Defined.
Lemma x32_socket_allowed_witness :
  (exists f, seccomp_nonet amd64 = Some f /\ bpf_run false (call (0x40000000 + 41) PF_INET) f 0 0 = Some SB_RET_ALLOW) /\
  (exists f, seccomp_allowlist amd64 SECCOMP_RET_KILL_PROCESS false = Some f /\ bpf_run false (call (0x40000000 + 41) PF_INET) f 0 0 = Some SECCOMP_RET_KILL_PROCESS).
Proof. apply (x32_socket_allowed amd64 (call (0x40000000 + 41) PF_INET) SECCOMP_RET_KILL_PROCESS false); [exact amd64_headers|reflexivity|reflexivity|reflexivity|cbn; lia]. Defined.
