(* ===== verification/StunCache.v ===== *)
(** src/src/stunprobe.c, the resolver cache: the addresses of the STUN servers kept for the life of the
    process, the names the resolver denied, the lookups that fill the one and the other, the
    passes of the warming thread, and what the rest of the program asks of them; and the choice
    of a server in src/src/peering.c.  A family is written 4 or 6.  A row's [sa] and [len] are one
    [sockaddr]: the bytes past [len] are zero in every row, so that equal lengths and equal
    bytes are equal addresses.  What [getaddrinfo] answers and the clock are arguments. *)
From S2P Require Import Prelude Net.

Definition STUN_CACHE_MAX : nat := 256.
Definition STUN_WARM_ADDRS : nat := 16.
Definition STUN_NAME_LEN : nat := 128.
Definition STUN_WARM_REFRESH_S : Z := 6 * 3600.
Definition STUN_WARM_SETTLE_S : Z := 10.
Definition STUN_WARM_RETRY_S : Z := 15.
Definition STUN_WARM_RETRY_MAX_S : Z := 300.
Definition STUN_NEG_MS : Z := 10 * 60 * 1000.

Definition sa_fam (sa : sockaddr) : Z := match sa with AF_INET _ _ => 4 | AF_INET6 _ _ _ => 6 | AF_OTHER => 0 end.
Record stun_cache_entry := mk_ce { ce_name : bytes; ce_family : Z; ce_sa : sockaddr; ce_answered : bool }.
Record stun_neg_entry := mk_ne { ne_name : bytes; ne_family : Z; ne_until_ms : Z }.
(** The array is [sc_rows ++ sc_rest]: the [stun_cache_n] rows in use, and the slots past them with
    whatever they were left with. *)
Record stun_cache := mk_cache { sc_rows : list stun_cache_entry; sc_rest : list stun_cache_entry; sc_neg : list stun_neg_entry }.
Definition ce_zero : stun_cache_entry := mk_ce [] 0 AF_OTHER false.
Definition stun_cache_zero : stun_cache := mk_cache [] (replicate STUN_CACHE_MAX ce_zero) [].

(** ** Rows *)
Definition row_is (name : bytes) (family : Z) (e : stun_cache_entry) : bool := (ce_family e =? family) && bytes_eqb (ce_name e) name.
Definition row_at (sa : sockaddr) (e : stun_cache_entry) : bool := bool_decide (ce_sa e = sa).
Definition cache_get_all (c : stun_cache) (name : bytes) (family : Z) (max : nat) : list sockaddr := take max (map ce_sa (List.filter (row_is name family) (sc_rows c))).
Definition cache_put (c : stun_cache) (name : bytes) (family : Z) (sa : sockaddr) : stun_cache :=
  if (STUN_NAME_LEN <=? length name)%nat then c
  else if existsb (fun e => row_is name family e && row_at sa e) (sc_rows c) then c
  else match sc_rest c with
       | [] => c
       | e :: rest => mk_cache (sc_rows c ++ [mk_ce name family sa (ce_answered e)]) rest (sc_neg c)
       end.
(** [live[i]]: what the last row with the address says. *)
Definition was_live (rows : list stun_cache_entry) (sa : sockaddr) : bool :=
  fold_left (fun b e => if (ce_family e =? sa_fam sa) && row_at sa e then ce_answered e else b) rows false.
(** The loop that takes a name out, the last row filling each gap. *)
Fixpoint drop_named (fuel i : nat) (name : bytes) (rows rest : list stun_cache_entry) : list stun_cache_entry * list stun_cache_entry :=
  match fuel, rows !! i with
  | S fuel, Some e =>
      if bytes_eqb (ce_name e) name then
        let l := List.last rows ce_zero in drop_named fuel i name (removelast (<[i := l]> rows)) (l :: rest)
      else drop_named fuel (S i) name rows rest
  | _, _ => (rows, rest)
  end.
Fixpoint add_named (name : bytes) (l : list (sockaddr * bool)) (rows rest : list stun_cache_entry) : list stun_cache_entry * list stun_cache_entry :=
  match l, rest with
  | (sa, live) :: l, _ :: rest => add_named name l (rows ++ [mk_ce name (sa_fam sa) sa live]) rest
  | _, _ => (rows, rest)
  end.
Definition cache_replace (c : stun_cache) (name : bytes) (set : list sockaddr) : stun_cache :=
  if (STUN_NAME_LEN <=? length name)%nat then c
  else
    let set := map (fun sa => (sa, was_live (sc_rows c) sa)) (take STUN_WARM_ADDRS set) in
    let '(rows, rest) := drop_named (length (sc_rows c)) 0 name (sc_rows c) (sc_rest c) in
    let '(rows, rest) := add_named name set rows rest in
    mk_cache rows rest (sc_neg c).
Definition mark_row (sa : sockaddr) (e : stun_cache_entry) : stun_cache_entry := if row_at sa e then mk_ce (ce_name e) (ce_family e) (ce_sa e) true else e.
Definition cache_mark_answered (c : stun_cache) (sa : sockaddr) : stun_cache := mk_cache (map (mark_row sa) (sc_rows c)) (sc_rest c) (sc_neg c).

(** ** Names the resolver denied *)
Definition neg_is (name : bytes) (family : Z) (e : stun_neg_entry) : bool := (ne_family e =? family) && bytes_eqb (ne_name e) name.
Definition neg_has (c : stun_cache) (now : Z) (name : bytes) (family : Z) : bool :=
  match List.find (neg_is name family) (sc_neg c) with Some e => now <? ne_until_ms e | None => false end.
(** The first row of the name, or a new one while there is room. *)
Fixpoint neg_set (l : list stun_neg_entry) (name : bytes) (family until : Z) (room : nat) : list stun_neg_entry :=
  match l, room with
  | [], O => []
  | [], S _ => [mk_ne name family until]
  | e :: l, _ => if neg_is name family e then mk_ne (ne_name e) (ne_family e) until :: l else e :: neg_set l name family until (pred room)
  end.
Definition neg_put (c : stun_cache) (now : Z) (name : bytes) (family : Z) : stun_cache :=
  if (STUN_NAME_LEN <=? length name)%nat then c
  else mk_cache (sc_rows c) (sc_rest c) (neg_set (sc_neg c) name family (u64 (now + STUN_NEG_MS)) STUN_CACHE_MAX).
(** 1: known; -1: denied; 0: worth asking about. *)
Definition askable_state (c : stun_cache) (now : Z) (server : bytes) (family : Z) : Z :=
  if (0 <? length (cache_get_all c server family 1))%nat then 1 else if neg_has c now server family then -1 else 0.

(** ** Lookups *)
Inductive gai := GaiFail (noname : bool) | GaiOk (res : list sockaddr).
(** [strrchr(s, ':')]: what is before the last colon and what is after it. *)
Fixpoint rcolon (s : bytes) : option (bytes * bytes) :=
  match s with
  | [] => None
  | c :: s => match rcolon s with
              | Some (a, b) => Some (c :: a, b)
              | None => if c =? 58 then Some ([], s) else None
              end
  end.
(** The host and the port handed to [getaddrinfo]; [None] for a host that does not fit. *)
Definition split_server (server : bytes) : option (bytes * bytes) :=
  let '(host, port) := match rcolon server with Some (h, p) => (h, match p with [] => cstr "3478" | _ => p end) | None => (server, cstr "3478") end in
  if (128 <=? length host)%nat then None else Some (host, port).
(** The records of the family, each once, cached as they are taken. *)
Fixpoint resolve_loop (c : stun_cache) (server : bytes) (family : Z) (max : nat) (res out : list sockaddr) : stun_cache * list sockaddr :=
  match res with
  | [] => (c, out)
  | sa :: res =>
      if (max <=? length out)%nat then (c, out)
      else if negb (sa_fam sa =? family) || existsb (fun o => bool_decide (o = sa)) out then resolve_loop c server family max res out
      else resolve_loop (cache_put c server family sa) server family max res (out ++ [sa])
  end.
Section Resolver.
(** [getaddrinfo] of a host, a port and a family, 0 for either. *)
Context (getaddrinfo : bytes -> bytes -> Z -> gai).
(** [t0], [t1]: the clock before the lookup and after it. *)
Definition resolve_name (c : stun_cache) (t0 t1 : Z) (server : bytes) (family : Z) (max : nat) : stun_cache * list sockaddr :=
  match cache_get_all c server family max with
  | (_ :: _) as got => (c, got)
  | [] =>
      if neg_has c t0 server family then (c, [])
      else match split_server server with
           | None => (c, [])
           | Some (host, port) =>
               match getaddrinfo host port family with
               | GaiFail noname => (if noname then neg_put c t1 server family else c, [])
               | GaiOk res => resolve_loop c server family max res []
               end
           end
  end.
(** [inet_ntop] into [outn] bytes. *)
Definition ip4_text (sa : sockaddr) (outn : nat) : option bytes :=
  match sa with AF_INET _ a => let t := inet_ntop4 a in if (length t <? outn)%nat then Some t else None | _ => None end.
Definition stun_server_ip4 (c : stun_cache) (t0 t1 : Z) (server : bytes) (outn : nat) (allow_net : bool) : stun_cache * option bytes :=
  let '(c, got) := match cache_get_all c server 4 1 with
                   | [] => if allow_net then resolve_name c t0 t1 server 4 1 else (c, [])
                   | got => (c, got)
                   end in
  (c, match got with sa :: _ => ip4_text sa outn | [] => None end).
Definition is_live (c : stun_cache) (sa : sockaddr) : bool := existsb (fun e => ce_answered e && row_at sa e) (sc_rows c).
Definition stun_server_live4 (c : stun_cache) (server : bytes) (outn : nat) : option bytes :=
  match List.find (is_live c) (cache_get_all c server 4 STUN_WARM_ADDRS) with Some sa => ip4_text sa outn | None => None end.
(** The cache, and the families whose set grew from nothing: the calls of [warm_more].  The clock is
    read by [askable_state] and [neg_put] once the lookup has returned, at [now]. *)
Definition warm_resolve (c : stun_cache) (now : Z) (server : bytes) : stun_cache * list Z :=
  match split_server server with
  | None => (c, [])
  | Some (host, port) =>
      match getaddrinfo host port 0 with
      | GaiFail _ => (c, [])
      | GaiOk res =>
          match take STUN_WARM_ADDRS (List.filter (fun sa => (sa_fam sa =? 4) || (sa_fam sa =? 6)) res) with
          | [] => (c, [])
          | set =>
              let had f := askable_state c now server f =? 1 in
              let has f := existsb (fun sa => sa_fam sa =? f) set in
              let c' := cache_replace c server set in
              let c' := if has 4 then c' else neg_put c' now server 4 in
              let c' := if has 6 then c' else neg_put c' now server 6 in
              (c', List.filter (fun f => has f && negb (had f)) [4; 6])
          end
      end
  end.
(** One pass over the pool: the names short enough each get a thread; those listed are the ones whose
    lookup has ended, in the order they did. *)
Definition warm_pass (c : stun_cache) (now : Z) (ended : list bytes) : stun_cache :=
  fold_left (fun c s => if (STUN_NAME_LEN <=? length s)%nat then c else (warm_resolve c now s).1) ended c.
End Resolver.
Definition pool_pending (c : stun_cache) (now : Z) (servers : list bytes) : bool :=
  existsb (fun s => (askable_state c now s 4 =? 0) || (askable_state c now s 6 =? 0)) servers.
(** The next [back] and how long to wait, in seconds. *)
Definition warm_wait (back : Z) (pending : bool) : Z * Z :=
  if negb pending then (0, STUN_WARM_REFRESH_S - STUN_WARM_SETTLE_S)
  else
    let back := if truth back then back * 2 else STUN_WARM_RETRY_S in
    let back := if STUN_WARM_RETRY_MAX_S <? back then STUN_WARM_RETRY_MAX_S else back in (back, back).
(** [warm_sleep]: the stop flag as it is read, second by second; how long it slept and whether it was
    told to stop. *)
Fixpoint warm_sleep (secs : nat) (stop : list bool) : nat * bool :=
  match secs, stop with
  | S secs, true :: _ => (0%nat, true)
  | S secs, false :: stop => let '(n, b) := warm_sleep secs stop in (S n, b)
  | S secs, [] => let '(n, b) := warm_sleep secs [] in (S n, b)
  | O, _ => (0%nat, false)
  end.
(** [start] is turned into an unsigned number, which wraps. *)
Definition stun_pool_askable (c : stun_cache) (now : Z) (servers : list bytes) (family start : Z) (max : nat) : list bytes :=
  let ns := Z.of_nat (length servers) in
  if ns <? 1 then []
  else take max (List.filter (fun s => askable_state c now s family =? 1)
                   (map (fun i => nth (Z.to_nat (u32 (start + Z.of_nat i) mod ns)) servers []) (seq 0 (length servers)))).

(** ** The choice of a server for the agent: [peering_net_stun_pick] *)

(** [atoi], into a [uint16_t]. *)
Fixpoint digits_value (acc : Z) (s : bytes) : Z :=
  match s with c :: s => if (48 <=? c) && (c <=? 57) then digits_value (10 * acc + (c - 48)) s else acc | [] => acc end.
Fixpoint skip_blanks (s : bytes) : bytes :=
  match s with c :: r => if (c =? 32) || ((9 <=? c) && (c <=? 13)) then skip_blanks r else s | [] => [] end.
Definition atoi (s : bytes) : Z :=
  match skip_blanks s with
  | 45 :: r => - digits_value 0 r
  | 43 :: r => digits_value 0 r
  | r => digits_value 0 r
  end.
Definition server_port (server : bytes) : Z :=
  let p := match rcolon server with Some (_, p) => u16 (atoi p) | None => 3478 end in if p =? 0 then 3478 else p.
(** The servers from [attempt] on. *)
Definition from_attempt (servers : list bytes) (attempt : Z) : list bytes :=
  map (fun i => nth (Z.to_nat (u32 (attempt + Z.of_nat i) mod Z.of_nat (length servers))) servers []) (seq 0 (length servers)).
Fixpoint first_some {A B} (f : A -> option B) (l : list A) : option (A * B) :=
  match l with [] => None | x :: l => match f x with Some y => Some (x, y) | None => first_some f l end end.
Definition stun_pick (c : stun_cache) (servers : list bytes) (attempt : Z) (hostlen : nat) : option (bytes * Z) :=
  if (length servers <? 1)%nat then None
  else
    let l := from_attempt servers attempt in
    match match first_some (fun s => stun_server_live4 c s 64) l with
          | Some r => Some r
          | None => first_some (fun s => (stun_server_ip4 (fun _ _ _ => GaiFail false) c 0 0 s 64 false).2) l
          end with
    | Some (e, ip) => Some (snprintf hostlen ip, server_port e)
    | None => None
    end.
