(* ===== verification/StunCacheOk.v ===== *)
(** The resolver cache keeps what it is told: a fresh set replaces a name's rows and touches no other
    name's, a row is marked only by an answer from its address, a pool that fits the cache is
    settled and left alone; with the runs in which a name is asked about for ever and a row is called live
    that was never heard. *)
From S2P Require Import Prelude Net StunCache.

(** ** Taking a name out *)
Notation others name := (List.filter (fun e => negb (bytes_eqb (ce_name e) name))).
Lemma swap_last (a b : list stun_cache_entry) e : removelast (<[length a := List.last (a ++ e :: b) ce_zero]> (a ++ e :: b)) ≡ₚ a ++ b /\ take (length a) (removelast (<[length a := List.last (a ++ e :: b) ce_zero]> (a ++ e :: b))) = a.
Proof.
  rewrite insert_app_r_alt, Nat.sub_diag by lia. cbn [list_insert insert]. destruct b as [|x b _] using rev_ind.
  - rewrite List.last_last, removelast_last, app_nil_r. split; [done|]. by rewrite firstn_all.
  - replace (a ++ e :: b ++ [x]) with ((a ++ e :: b) ++ [x]) by (by rewrite <- app_assoc). rewrite List.last_last. replace (a ++ x :: b ++ [x]) with ((a ++ x :: b) ++ [x]) by (by rewrite <- app_assoc). rewrite removelast_last. split; [|by rewrite take_app_length]. rewrite <- Permutation_middle. by rewrite app_assoc, Permutation_cons_append.
Qed.
Lemma drop_spec name fuel : forall i rows rest, (length rows <= fuel + i)%nat -> (i <= length rows)%nat -> Forall (fun e => bytes_eqb (ce_name e) name = false) (take i rows) ->
  let d := drop_named fuel i name rows rest in d.1 ≡ₚ others name rows /\ (length d.1 + length d.2 = length rows + length rest)%nat.
Proof.
  assert (F : forall l, Forall (fun e => bytes_eqb (ce_name e) name = false) l -> others name l = l) by (intros l H; induction H as [|e l He _ IH]; [done|]; cbn; by rewrite He, IH).
  induction fuel as [|fuel IH]; intros i rows rest Hl Hi Ht; cbn [drop_named].
  - assert (i = length rows) as -> by lia. rewrite firstn_all in Ht. rewrite (F rows Ht). split; [done|cbn; lia].
  - destruct (rows !! i) as [e|] eqn:E.
    2: { apply lookup_ge_None in E. assert (i = length rows) as -> by lia. rewrite firstn_all in Ht. rewrite (F rows Ht). split; [done|cbn; lia]. }
    pose proof (lookup_lt_Some _ _ _ E) as Hlt. destruct (bytes_eqb (ce_name e) name) eqn:En.
    + pose proof (list_elem_of_split_length rows i e E) as (a & b & -> & ->). destruct (swap_last a b e) as [P T]. set (r := removelast _) in *. assert (Lr : S (length r) = length (a ++ e :: b)) by (apply Permutation_length in P; rewrite P, !length_app; cbn; lia).
      destruct (IH (length a) r (List.last (a ++ e :: b) ce_zero :: rest)) as [P2 L2]; [lia|rewrite length_app in *; cbn in *; lia|rewrite T; rewrite take_app_length in Ht; exact Ht|]. split.
      * etransitivity; [exact P2|]. assert (Q : forall l1 l2, l1 ≡ₚ l2 -> others name l1 ≡ₚ others name l2) by (intros l1 l2 H; induction H; cbn; repeat case_match; try constructor; try done; etransitivity; eassumption). rewrite (Q _ _ P), !List.filter_app. cbn. by rewrite En.
      * rewrite L2. cbn [length]. lia.
    + destruct (IH (S i) rows rest) as [P2 L2]; [lia|lia| |split; done]. rewrite (take_S_r _ _ e E). apply Forall_app. split; [done|]. by constructor.
Qed.
Lemma add_named_spec name l : forall rows rest, let d := add_named name l rows rest in
  d.1 = rows ++ map (fun p => mk_ce name (sa_fam p.1) p.1 p.2) (take (length rest) l) /\ (length d.1 + length d.2 = length rows + length rest)%nat.
Proof.
  induction l as [|[sa live] l IH]; intros rows rest; cbn [add_named]; [rewrite take_nil, app_nil_r; done|]. destruct rest as [|r rest]; [rewrite app_nil_r; done|].
  destruct (IH (rows ++ [mk_ce name (sa_fam sa) sa live]) rest) as [E L]. split; [rewrite E, <- app_assoc; done|rewrite L, length_app; cbn; lia].
Qed.

(** ** Every operation *)

(** The array is whole, its names fit, and a row's family is its address's. *)
Record cache_ok (c : stun_cache) : Prop := mk_cok {
  co_whole : (length (sc_rows c) + length (sc_rest c) = STUN_CACHE_MAX)%nat;
  co_neg : (length (sc_neg c) <= STUN_CACHE_MAX)%nat;
  co_rows : Forall (fun e => (length (ce_name e) < STUN_NAME_LEN)%nat /\ ce_family e = sa_fam (ce_sa e)) (sc_rows c)
}.
(** The fresh rows of a name. *)
Definition fresh (c : stun_cache) (name : bytes) (set : list sockaddr) (room : nat) : list stun_cache_entry :=
  map (fun sa => mk_ce name (sa_fam sa) sa (was_live (sc_rows c) sa)) (take room (take STUN_WARM_ADDRS set)).
Lemma replace_spec c name set : cache_ok c -> (length name < STUN_NAME_LEN)%nat -> let c' := cache_replace c name set in
  exists old, old ≡ₚ others name (sc_rows c) /\ sc_rows c' = old ++ fresh c name set (STUN_CACHE_MAX - length old) /\ (length (sc_rows c') + length (sc_rest c') = STUN_CACHE_MAX)%nat /\ sc_neg c' = sc_neg c.
Proof.
  intros [W _ _] Hn. unfold cache_replace. destruct (Nat.leb_spec STUN_NAME_LEN (length name)); [lia|]. destruct (drop_spec name (length (sc_rows c)) 0 (sc_rows c) (sc_rest c)) as [P L]; [lia|lia|by rewrite take_0|].
  destruct (drop_named _ _ _ _ _) as [rows rest]. cbn [fst snd] in P, L. set (l := map _ _). destruct (add_named_spec name l rows rest) as [E L2]. destruct (add_named name l rows rest) as [rows' rest']. cbn [fst snd] in E, L2. cbn [sc_rows sc_rest sc_neg].
  exists rows. split; [done|]. split; [|split; [lia|done]]. rewrite E. f_equal. replace (STUN_CACHE_MAX - length rows)%nat with (length rest) by lia. unfold fresh, l. by rewrite <- fmap_take, map_map.
Qed.
Inductive cache_op := OReplace (name : bytes) (set : list sockaddr) | OMark (sa : sockaddr) | ONeg (now : Z) (name : bytes) (family : Z) | OPut (name : bytes) (family : Z) (sa : sockaddr).
Definition cache_do (c : stun_cache) (o : cache_op) : stun_cache :=
  match o with
  | OReplace name set => cache_replace c name set
  | OMark sa => cache_mark_answered c sa
  | ONeg now name family => neg_put c now name family
  | OPut name family sa => cache_put c name family sa
  end.
Definition op_ok (o : cache_op) : Prop := match o with OPut _ family sa => family = sa_fam sa | _ => True end.
Lemma neg_set_length l name family until : forall room, (length l <= room)%nat -> (length (neg_set l name family until room) <= room)%nat.
Proof. induction l as [|e l IH]; intros [|room] H; cbn in *; try lia. destruct (neg_is name family e); cbn; [lia|]. specialize (IH room). lia. Qed.
Lemma others_incl name rows e : In e (others name rows) -> In e rows /\ ce_name e <> name.
Proof. intros H. apply filter_In in H as [H E]. split; [done|]. intros <-. unfold bytes_eqb in E. by rewrite bool_decide_true in E. Qed.
Lemma cache_do_ok c o : op_ok o -> cache_ok c -> cache_ok (cache_do c o).
Proof.
  intros Ho H. destruct o as [name set|sa|now name family|name family sa]; cbn [cache_do].
  - destruct (Nat.ltb_spec (length name) STUN_NAME_LEN) as [Hn|Hn]; [|unfold cache_replace; by destruct (Nat.leb_spec STUN_NAME_LEN (length name)); [|lia]].
    destruct (replace_spec c name set H Hn) as (old & P & E & W & N). destruct H as [_ HN HR]. split; [done|by rewrite N|]. rewrite E. apply Forall_app. split.
    + rewrite P. rewrite !Forall_forall in *. intros e He. apply HR. apply list_elem_of_In in He. apply list_elem_of_In. by apply others_incl in He as [? _].
    + unfold fresh. apply Forall_fmap, Forall_true. done.
  - destruct H as [W N R]. split; cbn; [by rewrite length_map|done|]. apply Forall_fmap. eapply Forall_impl; [exact R|]. intros e He. unfold compose, mark_row. by destruct (row_at sa e).
  - destruct H as [W N R]. unfold neg_put. destruct (_ <=? _)%nat; [done|]. split; cbn; [done|by apply neg_set_length|done].
  - unfold cache_put. destruct (Nat.leb_spec STUN_NAME_LEN (length name)); [done|]. destruct (existsb _ _); [done|]. destruct H as [W N R]. destruct (sc_rest c) as [|e rest] eqn:Er; [by split; rewrite ?Er|]. split; cbn [sc_rows sc_rest sc_neg]; [rewrite length_app; cbn [length] in *; lia|done|]. apply Forall_app. split; [done|]. by constructor.
Qed.
Lemma zero_ok : cache_ok stun_cache_zero.
Proof. split; cbn; [done|lia|constructor]. Qed.
Lemma cache_run_ok ops : Forall op_ok ops -> cache_ok (fold_left cache_do ops stun_cache_zero).
Proof.
  intros H. assert (G : forall c, cache_ok c -> cache_ok (fold_left cache_do ops c)); [|by apply G, zero_ok]. induction H as [|o ops Ho _ IH]; intros c Hc; [done|]. cbn. apply IH. by apply cache_do_ok.
Qed.

(** ** Live means heard *)
Definition is_put (o : cache_op) : bool := match o with OPut _ _ _ => true | _ => false end.
(** Every row that counts as one that answered is of an address [P] holds of. *)
Definition live_by (P : sockaddr -> Prop) (c : stun_cache) : Prop := Forall (fun e => ce_answered e = true -> P (ce_sa e)) (sc_rows c).
Lemma was_live_in rows sa : was_live rows sa = true -> exists e, In e rows /\ ce_sa e = sa /\ ce_answered e = true.
Proof.
  unfold was_live. induction rows as [|e rows IH] using rev_ind; [done|]. rewrite fold_left_app. cbn. destruct (_ && row_at sa e) eqn:E.
  - intros H. exists e. apply andb_true_iff in E as [_ E]. unfold row_at in E. apply bool_decide_eq_true in E. rewrite in_app_iff. cbn. tauto.
  - intros H. destruct (IH H) as (e' & ? & ?). exists e'. rewrite in_app_iff. tauto.
Qed.
Lemma live_do P c o : cache_ok c -> is_put o = false -> live_by P c -> (forall sa, o = OMark sa -> P sa) -> live_by P (cache_do c o).
Proof.
  intros Hc Hp H Hm. unfold live_by in *. destruct o as [name set|sa|now name family|name family sa]; cbn [cache_do]; [| |unfold neg_put; by destruct (_ <=? _)%nat|done].
  - destruct (Nat.ltb_spec (length name) STUN_NAME_LEN) as [Hn|Hn]; [|unfold cache_replace; by destruct (Nat.leb_spec STUN_NAME_LEN (length name)); [|lia]].
    destruct (replace_spec c name set Hc Hn) as (old & E & -> & _ & _). rewrite Forall_forall in H. apply Forall_app. split.
    + rewrite E. apply Forall_forall. intros e He. apply H. apply list_elem_of_In in He. apply list_elem_of_In. by apply others_incl in He as [? _].
    + apply Forall_fmap, Forall_forall. intros sa _. unfold compose. cbn. intros Hl. apply was_live_in in Hl as (e & He & <- & Ha). apply list_elem_of_In in He. by apply H.
  - apply Forall_fmap. eapply Forall_impl; [exact H|]. intros e He. unfold compose, mark_row, row_at. destruct (bool_decide_reflect (ce_sa e = sa)) as [E|E]; [|done]. cbn. intros _. rewrite E. by apply Hm.
Qed.
Lemma live_ops P ops : forall c, Forall op_ok ops -> existsb is_put ops = false -> (forall sa, In (OMark sa) ops -> P sa) -> cache_ok c -> live_by P c -> live_by P (fold_left cache_do ops c) /\ cache_ok (fold_left cache_do ops c).
Proof.
  induction ops as [|o ops IH]; intros c Ho Hp Hm Hc H; [done|]. apply Forall_cons in Ho as [Ho1 Ho]. cbn in Hp. apply orb_false_iff in Hp as [Hp1 Hp]. cbn [fold_left].
  apply IH; [done|done|intros sa Hin; apply Hm; by right|by apply cache_do_ok|]. apply live_do; [done|done|done|]. intros sa ->. apply Hm. by left.
Qed.
Lemma get_all_in c name family max sa : In sa (cache_get_all c name family max) -> exists e, In e (sc_rows c) /\ ce_sa e = sa /\ row_is name family e = true.
Proof.
  unfold cache_get_all. intros H. apply list_elem_of_In in H. apply elem_of_take in H as (i & H & _). apply list_elem_of_lookup_2, list_elem_of_In in H. apply in_map_iff in H as (e & <- & He). apply filter_In in He as [? ?]. eauto.
Qed.
Lemma live4_from P c server outn ip : live_by P c -> stun_server_live4 c server outn = Some ip ->
  exists sa, P sa /\ In sa (cache_get_all c server 4 STUN_WARM_ADDRS) /\ ip4_text sa outn = Some ip.
Proof.
  intros L. unfold stun_server_live4. destruct (List.find _ _) as [sa|] eqn:E; [|done]. intros H. apply find_some in E as [Hin Hl]. exists sa. split; [|done]. unfold is_live in Hl. apply existsb_exists in Hl as (e & He & Hb). apply andb_true_iff in Hb as [Ha Hr]. unfold row_at in Hr. apply bool_decide_eq_true in Hr. subst sa. unfold live_by in L. rewrite Forall_forall in L. apply L; [|done]. by apply list_elem_of_In.
Qed.

(** ** A fresh set *)
Lemma rows_filter_perm (p : stun_cache_entry -> bool) l1 l2 : l1 ≡ₚ l2 -> List.filter p l1 ≡ₚ List.filter p l2.
Proof. intros H. induction H; cbn; repeat case_match; try constructor; try done; etransitivity; eassumption. Qed.
Lemma others_row n name family rows : n <> name -> List.filter (row_is n family) (others name rows) = List.filter (row_is n family) rows.
Proof.
  intros Hn. induction rows as [|e rows IH]; [done|]. cbn [List.filter]. unfold bytes_eqb at 1. destruct (bool_decide_reflect (ce_name e = name)) as [E|E]; cbn [negb].
  - rewrite IH. unfold row_is at 2. unfold bytes_eqb. rewrite (bool_decide_false (ce_name e = n)) by congruence. by rewrite andb_false_r.
  - cbn [List.filter]. by rewrite IH.
Qed.
Lemma others_self name family rows : List.filter (row_is name family) (others name rows) = [].
Proof.
  induction rows as [|e rows IH]; [done|]. cbn [List.filter]. unfold bytes_eqb at 1. destruct (bool_decide_reflect (ce_name e = name)) as [E|E]; cbn [negb]; [done|]. cbn [List.filter]. unfold row_is at 1, bytes_eqb. rewrite bool_decide_false by done. by rewrite andb_false_r.
Qed.
Lemma fresh_rows c name family l : map ce_sa (List.filter (row_is name family) (map (fun sa => mk_ce name (sa_fam sa) sa (was_live (sc_rows c) sa)) l)) = List.filter (fun sa => sa_fam sa =? family) l.
Proof.
  induction l as [|sa l IH]; [done|]. cbn [map List.filter]. unfold row_is at 1, bytes_eqb. cbn [ce_name ce_family]. rewrite bool_decide_true, andb_true_r by done. destruct (_ =? _); cbn [map]; by rewrite IH.
Qed.
Lemma fresh_other c name n family l : n <> name -> List.filter (row_is n family) (map (fun sa => mk_ce name (sa_fam sa) sa (was_live (sc_rows c) sa)) l) = [].
Proof. intros H. induction l as [|sa l IH]; [done|]. cbn [map List.filter]. unfold row_is at 1, bytes_eqb. cbn [ce_name ce_family]. rewrite bool_decide_false by done. by rewrite andb_false_r. Qed.
Lemma replace_own c name set family : cache_ok c -> (length name < STUN_NAME_LEN)%nat ->
  map ce_sa (List.filter (row_is name family) (sc_rows (cache_replace c name set))) = List.filter (fun sa => sa_fam sa =? family) (take (STUN_CACHE_MAX - length (others name (sc_rows c))) (take STUN_WARM_ADDRS set)).
Proof.
  intros H Hn. destruct (replace_spec c name set H Hn) as (old & P & -> & _). rewrite List.filter_app, map_app. assert (List.filter (row_is name family) old = []) as -> by (apply Permutation_nil; symmetry; etransitivity; [apply rows_filter_perm, P|by rewrite others_self]). cbn [map app]. unfold fresh. rewrite fresh_rows. by rewrite (Permutation_length P).
Qed.
Lemma replace_other c name set n family : cache_ok c -> (length name < STUN_NAME_LEN)%nat -> n <> name ->
  List.filter (row_is n family) (sc_rows (cache_replace c name set)) ≡ₚ List.filter (row_is n family) (sc_rows c).
Proof.
  intros H Hn Hne. destruct (replace_spec c name set H Hn) as (old & P & -> & _). rewrite List.filter_app. unfold fresh. rewrite fresh_other, app_nil_r by done. rewrite (rows_filter_perm _ _ _ P). by rewrite others_row.
Qed.
(** A lookup's result takes the place of what a name had, and of nothing else: in every state the cache
    reaches, afterwards the name has exactly the addresses of the result that fit, in their order and
    by family, and every other name has the addresses it had. *)
Theorem fresh_set_replaces ops name set : Forall op_ok ops -> (length name < STUN_NAME_LEN)%nat ->
  let c := fold_left cache_do ops stun_cache_zero in let c' := cache_replace c name set in
  (forall family max, cache_get_all c' name family max = take max (List.filter (fun sa => sa_fam sa =? family) (take (STUN_CACHE_MAX - length (others name (sc_rows c))) (take STUN_WARM_ADDRS set)))) /\
  (forall n family max, n <> name -> (STUN_CACHE_MAX <= max)%nat -> cache_get_all c' n family max ≡ₚ cache_get_all c n family max).
Proof.
  intros Ho Hn c c'. pose proof (cache_run_ok ops Ho) as Hc. fold c in Hc. split.
  - intros family max. unfold cache_get_all, c'. by rewrite replace_own.
  - intros n family max Hne Hm. pose proof (replace_other c name set n family Hc Hn Hne) as P. assert (F : forall x, cache_ok x -> (length (map ce_sa (List.filter (row_is n family) (sc_rows x))) <= max)%nat) by (intros x [W _ _]; rewrite length_map; pose proof (filter_length_le (row_is n family) (sc_rows x)); lia).
    unfold cache_get_all. rewrite !take_ge; [by apply Permutation_map|by apply F|apply F; apply (cache_do_ok c (OReplace name set)); done].
Qed.

(** ** A pool that resolves, and one that does not *)
Section Pool.
Context (getaddrinfo : bytes -> bytes -> Z -> gai).
(** Nothing is known of a name. *)
Definition unknown (s : bytes) (c : stun_cache) : Prop := Forall (fun e => ce_name e <> s) (sc_rows c) /\ Forall (fun e => ne_name e <> s) (sc_neg c).
Lemma unknown_askable s c now family : unknown s c -> askable_state c now s family = 0.
Proof.
  intros [R N]. unfold askable_state, cache_get_all, neg_has. assert (List.filter (row_is s family) (sc_rows c) = []) as ->.
  { induction R as [|e l He _ IH]; [done|]. cbn. unfold row_is at 1, bytes_eqb. rewrite bool_decide_false by done. by rewrite andb_false_r. }
  cbn. destruct (List.find _ _) as [e|] eqn:E; [|done]. apply find_some in E as [Hin He]. rewrite Forall_forall in N. apply list_elem_of_In in Hin. specialize (N e Hin). unfold neg_is, bytes_eqb in He. rewrite bool_decide_false in He by done. by rewrite andb_false_r in He.
Qed.
Lemma unknown_neg s c now name family : name <> s -> unknown s c -> unknown s (neg_put c now name family).
Proof.
  intros Hn [R N]. unfold neg_put. destruct (_ <=? _)%nat; [done|]. split; [done|]. cbn [sc_neg]. generalize STUN_CACHE_MAX. induction N as [|e l He Hl IH]; intros [|room]; cbn; try (by repeat constructor).
  - destruct (neg_is name family e); constructor; done.
  - destruct (neg_is name family e); constructor; done.
Qed.
Lemma unknown_replace s c name set : cache_ok c -> name <> s -> unknown s c -> unknown s (cache_replace c name set).
Proof.
  intros Hc Hn [R N]. destruct (Nat.ltb_spec (length name) STUN_NAME_LEN) as [Hl|Hl]; [|unfold cache_replace; by destruct (Nat.leb_spec STUN_NAME_LEN (length name)); [|lia]].
  destruct (replace_spec c name set Hc Hl) as (old & P & E & _ & EN). split; [|by rewrite EN]. rewrite E. apply Forall_app. split; [|by apply Forall_fmap, Forall_true]. rewrite P. rewrite Forall_forall in *. intros e He. apply R. apply list_elem_of_In in He. apply list_elem_of_In. by apply others_incl in He as [? _].
Qed.
Definition warm_step (now : Z) (c : stun_cache) (s : bytes) : stun_cache := if (STUN_NAME_LEN <=? length s)%nat then c else (warm_resolve getaddrinfo c now s).1.
Lemma warm_step_cases now c s : warm_step now c s = c \/
  exists set, (exists h p res, getaddrinfo h p 0 = GaiOk res /\ set = take STUN_WARM_ADDRS (List.filter (fun sa => (sa_fam sa =? 4) || (sa_fam sa =? 6)) res)) /\ Forall (fun sa => sa_fam sa = 4 \/ sa_fam sa = 6) set /\ (length set <= STUN_WARM_ADDRS)%nat /\ (length s < STUN_NAME_LEN)%nat /\
    let has f := existsb (fun sa => sa_fam sa =? f) set in let c1 := cache_replace c s set in let c2 := if has 4 then c1 else neg_put c1 now s 4 in warm_step now c s = if has 6 then c2 else neg_put c2 now s 6.
Proof.
  unfold warm_step. destruct (Nat.leb_spec STUN_NAME_LEN (length s)) as [|Hl]; [by left|]. unfold warm_resolve. destruct (split_server s) as [[host port]|]; [|by left]. destruct (getaddrinfo host port 0) as [nn|res] eqn:Eg; [by left|].
  set (P := fun sa => _). destruct (take STUN_WARM_ADDRS (List.filter P res)) as [|sa set] eqn:E; [by left|]. right. exists (sa :: set). split; [by exists host, port, res|]. split; [|split; [rewrite <- E; rewrite length_take; lia|split; [done|reflexivity]]].
  rewrite <- E. apply Forall_take. apply Forall_forall. intros x Hx. apply list_elem_of_In, filter_In in Hx as [_ Hx]. unfold P in Hx. apply orb_true_iff in Hx as [Hx|Hx]; apply Z.eqb_eq in Hx; tauto.
Qed.
Lemma warm_step_ok now c s : cache_ok c -> cache_ok (warm_step now c s).
Proof.
  intros H. destruct (warm_step_cases now c s) as [->|(set & _ & _ & _ & _ & ->)]; [done|]. assert (N : forall x f, cache_ok x -> cache_ok (neg_put x now s f)) by (intros x f Hx; by apply (cache_do_ok x (ONeg now s f))). pose proof (cache_do_ok c (OReplace s set) I H) as R. cbn [cache_do] in R. repeat case_match; auto.
Qed.
Lemma warm_step_unknown s now c n : cache_ok c -> (n = s -> forall h p, split_server s = Some (h, p) -> exists b, getaddrinfo h p 0 = GaiFail b) -> unknown s c -> unknown s (warm_step now c n).
Proof.
  intros Hc Hf Hu. destruct (decide (n = s)) as [->|Hn].
  - unfold warm_step. destruct (_ <=? _)%nat; [done|]. unfold warm_resolve. destruct (split_server s) as [[h p]|]; [|done]. destruct (Hf eq_refl h p eq_refl) as [b ->]. done.
  - destruct (warm_step_cases now c n) as [->|(set & _ & _ & _ & _ & ->)]; [done|]. pose proof (unknown_replace s c n set Hc Hn Hu). repeat case_match; repeat apply unknown_neg; done.
Qed.
(** C27: one name the resolver denies keeps the whole pool being asked about.  [warm_resolve] notes nothing
    when a lookup fails, a name that does not exist included, and only [resolve_name], which the
    program never lets look anything up, notes a denial; so however many passes there are and however
    the other names fare, the pool is still pending and the next pass comes within five minutes,
    where a settled pool waits six hours. *)
Theorem dead_name_asked_for_ever servers s (passes : list (Z * list bytes)) now back : In s servers -> (forall h p, split_server s = Some (h, p) -> exists b, getaddrinfo h p 0 = GaiFail b) ->
  let c := fold_left (fun c p => warm_pass getaddrinfo c p.1 p.2) passes stun_cache_zero in
  pool_pending c now servers = true /\ (warm_wait back (pool_pending c now servers)).2 <= STUN_WARM_RETRY_MAX_S.
Proof.
  intros Hin Hf c. assert (U : cache_ok c /\ unknown s c).
  { unfold c. assert (G : forall c0, cache_ok c0 /\ unknown s c0 -> cache_ok (fold_left (fun c p => warm_pass getaddrinfo c p.1 p.2) passes c0) /\ unknown s (fold_left (fun c p => warm_pass getaddrinfo c p.1 p.2) passes c0)); [|apply G; split; [apply zero_ok|split; constructor]].
    induction passes as [|[t ended] passes IH]; [done|]. intros c0 H0. cbn [fold_left fst snd]. apply IH. unfold warm_pass. change (fun c s => if (STUN_NAME_LEN <=? length s)%nat then c else (warm_resolve getaddrinfo c t s).1) with (warm_step t). revert c0 H0. induction ended as [|n ended IHe]; [done|]. intros c0 [H0 U0]. cbn. apply IHe. split; [by apply warm_step_ok|]. apply warm_step_unknown; [done| |done]. intros _. exact Hf. }
  assert (P : pool_pending c now servers = true). { unfold pool_pending. apply existsb_exists. exists s. split; [done|]. by rewrite (unknown_askable s c now 4) by apply U. }
  split; [done|]. rewrite P. unfold warm_wait. cbn [negb]. cbv zeta. cbn [snd]. destruct (Z.ltb_spec STUN_WARM_RETRY_MAX_S (if truth back then back * 2 else STUN_WARM_RETRY_S)); lia.
Qed.
End Pool.
(** ** A pool that resolves is settled *)
Section Settle.
(** [K]: how many addresses a name of the pool has at most. *)
Context (servers : list bytes) (K : nat).
Notation nm s := (List.filter (fun e => bytes_eqb (ce_name e) s)).
Definition neg_key (e : stun_neg_entry) : bytes * Z := (ne_name e, ne_family e).
(** What the passes over a pool leave in the cache. *)
Record pool_ok (c : stun_cache) : Prop := mk_pok {
  po_ok : cache_ok c;
  po_names : Forall (fun e => In (ce_name e) servers) (sc_rows c);
  po_few : forall s, (length (nm s (sc_rows c)) <= K)%nat;
  po_keys : List.NoDup (map neg_key (sc_neg c));
  po_pool : Forall (fun e => In (neg_key e) (list_prod servers [4; 6])) (sc_neg c)
}.
Lemma rows_split s rows : length rows = (length (nm s rows) + length (others s rows))%nat.
Proof. induction rows as [|e rows IH]; [done|]. cbn. destruct (bytes_eqb (ce_name e) s); cbn; lia. Qed.
Lemma nm_others s n rows : (length (nm n (others s rows)) <= length (nm n rows))%nat.
Proof. induction rows as [|e rows IH]; [done|]. cbn. destruct (bytes_eqb (ce_name e) s); cbn; destruct (bytes_eqb (ce_name e) n); cbn; lia. Qed.
Lemma rows_few l : forall rows, Forall (fun e => In (ce_name e) l) rows -> (forall s, (length (nm s rows) <= K)%nat) -> (length rows <= K * length l)%nat.
Proof.
  induction l as [|s l IH]; intros rows Hn Hf; [destruct rows as [|e rows]; [cbn; lia|by inversion Hn]|]. rewrite (rows_split s rows). specialize (Hf s) as Hs. assert (length (others s rows) <= K * length l)%nat; [|cbn [length]; rewrite Nat.mul_succ_r; lia].
  apply IH; [|intros n; pose proof (nm_others s n rows); specialize (Hf n); lia]. rewrite Forall_forall in *. intros e He. apply list_elem_of_In, others_incl in He as [He Hne]. apply list_elem_of_In in He. destruct (Hn e He) as [Hx|Hx]; [congruence|exact Hx].
Qed.
Lemma pool_room c s : (K * length servers <= STUN_CACHE_MAX)%nat -> pool_ok c -> In s servers -> (K <= STUN_CACHE_MAX - length (others s (sc_rows c)))%nat.
Proof.
  intros Hs [_ Hn Hf _ _] Hin. assert (length (others s (sc_rows c)) <= K * length (remove (List.list_eq_dec Z.eq_dec) s servers))%nat as L.
  - apply rows_few; [|intros n; pose proof (nm_others s n (sc_rows c)); specialize (Hf n); lia]. rewrite Forall_forall in *. intros e He. apply list_elem_of_In, others_incl in He as [He Hne]. apply list_elem_of_In in He. apply in_in_remove; [done|by apply Hn].
  - pose proof (remove_length_lt (List.list_eq_dec Z.eq_dec) servers s Hin) as Hr. pose proof (Nat.mul_le_mono_l _ _ K Hr) as Hm. rewrite Nat.mul_succ_r in Hm. lia.
Qed.
Lemma neg_is_key n f e : neg_is n f e = bool_decide (neg_key e = (n, f)).
Proof.
  unfold neg_is, neg_key, bytes_eqb. destruct (Z.eqb_spec (ne_family e) f), (bool_decide_reflect (ne_name e = n)); cbn; symmetry; rewrite ?bool_decide_eq_true, ?bool_decide_eq_false; congruence.
Qed.
Lemma neg_set_found l n f until : forall room, List.find (neg_is n f) (neg_set l n f until room) = Some (mk_ne n f until) \/ (room <= length l)%nat.
Proof.
  induction l as [|e l IH]; intros [|room]; cbn [neg_set length]; try (right; lia).
  - left. cbn. by rewrite neg_is_key, bool_decide_true.
  - destruct (neg_is n f e) eqn:E.
    + left. rewrite neg_is_key in E. apply bool_decide_eq_true in E. injection E as <- <-. cbn. by rewrite neg_is_key, bool_decide_true.
    + cbn [List.find Nat.pred]. rewrite E. destruct (IH room); [by left|right; lia].
Qed.
Lemma neg_set_other l n f n' f' until : (n', f') <> (n, f) -> forall room, List.find (neg_is n' f') (neg_set l n f until room) = List.find (neg_is n' f') l.
Proof.
  intros Hne. induction l as [|e l IH]; intros room; cbn [neg_set].
  - destruct room; [done|]. cbn. by rewrite neg_is_key, bool_decide_false by (unfold neg_key; cbn; congruence).
  - destruct (neg_is n f e) eqn:E; [|cbn [List.find]; by rewrite IH]. rewrite neg_is_key in E. apply bool_decide_eq_true in E. injection E as <- <-. cbn [List.find]. rewrite !neg_is_key. by rewrite !bool_decide_false by (unfold neg_key; cbn; congruence).
Qed.
Lemma neg_set_keys l n f until : forall room, map neg_key (neg_set l n f until room) = map neg_key l \/ map neg_key (neg_set l n f until room) = map neg_key l ++ [(n, f)] /\ ~ In (n, f) (map neg_key l).
Proof.
  induction l as [|e l IH]; intros room; cbn [neg_set]; [destruct room; [by left|right; split; [done|exact id]]|]. destruct (neg_is n f e) eqn:E; [by left|]. cbn [map]. destruct (IH (pred room)) as [->|[-> Hn]]; [by left|right]. split; [done|]. rewrite neg_is_key in E. apply bool_decide_eq_false in E. intros [He|He]; done.
Qed.
Lemma pool_neg c now s f : In s servers -> f = 4 \/ f = 6 -> pool_ok c -> pool_ok (neg_put c now s f).
Proof.
  intros Hs Hf [A B C D E]. assert (Hok : cache_ok (neg_put c now s f)) by (by apply (cache_do_ok c (ONeg now s f))). unfold neg_put in *. destruct (_ <=? _)%nat; [done|]. split; [done|done|done| |]; cbn [sc_neg].
  - destruct (neg_set_keys (sc_neg c) s f (u64 (now + STUN_NEG_MS)) STUN_CACHE_MAX) as [->|[-> Hn]]; [done|]. apply List.NoDup_app; [done|by constructor; [intros []|constructor]|]. intros x Hx [<-|[]]. done.
  - apply Forall_forall. intros e He. assert (Hk : In (neg_key e) (map neg_key (neg_set (sc_neg c) s f (u64 (now + STUN_NEG_MS)) STUN_CACHE_MAX))) by (apply in_map; by apply list_elem_of_In). assert (H0 : forall k, In k (map neg_key (sc_neg c)) -> In k (list_prod servers [4; 6])) by (intros k Hk0; apply in_map_iff in Hk0 as (x & <- & Hx); rewrite Forall_forall in E; apply E; by apply list_elem_of_In).
    destruct (neg_set_keys (sc_neg c) s f (u64 (now + STUN_NEG_MS)) STUN_CACHE_MAX) as [Q|[Q _]]; rewrite Q in Hk; [by apply H0|]. apply in_app_iff in Hk as [Hk|[<-|[]]]; [by apply H0|]. apply in_prod; [done|]. destruct Hf as [Hf | Hf]; rewrite Hf; cbn; tauto.
Qed.
Lemma pool_replace c s set : In s servers -> (length s < STUN_NAME_LEN)%nat -> (length set <= K)%nat -> pool_ok c -> pool_ok (cache_replace c s set).
Proof.
  intros Hs Hl HK [A B C D E]. pose proof (cache_do_ok c (OReplace s set) I A) as Hok. cbn [cache_do] in Hok. destruct (replace_spec c s set A Hl) as (old & P & R & _ & N). split; [done| | |by rewrite N|by rewrite N]; rewrite R.
  - apply Forall_app. split; [|by apply Forall_fmap, Forall_true]. rewrite P. rewrite Forall_forall in *. intros e He. apply B. apply list_elem_of_In in He. apply list_elem_of_In. by apply others_incl in He as [? _].
  - intros n. rewrite List.filter_app, length_app. pose proof (Permutation_length (rows_filter_perm (fun e => bytes_eqb (ce_name e) n) _ _ P)) as L. rewrite L. unfold fresh. destruct (decide (n = s)) as [->|Hn].
    + assert (nm s (others s (sc_rows c)) = []) as -> by (clear; induction (sc_rows c) as [|e l IH]; [done|]; cbn; destruct (bytes_eqb (ce_name e) s) eqn:E; cbn; [done|by rewrite E]). cbn [length]. etransitivity; [apply filter_length_le|]. rewrite length_map, !length_take. lia.
    + pose proof (nm_others s n (sc_rows c)). specialize (C n). set (g := map _ _). assert (nm n g = []) as -> by (unfold g; generalize (take (STUN_CACHE_MAX - length old) (take STUN_WARM_ADDRS set)); intros l; induction l as [|x l IH]; [done|]; cbn; unfold bytes_eqb at 1; by rewrite bool_decide_false). cbn [length]. lia.
Qed.
End Settle.
Definition settled (t : Z) (c : stun_cache) (s : bytes) : Prop := forall f, f = 4 \/ f = 6 -> askable_state c t s f <> 0.
Lemma askable_row c t s f : List.filter (row_is s f) (sc_rows c) <> [] -> askable_state c t s f <> 0.
Proof. intros H. unfold askable_state, cache_get_all. by destruct (List.filter _ _) as [|e l]. Qed.
Lemma askable_neg c t s f : neg_has c t s f = true -> askable_state c t s f <> 0.
Proof. intros H. unfold askable_state. rewrite H. by destruct (_ <? _)%nat. Qed.
Lemma askable_inv c t s f : askable_state c t s f <> 0 -> List.filter (row_is s f) (sc_rows c) <> [] \/ neg_has c t s f = true.
Proof. unfold askable_state, cache_get_all. destruct (List.filter _ _) as [|e l]; [|by left]. cbn. destruct (neg_has c t s f); [by right|done]. Qed.
(** What another name's lookup leaves alone. *)
Lemma askable_replace c t n s f set : cache_ok c -> (length n < STUN_NAME_LEN)%nat -> s <> n -> askable_state c t s f <> 0 -> askable_state (cache_replace c n set) t s f <> 0.
Proof.
  intros Hc Hl Hn H. apply askable_inv in H as [H|H].
  - apply askable_row. intros E. pose proof (replace_other c n set s f Hc Hl Hn) as P. rewrite E in P. apply Permutation_nil in P. done.
  - apply askable_neg. unfold neg_has in *. destruct (replace_spec c n set Hc Hl) as (old & _ & _ & _ & ->). done.
Qed.
Lemma askable_neg_put c t now n g s f : (s, f) <> (n, g) -> askable_state c t s f <> 0 -> askable_state (neg_put c now n g) t s f <> 0.
Proof.
  intros Hn H. unfold neg_put. destruct (_ <=? _)%nat; [done|]. apply askable_inv in H as [H|H]; [by apply askable_row|]. apply askable_neg. unfold neg_has in *. cbn [sc_neg]. by rewrite neg_set_other.
Qed.
Lemma denied c servers K now t s f : pool_ok servers K c -> (2 * length servers < STUN_CACHE_MAX)%nat -> (length s < STUN_NAME_LEN)%nat -> 0 <= now -> now + STUN_NEG_MS < 2 ^ 64 -> t < now + STUN_NEG_MS -> askable_state (neg_put c now s f) t s f <> 0.
Proof.
  intros [_ _ _ D E] Hs Hl H0 Hw Ht. apply askable_neg. unfold neg_has, neg_put. destruct (Nat.leb_spec STUN_NAME_LEN (length s)); [lia|]. cbn [sc_neg]. destruct (neg_set_found (sc_neg c) s f (u64 (now + STUN_NEG_MS)) STUN_CACHE_MAX) as [->|L].
  - cbn [ne_until_ms]. unfold u64, STUN_NEG_MS in *. rewrite Z.mod_small by lia. lia.
  - exfalso. assert (length (map neg_key (sc_neg c)) <= length (list_prod servers [4%Z; 6%Z]))%nat as B. { apply NoDup_incl_length; [done|]. intros k Hk. apply in_map_iff in Hk as (x & <- & Hx). rewrite Forall_forall in E. apply E. by apply list_elem_of_In. } rewrite length_map, length_prod in B. cbn [length] in B. lia.
Qed.
Section Settles.
Context (servers : list bytes) (K : nat).
Context (Hnames : Forall (fun s => (length s < STUN_NAME_LEN)%nat) servers).
Context (Hfew : (K * length servers <= STUN_CACHE_MAX)%nat) (Hneg : (2 * length servers < STUN_CACHE_MAX)%nat).
(** A resolver that has no more than [K] addresses for a name, of the sixteen taken. *)
Definition within (g : bytes -> bytes -> Z -> gai) : Prop :=
  forall h p res, g h p 0 = GaiOk res -> (length (take STUN_WARM_ADDRS (List.filter (fun sa => (sa_fam sa =? 4)%Z || (sa_fam sa =? 6)%Z) res)) <= K)%nat.
Lemma short s : In s servers -> (length s < STUN_NAME_LEN)%nat.
Proof. intros H. rewrite Forall_forall in Hnames. apply Hnames. by apply list_elem_of_In. Qed.
Lemma pool_step g now c s : within g -> In s servers -> pool_ok servers K c -> pool_ok servers K (warm_step g now c s).
Proof.
  intros Hg Hs H. destruct (warm_step_cases g now c s) as [->|(set & (h & p & res & Eg & Es) & _ & _ & Hl & ->)]; [done|]. pose proof (Hg h p res Eg) as HK. rewrite <- Es in HK. pose proof (pool_replace servers K c s set Hs Hl HK H) as R. repeat case_match; repeat (apply pool_neg; [done|tauto|]); done.
Qed.
Lemma settled_other g now t c n s : cache_ok c -> s <> n -> settled t c s -> settled t (warm_step g now c n) s.
Proof.
  intros Hc Hn H f Hf. destruct (warm_step_cases g now c n) as [->|(set & _ & _ & _ & Hl & ->)]; [by apply H|]. pose proof (askable_replace c t n s f set Hc Hl Hn (H f Hf)) as R. repeat case_match; repeat (apply askable_neg_put; [congruence|]); done.
Qed.
(** A lookup that gives an address of either family settles its name. *)
Definition answers (g : bytes -> bytes -> Z -> gai) (s : bytes) : Prop := exists h p res, split_server s = Some (h, p) /\ g h p 0 = GaiOk res /\ existsb (fun sa => (sa_fam sa =? 4) || (sa_fam sa =? 6)) res = true.
Lemma settled_own g now t c s : within g -> In s servers -> pool_ok servers K c -> 0 <= now -> now + STUN_NEG_MS < 2 ^ 64 -> t < now + STUN_NEG_MS -> answers g s -> settled t (warm_step g now c s) s.
Proof.
  intros Hg Hs Hp H0 Hw Ht (h & p & res & E1 & E2 & E3) f Hf. pose proof (short s Hs) as Hl. pose proof Hneg as H2. pose proof (Hg h p res E2) as HK. unfold warm_step. destruct (Nat.leb_spec STUN_NAME_LEN (length s)); [lia|]. unfold warm_resolve. rewrite E1, E2. set (P := fun sa => _). fold P in HK.
  destruct (take STUN_WARM_ADDRS (List.filter P res)) as [|sa0 set0] eqn:E. { exfalso. apply existsb_exists in E3 as (x & Hx & Px). assert (In x (List.filter P res)) as Hi by (apply filter_In; done). unfold STUN_WARM_ADDRS in E. by destruct (List.filter P res). }
  set (set := sa0 :: set0) in *. cbv zeta. cbn [fst]. assert (Ls : (length set <= STUN_WARM_ADDRS)%nat) by (rewrite <- E, length_take; lia). pose proof (pool_replace servers K c s set Hs Hl HK Hp) as Rp. set (c1 := cache_replace c s set) in *.
  assert (Own : forall f, existsb (fun sa => sa_fam sa =? f) set = true -> askable_state c1 t s f <> 0).
  { intros k Hk. apply askable_row. intros Z0. pose proof (replace_own c s set k (po_ok _ _ _ Hp) Hl) as Q. fold c1 in Q. rewrite Z0 in Q. rewrite (take_ge set), (take_ge set) in Q by (pose proof (pool_room servers K c s Hfew Hp Hs); lia). cbn [map] in Q. apply existsb_exists in Hk as (x & Hx & Kx). assert (Hi : In x (List.filter (fun sa => sa_fam sa =? k) set)) by (apply filter_In; done). by rewrite <- Q in Hi. }
  assert (D4 : pool_ok servers K (if existsb (fun sa => sa_fam sa =? 4) set then c1 else neg_put c1 now s 4)) by (destruct (existsb _ set); [done|by apply pool_neg; [|left|]]). set (c2 := if existsb (fun sa => sa_fam sa =? 4) set then c1 else neg_put c1 now s 4) in *.
  assert (A2 : askable_state c2 t s f <> 0 \/ f = 6 /\ existsb (fun sa => sa_fam sa =? 6) set = false).
  { destruct Hf as [Hf|Hf]; rewrite Hf in *; unfold c2.
    - left. destruct (existsb (fun sa => sa_fam sa =? 4) set) eqn:E4; [by apply Own|by apply (denied c1 servers K)].
    - destruct (existsb (fun sa => sa_fam sa =? 6) set) eqn:E6; [left|by right]. pose proof (Own 6 E6). destruct (existsb (fun sa => sa_fam sa =? 4) set); [done|]. apply askable_neg_put; [congruence|done]. }
  destruct (existsb (fun sa => sa_fam sa =? 6) set) eqn:E6; [by destruct A2 as [A2|[_ ?]]|]. destruct Hf as [Hf|Hf]; rewrite Hf in *; [apply askable_neg_put; [congruence|by destruct A2 as [A2|[? _]]]|by apply (denied c2 servers K)].
Qed.
Lemma settled_pass g now t : within g -> 0 <= now -> now + STUN_NEG_MS < 2 ^ 64 -> t < now + STUN_NEG_MS -> forall ended c, incl ended servers -> (forall s, In s ended -> answers g s) -> pool_ok servers K c ->
  pool_ok servers K (warm_pass g c now ended) /\ (forall s, In s ended \/ settled t c s -> settled t (warm_pass g c now ended) s).
Proof.
  intros Hg H0 Hw Ht. induction ended as [|n ended IH]; intros c Hi Ha Hp; [split; [done|intros s [[]|H]; done]|]. assert (Hn : In n servers) by (apply Hi; by left). change (warm_pass g c now (n :: ended)) with (warm_pass g (warm_step g now c n) now ended).
  destruct (IH (warm_step g now c n)) as [P S]; [intros x Hx; apply Hi; by right|intros x Hx; apply Ha; by right|by apply pool_step|]. split; [done|]. intros s Hs. apply S. destruct (decide (s = n)) as [->|Hne]; [right; apply settled_own; try done; apply Ha; by left|].
  destruct Hs as [[->|Hs]|Hs]; [done|by left|right]. apply settled_other; [apply Hp|done|done].
Qed.
(** C25: a pool that fits the cache and resolves is settled: whatever earlier passes found, with whatever
    resolvers, once a pass has looked every name up and each has an address of one family or the other,
    nothing is pending for the next ten minutes and the warming thread sleeps until the refresh, six hours
    on. The pool fits when no lookup has more than [K] addresses for a name, of the sixteen taken, and
    [K] rows for each of its servers are within the 256 of the cache (sixteen servers whatever the
    lookups return, 127 with two addresses each), with fewer than 128 servers, whose names are shorter
    than 128 bytes; the clock is short of 2^64 milliseconds. A pool that does not fit can stay
    pending ([crowded_pool_pending]), as does one with a longer name, which no pass looks up. *)
Theorem pool_settles (passes : list ((bytes -> bytes -> Z -> gai) * Z * list bytes)) g now t ended back :
  Forall (fun p => within p.1.1 /\ incl p.2 servers) passes -> within g -> incl ended servers -> incl servers ended -> (forall s, In s servers -> answers g s) ->
  0 <= now -> now + STUN_NEG_MS < 2 ^ 64 -> t < now + STUN_NEG_MS ->
  let c := warm_pass g (fold_left (fun c p => warm_pass p.1.1 c p.1.2 p.2) passes stun_cache_zero) now ended in
  pool_pending c t servers = false /\ warm_wait back (pool_pending c t servers) = (0, STUN_WARM_REFRESH_S - STUN_WARM_SETTLE_S).
Proof.
  intros Hps Hg Hi Hall Ha H0 Hw Ht c. assert (P0 : pool_ok servers K (fold_left (fun c p => warm_pass p.1.1 c p.1.2 p.2) passes stun_cache_zero)).
  { assert (G : forall c0, pool_ok servers K c0 -> pool_ok servers K (fold_left (fun c p => warm_pass p.1.1 c p.1.2 p.2) passes c0)); [|apply G; split; [apply zero_ok|constructor|cbn; lia|constructor|constructor]].
    induction Hps as [|[[g0 t0] e0] ps [Hg0 Hp] _ IH]; [done|]. intros c0 H. cbn [fold_left fst snd]. apply IH. cbn [fst snd] in Hg0, Hp. clear IH. revert c0 H. induction e0 as [|n e0 IHe]; [done|]. intros c0 H. change (warm_pass g0 c0 t0 (n :: e0)) with (warm_pass g0 (warm_step g0 t0 c0 n) t0 e0). apply IHe; [intros x Hx; apply Hp; by right|]. apply pool_step; [done|apply Hp; by left|done]. }
  destruct (settled_pass g now t Hg H0 Hw Ht ended _ Hi (fun s Hs => Ha s (Hi s Hs)) P0) as [_ S]. assert (F : pool_pending c t servers = false).
  { unfold pool_pending. apply not_true_iff_false. intros E. apply existsb_exists in E as (s & Hs & E). specialize (S s (or_introl (Hall s Hs))). apply orb_true_iff in E as [E|E]; apply Z.eqb_eq in E; apply S in E; tauto. }
  split; [done|]. by rewrite F.
Qed.
End Settles.

(** ** Walking the pool *)
Lemma walk_rotate (servers : list bytes) start : 0 <= start -> start + Z.of_nat (length servers) <= 2 ^ 32 -> servers <> [] ->
  map (fun i => nth (Z.to_nat (u32 (start + Z.of_nat i) mod Z.of_nat (length servers))) servers []) (seq 0 (length servers)) = rotate (Z.to_nat start) servers.
Proof.
  intros H0 Hw Hn. apply list_eq. intros i. destruct (decide (i < length servers)%nat) as [Hi|Hi].
  - change (map ?f ?l !! i) with ((f <$> l) !! i). rewrite list_lookup_fmap, lookup_seq_lt by done. cbn [fmap option_fmap option_map]. rewrite lookup_rotate_r by done. assert (0 < length servers)%nat as L by (destruct servers; [done|cbn; lia]).
    unfold rotate_nat_add. assert (E : Z.to_nat (u32 (start + Z.of_nat (0 + i)) mod Z.of_nat (length servers)) = Z.to_nat ((Z.of_nat (Z.to_nat start) + Z.of_nat i) mod Z.of_nat (length servers))) by (unfold u32; rewrite (Z.mod_small _ (2 ^ 32)) by lia; do 2 f_equal; lia). rewrite E.
    destruct (lookup_lt_is_Some_2 servers (Z.to_nat ((Z.of_nat (Z.to_nat start) + Z.of_nat i) mod Z.of_nat (length servers)))) as [x Hx]; [pose proof (Z.mod_pos_bound (Z.of_nat (Z.to_nat start) + Z.of_nat i) (Z.of_nat (length servers))); lia|]. by rewrite Hx, (nth_lookup_Some _ _ [] x).
  - rewrite !lookup_ge_None_2; [done|rewrite length_rotate; lia|rewrite length_map, length_seq; lia].
Qed.
Lemma askable_walk c now servers family start max : 0 <= start -> start + Z.of_nat (length servers) <= 2 ^ 32 -> servers <> [] ->
  stun_pool_askable c now servers family start max = take max (List.filter (fun s => askable_state c now s family =? 1) (rotate (Z.to_nat start) servers)).
Proof. intros H0 Hw Hn. unfold stun_pool_askable. destruct (Z.ltb_spec (Z.of_nat (length servers)) 1); [destruct servers; [done|cbn [length] in *; lia]|]. by rewrite walk_rotate. Qed.
Lemma first_some_spec {A B} (f : A -> option B) l : match first_some f l with
  | Some (x, y) => exists pre post, l = pre ++ x :: post /\ f x = Some y /\ Forall (fun z => f z = None) pre
  | None => Forall (fun z => f z = None) l end.
Proof.
  induction l as [|x l IH]; cbn; [done|]. destruct (f x) as [y|] eqn:E; [exists [], l; split; [done|split; [done|constructor]]|]. destruct (first_some f l) as [[x' y]|]; [|by constructor]. destruct IH as (pre & post & -> & ? & ?). exists (x :: pre), post. split; [done|]. split; [done|]. by constructor.
Qed.
Definition cached4 (c : stun_cache) (s : bytes) : option bytes := (stun_server_ip4 (fun _ _ _ => GaiFail false) c 0 0 s 64 false).2.
Lemma ip4_short sa outn ip : ip4_text sa outn = Some ip -> (length ip < outn)%nat.
Proof. unfold ip4_text. destruct sa as [port sin_addr| |]; try done. cbv zeta. destruct (Nat.ltb_spec (length (inet_ntop4 sin_addr)) outn); [|done]. intros [= <-]. done. Qed.
Lemma live_short c s outn ip : stun_server_live4 c s outn = Some ip -> (length ip < outn)%nat.
Proof. unfold stun_server_live4. destruct (List.find _ _); [apply ip4_short|done]. Qed.
Lemma cached_short c s ip : cached4 c s = Some ip -> (length ip < 64)%nat.
Proof. unfold cached4, stun_server_ip4. destruct (cache_get_all c s 4 1) as [|sa l]; cbn [snd]; [done|apply ip4_short]. Qed.
(** The server handed to the agent is the first one, walking the pool from the attempt's place, that has
    an address something answered from; only when no server has one, the first with any address at
    all; and there is none to hand out only when no server's name has resolved to IPv4.  The host is
    the address of that server and the port its own. *)
Theorem pick_prefers_heard c servers attempt : 0 <= attempt -> attempt + Z.of_nat (length servers) <= 2 ^ 32 ->
  match stun_pick c servers attempt 64 with
  | Some (host, port) => exists pre s post, rotate (Z.to_nat attempt) servers = pre ++ s :: post /\ port = server_port s /\
      ((stun_server_live4 c s 64 = Some host /\ Forall (fun z => stun_server_live4 c z 64 = None) pre) \/
       (cached4 c s = Some host /\ Forall (fun z => cached4 c z = None) pre /\ Forall (fun z => stun_server_live4 c z 64 = None) servers))
  | None => Forall (fun z => cached4 c z = None) servers
  end.
Proof.
  intros H0 Hw. unfold stun_pick. destruct (Nat.ltb_spec (length servers) 1) as [L|L]; [by destruct servers; [constructor|cbn in L; lia]|]. assert (Hn : servers <> []) by (by destruct servers; [cbn in L; lia|]). unfold from_attempt. rewrite walk_rotate by done.
  assert (R : forall P : bytes -> Prop, Forall P (rotate (Z.to_nat attempt) servers) -> Forall P servers) by (intros P HP; rewrite Forall_forall in *; intros x Hx; apply HP; by apply elem_of_rotate).
  assert (S : forall ip : bytes, (length ip < 64)%nat -> snprintf 64 ip = ip) by (intros ip Hip; unfold snprintf; apply take_ge; lia).
  pose proof (first_some_spec (fun s => stun_server_live4 c s 64) (rotate (Z.to_nat attempt) servers)) as F1. destruct (first_some _ _) as [[e ip]|].
  - destruct F1 as (pre & post & E & El & Ep). exists pre, e, post. rewrite (S ip) by (by apply (live_short c e)). split; [done|]. split; [done|by left].
  - pose proof (first_some_spec (cached4 c) (rotate (Z.to_nat attempt) servers)) as F2. fold (cached4 c). change (fun s => (stun_server_ip4 (fun _ _ _ => GaiFail false) c 0 0 s 64 false).2) with (cached4 c). destruct (first_some (cached4 c) _) as [[e ip]|]; [|by apply R].
    destruct F2 as (pre & post & E & El & Ep). exists pre, e, post. rewrite (S ip) by (by apply (cached_short c e)). split; [done|]. split; [done|]. right. split; [done|]. split; [done|]. by apply R.
Qed.

(** ** Runs *)
Definition host_a : bytes := cstr "stun.a.example:3478".
Definition host_b : bytes := cstr "stun.b.example".
Definition ip (n : Z) : sockaddr := AF_INET 3478 [192; 0; 2; n].
(** Swapping the last row into a gap turns the order of another name's addresses. *)
Example order_turned :
  let c := fold_left cache_do [OReplace host_a [ip 1]; OReplace host_b [ip 2; ip 3]] stun_cache_zero in
  cache_get_all c host_b 4 8 = [ip 2; ip 3] /\ cache_get_all (cache_replace c host_a [ip 1]) host_b 4 8 = [ip 3; ip 2].
Proof. split; vm_compute; reflexivity. Qed.
(** A row that is put takes over the mark of the slot it gets.  The slots past the rows keep what they
    were left with, and [cache_put] sets every field but [answered]; so an address just resolved, of
    which nothing was ever heard, is given out as a live one when the slot last held one that was. *)
Theorem put_inherits_mark c name family sa e rest : sc_rest c = e :: rest -> ce_answered e = true -> (length name < STUN_NAME_LEN)%nat ->
  existsb (fun r => row_is name family r && row_at sa r) (sc_rows c) = false -> is_live (cache_put c name family sa) sa = true.
Proof.
  intros E Ha Hl Hx. unfold cache_put. destruct (Nat.leb_spec STUN_NAME_LEN (length name)); [lia|]. rewrite Hx, E. unfold is_live. cbn [sc_rows]. rewrite existsb_app. cbn. rewrite Ha. unfold row_at. cbn. rewrite bool_decide_true by done. apply orb_true_r.
Qed.
Definition marked_run : list cache_op := [OReplace host_a [ip 1; ip 2]; OMark (ip 2); OReplace host_a [ip 1]].
Example put_inherits_run : stun_server_live4 (cache_put (fold_left cache_do marked_run stun_cache_zero) host_b 4 (ip 9)) host_b 64 = Some (cstr "192.0.2.9").
Proof. vm_compute. reflexivity. Qed.
Lemma put_inherits_mark_witness : is_live (cache_put (fold_left cache_do marked_run stun_cache_zero) host_b 4 (ip 9)) (ip 9) = true.
Proof. eapply put_inherits_mark; [vm_compute; reflexivity|vm_compute; reflexivity|vm_compute; lia|vm_compute; reflexivity]. Defined.
Definition heard_run : list cache_op := [OReplace host_a [ip 1; ip 2]; OMark (ip 2); ONeg 5 host_a 6; OReplace host_a [ip 2; ip 3]].
Lemma fresh_set_replaces_witness : let c := fold_left cache_do heard_run stun_cache_zero in forall family max, cache_get_all (cache_replace c host_b [ip 4]) host_b family max = take max (List.filter (fun sa => sa_fam sa =? family) (take (STUN_CACHE_MAX - length (others host_b (sc_rows c))) (take STUN_WARM_ADDRS [ip 4]))).
Proof. apply (fresh_set_replaces heard_run host_b [ip 4]); [repeat constructor|vm_compute; lia]. Defined.
(** A resolver that knows the one and denies the other. *)
Definition half_dns (host port : bytes) (family : Z) : gai := if bytes_eqb host (cstr "stun.a.example") then GaiOk [ip 1] else GaiFail true.
Lemma dead_name_asked_for_ever_witness : let c := fold_left (fun c p => warm_pass half_dns c p.1 p.2) [(0, [host_a; host_b]); (700000, [host_b; host_a])] stun_cache_zero in
  pool_pending c 700010 [host_a; host_b] = true /\ (warm_wait 15 (pool_pending c 700010 [host_a; host_b])).2 <= STUN_WARM_RETRY_MAX_S.
Proof. apply (dead_name_asked_for_ever half_dns [host_a; host_b] host_b [(0, [host_a; host_b]); (700000, [host_b; host_a])] 700010 15); [right; left; reflexivity|]. intros h p E. vm_compute in E. injection E as <- <-. exists true. reflexivity. Defined.
Lemma pool_settles_witness : let c := warm_pass half_dns (fold_left (fun c p => warm_pass p.1.1 c p.1.2 p.2) [(fun _ _ _ => GaiFail false, 0, [host_a])] stun_cache_zero) 1000 [host_a] in
  pool_pending c 2000 [host_a] = false /\ warm_wait 30 (pool_pending c 2000 [host_a]) = (0, STUN_WARM_REFRESH_S - STUN_WARM_SETTLE_S).
Proof.
  assert (W : forall g : bytes -> bytes -> Z -> gai, (forall h p, match g h p 0 with GaiOk res => (length res <= 2)%nat | _ => True end) -> within 2 g).
  { intros g H h p res E. specialize (H h p). rewrite E in H. rewrite length_take. pose proof (filter_length_le (fun sa => (sa_fam sa =? 4) || (sa_fam sa =? 6)) res). lia. }
  apply (pool_settles [host_a] 2); [constructor; [vm_compute; lia|constructor]|vm_compute; lia|vm_compute; lia|constructor; [split; [apply W; done|intros x Hx; exact Hx]|constructor]| |intros x Hx; exact Hx|intros x Hx; exact Hx| |lia|vm_compute; reflexivity|vm_compute; reflexivity].
  - apply W. intros h p. unfold half_dns. destruct (bytes_eqb _ _); cbn; lia.
  - intros s [<-|[]]. exists (cstr "stun.a.example"), (cstr "3478"), [ip 1]. repeat split.
Defined.
(** Seventeen names with sixteen addresses each: all of them resolve, and the last has no row. *)
Definition crowd_names : list bytes := map (fun n => cstr "stun" ++ [Z.of_nat (65 + n)]) (seq 0 17).
Definition crowd_dns (host port : bytes) (family : Z) : gai := GaiOk (map (fun n => AF_INET 3478 [192; 0; nth 4 host 0; Z.of_nat n]) (seq 1 16)).
Example crowded_pool_pending : pool_pending (warm_pass crowd_dns stun_cache_zero 0 crowd_names) 1 crowd_names = true.
Proof. vm_compute. reflexivity. Qed.
Lemma pick_prefers_heard_witness : match stun_pick (fold_left cache_do heard_run stun_cache_zero) [host_b; host_a] 4 64 with
  | Some (host, port) => exists pre s post, rotate 4 [host_b; host_a] = pre ++ s :: post /\ port = server_port s /\
      ((stun_server_live4 (fold_left cache_do heard_run stun_cache_zero) s 64 = Some host /\ Forall (fun z => stun_server_live4 (fold_left cache_do heard_run stun_cache_zero) z 64 = None) pre) \/
       (cached4 (fold_left cache_do heard_run stun_cache_zero) s = Some host /\ Forall (fun z => cached4 (fold_left cache_do heard_run stun_cache_zero) z = None) pre /\ Forall (fun z => stun_server_live4 (fold_left cache_do heard_run stun_cache_zero) z 64 = None) [host_b; host_a]))
  | None => Forall (fun z => cached4 (fold_left cache_do heard_run stun_cache_zero) z = None) [host_b; host_a] end.
Proof. apply (pick_prefers_heard (fold_left cache_do heard_run stun_cache_zero) [host_b; host_a] 4); [lia|cbn; lia]. Defined.
