(* ===== verification/StunRound.v ===== *)
(** src/src/stunprobe.c, a probe round: [stun_probe_run] over the resolver cache, and what the network half of
    src/src/peering.c makes of its answers.  The socket is what arrives on it and what is sent;
    a pass of the loop is given the readings of the clock, the stop flag, what arrived, and what
    other threads did to the cache since the pass before. *)
From S2P Require Import Prelude Net CandPolicy StunProbe StunCache StunCacheOk PeerNet.

Definition PROBE_RESEND_MS : Z := 1000.
Definition PROBE_TICK_MS : Z := 100.
Definition PROBE_ADDRS_PER_NAME : nat := 8.
Definition PROBE_BUF : nat := 512.
(** The locals of the loop: [nres], [dst[0..ndst)], [next_send] and the seed. *)
Record round := mk_round { rd_cache : stun_cache; rd_nres : nat; rd_dst : list sockaddr; rd_next_send : Z; rd_seed : bytes }.
Inductive round_event := Sent (dst : sockaddr) (req : bytes) | Polled (timeout : Z) | Hit (addr : bytes) (port : Z).
Record round_pass := mk_pass { ps_others : list cache_op; ps_stop : bool; ps_t : Z; ps_now : Z; ps_later : Z; ps_pkt : option bytes }.

(** The seed with a target in its last byte. *)
Definition seed_for (seed : bytes) (i : nat) : bytes := take (STUN_PROBE_TXID_LEN - 1) seed ++ [u8 (Z.of_nat i)].
Definition probe_ask (seed : bytes) (i : nat) (dst : sockaddr) : bytes * round_event := let seed := seed_for seed i in (seed, Sent dst (stun_probe_build seed)).
Fixpoint ask_all (seed : bytes) (i : nat) (l : list sockaddr) : bytes * list round_event :=
  match l with
  | [] => (seed, [])
  | sa :: l => let '(seed, e) := probe_ask seed i sa in let '(seed, es) := ask_all seed (S i) l in (seed, e :: es)
  end.
Section Round.
Context (family : Z) (servers : list bytes).
Definition want_fam : Z := if family =? 6 then 2 else 1.
(** How many targets the round has room for: the byte that names one. *)
Definition round_max : nat := Nat.min (length servers * PROBE_ADDRS_PER_NAME) 255.
(** The next name's addresses, asked as they are taken. *)
Definition round_take (r : round) (now later : Z) : round * list round_event * Z :=
  if (rd_nres r <? length servers)%nat && (length (rd_dst r) <? round_max)%nat then
    let got := cache_get_all (rd_cache r) (nth (rd_nres r) servers []) family (round_max - length (rd_dst r)) in
    let '(seed, es) := ask_all (rd_seed r) (length (rd_dst r)) got in
    (mk_round (rd_cache r) (S (rd_nres r)) (rd_dst r ++ got) (rd_next_send r) seed, es, later)
  else (r, [], now).
Definition round_resend (r : round) (now : Z) : round * list round_event :=
  if rd_next_send r <=? now then
    let '(seed, es) := ask_all (rd_seed r) 0 (rd_dst r) in (mk_round (rd_cache r) (rd_nres r) (rd_dst r) (u64 (now + PROBE_RESEND_MS)) seed, es)
  else (r, []).
Definition round_recv (r : round) (pkt : option bytes) : round * list round_event :=
  match pkt with
  | None => (r, [])
  | Some pkt =>
      let buf := take PROBE_BUF pkt in
      match stun_probe_mapped_fam buf (rd_seed r) want_fam with
      | Some (Some (addr, port)) =>
          let t := Z.to_nat (nth (8 + STUN_PROBE_TXID_LEN - 1) buf 0) in
          (mk_round (match rd_dst r !! t with Some sa => cache_mark_answered (rd_cache r) sa | None => rd_cache r end) (rd_nres r) (rd_dst r) (rd_next_send r) (rd_seed r), [Hit addr port])
      | _ => (r, [])
      end
  end.
Definition round_timeout (r : round) : Z := if (rd_nres r <? length servers)%nat then 0 else PROBE_TICK_MS.
(** One turn of the loop. *)
Definition round_turn (r : round) (p : round_pass) : round * list round_event :=
  let r := mk_round (fold_left cache_do (ps_others p) (rd_cache r)) (rd_nres r) (rd_dst r) (rd_next_send r) (rd_seed r) in
  let '(r, es1, now) := round_take r (ps_now p) (ps_later p) in
  let '(r, es2) := round_resend r now in
  let '(r', es3) := round_recv r (ps_pkt p) in
  (r', es1 ++ es2 ++ Polled (round_timeout r) :: es3).
(** The loop, over the turns there are; [true] when it ended by itself, stopped or out of time. *)
Fixpoint round_loop (t0 total_ms : Z) (r : round) (l : list round_pass) : round * list round_event * bool :=
  match l with
  | [] => (r, [], false)
  | p :: l =>
      if ps_stop p || negb (u64 (ps_t p - t0) <? total_ms) then (r, [], true)
      else
        let '(r, es) := round_turn r p in
        let '(r, es', b) := round_loop t0 total_ms r l in (r, es ++ es', b)
  end.
Definition stun_probe_run (c : stun_cache) (sock_ok : bool) (t0 total_ms : Z) (seed : bytes) (l : list round_pass) : round * list round_event * bool :=
  if (length servers <? 1)%nat || negb sock_ok then (mk_round c 0 [] 0 seed, [], true)
  else round_loop t0 total_ms (mk_round c 0 [] 0 seed) l.
End Round.
Definition hits (es : list round_event) : list (bytes * Z) := omap (fun e => match e with Hit a p => Some (a, p) | _ => None end) es.
(** The local description with the egress addresses known on this network, and how many there are. *)
Definition peering_net_fan (m : peering_net) (sdp : bytes) (cap : nat) (epoch : Z) : bytes * Z :=
  let pool := peering_pool_copy (pn_pool m) epoch in
  let moves := negb (peering_pool_port_stable (pn_pool m)) in
  (if (2 <=? length pool)%nat then cand_sdp_fan_v4 sdp cap pool moves else sdp, Z.of_nat (length pool)).
Definition PEERING_PROBE6_SERVERS : nat := 6.
Definition PEERING_PROBE_MS : Z := 3000.
(** A round of [peering.c], over the answers of the probe. *)
Definition net_round (m : peering_net) (c : stun_cache) (now : Z) (family : Z) (sock_ok : bool) (t0 : Z) (seed : bytes) (l : list round_pass) : peering_net * stun_cache :=
  let list_ := if family =? 6 then stun_pool_askable c now (pn_servers m) 6 (pb_start (probe_of m 6)) PEERING_PROBE6_SERVERS else pn_servers m in
  let '(r, es, _) := stun_probe_run family list_ c sock_ok t0 PEERING_PROBE_MS seed l in
  (probe_round m family (hits es), rd_cache r).
