(* ===== verification/StunRoundOk.v ===== *)
(** A probe round asks every address it has, knows which one answered, and ends; with what happens when
    the table of targets is full, and when one server answers twice. *)
From S2P Require Import Prelude Net StunProbe StunCache StunCacheOk PeerNet StunRound.

(** ** Requests *)
Lemma seed_for_length seed i : length seed = 12%nat -> length (seed_for seed i) = 12%nat.
Proof. intros H. unfold seed_for, STUN_PROBE_TXID_LEN. rewrite length_app, length_take. cbn [length]. lia. Qed.
Lemma seed_for_take seed i : length seed = 12%nat -> take 11 (seed_for seed i) = take 11 seed.
Proof. intros H. unfold seed_for, STUN_PROBE_TXID_LEN. rewrite take_app_le by (rewrite length_take; lia). by rewrite take_take. Qed.
Lemma seed_for_same s1 s2 i : take 11 s1 = take 11 s2 -> seed_for s1 i = seed_for s2 i.
Proof. intros H. unfold seed_for. change (STUN_PROBE_TXID_LEN - 1)%nat with 11%nat. by rewrite H. Qed.
(** The request sent to target [i]. *)
Definition request (seed : bytes) (i : nat) (sa : sockaddr) : round_event := Sent sa (stun_probe_build (seed_for seed i)).
Lemma ask_all_spec l : forall seed i, length seed = 12%nat -> let d := ask_all seed i l in
  length d.1 = 12%nat /\ take 11 d.1 = take 11 seed /\ d.2 = imap (fun k sa => request seed (i + k) sa) l.
Proof.
  induction l as [|sa l IH]; intros seed i H; [done|]. cbn [ask_all probe_ask]. destruct (IH (seed_for seed i) (S i) (seed_for_length seed i H)) as (A & B & C). destruct (ask_all (seed_for seed i) (S i) l) as [s es]. cbn [fst snd] in *. split; [done|]. split; [by rewrite B, seed_for_take|].
  cbn [imap]. rewrite Nat.add_0_r. f_equal. rewrite C. apply imap_ext. intros k x _. unfold request. cbn [compose]. replace (i + S k)%nat with (S i + k)%nat by lia. by rewrite (seed_for_same (seed_for seed i) seed) by (by apply seed_for_take).
Qed.

(** ** What holds through a round *)
Section Round.
Context (family : Z) (servers : list bytes) (seed : bytes).
Context (Hseed : length seed = 12%nat).
(** An event is a request to a target of the round, under the number of its place. *)
Definition named_in (dst : list sockaddr) (e : round_event) : Prop := match e with Sent sa req => exists i, dst !! i = Some sa /\ req = stun_probe_build (seed_for seed i) | _ => True end.
Record round_ok (r : round) : Prop := mk_rok {
  ro_seed : length (rd_seed r) = 12%nat; ro_base : take 11 (rd_seed r) = take 11 seed;
  ro_few : (length (rd_dst r) <= round_max servers)%nat; ro_nres : (rd_nres r <= length servers)%nat
}.
Lemma named_more dst l e : named_in dst e -> named_in (dst ++ l) e.
Proof. destruct e; cbn; [|done|done]. intros (i & E & ->). exists i. split; [by apply lookup_app_l_Some|done]. Qed.
Lemma named_request s0 dst pre l : take 11 s0 = take 11 seed -> dst = pre ++ l -> Forall (named_in dst) (imap (fun k sa => request s0 (length pre + k) sa) l).
Proof.
  intros Hs ->. apply Forall_lookup. intros k e E. rewrite list_lookup_imap in E. destruct (l !! k) as [sa|] eqn:El; [|done]. cbn in E. injection E as <-. exists (length pre + k)%nat. split; [|by rewrite (seed_for_same s0 seed)]. rewrite lookup_app_r by lia. by replace (length pre + k - length pre)%nat with k by lia.
Qed.
(** The pieces of a turn, with what each sends. *)
Lemma take_ok r now later : round_ok r -> let d := round_take family servers r now later in
  round_ok d.1.1 /\ (exists l, rd_dst d.1.1 = rd_dst r ++ l) /\ Forall (named_in (rd_dst d.1.1)) d.1.2.
Proof.
  intros [A B C D]. unfold round_take. destruct (Nat.ltb_spec (rd_nres r) (length servers)) as [Hn|Hn]; cbn [andb]; [|split; [done|split; [exists []; by rewrite app_nil_r|constructor]]]. destruct (Nat.ltb_spec (length (rd_dst r)) (round_max servers)) as [Hm|Hm]; [|split; [done|split; [exists []; by rewrite app_nil_r|constructor]]].
  set (got := cache_get_all _ _ _ _). destruct (ask_all_spec got (rd_seed r) (length (rd_dst r)) A) as (E1 & E2 & E3). destruct (ask_all _ _ got) as [s es]. cbn [fst snd rd_dst rd_nres rd_seed] in *. split; [|split; [by exists got|rewrite E3; by apply named_request]].
  split; cbn; [done|congruence| |lia]. rewrite length_app. assert (length got <= round_max servers - length (rd_dst r))%nat by (unfold got, cache_get_all; rewrite length_take; lia). lia.
Qed.
Lemma resend_ok r now : round_ok r -> let d := round_resend r now in round_ok d.1 /\ rd_dst d.1 = rd_dst r /\ Forall (named_in (rd_dst r)) d.2.
Proof.
  intros [A B C D]. unfold round_resend. destruct (_ <=? now); [|split; [done|split; [done|constructor]]]. destruct (ask_all_spec (rd_dst r) (rd_seed r) 0 A) as (E1 & E2 & E3). destruct (ask_all _ _ _) as [s es]. cbn [fst snd rd_dst rd_nres rd_seed] in *. split; [split; cbn; congruence || lia|]. split; [done|]. rewrite E3. by apply (named_request _ _ []).
Qed.
Lemma recv_ok r pkt : round_ok r -> let d := round_recv family r pkt in round_ok d.1 /\ rd_dst d.1 = rd_dst r /\ Forall (named_in (rd_dst r)) d.2.
Proof.
  intros [A B C D]. unfold round_recv. destruct pkt as [pkt|]; [|split; [done|split; [done|constructor]]]. destruct (stun_probe_mapped_fam _ _ _) as [[[addr port]|]|]; (split; [done|split; [done|]]); cbn [snd]; repeat constructor.
Qed.
Lemma turn_ok r p : round_ok r -> let d := round_turn family servers r p in round_ok d.1 /\ (exists l, rd_dst d.1 = rd_dst r ++ l) /\ Forall (named_in (rd_dst d.1)) d.2.
Proof.
  intros H. unfold round_turn. set (r0 := mk_round _ _ _ _ _). assert (H0 : round_ok r0) by (destruct H; by split). pose proof (take_ok r0 (ps_now p) (ps_later p) H0) as T. destruct (round_take _ _ _ _ _) as [[r1 es1] now]. destruct T as (K1 & (l & L) & F1). cbn [fst snd] in *.
  pose proof (resend_ok r1 now K1) as R. destruct (round_resend r1 now) as [r2 es2]. destruct R as (K2 & D2 & F2). cbn [fst snd] in *. pose proof (recv_ok r2 (ps_pkt p) K2) as V. destruct (round_recv family r2 (ps_pkt p)) as [r3 es3]. destruct V as (K3 & D3 & F3). cbn [fst snd] in *. rewrite D3, D2.
  split; [done|]. split; [by exists l|]. rewrite !Forall_app, Forall_cons. rewrite D2 in F3. done.
Qed.
Lemma loop_ok t0 total l : forall r, round_ok r -> let d := round_loop family servers t0 total r l in round_ok d.1.1 /\ (exists l, rd_dst d.1.1 = rd_dst r ++ l) /\ Forall (named_in (rd_dst d.1.1)) d.1.2.
Proof.
  induction l as [|p l IH]; intros r H; cbn [round_loop]; [split; [done|split; [exists []; by rewrite app_nil_r|constructor]]|]. destruct (_ || _); [split; [done|split; [exists []; by rewrite app_nil_r|constructor]]|].
  pose proof (turn_ok r p H) as T. destruct (round_turn _ _ r p) as [r1 es]. destruct T as (K1 & (l1 & L1) & F1). cbn [fst snd] in *. specialize (IH r1 K1) as S. destruct (round_loop _ _ t0 total r1 l) as [[r2 es'] b]. destruct S as (K2 & (l2 & L2) & F2). cbn [fst snd] in *. split; [done|]. split; [exists (l1 ++ l2); by rewrite L2, L1, app_assoc|]. apply Forall_app. split; [|done]. rewrite L2. eapply Forall_impl; [exact F1|]. intros e. apply named_more.
Qed.
End Round.
Lemma start_ok servers seed c : length seed = 12%nat -> round_ok servers seed (mk_round c 0 [] 0 seed).
Proof. intros H. split; cbn; [done|done|lia|lia]. Qed.
(** Whatever arrives, whatever other threads do to the cache and however long it lasts, a round has at most
    255 targets, its list of them only grows, and every request it sends goes to one of them and
    carries that target's place in the last byte of its transaction id: the byte is the place, so
    the byte of an answer names the one address it was sent to. *)
Theorem targets_are_named family servers c sock_ok t0 total seed l : length seed = 12%nat ->
  let '(r, es, _) := stun_probe_run family servers c sock_ok t0 total seed l in
  (length (rd_dst r) <= 255)%nat /\ forall sa req, In (Sent sa req) es -> exists i, (i < 255)%nat /\ rd_dst r !! i = Some sa /\ req = stun_probe_build (take 11 seed ++ [Z.of_nat i]).
Proof.
  intros H. unfold stun_probe_run. destruct (_ || _); [split; [cbn; lia|intros sa req []]|]. pose proof (loop_ok family servers seed H t0 total l _ (start_ok servers seed c H)) as L. destruct (round_loop _ _ t0 total _ l) as [[r es] b]. destruct L as (K & _ & F). cbn [fst snd] in *. pose proof (ro_few _ _ _ K) as W. assert (Hm : (length (rd_dst r) <= 255)%nat) by (unfold round_max in W; lia). split; [done|].
  intros sa req Hin. rewrite Forall_forall in F. apply list_elem_of_In in Hin. destruct (F _ Hin) as (i & E & ->). pose proof (lookup_lt_Some _ _ _ E). exists i. split; [lia|]. split; [done|]. unfold seed_for, u8. change (STUN_PROBE_TXID_LEN - 1)%nat with 11%nat. rewrite Z.mod_small; [done|lia].
Qed.

(** ** An answer and the server it came from *)
Lemma reply_byte txid body : length txid = 12%nat -> nth 19 (reply txid body) 0 = nth 11 txid 0.
Proof.
  intros H. unfold reply. rewrite !app_assoc, <- app_assoc. rewrite app_nth2; rewrite !length_app, !be_put_length, magic_length; [|lia]. rewrite app_nth1 by lia. f_equal.
Qed.
Lemma answer_read family servers r seed i sa addr port rest oth : round_ok servers seed r -> length seed = 12%nat -> rd_dst r !! i = Some sa ->
  length addr = (if (family =? 6)%Z then 16 else 4)%nat -> is_u16 port -> Forall plain_attr oth ->
  let txid := drop 8 (stun_probe_build (seed_for seed i)) in
  let body := attrs_text oth ++ attr STUN_ATTR_XOR_MAPPED (xor_value (want_fam family) txid addr port) ++ rest in
  (length (reply txid body) <= PROBE_BUF)%nat ->
  round_recv family r (Some (reply txid body)) = (mk_round (cache_mark_answered (rd_cache r) sa) (rd_nres r) (rd_dst r) (rd_next_send r) (rd_seed r), [Hit addr port]).
Proof.
  intros [A B C D] Hs Hi Ha Hp Ho txid body Hl. assert (T : txid = seed_for seed i). { unfold txid, stun_probe_build. rewrite app_assoc, drop_app_ge by (cbn; lia). rewrite length_app, magic_length. cbn [length Nat.add Nat.sub drop]. apply take_ge. unfold STUN_PROBE_TXID_LEN. rewrite seed_for_length by done. lia. }
  assert (Lt : length txid = 12%nat) by (rewrite T; by apply seed_for_length). pose proof (lookup_lt_Some _ _ _ Hi) as Hlt. assert (Hb : (length body < 2 ^ 16)%nat). { unfold reply in Hl. rewrite !length_app in Hl. unfold PROBE_BUF in Hl. apply (Nat.lt_le_trans _ (2 ^ 10)); [change (2 ^ 10)%nat with 1024%nat; lia|apply Nat.pow_le_mono_r; lia]. }
  unfold round_recv. rewrite (take_ge (reply txid body)) by done. unfold body at 1. rewrite (stun_reply_roundtrip txid (rd_seed r) addr rest oth (want_fam family) port); [| done | | | done | done | exact Hb].
  - change (8 + STUN_PROBE_TXID_LEN - 1)%nat with 19%nat. rewrite reply_byte by done. rewrite T. unfold seed_for. rewrite app_nth2 by (rewrite length_take, Hs; cbn; lia). rewrite length_take, Hs. cbn [Nat.min Nat.sub STUN_PROBE_TXID_LEN nth]. unfold u8. unfold round_max in C. rewrite Z.mod_small by lia. rewrite Nat2Z.id, Hi. done.
  - rewrite T, B. symmetry. by apply seed_for_take.
  - unfold want_fam. destruct (family =? 6); [right|left]; done.
Qed.
(** A server that answers is known for it.  When the reply to the request sent to a target of the round,
    echoing its transaction id and with the address it saw in any place among its attributes,
    arrives at any later time of the round, the address and the port reported are the ones the
    server saw, and it is that target, and no other, that the cache notes as one that answers. *)
Theorem answer_marks_its_server family servers r seed i sa addr port rest oth : round_ok servers seed r -> length seed = 12%nat -> rd_dst r !! i = Some sa ->
  length addr = (if (family =? 6)%Z then 16 else 4)%nat -> is_u16 port -> Forall plain_attr oth ->
  let txid := drop 8 (stun_probe_build (seed_for seed i)) in
  let body := attrs_text oth ++ attr STUN_ATTR_XOR_MAPPED (xor_value (want_fam family) txid addr port) ++ rest in
  (length (reply txid body) <= PROBE_BUF)%nat ->
  round_recv family r (Some (reply txid body)) = (mk_round (cache_mark_answered (rd_cache r) sa) (rd_nres r) (rd_dst r) (rd_next_send r) (rd_seed r), [Hit addr port]).
Proof. apply (answer_read family servers r seed). Qed.

(** ** Every address is asked *)
Definition only_marks (p : round_pass) : Prop := Forall (fun o => match o with OMark _ => True | _ => False end) (ps_others p).
Lemma mark_get c sa name family max : cache_get_all (cache_mark_answered c sa) name family max = cache_get_all c name family max.
Proof.
  unfold cache_get_all. cbn [sc_rows cache_mark_answered]. f_equal. induction (sc_rows c) as [|e l IH]; [done|]. cbn [map List.filter]. assert (row_is name family (mark_row sa e) = row_is name family e /\ ce_sa (mark_row sa e) = ce_sa e) as [-> E] by (unfold mark_row; by destruct (row_at sa e)). destruct (row_is name family e); cbn [map]; by rewrite ?E, IH.
Qed.
Lemma marks_get l c name family max : Forall (fun o => match o with OMark _ => True | _ => False end) l -> cache_get_all (fold_left cache_do l c) name family max = cache_get_all c name family max.
Proof. intros H. revert c. induction H as [|o l Ho _ IH]; intros c; [done|]. cbn [fold_left]. rewrite IH. destruct o; try done. apply mark_get. Qed.
Section Complete.
Context (family : Z) (servers : list bytes) (seed : bytes) (c0 : stun_cache).
Context (Hseed : length seed = 12%nat).
(** The addresses of the first [k] servers. *)
Definition found (k : nat) : list sockaddr := concat (map (fun s => cache_get_all c0 s family STUN_CACHE_MAX) (take k servers)).
Context (Hc0 : cache_ok c0).
Definition same_sets (c : stun_cache) : Prop := forall s max, cache_get_all c s family max = cache_get_all c0 s family max.
Lemma get_cut s max : cache_get_all c0 s family max = take max (cache_get_all c0 s family STUN_CACHE_MAX).
Proof.
  unfold cache_get_all. set (l := map _ _). assert (length l <= STUN_CACHE_MAX)%nat by (unfold l; rewrite length_map; pose proof (filter_length_le (row_is s family) (sc_rows c0)); pose proof (co_whole _ Hc0); lia). by rewrite (take_ge l STUN_CACHE_MAX) by lia.
Qed.
Lemma found_S k s : servers !! k = Some s -> found (S k) = found k ++ cache_get_all c0 s family STUN_CACHE_MAX.
Proof. intros H. unfold found. rewrite (take_S_r _ _ s H), map_app, concat_app. cbn. by rewrite app_nil_r. Qed.
Lemma found_grows k : exists l, found (S k) = found k ++ l.
Proof. destruct (servers !! k) as [s|] eqn:E; [eexists; by apply found_S|]. exists []. apply lookup_ge_None in E. unfold found. by rewrite !take_ge, app_nil_r by lia. Qed.
(** The targets after [k] turns: as many as there is room for. *)
Definition room_for (k : nat) : list sockaddr := take (round_max servers) (found k).
Lemma full_stays k : length (room_for k) = round_max servers -> room_for (S k) = room_for k.
Proof. unfold room_for. rewrite length_take. intros H. destruct (found_grows k) as [l ->]. apply take_app_le. lia. Qed.
Lemma all_found k : (length servers <= k)%nat -> found k = found (length servers).
Proof. intros H. unfold found. by rewrite !take_ge by lia. Qed.
(** How far the round has got after [k] turns, and that what it has was asked. *)
Record progress (k : nat) (r : round) (es : list round_event) : Prop := mk_prog {
  pg_ok : round_ok servers seed r; pg_sets : same_sets (rd_cache r);
  pg_nres : rd_nres r = Nat.min k (length servers) \/ length (rd_dst r) = round_max servers;
  pg_dst : rd_dst r = room_for k; pg_sent : forall sa, In sa (rd_dst r) -> exists req, In (Sent sa req) es
}.
Lemma asked_in s0 i l sa : In sa l -> exists req, In (Sent sa req) (imap (fun k x => request s0 (i + k) x) l).
Proof.
  intros H. apply list_elem_of_In, list_elem_of_lookup_1 in H as [k Hk]. eexists. apply list_elem_of_In. apply (list_elem_of_lookup_2 _ k). rewrite list_lookup_imap, Hk. reflexivity.
Qed.
Lemma progress_stays k r es : progress k r es -> ((length servers <= rd_nres r)%nat \/ length (rd_dst r) = round_max servers) -> progress (S k) r es.
Proof.
  intros [A B C D E] H. assert (F : room_for (S k) = room_for k).
  { destruct (decide (length (rd_dst r) = round_max servers)) as [Hf|Hf]; [apply full_stays; congruence|]. destruct C as [C|C]; [|done]. destruct H as [H|H]; [|done]. unfold room_for. by rewrite (all_found (S k)), (all_found k) by lia. }
  split; [done|done| |congruence|done]. destruct H as [H|H]; [|by right]. destruct C as [C|C]; [left; lia|by right].
Qed.
Lemma progress_take k r es now later : progress k r es -> let d := round_take family servers r now later in progress (S k) d.1.1 (es ++ d.1.2).
Proof.
  intros P. pose proof P as [A B C D E]. pose proof (take_ok family servers seed Hseed r now later A) as (K & _). revert K. unfold round_take. destruct (Nat.ltb_spec (rd_nres r) (length servers)) as [Hn|Hn]; cbn [andb]; [destruct (Nat.ltb_spec (length (rd_dst r)) (round_max servers)) as [Hm|Hm]|].
  - destruct C as [C|C]; [|lia]. assert (Ek : rd_nres r = k) by lia. rewrite B. destruct (lookup_lt_is_Some_2 servers (rd_nres r) Hn) as [s Hs]. rewrite (nth_lookup_Some _ _ [] s Hs).
    assert (Dk : rd_dst r = found k) by (rewrite D in Hm |- *; unfold room_for in *; rewrite length_take in Hm; apply take_ge; lia). rewrite get_cut. set (full := cache_get_all c0 s family STUN_CACHE_MAX). set (got := take _ full).
    assert (F : room_for (S k) = rd_dst r ++ got) by (unfold room_for, got; rewrite <- Ek in Dk |- *; rewrite (found_S _ s Hs), take_app, <- Dk; rewrite (take_ge (rd_dst r)) by lia; done).
    destruct (ask_all_spec got (rd_seed r) (length (rd_dst r)) (ro_seed _ _ _ A)) as (_ & _ & Q). destruct (ask_all _ _ got) as [s1 es1]. cbn [fst snd] in *. intros K. split; cbn [rd_cache rd_nres rd_dst]; [done|done|left; lia|done|]. intros sa Hin. apply in_app_iff in Hin as [Hin|Hin].
    + destruct (E sa Hin) as [req Hr]. exists req. apply in_app_iff. by left.
    + destruct (asked_in (rd_seed r) (length (rd_dst r)) got sa Hin) as [req Hr]. exists req. apply in_app_iff. right. by rewrite Q.
  - intros _. cbn [fst snd]. rewrite app_nil_r. apply progress_stays; [done|]. right. pose proof (ro_few _ _ _ A). lia.
  - intros _. cbn [fst snd]. rewrite app_nil_r. apply progress_stays; [done|]. by left.
Qed.
Lemma progress_more k r r' es es' : progress k r es -> round_ok servers seed r' -> same_sets (rd_cache r') -> rd_nres r' = rd_nres r -> rd_dst r' = rd_dst r -> progress k r' (es ++ es').
Proof.
  intros [A B C D E] K S N Q. split; [done|done|by rewrite N, Q|congruence|]. intros sa Hin. rewrite Q in Hin. destruct (E sa Hin) as [req Hr]. exists req. apply in_app_iff. by left.
Qed.
Lemma progress_turn k r es p : only_marks p -> progress k r es -> let d := round_turn family servers r p in progress (S k) d.1 (es ++ d.2).
Proof.
  intros Hm P. unfold round_turn. set (r0 := mk_round _ _ _ _ _). assert (P0 : progress k r0 es). { destruct P as [A B C D E]. split; try done; [by destruct A; split|]. intros s max. unfold r0. cbn [rd_cache]. rewrite marks_get by done. apply B. }
  pose proof (progress_take k r0 es (ps_now p) (ps_later p) P0) as P1. destruct (round_take _ _ _ _ _) as [[r1 es1] now]. cbn [fst snd] in *. pose proof (resend_ok servers seed Hseed r1 now (pg_ok _ _ _ P1)) as (K2 & D2 & _).
  assert (C2 : rd_cache (round_resend r1 now).1 = rd_cache r1 /\ rd_nres (round_resend r1 now).1 = rd_nres r1) by (unfold round_resend; destruct (_ <=? _); [destruct (ask_all _ _ _)|]; done). destruct (round_resend r1 now) as [r2 es2]. cbn [fst snd] in *.
  pose proof (recv_ok family servers seed r2 (ps_pkt p) K2) as (K3 & D3 & _). assert (C3 : same_sets (rd_cache r2) -> same_sets (rd_cache (round_recv family r2 (ps_pkt p)).1)). { intros Hs. unfold round_recv. destruct (ps_pkt p) as [pkt|]; [|done]. destruct (stun_probe_mapped_fam _ _ _) as [[[addr port]|]|]; try done. cbn [fst rd_cache]. destruct (rd_dst r2 !! _) as [sa|]; [|done]. intros s max. rewrite mark_get. apply Hs. }
  assert (N3 : rd_nres (round_recv family r2 (ps_pkt p)).1 = rd_nres r2) by (unfold round_recv; destruct (ps_pkt p) as [pkt|]; [|done]; by destruct (stun_probe_mapped_fam _ _ _) as [[[addr port]|]|]). destruct (round_recv family r2 (ps_pkt p)) as [r3 es3]. cbn [fst snd] in *.
  destruct C2 as [C2 N2]. rewrite app_assoc. apply (progress_more (S k) r1); [done|done|apply C3; rewrite C2; apply P1|congruence|congruence].
Qed.
Lemma progress_loop t0 total l : Forall (fun p => only_marks p /\ ps_stop p = false /\ u64 (ps_t p - t0) < total) l -> forall k r es, progress k r es -> let d := round_loop family servers t0 total r l in progress (k + length l) d.1.1 (es ++ d.1.2).
Proof.
  intros H. induction H as [|p l (Hm & Hs & Ht) _ IH]; intros k r es P; cbn [round_loop]; [cbn; by rewrite app_nil_r, Nat.add_0_r|]. rewrite Hs. destruct (Z.ltb_spec (u64 (ps_t p - t0)) total); [|lia]. cbn [orb negb]. pose proof (progress_turn k r es p Hm P) as P1. destruct (round_turn _ _ r p) as [r1 es1]. cbn [fst snd] in *. specialize (IH (S k) r1 (es ++ es1) P1). destruct (round_loop _ _ t0 total r1 l) as [[r2 es2] b]. cbn [fst snd length] in *. rewrite app_assoc. by replace (k + S (length l))%nat with (S k + length l)%nat by lia.
Qed.
End Complete.
(** C23: a round asks every address it has room for: with as many turns of its loop, in its time and not told
    to stop, as there are servers, and no name resolved anew meanwhile (other threads may mark addresses as
    heard), the targets are the cached addresses of all the servers, in the order of the list, cut off only
    where the table of eight for each server and 255 in all is full, and each of the targets has been sent
    a request; so where the table is not filled every cached address is asked. *)
Theorem every_address_is_asked family servers c t0 total seed l : length seed = 12%nat -> cache_ok c -> (0 < length servers)%nat ->
  (length servers <= length l)%nat -> Forall (fun p => only_marks p /\ ps_stop p = false /\ u64 (ps_t p - t0) < total) l ->
  let '(r, es, _) := stun_probe_run family servers c true t0 total seed l in
  rd_dst r = take (Nat.min (length servers * 8) 255) (found family servers c (length servers)) /\ forall sa, In sa (rd_dst r) -> exists req, In (Sent sa req) es.
Proof.
  intros Hs Hc Hn Hl H. unfold stun_probe_run. destruct (Nat.ltb_spec (length servers) 1); [lia|]. cbn [negb orb]. assert (P0 : progress family servers seed c 0 (mk_round c 0 [] 0 seed) []) by (split; cbn; [by apply start_ok|done|by left|symmetry; apply take_nil|done]).
  pose proof (progress_loop family servers seed c Hs Hc t0 total l H 0 _ _ P0) as P. destruct (round_loop _ _ t0 total _ l) as [[r es] b]. cbn [fst snd app] in P. destruct P as [_ _ _ D E]. split; [|done]. rewrite D. unfold room_for. by rewrite (all_found family servers seed c Hs (0 + length l)%nat) by lia.
Qed.

(** ** A full table *)

(** A round whose table of targets fills before its names run out spins.  The names left over are never
    taken, so the loop goes on polling without waiting for the rest of its three seconds, as it does
    to get through the names quickly. *)
Theorem full_round_spins family servers t0 total l r : length (rd_dst r) = round_max servers -> (rd_nres r < length servers)%nat ->
  forall timeout, In (Polled timeout) (round_loop family servers t0 total r l).1.2 -> timeout = 0.
Proof.
  revert r. induction l as [|p l IH]; intros r Hd Hn timeout; cbn [round_loop]; [done|]. destruct (_ || _); [done|]. unfold round_turn, round_take. cbn [rd_nres rd_dst]. rewrite Hd, Nat.ltb_irrefl, andb_false_r. set (r0 := mk_round _ _ _ _ _).
  assert (A : forall seed i d e, In e (ask_all seed i d).2 -> e <> Polled timeout). { clear. intros seed i d. revert seed i. induction d as [|sa d IHd]; intros seed i e; cbn [ask_all probe_ask]; [done|]. destruct (ask_all (seed_for seed i) (S i) d) as [s es] eqn:Ea. cbn [snd]. intros [<-|He]; [done|]. apply (IHd (seed_for seed i) (S i)). by rewrite Ea. }
  assert (R : rd_dst (round_resend r0 (ps_now p)).1 = rd_dst r /\ rd_nres (round_resend r0 (ps_now p)).1 = rd_nres r /\ ~ In (Polled timeout) (round_resend r0 (ps_now p)).2).
  { unfold round_resend. destruct (_ <=? _); [|split; [done|split; [done|exact id]]]. pose proof (A (rd_seed r0) 0%nat (rd_dst r0)) as Q. destruct (ask_all _ _ _) as [s es]. cbn [fst snd] in *. split; [done|]. split; [done|]. intros He. by apply (Q _ He). }
  destruct (round_resend r0 (ps_now p)) as [r1 es1]. cbn [fst snd] in R. destruct R as (D1 & N1 & F1). assert (V : rd_dst (round_recv family r1 (ps_pkt p)).1 = rd_dst r /\ rd_nres (round_recv family r1 (ps_pkt p)).1 = rd_nres r /\ ~ In (Polled timeout) (round_recv family r1 (ps_pkt p)).2).
  { unfold round_recv. destruct (ps_pkt p) as [pkt|]; [|split; [done|split; [done|exact id]]]. destruct (stun_probe_mapped_fam _ _ _) as [[[addr port]|]|]; (split; [done|split; [done|]]); cbn; [intros [?|[]]; done|exact id|exact id]. }
  destruct (round_recv family r1 (ps_pkt p)) as [r2 es2]. cbn [fst snd] in V. destruct V as (D2 & N2 & F2). specialize (IH r2). rewrite D2, N2 in IH. specialize (IH Hd Hn timeout). destruct (round_loop _ _ t0 total r2 l) as [[r3 es3] b]. cbn [fst snd app] in *. rewrite !in_app_iff. cbn [In]. unfold round_timeout. rewrite N1. destruct (Nat.ltb_spec (rd_nres r) (length servers)); [|lia].
  intros [[He|[He|He]]|He]; [done|congruence|done|by apply IH].
Qed.

(** ** One server, two answers *)
Lemma hits_app a b : hits (a ++ b) = hits a ++ hits b.
Proof. apply omap_app. Qed.
Lemma hits_asked s0 i l : hits (imap (fun k sa => request s0 (i + k) sa) l) = [].
Proof. revert i. induction l as [|sa l IH]; intros i; [done|]. cbn. rewrite <- (IH (S i)). unfold hits. f_equal. apply imap_ext. intros k x _. cbn. unfold request. by replace (i + S k)%nat with (S i + k)%nat by lia. Qed.
Lemma sample_counts p addr port epoch : po_epoch p <= epoch -> let q := peering_pool_sample p addr port epoch in po_epoch q = epoch /\ po_map4 q = stun_mapping_add (if po_epoch p =? epoch then po_map4 p else stun_mapping_reset) addr port.
Proof.
  intros H. unfold peering_pool_sample, pool_epoch_ok. rewrite (Z.eqb_sym epoch). destruct (Z.eqb_spec (po_epoch p) epoch) as [E|E]; [done|]. destruct (Z.ltb_spec epoch (po_epoch p)); [lia|done].
Qed.
Lemma note_keeps p addr epoch : po_epoch p <= epoch -> let q := (peering_pool_note p addr epoch).1 in po_epoch q <= epoch /\ (if po_epoch q =? epoch then po_map4 q else stun_mapping_reset) = (if po_epoch p =? epoch then po_map4 p else stun_mapping_reset).
Proof.
  intros H. unfold peering_pool_note, pool_epoch_ok. destruct (bytes_eqb addr zero4); [done|]. rewrite (Z.eqb_sym epoch). destruct (Z.eqb_spec (po_epoch p) epoch) as [E|E]; cbn [negb].
  - destruct (existsb _ _); [|destruct (_ <? _)%nat]; cbn [fst po_epoch po_map4 set set_po_v4]; rewrite E, Z.eqb_refl; (split; [lia|done]).
  - destruct (Z.ltb_spec epoch (po_epoch p)); [lia|]. cbn [negb]. destruct (existsb _ _); [|destruct (_ <? _)%nat]; cbn; rewrite Z.eqb_refl; (split; [lia|done]).
Qed.
Lemma hit_counts m epoch addr port : po_epoch (pn_pool m) <= epoch -> let q := pn_pool (probe_hit m epoch 4 addr port) in
  po_epoch q = epoch /\ po_map4 q = stun_mapping_add (if po_epoch (pn_pool m) =? epoch then po_map4 (pn_pool m) else stun_mapping_reset) (take 4 addr) port.
Proof.
  intros H. unfold probe_hit. change (4 =? 6) with false. cbv iota zeta. set (m1 := peering_facts_post m _ _ _). pose proof (note_keeps (pn_pool m1) (take 4 addr) epoch H) as [N1 N2]. destruct (peering_pool_note (pn_pool m1) (take 4 addr) epoch) as [p added]. cbn [fst] in *. set (m2 := m1 <| pn_pool := p |>).
  assert (pn_pool (if truth added && negb (pn_have_srflx4 m2) then m2 <| pn_rotations := 0 |> else m2) = p) as -> by (by destruct (_ && _)). pose proof (sample_counts p (take 4 addr) port epoch N1) as [S1 S2]. cbn [pn_pool set set_pn_pool]. split; [exact S1|]. rewrite N2 in S2. exact S2.
Qed.
Lemma two_hits m addr port : po_epoch (pn_pool m) <= pb_epoch (probe_of m 4) -> peering_pool_mapping (pn_pool (probe_round m 4 [(addr, port); (addr, port)])) = STUN_MAPPING_INDEPENDENT.
Proof.
  intros H. unfold probe_round, probe_begin. change (4 =? 6) with false. cbv iota zeta. cbn [fold_left fst snd]. set (epoch := pb_epoch (probe_of m 4)) in *. set (m1 := m <| pn_pool := _ |>). pose proof (hit_counts m1 epoch addr port H) as [E1 M1]. set (m2 := probe_hit m1 epoch 4 addr port) in *. assert (H2 : po_epoch (pn_pool m2) <= epoch) by lia. pose proof (hit_counts m2 epoch addr port H2) as [E2 M2]. rewrite E1, Z.eqb_refl, M1 in M2.
  assert ((if po_epoch (pn_pool m1) =? epoch then po_map4 (pn_pool m1) else stun_mapping_reset) = stun_mapping_reset) as R by (by destruct (_ =? _)). rewrite R in M2. unfold peering_pool_mapping, probe_end. change (po_map4 (pn_pool (peering_facts_post ?x _ _ _))) with (po_map4 (pn_pool x)). rewrite M2. unfold stun_mapping_result, stun_mapping_add. cbn. unfold bytes_eqb. by rewrite bool_decide_true, Z.eqb_refl by done.
Qed.
Lemma hits_ask_all l : forall seed i, hits (ask_all seed i l).2 = [].
Proof. induction l as [|sa l IH]; intros seed i; cbn [ask_all probe_ask]; [done|]. specialize (IH (seed_for seed i) (S i)). destruct (ask_all _ _ l) as [s es]. exact IH. Qed.
(** The plain reply to the request of target [i]. *)
Definition answer (family : Z) (seed : bytes) (i : nat) (addr : bytes) (port : Z) : bytes :=
  let txid := drop 8 (stun_probe_build (seed_for seed i)) in reply txid (attr STUN_ATTR_XOR_MAPPED (xor_value (want_fam family) txid addr port)).
Lemma answer_short family seed i addr port : length seed = 12%nat -> length addr = (if (family =? 6)%Z then 16 else 4)%nat -> (length (answer family seed i addr port) <= 64)%nat.
Proof.
  intros Hs Ha. unfold answer. set (txid := drop 8 _). assert (Lt : length txid = 12%nat) by (unfold txid, stun_probe_build; rewrite length_drop, !length_app, magic_length, length_take, seed_for_length by done; cbn; lia). unfold reply. rewrite !length_app, !be_put_length, magic_length, attr_length. assert (length (xor_value (want_fam family) txid addr port) = (4 + length addr)%nat) as ->.
  { unfold xor_value. rewrite !length_app, be_put_length. unfold xor_bytes. rewrite length_zip_with, length_take, length_app, magic_length, Lt. destruct (family =? 6); cbn [length]; lia. }
  rewrite Lt, Ha. destruct (family =? 6); cbn; lia.
Qed.
Lemma turn_answered family servers seed r p i sa addr port : length seed = 12%nat -> round_ok servers seed r -> rd_dst (round_turn family servers r p).1 !! i = Some sa -> length addr = (if (family =? 6)%Z then 16 else 4)%nat -> is_u16 port ->
  ps_pkt p = Some (answer family seed i addr port) -> hits (round_turn family servers r p).2 = [(addr, port)].
Proof.
  intros Hs H Hi Ha Hp Hk. pose proof (answer_short family seed i addr port Hs Ha) as Hl. revert Hi. unfold round_turn. set (r0 := mk_round _ _ _ _ _). assert (H0 : round_ok servers seed r0) by (destruct H; by split). pose proof (take_ok family servers seed Hs r0 (ps_now p) (ps_later p) H0) as (K1 & _).
  assert (F1 : hits (round_take family servers r0 (ps_now p) (ps_later p)).1.2 = []) by (unfold round_take; destruct (_ && _); [|done]; set (g := cache_get_all _ _ _ _); pose proof (hits_ask_all g (rd_seed r0) (length (rd_dst r0))); by destruct (ask_all _ _ g)).
  destruct (round_take _ _ _ _ _) as [[r1 es1] now]. cbn [fst snd] in *. pose proof (resend_ok servers seed Hs r1 now K1) as (K2 & D2 & _). assert (F2 : hits (round_resend r1 now).2 = []) by (unfold round_resend; destruct (_ <=? _); [|done]; pose proof (hits_ask_all (rd_dst r1) (rd_seed r1) 0); by destruct (ask_all _ _ _)). destruct (round_resend r1 now) as [r2 es2]. cbn [fst snd] in *.
  pose proof (recv_ok family servers seed r2 (ps_pkt p) K2) as (_ & D3 & _). rewrite Hk in *. pose proof (answer_read family servers r2 seed i sa addr port [] [] K2 Hs) as R. cbv zeta in R. change (attrs_text []) with (@nil Z) in R. cbn [app] in R. rewrite app_nil_r in R. fold (answer family seed i addr port) in R.
  destruct (round_recv family r2 (Some (answer family seed i addr port))) as [r3 es3]. cbn [fst snd] in *. intros Hi. rewrite D3 in Hi. specialize (R Hi Ha Hp (Forall_nil_2 _)).
  assert (E : es3 = [Hit addr port]) by (unfold PROBE_BUF in R; assert (E' := R ltac:(lia)); congruence). rewrite !hits_app, F1, F2. by rewrite E.
Qed.
(** C26: one server makes the verdict about all of them.  Every answer counts as a sample, and a server is asked
    again each second, the first one twice at once; so a server that is the only one asked and
    answers twice settles that every server sees the same mapping, when nothing was compared and
    the NAT may map each destination on its own. *)
Theorem one_server_settles_mapping m c now seed t0 s sa addr port p1 p2 : length seed = 12%nat -> pn_servers m = [s] -> cache_get_all c s 4 8 = [sa] -> length addr = 4%nat -> is_u16 port -> po_epoch (pn_pool m) <= pb_epoch (probe_of m 4) ->
  Forall (fun p => ps_others p = [] /\ ps_stop p = false /\ u64 (ps_t p - t0) < 3000 /\ ps_pkt p = Some (answer 4 seed 0 addr port)) [p1; p2] ->
  rd_dst (stun_probe_run 4 [s] c true t0 3000 seed [p1; p2]).1.1 = [sa] /\
  peering_pool_mapping (pn_pool (net_round m c now 4 true t0 seed [p1; p2]).1) = STUN_MAPPING_INDEPENDENT.
Proof.
  intros Hs Hm Hg Ha Hp He Hps. rewrite !Forall_cons in Hps. destruct Hps as ((O1 & S1 & T1 & K1) & (O2 & S2 & T2 & K2) & _). unfold net_round, PEERING_PROBE_MS. change (4 =? 6) with false. cbv iota zeta. rewrite Hm. unfold stun_probe_run. cbn [length Nat.ltb Nat.leb orb negb]. cbn [round_loop]. rewrite S1, S2. destruct (Z.ltb_spec (u64 (ps_t p1 - t0)) 3000); [|lia]. destruct (Z.ltb_spec (u64 (ps_t p2 - t0)) 3000); [|lia]. cbn [orb negb].
  set (r0 := mk_round c 0 [] 0 seed). assert (R0 : round_ok [s] seed r0) by (by apply start_ok).
  assert (D : forall r p, ps_others p = [] -> rd_dst (round_turn 4 [s] r p).1 = rd_dst (round_take 4 [s] r (ps_now p) (ps_later p)).1.1 /\ (round_ok [s] seed r -> rd_nres (round_turn 4 [s] r p).1 = rd_nres (round_take 4 [s] r (ps_now p) (ps_later p)).1.1)).
  { intros r p Ho. unfold round_turn. rewrite Ho. cbn [fold_left]. destruct r as [c1 n1 d1 x1 s1]. cbn [rd_cache rd_nres rd_dst rd_next_send rd_seed]. destruct (round_take _ _ _ _ _) as [[r1 es1] t1]. cbn [fst]. unfold round_resend. assert (V : forall q, rd_dst (round_recv 4 q (ps_pkt p)).1 = rd_dst q /\ rd_nres (round_recv 4 q (ps_pkt p)).1 = rd_nres q) by (intros q; unfold round_recv; destruct (ps_pkt p); [|done]; by destruct (stun_probe_mapped_fam _ _ _) as [[[? ?]|]|]).
    destruct (_ <=? t1); [destruct (ask_all _ _ _) as [s2 es2]; set (q := mk_round _ _ _ _ _)|set (q := r1)]; specialize (V q); destruct (round_recv 4 q (ps_pkt p)) as [r3 es3]; cbn [fst] in *; destruct V as [-> ->]; done. }
  destruct (D r0 p1 O1) as [D1 N1]. specialize (N1 R0). assert (E1 : rd_dst (round_turn 4 [s] r0 p1).1 = [sa] /\ rd_nres (round_turn 4 [s] r0 p1).1 = 1%nat). { rewrite D1, N1. unfold round_take. cbn [rd_nres rd_dst rd_cache r0 length nth]. change (round_max [s]) with 8%nat. cbn [Nat.ltb Nat.leb andb Nat.sub]. rewrite Hg. done. }
  destruct E1 as [E1 M1]. pose proof (turn_answered 4 [s] seed r0 p1 0 sa addr port Hs R0 ltac:(by rewrite E1) Ha Hp K1) as H1. pose proof (turn_ok 4 [s] seed Hs r0 p1 R0) as (R1 & _). destruct (round_turn 4 [s] r0 p1) as [r1 es1]. cbn [fst snd] in *.
  destruct (D r1 p2 O2) as [D2 _]. assert (E2 : rd_dst (round_turn 4 [s] r1 p2).1 = [sa]). { rewrite D2. unfold round_take. rewrite M1. cbn [length Nat.ltb Nat.leb andb fst]. done. }
  pose proof (turn_answered 4 [s] seed r1 p2 0 sa addr port Hs R1 ltac:(by rewrite E2) Ha Hp K2) as H2. destruct (round_turn 4 [s] r1 p2) as [r2 es2]. cbn [fst snd app] in *. split; [done|]. rewrite app_nil_r, hits_app, H1, H2. by apply two_hits.
Qed.

(** ** Rounds *)
Definition demo_cache : stun_cache := fold_left cache_do [OReplace host_a [ip 1; ip 2]; OReplace host_b [ip 3]] stun_cache_zero.
Definition demo_seed : bytes := replicate 12 7.
Definition quiet (t : Z) : round_pass := mk_pass [] false t t t None.
(** Two names, three addresses, each asked; the first ones twice at once. *)
Example demo_targets : rd_dst (stun_probe_run 4 [host_a; host_b] demo_cache true 0 3000 demo_seed [quiet 5; quiet 5]).1.1 = [ip 1; ip 2; ip 3] /\
  omap (fun e => match e with Sent sa _ => Some sa | _ => None end) (stun_probe_run 4 [host_a; host_b] demo_cache true 0 3000 demo_seed [quiet 5; quiet 5]).1.2 = [ip 1; ip 2; ip 1; ip 2; ip 3].
Proof. split; vm_compute; reflexivity. Qed.
Lemma targets_are_named_witness : let '(r, es, _) := stun_probe_run 4 [host_a; host_b] demo_cache true 0 3000 demo_seed [quiet 5; quiet 5] in
  (length (rd_dst r) <= 255)%nat /\ forall sa req, In (Sent sa req) es -> exists i, (i < 255)%nat /\ rd_dst r !! i = Some sa /\ req = stun_probe_build (take 11 demo_seed ++ [Z.of_nat i]).
Proof. exact (targets_are_named 4 [host_a; host_b] demo_cache true 0 3000 demo_seed [quiet 5; quiet 5] eq_refl). Defined.
Definition demo_round : round := mk_round demo_cache 2 [ip 1; ip 2; ip 3] 1005 demo_seed.
Lemma answer_marks_its_server_witness :
  round_recv 4 demo_round (Some (reply (drop 8 (stun_probe_build (seed_for demo_seed 1))) (attrs_text [] ++ attr STUN_ATTR_XOR_MAPPED (xor_value (want_fam 4) (drop 8 (stun_probe_build (seed_for demo_seed 1))) [198; 51; 100; 7] 40000) ++ []))) =
  (mk_round (cache_mark_answered demo_cache (ip 2)) 2 [ip 1; ip 2; ip 3] 1005 demo_seed, [Hit [198; 51; 100; 7] 40000]).
Proof.
  apply (answer_marks_its_server 4 [host_a; host_b] demo_round demo_seed 1 (ip 2) [198; 51; 100; 7] 40000 [] []); [split; cbn; lia || reflexivity|reflexivity|reflexivity|reflexivity|split; lia|constructor|vm_compute; lia].
Defined.
(** A name with sixteen addresses leaves no room for the second. *)
Definition crowd : list sockaddr := map (fun n => ip (Z.of_nat n)) (seq 1 16).
Definition crowded : round := (stun_probe_run 4 [host_a; host_b] (cache_replace demo_cache host_a crowd) true 0 3000 demo_seed [quiet 5]).1.1.
Lemma every_address_is_asked_witness :
  (let '(r, es, _) := stun_probe_run 4 [host_a; host_b] demo_cache true 0 3000 demo_seed [quiet 5; quiet 5] in
   rd_dst r = take 16 (found 4 [host_a; host_b] demo_cache 2) /\ forall sa, In sa (rd_dst r) -> exists req, In (Sent sa req) es) /\
  (let '(r, es, _) := stun_probe_run 4 [host_a; host_b] (cache_replace demo_cache host_a crowd) true 0 3000 demo_seed [quiet 5; quiet 5] in
   rd_dst r = take 16 (found 4 [host_a; host_b] (cache_replace demo_cache host_a crowd) 2) /\ forall sa, In sa (rd_dst r) -> exists req, In (Sent sa req) es).
Proof.
  assert (Q : Forall (fun p => only_marks p /\ ps_stop p = false /\ u64 (ps_t p - 0) < 3000) [quiet 5; quiet 5])
    by (repeat (constructor; [split; [constructor|split; [reflexivity|vm_compute; reflexivity]]|]); constructor).
  split; apply every_address_is_asked; try exact Q; try reflexivity; try (cbn; lia).
  - apply (cache_run_ok [OReplace host_a [ip 1; ip 2]; OReplace host_b [ip 3]]); repeat constructor.
  - apply (cache_run_ok [OReplace host_a [ip 1; ip 2]; OReplace host_b [ip 3]; OReplace host_a crowd]); repeat constructor.
Defined.
Lemma full_round_spins_witness : forall timeout, In (Polled timeout) (round_loop 4 [host_a; host_b] 0 3000 crowded [quiet 6; quiet 7; quiet 1500]).1.2 -> timeout = 0.
Proof. apply (full_round_spins 4 [host_a; host_b] 0 3000 [quiet 6; quiet 7; quiet 1500] crowded); [vm_compute; reflexivity|vm_compute; lia]. Defined.
Example crowd_spins : omap (fun e => match e with Polled t => Some t | _ => None end) (round_loop 4 [host_a; host_b] 0 3000 crowded [quiet 6; quiet 7; quiet 1500]).1.2 = [0; 0; 0].
Proof. vm_compute. reflexivity. Qed.
Definition lone_net : peering_net := peering_net_init [host_b] true.
Definition heard_at (t : Z) : round_pass := mk_pass [] false t t t (Some (answer 4 demo_seed 0 [198; 51; 100; 7] 40000)).
Lemma one_server_settles_mapping_witness :
  rd_dst (stun_probe_run 4 [host_b] demo_cache true 0 3000 demo_seed [heard_at 5; heard_at 6]).1.1 = [ip 3] /\
  peering_pool_mapping (pn_pool (net_round lone_net demo_cache 0 4 true 0 demo_seed [heard_at 5; heard_at 6]).1) = STUN_MAPPING_INDEPENDENT.
Proof.
  apply (one_server_settles_mapping lone_net demo_cache 0 demo_seed 0 host_b (ip 3) [198; 51; 100; 7] 40000 (heard_at 5) (heard_at 6)); [reflexivity|reflexivity|vm_compute; reflexivity|reflexivity|split; lia|vm_compute; discriminate|].
  repeat (constructor; [split; [reflexivity|split; [reflexivity|split; [vm_compute; reflexivity|reflexivity]]]|]). constructor.
Defined.
