(* ===== verification/StunLive.v ===== *)
(** src/src/stunprobe.c, as the program runs it: lookups of the warming thread that end in any order with any
    result, and probe rounds of either family, each turn of each of them between any two others, all
    on the one cache.  An address the cache calls live was heard: a round sent it a request, and a
    valid answer under that request's number came back.  The other way into the cache,
    [stun_server_ip4] with lookups allowed, is called by nothing in the program; [put_inherits_mark] of
    StunCacheOk shows what it would do. *)
From S2P Require Import Prelude Net StunProbe StunCache StunCacheOk StunRound StunRoundOk.

(** ** Rounds on one cache *)

(** A round under way: its arguments, its locals (the cache among them is the shared one, not this
    copy) and what it has sent. *)
Record prober := mk_prober { pv_family : Z; pv_servers : list bytes; pv_seed : bytes; pv_rd : round; pv_log : list round_event }.
Record stun_pool := mk_pool { pl_cache : stun_cache; pl_probers : list prober }.
Inductive stun_act :=
| AWarm (getaddrinfo : bytes -> bytes -> Z -> gai) (now : Z) (server : bytes)
| ABegin (family : Z) (servers : list bytes) (seed : bytes)
| ATurn (i : nat) (p : round_pass).
Definition on_cache (r : round) (c : stun_cache) : round := mk_round c (rd_nres r) (rd_dst r) (rd_next_send r) (rd_seed r).
(** The pass, the other threads being steps of their own. *)
Definition alone (p : round_pass) : round_pass := mk_pass [] (ps_stop p) (ps_t p) (ps_now p) (ps_later p) (ps_pkt p).
Definition prober_turn (c : stun_cache) (b : prober) (p : round_pass) : prober :=
  let '(r, es) := round_turn (pv_family b) (pv_servers b) (on_cache (pv_rd b) c) (alone p) in
  mk_prober (pv_family b) (pv_servers b) (pv_seed b) r (pv_log b ++ es).
Definition stun_do (w : stun_pool) (a : stun_act) : stun_pool :=
  match a with
  | AWarm dns now server => mk_pool (warm_pass dns (pl_cache w) now [server]) (pl_probers w)
  | ABegin family servers seed => mk_pool (pl_cache w) (pl_probers w ++ [mk_prober family servers seed (mk_round (pl_cache w) 0 [] 0 seed) []])
  | ATurn i p =>
      match pl_probers w !! i with
      | Some b => let b' := prober_turn (pl_cache w) b p in mk_pool (rd_cache (pv_rd b')) (<[i := b']> (pl_probers w))
      | None => w
      end
  end.
Definition stun_run (acts : list stun_act) : stun_pool := fold_left stun_do acts (mk_pool stun_cache_zero []).

(** In this turn of round [i] the socket gave a packet that the round takes for an answer to the
    request it had sent to [sa]: a success reply to its seed, with a mapped address of its family in
    it, and with the number of that request in its transaction id. *)
Definition answers_in (w : stun_pool) (i : nat) (p : round_pass) (sa : sockaddr) : Prop :=
  exists b pkt t addr port, pl_probers w !! i = Some b /\ ps_pkt p = Some pkt /\
    In (Sent sa (stun_probe_build (seed_for (pv_seed b) t))) (pv_log (prober_turn (pl_cache w) b p)) /\
    stun_probe_mapped_fam (take PROBE_BUF pkt) (seed_for (pv_seed b) t) (want_fam (pv_family b)) = Some (Some (addr, port)) /\
    Z.to_nat (nth 19 (take PROBE_BUF pkt) 0) = t.
Definition heard_in (acts : list stun_act) (sa : sockaddr) : Prop :=
  exists pre i p post, acts = pre ++ ATurn i p :: post /\ answers_in (stun_run pre) i p sa.

(** ** What a turn does to the cache, and what it has sent *)
Lemma mapped_seed pkt s1 s2 f : take 11 s1 = take 11 s2 -> stun_probe_mapped_fam pkt s1 f = stun_probe_mapped_fam pkt s2 f.
Proof. intros H. unfold stun_probe_mapped_fam, stun_reply_ok. change (STUN_PROBE_TXID_LEN - 1)%nat with 11%nat. by rewrite H. Qed.
Section Turn.
Context (family : Z) (servers : list bytes) (seed : bytes).
Context (Hseed : length seed = 12%nat).
Lemma take_sends r now later : round_ok servers seed r -> let d := round_take family servers r now later in
  rd_cache d.1.1 = rd_cache r /\ forall k sa, rd_dst d.1.1 !! k = Some sa -> rd_dst r !! k = Some sa \/ In (request seed k sa) d.1.2.
Proof.
  intros [A B _ _]. unfold round_take. destruct (_ && _); [|split; [done|by left]]. set (got := cache_get_all _ _ _ _).
  destruct (ask_all_spec got (rd_seed r) (length (rd_dst r)) A) as (_ & _ & Q). destruct (ask_all _ _ got) as [s es]. cbn [fst snd rd_cache rd_dst] in *. split; [done|].
  intros k sa Hk. destruct (decide (k < length (rd_dst r))%nat) as [Hl|Hl]; [left; by rewrite lookup_app_l in Hk by done|]. right. rewrite lookup_app_r in Hk by lia. rewrite Q. apply list_elem_of_In, (list_elem_of_lookup_2 _ (k - length (rd_dst r))).
  rewrite list_lookup_imap, Hk. cbn. unfold request. replace (length (rd_dst r) + (k - length (rd_dst r)))%nat with k by lia. by rewrite (seed_for_same (rd_seed r) seed).
Qed.
(** A turn marks one address at most, the one an answer names. *)
Lemma turn_marks r p : round_ok servers seed r -> ps_others p = [] -> let d := round_turn family servers r p in
  (forall k sa, rd_dst d.1 !! k = Some sa -> rd_dst r !! k = Some sa \/ In (request seed k sa) d.2) /\
  (rd_cache d.1 = rd_cache r \/
   exists pkt addr port sa, ps_pkt p = Some pkt /\ stun_probe_mapped_fam (take PROBE_BUF pkt) seed (want_fam family) = Some (Some (addr, port)) /\
     rd_dst d.1 !! Z.to_nat (nth 19 (take PROBE_BUF pkt) 0) = Some sa /\ rd_cache d.1 = cache_mark_answered (rd_cache r) sa).
Proof.
  intros H Ho. unfold round_turn. rewrite Ho. cbn [fold_left]. set (r0 := mk_round _ _ _ _ _). assert (H0 : round_ok servers seed r0) by (destruct H; by split).
  pose proof (take_ok family servers seed Hseed r0 (ps_now p) (ps_later p) H0) as (K1 & _). pose proof (take_sends r0 (ps_now p) (ps_later p) H0) as [C1 S1]. destruct (round_take _ _ _ _ _) as [[r1 es1] now]. cbn [fst snd] in *.
  pose proof (resend_ok servers seed Hseed r1 now K1) as (K2 & D2 & _). assert (C2 : rd_cache (round_resend r1 now).1 = rd_cache r1) by (unfold round_resend; destruct (_ <=? _); [by destruct (ask_all _ _ _)|done]). destruct (round_resend r1 now) as [r2 es2]. cbn [fst snd] in *.
  pose proof (recv_ok family servers seed r2 (ps_pkt p) K2) as (_ & D3 & _).
  assert (C3 : rd_cache (round_recv family r2 (ps_pkt p)).1 = rd_cache r2 \/ exists pkt addr port sa, ps_pkt p = Some pkt /\ stun_probe_mapped_fam (take PROBE_BUF pkt) (rd_seed r2) (want_fam family) = Some (Some (addr, port)) /\
    rd_dst r2 !! Z.to_nat (nth 19 (take PROBE_BUF pkt) 0) = Some sa /\ rd_cache (round_recv family r2 (ps_pkt p)).1 = cache_mark_answered (rd_cache r2) sa).
  { unfold round_recv. destruct (ps_pkt p) as [pkt|]; [|by left]. destruct (stun_probe_mapped_fam _ _ _) as [[[addr port]|]|] eqn:Em; try by left. cbn [fst rd_cache]. change (8 + STUN_PROBE_TXID_LEN - 1)%nat with 19%nat.
    destruct (rd_dst r2 !! _) as [sa|] eqn:El; [|by left]. right. exists pkt, addr, port, sa. done. }
  destruct (round_recv family r2 (ps_pkt p)) as [r3 es3]. cbn [fst snd] in *. rewrite D3, D2 in *. rewrite C2, C1 in C3. split.
  - intros k sa Hk. destruct (S1 k sa Hk) as [?|Hin]; [by left|]. right. apply in_app_iff. by left.
  - destruct C3 as [C3|(pkt & addr & port & sa & E1 & E2 & E3 & E4)]; [by left|]. right. exists pkt, addr, port, sa. rewrite (mapped_seed _ (rd_seed r2) seed) in E2 by apply (ro_base _ _ _ K2). done.
Qed.
End Turn.
Lemma warm_ops dns c now server : exists ops, warm_pass dns c now [server] = fold_left cache_do ops c /\ Forall op_ok ops /\ existsb is_put ops = false /\ forall sa, ~ In (OMark sa) ops.
Proof.
  assert (Z0 : exists ops, c = fold_left cache_do ops c /\ Forall op_ok ops /\ existsb is_put ops = false /\ forall sa, ~ In (OMark sa) ops) by (exists []; split_and!; [done|constructor|done|intros sa []]).
  unfold warm_pass. cbn [fold_left]. destruct (_ <=? _)%nat; [done|]. unfold warm_resolve. destruct (split_server server) as [[host port]|]; [|done]. destruct (dns host port 0) as [|res]; [done|].
  destruct (take STUN_WARM_ADDRS _) as [|a set]; [done|]. cbn [fst]. set (l := a :: set).
  exists (OReplace server l :: (if existsb (fun sa => sa_fam sa =? 4) l then [] else [ONeg now server 4]) ++ (if existsb (fun sa => sa_fam sa =? 6) l then [] else [ONeg now server 6])).
  destruct (existsb (fun sa => sa_fam sa =? 4) l), (existsb (fun sa => sa_fam sa =? 6) l); cbn; (split; [done|]); (split; [repeat constructor|]); (split; [done|]); intros sa; naive_solver.
Qed.

(** ** The invariant *)
Definition prober_ok (b : prober) : Prop :=
  length (pv_seed b) = 12%nat /\ round_ok (pv_servers b) (pv_seed b) (pv_rd b) /\
  forall k sa, rd_dst (pv_rd b) !! k = Some sa -> In (request (pv_seed b) k sa) (pv_log b).
Definition act_ok (a : stun_act) : Prop := match a with ABegin _ _ seed => length seed = 12%nat | _ => True end.
Record stun_ok (acts : list stun_act) (w : stun_pool) : Prop := {
  so_cache : cache_ok (pl_cache w); so_live : live_by (heard_in acts) (pl_cache w); so_probers : Forall prober_ok (pl_probers w)
}.
Lemma stun_run_snoc acts a : stun_run (acts ++ [a]) = stun_do (stun_run acts) a.
Proof. unfold stun_run. by rewrite fold_left_app. Qed.
Lemma heard_more acts a sa : heard_in acts sa -> heard_in (acts ++ [a]) sa.
Proof. intros (pre & i & p & post & -> & H). exists pre, i, p, (post ++ [a]). split; [by rewrite <- app_assoc|done]. Qed.
Lemma live_more acts a c : live_by (heard_in acts) c -> live_by (heard_in (acts ++ [a])) c.
Proof. intros H. eapply Forall_impl; [exact H|]. cbn. intros e He Ha. by apply heard_more, He. Qed.
Lemma turn_prober c b p : prober_ok b -> prober_ok (prober_turn c b p).
Proof.
  intros (Hs & Hr & Hl). unfold prober_turn. assert (H0 : round_ok (pv_servers b) (pv_seed b) (on_cache (pv_rd b) c)) by (destruct Hr; by split).
  pose proof (turn_ok (pv_family b) (pv_servers b) (pv_seed b) Hs _ (alone p) H0) as (K & _). pose proof (turn_marks (pv_family b) (pv_servers b) (pv_seed b) Hs _ (alone p) H0 eq_refl) as [S _].
  destruct (round_turn _ _ _ _) as [r es]. cbn [fst snd] in *. split; [done|]. split; [done|]. cbn [pv_rd pv_log pv_seed]. intros k sa Hk. apply in_app_iff. destruct (S k sa Hk) as [H|H]; [left; by apply Hl|by right].
Qed.
Lemma stun_step_ok acts a w : w = stun_run acts -> stun_ok acts w -> act_ok a -> stun_ok (acts ++ [a]) (stun_do w a).
Proof.
  intros Ew [Hc Hl Hp] Ha. destruct a as [dns now server|family servers seed|i p]; cbn [stun_do].
  - destruct (warm_ops dns (pl_cache w) now server) as (ops & E & Ho & Hput & Hm). destruct (live_ops (heard_in (acts ++ [AWarm dns now server])) ops (pl_cache w)) as [L K]; [done|done|intros sa Hin; by destruct (Hm sa)|done|by apply live_more|].
    split; cbn [pl_cache pl_probers]; by rewrite ?E.
  - split; cbn [pl_cache pl_probers]; [done|by apply live_more|]. apply Forall_app. split; [done|]. constructor; [|constructor]. split; [done|]. split; [by apply start_ok|]. intros k sa H. done.
  - destruct (pl_probers w !! i) as [b|] eqn:Eb; [|split; [done|by apply live_more|done]]. rewrite Forall_forall in Hp. assert (Hb : prober_ok b) by (apply Hp; by eapply list_elem_of_lookup_2).
    pose proof (turn_prober (pl_cache w) b p Hb) as (Hs & _ & Hlog). set (b' := prober_turn (pl_cache w) b p) in *.
    assert (M : rd_cache (pv_rd b') = pl_cache w \/ exists sa, heard_in (acts ++ [ATurn i p]) sa /\ rd_cache (pv_rd b') = cache_mark_answered (pl_cache w) sa).
    { destruct Hb as (Hs0 & Hr & _). assert (H0 : round_ok (pv_servers b) (pv_seed b) (on_cache (pv_rd b) (pl_cache w))) by (destruct Hr; by split).
      pose proof (turn_marks (pv_family b) (pv_servers b) (pv_seed b) Hs0 _ (alone p) H0 eq_refl) as [_ T]. assert (Er : pv_rd b' = (round_turn (pv_family b) (pv_servers b) (on_cache (pv_rd b) (pl_cache w)) (alone p)).1) by (unfold b', prober_turn; by destruct (round_turn _ _ _ _)).
      cbv zeta in T. rewrite <- Er in T. destruct T as [T|(pkt & addr & port & sa & E1 & E2 & E3 & E4)]; [by left|]. right. exists sa. split; [|done]. exists acts, i, p, []. split; [done|]. rewrite <- Ew.
      assert (Es : pv_seed b' = pv_seed b) by (unfold b', prober_turn; by destruct (round_turn _ _ _ _)).
      exists b, pkt, (Z.to_nat (nth 19 (take PROBE_BUF pkt) 0)), addr, port. split; [done|]. split; [done|]. split; [fold b'; rewrite <- Es; exact (Hlog _ _ E3)|]. split; [|done].
      rewrite <- E2. apply mapped_seed. by apply seed_for_take. }
    split; cbn [pl_cache pl_probers].
    + destruct M as [-> |(sa & _ & ->)]; [done|]. by apply (cache_do_ok (pl_cache w) (OMark sa)).
    + destruct M as [-> |(sa & Hh & ->)]; [by apply live_more|]. apply (live_do _ (pl_cache w) (OMark sa)); [done|done|by apply live_more|]. intros sa' [= <-]. done.
    + apply Forall_insert; [by apply Forall_forall|by apply turn_prober].
Qed.
Lemma stun_run_ok acts : Forall act_ok acts -> stun_ok acts (stun_run acts).
Proof.
  induction acts as [|a acts IH] using rev_ind; intros H; [split; [apply zero_ok|constructor|constructor]|]. apply Forall_app in H as [H Ha]. apply Forall_cons in Ha as [Ha _]. rewrite stun_run_snoc. apply stun_step_ok; [done|by apply IH|done].
Qed.

(** C24: an address is given out as a live one only when a probe round heard from it: over any run of the
    program's lookups, whatever they return, and of its probe rounds, interleaved turn by turn, the
    address [stun_server_live4] gives for a server is one of that server's, and at one of the turns
    actually taken a round that had sent that address a request received a valid answer to it: a
    success reply with the round's transaction id and a mapped address of its family, whose last id
    byte is the number of that very request. What is outside these runs is cache_put, which the
    program reaches only through stun_server_ip4 with lookups allowed and never calls so. *)
Theorem live_means_heard acts server outn ip : Forall act_ok acts -> stun_server_live4 (pl_cache (stun_run acts)) server outn = Some ip ->
  exists sa pre i p post, acts = pre ++ ATurn i p :: post /\ answers_in (stun_run pre) i p sa /\
    In sa (cache_get_all (pl_cache (stun_run acts)) server 4 STUN_WARM_ADDRS) /\ ip4_text sa outn = Some ip.
Proof.
  intros Ha H. destruct (stun_run_ok acts Ha) as [_ L _]. destruct (live4_from _ _ _ _ _ L H) as (sa & (pre & i & p & post & E & Hh) & Hin & Ht). by exists sa, pre, i, p, post.
Qed.

(** Two names are looked up, a round asks the first, its second address answers, and the name is looked up
    again. *)
Definition two_dns (host port : bytes) (family : Z) : gai := if bytes_eqb host (cstr "stun.a.example") then GaiOk [StunCacheOk.ip 1; StunCacheOk.ip 2] else GaiOk [StunCacheOk.ip 3].
Definition live_acts : list stun_act :=
  [AWarm two_dns 5 host_a; ABegin 4 [host_a] demo_seed; AWarm two_dns 6 host_b; ATurn 0 (quiet 5);
   ATurn 0 (mk_pass [] false 6 6 6 (Some (answer 4 demo_seed 1 [198; 51; 100; 7] 40000))); AWarm two_dns 9 host_a].
Lemma live_means_heard_witness : exists sa pre i p post, live_acts = pre ++ ATurn i p :: post /\ answers_in (stun_run pre) i p sa /\
  In sa (cache_get_all (pl_cache (stun_run live_acts)) host_a 4 STUN_WARM_ADDRS) /\ ip4_text sa 64 = Some (cstr "192.0.2.2").
Proof. apply (live_means_heard live_acts host_a 64 (cstr "192.0.2.2")); [repeat constructor|vm_compute; reflexivity]. Defined.
