(* ===== verification/StunList.v ===== *)
(** src/src/stunlist.c: the pool of STUN servers, from the file in the data folder or the list built in, and the
    update that fetches a new file.  A file is its bytes; what the fetchers leave and whether the
    rename succeeds are arguments; the built-in list, which the build generates, is one too. *)
From S2P Require Import Prelude Net Token ShowFmt.

Definition blank (c : Z) : bool := (c =? 32) || (c =? 9).
Definition has_char (c : Z) (s : bytes) : bool := existsb (Z.eqb c) s.
Definition line_ok (s : bytes) : bool :=
  match s with
  | [] => false
  | c :: _ => negb (c =? 35) && has_char 58 s && has_char 46 s && negb (has_char 32 s) && negb (has_char 9 s) && negb (has_char 60 s)
  end.
(** What [strlen] sees of a buffer. *)
Fixpoint until_nul (s : bytes) : bytes := match s with c :: s => if c =? 0 then [] else c :: until_nul s | [] => [] end.
Fixpoint ltrim (s : bytes) : bytes := match s with c :: r => if blank c then ltrim r else s | [] => [] end.
Fixpoint rtrim (s : bytes) : bytes :=
  match s with
  | [] => []
  | c :: s => match rtrim s with
              | [] => if (c =? 10) || (c =? 13) || blank c then [] else [c]
              | r => c :: r
              end
  end.
Definition LINE_LEN : nat := 256.
(** The loop over the lines; a file is read in pieces of at most 255 bytes, each at least one. *)
Fixpoint parse_lines (fuel : nat) (f : bytes) : list bytes :=
  match fuel, f with
  | S fuel, _ :: _ =>
      let '(line, f) := fgets LINE_LEN f in
      let s := rtrim (ltrim (until_nul line)) in
      if line_ok s then s :: parse_lines fuel f else parse_lines fuel f
  | _, _ => []
  end.
Definition parse_file (f : bytes) : list bytes := parse_lines (length f) f.
Definition stunlist_load (bundle : list bytes) (file : option bytes) : list bytes :=
  match file with
  | Some f => match parse_file f with [] => bundle | l => l end
  | None => bundle
  end.
(** What [run_fetch] leaves in the temporary file: [None] when neither fetcher succeeded. *)
Definition run_fetch (wget curl : option bytes) : option bytes := match wget with Some f => Some f | None => curl end.
(** The list file afterwards, and the number of servers; [None] is the return of -1. *)
Definition stunlist_update (file : option bytes) (wget curl : option bytes) (opened renamed : bool) : option bytes * option nat :=
  match run_fetch wget curl with
  | None => (file, None)
  | Some tmp =>
      match if opened then parse_file tmp else [] with
      | [] => (file, None)
      | l => if renamed then (Some tmp, Some (length l)) else (file, None)
      end
  end.

(** ** Reading what was written *)
Definition entry_ok (s : bytes) : Prop := line_ok s = true /\ (length s < LINE_LEN - 2)%nat /\ Forall (fun c => c <> 0 /\ c <> 10 /\ c <> 13) s.
Lemma fgets_entry s rest : forall n, (length s + 1 < n)%nat -> Forall (fun c => c <> 10) s -> fgets n (s ++ 10 :: rest) = (s ++ [10], rest).
Proof.
  induction s as [|c s IH]; intros n Hn Hf; cbn [app].
  - destruct n as [|[|n]]; cbn in Hn; try lia. done.
  - destruct n as [|[|n]]; cbn [length] in Hn; try lia. inversion Hf as [|? ? Hc Hs]; subst. assert (U : forall m x f, fgets (S (S m)) (x :: f) = if x =? 10 then ([x], f) else let '(l, r) := fgets (S m) f in (x :: l, r)) by reflexivity. rewrite U. destruct (Z.eqb_spec c 10); [done|]. rewrite IH by (done || lia). done.
Qed.
Lemma until_nul_all s : Forall (fun c => c <> 0) s -> until_nul s = s.
Proof. intros H. induction H as [|c s Hc _ IH]; [done|]. cbn. destruct (Z.eqb_spec c 0); [done|]. by rewrite IH. Qed.
Lemma has_char_false c s : has_char c s = false -> Forall (fun x => x <> c) s.
Proof. unfold has_char. induction s as [|x s IH]; [constructor|]. cbn. intros [E H]%orb_false_iff. apply Z.eqb_neq in E. constructor; [congruence|by apply IH]. Qed.
Lemma entry_plain s : entry_ok s -> Forall (fun c => c <> 0 /\ c <> 10 /\ c <> 13 /\ blank c = false) s /\ s <> [].
Proof.
  intros (Ho & _ & Hf). destruct s as [|c s]; [done|]. split; [|done]. unfold line_ok in Ho. repeat (apply andb_true_iff in Ho as [Ho ?]). repeat match goal with H : negb _ = true |- _ => apply negb_true_iff in H end.
  assert (A : Forall (fun x => x <> 32) (c :: s)) by (by apply has_char_false). assert (B : Forall (fun x => x <> 9) (c :: s)) by (by apply has_char_false). rewrite !Forall_forall in *. intros x Hx. specialize (Hf x Hx). specialize (A x Hx). specialize (B x Hx). unfold blank. lia.
Qed.
Lemma rtrim_tail s t : Forall (fun c => (c =? 10) || (c =? 13) || blank c = true) t -> Forall (fun c => (c =? 10) || (c =? 13) || blank c = false) s -> rtrim (s ++ t) = s.
Proof.
  intros Ht Hs. assert (T : rtrim t = []) by (induction Ht as [|c t Hc _ IH]; [done|]; cbn; by rewrite IH, Hc). induction Hs as [|c s Hc _ IH]; [done|]. cbn. rewrite IH. destruct s; [by rewrite Hc|done].
Qed.
Lemma line_read s tail : entry_ok s -> tail = [10] \/ tail = [13; 10] -> rtrim (ltrim (until_nul (s ++ tail))) = s.
Proof.
  intros H Ht. destruct (entry_plain s H) as [P Hne]. rewrite until_nul_all; [|apply Forall_app; split; [eapply Forall_impl; [exact P|]; cbn; tauto|destruct Ht as [Ht|Ht]; rewrite Ht; repeat constructor; lia]].
  assert (L : ltrim (s ++ tail) = s ++ tail) by (destruct s as [|c s]; [done|]; inversion P as [|? ? (_ & _ & _ & Hb) _]; subst; cbn; by rewrite Hb). rewrite L. apply rtrim_tail; [destruct Ht as [Ht|Ht]; rewrite Ht; repeat constructor|]. eapply Forall_impl; [exact P|]. cbn. intros c (H0 & H1 & H2 & ->). lia.
Qed.
Definition list_text (crlf : bool) (l : list bytes) : bytes := concat (map (fun s => s ++ (if crlf then [13; 10] else [10])) l).
Lemma parse_text crlf l : Forall entry_ok l -> forall fuel, (length (list_text crlf l) <= fuel)%nat -> parse_lines fuel (list_text crlf l) = l.
Proof.
  intros H. induction H as [|s l Hs _ IH]; intros fuel Hl; [by destruct fuel|]. change (list_text crlf (s :: l)) with ((s ++ (if crlf then [13; 10] else [10])) ++ list_text crlf l) in *. pose proof (entry_plain s Hs) as [P Hne]. destruct Hs as (Ho & Hlen & Hf) eqn:Eh. clear Eh. unfold LINE_LEN in Hlen.
  set (pre := if crlf then s ++ [13] else s). assert (E : (s ++ (if crlf then [13; 10] else [10])) ++ list_text crlf l = pre ++ 10 :: list_text crlf l) by (unfold pre; destruct crlf; by rewrite <- !app_assoc). rewrite E in *. assert (G : fgets LINE_LEN (pre ++ 10 :: list_text crlf l) = (pre ++ [10], list_text crlf l)).
  { apply fgets_entry; [unfold pre, LINE_LEN; destruct crlf; rewrite ?length_app; cbn; lia|]. unfold pre. destruct crlf; [apply Forall_app; split; [|repeat constructor; lia]|]; (eapply Forall_impl; [exact P|]; cbn; tauto). }
  rewrite length_app in Hl. cbn [length] in Hl. destruct fuel as [|fuel]; [lia|]. cbn [parse_lines]. destruct (pre ++ 10 :: list_text crlf l) as [|c f] eqn:Ep; [by destruct pre|]. rewrite G. assert (R : rtrim (ltrim (until_nul (pre ++ [10]))) = s) by (unfold pre; destruct crlf; [rewrite <- app_assoc|]; apply line_read; tauto || done). rewrite R, Ho. f_equal. apply IH. lia.
Qed.
(** An update is all or nothing, and what it saved is what is used: a fetch that fails, that yields no
    server or that cannot be saved leaves the list as it was; one that reports [n] servers leaves a
    file from which the program loads exactly the servers fetched, [n] of them; and a list of
    entries, one to a line with either ending, is read back as it was written. *)
Theorem update_then_load bundle file wget curl opened renamed :
  (let '(file', n) := stunlist_update file wget curl opened renamed in
   match n with
   | None => file' = file
   | Some n => exists tmp, run_fetch wget curl = Some tmp /\ stunlist_load bundle file' = parse_file tmp /\ length (stunlist_load bundle file') = n /\ (0 < n)%nat
   end) /\
  (forall crlf l, Forall entry_ok l -> l <> [] -> stunlist_load bundle (Some (list_text crlf l)) = l).
Proof.
  split.
  - unfold stunlist_update. destruct (run_fetch wget curl) as [tmp|]; [|done]. destruct opened; [|done]. destruct (parse_file tmp) as [|s l] eqn:E; [done|]. destruct renamed; [|done]. exists tmp. unfold stunlist_load. rewrite E. split; [done|]. split; [done|]. split; [done|cbn; lia].
  - intros crlf l H Hn. unfold stunlist_load, parse_file. rewrite parse_text by done. by destruct l.
Qed.
(** A fetched page that is not a list yields nothing; a line longer than the buffer is taken in pieces. *)
Example page_refused : stunlist_update None (Some (cstr "<html><body>404: not.found</body></html>")) None true true = (None, None).
Proof. vm_compute. reflexivity. Qed.
Example long_line_cut : parse_file (replicate 255 120 ++ cstr "stun.a.example:3478") = [cstr "stun.a.example:3478"].
Proof. vm_compute. reflexivity. Qed.
Lemma update_then_load_witness : stunlist_load [] (Some (list_text true [cstr "stun.a.example:3478"])) = [cstr "stun.a.example:3478"].
Proof.
  apply (update_then_load [] None None None true true); [|discriminate]. constructor; [|constructor]. split; [reflexivity|]. split; [vm_compute; lia|]. apply Forall_forall. intros c Hc. assert (H : forallb (fun c => negb (c =? 0) && negb (c =? 10) && negb (c =? 13)) (cstr "stun.a.example:3478") = true) by reflexivity. rewrite forallb_forall in H. apply list_elem_of_In in Hc. specialize (H c Hc). lia.
Defined.
